(* ===== verification/_CoqProject ===== *)
-Q . S2P
Prelude.v
Json.v
PyValue.v
Clock.v
Sha256.v
Uuid.v
Commands.v
LedgerSpec.v
Ledger.v
LedgerFacts.v
Resilience.v
Policy.v
Safety.v
Adapter.v
Registry.v
World.v
Bus.v
BusFacts.v
Fixtures.v
Reconciler.v
MemoryBus.v
Principal.v
Outbox.v
Inbox.v
InboxFacts.v
PgLedger.v
PgLedgerFacts.v
PgHistory.v
PgEquivalence.v
PgInbox.v
PgInboxFacts.v
SchemaReady.v
AutomationPolicy.v
Decision.v
Canary.v
Orders.v
Security.v
Automation.v
AutomationFacts.v
PgAutomation.v
PgAutomationFacts.v
AutomationApi.v
Calling.v
Temporal.v
CampaignSaga.v
Ingress.v
PgEvents.v
Kernel.v
Scenario.v
LedgerProps.v
BusProps.v
MemoryProps.v
KernelProps.v
PlatformProps.v
PgProps.v
InboxProps.v
OutboxProps.v
PgInboxProps.v
AutomationProps.v
DecisionProps.v
CanaryProps.v
OrdersProps.v
SecurityProps.v
AutomationJobProps.v
PgAutomationProps.v
AutomationApiProps.v
IngressProps.v
PgEventsProps.v
SagaProps.v
TemporalHistory.v
LedgerInvariant.v
CallingProps.v
TemporalProps.v
WorkflowProps.v
Witnesses.v
PgWitnesses.v
AutomationWitnesses.v
DecisionWitnesses.v
AutomationJobWitnesses.v
IngressWitnesses.v
