(* ===== verification/Prelude.v ===== *)
(** * Codestra Middleware: verification of the command kernel

    The middleware accepts commands from authenticated callers, decides whether
    they are allowed, keeps them in a ledger, hands them to provider adapters
    through an outbox, confirms their effect by reading it back, and repairs what
    was interrupted.  Its central promise is that an external effect is never
    blindly repeated and never reported as done without evidence.  This library
    models that path and proves what keeps the promise, and beside it the
    authorities that decide before a command exists: the automation policy, the
    production decision, the canary controller and the approval of orders; and the
    automation control plane, from a signed webhook through the jobs it creates to
    the commands their workers submit; and what carries a command out durably: the
    Temporal workflows over the ledger's tables, the internal calls they make, and
    the saga that carries Odoo's campaign changes.  The places where the code falls
    short are theorems too.

    ** The parts and the files that model them

    - [Prelude]: exceptions by class and message, the state-and-exception monad of
      every operation ([M], [let!], [try_], [finally_]), weakest preconditions,
      insertion-ordered dictionaries, strings, the [py] hint database, tactics.
    - [Json], [Sha256], [Uuid]: JSON values and the canonical [json.dumps], an
      executable SHA-256 with HMAC and URL-safe Base64, UUIDs, their text and the
      name-based ones over an executable SHA-1.  [Json] also has [redact_metadata]
      of [src/app/commands.py].
    - [PyValue], [Clock]: the Python values, comparisons and [repr] that the stores
      and policies use, instants and ISO 8601 texts.
    - [Commands] ([src/app/commands.py]): states, the transition table, the envelope
      and its validation, digests, operations, the capability policies.
    - [LedgerSpec], [Ledger], [LedgerFacts] ([src/app/commands.py],
      [MemoryCommandStore]): the class [CommandStore] is what the bus needs of a
      ledger, stated on the pure view of one operation; [Ledger] has the store's
      dictionaries as a record and one definition per method, and its instance of
      the class.
    - [Resilience], [Policy], [Safety], [Adapter], [Registry]
      ([src/app/platform/resilience.py], [safety.py], [adapter.py], [registry.py],
      [src/app/core/policy_engine.py]): retry delays, the circuit breaker, the
      bulkhead as a step relation on its events, the compliance and command
      policies, the safety gate with its token bucket, the adapter contract as a
      record of operations, and the registry of adapters.
    - [World], [Bus], [BusFacts] ([src/app/platform/bus.py]): the shared state of a
      running process (ledger, breakers, bulkheads, gate, clock, what adapters did
      outside) and [AdapterDispatch]: [dispatch], [recover], [execute_gated],
      [finalize], [readback_], [fail_].
    - [Fixtures] ([src/app/platform/adapters/fixtures.py]): concrete adapters.
    - [Reconciler] ([src/app/platform/reconciler.py]) over the
      record [ReconciliationSource]; [MemoryBus] ([src/app/platform/memory.py]): the
      in-memory outbox consumer and the in-memory source.
    - [Principal], [Kernel] ([src/app/platform/principal.py], [kernel.py]): who
      calls, and [CommandKernel.submit], [cancel], [retry], [replay].
    - [Outbox] ([src/app/storage.py], [src/app/worker.py]): the durable
      outbox, one transaction per method, and the worker that drains it.
    - [PgLedger] ([src/app/commands.py], [PostgresCommandStore], and
      [src/app/db/tenant_context.py]): the durable ledger over its tables, one
      transaction per method; [PgLedgerFacts] and [PgHistory] have its invariant
      and its refinement of the one-operation specification, [PgEquivalence] the
      relation between the two stores along a history of calls.
      [PgLedger] ends with the cancellation of an incident's waiting notifications
      ([src/app/observability_incidents.py]), the one writer of the ledger's tables
      outside the store and the workflows.
    - [Inbox], [InboxFacts] ([src/app/storage.py], [src/app/models.py]): the event
      inbox and the hash chain of accepted events with its verifier; [PgInbox],
      [PgInboxFacts]: [PostgresInboxStore] over its three tables.
    - [SchemaReady] ([src/app/storage.py], [src/app/commands.py]): the schema checks
      of both stores over what the catalogue queries answer.
    - [AutomationPolicy] ([src/app/automation_policy.py]): the policy document of the
      automation clients, its checks, and the authorisation of tokens and commands.
    - [Decision] ([src/app/production_decision.py], [src/app/capability_resolution.py],
      [src/app/api/internal/production_decision.py]): the GO / NO-GO of a release
      from its seven kinds of evidence, and the evidence-store route.
    - [Canary] ([src/app/provider_canary_controller.py],
      [src/app/api/internal/provider_canaries.py]): the canary plans, the ledger of
      synthetic runs with its rate deque and kill switch, and the create route.
    - [Orders] ([src/app/order_orchestration.py],
      [src/app/api/v1/orders.py]): the store of approved orders, the signed bodies,
      and the routes as steps of [order_step].
    - [Security] ([src/app/security.py]): bearer tokens, the tenants a token may act
      for, and the signature of a webhook.
    - [Automation], [AutomationFacts] ([src/app/automation_v2.py]): the request
      models, the workflow routes, and [MemoryAutomationStore], the state machine of
      automation jobs with their dispatches, dead letters, approvals and replays; the
      calls of its clients as the type [AutomationCall] and what each does.
    - [PgAutomation], [PgAutomationFacts] (the same file, [PostgresAutomationStore],
      over [src/migrations/automation/0001_automation_v2.sql]): the durable store,
      one transaction per method, and its relation to the in-memory one.
    - [AutomationApi] (the same file): [AutomationService], its authentication and
      the thirteen [/v2/automation] handlers over the ledger, the inbox and the jobs;
      and ([src/app/router_registry.py], [src/app/appolon_routes.py]) the status and
      code a raised exception is answered with.
    - [Ingress] ([src/app/service.py], [src/app/webhook_api.py],
      [src/app/contracts.py], [src/app/replay.py]): the webhook routes, their
      contract, [accept_webhook] and the replay guards, in memory and over Redis.
    - [PgEvents] ([src/app/automation_v2.py],
      [_accept_postgres_event_atomic]): an event's inbox row, chain entry, intent and
      jobs in one transaction over the tables of [PgInbox] and [PgAutomation].
    - [Calling] ([src/app/calling_contract.py], [calling_ledger.py],
      [telephony_api.py], [vicidial_internal_call_adapter.py]): the one call a grant
      allows, the evidence of it, the facade over either command store ([CallReads],
      [CallStore]), the four routes, and the adapter on the wire.
    - [Temporal] ([src/app/temporal_workflows.py], [temporal_activities.py],
      [temporal_transport.py], [src/app/provider_canary.py]): the five workflows as
      programs over their activities ([Wf]), each activity of the ledger on the
      tables of [PgLedger], the server that runs an activity at least once
      ([run_workflow]), and the dispatcher of outbox rows; [TemporalHistory]: what
      every writer of those tables keeps, and the steps of all of them ([tw_step]:
      the store's methods, each transaction of an activity, the reservation of a
      call, the claim of its dispatch, the cancellation of notifications);
      [LedgerInvariant]: the invariant all of them keep.
    - [CampaignSaga] ([src/app/odoo_campaign_saga.py],
      [src/app/adapters/odoo/campaign_control.py], [sync.py],
      [src/app/entrypoints/odoo_campaign_saga_worker.py]): the intake of Odoo's outbox,
      the enrolment, claim, dispatch and recovery of the sagas, and the worker's cycle.
    - [Scenario] and the files ending in [Witnesses]: a concrete runtime, and each
      conditional property applied to a run of it or to concrete data (for the
      automation policy, the document the repository ships).

    Operations that can raise return in [M S A := S -> outcome A * S]: what was done
    to the state before an exception stays done, as in Python.  A method of the
    durable outbox is one transaction and leaves the table alone when it raises;
    so is one of the other durable stores.  Provider adapters, handlers, the clock,
    the JSON-schema contract and time zones are code the repository does not contain:
    they are arguments, arbitrary unless a theorem names what it needs of them.  So are the
    decoding and verification of a JSON Web Token ([jwt_decode], and
    [tokens_verify] where a handler only calls the verifier), the parsing of a
    body into an event and of a token's segment ([parse_event], [segment_json]),
    the numeric and time conversions of the standard library ([to_float],
    [float_of_text], [int_of_float], [iso_timestamp]), the text PostgreSQL gives a
    [timestamptz], and the random tokens a store draws.  So are, for the durable
    execution, the fate of each attempt of an activity ([Fate]) and the faults of the
    connection ([Fault]), the bytes exchanged with the call server ([Wire]), the
    zone database ([zone_exists]), the reading of an aware instant ([aware],
    [iso_instant]) and of a grant file, the look-up of an outbox row's command
    ([lookup]), and the answers of Odoo, which are actions on the tables because
    other workers commit while one waits.

    ** What the theorems show

    - [LedgerProps]: the dictionaries implement the one-operation specification
      ([ledger_refines_spec]); along any history the events form a legal path
      to the current state, terminal states stay, identities and mutations are
      idempotent, stale attempts are fenced, envelopes read back as submitted.
    - [BusProps]: [completed] only after the owning adapter's readback MATCHED; no
      re-execution of an effect that may exist; the outcome of a dispatch on every
      branch; no operation left in a transient state; the reconciler never
      executes and lands each verdict as its contract says.
    - [MemoryProps], [OutboxProps]: a row is quarantined before provider code
      runs, stale leases are fenced, timeouts are final, the worker fails closed.
    - [KernelProps]: a refused submission writes nothing; an accepted one was
      authorised by policy, tenant, caller and safety gate.
    - [PlatformProps]: soundness of the gates and policies, kill switches latch,
      rate and concurrency bounds, the breaker's life cycle, routing, principals.
    - [PgProps]: the Postgres ledger refines its specification, [get] raising where
      the evidence a digest speaks for is not there; its own methods keep its
      invariant; it answers like the in-memory store on the calls and the parts of
      an answer that [stores_agree] names.
    - [LedgerInvariant]: identities, digests, the path of the audit, the numbers of
      the attempts and their evidence, over every writer of the tables
      ([ledger_invariant]).
    - [InboxProps], [PgInboxProps]: the event ledger always verifies, is
      tamper-evident, and takes an event in once; the durable inbox answers like
      the in-memory one and repairs a lost projection.
    - [SchemaReady]: what the stores require of the schema is coherent, and the
      check accepts exactly the databases that have it.
    - [MemoryProps] also: the drain of the in-memory bus ends within the attempts its
      rows have left, whatever the adapters answer.
    - [AutomationProps]: the family of a command type does not depend on the order
      of the families; a command is authorised exactly when its family says so,
      never to the platform's own clients; which errors a document can raise.
    - [DecisionProps]: when exactly a capability is authorised, that a decision
      agrees with itself, is an interval of time, and fails closed.
    - [CanaryProps]: when exactly a plan is allowed; the rate bound over any
      history; a canary runs once; the kill switch stops all of them.
    - [OrdersProps]: retries are bounded, intake is idempotent, and when exactly a
      dispatch is accepted.
    - [SecurityProps]: when exactly a token, a tenant and a signed request are
      accepted.
    - [AutomationJobProps]: the invariant of the automation store over any history
      of calls; only the holder of a live lease writes a leased job; attempts are
      bounded; a completion is final; an offered job can be completed; a replay
      needs an approval by somebody else and happens once; what a safe document is;
      the routes a document loads to; a refused call changes nothing
      ([automation_refusal]).  A replay consumes the dead letter, not its approval
      ([same_replay_accepted_again]).
    - [PgAutomationProps]: the durable store answers like the in-memory one, up to
      the ids its sequences draw, on histories without replays, decisions,
      reconciliations and repeated steps, and releases a dead letter once, for good.
    - [AutomationApiProps]: who may claim through the routes,
      what a submitted command has been checked for, and that a refused request
      leaves the stores alone and is answered with a client error, but for the two
      exceptions the theorem names.
    - [IngressProps]: what an accepted webhook has been checked for and leaves
      behind, its repetition ([event_accepted_once]), the routing of the shipped
      contract ([webhook_routes_indexed]), and the exclusion of the Redis guard.
    - [PgEventsProps]: an event is accepted with all of its effects or none, once,
      and as the in-memory acceptance does it when its tenant is one the tables admit.
    - [TemporalProps], [WorkflowProps]: a run executes a command at most once and
      reports it completed only with validated evidence; the command of an attempt is
      handed to the call adapter at most once over any history, and a refusal before
      transport or a matched verdict is final; a confirmed command completes, and one
      whose only execution is lost waits for reconciliation; a provisioning one of
      whose activities fails is compensated once; a submission is started once, as it
      is in the ledger.
    - [CallingProps]: one call per authorization, and one live call per employee and
      extension; a call is found by its owner only; terminal evidence ends a call.
    - [SagaProps]: the invariant of the sagas under any interleaving of workers; a
      report that failed in transport is sent again as it was; a reserved saga is
      completed.
    - Where the code does less than it means to: [readback_pending_stuck],
      [external_effect_never_executes], [stale_rejection_dead_letters],
      [version_fence_blind], [requeued_row_orphaned], [half_open_wedged],
      [policy_rules_skipped], [cancelled_not_replayable], [last_retry_raises],
      [pg_evidence_lost], [inboxes_differ_on_mixed_calls], [additive_migration],
      [approval_bypass], [order_overwritten], [result_of_another_order],
      [abandoned_job_stuck], [envelopes_differ_on_storage],
      [long_event_never_completes], [oversized_wedges], [traced_never_starts],
      [unnamed_product_uncompensated], [lost_answer_fails],
      [same_replay_accepted_again], [ill_named_tenant_refused].

    ** Bounds

    Integers that the code does not bound are [Z] or [nat]; times are exact
    rationals in seconds or integer microseconds.  [drain] takes the code's own
    limit as fuel, and [drain_terminates] shows how much is enough; the canary's deque
    is trimmed structurally; an activity is attempted as often as its retry policy
    says ([maximum_attempts]), which [command_completes] uses to the limit; every other
    loop is structural.  Columns of the saga's tables have their width ([row_fits],
    [int4]).  SHA-256 is the real function on
    32-bit words and is evaluated by the witnesses; [ledger_tamper_evident] assumes
    no collision among the texts of the two ledgers compared, nothing about
    SHA-256 in general.

    ** What is not modelled

    The platform's HTTP API ([src/app/platform/api.py]) is request parsing and
    response shaping over [Kernel]; the cryptography of tokens, the clients of
    providers, the signed headers and TLS of the call adapter, and the Temporal
    server are other people's code; the other provider adapters are HTTP clients
    whose behaviour the theorems leave arbitrary.  Configuration loading, reports
    ([describe]), metric rendering, and the field validation of pydantic models
    other than the command envelope, the automation requests, the call contract, the
    provider evidence and the saga's models are left out, as are the tenant inventory,
    the connector catalogue, and the feature services around the kernel (sales,
    social, recording, booking, e-mail, observability but for that cancellation), which are
    mostly SQL and HTTP.
    Endless polls ([run_forever]) are represented by their single pass, timers of a
    workflow by nothing.  Strings are byte strings: lengths, letter cases and
    patterns are those of ASCII text, which the modelled identifiers are. *)

From stdpp Require Export base tactics list option gmap strings.
From Stdlib Require Export ZArith Lia.
From Stdlib Require Import Ascii.

(** ** Exceptions

    One value for every exception the modelled code raises or catches.  The
    class is what [except] clauses and [type(exc).__name__] look at; the
    message is the text the code gives it.  [Foreign] is an exception raised
    by code the program does not contain (a provider client, the event loop):
    its Python class and the names of that class's base classes. *)
Inductive exn_class :=
  | CommandConflict | CommandNotFound | CommandCapabilityDisabled
  | PolicyDenied | SafetyDenied | KernelSaturated | ReplayNotAllowed
  | AdapterConfigurationError | AdapterRegistryError
  | CircuitOpen | BulkheadFull | KnownSafeRetryError | UnknownOutcomeError
  | AuthorizationError | ReplayConflict | EventLedgerIntegrityError
  | StorageError | ReconciliationError
  | AutomationPolicyError | AutomationAuthorizationError
  | AutomationError | AutomationAuthenticationError | AutomationAuthorizationDenied
  | AutomationNotFound | AutomationConflict | AutomationCapabilityDisabled
  | AuthenticationError | SignatureError | RequestValidationError | ConfigurationError
  | ReplayBusy | EventTypeError | ReplayConflictError | ProcessingConflictError | PayloadTooLargeError
  | PermissionError | StopIteration | IdempotencyConflict | HTTPException (status : nat)
  | SagaError | SagaConfigurationError | ResolutionDenied | RegistryDependencyUnavailable
  | OdooCampaignAdapterError | OdooCampaignStaleVersion | OdooCampaignAdapterUnavailable
  | CallingContractError | OdooSyncError
  | OdooProviderAdapterError | KlyrowAlertAdapterError | TelnexaProviderAdapterError
  | KlyrowEmailAdapterError | PostlySocialAdapterError | PostlySocialUnknownOutcomeError
  | VicidialInternalCallError | VicidialInternalCallUnknown | VicidialInternalCallPreDispatchRejected
  | ApplicationError (type : string) (non_retryable : bool) | ActivityError
  | ValueError | KeyError | TypeError | RuntimeError | TimeoutError
  | Foreign (name : string) (bases : list string).

#[export] Instance exn_class_eq_dec : EqDecision exn_class.
Proof. solve_decision. Defined.

Record exn := Exn { exn_cls : exn_class; exn_msg : string }.

#[export] Instance exn_eq_dec : EqDecision exn.
Proof. solve_decision. Defined.

(** [type(exc).__name__] *)
Definition exn_name (e : exn) : string :=
  match exn_cls e with
  | CommandConflict => "CommandConflict"
  | CommandNotFound => "CommandNotFound"
  | CommandCapabilityDisabled => "CommandCapabilityDisabled"
  | PolicyDenied => "PolicyDenied"
  | SafetyDenied => "SafetyDenied"
  | KernelSaturated => "KernelSaturated"
  | ReplayNotAllowed => "ReplayNotAllowed"
  | AdapterConfigurationError => "AdapterConfigurationError"
  | AdapterRegistryError => "AdapterRegistryError"
  | CircuitOpen => "CircuitOpen"
  | BulkheadFull => "BulkheadFull"
  | KnownSafeRetryError => "KnownSafeRetryError"
  | UnknownOutcomeError => "UnknownOutcomeError"
  | AuthorizationError => "AuthorizationError"
  | ReplayConflict => "ReplayConflict"
  | EventLedgerIntegrityError => "EventLedgerIntegrityError"
  | StorageError => "StorageError"
  | ReconciliationError => "ReconciliationError"
  | AutomationPolicyError => "AutomationPolicyError"
  | AutomationAuthorizationError => "AutomationAuthorizationError"
  | AutomationError => "AutomationError"
  | AutomationAuthenticationError => "AutomationAuthenticationError"
  | AutomationAuthorizationDenied => "AutomationAuthorizationDenied"
  | AutomationNotFound => "AutomationNotFound"
  | AutomationConflict => "AutomationConflict"
  | AutomationCapabilityDisabled => "AutomationCapabilityDisabled"
  | AuthenticationError => "AuthenticationError"
  | SignatureError => "SignatureError"
  | RequestValidationError => "RequestValidationError"
  | ConfigurationError => "ConfigurationError"
  | ReplayBusy => "ReplayBusy"
  | EventTypeError => "EventTypeError"
  | ReplayConflictError => "ReplayConflictError"
  | ProcessingConflictError => "ProcessingConflictError"
  | PayloadTooLargeError => "PayloadTooLargeError"
  | PermissionError => "PermissionError"
  | StopIteration => "StopIteration"
  | IdempotencyConflict => "IdempotencyConflict"
  | HTTPException _ => "HTTPException"
  | SagaError => "SagaError"
  | SagaConfigurationError => "SagaConfigurationError"
  | ResolutionDenied => "ResolutionDenied"
  | RegistryDependencyUnavailable => "RegistryDependencyUnavailable"
  | OdooCampaignAdapterError => "OdooCampaignAdapterError"
  | OdooCampaignStaleVersion => "OdooCampaignStaleVersion"
  | OdooCampaignAdapterUnavailable => "OdooCampaignAdapterUnavailable"
  | CallingContractError => "CallingContractError"
  | OdooSyncError => "OdooSyncError"
  | OdooProviderAdapterError => "OdooProviderAdapterError"
  | KlyrowAlertAdapterError => "KlyrowAlertAdapterError"
  | TelnexaProviderAdapterError => "TelnexaProviderAdapterError"
  | KlyrowEmailAdapterError => "KlyrowEmailAdapterError"
  | PostlySocialAdapterError => "PostlySocialAdapterError"
  | PostlySocialUnknownOutcomeError => "PostlySocialUnknownOutcomeError"
  | VicidialInternalCallError => "VicidialInternalCallError"
  | VicidialInternalCallUnknown => "VicidialInternalCallUnknown"
  | VicidialInternalCallPreDispatchRejected => "VicidialInternalCallPreDispatchRejected"
  | ApplicationError _ _ => "ApplicationError"
  | ActivityError => "ActivityError"
  | ValueError => "ValueError"
  | KeyError => "KeyError"
  | TypeError => "TypeError"
  | RuntimeError => "RuntimeError"
  | TimeoutError => "TimeoutError"
  | Foreign n _ => n
  end.

(** ** The state-and-exception monad

    A Python statement list: what it did to the state before raising stays
    done, so the state is returned in both cases. *)
Inductive outcome (A : Type) :=
  | Ret (a : A)
  | Exc (e : exn).
Arguments Ret {A} a.
Arguments Exc {A} e.

Definition M (S A : Type) : Type := S -> outcome A * S.

Definition ret {S A} (a : A) : M S A := fun s => (Ret a, s).
Definition raise {S A} (c : exn_class) (msg : string) : M S A :=
  fun s => (Exc (Exn c msg), s).
Definition reraise {S A} (e : exn) : M S A := fun s => (Exc e, s).
Definition bind {S A B} (m : M S A) (k : A -> M S B) : M S B := fun s =>
  match m s with
  | (Ret a, s') => k a s'
  | (Exc e, s') => (Exc e, s')
  end.
(** the names [isinstance] is asked about: the class and its bases *)
Definition class_names (c : exn_class) : list string :=
  match c with
  | Foreign n bases => n :: bases
  | AdapterConfigurationError => ["AdapterConfigurationError"; "ValueError"; "Exception"]
  | AutomationPolicyError => ["AutomationPolicyError"; "RuntimeError"; "Exception"]
  | AutomationAuthorizationError => ["AutomationAuthorizationError"; "RuntimeError"; "Exception"]
  | IdempotencyConflict => ["IdempotencyConflict"; "RuntimeError"; "Exception"]
  | CommandConflict | CommandNotFound | CommandCapabilityDisabled =>
      [exn_name (Exn c ""); "CommandError"; "RuntimeError"; "Exception"]
  | StorageError => ["StorageError"; "RuntimeError"; "Exception"]
  | ReplayConflict | ReconciliationError | EventLedgerIntegrityError =>
      [exn_name (Exn c ""); "StorageError"; "RuntimeError"; "Exception"]
  | AutomationError => ["AutomationError"; "CommandError"; "RuntimeError"; "Exception"]
  | AutomationAuthenticationError | AutomationAuthorizationDenied | AutomationNotFound | AutomationConflict =>
      [exn_name (Exn c ""); "AutomationError"; "CommandError"; "RuntimeError"; "Exception"]
  | AutomationCapabilityDisabled =>
      ["AutomationCapabilityDisabled"; "AutomationAuthorizationDenied"; "AutomationError"; "CommandError";
       "RuntimeError"; "Exception"]
  | AuthenticationError | AuthorizationError | SignatureError | RequestValidationError =>
      [exn_name (Exn c ""); "SecurityError"; "RuntimeError"; "Exception"]
  | EventTypeError | ReplayConflictError | ProcessingConflictError | PayloadTooLargeError =>
      [exn_name (Exn c ""); "IngressError"; "RuntimeError"; "Exception"]
  | ConfigurationError => ["ConfigurationError"; "ValueError"; "Exception"]
  | CallingContractError => ["CallingContractError"; "ValueError"; "Exception"]
  | SagaConfigurationError => ["SagaConfigurationError"; "SagaError"; "RuntimeError"; "Exception"]
  | OdooCampaignStaleVersion | OdooCampaignAdapterUnavailable =>
      [exn_name (Exn c ""); "OdooCampaignAdapterError"; "RuntimeError"; "Exception"]
  | VicidialInternalCallUnknown | VicidialInternalCallPreDispatchRejected =>
      [exn_name (Exn c ""); "VicidialInternalCallError"; "RuntimeError"; "Exception"]
  | SagaError | ResolutionDenied | RegistryDependencyUnavailable | OdooCampaignAdapterError | OdooSyncError
  | OdooProviderAdapterError | KlyrowAlertAdapterError | TelnexaProviderAdapterError | KlyrowEmailAdapterError
  | PostlySocialAdapterError | PostlySocialUnknownOutcomeError | VicidialInternalCallError =>
      [exn_name (Exn c ""); "RuntimeError"; "Exception"]
  | ApplicationError _ _ | ActivityError => [exn_name (Exn c ""); "FailureError"; "TemporalError"; "Exception"]
  | PermissionError => ["PermissionError"; "OSError"; "Exception"]
  | _ => [exn_name (Exn c ""); "Exception"]
  end.
Definition isinstance (e : exn) (names : list string) : bool :=
  existsb (fun n => bool_decide (n ∈ names)) (class_names (exn_cls e)).
(** an [Exception]; a task's cancellation is a [BaseException] only *)
Definition is_exception (e : exn) : bool := isinstance e ["Exception"].

(** [try: m except p as e: h e], the clause taken when [p e] *)
Definition catch_ {S A} (p : exn -> bool) (m : M S A) (h : exn -> M S A) : M S A := fun s =>
  match m s with
  | (Ret a, s') => (Ret a, s')
  | (Exc e, s') => if p e then h e s' else (Exc e, s')
  end.
(** [try: m except Exception as e: h e] *)
Definition try_ {S A} (m : M S A) (h : exn -> M S A) : M S A := catch_ is_exception m h.
(** [try: m finally: f] *)
Definition finally_ {S A} (m : M S A) (f : M S unit) : M S A := fun s =>
  let (r, s') := m s in
  match f s' with
  | (Ret _, s'') => (r, s'')
  | (Exc e, s'') => (Exc e, s'')
  end.
(** raise the exception of a pure computation *)
Definition lift_outcome {S A} (o : outcome A) : M S A := fun s => (o, s).
Definition gets {S A} (f : S -> A) : M S A := fun s => (Ret (f s), s).
Definition modify {S} (f : S -> S) : M S unit := fun s => (Ret tt, f s).
(** run an action of a component on the part of the state it owns *)
Definition zoom {S T A} (get : S -> T) (set : T -> S -> S) (m : M T A) : M S A :=
  fun s => let (r, t) := m (get s) in (r, set t s).

Declare Scope py_scope.
Delimit Scope py_scope with py.
Notation "'let!' x ':=' m 'in' k" := (bind m (fun x => k))
  (at level 200, x name, m at level 100, k at level 200, right associativity) : py_scope.
Notation "'let!' ' p ':=' m 'in' k" := (bind m (fun x => match x with p => k end))
  (at level 200, p pattern, m at level 100, k at level 200, right associativity) : py_scope.
Notation "m ';;;' k" := (bind m (fun _ => k))
  (at level 199, right associativity) : py_scope.
Open Scope py_scope.

(** an [if] without [else] *)
Definition when {S} (b : bool) (m : M S unit) : M S unit := if b then m else ret tt.

Lemma bind_run {S A B} (m : M S A) (k : A -> M S B) s a s' :
  m s = (Ret a, s') -> bind m k s = k a s'.
Proof. unfold bind. intros ->. done. Qed.
Lemma bind_lift_ret {S A B} (a : A) (k : A -> M S B) s :
  bind (lift_outcome (Ret a)) k s = k a s.
Proof. done. Qed.
Lemma bind_ext {S A B} (m m' : M S A) (k k' : A -> M S B) s :
  m s = m' s -> (forall a s', k a s' = k' a s') -> bind m k s = bind m' k' s.
Proof. intros Hm Hk. unfold bind. rewrite Hm. destruct (m' s) as [[a|e] s']; [apply Hk|done]. Qed.
Lemma finally_ext {S A} (m m' : M S A) (f : M S unit) s : m s = m' s -> finally_ m f s = finally_ m' f s.
Proof. intros Hm. unfold finally_. by rewrite Hm. Qed.
Lemma bind_exc {S A B} (m : M S A) (k : A -> M S B) s e s' :
  m s = (Exc e, s') -> bind m k s = (Exc e, s').
Proof. unfold bind. intros ->. done. Qed.
Lemma bind_Ret_inv {S A B} (m : M S A) (k : A -> M S B) s b s'' :
  bind m k s = (Ret b, s'') ->
  exists a s', m s = (Ret a, s') /\ k a s' = (Ret b, s'').
Proof. unfold bind. destruct (m s) as [[a|e] s']; [eauto|done]. Qed.
Lemma bind_assoc {S A B C} (m : M S A) (f : A -> M S B) (g : B -> M S C) s :
  bind (bind m f) g s = bind m (fun a => bind (f a) g) s.
Proof. unfold bind. destruct (m s) as [[a|e] s']; done. Qed.

(** [preserves P m]: the action keeps [P], whether it returns or raises. *)
Definition preserves {S A} (P : S -> Prop) (m : M S A) : Prop :=
  forall s, P s -> P (snd (m s)).

Lemma preserves_ret {S A} (P : S -> Prop) (a : A) : preserves P (ret a).
Proof. by intros s Hs. Qed.
Lemma preserves_raise {S A} (P : S -> Prop) c msg : preserves P (raise (A:=A) c msg).
Proof. by intros s Hs. Qed.
Lemma preserves_reraise {S A} (P : S -> Prop) e : preserves P (reraise (A:=A) e).
Proof. by intros s Hs. Qed.
Lemma preserves_gets {S A} (P : S -> Prop) (f : S -> A) : preserves P (gets f).
Proof. by intros s Hs. Qed.
Lemma preserves_modify {S} (P : S -> Prop) (f : S -> S) :
  (forall s, P s -> P (f s)) -> preserves P (modify f).
Proof. intros H s Hs. by apply H. Qed.
Lemma preserves_bind {S A B} (P : S -> Prop) (m : M S A) (k : A -> M S B) :
  preserves P m -> (forall a, preserves P (k a)) -> preserves P (bind m k).
Proof.
  intros Hm Hk s Hs. unfold bind. specialize (Hm s Hs).
  destruct (m s) as [[a|e] s']; [by apply Hk|done].
Qed.
Lemma preserves_catch {S A} (P : S -> Prop) p (m : M S A) h :
  preserves P m -> (forall e, preserves P (h e)) -> preserves P (catch_ p m h).
Proof.
  intros Hm Hh s Hs. unfold catch_. specialize (Hm s Hs).
  destruct (m s) as [[a|e] s']; [done|]. destruct (p e); [by apply Hh|done].
Qed.
Lemma preserves_try {S A} (P : S -> Prop) (m : M S A) h :
  preserves P m -> (forall e, preserves P (h e)) -> preserves P (try_ m h).
Proof. apply preserves_catch. Qed.
Lemma preserves_finally {S A} (P : S -> Prop) (m : M S A) f :
  preserves P m -> preserves P f -> preserves P (finally_ m f).
Proof.
  intros Hm Hf s Hs. unfold finally_. specialize (Hm s Hs).
  destruct (m s) as [r s']. specialize (Hf s' Hm). by destruct (f s') as [[u|e] s''].
Qed.
Lemma preserves_lift {S A} (P : S -> Prop) (o : outcome A) : preserves P (lift_outcome o).
Proof. by intros s Hs. Qed.
Lemma preserves_when {S} (P : S -> Prop) b (m : M S unit) :
  preserves P m -> preserves P (when b m).
Proof. destruct b; [done|intros _; apply preserves_ret]. Qed.
Lemma preserves_if {S A} (P : S -> Prop) (b : bool) (m1 m2 : M S A) :
  preserves P m1 -> preserves P m2 -> preserves P (if b then m1 else m2).
Proof. by destruct b. Qed.

Create HintDb py.
#[export] Hint Resolve preserves_ret preserves_raise preserves_reraise preserves_gets
  preserves_modify preserves_bind preserves_try preserves_catch preserves_finally preserves_lift preserves_when preserves_if : py.

(** ** Weakest preconditions

    [wp m Q s]: running [m] from [s] ends in a result and a state that
    satisfy [Q]. *)
Definition wp {S A} (m : M S A) (Q : outcome A -> S -> Prop) (s : S) : Prop :=
  Q (fst (m s)) (snd (m s)).

Section Wp.
  Context {S A B : Type}.
  Implicit Types (m : M S A) (Q : outcome A -> S -> Prop).

Lemma wp_run m Q s r s' : m s = (r, s') -> Q r s' -> wp m Q s.
Proof. unfold wp. by intros ->. Qed.
Lemma wp_inv m Q s r s' : wp m Q s -> m s = (r, s') -> Q r s'.
Proof. unfold wp. intros H E. by rewrite E in H. Qed.
Lemma wp_mono m Q Q' s : wp m Q s -> (forall r s', Q r s' -> Q' r s') -> wp m Q' s.
Proof. intros H HQ. by apply HQ. Qed.
Lemma wp_ret (a : A) Q s : Q (Ret a) s -> wp (ret a) Q s.
Proof. done. Qed.
Lemma wp_raise c msg Q s : Q (Exc (Exn c msg)) s -> wp (raise c msg) Q s.
Proof. done. Qed.
Lemma wp_reraise e Q s : Q (Exc e) s -> wp (reraise e) Q s.
Proof. done. Qed.
Lemma wp_gets (f : S -> A) Q s : Q (Ret (f s)) s -> wp (gets f) Q s.
Proof. done. Qed.
Lemma wp_lift (o : outcome A) Q s : Q o s -> wp (lift_outcome o) Q s.
Proof. done. Qed.
Lemma wp_bind (m : M S B) (k : B -> M S A) Q s :
  wp m (fun r s' => match r with Ret b => wp (k b) Q s' | Exc e => Q (Exc e) s' end) s ->
  wp (bind m k) Q s.
Proof. unfold wp, bind. by destruct (m s) as [[b|e] s']. Qed.
Lemma wp_catch (p : exn -> bool) m (h : exn -> M S A) Q s :
  wp m (fun r s' => match r with
    | Ret a => Q (Ret a) s'
    | Exc e => if p e then wp (h e) Q s' else Q (Exc e) s' end) s ->
  wp (catch_ p m h) Q s.
Proof. unfold wp, catch_. destruct (m s) as [[b|e] s']; simpl; [done|]. by destruct (p e). Qed.
Lemma wp_try m (h : exn -> M S A) Q s :
  wp m (fun r s' => match r with
    | Ret a => Q (Ret a) s'
    | Exc e => if is_exception e then wp (h e) Q s' else Q (Exc e) s' end) s ->
  wp (try_ m h) Q s.
Proof. apply wp_catch. Qed.
Lemma wp_finally m (f : M S unit) Q s :
  wp m (fun r s' => wp f (fun r' s'' => match r' with Ret _ => Q r s'' | Exc e => Q (Exc e) s'' end) s') s ->
  wp (finally_ m f) Q s.
Proof. unfold wp, finally_. destruct (m s) as [r s']; simpl. by destruct (f s') as [[u|e] s'']. Qed.
End Wp.
Lemma wp_modify {S} (f : S -> S) Q s : Q (Ret tt) (f s) -> wp (modify f) Q s.
Proof. done. Qed.
Lemma preserves_wp {S A} (P : S -> Prop) (m : M S A) s :
  preserves P m -> P s -> wp m (fun _ s' => P s') s.
Proof. intros H Hs. by apply H. Qed.

(** ** Python dictionaries whose order matters

    Insertion-ordered association lists; assigning to a present key keeps
    its position, as CPython does. *)
Section Dict.
  Context {K V : Type} `{EqDecision K}.

Fixpoint dict_get (k : K) (d : list (K * V)) : option V :=
  match d with
  | [] => None
  | (k', v) :: d' => if decide (k = k') then Some v else dict_get k d'
  end.

Fixpoint dict_set (k : K) (v : V) (d : list (K * V)) : list (K * V) :=
  match d with
  | [] => [(k, v)]
  | (k', v') :: d' => if decide (k = k') then (k, v) :: d' else (k', v') :: dict_set k v d'
  end.

Fixpoint dict_pop (k : K) (d : list (K * V)) : list (K * V) :=
  match d with
  | [] => []
  | (k', v') :: d' => if decide (k = k') then d' else (k', v') :: dict_pop k d'
  end.

(** [{**d1, **d2}] *)
Definition dict_merge (d1 d2 : list (K * V)) : list (K * V) :=
  fold_left (fun d kv => dict_set (fst kv) (snd kv) d) d2 d1.

Definition dict_keys (d : list (K * V)) : list K := map fst d.

Lemma dict_get_set_eq k v d : dict_get k (dict_set k v d) = Some v.
Proof. induction d as [|[k' v'] d IH]; simpl; repeat case_decide; simpl; repeat case_decide; congruence. Qed.
Lemma dict_get_set_ne k k' v d : k <> k' -> dict_get k (dict_set k' v d) = dict_get k d.
Proof.
  intros Hne. induction d as [|[k2 v2] d IH]; simpl; repeat case_decide; simpl;
    repeat case_decide; congruence.
Qed.
Lemma dict_get_Some_In k v d : dict_get k d = Some v -> In (k, v) d.
Proof.
  induction d as [|[k' v'] d IH]; simpl; [done|]. case_decide.
  - intros [= ->]. subst. by left.
  - intros H'. right. by apply IH.
Qed.
Lemma dict_set_keys k v d k' :
  In k' (dict_keys (dict_set k v d)) <-> k' = k \/ In k' (dict_keys d).
Proof.
  induction d as [|[k2 v2] d IH]; simpl; [naive_solver|].
  case_decide; simpl; [naive_solver|]. rewrite IH. naive_solver.
Qed.
Lemma dict_set_NoDup k v d : NoDup (dict_keys d) -> NoDup (dict_keys (dict_set k v d)).
Proof.
  unfold dict_keys. induction d as [|[k2 v2] d IH]; simpl; intros Hnd.
  - apply NoDup_singleton.
  - apply NoDup_cons in Hnd as [Hk Hnd]. case_decide; simpl.
    + subst. by apply NoDup_cons.
    + apply NoDup_cons. split; [|by apply IH].
      rewrite list_elem_of_In in Hk |- *.
      fold (dict_keys d) in Hk. fold (dict_keys (dict_set k v d)).
      rewrite dict_set_keys. naive_solver.
Qed.
Lemma dict_get_None k d : dict_get k d = None <-> ~ In k (dict_keys d).
Proof.
  induction d as [|[k' v'] d IH]; simpl; [naive_solver|].
  case_decide; [naive_solver|]. rewrite IH. naive_solver.
Qed.
End Dict.

(** ** Strings

    A Python [str] is a Rocq [string] whose characters stand for its code
    points; the modelled fields are ASCII, where UTF-8 encoding is the
    identity. *)

(** [s[:n]] *)
Definition str_take (n : nat) (s : string) : string := String.substring 0 n s.
(** [s.startswith(p)] *)
Definition starts_with (p s : string) : bool := String.prefix p s.
(** [part in s] *)
Definition str_contains (part s : string) : bool :=
  match String.index 0 part s with Some _ => true | None => false end.

Definition lower_ascii (c : ascii) : ascii :=
  let n := nat_of_ascii c in
  if ((65 <=? n) && (n <=? 90))%nat then ascii_of_nat (n + 32) else c.
(** [s.lower()] *)
Fixpoint str_lower (s : string) : string :=
  match s with
  | EmptyString => EmptyString
  | String c s' => String (lower_ascii c) (str_lower s')
  end.
(** [s.split(c, 1)[0]] *)
Fixpoint before_char (c : ascii) (s : string) : string :=
  match s with
  | EmptyString => EmptyString
  | String a s' => if Ascii.eqb a c then EmptyString else String a (before_char c s')
  end.
Definition str_nonempty (s : string) : bool :=
  match s with EmptyString => false | _ => true end.
(** [value if isinstance(value, str) and value else None] *)
Definition truthy_str (o : option string) : option string :=
  match o with Some s => if str_nonempty s then Some s else None | None => None end.
(** [a or b] on optional strings *)
Definition str_or (a b : option string) : option string :=
  match truthy_str a with Some s => Some s | None => b end.

Fixpoint str_forallb (f : ascii -> bool) (s : string) : bool :=
  match s with
  | EmptyString => true
  | String c s' => f c && str_forallb f s'
  end.
Definition char_in (lo hi : nat) (c : ascii) : bool :=
  ((lo <=? nat_of_ascii c) && (nat_of_ascii c <=? hi))%nat.
Definition is_lower_alnum (c : ascii) : bool := char_in 97 122 c || char_in 48 57 c.
(** [[a-z0-9]+(?:[SEP][a-z0-9]+)*]: non-empty alphanumeric runs separated by
    single separators; the result counts the separators. *)
Fixpoint alnum_runs (sep : ascii -> bool) (run : bool) (s : string) : option nat :=
  match s with
  | EmptyString => if run then Some 0%nat else None
  | String c s' =>
      if is_lower_alnum c then alnum_runs sep true s'
      else if sep c && run then S <$> alnum_runs sep false s'
      else None
  end.

Definition mem_string (x : string) (l : list string) : bool := bool_decide (x ∈ l).

Lemma mem_string_spec x l : mem_string x l = true <-> x ∈ l.
Proof. apply bool_decide_eq_true. Qed.

(** ** Lists *)

(** [next((x for x in l if p(x)), None)] with the position of the element *)
Fixpoint find_index {A} (p : A -> bool) (l : list A) : option nat :=
  match l with
  | [] => None
  | x :: l' => if p x then Some 0%nat else S <$> find_index p l'
  end.

Lemma find_index_Some {A} (p : A -> bool) l i :
  find_index p l = Some i -> exists x, l !! i = Some x /\ p x = true.
Proof.
  revert i. induction l as [|x l IH]; intros i; simpl; [done|].
  destruct (p x) eqn:Hp.
  - intros [= <-]. by exists x.
  - destruct (find_index p l) as [j|]; simpl; [|done]. intros [= <-].
    destruct (IH j eq_refl) as (y & ? & ?). by exists y.
Qed.
Lemma find_index_first {A} (p : A -> bool) l i :
  find_index p l = Some i -> forall j x, j < i -> l !! j = Some x -> p x = false.
Proof.
  revert i. induction l as [|y l IH]; intros i; simpl; [done|].
  destruct (p y) eqn:Hp; [intros [= <-]; lia|].
  destruct (find_index p l) as [k|]; simpl; [|done]. intros [= <-] j x Hj Hx.
  destruct j as [|j]; simpl in Hx; [congruence|]. by eapply (IH k eq_refl j); [lia|].
Qed.
Lemma find_index_None {A} (p : A -> bool) l :
  find_index p l = None -> forall x, x ∈ l -> p x = false.
Proof.
  induction l as [|y l IH]; simpl; intros H x Hx; [by apply elem_of_nil in Hx|].
  destruct (p y) eqn:Hp; [done|].
  destruct (find_index p l); simpl in H; [done|].
  apply elem_of_cons in Hx as [->|Hx]; [done|by apply IH].
Qed.

(** replace the last element of a list, [l[-1] = f(l[-1])] *)
Definition alter_last {A} (f : A -> A) (l : list A) : list A :=
  alter f (pred (length l)) l.

Lemma length_alter_last {A} (f : A -> A) l : length (alter_last f l) = length l.
Proof. apply length_alter. Qed.

(** ** Tactics *)

(** Case-split on every [if]/[match] scrutinee that blocks a hypothesis. *)
Ltac split_matches :=
  repeat match goal with
  | H : context [match ?x with _ => _ end] |- _ =>
      lazymatch x with
      | context [match _ with _ => _ end] => fail
      | _ => destruct x eqn:?
      end; simplify_eq/=; try done
  end.

(** Case-split on the outermost [if] of an equation's left-hand side. *)
Ltac split_if :=
  lazymatch goal with
  | |- (if ?b then _ else _) = _ -> _ => destruct b eqn:?
  | |- (if ?b then _ else _) = _ => destruct b eqn:?
  end; try discriminate.

Ltac deex :=
  repeat match goal with
  | H : exists _, _ |- _ => destruct H
  | H : _ /\ _ |- _ => destruct H
  end.
