(* ===== verification/Json.v ===== *)
(** * JSON values, their canonical text, and metadata redaction

    The values the ledger stores in payloads and metadata, [json.dumps] with
    [sort_keys=True, separators=(",", ":"), ensure_ascii=False] (the canonical
    encoding every digest of the program is taken over), and
    [redact_metadata] of [src/app/commands.py]. *)

From stdpp Require Import pretty.
From Stdlib Require Import Ascii.
From S2P Require Import Prelude.

(** A float is kept as its [repr]: the program stores floats, it never
    computes on one it read from a payload. *)
Inductive json :=
  | JNull
  | JBool (b : bool)
  | JInt (z : Z)
  | JFloat (repr : string)
  | JStr (s : string)
  | JArr (l : list json)
  | JObj (d : list (string * json)).

Abbreviation jdict := (list (string * json)).

Section Induction.
  Variable P : json -> Prop.
  Hypothesis Pnull : P JNull.
  Hypothesis Pbool : forall b, P (JBool b).
  Hypothesis Pint : forall z, P (JInt z).
  Hypothesis Pfloat : forall r, P (JFloat r).
  Hypothesis Pstr : forall s, P (JStr s).
  Hypothesis Parr : forall l, Forall P l -> P (JArr l).
  Hypothesis Pobj : forall d, Forall (fun kv => P (snd kv)) d -> P (JObj d).

(** induction that reaches the children of arrays and objects *)
Fixpoint json_rec' (j : json) : P j :=
  match j with
  | JNull => Pnull
  | JBool b => Pbool b
  | JInt z => Pint z
  | JFloat r => Pfloat r
  | JStr s => Pstr s
  | JArr l => Parr l ((fix go (l : list json) : Forall P l :=
      match l with [] => Forall_nil_2 _ | x :: l' => Forall_cons_2 _ _ _ (json_rec' x) (go l') end) l)
  | JObj d => Pobj d ((fix go (d : jdict) : Forall (fun kv => P (snd kv)) d :=
      match d with
      | [] => Forall_nil_2 _
      | kv :: d' => Forall_cons_2 _ _ _ (json_rec' (snd kv)) (go d')
      end) d)
  end.
End Induction.

(** ** [json.dumps], canonical *)

Definition quote_char : ascii := ascii_of_nat 34.
Definition quote : string := String quote_char EmptyString.

Definition hex_digit (n : nat) : ascii :=
  if (n <? 10)%nat then ascii_of_nat (48 + n) else ascii_of_nat (87 + n).

(** one character inside a JSON string literal, [ensure_ascii=False] *)
Definition escape_char (c : ascii) : string :=
  let n := nat_of_ascii c in
  let backslash x := String (ascii_of_nat 92) (String x EmptyString) in
  match n with
  | 34 => backslash quote_char
  | 92 => backslash (ascii_of_nat 92)
  | 8 => backslash "b"%char
  | 9 => backslash "t"%char
  | 10 => backslash "n"%char
  | 12 => backslash "f"%char
  | 13 => backslash "r"%char
  | _ =>
      if (n <? 32)%nat
      then String (ascii_of_nat 92) "u00" +:+
           String (hex_digit (n / 16)) (String (hex_digit (n mod 16)) EmptyString)
      else String c EmptyString
  end.

Fixpoint escape (s : string) : string :=
  match s with
  | EmptyString => EmptyString
  | String c s' => escape_char c +:+ escape s'
  end.

Definition dump_string (s : string) : string := quote +:+ escape s +:+ quote.

Fixpoint join (sep : string) (l : list string) : string :=
  match l with
  | [] => ""
  | [x] => x
  | x :: l' => x +:+ sep +:+ join sep l'
  end.

(** [sorted(items)] by key *)
Fixpoint insert_field {V} (kv : string * V) (l : list (string * V)) : list (string * V) :=
  match l with
  | [] => [kv]
  | kv' :: l' => if String.leb (fst kv) (fst kv') then kv :: l else kv' :: insert_field kv l'
  end.
Definition sort_fields {V} (l : list (string * V)) : list (string * V) :=
  fold_right insert_field [] l.

Definition dump_field (kv : string * string) : string := dump_string (fst kv) +:+ ":" +:+ snd kv.

Fixpoint dumps (j : json) : string :=
  match j with
  | JNull => "null"
  | JBool true => "true"
  | JBool false => "false"
  | JInt z => pretty z
  | JFloat r => r
  | JStr s => dump_string s
  | JArr l => "[" +:+ join "," (map dumps l) +:+ "]"
  | JObj d =>
      "{" +:+ join "," (map dump_field (sort_fields (map (fun kv => (fst kv, dumps (snd kv))) d)))
      +:+ "}"
  end.

(** ** Optional strings *)
Definition jopt (o : option string) : json := from_option JStr JNull o.

(** ** Redaction, [redact_metadata] *)

Definition sensitive_metadata_parts : list string :=
  ["authorization"; "token"; "password"; "secret"; "credential"; "private_key"; "api_key";
   "access_token"; "refresh_token"].

Definition sensitive_key (k : string) : bool :=
  existsb (fun part => str_contains part (str_lower k)) sensitive_metadata_parts.

(** the inner [clean]: a sensitive key's whole value is replaced *)
Fixpoint clean (item : json) : json :=
  match item with
  | JObj d =>
      JObj (map (fun kv => (fst kv, if sensitive_key (fst kv) then JStr "[REDACTED]"
                                    else clean (snd kv))) d)
  | JArr l => JArr (map clean l)
  | _ => item
  end.

(** [redact_metadata] of a mapping *)
Definition redact_metadata (d : jdict) : jdict :=
  map (fun kv => (fst kv, if sensitive_key (fst kv) then JStr "[REDACTED]"
                          else clean (snd kv))) d.

(** ** Facts *)

(** every object, at any depth, shows [[REDACTED]] under a sensitive key *)
Fixpoint redacted (j : json) : Prop :=
  match j with
  | JObj d =>
      (fix go (d : jdict) : Prop :=
         match d with
         | [] => True
         | kv :: d' =>
             (if sensitive_key (fst kv) then snd kv = JStr "[REDACTED]" else redacted (snd kv))
             /\ go d'
         end) d
  | JArr l =>
      (fix go (l : list json) : Prop :=
         match l with [] => True | x :: l' => redacted x /\ go l' end) l
  | _ => True
  end.

Lemma clean_redacted j : redacted (clean j).
Proof.
  induction j using json_rec'; simpl; try done.
  - induction H; simpl; done.
  - induction H as [|[k v] d Hv H IH]; simpl; [done|]. split; [|done].
    destruct (sensitive_key k); done.
Qed.

Lemma redact_metadata_redacted d : redacted (JObj (redact_metadata d)).
Proof. apply (clean_redacted (JObj d)). Qed.

Lemma redacted_clean_id j : redacted j -> clean j = j.
Proof.
  induction j using json_rec'; try done.
  - intros Hr. change (clean (JArr l)) with (JArr (map clean l)). f_equal.
    induction H as [|x l Hx H IH]; [done|]. simpl in *. destruct Hr as [Hr1 Hr2].
    rewrite Hx by done. f_equal. by apply IH.
  - intros Hr. change (clean (JObj d)) with (JObj (redact_metadata d)). f_equal.
    induction H as [|[k v] d Hv H IH]; [done|]. destruct Hr as [Hr1 Hr2]. simpl in *.
    f_equal; [|by apply IH]. f_equal. destruct (sensitive_key k); [done|by apply Hv].
Qed.

Lemma redact_metadata_idem d : redact_metadata (redact_metadata d) = redact_metadata d.
Proof.
  assert (JObj (redact_metadata (redact_metadata d)) = JObj (redact_metadata d)) as [= ->]; [|done].
  apply (redacted_clean_id (JObj (redact_metadata d))), redact_metadata_redacted.
Qed.

Lemma redact_metadata_keys d : map fst (redact_metadata d) = map fst d.
Proof. unfold redact_metadata. rewrite map_map. by apply map_ext. Qed.

(** ** [ensure_ascii=True], the default of [json.dumps]

    In the text of a document the characters beyond ASCII only stand in strings,
    so that its escaped form is got from the text: every one of them, and [DEL],
    becomes [\uXXXX], a pair of surrogates beyond the first plane. *)

Definition u_escape (n : N) : string :=
  let digit k := hex_digit (N.to_nat ((n / k) mod 16)) in
  String (ascii_of_nat 92) (String "u"%char
    (String (digit 4096%N) (String (digit 256%N) (String (digit 16%N) (String (digit 1%N) EmptyString))))).
Definition code_escape (n : N) : string :=
  if (n <? 65536)%N then u_escape n
  else u_escape (55296 + (n - 65536) / 1024) +:+ u_escape (56320 + (n - 65536) mod 1024).

(** the low six bits of a byte of UTF-8 that goes on with a character *)
Definition low_bits (c : ascii) : N := (N_of_ascii c - 128)%N.

Fixpoint ascii_text (s : string) : string :=
  match s with
  | EmptyString => EmptyString
  | String a s1 =>
      let n := N_of_ascii a in
      if (n <? 127)%N then String a (ascii_text s1)
      else if (n =? 127)%N then u_escape n +:+ ascii_text s1
      else match s1 with
      | String b s2 =>
          if (n <? 224)%N then code_escape ((n - 192) * 64 + low_bits b) +:+ ascii_text s2
          else match s2 with
          | String c s3 =>
              if (n <? 240)%N then code_escape ((n - 224) * 4096 + low_bits b * 64 + low_bits c) +:+ ascii_text s3
              else match s3 with
              | String d s4 => code_escape ((n - 240) * 262144 + low_bits b * 4096 + low_bits c * 64 + low_bits d) +:+ ascii_text s4
              | EmptyString => s
              end
          | EmptyString => s
          end
      | EmptyString => s
      end
  end.

(** an ASCII letter, then characters of two, three and four bytes *)
Example ascii_text_escapes :
  ascii_text (String "a"%char (fold_right (fun n s => String (ascii_of_N n) s) EmptyString
    [195; 169; 226; 130; 172; 240; 159; 152; 128]%N)) =
  "a" +:+ u_escape 233 +:+ u_escape 8364 +:+ u_escape 55357 +:+ u_escape 56832.
Proof. vm_compute. reflexivity. Qed.

Example dumps_sorts_and_escapes :
  dumps (JObj [("b", JInt (-3)); ("a", JArr [JNull; JBool true; JStr "x"])])
  = "{" +:+ dump_string "a" +:+ ":[null,true," +:+ dump_string "x" +:+ "]," +:+
    dump_string "b" +:+ ":-3}".
Proof. vm_compute. reflexivity. Qed.
