(* ===== verification/PyValue.v ===== *)
(** * Python values

    What the language does with values the program reads from JSON documents and
    columns: [repr] and [str], [==], [dict(...)], sorting by a key, and the
    computations that raise without touching a state. *)

From stdpp Require Import pretty.
From Stdlib Require Import Ascii.
From S2P Require Import Prelude Json.
Local Open Scope Z_scope.

(** ** Pure computations that may raise *)

Definition obind {A B} (o : outcome A) (k : A -> outcome B) : outcome B :=
  match o with Ret a => k a | Exc e => Exc e end.
Arguments obind : simpl never.
Notation "'let?' x ':=' m 'in' k" := (obind m (fun x => k))
  (at level 200, x name, m at level 100, k at level 200, right associativity) : py_scope.
Notation "m '??;' k" := (obind m (fun _ => k)) (at level 199, right associativity) : py_scope.

(** [for i, x in enumerate(l, start=i): ...], collecting the results *)
Fixpoint traverse {A B} (f : nat -> A -> outcome B) (i : nat) (l : list A) : outcome (list B) :=
  match l with
  | [] => Ret []
  | x :: l' => let? y := f i x in let? ys := traverse f (S i) l' in Ret (y :: ys)
  end.

(** [for x in l: ...] for the checks of its body *)
Fixpoint for_each {A} (f : A -> outcome unit) (l : list A) : outcome unit :=
  match l with [] => Ret tt | x :: l' => f x ??; for_each f l' end.

Lemma obind_Ret {A B} (o : outcome A) (k : A -> outcome B) b : obind o k = Ret b <-> exists a, o = Ret a /\ k a = Ret b.
Proof. unfold obind. destruct o; naive_solver. Qed.

Lemma for_each_Ret {A} (f : A -> outcome unit) l : for_each f l = Ret tt <-> forall x, x ∈ l -> f x = Ret tt.
Proof.
  induction l as [|x l IH]; simpl; [by split; [intros _ ? ?%elem_of_nil|]|].
  rewrite obind_Ret. setoid_rewrite IH. split.
  - intros ([] & Hx & Hl) y [->|Hy]%elem_of_cons; [done|by apply Hl].
  - intros H. exists tt. split; [apply H; left|]. intros y Hy. apply H. by right.
Qed.

Lemma traverse_Ret {A B} (f : nat -> A -> outcome B) i l ys :
  traverse f i l = Ret ys ->
  length ys = length l /\ forall k y, ys !! k = Some y -> exists x, l !! k = Some x /\ f (i + k)%nat x = Ret y.
Proof.
  revert i ys. induction l as [|x l IH]; simpl; intros i ys; [by intros [= <-]|].
  intros (y & Hy & (ys' & Hys & [= <-])%obind_Ret)%obind_Ret. apply IH in Hys as [Hlen Hys].
  split; [by simpl; rewrite Hlen|]. intros [|k] z; simpl.
  - intros [= <-]. exists x. by rewrite Nat.add_0_r.
  - intros Hz. destruct (Hys k z Hz) as (x' & ? & Hf). exists x'. by replace (i + S k)%nat with (S i + k)%nat by lia.
Qed.

(** ** [startswith] *)

Lemma starts_with_comparable (a b s : string) :
  starts_with a s = true -> starts_with b s = true -> starts_with a b = true \/ starts_with b a = true.
Proof.
  unfold starts_with. revert a b. induction s as [|c s IH]; intros [|x a] [|y b]; simpl; try (by (left + right)).
  destruct (ascii_dec x c) as [->|]; [|done]. destruct (ascii_dec y c) as [->|]; [|done].
  destruct (ascii_dec c c); [|done]. apply IH.
Qed.

(** ** [sorted] by an order; equal elements stay in place *)

Fixpoint insert_by {A} (le : A -> A -> bool) (x : A) (l : list A) : list A :=
  match l with [] => [x] | y :: l' => if le x y then x :: l else y :: insert_by le x l' end.
Definition sorted_by {A} (le : A -> A -> bool) (l : list A) : list A := fold_right (insert_by le) [] l.

Lemma insert_by_perm {A} (le : A -> A -> bool) x l : insert_by le x l ≡ₚ x :: l.
Proof. induction l as [|y l IH]; simpl; [done|]. destruct (le x y); [done|]. rewrite IH. apply Permutation_swap. Qed.
Lemma sorted_by_perm {A} (le : A -> A -> bool) l : sorted_by le l ≡ₚ l.
Proof. induction l as [|x l IH]; simpl; [done|]. by rewrite insert_by_perm, IH. Qed.

(** ** [repr] and [str]

    Bytes from 128 on belong to characters that are taken to be printable. *)

Definition single_quote : ascii := ascii_of_nat 39.

Definition repr_char (q c : ascii) : string :=
  let n := nat_of_ascii c in
  if Ascii.eqb c q || (n =? 92)%nat then String (ascii_of_nat 92) (String c EmptyString)
  else if (n =? 9)%nat then "\t"
  else if (n =? 10)%nat then "\n"
  else if (n =? 13)%nat then "\r"
  else if (n <? 32)%nat || (n =? 127)%nat
  then "\x" +:+ String (hex_digit (n / 16)) (String (hex_digit (n mod 16)) EmptyString)
  else String c EmptyString.
Fixpoint repr_chars (q : ascii) (s : string) : string :=
  match s with EmptyString => EmptyString | String c s' => repr_char q c +:+ repr_chars q s' end.
Fixpoint has_char (c : ascii) (s : string) : bool :=
  match s with EmptyString => false | String x s' => Ascii.eqb x c || has_char c s' end.

(** single quotes, unless the text has those and no double ones *)
Definition repr_string (s : string) : string :=
  let q := if has_char single_quote s && negb (has_char quote_char s) then quote_char else single_quote in
  String q (repr_chars q s +:+ String q EmptyString).

Fixpoint py_repr (j : json) : string :=
  match j with
  | JNull => "None"
  | JBool true => "True"
  | JBool false => "False"
  | JInt z => pretty z
  | JFloat r => r
  | JStr s => repr_string s
  | JArr l => "[" +:+ join ", " (map py_repr l) +:+ "]"
  | JObj d => "{" +:+ join ", " (map (fun kv => repr_string (fst kv) +:+ ": " +:+ py_repr (snd kv)) d) +:+ "}"
  end.

Definition py_str (j : json) : string := match j with JStr s => s | _ => py_repr j end.

(** ** [==] *)

(** objects by key, numbers by value
    ([repr] of a whole float of moderate size ends in [.0]) *)
Definition number_eqb (a b : json) : bool :=
  let whole j := match j with JBool x => Some (Z.b2z x) | JInt z => Some z | _ => None end in
  match a, b with
  | JFloat x, JFloat y => String.eqb x y
  | JFloat x, _ => match whole b with Some z => String.eqb x (pretty z +:+ ".0") | None => false end
  | _, JFloat y => match whole a with Some z => String.eqb y (pretty z +:+ ".0") | None => false end
  | _, _ => match whole a, whole b with Some x, Some y => x =? y | _, _ => false end
  end.
Fixpoint py_eqb (a b : json) {struct a} : bool :=
  match a, b with
  | JNull, JNull => true
  | JStr x, JStr y => String.eqb x y
  | JArr l, JArr m =>
      (fix go (l m : list json) : bool :=
         match l, m with [], [] => true | x :: l, y :: m => py_eqb x y && go l m | _, _ => false end) l m
  | JObj d, JObj e =>
      (length d =? length e)%nat &&
      (fix go (d : jdict) : bool :=
         match d with
         | [] => true
         | kv :: d => match dict_get (fst kv) e with Some w => py_eqb (snd kv) w | None => false end && go d
         end) d
  | _, _ => number_eqb a b
  end.

(** ** [dict(value)]

    A dictionary built from a list of pairs may have keys that are not strings. *)

Abbreviation pydict := (list (json * json)).

Fixpoint pydict_set (k v : json) (d : pydict) : pydict :=
  match d with
  | [] => [(k, v)]
  | (k', v') :: d' => if py_eqb k k' then (k', v) :: d' else (k', v') :: pydict_set k v d'
  end.

Definition type_name (j : json) : string :=
  match j with
  | JNull => "NoneType" | JBool _ => "bool" | JInt _ => "int" | JFloat _ => "float"
  | JStr _ => "str" | JArr _ => "list" | JObj _ => "dict"
  end.

Fixpoint characters (s : string) : list json :=
  match s with EmptyString => [] | String c s' => JStr (String c EmptyString) :: characters s' end.

(** what iterating over a value gives *)
Definition iterate (j : json) : option (list json) :=
  match j with
  | JStr s => Some (characters s)
  | JArr l => Some l
  | JObj d => Some (map (fun kv => JStr (fst kv)) d)
  | _ => None
  end.

Definition hashable (j : json) : bool := match j with JArr _ | JObj _ => false | _ => true end.

Fixpoint dict_items (n : nat) (l : list json) (d : pydict) : outcome pydict :=
  match l with
  | [] => Ret d
  | x :: l' =>
      let element := "dictionary update sequence element #" +:+ pretty n in
      match iterate x with
      | None => Exc (Exn TypeError ("cannot convert " +:+ element +:+ " to a sequence"))
      | Some [k; v] =>
          if hashable k then dict_items (S n) l' (pydict_set k v d)
          else Exc (Exn TypeError ("unhashable type: '" +:+ type_name k +:+ "'"))
      | Some e => Exc (Exn ValueError (element +:+ " has length " +:+ pretty (length e) +:+ "; 2 is required"))
      end
  end.

Definition dict_of (j : json) : outcome pydict :=
  match j with
  | JObj d => Ret (map (fun kv => (JStr (fst kv), snd kv)) d)
  | _ => match iterate j with
         | Some l => dict_items 0 l []
         | None => Exc (Exn TypeError ("'" +:+ type_name j +:+ "' object is not iterable"))
         end
  end.

Definition pydict_get (k : json) (d : pydict) : option json := snd <$> List.find (fun kv => py_eqb (fst kv) k) d.

(** [==] of two dictionaries *)
Definition pydict_eqb (d e : pydict) : bool :=
  (length d =? length e)%nat &&
  forallb (fun kv => match pydict_get (fst kv) e with Some w => py_eqb (snd kv) w | None => false end) d.

(** two sets of names are equal *)
Definition same_names (a b : list string) : bool :=
  forallb (fun x => mem_string x b) a && forallb (fun x => mem_string x a) b.

Lemma same_names_spec a b : same_names a b = true <-> forall x, x ∈ a <-> x ∈ b.
Proof.
  unfold same_names, mem_string. rewrite andb_true_iff, !forallb_forall. setoid_rewrite bool_decide_eq_true.
  setoid_rewrite list_elem_of_In. naive_solver.
Qed.
