(* ===== verification/Clock.v ===== *)
(** * Dates and times

    An aware [datetime] is its instant in microseconds since 1970 in UTC, a
    [timedelta] a number of microseconds; [isoformat] writes an instant in UTC. *)

From stdpp Require Import pretty.
From S2P Require Import Prelude.
Local Open Scope Z_scope.

Abbreviation instant := Z.

(** [timedelta(...)] *)
Definition seconds (n : Z) : Z := n * 1000000.
Definition minutes (n : Z) : Z := seconds (n * 60).
Definition hours (n : Z) : Z := minutes (n * 60).
Definition days (n : Z) : Z := hours (n * 24).

(** the year, month and day of a day number (0 is 1970-01-01), by eras of 400
    years that start in March *)
Definition civil (day : Z) : Z * Z * Z :=
  let z := day + 719468 in
  let era := z / 146097 in
  let doe := z - era * 146097 in
  let yoe := (doe - doe / 1460 + doe / 36524 - doe / 146096) / 365 in
  let doy := doe - (365 * yoe + yoe / 4 - yoe / 100) in
  let mp := (5 * doy + 2) / 153 in
  let d := doy - (153 * mp + 2) / 5 + 1 in
  let m := if mp <? 10 then mp + 3 else mp - 9 in
  (yoe + era * 400 + (if m <=? 2 then 1 else 0), m, d).

Fixpoint zeros (n : nat) : string := match n with O => "" | S n' => "0" +:+ zeros n' end.
(** a number in at least [n] digits *)
Definition digits (n : nat) (z : Z) : string := let s := pretty z in zeros (n - String.length s) +:+ s.

(** [t.astimezone(UTC).isoformat()] *)
Definition isoformat (t : instant) : string :=
  let '(y, m, d) := civil (t / days 1) in
  let us := t mod days 1 in
  let fraction := us mod seconds 1 in
  digits 4 y +:+ "-" +:+ digits 2 m +:+ "-" +:+ digits 2 d +:+ "T" +:+
  digits 2 (us / hours 1) +:+ ":" +:+ digits 2 (us / minutes 1 mod 60) +:+ ":" +:+ digits 2 (us / seconds 1 mod 60) +:+
  (if fraction =? 0 then "" else "." +:+ digits 6 fraction) +:+ "+00:00".

Example isoformat_epoch : isoformat 0 = "1970-01-01T00:00:00+00:00".
Proof. reflexivity. Qed.
Example isoformat_leap : isoformat (seconds 1709210096 + 7) = "2024-02-29T12:34:56.000007+00:00".
Proof. vm_compute. reflexivity. Qed.
Example isoformat_past : isoformat (-1) = "1969-12-31T23:59:59.999999+00:00".
Proof. vm_compute. reflexivity. Qed.
