(* ===== verification/Sha256.v ===== *)
(** * SHA-256

    [hashlib.sha256(data).hexdigest()], which every digest of the program is
    built on (command digests, mutation digests, evidence fingerprints, the
    event ledger's hash chain).  FIPS 180-4 on 32-bit words kept as [Z] below
    [2^32], so that digests of concrete inputs are computed, not assumed. *)

From Stdlib Require Import Ascii.
From S2P Require Import Prelude Json.
Local Open Scope Z_scope.

Definition mask32 : Z := 4294967295.
Definition add32 (a b : Z) : Z := Z.land (a + b) mask32.
Definition rotr (n x : Z) : Z :=
  Z.lor (Z.shiftr x n) (Z.land (Z.shiftl x (32 - n)) mask32).

Definition big_sigma0 x := Z.lxor (Z.lxor (rotr 2 x) (rotr 13 x)) (rotr 22 x).
Definition big_sigma1 x := Z.lxor (Z.lxor (rotr 6 x) (rotr 11 x)) (rotr 25 x).
Definition small_sigma0 x := Z.lxor (Z.lxor (rotr 7 x) (rotr 18 x)) (Z.shiftr x 3).
Definition small_sigma1 x := Z.lxor (Z.lxor (rotr 17 x) (rotr 19 x)) (Z.shiftr x 10).
Definition choose e f g := Z.lxor (Z.land e f) (Z.land (Z.lxor e mask32) g).
Definition majority a b c := Z.lxor (Z.lxor (Z.land a b) (Z.land a c)) (Z.land b c).

(** The constants are defined, not transcribed: the first 32 bits of the
    fractional parts of the cube roots (rounds) and square roots (initial
    state) of the first primes. *)
Definition is_prime (n : Z) : bool :=
  forallb (fun d => negb (n mod Z.of_nat d =? 0)) (seq 2 (Z.to_nat (Z.sqrt n) - 1)).
Definition primes_below (n : nat) : list Z :=
  List.filter is_prime (map Z.of_nat (seq 2 (n - 2))).

(** the largest [r] with [r ^ k <= n], bit by bit from bit [i] down *)
Fixpoint root_bits (k n : Z) (i : nat) (r : Z) : Z :=
  let r' := r + 2 ^ Z.of_nat i in
  let r := if r' ^ k <=? n then r' else r in
  match i with O => r | S i' => root_bits k n i' r end.
Definition fraction32 (k p : Z) : Z := Z.land (root_bits k (p * 2 ^ (32 * k)) 40 0) mask32.

Definition round_constants : list Z := Eval vm_compute in map (fraction32 3) (take 64 (primes_below 312)).
Definition initial_state : list Z := Eval vm_compute in map (fraction32 2) (take 8 (primes_below 312)).

(** the message schedule; [prev] holds the last sixteen words, newest first *)
Fixpoint extend_schedule (n : nat) (prev : list Z) : list Z :=
  match n with
  | O => []
  | S n' =>
      let w := add32 (add32 (small_sigma1 (nth 1 prev 0)) (nth 6 prev 0))
                     (add32 (small_sigma0 (nth 14 prev 0)) (nth 15 prev 0)) in
      w :: extend_schedule n' (w :: take 15 prev)
  end.

Definition one_round (st : list Z) (kw : Z * Z) : list Z :=
  match st with
  | [a; b; c; d; e; f; g; h] =>
      let t1 := add32 (add32 h (big_sigma1 e)) (add32 (choose e f g) (add32 (fst kw) (snd kw))) in
      let t2 := add32 (big_sigma0 a) (majority a b c) in
      [add32 t1 t2; a; b; c; add32 d t1; e; f; g]
  | _ => st
  end.

Definition compress (st block : list Z) : list Z :=
  let w := block ++ extend_schedule 48 (rev block) in
  zip_with add32 st (fold_left one_round (zip round_constants w) st).

Fixpoint bytes_of (s : string) : list Z :=
  match s with
  | EmptyString => []
  | String c s' => Z.of_N (N_of_ascii c) :: bytes_of s'
  end.

Definition be_bytes (n : nat) (z : Z) : list Z :=
  map (fun i => Z.land (Z.shiftr z (8 * Z.of_nat i)) 255) (rev (seq 0 n)).

Definition pad (bytes : list Z) : list Z :=
  let len := length bytes in
  let zeros := ((119 - len mod 64) mod 64)%nat in
  bytes ++ 128 :: replicate zeros 0 ++ be_bytes 8 (8 * Z.of_nat len).

Fixpoint words_of (l : list Z) : list Z :=
  match l with
  | a :: b :: c :: d :: l' =>
      Z.lor (Z.shiftl a 24) (Z.lor (Z.shiftl b 16) (Z.lor (Z.shiftl c 8) d)) :: words_of l'
  | _ => []
  end.

Fixpoint process (fuel : nat) (st words : list Z) : list Z :=
  match fuel with
  | O => st
  | S fuel' =>
      match words with
      | [] => st
      | _ => process fuel' (compress st (take 16 words)) (drop 16 words)
      end
  end.

Definition hex_byte (z : Z) : string :=
  String (hex_digit (Z.to_nat (Z.shiftr z 4)))
    (String (hex_digit (Z.to_nat (Z.land z 15))) EmptyString).

Fixpoint concat_strings (l : list string) : string :=
  match l with [] => "" | x :: l' => x +:+ concat_strings l' end.

(** [hashlib.sha256(s.encode("utf-8")).hexdigest()] *)
Definition sha256_hex (s : string) : string :=
  let words := words_of (pad (bytes_of s)) in
  let digest := process (length words) initial_state words in
  concat_strings (map hex_byte (flat_map (be_bytes 4) digest)).

Example sha256_abc :
  sha256_hex "abc" = "ba7816bf8f01cfea414140de5dae2223b00361a396177a9cb410ff61f20015ad".
Proof. vm_compute. reflexivity. Qed.

Example sha256_two_blocks :
  sha256_hex "abcdbcdecdefdefgefghfghighijhijkijkljklmklmnlmnomnopnopq"
  = "248d6a61d20638b8e5c026930c3e6039a33ce45964ff2167f6ecedd419db06c1".
Proof. vm_compute. reflexivity. Qed.

(** ** HMAC-SHA-256

    [hmac.new(key, message, hashlib.sha256).hexdigest()] (RFC 2104), executable. *)

Definition sha256_bytes (bytes : list Z) : list Z :=
  let words := words_of (pad bytes) in flat_map (be_bytes 4) (process (length words) initial_state words).

Definition hmac_key (key : list Z) : list Z :=
  let k := if (64 <? length key)%nat then sha256_bytes key else key in k ++ replicate (64 - length k) 0.

Definition hmac_sha256 (key message : list Z) : list Z :=
  let k := hmac_key key in
  sha256_bytes (map (Z.lxor 0x5c) k ++ sha256_bytes (map (Z.lxor 0x36) k ++ message)).

Definition hmac_sha256_hex (key message : string) : string :=
  concat_strings (map hex_byte (hmac_sha256 (bytes_of key) (bytes_of message))).

Example hmac_jefe :
  hmac_sha256_hex "Jefe" "what do ya want for nothing?" = "5bdcc146bf60754e6a042426089575c75a003f089d2739839dec58b964ec3843".
Proof. vm_compute. reflexivity. Qed.

(** ** URL-safe Base64

    [base64.urlsafe_b64encode(raw).rstrip(b"=")] (RFC 4648), executable. *)

(** the character of six bits *)
Definition base64_char (n : Z) : ascii :=
  let at_ base k := ascii_of_nat (base + Z.to_nat (n - k)) in
  if n <? 26 then at_ 65%nat 0 else if n <? 52 then at_ 97%nat 26 else if n <? 62 then at_ 48%nat 52
  else if n =? 62 then "-"%char else "_"%char.

(** three bytes are four characters; the last one or two bytes leave padding,
    which is stripped *)
Fixpoint urlsafe_b64 (l : list Z) : string :=
  match l with
  | a :: b :: c :: l' =>
      String (base64_char (Z.shiftr a 2))
        (String (base64_char (Z.lor (Z.shiftl (Z.land a 3) 4) (Z.shiftr b 4)))
           (String (base64_char (Z.lor (Z.shiftl (Z.land b 15) 2) (Z.shiftr c 6)))
              (String (base64_char (Z.land c 63)) (urlsafe_b64 l'))))
  | [a; b] =>
      String (base64_char (Z.shiftr a 2))
        (String (base64_char (Z.lor (Z.shiftl (Z.land a 3) 4) (Z.shiftr b 4)))
           (String (base64_char (Z.shiftl (Z.land b 15) 2)) EmptyString))
  | [a] => String (base64_char (Z.shiftr a 2)) (String (base64_char (Z.shiftl (Z.land a 3) 4)) EmptyString)
  | [] => EmptyString
  end.

Example b64_foobar : urlsafe_b64 (bytes_of "foobar") = "Zm9vYmFy".
Proof. reflexivity. Qed.
Example b64_fo : urlsafe_b64 (bytes_of "fo") = "Zm8".
Proof. reflexivity. Qed.
Example b64_high : urlsafe_b64 [251; 255; 254] = "-__-".
Proof. reflexivity. Qed.
