(* ===== verification/Uuid.v ===== *)
(** * UUIDs

    Command ids are [uuid.UUID] values in the ledger and their [str()] in the
    outbox payloads, from which the execution bus and the reconciler parse
    them back.  A UUID is its 128-bit integer ([N]); [uuid_str] is [str(u)]
    and [uuid_parse] is [UUID(raw)], [None] for its [ValueError]. *)

From Stdlib Require Import Ascii.
From S2P Require Import Prelude Json Sha256.

Abbreviation UUID := N.

Definition uuid_bound : N := (2 ^ 128)%N.

(** ["%0*x" % (n, u)] for [u < 16 ^ n] *)
Fixpoint hex_fixed (n : nat) (u : N) : string :=
  match n with
  | O => ""
  | S n' => hex_fixed n' (u / 16) +:+ String (hex_digit (N.to_nat (u mod 16))) EmptyString
  end.

Fixpoint str_drop (n : nat) (s : string) : string :=
  match n, s with
  | S n', String _ s' => str_drop n' s'
  | _, _ => s
  end.

Definition uuid_str (u : UUID) : string :=
  let h := hex_fixed 32 u in
  str_take 8 h +:+ "-" +:+ str_take 4 (str_drop 8 h) +:+ "-" +:+
  str_take 4 (str_drop 12 h) +:+ "-" +:+ str_take 4 (str_drop 16 h) +:+ "-" +:+ str_drop 20 h.

(** ** Parsing, [uuid.UUID.__init__(hex=raw)] *)

(** [s.replace(pat, "")] for a non-empty [pat] *)
Fixpoint remove_all (fuel : nat) (pat s : string) : string :=
  match fuel with
  | O => s
  | S fuel' =>
      match s with
      | EmptyString => EmptyString
      | String c s' =>
          if starts_with pat s then remove_all fuel' pat (str_drop (String.length pat) s)
          else String c (remove_all fuel' pat s')
      end
  end.

Fixpoint str_filter (keep : ascii -> bool) (s : string) : string :=
  match s with
  | EmptyString => EmptyString
  | String c s' => if keep c then String c (str_filter keep s') else str_filter keep s'
  end.

Fixpoint lstrip (drop_it : ascii -> bool) (s : string) : string :=
  match s with
  | String c s' => if drop_it c then lstrip drop_it s' else s
  | EmptyString => EmptyString
  end.
Fixpoint rstrip (drop_it : ascii -> bool) (s : string) : string :=
  match s with
  | String c s' =>
      match rstrip drop_it s' with
      | EmptyString => if drop_it c then EmptyString else String c EmptyString
      | t => String c t
      end
  | EmptyString => EmptyString
  end.
Definition strip (drop_it : ascii -> bool) (s : string) : string := lstrip drop_it (rstrip drop_it s).

Definition hex_val (c : ascii) : option N :=
  let n := nat_of_ascii c in
  if ((48 <=? n) && (n <=? 57))%nat then Some (N.of_nat (n - 48))
  else if ((97 <=? n) && (n <=? 102))%nat then Some (N.of_nat (n - 87))
  else if ((65 <=? n) && (n <=? 70))%nat then Some (N.of_nat (n - 55))
  else None.

(** the digits of [int(s, 16)]: single underscores may separate them *)
Fixpoint hex_digits (acc : N) (after_digit : bool) (s : string) : option N :=
  match s with
  | EmptyString => if after_digit then Some acc else None
  | String c s' =>
      if Ascii.eqb c "_" then (if after_digit then hex_digits acc false s' else None)
      else match hex_val c with
           | Some v => hex_digits (16 * acc + v) true s'
           | None => None
           end
  end.

Definition is_space (c : ascii) : bool :=
  let n := nat_of_ascii c in ((n =? 32) || ((9 <=? n) && (n <=? 13)))%nat.

(** [int(s, 16)]; the boolean is the sign *)
Definition int_base16 (s : string) : option (bool * N) :=
  let s := strip is_space s in
  let '(neg, s) := match s with
                   | String "-" s' => (true, s')
                   | String "+" s' => (false, s')
                   | _ => (false, s)
                   end in
  let s := match s with
           | String "0" (String x s') =>
               if Ascii.eqb x "x" || Ascii.eqb x "X"
               then match s' with String "_" s'' => s'' | _ => s' end
               else s
           | _ => s
           end in
  n ← hex_digits 0 false s; Some (neg, n).

Definition uuid_parse (raw : string) : option UUID :=
  let h := remove_all (String.length raw) "urn:" raw in
  let h := remove_all (String.length h) "uuid:" h in
  let h := strip (fun c => Ascii.eqb c "{" || Ascii.eqb c "}") h in
  let h := str_filter (fun c => negb (Ascii.eqb c "-")) h in
  if (String.length h =? 32)%nat then
    '(neg, n) ← int_base16 h;
    if neg && negb (n =? 0)%N then None
    else if (n <? uuid_bound)%N then Some n else None
  else None.

(** ** The round trip *)

(** lowercase hexadecimal digits *)
Definition is_hex (c : ascii) : bool := char_in 48 57 c || char_in 97 102 c.

Lemma str_app_cons c (s t : string) : String c s +:+ t = String c (s +:+ t).
Proof. done. Qed.
Lemma str_app_empty_l (t : string) : "" +:+ t = t.
Proof. done. Qed.
Lemma str_app_assoc (a b c : string) : (a +:+ b) +:+ c = a +:+ b +:+ c.
Proof. induction a as [|x a IH]; [done|]. by rewrite !str_app_cons, IH. Qed.

Lemma str_forallb_app f (s t : string) :
  str_forallb f (s +:+ t) = str_forallb f s && str_forallb f t.
Proof.
  induction s as [|c s IH]; [done|]. rewrite str_app_cons. simpl. rewrite IH.
  by rewrite andb_assoc.
Qed.

Lemma hex_digit_nibble d : (d < 16)%nat -> is_hex (hex_digit d) = true /\ hex_val (hex_digit d) = Some (N.of_nat d).
Proof. intros Hd. do 16 (destruct d as [|d]; [by vm_compute|]). lia. Qed.

Lemma nibble_lt (u : N) : (N.to_nat (u mod 16) < 16)%nat.
Proof. assert (u mod 16 < 16)%N by (apply N.mod_lt; lia). lia. Qed.

Lemma hex_fixed_hex n u : str_forallb is_hex (hex_fixed n u) = true.
Proof.
  revert u. induction n as [|n IH]; intros u; [done|]. simpl hex_fixed.
  rewrite str_forallb_app, IH. simpl.
  by rewrite (proj1 (hex_digit_nibble _ (nibble_lt u))).
Qed.

Lemma str_length_app (s t : string) : String.length (s +:+ t) = (String.length s + String.length t)%nat.
Proof. induction s as [|c s IH]; [done|]. rewrite str_app_cons. simpl. by rewrite IH. Qed.

Lemma hex_fixed_length n u : String.length (hex_fixed n u) = n.
Proof.
  revert u. induction n as [|n IH]; intros u; [done|]. simpl hex_fixed.
  rewrite str_length_app, IH. simpl. lia.
Qed.

Lemma hex_digits_fixed n u acc b t :
  (u < 16 ^ N.of_nat n)%N -> (n <> 0 \/ b = true)%nat ->
  hex_digits acc b (hex_fixed n u +:+ t) = hex_digits (acc * 16 ^ N.of_nat n + u) true t.
Proof.
  revert u acc b t. induction n as [|n IH]; intros u acc b t Hu Hb.
  - destruct Hb as [?| ->]; [done|]. rewrite str_app_empty_l. simpl in Hu. f_equal. simpl. lia.
  - simpl hex_fixed. rewrite str_app_assoc.
    assert (Hdm : u = (16 * (u / 16) + u mod 16)%N) by (apply N.div_mod; lia).
    assert (Hlt : (u mod 16 < 16)%N) by (apply N.mod_lt; lia).
    rewrite Nat2N.inj_succ, N.pow_succ_r' in Hu |- *.
    assert (Hq : (u / 16 < 16 ^ N.of_nat n)%N) by (apply N.Div0.div_lt_upper_bound; lia).
    assert (Hstep : forall acc' b', hex_digits acc' b'
        (String (hex_digit (N.to_nat (u mod 16))) "" +:+ t) = hex_digits (16 * acc' + u mod 16) true t).
    { intros acc' b'. destruct (hex_digit_nibble _ (nibble_lt u)) as [Hh Hv].
      rewrite str_app_cons, str_app_empty_l. simpl. rewrite Hv, N2Nat.id.
      destruct (Ascii.eqb_spec (hex_digit (N.to_nat (u mod 16))) "_") as [E|E]; [|done].
      rewrite E in Hh. done. }
    destruct n as [|n].
    + rewrite str_app_empty_l, Hstep. f_equal. simpl in Hu, Hq |- *. lia.
    + rewrite IH, Hstep by (done || by left). f_equal.
      rewrite Nat2N.inj_succ, N.pow_succ_r' in *. lia.
Qed.

Lemma take_drop_str n (s : string) : str_take n s +:+ str_drop n s = s.
Proof.
  revert s. unfold str_take. induction n as [|n IH]; intros [|c s]; try done.
  simpl. rewrite str_app_cons. by rewrite IH.
Qed.

Lemma str_drop_drop n m (s : string) : str_drop m (str_drop n s) = str_drop (n + m) s.
Proof. revert s. induction n as [|n IH]; intros [|c s]; simpl; try done; by destruct m. Qed.

Lemma str_filter_app keep (s t : string) :
  str_filter keep (s +:+ t) = str_filter keep s +:+ str_filter keep t.
Proof.
  induction s as [|c s IH]; [done|]. rewrite str_app_cons. simpl.
  destruct (keep c); rewrite IH; done.
Qed.

Lemma str_filter_id keep (s : string) : str_forallb keep s = true -> str_filter keep s = s.
Proof.
  induction s as [|c s IH]; [done|]. simpl. intros [Hc Hs]%andb_prop. rewrite Hc. by rewrite IH.
Qed.

Lemma str_forallb_impl (f g : ascii -> bool) (s : string) :
  (forall c, f c = true -> g c = true) -> str_forallb f s = true -> str_forallb g s = true.
Proof.
  intros Hfg. induction s as [|c s IH]; [done|]. simpl. intros [Hc Hs]%andb_prop.
  by rewrite (Hfg _ Hc), IH.
Qed.

(** a pattern whose first character does not occur is never found *)
Lemma remove_all_absent fuel p pat (s : string) :
  str_forallb (fun c => negb (Ascii.eqb c p)) s = true ->
  remove_all fuel (String p pat) s = s.
Proof.
  revert s. induction fuel as [|fuel IH]; intros [|c s]; try done.
  cbn -[starts_with]. intros [Hc Hs]%andb_prop.
  unfold starts_with. simpl. destruct (ascii_dec p c) as [->|]; [|by rewrite IH].
  by rewrite Ascii.eqb_refl in Hc.
Qed.

Lemma rstrip_id d (s : string) : str_forallb (fun c => negb (d c)) s = true -> rstrip d s = s.
Proof.
  induction s as [|c s IH]; [done|]. simpl. intros [Hc Hs]%andb_prop.
  apply negb_true_iff in Hc. rewrite IH by done. rewrite Hc. by destruct s.
Qed.
Lemma strip_id d (s : string) : str_forallb (fun c => negb (d c)) s = true -> strip d s = s.
Proof.
  intros Hs. unfold strip. rewrite rstrip_id by done. destruct s as [|c s]; [done|].
  simpl in *. apply andb_prop in Hs as [Hc _]. apply negb_true_iff in Hc. by rewrite Hc.
Qed.

(** the characters of [str(u)] *)
Definition uuid_char (c : ascii) : bool := is_hex c || Ascii.eqb c "-".

Lemma uuid_char_code c : uuid_char c = true ->
  (48 <= nat_of_ascii c <= 57 \/ 97 <= nat_of_ascii c <= 102 \/ c = "-"%char)%nat.
Proof.
  unfold uuid_char, is_hex, char_in. intros H.
  apply orb_prop in H as [H|H]; [|right; right; by apply Ascii.eqb_eq].
  apply orb_prop in H as [H|H]; apply andb_prop in H as [H1 H2];
    apply Nat.leb_le in H1; apply Nat.leb_le in H2; lia.
Qed.

Lemma str_take_forallb f n (s : string) : str_forallb f s = true -> str_forallb f (str_take n s) = true.
Proof.
  intros Hs. rewrite <- (take_drop_str n s), str_forallb_app in Hs. by apply andb_prop in Hs as [? _].
Qed.
Lemma str_drop_forallb f n (s : string) : str_forallb f s = true -> str_forallb f (str_drop n s) = true.
Proof.
  intros Hs. rewrite <- (take_drop_str n s), str_forallb_app in Hs. by apply andb_prop in Hs as [_ ?].
Qed.

Lemma uuid_str_chars u : str_forallb uuid_char (uuid_str u) = true.
Proof.
  unfold uuid_str. rewrite !str_forallb_app.
  assert (Hh : str_forallb uuid_char (hex_fixed 32 u) = true).
  { eapply str_forallb_impl; [|apply hex_fixed_hex]. unfold uuid_char. by intros c ->. }
  rewrite !str_take_forallb by (try apply str_drop_forallb; done).
  by rewrite str_drop_forallb.
Qed.

Lemma uuid_str_avoids (bad : ascii -> bool) u :
  (forall c, bad c = true -> uuid_char c = false) ->
  str_forallb (fun c => negb (bad c)) (uuid_str u) = true.
Proof.
  intros Hbad. eapply str_forallb_impl; [|apply uuid_str_chars].
  intros c Hc. destruct (bad c) eqn:E; [|done]. apply Hbad in E. congruence.
Qed.

Lemma uuid_str_undashed u :
  str_filter (fun c => negb (Ascii.eqb c "-")) (uuid_str u) = hex_fixed 32 u.
Proof.
  unfold uuid_str. set (h := hex_fixed 32 u).
  assert (Hh : str_forallb (fun c => negb (Ascii.eqb c "-")) h = true).
  { eapply str_forallb_impl; [|apply hex_fixed_hex]. intros c Hc.
    destruct (Ascii.eqb_spec c "-") as [->|]; done. }
  rewrite !str_filter_app.
  rewrite !(str_filter_id _ (str_take _ _)) by (apply str_take_forallb; try apply str_drop_forallb; done).
  rewrite !(str_filter_id _ (str_drop _ _)) by (by apply str_drop_forallb).
  change (str_filter _ "-") with "". rewrite !str_app_empty_l.
  rewrite <- (str_drop_drop 16 4 h : _ = str_drop 20 h), take_drop_str.
  done.
Qed.

Lemma int_base16_hex (s : string) n :
  str_forallb is_hex s = true -> hex_digits 0 false s = Some n -> int_base16 s = Some (false, n).
Proof.
  intros Hs Hn. unfold int_base16. rewrite strip_id.
  2: { eapply str_forallb_impl; [|done]. intros c Hc. unfold is_space.
       destruct (uuid_char_code c) as [?|[?| ->]]; [by unfold uuid_char; rewrite Hc| | |done];
       apply negb_true_iff, orb_false_intro;
       [apply Nat.eqb_neq; lia| |apply Nat.eqb_neq; lia|];
       apply andb_false_intro2, Nat.leb_gt; lia. }
  destruct s as [|c s]; [done|]. simpl in Hs. apply andb_prop in Hs as [Hc Hs].
  assert (Hx : forall x s', s = String x s' -> (Ascii.eqb x "x" || Ascii.eqb x "X") = false).
  { intros x s' ->. simpl in Hs. apply andb_prop in Hs as [Hx _].
    destruct x as [[][][][][][][][]]; done. }
  destruct c as [[][][][][][][][]]; try done; cbn -[hex_digits Ascii.eqb]; try by rewrite Hn.
  destruct s as [|x s]; [by rewrite Hn|]. rewrite (Hx x s eq_refl). by rewrite Hn.
Qed.

Lemma uuid_parse_str u : (u < uuid_bound)%N -> uuid_parse (uuid_str u) = Some u.
Proof.
  intros Hu. unfold uuid_parse.
  rewrite (remove_all_absent _ "u"%char _ (uuid_str u))
    by (apply (uuid_str_avoids (fun c => Ascii.eqb c "u")); intros x Hx%Ascii.eqb_eq; by subst).
  rewrite (remove_all_absent _ "u"%char _ (uuid_str u))
    by (apply (uuid_str_avoids (fun c => Ascii.eqb c "u")); intros x Hx%Ascii.eqb_eq; by subst).
  rewrite strip_id
    by (apply (uuid_str_avoids (fun c => Ascii.eqb c "{" || Ascii.eqb c "}"));
        intros x [Hx%Ascii.eqb_eq|Hx%Ascii.eqb_eq]%orb_prop; by subst).
  rewrite uuid_str_undashed, hex_fixed_length. rewrite Nat.eqb_refl.
  rewrite (int_base16_hex _ u).
  - cbn -[uuid_bound]. by apply N.ltb_lt in Hu as ->.
  - apply hex_fixed_hex.
  - replace (hex_fixed 32 u) with (hex_fixed 32 u +:+ "")
      by (generalize (hex_fixed 32 u); intros s; induction s; [done|]; rewrite str_app_cons; by f_equal).
    rewrite hex_digits_fixed; [|exact Hu|by left]. done.
Qed.

Lemma uuid_str_inj u v : (u < uuid_bound)%N -> (v < uuid_bound)%N -> uuid_str u = uuid_str v -> u = v.
Proof.
  intros Hu Hv Heq. apply uuid_parse_str in Hu, Hv. rewrite Heq in Hu. congruence.
Qed.

Example uuid_str_example :
  uuid_str 0x12345678123456781234567812345678 = "12345678-1234-5678-1234-567812345678".
Proof. vm_compute. reflexivity. Qed.

(** ** SHA-1 and name-based UUIDs

    [uuid.uuid5(namespace, name)]: the first sixteen bytes of the SHA-1 (FIPS 180-4)
    of the namespace and the name, with the version and variant bits set. *)

Section Uuid5.
Local Open Scope Z_scope.

Definition rotl (n x : Z) : Z := rotr (32 - n) x.

Fixpoint extend1 (n : nat) (prev : list Z) : list Z :=
  match n with
  | O => []
  | S n' =>
      let w := rotl 1 (Z.lxor (Z.lxor (nth 2 prev 0) (nth 7 prev 0)) (Z.lxor (nth 13 prev 0) (nth 15 prev 0))) in
      w :: extend1 n' (w :: take 15 prev)
  end.

(** the function and the constant of a round *)
Definition round_of (t : nat) (b c d : Z) : Z * Z :=
  if (t <? 20)%nat then (choose b c d, 0x5A827999)
  else if (t <? 40)%nat then (Z.lxor b (Z.lxor c d), 0x6ED9EBA1)
  else if (t <? 60)%nat then (majority b c d, 0x8F1BBCDC)
  else (Z.lxor b (Z.lxor c d), 0xCA62C1D6).

Definition one_round1 (st : list Z) (tw : nat * Z) : list Z :=
  match st with
  | [a; b; c; d; e] =>
      let (f, k) := round_of (fst tw) b c d in
      [add32 (add32 (rotl 5 a) f) (add32 e (add32 k (snd tw))); a; rotl 30 b; c; d]
  | _ => st
  end.

Definition compress1 (st block : list Z) : list Z :=
  let w := block ++ extend1 64 (rev block) in
  zip_with add32 st (fold_left one_round1 (zip (seq 0 80) w) st).

Fixpoint process1 (fuel : nat) (st words : list Z) : list Z :=
  match fuel with
  | O => st
  | S fuel' => match words with [] => st | _ => process1 fuel' (compress1 st (take 16 words)) (drop 16 words) end
  end.

Definition sha1 (bytes : list Z) : list Z :=
  let words := words_of (pad bytes) in
  flat_map (be_bytes 4) (process1 (length words) [0x67452301; 0xEFCDAB89; 0x98BADCFE; 0x10325476; 0xC3D2E1F0] words).

Definition int_of_bytes (l : list Z) : Z := fold_left (fun n b => 256 * n + b) l 0.

Definition uuid5 (namespace : UUID) (name : string) : UUID :=
  let n := int_of_bytes (take 16 (sha1 (be_bytes 16 (Z.of_N namespace) ++ bytes_of name))) in
  let n := Z.lor (Z.ldiff n (Z.shiftl 0xc000 48)) (Z.shiftl 0x8000 48) in
  Z.to_N (Z.lor (Z.ldiff n (Z.shiftl 0xf000 64)) (Z.shiftl 5 76)).

Example sha1_abc : concat_strings (map hex_byte (sha1 (bytes_of "abc"))) = "a9993e364706816aba3e25717850c26c9cd0d89d".
Proof. vm_compute. reflexivity. Qed.

Example uuid5_dns : uuid_str (uuid5 0x6ba7b8109dad11d180b400c04fd430c8 "python.org") = "886313e1-3b8a-5372-9b90-0c9aee199e5d".
Proof. vm_compute. reflexivity. Qed.
End Uuid5.
