(* ===== verification/Commands.v ===== *)
(** * The command model

    The data of [src/app/commands.py]: command states and their transition
    table, the public envelope with its validation and its canonical digests,
    the operation record, and the command policy registry that decides which
    policy owns a command type and whether it may be submitted. *)

From Stdlib Require Import Ascii.
From S2P Require Import Prelude Json Sha256 Uuid.

(** ** Code outside the repository

    [jsonschema] checks the canonical command contract and pydantic parses
    the UUID of a stored envelope; the ledger relies only on pydantic reading
    back what [str(UUID)] wrote. *)
Class Externals := {
  command_contract_ok : jdict -> bool;
  pydantic_uuid : string -> option UUID;
  pydantic_uuid_str : forall u, (u < uuid_bound)%N -> pydantic_uuid (uuid_str u) = Some u;
}.

(** A concrete instance: every contract accepted, UUIDs parsed as the
    standard library parses them. *)
Definition reference_externals : Externals := {|
  command_contract_ok := fun _ => true;
  pydantic_uuid := uuid_parse;
  pydantic_uuid_str := uuid_parse_str;
|}.

Definition datetime := Z.

(** ** Destinations and states *)

Definition TEMPORAL_COMMAND_DESTINATION := "temporal-command".
Definition ODOO_COMMAND_DESTINATION := "odoo-command".
Definition ADAPTER_COMMAND_DESTINATION := "adapter-command".
Definition COMMAND_DESTINATIONS : list string :=
  [TEMPORAL_COMMAND_DESTINATION; ODOO_COMMAND_DESTINATION; ADAPTER_COMMAND_DESTINATION].
Definition AUTHENTICATED_CLIENT_ID_KEY := "_authenticated_client_id".

Inductive CommandState :=
  | persisted | queued | dispatching | accepted | readback_pending
  | completed | failed | reconciliation_required | dead_lettered | cancelled.

#[export] Instance CommandState_eq_dec : EqDecision CommandState.
Proof. solve_decision. Defined.

Definition state_name (s : CommandState) : string :=
  match s with
  | persisted => "persisted" | queued => "queued" | dispatching => "dispatching"
  | accepted => "accepted" | readback_pending => "readback_pending"
  | completed => "completed" | failed => "failed"
  | reconciliation_required => "reconciliation_required"
  | dead_lettered => "dead_lettered" | cancelled => "cancelled"
  end.

Definition ACTIVE_COMMAND_STATES : list CommandState :=
  [persisted; queued; dispatching; accepted; readback_pending].

Definition API_OPERATION_STATES (s : CommandState) : string :=
  match s with
  | persisted => "RECEIVED" | queued => "QUEUED" | dispatching => "SUBMITTED"
  | accepted => "ACCEPTED" | readback_pending => "UNKNOWN" | completed => "COMPLETED"
  | failed => "FAILED" | reconciliation_required => "RECONCILIATION_REQUIRED"
  | dead_lettered => "DEAD_LETTERED" | cancelled => "CANCELLED"
  end.

Definition ALLOWED_COMMAND_TRANSITIONS (s : CommandState) : list CommandState :=
  match s with
  | persisted => [queued; cancelled]
  | queued => [dispatching; dead_lettered; cancelled]
  | dispatching => [accepted; failed; reconciliation_required]
  | accepted => [readback_pending; reconciliation_required]
  | readback_pending => [completed; failed; reconciliation_required]
  | reconciliation_required => [queued; dead_lettered]
  | failed => [queued; dead_lettered]
  | completed | dead_lettered | cancelled => []
  end.

(** [x in {...}] for a state and a set display *)
Definition state_in (s : CommandState) (l : list CommandState) : bool := bool_decide (s ∈ l).
Arguments state_in : simpl never.

(** ** The public envelope *)

Record CommandEnvelope := {
  env_command_id : UUID;
  env_command_type : string;
  env_command_version : string;
  env_target : string;
  env_tenant_id : string;
  env_requested_by : string;
  env_correlation_id : string;
  env_idempotency_key : string;
  env_capability : string;
  env_payload : jdict;
}.

(** [command.model_dump(mode="json")], in field order *)
Definition envelope_dump (c : CommandEnvelope) : jdict :=
  [("command_id", JStr (uuid_str (env_command_id c)));
   ("command_type", JStr (env_command_type c));
   ("command_version", JStr (env_command_version c));
   ("target", JStr (env_target c));
   ("tenant_id", JStr (env_tenant_id c));
   ("requested_by", JStr (env_requested_by c));
   ("correlation_id", JStr (env_correlation_id c));
   ("idempotency_key", JStr (env_idempotency_key c));
   ("capability", JStr (env_capability c));
   ("payload", JObj (env_payload c))].

Definition len_between (lo hi : nat) (s : string) : bool :=
  ((lo <=? String.length s) && (String.length s <=? hi))%nat.

(** [^[a-z0-9]+(?:[.-][a-z0-9]+)+$] *)
Definition command_type_pattern (s : string) : bool :=
  match alnum_runs (fun c => Ascii.eqb c "." || Ascii.eqb c "-") false s with
  | Some n => (1 <=? n)%nat
  | None => false
  end.
(** [^[a-z0-9]+(?:-[a-z0-9]+)*$], also the authenticated client id's *)
Definition slug_pattern (s : string) : bool :=
  match alnum_runs (fun c => Ascii.eqb c "-") false s with Some _ => true | None => false end.
(** [^[A-Z][A-Z0-9_]{2,100}$] *)
Definition capability_pattern (s : string) : bool :=
  match s with
  | String c s' =>
      char_in 65 90 c && len_between 2 100 s' &&
      str_forallb (fun c => char_in 65 90 c || char_in 48 57 c || Ascii.eqb c "_") s'
  | EmptyString => false
  end.

(** the field constraints of the pydantic model, its payload bound and the
    canonical contract *)
Definition envelope_valid `{Externals} (c : CommandEnvelope) : bool :=
  command_type_pattern (env_command_type c) && len_between 0 180 (env_command_type c) &&
  String.eqb (env_command_version c) "1.0" &&
  slug_pattern (env_target c) && len_between 0 100 (env_target c) &&
  len_between 1 128 (env_tenant_id c) &&
  len_between 1 300 (env_requested_by c) &&
  len_between 1 180 (env_correlation_id c) &&
  len_between 8 180 (env_idempotency_key c) &&
  capability_pattern (env_capability c) &&
  (N.of_nat (String.length (dumps (JObj (env_payload c)))) <=? 262144)%N &&
  command_contract_ok (envelope_dump c).

Definition get_str (k : string) (d : jdict) : option string :=
  match dict_get k d with Some (JStr s) => Some s | _ => None end.

(** [CommandEnvelope.model_validate(d)]: every field present, none extra *)
Definition model_validate `{Externals} (d : jdict) : outcome CommandEnvelope :=
  let parsed :=
    i ← get_str "command_id" d; u ← pydantic_uuid i;
    ct ← get_str "command_type" d; cv ← get_str "command_version" d;
    tg ← get_str "target" d; tn ← get_str "tenant_id" d;
    rb ← get_str "requested_by" d; co ← get_str "correlation_id" d;
    ik ← get_str "idempotency_key" d; cap ← get_str "capability" d;
    p ← (match dict_get "payload" d with Some (JObj p) => Some p | _ => None end);
    Some (Build_CommandEnvelope u ct cv tg tn rb co ik cap p) in
  match parsed with
  | Some c => if (length d =? 10)%nat && envelope_valid c then Ret c
              else Exc (Exn ValueError "validation error")
  | None => Exc (Exn ValueError "validation error")
  end.

(** ** Digests *)

(** [hashlib.sha256(json.dumps(v, ...).encode()).hexdigest()] *)
Definition canonical_sha256 (v : json) : string := sha256_hex (dumps v).

(** [provider_evidence_digest], the canonical fingerprint of
    [src/app/provider_canary.py] *)
Definition provider_evidence_digest (v : jdict) : string :=
  "sha256:" +:+ canonical_sha256 (JObj v).

Definition command_digest (c : CommandEnvelope) : string :=
  canonical_sha256 (JObj (envelope_dump c)).

Definition authenticated_command_payload (c : CommandEnvelope) (client_id : string) : jdict :=
  dict_set AUTHENTICATED_CLIENT_ID_KEY (JStr client_id) (envelope_dump c).

Definition authenticated_command_digest (c : CommandEnvelope) (client_id : string) : string :=
  canonical_sha256 (JObj (authenticated_command_payload c client_id)).

Definition command_digest_matches (persisted_digest : string) (c : CommandEnvelope)
    (client_id : string) : bool :=
  mem_string persisted_digest [authenticated_command_digest c client_id; command_digest c].

(** [command_envelope_from_payload]: the public fields, validated again *)
Definition command_envelope_from_payload `{Externals} (payload : jdict) : outcome CommandEnvelope :=
  model_validate (List.filter (fun kv => negb (String.eqb (fst kv) AUTHENTICATED_CLIENT_ID_KEY)) payload).

(** ** Operations, events, attempts *)

(** the fields [submit] copies from the envelope ([exclude={"payload"}]) *)
Record CommandIdentity := {
  command_id : UUID;
  tenant_id : string;
  command_type : string;
  command_version : string;
  target : string;
  requested_by : string;
  correlation_id : string;
  idempotency_key : string;
  capability : string;
}.

Record CommandOperation := {
  op_command : CommandIdentity;
  op_state : CommandState;
  op_provider_operation_id : option string;
  op_readback_evidence : option jdict;
  op_readback_evidence_sha256 : option string;
  op_last_error : option string;
  op_created_at : datetime;
  op_updated_at : datetime;
  op_resource_version : Z;
  op_cancelled_at : option datetime;
  op_cancellation_reason : option string;
  op_reconciliation_requested_at : option datetime;
  op_reconciliation_reason : option string;
  op_duplicate : bool;
}.

Definition identity_of (c : CommandEnvelope) : CommandIdentity := {|
  command_id := env_command_id c;
  tenant_id := env_tenant_id c;
  command_type := env_command_type c;
  command_version := env_command_version c;
  target := env_target c;
  requested_by := env_requested_by c;
  correlation_id := env_correlation_id c;
  idempotency_key := env_idempotency_key c;
  capability := env_capability c;
|}.

Definition new_operation (c : CommandEnvelope) (now : datetime) : CommandOperation := {|
  op_command := identity_of c;
  op_state := persisted;
  op_provider_operation_id := None;
  op_readback_evidence := None;
  op_readback_evidence_sha256 := None;
  op_last_error := None;
  op_created_at := now;
  op_updated_at := now;
  op_resource_version := 1;
  op_cancelled_at := None;
  op_cancellation_reason := None;
  op_reconciliation_requested_at := None;
  op_reconciliation_reason := None;
  op_duplicate := false;
|}.

(** [operation.model_copy(update={"duplicate": True})] *)
Definition as_duplicate (o : CommandOperation) : CommandOperation := {|
  op_command := op_command o;
  op_state := op_state o;
  op_provider_operation_id := op_provider_operation_id o;
  op_readback_evidence := op_readback_evidence o;
  op_readback_evidence_sha256 := op_readback_evidence_sha256 o;
  op_last_error := op_last_error o;
  op_created_at := op_created_at o;
  op_updated_at := op_updated_at o;
  op_resource_version := op_resource_version o;
  op_cancelled_at := op_cancelled_at o;
  op_cancellation_reason := op_cancellation_reason o;
  op_reconciliation_requested_at := op_reconciliation_requested_at o;
  op_reconciliation_reason := op_reconciliation_reason o;
  op_duplicate := true;
|}.

Record OperationEvent := {
  event_id : nat;
  event_operation_id : UUID;
  previous_state : option CommandState;
  new_state : CommandState;
  event_actor_id : string;
  event_reason : string;
  safe_metadata : jdict;
  event_created_at : datetime;
}.

Record OperationAttempt := {
  attempt_id : nat;
  attempt_operation_id : UUID;
  attempt_number : nat;
  attempt_state : CommandState;
  attempt_provider_operation_id : option string;
  safe_error_code : option string;
  started_at : datetime;
  finished_at : option datetime;
}.

(** [_mutation_evidence] *)
Definition mutation_evidence (mutation_correlation_id : option string) : jdict :=
  match truthy_str mutation_correlation_id with
  | Some s => [("mutation_correlation_id", JStr (str_take 180 s))]
  | None => []
  end.

(** ** The command policy registry *)

Record CommandPolicy := {
  prefix : string;
  policy_target : string;
  policy_capability : string;
  readback_required : bool;
}.

#[export] Instance CommandPolicy_eq_dec : EqDecision CommandPolicy.
Proof. solve_decision. Defined.

Record CommandPolicyRegistry := {
  policies : list CommandPolicy;
  capabilities : gmap string bool;
}.

(** [sorted(policies, key=lambda item: len(item.prefix), reverse=True)]:
    stable, longest prefix first *)
Fixpoint insert_policy (p : CommandPolicy) (l : list CommandPolicy) : list CommandPolicy :=
  match l with
  | [] => [p]
  | q :: l' =>
      if (String.length (prefix q) <=? String.length (prefix p))%nat then p :: l
      else q :: insert_policy p l'
  end.
Definition sort_policies (l : list CommandPolicy) : list CommandPolicy :=
  fold_right insert_policy [] l.

(** [CommandPolicyRegistry.__init__] *)
Definition make_registry (ps : list CommandPolicy) (caps : gmap string bool) : CommandPolicyRegistry :=
  {| policies := sort_policies ps; capabilities := caps |}.

Definition matching (r : CommandPolicyRegistry) (ct : string) : list CommandPolicy :=
  List.filter (fun p => starts_with (prefix p) ct) (policies r).

(** [resolve]: the one policy whose prefix owns the command type *)
Definition resolve (r : CommandPolicyRegistry) (ct : string) : option CommandPolicy :=
  match matching r ct with [p] => Some p | _ => None end.

(** [self.capabilities.get(name) is True] *)
Definition capability_enabled (r : CommandPolicyRegistry) (name : string) : bool :=
  match capabilities r !! name with Some true => true | _ => false end.

(** [extended]: no file-backed capability overridden, no prefix re-owned *)
Definition extended (r : CommandPolicyRegistry) (ps : list CommandPolicy)
    (caps : list (string * bool)) : outcome CommandPolicyRegistry :=
  match List.find (fun kv => bool_decide (is_Some (capabilities r !! fst kv))) caps with
  | Some kv => Exc (Exn ValueError
      ("capability " +:+ fst kv +:+ " is owned by config/capabilities.v2.json"))
  | None =>
      match List.find (fun p => mem_string (prefix p) (map prefix (policies r))) ps with
      | Some p => Exc (Exn ValueError
          ("command prefix " +:+ prefix p +:+ " already has an owner"))
      | None =>
          Ret (make_registry (policies r ++ ps)
                 (fold_left (fun m kv => <[fst kv := snd kv]> m) caps (capabilities r)))
      end
  end.

Definition authorize (r : CommandPolicyRegistry) (c : CommandEnvelope) : outcome CommandPolicy :=
  let deny msg := Exc (Exn CommandCapabilityDisabled msg) in
  match matching r (env_command_type c) with
  | [p] =>
      if negb (String.eqb (env_target c) (policy_target p))
      then deny "command target does not own the command type"
      else if negb (String.eqb (env_capability c) (policy_capability p))
      then deny "command capability does not match the owning policy"
      else if negb (capability_enabled r (policy_capability p))
      then deny ("capability " +:+ policy_capability p +:+ " is disabled")
      else if negb (readback_required p)
      then deny "effectful command policy must require provider read-back"
      else Ret p
  | _ => deny "command type does not have exactly one owning policy"
  end.

(** [CommandService.validate_submission] *)
Definition validate_submission (r : CommandPolicyRegistry) (c : CommandEnvelope)
    (authenticated_subject authenticated_client_id : string) : outcome unit :=
  if negb (String.eqb (env_requested_by c) authenticated_subject)
  then Exc (Exn CommandCapabilityDisabled "requested_by must equal the authenticated token subject")
  else if negb (slug_pattern authenticated_client_id) ||
          (100 <? String.length authenticated_client_id)%nat
  then Exc (Exn CommandCapabilityDisabled "authenticated client ID is invalid")
  else match authorize r c with
       | Ret _ => Ret tt
       | Exc e => Exc e
       end.

(** ** Facts about the transition table *)

Definition terminal (s : CommandState) : bool := state_in s [completed; dead_lettered; cancelled].

Lemma state_in_true s l : state_in s l = true <-> s ∈ l.
Proof. apply bool_decide_eq_true. Qed.
Lemma state_in_false s l : state_in s l = false <-> s ∉ l.
Proof. apply bool_decide_eq_false. Qed.

Lemma terminal_no_transitions s : terminal s = true <-> ALLOWED_COMMAND_TRANSITIONS s = [].
Proof. by destruct s. Qed.

(** the only edge into [completed] starts at [readback_pending] *)
Lemma completed_from_readback s :
  completed ∈ ALLOWED_COMMAND_TRANSITIONS s -> s = readback_pending.
Proof. rewrite <- state_in_true. by destruct s. Qed.
Lemma dispatching_from_queued s :
  dispatching ∈ ALLOWED_COMMAND_TRANSITIONS s -> s = queued.
Proof. rewrite <- state_in_true. by destruct s. Qed.

Lemma API_OPERATION_STATES_inj s t : API_OPERATION_STATES s = API_OPERATION_STATES t -> s = t.
Proof. by destruct s, t. Qed.

(** ** Facts about envelopes *)

Lemma model_validate_dump `{Externals} c :
  (env_command_id c < uuid_bound)%N -> envelope_valid c = true ->
  model_validate (envelope_dump c) = Ret c.
Proof.
  intros Hu Hv.
  transitivity (match pydantic_uuid (uuid_str (env_command_id c)) with
    | Some u =>
        let c' := Build_CommandEnvelope u (env_command_type c) (env_command_version c)
          (env_target c) (env_tenant_id c) (env_requested_by c) (env_correlation_id c)
          (env_idempotency_key c) (env_capability c) (env_payload c) in
        if envelope_valid c' then Ret c' else Exc (Exn ValueError "validation error")
    | None => Exc (Exn ValueError "validation error")
    end).
  - destruct (pydantic_uuid _) eqn:E; unfold model_validate;
      change (get_str "command_id" (envelope_dump c)) with (Some (uuid_str (env_command_id c)));
      cbn -[get_str uuid_str]; rewrite E; reflexivity.
  - rewrite (pydantic_uuid_str _ Hu). destruct c; cbn -[envelope_valid] in *. by rewrite Hv.
Qed.

Lemma payload_envelope `{Externals} c client :
  (env_command_id c < uuid_bound)%N -> envelope_valid c = true ->
  command_envelope_from_payload (authenticated_command_payload c client) = Ret c.
Proof.
  intros Hu Hv. unfold command_envelope_from_payload.
  change (List.filter _ (authenticated_command_payload c client)) with (envelope_dump c).
  by apply model_validate_dump.
Qed.

Lemma payload_command_id c client :
  get_str "command_id" (authenticated_command_payload c client) = Some (uuid_str (env_command_id c)).
Proof. done. Qed.

(** ** Facts about the policy registry *)

Lemma insert_policy_perm p l : insert_policy p l ≡ₚ p :: l.
Proof.
  induction l as [|q l IH]; simpl; [done|]. destruct (_ <=? _)%nat; [done|].
  rewrite IH. constructor.
Qed.
Lemma sort_policies_perm l : sort_policies l ≡ₚ l.
Proof. induction l as [|p l IH]; simpl; [done|]. by rewrite insert_policy_perm, IH. Qed.

Lemma filter_In_list {A} (f : A -> bool) x l : x ∈ List.filter f l <-> x ∈ l /\ f x = true.
Proof. rewrite !list_elem_of_In. apply List.filter_In. Qed.

Lemma matching_elem r ct p : p ∈ matching r ct <-> p ∈ policies r /\ starts_with (prefix p) ct = true.
Proof. unfold matching. by rewrite filter_In_list. Qed.

Lemma resolve_owner r ct p :
  resolve r ct = Some p -> p ∈ policies r /\ starts_with (prefix p) ct = true.
Proof.
  unfold resolve. intros Hm. rewrite <- matching_elem.
  destruct (matching r ct) as [|q [|? ?]]; try done. injection Hm as ->. by apply list_elem_of_singleton.
Qed.

Lemma resolve_unique r ct p q :
  resolve r ct = Some p -> q ∈ policies r -> starts_with (prefix q) ct = true -> q = p.
Proof.
  unfold resolve. intros Hm Hq Hs. assert (Hin : q ∈ matching r ct) by (by apply matching_elem).
  destruct (matching r ct) as [|x [|? ?]]; try done. injection Hm as ->.
  by apply list_elem_of_singleton in Hin.
Qed.

Lemma authorize_resolve r c p : authorize r c = Ret p -> resolve r (env_command_type c) = Some p.
Proof.
  unfold authorize, resolve. destruct (matching r _) as [|q [|? ?]]; try done.
  repeat case_match; naive_solver.
Qed.
