(* ===== verification/LedgerSpec.v ===== *)
(** * What the command ledger promises

    The [CommandStore] protocol of [src/app/commands.py] as a class of
    operations over a store state, and an abstract specification: one
    operation seen as a small record ([OpView]) and each state-changing call
    as a pure function on it.  [LedgerLaws] states that a store refines the
    specification; the execution bus, the reconciler and the kernel are
    proved against it, and the in-memory store discharges it. *)

From S2P Require Import Prelude Json Uuid Commands.

Abbreviation Key := (string * UUID)%type.

Inductive MutationAction := act_cancel | act_reconcile | act_retry.

#[export] Instance MutationAction_eq_dec : EqDecision MutationAction.
Proof. solve_decision. Defined.
#[export] Instance MutationAction_countable : Countable MutationAction.
Proof.
  refine (inj_countable' (fun a => match a with act_cancel => 0 | act_reconcile => 1 | act_retry => 2 end)
    (fun n => match n with 0 => act_cancel | 1 => act_reconcile | _ => act_retry end) _)%nat.
  by intros [].
Defined.

Definition action_name (a : MutationAction) : string :=
  match a with act_cancel => "cancel" | act_reconcile => "reconcile" | act_retry => "retry" end.

Record DeadLetterRecord := {
  dl_id : nat;
  dl_tenant_id : string;
  dl_command_id : UUID;
  dl_attempt_number : nat;
  dl_reason_code : string;
  dl_error_class : string;
  dl_terminal_reason : string;
  dl_correlation_id : string;
  dl_principal_id : string;
  dl_capability : string;
  dl_poisoned : bool;
  dl_retry_exhausted : bool;
  dl_created_at : datetime;
}.

Inductive ReplayState := replay_requested | replay_scheduled | replay_submitted | replay_cancelled.

#[export] Instance ReplayState_eq_dec : EqDecision ReplayState.
Proof. solve_decision. Defined.

Record ReplayRecord := {
  replay_id : UUID;
  replay_tenant_id : string;
  original_command_id : UUID;
  replay_command_id : option UUID;
  replay_requested_by : string;
  replay_idempotency_key : string;
  replay_reason : string;
  replay_state : ReplayState;
  replay_created_at : datetime;
  replay_scheduled_at : option datetime;
  replay_cancelled_at : option datetime;
}.

(** ** The protocol *)

Class CommandStore (S : Type) := {
  store_submit : datetime -> CommandEnvelope -> string -> string -> option jdict ->
    option (list (string * string)) -> M S CommandOperation;
  store_get : string -> UUID -> M S CommandOperation;
  store_mutate_operation : datetime -> string -> UUID -> MutationAction -> string -> string -> Z ->
    string -> option string -> M S CommandOperation;
  store_record_dead_letter : datetime -> string -> UUID -> string -> string -> string -> bool -> bool ->
    M S DeadLetterRecord;
  store_get_dead_letter : string -> UUID -> M S DeadLetterRecord;
  store_create_replay : datetime -> string -> UUID -> UUID -> string -> string -> string ->
    option datetime -> M S ReplayRecord;
  store_complete_replay : string -> UUID -> UUID -> M S ReplayRecord;
  store_transition : datetime -> string -> UUID -> CommandState -> string -> string ->
    option string -> option jdict -> option nat -> M S CommandOperation;
  store_reconcile : datetime -> string -> UUID -> bool -> string -> string -> option string -> jdict ->
    option Z -> M S CommandOperation;
  store_latest_attempt : string -> UUID -> M S nat;
  store_load_envelope : string -> UUID -> M S CommandEnvelope;
  store_backlog : string -> M S (Z * option Z);
  store_list_events : string -> UUID -> nat -> M S (list OperationEvent);
}.

(** ** The abstract specification *)

Record OpView := {
  v_env : CommandEnvelope;
  v_state : CommandState;
  v_provider : option string;
  v_evidence : option jdict;
  v_version : Z;
  v_attempts : nat;
  v_dead : bool;
}.

Abbreviation conflict msg := (Exc (Exn CommandConflict msg)).
Abbreviation not_found := (Exc (Exn CommandNotFound "command operation was not found")).

(** the operation after a transition: an attempt is opened by [dispatching] *)
Definition moved (v : OpView) (new_state : CommandState) (provider : option string)
    (evidence : option jdict) : OpView := {|
  v_env := v_env v;
  v_state := new_state;
  v_provider := str_or provider (v_provider v);
  v_evidence := match evidence with Some e => Some e | None => v_evidence v end;
  v_version := v_version v;
  v_attempts := if bool_decide (new_state = dispatching) then S (v_attempts v) else v_attempts v;
  v_dead := v_dead v;
|}.

(** [transition]: evidence only where it may be persisted, the fencing token
    of the attempt, then the transition table *)
Definition spec_transition (ov : option OpView) (new_state : CommandState) (provider : option string)
    (evidence : option jdict) (expected_attempt : option nat) : outcome OpView :=
  if bool_decide (is_Some evidence) && negb (state_in new_state [completed; reconciliation_required])
  then conflict "read-back evidence may be persisted only on completion or reconciliation"
  else match ov with
  | None => not_found
  | Some v =>
      if match expected_attempt with
         | Some n => negb (bool_decide (new_state = dispatching)) && negb (v_attempts v =? n)%nat
         | None => false
         end
      then conflict "stale attempt fencing token"
      else if negb (state_in new_state (ALLOWED_COMMAND_TRANSITIONS (v_state v)))
      then conflict ("invalid command transition " +:+ state_name (v_state v) +:+ " -> " +:+
                     state_name new_state)
      else Ret (moved v new_state provider evidence)
  end.

(** the operation after a verdict *)
Definition reconciled (v : OpView) (matched : bool) (provider : option string) (evidence : jdict) :
    OpView := {|
  v_env := v_env v;
  v_state := if matched then completed else reconciliation_required;
  v_provider := str_or provider (v_provider v);
  v_evidence := Some evidence;
  v_version := v_version v + 1;
  v_attempts := v_attempts v;
  v_dead := v_dead v;
|}.

(** [reconcile]: a verdict on an operation still awaiting one, fenced to the
    version that was read *)
Definition spec_reconcile (ov : option OpView) (matched : bool) (provider : option string)
    (evidence : jdict) (expected_version : option Z) : outcome OpView :=
  match ov with
  | None => not_found
  | Some v =>
      if negb (bool_decide (v_state v = reconciliation_required))
      then conflict "operation is no longer awaiting reconciliation"
      else if match expected_version with Some n => negb (v_version v =? n)%Z | None => false end
      then conflict "expected_version is stale"
      else Ret (reconciled v matched provider evidence)
  end.

Definition with_dead_letter (v : OpView) : OpView := {|
  v_env := v_env v; v_state := v_state v; v_provider := v_provider v;
  v_evidence := v_evidence v; v_version := v_version v; v_attempts := v_attempts v;
  v_dead := true |}.

(** only the state changes *)
Definition restate (v : OpView) (st : CommandState) : OpView := {|
  v_env := v_env v; v_state := st; v_provider := v_provider v;
  v_evidence := v_evidence v; v_version := v_version v; v_attempts := v_attempts v;
  v_dead := v_dead v |}.

(** the operation a store returns shows the view *)
Definition op_matches (o : CommandOperation) (v : OpView) : Prop :=
  op_command o = identity_of (v_env v) /\ op_state o = v_state v /\
  op_provider_operation_id o = v_provider v /\ op_readback_evidence o = v_evidence v /\
  op_resource_version o = v_version v.

(** one key changes, the others do not *)
Definition view_upd {S} (view : S -> Key -> option OpView) (s s' : S) (k : Key) (v' : OpView) : Prop :=
  view s' k = Some v' /\ forall k', k' <> k -> view s' k' = view s k'.

(** a state-changing call implements a pure specification of one key *)
Definition implements {S} (ok : S -> Prop) (view : S -> Key -> option OpView)
    (m : M S CommandOperation) (spec : outcome OpView) (s : S) (k : Key) : Prop :=
  match spec with
  | Exc e => m s = (Exc e, s)
  | Ret v' => exists o s', m s = (Ret o, s') /\ op_matches o v' /\ ok s' /\ view_upd view s s' k v'
  end.

(** ** The laws *)

Class LedgerLaws (S : Type) `{CommandStore S} := {
  ledger_ok : S -> Prop;
  view : S -> Key -> option OpView;
  view_key : forall s k v, ledger_ok s -> view s k = Some v ->
    k = (env_tenant_id (v_env v), env_command_id (v_env v));
  get_law : forall s t c, ledger_ok s ->
    match view s (t, c) with
    | None => store_get t c s = (not_found, s)
    | Some v => exists o, store_get t c s = (Ret o, s) /\ op_matches o v
    end;
  latest_attempt_law : forall s t c v, ledger_ok s -> view s (t, c) = Some v ->
    store_latest_attempt t c s = (Ret (v_attempts v), s);
  load_envelope_law : forall s t c v, ledger_ok s -> view s (t, c) = Some v ->
    store_load_envelope t c s = (Ret (v_env v), s);
  transition_law : forall s now t c st actor reason provider evidence expected, ledger_ok s ->
    implements ledger_ok view (store_transition now t c st actor reason provider evidence expected)
      (spec_transition (view s (t, c)) st provider evidence expected) s (t, c);
  reconcile_law : forall s now t c matched actor reason provider evidence expected, ledger_ok s ->
    implements ledger_ok view (store_reconcile now t c matched actor reason provider evidence expected)
      (spec_reconcile (view s (t, c)) matched provider evidence expected) s (t, c);
  record_dead_letter_law : forall s now t c v code class reason poisoned exhausted,
    ledger_ok s -> view s (t, c) = Some v ->
    exists r s', store_record_dead_letter now t c code class reason poisoned exhausted s = (Ret r, s') /\
      ledger_ok s' /\ view_upd view s s' (t, c) (with_dead_letter v);
}.

(** ** Facts about the specification *)

(** every state change the specification makes is an edge of the table *)
Lemma spec_transition_edge ov st p e n v' :
  spec_transition ov st p e n = Ret v' ->
  exists v, ov = Some v /\ st ∈ ALLOWED_COMMAND_TRANSITIONS (v_state v) /\ v_state v' = st /\
    v_env v' = v_env v /\ v_version v' = v_version v /\ v_dead v' = v_dead v.
Proof.
  unfold spec_transition. split_if. destruct ov as [v|]; [|done].
  split_if. split_if.
  intros [= <-]. exists v. apply negb_false_iff in Heqb1. by apply state_in_true in Heqb1.
Qed.

Lemma spec_transition_stale v st p e n :
  st <> dispatching -> v_attempts v <> n -> (e = None \/ st ∈ [completed; reconciliation_required]) ->
  spec_transition (Some v) st p e (Some n) = conflict "stale attempt fencing token".
Proof.
  intros Hst Hn He. unfold spec_transition.
  assert (bool_decide (is_Some e) && negb (state_in st [completed; reconciliation_required]) = false) as ->.
  { destruct He as [->|He]; [done|]. apply state_in_true in He as ->. by rewrite andb_false_r. }
  rewrite bool_decide_eq_false_2 by done. apply Nat.eqb_neq in Hn as ->. done.
Qed.

Lemma restate_id v st : v_state v = st -> restate v st = v.
Proof. destruct v; simpl. by intros <-. Qed.

Lemma moved_restate v st : st <> dispatching -> moved v st None None = restate v st.
Proof. intros Hst. unfold moved, restate. by rewrite bool_decide_eq_false_2. Qed.

(** a transition along an edge, fenced to the current attempt or unfenced *)
Lemma spec_transition_ok v st p e n :
  state_in st (ALLOWED_COMMAND_TRANSITIONS (v_state v)) = true ->
  match e with Some _ => state_in st [completed; reconciliation_required] = true | None => True end ->
  match n with Some n => n = v_attempts v | None => True end ->
  spec_transition (Some v) st p e n = Ret (moved v st p e).
Proof.
  intros Hst He Hn. unfold spec_transition.
  assert (bool_decide (is_Some e) && negb (state_in st [completed; reconciliation_required]) = false) as ->.
  { destruct e; [by rewrite He|done]. }
  destruct n as [n|]; [subst n; rewrite Nat.eqb_refl, andb_false_r|]; by rewrite Hst.
Qed.

Lemma spec_transition_bad_edge v st p n :
  state_in st (ALLOWED_COMMAND_TRANSITIONS (v_state v)) = false ->
  match n with Some n => n = v_attempts v | None => True end ->
  spec_transition (Some v) st p None n =
    conflict ("invalid command transition " +:+ state_name (v_state v) +:+ " -> " +:+ state_name st).
Proof.
  intros Hst Hn. unfold spec_transition. simpl.
  destruct n as [n|]; [subst n; rewrite Nat.eqb_refl, andb_false_r|]; by rewrite Hst.
Qed.

Lemma spec_reconcile_ok v matched p e n :
  v_state v = reconciliation_required -> match n with Some n => n = v_version v | None => True end ->
  spec_reconcile (Some v) matched p e n = Ret (reconciled v matched p e).
Proof.
  intros Hst Hn. unfold spec_reconcile. rewrite bool_decide_eq_true_2 by done. simpl.
  destruct n as [n|]; [subst n; by rewrite Z.eqb_refl|done].
Qed.

(** goals on the state a view is in, by cases *)
Ltac by_state :=
  try rewrite <- state_in_true; try rewrite <- state_in_false;
  repeat match goal with H : v_state _ ∈ _ |- _ => apply state_in_true in H; revert H end;
  repeat match goal with
  | H : v_state _ = _ |- _ => revert H
  | H : v_state _ <> _ |- _ => revert H
  end;
  match goal with |- context [v_state ?v] => destruct (v_state v) end; vm_compute; naive_solver.
