(* ===== verification/Ledger.v ===== *)
(** * The in-memory command ledger

    [MemoryCommandStore] of [src/app/commands.py]: every method, with the
    guards and the order of writes of the code.  The outbox is the list the
    in-memory execution bus shares with the store; an intent is referred to by
    its position, so a mutation made while another component holds the intent
    is seen by both. *)

From stdpp Require Import sorting.
From Stdlib Require Import QArith.
From S2P Require Import Prelude Json Sha256 Uuid Commands LedgerSpec.
Local Open Scope nat_scope.

(** ** State *)

(** the twin of a [middleware_outbox] row; times are [time.monotonic] values *)
Record MemoryOutboxIntent := {
  intent_id : nat;
  intent_tenant_id : string;
  intent_command_id : string;
  intent_destination : string;
  intent_event_type : string;
  intent_idempotency_key : string;
  intent_payload : jdict;
  attempt_count : nat;
  next_attempt_at : Q;
  lease_owner : option string;
  lease_until : option Q;
  completed_at : option Q;
  dead_lettered_at : option Q;
  intent_cancelled_at : option Q;
  reconciliation_required_at : option Q;
  reconciliation_attempts : nat;
  intent_last_error : option string;
}.

Definition new_intent (id : nat) (tenant cid dest event key : string) (payload : jdict) :
    MemoryOutboxIntent := {|
  intent_id := id;
  intent_tenant_id := tenant;
  intent_command_id := cid;
  intent_destination := dest;
  intent_event_type := event;
  intent_idempotency_key := key;
  intent_payload := payload;
  attempt_count := 0;
  next_attempt_at := 0;
  lease_owner := None;
  lease_until := None;
  completed_at := None;
  dead_lettered_at := None;
  intent_cancelled_at := None;
  reconciliation_required_at := None;
  reconciliation_attempts := 0;
  intent_last_error := None;
|}.

Abbreviation MutationKey := (string * UUID * MutationAction * string * string)%type.

Record MemoryCommandStore := {
  commands : gmap Key (string * CommandOperation);
  idempotency : gmap (string * string) (string * CommandOperation);
  events : gmap Key (list OperationEvent);
  attempts : gmap Key (list OperationAttempt);
  mutations : gmap MutationKey (string * CommandOperation);
  payloads : gmap Key jdict;
  outbox : list MemoryOutboxIntent;
  dead_letters : gmap Key DeadLetterRecord;
  (* insertion-ordered: [list_replays] sorts by creation time only *)
  replays : list (Key * ReplayRecord);
  replay_keys : gmap (string * UUID * string) UUID;
}.

Definition empty_store : MemoryCommandStore := Build_MemoryCommandStore ∅ ∅ ∅ ∅ ∅ ∅ [] ∅ [] ∅.

Definition set_commands f (s : MemoryCommandStore) := Build_MemoryCommandStore (f (commands s))
  (idempotency s) (events s) (attempts s) (mutations s) (payloads s) (outbox s) (dead_letters s)
  (replays s) (replay_keys s).
Definition set_idempotency f (s : MemoryCommandStore) := Build_MemoryCommandStore (commands s)
  (f (idempotency s)) (events s) (attempts s) (mutations s) (payloads s) (outbox s) (dead_letters s)
  (replays s) (replay_keys s).
Definition set_events f (s : MemoryCommandStore) := Build_MemoryCommandStore (commands s)
  (idempotency s) (f (events s)) (attempts s) (mutations s) (payloads s) (outbox s) (dead_letters s)
  (replays s) (replay_keys s).
Definition set_attempts f (s : MemoryCommandStore) := Build_MemoryCommandStore (commands s)
  (idempotency s) (events s) (f (attempts s)) (mutations s) (payloads s) (outbox s) (dead_letters s)
  (replays s) (replay_keys s).
Definition set_mutations f (s : MemoryCommandStore) := Build_MemoryCommandStore (commands s)
  (idempotency s) (events s) (attempts s) (f (mutations s)) (payloads s) (outbox s) (dead_letters s)
  (replays s) (replay_keys s).
Definition set_payloads f (s : MemoryCommandStore) := Build_MemoryCommandStore (commands s)
  (idempotency s) (events s) (attempts s) (mutations s) (f (payloads s)) (outbox s) (dead_letters s)
  (replays s) (replay_keys s).
Definition set_outbox f (s : MemoryCommandStore) := Build_MemoryCommandStore (commands s)
  (idempotency s) (events s) (attempts s) (mutations s) (payloads s) (f (outbox s)) (dead_letters s)
  (replays s) (replay_keys s).
Definition set_dead_letters f (s : MemoryCommandStore) := Build_MemoryCommandStore (commands s)
  (idempotency s) (events s) (attempts s) (mutations s) (payloads s) (outbox s) (f (dead_letters s))
  (replays s) (replay_keys s).
Definition set_replays f g (s : MemoryCommandStore) := Build_MemoryCommandStore (commands s)
  (idempotency s) (events s) (attempts s) (mutations s) (payloads s) (outbox s) (dead_letters s)
  (f (replays s)) (g (replay_keys s)).

Abbreviation MemM := (M MemoryCommandStore).

(** [self._events[key]], [self._attempts[key]]: a [KeyError] when absent *)
Definition update_at {V} (get : MemoryCommandStore -> gmap Key V)
    (set : (gmap Key V -> gmap Key V) -> MemoryCommandStore -> MemoryCommandStore)
    (k : Key) (f : V -> V) : MemM unit := fun s =>
  match get s !! k with
  | Some v => modify (set (fun m => <[k := f v]> m)) s
  | None => raise KeyError "" s
  end.

(** [events.append(OperationEvent(event_id=len(events) + 1, ...))] *)
Definition append_event (k : Key) (prev : option CommandState) (st : CommandState)
    (actor reason : string) (meta : jdict) (now : datetime) : MemM unit :=
  update_at events set_events k (fun l => l ++ [{|
    event_id := length l + 1;
    event_operation_id := snd k;
    previous_state := prev;
    new_state := st;
    event_actor_id := actor;
    event_reason := reason;
    safe_metadata := meta;
    event_created_at := now |}]).

(** ** [submit] *)

Definition submit_metadata (client_id : string) (evidence : option jdict) : jdict :=
  dict_merge [("authenticated_client_id", JStr client_id)]
             (redact_metadata (default [] evidence)).

Definition with_trace (payload : jdict) (trace : option (list (string * string))) : jdict :=
  match trace with
  | Some (kv :: t) =>
      dict_set "_trace" (JObj (map (fun kv => (fst kv, JStr (snd kv))) (kv :: t))) payload
  | _ => payload
  end.

(** the writes of a first submission *)
Definition insert_new (now : datetime) (c : CommandEnvelope) (client_id destination : string)
    (evidence : option jdict) (trace : option (list (string * string))) : MemM CommandOperation :=
  let key := (env_tenant_id c, env_command_id c) in
  let operation := new_operation c now in
  let entry := (authenticated_command_digest c client_id, operation) in
  let payload := authenticated_command_payload c client_id in
  modify (set_commands (fun m => <[key := entry]> m)) ;;;
  modify (set_idempotency (fun m => <[(env_tenant_id c, env_idempotency_key c) := entry]> m)) ;;;
  modify (set_events (fun m => <[key := [{|
    event_id := 1;
    event_operation_id := env_command_id c;
    previous_state := None;
    new_state := persisted;
    event_actor_id := env_requested_by c;
    event_reason := "validated command and persisted delivery intent";
    safe_metadata := submit_metadata client_id evidence;
    event_created_at := now |}]]> m)) ;;;
  modify (set_attempts (fun m => <[key := []]> m)) ;;;
  modify (set_payloads (fun m => <[key := payload]> m)) ;;;
  modify (set_outbox (fun l => l ++ [new_intent (length l + 1) (env_tenant_id c)
    (uuid_str (env_command_id c)) destination (env_command_type c) (env_idempotency_key c)
    (with_trace payload trace)])) ;;;
  ret operation.

Definition submit (now : datetime) (c : CommandEnvelope) (client_id destination : string)
    (evidence : option jdict) (trace : option (list (string * string))) : MemM CommandOperation :=
  if negb (mem_string destination COMMAND_DESTINATIONS)
  then raise CommandConflict ("unsupported command destination " +:+ destination)
  else
  let! s := gets id in
  let by_id := commands s !! (env_tenant_id c, env_command_id c) in
  let by_key := idempotency s !! (env_tenant_id c, env_idempotency_key c) in
  if match by_id, by_key with
     | Some a, Some b => negb (command_id (op_command (snd a)) =? command_id (op_command (snd b)))%N
     | _, _ => false
     end
  then raise CommandConflict "command and idempotency identities refer to different operations"
  else
  match (match by_id with Some a => Some a | None => by_key end) with
  | Some existing =>
      if negb (command_digest_matches (fst existing) c client_id)
      then raise CommandConflict "command identity was reused with different content"
      else ret (as_duplicate (snd existing))
  | None => insert_new now c client_id destination evidence trace
  end.

(** ** Reads *)

Definition get (t : string) (c : UUID) : MemM CommandOperation := fun s =>
  match commands s !! (t, c) with
  | Some (_, o) => (Ret o, s)
  | None => (Exc (Exn CommandNotFound "command operation was not found"), s)
  end.

Definition latest_attempt (t : string) (c : UUID) : MemM nat :=
  get t c ;;; gets (fun s => length (default [] (attempts s !! (t, c)))).

Definition load_envelope `{Externals} (t : string) (c : UUID) : MemM CommandEnvelope :=
  get t c ;;;
  fun s => match payloads s !! (t, c) with
           | Some p => (command_envelope_from_payload p, s)
           | None => raise KeyError "" s
           end.

Definition operations (s : MemoryCommandStore) : list CommandOperation :=
  map (fun kv => snd (snd kv)) (map_to_list (commands s)).

Definition backlog (t : string) : MemM (Z * option Z) := fun s =>
  let active := List.filter (fun o => state_in (op_state o) ACTIVE_COMMAND_STATES) (operations s) in
  (Ret (Z.of_nat (length (List.filter (fun o => String.eqb (tenant_id (op_command o)) t) active)),
        Some (Z.of_nat (length active))), s).

(** newest first, by [(created_at, command_id.int)] *)
Definition newer (a b : CommandOperation) : Prop :=
  (op_created_at b < op_created_at a)%Z \/
  (op_created_at a = op_created_at b /\ (command_id (op_command b) <= command_id (op_command a))%N).
#[export] Instance newer_dec a b : Decision (newer a b).
Proof. unfold newer. apply _. Defined.

Definition before_position (p : datetime * UUID) (o : CommandOperation) : bool :=
  ((op_created_at o <? fst p)%Z ||
   ((op_created_at o =? fst p)%Z && (command_id (op_command o) <? snd p)%N))%bool.

Definition list_operations (t : string) (limit : nat) (position : option (datetime * UUID))
    (state : option CommandState) (type : option string) : MemM (list CommandOperation) := fun s =>
  let rows := map (fun kv => snd (snd kv))
    (List.filter (fun kv => String.eqb (fst (fst kv)) t) (map_to_list (commands s))) in
  let rows := match state with
              | Some st => List.filter (fun o => bool_decide (op_state o = st)) rows | None => rows end in
  let rows := match type with
              | Some ty => List.filter (fun o => String.eqb (command_type (op_command o)) ty) rows
              | None => rows end in
  let rows := merge_sort newer rows in
  let rows := match position with
              | Some p => List.filter (before_position p) rows | None => rows end in
  (Ret (take limit rows), s).

Definition redact_event (e : OperationEvent) : OperationEvent := {|
  event_id := event_id e;
  event_operation_id := event_operation_id e;
  previous_state := previous_state e;
  new_state := new_state e;
  event_actor_id := event_actor_id e;
  event_reason := event_reason e;
  safe_metadata := redact_metadata (safe_metadata e);
  event_created_at := event_created_at e |}.

Definition after_event (p : datetime * nat) (e : OperationEvent) : bool :=
  ((fst p <? event_created_at e)%Z ||
   ((fst p =? event_created_at e)%Z && (snd p <? event_id e)%nat))%bool.

Definition list_events (t : string) (c : UUID) (limit : nat) (position : option (datetime * nat)) :
    MemM (list OperationEvent) :=
  get t c ;;;
  gets (fun s =>
    let rows := default [] (events s !! (t, c)) in
    let rows := match position with Some p => List.filter (after_event p) rows | None => rows end in
    map redact_event (take limit rows)).

Definition after_attempt (p : nat * nat) (a : OperationAttempt) : bool :=
  ((fst p <? attempt_number a) || ((fst p =? attempt_number a) && (snd p <? attempt_id a)))%nat.

Definition list_attempts (t : string) (c : UUID) (limit : nat) (position : option (nat * nat)) :
    MemM (list OperationAttempt) :=
  get t c ;;;
  gets (fun s =>
    let rows := default [] (attempts s !! (t, c)) in
    let rows := match position with Some p => List.filter (after_attempt p) rows | None => rows end in
    take limit rows).

(** ** [transition] *)

Definition transition_op (o : CommandOperation) (st : CommandState) (reason : string)
    (provider : option string) (evidence : option jdict) (now : datetime) : CommandOperation := {|
  op_command := op_command o;
  op_state := st;
  op_provider_operation_id := str_or provider (op_provider_operation_id o);
  op_readback_evidence := match evidence with Some e => Some e | None => op_readback_evidence o end;
  op_readback_evidence_sha256 :=
    match evidence with
    | Some e => Some (provider_evidence_digest e)
    | None => op_readback_evidence_sha256 o
    end;
  op_last_error := if state_in st [failed; reconciliation_required] then Some reason else None;
  op_created_at := op_created_at o;
  op_updated_at := now;
  op_resource_version := op_resource_version o;
  op_cancelled_at := op_cancelled_at o;
  op_cancellation_reason := op_cancellation_reason o;
  op_reconciliation_requested_at := op_reconciliation_requested_at o;
  op_reconciliation_reason := op_reconciliation_reason o;
  op_duplicate := op_duplicate o;
|}.

Definition new_attempt (c : UUID) (n : nat) (provider : option string) (now : datetime) :
    OperationAttempt := {|
  attempt_id := n;
  attempt_operation_id := c;
  attempt_number := n;
  attempt_state := dispatching;
  attempt_provider_operation_id := provider;
  safe_error_code := None;
  started_at := now;
  finished_at := None |}.

(** the newest attempt follows the operation *)
Definition follow_attempt (st : CommandState) (provider code : option string)
    (finished : option datetime) (a : OperationAttempt) : OperationAttempt := {|
  attempt_id := attempt_id a;
  attempt_operation_id := attempt_operation_id a;
  attempt_number := attempt_number a;
  attempt_state := st;
  attempt_provider_operation_id := str_or provider (attempt_provider_operation_id a);
  safe_error_code := code;
  started_at := started_at a;
  finished_at := finished |}.

Definition transition_attempts (c : UUID) (st : CommandState) (provider : option string)
    (now : datetime) (l : list OperationAttempt) : list OperationAttempt :=
  if bool_decide (st = dispatching) then l ++ [new_attempt c (length l + 1) provider now]
  else alter_last (follow_attempt st provider
         (if state_in st [failed; reconciliation_required] then Some "operation_failed" else None)
         (if state_in st [completed; failed; reconciliation_required] then Some now else None)) l.

Definition transition (now : datetime) (t : string) (c : UUID) (st : CommandState)
    (actor reason : string) (provider : option string) (evidence : option jdict)
    (expected_attempt : option nat) : MemM CommandOperation :=
  if bool_decide (is_Some evidence) && negb (state_in st [completed; reconciliation_required])
  then raise CommandConflict
         "read-back evidence may be persisted only on completion or reconciliation"
  else
  let! s := gets id in
  match commands s !! (t, c) with
  | None => raise CommandNotFound "command operation was not found"
  | Some (digest, operation) =>
      if match expected_attempt with
         | Some n => negb (bool_decide (st = dispatching)) &&
                     negb (length (default [] (attempts s !! (t, c))) =? n)%nat
         | None => false
         end
      then raise CommandConflict "stale attempt fencing token"
      else if negb (state_in st (ALLOWED_COMMAND_TRANSITIONS (op_state operation)))
      then raise CommandConflict ("invalid command transition " +:+ state_name (op_state operation) +:+
                                  " -> " +:+ state_name st)
      else
      let updated := transition_op operation st reason provider evidence now in
      modify (set_commands (fun m => <[(t, c) := (digest, updated)]> m)) ;;;
      modify (set_idempotency (fun m =>
        <[(t, idempotency_key (op_command updated)) := (digest, updated)]> m)) ;;;
      append_event (t, c) (Some (op_state operation)) st actor (str_take 2048 reason)
        [("provider_operation_id", jopt provider)] now ;;;
      update_at attempts set_attempts (t, c) (transition_attempts c st provider now) ;;;
      ret updated
  end.

(** ** [reconcile] *)

Definition reconcile_op (o : CommandOperation) (matched : bool) (reason : string)
    (provider : option string) (evidence : jdict) (now : datetime) : CommandOperation := {|
  op_command := op_command o;
  op_state := if matched then completed else reconciliation_required;
  op_provider_operation_id := str_or provider (op_provider_operation_id o);
  op_readback_evidence := Some evidence;
  op_readback_evidence_sha256 := Some (provider_evidence_digest evidence);
  op_last_error := if matched then None else Some (str_take 2048 reason);
  op_created_at := op_created_at o;
  op_updated_at := now;
  op_resource_version := op_resource_version o + 1;
  op_cancelled_at := op_cancelled_at o;
  op_cancellation_reason := op_cancellation_reason o;
  op_reconciliation_requested_at := op_reconciliation_requested_at o;
  op_reconciliation_reason :=
    if matched then op_reconciliation_reason o else Some (str_take 2048 reason);
  op_duplicate := op_duplicate o;
|}.

Definition reconcile (now : datetime) (t : string) (c : UUID) (matched : bool)
    (actor reason : string) (provider : option string) (evidence : jdict)
    (expected_version : option Z) : MemM CommandOperation :=
  let! s := gets id in
  match commands s !! (t, c) with
  | None => raise CommandNotFound "command operation was not found"
  | Some (digest, operation) =>
      if negb (bool_decide (op_state operation = reconciliation_required))
      then raise CommandConflict "operation is no longer awaiting reconciliation"
      else if match expected_version with
              | Some n => negb (op_resource_version operation =? n)%Z | None => false end
      then raise CommandConflict "expected_version is stale"
      else
      let updated := reconcile_op operation matched reason provider evidence now in
      modify (set_commands (fun m => <[(t, c) := (digest, updated)]> m)) ;;;
      modify (set_idempotency (fun m =>
        <[(t, idempotency_key (op_command updated)) := (digest, updated)]> m)) ;;;
      append_event (t, c) (Some reconciliation_required) (op_state updated) actor
        (str_take 2048 reason)
        [("provider_operation_id", jopt provider);
         ("readback_evidence_sha256", JStr (provider_evidence_digest evidence));
         ("reconciliation_status", JStr (if matched then "matched" else "mismatch"))] now ;;;
      update_at attempts set_attempts (t, c) (alter_last (follow_attempt (op_state updated) provider
        (if matched then None else Some "provider_readback_mismatch") (Some now))) ;;;
      ret updated
  end.

(** ** [mutate_operation] *)

(** the request digest of an operator mutation *)
Definition mutation_digest (expected_version : Z) (reason : string) : string :=
  sha256_hex (ascii_text (dumps (JObj [("expected_version", JInt expected_version); ("reason", JStr reason)]))).

(** [self._adapter_intents(tenant_id, command_id)] *)
Definition is_intent_of (t : string) (c : UUID) (i : MemoryOutboxIntent) : bool :=
  String.eqb (intent_tenant_id i) t && String.eqb (intent_command_id i) (uuid_str c).
Definition adapter_intents (t : string) (c : UUID) (s : MemoryCommandStore) : list MemoryOutboxIntent :=
  List.filter (is_intent_of t c) (outbox s).

Definition cancel_intent (i : MemoryOutboxIntent) : MemoryOutboxIntent :=
  match completed_at i, lease_owner i, intent_cancelled_at i with
  | None, None, None => {|
      intent_id := intent_id i; intent_tenant_id := intent_tenant_id i;
      intent_command_id := intent_command_id i; intent_destination := intent_destination i;
      intent_event_type := intent_event_type i; intent_idempotency_key := intent_idempotency_key i;
      intent_payload := intent_payload i; attempt_count := attempt_count i;
      next_attempt_at := next_attempt_at i; lease_owner := lease_owner i;
      lease_until := lease_until i; completed_at := completed_at i;
      dead_lettered_at := dead_lettered_at i; intent_cancelled_at := Some 0%Q;
      reconciliation_required_at := reconciliation_required_at i;
      reconciliation_attempts := reconciliation_attempts i; intent_last_error := intent_last_error i |}
  | _, _, _ => i
  end.

Definition quarantine_intent (i : MemoryOutboxIntent) : MemoryOutboxIntent :=
  match completed_at i, dead_lettered_at i, intent_cancelled_at i with
  | None, None, None => {|
      intent_id := intent_id i; intent_tenant_id := intent_tenant_id i;
      intent_command_id := intent_command_id i; intent_destination := intent_destination i;
      intent_event_type := intent_event_type i; intent_idempotency_key := intent_idempotency_key i;
      intent_payload := intent_payload i; attempt_count := attempt_count i;
      next_attempt_at := next_attempt_at i; lease_owner := None;
      lease_until := None; completed_at := completed_at i;
      dead_lettered_at := dead_lettered_at i; intent_cancelled_at := intent_cancelled_at i;
      reconciliation_required_at :=
        Some (default 0%Q (reconciliation_required_at i));
      reconciliation_attempts := reconciliation_attempts i; intent_last_error := intent_last_error i |}
  | _, _, _ => i
  end.

Definition map_intents (t : string) (c : UUID) (f : MemoryOutboxIntent -> MemoryOutboxIntent)
    (l : list MemoryOutboxIntent) : list MemoryOutboxIntent :=
  map (fun i => if is_intent_of t c i then f i else i) l.

(** [model_copy(update={**updates, "resource_version": + 1, "updated_at": now})] *)
Definition mutate_op (o : CommandOperation) (st : CommandState) (last_error : option string)
    (cancelled_at : option datetime) (cancellation_reason : option string)
    (requested_at : option datetime) (reconciliation_reason : option string) (now : datetime) :
    CommandOperation := {|
  op_command := op_command o;
  op_state := st;
  op_provider_operation_id := op_provider_operation_id o;
  op_readback_evidence := op_readback_evidence o;
  op_readback_evidence_sha256 := op_readback_evidence_sha256 o;
  op_last_error := last_error;
  op_created_at := op_created_at o;
  op_updated_at := now;
  op_resource_version := op_resource_version o + 1;
  op_cancelled_at := cancelled_at;
  op_cancellation_reason := cancellation_reason;
  op_reconciliation_requested_at := requested_at;
  op_reconciliation_reason := reconciliation_reason;
  op_duplicate := op_duplicate o;
|}.

(** the branch of the action: the updated operation, after the outbox writes *)
Definition cancel_updates (now : datetime) (t : string) (c : UUID) (o : CommandOperation)
    (reason : string) : MemM CommandOperation :=
  if state_in (op_state o) [completed; failed; reconciliation_required; dead_lettered; cancelled]
  then raise CommandConflict "operation is not cancellable"
  else
  let! s := gets id in
  let active_lease := existsb (fun i => bool_decide (is_Some (lease_owner i)) &&
                                        bool_decide (completed_at i = None)) (adapter_intents t c s) in
  let st := if state_in (op_state o) [persisted; queued] && negb active_lease
            then cancelled else reconciliation_required in
  when (bool_decide (st = cancelled)) (modify (set_outbox (map_intents t c cancel_intent))) ;;;
  ret (mutate_op o st (op_last_error o)
         (if bool_decide (st = cancelled) then Some now else None) (Some reason)
         (op_reconciliation_requested_at o) (op_reconciliation_reason o) now).

Definition reconcile_updates (now : datetime) (t : string) (c : UUID) (o : CommandOperation)
    (reason : string) : MemM CommandOperation :=
  if negb (state_in (op_state o) [dispatching; accepted; readback_pending; reconciliation_required])
  then raise CommandConflict "operation is not reconcilable"
  else
  modify (set_outbox (map_intents t c quarantine_intent)) ;;;
  ret (mutate_op o reconciliation_required (op_last_error o) (op_cancelled_at o)
         (op_cancellation_reason o) (Some now) (Some reason) now).

Definition retry_key (t : string) (c : UUID) (actor key : string) : string :=
  "operation-retry:" +:+ sha256_hex (t +:+ ":" +:+ uuid_str c +:+ ":" +:+ actor +:+ ":" +:+ key).

Definition retry_updates (now : datetime) (t : string) (c : UUID) (o : CommandOperation)
    (actor key : string) : MemM CommandOperation :=
  if negb (bool_decide (op_state o = failed))
  then raise CommandConflict "operation is not safely retryable"
  else
  let! s := gets id in
  let source := last (adapter_intents t c s) in
  modify (set_outbox (fun l => l ++ [new_intent (length l + 1) t (uuid_str c)
    (match source with Some i => intent_destination i | None => TEMPORAL_COMMAND_DESTINATION end)
    (command_type (op_command o)) (retry_key t c actor key)
    (match source with
     | Some i => intent_payload i
     | None => [("command_id", JStr (uuid_str c))]
     end)])) ;;;
  ret (mutate_op o queued None (op_cancelled_at o) (op_cancellation_reason o)
         (op_reconciliation_requested_at o) (op_reconciliation_reason o) now).

(** the branch the action selects *)
Definition action_updates (now : datetime) (t : string) (c : UUID) (o : CommandOperation)
    (action : MutationAction) (actor key reason : string) : MemM CommandOperation :=
  match action with
  | act_cancel => cancel_updates now t c o reason
  | act_reconcile => reconcile_updates now t c o reason
  | act_retry => retry_updates now t c o actor key
  end.

Definition mutate_operation (now : datetime) (t : string) (c : UUID) (action : MutationAction)
    (actor key : string) (expected_version : Z) (reason : string)
    (mutation_correlation_id : option string) : MemM CommandOperation :=
  let! s := gets id in
  match commands s !! (t, c) with
  | None => raise CommandNotFound "command operation was not found"
  | Some (digest, operation) =>
      let request_digest := mutation_digest expected_version reason in
      match mutations s !! (t, c, action, actor, key) with
      | Some (d, o) =>
          if negb (String.eqb d request_digest)
          then raise CommandConflict "idempotency key was reused with different mutation content"
          else ret (as_duplicate o)
      | None =>
          if negb (op_resource_version operation =? expected_version)%Z
          then raise CommandConflict "expected_version is stale"
          else
          let! updated := action_updates now t c operation action actor key reason in
          modify (set_commands (fun m => <[(t, c) := (digest, updated)]> m)) ;;;
          append_event (t, c) (Some (op_state operation)) (op_state updated) actor reason
            (dict_merge [("action", JStr (action_name action));
                         ("resource_version", JInt (op_resource_version updated))]
                        (mutation_evidence mutation_correlation_id)) now ;;;
          modify (set_mutations (fun m =>
            <[(t, c, action, actor, key) := (request_digest, updated)]> m)) ;;;
          ret updated
      end
  end.

(** ** Dead letters *)

Definition record_dead_letter (now : datetime) (t : string) (c : UUID)
    (reason_code error_class terminal_reason : string) (poisoned retry_exhausted : bool) :
    MemM DeadLetterRecord :=
  let! operation := get t c in
  let! s := gets id in
  match dead_letters s !! (t, c) with
  | Some r => ret r
  | None =>
      let! n := latest_attempt t c in
      let record := {|
        dl_id := size (dead_letters s) + 1;
        dl_tenant_id := t;
        dl_command_id := c;
        dl_attempt_number := n;
        dl_reason_code := reason_code;
        dl_error_class := error_class;
        dl_terminal_reason := str_take 2048 terminal_reason;
        dl_correlation_id := correlation_id (op_command operation);
        dl_principal_id := requested_by (op_command operation);
        dl_capability := capability (op_command operation);
        dl_poisoned := poisoned;
        dl_retry_exhausted := retry_exhausted;
        dl_created_at := now |} in
      modify (set_dead_letters (fun m => <[(t, c) := record]> m)) ;;;
      ret record
  end.

Definition dl_newer (a b : DeadLetterRecord) : Prop :=
  (dl_created_at b < dl_created_at a)%Z \/
  (dl_created_at a = dl_created_at b /\ dl_id b <= dl_id a).
#[export] Instance dl_newer_dec a b : Decision (dl_newer a b).
Proof. unfold dl_newer. apply _. Defined.

Definition list_dead_letters (t : string) (limit : nat) : MemM (list DeadLetterRecord) := fun s =>
  let rows := map snd (List.filter (fun kv => String.eqb (fst (fst kv)) t)
                         (map_to_list (dead_letters s))) in
  (Ret (take limit (merge_sort dl_newer rows)), s).

Definition get_dead_letter (t : string) (c : UUID) : MemM DeadLetterRecord := fun s =>
  match dead_letters s !! (t, c) with
  | Some r => (Ret r, s)
  | None => raise CommandNotFound "dead-letter record was not found" s
  end.

(** ** Replays *)

Definition create_replay (now : datetime) (t : string) (c rid : UUID) (actor key reason : string)
    (scheduled_at : option datetime) : MemM ReplayRecord :=
  get_dead_letter t c ;;;
  let! s := gets id in
  match replay_keys s !! (t, c, key) with
  | Some existing_id =>
      match dict_get (t, existing_id) (replays s) with
      | Some existing =>
          if negb (String.eqb (replay_reason existing) reason)
          then raise CommandConflict "replay idempotency key was reused with different content"
          else ret existing
      | None => raise KeyError ""
      end
  | None =>
      let record := {|
        replay_id := rid;
        replay_tenant_id := t;
        original_command_id := c;
        replay_command_id := None;
        replay_requested_by := actor;
        replay_idempotency_key := key;
        replay_reason := reason;
        replay_state := match scheduled_at with Some _ => replay_scheduled | None => replay_requested end;
        replay_created_at := now;
        replay_scheduled_at := scheduled_at;
        replay_cancelled_at := None |} in
      modify (set_replays (dict_set (t, rid) record) (fun m => <[(t, c, key) := rid]> m)) ;;;
      ret record
  end.

Definition replay_update (r : ReplayRecord) (st : ReplayState) (command : option UUID)
    (cancelled_at : option datetime) : ReplayRecord := {|
  replay_id := replay_id r;
  replay_tenant_id := replay_tenant_id r;
  original_command_id := original_command_id r;
  replay_command_id := command;
  replay_requested_by := replay_requested_by r;
  replay_idempotency_key := replay_idempotency_key r;
  replay_reason := replay_reason r;
  replay_state := st;
  replay_created_at := replay_created_at r;
  replay_scheduled_at := replay_scheduled_at r;
  replay_cancelled_at := cancelled_at |}.

Definition complete_replay (t : string) (rid command : UUID) : MemM ReplayRecord :=
  let! s := gets id in
  match dict_get (t, rid) (replays s) with
  | None => raise CommandNotFound "replay request was not found"
  | Some row =>
      if bool_decide (replay_state row = replay_cancelled)
      then raise CommandConflict "cancelled replay cannot execute"
      else
      let updated := replay_update row replay_submitted (Some command) (replay_cancelled_at row) in
      modify (set_replays (dict_set (t, rid) updated) id) ;;;
      ret updated
  end.

Definition cancel_replay (now : datetime) (t : string) (rid : UUID) : MemM ReplayRecord :=
  let! s := gets id in
  match dict_get (t, rid) (replays s) with
  | None => raise CommandNotFound "replay request was not found"
  | Some row =>
      if bool_decide (replay_state row = replay_requested) ||
         bool_decide (replay_state row = replay_scheduled)
      then
      let updated := replay_update row replay_cancelled (replay_command_id row) (Some now) in
      modify (set_replays (dict_set (t, rid) updated) id) ;;;
      ret updated
      else raise CommandConflict "replay can only be cancelled before execution"
  end.

Definition created_before (a b : ReplayRecord) : Prop :=
  (replay_created_at a <= replay_created_at b)%Z.
#[export] Instance created_before_dec a b : Decision (created_before a b).
Proof. unfold created_before. apply _. Defined.

Definition list_replays (t : string) (c : UUID) : MemM (list ReplayRecord) :=
  get t c ;;;
  gets (fun s => merge_sort created_before
    (map snd (List.filter (fun kv => String.eqb (fst (fst kv)) t &&
                                     (original_command_id (snd kv) =? c)%N) (replays s)))).

(** ** The protocol instance *)

#[export] Instance memory_store `{Externals} : CommandStore MemoryCommandStore := {|
  store_submit := submit;
  store_get := get;
  store_mutate_operation := mutate_operation;
  store_record_dead_letter := record_dead_letter;
  store_get_dead_letter := get_dead_letter;
  store_create_replay := create_replay;
  store_complete_replay := complete_replay;
  store_transition := transition;
  store_reconcile := reconcile;
  store_latest_attempt := latest_attempt;
  store_load_envelope := load_envelope;
  store_backlog := backlog;
  store_list_events := fun t c limit => list_events t c limit None;
|}.
