(* ===== verification/LedgerFacts.v ===== *)
(** * The in-memory ledger refines the specification

    The store's invariant ([wf]), its preservation by every state-changing
    method, and the proof that [MemoryCommandStore] satisfies [LedgerLaws]. *)

From Stdlib Require Import QArith.
From S2P Require Import Prelude Json Sha256 Uuid Commands LedgerSpec Ledger.
Local Open Scope nat_scope.

#[local] Opaque sha256_hex uuid_str.

(** ** The audit trail *)

(** the state changes the ledger may record: the transition table, the
    operator's and the reconciler's parking edge, and the reconciler's verdict *)
Definition audited_step (prev : option CommandState) (st : CommandState) : bool :=
  match prev with
  | None => bool_decide (st = persisted)
  | Some p =>
      state_in st (ALLOWED_COMMAND_TRANSITIONS p) ||
      (bool_decide (st = reconciliation_required) &&
       state_in p [persisted; queued; dispatching; accepted; readback_pending;
                   reconciliation_required]) ||
      (bool_decide (p = reconciliation_required) && bool_decide (st = completed))
  end.

Arguments audited_step : simpl never.

(** the events are a path of audited steps that ends in the current state *)
Fixpoint trail (prev : option CommandState) (evs : list OperationEvent) (final : CommandState) : Prop :=
  match evs with
  | [] => prev = Some final
  | e :: rest =>
      previous_state e = prev /\ audited_step prev (new_state e) = true /\
      trail (Some (new_state e)) rest final
  end.

Lemma trail_snoc prev evs st e :
  trail prev evs st -> previous_state e = Some st -> audited_step (Some st) (new_state e) = true ->
  trail prev (evs ++ [e]) (new_state e).
Proof.
  intros Ht He Hs. revert prev Ht. induction evs as [|x evs IH]; simpl; intros prev Ht.
  - by subst prev.
  - destruct Ht as (? & ? & ?). split_and!; [done|done|by apply IH].
Qed.

(** ** The invariant *)

Section Facts.
Context `{Externals}.

Record entry_ok (s : MemoryCommandStore) (k : Key) (d : string) (o : CommandOperation) : Prop := {
  eo_key : k = (tenant_id (op_command o), command_id (op_command o));
  eo_env : exists env client,
    payloads s !! k = Some (authenticated_command_payload env client) /\
    envelope_valid env = true /\ (env_command_id env < uuid_bound)%N /\
    op_command o = identity_of env /\ d = authenticated_command_digest env client;
  eo_events : exists evs, events s !! k = Some evs /\ trail None evs (op_state o) /\
    map event_id evs = seq 1 (length evs);
  eo_attempts : exists atts, attempts s !! k = Some atts /\
    map attempt_number atts = seq 1 (length atts);
  eo_idem : exists o', idempotency s !! (fst k, idempotency_key (op_command o)) = Some (d, o') /\
    op_command o' = op_command o;
}.

Definition outbox_ids (l : list MemoryOutboxIntent) : Prop :=
  forall i it, l !! i = Some it -> intent_id it = i + 1.

Record wf (s : MemoryCommandStore) : Prop := {
  wf_entries : forall k d o, commands s !! k = Some (d, o) -> entry_ok s k d o;
  wf_idem : forall ik d o, idempotency s !! ik = Some (d, o) ->
    ik = (tenant_id (op_command o), idempotency_key (op_command o)) /\
    exists o', commands s !! (tenant_id (op_command o), command_id (op_command o)) = Some (d, o') /\
      op_command o' = op_command o;
  wf_outbox : outbox_ids (outbox s);
  wf_dead : forall k r, dead_letters s !! k = Some r -> is_Some (commands s !! k);
}.

Lemma wf_empty : wf empty_store.
Proof.
  split; simpl.
  - intros k d o. by rewrite lookup_empty.
  - intros k d o. by rewrite lookup_empty.
  - intros i it. by rewrite lookup_nil.
  - intros k r. by rewrite lookup_empty.
Qed.

(** ** The view *)

Definition mem_view (s : MemoryCommandStore) (k : Key) : option OpView :=
  match commands s !! k, payloads s !! k with
  | Some (_, o), Some p =>
      match command_envelope_from_payload p with
      | Ret env => Some {|
          v_env := env; v_state := op_state o; v_provider := op_provider_operation_id o;
          v_evidence := op_readback_evidence o; v_version := op_resource_version o;
          v_attempts := length (default [] (attempts s !! k));
          v_dead := bool_decide (is_Some (dead_letters s !! k)) |}
      | Exc _ => None
      end
  | _, _ => None
  end.

Lemma mem_view_Some s k d o :
  wf s -> commands s !! k = Some (d, o) ->
  exists env client, payloads s !! k = Some (authenticated_command_payload env client) /\
    op_command o = identity_of env /\ (env_command_id env < uuid_bound)%N /\
    command_envelope_from_payload (authenticated_command_payload env client) = Ret env /\
    mem_view s k = Some {|
      v_env := env; v_state := op_state o; v_provider := op_provider_operation_id o;
      v_evidence := op_readback_evidence o; v_version := op_resource_version o;
      v_attempts := length (default [] (attempts s !! k));
      v_dead := bool_decide (is_Some (dead_letters s !! k)) |}.
Proof.
  intros Hwf Hk. destruct (eo_env _ _ _ _ (wf_entries _ Hwf _ _ _ Hk)) as (env & client & Hp & Hv & Hb & Ho & _).
  exists env, client. assert (command_envelope_from_payload (authenticated_command_payload env client) = Ret env)
    as Hd by (by apply payload_envelope).
  split_and!; try done. unfold mem_view. by rewrite Hk, Hp, Hd.
Qed.

Lemma mem_view_None s k : wf s -> mem_view s k = None <-> commands s !! k = None.
Proof.
  intros Hwf. split.
  - intros Hv. destruct (commands s !! k) as [[d o]|] eqn:Hk; [|done].
    destruct (mem_view_Some _ _ _ _ Hwf Hk) as (env & client & _ & _ & _ & _ & Hv'). congruence.
  - unfold mem_view. by intros ->.
Qed.

Lemma mem_view_inv s k v : wf s -> mem_view s k = Some v ->
  exists d o, commands s !! k = Some (d, o) /\ op_matches o v /\
    v_attempts v = length (default [] (attempts s !! k)) /\
    v_dead v = bool_decide (is_Some (dead_letters s !! k)) /\
    exists p, payloads s !! k = Some p /\ command_envelope_from_payload p = Ret (v_env v).
Proof.
  intros Hwf Hv. destruct (commands s !! k) as [[d o]|] eqn:Hk.
  - destruct (mem_view_Some _ _ _ _ Hwf Hk) as (env & client & Hp & Ho & _ & Hd & Hv').
    rewrite Hv in Hv'. injection Hv' as ->. exists d, o. split; [done|]. split; [done|].
    split; [done|]. split; [done|]. eauto.
  - apply mem_view_None in Hk; [congruence|done].
Qed.

(** ** One-key updates *)

(** what a state-changing method did: it replaced one operation, appended one
    event, and left payloads and dead letters alone *)
Record updated_at (s s' : MemoryCommandStore) (k : Key) (d : string) (o o' : CommandOperation)
    (e : OperationEvent) (atts' : list OperationAttempt) : Prop := {
  up_commands : commands s' = <[k := (d, o')]> (commands s);
  up_idem : idempotency s' = idempotency s \/
    idempotency s' = <[(fst k, idempotency_key (op_command o')) := (d, o')]> (idempotency s);
  up_events : exists evs, events s !! k = Some evs /\ events s' = <[k := evs ++ [e]]> (events s) /\
    event_id e = length evs + 1;
  up_attempts : attempts s' = <[k := atts']> (attempts s);
  up_attempt_numbers : map attempt_number atts' = seq 1 (length atts');
  up_payloads : payloads s' = payloads s;
  up_dead : dead_letters s' = dead_letters s;
  up_outbox : outbox_ids (outbox s');
  up_identity : op_command o' = op_command o;
  up_previous : previous_state e = Some (op_state o);
  up_new : new_state e = op_state o';
  up_step : audited_step (Some (op_state o)) (op_state o') = true;
}.

Lemma updated_at_entry s s' k d o o' e atts' :
  wf s -> commands s !! k = Some (d, o) -> updated_at s s' k d o o' e atts' ->
  entry_ok s' k d o'.
Proof.
  intros Hwf Hk U. destruct (wf_entries _ Hwf _ _ _ Hk) as [Hkey Henv Hev Hat Hid]. destruct U.
  split; rewrite ?up_identity0.
  - done.
  - by rewrite up_payloads0.
  - destruct up_events0 as (evs & Hevs & -> & Hide). exists (evs ++ [e]). rewrite lookup_insert_eq.
    destruct Hev as (evs' & Hevs' & Htr & Hids). rewrite Hevs in Hevs'. injection Hevs' as <-.
    split_and!; [done| |].
    + rewrite <- up_new0. eapply trail_snoc; [done|done|]. by rewrite up_new0.
    + rewrite map_app, Hids, length_app. simpl. rewrite seq_app, Hide. simpl. do 2 f_equal. lia.
  - rewrite up_attempts0. exists atts'. by rewrite lookup_insert_eq.
  - destruct Hid as (o0 & Hi0 & Hc0). destruct up_idem0 as [->| ->]; [by exists o0|].
    rewrite up_identity0. exists o'. by rewrite lookup_insert_eq.
Qed.

Lemma updated_at_wf s s' k d o o' e atts' :
  wf s -> commands s !! k = Some (d, o) -> updated_at s s' k d o o' e atts' -> wf s'.
Proof.
  intros Hwf Hk U. pose proof (updated_at_entry _ _ _ _ _ _ _ _ Hwf Hk U) as Hentry.
  pose proof (wf_entries _ Hwf _ _ _ Hk) as [Hkey Henv _ _ Hid]. destruct U.
  split; [| |done|].
  3: { intros k2 r2. rewrite up_dead0, up_commands0. intros Hr2.
       destruct (decide (k2 = k)) as [->|Hne]; [rewrite lookup_insert_eq; by eexists|].
       rewrite lookup_insert_ne by done. by eapply wf_dead. }
  - intros k2 d2 o2. destruct (decide (k2 = k)) as [->|Hne].
    + rewrite up_commands0, lookup_insert_eq. by intros [= <- <-].
    + rewrite up_commands0, lookup_insert_ne by done. intros Hk2.
      destruct (wf_entries _ Hwf _ _ _ Hk2) as [Hkey2 Henv2 Hev2 Hat2 Hid2]. split.
      * done.
      * by rewrite up_payloads0.
      * destruct up_events0 as (evs & _ & -> & _). by rewrite lookup_insert_ne.
      * by rewrite up_attempts0, lookup_insert_ne.
      * destruct Hid2 as (o3 & Hi3 & Hc3). destruct up_idem0 as [->| ->]; [by exists o3|].
        exists o3. rewrite lookup_insert_ne; [done|]. intros Heq.
        destruct Hid as (o4 & Hi4 & Hc4). rewrite up_identity0 in Heq. rewrite Heq in Hi4.
        rewrite Hi3 in Hi4. injection Hi4 as _ <-. apply Hne.
        rewrite Hkey, Hkey2, <- Hc3, <- Hc4. done.
  - intros ik d2 o2 Hik.
    assert (Hold : idempotency s !! ik = Some (d2, o2) ->
      ik = (tenant_id (op_command o2), idempotency_key (op_command o2)) /\
      exists o'0, commands s' !! (tenant_id (op_command o2), command_id (op_command o2)) = Some (d2, o'0) /\
        op_command o'0 = op_command o2).
    { intros Hik2. destruct (wf_idem _ Hwf _ _ _ Hik2) as (-> & o5 & Hc5 & Ho5).
      split; [done|]. rewrite up_commands0.
      destruct (decide (k = (tenant_id (op_command o2), command_id (op_command o2)))) as [->|Hne].
      - rewrite lookup_insert_eq. rewrite Hk in Hc5. injection Hc5 as -> ->.
        exists o'. split; [done|]. by rewrite up_identity0.
      - rewrite lookup_insert_ne by done. by exists o5. }
    destruct up_idem0 as [Heq|Heq]; rewrite Heq in Hik; [by apply Hold|].
    destruct (decide (ik = (fst k, idempotency_key (op_command o')))) as [->|Hne].
    + rewrite lookup_insert_eq in Hik. injection Hik as <- <-. rewrite up_identity0, Hkey. simpl.
      split; [done|]. exists o'. rewrite up_commands0, Hkey, lookup_insert_eq. done.
    + rewrite lookup_insert_ne in Hik by done. by apply Hold.
Qed.

Lemma updated_at_view s s' k d o o' e atts' v :
  wf s -> commands s !! k = Some (d, o) -> updated_at s s' k d o o' e atts' ->
  mem_view s k = Some v ->
  view_upd mem_view s s' k {|
    v_env := v_env v; v_state := op_state o'; v_provider := op_provider_operation_id o';
    v_evidence := op_readback_evidence o'; v_version := op_resource_version o';
    v_attempts := length atts'; v_dead := v_dead v |}.
Proof.
  intros Hwf Hk U Hv. destruct (mem_view_Some _ _ _ _ Hwf Hk) as (env & client & Hp & _ & _ & Hd & Hv').
  rewrite Hv in Hv'. injection Hv' as ->. destruct U. split.
  - unfold mem_view. rewrite up_commands0, lookup_insert_eq, up_payloads0, Hp, Hd, up_attempts0,
      lookup_insert_eq, up_dead0. done.
  - intros k' Hne. unfold mem_view. destruct up_events0 as (? & _ & _ & _).
    rewrite up_commands0, up_payloads0, up_attempts0, up_dead0, !lookup_insert_ne by done. done.
Qed.

Lemma updated_at_implements s s' m k d o o' e atts' v v' :
  wf s -> commands s !! k = Some (d, o) -> updated_at s s' k d o o' e atts' ->
  mem_view s k = Some v -> m s = (Ret o', s') ->
  v' = {| v_env := v_env v; v_state := op_state o'; v_provider := op_provider_operation_id o';
    v_evidence := op_readback_evidence o'; v_version := op_resource_version o';
    v_attempts := length atts'; v_dead := v_dead v |} ->
  implements wf mem_view m (Ret v') s k.
Proof.
  intros Hwf Hk U Hv Hm ->. exists o', s'. split_and!; [done| |by eapply updated_at_wf|
    by eapply updated_at_view].
  destruct (mem_view_Some _ _ _ _ Hwf Hk) as (env & client & _ & Ho & _ & _ & Hv').
  rewrite Hv in Hv'. injection Hv' as ->. unfold op_matches. simpl.
  by rewrite (up_identity _ _ _ _ _ _ _ _ U).
Qed.

(** ** Runs of the write sequences *)

Lemma append_event_run s k prev st actor reason meta now evs :
  events s !! k = Some evs ->
  append_event k prev st actor reason meta now s =
    (Ret tt, set_events (fun m => <[k := evs ++ [{|
      event_id := length evs + 1; event_operation_id := snd k; previous_state := prev;
      new_state := st; event_actor_id := actor; event_reason := reason; safe_metadata := meta;
      event_created_at := now |}]]> m) s).
Proof. intros Hk. unfold append_event, update_at. by rewrite Hk. Qed.

Lemma update_attempts_run s k f atts :
  attempts s !! k = Some atts ->
  update_at attempts set_attempts k f s = (Ret tt, set_attempts (fun m => <[k := f atts]> m) s).
Proof. intros Hk. unfold update_at. by rewrite Hk. Qed.

Lemma map_number_alter_last f atts :
  (forall a, attempt_number (f a) = attempt_number a) ->
  map attempt_number (alter_last f atts) = map attempt_number atts.
Proof.
  intros Hf. unfold alter_last. generalize (pred (length atts)) as n.
  induction atts as [|a atts IH]; intros [|n]; [done|done| |].
  - change (alter f 0 (a :: atts)) with (f a :: atts). simpl. by rewrite Hf.
  - change (alter f (S n) (a :: atts)) with (a :: alter f n atts). simpl. by rewrite IH.
Qed.

Lemma transition_attempts_numbers c st provider now atts :
  map attempt_number atts = seq 1 (length atts) ->
  map attempt_number (transition_attempts c st provider now atts) =
    seq 1 (length (transition_attempts c st provider now atts)).
Proof.
  intros Hn. unfold transition_attempts. case_bool_decide.
  - rewrite map_app, Hn, length_app, seq_app. simpl. do 2 f_equal. lia.
  - by rewrite map_number_alter_last, length_alter_last.
Qed.

Lemma length_transition_attempts c st provider now atts :
  length (transition_attempts c st provider now atts) =
    if bool_decide (st = dispatching) then S (length atts) else length atts.
Proof.
  unfold transition_attempts. case_bool_decide; [rewrite length_app; simpl; lia|].
  apply length_alter_last.
Qed.

(** ** The methods *)

Lemma outbox_ids_map t c f l :
  (forall i, intent_id (f i) = intent_id i) -> outbox_ids l -> outbox_ids (map_intents t c f l).
Proof.
  intros Hf Hl i it. unfold map_intents. rewrite list_lookup_fmap.
  destruct (l !! i) as [x|] eqn:Hx; simpl; [|done]. intros [= <-].
  rewrite <- (Hl _ _ Hx). destruct (is_intent_of t c x); [apply Hf|done].
Qed.

Lemma outbox_ids_snoc l it :
  outbox_ids l -> intent_id it = length l + 1 -> outbox_ids (l ++ [it]).
Proof.
  intros Hl Hit i x Hx. apply lookup_app_Some in Hx as [Hx|[Hge Hx]]; [by apply Hl|].
  apply list_lookup_singleton_Some in Hx as [Hi <-]. rewrite Hit. lia.
Qed.

Lemma entry_parts s k d o :
  wf s -> commands s !! k = Some (d, o) ->
  exists evs atts, events s !! k = Some evs /\ attempts s !! k = Some atts /\
    map attempt_number atts = seq 1 (length atts).
Proof.
  intros Hwf Hk. destruct (wf_entries _ Hwf _ _ _ Hk) as [_ _ (evs & ? & _) (atts & ? & ?) _].
  by exists evs, atts.
Qed.

Lemma transition_refines s now t c st actor reason provider evidence expected :
  wf s ->
  implements wf mem_view (transition now t c st actor reason provider evidence expected)
    (spec_transition (mem_view s (t, c)) st provider evidence expected) s (t, c).
Proof.
  intros Hwf. unfold spec_transition.
  destruct (bool_decide (is_Some evidence) && _) eqn:Hev.
  { unfold implements, transition. by rewrite Hev. }
  destruct (commands s !! (t, c)) as [[d o]|] eqn:Hk.
  2: { unfold implements, transition. rewrite Hev.
       pose proof Hk as Hn. apply mem_view_None in Hn as ->; [|done].
       unfold bind, gets; simpl. by rewrite Hk. }
  destruct (mem_view_Some _ _ _ _ Hwf Hk) as (env & client & Hp & Ho & Hb & Hd & Hv).
  rewrite Hv. cbn [v_attempts v_state v_env v_provider v_evidence v_version v_dead].
  destruct (match expected with Some _ => _ | None => _ end) eqn:Hf.
  { unfold implements, transition. rewrite Hev. unfold bind, gets; simpl. rewrite Hk. by rewrite Hf. }
  destruct (negb (state_in st (ALLOWED_COMMAND_TRANSITIONS (op_state o)))) eqn:Hst.
  { unfold implements, transition. rewrite Hev. unfold bind, gets; simpl. rewrite Hk.
    rewrite Hf, Hst. done. }
  destruct (entry_parts _ _ _ _ Hwf Hk) as (evs & atts & Hevs & Hatts & Hnum).
  eapply updated_at_implements with (o := o) (d := d) (o' := transition_op o st reason provider evidence now)
    (atts' := transition_attempts c st provider now atts); try done.
  2: { unfold transition. rewrite Hev. unfold bind at 1, gets; simpl. rewrite Hk, Hf, Hst.
       unfold bind at 1 2, modify at 1 2. cbv beta iota.
       erewrite bind_run by (by apply append_event_run).
       erewrite bind_run by (by apply update_attempts_run). reflexivity. }
  - split; simpl; try done.
    + by right.
    + by exists evs.
    + by apply transition_attempts_numbers.
    + apply Hwf.
    + done.
    + done.
    + unfold audited_step. apply negb_false_iff in Hst as ->. done.
  - simpl. by rewrite length_transition_attempts, Hatts.
Qed.

Lemma reconcile_refines s now t c matched actor reason provider evidence expected :
  wf s ->
  implements wf mem_view (reconcile now t c matched actor reason provider evidence expected)
    (spec_reconcile (mem_view s (t, c)) matched provider evidence expected) s (t, c).
Proof.
  intros Hwf. unfold spec_reconcile.
  destruct (commands s !! (t, c)) as [[d o]|] eqn:Hk.
  2: { pose proof Hk as Hn. apply mem_view_None in Hn as ->; [|done].
       unfold implements, reconcile, bind, gets; simpl. by rewrite Hk. }
  destruct (mem_view_Some _ _ _ _ Hwf Hk) as (env & client & Hp & Ho & Hb & Hd & Hv).
  rewrite Hv. cbn [v_attempts v_state v_env v_provider v_evidence v_version v_dead].
  destruct (negb (bool_decide (op_state o = _))) eqn:Hst.
  { unfold implements, reconcile, bind, gets; simpl. rewrite Hk. by rewrite Hst. }
  destruct (match expected with Some _ => _ | None => _ end) eqn:Hf.
  { unfold implements, reconcile, bind, gets; simpl. rewrite Hk, Hst. by rewrite Hf. }
  apply negb_false_iff, bool_decide_eq_true in Hst as Hrec.
  destruct (entry_parts _ _ _ _ Hwf Hk) as (evs & atts & Hevs & Hatts & Hnum).
  eapply updated_at_implements with (o := o) (d := d)
    (o' := reconcile_op o matched reason provider evidence now)
    (atts' := alter_last (follow_attempt (if matched then completed else reconciliation_required)
       provider (if matched then None else Some "provider_readback_mismatch") (Some now)) atts); try done.
  2: { unfold reconcile. unfold bind at 1, gets; simpl. rewrite Hk, Hst, Hf. cbn [negb].
       unfold bind at 1 2, modify at 1 2. cbv beta iota.
       erewrite bind_run by (by apply append_event_run).
       erewrite bind_run by (by apply update_attempts_run). reflexivity. }
  - split; simpl; try done.
    + by right.
    + by exists evs.
    + by rewrite map_number_alter_last, length_alter_last.
    + apply Hwf.
    + by rewrite Hrec.
    + done.
    + rewrite Hrec. by destruct matched.
  - simpl. by rewrite length_alter_last, Hatts.
Qed.

(** what an action's branch does before the common writes *)
Lemma action_updates_spec s now t c o action actor key reason r s1 :
  wf s -> action_updates now t c o action actor key reason s = (r, s1) ->
  match r with
  | Exc e => s1 = s /\ exn_cls e = CommandConflict
  | Ret o' => exists g, s1 = set_outbox g s /\ outbox_ids (g (outbox s)) /\
      op_command o' = op_command o /\
      op_resource_version o' = (op_resource_version o + 1)%Z /\
      op_provider_operation_id o' = op_provider_operation_id o /\
      op_readback_evidence o' = op_readback_evidence o /\
      op_duplicate o' = op_duplicate o /\
      audited_step (Some (op_state o)) (op_state o') = true
  end.
Proof.
  intros Hwf. destruct action; unfold action_updates.
  - unfold cancel_updates. destruct (state_in (op_state o) _) eqn:Hst; [by intros [= <- <-]|].
    cbn. set (lease := existsb _ _).
    destruct (state_in (op_state o) [persisted; queued] && negb lease) eqn:Hc; cbn;
      intros [= <- <-]; [exists (map_intents t c cancel_intent)|exists id]; split_and!; try done.
    + apply outbox_ids_map; [|apply Hwf]. intros i. unfold cancel_intent. by repeat case_match.
    + unfold audited_step. simpl. apply andb_prop in Hc as [Hc _]. by destruct (op_state o).
    + by destruct s.
    + apply Hwf.
    + unfold audited_step. simpl. by destruct (op_state o).
  - unfold reconcile_updates.
    destruct (negb (state_in (op_state o) _)) eqn:Hst; [by intros [= <- <-]|].
    cbn. intros [= <- <-]. exists (map_intents t c quarantine_intent). split_and!; try done.
    + apply outbox_ids_map; [|apply Hwf]. intros i. unfold quarantine_intent. by repeat case_match.
    + unfold audited_step. simpl. by destruct (op_state o).
  - unfold retry_updates. destruct (negb (bool_decide _)) eqn:Hst; [by intros [= <- <-]|].
    cbn. intros [= <- <-]. eexists. split_and!; [reflexivity| | | | | | |]; try done.
    + apply outbox_ids_snoc; [apply Hwf|done].
    + apply negb_false_iff, bool_decide_eq_true in Hst. by rewrite Hst.
Qed.

(** every outcome of [mutate_operation] *)
Lemma mutate_cases s now t c action actor key version reason corr r s' :
  wf s -> mutate_operation now t c action actor key version reason corr s = (r, s') ->
  (exists e, r = Exc e /\ s' = s /\ (exn_cls e = CommandConflict \/ exn_cls e = CommandNotFound)) \/
  (exists d o, mutations s !! (t, c, action, actor, key) = Some (d, o) /\
     d = mutation_digest version reason /\ r = Ret (as_duplicate o) /\ s' = s) \/
  (exists d o o' e atts, commands s !! (t, c) = Some (d, o) /\
     mutations s !! (t, c, action, actor, key) = None /\ op_resource_version o = version /\
     r = Ret o' /\ updated_at s s' (t, c) d o o' e atts /\
     attempts s !! (t, c) = Some atts /\
     mutations s' = <[(t, c, action, actor, key) := (mutation_digest version reason, o')]> (mutations s) /\
     (exists s1, action_updates now t c o action actor key reason s = (Ret o', s1) /\
        outbox s' = outbox s1) /\
     op_resource_version o' = (version + 1)%Z /\ op_duplicate o' = op_duplicate o).
Proof.
  intros Hwf. unfold mutate_operation, bind at 1, gets. cbn [id].
  destruct (commands s !! (t, c)) as [[d o]|] eqn:Hk.
  2: { intros [= <- <-]. left. eauto 10. }
  destruct (mutations s !! _) as [[d0 o0]|] eqn:Hm.
  { destruct (negb (String.eqb d0 _)) eqn:Hd; intros [= <- <-]; [left; eauto 10|].
    right; left. exists d0, o0. apply negb_false_iff, String.eqb_eq in Hd. done. }
  destruct (negb (_ =? _)%Z) eqn:Hv; [intros [= <- <-]; left; eauto 10|].
  apply negb_false_iff, Z.eqb_eq in Hv.
  destruct (action_updates now t c o action actor key reason s) as [[o'|e] s1] eqn:Ha.
  2: { erewrite bind_exc by exact Ha. intros [= <- <-]. left.
       apply action_updates_spec in Ha as [-> Hcls]; [|done]. eauto 10. }
  erewrite bind_run by exact Ha.
  pose proof (action_updates_spec _ _ _ _ _ _ _ _ _ _ _ Hwf Ha)
    as (g & -> & Hids & Hcmd & Hver & Hprov & Hev & Hdup & Hstep).
  destruct (entry_parts _ _ _ _ Hwf Hk) as (evs & atts & Hevs & Hatts & Hnum).
  unfold bind at 1, modify at 1. cbv beta iota.
  erewrite bind_run by (by apply append_event_run).
  unfold bind, modify, ret. intros [= <- <-]. right; right.
  eexists d, o, o', _, atts. split_and!; try done.
  - split; simpl; try done.
    + by left.
    + by exists evs.
    + by rewrite insert_id.
    + done.
    + done.
  - by exists (set_outbox g s).
  - by rewrite Hver, Hv.
Qed.

Lemma mutate_preserves_wf now t c action actor key version reason corr :
  preserves wf (mutate_operation now t c action actor key version reason corr).
Proof.
  intros s Hwf. destruct (mutate_operation _ _ _ _ _ _ _ _ _ s) as [r s'] eqn:Hm. simpl.
  destruct (mutate_cases _ _ _ _ _ _ _ _ _ _ _ _ Hwf Hm)
    as [(? & _ & -> & _)|[(? & ? & _ & _ & _ & ->)|(? & ? & ? & ? & ? & Hk & _ & _ & _ & U & _)]]; try done.
  by eapply updated_at_wf.
Qed.

(** ** Submission *)

Definition initial_view (c : CommandEnvelope) : OpView := {|
  v_env := c; v_state := persisted; v_provider := None; v_evidence := None; v_version := 1;
  v_attempts := 0; v_dead := false |}.

Lemma insert_new_run s now c client dest ev tr :
  insert_new now c client dest ev tr s = (Ret (new_operation c now),
    Build_MemoryCommandStore
      (<[(env_tenant_id c, env_command_id c) := (authenticated_command_digest c client, new_operation c now)]> (commands s))
      (<[(env_tenant_id c, env_idempotency_key c) := (authenticated_command_digest c client, new_operation c now)]> (idempotency s))
      (<[(env_tenant_id c, env_command_id c) := [{| event_id := 1; event_operation_id := env_command_id c;
          previous_state := None; new_state := persisted; event_actor_id := env_requested_by c;
          event_reason := "validated command and persisted delivery intent";
          safe_metadata := submit_metadata client ev; event_created_at := now |}]]> (events s))
      (<[(env_tenant_id c, env_command_id c) := []]> (attempts s))
      (mutations s)
      (<[(env_tenant_id c, env_command_id c) := authenticated_command_payload c client]> (payloads s))
      (outbox s ++ [new_intent (length (outbox s) + 1) (env_tenant_id c) (uuid_str (env_command_id c)) dest
         (env_command_type c) (env_idempotency_key c)
         (with_trace (authenticated_command_payload c client) tr)])
      (dead_letters s) (replays s) (replay_keys s)).
Proof. reflexivity. Qed.

Lemma insert_new_wf s now c client dest ev tr :
  wf s -> envelope_valid c = true -> (env_command_id c < uuid_bound)%N ->
  commands s !! (env_tenant_id c, env_command_id c) = None ->
  idempotency s !! (env_tenant_id c, env_idempotency_key c) = None ->
  wf (snd (insert_new now c client dest ev tr s)).
Proof.
  intros Hwf Hv Hb Hk Hi. rewrite insert_new_run. cbn [snd].
  set (k := (env_tenant_id c, env_command_id c)). split; cbn -[authenticated_command_payload].
  - intros k2 d2 o2. destruct (decide (k2 = k)) as [->|Hne].
    + rewrite lookup_insert_eq. intros [= <- <-]. split; cbn -[authenticated_command_payload].
      * done.
      * exists c, client. rewrite lookup_insert_eq. done.
      * eexists. rewrite lookup_insert_eq. split; [done|]. done.
      * exists []. rewrite lookup_insert_eq. done.
      * eexists. rewrite lookup_insert_eq. done.
    + rewrite lookup_insert_ne by done. intros Hk2.
      destruct (wf_entries _ Hwf _ _ _ Hk2) as [Hkey2 Henv2 Hev2 Hat2 (o3 & Hi3 & Hc3)].
      split; cbn -[authenticated_command_payload]; try done.
      * destruct Henv2 as (e2 & c2 & ?). exists e2, c2. by rewrite lookup_insert_ne.
      * by rewrite lookup_insert_ne.
      * by rewrite lookup_insert_ne.
      * exists o3. rewrite lookup_insert_ne; [done|]. intros Heq. rewrite <- Heq in Hi3. congruence.
  - intros ik d2 o2. destruct (decide (ik = (env_tenant_id c, env_idempotency_key c))) as [->|Hne].
    + rewrite lookup_insert_eq. intros [= <- <-]. split; [done|]. cbn.
      eexists. rewrite lookup_insert_eq. done.
    + rewrite lookup_insert_ne by done. intros Hik.
      destruct (wf_idem _ Hwf _ _ _ Hik) as (-> & o5 & Hc5 & Ho5). split; [done|]. exists o5.
      rewrite lookup_insert_ne; [done|]. intros Heq. unfold k in Heq. rewrite <- Heq in Hc5. congruence.
  - apply outbox_ids_snoc; [apply Hwf|done].
  - intros k2 r2 Hr2. pose proof (wf_dead _ Hwf _ _ Hr2) as [x Hx].
    destruct (decide (k2 = k)) as [->|Hne]; [rewrite lookup_insert_eq; by eexists|].
    rewrite lookup_insert_ne by done. by exists x.
Qed.

Lemma insert_new_view s now c client dest ev tr :
  wf s -> envelope_valid c = true -> (env_command_id c < uuid_bound)%N ->
  commands s !! (env_tenant_id c, env_command_id c) = None ->
  view_upd mem_view s (snd (insert_new now c client dest ev tr s))
    (env_tenant_id c, env_command_id c) (initial_view c).
Proof.
  intros Hwf Hv Hb Hk. rewrite insert_new_run. cbn [snd]. split.
  - unfold mem_view. cbn -[authenticated_command_payload command_envelope_from_payload].
    rewrite !lookup_insert_eq, payload_envelope by done. cbn.
    unfold initial_view. f_equal. f_equal. apply bool_decide_eq_false. intros [r Hr].
    apply (wf_dead _ Hwf) in Hr as [x Hx]. congruence.
  - intros k' Hne. unfold mem_view. cbn -[authenticated_command_payload command_envelope_from_payload].
    by rewrite !lookup_insert_ne by done.
Qed.

(** every outcome of [submit] *)
Lemma submit_cases s now c client dest ev tr r s' :
  submit now c client dest ev tr s = (r, s') ->
  (exists e, r = Exc e /\ exn_cls e = CommandConflict /\ s' = s) \/
  (exists d o, r = Ret (as_duplicate o) /\ s' = s /\ command_digest_matches d c client = true /\
     (commands s !! (env_tenant_id c, env_command_id c) = Some (d, o) \/
      commands s !! (env_tenant_id c, env_command_id c) = None /\
      idempotency s !! (env_tenant_id c, env_idempotency_key c) = Some (d, o))) \/
  (r = Ret (new_operation c now) /\ mem_string dest COMMAND_DESTINATIONS = true /\
   commands s !! (env_tenant_id c, env_command_id c) = None /\
   idempotency s !! (env_tenant_id c, env_idempotency_key c) = None /\
   s' = snd (insert_new now c client dest ev tr s)).
Proof.
  unfold submit. destruct (mem_string dest COMMAND_DESTINATIONS) eqn:Hd; cbn [negb].
  2: { intros [= <- <-]. left. eauto. }
  unfold bind at 1, gets. cbn [id].
  destruct (match commands s !! _ with Some _ => _ | None => false end) eqn:Hx.
  { intros [= <- <-]. left. eauto. }
  destruct (commands s !! (env_tenant_id c, env_command_id c)) as [[d o]|] eqn:Hk; cbn [fst snd].
  { destruct (negb (command_digest_matches d c client)) eqn:Hm; intros [= <- <-]; [left; eauto|].
    right; left. exists d, o. apply negb_false_iff in Hm. eauto. }
  destruct (idempotency s !! (env_tenant_id c, env_idempotency_key c)) as [[d o]|] eqn:Hi; cbn [fst snd].
  { destruct (negb (command_digest_matches d c client)) eqn:Hm; intros [= <- <-]; [left; eauto|].
    right; left. exists d, o. apply negb_false_iff in Hm. eauto 10. }
  rewrite insert_new_run. intros [= <- <-]. right; right. done.
Qed.

Lemma submit_preserves_wf now c client dest ev tr :
  envelope_valid c = true -> (env_command_id c < uuid_bound)%N ->
  preserves wf (submit now c client dest ev tr).
Proof.
  intros Hv Hb s Hwf. destruct (submit _ _ _ _ _ _ s) as [r s'] eqn:Hs. simpl.
  destruct (submit_cases _ _ _ _ _ _ _ _ _ Hs)
    as [(? & _ & _ & ->)|[(? & ? & _ & -> & _)|(_ & _ & ? & ? & ->)]]; try done.
  by apply insert_new_wf.
Qed.

(** ** Dead letters and replays *)

Lemma record_dead_letter_run s now t c d o code class reason poisoned exhausted :
  wf s -> commands s !! (t, c) = Some (d, o) ->
  exists r s', record_dead_letter now t c code class reason poisoned exhausted s = (Ret r, s') /\
    wf s' /\ is_Some (dead_letters s' !! (t, c)) /\
    (s' = s \/ exists r', s' = set_dead_letters (fun m => <[(t, c) := r']> m) s).
Proof.
  intros Hwf Hk. unfold record_dead_letter.
  assert (Hg : get t c s = (Ret o, s)) by (unfold get; by rewrite Hk).
  erewrite bind_run by exact Hg. unfold bind at 1, gets at 1. cbn [id].
  destruct (dead_letters s !! (t, c)) as [r|] eqn:Hd.
  - exists r, s. split_and!; eauto.
  - unfold latest_attempt, bind at 1 2. rewrite Hg. unfold bind, modify, ret, gets. eexists _, _. split; [reflexivity|].
    split_and!.
    + destruct Hwf as [He Hi Ho Hdl]. split; try done.
      * intros k d0 o0 Hk0. destruct (He k d0 o0 Hk0). by split.
      * simpl. intros k r. destruct (decide (k = (t, c))) as [->|Hne]; [by rewrite Hk; eauto|].
        rewrite lookup_insert_ne by done. apply Hdl.
    + simpl. rewrite lookup_insert_eq. by eexists.
    + right. by eexists.
Qed.

Lemma record_dead_letter_refines s now t c v code class reason poisoned exhausted :
  wf s -> mem_view s (t, c) = Some v ->
  exists r s', record_dead_letter now t c code class reason poisoned exhausted s = (Ret r, s') /\
    wf s' /\ view_upd mem_view s s' (t, c) (with_dead_letter v).
Proof.
  intros Hwf Hv. destruct (mem_view_inv _ _ _ Hwf Hv) as (d & o & Hk & Hm & Ha & Hd & p & Hp & Hdec).
  destruct (record_dead_letter_run s now t c d o code class reason poisoned exhausted Hwf Hk)
    as (r & s' & Hrun & Hwf' & [r' Hr'] & Hs').
  exists r, s'. split_and!; [done|done|]. split.
  - unfold mem_view. assert (commands s' = commands s /\ payloads s' = payloads s /\ attempts s' = attempts s)
      as (-> & -> & ->) by (destruct Hs' as [->|[? ->]]; done).
    rewrite Hk, Hp, Hdec, Hr'. destruct v, Hm as (? & ? & ? & ? & ?); simpl in *.
    unfold with_dead_letter; simpl. subst. done.
  - intros k' Hne. unfold mem_view. destruct Hs' as [->|[r2 ->]]; [done|]. simpl.
    by rewrite lookup_insert_ne.
Qed.

(** ** The store satisfies the laws *)

#[export] Instance memory_ledger_laws : LedgerLaws MemoryCommandStore.
Proof.
  refine {| ledger_ok := wf; view := mem_view |}.
  - intros s k v Hwf Hv. destruct (mem_view_inv _ _ _ Hwf Hv) as (d & o & Hk & (Ho & _) & _).
    rewrite (eo_key _ _ _ _ (wf_entries _ Hwf _ _ _ Hk)), Ho. done.
  - intros s t c Hwf. destruct (mem_view s (t, c)) as [v|] eqn:Hv.
    + destruct (mem_view_inv _ _ _ Hwf Hv) as (d & o & Hk & Hm & _). exists o. simpl. unfold get.
      by rewrite Hk.
    + apply mem_view_None in Hv; [|done]. simpl. unfold get. by rewrite Hv.
  - intros s t c v Hwf Hv. destruct (mem_view_inv _ _ _ Hwf Hv) as (d & o & Hk & Hm & Ha & _).
    simpl. unfold latest_attempt, bind, get. by rewrite Hk, Ha.
  - intros s t c v Hwf Hv.
    destruct (mem_view_inv _ _ _ Hwf Hv) as (d & o & Hk & Hm & Ha & _ & p & Hp & Hdec).
    simpl. unfold load_envelope, bind, get. by rewrite Hk, Hp, Hdec.
  - intros. by apply transition_refines.
  - intros. by apply reconcile_refines.
  - intros. by apply record_dead_letter_refines.
Defined.
End Facts.

(** no operator action completes an operation *)
Lemma action_updates_completed now t c o action actor key reason s o' s' :
  action_updates now t c o action actor key reason s = (Ret o', s') -> op_state o' <> completed.
Proof.
  destruct action; unfold action_updates, cancel_updates, reconcile_updates, retry_updates;
    unfold bind, gets, raise, when, modify, ret; intros Ha; repeat case_match; by simplify_eq/=.
Qed.
