(* ===== verification/Resilience.v ===== *)
(** * Retry policy, circuit breaker, bulkhead

    [src/app/platform/resilience.py].  Clock readings and delays are exact
    rationals ([Q]) in seconds; the floats' rounding is not modelled. *)

From Stdlib Require Import QArith Qminmax Lqa.
From S2P Require Import Prelude.
Local Open Scope nat_scope.

(** ** Retry *)

Inductive RetryClass :=
  | SAFE_READ | IDEMPOTENT_WRITE | NON_IDEMPOTENT_EFFECT | CALLBACK | RECONCILIATION.

Record RetryPolicy := {
  max_attempts : Z;
  base_delay_seconds : Q;
  max_delay_seconds : Q;
  retry_unknown_outcome : bool;
}.

Definition RETRY_POLICIES (c : RetryClass) : RetryPolicy :=
  match c with
  | SAFE_READ => Build_RetryPolicy 5 (2#10) 5 true
  | IDEMPOTENT_WRITE => Build_RetryPolicy 4 (5#10) 15 true
  | NON_IDEMPOTENT_EFFECT => Build_RetryPolicy 1 0 0 false
  | CALLBACK => Build_RetryPolicy 6 1 60 true
  | RECONCILIATION => Build_RetryPolicy 3 2 30 true
  end.

Inductive OutcomeClass := SUCCESS | REJECTED | TRANSIENT | UNKNOWN | CANCELLED.

(** [min(self.max_delay_seconds, self.base_delay_seconds * 2 ** max(0, attempt - 1))] *)
Definition delay_bound (p : RetryPolicy) (attempt : Z) : Q :=
  Qmin (max_delay_seconds p) (base_delay_seconds p * inject_Z (2 ^ Z.max 0 (attempt - 1))).

(** [random.uniform(0, exp)]; [r] is the value of [random.random()] *)
Definition delay (p : RetryPolicy) (attempt : Z) (r : Q) : Q := r * delay_bound p attempt.

Definition may_retry (c : RetryClass) (o : OutcomeClass) (attempt : Z) : bool :=
  let policy := RETRY_POLICIES c in
  if (max_attempts policy <=? attempt)%Z then false
  else match o with
       | TRANSIENT => true
       | UNKNOWN => retry_unknown_outcome policy
       | _ => false
       end.

(** the attempts a retry loop makes from attempt [n] on, when every one ends
    with [o]; [fuel] bounds the loop *)
Fixpoint attempts_made (fuel : nat) (c : RetryClass) (o : OutcomeClass) (n : Z) : Z :=
  match fuel with
  | O => n
  | S fuel' => if may_retry c o n then attempts_made fuel' c o (n + 1) else n
  end.

(** ** Circuit breaker *)

Inductive BreakerState := CLOSED | OPEN | HALF_OPEN.

#[export] Instance BreakerState_eq_dec : EqDecision BreakerState.
Proof. solve_decision. Defined.

Definition breaker_state_name (s : BreakerState) : string :=
  match s with CLOSED => "CLOSED" | OPEN => "OPEN" | HALF_OPEN => "HALF_OPEN" end.

Record CircuitBreaker := {
  cb_name : string;
  failure_threshold : Z;
  open_seconds : Q;
  half_open_max_probes : Z;
  cb_state : BreakerState;
  failures : Z;
  opened_at : Q;
  probes : Z;
}.

Definition new_breaker (name : string) (threshold : Z) (seconds : Q) : CircuitBreaker := {|
  cb_name := name; failure_threshold := threshold; open_seconds := seconds;
  half_open_max_probes := 1; cb_state := CLOSED; failures := 0; opened_at := 0; probes := 0 |}.

Definition cb_with (b : CircuitBreaker) (st : BreakerState) (f : Z) (at_ : Q) (p : Z) : CircuitBreaker := {|
  cb_name := cb_name b; failure_threshold := failure_threshold b; open_seconds := open_seconds b;
  half_open_max_probes := half_open_max_probes b; cb_state := st; failures := f;
  opened_at := at_; probes := p |}.

(** what [on_transition] is called with *)
Abbreviation Transition := (BreakerState * BreakerState)%type.

(** [_transition]: nothing when the target is the current state *)
Definition cb_transition (b : CircuitBreaker) (target : BreakerState) : CircuitBreaker * list Transition :=
  if bool_decide (cb_state b = target) then (b, [])
  else (cb_with b target (failures b) (opened_at b) (probes b), [(cb_state b, target)]).

(** the [state] property: an open breaker half-opens once [open_seconds] passed *)
Definition breaker_state (now : Q) (b : CircuitBreaker) : CircuitBreaker * list Transition :=
  if bool_decide (cb_state b = OPEN) && Qle_bool (open_seconds b) (now - opened_at b)
  then let (b', ts) := cb_transition b HALF_OPEN in
       (cb_with b' (cb_state b') (failures b') (opened_at b') 0, ts)
  else (b, []).

(** [admit]: whether the attempt is admitted ([false] raises [CircuitOpen]) *)
Definition cb_admit (now : Q) (b : CircuitBreaker) : bool * CircuitBreaker * list Transition :=
  let (b', ts) := breaker_state now b in
  match cb_state b' with
  | CLOSED => (true, b', ts)
  | HALF_OPEN =>
      if (probes b' <? half_open_max_probes b')%Z
      then (true, cb_with b' (cb_state b') (failures b') (opened_at b') (probes b' + 1), ts)
      else (false, b', ts)
  | OPEN => (false, b', ts)
  end.

Definition circuit_open_message (b : CircuitBreaker) : string :=
  "circuit " +:+ cb_name b +:+ " is " +:+ breaker_state_name (cb_state b).

Definition record_success (b : CircuitBreaker) : CircuitBreaker * list Transition :=
  let b1 := cb_with b (cb_state b) 0 (opened_at b) (probes b) in
  if bool_decide (cb_state b1 = CLOSED) then (b1, []) else cb_transition b1 CLOSED.

Definition record_failure (now : Q) (b : CircuitBreaker) : CircuitBreaker * list Transition :=
  let b1 := cb_with b (cb_state b) (failures b + 1) (opened_at b) (probes b) in
  if bool_decide (cb_state b1 = HALF_OPEN) || (failure_threshold b1 <=? failures b1)%Z
  then cb_transition (cb_with b1 (cb_state b1) (failures b1) now (probes b1)) OPEN
  else (b1, []).

(** a call on the breaker, for reasoning over sequences *)
Inductive BreakerCall := call_admit (now : Q) | call_success | call_failure (now : Q).

Definition breaker_step (b : CircuitBreaker) (c : BreakerCall) : CircuitBreaker :=
  match c with
  | call_admit now => snd (fst (cb_admit now b))
  | call_success => fst (record_success b)
  | call_failure now => fst (record_failure now b)
  end.

(** ** Bulkhead *)

(** [permits] is the semaphore's value *)
Record Bulkhead := {
  bh_name : string;
  bh_capacity : nat;
  bh_max_wait_seconds : Q;
  permits : nat;
  bh_active : nat;
  bh_waiting : nat;
  bh_rejected : nat;
}.

(** [Bulkhead.__init__] *)
Definition new_bulkhead (name : string) (capacity : Z) (max_wait : Q) : outcome Bulkhead :=
  if (capacity <? 1)%Z then Exc (Exn ValueError "bulkhead capacity must be >= 1")
  else Ret {| bh_name := name; bh_capacity := Z.to_nat capacity; bh_max_wait_seconds := max_wait;
              permits := Z.to_nat capacity; bh_active := 0; bh_waiting := 0; bh_rejected := 0 |}.

Definition bh_with (b : Bulkhead) (p a w r : nat) : Bulkhead := {|
  bh_name := bh_name b; bh_capacity := bh_capacity b; bh_max_wait_seconds := bh_max_wait_seconds b;
  permits := p; bh_active := a; bh_waiting := w; bh_rejected := r |}.

(** [timeout=self.max_wait_seconds or None]: a zero wait means no timeout *)
Definition wait_timeout (b : Bulkhead) : option Q :=
  if Qeq_bool (bh_max_wait_seconds b) 0 then None else Some (bh_max_wait_seconds b).

(** the steps [run] takes between suspensions *)
Inductive BulkheadEvent :=
  | bh_enter      (* [_waiting += 1], then the acquire suspends *)
  | bh_acquire    (* the semaphore is taken: [_waiting -= 1], [_active += 1] *)
  | bh_timeout    (* the acquire times out: [_rejected += 1], [BulkheadFull] *)
  | bh_cancel     (* the waiting task is cancelled: [_waiting -= 1] *)
  | bh_exit.      (* the operation ended: [_active -= 1], [release()] *)

Definition bulkhead_step (b : Bulkhead) (e : BulkheadEvent) : option Bulkhead :=
  match e with
  | bh_enter => Some (bh_with b (permits b) (bh_active b) (S (bh_waiting b)) (bh_rejected b))
  | bh_acquire =>
      match permits b, bh_waiting b with
      | S p, S w => Some (bh_with b p (S (bh_active b)) w (bh_rejected b))
      | _, _ => None
      end
  | bh_timeout =>
      match wait_timeout b, bh_waiting b with
      | Some _, S w => Some (bh_with b (permits b) (bh_active b) w (S (bh_rejected b)))
      | _, _ => None
      end
  | bh_cancel =>
      match bh_waiting b with
      | S w => Some (bh_with b (permits b) (bh_active b) w (bh_rejected b))
      | O => None
      end
  | bh_exit =>
      match bh_active b with
      | S a => Some (bh_with b (S (permits b)) a (bh_waiting b) (bh_rejected b))
      | O => None
      end
  end.

Fixpoint bulkhead_run (b : Bulkhead) (es : list BulkheadEvent) : option Bulkhead :=
  match es with
  | [] => Some b
  | e :: es' => b' ← bulkhead_step b e; bulkhead_run b' es'
  end.

(** ** Replay modes *)

Inductive ReplayMode := REPROCESS | REEXECUTE.

#[export] Instance ReplayMode_eq_dec : EqDecision ReplayMode.
Proof. solve_decision. Defined.

Definition replay_mode_name (m : ReplayMode) : string :=
  match m with REPROCESS => "REPROCESS" | REEXECUTE => "REEXECUTE" end.

(** ** Facts *)

Lemma may_retry_bound c o n : may_retry c o n = true -> (n < max_attempts (RETRY_POLICIES c))%Z.
Proof. unfold may_retry. destruct (_ <=? n)%Z eqn:E; [done|]. intros _. lia. Qed.

Lemma attempts_made_bound fuel c o n :
  (attempts_made fuel c o n <= Z.max n (max_attempts (RETRY_POLICIES c)))%Z.
Proof.
  revert n. induction fuel as [|fuel IH]; intros n; simpl; [lia|].
  destruct (may_retry c o n) eqn:E; [|lia]. apply may_retry_bound in E. specialize (IH (n + 1)%Z). lia.
Qed.

Lemma breaker_state_config now b :
  open_seconds (fst (breaker_state now b)) = open_seconds b /\
  half_open_max_probes (fst (breaker_state now b)) = half_open_max_probes b /\
  cb_name (fst (breaker_state now b)) = cb_name b.
Proof. unfold breaker_state, cb_transition. by repeat case_match; simplify_eq/=. Qed.

Lemma breaker_open_early now b :
  cb_state b = OPEN -> (now - opened_at b < open_seconds b)%Q -> breaker_state now b = (b, []).
Proof.
  intros Hs Ht. unfold breaker_state. rewrite bool_decide_eq_true_2 by done. simpl.
  destruct (Qle_bool _ _) eqn:E; [|done]. apply Qle_bool_iff in E. lra.
Qed.

Lemma breaker_state_late now b :
  cb_state b = OPEN -> (open_seconds b <= now - opened_at b)%Q ->
  breaker_state now b = (cb_with b HALF_OPEN (failures b) (opened_at b) 0, [(OPEN, HALF_OPEN)]).
Proof.
  intros Hs Ht. unfold breaker_state, cb_transition. rewrite bool_decide_eq_true_2 by done.
  apply Qle_bool_iff in Ht as ->. simpl. rewrite Hs. done.
Qed.

Lemma breaker_state_other now b : cb_state b <> OPEN -> breaker_state now b = (b, []).
Proof. intros Hs. unfold breaker_state. by rewrite bool_decide_eq_false_2. Qed.

Lemma bulkhead_step_inv b e b' :
  bulkhead_step b e = Some b' -> bh_active b + permits b = bh_capacity b ->
  bh_active b' + permits b' = bh_capacity b' /\ bh_capacity b' = bh_capacity b /\
  bh_max_wait_seconds b' = bh_max_wait_seconds b.
Proof. intros Hs Hb. destruct e; simpl in Hs; repeat case_match; simplify_eq/=; split_and!; try done; lia. Qed.

Lemma bulkhead_run_inv b es b' :
  bulkhead_run b es = Some b' -> bh_active b + permits b = bh_capacity b ->
  bh_active b' + permits b' = bh_capacity b' /\ bh_capacity b' = bh_capacity b /\
  bh_max_wait_seconds b' = bh_max_wait_seconds b.
Proof.
  revert b. induction es as [|e es IH]; intros b; simpl; [by intros [= <-]|].
  destruct (bulkhead_step b e) as [b1|] eqn:Hb1; simpl; [|done]. intros Hr Hb.
  destruct (bulkhead_step_inv _ _ _ Hb1 Hb) as (Hinv & Hc & Hw).
  destruct (IH _ Hr Hinv) as (? & ? & ?). split_and!; congruence.
Qed.

(** without a wait bound no step of a run rejects *)
Lemma bulkhead_run_no_reject b es b' :
  bulkhead_run b es = Some b' -> wait_timeout b = None -> bh_rejected b' = bh_rejected b.
Proof.
  revert b. induction es as [|e es IH]; intros b; simpl; [by intros [= <-]|].
  destruct (bulkhead_step b e) as [b1|] eqn:Hb1; simpl; [|done]. intros Hr Hw.
  assert (wait_timeout b1 = None /\ bh_rejected b1 = bh_rejected b) as [Hw1 Hr1].
  { destruct e; cbn -[wait_timeout] in Hb1; rewrite ?Hw in Hb1;
      repeat case_match; simplify_eq; done. }
  rewrite (IH _ Hr Hw1). done.
Qed.
