(* ===== verification/Policy.v ===== *)
(** * The policy engine

    [src/app/core/policy_engine.py]: [evaluate], the channel-compliance rules
    (consent, do-not-call, calling windows, attempt limits), and
    [evaluate_command], whether a verified principal may submit a command.
    Each rule contributes its reason codes in the order of the code; a request
    is allowed when no rule has one. *)

From stdpp Require Import pretty.
From S2P Require Import Prelude Json.
Local Open Scope Z_scope.

(** ** Time

    A [datetime]: microseconds since the epoch (of UTC when aware, of its own
    naive calendar otherwise) and whether it carries a time zone. *)
Record DateTime := { dt_us : Z; dt_aware : bool }.

Definition second : Z := 1000000.
Definition POLICY_VERSION := "2026-07-26.1".
Definition MAX_FRESHNESS : Z := 24 * 3600 * second.

(** the IANA time-zone database ([zoneinfo]): the wall-clock time of day and
    the ISO text of an instant in a zone; [None] is [ZoneInfoNotFoundError] (keys
    that make [ZoneInfo] raise something else are outside the model) *)
Record Zone := { zone_time_of_day : Z -> Z; zone_isoformat : Z -> string }.
Class ZoneInfo := zone_info : string -> option Zone.

Inductive DecisionAction := voice | sms | email | callback | transfer | recording | sync.

#[export] Instance DecisionAction_eq_dec : EqDecision DecisionAction.
Proof. solve_decision. Defined.

Definition decision_action_name (a : DecisionAction) : string :=
  match a with
  | voice => "voice" | sms => "sms" | email => "email" | callback => "callback"
  | transfer => "transfer" | recording => "recording" | sync => "sync"
  end.

Record PolicyRequest := {
  pr_correlation_id : string;
  action : DecisionAction;
  subject : string;
  resource : string;
  environment : option string;
  evaluated_at : option DateTime;
  consent_allowed : option bool;
  consent_observed_at : option DateTime;
  dnc_suppressed : option bool;
  dnc_observed_at : option DateTime;
  customer_timezone : option string;
  jurisdiction : option string;
  calling_window_start : option Z;
  calling_window_end : option Z;
  pr_attempts : option Z;
  pr_max_attempts : option Z;
  last_attempt_at : option DateTime;
  minimum_spacing_seconds : option Z;
  channel_eligible : option bool;
  business_unit : option string;
  allowed_business_units : option (list string);
  campaign : option string;
  allowed_campaigns : option (list string);
  agent : option string;
  allowed_agents : option (list string);
  callback_allowed : option bool;
  transfer_allowed : option bool;
  recording_required : option bool;
  disclosure_present : option bool;
  emergency_kill_switch : option bool;
  shadow_mode : bool;
}.

Record PolicyResult := {
  res_decision_id : string;
  res_policy_version : string;
  res_correlation_id : string;
  res_action : DecisionAction;
  res_subject : string;
  res_resource : string;
  res_allow : bool;
  res_enforced : bool;
  res_reason_codes : list string;
  res_data_freshness : list (string * string);
  res_evaluated_at : DateTime;
  res_expiration : DateTime;
}.

(** [_in_window]: half-open, wrapping past midnight when [end < start] *)
Definition in_window (current start end_ : Z) : bool :=
  if start =? end_ then false
  else if start <? end_ then (start <=? current) && (current <? end_)
  else (start <=? current) || (current <? end_).

Definition reason_if (b : bool) (code : string) : list string := if b then [code] else [].

Definition none_of {A B} (a : option A) (b : option B) : bool :=
  bool_decide (a = None) || bool_decide (b = None).

#[export] Instance option_none_dec {A} (o : option A) : Decision (o = None).
Proof. destruct o; [right|left]; done. Defined.

(** the [required] table: a datum counts as missing when either value is [None] *)
Definition missing_reasons (r : PolicyRequest) : list string :=
  reason_if (none_of (consent_allowed r) (consent_observed_at r)) "missing_consent_data" ++
  reason_if (none_of (dnc_suppressed r) (dnc_observed_at r)) "missing_dnc_data" ++
  reason_if (none_of (customer_timezone r) (customer_timezone r)) "missing_timezone_data" ++
  reason_if (none_of (jurisdiction r) (jurisdiction r)) "missing_jurisdiction_data" ++
  reason_if (none_of (channel_eligible r) (channel_eligible r)) "missing_channel_data" ++
  reason_if (none_of (business_unit r) (allowed_business_units r)) "missing_business_unit_data" ++
  reason_if (none_of (campaign r) (allowed_campaigns r)) "missing_campaign_data" ++
  reason_if (none_of (agent r) (allowed_agents r)) "missing_agent_data" ++
  reason_if (none_of (emergency_kill_switch r) (emergency_kill_switch r)) "missing_kill_switch_data".

(** one observation's freshness text and its reason *)
Definition freshness_of (now : DateTime) (observed : option DateTime) (code : string) :
    string * list string :=
  match observed with
  | Some o =>
      if dt_aware o then
        let age := dt_us now - dt_us o in
        (pretty (Z.max 0 (Z.quot age second)) +:+ "s",
         reason_if ((age <? 0) || (MAX_FRESHNESS <? age)) code)
      else ("missing", [])
  | None => ("missing", [])
  end.

Definition denied (value : option string) (allowed : option (list string)) : bool :=
  match value, allowed with Some v, Some l => negb (mem_string v l) | _, _ => false end.

Definition is_true (o : option bool) : bool := match o with Some true => true | _ => false end.
Definition is_false (o : option bool) : bool := match o with Some false => true | _ => false end.

Definition denial_reasons (r : PolicyRequest) : list string :=
  reason_if (is_true (emergency_kill_switch r)) "emergency_kill_switch" ++
  reason_if (is_false (consent_allowed r)) "consent_denied" ++
  reason_if (is_true (dnc_suppressed r)) "dnc_suppressed" ++
  reason_if (is_false (channel_eligible r)) (decision_action_name (action r) +:+ "_ineligible") ++
  reason_if (denied (business_unit r) (allowed_business_units r)) "business_unit_denied" ++
  reason_if (denied (campaign r) (allowed_campaigns r)) "campaign_denied" ++
  reason_if (denied (agent r) (allowed_agents r)) "agent_denied" ++
  reason_if (bool_decide (action r = callback) && negb (is_true (callback_allowed r))) "callback_denied" ++
  reason_if (bool_decide (action r = transfer) && negb (is_true (transfer_allowed r))) "transfer_denied" ++
  reason_if (bool_decide (action r = recording) && is_true (recording_required r) &&
             negb (is_true (disclosure_present r))) "recording_disclosure_missing".

Definition attempt_reasons (now : DateTime) (r : PolicyRequest) : list string :=
  (match pr_attempts r, pr_max_attempts r with
   | Some a, Some m => reason_if (m <=? a) "attempt_limit_reached"
   | _, _ => ["missing_attempt_limit_data"]
   end) ++
  (match minimum_spacing_seconds r with
   | None => ["missing_attempt_spacing_data"]
   | Some spacing =>
       match last_attempt_at r with
       | None => []
       | Some l =>
           if dt_aware l
           then reason_if (dt_us now - dt_us l <? spacing * second) "minimum_attempt_spacing"
           else ["invalid_last_attempt_time"]
       end
   end).

Definition window_reasons `{ZoneInfo} (now : DateTime) (r : PolicyRequest) :
    list (string * string) * list string :=
  let missing := reason_if (none_of (calling_window_start r) (calling_window_end r))
                           "missing_calling_hours_data" in
  match truthy_str (customer_timezone r) with
  | None => ([], missing)
  | Some tz =>
      match zone_info tz with
      | None => ([], missing ++ ["invalid_customer_timezone"])
      | Some z =>
          ([("local_time", zone_isoformat z (dt_us now))],
           missing ++
           match calling_window_start r, calling_window_end r with
           | Some s, Some e =>
               reason_if (negb (in_window (zone_time_of_day z (dt_us now)) s e)) "outside_calling_hours"
           | _, _ => []
           end)
      end
  end.

(** [evaluate]; [clock] is [datetime.now(timezone.utc)] and [decision_id] is
    [str(uuid4())] *)
Definition evaluate `{ZoneInfo} (clock : Z) (decision_id : string) (r : PolicyRequest) : PolicyResult :=
  let now := match evaluated_at r with
             | Some d => {| dt_us := dt_us d; dt_aware := true |}
             | None => {| dt_us := clock; dt_aware := true |}
             end in
  let (consent_fresh, consent_stale) := freshness_of now (consent_observed_at r) "stale_consent_data" in
  let (dnc_fresh, dnc_stale) := freshness_of now (dnc_observed_at r) "stale_dnc_data" in
  let (local_fresh, window) := window_reasons now r in
  let reasons := missing_reasons r ++ consent_stale ++ dnc_stale ++ denial_reasons r ++
                 attempt_reasons now r ++ window in
  {| res_decision_id := decision_id;
     res_policy_version := POLICY_VERSION;
     res_correlation_id := pr_correlation_id r;
     res_action := action r;
     res_subject := subject r;
     res_resource := resource r;
     res_allow := bool_decide (reasons = []);
     res_enforced := negb (shadow_mode r);
     res_reason_codes := match reasons with [] => ["allowed"] | _ => reasons end;
     res_data_freshness := [("consent", consent_fresh); ("dnc", dnc_fresh)] ++ local_fresh;
     res_evaluated_at := now;
     res_expiration := {| dt_us := dt_us now + 5 * 60 * second; dt_aware := true |} |}.

(** ** Command policy *)

Definition COMMAND_POLICY_VERSION := "2026-09-19.1".
Definition PLATFORM_OPERATOR_ROLE := "platform-operator".

Record CommandPolicyRequest := {
  cpr_correlation_id : string;
  cpr_principal : string;
  cpr_client_id : string;
  cpr_tenant_id : string;
  cpr_authorized_tenants : list string;
  cpr_roles : list string;
  cpr_scopes : list string;
  cpr_required_scope : string;
  cpr_command_type : string;
  cpr_target : string;
  cpr_capability : string;
  cpr_resource_scope : option string;
  cpr_campaign_id : option string;
  cpr_environment : string;
  cpr_effect_classification : string;
  cpr_caller_command_prefixes : list string;
  cpr_caller_targets : list string;
  cpr_caller_connector_commands_allowed : bool;
  cpr_campaign_scoped : bool;
  cpr_operator_required : bool;
  cpr_evaluated_at : option DateTime;
}.

Record CommandPolicyDecision := {
  cpd_decision_id : string;
  cpd_policy_version : string;
  cpd_correlation_id : string;
  cpd_allow : bool;
  cpd_reason_code : string;
  cpd_reason_codes : list string;
  cpd_evaluated_at : DateTime;
  cpd_safe_metadata : jdict;
}.

Definition command_policy_reasons (r : CommandPolicyRequest) : list string :=
  reason_if (negb (mem_string (cpr_required_scope r) (cpr_scopes r))) "scope_missing" ++
  (if mem_string "*" (cpr_authorized_tenants r) then ["wildcard_tenant_prohibited"]
   else reason_if (negb (mem_string (cpr_tenant_id r) (cpr_authorized_tenants r)))
          "tenant_not_authorized") ++
  (if String.eqb (cpr_effect_classification r) "read" then []
   else if negb (cpr_caller_connector_commands_allowed r) then ["client_without_command_authority"]
   else reason_if (negb (mem_string (cpr_target r) (cpr_caller_targets r)))
          "target_not_authorized_for_client" ++
        reason_if (negb (existsb (fun p => starts_with p (cpr_command_type r))
                           (cpr_caller_command_prefixes r)))
          "command_namespace_not_authorized") ++
  reason_if (cpr_campaign_scoped r && bool_decide (truthy_str (cpr_campaign_id r) = None))
    "campaign_scope_required" ++
  reason_if (cpr_operator_required r && negb (mem_string PLATFORM_OPERATOR_ROLE (cpr_roles r)))
    "operator_role_required" ++
  reason_if (String.eqb (cpr_environment r) "production" &&
             String.eqb (cpr_effect_classification r) "synthetic")
    "synthetic_command_in_production".

(** [evaluate_command]; [clock] is [datetime.now(timezone.utc)] and
    [decision_id] is [str(uuid4())] *)
Definition evaluate_command (clock : Z) (decision_id : string) (r : CommandPolicyRequest) :
    CommandPolicyDecision :=
  let now := {| dt_us := from_option dt_us clock (cpr_evaluated_at r); dt_aware := true |} in
  let reasons := command_policy_reasons r in
  {| cpd_decision_id := decision_id;
     cpd_policy_version := COMMAND_POLICY_VERSION;
     cpd_correlation_id := cpr_correlation_id r;
     cpd_allow := bool_decide (reasons = []);
     cpd_reason_code := default "allowed" (head reasons);
     cpd_reason_codes := match reasons with [] => ["allowed"] | _ => reasons end;
     cpd_evaluated_at := now;
     cpd_safe_metadata :=
       [("client_id", JStr (cpr_client_id r)); ("environment", JStr (cpr_environment r));
        ("effect_classification", JStr (cpr_effect_classification r));
        ("capability", JStr (cpr_capability r));
        ("operator", JBool (mem_string PLATFORM_OPERATOR_ROLE (cpr_roles r)))] |}.

(** ** Facts *)

Lemma reason_if_nil b code : reason_if b code = [] <-> b = false.
Proof. by destruct b. Qed.

Lemma app_nil_iff {A} (l k : list A) : l ++ k = [] <-> l = [] /\ k = [].
Proof. split; [apply app_nil|by intros [-> ->]]. Qed.

#[export] Hint Rewrite @app_nil_iff reason_if_nil : policy.

Lemma none_of_false {A B} (a : option A) (b : option B) :
  none_of a b = false <-> (exists x, a = Some x) /\ (exists y, b = Some y).
Proof. unfold none_of. destruct a, b; naive_solver. Qed.

Lemma in_window_wrap t s e : in_window t s e = true -> in_window t e s = false.
Proof. unfold in_window. repeat case_match; lia. Qed.
Lemma in_window_total t s e : s <> e -> in_window t s e = true \/ in_window t e s = true.
Proof. unfold in_window. intros Hne. destruct (s =? e) eqn:E1; [lia|].
  destruct (e =? s) eqn:E2; [lia|]. repeat case_match; lia. Qed.
