(* ===== verification/Safety.v ===== *)
(** * The safety gate

    [src/app/platform/safety.py]: the switch table, the per-tenant token
    bucket, the runtime kill switches (which only tighten), and
    [SafetyGate.evaluate], consulted before a command is persisted and again
    before an adapter runs.  Token counts and clock readings are exact
    rationals; float rounding is not modelled. *)

From Stdlib Require Import QArith Qminmax Lqa.
From S2P Require Import Prelude Json Commands Policy.
Local Open Scope nat_scope.

(** the fields of [Settings] the kernel reads *)
Record Settings := {
  app_env : string;
  source_sha : string;
  external_effects : gmap string bool;
  umbrella_controls : gmap string bool;
}.

(** ** The switch table *)

Record CapabilityGate := {
  gate_capability : string;
  classification : string;
  effect_flags : list string;
  gate_umbrella_controls : list string;
  environments : list string;
  campaign_scoped : bool;
  synthetic_tenant_required : bool;
}.

Record SafetyLimits := {
  tenant_commands_per_minute : Z;
  tenant_backlog_bound : Z;
  global_backlog_bound : Z;
}.

Record SafetySwitches := {
  safety_version : string;
  global_kill_switch : bool;
  provider_kill_switches : gmap string bool;
  synthetic_tenants : list string;
  gates : gmap string CapabilityGate;
  limits : SafetyLimits;
}.

Record SafetySubject := {
  sub_tenant_id : string;
  sub_command_type : string;
  sub_target : string;
  sub_capability : string;
  sub_campaign_id : option string;
  sub_correlation_id : string;
}.

Record SafetyContext := {
  adapter_registered : bool;
  adapter_ready : option bool;
  tenant_backlog : option Z;
  global_backlog : option Z;
}.

Record SafetyDecision := {
  sd_decision_id : string;
  sd_safety_version : string;
  sd_correlation_id : string;
  sd_allow : bool;
  sd_reason_code : string;
  sd_reason_codes : list string;
  sd_classification : string;
  sd_saturated : bool;
  sd_safe_metadata : jdict;
}.

(** ** The token bucket *)

(** tenant -> (tokens, time of the last update), in insertion order *)
Record TokenBucket := {
  per_minute : Z;
  max_tenants : nat;
  bucket_state : list (string * (Q * Q));
}.

Definition new_bucket (n : Z) : TokenBucket :=
  {| per_minute := n; max_tenants := 10000; bucket_state := [] |}.

(** [min(self._state, key=lambda key: self._state[key][1])]: the first of the
    least recently updated *)
Fixpoint oldest (l : list (string * (Q * Q))) : option (string * Q) :=
  match l with
  | [] => None
  | (k, (_, t)) :: l' =>
      match oldest l' with
      | Some (k', t') => if Qle_bool t t' then Some (k, t) else Some (k', t')
      | None => Some (k, t)
      end
  end.

(** the tokens at [now]: refilled at [per_minute / 60] per second, capped *)
Definition refill (per_minute : Z) (tokens updated now : Q) : Q :=
  Qmin (inject_Z per_minute) (tokens + (now - updated) * (inject_Z per_minute / 60)).

Definition bucket_admit (now : Q) (tenant : string) (b : TokenBucket) : bool * TokenBucket :=
  let '(tokens, updated) := default (inject_Z (per_minute b), now) (dict_get tenant (bucket_state b)) in
  let tokens := refill (per_minute b) tokens updated now in
  let store v := {| per_minute := per_minute b; max_tenants := max_tenants b;
                    bucket_state := dict_set tenant v (bucket_state b) |} in
  if negb (Qle_bool 1 tokens) then (false, store (tokens, now))
  else
    let b' := store (tokens - 1, now)%Q in
    if (max_tenants b <? length (bucket_state b'))%nat
    then match oldest (bucket_state b') with
         | Some (k, _) => (true, {| per_minute := per_minute b; max_tenants := max_tenants b;
                                    bucket_state := dict_pop k (bucket_state b') |})
         | None => (true, b')
         end
    else (true, b').

(** ** The gate *)

Record SafetyGate := {
  sg_settings : Settings;
  sg_policies : CommandPolicyRegistry;
  sg_switches : SafetySwitches;
  tripped_global : bool;
  tripped_providers : list string;
  budget : TokenBucket;
}.

Definition new_gate (st : Settings) (ps : CommandPolicyRegistry) (sw : SafetySwitches) : SafetyGate := {|
  sg_settings := st; sg_policies := ps; sg_switches := sw; tripped_global := false;
  tripped_providers := []; budget := new_bucket (tenant_commands_per_minute (limits sw)) |}.

Definition gate_with (g : SafetyGate) (global : bool) (providers : list string) (b : TokenBucket) :
    SafetyGate := {|
  sg_settings := sg_settings g; sg_policies := sg_policies g; sg_switches := sg_switches g;
  tripped_global := global; tripped_providers := providers; budget := b |}.

(** [trip]: [None] is the global kill switch *)
Definition trip (provider : option string) (g : SafetyGate) : SafetyGate :=
  match provider with
  | None => gate_with g true (tripped_providers g) (budget g)
  | Some p => gate_with g (tripped_global g)
                (if mem_string p (tripped_providers g) then tripped_providers g
                 else p :: tripped_providers g) (budget g)
  end.

Definition global_kill (g : SafetyGate) : bool :=
  global_kill_switch (sg_switches g) || tripped_global g.
Definition provider_kill (g : SafetyGate) (provider : string) : bool :=
  default false (provider_kill_switches (sg_switches g) !! provider) ||
  mem_string provider (tripped_providers g).

Definition gate_of (g : SafetyGate) (cap : string) : option CapabilityGate :=
  gates (sg_switches g) !! cap.
(** an unlisted capability is the most dangerous class *)
Definition classify (g : SafetyGate) (cap : string) : string :=
  from_option classification "external_effect" (gate_of g cap).
Definition is_campaign_scoped (g : SafetyGate) (cap : string) : bool :=
  from_option campaign_scoped false (gate_of g cap).

Definition flag_on (m : gmap string bool) (k : string) : bool :=
  match m !! k with Some true => true | _ => false end.

Definition kill_reasons (g : SafetyGate) (s : SafetySubject) : list string :=
  reason_if (global_kill g) "global_kill_switch" ++
  reason_if (provider_kill g (sub_target s)) "provider_kill_switch".

(** the rules of the capability's own gate *)
Definition capability_reasons (g : SafetyGate) (s : SafetySubject) : list string :=
  match gate_of g (sub_capability s) with
  | None => ["capability_without_safety_gate"]
  | Some cg =>
      reason_if (negb (mem_string (app_env (sg_settings g)) (environments cg)))
        "environment_not_authorized" ++
      reason_if (campaign_scoped cg && bool_decide (truthy_str (sub_campaign_id s) = None))
        "campaign_scope_required" ++
      reason_if (synthetic_tenant_required cg &&
                 negb (mem_string (sub_tenant_id s) (synthetic_tenants (sg_switches g))))
        "synthetic_tenant_required" ++
      (if String.eqb (classification cg) "external_effect" then
         reason_if (negb (capability_enabled (sg_policies g) (sub_capability s))) "capability_disabled" ++
         map (fun f => "effect_gate_off:" +:+ f)
           (List.filter (fun f => negb (flag_on (external_effects (sg_settings g)) f)) (effect_flags cg)) ++
         map (fun c => "umbrella_control_off:" +:+ c)
           (List.filter (fun c => negb (flag_on (umbrella_controls (sg_settings g)) c))
              (gate_umbrella_controls cg))
       else if String.eqb (classification cg) "synthetic" then
         reason_if (negb (capability_enabled (sg_policies g) (sub_capability s))) "capability_disabled"
       else [])
  end.

Definition adapter_reasons (c : SafetyContext) : list string :=
  if negb (adapter_registered c) then ["adapter_not_registered"]
  else reason_if (is_false (adapter_ready c)) "adapter_not_ready".

Definition backlog_unavailable_reasons (cls : string) (c : SafetyContext) : list string :=
  if String.eqb cls "external_effect" then
    reason_if (bool_decide (global_backlog c = None)) "global_backlog_unavailable" ++
    reason_if (bool_decide (tenant_backlog c = None)) "tenant_backlog_unavailable"
  else [].

Definition over (bound : Z) (v : option Z) : bool :=
  match v with Some n => (bound <=? n)%Z | None => false end.

Definition saturation_reasons (g : SafetyGate) (c : SafetyContext) : list string :=
  reason_if (over (global_backlog_bound (limits (sg_switches g))) (global_backlog c))
    "global_backlog_saturated" ++
  reason_if (over (tenant_backlog_bound (limits (sg_switches g))) (tenant_backlog c))
    "tenant_backlog_saturated".

(** every rule but the rate budget *)
Definition standing_reasons (g : SafetyGate) (s : SafetySubject) (c : SafetyContext) : list string :=
  kill_reasons g s ++ capability_reasons g s ++ adapter_reasons c ++
  backlog_unavailable_reasons (classify g (sub_capability s)) c ++ saturation_reasons g c.

Definition decision (decision_id : string) (g : SafetyGate) (s : SafetySubject)
    (reasons : list string) (saturated : bool) : SafetyDecision := {|
  sd_decision_id := decision_id;
  sd_safety_version := safety_version (sg_switches g);
  sd_correlation_id := sub_correlation_id s;
  sd_allow := bool_decide (reasons = []);
  sd_reason_code := default "allowed" (head reasons);
  sd_reason_codes := match reasons with [] => ["allowed"] | _ => reasons end;
  sd_classification := classify g (sub_capability s);
  sd_saturated := saturated;
  sd_safe_metadata :=
    [("environment", JStr (app_env (sg_settings g))); ("capability", JStr (sub_capability s));
     ("target", JStr (sub_target s)); ("classification", JStr (classify g (sub_capability s)));
     ("global_kill_switch", JBool (global_kill g))] |}.

(** [SafetyGate.evaluate]; the rate budget is consumed only when nothing else
    denies *)
Definition safety_evaluate (now : Q) (decision_id : string) (s : SafetySubject) (c : SafetyContext)
    (consume_budget : bool) (g : SafetyGate) : SafetyDecision * SafetyGate :=
  let reasons := standing_reasons g s c in
  let saturated := over (global_backlog_bound (limits (sg_switches g))) (global_backlog c) ||
                   over (tenant_backlog_bound (limits (sg_switches g))) (tenant_backlog c) in
  if consume_budget && bool_decide (reasons = []) then
    let (admitted, b) := bucket_admit now (sub_tenant_id s) (budget g) in
    let g' := gate_with g (tripped_global g) (tripped_providers g) b in
    if admitted then (decision decision_id g s [] saturated, g')
    else (decision decision_id g s ["tenant_rate_limited"] true, g')
  else (decision decision_id g s reasons saturated, g).

(** ** Facts: the gate *)

Lemma safety_allow_reasons now did s c consume g :
  sd_allow (fst (safety_evaluate now did s c consume g)) = true -> standing_reasons g s c = [].
Proof.
  unfold safety_evaluate. destruct (consume && bool_decide (standing_reasons g s c = [])) eqn:E.
  - intros _. apply andb_prop in E as [_ E]. by apply bool_decide_eq_true in E.
  - simpl. by rewrite bool_decide_eq_true.
Qed.

Lemma safety_no_budget now did s c g :
  safety_evaluate now did s c false g =
    (decision did g s (standing_reasons g s c)
       (over (global_backlog_bound (limits (sg_switches g))) (global_backlog c) ||
        over (tenant_backlog_bound (limits (sg_switches g))) (tenant_backlog c)), g).
Proof. done. Qed.

Lemma mem_string_tripped p g : mem_string p (tripped_providers (trip (Some p) g)) = true.
Proof.
  apply mem_string_spec. simpl. destruct (mem_string p (tripped_providers g)) eqn:E.
  - by apply mem_string_spec.
  - left.
Qed.

(** tripping only ever adds kill switches *)
Lemma trip_monotone q g p :
  (global_kill g = true -> global_kill (trip q g) = true) /\
  (provider_kill g p = true -> provider_kill (trip q g) p = true).
Proof.
  unfold global_kill, provider_kill. destruct q as [q|]; simpl.
  - split; [done|]. intros [H|H]%orb_prop; apply orb_true_iff; [by left|right].
    destruct (mem_string q (tripped_providers g)); [done|].
    apply mem_string_spec in H. apply mem_string_spec. by right.
  - split; [by rewrite orb_true_r|done].
Qed.

(** ** Facts: the bucket *)

Definition bucket_ok (b : TokenBucket) : Prop :=
  forall k t u, In (k, (t, u)) (bucket_state b) -> (0 <= t)%Q /\ (t <= inject_Z (per_minute b))%Q.

Lemma refill_le n t u now : (refill n t u now <= inject_Z n)%Q.
Proof. apply Q.le_min_l. Qed.

Lemma refill_nonneg n t u now :
  (0 <= n)%Z -> (0 <= t)%Q -> (u <= now)%Q -> (0 <= refill n t u now)%Q.
Proof.
  intros Hn Ht Hu. assert (Hn' : (0 <= inject_Z n)%Q) by (change 0%Q with (inject_Z 0); by rewrite <- Zle_Qle).
  unfold refill. apply Q.min_glb; [done|].
  assert (0 <= (now - u) * (inject_Z n / 60))%Q.
  { apply Qmult_le_0_compat; [lra|]. apply Qle_shift_div_l; [lra|]. lra. }
  lra.
Qed.
