(* ===== verification/Adapter.v ===== *)
(** * The adapter contract

    [src/app/platform/adapter.py]: the normalised results, the transport and
    HTTP classifications, the [BaseAdapter] defaults, and the adapter protocol
    as a record of operations over the world [W] they run in.  A provider's
    own code is a parameter: an [Adapter] may be any value of the record. *)

From Stdlib Require Import QArith.
From S2P Require Import Prelude Json Uuid Commands.
From stdpp Require Import pretty.
Local Open Scope nat_scope.

(** ** Vocabulary *)

Inductive Outcome :=
  | ACCEPTED | COMPLETED | REJECTED | TRANSIENT | UNKNOWN | CANCELLED | UNSUPPORTED.
#[export] Instance Outcome_eq_dec : EqDecision Outcome.
Proof. solve_decision. Defined.

Inductive ReadbackStatus := MATCHED | MISMATCH | NOT_FOUND | UNAVAILABLE | RB_UNSUPPORTED.
#[export] Instance ReadbackStatus_eq_dec : EqDecision ReadbackStatus.
Proof. solve_decision. Defined.

Inductive ErrorClass :=
  | RETRYABLE_BEFORE_EFFECT | NON_RETRYABLE | AMBIGUOUS | PROVIDER_AUTH | PROVIDER_RATE_LIMITED
  | ERR_UNSUPPORTED.
#[export] Instance ErrorClass_eq_dec : EqDecision ErrorClass.
Proof. solve_decision. Defined.

(** [.value] of the enums *)
Definition outcome_value (o : Outcome) : string :=
  match o with
  | ACCEPTED => "ACCEPTED" | COMPLETED => "COMPLETED" | REJECTED => "REJECTED"
  | TRANSIENT => "TRANSIENT" | UNKNOWN => "UNKNOWN" | CANCELLED => "CANCELLED"
  | UNSUPPORTED => "UNSUPPORTED"
  end.
Definition readback_value (s : ReadbackStatus) : string :=
  match s with
  | MATCHED => "MATCHED" | MISMATCH => "MISMATCH" | NOT_FOUND => "NOT_FOUND"
  | UNAVAILABLE => "UNAVAILABLE" | RB_UNSUPPORTED => "UNSUPPORTED"
  end.
Definition error_class_value (c : ErrorClass) : string :=
  match c with
  | RETRYABLE_BEFORE_EFFECT => "RETRYABLE_BEFORE_EFFECT"
  | NON_RETRYABLE => "NON_RETRYABLE"
  | AMBIGUOUS => "AMBIGUOUS"
  | PROVIDER_AUTH => "PROVIDER_AUTH"
  | PROVIDER_RATE_LIMITED => "PROVIDER_RATE_LIMITED"
  | ERR_UNSUPPORTED => "UNSUPPORTED"
  end.

Record AdapterContext := {
  ctx_tenant_id : string;
  ctx_command_id : string;
  ctx_correlation_id : string;
  ctx_attempt : nat;
  ctx_timeout_seconds : Q;
  ctx_environment : string;
  ctx_deployment_sha : string;
  ctx_trace_context : jdict;
  ctx_test_syn : bool;
  ctx_payload : jdict;
}.

(** [AdapterContext.outbound_headers] *)
Definition outbound_headers (c : AdapterContext) : list (string * string) :=
  fold_left (fun headers name =>
      match dict_get name (ctx_trace_context c) with
      | Some (JStr v) => if str_nonempty v then dict_set name v headers else headers
      | _ => headers
      end)
    ["traceparent"; "tracestate"] [("X-Correlation-ID", ctx_correlation_id c)].

Record AdapterResult := {
  res_outcome : Outcome;
  res_provider_operation_id : option string;
  res_error_class : option ErrorClass;
  res_safe_error_code : option string;
  res_safe_details : jdict;
}.

(** a result that carries only an error *)
Definition error_result (o : Outcome) (c : ErrorClass) (code : string) : AdapterResult := {|
  res_outcome := o; res_provider_operation_id := None; res_error_class := Some c;
  res_safe_error_code := Some code; res_safe_details := [] |}.

Definition acknowledged (r : AdapterResult) : bool :=
  bool_decide (res_outcome r = ACCEPTED) || bool_decide (res_outcome r = COMPLETED).

Record ReadbackResult := {
  rb_status : ReadbackStatus;
  rb_provider_operation_id : option string;
  rb_evidence : jdict;
  rb_safe_error_code : option string;
}.

Record AdapterReadiness := { ready : bool; ready_detail : string }.

Record AdapterCapabilities := {
  adv_adapter_id : string;
  adv_version : string;
  adv_provider_family : string;
  adv_connector_ids : list string;
  adv_capabilities : list string;
  supports_readback : bool;
  supports_cancel : bool;
  supports_status : bool;
  safe_reexecution : bool;
  external_effect : bool;
}.

(** what provider code may hand to [normalize_result]: a result, a mapping, or
    any other object *)
Inductive Raw := raw_result (r : AdapterResult) | raw_mapping (d : jdict) | raw_other.

(** ** Classification *)

Definition classify_transport_error (e : exn) : ErrorClass :=
  if isinstance e ["ConnectError"; "ConnectTimeout"] then RETRYABLE_BEFORE_EFFECT
  else if isinstance e ["ReadTimeout"; "WriteTimeout"; "PoolTimeout"; "RemoteProtocolError";
                        "ReadError"; "WriteError"] then AMBIGUOUS
  else if isinstance e ["TransportError"] then AMBIGUOUS
  else if isinstance e ["TimeoutError"] then AMBIGUOUS
  else if isinstance e ["AdapterConfigurationError"; "ValueError"; "TypeError"; "KeyError"]
       then NON_RETRYABLE
  else AMBIGUOUS.

Definition classify_status (status_code : Z) : Outcome :=
  if bool_decide (status_code ∈ [200; 201; 204]%Z) then COMPLETED
  else if (status_code =? 202)%Z then ACCEPTED
  else if bool_decide (status_code ∈ [408; 425; 429; 502; 503; 504]%Z) then TRANSIENT
  else if (400 <=? status_code)%Z && (status_code <? 500)%Z then REJECTED
  else if (500 <=? status_code)%Z then UNKNOWN
  else UNKNOWN.

(** ** [BaseAdapter] *)

(** [bool(value)] *)
Definition json_truthy (v : json) : bool :=
  match v with
  | JNull => false
  | JBool b => b
  | JInt z => negb (z =? 0)%Z
  | JFloat r => negb (mem_string r ["0.0"; "-0.0"])
  | JStr s => str_nonempty s
  | JArr l => match l with [] => false | _ => true end
  | JObj d => match d with [] => false | _ => true end
  end.

(** [a or b] on values a mapping may lack *)
Definition json_or (a b : option json) : option json :=
  match a with Some v => if json_truthy v then Some v else b | None => b end.

Section Base.
  (** [str(value)] of a container or a float, which the program never relies on *)
  Context (py_str : json -> string).

(** [str(reference)] *)
Definition reference_str (v : json) : string :=
  match v with
  | JStr s => s
  | JInt z => pretty z
  | JBool b => if b then "True" else "False"
  | _ => py_str v
  end.

(** [str(reference) if reference is not None else None] *)
Definition reference_of (d : jdict) : option string :=
  match json_or (dict_get "provider_operation_id" d) (dict_get "id" d) with
  | Some JNull | None => None
  | Some v => Some (reference_str v)
  end.

Definition unnormalizable : AdapterResult :=
  error_result UNKNOWN AMBIGUOUS "unnormalizable_result".

(** [BaseAdapter.normalize_result] *)
Definition base_normalize_result (raw : Raw) : AdapterResult :=
  match raw with
  | raw_result r => r
  | raw_mapping d =>
      match dict_get "status_code" d with
      | Some (JInt status_code) =>
          let outcome := classify_status status_code in
          let ok := bool_decide (outcome = ACCEPTED) || bool_decide (outcome = COMPLETED) in
          {| res_outcome := outcome;
             res_provider_operation_id := reference_of d;
             res_error_class :=
               if ok then None
               else Some (if bool_decide (outcome = UNKNOWN) then AMBIGUOUS
                          else if bool_decide (outcome = TRANSIENT) then RETRYABLE_BEFORE_EFFECT
                          else NON_RETRYABLE);
             res_safe_error_code :=
               if ok then None else Some ("provider_http_" +:+ pretty status_code);
             res_safe_details := [] |}
      | _ => unnormalizable
      end
  | raw_other => unnormalizable
  end.
End Base.

(** the class attributes [BaseAdapter] reads *)
Definition base_validate_config (adapter_id family : string) (connectors served : list string) :
    outcome unit :=
  if negb (str_nonempty adapter_id) || negb (str_nonempty family)
  then Exc (Exn AdapterConfigurationError "adapter needs an id and a provider family")
  else if bool_decide (connectors = []) || bool_decide (served = [])
  then Exc (Exn AdapterConfigurationError
    (adapter_id +:+ ": an adapter must own connector ids and capabilities"))
  else Ret tt.

Definition base_status : AdapterResult :=
  error_result UNSUPPORTED ERR_UNSUPPORTED "status_unsupported".
Definition base_readback : ReadbackResult := {|
  rb_status := RB_UNSUPPORTED; rb_provider_operation_id := None; rb_evidence := [];
  rb_safe_error_code := Some "readback_unsupported" |}.
Definition base_cancel : AdapterResult :=
  error_result UNSUPPORTED ERR_UNSUPPORTED "cancel_unsupported".
Definition base_redact (v : json) : json :=
  match v with JObj d => JObj (redact_metadata d) | _ => v end.

(** ** The protocol *)

(** [W] is everything an adapter call can read or change; [classify_error] and
    [redact] are taken to be functions of their argument that do not raise, which is
    what [BaseAdapter] gives every adapter that does not override them *)
Record Adapter (W : Type) := {
  adapter_id : string;
  validate_config : outcome unit;
  adapter_capabilities : AdapterCapabilities;
  readiness : AdapterContext -> M W AdapterReadiness;
  execute : CommandEnvelope -> AdapterContext -> M W Raw;
  status : CommandOperation -> AdapterContext -> M W Raw;
  readback : CommandOperation -> AdapterContext -> M W ReadbackResult;
  adapter_reconcile : CommandOperation -> AdapterContext -> M W ReadbackResult;
  adapter_cancel : CommandOperation -> AdapterContext -> M W Raw;
  normalize_result : Raw -> outcome AdapterResult;
  classify_error : exn -> ErrorClass;
  redact : json -> json;
}.
Arguments adapter_id {W} _.
Arguments validate_config {W} _.
Arguments adapter_capabilities {W} _.
Arguments readiness {W} _.
Arguments execute {W} _.
Arguments status {W} _.
Arguments readback {W} _.
Arguments adapter_reconcile {W} _.
Arguments adapter_cancel {W} _.
Arguments normalize_result {W} _.
Arguments classify_error {W} _.
Arguments redact {W} _.

Definition ADAPTER_METHODS : list string :=
  ["validate_config"; "capabilities"; "readiness"; "execute"; "status"; "readback"; "reconcile";
   "cancel"; "normalize_result"; "classify_error"; "redact"].

(** an object offered for registration: which of its attributes are callable,
    whether [adapter_id] is a string, and its behaviour as an adapter *)
Record Candidate (W : Type) := {
  cand_type_name : string;
  cand_callable : string -> bool;
  cand_id_is_str : bool;
  cand_adapter : Adapter W;
}.
Arguments cand_type_name {W} _.
Arguments cand_callable {W} _.
Arguments cand_id_is_str {W} _.
Arguments cand_adapter {W} _.

Definition missing_methods {W} (c : Candidate W) : list string :=
  (if negb (cand_id_is_str c) || negb (str_nonempty (adapter_id (cand_adapter c)))
   then ["adapter_id"] else []) ++
  List.filter (fun m => negb (cand_callable c m)) ADAPTER_METHODS.

(** [str] of a list of strings *)
Definition py_list (l : list string) : string :=
  "[" +:+ Json.join ", " (map (fun s => "'" +:+ s +:+ "'") l) +:+ "]".

Definition assert_adapter {W} (c : Candidate W) : outcome (Adapter W) :=
  match missing_methods c with
  | [] => Ret (cand_adapter c)
  | missing => Exc (Exn AdapterConfigurationError
      (cand_type_name c +:+ " does not implement the adapter contract: missing " +:+ py_list missing))
  end.

(** ** Facts *)

Lemma assert_adapter_complete {W} (c : Candidate W) a :
  assert_adapter c = Ret a ->
  a = cand_adapter c /\ str_nonempty (adapter_id a) = true /\
  Forall (fun m => cand_callable c m = true) ADAPTER_METHODS.
Proof.
  unfold assert_adapter. destruct (missing_methods c) eqn:E; [|done]. intros [= <-].
  unfold missing_methods in E. apply app_nil in E as [Hid Hm]. split; [done|]. split.
  - destruct (cand_id_is_str c), (str_nonempty (adapter_id (cand_adapter c))); done.
  - apply Forall_forall. intros m Hin. destruct (cand_callable c m) eqn:Hc; [done|exfalso].
    assert (m ∈ List.filter (fun m => negb (cand_callable c m)) ADAPTER_METHODS) as Hx
      by (apply filter_In_list; by rewrite Hc).
    rewrite Hm in Hx. by apply elem_of_nil in Hx.
Qed.

(** the classification is total and never calls a sent request retryable *)
Lemma classify_status_range n :
  classify_status n = ACCEPTED \/ classify_status n = COMPLETED \/ classify_status n = TRANSIENT \/
  classify_status n = REJECTED \/ classify_status n = UNKNOWN.
Proof. unfold classify_status. repeat case_match; auto. Qed.
