(* ===== verification/Registry.v ===== *)
(** * The adapter registry

    [src/app/platform/registry.py]: registration with every refusal in the
    code's order, validation against the enabled capabilities, and the
    ownership lookups the kernel, the bus and the reconciler route through. *)

From stdpp Require Import sorting.
From S2P Require Import Prelude Json Uuid Commands Adapter.
Local Open Scope nat_scope.

Record Ownership := {
  own_prefix : string;
  own_target : string;
  own_capability : string;
  own_readback_required : bool;
  own_adapter_id : string;
}.

(** [sorted(...)] of strings *)
Definition str_le (a b : string) : Prop := String.leb a b = true.
#[export] Instance str_le_dec a b : Decision (str_le a b).
Proof. unfold str_le. apply _. Defined.
Definition sorted_strings (l : list string) : list string := merge_sort str_le l.

Lemma sorted_strings_elem x l : x ∈ sorted_strings l <-> x ∈ l.
Proof. unfold sorted_strings. by rewrite (merge_sort_Permutation str_le l). Qed.

Section Registry.
Context {W : Type}.

Record AdapterRegistry := {
  reg_policies : CommandPolicyRegistry;
  reg_adapters : gmap string (Adapter W);
  reg_advertised : gmap string AdapterCapabilities;
  (* command prefix -> adapter id *)
  reg_owners : gmap string string;
  reg_validated : bool;
}.

(** [AdapterRegistry.__init__] *)
Definition new_registry (ps : CommandPolicyRegistry) : AdapterRegistry :=
  {| reg_policies := ps; reg_adapters := ∅; reg_advertised := ∅; reg_owners := ∅;
     reg_validated := false |}.

(** ** Registration *)

Abbreviation refuse msg := (Exc (Exn AdapterRegistryError msg)).

(** the loop over the policies: the first violation raises *)
Fixpoint owned_policies (aid : string) (adv : AdapterCapabilities) (owners : gmap string string)
    (ps : list CommandPolicy) : outcome (list CommandPolicy) :=
  match ps with
  | [] => Ret []
  | p :: ps' =>
      if negb (mem_string (policy_target p) (adv_connector_ids adv))
      then owned_policies aid adv owners ps'
      else if negb (mem_string (policy_capability p) (adv_capabilities adv))
      then refuse ("adapter " +:+ aid +:+ " owns target " +:+ policy_target p +:+
        " but does not implement capability " +:+ policy_capability p +:+ " required by prefix " +:+
        prefix p)
      else if readback_required p && negb (supports_readback adv)
      then refuse ("adapter " +:+ aid +:+ " must support readback for prefix " +:+ prefix p)
      else if match owners !! prefix p with
              | Some existing => negb (String.eqb existing aid)
              | None => false
              end
      then refuse ("command prefix " +:+ prefix p +:+ " would have two owners: " +:+
        default "" (owners !! prefix p) +:+ " and " +:+ aid)
      else match owned_policies aid adv owners ps' with
           | Ret owned => Ret (p :: owned)
           | Exc e => Exc e
           end
  end.

Definition register (c : Candidate W) : M AdapterRegistry (Adapter W) := fun r =>
  match assert_adapter c with
  | Exc e => (Exc e, r)
  | Ret adapter =>
  match validate_config adapter with
  | Exc e => (Exc e, r)
  | Ret _ =>
  let advertised := adapter_capabilities adapter in
  let aid := adapter_id adapter in
  if negb (String.eqb (adv_adapter_id advertised) aid)
  then (refuse ("adapter " +:+ aid +:+ " advertises a different id " +:+ adv_adapter_id advertised), r)
  else if bool_decide (is_Some (reg_adapters r !! aid))
  then (refuse ("duplicate adapter id " +:+ aid), r)
  else if bool_decide (adv_connector_ids advertised = [])
  then (refuse ("adapter " +:+ aid +:+ " owns no connector id"), r)
  else
  match owned_policies aid advertised (reg_owners r) (policies (reg_policies r)) with
  | Exc e => (Exc e, r)
  | Ret [] => (refuse ("adapter " +:+ aid +:+ " owns no command prefix of the command registry"), r)
  | Ret owned =>
      (Ret adapter, {|
        reg_policies := reg_policies r;
        reg_adapters := <[aid := adapter]> (reg_adapters r);
        reg_advertised := <[aid := advertised]> (reg_advertised r);
        reg_owners := fold_left (fun m p => <[prefix p := aid]> m) owned (reg_owners r);
        reg_validated := false |})
  end end end.

Fixpoint register_all (cs : list (Candidate W)) : M AdapterRegistry unit :=
  match cs with
  | [] => ret tt
  | c :: cs' => register c ;;; register_all cs'
  end.

(** the problems [validate] reports, in policy order *)
Definition validation_problems (r : AdapterRegistry) : list string :=
  map (fun p => "enabled capability " +:+ policy_capability p +:+ " has no adapter for prefix " +:+ prefix p)
    (List.filter (fun p => capability_enabled (reg_policies r) (policy_capability p) &&
                           bool_decide (reg_owners r !! prefix p = None))
       (policies (reg_policies r))).

Definition validate : M AdapterRegistry unit := fun r =>
  match validation_problems r with
  | [] => (Ret tt, {| reg_policies := reg_policies r; reg_adapters := reg_adapters r;
                      reg_advertised := reg_advertised r; reg_owners := reg_owners r;
                      reg_validated := true |})
  | problems => (refuse (Json.join "; " problems), r)
  end.

(** ** Lookup *)

Definition ids (r : AdapterRegistry) : list string :=
  sorted_strings (map fst (map_to_list (reg_adapters r))).

Definition adapter (r : AdapterRegistry) (aid : string) : outcome (Adapter W) :=
  match reg_adapters r !! aid with
  | Some a => Ret a
  | None => refuse ("adapter " +:+ aid +:+ " is not registered")
  end.

Definition advertised (r : AdapterRegistry) (aid : string) : outcome AdapterCapabilities :=
  match reg_advertised r !! aid with
  | Some a => Ret a
  | None => Exc (Exn KeyError aid)
  end.

Definition ownership (r : AdapterRegistry) (ct : string) : option Ownership :=
  p ← resolve (reg_policies r) ct;
  aid ← reg_owners r !! prefix p;
  Some {| own_prefix := prefix p; own_target := policy_target p;
          own_capability := policy_capability p; own_readback_required := readback_required p;
          own_adapter_id := aid |}.

Definition owner_for (r : AdapterRegistry) (ct : string) : outcome (option (Adapter W)) :=
  match ownership r ct with
  | None => Ret None
  | Some o => match reg_adapters r !! own_adapter_id o with
              | Some a => Ret (Some a)
              | None => Exc (Exn KeyError (own_adapter_id o))
              end
  end.

Definition unowned_prefixes (r : AdapterRegistry) : list string :=
  sorted_strings (map prefix (List.filter (fun p => bool_decide (reg_owners r !! prefix p = None))
    (policies (reg_policies r)))).

(** [readiness]: one adapter's exception is its own unreadiness *)
Fixpoint readiness_of (c : AdapterContext) (l : list (string * Adapter W)) :
    M W (list (string * AdapterReadiness)) :=
  match l with
  | [] => ret []
  | (aid, a) :: l' =>
      let! x := try_ (readiness a c)
        (fun e => ret {| ready := false; ready_detail := exn_name e |}) in
      let! rest := readiness_of c l' in
      ret ((aid, x) :: rest)
  end.
Definition registry_readiness (r : AdapterRegistry) (c : AdapterContext) :
    M W (list (string * AdapterReadiness)) :=
  readiness_of c (omap (fun aid => a ← reg_adapters r !! aid; Some (aid, a)) (ids r)).

Definition enabled_adapter_ids (r : AdapterRegistry) : list string :=
  sorted_strings (elements (list_to_set (C := gset string)
    (omap (fun p => if capability_enabled (reg_policies r) (policy_capability p)
                    then reg_owners r !! prefix p else None) (policies (reg_policies r))))).

(** ** The invariant *)

(** every owned prefix belongs to a registered adapter that advertises what
    the policies of that prefix ask for *)
Record registry_ok (r : AdapterRegistry) : Prop := {
  ro_registered : forall aid a, reg_adapters r !! aid = Some a ->
    adapter_id a = aid /\ reg_advertised r !! aid = Some (adapter_capabilities a);
  ro_owner : forall pf aid, reg_owners r !! pf = Some aid ->
    exists a p, reg_adapters r !! aid = Some a /\ p ∈ policies (reg_policies r) /\ prefix p = pf /\
      policy_target p ∈ adv_connector_ids (adapter_capabilities a);
  ro_serves : forall p aid a, p ∈ policies (reg_policies r) ->
    reg_adapters r !! aid = Some a ->
    policy_target p ∈ adv_connector_ids (adapter_capabilities a) ->
    reg_owners r !! prefix p = Some aid /\
    policy_capability p ∈ adv_capabilities (adapter_capabilities a) /\
    (readback_required p = true -> supports_readback (adapter_capabilities a) = true);
  ro_nonempty : forall aid a, reg_adapters r !! aid = Some a ->
    exists p, p ∈ policies (reg_policies r) /\ reg_owners r !! prefix p = Some aid;
  ro_validated : reg_validated r = true -> validation_problems r = [];
}.

Lemma registry_ok_new ps : registry_ok (new_registry ps).
Proof. split; simpl; try done; intros *; by rewrite lookup_empty. Qed.

Lemma owned_policies_spec aid adv owners ps owned :
  owned_policies aid adv owners ps = Ret owned ->
  (forall p, p ∈ owned <-> p ∈ ps /\ policy_target p ∈ adv_connector_ids adv) /\
  forall p, p ∈ owned -> policy_capability p ∈ adv_capabilities adv /\
    (readback_required p = true -> supports_readback adv = true) /\
    (owners !! prefix p = None \/ owners !! prefix p = Some aid).
Proof.
  revert owned. induction ps as [|q ps IH]; simpl; intros owned.
  { intros [= <-]. split; intros p; [|by intros H%elem_of_nil].
    split; [by intros H%elem_of_nil|by intros [H%elem_of_nil _]]. }
  destruct (mem_string (policy_target q) _) eqn:Ht; simpl.
  2: { intros Ho. destruct (IH _ Ho) as [IH1 IH2]. split; [|done]. intros p. rewrite IH1, elem_of_cons.
       split; [naive_solver|]. intros [[->|Hp] Hin]; [|done]. apply mem_string_spec in Hin. congruence. }
  destruct (mem_string (policy_capability q) _) eqn:Hc; simpl; [|done].
  destruct (readback_required q && negb (supports_readback adv)) eqn:Hr; [done|].
  destruct (match owners !! prefix q with Some _ => _ | None => false end) eqn:Hx; [done|].
  destruct (owned_policies aid adv owners ps) as [o'|] eqn:Ho; [|done]. intros [= <-].
  destruct (IH _ eq_refl) as [IH1 IH2]. apply mem_string_spec in Ht, Hc. split.
  - intros p. rewrite !elem_of_cons, IH1. naive_solver.
  - intros p [->|Hp]%elem_of_cons; [|by apply IH2]. split; [done|]. split.
    + intros Hrb. rewrite Hrb in Hr. by destruct (supports_readback adv).
    + destruct (owners !! prefix q) as [x|]; [right|by left].
      apply negb_false_iff, String.eqb_eq in Hx. by subst.
Qed.

(** the owner map after registration *)
Lemma owners_fold aid owned (m : gmap string string) pf :
  fold_left (fun m p => <[prefix p := aid]> m) owned m !! pf =
    if bool_decide (pf ∈ map prefix owned) then Some aid else m !! pf.
Proof.
  revert m. induction owned as [|q owned IH]; intros m; cbn [fold_left map].
  { rewrite bool_decide_eq_false_2; [done|]. apply not_elem_of_nil. }
  rewrite IH. repeat case_bool_decide; try done.
  - exfalso. apply H0. by right.
  - apply elem_of_cons in H0 as [->|H0]; [|done]. by rewrite lookup_insert_eq.
  - rewrite lookup_insert_ne; [done|]. intros <-. apply H0. left.
Qed.

(** the cases of a successful registration *)
Lemma register_inv c r a r' :
  register c r = (Ret a, r') ->
  a = cand_adapter c /\ reg_adapters r !! adapter_id a = None /\
  adv_adapter_id (adapter_capabilities a) = adapter_id a /\
  exists owned, owned <> [] /\
    owned_policies (adapter_id a) (adapter_capabilities a) (reg_owners r) (policies (reg_policies r)) = Ret owned /\
    r' = {| reg_policies := reg_policies r;
        reg_adapters := <[adapter_id a := a]> (reg_adapters r);
        reg_advertised := <[adapter_id a := adapter_capabilities a]> (reg_advertised r);
        reg_owners := fold_left (fun m p => <[prefix p := adapter_id a]> m) owned (reg_owners r);
        reg_validated := false |}.
Proof.
  unfold register. destruct (assert_adapter c) as [x|] eqn:Ha; [|done].
  apply assert_adapter_complete in Ha as (-> & _ & _).
  destruct (validate_config _); [|done].
  destruct (negb (String.eqb _ _)) eqn:Hid; [done|].
  case_bool_decide as Hdup; [done|]. case_bool_decide; [done|].
  destruct (owned_policies _ _ _ _) as [[|p owned]|] eqn:Ho; [done| |done].
  intros [= <- <-]. apply negb_false_iff, String.eqb_eq in Hid.
  split; [done|]. split; [by apply eq_None_not_Some|]. split; [done|]. exists (p :: owned). split_and!; done.
Qed.

Lemma register_exc c r e r' : register c r = (Exc e, r') -> r' = r.
Proof.
  unfold register. repeat case_match; intros; simplify_eq; done.
Qed.

Lemma register_ok_preserved c : preserves registry_ok (register c).
Proof.
  intros r Hr. destruct (register c r) as [[a|e] r'] eqn:E; simpl; [|by apply register_exc in E as ->].
  destruct (register_inv _ _ _ _ E) as (-> & Hfresh & _ & owned & Hne & Ho & ->).
  destruct (owned_policies_spec _ _ _ _ _ Ho) as [Hown Hprops].
  set (a := cand_adapter c) in *. split; simpl.
  - intros aid x. destruct (decide (aid = adapter_id a)) as [->|Hd].
    + rewrite !lookup_insert_eq. by intros [= <-].
    + rewrite !lookup_insert_ne by done. apply (ro_registered _ Hr).
  - intros pf aid. rewrite owners_fold. case_bool_decide as Hin.
    + intros [= <-]. apply list_elem_of_fmap in Hin as (p & -> & Hp). apply Hown in Hp as [Hp Ht].
      exists a, p. by rewrite lookup_insert_eq.
    + intros Hpf. destruct (ro_owner _ Hr _ _ Hpf) as (a' & p & Ha' & Hrest). exists a', p.
      rewrite lookup_insert_ne; [done|]. intros <-. congruence.
  - intros p aid x Hp Hx Htgt. rewrite owners_fold.
    destruct (decide (aid = adapter_id a)) as [->|Hd].
    + rewrite lookup_insert_eq in Hx. injection Hx as <-.
      assert (Hpo : p ∈ owned) by (by apply Hown).
      rewrite bool_decide_eq_true_2 by (by apply list_elem_of_fmap_2).
      destruct (Hprops _ Hpo) as (? & ? & _). done.
    + rewrite lookup_insert_ne in Hx by done.
      destruct (ro_serves _ Hr p aid x Hp Hx Htgt) as (Howner & ? & ?). split; [|done].
      case_bool_decide as Hin; [|done]. exfalso.
      apply list_elem_of_fmap in Hin as (q & Hpq & Hq). destruct (Hprops _ Hq) as (_ & _ & Hcase).
      rewrite <- Hpq, Howner in Hcase. naive_solver.
  - intros aid x. destruct (decide (aid = adapter_id a)) as [->|Hd].
    + intros _. destruct owned as [|p owned]; [done|]. exists p. split; [apply Hown; left|].
      rewrite owners_fold, bool_decide_eq_true_2; [done|]. left.
    + rewrite lookup_insert_ne by done. intros Hx.
      destruct (ro_nonempty _ Hr _ _ Hx) as (p & Hp & Hpo). exists p. split; [done|].
      rewrite owners_fold. case_bool_decide as Hin; [|done]. exfalso.
      apply list_elem_of_fmap in Hin as (q & Hpq & Hq). destruct (Hprops _ Hq) as (_ & _ & Hcase).
      rewrite <- Hpq, Hpo in Hcase. naive_solver.
  - done.
Qed.

Lemma register_all_ok cs : preserves registry_ok (register_all cs).
Proof.
  induction cs as [|c cs IH]; simpl; [apply preserves_ret|].
  apply preserves_bind; [apply register_ok_preserved|done].
Qed.

Lemma validate_ok_preserved : preserves registry_ok validate.
Proof.
  intros r Hr. unfold validate. destruct (validation_problems r) eqn:Hv; simpl; [|done].
  destruct Hr. by split.
Qed.

(** under the invariant a routed command reaches a registered adapter that
    owns the command's policy *)
Lemma ownership_adapter r ct o :
  registry_ok r -> ownership r ct = Some o ->
  exists a p, reg_adapters r !! own_adapter_id o = Some a /\ adapter r (own_adapter_id o) = Ret a /\
    adapter_id a = own_adapter_id o /\ advertised r (own_adapter_id o) = Ret (adapter_capabilities a) /\
    resolve (reg_policies r) ct = Some p /\ reg_owners r !! prefix p = Some (own_adapter_id o) /\
    own_prefix o = prefix p.
Proof.
  intros Hr Ho. unfold ownership in Ho.
  destruct (resolve _ ct) as [p|] eqn:Hp; simpl in Ho; [|done].
  destruct (reg_owners r !! prefix p) as [aid|] eqn:Haid; simpl in Ho; [|done]. injection Ho as <-.
  destruct (ro_owner _ Hr _ _ Haid) as (a & _ & Ha & _). destruct (ro_registered _ Hr _ _ Ha) as [Hid Hadv].
  exists a, p. unfold adapter, advertised. simpl. by rewrite Ha, Hadv.
Qed.

(** the policy a routed command falls under, and that its owner claims *)
Lemma ownership_policy r ct o :
  registry_ok r -> ownership r ct = Some o ->
  exists a p, reg_adapters r !! own_adapter_id o = Some a /\ adapter_id a = own_adapter_id o /\
    p ∈ policies (reg_policies r) /\ own_target o = policy_target p /\
    own_capability o = policy_capability p /\ own_readback_required o = readback_required p /\
    policy_target p ∈ adv_connector_ids (adapter_capabilities a).
Proof.
  intros Hr Ho. unfold ownership in Ho.
  destruct (resolve _ ct) as [p|] eqn:Hp; simpl in Ho; [|done].
  destruct (reg_owners r !! prefix p) as [aid|] eqn:Haid; simpl in Ho; [|done]. injection Ho as <-. simpl.
  destruct (ro_owner _ Hr _ _ Haid) as (a & q & Ha & Hq & Hpre & Ht).
  destruct (resolve_owner _ _ _ Hp) as [Hin Hsw]. rewrite <- Hpre in Hsw.
  pose proof (resolve_unique _ _ _ _ Hp Hq Hsw) as ->.
  destruct (ro_registered _ Hr _ _ Ha) as [Hid _]. by exists a, p.
Qed.
End Registry.
Arguments AdapterRegistry W : clear implicits.
