(* ===== verification/World.v ===== *)
(** * The process state the kernel's components share

    One record for everything a dispatch, a reconciliation or a submission
    reads or changes: the command store (any type with a [CommandStore]
    instance), the clocks, the breakers and bulkheads of
    [src/app/platform/bus.py], the safety gate, the metrics of
    [src/app/platform/metrics.py] as a log of what was counted, and the world
    outside the process (providers), on which adapters act.

    The event loop runs one task at a time and switches only where a task
    awaits.  The calls into adapter code are where the modelled tasks await:
    an adapter call is any function of the whole world, so what other tasks
    do meanwhile is part of it. *)

From stdpp Require Import pretty.
From Stdlib Require Import QArith.
From S2P Require Import Prelude Json Uuid Commands LedgerSpec Resilience Policy Safety Adapter.
Local Open Scope nat_scope.

(** ** Metrics *)

Inductive Metric :=
  | counted (name : string) (labels : list string)
  | observed (name : string) (labels : list string) (seconds : Q)
  | gauged (name : string) (labels : list string) (value : Z).

(** [KernelMetrics.breaker] *)
Definition breaker_gauge (name : string) (t : Transition) : Metric :=
  gauged "circuit_breaker_state" [name]
    (match snd t with CLOSED => 0 | HALF_OPEN => 1 | OPEN => 2 end)%Z.

Record DispatchOutcome := {
  do_command_id : UUID;
  do_attempt : option nat;
  final_state : string;
  effect_attempted : bool;
  do_result : option AdapterResult;
  do_readback : option ReadbackResult;
}.

Record World (S X : Type) := mkWorld {
  store : S;
  clock : Q;
  wall : datetime;
  breakers : gmap string CircuitBreaker;
  bulkheads : gmap string Bulkhead;
  safety : SafetyGate;
  ext : X;
  last_outcome : option DispatchOutcome;
  metrics : list Metric;
  (* the logs the in-memory bus and reconciliation source keep *)
  processed : list (nat * string);
  resolutions : list (nat * string * string);
}.
Arguments mkWorld {S X} _ _ _ _ _ _ _ _ _ _ _.
Arguments store {S X} _.
Arguments clock {S X} _.
Arguments wall {S X} _.
Arguments breakers {S X} _.
Arguments bulkheads {S X} _.
Arguments safety {S X} _.
Arguments ext {S X} _.
Arguments last_outcome {S X} _.
Arguments metrics {S X} _.
Arguments processed {S X} _.
Arguments resolutions {S X} _.

Section World.
Context {S X : Type}.
Abbreviation W := (World S X).
Implicit Types w : W.

Definition set_store (s : S) w : W := mkWorld s (clock w) (wall w) (breakers w) (bulkheads w)
  (safety w) (ext w) (last_outcome w) (metrics w) (processed w) (resolutions w).
Definition set_clock (t : Q) w : W := mkWorld (store w) t (wall w) (breakers w) (bulkheads w)
  (safety w) (ext w) (last_outcome w) (metrics w) (processed w) (resolutions w).
Definition set_breakers (b : gmap string CircuitBreaker) w : W := mkWorld (store w) (clock w) (wall w)
  b (bulkheads w) (safety w) (ext w) (last_outcome w) (metrics w) (processed w) (resolutions w).
Definition set_bulkheads (b : gmap string Bulkhead) w : W := mkWorld (store w) (clock w) (wall w)
  (breakers w) b (safety w) (ext w) (last_outcome w) (metrics w) (processed w) (resolutions w).
Definition set_safety (g : SafetyGate) w : W := mkWorld (store w) (clock w) (wall w) (breakers w)
  (bulkheads w) g (ext w) (last_outcome w) (metrics w) (processed w) (resolutions w).
Definition set_ext (x : X) w : W := mkWorld (store w) (clock w) (wall w) (breakers w) (bulkheads w)
  (safety w) x (last_outcome w) (metrics w) (processed w) (resolutions w).
Definition set_last (o : option DispatchOutcome) w : W := mkWorld (store w) (clock w) (wall w)
  (breakers w) (bulkheads w) (safety w) (ext w) o (metrics w) (processed w) (resolutions w).
Definition add_metrics (l : list Metric) w : W := mkWorld (store w) (clock w) (wall w) (breakers w)
  (bulkheads w) (safety w) (ext w) (last_outcome w) (metrics w ++ l) (processed w) (resolutions w).
Definition log_processed (n : nat) (what : string) w : W := mkWorld (store w) (clock w) (wall w)
  (breakers w) (bulkheads w) (safety w) (ext w) (last_outcome w) (metrics w)
  (processed w ++ [(n, what)]) (resolutions w).
Definition log_resolution (n : nat) (action reason : string) w : W := mkWorld (store w) (clock w) (wall w)
  (breakers w) (bulkheads w) (safety w) (ext w) (last_outcome w) (metrics w) (processed w)
  (resolutions w ++ [(n, action, reason)]).

Definition inc (name : string) (labels : list string) : M W unit :=
  modify (add_metrics [counted name labels]).
(** [observe(time.perf_counter() - started)] *)
Definition observe (name : string) (labels : list string) (started : Q) : M W unit := fun w =>
  modify (add_metrics [observed name labels (clock w - started)%Q]) w.

(** ** The command service over the store *)

(** a store call reads the wall clock once *)
Definition at_store {A} (m : datetime -> M S A) : M W A := fun w =>
  zoom store set_store (m (wall w)) w.

Context `{CommandStore S}.

Definition svc_get (t : string) (c : UUID) : M W CommandOperation :=
  at_store (fun _ => store_get t c).
Definition svc_load_envelope (t : string) (c : UUID) : M W CommandEnvelope :=
  at_store (fun _ => store_load_envelope t c).
Definition svc_latest_attempt (t : string) (c : UUID) : M W nat :=
  at_store (fun _ => store_latest_attempt t c).
Definition svc_transition (t : string) (c : UUID) (st : CommandState) (actor reason : string)
    (provider : option string) (evidence : option jdict) (expected_attempt : option nat) :
    M W CommandOperation :=
  at_store (fun now => store_transition now t c st actor reason provider evidence expected_attempt).
Definition svc_reconcile (t : string) (c : UUID) (matched : bool) (actor reason : string)
    (provider : option string) (evidence : jdict) (expected_version : option Z) :
    M W CommandOperation :=
  at_store (fun now => store_reconcile now t c matched actor reason provider evidence expected_version).
Definition svc_record_dead_letter (t : string) (c : UUID) (code class reason : string)
    (poisoned exhausted : bool) : M W DeadLetterRecord :=
  at_store (fun now => store_record_dead_letter now t c code class reason poisoned exhausted).

(** ** [asyncio.wait_for]

    The call's effects on the world are those it had; when it took longer
    than the timeout the caller sees [TimeoutError] at the deadline. *)
Definition wait_for {A} (timeout : Q) (m : M W A) : M W A := fun w =>
  let (r, w') := m w in
  if negb (Qle_bool (clock w') (clock w + timeout))
  then (Exc (Exn TimeoutError ""), set_clock (clock w + timeout) w')
  else (r, w').

(** ** Breakers and bulkheads, one per adapter *)

Record BusSettings := {
  bus_max_attempts : nat;
  default_timeout_seconds : Q;
  bulkhead_capacity : Z;
  breaker_threshold : Z;
  breaker_open_seconds : Q;
  timeouts_by_prefix : list (string * Q);
}.

Context (bus : BusSettings).

(** [AdapterDispatch.breaker] *)
Definition get_breaker (aid : string) : M W CircuitBreaker := fun w =>
  match breakers w !! aid with
  | Some b => (Ret b, w)
  | None =>
      let b := new_breaker aid (breaker_threshold bus) (breaker_open_seconds bus) in
      (Ret b, set_breakers (<[aid := b]> (breakers w)) w)
  end.

Definition put_breaker (aid : string) (b : CircuitBreaker) (ts : list Transition) : M W unit :=
  modify (fun w => add_metrics (map (breaker_gauge aid) ts) (set_breakers (<[aid := b]> (breakers w)) w)).

Definition breaker_admit (aid : string) : M W unit :=
  let! b := get_breaker aid in
  let! now := gets clock in
  let '(admitted, b', ts) := cb_admit now b in
  put_breaker aid b' ts ;;;
  if admitted then ret tt else raise CircuitOpen (circuit_open_message b').

Definition breaker_success (aid : string) : M W unit :=
  let! b := get_breaker aid in
  let (b', ts) := record_success b in
  put_breaker aid b' ts.

Definition breaker_failure (aid : string) : M W unit :=
  let! b := get_breaker aid in
  let! now := gets clock in
  let (b', ts) := record_failure now b in
  put_breaker aid b' ts.

(** [AdapterDispatch.bulkhead] *)
Definition get_bulkhead (aid : string) : M W Bulkhead := fun w =>
  match bulkheads w !! aid with
  | Some b => (Ret b, w)
  | None =>
      match new_bulkhead aid (bulkhead_capacity bus) 0 with
      | Ret b => (Ret b, set_bulkheads (<[aid := b]> (bulkheads w)) w)
      | Exc e => (Exc e, w)
      end
  end.

(** one step of the bulkhead's counters; a step that is not enabled leaves them *)
Definition bulkhead_do (aid : string) (e : BulkheadEvent) : M W unit :=
  modify (fun w => match bulkheads w !! aid with
    | Some b => match bulkhead_step b e with
                | Some b' => set_bulkheads (<[aid := b']> (bulkheads w)) w
                | None => w
                end
    | None => w
    end).

(** [Bulkhead.run].  [others] is what the other tasks do while this one waits
    for a permit.  A task still without one is rejected when the wait is
    bounded; otherwise only its cancellation ends the wait. *)
Definition bulkhead_call {A} (others : W -> W) (aid : string) (op : M W A) : M W A :=
  let! b := get_bulkhead aid in
  bulkhead_do aid bh_enter ;;;
  when (permits b =? 0)%nat (modify others) ;;;
  let! w := gets id in
  match bulkheads w !! aid with
  | Some b' =>
      if (permits b' =? 0)%nat
      then match wait_timeout b' with
           | Some _ =>
               bulkhead_do aid bh_timeout ;;;
               raise BulkheadFull ("bulkhead " +:+ bh_name b' +:+ " saturated (" +:+
                 pretty (bh_capacity b') +:+ ")")
           | None =>
               bulkhead_do aid bh_cancel ;;;
               raise (Foreign "CancelledError" ["BaseException"]) ""
           end
      else
      bulkhead_do aid bh_acquire ;;;
      finally_ op (bulkhead_do aid bh_exit)
  | None => raise KeyError aid
  end.

(** ** What a step of the store does to the world *)

Context `{!LedgerLaws S}.

(** the operation [k] shows [v] *)
Definition at_view (k : Key) (v : OpView) (w : W) : Prop :=
  ledger_ok (store w) /\ view (store w) k = Some v.

Lemma at_view_env k v w : at_view k v w -> k = (env_tenant_id (v_env v), env_command_id (v_env v)).
Proof. intros [Hok Hv]. by eapply view_key. Qed.

Lemma at_view_fun k v v' w : at_view k v w -> at_view k v' w -> v = v'.
Proof. intros [_ H1] [_ H2]. congruence. Qed.

Lemma at_view_set k v s w :
  at_view k v (set_store s w) <-> ledger_ok s /\ view s k = Some v.
Proof. done. Qed.

Lemma wp_get t c v w Q :
  at_view (t, c) v w -> (forall o, op_matches o v -> Q (Ret o) w) -> wp (svc_get t c) Q w.
Proof.
  intros [Hok Hv] HQ. pose proof (get_law _ t c Hok) as Hg. rewrite Hv in Hg.
  destruct Hg as (o & Hrun & Hm). eapply wp_run; [|by apply HQ].
  unfold svc_get, at_store, zoom. rewrite Hrun. by destruct w.
Qed.

Lemma wp_get_missing t c w Q :
  ledger_ok (store w) -> view (store w) (t, c) = None ->
  Q (Exc (Exn CommandNotFound "command operation was not found")) w -> wp (svc_get t c) Q w.
Proof.
  intros Hok Hv HQ. pose proof (get_law _ t c Hok) as Hg. rewrite Hv in Hg.
  eapply wp_run; [|exact HQ]. unfold svc_get, at_store, zoom. rewrite Hg. by destruct w.
Qed.

Lemma wp_latest_attempt t c v w Q :
  at_view (t, c) v w -> Q (Ret (v_attempts v)) w -> wp (svc_latest_attempt t c) Q w.
Proof.
  intros [Hok Hv] HQ. eapply wp_run; [|exact HQ].
  unfold svc_latest_attempt, at_store, zoom. rewrite (latest_attempt_law _ _ _ _ Hok Hv). by destruct w.
Qed.

Lemma wp_load_envelope t c v w Q :
  at_view (t, c) v w -> Q (Ret (v_env v)) w -> wp (svc_load_envelope t c) Q w.
Proof.
  intros [Hok Hv] HQ. eapply wp_run; [|exact HQ].
  unfold svc_load_envelope, at_store, zoom. rewrite (load_envelope_law _ _ _ _ Hok Hv). by destruct w.
Qed.

Lemma wp_transition t c v v' w st actor reason provider evidence expected Q :
  at_view (t, c) v w ->
  spec_transition (Some v) st provider evidence expected = Ret v' ->
  (forall o s', op_matches o v' -> at_view (t, c) v' (set_store s' w) -> Q (Ret o) (set_store s' w)) ->
  wp (svc_transition t c st actor reason provider evidence expected) Q w.
Proof.
  intros [Hok Hv] Hspec HQ.
  pose proof (transition_law _ (wall w) t c st actor reason provider evidence expected Hok) as Hi.
  rewrite Hv, Hspec in Hi. destruct Hi as (o & s' & Hrun & Hm & Hok' & Hv' & _).
  eapply wp_run; [|apply (HQ o s'); [done|by split]].
  unfold svc_transition, at_store, zoom. by rewrite Hrun.
Qed.

Lemma wp_transition_exc t c v w st actor reason provider evidence expected e Q :
  at_view (t, c) v w ->
  spec_transition (Some v) st provider evidence expected = Exc e ->
  Q (Exc e) w -> wp (svc_transition t c st actor reason provider evidence expected) Q w.
Proof.
  intros [Hok Hv] Hspec HQ.
  pose proof (transition_law _ (wall w) t c st actor reason provider evidence expected Hok) as Hi.
  rewrite Hv, Hspec in Hi. eapply wp_run; [|exact HQ].
  unfold svc_transition, at_store, zoom. simpl in Hi. rewrite Hi. by destruct w.
Qed.

Lemma wp_reconcile t c v v' w matched actor reason provider evidence expected Q :
  at_view (t, c) v w ->
  spec_reconcile (Some v) matched provider evidence expected = Ret v' ->
  (forall o s', op_matches o v' -> at_view (t, c) v' (set_store s' w) -> Q (Ret o) (set_store s' w)) ->
  wp (svc_reconcile t c matched actor reason provider evidence expected) Q w.
Proof.
  intros [Hok Hv] Hspec HQ.
  pose proof (reconcile_law _ (wall w) t c matched actor reason provider evidence expected Hok) as Hi.
  rewrite Hv, Hspec in Hi. destruct Hi as (o & s' & Hrun & Hm & Hok' & Hv' & _).
  eapply wp_run; [|apply (HQ o s'); [done|by split]].
  unfold svc_reconcile, at_store, zoom. by rewrite Hrun.
Qed.

Lemma wp_reconcile_exc t c v w matched actor reason provider evidence expected e Q :
  at_view (t, c) v w ->
  spec_reconcile (Some v) matched provider evidence expected = Exc e ->
  Q (Exc e) w -> wp (svc_reconcile t c matched actor reason provider evidence expected) Q w.
Proof.
  intros [Hok Hv] Hspec HQ.
  pose proof (reconcile_law _ (wall w) t c matched actor reason provider evidence expected Hok) as Hi.
  rewrite Hv, Hspec in Hi. eapply wp_run; [|exact HQ].
  unfold svc_reconcile, at_store, zoom. simpl in Hi. rewrite Hi. by destruct w.
Qed.

Lemma wp_record_dead_letter t c v w code class reason poisoned exhausted Q :
  at_view (t, c) v w ->
  (forall r s', at_view (t, c) (with_dead_letter v) (set_store s' w) -> Q (Ret r) (set_store s' w)) ->
  wp (svc_record_dead_letter t c code class reason poisoned exhausted) Q w.
Proof.
  intros [Hok Hv] HQ.
  destruct (record_dead_letter_law _ (wall w) t c v code class reason poisoned exhausted Hok Hv)
    as (r & s' & Hrun & Hok' & Hv' & _).
  eapply wp_run; [|apply (HQ r s'); by split].
  unfold svc_record_dead_letter, at_store, zoom. by rewrite Hrun.
Qed.

(** ** What leaves the store alone *)

(** the world changed outside the store *)
Definition same_store (w w' : W) : Prop := store w' = store w.

Lemma at_view_same k v w w' : same_store w w' -> at_view k v w -> at_view k v w'.
Proof. unfold same_store, at_view. by intros ->. Qed.

Lemma inc_same name labels w Q : (forall w', same_store w w' -> Q (Ret tt) w') -> wp (inc name labels) Q w.
Proof. intros HQ. by apply HQ. Qed.
Lemma observe_same name labels t w Q :
  (forall w', same_store w w' -> Q (Ret tt) w') -> wp (observe name labels t) Q w.
Proof. intros HQ. by apply HQ. Qed.
Lemma breaker_success_same aid w Q :
  (forall w', same_store w w' -> Q (Ret tt) w') -> wp (breaker_success aid) Q w.
Proof.
  intros HQ. unfold breaker_success, get_breaker, wp, bind.
  destruct (breakers w !! aid); destruct (record_success _); by apply HQ.
Qed.
Lemma breaker_failure_same aid w Q :
  (forall w', same_store w w' -> Q (Ret tt) w') -> wp (breaker_failure aid) Q w.
Proof.
  intros HQ. unfold breaker_failure, get_breaker, wp, bind, gets.
  destruct (breakers w !! aid); destruct (record_failure _ _); by apply HQ.
Qed.
Lemma breaker_admit_same aid w Q :
  (forall w', same_store w w' -> Q (Ret tt) w') ->
  (forall w' msg, same_store w w' -> Q (Exc (Exn CircuitOpen msg)) w') -> wp (breaker_admit aid) Q w.
Proof.
  intros HQ HQ'. unfold breaker_admit, get_breaker, wp, bind, gets.
  destruct (breakers w !! aid); destruct (cb_admit _ _) as [[[] b'] ts]; (by apply HQ) || by apply HQ'.
Qed.

Lemma wait_for_spec {A} timeout (m : M W A) w (Q : outcome A -> W -> Prop) (P : W -> Prop) :
  (forall w1 t, P w1 -> P (set_clock t w1)) ->
  wp m (fun r w' => P w' /\ Q r w') w ->
  (forall w', P w' -> Q (Exc (Exn TimeoutError "")) w') ->
  wp (wait_for timeout m) Q w.
Proof.
  intros Hclk Hm Ht. unfold wp, wait_for in *. destruct (m w) as [r w']; simpl in *.
  destruct Hm as [HP HQ]. destruct (negb _); simpl; [apply Ht; by apply Hclk|done].
Qed.
End World.
Arguments wait_for {S X A} _ _ _.
