(* ===== verification/Bus.v ===== *)
(** * The execution bus

    [AdapterDispatch] of [src/app/platform/bus.py]: the handler of one claimed
    [adapter-command] outbox row, from the claim to the finalised ledger
    state, with its recovery path, its readback and its failure path. *)

From Stdlib Require Import QArith Ascii.
From S2P Require Import Prelude Json Uuid Commands LedgerSpec Resilience Policy Safety Adapter.
From S2P Require Import Registry World.
Local Open Scope nat_scope.

(** an [OutboxRecord] of [src/app/storage.py] *)
Record OutboxRecord := {
  record_id : nat;
  record_tenant_id : string;
  record_destination : string;
  record_event_type : string;
  record_idempotency_key : string;
  record_payload : jdict;
  record_attempt_count : nat;
  record_fencing_token : Z;
}.

(** [command_type.split(".", 1)[0]] *)
Definition family_of (command_type : string) : string := before_char "." command_type.

(** [_campaign_id] *)
Definition campaign_id_of (payload : jdict) : option string := truthy_str (get_str "campaign_id" payload).

(** [_command_id_of] *)
Definition command_id_of (r : OutboxRecord) : option UUID :=
  raw ← get_str "command_id" (record_payload r); uuid_parse raw.

(** [AdapterDispatch._safe_reason] *)
Definition safe_reason (r : AdapterResult) : string :=
  let parts := option_list (truthy_str (res_safe_error_code r)) ++
               option_list (error_class_value <$> res_error_class r) in
  match parts with
  | [] => str_lower (outcome_value (res_outcome r))
  | _ => Json.join ":" parts
  end.

(** the result an exception of [execute] or [normalize_result] stands for *)
Definition exception_result (klass : ErrorClass) (e : exn) : AdapterResult :=
  match klass with
  | RETRYABLE_BEFORE_EFFECT => error_result TRANSIENT klass (exn_name e)
  | NON_RETRYABLE | ERR_UNSUPPORTED => error_result REJECTED klass (exn_name e)
  | PROVIDER_AUTH => error_result REJECTED klass "provider_auth_failed"
  | PROVIDER_RATE_LIMITED => error_result TRANSIENT klass "provider_rate_limited"
  | AMBIGUOUS => error_result UNKNOWN AMBIGUOUS (exn_name e)
  end.

(** the evidence a readback leaves in the ledger *)
Definition readback_evidence (rb : ReadbackResult) (provider : option string) : jdict :=
  dict_merge
    [("schema_version", JStr "1.0");
     ("status", JStr (str_lower (readback_value (rb_status rb))));
     ("provider_operation_id", jopt (str_or (rb_provider_operation_id rb) provider))]
    (redact_metadata (rb_evidence rb)).

(** what a readback that raised counts as *)
Definition unavailable (e : exn) : ReadbackResult := {|
  rb_status := UNAVAILABLE; rb_provider_operation_id := None; rb_evidence := [];
  rb_safe_error_code := Some (exn_name e) |}.

Section Bus.
Context {S X : Type} `{CommandStore S}.
Abbreviation W := (World S X).

(** ** [status_readback] *)

(** what a normalised status decides *)
Definition status_verdict (o : CommandOperation) (st : AdapterResult) (pending_is_unavailable : bool) :
    option ReadbackResult :=
  let named := truthy_str (res_provider_operation_id st) in
  let reference := str_or (res_provider_operation_id st) (op_provider_operation_id o) in
  if bool_decide (is_Some named) && negb (bool_decide (named = op_provider_operation_id o))
  then Some {| rb_status := MISMATCH; rb_provider_operation_id := res_provider_operation_id st;
               rb_evidence := []; rb_safe_error_code := Some "provider_reference_mismatch" |}
  else if pending_is_unavailable && bool_decide (res_outcome st = ACCEPTED)
  then Some {| rb_status := UNAVAILABLE; rb_provider_operation_id := reference;
               rb_evidence := [("provider_state", JStr "pending"); ("retry_hint", JStr "reconcile")];
               rb_safe_error_code := Some "provider_operation_pending" |}
  else if bool_decide (res_outcome st = REJECTED) || bool_decide (res_outcome st = CANCELLED)
  then Some {| rb_status := MISMATCH; rb_provider_operation_id := reference;
               rb_evidence := [("provider_state", JStr (str_lower (outcome_value (res_outcome st))))];
               rb_safe_error_code := str_or (res_safe_error_code st) (Some "provider_operation_failed") |}
  else None.

Definition status_readback (a : Adapter W) (o : CommandOperation) (ctx : AdapterContext)
    (pending_is_unavailable : bool) : M W (option ReadbackResult) :=
  if negb (supports_status (adapter_capabilities a) &&
           bool_decide (is_Some (truthy_str (op_provider_operation_id o))))
  then ret None
  else
  let! raw := wait_for (ctx_timeout_seconds ctx) (status a o ctx) in
  let! st := lift_outcome (normalize_result a raw) in
  ret (status_verdict o st pending_is_unavailable).

(** ** The dispatcher *)

Record AdapterDispatch := {
  d_settings : Settings;
  d_registry : AdapterRegistry W;
  d_bus : BusSettings;
  d_worker_id : string;
  (* what the other tasks do while this one waits for a bulkhead permit *)
  d_others : W -> W;
}.

Context (d : AdapterDispatch).

Definition timeout_for (o : Ownership) : Q :=
  default (default_timeout_seconds (d_bus d)) (dict_get (own_prefix o) (timeouts_by_prefix (d_bus d))).

Definition context (o : CommandOperation) (attempt : nat) (timeout : Q) (trace : option jdict)
    (payload : jdict) : M W AdapterContext :=
  let! g := gets safety in
  ret {| ctx_tenant_id := tenant_id (op_command o);
         ctx_command_id := uuid_str (command_id (op_command o));
         ctx_correlation_id := correlation_id (op_command o);
         ctx_attempt := attempt;
         ctx_timeout_seconds := timeout;
         ctx_environment := app_env (d_settings d);
         ctx_deployment_sha := source_sha (d_settings d);
         ctx_trace_context := default [] trace;
         ctx_test_syn := mem_string (tenant_id (op_command o)) (synthetic_tenants (sg_switches g));
         ctx_payload := payload |}.

(** [_record] *)
Definition record (o : DispatchOutcome) : M W DispatchOutcome :=
  modify (set_last (Some o)) ;;; ret o.

Definition advance (o : CommandOperation) (st : CommandState) (reason : string)
    (provider : option string) (evidence : option jdict) (attempt : option nat) : M W CommandOperation :=
  svc_transition (tenant_id (op_command o)) (command_id (op_command o)) st (d_worker_id d) reason
    provider evidence attempt.

Definition dead_letter (o : CommandOperation) (code class reason : string) (poisoned exhausted : bool) :
    M W unit :=
  svc_record_dead_letter (tenant_id (op_command o)) (command_id (op_command o)) code class reason
    poisoned exhausted ;;; ret tt.

(** [_fail] *)
Definition fail_ (o : CommandOperation) (reason : string) (attempt : option nat) (retryable : bool) :
    M W unit :=
  let poisoned := str_contains "poison" (str_lower reason) in
  let! current := svc_get (tenant_id (op_command o)) (command_id (op_command o)) in
  if state_in (op_state current) [persisted; queued] then
    if retryable then ret tt
    else
    when (bool_decide (op_state current = persisted))
      (advance o queued "claimed by execution bus" None None None ;;; ret tt) ;;;
    advance o dead_lettered reason None None None ;;;
    dead_letter o "terminal_failure" "non_retryable" reason poisoned false
  else
  advance o failed reason None None attempt ;;;
  if retryable
  then advance o queued "scheduled for a known-safe retry" None None None ;;; ret tt
  else dead_letter o "terminal_failure" "non_retryable" reason poisoned false.

(** the provider's answer to a readback; an exception counts as unavailable *)
Definition observe_readback (a : Adapter W) (o : CommandOperation) (ctx : AdapterContext) :
    M W ReadbackResult :=
  let! started := gets clock in
  finally_
    (try_ (let! sr := status_readback a o ctx true in
           match sr with
           | Some rb => ret rb
           | None => wait_for (ctx_timeout_seconds ctx) (readback a o ctx)
           end)
          (fun e => ret (unavailable e)))
    (observe "adapter_latency" [adapter_id a; "readback"] started).

(** the ledger's verdict on an observed readback *)
Definition conclude_readback (o : CommandOperation) (a : Adapter W) (attempt : nat)
    (rb : ReadbackResult) : M W (string * ReadbackResult) :=
  let family := family_of (command_type (op_command o)) in
  let aid := adapter_id a in
  let evidence := readback_evidence rb (op_provider_operation_id o) in
  match rb_status rb with
  | MATCHED =>
      advance o completed "provider read-back matched" (rb_provider_operation_id rb) (Some evidence)
        (Some attempt) ;;;
      inc "commands_completed" [family; aid] ;;;
      ret ("completed", rb)
  | MISMATCH =>
      advance o failed "provider read-back mismatch" None None (Some attempt) ;;;
      inc "adapter_failures" [aid; "readback"; "mismatch"] ;;;
      inc "commands_failed" [family; aid; "readback_mismatch"] ;;;
      ret ("failed", rb)
  | st =>
      advance o reconciliation_required ("provider read-back " +:+ str_lower (readback_value st)) None
        (Some evidence) (Some attempt) ;;;
      inc "adapter_failures" [aid; "readback"; str_lower (readback_value st)] ;;;
      inc "commands_reconciliation_required" [family; aid] ;;;
      record {| do_command_id := command_id (op_command o); do_attempt := Some attempt;
                final_state := "reconciliation_required"; effect_attempted := true;
                do_result := None; do_readback := Some rb |} ;;;
      raise UnknownOutcomeError ("readback " +:+ readback_value st)
  end.

(** [_readback] *)
Definition readback_ (o : CommandOperation) (a : Adapter W) (ctx : AdapterContext) (attempt : nat) :
    M W (string * ReadbackResult) :=
  let! o := advance o readback_pending "reading provider state back" None None (Some attempt) in
  inc "adapter_requests" [adapter_id a; "readback"] ;;;
  let! rb := observe_readback a o ctx in
  conclude_readback o a attempt rb.

(** the [TRANSIENT] branch of [_finalize] *)
Definition finalize_transient (o : CommandOperation) (a : Adapter W) (family : string) (attempt : nat)
    (ctx : AdapterContext) (result : AdapterResult) : M W DispatchOutcome :=
  let safe := safe_reason result in
  let aid := adapter_id a in
  let outcome st := {| do_command_id := command_id (op_command o); do_attempt := Some attempt;
    final_state := st; effect_attempted := false; do_result := Some result; do_readback := None |} in
  if (bus_max_attempts (d_bus d) <=? ctx_attempt ctx) then
    advance o failed safe None None (Some attempt) ;;;
    advance o dead_lettered "retry budget exhausted" None None None ;;;
    dead_letter o "retry_exhausted"
      (default "retryable" (error_class_value <$> res_error_class result)) safe false true ;;;
    inc "commands_failed" [family; aid; "dead_lettered"] ;;;
    inc "retry_exhaustions" [] ;;;
    record (outcome "dead_lettered") ;;;
    raise KnownSafeRetryError ("retry budget exhausted: " +:+ safe)
  else
    fail_ o safe (Some attempt) true ;;;
    record (outcome "queued") ;;;
    raise KnownSafeRetryError safe.

(** [_finalize] *)
Definition finalize (o : CommandOperation) (a : Adapter W) (family : string) (attempt : nat)
    (ctx : AdapterContext) (result : AdapterResult) : M W DispatchOutcome :=
  let safe := safe_reason result in
  let aid := adapter_id a in
  let cid := command_id (op_command o) in
  match res_outcome result with
  | ACCEPTED | COMPLETED =>
      breaker_success (d_bus d) aid ;;;
      let! o := advance o accepted
        ("provider acknowledged (" +:+ outcome_value (res_outcome result) +:+ ")")
        (res_provider_operation_id result) None (Some attempt) in
      let! x := readback_ o a ctx attempt in
      record {| do_command_id := cid; do_attempt := Some attempt; final_state := fst x;
                effect_attempted := true; do_result := Some result; do_readback := Some (snd x) |}
  | REJECTED =>
      breaker_failure (d_bus d) aid ;;;
      inc "adapter_failures" [aid; "execute"; "rejected"] ;;;
      fail_ o safe (Some attempt) false ;;;
      inc "commands_failed" [family; aid; "rejected"] ;;;
      record {| do_command_id := cid; do_attempt := Some attempt; final_state := "failed";
                effect_attempted := false; do_result := Some result; do_readback := None |}
  | TRANSIENT =>
      breaker_failure (d_bus d) aid ;;;
      inc "adapter_failures" [aid; "execute"; "transient"] ;;;
      finalize_transient o a family attempt ctx result
  | UNSUPPORTED =>
      breaker_failure (d_bus d) aid ;;;
      fail_ o "adapter does not support execute for this command" (Some attempt) false ;;;
      inc "commands_failed" [family; aid; "unsupported"] ;;;
      record {| do_command_id := cid; do_attempt := Some attempt; final_state := "failed";
                effect_attempted := false; do_result := Some result; do_readback := None |}
  | UNKNOWN | CANCELLED =>
      let reason := if str_nonempty safe then safe else "provider outcome unknown" in
      breaker_failure (d_bus d) aid ;;;
      inc "adapter_failures" [aid; "execute"; "unknown"] ;;;
      advance o reconciliation_required reason (res_provider_operation_id result) None (Some attempt) ;;;
      inc "commands_reconciliation_required" [family; aid] ;;;
      record {| do_command_id := cid; do_attempt := Some attempt;
                final_state := "reconciliation_required"; effect_attempted := true;
                do_result := Some result; do_readback := None |} ;;;
      raise UnknownOutcomeError reason
  end.

(** [_recover] *)
Definition recover (o : CommandOperation) (env : CommandEnvelope) (a : Adapter W) (timeout : Q)
    (trace : option jdict) : M W DispatchOutcome :=
  let! attempt := svc_latest_attempt (tenant_id (op_command o)) (command_id (op_command o)) in
  let! ctx := context o attempt timeout trace (env_payload env) in
  inc "lease_expirations" [] ;;;
  let! o := (if bool_decide (op_state o = dispatching)
             then advance o accepted
               "recovering an expired dispatch lease: reading provider state back" None None
               (Some attempt)
             else ret o) in
  let! x := readback_ o a ctx attempt in
  record {| do_command_id := command_id (op_command o); do_attempt := Some attempt;
            final_state := fst x; effect_attempted := false; do_result := None;
            do_readback := Some (snd x) |}.

(** the [try] around [execute]: a result, or a known-safe retry when the
    bulkhead rejected the call *)
Definition run_execute (o : CommandOperation) (env : CommandEnvelope) (a : Adapter W) (timeout : Q)
    (attempt : nat) (ctx : AdapterContext) : M W AdapterResult :=
  let aid := adapter_id a in
  let! started := gets clock in
  finally_
    (try_
      (let! raw := bulkhead_call (d_bus d) (d_others d) aid (wait_for timeout (execute a env ctx)) in
       lift_outcome (normalize_result a raw))
      (fun e =>
         if bool_decide (exn_cls e = BulkheadFull) then
           inc "bulkhead_rejections" [aid] ;;;
           fail_ o ("bulkhead saturated: " +:+ exn_msg e) (Some attempt) true ;;;
           raise KnownSafeRetryError (exn_msg e)
         else if isinstance e ["TimeoutError"]
         then ret (error_result UNKNOWN AMBIGUOUS "adapter_timeout")
         else ret (exception_result (classify_error a e) e)))
    (observe "adapter_latency" [aid; "execute"] started).

(** from an admitted operation to its finalisation: the attempt is opened in
    the ledger before provider code runs *)
Definition execute_attempt (o : CommandOperation) (env : CommandEnvelope) (a : Adapter W) (timeout : Q)
    (trace : option jdict) : M W DispatchOutcome :=
  let aid := adapter_id a in
  let! o := (if bool_decide (op_state o = persisted)
             then advance o queued "claimed by execution bus" None None None
             else ret o) in
  let! o := advance o dispatching ("attempt via adapter " +:+ aid) None None None in
  let! attempt := svc_latest_attempt (tenant_id (op_command o)) (command_id (op_command o)) in
  let! ctx := context o attempt timeout trace (env_payload env) in
  inc "adapter_requests" [aid; "execute"] ;;;
  inc "provider_effect_attempts" [aid] ;;;
  let! result := run_execute o env a timeout attempt ctx in
  finalize o a (family_of (env_command_type env)) attempt ctx result.

Definition subject_of (o : CommandOperation) (env : CommandEnvelope) : SafetySubject := {|
  sub_tenant_id := tenant_id (op_command o);
  sub_command_type := command_type (op_command o);
  sub_target := target (op_command o);
  sub_capability := capability (op_command o);
  sub_campaign_id := campaign_id_of (env_payload env);
  sub_correlation_id := correlation_id (op_command o) |}.

(** [self.safety.evaluate(..., consume_budget=False)] on the shared gate *)
Definition evaluate_safety (decision_id : string) (s : SafetySubject) (c : SafetyContext)
    (consume_budget : bool) : M W SafetyDecision := fun w =>
  let (dec, g) := safety_evaluate (clock w) decision_id s c consume_budget (safety w) in
  (Ret dec, set_safety g w).

(** readiness, safety and the breaker, in that order, before an attempt *)
Definition execute_gated (decision_id : string) (o : CommandOperation) (env : CommandEnvelope)
    (a : Adapter W) (timeout : Q) (outbox_attempt : nat) (trace : option jdict) : M W DispatchOutcome :=
  let aid := adapter_id a in
  let! rd :=
    try_ (let! ctx := context o outbox_attempt timeout trace (env_payload env) in
          wait_for timeout (readiness a ctx))
      (fun e => raise KnownSafeRetryError ("adapter readiness unavailable: " +:+ exn_name e)) in
  let! dec := evaluate_safety decision_id (subject_of o env)
    {| adapter_registered := true; adapter_ready := Some (ready rd);
       tenant_backlog := None; global_backlog := None |} false in
  if negb (sd_allow dec) then
    inc "safety_denials" [sd_reason_code dec] ;;;
    if String.eqb (sd_reason_code dec) "adapter_not_ready"
    then raise KnownSafeRetryError "adapter not ready"
    else
    fail_ o ("safety denied at execution: " +:+ sd_reason_code dec) None false ;;;
    record {| do_command_id := command_id (op_command o); do_attempt := None; final_state := "failed";
              effect_attempted := false; do_result := None; do_readback := None |}
  else
  catch_ (fun e => bool_decide (exn_cls e = CircuitOpen)) (breaker_admit (d_bus d) aid)
    (fun e => inc "adapter_failures" [aid; "execute"; "circuit_open"] ;;;
              raise KnownSafeRetryError (exn_msg e)) ;;;
  execute_attempt o env a timeout trace.

(** [dispatch] *)
Definition dispatch (decision_id : string) (t : string) (c : UUID) (outbox_attempt : nat)
    (trace : option jdict) : M W DispatchOutcome :=
  let outcome st := {| do_command_id := c; do_attempt := None; final_state := st;
    effect_attempted := false; do_result := None; do_readback := None |} in
  let! found := catch_ (fun e => bool_decide (exn_cls e = CommandNotFound))
    (let! o := svc_get t c in ret (Some o)) (fun _ => ret None) in
  match found with
  | None => record (outcome "missing")
  | Some o =>
      if state_in (op_state o) [completed; failed; dead_lettered; cancelled]
      then record (outcome (state_name (op_state o)))
      else
      let! env := svc_load_envelope t c in
      match ownership (d_registry d) (env_command_type env) with
      | None =>
          fail_ o "no adapter owns this command" None false ;;;
          record (outcome "failed")
      | Some own =>
          let! a := lift_outcome (adapter (d_registry d) (own_adapter_id own)) in
          if negb (mem_string (env_target env) (adv_connector_ids (adapter_capabilities a))) then
            fail_ o "connector unavailable for adapter" None false ;;;
            record (outcome "failed")
          else
          let timeout := timeout_for own in
          if state_in (op_state o) [dispatching; accepted; readback_pending]
          then recover o env a timeout trace
          else execute_gated decision_id o env a timeout outbox_attempt trace
      end
  end.

(** [__call__] *)
Definition handle (decision_id : string) (r : OutboxRecord) : M W unit :=
  if negb (String.eqb (record_destination r) ADAPTER_COMMAND_DESTINATION)
  then raise KnownSafeRetryError ("unexpected destination " +:+ record_destination r)
  else match command_id_of r with
  | None => ret tt
  | Some c =>
      let trace := match dict_get "_trace" (record_payload r) with Some (JObj tr) => Some tr | _ => None end in
      dispatch decision_id (record_tenant_id r) c (record_attempt_count r) trace ;;;
      ret tt
  end.
End Bus.
Arguments AdapterDispatch S X : clear implicits.
