(* ===== verification/BusFacts.v ===== *)
(** * What one dispatch does to the ledger

    The execution bus proved against any store that satisfies [LedgerLaws] and
    any adapter that leaves the leased operation to the worker holding it. *)

From Stdlib Require Import QArith.
From S2P Require Import Prelude Json Uuid Commands LedgerSpec Resilience Policy Safety Adapter.
From S2P Require Import Registry World Bus.
Local Open Scope nat_scope.

(** ** The contract of the bus

    The table of the module: which ledger state a readback and an outcome
    settle in, and how the outbox handler ends. *)

Inductive Verdict := v_done | v_retry | v_unknown.

Definition readback_settles (s : ReadbackStatus) : CommandState * Verdict :=
  match s with
  | MATCHED => (completed, v_done)
  | MISMATCH => (failed, v_done)
  | NOT_FOUND | UNAVAILABLE | RB_UNSUPPORTED => (reconciliation_required, v_unknown)
  end.

(** the view once the provider acknowledged and the readback started *)
Definition acknowledge (v : OpView) (provider : option string) : OpView :=
  restate (moved v accepted provider None) readback_pending.

(** the view after a readback *)
Definition conclude (v : OpView) (rb : ReadbackResult) : OpView :=
  moved v (fst (readback_settles (rb_status rb)))
    (match rb_status rb with MATCHED => rb_provider_operation_id rb | _ => None end)
    (match rb_status rb with
     | MISMATCH => None
     | _ => Some (readback_evidence rb (v_provider v))
     end).

(** a permanent failure: dead-lettered straight from the queue, failed once an
    attempt was opened *)
Definition refuse (v : OpView) : OpView :=
  with_dead_letter
    (restate v (if state_in (v_state v) [persisted; queued] then dead_lettered else failed)).

Section BusFacts.
Context {S X : Type} `{LedgerLaws S}.
Abbreviation W := (World S X).
Context (d : AdapterDispatch S X).
Implicit Types (w : W) (a : Adapter W).

(** the call leaves the operation [k] and the store's invariant alone *)
Definition leaves (k : Key) {A} (m : M W A) : Prop := forall v, preserves (at_view k v) m.

(** an adapter that does not write the operation its kernel is dispatching *)
Record quiet (k : Key) (a : Adapter W) : Prop := {
  quiet_readiness : forall c, leaves k (readiness a c);
  quiet_execute : forall e c, leaves k (execute a e c);
  quiet_status : forall o c, leaves k (status a o c);
  quiet_readback : forall o c, leaves k (readback a o c);
  quiet_reconcile : forall o c, leaves k (adapter_reconcile a o c);
  quiet_cancel : forall o c, leaves k (adapter_cancel a o c);
}.

(** ** Calls that leave the operation *)

Lemma wp_leaves {A} k v (m : M W A) w Q :
  leaves k m -> at_view k v w -> (forall r w', at_view k v w' -> Q r w') -> wp m Q w.
Proof. intros Hm Hw HQ. apply HQ, Hm, Hw. Qed.

Lemma leaves_wait_for {A} k t (m : M W A) : leaves k m -> leaves k (wait_for t m).
Proof.
  intros Hm v w Hw. unfold wait_for. specialize (Hm v w Hw).
  destruct (m w) as [r w']. by destruct (negb _).
Qed.

Lemma leaves_same {A} k (m : M W A) : (forall w, store (snd (m w)) = store w) -> leaves k m.
Proof. intros Hs v w Hw. eapply at_view_same; [|exact Hw]. apply Hs. Qed.

Lemma leaves_bulkhead_do k aid e : leaves k (bulkhead_do aid e).
Proof. apply leaves_same. intros w. unfold bulkhead_do, modify. simpl. by repeat case_match. Qed.

Lemma leaves_bulkhead_call {A} k bus others aid (m : M W A) :
  (forall v w, at_view k v w -> at_view k v (others w)) -> leaves k m ->
  leaves k (bulkhead_call bus others aid m).
Proof.
  intros Ho Hm v. unfold bulkhead_call. apply preserves_bind.
  { apply leaves_same. intros w. unfold get_bulkhead. by repeat case_match. }
  intros b. apply preserves_bind; [apply leaves_bulkhead_do|]. intros _.
  apply preserves_bind; [apply preserves_when, preserves_modify, Ho|]. intros _.
  apply preserves_bind; [apply preserves_gets|]. intros w.
  destruct (bulkheads w !! aid) as [b'|]; [|apply preserves_raise].
  destruct (permits b' =? 0)%nat.
  - destruct (wait_timeout b');
      (apply preserves_bind; [apply leaves_bulkhead_do|intros _; apply preserves_raise]).
  - apply preserves_bind; [apply leaves_bulkhead_do|]. intros _.
    apply preserves_finally; [apply Hm|apply leaves_bulkhead_do].
Qed.

Lemma leaves_status_readback k a o ctx p : quiet k a -> leaves k (status_readback a o ctx p).
Proof.
  intros Hq v. unfold status_readback. destruct (negb _); [apply preserves_ret|].
  apply preserves_bind; [apply leaves_wait_for, quiet_status, Hq|]. intros raw.
  apply preserves_bind; [apply preserves_lift|]. intros st. apply preserves_ret.
Qed.

Lemma leaves_observe_readback k a o ctx : quiet k a -> leaves k (observe_readback a o ctx).
Proof.
  intros Hq v. unfold observe_readback. apply preserves_bind; [apply preserves_gets|]. intros t.
  apply preserves_finally; [|by apply leaves_same].
  apply preserves_try; [|intros e; apply preserves_ret].
  apply preserves_bind; [by apply leaves_status_readback|]. intros [rb|]; [apply preserves_ret|].
  apply leaves_wait_for, quiet_readback, Hq.
Qed.

(** an observed readback raises only what no [except Exception] catches *)
Lemma observe_readback_raises a o ctx w e w' :
  observe_readback a o ctx w = (Exc e, w') -> is_exception e = false.
Proof.
  unfold observe_readback, bind at 1, gets, finally_, try_, catch_, observe, modify.
  destruct (bind _ _ w) as [[rb|e'] w1]; [done|].
  destruct (is_exception e') eqn:He; simpl; [done|]. by intros [= <- _].
Qed.

(** the adapter's status surface never proves a match *)
Lemma status_verdict_not_matched o st p rb : status_verdict o st p = Some rb -> rb_status rb <> MATCHED.
Proof. unfold status_verdict. intros Hv. repeat case_match; simplify_eq/=; done. Qed.

(** a matched readback is the adapter's own answer to [readback] *)
Lemma observe_readback_matched a o ctx w rb w' :
  observe_readback a o ctx w = (Ret rb, w') -> rb_status rb = MATCHED ->
  exists w1 w2, readback a o ctx w1 = (Ret rb, w2).
Proof.
  unfold observe_readback, bind at 1, gets, finally_, try_, catch_, observe, modify.
  unfold bind. destruct (status_readback a o ctx true w) as [[[rb0|]|e] w1] eqn:Hs; simpl.
  - intros [= <- <-] Hm. exfalso. unfold status_readback in Hs. destruct (negb _); [done|].
    apply bind_Ret_inv in Hs as (raw & w3 & _ & Hs). apply bind_Ret_inv in Hs as (st & w4 & _ & Hs).
    injection Hs as Hs _. by apply status_verdict_not_matched in Hs.
  - unfold wait_for. destruct (readback a o ctx w1) as [[rb1|e1] w2] eqn:Hr; destruct (negb _); simpl.
    1,3: intros [= <- <-]; done.
    + intros [= <- <-] _. eauto.
    + destruct (is_exception e1); simpl; [intros [= <- <-]; done|done].
  - destruct (is_exception e); simpl; [intros [= <- <-]; done|done].
Qed.

(** ** Steps of the dispatcher *)

(** [o] is the operation [v] shows *)
Definition owned (k : Key) (o : CommandOperation) (v : OpView) (w : W) : Prop :=
  at_view k v w /\ op_command o = identity_of (v_env v).

Lemma owned_key k o v w :
  owned k o v w -> k = (tenant_id (op_command o), command_id (op_command o)).
Proof. intros [Hw ->]. by apply at_view_env in Hw. Qed.

Lemma owned_same k o v w w' : same_store w w' -> owned k o v w -> owned k o v w'.
Proof. intros Hs [Hw Ho]. split; [by eapply at_view_same|done]. Qed.

Lemma owned_at k o v v' w w' : owned k o v w -> at_view k v' w' -> v_env v' = v_env v -> owned k o v' w'.
Proof. intros [_ Ho] Hw' He. split; [done|]. by rewrite He. Qed.

Lemma matches_owned k o v w : at_view k v w -> op_matches o v -> owned k o v w.
Proof. intros Hw (Ho & _). by split. Qed.

(** one transition along an edge *)
Lemma wp_advance k o v w st reason p e n Q :
  owned k o v w ->
  state_in st (ALLOWED_COMMAND_TRANSITIONS (v_state v)) = true ->
  match e with Some _ => state_in st [completed; reconciliation_required] = true | None => True end ->
  match n with Some n => n = v_attempts v | None => True end ->
  (forall o' w', op_matches o' (moved v st p e) -> owned k o' (moved v st p e) w' -> Q (Ret o') w') ->
  wp (advance d o st reason p e n) Q w.
Proof.
  intros Ho Hst He Hn HQ. pose proof (owned_key _ _ _ _ Ho) as ->. destruct Ho as [Hw Ho].
  eapply wp_transition; [done|by apply spec_transition_ok|].
  intros o' s' Hm Hw'. apply HQ; [done|by apply matches_owned].
Qed.

Lemma wp_dead_letter k o v w code class reason poisoned exhausted Q :
  owned k o v w ->
  (forall w', at_view k (with_dead_letter v) w' -> Q (Ret tt) w') ->
  wp (dead_letter o code class reason poisoned exhausted) Q w.
Proof.
  intros Ho HQ. pose proof (owned_key _ _ _ _ Ho) as ->. destruct Ho as [Hw Ho].
  apply wp_bind. eapply wp_record_dead_letter; [done|]. intros r s' Hw'. by apply HQ.
Qed.

Lemma wp_context k o v w n t tr p Q :
  owned k o v w ->
  (forall ctx, ctx_attempt ctx = n -> Q (Ret ctx) w) -> wp (context d o n t tr p) Q w.
Proof. intros _ HQ. by apply HQ. Qed.

(** [_fail]: a permanent failure refuses, a retryable one requeues *)
Lemma wp_fail k o v w reason n (retryable : bool) Q :
  owned k o v w ->
  state_in (v_state v) [persisted; queued; dispatching; readback_pending] = true ->
  match n with Some n => n = v_attempts v | None => True end ->
  (forall w', at_view k
     (if retryable
      then if state_in (v_state v) [persisted; queued] then v else restate v queued
      else refuse v) w' -> Q (Ret tt) w') ->
  wp (fail_ d o reason n retryable) Q w.
Proof.
  intros Ho Hst Hn HQ. unfold fail_. pose proof (owned_key _ _ _ _ Ho) as ->. apply wp_bind.
  destruct Ho as [Hw Ho]. eapply wp_get; [done|]. intros cur Hm.
  pose proof Hm as (_ & -> & _).
  destruct (state_in (v_state v) [persisted; queued]) eqn:Hq.
  - destruct retryable; [by apply wp_ret, HQ|]. unfold refuse in HQ. rewrite Hq in HQ.
    apply wp_bind.
    assert (Hmid : forall w1 v1, owned (tenant_id (op_command o), command_id (op_command o)) o v1 w1 ->
      v1 = restate v queued ->
      wp (advance d o dead_lettered reason None None None ;;;
          dead_letter o "terminal_failure" "non_retryable" reason
            (str_contains "poison" (str_lower reason)) false) Q w1).
    { intros w1 v1 Ho1 ->. apply wp_bind. eapply wp_advance; [done|done|done|done|].
      intros o2 w2 _ Ho2. eapply wp_dead_letter; [by eapply owned_at; [|apply Ho2|]|].
      intros w3 Hw3. apply HQ. rewrite moved_restate in Hw3 by done. done. }
    case_bool_decide as Hp; cbn [when].
    + apply wp_bind. eapply wp_advance; [by split|by rewrite Hp|done|done|].
      intros o1 w1 _ Ho1. rewrite moved_restate in Ho1 by done. apply wp_ret. eapply Hmid; [|done].
      by eapply owned_at; [split|apply Ho1|].
    + apply wp_ret. eapply Hmid; [by split|]. destruct v as [? []]; try done.
  - apply wp_bind. eapply wp_advance; [by split|by destruct (v_state v)|done|done|].
    intros o1 w1 _ Ho1. rewrite moved_restate in Ho1 by done.
    assert (Ho' : owned (tenant_id (op_command o), command_id (op_command o)) o (restate v failed) w1)
      by (by eapply owned_at; [split|apply Ho1|]).
    destruct retryable.
    + apply wp_bind. eapply wp_advance; [done|done|done|done|]. intros o2 w2 _ Ho2.
      rewrite moved_restate in Ho2 by done. apply wp_ret, HQ, Ho2.
    + eapply wp_dead_letter; [done|]. intros w2 Hw2. apply HQ. unfold refuse. by rewrite Hq.
Qed.

(** ** The readback *)

(** [rb] is what the adapter answered about the operation [v] shows *)
Definition observed (a : Adapter W) (v : OpView) (rb : ReadbackResult) : Prop :=
  exists o ctx w1 w2, op_matches o v /\ observe_readback a o ctx w1 = (Ret rb, w2).

(** how a readback started at [v] ends *)
Inductive read_back (a : Adapter W) (v : OpView) : outcome (string * ReadbackResult) -> OpView -> Prop :=
  | rbk_done rb : observed a v rb -> snd (readback_settles (rb_status rb)) = v_done ->
      read_back a v (Ret (state_name (fst (readback_settles (rb_status rb))), rb)) (conclude v rb)
  | rbk_unknown rb msg : observed a v rb -> snd (readback_settles (rb_status rb)) = v_unknown ->
      read_back a v (Exc (Exn UnknownOutcomeError msg)) (conclude v rb)
  | rbk_interrupted e : is_exception e = false -> read_back a v (Exc e) v.

Ltac quiet_step :=
  apply wp_bind;
  first [ apply inc_same | apply observe_same | apply breaker_success_same | apply breaker_failure_same ];
  let w' := fresh "w" in let Hs := fresh "Hs" in intros w' Hs;
  repeat match goal with
  | Ho : owned _ _ _ ?w, Hs : same_store ?w w' |- _ =>
      let Ho' := fresh "Ho" in pose proof (owned_same _ _ _ _ _ Hs Ho) as Ho'; clear Ho
  | Hw : at_view _ _ ?w, Hs : same_store ?w w' |- _ =>
      let Hw' := fresh "Hw" in pose proof (at_view_same _ _ _ _ Hs Hw) as Hw'; clear Hw
  end; clear Hs.

(** the view of an owned operation in the current world *)
Ltac the_view := match goal with Ho : owned _ _ _ ?w |- at_view _ _ ?w => exact (proj1 Ho) end.

Lemma wp_record k v w out Q :
  at_view k v w -> (forall w', at_view k v w' -> Q (Ret out) w') -> wp (record out) Q w.
Proof. intros Hw HQ. by apply HQ. Qed.

Lemma conclude_readback_wp k o v w a n rb Q :
  owned k o v w -> op_matches o v -> v_state v = readback_pending -> v_attempts v = n -> observed a v rb ->
  (forall r v' w', read_back a v r v' -> at_view k v' w' -> Q r w') ->
  wp (conclude_readback d o a n rb) Q w.
Proof.
  intros Ho Hm Hst <- Hobs HQ. unfold conclude_readback.
  destruct Hm as (_ & _ & Hprov & _).
  assert (Hdone : forall w' x, at_view k (conclude v rb) w' ->
    snd (readback_settles (rb_status rb)) = v_done ->
    x = (state_name (fst (readback_settles (rb_status rb))), rb) -> Q (Ret x) w').
  { intros w' x Hw' Hd ->. eapply HQ; [by apply rbk_done|done]. }
  assert (Hunk : forall w' msg, at_view k (conclude v rb) w' ->
    snd (readback_settles (rb_status rb)) = v_unknown -> Q (Exc (Exn UnknownOutcomeError msg)) w').
  { intros w' msg Hw' Hd. eapply HQ; [by apply rbk_unknown|done]. }
  assert (Hc : conclude v rb = moved v (fst (readback_settles (rb_status rb)))
    (match rb_status rb with MATCHED => rb_provider_operation_id rb | _ => None end)
    (match rb_status rb with MISMATCH => None
     | _ => Some (readback_evidence rb (op_provider_operation_id o)) end)) by (by rewrite Hprov).
  destruct (rb_status rb) eqn:Hrb; cbn [fst readback_settles] in Hc; rewrite Hc in Hdone, Hunk;
    (apply wp_bind; eapply wp_advance; [done|by rewrite Hst|done|done|]);
    intros o' w' _ Ho'; repeat quiet_step.
  1,2: by apply wp_ret, Hdone; [the_view|..].
  all: apply wp_bind; eapply wp_record; [the_view|]; intros w2 Hw2; by apply wp_raise, Hunk.
Qed.

(** [_readback] from an acknowledged operation *)
Lemma readback_wp k o v w a ctx n Q :
  quiet k a -> owned k o v w -> v_state v = accepted -> v_attempts v = n ->
  (forall r v' w', read_back a (restate v readback_pending) r v' -> at_view k v' w' -> Q r w') ->
  wp (readback_ d o a ctx n) Q w.
Proof.
  intros Hq Ho Hst <- HQ. unfold readback_. apply wp_bind.
  eapply wp_advance; [done|by rewrite Hst|done|done|]. intros o1 w1 Hm1 Ho1.
  rewrite moved_restate in Hm1, Ho1 by done. quiet_step. apply wp_bind.
  destruct (observe_readback a o1 ctx w0) as [r w2] eqn:Hobs.
  eapply wp_run; [exact Hobs|].
  assert (Hw2 : at_view k (restate v readback_pending) w2).
  { replace w2 with (snd (observe_readback a o1 ctx w0)) by (by rewrite Hobs).
    apply leaves_observe_readback; [done|apply Ho0]. }
  destruct r as [rb|e].
  - eapply conclude_readback_wp; [by apply matches_owned|done|done|done| |exact HQ].
    by exists o1, ctx, w0, w2.
  - eapply HQ; [|exact Hw2]. apply rbk_interrupted. by eapply observe_readback_raises.
Qed.

(** ** The finalisation *)

(** how [_finalize] of [result] ends, from the attempt's view [v] *)
Inductive settled (a : Adapter W) (v : OpView) (result : AdapterResult) (exhausted : bool) :
    outcome DispatchOutcome -> OpView -> Prop :=
  | st_done out st rb v' : acknowledged result = true ->
      read_back a (acknowledge v (res_provider_operation_id result)) (Ret (st, rb)) v' ->
      final_state out = st -> effect_attempted out = true -> do_readback out = Some rb ->
      do_result out = Some result -> settled a v result exhausted (Ret out) v'
  | st_unread e v' : acknowledged result = true ->
      read_back a (acknowledge v (res_provider_operation_id result)) (Exc e) v' ->
      settled a v result exhausted (Exc e) v'
  | st_refused out : res_outcome result ∈ [REJECTED; UNSUPPORTED] ->
      final_state out = "failed" -> effect_attempted out = false -> do_readback out = None ->
      do_result out = Some result -> settled a v result exhausted (Ret out) (refuse v)
  | st_exhausted msg : res_outcome result = TRANSIENT -> exhausted = true ->
      settled a v result exhausted (Exc (Exn KnownSafeRetryError msg))
        (with_dead_letter (restate v dead_lettered))
  | st_requeued msg : res_outcome result = TRANSIENT -> exhausted = false ->
      settled a v result exhausted (Exc (Exn KnownSafeRetryError msg)) (restate v queued)
  | st_unknown msg : res_outcome result ∈ [UNKNOWN; CANCELLED] ->
      settled a v result exhausted (Exc (Exn UnknownOutcomeError msg))
        (moved v reconciliation_required (res_provider_operation_id result) None).

Lemma finalize_transient_wp k o v w a fam n ctx result Q :
  owned k o v w -> v_state v = dispatching -> v_attempts v = n -> res_outcome result = TRANSIENT ->
  (forall r v' w', settled a v result (bus_max_attempts (d_bus d) <=? ctx_attempt ctx) r v' ->
     at_view k v' w' -> Q r w') ->
  wp (finalize_transient d o a fam n ctx result) Q w.
Proof.
  intros Ho Hst <- Hout HQ. unfold finalize_transient.
  destruct (bus_max_attempts (d_bus d) <=? ctx_attempt ctx) eqn:Hex.
  - apply wp_bind. eapply wp_advance; [done|by rewrite Hst|done|done|]. intros o1 w1 _ Ho1.
    apply wp_bind. eapply wp_advance; [by eapply owned_at; [|apply Ho1|]|done|done|done|].
    intros o2 w2 _ Ho2. apply wp_bind.
    eapply wp_dead_letter; [by eapply owned_at; [exact Ho|apply Ho2|]|]. intros w3 Hw3.
    repeat quiet_step. apply wp_bind. eapply wp_record; [done|]. intros w5 Hw5. apply wp_raise.
    eapply HQ; [by apply st_exhausted|]. by rewrite !moved_restate in Hw5 by done.
  - apply wp_bind. eapply wp_fail; [done|by rewrite Hst|done|]. intros w1 Hw1. rewrite Hst in Hw1.
    apply wp_bind. eapply wp_record; [done|]. intros w2 Hw2. apply wp_raise.
    eapply HQ; [by apply st_requeued|done].
Qed.

Lemma finalize_wp k o v w a fam n ctx result Q :
  quiet k a -> owned k o v w -> v_state v = dispatching -> v_attempts v = n ->
  (forall r v' w', settled a v result (bus_max_attempts (d_bus d) <=? ctx_attempt ctx) r v' ->
     at_view k v' w' -> Q r w') ->
  wp (finalize d o a fam n ctx result) Q w.
Proof.
  intros Hq Ho Hst Hn HQ. unfold finalize.
  assert (Hack : acknowledged result = true ->
    wp (breaker_success (d_bus d) (adapter_id a) ;;;
        let! o' := advance d o accepted
          ("provider acknowledged (" +:+ outcome_value (res_outcome result) +:+ ")")
          (res_provider_operation_id result) None (Some n) in
        let! x := readback_ d o' a ctx n in
        record {| do_command_id := command_id (op_command o); do_attempt := Some n;
          final_state := fst x; effect_attempted := true; do_result := Some result;
          do_readback := Some (snd x) |}) Q w).
  { intros Hack. quiet_step. apply wp_bind.
    eapply wp_advance; [done|by rewrite Hst|done|by rewrite Hn|]. intros o1 w1 _ Ho1. apply wp_bind.
    eapply readback_wp; [done|done|done|exact Hn|]. intros r v' w2 Hrb Hw2.
    destruct r as [[st rb]|e].
    - eapply wp_record; [done|]. intros w3 Hw3. eapply HQ; [|done]. by eapply st_done.
    - eapply HQ; [|done]. by apply st_unread. }
  assert (Hunk : res_outcome result ∈ [UNKNOWN; CANCELLED] -> forall reason,
    wp (breaker_failure (d_bus d) (adapter_id a) ;;;
        inc "adapter_failures" [adapter_id a; "execute"; "unknown"] ;;;
        advance d o reconciliation_required reason (res_provider_operation_id result) None (Some n) ;;;
        inc "commands_reconciliation_required" [fam; adapter_id a] ;;;
        record {| do_command_id := command_id (op_command o); do_attempt := Some n;
          final_state := "reconciliation_required"; effect_attempted := true;
          do_result := Some result; do_readback := None |} ;;;
        raise UnknownOutcomeError reason) Q w).
  { intros Hin reason. repeat quiet_step. apply wp_bind.
    eapply wp_advance; [done|by rewrite Hst|done|by rewrite Hn|]. intros o1 w2 _ Ho2.
    quiet_step. apply wp_bind. eapply wp_record; [the_view|]. intros w4 Hw4. apply wp_raise.
    eapply HQ; [by apply st_unknown|done]. }
  destruct (res_outcome result) eqn:Hout.
  - apply Hack. unfold acknowledged. by rewrite Hout.
  - apply Hack. unfold acknowledged. by rewrite Hout.
  - repeat quiet_step. apply wp_bind. eapply wp_fail; [done|by rewrite Hst|by rewrite Hn|].
    intros w2 Hw2. quiet_step. eapply wp_record; [done|]. intros w4 Hw4.
    eapply HQ; [|done]. apply st_refused; try done. rewrite Hout. set_solver.
  - repeat quiet_step. by eapply finalize_transient_wp.
  - apply Hunk. set_solver.
  - apply Hunk. set_solver.
  - quiet_step. apply wp_bind. eapply wp_fail; [done|by rewrite Hst|by rewrite Hn|].
    intros w2 Hw2. quiet_step. eapply wp_record; [done|]. intros w4 Hw4.
    eapply HQ; [|done]. apply st_refused; try done. rewrite Hout. set_solver.
Qed.

(** ** One dispatch *)

(** the provider itself acknowledged *)
Definition answered (a : Adapter W) (env : CommandEnvelope) (result : AdapterResult) : Prop :=
  exists ctx w1 w2 raw, execute a env ctx w1 = (Ret raw, w2) /\ normalize_result a raw = Ret result.

(** how the [try] around [execute] ends *)
Inductive ran (a : Adapter W) (env : CommandEnvelope) (v : OpView) : outcome AdapterResult -> OpView -> Prop :=
  | ran_result result : (acknowledged result = true -> answered a env result) ->
      ran a env v (Ret result) v
  | ran_saturated msg : ran a env v (Exc (Exn KnownSafeRetryError msg)) (restate v queued)
  | ran_interrupted e : is_exception e = false -> ran a env v (Exc e) v.

Lemma exception_result_not_acknowledged c e : acknowledged (exception_result c e) = false.
Proof. by destruct c. Qed.

Lemma bulkhead_call_answer {A} bus others aid (m : M W A) w x w' :
  bulkhead_call bus others aid m w = (Ret x, w') -> exists w1 w2, m w1 = (Ret x, w2).
Proof.
  unfold bulkhead_call. intros Hr. apply bind_Ret_inv in Hr as (b & w1 & _ & Hr).
  apply bind_Ret_inv in Hr as ([] & w2 & _ & Hr). apply bind_Ret_inv in Hr as ([] & w3 & _ & Hr).
  apply bind_Ret_inv in Hr as (w4 & w5 & _ & Hr).
  destruct (bulkheads w4 !! aid) as [b'|]; [|done]. destruct (permits b' =? 0)%nat.
  { destruct (wait_timeout b'); by apply bind_Ret_inv in Hr as (? & ? & _ & Hr). }
  apply bind_Ret_inv in Hr as ([] & w6 & _ & Hr). unfold finally_ in Hr.
  destruct (m w6) as [[y|e] w7] eqn:Hm.
  - exists w6, w7. destruct (bulkhead_do aid bh_exit w7) as [[[]|e] w8]; by simplify_eq/=.
  - destruct (bulkhead_do aid bh_exit w7) as [[[]|e'] w8]; by simplify_eq/=.
Qed.

Lemma wait_for_answer {A} t (m : M W A) w x w' :
  wait_for t m w = (Ret x, w') -> m w = (Ret x, w').
Proof. unfold wait_for. destruct (m w) as [r w1]. by destruct (negb _); intros [= -> ->]. Qed.

Context (others_leave : forall k v w, at_view k v w -> at_view k v (d_others d w)).

Lemma run_execute_wp k o v w env a t n ctx Q :
  quiet k a -> owned k o v w -> v_state v = dispatching -> v_attempts v = n ->
  (forall r v' w', ran a env v r v' -> at_view k v' w' -> Q r w') ->
  wp (run_execute d o env a t n ctx) Q w.
Proof.
  intros Hq Ho Hst Hn HQ. unfold run_execute. apply wp_bind, wp_gets, wp_finally, wp_try.
  set (body := bind _ _).
  assert (Hbody : leaves k body).
  { intros u. apply preserves_bind.
    - apply leaves_bulkhead_call; [by apply others_leave|]. apply leaves_wait_for, Hq.
    - intros raw. apply preserves_lift. }
  destruct (body w) as [r w1] eqn:Hrun. eapply wp_run; [exact Hrun|].
  assert (Hw1 : at_view k v w1).
  { replace w1 with (snd (body w)) by (by rewrite Hrun). apply Hbody, Ho. }
  assert (Ho1 : owned k o v w1) by (split; [done|apply Ho]).
  destruct r as [result|e].
  - apply observe_same. intros w2 Hs. eapply HQ; [|by eapply at_view_same].
    apply ran_result. intros _. unfold body in Hrun.
    apply bind_Ret_inv in Hrun as (raw & w3 & Hcall & Hnorm).
    apply bulkhead_call_answer in Hcall as (w4 & w5 & Hcall). apply wait_for_answer in Hcall.
    injection Hnorm as Hnorm _. by exists ctx, w4, w5, raw.
  - destruct (is_exception e) eqn:He.
    2: { apply observe_same. intros w2 Hs. eapply HQ; [|by eapply at_view_same]. by apply ran_interrupted. }
    case_bool_decide.
    { quiet_step. apply wp_bind. eapply wp_fail; [done|by rewrite Hst|by rewrite Hn|].
      intros w3 Hw3. rewrite Hst in Hw3. apply wp_raise, observe_same. intros w4 Hs.
      eapply HQ; [by apply ran_saturated|by eapply at_view_same]. }
    destruct (isinstance e _); apply wp_ret, observe_same; intros w2 Hs;
      (eapply HQ; [|by eapply at_view_same]); apply ran_result; [done|].
    by rewrite exception_result_not_acknowledged.
Qed.

(** [a] is the registered adapter that owns the operation's command and
    claims its target *)
Definition serves (a : Adapter W) (v : OpView) : Prop :=
  exists own, ownership (d_registry d) (env_command_type (v_env v)) = Some own /\
    adapter (d_registry d) (own_adapter_id own) = Ret a /\
    env_target (v_env v) ∈ adv_connector_ids (adapter_capabilities a).

(** how one dispatch of an operation seen at [v] ends *)
Inductive dispatched (v : OpView) : outcome DispatchOutcome -> OpView -> Prop :=
  | dd_terminal out : v_state v ∈ [completed; failed; dead_lettered; cancelled] ->
      final_state out = state_name (v_state v) -> do_readback out = None ->
      dispatched v (Ret out) v
  | dd_refused out : v_state v ∈ [persisted; queued; dispatching; readback_pending] ->
      final_state out = "failed" -> do_readback out = None -> effect_attempted out = false ->
      dispatched v (Ret out) (refuse v)
  | dd_backoff msg : v_state v ∈ [persisted; queued; reconciliation_required] ->
      dispatched v (Exc (Exn KnownSafeRetryError msg)) v
  | dd_conflict msg : v_state v ∈ [accepted; readback_pending; reconciliation_required] ->
      dispatched v (Exc (Exn CommandConflict msg)) v
  | dd_recovered a x v' out : serves a v -> v_state v ∈ [dispatching; accepted] ->
      read_back a (restate v readback_pending) (Ret x) v' ->
      final_state out = fst x -> do_readback out = Some (snd x) -> effect_attempted out = false ->
      dispatched v (Ret out) v'
  | dd_unrecovered a e v' : serves a v -> v_state v ∈ [dispatching; accepted] ->
      read_back a (restate v readback_pending) (Exc e) v' -> dispatched v (Exc e) v'
  | dd_executed a result r v' : serves a v -> v_state v ∈ [persisted; queued] ->
      (acknowledged result = true -> answered a (v_env v) result) ->
      settled a (moved v dispatching None None) result
        (bus_max_attempts (d_bus d) <=? v_attempts (moved v dispatching None None)) r v' -> dispatched v r v'
  | dd_saturated msg : v_state v ∈ [persisted; queued] ->
      dispatched v (Exc (Exn KnownSafeRetryError msg)) (restate (moved v dispatching None None) queued)
  | dd_interrupted e v' : is_exception e = false -> v_state v ∈ [persisted; queued; reconciliation_required] ->
      v' = v \/ v_state v <> reconciliation_required /\ v' = moved v dispatching None None ->
      dispatched v (Exc e) v'.

(** [_fail] where the ledger has no edge to [failed] *)
Lemma wp_fail_conflict k o v w reason n retryable Q :
  owned k o v w -> v_state v ∈ [accepted; reconciliation_required] ->
  match n with Some n => n = v_attempts v | None => True end ->
  (forall msg, Q (Exc (Exn CommandConflict msg)) w) ->
  wp (fail_ d o reason n retryable) Q w.
Proof.
  intros Ho Hst Hn HQ. unfold fail_. pose proof (owned_key _ _ _ _ Ho) as ->. apply wp_bind.
  destruct Ho as [Hw Ho]. eapply wp_get; [done|]. intros cur (_ & -> & _).
  assert (state_in (v_state v) [persisted; queued] = false) as ->.
  { by_state. }
  apply wp_bind. eapply wp_transition_exc; [done|apply spec_transition_bad_edge; [|done]|by apply HQ].
  by_state.
Qed.

Lemma recover_wp k o v w env a t tr Q :
  serves a v -> quiet k a -> owned k o v w -> op_matches o v -> v_state v ∈ [dispatching; accepted; readback_pending] ->
  (forall r v' w', dispatched v r v' -> at_view k v' w' -> Q r w') ->
  wp (recover d o env a t tr) Q w.
Proof.
  intros Hsv Hq Ho Hm Hst HQ. unfold recover. pose proof (owned_key _ _ _ _ Ho) as Hk.
  pose proof Hm as (_ & Hos & _). apply wp_bind. rewrite Hk in Ho. eapply wp_latest_attempt; [apply Ho|].
  rewrite <- Hk in Ho. apply wp_bind. eapply wp_context; [done|]. intros ctx Hctx. quiet_step.
  assert (Hread : v_state v ∈ [dispatching; accepted] -> forall o1 w1, owned k o1 (restate v accepted) w1 ->
    wp (let! x := readback_ d o1 a ctx (v_attempts v) in
        record {| do_command_id := command_id (op_command o1); do_attempt := Some (v_attempts v);
          final_state := fst x; effect_attempted := false; do_result := None;
          do_readback := Some (snd x) |}) Q w1).
  { intros Hin o1 w1 Ho1. apply wp_bind. eapply readback_wp; [done|done|done|done|].
    intros r v' w2 Hrb Hw2. destruct r as [x|e].
    - eapply wp_record; [done|]. intros w3 Hw3. eapply HQ; [|done]. by eapply dd_recovered.
    - eapply HQ; [|done]. by eapply dd_unrecovered. }
  rewrite Hos. apply wp_bind. case_bool_decide as Hd.
  - eapply wp_advance; [done|by rewrite Hd|done|done|]. intros o1 w1 _ Ho1.
    rewrite moved_restate in Ho1 by done.
    by apply Hread; [by_state|].
  - apply wp_ret. destruct (decide (v_state v = accepted)) as [Ha|Ha].
    + apply Hread; [by_state|]. by rewrite restate_id.
    + apply wp_bind. unfold readback_. apply wp_bind. unfold advance. rewrite Hk in Ho0.
      eapply wp_transition_exc; [apply Ho0|apply spec_transition_bad_edge; [|done]|].
      { by_state. }
      rewrite <- Hk in Ho0. eapply HQ; [|apply Ho0]. apply dd_conflict. by_state.
Qed.

Lemma execute_attempt_wp k o v w a t tr Q :
  serves a v -> quiet k a -> owned k o v w -> op_matches o v -> v_state v ∈ [persisted; queued; reconciliation_required] ->
  (forall r v' w', dispatched v r v' -> at_view k v' w' -> Q r w') ->
  wp (execute_attempt d o (v_env v) a t tr) Q w.
Proof.
  intros Hsv Hq Ho Hm Hst HQ. unfold execute_attempt. pose proof Hm as (_ & Hos & _).
  destruct (decide (v_state v = reconciliation_required)) as [Hr|Hr].
  { rewrite Hos, Hr. apply wp_bind, wp_ret. apply wp_bind. unfold advance.
    pose proof (owned_key _ _ _ _ Ho) as Hk. rewrite Hk in Ho.
    eapply wp_transition_exc; [apply Ho|by apply spec_transition_bad_edge; [rewrite Hr|]|].
    rewrite <- Hk in Ho. eapply HQ; [|apply Ho]. apply dd_conflict. by_state. }
  assert (Hin : v_state v ∈ [persisted; queued]) by by_state.
  assert (Hgo : forall o1 w1, owned k o1 (restate v queued) w1 ->
    wp (let! o2 := advance d o1 dispatching ("attempt via adapter " +:+ adapter_id a) None None None in
        let! attempt := svc_latest_attempt (tenant_id (op_command o2)) (command_id (op_command o2)) in
        let! ctx := context d o2 attempt t tr (env_payload (v_env v)) in
        inc "adapter_requests" [adapter_id a; "execute"] ;;;
        inc "provider_effect_attempts" [adapter_id a] ;;;
        let! result := run_execute d o2 (v_env v) a t attempt ctx in
        finalize d o2 a (family_of (env_command_type (v_env v))) attempt ctx result) Q w1).
  { intros o1 w1 Ho1. apply wp_bind. eapply wp_advance; [done|done|done|done|].
    intros o2 w2 _ Ho2. change (moved (restate v queued) dispatching None None)
      with (moved v dispatching None None) in Ho2.
    pose proof (owned_key _ _ _ _ Ho2) as Hk. apply wp_bind. rewrite Hk in Ho2.
    eapply wp_latest_attempt; [apply Ho2|]. rewrite <- Hk in Ho2. apply wp_bind.
    eapply wp_context; [done|]. intros ctx Hctx. repeat quiet_step. apply wp_bind.
    eapply run_execute_wp; [done|done|done|done|]. intros r v' w5 Hran Hw5.
    inversion Hran; subst.
    - eapply finalize_wp; [done|by eapply owned_at|done|done|]. intros r v' w6 Hset Hw6.
      eapply HQ; [|done]. rewrite Hctx in Hset. by eapply dd_executed.
    - eapply HQ; [by apply dd_saturated|done].
    - eapply HQ; [|done]. apply dd_interrupted; [done|done|by right]. }
  rewrite Hos. apply wp_bind. case_bool_decide as Hp.
  - eapply wp_advance; [done|by rewrite Hp|done|done|]. intros o1 w1 _ Ho1.
    rewrite moved_restate in Ho1 by done. by apply Hgo.
  - apply wp_ret, Hgo. rewrite restate_id by by_state. done.
Qed.

Lemma evaluate_safety_wp k v w did s c b Q :
  at_view k v w -> (forall dec w', at_view k v w' -> Q (Ret dec) w') ->
  wp (evaluate_safety did s c b) Q w.
Proof.
  intros Hw HQ. unfold wp, evaluate_safety. destruct (safety_evaluate _ _ _ _ _ _) as [dec g]. by apply HQ.
Qed.

Lemma execute_gated_wp k o v w did a t n tr Q :
  serves a v -> quiet k a -> owned k o v w -> op_matches o v -> v_state v ∈ [persisted; queued; reconciliation_required] ->
  (forall r v' w', dispatched v r v' -> at_view k v' w' -> Q r w') ->
  wp (execute_gated d did o (v_env v) a t n tr) Q w.
Proof.
  intros Hsv Hq Ho Hm Hst HQ. unfold execute_gated. apply wp_bind, wp_try.
  eapply wp_leaves; [|apply Ho|].
  { intros u. apply preserves_bind; [by apply leaves_same|]. intros ctx.
    apply leaves_wait_for, Hq. }
  intros r w1 Hw1. destruct r as [rd|e].
  2: { destruct (is_exception e) eqn:He; [apply wp_raise|]; (eapply HQ; [|done]).
       - by apply dd_backoff.
       - apply dd_interrupted; [done|done|by left]. }
  apply wp_bind. eapply evaluate_safety_wp; [done|]. intros dec w2 Hw2.
  assert (Ho2 : owned k o v w2) by (split; [done|apply Ho]).
  destruct (negb (sd_allow dec)).
  - quiet_step. destruct (String.eqb _ _).
    { apply wp_raise. eapply HQ; [by apply dd_backoff|the_view]. }
    apply wp_bind. destruct (decide (v_state v = reconciliation_required)) as [Hr|Hr].
    { eapply wp_fail_conflict; [done|by_state|done|]. intros msg.
      eapply HQ; [by apply dd_conflict; by_state|the_view]. }
    eapply wp_fail; [done|by_state|done|]. intros w4 Hw4. eapply wp_record; [done|]. intros w5 Hw5.
    eapply HQ; [|done]. apply dd_refused; try done. by_state.
  - apply wp_bind, wp_catch, breaker_admit_same.
    + intros w3 Hs. eapply execute_attempt_wp; [done|done|by eapply owned_same|done|done|done].
    + intros w3 msg Hs. pose proof (owned_same _ _ _ _ _ Hs Ho2) as Ho3. simpl.
      quiet_step. apply wp_raise. eapply HQ; [by apply dd_backoff|the_view].
Qed.

(** a dispatch of an operation seen at [v] ends as [dispatched] says *)
Lemma dispatch_wp t c v w did n tr Q :
  registry_ok (d_registry d) ->
  (forall aid a, reg_adapters (d_registry d) !! aid = Some a -> quiet (t, c) a) ->
  at_view (t, c) v w ->
  (forall r v' w', dispatched v r v' -> at_view (t, c) v' w' -> Q r w') ->
  wp (dispatch d did t c n tr) Q w.
Proof.
  intros Hreg Hq Hw HQ. unfold dispatch. apply wp_bind, wp_catch, wp_bind.
  eapply wp_get; [done|]. intros o Hm. apply wp_ret. pose proof (matches_owned _ _ _ _ Hw Hm) as Ho.
  pose proof Hm as (_ & -> & _). cbn beta iota.
  destruct (state_in (v_state v) [completed; failed; dead_lettered; cancelled]) eqn:Hterm.
  { eapply wp_record; [done|]. intros w1 Hw1. eapply HQ; [|done]. apply dd_terminal; try done.
    by apply state_in_true. }
  apply wp_bind. eapply wp_load_envelope; [done|].
  assert (Hrefuse : forall reason,
    wp (fail_ d o reason None false ;;;
        record {| do_command_id := c; do_attempt := None; final_state := "failed";
          effect_attempted := false; do_result := None; do_readback := None |}) Q w).
  { intros reason. apply wp_bind.
    destruct (state_in (v_state v) [accepted; reconciliation_required]) eqn:Hc.
    { apply state_in_true in Hc. eapply wp_fail_conflict; [done|done|done|]. intros msg.
      eapply HQ; [|done]. apply dd_conflict. by_state. }
    apply state_in_false in Hterm, Hc.
    assert (v_state v ∈ [persisted; queued; dispatching; readback_pending]) as Hin.
    { revert Hterm Hc. rewrite <- !state_in_false, <- state_in_true. by destruct (v_state v). }
    eapply wp_fail; [done|by apply state_in_true|done|]. intros w1 Hw1.
    eapply wp_record; [done|]. intros w2 Hw2. eapply HQ; [|done]. by apply dd_refused. }
  destruct (ownership (d_registry d) _) as [own|] eqn:Hown; [|apply Hrefuse].
  destruct (ownership_adapter _ _ _ Hreg Hown) as (a & p & Ha & Had & _).
  rewrite Had. apply wp_bind, wp_lift. pose proof (Hq _ _ Ha) as Hqa.
  destruct (mem_string (env_target _) _) eqn:Htgt; [|apply Hrefuse]. cbn zeta. cbn [negb].
  assert (Hsv : serves a v) by (exists own; apply mem_string_spec in Htgt; done).
  destruct (state_in (v_state v) [dispatching; accepted; readback_pending]) eqn:Hrec.
  { apply state_in_true in Hrec. by eapply recover_wp. }
  eapply execute_gated_wp; [done|done|done|done| |done].
  revert Hterm Hrec. rewrite <- state_in_true. by destruct (v_state v).
Qed.
End BusFacts.
