(* ===== verification/Fixtures.v ===== *)
(** * The no-effect fixture adapters

    [FixtureAdapter] of [src/app/platform/adapters/fixtures.py]: the scripted
    behaviours the program's own certification drives the kernel with.  Its
    mutable fields live in the world's external part, by adapter id. *)

From Stdlib Require Import QArith.
From stdpp Require Import pretty.
From S2P Require Import Prelude Json Uuid Commands LedgerSpec Resilience Policy Safety Adapter.
From S2P Require Import World.
Local Open Scope nat_scope.

(** the class attributes *)
Record FixtureConfig := {
  fx_adapter_id : string;
  fx_provider_family : string;
  fx_connector_ids : list string;
  fx_served_capabilities : list string;
  fx_version : string;
  fx_supports_cancel : bool;
  fx_supports_status : bool;
  fx_safe_reexecution : bool;
  fx_external_effect : bool;
  fx_ready : bool;
}.

(** the lists and dictionaries the fixture mutates *)
Record FixtureState := {
  scripts : gmap string (list string);
  reconcile_as : gmap string ReadbackStatus;
  executed : list (string * nat);
  readbacks : list string;
  reconciled : list string;
  fx_cancelled : list string;
  effects : gmap string nat;
  behaviours : gmap string string;
}.

Definition empty_fixture : FixtureState := Build_FixtureState ∅ ∅ [] [] [] [] ∅ ∅.

(** [provider_effects] *)
Definition provider_effects (f : FixtureState) : nat := map_fold (fun _ n acc => n + acc) 0 (effects f).

(** the number of effects of one command *)
Definition effects_of (f : FixtureState) (cid : string) : nat := default 0 (effects f !! cid).

(** [_behaviour]: the next scripted behaviour, or the payload's *)
Definition behaviour (cid : string) (payload : jdict) (f : FixtureState) : string * FixtureState :=
  let '(value, scripts') :=
    match scripts f !! cid with
    | Some (v :: rest) => (v, <[cid := rest]> (scripts f))
    | _ => (default "success" (get_str "fixture" payload), scripts f)
    end in
  (value, Build_FixtureState scripts' (reconcile_as f) (executed f) (readbacks f) (reconciled f)
            (fx_cancelled f) (effects f) (<[cid := value]> (behaviours f))).

(** [_effect] *)
Definition effect (cid : string) (f : FixtureState) : FixtureState :=
  Build_FixtureState (scripts f) (reconcile_as f) (executed f) (readbacks f) (reconciled f)
    (fx_cancelled f) (<[cid := effects_of f cid + 1]> (effects f)) (behaviours f).

Section Fixture.
Context {S : Type}.
Abbreviation W := (World S (gmap string FixtureState)).
(* [str] of a container, which the fixture never formats *)
Context (py_str : json -> string) (cfg : FixtureConfig).

Definition fixture_state (w : W) : FixtureState := default empty_fixture (ext w !! fx_adapter_id cfg).
Definition set_fixture (f : FixtureState) (w : W) : W := set_ext (<[fx_adapter_id cfg := f]> (ext w)) w.
Definition update_fixture (g : FixtureState -> FixtureState) : M W unit :=
  modify (fun w => set_fixture (g (fixture_state w)) w).

(** [asyncio.sleep] *)
Definition sleep (seconds : Q) : M W unit := modify (fun w => set_clock (clock w + seconds)%Q w).

Definition fixture_execute (c : CommandEnvelope) (ctx : AdapterContext) : M W Raw :=
  let cid := uuid_str (env_command_id c) in
  let aid := fx_adapter_id cfg in
  update_fixture (fun f => Build_FixtureState (scripts f) (reconcile_as f)
    (executed f ++ [(cid, ctx_attempt ctx)]) (readbacks f) (reconciled f) (fx_cancelled f)
    (effects f) (behaviours f)) ;;;
  let! f := gets fixture_state in
  let (b, f') := behaviour cid (env_payload c) f in
  update_fixture (fun _ => f') ;;;
  let reference := aid +:+ ":" +:+ cid +:+ ":" +:+ pretty (ctx_attempt ctx) in
  let done_ o details := raw_result {| res_outcome := o; res_provider_operation_id := Some reference;
    res_error_class := None; res_safe_error_code := None; res_safe_details := details |} in
  if String.eqb b "transient"
  then ret (raw_result (error_result TRANSIENT RETRYABLE_BEFORE_EFFECT "fixture_transient"))
  else if String.eqb b "reject"
  then ret (raw_result (error_result REJECTED NON_RETRYABLE "fixture_rejected"))
  else if String.eqb b "timeout"
  then update_fixture (effect cid) ;;; sleep (ctx_timeout_seconds ctx + 5) ;;; ret (done_ COMPLETED [])
  else if String.eqb b "crash"
  then update_fixture (effect cid) ;;; raise RuntimeError "fixture crashed after send"
  else if String.eqb b "unknown"
  then update_fixture (effect cid) ;;; ret (raw_result (error_result UNKNOWN AMBIGUOUS "fixture_unknown"))
  else
  update_fixture (effect cid) ;;;
  ret (done_ (if String.eqb b "completed" then COMPLETED else ACCEPTED)
         [("fixture", JStr aid); ("attempt", JInt (Z.of_nat (ctx_attempt ctx)))]).

Definition fixture_status (o : CommandOperation) (ctx : AdapterContext) : M W Raw :=
  let! f := gets fixture_state in
  ret (raw_result
    (if (0 <? effects_of f (uuid_str (command_id (op_command o))))%nat
     then {| res_outcome := COMPLETED; res_provider_operation_id := op_provider_operation_id o;
             res_error_class := None; res_safe_error_code := None; res_safe_details := [] |}
     else error_result REJECTED NON_RETRYABLE "fixture_no_effect")).

Definition rb (st : ReadbackStatus) (provider : option string) (evidence : jdict) (code : option string) :
    ReadbackResult :=
  {| rb_status := st; rb_provider_operation_id := provider; rb_evidence := evidence;
     rb_safe_error_code := code |}.

Definition fixture_readback (o : CommandOperation) (ctx : AdapterContext) : M W ReadbackResult :=
  let cid := uuid_str (command_id (op_command o)) in
  update_fixture (fun f => Build_FixtureState (scripts f) (reconcile_as f) (executed f)
    (readbacks f ++ [cid]) (reconciled f) (fx_cancelled f) (effects f) (behaviours f)) ;;;
  let! f := gets fixture_state in
  let b := default "success" (behaviours f !! cid) in
  ret (if String.eqb b "readback_mismatch"
       then rb MISMATCH (op_provider_operation_id o) [("fixture", JStr "mismatch")] None
       else if String.eqb b "readback_unavailable"
       then rb UNAVAILABLE None [] (Some "fixture_readback_unavailable")
       else if String.eqb b "readback_not_found"
       then rb NOT_FOUND None [] (Some "fixture_readback_not_found")
       else if String.eqb b "readback_unsupported"
       then rb RB_UNSUPPORTED None [] (Some "readback_unsupported")
       else if (effects_of f cid =? 0)%nat
       then rb NOT_FOUND None [] (Some "fixture_no_effect")
       else rb MATCHED (str_or (op_provider_operation_id o) (Some (fx_adapter_id cfg +:+ ":" +:+ cid)))
              [("fixture", JStr (fx_adapter_id cfg));
               ("effects", JInt (Z.of_nat (effects_of f cid)))] None).

Definition fixture_reconcile (o : CommandOperation) (ctx : AdapterContext) : M W ReadbackResult :=
  let cid := uuid_str (command_id (op_command o)) in
  update_fixture (fun f => Build_FixtureState (scripts f) (reconcile_as f) (executed f)
    (readbacks f) (reconciled f ++ [cid]) (fx_cancelled f) (effects f) (behaviours f)) ;;;
  let! f := gets fixture_state in
  let observed := default (if (effects_of f cid =? 0)%nat then NOT_FOUND else MATCHED)
                    (reconcile_as f !! cid) in
  ret (rb observed
         (if bool_decide (observed = MATCHED)
          then Some (fx_adapter_id cfg +:+ ":" +:+ cid +:+ ":reconciled") else None)
         [("fixture", JStr (fx_adapter_id cfg)); ("reconciled", JBool true)] None).

Definition fixture_cancel (o : CommandOperation) (ctx : AdapterContext) : M W Raw :=
  update_fixture (fun f => Build_FixtureState (scripts f) (reconcile_as f) (executed f)
    (readbacks f) (reconciled f) (fx_cancelled f ++ [uuid_str (command_id (op_command o))])
    (effects f) (behaviours f)) ;;;
  ret (raw_result {| res_outcome := CANCELLED; res_provider_operation_id := None;
    res_error_class := None; res_safe_error_code := None; res_safe_details := [] |}).

Definition FixtureAdapter : Adapter W := {|
  adapter_id := fx_adapter_id cfg;
  validate_config := base_validate_config (fx_adapter_id cfg) (fx_provider_family cfg)
    (fx_connector_ids cfg) (fx_served_capabilities cfg);
  adapter_capabilities := {|
    adv_adapter_id := fx_adapter_id cfg; adv_version := fx_version cfg;
    adv_provider_family := fx_provider_family cfg; adv_connector_ids := fx_connector_ids cfg;
    adv_capabilities := fx_served_capabilities cfg; supports_readback := true;
    supports_cancel := fx_supports_cancel cfg; supports_status := fx_supports_status cfg;
    safe_reexecution := fx_safe_reexecution cfg; external_effect := fx_external_effect cfg |};
  readiness := fun _ => ret {| ready := fx_ready cfg; ready_detail := "fixture" |};
  execute := fixture_execute;
  status := fixture_status;
  readback := fixture_readback;
  adapter_reconcile := fixture_reconcile;
  adapter_cancel := fixture_cancel;
  normalize_result := fun raw => Ret (base_normalize_result py_str raw);
  classify_error := classify_transport_error;
  redact := base_redact;
|}.
End Fixture.

(** the dataclass defaults *)
Definition fixture_config (aid family : string) (connectors served : list string) : FixtureConfig := {|
  fx_adapter_id := aid; fx_provider_family := family; fx_connector_ids := connectors;
  fx_served_capabilities := served; fx_version := "1.0.0"; fx_supports_cancel := true;
  fx_supports_status := true; fx_safe_reexecution := true; fx_external_effect := false;
  fx_ready := true |}.

Definition test_syn_adapter : FixtureConfig :=
  fixture_config "test-syn" "synthetic" ["test-syn"] ["TEST_SYN_EXECUTE"].

Definition development_fixtures : list FixtureConfig := [
  test_syn_adapter;
  fixture_config "odoo-fixture" "odoo" ["odoo-19"] ["ODOO_WRITE"];
  fixture_config "email-fixture" "email" ["klyrow-email"] ["EMAIL_DELIVERY"];
  fixture_config "sms-fixture" "sms" ["telnexa-sms"] ["SMS_DELIVERY"];
  fixture_config "telephony-fixture" "telephony" ["vicidial-restricted"]
    ["INTERNAL_TELEPHONY_CALLS"; "PRODUCTION_DIALING"];
  fixture_config "crawler-fixture" "crawler" ["kyqra-crawler"] ["CRAWLER_EXECUTION"];
  fixture_config "social-fixture" "social" ["postly-social"] ["SOCIAL_PUBLISH"];
  fixture_config "provisioning-fixture" "provisioning" ["provisioning-service"] ["PROVISIONING_WRITE"];
  fixture_config "n8n-fixture" "n8n" ["n8n-automation"] ["N8N_WORKFLOW_DISPATCH"]].

(** an object that offers every method of the contract *)
Definition complete_candidate {W} (name : string) (a : Adapter W) : Candidate W :=
  {| cand_type_name := name; cand_callable := fun _ => true; cand_id_is_str := true; cand_adapter := a |}.

(** ** Facts *)

Lemma update_fixture_store {S} cfg g (w : World S _) : store (snd (update_fixture cfg g w)) = store w.
Proof. done. Qed.
