(* ===== verification/Reconciler.v ===== *)
(** * The reconciler

    [src/app/platform/reconciler.py]: one pass over a claimed, quarantined
    outbox row, from the claim to the ledger's verdict and the row's
    resolution. *)

From Stdlib Require Import QArith Ascii.
From Stdlib Require Import QArith.
From S2P Require Import Prelude Json Uuid Commands LedgerSpec Resilience Policy Safety Adapter.
From S2P Require Import Registry World Bus BusFacts.
Local Open Scope nat_scope.

Record ReconciliationClaim := {
  claim_outbox_id : nat;
  claim_tenant_id : string;
  claim_command_id : UUID;
  claim_attempts : nat;
}.

Record ReconciliationDecision := {
  dec_command_id : UUID;
  dec_adapter_id : option string;
  dec_readback : option ReadbackResult;
  dec_action : string;
  dec_final_state : string;
  drift_class : option string;
}.

(** what a readback that raised counts as: the reference is kept *)
Definition unavailable_reconcile (o : CommandOperation) (e : exn) : ReadbackResult := {|
  rb_status := UNAVAILABLE; rb_provider_operation_id := op_provider_operation_id o;
  rb_evidence := [("retry_hint", JStr "reconcile")]; rb_safe_error_code := Some (exn_name e) |}.

Section Reconciler.
Context {S X : Type} `{CommandStore S}.
Abbreviation W := (World S X).

(** [ReconciliationSource]: where the quarantined rows come from *)
Record ReconciliationSource := {
  src_claim : string -> Q -> M W (option ReconciliationClaim);
  src_resolve : ReconciliationClaim -> string -> string -> string -> M W unit;
  src_release : ReconciliationClaim -> string -> string -> M W unit;
  src_backlog : M W nat;
}.

Record Reconciler := {
  r_settings : Settings;
  r_registry : AdapterRegistry W;
  r_source : ReconciliationSource;
  r_budget : nat;
  r_lease_seconds : Q;
  r_timeout_seconds : Q;
  r_id : string;
}.

Context (r : Reconciler).

Definition resolve_ (cl : ReconciliationClaim) (action reason : string) : M W unit :=
  src_resolve (r_source r) cl (r_id r) action reason.
Definition release_ (cl : ReconciliationClaim) (reason : string) : M W unit :=
  src_release (r_source r) cl (r_id r) reason.

(** [_fenced_reconcile]: whether the verdict was recorded *)
Definition fenced_reconcile (cl : ReconciliationClaim) (o : CommandOperation) (matched : bool)
    (reason : string) (provider : option string) (evidence : jdict) : M W bool :=
  catch_ (fun e => bool_decide (exn_cls e = CommandConflict))
    (svc_reconcile (claim_tenant_id cl) (claim_command_id cl) matched (r_id r) reason provider evidence
       (Some (op_resource_version o)) ;;; ret true)
    (fun _ => release_ cl "operation changed during read-back; verdict discarded" ;;; ret false).

Definition decide_ (cl : ReconciliationClaim) (a : option string) (rb : option ReadbackResult)
    (action st : string) (drift : option string) : M W ReconciliationDecision :=
  ret {| dec_command_id := claim_command_id cl; dec_adapter_id := a; dec_readback := rb;
         dec_action := action; dec_final_state := st; drift_class := drift |}.

(** the provider's state, as the adapter's status or reconcile hook reads it *)
Definition observe_reconcile (a : Adapter W) (o : CommandOperation) (ctx : AdapterContext) :
    M W ReadbackResult :=
  let! started := gets clock in
  finally_
    (try_ (let! sr := status_readback a o ctx false in
           match sr with
           | Some rb => ret rb
           | None => wait_for (r_timeout_seconds r) (adapter_reconcile a o ctx)
           end)
          (fun e => ret (unavailable_reconcile o e)))
    (observe "adapter_latency" [adapter_id a; "reconcile"] started).

Definition changed_during_readback (cl : ReconciliationClaim) (a : Adapter W) (rb : ReadbackResult)
    (o : CommandOperation) : M W ReconciliationDecision :=
  decide_ cl (Some (adapter_id a)) (Some rb) "release" (state_name (op_state o))
    (Some "operation_changed_during_readback").

Definition unsupported_reason (rb : ReadbackResult) : string :=
  "provider read-back unsupported (" +:+
  default "no read surface" (truthy_str (rb_safe_error_code rb)) +:+ "); operator verification required".

(** the tail of [_reconcile]: dead-letter when the budget is spent, release
    otherwise *)
Definition spend_or_release (cl : ReconciliationClaim) (o : CommandOperation) (a : Adapter W)
    (rb : ReadbackResult) (exhausted : bool) : M W ReconciliationDecision :=
  let status := str_lower (readback_value (rb_status rb)) in
  let unsupported := bool_decide (rb_status rb = RB_UNSUPPORTED) in
  let t := claim_tenant_id cl in
  let c := claim_command_id cl in
  if exhausted then
    let reason := if unsupported then unsupported_reason rb
                  else "reconciliation budget exhausted after " +:+ status in
    svc_transition t c dead_lettered (r_id r) reason None None None ;;;
    svc_record_dead_letter t c
      (if unsupported then "readback_unsupported" else "reconciliation_exhausted") status reason false
      (negb unsupported) ;;;
    resolve_ cl "dead_letter" reason ;;;
    inc "retry_exhaustions" [] ;;;
    inc "commands_failed" [family_of (command_type (op_command o)); adapter_id a; "dead_lettered"] ;;;
    decide_ cl (Some (adapter_id a)) (Some rb) "dead_letter" "dead_lettered" None
  else
  release_ cl ("read-back " +:+ status +:+ "; will retry") ;;;
  decide_ cl (Some (adapter_id a)) (Some rb) "release" "reconciliation_required" None.

(** what [_reconcile] does with the provider's answer *)
Definition judge (cl : ReconciliationClaim) (o : CommandOperation) (a : Adapter W)
    (adv : AdapterCapabilities) (attempt : nat) (rb : ReadbackResult) : M W ReconciliationDecision :=
  let evidence := readback_evidence rb (op_provider_operation_id o) in
  let family := family_of (command_type (op_command o)) in
  let aid := adapter_id a in
  let t := claim_tenant_id cl in
  let c := claim_command_id cl in
  let exhausted := (r_budget r <=? claim_attempts cl) || bool_decide (rb_status rb = RB_UNSUPPORTED) in
  match rb_status rb with
  | MATCHED =>
      let! kept := fenced_reconcile cl o true "reconciliation read-back matched"
                     (rb_provider_operation_id rb) evidence in
      if negb kept then changed_during_readback cl a rb o
      else
      resolve_ cl "complete" "reconciliation read-back matched" ;;;
      inc "reconciliation_decisions" [aid; "completed"] ;;;
      inc "commands_completed" [family; aid] ;;;
      decide_ cl (Some aid) (Some rb) "complete" "completed" None
  | NOT_FOUND =>
      if negb exhausted && safe_reexecution adv then
        svc_transition t c queued (r_id r) "reconciliation proved no provider effect; re-queued" None None
          (Some attempt) ;;;
        resolve_ cl "retry" "reconciliation proved no provider effect" ;;;
        inc "reconciliation_decisions" [aid; "requeued"] ;;;
        decide_ cl (Some aid) (Some rb) "retry" "queued" (Some "provider_missing_repairable")
      else if negb (safe_reexecution adv) then
        let! kept := fenced_reconcile cl o false "provider state missing; automatic repair is not safe"
                       (rb_provider_operation_id rb) evidence in
        if negb kept then changed_during_readback cl a rb o
        else
        let reason := "provider state missing and adapter does not permit safe automatic re-execution" in
        svc_transition t c dead_lettered (r_id r) reason None None None ;;;
        resolve_ cl "dead_letter" reason ;;;
        inc "reconciliation_decisions" [aid; "missing_unsafe"] ;;;
        inc "commands_failed" [family; aid; "dead_lettered"] ;;;
        decide_ cl (Some aid) (Some rb) "dead_letter" "dead_lettered"
          (Some "provider_missing_manual_repair")
      else
      inc "reconciliation_decisions" [aid; "not_found"] ;;;
      spend_or_release cl o a rb exhausted
  | MISMATCH =>
      let! kept := fenced_reconcile cl o false "reconciliation read-back mismatch"
                     (rb_provider_operation_id rb) evidence in
      if negb kept then changed_during_readback cl a rb o
      else
      inc "reconciliation_decisions" [aid; "mismatch"] ;;;
      spend_or_release cl o a rb exhausted
  | st =>
      inc "reconciliation_decisions" [aid; str_lower (readback_value st)] ;;;
      spend_or_release cl o a rb exhausted
  end.

(** [_reconcile] of an operation that awaits a verdict *)
Definition reconcile_parked (cl : ReconciliationClaim) (o : CommandOperation) : M W ReconciliationDecision :=
  match ownership (r_registry r) (command_type (op_command o)) with
  | None =>
      release_ cl "no adapter owns this command in this process" ;;;
      decide_ cl None None "release" (state_name (op_state o)) None
  | Some own =>
      let! a := lift_outcome (adapter (r_registry r) (own_adapter_id own)) in
      let! adv := lift_outcome (advertised (r_registry r) (own_adapter_id own)) in
      let! attempt := svc_latest_attempt (claim_tenant_id cl) (claim_command_id cl) in
      let! env := svc_load_envelope (claim_tenant_id cl) (claim_command_id cl) in
      if negb (mem_string (env_target env) (adv_connector_ids (adapter_capabilities a))) then
        let reason := "connector unavailable during reconciliation" in
        svc_transition (claim_tenant_id cl) (claim_command_id cl) dead_lettered (r_id r) reason
          None None None ;;;
        resolve_ cl "dead_letter" reason ;;;
        decide_ cl (Some (adapter_id a)) None "dead_letter" "dead_lettered" None
      else
      let ctx := {| ctx_tenant_id := tenant_id (op_command o);
                    ctx_command_id := uuid_str (command_id (op_command o));
                    ctx_correlation_id := correlation_id (op_command o);
                    ctx_attempt := attempt; ctx_timeout_seconds := r_timeout_seconds r;
                    ctx_environment := app_env (r_settings r);
                    ctx_deployment_sha := source_sha (r_settings r);
                    ctx_trace_context := []; ctx_test_syn := false; ctx_payload := env_payload env |} in
      inc "adapter_requests" [adapter_id a; "reconcile"] ;;;
      let! rb := observe_reconcile a o ctx in
      judge cl o a adv attempt rb
  end.

(** [_reconcile] *)
Definition reconcile_claim (cl : ReconciliationClaim) : M W ReconciliationDecision :=
  let! found := catch_ (fun e => bool_decide (exn_cls e = CommandNotFound))
    (let! o := svc_get (claim_tenant_id cl) (claim_command_id cl) in ret (Some o))
    (fun _ => ret None) in
  match found with
  | None =>
      resolve_ cl "dead_letter" "command row missing" ;;;
      decide_ cl None None "dead_letter" "missing" None
  | Some o =>
      let st := state_name (op_state o) in
      if bool_decide (op_state o = completed) then
        resolve_ cl "complete" "operation already completed" ;;;
        decide_ cl None None "complete" "completed" None
      else if state_in (op_state o) [failed; dead_lettered; cancelled] then
        resolve_ cl "dead_letter" ("operation is terminal (" +:+ st +:+ ")") ;;;
        decide_ cl None None "dead_letter" st None
      else if negb (bool_decide (op_state o = reconciliation_required)) then
        release_ cl ("operation is " +:+ st +:+ "; not awaiting reconciliation") ;;;
        decide_ cl None None "release" st None
      else reconcile_parked cl o
  end.

(** [run_once] *)
Definition reconciler_run_once : M W (option ReconciliationDecision) :=
  let! claim := src_claim (r_source r) (r_id r) (r_lease_seconds r) in
  match claim with
  | None => ret None
  | Some cl =>
      finally_
        (let! dec := reconcile_claim cl in ret (Some dec))
        (try_ (let! n := src_backlog (r_source r) in
               modify (add_metrics [gauged "reconciliation_backlog" [] (Z.of_nat n)]))
           (fun _ => ret tt))
  end.
End Reconciler.
Arguments ReconciliationSource S X : clear implicits.
Arguments Reconciler S X : clear implicits.

(** ** What one reconciliation pass does to the ledger

    The reconciler against any store that satisfies [LedgerLaws], any source
    whose rows are not the ledger's, and any adapter that does not write the
    parked operation. *)

(** ** The contract: action and ledger view by verdict *)

Definition dead_lettered_view (v : OpView) : OpView := with_dead_letter (restate v dead_lettered).

Definition judgement (safe exhausted : bool) (rb : ReadbackResult) (v : OpView) : string * OpView :=
  let noted matched := reconciled v matched (rb_provider_operation_id rb)
                         (readback_evidence rb (v_provider v)) in
  match rb_status rb with
  | MATCHED => ("complete", noted true)
  | NOT_FOUND =>
      if safe then
        if exhausted then ("dead_letter", dead_lettered_view v) else ("retry", restate v queued)
      else ("dead_letter", restate (noted false) dead_lettered)
  | MISMATCH =>
      if exhausted then ("dead_letter", dead_lettered_view (noted false)) else ("release", noted false)
  | UNAVAILABLE => if exhausted then ("dead_letter", dead_lettered_view v) else ("release", v)
  | RB_UNSUPPORTED => ("dead_letter", dead_lettered_view v)
  end.

Section ReconcilerFacts.
Context {S X : Type} `{LedgerLaws S}.
Abbreviation W := (World S X).
Context (r : Reconciler S X).
Implicit Types (w : W) (a : Adapter W).

(** the source writes its rows, not the ledger's operations *)
Record source_quiet (k : Key) : Prop := {
  sq_claim : forall i l, leaves k (src_claim (r_source r) i l);
  sq_resolve : forall cl i ac re, leaves k (src_resolve (r_source r) cl i ac re);
  sq_release : forall cl i re, leaves k (src_release (r_source r) cl i re);
  sq_backlog : leaves k (src_backlog (r_source r));
}.

Context (k : Key) (sources : source_quiet k).

(** ends at the view [v'], and a decision it returns carries the action *)
Definition lands (action : string) (v' : OpView) (res : outcome ReconciliationDecision) w : Prop :=
  at_view k v' w /\ forall dec, res = Ret dec -> dec_action dec = action.

Lemma wp_decide cl aid rb action st drift v w :
  at_view k v w -> wp (decide_ cl aid rb action st drift) (lands action v) w.
Proof. intros Hw. apply wp_ret. split; [done|]. by intros dec [= <-]. Qed.

(** a source call before the decision: if it raises, the ledger is already written *)
Lemma wp_source {A} (m : M W A) (f : A -> M W ReconciliationDecision) action v w :
  leaves k m -> at_view k v w ->
  (forall x w', at_view k v w' -> wp (f x) (lands action v) w') ->
  wp (bind m f) (lands action v) w.
Proof.
  intros Hm Hw Hf. apply wp_bind. eapply wp_leaves; [done|done|]. intros [x|e] w' Hw'; [by apply Hf|].
  by split.
Qed.

Lemma leaves_inc name labels : leaves k (inc name labels : M W unit).
Proof. by apply leaves_same. Qed.

Ltac src_step :=
  eapply wp_source;
  [first [apply leaves_inc | apply sq_resolve, sources | apply sq_release, sources]
  |done|intros [] ? ?].

Ltac inc_step :=
  apply wp_bind, inc_same;
  let w' := fresh "w" in let Hs := fresh "Hs" in intros w' Hs;
  match goal with Hw : at_view _ _ ?w, Hs : same_store ?w w' |- _ =>
    apply (at_view_same _ _ _ _ Hs) in Hw; clear Hs end.

Lemma wp_transition_k t c v w st actor reason n Q :
  k = (t, c) -> at_view k v w -> state_in st (ALLOWED_COMMAND_TRANSITIONS (v_state v)) = true ->
  st <> dispatching -> match n with Some n => n = v_attempts v | None => True end ->
  (forall o w', at_view k (restate v st) w' -> Q (Ret o) w') ->
  wp (svc_transition t c st actor reason None None n) Q w.
Proof.
  intros Hk Hw Hst Hd Hn HQ. rewrite Hk in *. eapply wp_transition; [done|by apply spec_transition_ok|].
  intros o s' _ Hw'. apply HQ. by rewrite moved_restate in Hw'.
Qed.

Lemma spend_or_release_wp cl o a rb exhausted v w :
  k = (claim_tenant_id cl, claim_command_id cl) ->
  at_view k v w -> v_state v = reconciliation_required ->
  wp (spend_or_release r cl o a rb exhausted)
    (lands (if exhausted then "dead_letter" else "release")
       (if exhausted then dead_lettered_view v else v)) w.
Proof.
  intros Hk Hw Hst. unfold spend_or_release. destruct exhausted.
  - apply wp_bind. eapply wp_transition_k; [done|done|by rewrite Hst|done|done|]. intros o1 w1 Hw1.
    apply wp_bind. rewrite Hk in Hw1. eapply wp_record_dead_letter; [exact Hw1|]. intros d0 s' Hw2.
    rewrite <- Hk in Hw2. do 3 src_step. by apply wp_decide.
  - src_step. by apply wp_decide.
Qed.

Lemma fenced_reconcile_wp cl o matched reason p e v w (Q : outcome bool -> W -> Prop) :
  k = (claim_tenant_id cl, claim_command_id cl) ->
  at_view k v w -> v_state v = reconciliation_required -> op_resource_version o = v_version v ->
  (forall w', at_view k (reconciled v matched p e) w' -> Q (Ret true) w') ->
  wp (fenced_reconcile r cl o matched reason p e) Q w.
Proof.
  intros Hk Hw Hst Hver HQ. unfold fenced_reconcile. apply wp_catch, wp_bind. rewrite Hk in Hw.
  eapply wp_reconcile; [exact Hw|by apply spec_reconcile_ok|]. intros o1 s' _ Hw'.
  apply wp_ret, HQ. by rewrite Hk.
Qed.

(** a verdict on an operation that changed meanwhile is discarded *)
Lemma fenced_reconcile_stale cl o matched reason p e v w :
  k = (claim_tenant_id cl, claim_command_id cl) -> at_view k v w ->
  op_resource_version o <> v_version v \/ v_state v <> reconciliation_required ->
  wp (fenced_reconcile r cl o matched reason p e)
    (fun res w' => at_view k v w' /\ res <> Ret true) w.
Proof.
  intros Hk Hw Hch. unfold fenced_reconcile. apply wp_catch, wp_bind.
  assert (exists msg, spec_reconcile (Some v) matched p e (Some (op_resource_version o)) = conflict msg)
    as [msg Hspec].
  { unfold spec_reconcile. case_bool_decide; simpl; [|by eexists].
    destruct (v_version v =? op_resource_version o)%Z eqn:E; [|by eexists].
    apply Z.eqb_eq in E. destruct Hch; congruence. }
  rewrite Hk in Hw. eapply wp_reconcile_exc; [exact Hw|exact Hspec|]. rewrite <- Hk in Hw. simpl.
  apply wp_bind. eapply wp_leaves; [apply sq_release, sources|done|].
  intros [[]|e'] w' Hw'; by split.
Qed.

Lemma judge_wp cl o a adv n rb v w :
  k = (claim_tenant_id cl, claim_command_id cl) ->
  at_view k v w -> op_matches o v -> v_state v = reconciliation_required -> v_attempts v = n ->
  let exhausted := (r_budget r <=? claim_attempts cl) || bool_decide (rb_status rb = RB_UNSUPPORTED) in
  let j := judgement (safe_reexecution adv) exhausted rb v in
  wp (judge r cl o a adv n rb) (lands (fst j) (snd j)) w.
Proof.
  intros Hk Hw Hm Hst Hn. cbn zeta. pose proof Hm as (_ & _ & Hprov & _ & Hver).
  unfold judge, judgement. rewrite Hprov.
  assert (Hq : forall reason Q, (forall o1 w1, at_view k (restate v queued) w1 -> Q (Ret o1) w1) ->
    wp (svc_transition (claim_tenant_id cl) (claim_command_id cl) queued (r_id r) reason None None (Some n)) Q w).
  { intros reason Q HQ. by eapply wp_transition_k; [done|done|rewrite Hst|..]. }
  destruct (rb_status rb) eqn:Hrb.
  - apply wp_bind. eapply fenced_reconcile_wp; [done|done|done|done|]. intros w1 Hw1.
    cbn [negb]. do 3 src_step. by apply wp_decide.
  - apply wp_bind. eapply fenced_reconcile_wp; [done|done|done|done|]. intros w1 Hw1.
    cbn [negb]. inc_step. rewrite orb_false_r.
    pose proof (spend_or_release_wp cl o a rb (r_budget r <=? claim_attempts cl) _ _ Hk Hw1 eq_refl) as Hs.
    by destruct (r_budget r <=? claim_attempts cl).
  - rewrite orb_false_r. destruct (safe_reexecution adv); simpl.
    + destruct (r_budget r <=? claim_attempts cl) eqn:Hex; simpl.
      * inc_step. by apply (spend_or_release_wp cl o a rb true).
      * apply wp_bind, Hq. intros o1 w1 Hw1. do 2 src_step. by apply wp_decide.
    + rewrite andb_false_r. apply wp_bind. eapply fenced_reconcile_wp; [done|done|done|done|].
      intros w1 Hw1. cbn [negb]. apply wp_bind. eapply wp_transition_k; [done|done|done|done|done|].
      intros o1 w2 Hw2. do 3 src_step. by apply wp_decide.
  - rewrite orb_false_r. inc_step.
    pose proof (spend_or_release_wp cl o a rb (r_budget r <=? claim_attempts cl) _ _ Hk Hw Hst) as Hs.
    by destruct (r_budget r <=? claim_attempts cl).
  - rewrite orb_true_r. inc_step. by apply (spend_or_release_wp cl o a rb true).
Qed.

(** ** The pass *)

(** what the adapter's reconcile hook, or its status surface, answered *)
Definition reconcile_observed a (v : OpView) (rb : ReadbackResult) : Prop :=
  exists o ctx w1 w2, op_matches o v /\ observe_reconcile r a o ctx w1 = (Ret rb, w2).

Lemma leaves_observe_reconcile a o ctx : quiet k a -> leaves k (observe_reconcile r a o ctx).
Proof.
  intros Hq v. unfold observe_reconcile. apply preserves_bind; [apply preserves_gets|]. intros t.
  apply preserves_finally; [|by apply leaves_same].
  apply preserves_try; [|intros e; apply preserves_ret].
  apply preserves_bind; [by apply leaves_status_readback|]. intros [rb|]; [apply preserves_ret|].
  apply leaves_wait_for, quiet_reconcile, Hq.
Qed.

(** how a pass over an operation seen at [v] leaves it *)
Inductive passed (v : OpView) : OpView -> Prop :=
  | ps_left : passed v v
  | ps_unroutable : v_state v = reconciliation_required -> passed v (restate v dead_lettered)
  | ps_judged a rb safe exhausted : v_state v = reconciliation_required -> reconcile_observed a v rb ->
      passed v (snd (judgement safe exhausted rb v)).

Lemma reconcile_parked_wp cl o v w (Q : outcome ReconciliationDecision -> W -> Prop) :
  k = (claim_tenant_id cl, claim_command_id cl) ->
  registry_ok (r_registry r) ->
  (forall aid a, reg_adapters (r_registry r) !! aid = Some a -> quiet k a) ->
  at_view k v w -> op_matches o v -> v_state v = reconciliation_required ->
  (forall res v' w', passed v v' -> at_view k v' w' -> Q res w') ->
  wp (reconcile_parked r cl o) Q w.
Proof.
  intros Hk Hreg Hq Hw Hm Hst HQ.
  assert (HQl : forall ac v', passed v v' -> forall res w', lands ac v' res w' -> Q res w').
  { intros ac v' Hp res w' [Hw' _]. by eapply HQ. }
  unfold reconcile_parked. destruct (ownership _ _) as [own|] eqn:Hown.
  2: { eapply wp_mono; [|apply HQl, ps_left]. src_step. by apply wp_decide. }
  destruct (ownership_adapter _ _ _ Hreg Hown) as (a & p & Ha & Had & _ & Hadv & _).
  rewrite Had, Hadv. apply wp_bind, wp_lift, wp_bind, wp_lift, wp_bind.
  rewrite Hk in Hw. eapply wp_latest_attempt; [exact Hw|].
  apply wp_bind. eapply wp_load_envelope; [exact Hw|]. rewrite <- Hk in Hw.
  destruct (negb (mem_string _ _)).
  - eapply wp_mono; [|by apply HQl, ps_unroutable]. apply wp_bind. eapply wp_transition_k; [done|done|by rewrite Hst|done|done|]. intros o1 w1 Hw1.
    src_step. by apply wp_decide.
  - cbn zeta. apply wp_bind, inc_same. intros w1 Hs. pose proof (at_view_same _ _ _ _ Hs Hw) as Hw1.
    apply wp_bind. set (ctx := Build_AdapterContext _ _ _ _ _ _ _ _ _ _).
    destruct (observe_reconcile r a o ctx w1) as [res w2] eqn:Hobs. eapply wp_run; [exact Hobs|].
    assert (Hw2 : at_view k v w2).
    { replace w2 with (snd (observe_reconcile r a o ctx w1)) by (by rewrite Hobs).
      apply leaves_observe_reconcile; [by eapply Hq|done]. }
    destruct res as [rb|e]; [|by eapply HQ; [apply ps_left|]].
    eapply wp_mono; [by apply judge_wp|]. apply HQl. apply (ps_judged v a); [done|].
    by exists o, ctx, w1, w2.
Qed.

Lemma reconcile_claim_wp cl v w (Q : outcome ReconciliationDecision -> W -> Prop) :
  k = (claim_tenant_id cl, claim_command_id cl) ->
  registry_ok (r_registry r) ->
  (forall aid a, reg_adapters (r_registry r) !! aid = Some a -> quiet k a) ->
  at_view k v w ->
  (forall res v' w', passed v v' -> at_view k v' w' -> Q res w') ->
  wp (reconcile_claim r cl) Q w.
Proof.
  intros Hk Hreg Hq Hw HQ. unfold reconcile_claim. apply wp_bind, wp_catch, wp_bind.
  rewrite Hk in Hw. eapply wp_get; [exact Hw|]. rewrite <- Hk in Hw. intros o Hm. apply wp_ret. cbn zeta.
  pose proof Hm as (_ & Hos & _).
  assert (Hleft : forall action m, wp m (lands action v) w -> wp m Q w).
  { intros action m Hwp. eapply wp_mono; [exact Hwp|]. intros res w' [Hw' _].
    by eapply HQ; [apply ps_left|]. }
  case_bool_decide; [eapply Hleft; src_step; by apply wp_decide|].
  destruct (state_in _ _); [eapply Hleft; src_step; by apply wp_decide|].
  case_bool_decide as Hst; cbn [negb]; [|eapply Hleft; src_step; by apply wp_decide].
  rewrite Hos in Hst. by eapply reconcile_parked_wp.
Qed.
End ReconcilerFacts.
