(* ===== verification/MemoryBus.v ===== *)
(** * The in-memory execution bus and reconciliation source

    [src/app/platform/memory.py] over the outbox of the in-memory ledger.  An
    intent is the element at its position of the shared list, so what a
    dispatch does to it through the store (an operator's cancel or reconcile)
    and what the bus does to it are writes to the same object. *)

From Stdlib Require Import QArith Qminmax.
From S2P Require Import Prelude Json Uuid Commands LedgerSpec Ledger Resilience Policy Safety.
From S2P Require Import Adapter Registry World Bus Reconciler.
Local Open Scope nat_scope.

(** ** Writes to one intent *)

Definition set_claim (n : nat) (owner : option string) (lease required : option Q)
    (i : MemoryOutboxIntent) : MemoryOutboxIntent := {|
  intent_id := intent_id i; intent_tenant_id := intent_tenant_id i;
  intent_command_id := intent_command_id i; intent_destination := intent_destination i;
  intent_event_type := intent_event_type i; intent_idempotency_key := intent_idempotency_key i;
  intent_payload := intent_payload i; attempt_count := n;
  next_attempt_at := next_attempt_at i; lease_owner := owner;
  lease_until := lease; completed_at := completed_at i;
  dead_lettered_at := dead_lettered_at i; intent_cancelled_at := intent_cancelled_at i;
  reconciliation_required_at := required;
  reconciliation_attempts := reconciliation_attempts i; intent_last_error := intent_last_error i |}.

Definition set_end (next : Q) (completed dead : option Q) (i : MemoryOutboxIntent) :
    MemoryOutboxIntent := {|
  intent_id := intent_id i; intent_tenant_id := intent_tenant_id i;
  intent_command_id := intent_command_id i; intent_destination := intent_destination i;
  intent_event_type := intent_event_type i; intent_idempotency_key := intent_idempotency_key i;
  intent_payload := intent_payload i; attempt_count := attempt_count i;
  next_attempt_at := next; lease_owner := lease_owner i;
  lease_until := lease_until i; completed_at := completed;
  dead_lettered_at := dead; intent_cancelled_at := intent_cancelled_at i;
  reconciliation_required_at := reconciliation_required_at i;
  reconciliation_attempts := reconciliation_attempts i; intent_last_error := intent_last_error i |}.

Definition set_error (e : string) (i : MemoryOutboxIntent) : MemoryOutboxIntent := {|
  intent_id := intent_id i; intent_tenant_id := intent_tenant_id i;
  intent_command_id := intent_command_id i; intent_destination := intent_destination i;
  intent_event_type := intent_event_type i; intent_idempotency_key := intent_idempotency_key i;
  intent_payload := intent_payload i; attempt_count := attempt_count i;
  next_attempt_at := next_attempt_at i; lease_owner := lease_owner i;
  lease_until := lease_until i; completed_at := completed_at i;
  dead_lettered_at := dead_lettered_at i; intent_cancelled_at := intent_cancelled_at i;
  reconciliation_required_at := reconciliation_required_at i;
  reconciliation_attempts := reconciliation_attempts i;
  intent_last_error := Some (str_take 2048 e) |}.

Definition set_reconciling (owner : string) (lease : Q) (i : MemoryOutboxIntent) :
    MemoryOutboxIntent := {|
  intent_id := intent_id i; intent_tenant_id := intent_tenant_id i;
  intent_command_id := intent_command_id i; intent_destination := intent_destination i;
  intent_event_type := intent_event_type i; intent_idempotency_key := intent_idempotency_key i;
  intent_payload := intent_payload i; attempt_count := attempt_count i;
  next_attempt_at := next_attempt_at i; lease_owner := Some owner;
  lease_until := Some lease; completed_at := completed_at i;
  dead_lettered_at := dead_lettered_at i; intent_cancelled_at := intent_cancelled_at i;
  reconciliation_required_at := reconciliation_required_at i;
  reconciliation_attempts := reconciliation_attempts i + 1; intent_last_error := intent_last_error i |}.

(** the lease is given up; the quarantine is lifted unless [keep] *)
Definition unlease (keep : bool) (i : MemoryOutboxIntent) : MemoryOutboxIntent :=
  set_claim (attempt_count i) None None (if keep then reconciliation_required_at i else None) i.

Definition is_none {A} (o : option A) : bool := match o with None => true | Some _ => false end.
Definition lease_expired (now : Q) (i : MemoryOutboxIntent) : bool :=
  match lease_until i with None => true | Some t => negb (Qle_bool now t) end.

(** the delay of the known-safe retry, [min(3600.0, float(2 ** min(attempt_count, 10)))] *)
Definition retry_delay (attempt_count : nat) : Q :=
  Qmin 3600 (inject_Z (2 ^ Z.of_nat (Nat.min attempt_count 10))).

Section MemoryBus.
Context `{Externals} {X : Type}.
Abbreviation W := (World MemoryCommandStore X).

Record MemoryExecutionBus := {
  mb_dispatch : AdapterDispatch MemoryCommandStore X;
  mb_max_attempts : nat;
  mb_lease_seconds : Q;
  mb_worker_id : string;
}.

Definition intents (w : W) : list MemoryOutboxIntent := outbox (store w).
Definition modify_intent (i : nat) (f : MemoryOutboxIntent -> MemoryOutboxIntent) : M W unit :=
  modify (fun w => set_store (set_outbox (alter f i) (store w)) w).

Context (bus : MemoryExecutionBus).

(** [_claimable] *)
Definition claimable (now : Q) (i : MemoryOutboxIntent) : bool :=
  String.eqb (intent_destination i) ADAPTER_COMMAND_DESTINATION &&
  is_none (completed_at i) && is_none (dead_lettered_at i) && is_none (intent_cancelled_at i) &&
  is_none (reconciliation_required_at i) &&
  (attempt_count i <? mb_max_attempts bus)%nat &&
  Qle_bool (next_attempt_at i) now && lease_expired now i.

(** claimed with a lease, and quarantined before provider code *)
Definition claim_intent (now : Q) (i : MemoryOutboxIntent) : MemoryOutboxIntent :=
  set_claim (S (attempt_count i)) (Some (mb_worker_id bus)) (Some (now + mb_lease_seconds bus)%Q)
    (Some now) i.

Definition record_of (i : MemoryOutboxIntent) : OutboxRecord := {|
  record_id := intent_id i; record_tenant_id := intent_tenant_id i;
  record_destination := intent_destination i; record_event_type := intent_event_type i;
  record_idempotency_key := intent_idempotency_key i; record_payload := intent_payload i;
  record_attempt_count := attempt_count i; record_fencing_token := 0 |}.

(** the [except] and [else] clauses of [run_once] *)
Definition settle_intent (pos id attempts : nat) (now : Q) (r : outcome unit) : M W unit :=
  match r with
  | Ret _ =>
      modify_intent pos (fun i => set_end (next_attempt_at i) (Some now) (dead_lettered_at i)
                                    (unlease false i)) ;;;
      modify (log_processed id "completed")
  | Exc e =>
      if bool_decide (exn_cls e = KnownSafeRetryError) then
        modify_intent pos (fun i => set_error (exn_msg e) (unlease false i)) ;;;
        if (mb_max_attempts bus <=? attempts)%nat
        then modify_intent pos (fun i => set_end (next_attempt_at i) (completed_at i) (Some now) i) ;;;
             modify (log_processed id "dead_lettered")
        else modify_intent pos (fun i => set_end (now + retry_delay attempts)%Q (completed_at i)
                                           (dead_lettered_at i) i) ;;;
             modify (log_processed id "retry")
      else if bool_decide (exn_cls e = UnknownOutcomeError) then
        modify_intent pos (set_error (exn_msg e)) ;;;
        modify (log_processed id "quarantined")
      else if is_exception e then
        modify_intent pos (set_error (exn_name e +:+ ": " +:+ exn_msg e)) ;;;
        modify (log_processed id "quarantined")
      else reraise e
  end.

(** the result of a dispatch as a value, for the clauses of [run_once] *)
Definition attempted {S A} (m : M S A) : M S (outcome A) := fun s =>
  let (r, s') := m s in (Ret r, s').

Definition run_once (decision_id : string) : M W bool :=
  let! now := gets clock in
  let! rows := gets intents in
  match find_index (claimable now) rows with
  | None => ret false
  | Some pos =>
      modify_intent pos (claim_intent now) ;;;
      let! claimed := gets (fun w => intents w !! pos) in
      match claimed with
      | None => raise RuntimeError ""
      | Some i =>
          let! r := attempted (handle (mb_dispatch bus) decision_id (record_of i)) in
          (* [intent.attempt_count] is read again after the dispatch *)
          let! now' := gets clock in
          let! row := gets (fun w => intents w !! pos) in
          settle_intent pos (intent_id i) (from_option attempt_count 0 row) now' r ;;;
          ret true
      end
  end.

(** [drain]: at most [limit] rows; [ids] supplies the decision ids *)
Fixpoint drain (ids : nat -> string) (limit count : nat) : M W nat :=
  match limit with
  | O => ret count
  | S limit' =>
      let! more := run_once (ids count) in
      if more then drain ids limit' (S count) else ret count
  end.

Record MemoryBusStats := {
  st_pending : nat; st_leased : nat; st_quarantined : nat; st_completed : nat; st_dead_lettered : nat;
}.

Definition count_if {A} (p : A -> bool) (l : list A) : nat := length (List.filter p l).
Definition quarantined (i : MemoryOutboxIntent) : bool :=
  negb (is_none (reconciliation_required_at i)) && is_none (completed_at i) && is_none (dead_lettered_at i).

Definition stats (w : W) : MemoryBusStats :=
  let now := clock w in
  let rows := List.filter (fun i => String.eqb (intent_destination i) ADAPTER_COMMAND_DESTINATION) (intents w) in
  {| st_pending := count_if (claimable now) rows;
     st_leased := count_if (fun i => match lease_until i with Some t => Qle_bool now t | None => false end
                                     && is_none (completed_at i)) rows;
     st_quarantined := count_if quarantined rows;
     st_completed := count_if (fun i => negb (is_none (completed_at i))) rows;
     st_dead_lettered := count_if (fun i => negb (is_none (dead_lettered_at i))) rows |}.

(** [expire_leases], the worker crash of the certification suites *)
Definition leased (i : MemoryOutboxIntent) : bool := negb (is_none (lease_until i)).
Definition expire_leases : M W nat := fun w =>
  (Ret (count_if leased (intents w)),
   set_store (set_outbox (map (fun i =>
     if leased i then set_claim (attempt_count i) (lease_owner i) (Some (clock w - 1)%Q)
                        (reconciliation_required_at i) i else i)) (store w)) w).

(** ** [MemoryReconciliationSource] *)

Definition reconcilable (now : Q) (i : MemoryOutboxIntent) : bool :=
  String.eqb (intent_destination i) ADAPTER_COMMAND_DESTINATION &&
  negb (is_none (reconciliation_required_at i)) && is_none (completed_at i) &&
  is_none (dead_lettered_at i) && lease_expired now i.

(** [UUID(str(item.payload["command_id"]))] *)
Definition payload_uuid (d : jdict) : outcome UUID :=
  match dict_get "command_id" d with
  | None => Exc (Exn KeyError "command_id")
  | Some (JStr s) => match uuid_parse s with
                     | Some u => Ret u
                     | None => Exc (Exn ValueError "badly formed hexadecimal UUID string")
                     end
  | Some _ => Exc (Exn ValueError "badly formed hexadecimal UUID string")
  end.

Definition source_claim (reconciler_id : string) (lease_seconds : Q) : M W (option ReconciliationClaim) :=
  let! now := gets clock in
  let! rows := gets intents in
  match find_index (reconcilable now) rows with
  | None => ret None
  | Some pos =>
      modify_intent pos (set_reconciling reconciler_id (now + lease_seconds)%Q) ;;;
      let! claimed := gets (fun w => intents w !! pos) in
      match claimed with
      | None => raise RuntimeError ""
      | Some i =>
          let! c := lift_outcome (payload_uuid (intent_payload i)) in
          ret (Some {| claim_outbox_id := intent_id i; claim_tenant_id := intent_tenant_id i;
                       claim_command_id := c; claim_attempts := reconciliation_attempts i |})
      end
  end.

(** [_item]: the claimed row, if the lease is still this reconciler's *)
Definition source_item (cl : ReconciliationClaim) (reconciler_id : string) : M W nat :=
  let! rows := gets intents in
  match find_index (fun i => (intent_id i =? claim_outbox_id cl)%nat) rows with
  | None => raise RuntimeError "outbox intent does not exist"
  | Some pos =>
      match rows !! pos with
      | Some i => if bool_decide (lease_owner i = Some reconciler_id) then ret pos
                  else raise RuntimeError "reconciliation lease is owned by another reconciler"
      | None => raise RuntimeError "outbox intent does not exist"
      end
  end.

(** [resolve]; the writes before an unknown action's [ValueError] stay *)
Definition source_resolve (cl : ReconciliationClaim) (reconciler_id action reason : string) : M W unit :=
  let! pos := source_item cl reconciler_id in
  let! now := gets clock in
  modify_intent pos (fun i => set_error reason (unlease false i)) ;;;
  (if String.eqb action "complete"
   then modify_intent pos (fun i => set_end (next_attempt_at i) (Some now) (dead_lettered_at i) i)
   else if String.eqb action "dead_letter"
   then modify_intent pos (fun i => set_end (next_attempt_at i) (completed_at i) (Some now) i)
   else if String.eqb action "retry"
   then modify_intent pos (fun i => set_end now (completed_at i) (dead_lettered_at i) i)
   else raise ValueError action) ;;;
  modify (log_resolution (claim_outbox_id cl) action reason).

(** [release]: the quarantine stays *)
Definition source_release (cl : ReconciliationClaim) (reconciler_id reason : string) : M W unit :=
  let! pos := source_item cl reconciler_id in
  modify_intent pos (fun i => set_error reason (unlease true i)) ;;;
  modify (log_resolution (claim_outbox_id cl) "release" reason).

Definition source_backlog : M W nat := gets (fun w =>
  count_if (fun i => String.eqb (intent_destination i) ADAPTER_COMMAND_DESTINATION && quarantined i)
    (intents w)).

Definition MemoryReconciliationSource : ReconciliationSource MemoryCommandStore X := {|
  src_claim := source_claim; src_resolve := source_resolve; src_release := source_release;
  src_backlog := source_backlog |}.
End MemoryBus.
Arguments MemoryExecutionBus X : clear implicits.
