(* ===== verification/Principal.v ===== *)
(** * The verified principal

    [src/app/platform/principal.py]: the principal of a kernel request, read
    from the claims of a verified token and the registered caller of
    [src/app/control_plane_auth.py]; nothing of it comes from a request body. *)

From Stdlib Require Import Ascii.
From S2P Require Import Prelude Json Commands.
Local Open Scope nat_scope.

Record ControlPlaneCaller := {
  caller_client_id : string;
  command_scope : string;
  status_scope : string;
  allowed_command_prefixes : list string;
  allowed_targets : list string;
  connector_commands_allowed : bool;
  compatibility_only : bool;
}.

Definition MAX_TENANTS := 64.
Definition MAX_ROLES := 64.
Definition MAX_SCOPES := 128.
Definition SYNTHETIC_CALLERS : list string := ["middleware-api"].
Definition SYNTHETIC_ENVIRONMENTS : list string := ["development"; "test"; "staging"; "preproduction"].
Definition SYNTHETIC_PREFIX := "test.syn.".
Definition SYNTHETIC_TARGET := "test-syn".

(** [tuple(dict.fromkeys(l))]: first occurrences, in order *)
Fixpoint dedupe_from (seen l : list string) : list string :=
  match l with
  | [] => []
  | x :: l' => if mem_string x seen then dedupe_from seen l' else x :: dedupe_from (x :: seen) l'
  end.
Definition dedupe (l : list string) : list string := dedupe_from [] l.

Definition with_synthetic_authority (c : ControlPlaneCaller) (environment : string) : ControlPlaneCaller :=
  if negb (mem_string environment SYNTHETIC_ENVIRONMENTS) ||
     negb (mem_string (caller_client_id c) SYNTHETIC_CALLERS)
  then c
  else {| caller_client_id := caller_client_id c; command_scope := command_scope c;
          status_scope := status_scope c;
          allowed_command_prefixes := dedupe (allowed_command_prefixes c ++ [SYNTHETIC_PREFIX]);
          allowed_targets := if mem_string SYNTHETIC_TARGET (allowed_targets c) then allowed_targets c
                             else allowed_targets c ++ [SYNTHETIC_TARGET];
          connector_commands_allowed := true;
          compatibility_only := compatibility_only c |}.

Record KernelPrincipal := {
  p_subject : string;
  p_client_id : string;
  p_tenants : list string;
  p_roles : list string;
  p_scopes : list string;
  p_caller : ControlPlaneCaller;
}.

(** [authorized_for] *)
Definition authorized_for (p : KernelPrincipal) (tenant : string) : bool :=
  negb (mem_string "*" (p_tenants p)) && mem_string tenant (p_tenants p).

(** ** [str.strip] and [str.split] on ASCII white space *)

Definition is_space (c : ascii) : bool := char_in 9 13 c || char_in 28 32 c.
Fixpoint lstrip (s : string) : string :=
  match s with
  | String c s' => if is_space c then lstrip s' else s
  | EmptyString => EmptyString
  end.
Fixpoint rstrip (s : string) : string :=
  match s with
  | EmptyString => EmptyString
  | String c s' =>
      match rstrip s' with
      | EmptyString => if is_space c then EmptyString else String c EmptyString
      | t => String c t
      end
  end.
Definition strip (s : string) : string := rstrip (lstrip s).

(** the words of [s]; [cur] is the word being read, reversed *)
Fixpoint split_words (cur : string) (s : string) : list string :=
  match s with
  | EmptyString => if str_nonempty cur then [cur] else []
  | String c s' =>
      if is_space c
      then (if str_nonempty cur then [cur] else []) ++ split_words EmptyString s'
      else split_words (cur +:+ String c EmptyString) s'
  end.
Definition split (s : string) : list string := split_words EmptyString s.

(** ** Claims *)

Abbreviation denied_auth msg := (Exc (Exn AuthorizationError msg)).

Definition json_strings (l : list json) : list string :=
  omap (fun v => match v with JStr s => Some s | _ => None end) l.

(** [_string_items] *)
Definition string_items (value : option json) (limit : nat) : outcome (list string) :=
  let items := match value with
               | Some (JStr s) => Some (split s)
               | Some (JArr l) => Some (json_strings l)
               | _ => None
               end in
  match items with
  | None => Ret []
  | Some l =>
      let cleaned := dedupe (map strip (List.filter (fun s => str_nonempty (strip s)) l)) in
      if (limit <? length cleaned)%nat
      then denied_auth "token claim exceeds the allowed cardinality"
      else Ret cleaned
  end.

Definition obj_get (k : string) (v : option json) : option json :=
  match v with Some (JObj d) => dict_get k d | _ => None end.

(** the concatenation of several claims' items; the first failure raises *)
Fixpoint items_of (sources : list (option json)) (limit : nat) : outcome (list string) :=
  match sources with
  | [] => Ret []
  | v :: rest =>
      match string_items v limit with
      | Exc e => Exc e
      | Ret l => match items_of rest limit with Ret l' => Ret (l ++ l') | Exc e => Exc e end
      end
  end.

Definition roles_from_claims (claims : jdict) (client_id : string) : outcome (list string) :=
  let resource := dict_get "resource_access" claims in
  match items_of [obj_get "roles" (dict_get "realm_access" claims);
                  obj_get "roles" (obj_get client_id resource);
                  obj_get "roles" (obj_get "middleware-api" resource);
                  dict_get "roles" claims] MAX_ROLES with
  | Exc e => Exc e
  | Ret roles =>
      let unique := dedupe roles in
      if (MAX_ROLES <? length unique)%nat then denied_auth "token carries too many roles" else Ret unique
  end.

Definition tenants_from_claims (claims : jdict) : outcome (list string) :=
  let single := match get_str "tenant_id" claims with
                | Some s => if str_nonempty (strip s) then [strip s] else []
                | None => []
                end in
  match string_items (dict_get "tenant_ids" claims) MAX_TENANTS with
  | Exc e => Exc e
  | Ret l =>
      let unique := dedupe (single ++ l) in
      if mem_string "*" unique then denied_auth "wildcard tenant authorization is prohibited"
      else Ret unique
  end.

Definition principal_from_claims (claims : jdict) (c : ControlPlaneCaller) (environment : option string) :
    outcome KernelPrincipal :=
  let c := match environment with Some e => with_synthetic_authority c e | None => c end in
  match get_str "sub" claims with
  | None => denied_auth "token subject is required"
  | Some subject =>
      if negb (str_nonempty (strip subject)) then denied_auth "token subject is required"
      else if (300 <? String.length subject)%nat then denied_auth "token subject is malformed"
      else if negb (bool_decide (get_str "azp" claims = Some (caller_client_id c)))
      then denied_auth "token azp does not match the authenticated caller"
      else
      match tenants_from_claims claims with
      | Exc e => Exc e
      | Ret tenants =>
      match roles_from_claims claims (caller_client_id c) with
      | Exc e => Exc e
      | Ret roles =>
      match string_items (dict_get "scope" claims) MAX_SCOPES with
      | Exc e => Exc e
      | Ret scopes =>
          Ret {| p_subject := strip subject; p_client_id := caller_client_id c; p_tenants := tenants;
                 p_roles := roles; p_scopes := scopes; p_caller := c |}
      end end end
  end.

(** ** Facts *)

Lemma dedupe_from_spec seen l :
  NoDup (dedupe_from seen l) /\
  forall x, x ∈ dedupe_from seen l <-> x ∈ l /\ x ∉ seen.
Proof.
  revert seen. induction l as [|y l IH]; intros seen; simpl.
  { split; [constructor|]. intros x. set_solver. }
  destruct (mem_string y seen) eqn:Hy.
  - apply mem_string_spec in Hy. destruct (IH seen) as [IH1 IH2]. split; [done|].
    intros x. rewrite IH2, elem_of_cons. naive_solver.
  - assert (y ∉ seen) by (rewrite <- mem_string_spec, Hy; done).
    destruct (IH (y :: seen)) as [IH1 IH2]. split.
    + apply NoDup_cons. split; [|done]. rewrite IH2. set_solver.
    + intros x. rewrite elem_of_cons, IH2, !elem_of_cons. destruct (decide (x = y)); naive_solver.
Qed.

Lemma dedupe_NoDup l : NoDup (dedupe l).
Proof. apply dedupe_from_spec. Qed.
Lemma dedupe_elem x l : x ∈ dedupe l <-> x ∈ l.
Proof. unfold dedupe. rewrite (proj2 (dedupe_from_spec [] l)). set_solver. Qed.

Lemma string_items_bound v limit l : string_items v limit = Ret l -> length l <= limit /\ NoDup l.
Proof.
  unfold string_items.
  destruct (match v with Some (JStr s) => _ | Some (JArr l) => _ | _ => None end) as [items|].
  - destruct (_ <? _)%nat eqn:E; [done|]. intros [= <-]. apply Nat.ltb_ge in E. split; [exact E|apply dedupe_NoDup].
  - intros [= <-]. split; [simpl; lia|constructor].
Qed.
