(* ===== verification/Outbox.v ===== *)
(** * The durable outbox

    [PostgresOutboxStore] of [src/app/storage.py].  Every method is one
    database transaction: it sees one [now()], either all of its statements
    take effect or, when it raises, none does.  The table is the list of its
    rows; the append-only attempt events and reconciliation audit are lists.
    Which rows concurrent transactions hold locked is an argument of [claim],
    whose [SKIP LOCKED] passes them over.  Times are exact rationals in
    seconds.  At the end the worker of [src/app/worker.py] that drains it:
    [run_once] with its supervision, over an arbitrary handler. *)

From Stdlib Require Import QArith Qminmax.
From S2P Require Import Prelude Json Commands Bus Principal.
Local Open Scope nat_scope.

Record OutboxRow := mkRow {
  row_id : nat;
  row_tenant_id : string;
  row_destination : string;
  row_event_type : string;
  row_idempotency_key : string;
  row_payload : jdict;
  row_attempt_count : nat;
  row_fencing_token : Z;
  row_next_attempt_at : Q;
  row_lease_owner : option string;
  row_lease_until : option Q;
  row_completed_at : option Q;
  row_cancelled_at : option Q;
  row_dead_lettered_at : option Q;
  row_reconciliation_required_at : option Q;
  row_last_error : option string;
}.

(** [middleware_outbox_attempt_events], [middleware_reconciliation_audit] *)
Record AttemptEvent := {
  ae_outbox_id : nat;
  ae_tenant_id : string;
  ae_attempt_number : nat;
  ae_event_type : string;
  ae_worker_id : string;
  ae_safe_error_code : option string;
  ae_fencing_token : option Z;
}.
Record ReconciliationAudit := {
  ra_outbox_id : nat;
  ra_tenant_id : string;
  ra_action : string;
  ra_operator_id : string;
  ra_reason : string;
  ra_attempt_count : nat;
}.

Record OutboxTable := mkTable {
  rows : list OutboxRow;
  attempt_events : list AttemptEvent;
  audits : list ReconciliationAudit;
}.
Abbreviation TM := (M OutboxTable).

(** the columns the methods set: count, token, next attempt, lease, end marks, error *)
Definition row_with (r : OutboxRow) (count : nat) (token : Z) (next : Q) (owner : option string)
    (until completed dead required : option Q) (err : option string) : OutboxRow :=
  mkRow (row_id r) (row_tenant_id r) (row_destination r) (row_event_type r) (row_idempotency_key r)
    (row_payload r) count token next owner until completed (row_cancelled_at r) dead required err.

Definition present {A} (o : option A) : bool := match o with Some _ => true | None => false end.
(** [x < now()], [x > now()] of a nullable column: not true when it is NULL *)
Definition before (now : Q) (o : option Q) : bool :=
  match o with Some t => negb (Qle_bool now t) | None => false end.
Definition after (now : Q) (o : option Q) : bool :=
  match o with Some t => negb (Qle_bool t now) | None => false end.
(** [lease_until IS NULL OR lease_until < now()] *)
Definition lease_free (now : Q) (r : OutboxRow) : bool :=
  negb (present (row_lease_until r)) || before now (row_lease_until r).
(** [$n::bigint IS NULL OR fencing_token=$n] *)
Definition fence_ok (token : option Z) (r : OutboxRow) : bool :=
  match token with Some t => (row_fencing_token r =? t)%Z | None => true end.
(** [lease_owner=$2] *)
Definition owned_by (worker : string) (r : OutboxRow) : bool :=
  bool_decide (row_lease_owner r = Some worker).

(** neither finished, cancelled, dead-lettered nor awaiting reconciliation *)
Definition live (r : OutboxRow) : bool :=
  negb (present (row_completed_at r)) && negb (present (row_cancelled_at r)) &&
  negb (present (row_dead_lettered_at r)) && negb (present (row_reconciliation_required_at r)).

Definition DEFAULT_MAX_OUTBOX_ATTEMPTS := 8.

(** [UPDATE ... WHERE id=$1 AND p RETURNING ...]: the row it changed, as changed *)
Fixpoint update_where (p : OutboxRow -> bool) (f : OutboxRow -> OutboxRow) (l : list OutboxRow) :
    option OutboxRow * list OutboxRow :=
  match l with
  | [] => (None, [])
  | r :: l' =>
      if p r then (Some (f r), f r :: l')
      else let (x, l'') := update_where p f l' in (x, r :: l'')
  end.

Definition add_event (r : OutboxRow) (kind worker : string) (code : option string) (token : option Z)
    (t : OutboxTable) : OutboxTable :=
  mkTable (rows t) (attempt_events t ++ [{|
    ae_outbox_id := row_id r; ae_tenant_id := row_tenant_id r; ae_attempt_number := row_attempt_count r;
    ae_event_type := kind; ae_worker_id := worker; ae_safe_error_code := code; ae_fencing_token := token |}])
    (audits t).

(** ** [claim] *)

(** the first statement: rows out of attempts whose lease is over are dead-lettered *)
Definition bury (now : Q) (max_attempts : nat) (r : OutboxRow) : OutboxRow :=
  if live r && (max_attempts <=? row_attempt_count r) && lease_free now r
  then row_with r (row_attempt_count r) (row_fencing_token r) (row_next_attempt_at r) None None
         (row_completed_at r) (Some now) (row_reconciliation_required_at r)
         (Some (default "maximum attempts exhausted after worker lease expiry" (row_last_error r)))
  else r.

Definition claimable_row (now : Q) (max_attempts : nat) (r : OutboxRow) : bool :=
  live r && (row_attempt_count r <? max_attempts) && Qle_bool (row_next_attempt_at r) now &&
  lease_free now r.

(** [ORDER BY id LIMIT 1] *)
Fixpoint least_id (l : list OutboxRow) : option nat :=
  match l with
  | [] => None
  | r :: l' => Some (match least_id l' with Some i => Nat.min (row_id r) i | None => row_id r end)
  end.

Definition lease_row (now : Q) (worker : string) (lease_seconds : Q) (r : OutboxRow) : OutboxRow :=
  row_with r (S (row_attempt_count r)) (row_fencing_token r + 1) (row_next_attempt_at r) (Some worker)
    (Some (now + lease_seconds)%Q) (row_completed_at r) (row_dead_lettered_at r)
    (row_reconciliation_required_at r) (row_last_error r).

Definition record_of_row (r : OutboxRow) : OutboxRecord := {|
  record_id := row_id r; record_tenant_id := row_tenant_id r; record_destination := row_destination r;
  record_event_type := row_event_type r; record_idempotency_key := row_idempotency_key r;
  record_payload := row_payload r; record_attempt_count := row_attempt_count r;
  record_fencing_token := row_fencing_token r |}.

Definition claim (now : Q) (locked : nat -> bool) (worker : string) (lease_seconds : Q)
    (max_attempts : Z) : TM (option OutboxRecord) :=
  if Qle_bool lease_seconds 0 then raise ValueError "lease_seconds must be positive"
  else if (max_attempts <? 1)%Z then raise ValueError "max_attempts must be positive"
  else fun t =>
  let max := Z.to_nat max_attempts in
  let t1 := mkTable (map (bury now max) (rows t)) (attempt_events t) (audits t) in
  match least_id (List.filter (fun r => claimable_row now max r && negb (locked (row_id r))) (rows t1)) with
  | None => (Ret None, t1)
  | Some i =>
      let (x, l) := update_where (fun r => (row_id r =? i)%nat) (lease_row now worker lease_seconds) (rows t1) in
      match x with
      | None => (Ret None, t1)
      | Some r =>
          (Ret (Some (record_of_row r)),
           add_event r "claimed" worker None (Some (row_fencing_token r))
             (mkTable l (attempt_events t1) (audits t1)))
      end
  end.

(** ** The fenced updates *)

(** one [UPDATE ... RETURNING] of the row, the event it leaves, or the error *)
Definition fenced_update (p : OutboxRow -> bool) (f : OutboxRow -> OutboxRow)
    (event : option (OutboxRow -> OutboxTable -> OutboxTable)) (lost : string) : TM unit := fun t =>
  let (x, l) := update_where p f (rows t) in
  match x with
  | None => (Exc (Exn StorageError lost), t)
  | Some r =>
      let t' := mkTable l (attempt_events t) (audits t) in
      (Ret tt, match event with Some add => add r t' | None => t' end)
  end.

Definition complete (now : Q) (id : nat) (worker : string) (token : option Z) : TM unit :=
  fenced_update
    (fun r => (row_id r =? id)%nat && owned_by worker r && fence_ok token r &&
              negb (present (row_reconciliation_required_at r)))
    (fun r => row_with r (row_attempt_count r) (row_fencing_token r) (row_next_attempt_at r) None None
                (Some now) (row_dead_lettered_at r) (row_reconciliation_required_at r) None)
    (Some (fun r => add_event r "completed" worker None token))
    "outbox lease ownership lost before completion".

Definition quarantine_unknown_outcome (now : Q) (id : nat) (worker error : string) (lease_seconds : Q)
    (token : option Z) : TM unit :=
  if Qle_bool lease_seconds 0 then raise ValueError "lease_seconds must be positive"
  else
  fenced_update
    (fun r => (row_id r =? id)%nat && owned_by worker r && fence_ok token r &&
              after now (row_lease_until r) && negb (present (row_completed_at r)) &&
              negb (present (row_dead_lettered_at r)) &&
              negb (present (row_reconciliation_required_at r)))
    (fun r => row_with r (row_attempt_count r) (row_fencing_token r) (row_next_attempt_at r)
                (row_lease_owner r) (Some (now + lease_seconds)%Q) (row_completed_at r)
                (row_dead_lettered_at r) (Some now) (Some (str_take 2048 error)))
    (Some (fun r => add_event r "unknown_outcome" worker (Some "unknown_provider_outcome") token))
    "outbox lease ownership/fencing lost before reconciliation quarantine".

Definition renew_active_dispatch (now : Q) (id : nat) (worker : string) (lease_seconds : Q)
    (token : option Z) : TM unit :=
  if Qle_bool lease_seconds 0 then raise ValueError "lease_seconds must be positive"
  else
  fenced_update
    (fun r => (row_id r =? id)%nat && owned_by worker r && fence_ok token r &&
              present (row_reconciliation_required_at r) && negb (present (row_completed_at r)) &&
              negb (present (row_dead_lettered_at r)))
    (fun r => row_with r (row_attempt_count r) (row_fencing_token r) (row_next_attempt_at r)
                (row_lease_owner r) (Some (now + lease_seconds)%Q) (row_completed_at r)
                (row_dead_lettered_at r) (row_reconciliation_required_at r) (row_last_error r))
    None
    "active dispatch ownership/fencing lost during lease renewal".

(** [LEAST(3600, power(2, LEAST(attempt_count, 10))::int)] *)
Definition backoff (attempts : nat) : Q :=
  inject_Z (Z.min 3600 (2 ^ Z.of_nat (Nat.min attempts 10))).

Definition fail (now : Q) (id : nat) (worker error : string) (max_attempts : Z) (token : option Z) : TM unit :=
  if (max_attempts <? 1)%Z then raise ValueError "max_attempts must be positive"
  else
  let spent r := (max_attempts <=? Z.of_nat (row_attempt_count r))%Z in
  fenced_update
    (fun r => (row_id r =? id)%nat && owned_by worker r && fence_ok token r &&
              negb (present (row_reconciliation_required_at r)))
    (fun r => row_with r (row_attempt_count r) (row_fencing_token r)
                (if spent r then row_next_attempt_at r else now + backoff (row_attempt_count r))%Q
                None None (row_completed_at r) (if spent r then Some now else None)
                (row_reconciliation_required_at r) (Some (str_take 2048 error)))
    (Some (fun r => add_event r "failed" worker (Some "delivery_failed") token))
    "outbox lease ownership/fencing lost before retry transition".

(** ** [resolve_reconciliation] *)

Inductive ReconciliationAction := act_retry_row | act_complete_row | act_dead_letter_row.

#[export] Instance ReconciliationAction_eq_dec : EqDecision ReconciliationAction.
Proof. solve_decision. Defined.

Definition reconciliation_action_name (a : ReconciliationAction) : string :=
  match a with
  | act_retry_row => "retry" | act_complete_row => "complete" | act_dead_letter_row => "dead_letter"
  end.

(** the checks on the selected row, in the code's order; [None] passes *)
Definition resolve_refusal (now : Q) (a : ReconciliationAction) (max_attempts : Z)
    (worker : option string) (token : option Z) (r : OutboxRow) : option string :=
  if present (row_completed_at r) || present (row_dead_lettered_at r)
  then Some "outbox record is already terminal"
  else if negb (present (row_reconciliation_required_at r))
  then Some "outbox record is not awaiting reconciliation"
  else
  let lease :=
    if after now (row_lease_until r) then
      match worker with
      | None => Some "active dispatch cannot be manually reconciled before lease expiry"
      | Some w =>
          if negb (owned_by w r) then Some "active dispatch is owned by another worker"
          else if negb (fence_ok token r) then Some "active dispatch fencing token is stale"
          else if bool_decide (a = act_dead_letter_row)
          then Some "active worker may resolve only complete or known-safe retry"
          else None
      end
    else match worker with
         | Some _ => Some "worker dispatch lease expired; manual reconciliation is required"
         | None => None
         end in
  match lease with
  | Some e => Some e
  | None =>
      if bool_decide (a = act_retry_row) && (max_attempts <=? Z.of_nat (row_attempt_count r))%Z
      then Some "attempt limit is exhausted; choose complete or dead_letter"
      else None
  end.

Definition resolved_row (now : Q) (a : ReconciliationAction) (reason : string) (r : OutboxRow) : OutboxRow :=
  let put next completed dead prefix :=
    row_with r (row_attempt_count r) (row_fencing_token r) next None None completed dead None
      (Some (prefix +:+ reason)) in
  match a with
  | act_retry_row => put now (row_completed_at r) (row_dead_lettered_at r) "reconciliation approved retry: "
  | act_complete_row => put (row_next_attempt_at r) (Some now) (row_dead_lettered_at r)
                          "reconciliation confirmed delivery: "
  | act_dead_letter_row => put (row_next_attempt_at r) (row_completed_at r) (Some now)
                             "reconciliation dead-lettered: "
  end.

(** the argument checks, [None] when they pass *)
Definition resolve_arguments (operator reason : string) (max_attempts : Z) (worker : option string) :
    option string :=
  if (max_attempts <? 1)%Z then Some "max_attempts must be positive"
  else if negb (len_between 1 160 (strip operator)) then Some "operator_id must contain 1..160 characters"
  else if negb (len_between 1 2048 (strip reason)) then Some "reason must contain 1..2048 characters"
  else match worker with
       | Some w => if len_between 1 256 (strip w) then None
                   else Some "worker_id must contain 1..256 characters"
       | None => None
       end.

Definition resolve_reconciliation (now : Q) (id : nat) (operator : string) (a : ReconciliationAction)
    (reason : string) (max_attempts : Z) (worker : option string) (token : option Z) : TM unit :=
  match resolve_arguments operator reason max_attempts worker with
  | Some e => raise ValueError e
  | None => fun t =>
      match List.find (fun r => (row_id r =? id)%nat) (rows t) with
      | None => (Exc (Exn ReconciliationError "outbox record does not exist"), t)
      | Some r =>
          match resolve_refusal now a max_attempts (strip <$> worker) token r with
          | Some e => (Exc (Exn ReconciliationError e), t)
          | None =>
              (Ret tt, mkTable
                (snd (update_where (fun r => (row_id r =? id)%nat) (resolved_row now a (strip reason)) (rows t)))
                (attempt_events t)
                (audits t ++ [{| ra_outbox_id := id; ra_tenant_id := row_tenant_id r;
                   ra_action := reconciliation_action_name a; ra_operator_id := strip operator;
                   ra_reason := strip reason; ra_attempt_count := row_attempt_count r |}]))
          end
      end
  end.

(** ** Histories *)

(** the row a producer's transaction inserts *)
Definition new_row (id : nat) (tenant dest event key : string) (payload : jdict) (now : Q) : OutboxRow :=
  mkRow id tenant dest event key payload 0 0 now None None None None None None None.

(** a call of the store by a producer, a worker or an operator *)
Inductive OutboxCall :=
  | call_enqueue (id : nat) (tenant dest event key : string) (payload : jdict) (now : Q)
  | call_claim (now : Q) (locked : nat -> bool) (worker : string) (lease : Q) (max_attempts : Z)
  | call_complete (now : Q) (id : nat) (worker : string) (token : option Z)
  | call_quarantine (now : Q) (id : nat) (worker error : string) (lease : Q) (token : option Z)
  | call_renew (now : Q) (id : nat) (worker : string) (lease : Q) (token : option Z)
  | call_fail (now : Q) (id : nat) (worker error : string) (max_attempts : Z) (token : option Z)
  | call_resolve (now : Q) (id : nat) (operator : string) (a : ReconciliationAction) (reason : string)
      (max_attempts : Z) (worker : option string) (token : option Z).

Definition outbox_exec (t : OutboxTable) (c : OutboxCall) : OutboxTable :=
  match c with
  | call_enqueue id tenant dest event key payload now =>
      if existsb (fun r => (row_id r =? id)%nat) (rows t) then t
      else mkTable (rows t ++ [new_row id tenant dest event key payload now]) (attempt_events t) (audits t)
  | call_claim now locked w l n => snd (claim now locked w l n t)
  | call_complete now id w tok => snd (complete now id w tok t)
  | call_quarantine now id w e l tok => snd (quarantine_unknown_outcome now id w e l tok t)
  | call_renew now id w l tok => snd (renew_active_dispatch now id w l tok t)
  | call_fail now id w e n tok => snd (fail now id w e n tok t)
  | call_resolve now id o a re n w tok => snd (resolve_reconciliation now id o a re n w tok t)
  end.
Definition outbox_run (t : OutboxTable) (cs : list OutboxCall) : OutboxTable := fold_left outbox_exec cs t.

Definition row_at (id : nat) (t : OutboxTable) : option OutboxRow :=
  List.find (fun r => (row_id r =? id)%nat) (rows t).

(** ** How one call changes one row *)

(** how a call may change a row; only a resolution of that very row ([resolving])
    lifts its quarantine *)
Inductive row_step (resolving : bool) (r : OutboxRow) : OutboxRow -> Prop :=
  | rs_same : row_step resolving r r
  | rs_buried now err : live r = true ->
      row_step resolving r (row_with r (row_attempt_count r) (row_fencing_token r) (row_next_attempt_at r) None None
        (row_completed_at r) (Some now) (row_reconciliation_required_at r) err)
  | rs_leased now w l : live r = true -> row_step resolving r (lease_row now w l r)
  | rs_ended next completed dead err : row_reconciliation_required_at r = None ->
      row_step resolving r (row_with r (row_attempt_count r) (row_fencing_token r) next None None completed dead
        None err)
  | rs_quarantined now until err : row_reconciliation_required_at r = None ->
      row_step resolving r (row_with r (row_attempt_count r) (row_fencing_token r) (row_next_attempt_at r)
        (row_lease_owner r) until (row_completed_at r) (row_dead_lettered_at r) (Some now) err)
  | rs_renewed until : is_Some (row_reconciliation_required_at r) ->
      row_step resolving r (row_with r (row_attempt_count r) (row_fencing_token r) (row_next_attempt_at r)
        (row_lease_owner r) until (row_completed_at r) (row_dead_lettered_at r)
        (row_reconciliation_required_at r) (row_last_error r))
  | rs_resolved now a reason : resolving = true -> is_Some (row_reconciliation_required_at r) ->
      row_step resolving r (resolved_row now a reason r).

Lemma present_false {A} (o : option A) : present o = false <-> o = None.
Proof. by destruct o. Qed.
Lemma present_true {A} (o : option A) : present o = true <-> is_Some o.
Proof. destruct o; naive_solver. Qed.

Lemma find_update_eq p f l id :
  (forall r, row_id (f r) = row_id r) -> (forall r, p r = true -> row_id r = id) ->
  let (x, l') := update_where p f l in
  match x with
  | None => l' = l /\ forall r, In r l -> p r = false
  | Some r' => exists r, In r l /\ p r = true /\ r' = f r /\
      (NoDup (map row_id l) ->
         List.find (fun r => (row_id r =? id)%nat) l = Some r /\
         List.find (fun r => (row_id r =? id)%nat) l' = Some r')
  end /\ map row_id l' = map row_id l /\
  forall i, i <> id -> List.find (fun r => (row_id r =? i)%nat) l' = List.find (fun r => (row_id r =? i)%nat) l.
Proof.
  intros Hf Hp. induction l as [|r l IH]; simpl; [done|].
  destruct (p r) eqn:Hpr.
  - split; [|split; [simpl; by rewrite Hf|]].
    + exists r. split_and!; [by left|done|done|]. intros _. simpl. rewrite Hf, (Hp _ Hpr), Nat.eqb_refl. done.
    + intros i Hi. simpl. rewrite Hf, (Hp _ Hpr). by destruct (Nat.eqb_spec id i).
  - destruct (update_where p f l) as [x l'] eqn:Hu. destruct IH as (IH1 & IH2 & IH3).
    split; [|split; [simpl; by rewrite IH2|]].
    + destruct x as [r'|].
      * destruct IH1 as (r0 & Hin & Hp0 & -> & Hnd). exists r0. split_and!; [by right|done|done|].
        intros Hnd'. apply NoDup_cons in Hnd' as [Hni Hnd']. destruct (Hnd Hnd') as [H1 H2]. simpl.
        destruct (Nat.eqb_spec (row_id r) id) as [Heq|Hne]; [|done]. exfalso. apply Hni.
        rewrite <- (Hp _ Hp0) in Heq. rewrite Heq, list_elem_of_In. by apply in_map.
      * destruct IH1 as [-> IH1]. split; [done|]. intros r0 [<-|Hr0]; [done|by apply IH1].
    + intros i Hi. simpl. destruct (row_id r =? i)%nat; [done|]. by apply IH3.
Qed.

Definition table_ok (t : OutboxTable) : Prop := NoDup (map row_id (rows t)).

Definition resolves (c : OutboxCall) (id : nat) : bool :=
  match c with call_resolve _ i _ _ _ _ _ _ => (i =? id)%nat | _ => false end.

(** what a call that resolves the rows [p] does to every row *)
Definition table_step (p : nat -> bool) (t t' : OutboxTable) : Prop :=
  table_ok t' /\
  forall i r, row_at i t = Some r -> exists r', row_at i t' = Some r' /\ row_step (p i) r r'.

Lemma table_step_refl p t : table_ok t -> table_step p t t.
Proof. intros Hok. split; [done|]. intros i r Hr. exists r. split; [done|apply rs_same]. Qed.

Lemma row_at_id i t r : row_at i t = Some r -> row_id r = i.
Proof. intros Hr. apply List.find_some in Hr as [_ Hr]. by apply Nat.eqb_eq in Hr. Qed.

Lemma fenced_update_step q p f ev lost t id :
  table_ok t -> (forall r, row_id (f r) = row_id r) -> (forall r, p r = true -> row_id r = id) ->
  (forall r, p r = true -> forall b, row_step b r (f r)) ->
  (forall add, ev = Some add -> forall r t, rows (add r t) = rows t) ->
  table_step q t (snd (fenced_update p f ev lost t)).
Proof.
  intros Hok Hf Hp Hs Hev. unfold fenced_update. pose proof (find_update_eq p f (rows t) id Hf Hp) as Hu.
  destruct (update_where p f (rows t)) as [[r'|] l'].
  2: by apply table_step_refl.
  destruct Hu as ((r & Hin & Hpr & -> & Hnd) & Hids & Hother). destruct (Hnd Hok) as [H1 H2].
  assert (Hrows : rows (snd (Ret tt, match ev with Some add => add (f r) (mkTable l' (attempt_events t) (audits t))
     | None => mkTable l' (attempt_events t) (audits t) end)) = l').
  { destruct ev as [add|]; [|done]. simpl. by rewrite (Hev add eq_refl). }
  split; [unfold table_ok; by rewrite Hrows, Hids|]. unfold row_at. rewrite Hrows. intros i r0 Hr0.
  destruct (decide (i = id)) as [->|Hne].
  - exists (f r). split; [done|]. rewrite H1 in Hr0. injection Hr0 as <-. by apply Hs.
  - exists r0. rewrite Hother by done. split; [done|apply rs_same].
Qed.

Ltac split_andb := repeat match goal with H : _ && _ = true |- _ => apply andb_prop in H as [? H] end;
  repeat match goal with H : negb _ = true |- _ => apply negb_true_iff in H end.

Lemma bury_id now n r : row_id (bury now n r) = row_id r.
Proof. unfold bury. by destruct (_ && _). Qed.
Lemma bury_step b now n r : row_step b r (bury now n r).
Proof.
  unfold bury. destruct (live r) eqn:Hl; [|apply rs_same].
  destruct (_ && _); [by apply rs_buried|apply rs_same].
Qed.
Lemma bury_live now n r : live (bury now n r) = true -> bury now n r = r.
Proof. unfold bury. destruct (_ && _); [|done]. unfold live. simpl. by rewrite andb_false_r. Qed.

Lemma find_map_bury now n i l :
  List.find (fun r => (row_id r =? i)%nat) (map (bury now n) l) =
    bury now n <$> List.find (fun r => (row_id r =? i)%nat) l.
Proof. induction l as [|r l IH]; simpl; [done|]. rewrite bury_id. by destruct (row_id r =? i)%nat. Qed.

Lemma map_id_bury now n l : map row_id (map (bury now n) l) = map row_id l.
Proof. rewrite map_map. apply map_ext. intros r. apply bury_id. Qed.

Lemma least_id_in l i : least_id l = Some i -> exists r, In r l /\ row_id r = i /\ forall r', In r' l -> i <= row_id r'.
Proof.
  revert i. induction l as [|r l IH]; intros i; simpl; [done|]. destruct (least_id l) as [j|] eqn:Hl.
  - intros [= <-]. destruct (IH _ eq_refl) as (r0 & Hin & Hid & Hmin).
    destruct (Nat.min_spec (row_id r) j) as [[? ->]|[? ->]].
    + exists r. split_and!; [by left|done|]. intros r' [<-|Hr']; [done|]. specialize (Hmin _ Hr'). lia.
    + exists r0. split_and!; [by right|done|]. intros r' [<-|Hr']; [done|]. by apply Hmin.
  - intros [= <-]. exists r. split_and!; [by left|done|]. intros r' [<-|Hr']; [done|].
    destruct l as [|x l]; [done|]. simpl in Hl. by destruct (least_id l).
Qed.

Lemma find_in l r : NoDup (map row_id l) -> In r l -> List.find (fun x => (row_id x =? row_id r)%nat) l = Some r.
Proof.
  induction l as [|x l IH]; simpl; [done|]. intros [Hni Hnd]%NoDup_cons [->|Hin]; [by rewrite Nat.eqb_refl|].
  destruct (Nat.eqb_spec (row_id x) (row_id r)) as [Heq|Hne]; [|by apply IH]. exfalso. apply Hni.
  rewrite Heq, list_elem_of_In. by apply in_map.
Qed.

(** what a claim did, when it leased a row *)
Lemma claim_inv now locked w l n t rec t' :
  table_ok t -> claim now locked w l n t = (Ret (Some rec), t') ->
  exists r, row_at (record_id rec) t = Some r /\ claimable_row now (Z.to_nat n) r = true /\
    locked (row_id r) = false /\ rec = record_of_row (lease_row now w l r) /\
    row_at (record_id rec) t' = Some (lease_row now w l r).
Proof.
  intros Hok. unfold claim. destruct (Qle_bool l 0); [done|]. destruct (n <? 1)%Z; [done|]. simpl.
  destruct (least_id _) as [i|] eqn:Hl; [|done].
  destruct (least_id_in _ _ Hl) as (r & Hin & Hid & _). apply List.filter_In in Hin as [Hin Hc].
  apply andb_prop in Hc as [Hc Hlock]. apply negb_true_iff in Hlock.
  apply in_map_iff in Hin as (r0 & Hr & Hin).
  assert (Hlive : live r = true) by (unfold claimable_row in Hc; by split_andb).
  subst r. rewrite bury_live in Hc, Hlock, Hid by done.
  assert (Hnd : NoDup (map row_id (map (bury now (Z.to_nat n)) (rows t)))) by by rewrite map_id_bury.
  pose proof (find_update_eq (fun r => (row_id r =? i)%nat) (lease_row now w l) (map (bury now (Z.to_nat n)) (rows t)) i
    (fun r => eq_refl) (fun r H => proj1 (Nat.eqb_eq _ _) H)) as Hu.
  destruct (update_where _ _ _) as [[r'|] l']; [|done].
  destruct Hu as ((r1 & _ & _ & -> & Hf) & _). destruct (Hf Hnd) as [H1 H2]. intros [= <- <-]. simpl.
  assert (Hr0 : row_at i t = Some r0) by (rewrite <- Hid; by apply find_in).
  rewrite find_map_bury in H1. unfold row_at in Hr0. rewrite Hr0 in H1. simpl in H1. injection H1 as <-.
  rewrite bury_live in * by done. rewrite Hid. exists r0. done.
Qed.

Lemma claim_step q now locked w l n t : table_ok t -> table_step q t (snd (claim now locked w l n t)).
Proof.
  intros Hok. unfold claim. destruct (Qle_bool l 0); [by apply table_step_refl|].
  destruct (n <? 1)%Z; [by apply table_step_refl|]. cbv zeta.
  set (m := Z.to_nat n). set (t1 := mkTable (map (bury now m) (rows t)) (attempt_events t) (audits t)).
  assert (Hok1 : table_ok t1) by (unfold table_ok; simpl; by rewrite map_id_bury).
  assert (Hbury : table_step q t t1).
  { split; [done|]. intros i r Hr. exists (bury now m r). split; [|apply bury_step].
    unfold row_at in *. simpl. by rewrite find_map_bury, Hr. }
  destruct (least_id _) as [i|] eqn:Hl; [|done].
  destruct (least_id_in _ _ Hl) as (r & Hin & Hid & _). apply List.filter_In in Hin as [Hin Hc].
  assert (Hlive : live r = true) by (unfold claimable_row in Hc; by split_andb).
  pose proof (find_update_eq (fun r => (row_id r =? i)%nat) (lease_row now w l) (rows t1) i
    (fun r => eq_refl) (fun r H => proj1 (Nat.eqb_eq _ _) H)) as Hu.
  destruct (update_where _ _ _) as [[r'|] l']; [|done].
  destruct Hu as ((r1 & _ & _ & -> & Hf) & Hids & Hother). destruct (Hf Hok1) as [H1 H2].
  split; [unfold table_ok; simpl; by rewrite Hids|]. intros j r0 Hr0. unfold row_at at 1. simpl.
  destruct (proj2 Hbury j r0 Hr0) as (r2 & Hr2 & Hstep).
  destruct (decide (j = i)) as [->|Hne]; [|rewrite Hother by done; by exists r2].
  assert (Hfr : List.find (fun r => (row_id r =? i)%nat) (rows t1) = Some r).
  { rewrite <- Hid. by apply find_in. }
  rewrite H1 in Hfr. injection Hfr as ->. unfold row_at in Hr2. rewrite H1 in Hr2. injection Hr2 as <-.
  exists (lease_row now w l r). split; [done|].
  assert (Hr0' : bury now m r0 = r).
  { unfold row_at in Hr0. simpl in H1. rewrite find_map_bury, Hr0 in H1. by injection H1. }
  rewrite <- Hr0' in Hlive |- *. rewrite bury_live in * by done. by apply rs_leased.
Qed.

Lemma resolve_step now id o a re n w tok t :
  table_ok t -> table_step (fun i => (id =? i)%nat) t (snd (resolve_reconciliation now id o a re n w tok t)).
Proof.
  intros Hok. unfold resolve_reconciliation. destruct (resolve_arguments _ _ _ _); [by apply table_step_refl|].
  destruct (List.find _ (rows t)) as [r|] eqn:Hr; [|by apply table_step_refl].
  destruct (resolve_refusal _ _ _ _ _ _) eqn:Href; [by apply table_step_refl|].
  assert (Hq : is_Some (row_reconciliation_required_at r)).
  { unfold resolve_refusal in Href. destruct (_ || _); [done|].
    destruct (row_reconciliation_required_at r); [by eexists|done]. }
  set (f := resolved_row now a (strip re)).
  assert (Hfid : forall r, row_id (f r) = row_id r) by (intros x; by destruct a).
  pose proof (find_update_eq (fun r => (row_id r =? id)%nat) f (rows t) id Hfid
    (fun r H => proj1 (Nat.eqb_eq _ _) H)) as Hu.
  destruct (update_where _ _ _) as [[r'|] l']; simpl.
  - destruct Hu as ((r1 & _ & _ & -> & Hf) & Hids & Hother). destruct (Hf Hok) as [H1 H2].
    rewrite Hr in H1. injection H1 as <-. split; [unfold table_ok; simpl; by rewrite Hids|].
    intros j r0 Hr0. unfold row_at. simpl. destruct (decide (j = id)) as [->|Hne].
    + exists (f r). split; [done|]. unfold row_at in Hr0. rewrite Hr in Hr0. injection Hr0 as <-.
      apply rs_resolved; [apply Nat.eqb_refl|done].
    + rewrite Hother by done. exists r0. split; [done|apply rs_same].
  - destruct Hu as ((-> & _) & _). split; [done|]. intros j r0 Hr0. exists r0. split; [done|apply rs_same].
Qed.

Lemma find_app_l {A} (p : A -> bool) l k x : List.find p l = Some x -> List.find p (l ++ k) = Some x.
Proof. induction l as [|y l IH]; simpl; [done|]. by destruct (p y). Qed.

(** every call takes every row by a [row_step] *)
Lemma exec_step t c : table_ok t -> table_step (resolves c) t (outbox_exec t c).
Proof.
  intros Hok. destruct c; cbn [outbox_exec].
  - destruct (existsb _ _) eqn:He; [by apply table_step_refl|]. split.
    + unfold table_ok. simpl. rewrite map_app. apply NoDup_app. split_and!; [done| |apply NoDup_singleton].
      intros i Hi Hn. apply list_elem_of_singleton in Hn as ->. rewrite list_elem_of_In in Hi.
      apply in_map_iff in Hi as (r & Hid & Hin).
      assert (existsb (fun r => (row_id r =? id)%nat) (rows t) = true); [|congruence].
      apply existsb_exists. exists r. split; [done|]. by apply Nat.eqb_eq.
    + intros i r Hr. exists r. split; [|apply rs_same]. unfold row_at in *. simpl. by apply find_app_l.
  - by apply claim_step.
  - apply (fenced_update_step _ _ _ _ _ _ id); [done|done| | |by intros ? [= <-]]; intros r Hr; split_andb.
    + by apply Nat.eqb_eq.
    + intros b. match goal with H : present _ = false |- _ => apply present_false in H; rewrite H end. by apply rs_ended.
  - unfold quarantine_unknown_outcome. destruct (Qle_bool _ _); [by apply table_step_refl|].
    apply (fenced_update_step _ _ _ _ _ _ id); [done|done| | |by intros ? [= <-]]; intros r Hr; split_andb.
    + by apply Nat.eqb_eq.
    + intros b. apply rs_quarantined. by apply present_false.
  - unfold renew_active_dispatch. destruct (Qle_bool _ _); [by apply table_step_refl|].
    apply (fenced_update_step _ _ _ _ _ _ id); [done|done| | |done]; intros r Hr; split_andb.
    + by apply Nat.eqb_eq.
    + intros b. apply rs_renewed. by apply present_true.
  - unfold fail. destruct (_ <? _)%Z; [by apply table_step_refl|].
    apply (fenced_update_step _ _ _ _ _ _ id); [done|done| | |by intros ? [= <-]]; intros r Hr; split_andb.
    + by apply Nat.eqb_eq.
    + intros b. match goal with H : present _ = false |- _ => apply present_false in H; rewrite H end. by apply rs_ended.
  - by apply resolve_step.
Qed.

(** tokens and counts go up only together, by one, on a claim *)
Lemma row_step_token b r r' :
  row_step b r r' ->
  row_id r' = row_id r /\ (row_fencing_token r <= row_fencing_token r')%Z /\
  row_attempt_count r <= row_attempt_count r'.
Proof. destruct 1; simpl; split_and!; try done; try lia; destruct a; simpl; lia. Qed.

Lemma outbox_run_row t cs i r :
  table_ok t -> row_at i t = Some r ->
  table_ok (outbox_run t cs) /\ exists r', row_at i (outbox_run t cs) = Some r' /\
    (row_fencing_token r <= row_fencing_token r')%Z /\ row_attempt_count r <= row_attempt_count r'.
Proof.
  revert t r. induction cs as [|c cs IH]; intros t r Hok Hr; simpl; [split; [done|by exists r]|].
  destruct (exec_step t c Hok) as [Hok1 Hs]. destruct (Hs _ _ Hr) as (r1 & Hr1 & Hs1).
  destruct (row_step_token _ _ _ Hs1) as (_ & H1 & H2). destruct (IH _ _ Hok1 Hr1) as (Hok2 & r2 & Hr2 & H3 & H4).
  split; [done|]. exists r2. split_and!; [done|lia|lia].
Qed.

(** ** The outbox worker

    [OutboxWorker] of [src/app/worker.py] over the durable outbox.  A handler
    is any program: its run changes the outside world, takes time, and ends
    with a return or an exception (its answer to a cancellation included).
    What the heartbeat, other workers and operators do to the table meanwhile
    is part of what the run does to the shared state. *)

Definition is_cancelled (e : exn) : bool := isinstance e ["CancelledError"].

Section Worker.
Context {X : Type}.

Record WorkerState := mkWorker {
  table : OutboxTable;
  time_ : Q;
  outside : X;
}.
Abbreviation WM := (M WorkerState).

(** one store transaction, at the current time *)
Definition in_table {A} (m : Q -> TM A) : WM A := fun s =>
  let (r, t) := m (time_ s) (table s) in (r, mkWorker t (time_ s) (outside s)).

(** how awaiting the handler ended: the task's own result, and whether the
    worker itself was cancelled while it waited *)
Record HandlerRun := { run_result : outcome unit; worker_cancelled : bool }.
Abbreviation Handler := (OutboxRecord -> WorkerState -> HandlerRun * WorkerState).

Record OutboxWorker := {
  wk_handlers : gmap string Handler;
  wk_poll_seconds : Q;
  wk_lease_seconds : Q;
  wk_handler_timeout_seconds : Q;
  wk_max_attempts : Z;
  wk_effect_gate : option (OutboxRecord -> WM bool);
  wk_id : string;
}.

(** the checks of [__init__] *)
Definition checked_worker (wk : OutboxWorker) : outcome OutboxWorker :=
  let refuse msg := Exc (Exn ValueError msg) in
  if Qle_bool (wk_poll_seconds wk) 0 then refuse "poll_seconds must be positive"
  else if Qle_bool (wk_lease_seconds wk) 0 then refuse "lease_seconds must be positive"
  else if Qle_bool (wk_handler_timeout_seconds wk) 0 ||
          Qle_bool (wk_lease_seconds wk) (wk_handler_timeout_seconds wk)
  then refuse "handler timeout must be positive and strictly below lease"
  else if (wk_max_attempts wk <? 1)%Z then refuse "max_attempts must be positive"
  else Ret wk.

Context (wk : OutboxWorker).

(** [interval = max(0.01, min(5.0, self.lease_seconds / 3.0))] *)
Definition heartbeat_interval : Q := Qmax (1 # 100) (Qmin 5 (wk_lease_seconds wk / 3)).

(** one beat: a failing renewal is logged and retried at the next beat *)
Definition heartbeat (id : nat) (token : Z) : WM unit :=
  try_ (in_table (fun now => renew_active_dispatch now id (wk_id wk) (wk_lease_seconds wk) (Some token)))
    (fun _ => ret tt).

Definition reject (rec : OutboxRecord) (why : string) : WM unit :=
  in_table (fun now => fail now (record_id rec) (wk_id wk) why (wk_max_attempts wk)
                         (Some (record_fencing_token rec))).

Definition settle (rec : OutboxRecord) (a : ReconciliationAction) (reason : string) : WM unit :=
  in_table (fun now => resolve_reconciliation now (record_id rec) ("worker:" +:+ wk_id wk) a reason
    (wk_max_attempts wk) (Some (wk_id wk)) (Some (record_fencing_token rec))).

Definition RESERVED : string :=
  "provider dispatch reserved before handler invocation; external outcome must be explicitly confirmed before automatic release".

(** from the start of the handler to the resolution: the deadline is decided
    when the wait for the handler ends, before its result is looked at *)
Definition supervise (rec : OutboxRecord) (h : Handler) : WM bool := fun s =>
  let deadline := (time_ s + wk_handler_timeout_seconds wk)%Q in
  let (run, s') := h rec s in
  let timed_out := negb (Qle_bool (time_ s') deadline) in
  (if worker_cancelled run then raise (Foreign "CancelledError" ["BaseException"]) ""
   else match run_result run with
   | Ret _ =>
       if timed_out then ret true
       else settle rec act_complete_row
              "handler returned successfully and confirmed delivery outcome" ;;; ret true
   | Exc e =>
       if is_cancelled e then (if timed_out then ret true else reraise e)
       else if bool_decide (exn_cls e = KnownSafeRetryError) then
         if timed_out then ret true
         else settle rec act_retry_row ("handler certified known-safe retry: " +:+ exn_msg e) ;;; ret true
       else if is_exception e then ret true
       else reraise e
   end) s'.

Definition run_once (locked : nat -> bool) : WM bool :=
  let! claimed := in_table (fun now => claim now locked (wk_id wk) (wk_lease_seconds wk) (wk_max_attempts wk)) in
  match claimed with
  | None => ret false
  | Some rec =>
      match wk_handlers wk !! record_destination rec with
      | None =>
          reject rec ("no handler registered for destination " +:+ record_destination rec) ;;; ret true
      | Some h =>
          let! allowed := match wk_effect_gate wk with
                          | Some gate => gate rec
                          | None => ret false
                          end in
          if negb allowed then reject rec "effect gate denied dispatch" ;;; ret true
          else
          in_table (fun now => quarantine_unknown_outcome now (record_id rec) (wk_id wk) RESERVED
            (wk_lease_seconds wk) (Some (record_fencing_token rec))) ;;;
          supervise rec h
      end
  end.
End Worker.
Arguments WorkerState X : clear implicits.
Arguments OutboxWorker X : clear implicits.
Arguments HandlerRun : clear implicits.
