(* ===== verification/Inbox.v ===== *)
(** * The event inbox and its hash chain

    [MemoryInboxStore] of [src/app/storage.py] with the event envelope of
    [src/app/models.py]: an event is accepted once, under both of its
    identities, and appended to its tenant's chain of hashes, which
    [verify_event_ledger_records] checks. *)

From stdpp Require Import sorting.
From Stdlib Require Import Ascii.
From S2P Require Import Prelude Json Sha256 Commands Registry.
Local Open Scope Z_scope.

(** the timestamps are the texts [model_dump(mode="json")] prints *)
Record EventEnvelope := {
  ev_event_id : string;
  ev_event_type : string;
  ev_event_version : string;
  ev_occurred_at : string;
  ev_received_at : string;
  ev_source : string;
  ev_tenant_id : string;
  ev_customer_id : option string;
  ev_correlation_id : string;
  ev_causation_id : string;
  ev_idempotency_key : string;
  ev_payload : jdict;
  ev_metadata : jdict;
}.

(** [envelope.model_dump(mode="json")], in field order *)
Definition event_dump (e : EventEnvelope) : jdict :=
  [("event_id", JStr (ev_event_id e));
   ("event_type", JStr (ev_event_type e));
   ("event_version", JStr (ev_event_version e));
   ("occurred_at", JStr (ev_occurred_at e));
   ("received_at", JStr (ev_received_at e));
   ("source", JStr (ev_source e));
   ("tenant_id", JStr (ev_tenant_id e));
   ("customer_id", jopt (ev_customer_id e));
   ("correlation_id", JStr (ev_correlation_id e));
   ("causation_id", JStr (ev_causation_id e));
   ("idempotency_key", JStr (ev_idempotency_key e));
   ("payload", JObj (ev_payload e));
   ("metadata", JObj (ev_metadata e))].

Inductive IngressStatus := ing_accepted | ing_duplicate.
Record IngressResult := {
  ing_event_id : string;
  ing_tenant_id : string;
  ing_status : IngressStatus;
  ing_is_duplicate : bool;
  ing_correlation_id : string;
}.

#[export] Instance IngressStatus_eq_dec : EqDecision IngressStatus.
Proof. solve_decision. Defined.

(** ** Hashes *)

Fixpoint repeat_char (n : nat) (c : ascii) : string :=
  match n with O => EmptyString | S n' => String c (repeat_char n' c) end.
Definition ZERO_LEDGER_HASH : string := repeat_char 64 "0"%char.

Definition canonical_payload_sha256 (payload : jdict) : string := sha256_hex (dumps (JObj payload)).

Definition event_ledger_hash (tenant : string) (sequence : Z) (event semantic previous : string) : string :=
  sha256_hex (dumps (JArr
    [JStr "codestra-event-ledger-v1"; JStr tenant; JInt sequence; JStr event; JStr semantic; JStr previous])).

Record EventLedgerRecord := {
  rec_tenant_id : string;
  rec_tenant_sequence : Z;
  rec_event_id : string;
  rec_semantic_sha256 : string;
  rec_previous_entry_hash : string;
  rec_entry_hash : string;
  rec_payload : jdict;
}.

(** ** [verify_event_ledger_records] *)

(** the key [(tenant_id, tenant_sequence)], compared as Python compares tuples *)
Definition record_le (a b : EventLedgerRecord) : Prop :=
  if decide (rec_tenant_id a = rec_tenant_id b) then rec_tenant_sequence a <= rec_tenant_sequence b
  else str_le (rec_tenant_id a) (rec_tenant_id b).
#[export] Instance record_le_dec a b : Decision (record_le a b).
Proof. unfold record_le. destruct (decide _); apply _. Defined.

(** [expected_sequence], [previous_hash], [counts] *)
Record VerifyState := {
  expected_sequence : gmap string Z;
  previous_hash : gmap string string;
  counts : gmap string Z;
}.

(** one iteration of the loop *)
Definition verify_record (st : VerifyState) (r : EventLedgerRecord) : outcome VerifyState :=
  let tenant := rec_tenant_id r in
  let expected := default 1 (expected_sequence st !! tenant) in
  let previous := default ZERO_LEDGER_HASH (previous_hash st !! tenant) in
  let broken what := Exc (Exn EventLedgerIntegrityError ("event ledger " +:+ what +:+ " for tenant " +:+ tenant)) in
  if negb (rec_tenant_sequence r =? expected) then broken "sequence gap"
  else if negb (bool_decide (rec_previous_entry_hash r = previous)) then broken "previous hash mismatch"
  else if negb (bool_decide (canonical_payload_sha256 (rec_payload r) = rec_semantic_sha256 r))
  then broken "payload hash mismatch"
  else if negb (bool_decide (rec_entry_hash r =
            event_ledger_hash tenant (rec_tenant_sequence r) (rec_event_id r) (rec_semantic_sha256 r)
              (rec_previous_entry_hash r)))
  then broken "entry hash mismatch"
  else Ret {|
    expected_sequence := <[tenant := expected + 1]> (expected_sequence st);
    previous_hash := <[tenant := rec_entry_hash r]> (previous_hash st);
    counts := <[tenant := default 0 (counts st !! tenant) + 1]> (counts st) |}.

Fixpoint verify_loop (st : VerifyState) (l : list EventLedgerRecord) : outcome VerifyState :=
  match l with
  | [] => Ret st
  | r :: l' => match verify_record st r with Ret st' => verify_loop st' l' | Exc e => Exc e end
  end.

Definition verify_start : VerifyState :=
  {| expected_sequence := ∅; previous_hash := ∅; counts := ∅ |}.

Definition verify_event_ledger_records (records : list EventLedgerRecord) : outcome (gmap string Z) :=
  match verify_loop verify_start (merge_sort record_le records) with
  | Ret st => Ret (counts st)
  | Exc e => Exc e
  end.

(** ** [MemoryInboxStore] *)

Record MemoryInboxStore := {
  event_items : gmap (string * string) (string * IngressResult);
  idempotency_items : gmap (string * string) (string * IngressResult);
  ledger_records : list EventLedgerRecord;
  ledger_heads : gmap string string;
  ledger_counts : gmap string Z;
}.
Abbreviation IM := (M MemoryInboxStore).

Definition empty_inbox : MemoryInboxStore :=
  {| event_items := ∅; idempotency_items := ∅; ledger_records := []; ledger_heads := ∅; ledger_counts := ∅ |}.

(** the arguments of [accept] the in-memory store reads; [body_sha256] and
    [destination] it ignores *)
Record Ingress := {
  in_envelope : EventEnvelope;
  in_producer_client_id : string;
  in_semantic_sha256 : string;
  in_deduplication_sha256 : option string;
}.

(** [deduplication_sha256 or semantic_sha256] *)
Definition comparison_sha256 (c : Ingress) : string :=
  default (in_semantic_sha256 c) (truthy_str (in_deduplication_sha256 c)).
Definition event_key (c : Ingress) : string * string :=
  match in_deduplication_sha256 c with
  | Some _ => (in_producer_client_id c, ev_event_id (in_envelope c))
  | None => (ev_tenant_id (in_envelope c), ev_event_id (in_envelope c))
  end.
Definition idempotency_key_of (c : Ingress) : string * string :=
  (ev_tenant_id (in_envelope c), ev_idempotency_key (in_envelope c)).

Definition as_duplicate (r : IngressResult) : IngressResult := {|
  ing_event_id := ing_event_id r; ing_tenant_id := ing_tenant_id r; ing_status := ing_duplicate;
  ing_is_duplicate := true; ing_correlation_id := ing_correlation_id r |}.

Definition accepted_result (e : EventEnvelope) : IngressResult := {|
  ing_event_id := ev_event_id e; ing_tenant_id := ev_tenant_id e; ing_status := ing_accepted;
  ing_is_duplicate := false; ing_correlation_id := ev_correlation_id e |}.

(** the new record of the event's tenant *)
Definition next_record (c : Ingress) (s : MemoryInboxStore) : EventLedgerRecord :=
  let e := in_envelope c in
  let sequence := default 0 (ledger_counts s !! ev_tenant_id e) + 1 in
  let previous := default ZERO_LEDGER_HASH (ledger_heads s !! ev_tenant_id e) in
  {| rec_tenant_id := ev_tenant_id e; rec_tenant_sequence := sequence; rec_event_id := ev_event_id e;
     rec_semantic_sha256 := in_semantic_sha256 c; rec_previous_entry_hash := previous;
     rec_entry_hash := event_ledger_hash (ev_tenant_id e) sequence (ev_event_id e) (in_semantic_sha256 c) previous;
     rec_payload := event_dump e |}.

(** both identities, the record and the tenant's new head *)
Definition append_event_record (c : Ingress) (s : MemoryInboxStore) : MemoryInboxStore :=
  let e := in_envelope c in
  let item := (comparison_sha256 c, accepted_result e) in
  let r := next_record c s in
  {| event_items := <[event_key c := item]> (event_items s);
     idempotency_items := <[idempotency_key_of c := item]> (idempotency_items s);
     ledger_records := ledger_records s ++ [r];
     ledger_heads := <[ev_tenant_id e := rec_entry_hash r]> (ledger_heads s);
     ledger_counts := <[ev_tenant_id e := rec_tenant_sequence r]> (ledger_counts s) |}.

Definition accept (c : Ingress) : IM IngressResult := fun s =>
  let e := in_envelope c in
  if negb (bool_decide (canonical_payload_sha256 (event_dump e) = in_semantic_sha256 c))
  then (Exc (Exn EventLedgerIntegrityError "semantic hash does not match the canonical event payload"), s)
  else
  let event_existing := event_items s !! event_key c in
  let idem_existing := idempotency_items s !! idempotency_key_of c in
  let differ := match event_existing, idem_existing with
    | Some (_, r1), Some (_, r2) => negb (bool_decide (ing_event_id r1 = ing_event_id r2))
    | _, _ => false
    end in
  if differ
  then (Exc (Exn ReplayConflict "event and idempotency identities refer to different accepted events"), s)
  else match (match event_existing with Some x => Some x | None => idem_existing end) with
  | Some (old_comparison_hash, result) =>
      if negb (bool_decide (old_comparison_hash = comparison_sha256 c))
      then (Exc (Exn ReplayConflict
              "event/idempotency identity was reused with a different semantic payload"), s)
      else (Ret (as_duplicate result), s)
  | None => (Ret (accepted_result e), append_event_record c s)
  end.

(** a history of calls: what each answered, and the store they leave *)
Fixpoint inbox_run (cs : list Ingress) (s : MemoryInboxStore) :
    list (outcome IngressResult) * MemoryInboxStore :=
  match cs with
  | [] => ([], s)
  | c :: cs' =>
      let (r, s1) := accept c s in
      let (rs, s2) := inbox_run cs' s1 in (r :: rs, s2)
  end.

(** ** The specification of the chain *)

Definition of_tenant (tenant : string) (l : list EventLedgerRecord) : list EventLedgerRecord :=
  List.filter (fun r => bool_decide (rec_tenant_id r = tenant)) l.

(** records numbered from [n], each carrying its predecessor's hash, its
    payload's and its own *)
Fixpoint chained (n : Z) (previous : string) (l : list EventLedgerRecord) : Prop :=
  match l with
  | [] => True
  | r :: l' =>
      rec_tenant_sequence r = n /\ rec_previous_entry_hash r = previous /\
      rec_semantic_sha256 r = canonical_payload_sha256 (rec_payload r) /\
      rec_entry_hash r = event_ledger_hash (rec_tenant_id r) n (rec_event_id r) (rec_semantic_sha256 r) previous /\
      chained (n + 1) (rec_entry_hash r) l'
  end.

(** the hash a chain ends with *)
Fixpoint chain_head (previous : string) (l : list EventLedgerRecord) : string :=
  match l with [] => previous | r :: l' => chain_head (rec_entry_hash r) l' end.

(** every tenant's records, in sequence order, are a chain from the start *)
Definition ledger_chained (l : list EventLedgerRecord) : Prop :=
  forall tenant, chained 1 ZERO_LEDGER_HASH (of_tenant tenant (merge_sort record_le l)).

(** the answers that accepted an event of the tenant *)
Definition accepted_for (tenant : string) (rs : list (outcome IngressResult)) : list (outcome IngressResult) :=
  List.filter (fun o => match o with
    | Ret r => bool_decide (ing_status r = ing_accepted) && bool_decide (ing_tenant_id r = tenant)
    | Exc _ => false
    end) rs.
