(* ===== verification/InboxFacts.v ===== *)
(** * Chains of event records

    The text of an entry determines its fields, the verifier accepts exactly the
    chains, and a tenant's chain is in order wherever its records stand: shared by
    the in-memory inbox and the durable one. *)

From stdpp Require Import sorting.
From Stdlib Require Import Ascii.
From S2P Require Import Prelude Json Sha256 Uuid Commands Registry Inbox.
Local Open Scope Z_scope.

(** ** The text of an entry determines its fields *)

(** reading one escaped character back *)
Definition unhex (c : ascii) : nat :=
  let n := nat_of_ascii c in if (n <? 58)%nat then n - 48 else n - 87.
Definition unescape_char (s : string) : option (ascii * string) :=
  match s with
  | EmptyString => None
  | String c s' =>
      if Ascii.eqb c quote_char then None
      else if negb (Ascii.eqb c (ascii_of_nat 92)) then Some (c, s')
      else match s' with
        | EmptyString => None
        | String d s'' =>
            if Ascii.eqb d "b" then Some (ascii_of_nat 8, s'')
            else if Ascii.eqb d "t" then Some (ascii_of_nat 9, s'')
            else if Ascii.eqb d "n" then Some (ascii_of_nat 10, s'')
            else if Ascii.eqb d "f" then Some (ascii_of_nat 12, s'')
            else if Ascii.eqb d "r" then Some (ascii_of_nat 13, s'')
            else if Ascii.eqb d "u" then
              match s'' with
              | String _ (String _ (String x (String y k))) => Some (ascii_of_nat (unhex x * 16 + unhex y), k)
              | _ => None
              end
            else Some (d, s'')
        end
  end.

Lemma unescape_escape c k : unescape_char (escape_char c +:+ k) = Some (c, k).
Proof. by destruct c as [[] [] [] [] [] [] [] []]. Qed.

Lemma escape_inj s1 s2 k1 k2 :
  escape s1 +:+ quote +:+ k1 = escape s2 +:+ quote +:+ k2 -> s1 = s2 /\ k1 = k2.
Proof.
  revert s2. induction s1 as [|c s1 IH]; intros [|d s2]; cbn [escape].
  - intros H. injection H as H. by split.
  - intros H. apply (f_equal unescape_char) in H. rewrite !str_app_assoc in H. by rewrite unescape_escape in H.
  - intros H. apply (f_equal unescape_char) in H. rewrite !str_app_assoc in H. by rewrite unescape_escape in H.
  - intros H. apply (f_equal unescape_char) in H. rewrite !str_app_assoc, !unescape_escape in H.
    injection H as -> H. by destruct (IH _ H) as [-> ->].
Qed.
Lemma dump_string_inj s1 s2 k1 k2 :
  dump_string s1 +:+ k1 = dump_string s2 +:+ k2 -> s1 = s2 /\ k1 = k2.
Proof.
  unfold dump_string. rewrite !str_app_assoc. intros H. apply escape_inj. by injection H.
Qed.

(** what [event_ledger_hash] hashes *)
Definition entry_text (r : EventLedgerRecord) : string :=
  dumps (JArr [JStr "codestra-event-ledger-v1"; JStr (rec_tenant_id r); JInt (rec_tenant_sequence r);
               JStr (rec_event_id r); JStr (rec_semantic_sha256 r); JStr (rec_previous_entry_hash r)]).

Lemma entry_text_inj a b :
  rec_tenant_id a = rec_tenant_id b -> rec_tenant_sequence a = rec_tenant_sequence b ->
  entry_text a = entry_text b ->
  rec_event_id a = rec_event_id b /\ rec_semantic_sha256 a = rec_semantic_sha256 b /\
  rec_previous_entry_hash a = rec_previous_entry_hash b.
Proof.
  unfold entry_text. intros -> ->. cbn [dumps map join]. rewrite !str_app_assoc. intros H.
  do 7 apply (inj (String.append _)) in H.
  apply dump_string_inj in H as [He H]. apply (inj (String.append _)) in H.
  apply dump_string_inj in H as [Hs H]. apply (inj (String.append _)) in H.
  apply dump_string_inj in H as [Hp _]. done.
Qed.

Lemma event_ledger_hash_text r :
  event_ledger_hash (rec_tenant_id r) (rec_tenant_sequence r) (rec_event_id r) (rec_semantic_sha256 r)
    (rec_previous_entry_hash r) = sha256_hex (entry_text r).
Proof. reflexivity. Qed.
Lemma canonical_payload_text r :
  canonical_payload_sha256 (rec_payload r) = sha256_hex (dumps (JObj (rec_payload r))).
Proof. reflexivity. Qed.
#[local] Opaque event_ledger_hash canonical_payload_sha256.

(** ** The order of the verifier *)

Lemma compare_le_trans a b c :
  String.compare a b <> Gt -> String.compare b c <> Gt -> String.compare a c <> Gt.
Proof.
  revert b c. induction a as [|x a IH]; intros [|y b] [|z c]; simpl; try done.
  unfold Ascii.compare.
  destruct (N.compare_spec (Ascii.N_of_ascii x) (Ascii.N_of_ascii y)),
    (N.compare_spec (Ascii.N_of_ascii y) (Ascii.N_of_ascii z)),
    (N.compare_spec (Ascii.N_of_ascii x) (Ascii.N_of_ascii z)); try done; try lia. apply IH.
Qed.

Lemma str_le_compare a b : str_le a b <-> String.compare a b <> Gt.
Proof. unfold str_le, String.leb. by destruct (String.compare a b). Qed.

Lemma str_le_trans a b c : str_le a b -> str_le b c -> str_le a c.
Proof. rewrite !str_le_compare. apply compare_le_trans. Qed.

#[export] Instance record_le_trans : Transitive record_le.
Proof.
  intros a b c. unfold record_le.
  destruct (decide (rec_tenant_id a = rec_tenant_id b)) as [Hab|Hab],
    (decide (rec_tenant_id b = rec_tenant_id c)) as [Hbc|Hbc],
    (decide (rec_tenant_id a = rec_tenant_id c)) as [Hac|Hac]; intros H1 H2; try congruence; try lia.
  - destruct Hab. apply String.leb_antisym; [exact H1|]. by rewrite Hac.
  - by eapply str_le_trans.
Qed.

#[export] Instance record_le_total : Total record_le.
Proof.
  intros a b. unfold record_le.
  destruct (decide (rec_tenant_id a = rec_tenant_id b)) as [Hab|Hab],
    (decide (rec_tenant_id b = rec_tenant_id a)) as [Hba|Hba]; try congruence; [lia|apply String.leb_total].
Qed.

(** ** What the verifier accepts *)

Lemma of_tenant_app t l k : of_tenant t (l ++ k) = of_tenant t l ++ of_tenant t k.
Proof. apply List.filter_app. Qed.
Lemma of_tenant_perm t l k : l ≡ₚ k -> of_tenant t l ≡ₚ of_tenant t k.
Proof.
  unfold of_tenant. induction 1; simpl; repeat case_bool_decide; eauto using perm_swap, Permutation_trans.
Qed.

(** the loop's maps, for one tenant *)
Definition next_of (st : VerifyState) (t : string) : Z := default 1 (expected_sequence st !! t).
Definition prev_of (st : VerifyState) (t : string) : string := default ZERO_LEDGER_HASH (previous_hash st !! t).
Definition count_of (m : gmap string Z) (t : string) : Z := default 0 (m !! t).

Lemma verify_record_spec st r st' :
  verify_record st r = Ret st' <->
  chained (next_of st (rec_tenant_id r)) (prev_of st (rec_tenant_id r)) [r] /\
  st' = {| expected_sequence := <[rec_tenant_id r := next_of st (rec_tenant_id r) + 1]> (expected_sequence st);
           previous_hash := <[rec_tenant_id r := rec_entry_hash r]> (previous_hash st);
           counts := <[rec_tenant_id r := count_of (counts st) (rec_tenant_id r) + 1]> (counts st) |}.
Proof.
  unfold verify_record, next_of, prev_of, count_of. cbn [chained]. split.
  - destruct (Z.eqb_spec (rec_tenant_sequence r) (default 1 (expected_sequence st !! rec_tenant_id r))) as [Hs|]; [|done].
    cbn [negb]. case_bool_decide as Hp; [|done]. case_bool_decide as Hb; [|done]. case_bool_decide as He; [|done].
    cbn [negb]. intros [= <-]. rewrite <- Hs, <- Hp. by split_and!.
  - intros [(Hs & Hp & Hb & He & _) ->]. rewrite Hs, Hp, Z.eqb_refl. cbn [negb].
    by rewrite !bool_decide_eq_true_2.
Qed.

Lemma verify_loop_spec l st :
  (exists st', verify_loop st l = Ret st') <->
  forall t, chained (next_of st t) (prev_of st t) (of_tenant t l).
Proof.
  revert st. induction l as [|r l IH]; intros st; simpl; [by split; eauto|].
  destruct (verify_record st r) as [st1|e] eqn:Hr.
  - apply verify_record_spec in Hr as [Hc ->]. rewrite IH. clear IH.
    apply forall_proper. intros t. unfold next_of, prev_of. cbn [expected_sequence previous_hash].
    case_bool_decide as Ht; cbn [chained of_tenant].
    + subst t. rewrite !lookup_insert_eq. destruct Hc as (H1 & H2 & H3 & H4 & _).
      split; [intros H; by split_and!|by intros (_ & _ & _ & _ & H)].
    + by rewrite !lookup_insert_ne.
  - split; [by intros [? ?]|]. intros H. specialize (H (rec_tenant_id r)). rewrite bool_decide_eq_true_2 in H by done.
    destruct H as (H1 & H2 & H3 & H4 & _).
    assert (exists st', verify_record st r = Ret st') as [? ?]; [|congruence].
    eexists. apply verify_record_spec. split; [|done]. by split_and!.
Qed.

Lemma verify_loop_counts l st st' t :
  verify_loop st l = Ret st' ->
  count_of (counts st') t = count_of (counts st) t + Z.of_nat (length (of_tenant t l)).
Proof.
  revert st. induction l as [|r l IH]; intros st; simpl; [intros [= <-]; lia|].
  destruct (verify_record st r) as [st1|e] eqn:Hr; [|done]. intros H. rewrite (IH _ H).
  apply verify_record_spec in Hr as [_ ->]. unfold count_of. cbn [counts]. case_bool_decide as Ht.
  - subst t. rewrite lookup_insert_eq. simpl. lia.
  - by rewrite lookup_insert_ne.
Qed.

(** ** Chains *)

Lemma chained_cons n p x l :
  chained n p (x :: l) <-> chained n p [x] /\ chained (n + 1) (rec_entry_hash x) l.
Proof. cbn [chained]. tauto. Qed.
Lemma chained_app n p l r :
  chained n p (l ++ [r]) <-> chained n p l /\ chained (n + Z.of_nat (length l)) (chain_head p l) [r].
Proof.
  revert n p. induction l as [|x l IH]; intros n p; cbn [app chain_head length].
  - rewrite Z.add_0_r. cbn [chained]. tauto.
  - rewrite (chained_cons n p x (l ++ [r])), (chained_cons n p x l), IH.
    replace (n + Z.of_nat (S (length l))) with (n + 1 + Z.of_nat (length l)) by lia. tauto.
Qed.
Lemma chain_head_app p l r : chain_head p (l ++ [r]) = rec_entry_hash r.
Proof. revert p. induction l as [|x l IH]; intros p; [done|apply IH]. Qed.

Lemma chained_lookup n p l i r :
  chained n p l -> l !! i = Some r -> rec_tenant_sequence r = n + Z.of_nat i.
Proof.
  revert n p i. induction l as [|x l IH]; intros n p i; [done|]. intros (Hs & _ & _ & _ & Hc). destruct i as [|i].
  - intros [= <-]. lia.
  - intros Hi. rewrite (IH _ _ _ Hc Hi). lia.
Qed.
Lemma of_tenant_elem t l r : r ∈ of_tenant t l -> rec_tenant_id r = t.
Proof. rewrite list_elem_of_In. unfold of_tenant. rewrite filter_In, bool_decide_eq_true. by intros []. Qed.

(** a tenant's chain is in order, whatever stands between its records *)
Lemma chained_sorted n p t l : Forall (fun r => rec_tenant_id r = t) l -> chained n p l -> StronglySorted record_le l.
Proof.
  revert n p. induction l as [|x l IH]; intros n p Ht Hc; [constructor|]. apply Forall_cons in Ht as [Hx Ht].
  destruct Hc as (Hs & _ & _ & _ & Hc). constructor; [by eapply IH|]. apply Forall_forall. intros y Hy.
  rewrite Forall_forall in Ht. specialize (Ht y Hy). unfold record_le. rewrite decide_True by congruence.
  apply list_elem_of_lookup in Hy as [i Hi]. rewrite (chained_lookup _ _ _ _ _ Hc Hi). lia.
Qed.
Lemma StronglySorted_filter {A} (R : relation A) (f : A -> bool) l :
  StronglySorted R l -> StronglySorted R (List.filter f l).
Proof.
  induction 1 as [|x l Hs IH Hx]; simpl; [constructor|]. destruct (f x); [|done]. constructor; [done|].
  rewrite Forall_forall in Hx |- *. intros y Hy. apply Hx. rewrite list_elem_of_In in Hy |- *.
  by apply filter_In in Hy as [Hy _].
Qed.
Lemma chained_order t l :
  chained 1 ZERO_LEDGER_HASH (of_tenant t l) -> of_tenant t (merge_sort record_le l) = of_tenant t l.
Proof.
  intros Hc. pose proof (merge_sort_Permutation record_le l) as Hperm. apply (of_tenant_perm t) in Hperm.
  apply (StronglySorted_unique_strong record_le); [| |eapply chained_sorted, Hc|done].
  - intros x y Hx Hy Hxy Hyx. rewrite Hperm in Hx. pose proof (of_tenant_elem _ _ _ Hx) as Hxt.
    pose proof (of_tenant_elem _ _ _ Hy) as Hyt. unfold record_le in Hxy, Hyx.
    rewrite decide_True in Hxy by congruence. rewrite decide_True in Hyx by congruence.
    apply list_elem_of_lookup in Hx as [i Hi]. apply list_elem_of_lookup in Hy as [j Hj].
    pose proof (chained_lookup _ _ _ _ _ Hc Hi). pose proof (chained_lookup _ _ _ _ _ Hc Hj).
    assert (i = j) as -> by lia. congruence.
  - apply StronglySorted_filter, StronglySorted_merge_sort; apply _.
  - apply Forall_forall. intros r. apply of_tenant_elem.
Qed.

(** ** Lists of records *)

(** every tenant's records are a chain from the start *)
Definition chains (l : list EventLedgerRecord) : Prop := forall t, chained 1 ZERO_LEDGER_HASH (of_tenant t l).

Lemma chains_sorted l t : chains l -> of_tenant t (merge_sort record_le l) = of_tenant t l.
Proof. intros Hl. by apply chained_order. Qed.

(** chains verify, and are counted *)
Lemma chains_verify l :
  chains l -> exists m, verify_event_ledger_records l = Ret m /\
    forall t, count_of m t = Z.of_nat (length (of_tenant t l)).
Proof.
  intros Hl. unfold verify_event_ledger_records.
  assert (exists st, verify_loop verify_start (merge_sort record_le l) = Ret st) as [st Hst].
  { apply verify_loop_spec. intros t. rewrite chains_sorted by done. apply Hl. }
  rewrite Hst. exists (counts st). split; [done|]. intros t.
  by rewrite (verify_loop_counts _ _ _ t Hst), chains_sorted.
Qed.

Lemma accepted_for_app t a b : accepted_for t (a ++ b) = accepted_for t a ++ accepted_for t b.
Proof. apply List.filter_app. Qed.
