(* ===== verification/PgLedger.v ===== *)
(** * The durable command ledger

    [PostgresCommandStore] of [src/app/commands.py] over the tables of
    [migrations/0002_command_ledger.sql], [0004_operation_control.sql] and
    [0013_command_recovery.sql].  Every method is one transaction that locks the
    command's row ([FOR UPDATE]): it sees one [now()], and when it raises the
    tables are as before.  Tables are lists in the order of their serial ids, or
    maps when the code reads them by their key.  A [jsonb] column holds a value;
    the order of its keys is read nowhere.  At the end, the cancellation of an
    incident's notifications, which writes the same tables. *)

From stdpp Require Import sorting.
From Stdlib Require Import QArith Ascii.
From S2P Require Import Prelude Json Sha256 Uuid Commands LedgerSpec Ledger Bus Principal Registry Outbox.
Local Open Scope nat_scope.

(** ** Tables *)

(** [middleware_commands] *)
Record CommandRow := {
  c_identity : CommandIdentity;
  c_payload : jdict;
  c_payload_sha256 : string;
  c_state : CommandState;
  c_provider_operation_id : option string;
  c_last_error : option string;
  c_created_at : datetime;
  c_updated_at : datetime;
  c_queued_at : option datetime;
  c_accepted_at : option datetime;
  c_completed_at : option datetime;
  c_failed_at : option datetime;
  c_resource_version : Z;
  c_cancelled_at : option datetime;
  c_cancellation_reason : option string;
  c_reconciliation_requested_at : option datetime;
  c_reconciliation_reason : option string;
}.

(** [middleware_command_attempts] *)
Record AttemptRow := {
  a_id : nat;
  a_key : Key;
  a_number : nat;
  a_state : CommandState;
  a_provider_operation_id : option string;
  a_result_payload : option jdict;
  a_error_code : option string;
  a_error_detail : option string;
  a_started_at : datetime;
  a_finished_at : option datetime;
}.

(** [middleware_command_audit] *)
Record AuditRow := {
  u_id : nat;
  u_key : Key;
  u_previous_state : option CommandState;
  u_new_state : CommandState;
  u_actor_id : string;
  u_reason : string;
  u_metadata : jdict;
  u_created_at : datetime;
}.

(** a [middleware_outbox] row with its [command_id] column *)
Record CommandOutboxRow := { ob_command_id : option UUID; ob_row : OutboxRow }.

Record CommandDB := mkDB {
  db_commands : gmap Key CommandRow;
  db_attempts : list AttemptRow;
  db_audit : list AuditRow;
  db_mutations : gmap MutationKey (string * CommandOperation);
  db_outbox : list CommandOutboxRow;
  db_dead_letters : gmap Key DeadLetterRecord;
  db_replays : gmap UUID ReplayRecord;
}.
Abbreviation DM := (M CommandDB).

Definition empty_db : CommandDB := mkDB ∅ [] [] ∅ [] ∅ ∅.

Definition set_db_command (k : Key) (r : CommandRow) (d : CommandDB) : CommandDB :=
  mkDB (<[k := r]> (db_commands d)) (db_attempts d) (db_audit d) (db_mutations d) (db_outbox d)
    (db_dead_letters d) (db_replays d).
Definition set_db_attempts (l : list AttemptRow) (d : CommandDB) : CommandDB :=
  mkDB (db_commands d) l (db_audit d) (db_mutations d) (db_outbox d) (db_dead_letters d) (db_replays d).
Definition set_db_outbox (l : list CommandOutboxRow) (d : CommandDB) : CommandDB :=
  mkDB (db_commands d) (db_attempts d) (db_audit d) (db_mutations d) l (db_dead_letters d) (db_replays d).
Definition set_db_mutation (k : MutationKey) (x : string * CommandOperation) (d : CommandDB) : CommandDB :=
  mkDB (db_commands d) (db_attempts d) (db_audit d) (<[k := x]> (db_mutations d)) (db_outbox d)
    (db_dead_letters d) (db_replays d).
Definition set_db_dead_letter (k : Key) (r : DeadLetterRecord) (d : CommandDB) : CommandDB :=
  mkDB (db_commands d) (db_attempts d) (db_audit d) (db_mutations d) (db_outbox d)
    (<[k := r]> (db_dead_letters d)) (db_replays d).
Definition set_db_replay (r : ReplayRecord) (d : CommandDB) : CommandDB :=
  mkDB (db_commands d) (db_attempts d) (db_audit d) (db_mutations d) (db_outbox d)
    (db_dead_letters d) (<[replay_id r := r]> (db_replays d)).

(** ** Transactions *)

(** [conn.transaction()]: an exception rolls every statement back *)
Definition transaction {S A} (m : M S A) : M S A := fun d =>
  match m d with (Ret a, d') => (Ret a, d') | (Exc e, _) => (Exc e, d) end.

Definition is_alnum (c : ascii) : bool := char_in 48 57 c || char_in 65 90 c || char_in 97 122 c.
(** [^[A-Za-z0-9][A-Za-z0-9._:-]{0,127}$] *)
Definition tenant_pattern (s : string) : bool :=
  match s with
  | EmptyString => false
  | String c s' =>
      is_alnum c && (String.length s' <=? 127) &&
      str_forallb (fun c => is_alnum c || Ascii.eqb c "." || Ascii.eqb c "_" || Ascii.eqb c ":" ||
                            Ascii.eqb c "-") s'
  end.

(** [set_asyncpg_transaction_tenant_context]: the identifier is checked before it is bound *)
Definition tenant_context {S} (t : string) : M S unit :=
  if negb (str_nonempty (strip t)) then raise ValueError "tenant_id is required"
  else if negb (tenant_pattern (strip t)) then raise ValueError "tenant_id contains unsupported characters"
  else ret tt.
Definition tenant_ok (t : string) : bool := str_nonempty (strip t) && tenant_pattern (strip t).

(** [asyncpg_tenant_connection] *)
Definition tenant_transaction {S A} (t : string) (m : M S A) : M S A := transaction (tenant_context t ;;; m).

(** a violated [UNIQUE] constraint, raised by the driver *)
Definition unique_violation {S A} (constraint : string) : M S A :=
  raise (Foreign "UniqueViolationError" ["PostgresError"; "Exception"]) constraint.

(** ** Rows and queries *)

(** the columns an [UPDATE middleware_commands] sets *)
Definition command_row_with (r : CommandRow) (st : CommandState) (provider last_error : option string)
    (updated : datetime) (queued accepted completed failed : option datetime) (version : Z)
    (cancelled_at : option datetime) (cancellation_reason : option string)
    (requested_at : option datetime) (reconciliation_reason : option string) : CommandRow := {|
  c_identity := c_identity r; c_payload := c_payload r; c_payload_sha256 := c_payload_sha256 r;
  c_state := st; c_provider_operation_id := provider; c_last_error := last_error;
  c_created_at := c_created_at r; c_updated_at := updated; c_queued_at := queued;
  c_accepted_at := accepted; c_completed_at := completed; c_failed_at := failed;
  c_resource_version := version; c_cancelled_at := cancelled_at;
  c_cancellation_reason := cancellation_reason; c_reconciliation_requested_at := requested_at;
  c_reconciliation_reason := reconciliation_reason |}.

(** [COALESCE(a, b)] *)
Definition coalesce {A} (a b : option A) : option A := match a with Some x => Some x | None => b end.

Definition attempts_of (k : Key) (l : list AttemptRow) : list AttemptRow :=
  List.filter (fun a => bool_decide (a_key a = k)) l.
Definition audit_of (k : Key) (l : list AuditRow) : list AuditRow :=
  List.filter (fun u => bool_decide (u_key u = k)) l.

(** [SELECT COALESCE(max(attempt_number), 0)] *)
Definition max_attempt (k : Key) (l : list AttemptRow) : nat :=
  fold_right (fun a n => Nat.max (a_number a) n) 0 (attempts_of k l).

(** [ORDER BY attempt_number DESC LIMIT 1] *)
Fixpoint newest (l : list AttemptRow) : option AttemptRow :=
  match l with
  | [] => None
  | a :: l' =>
      match newest l' with
      | Some b => Some (if a_number b <? a_number a then a else b)
      | None => Some a
      end
  end.
Definition newest_attempt (k : Key) (l : list AttemptRow) : option AttemptRow := newest (attempts_of k l).

(** [metadata->>'k'] of a row that has the key *)
Definition metadata_text (key : string) (m : jdict) : option string :=
  match dict_get key m with Some (JStr s) => Some s | _ => None end.
Definition has_key (key : string) (m : jdict) : bool := bool_decide (is_Some (dict_get key m)).

(** the digest [get] reads: the newest audit row of one of the states that has the key *)
Definition persisted_digest (states : list CommandState) (k : Key) (l : list AuditRow) : option string :=
  match last (List.filter (fun u => state_in (u_new_state u) states &&
                                    has_key "readback_evidence_sha256" (u_metadata u)) (audit_of k l)) with
  | Some u => metadata_text "readback_evidence_sha256" (u_metadata u)
  | None => None
  end.

(** [verify_readback_evidence_digest] of a stored value *)
Definition verify_readback_evidence_digest (value : option jdict) (persisted : option string) :
    outcome (option jdict * option string) :=
  match value, persisted with
  | None, Some _ => Exc (Exn RuntimeError "read-back evidence digest has no evidence payload")
  | None, None => Ret (None, None)
  | Some e, None => Ret (Some e, None)
  | Some e, Some d =>
      if negb (String.eqb (provider_evidence_digest e) d)
      then Exc (Exn RuntimeError "persisted read-back evidence digest does not match payload")
      else Ret (Some e, Some d)
  end.

(** [_operation] *)
Definition operation_of_row (r : CommandRow) (duplicate : bool) (evidence : option jdict)
    (digest : option string) : outcome CommandOperation :=
  match verify_readback_evidence_digest evidence digest with
  | Exc e => Exc e
  | Ret (ev, dg) => Ret {|
      op_command := c_identity r; op_state := c_state r;
      op_provider_operation_id := c_provider_operation_id r; op_readback_evidence := ev;
      op_readback_evidence_sha256 := dg; op_last_error := c_last_error r;
      op_created_at := c_created_at r; op_updated_at := c_updated_at r;
      op_resource_version := c_resource_version r; op_cancelled_at := c_cancelled_at r;
      op_cancellation_reason := c_cancellation_reason r;
      op_reconciliation_requested_at := c_reconciliation_requested_at r;
      op_reconciliation_reason := c_reconciliation_reason r; op_duplicate := duplicate |}
  end.

(** [INSERT INTO middleware_command_audit] *)
Definition insert_audit (k : Key) (prev : option CommandState) (st : CommandState) (actor reason : string)
    (meta : jdict) (now : datetime) (d : CommandDB) : CommandDB :=
  mkDB (db_commands d) (db_attempts d) (db_audit d ++ [{|
      u_id := length (db_audit d) + 1; u_key := k; u_previous_state := prev; u_new_state := st;
      u_actor_id := actor; u_reason := reason; u_metadata := meta; u_created_at := now |}])
    (db_mutations d) (db_outbox d) (db_dead_letters d) (db_replays d).

(** a [timestamptz] as the outbox counts time, in seconds *)
Definition seconds (t : datetime) : Q := inject_Z t / inject_Z 1000000.

Definition outbox_conflict (t dest key : string) (l : list CommandOutboxRow) : bool :=
  existsb (fun o => String.eqb (row_tenant_id (ob_row o)) t && String.eqb (row_destination (ob_row o)) dest &&
                    String.eqb (row_idempotency_key (ob_row o)) key) l.
Definition next_outbox_id (l : list CommandOutboxRow) : nat :=
  S (fold_right (fun o n => Nat.max (row_id (ob_row o)) n) 0 l).
Definition append_outbox (k : Key) (dest event key : string) (payload : jdict) (next : Q)
    (l : list CommandOutboxRow) : list CommandOutboxRow :=
  l ++ [{| ob_command_id := Some (snd k);
           ob_row := new_row (next_outbox_id l) (fst k) dest event key payload next |}].
(** [INSERT INTO middleware_outbox]; [ON CONFLICT DO NOTHING] when [quiet] *)
Definition insert_outbox (quiet : bool) (k : Key) (dest event key : string) (payload : jdict) (next : Q) :
    DM unit := fun d =>
  if outbox_conflict (fst k) dest key (db_outbox d)
  then if quiet then (Ret tt, d)
       else unique_violation "middleware_outbox_tenant_id_destination_idempotency_key_key" d
  else (Ret tt, set_db_outbox (append_outbox k dest event key payload next (db_outbox d)) d).

(** ** [submit] *)

(** [SELECT * FROM middleware_commands WHERE (tenant_id=$1 AND command_id=$2)
    OR (tenant_id=$1 AND idempotency_key=$3) ORDER BY created_at ASC] *)
Definition older (a b : CommandRow) : Prop := (c_created_at a <= c_created_at b)%Z.
#[export] Instance older_dec a b : Decision (older a b).
Proof. unfold older. apply _. Defined.
Definition same_identity (c : CommandEnvelope) (r : CommandRow) : bool :=
  String.eqb (tenant_id (c_identity r)) (env_tenant_id c) &&
  ((command_id (c_identity r) =? env_command_id c)%N ||
   String.eqb (idempotency_key (c_identity r)) (env_idempotency_key c)).
Definition existing_rows (c : CommandEnvelope) (d : CommandDB) : list CommandRow :=
  merge_sort older (List.filter (same_identity c) (map snd (map_to_list (db_commands d)))).

Definition new_command_row (c : CommandEnvelope) (client_id : string) (now : datetime) : CommandRow := {|
  c_identity := identity_of c;
  c_payload := authenticated_command_payload c client_id;
  c_payload_sha256 := authenticated_command_digest c client_id;
  c_state := persisted; c_provider_operation_id := None; c_last_error := None;
  c_created_at := now; c_updated_at := now; c_queued_at := None; c_accepted_at := None;
  c_completed_at := None; c_failed_at := None; c_resource_version := 1; c_cancelled_at := None;
  c_cancellation_reason := None; c_reconciliation_requested_at := None;
  c_reconciliation_reason := None |}.

(** [submit_on_connection]: the insert conflicts when a row has either identity *)
Definition submit_on_connection (now : datetime) (c : CommandEnvelope) (client_id : string)
    (next_attempt_at : option Q) (destination : string) (evidence : option jdict)
    (trace : option (list (string * string))) : DM CommandOperation :=
  if negb (mem_string destination COMMAND_DESTINATIONS)
  then raise CommandConflict ("unsupported command destination " +:+ destination)
  else
  tenant_context (env_tenant_id c) ;;;
  let! d := gets id in
  match existing_rows c d with
  | [] =>
      let key := (env_tenant_id c, env_command_id c) in
      let row := new_command_row c client_id now in
      modify (set_db_command key row) ;;;
      modify (insert_audit key None persisted (env_requested_by c)
        "validated command and persisted delivery intent" (submit_metadata client_id evidence) now) ;;;
      insert_outbox false key destination (env_command_type c) (env_idempotency_key c)
        (with_trace (authenticated_command_payload c client_id) trace)
        (default (seconds now) next_attempt_at) ;;;
      lift_outcome (operation_of_row row false None None)
  | [r] =>
      if negb (command_digest_matches (c_payload_sha256 r) c client_id)
      then raise CommandConflict "command identity was reused with different content"
      else lift_outcome (operation_of_row r true None None)
  | _ => raise CommandConflict "command identity was reused with different content"
  end.

Definition pg_submit (now : datetime) (c : CommandEnvelope) (client_id destination : string)
    (evidence : option jdict) (trace : option (list (string * string))) : DM CommandOperation :=
  tenant_transaction (env_tenant_id c) (submit_on_connection now c client_id None destination evidence trace).

(** ** Reads *)

Definition command_row (t : string) (c : UUID) : DM CommandRow := fun d =>
  match db_commands d !! (t, c) with
  | Some r => (Ret r, d)
  | None => (Exc (Exn CommandNotFound "command operation was not found"), d)
  end.

Definition pg_get (t : string) (c : UUID) : DM CommandOperation :=
  tenant_transaction t (
    let! r := command_row t c in
    let! d := gets id in
    lift_outcome (operation_of_row r false
      (newest_attempt (t, c) (db_attempts d) ≫= a_result_payload)
      (persisted_digest [completed; reconciliation_required] (t, c) (db_audit d)))).

Definition pg_latest_attempt (t : string) (c : UUID) : DM nat :=
  tenant_transaction t (command_row t c ;;; gets (fun d => max_attempt (t, c) (db_attempts d))).

Definition pg_load_envelope `{Externals} (t : string) (c : UUID) : DM CommandEnvelope :=
  tenant_transaction t (
    let! r := command_row t c in lift_outcome (command_envelope_from_payload (c_payload r))).

(** the tenant's active commands; the global backlog is not counted *)
Definition pg_backlog (t : string) : DM (Z * option Z) :=
  tenant_transaction t (gets (fun d =>
    (Z.of_nat (length (List.filter (fun kv => String.eqb (fst (fst kv)) t &&
                                              state_in (c_state (snd kv)) ACTIVE_COMMAND_STATES)
                         (map_to_list (db_commands d)))), None))).

(** [ORDER BY created_at DESC, command_id DESC] *)
Definition row_newer (a b : CommandRow) : Prop :=
  (c_created_at b < c_created_at a)%Z \/
  (c_created_at a = c_created_at b /\
   str_le (uuid_str (command_id (c_identity b))) (uuid_str (command_id (c_identity a)))).
#[export] Instance row_newer_dec a b : Decision (row_newer a b).
Proof. unfold row_newer. apply _. Defined.

Definition row_before (p : datetime * UUID) (r : CommandRow) : bool :=
  (c_created_at r <? fst p)%Z ||
  ((c_created_at r =? fst p)%Z &&
   match String.compare (uuid_str (command_id (c_identity r))) (uuid_str (snd p)) with
   | Lt => true | _ => false end).

Definition pg_list_operations (t : string) (limit : nat) (position : option (datetime * UUID))
    (state : option CommandState) (type : option string) : DM (list CommandOperation) :=
  tenant_transaction t (
    let! d := gets id in
    let keep r :=
      String.eqb (tenant_id (c_identity r)) t &&
      match state with Some st => bool_decide (c_state r = st) | None => true end &&
      match type with Some ty => String.eqb (command_type (c_identity r)) ty | None => true end &&
      match position with Some p => row_before p r | None => true end in
    let rows := merge_sort row_newer (List.filter keep (map snd (map_to_list (db_commands d)))) in
    lift_outcome (foldr (fun r acc => match operation_of_row r false None None, acc with
      | Ret o, Ret l => Ret (o :: l) | Exc e, _ => Exc e | _, Exc e => Exc e end) (Ret [])
      (take limit rows))).

Definition event_of_row (u : AuditRow) : OperationEvent := {|
  event_id := u_id u; event_operation_id := snd (u_key u); previous_state := u_previous_state u;
  new_state := u_new_state u; event_actor_id := u_actor_id u; event_reason := u_reason u;
  safe_metadata := redact_metadata (u_metadata u); event_created_at := u_created_at u |}.

(** [ORDER BY created_at ASC, id ASC] of rows after the position *)
Definition event_le (a b : OperationEvent) : Prop :=
  (event_created_at a < event_created_at b)%Z \/
  (event_created_at a = event_created_at b /\ event_id a <= event_id b).
#[export] Instance event_le_dec a b : Decision (event_le a b).
Proof. unfold event_le. apply _. Defined.

Definition pg_list_events (t : string) (c : UUID) (limit : nat) (position : option (datetime * nat)) :
    DM (list OperationEvent) :=
  pg_get t c ;;;
  tenant_transaction t (gets (fun d =>
    let rows := map event_of_row (audit_of (t, c) (db_audit d)) in
    let rows := match position with Some p => List.filter (after_event p) rows | None => rows end in
    take limit (merge_sort event_le rows))).

Definition attempt_of_row (a : AttemptRow) : OperationAttempt := {|
  attempt_id := a_id a; attempt_operation_id := snd (a_key a); attempt_number := a_number a;
  attempt_state := a_state a; attempt_provider_operation_id := a_provider_operation_id a;
  safe_error_code := a_error_code a; started_at := a_started_at a; finished_at := a_finished_at a |}.

Definition attempt_le (a b : OperationAttempt) : Prop :=
  attempt_number a < attempt_number b \/
  (attempt_number a = attempt_number b /\ attempt_id a <= attempt_id b).
#[export] Instance attempt_le_dec a b : Decision (attempt_le a b).
Proof. unfold attempt_le. apply _. Defined.

Definition pg_list_attempts (t : string) (c : UUID) (limit : nat) (position : option (nat * nat)) :
    DM (list OperationAttempt) :=
  pg_get t c ;;;
  tenant_transaction t (gets (fun d =>
    let rows := map attempt_of_row (attempts_of (t, c) (db_attempts d)) in
    let rows := match position with Some p => List.filter (after_attempt p) rows | None => rows end in
    take limit (merge_sort attempt_le rows))).

(** ** [transition] *)

(** [UPDATE middleware_command_attempts ... WHERE id=(the newest attempt's)] *)
Definition update_newest (k : Key) (f : AttemptRow -> AttemptRow) (l : list AttemptRow) : list AttemptRow :=
  match newest_attempt k l with
  | Some b => map (fun a => if (a_id a =? a_id b)%nat then f a else a) l
  | None => l
  end.

Definition attempt_row_with (a : AttemptRow) (st : CommandState) (provider : option string)
    (result : option jdict) (code detail : option string) (finished : option datetime) : AttemptRow := {|
  a_id := a_id a; a_key := a_key a; a_number := a_number a; a_state := st;
  a_provider_operation_id := provider; a_result_payload := result; a_error_code := code;
  a_error_detail := detail; a_started_at := a_started_at a; a_finished_at := finished |}.

Definition moved_attempt (st : CommandState) (reason : string) (provider : option string)
    (evidence : option jdict) (now : datetime) (a : AttemptRow) : AttemptRow :=
  attempt_row_with a st (coalesce provider (a_provider_operation_id a))
    (coalesce evidence (a_result_payload a)) (a_error_code a)
    (if state_in st [failed; reconciliation_required] then Some reason else a_error_detail a)
    (if state_in st [completed; failed; reconciliation_required] then Some now else a_finished_at a).

Definition opened_attempt (k : Key) (now : datetime) (l : list AttemptRow) : AttemptRow := {|
  a_id := length l + 1; a_key := k; a_number := max_attempt k l + 1; a_state := dispatching;
  a_provider_operation_id := None; a_result_payload := None; a_error_code := None;
  a_error_detail := None; a_started_at := now; a_finished_at := None |}.

Definition moved_attempts (k : Key) (st : CommandState) (reason : string) (provider : option string)
    (evidence : option jdict) (now : datetime) (l : list AttemptRow) : list AttemptRow :=
  if bool_decide (st = dispatching) then l ++ [opened_attempt k now l]
  else if state_in st [accepted; readback_pending; completed; failed; reconciliation_required]
  then update_newest k (moved_attempt st reason provider evidence now) l
  else l.

Definition moved_row (r : CommandRow) (st : CommandState) (reason : string) (provider : option string)
    (now : datetime) : CommandRow :=
  let mark s old := if bool_decide (st = s) then Some now else old in
  command_row_with r st (coalesce provider (c_provider_operation_id r))
    (if state_in st [failed; reconciliation_required] then Some reason else None) now
    (mark queued (c_queued_at r)) (mark accepted (c_accepted_at r)) (mark completed (c_completed_at r))
    (mark failed (c_failed_at r)) (c_resource_version r) (c_cancelled_at r) (c_cancellation_reason r)
    (c_reconciliation_requested_at r) (c_reconciliation_reason r).

(** [metadata] of a transition: the digest is JSON [null] without evidence *)
Definition moved_metadata (provider : option string) (evidence : option jdict) : jdict :=
  [("provider_operation_id", jopt provider);
   ("readback_evidence_sha256", jopt (provider_evidence_digest <$> evidence))].

(** the first transaction *)
Definition transition_row (now : datetime) (t : string) (c : UUID) (st : CommandState)
    (actor reason : string) (provider : option string) (evidence : option jdict)
    (expected_attempt : option nat) : DM CommandRow :=
  tenant_transaction t (
    let! current := command_row t c in
    let! d := gets id in
    if match expected_attempt with
       | Some n => negb (bool_decide (st = dispatching)) &&
                   negb (max_attempt (t, c) (db_attempts d) =? n)
       | None => false
       end
    then raise CommandConflict "stale attempt fencing token"
    else if negb (state_in st (ALLOWED_COMMAND_TRANSITIONS (c_state current)))
    then raise CommandConflict ("invalid command transition " +:+ state_name (c_state current) +:+
                                " -> " +:+ state_name st)
    else
    let row := moved_row current st reason provider now in
    modify (set_db_command (t, c) row) ;;;
    modify (insert_audit (t, c) (Some (c_state current)) st actor reason (moved_metadata provider evidence) now) ;;;
    modify (fun d => set_db_attempts (moved_attempts (t, c) st reason provider evidence now (db_attempts d)) d) ;;;
    ret row).

(** with no evidence of its own the call reads back what is persisted, in a
    second transaction that looks for a completion's digest only *)
Definition pg_transition (now : datetime) (t : string) (c : UUID) (st : CommandState)
    (actor reason : string) (provider : option string) (evidence : option jdict)
    (expected_attempt : option nat) : DM CommandOperation :=
  if bool_decide (is_Some evidence) && negb (state_in st [completed; reconciliation_required])
  then raise CommandConflict
         "read-back evidence may be persisted only on completion or reconciliation"
  else
  let! row := transition_row now t c st actor (str_take 2048 reason) provider evidence expected_attempt in
  match evidence with
  | Some e => lift_outcome (operation_of_row row false (Some e) (Some (provider_evidence_digest e)))
  | None =>
      tenant_transaction t (
        let! d := gets id in
        lift_outcome (operation_of_row row false
          (newest_attempt (t, c) (db_attempts d) ≫= a_result_payload)
          (persisted_digest [completed] (t, c) (db_audit d))))
  end.

(** ** [reconcile] *)

Definition verdict_row (r : CommandRow) (matched : bool) (reason : string) (provider : option string)
    (now : datetime) : CommandRow :=
  if matched then
    command_row_with r completed (coalesce provider (c_provider_operation_id r)) None now
      (c_queued_at r) (c_accepted_at r) (Some now) (c_failed_at r) (c_resource_version r + 1)
      (c_cancelled_at r) (c_cancellation_reason r) (c_reconciliation_requested_at r)
      (c_reconciliation_reason r)
  else
    command_row_with r (c_state r) (coalesce provider (c_provider_operation_id r)) (Some reason) now
      (c_queued_at r) (c_accepted_at r) (c_completed_at r) (c_failed_at r) (c_resource_version r + 1)
      (c_cancelled_at r) (c_cancellation_reason r) (c_reconciliation_requested_at r) (Some reason).

Definition verdict_attempt (st : CommandState) (reason : string) (provider : option string)
    (evidence : jdict) (now : datetime) (a : AttemptRow) : AttemptRow :=
  let parked := bool_decide (st = reconciliation_required) in
  attempt_row_with a st (coalesce provider (a_provider_operation_id a)) (Some evidence)
    (if parked then Some "provider_readback_mismatch" else None)
    (if parked then Some reason else None) (Some now).

Definition verdict_metadata (matched : bool) (provider : option string) (evidence : jdict) : jdict :=
  [("provider_operation_id", jopt provider);
   ("readback_evidence_sha256", JStr (provider_evidence_digest evidence));
   ("reconciliation_status", JStr (if matched then "matched" else "mismatch"))].

Definition pg_reconcile (now : datetime) (t : string) (c : UUID) (matched : bool) (actor reason : string)
    (provider : option string) (evidence : jdict) (expected_version : option Z) : DM CommandOperation :=
  let safe_reason := str_take 2048 reason in
  let st := if matched then completed else reconciliation_required in
  let! row := tenant_transaction t (
    let! current := command_row t c in
    if negb (bool_decide (c_state current = reconciliation_required))
    then raise CommandConflict "operation is no longer awaiting reconciliation"
    else if match expected_version with
            | Some n => negb (c_resource_version current =? n)%Z | None => false end
    then raise CommandConflict "expected_version is stale"
    else
    let row := verdict_row current matched safe_reason provider now in
    modify (set_db_command (t, c) row) ;;;
    modify (insert_audit (t, c) (Some reconciliation_required) st actor safe_reason
              (verdict_metadata matched provider evidence) now) ;;;
    modify (fun d => set_db_attempts
      (update_newest (t, c) (verdict_attempt st safe_reason provider evidence now) (db_attempts d)) d) ;;;
    ret row) in
  lift_outcome (operation_of_row row false (Some evidence) (Some (provider_evidence_digest evidence))).

(** ** [mutate_operation] *)

Definition outbox_of (k : Key) (o : CommandOutboxRow) : bool :=
  String.eqb (row_tenant_id (ob_row o)) (fst k) && bool_decide (ob_command_id o = Some (snd k)).

Definition leased_now (now : datetime) (o : CommandOutboxRow) : bool :=
  present (row_lease_owner (ob_row o)) && after (seconds now) (row_lease_until (ob_row o)) &&
  negb (present (row_completed_at (ob_row o))).

(** [UPDATE middleware_outbox ... WHERE p]: the rows, and how many it changed *)
Definition update_outbox (p : CommandOutboxRow -> bool) (f : OutboxRow -> OutboxRow)
    (l : list CommandOutboxRow) : list CommandOutboxRow * nat :=
  (map (fun o => if p o then {| ob_command_id := ob_command_id o; ob_row := f (ob_row o) |} else o) l,
   length (List.filter p l)).

Definition cancelled_row (now : Q) (r : OutboxRow) : OutboxRow :=
  mkRow (row_id r) (row_tenant_id r) (row_destination r) (row_event_type r) (row_idempotency_key r)
    (row_payload r) (row_attempt_count r) (row_fencing_token r) (row_next_attempt_at r) None None
    (row_completed_at r) (Some now) (row_dead_lettered_at r) (row_reconciliation_required_at r)
    (row_last_error r).

(** quarantined for the reconciler; a lease still running is kept *)
Definition quarantined_row (now : Q) (r : OutboxRow) : OutboxRow :=
  let running := after now (row_lease_until r) in
  row_with r (row_attempt_count r) (row_fencing_token r) (row_next_attempt_at r)
    (if running then row_lease_owner r else None) (if running then row_lease_until r else None)
    (row_completed_at r) (row_dead_lettered_at r)
    (Some (default now (row_reconciliation_required_at r))) (row_last_error r).

Definition mutated_row (r : CommandRow) (st : CommandState) (last_error : option string)
    (queued : option datetime) (cancelled_at : option datetime) (cancellation_reason : option string)
    (requested_at : option datetime) (reconciliation_reason : option string) (now : datetime) : CommandRow :=
  command_row_with r st (c_provider_operation_id r) last_error now queued (c_accepted_at r)
    (c_completed_at r) (c_failed_at r) (c_resource_version r + 1) cancelled_at cancellation_reason
    requested_at reconciliation_reason.

Definition pg_cancel (now : datetime) (k : Key) (r : CommandRow) (reason : string) : DM CommandRow :=
  if state_in (c_state r) [completed; failed; reconciliation_required; dead_lettered; cancelled]
  then raise CommandConflict "operation is not cancellable"
  else
  let! d := gets id in
  let active := existsb (fun o => outbox_of k o && leased_now now o) (db_outbox d) in
  let st := if state_in (c_state r) [persisted; queued] && negb active
            then cancelled else reconciliation_required in
  let row := mutated_row r st (c_last_error r) (c_queued_at r)
    (if bool_decide (st = cancelled) then Some now else c_cancelled_at r) (Some reason)
    (c_reconciliation_requested_at r) (c_reconciliation_reason r) now in
  modify (set_db_command k row) ;;;
  when (bool_decide (st = cancelled)) (modify (fun d => set_db_outbox
    (fst (update_outbox (fun o => outbox_of k o && negb (present (row_completed_at (ob_row o))) &&
                                  negb (present (row_lease_owner (ob_row o))))
            (cancelled_row (seconds now)) (db_outbox d))) d)) ;;;
  ret row.

(** the work key of an operator's request *)
Definition work_key (kind : string) (k : Key) (actor key : string) : string :=
  kind +:+ sha256_hex (fst k +:+ ":" +:+ uuid_str (snd k) +:+ ":" +:+ actor +:+ ":" +:+ key).

Definition pg_reconcile_request (now : datetime) (k : Key) (r : CommandRow) (actor key reason : string) :
    DM CommandRow :=
  if negb (state_in (c_state r) [dispatching; accepted; readback_pending; reconciliation_required])
  then raise CommandConflict "operation is not reconcilable"
  else
  let row := mutated_row r reconciliation_required (c_last_error r) (c_queued_at r) (c_cancelled_at r)
    (c_cancellation_reason r) (Some now) (Some reason) now in
  modify (set_db_command k row) ;;;
  let! d := gets id in
  let (l, n) := update_outbox (fun o => outbox_of k o &&
      String.eqb (row_destination (ob_row o)) ADAPTER_COMMAND_DESTINATION &&
      negb (present (row_completed_at (ob_row o))) && negb (present (row_dead_lettered_at (ob_row o))) &&
      negb (present (row_cancelled_at (ob_row o)))) (quarantined_row (seconds now)) (db_outbox d) in
  modify (set_db_outbox l) ;;;
  when (n =? 0)
    (insert_outbox true k TEMPORAL_COMMAND_DESTINATION "operation.reconcile.v1"
       (work_key "operation-reconcile:" k actor key)
       [("command_id", JStr (uuid_str (snd k))); ("action", JStr "reconcile"); ("reason", JStr reason)]
       (seconds now)) ;;;
  ret row.

Definition pg_retry (now : datetime) (k : Key) (r : CommandRow) (actor key : string) : DM CommandRow :=
  if negb (bool_decide (c_state r = failed))
  then raise CommandConflict "operation is not safely retryable"
  else
  let wk := work_key "operation-retry:" k actor key in
  let row := mutated_row r queued None (Some now) (c_cancelled_at r) (c_cancellation_reason r)
    (c_reconciliation_requested_at r) (c_reconciliation_reason r) now in
  modify (set_db_command k row) ;;;
  let! d := gets id in
  let dest := match last (List.filter (fun o => outbox_of k o && mem_string (row_destination (ob_row o))
                [TEMPORAL_COMMAND_DESTINATION; ADAPTER_COMMAND_DESTINATION]) (db_outbox d)) with
              | Some o => row_destination (ob_row o)
              | None => TEMPORAL_COMMAND_DESTINATION
              end in
  insert_outbox true k dest (command_type (c_identity r)) wk
    (dict_set "idempotency_key" (JStr wk) (c_payload r)) (seconds now) ;;;
  ret row.

Definition pg_action (now : datetime) (k : Key) (r : CommandRow) (a : MutationAction)
    (actor key reason : string) : DM CommandRow :=
  match a with
  | act_cancel => pg_cancel now k r reason
  | act_reconcile => pg_reconcile_request now k r actor key reason
  | act_retry => pg_retry now k r actor key
  end.

Definition pg_mutate_operation (now : datetime) (t : string) (c : UUID) (a : MutationAction)
    (actor key : string) (expected_version : Z) (reason : string)
    (mutation_correlation_id : option string) : DM CommandOperation :=
  tenant_transaction t (
    let! current := command_row t c in
    let! d := gets id in
    let request_digest := mutation_digest expected_version reason in
    match db_mutations d !! (t, c, a, actor, key) with
    | Some (digest, o) =>
        if negb (String.eqb digest request_digest)
        then raise CommandConflict "idempotency key was reused with different mutation content"
        else ret (as_duplicate o)
    | None =>
        if negb (c_resource_version current =? expected_version)%Z
        then raise CommandConflict "expected_version is stale"
        else
        let! row := pg_action now (t, c) current a actor key reason in
        modify (insert_audit (t, c) (Some (c_state current)) (c_state row) actor reason
          (dict_merge [("action", JStr (action_name a));
                       ("resource_version", JInt (c_resource_version row))]
                      (mutation_evidence mutation_correlation_id)) now) ;;;
        let! o := lift_outcome (operation_of_row row false None None) in
        modify (set_db_mutation (t, c, a, actor, key) (request_digest, o)) ;;;
        ret o
    end).

(** ** Dead letters *)

Definition pg_record_dead_letter (now : datetime) (t : string) (c : UUID)
    (reason_code error_class terminal_reason : string) (poisoned retry_exhausted : bool) :
    DM DeadLetterRecord :=
  transaction (
    let! current := command_row t c in
    let! d := gets id in
    match db_dead_letters d !! (t, c) with
    | Some r => ret r
    | None =>
        let record := {|
          dl_id := size (db_dead_letters d) + 1; dl_tenant_id := t; dl_command_id := c;
          dl_attempt_number := max_attempt (t, c) (db_attempts d);
          dl_reason_code := str_take 100 reason_code; dl_error_class := str_take 100 error_class;
          dl_terminal_reason := str_take 2048 terminal_reason;
          dl_correlation_id := correlation_id (c_identity current);
          dl_principal_id := requested_by (c_identity current);
          dl_capability := capability (c_identity current); dl_poisoned := poisoned;
          dl_retry_exhausted := retry_exhausted; dl_created_at := now |} in
        modify (set_db_dead_letter (t, c) record) ;;;
        ret record
    end).

Definition pg_list_dead_letters (t : string) (limit : nat) : DM (list DeadLetterRecord) := fun d =>
  let rows := map snd (List.filter (fun kv => String.eqb (fst (fst kv)) t) (map_to_list (db_dead_letters d))) in
  (Ret (take limit (merge_sort dl_newer rows)), d).

Definition pg_get_dead_letter (t : string) (c : UUID) : DM DeadLetterRecord := fun d =>
  match db_dead_letters d !! (t, c) with
  | Some r => (Ret r, d)
  | None => raise CommandNotFound "dead-letter record was not found" d
  end.

(** ** Replays *)

Definition replay_of_key (t : string) (c : UUID) (key : string) (d : CommandDB) : option ReplayRecord :=
  head (List.filter (fun r => String.eqb (replay_tenant_id r) t && (original_command_id r =? c)%N &&
                              String.eqb (replay_idempotency_key r) key)
          (map snd (map_to_list (db_replays d)))).

(** [ON CONFLICT (tenant_id, original_command_id, idempotency_key)] does not cover
    the primary key *)
Definition pg_create_replay (now : datetime) (t : string) (c rid : UUID) (actor key reason : string)
    (scheduled_at : option datetime) : DM ReplayRecord :=
  transaction (
    pg_get_dead_letter t c ;;;
    let! d := gets id in
    match replay_of_key t c key d with
    | Some existing =>
        if negb (String.eqb (replay_reason existing) reason)
        then raise CommandConflict "replay idempotency key was reused with different content"
        else ret existing
    | None =>
        if bool_decide (is_Some (db_replays d !! rid)) then unique_violation "middleware_command_replays_pkey"
        else
        let record := {|
          replay_id := rid; replay_tenant_id := t; original_command_id := c; replay_command_id := None;
          replay_requested_by := actor; replay_idempotency_key := key; replay_reason := reason;
          replay_state := match scheduled_at with Some _ => replay_scheduled | None => replay_requested end;
          replay_created_at := now; replay_scheduled_at := scheduled_at; replay_cancelled_at := None |} in
        modify (set_db_replay record) ;;;
        ret record
    end).

(** [UPDATE middleware_command_replays ... WHERE tenant_id=$1 AND replay_id=$2 AND
    state IN ('requested','scheduled')] *)
Definition update_replay (t : string) (rid : UUID) (f : ReplayRecord -> ReplayRecord) (refused : string) :
    DM ReplayRecord :=
  let! d := gets id in
  match db_replays d !! rid with
  | Some r =>
      if String.eqb (replay_tenant_id r) t &&
         (bool_decide (replay_state r = replay_requested) || bool_decide (replay_state r = replay_scheduled))
      then modify (set_db_replay (f r)) ;;; ret (f r)
      else raise CommandConflict refused
  | None => raise CommandConflict refused
  end.

Definition pg_complete_replay (t : string) (rid command : UUID) : DM ReplayRecord :=
  update_replay t rid (fun r => replay_update r replay_submitted (Some command) (replay_cancelled_at r))
    "replay is not executable".

Definition pg_cancel_replay (now : datetime) (t : string) (rid : UUID) : DM ReplayRecord :=
  update_replay t rid (fun r => replay_update r replay_cancelled (replay_command_id r) (Some now))
    "replay can only be cancelled before execution".

(** [ORDER BY created_at, replay_id] *)
Definition replay_le (a b : ReplayRecord) : Prop :=
  (replay_created_at a < replay_created_at b)%Z \/
  (replay_created_at a = replay_created_at b /\ (replay_id a <= replay_id b)%N).
#[export] Instance replay_le_dec a b : Decision (replay_le a b).
Proof. unfold replay_le. apply _. Defined.

Definition pg_list_replays (t : string) (c : UUID) : DM (list ReplayRecord) :=
  pg_get t c ;;;
  gets (fun d => merge_sort replay_le
    (List.filter (fun r => String.eqb (replay_tenant_id r) t && (original_command_id r =? c)%N)
       (map snd (map_to_list (db_replays d))))).

(** ** The protocol instance *)

#[export] Instance postgres_store `{Externals} : CommandStore CommandDB := {|
  store_submit := pg_submit;
  store_get := pg_get;
  store_mutate_operation := pg_mutate_operation;
  store_record_dead_letter := pg_record_dead_letter;
  store_get_dead_letter := pg_get_dead_letter;
  store_create_replay := pg_create_replay;
  store_complete_replay := pg_complete_replay;
  store_transition := pg_transition;
  store_reconcile := pg_reconcile;
  store_latest_attempt := pg_latest_attempt;
  store_load_envelope := pg_load_envelope;
  store_backlog := pg_backlog;
  store_list_events := fun t c limit => pg_list_events t c limit None;
|}.

(** ** The cancellation of an incident's notifications

    The one place outside the store and the workflows that writes the ledger's
    tables: [_cancel_pending_grouped_notifications] of
    [src/app/observability_incidents.py].  When an incident changes, the
    notifications that still wait in its group are cancelled with their deliveries,
    in the transaction of the change.  The intents of the incident, a table of the
    incident store, are the argument [intents], in the order of their rows. *)

(** the outbox row is not settled *)
Definition unsettled (r : OutboxRow) : bool :=
  negb (present (row_completed_at r)) && negb (present (row_dead_lettered_at r)) &&
  negb (present (row_reconciliation_required_at r)) && negb (present (row_cancelled_at r)).

(** a delivery still to come that nobody holds *)
Definition waiting_delivery (now : datetime) (o : CommandOutboxRow) : bool :=
  let r := ob_row o in
  negb (Qle_bool (row_next_attempt_at r) (seconds now)) && unsettled r &&
  (negb (present (row_lease_owner r)) ||
   match row_lease_until r with Some u => Qle_bool u (seconds now) | None => false end).

(** the query: commands of the intents that were not handed out, with the state they
    are in and their waiting deliveries *)
Definition pending_notifications (now : datetime) (t : string) (intents : list UUID) (d : CommandDB) :
    list (UUID * CommandState * nat) :=
  concat (map (fun c =>
    match db_commands d !! (t, c) with
    | Some r =>
        if state_in (c_state r) [persisted; queued]
        then map (fun o => (c, c_state r, row_id (ob_row o)))
               (List.filter (fun o => outbox_of (t, c) o && waiting_delivery now o) (db_outbox d))
        else []
    | None => []
    end) intents).

Definition withdrawn_row (r : CommandRow) (reason : string) (now : datetime) : CommandRow :=
  mutated_row r cancelled (c_last_error r) (c_queued_at r) (Some now) (Some reason)
    (c_reconciliation_requested_at r) (c_reconciliation_reason r) now.

(** the command, once, while it is still where the query found it *)
Definition withdraw (now : datetime) (t incident actor reason : string) (c : UUID) (previous : CommandState) : DM unit :=
  let! d := gets id in
  match db_commands d !! (t, c) with
  | Some r =>
      when (state_in (c_state r) [persisted; queued])
        (let r' := withdrawn_row r reason now in
         modify (set_db_command (t, c) r') ;;;
         modify (insert_audit (t, c) (Some previous) cancelled actor reason
           [("action", JStr "incident_group_wait_cancel"); ("incident_id", JStr incident);
            ("resource_version", JInt (c_resource_version r'))] now))
  | None => ret tt
  end.

Fixpoint cancel_notifications (now : datetime) (t incident actor reason : string)
    (pending : list (UUID * CommandState * nat)) : DM unit :=
  match pending with
  | [] => ret tt
  | (c, previous, o) :: pending' =>
      withdraw now t incident actor reason c previous ;;;
      modify (fun d => set_db_outbox (fst (update_outbox
        (fun x => (row_id (ob_row x) =? o) && unsettled (ob_row x)) (cancelled_row (seconds now)) (db_outbox d))) d) ;;;
      cancel_notifications now t incident actor reason pending'
  end.

Definition cancel_pending_grouped_notifications (now : datetime) (t incident actor reason : string)
    (intents : list UUID) : DM unit :=
  let! d := gets id in
  cancel_notifications now t incident actor reason (pending_notifications now t intents d).
