(* ===== verification/PgLedgerFacts.v ===== *)
(** * The durable ledger's invariant and its refinement

    What the tables of [PgLedger] show of one operation, the invariant of the
    tables, and the proof that [transition], [reconcile], [mutate_operation],
    [record_dead_letter] and the reads act on that view as pure functions. *)

From Stdlib Require Import QArith.
From S2P Require Import Prelude Json Sha256 Uuid Commands LedgerSpec Ledger LedgerFacts Bus Principal Outbox.
From S2P Require Import PgLedger.
Local Open Scope nat_scope.

#[local] Opaque sha256_hex uuid_str.

(** ** Attempts *)

Lemma attempts_of_app k l l' : attempts_of k (l ++ l') = attempts_of k l ++ attempts_of k l'.
Proof. apply List.filter_app. Qed.
Lemma audit_of_app k l l' : audit_of k (l ++ l') = audit_of k l ++ audit_of k l'.
Proof. apply List.filter_app. Qed.
Lemma attempts_of_key k l a : a ∈ attempts_of k l -> a ∈ l /\ a_key a = k.
Proof. rewrite !list_elem_of_In. unfold attempts_of. by rewrite filter_In, bool_decide_eq_true. Qed.

Lemma attempts_of_map k g l :
  (forall a, a_key (g a) = a_key a) -> attempts_of k (map g l) = map g (attempts_of k l).
Proof.
  intros Hg. unfold attempts_of. induction l as [|a l IH]; simpl; [done|]. rewrite Hg.
  by case_bool_decide; simpl; rewrite IH.
Qed.

(** numbers in order: the newest attempt is the last one *)
Lemma newest_last l i : map a_number l = seq i (length l) -> newest l = last l.
Proof.
  revert i. induction l as [|a l IH]; intros i; [done|]. simpl. intros [= Ha Hl]. rewrite (IH _ Hl).
  destruct l as [|b l]; [done|]. change (last (a :: b :: l)) with (last (b :: l)).
  destruct (last (b :: l)) as [x|] eqn:Hx; [|by apply last_None in Hx].
  apply last_Some in Hx as [l' Hl']. rewrite Hl' in Hl. rewrite map_app in Hl. simpl in Hl.
  assert (In (a_number x) (seq (S i) (length (l' ++ [x])))) as Hin.
  { rewrite <- Hl. apply in_or_app. right. by left. }
  apply in_seq in Hin. destruct (Nat.ltb_spec (a_number x) (a_number a)); [lia|done].
Qed.

Lemma max_of_seq l i :
  map a_number l = seq i (length l) -> l <> [] ->
  fold_right (fun a n => Nat.max (a_number a) n) 0 l = i + length l - 1.
Proof.
  revert i. induction l as [|a l IH]; intros i; [done|]. simpl. intros [= Ha Hl] _.
  destruct l as [|b l]; [simpl; lia|]. rewrite (IH _ Hl) by done. simpl. lia.
Qed.

(** attempts of one key, numbered from one *)
Definition numbered (k : Key) (l : list AttemptRow) : Prop :=
  map a_number (attempts_of k l) = seq 1 (length (attempts_of k l)).

Lemma max_attempt_length k l : numbered k l -> max_attempt k l = length (attempts_of k l).
Proof.
  intros Hn. unfold max_attempt. destruct (decide (attempts_of k l = [])) as [->|Hne]; [done|].
  rewrite (max_of_seq _ 1) by done. lia.
Qed.
Lemma newest_attempt_last k l : numbered k l -> newest_attempt k l = last (attempts_of k l).
Proof. apply newest_last. Qed.

Lemma map_inj_NoDup {A B} (f : A -> B) l x y :
  NoDup (map f l) -> x ∈ l -> y ∈ l -> f x = f y -> x = y.
Proof.
  induction l as [|z l IH]; simpl; intros Hnd Hx Hy He; [by apply elem_of_nil in Hx|].
  apply NoDup_cons in Hnd as [Hz Hnd]. apply elem_of_cons in Hx as [->|Hx], Hy as [->|Hy]; try done.
  - exfalso. apply Hz. rewrite He. by apply list_elem_of_fmap_2.
  - exfalso. apply Hz. rewrite <- He. by apply list_elem_of_fmap_2.
  - by apply IH.
Qed.

Lemma map_at_last (f : AttemptRow -> AttemptRow) l b :
  NoDup (map a_id l) -> last l = Some b ->
  map (fun a => if (a_id a =? a_id b)%nat then f a else a) l = alter_last f l.
Proof.
  intros Hnd Hb. apply last_Some in Hb as [l0 ->]. unfold alter_last. rewrite length_app, map_app. simpl.
  rewrite Nat.eqb_refl. replace (pred (length l0 + 1)) with (length l0 + 0) by lia.
  rewrite alter_app_r. f_equal. rewrite map_app in Hnd. apply NoDup_app in Hnd as (Hnd & Hdis & _).
  rewrite <- (map_id l0) at 2. apply map_ext_in. intros a Ha.
  destruct (Nat.eqb_spec (a_id a) (a_id b)) as [He|]; [|done]. exfalso. apply (Hdis (a_id a)).
  - apply list_elem_of_fmap_2. by apply list_elem_of_In.
  - rewrite He. left.
Qed.

Section UpdateNewest.
Context (k : Key) (f : AttemptRow -> AttemptRow) (l : list AttemptRow).
Context (Hkey : forall a, a_key (f a) = a_key a) (Hid : forall a, a_id (f a) = a_id a).
Context (Hnd : NoDup (map a_id l)) (Hnum : numbered k l).

Lemma update_newest_ids : map a_id (update_newest k f l) = map a_id l.
Proof.
  unfold update_newest. destruct (newest_attempt k l) as [b|]; [|done]. rewrite map_map. apply map_ext.
  intros a. by destruct (_ =? _)%nat.
Qed.

Lemma NoDup_map_filter (p : AttemptRow -> bool) l' : NoDup (map a_id l') -> NoDup (map a_id (List.filter p l')).
Proof.
  induction l' as [|a l' IH]; simpl; [done|]. intros [Ha Hl]%NoDup_cons. destruct (p a); [|by apply IH].
  simpl. apply NoDup_cons. split; [|by apply IH]. intros Hin. apply Ha. rewrite list_elem_of_In in *.
  apply in_map_iff in Hin as (x & Hx & Hin). apply filter_In in Hin as [Hin _]. rewrite <- Hx. by apply in_map.
Qed.

Lemma update_newest_at : attempts_of k (update_newest k f l) = alter_last f (attempts_of k l).
Proof.
  unfold update_newest. rewrite newest_attempt_last by done.
  destruct (last (attempts_of k l)) as [b|] eqn:Hb.
  - rewrite attempts_of_map by (intros a; by destruct (_ =? _)%nat).
    apply map_at_last; [by apply NoDup_map_filter|done].
  - apply last_None in Hb. by rewrite Hb.
Qed.

Lemma update_newest_other k' : k' <> k -> attempts_of k' (update_newest k f l) = attempts_of k' l.
Proof.
  intros Hne. unfold update_newest. rewrite newest_attempt_last by done.
  destruct (last (attempts_of k l)) as [b|] eqn:Hb; [|done].
  rewrite attempts_of_map by (intros a; by destruct (_ =? _)%nat).
  rewrite <- (map_id (attempts_of k' l)) at 2. apply map_ext_in. intros a Ha.
  destruct (Nat.eqb_spec (a_id a) (a_id b)) as [He|]; [|done]. exfalso.
  apply last_Some in Hb as [l0 Hl0].
  destruct (attempts_of_key k l b) as [Hbl Hbk]; [rewrite Hl0; apply elem_of_app; right; left|].
  destruct (attempts_of_key k' l a) as [Hal Hak]; [by apply list_elem_of_In|].
  rewrite (map_inj_NoDup a_id l a b) in Hak by done. congruence.
Qed.
End UpdateNewest.

(** ** Audit digests *)

Abbreviation DIGEST := "readback_evidence_sha256".

Lemma persisted_digest_snoc states k l u :
  u_key u = k ->
  persisted_digest states k (l ++ [u]) =
    if state_in (u_new_state u) states && has_key DIGEST (u_metadata u)
    then metadata_text DIGEST (u_metadata u) else persisted_digest states k l.
Proof.
  intros Hk. unfold persisted_digest. rewrite audit_of_app. unfold audit_of at 2. simpl.
  rewrite bool_decide_eq_true_2, List.filter_app by done. simpl.
  destruct (_ && _); [by rewrite last_snoc|by rewrite app_nil_r].
Qed.
Lemma persisted_digest_other states k l u :
  u_key u <> k -> persisted_digest states k (l ++ [u]) = persisted_digest states k l.
Proof.
  intros Hk. unfold persisted_digest. rewrite audit_of_app. unfold audit_of at 2. simpl.
  by rewrite bool_decide_eq_false_2, app_nil_r.
Qed.
Lemma audit_of_other k l u : u_key u <> k -> audit_of k (l ++ [u]) = audit_of k l.
Proof. intros Hk. rewrite audit_of_app. unfold audit_of at 2. simpl. by rewrite bool_decide_eq_false_2, app_nil_r. Qed.
Lemma audit_of_snoc k l u : u_key u = k -> audit_of k (l ++ [u]) = audit_of k l ++ [u].
Proof. intros Hk. rewrite audit_of_app. unfold audit_of at 2. simpl. by rewrite bool_decide_eq_true_2. Qed.

(** ** The view *)

Section Facts.
Context `{Externals}.

(** an operation as the tables show it: the ledger's view, with the evidence of
    the newest attempt, and the digest the audit holds *)
Record PgView := { pv_core : OpView; pv_digest : option string }.

Definition row_view (d : CommandDB) (k : Key) (r : CommandRow) (env : CommandEnvelope) : PgView := {|
  pv_core := {|
    v_env := env; v_state := c_state r; v_provider := c_provider_operation_id r;
    v_evidence := last (attempts_of k (db_attempts d)) ≫= a_result_payload;
    v_version := c_resource_version r; v_attempts := length (attempts_of k (db_attempts d));
    v_dead := bool_decide (is_Some (db_dead_letters d !! k)) |};
  pv_digest := persisted_digest [completed; reconciliation_required] k (db_audit d) |}.

Definition db_view (d : CommandDB) (k : Key) : option PgView :=
  match db_commands d !! k with
  | Some r =>
      match command_envelope_from_payload (c_payload r) with
      | Ret env => Some (row_view d k r env)
      | Exc _ => None
      end
  | None => None
  end.

(** evidence and digest never contradict each other *)
Definition consistent (evidence : option jdict) (digest : option string) : Prop :=
  forall e d, evidence = Some e -> digest = Some d -> d = provider_evidence_digest e.

(** ** The invariant *)

Record row_ok (d : CommandDB) (k : Key) (r : CommandRow) : Prop := {
  ro_key : k = (tenant_id (c_identity r), command_id (c_identity r));
  ro_tenant : tenant_ok (fst k) = true;
  ro_env : exists env client, c_payload r = authenticated_command_payload env client /\
    envelope_valid env = true /\ (env_command_id env < uuid_bound)%N /\
    c_identity r = identity_of env /\ c_payload_sha256 r = authenticated_command_digest env client;
  ro_audit : trail None (map event_of_row (audit_of k (db_audit d))) (c_state r);
  ro_attempts : numbered k (db_attempts d);
  ro_consistent : consistent (last (attempts_of k (db_attempts d)) ≫= a_result_payload)
    (persisted_digest [completed; reconciliation_required] k (db_audit d));
}.

Record db_ok (d : CommandDB) : Prop := {
  db_rows : forall k r, db_commands d !! k = Some r -> row_ok d k r;
  db_unique : forall k1 k2 r1 r2, db_commands d !! k1 = Some r1 -> db_commands d !! k2 = Some r2 ->
    fst k1 = fst k2 -> idempotency_key (c_identity r1) = idempotency_key (c_identity r2) -> k1 = k2;
  db_fresh : forall k, db_commands d !! k = None ->
    attempts_of k (db_attempts d) = [] /\ audit_of k (db_audit d) = [] /\ db_dead_letters d !! k = None;
  db_ids : map a_id (db_attempts d) = seq 1 (length (db_attempts d));
}.

Lemma empty_db_ok : db_ok empty_db.
Proof. by split; intros *; simpl; rewrite ?lookup_empty. Qed.

Lemma db_ids_NoDup d : db_ok d -> NoDup (map a_id (db_attempts d)).
Proof. intros Hok. rewrite (db_ids _ Hok). apply NoDup_seq. Qed.

Lemma db_view_Some d k r :
  db_ok d -> db_commands d !! k = Some r ->
  exists env, command_envelope_from_payload (c_payload r) = Ret env /\ c_identity r = identity_of env /\
    db_view d k = Some (row_view d k r env).
Proof.
  intros Hok Hk. destruct (ro_env _ _ _ (db_rows _ Hok _ _ Hk)) as (env & client & Hp & Hv & Hb & Hi & _).
  exists env. assert (command_envelope_from_payload (c_payload r) = Ret env) as He.
  { rewrite Hp. by apply payload_envelope. }
  split_and!; [done|done|]. unfold db_view. by rewrite Hk, He.
Qed.

Lemma db_view_inv d k x :
  db_ok d -> db_view d k = Some x ->
  exists r env, db_commands d !! k = Some r /\ command_envelope_from_payload (c_payload r) = Ret env /\
    c_identity r = identity_of env /\ x = row_view d k r env.
Proof.
  intros Hok Hx. destruct (db_commands d !! k) as [r|] eqn:Hk; [|unfold db_view in Hx; by rewrite Hk in Hx].
  destruct (db_view_Some _ _ _ Hok Hk) as (env & He & Hi & Hv). exists r, env. split_and!; try done. congruence.
Qed.
Lemma db_view_None d k : db_ok d -> db_view d k = None <-> db_commands d !! k = None.
Proof.
  intros Hok. split; [|by unfold db_view; intros ->]. intros Hx. destruct (db_commands d !! k) as [r|] eqn:Hk; [|done].
  destruct (db_view_Some _ _ _ Hok Hk) as (env & _ & _ & Hv). congruence.
Qed.

(** ** One row replaced *)

(** what a state-changing method did to one command: its row, one audit row, its
    own attempts *)
Record row_updated (d d' : CommandDB) (k : Key) (r r' : CommandRow) (u : AuditRow) : Prop := {
  ru_commands : db_commands d' = <[k := r']> (db_commands d);
  ru_identity : c_identity r' = c_identity r;
  ru_payload : c_payload r' = c_payload r;
  ru_sha256 : c_payload_sha256 r' = c_payload_sha256 r;
  ru_audit : db_audit d' = db_audit d ++ [u];
  ru_key : u_key u = k;
  ru_previous : u_previous_state u = Some (c_state r);
  ru_new : u_new_state u = c_state r';
  ru_step : audited_step (Some (c_state r)) (c_state r') = true;
  ru_numbered : numbered k (db_attempts d');
  ru_others : forall k', k' <> k -> attempts_of k' (db_attempts d') = attempts_of k' (db_attempts d);
  ru_ids : map a_id (db_attempts d') = seq 1 (length (db_attempts d'));
  ru_dead : db_dead_letters d' = db_dead_letters d;
  ru_consistent : consistent (last (attempts_of k (db_attempts d')) ≫= a_result_payload)
    (persisted_digest [completed; reconciliation_required] k (db_audit d'));
}.

Lemma row_updated_ok d d' k r r' u :
  db_ok d -> db_commands d !! k = Some r -> row_updated d d' k r r' u -> db_ok d'.
Proof.
  intros Hok Hk U. pose proof (db_rows _ Hok _ _ Hk) as [Hkey Hten Henv Haud Hatt _]. destruct U. split.
  - intros k2 r2. rewrite ru_commands0. destruct (decide (k2 = k)) as [->|Hne].
    + rewrite lookup_insert_eq. intros [= <-]. split; try done.
      * by rewrite ru_identity0.
      * destruct Henv as (env & client & ? & ? & ? & ? & ?). exists env, client.
        rewrite ru_payload0, ru_identity0, ru_sha257. by split_and!.
      * rewrite ru_audit0, audit_of_snoc, map_app by done. simpl. rewrite <- ru_new0.
        change (u_new_state u) with (new_state (event_of_row u)). eapply trail_snoc; [done|done|].
        simpl. by rewrite ru_new0.
    + rewrite lookup_insert_ne by done. intros Hk2. destruct (db_rows _ Hok _ _ Hk2). split; try done.
      * rewrite ru_audit0, audit_of_other; [done|congruence].
      * unfold numbered. by rewrite ru_others0.
      * rewrite ru_others0, ru_audit0, persisted_digest_other; [done|congruence|done].
  - assert (forall k2 r2, db_commands d' !! k2 = Some r2 -> exists r0, db_commands d !! k2 = Some r0 /\
      c_identity r0 = c_identity r2) as Hold.
    { intros k2 r2. rewrite ru_commands0. destruct (decide (k2 = k)) as [->|Hne].
      - rewrite lookup_insert_eq. intros [= <-]. by exists r.
      - rewrite lookup_insert_ne by done. by exists r2. }
    intros k1 k2 r1 r2 (s1 & H1 & I1)%Hold (s2 & H2 & I2)%Hold Hf Hid.
    eapply (db_unique _ Hok); [exact H1|exact H2|done|congruence].
  - intros k2. rewrite ru_commands0. destruct (decide (k2 = k)) as [->|Hne]; [by rewrite lookup_insert_eq|].
    rewrite lookup_insert_ne by done. intros Hn. destruct (db_fresh _ Hok _ Hn) as (? & ? & ?).
    rewrite ru_others0, ru_audit0, audit_of_other, ru_dead0 by congruence. done.
  - done.
Qed.

Lemma row_updated_view d d' k r r' u env :
  db_ok d -> db_commands d !! k = Some r -> row_updated d d' k r r' u ->
  command_envelope_from_payload (c_payload r) = Ret env ->
  db_view d' k = Some (row_view d' k r' env) /\ forall k', k' <> k -> db_view d' k' = db_view d k'.
Proof.
  intros Hok Hk U He. destruct U. split.
  - unfold db_view. by rewrite ru_commands0, lookup_insert_eq, ru_payload0, He.
  - intros k' Hne. unfold db_view, row_view. rewrite ru_commands0, lookup_insert_ne by done.
    rewrite ru_others0, ru_audit0, persisted_digest_other, ru_dead0 by congruence. done.
Qed.

(** ** The specification *)

(** what a call returns shows the view: all but the evidence, which a call reads
    back in its own way *)
Definition shows (o : CommandOperation) (x : PgView) : Prop :=
  op_command o = identity_of (v_env (pv_core x)) /\ op_state o = v_state (pv_core x) /\
  op_provider_operation_id o = v_provider (pv_core x) /\ op_resource_version o = v_version (pv_core x).

Definition pg_upd (d d' : CommandDB) (k : Key) (x' : PgView) : Prop :=
  db_view d' k = Some x' /\ forall k', k' <> k -> db_view d' k' = db_view d k'.

Definition pg_implements (m : DM CommandOperation) (spec : outcome PgView) (d : CommandDB) (k : Key) : Prop :=
  match spec with
  | Exc e => m d = (Exc e, d)
  | Ret x' => exists o d', m d = (Ret o, d') /\ shows o x' /\ db_ok d' /\ pg_upd d d' k x'
  end.

(** after a transition: a new attempt starts without evidence, and without an
    attempt there is nowhere to keep it *)
Definition pg_moved (x : PgView) (st : CommandState) (provider : option string) (evidence : option jdict) :
    PgView :=
  let v := pv_core x in {|
  pv_core := {|
    v_env := v_env v; v_state := st; v_provider := coalesce provider (v_provider v);
    v_evidence := if bool_decide (st = dispatching) then None
                  else if (v_attempts v =? 0)%nat then None else coalesce evidence (v_evidence v);
    v_version := v_version v;
    v_attempts := if bool_decide (st = dispatching) then S (v_attempts v) else v_attempts v;
    v_dead := v_dead v |};
  pv_digest := if state_in st [completed; reconciliation_required]
               then provider_evidence_digest <$> evidence else pv_digest x |}.

Definition pg_spec_transition (ox : option PgView) (st : CommandState) (provider : option string)
    (evidence : option jdict) (expected : option nat) : outcome PgView :=
  match spec_transition (pv_core <$> ox) st provider evidence expected, ox with
  | Exc e, _ => Exc e
  | Ret _, Some x => Ret (pg_moved x st provider evidence)
  | Ret _, None => not_found
  end.

(** after a verdict *)
Definition pg_verdict (x : PgView) (matched : bool) (provider : option string) (evidence : jdict) : PgView :=
  let v := pv_core x in {|
  pv_core := {|
    v_env := v_env v; v_state := if matched then completed else reconciliation_required;
    v_provider := coalesce provider (v_provider v);
    v_evidence := if (v_attempts v =? 0)%nat then None else Some evidence;
    v_version := v_version v + 1; v_attempts := v_attempts v; v_dead := v_dead v |};
  pv_digest := Some (provider_evidence_digest evidence) |}.

Definition pg_spec_reconcile (ox : option PgView) (matched : bool) (provider : option string)
    (evidence : jdict) (expected : option Z) : outcome PgView :=
  match spec_reconcile (pv_core <$> ox) matched provider evidence expected, ox with
  | Exc e, _ => Exc e
  | Ret _, Some x => Ret (pg_verdict x matched provider evidence)
  | Ret _, None => not_found
  end.

(** ** Runs *)

Lemma tenant_run {A} t (m : DM A) d :
  tenant_ok t = true -> tenant_transaction t m d = transaction m d.
Proof.
  unfold tenant_ok. intros [H1 H2]%andb_prop. unfold tenant_transaction, transaction, bind, tenant_context.
  by rewrite H1, H2.
Qed.
Lemma transaction_ret {A} (m : DM A) d a d' : m d = (Ret a, d') -> transaction m d = (Ret a, d').
Proof. unfold transaction. by intros ->. Qed.
Lemma transaction_exc {A} (m : DM A) d e d' : m d = (Exc e, d') -> transaction m d = (Exc e, d).
Proof. unfold transaction. by intros ->. Qed.

Lemma command_row_run d t c r : db_commands d !! (t, c) = Some r -> command_row t c d = (Ret r, d).
Proof. unfold command_row. by intros ->. Qed.
Lemma command_row_none d t c : db_commands d !! (t, c) = None -> command_row t c d = (not_found, d).
Proof. unfold command_row. by intros ->. Qed.

(** stored evidence that agrees with its digest is always shown *)
Lemma operation_of_row_shows d k r env dup ev dg :
  c_identity r = identity_of env -> (is_Some dg -> is_Some ev) -> consistent ev dg ->
  exists o, operation_of_row r dup ev dg = Ret o /\ shows o (row_view d k r env) /\
    op_readback_evidence o = ev /\ op_readback_evidence_sha256 o = dg.
Proof.
  intros Hi Hs Hc. unfold operation_of_row, verify_readback_evidence_digest.
  destruct ev as [e|], dg as [g|]; try by eexists; repeat split.
  - rewrite (Hc e g) by done. rewrite String.eqb_refl. by eexists; repeat split.
  - destruct Hs as [? ?]; [by eexists|done].
Qed.

Lemma last_alter_last {A} (f : A -> A) l : last (alter_last f l) = f <$> last l.
Proof.
  destruct l as [|x l _] using rev_ind; [done|]. unfold alter_last. rewrite length_app. simpl.
  replace (pred (length l + 1)) with (length l + 0) by lia. rewrite alter_app_r. simpl. by rewrite !last_snoc.
Qed.
Lemma map_alter_last {A B} (g : A -> B) (f : A -> A) l :
  (forall a, g (f a) = g a) -> map g (alter_last f l) = map g l.
Proof.
  intros Hg. destruct l as [|x l _] using rev_ind; [done|]. unfold alter_last. rewrite length_app. simpl.
  replace (pred (length l + 1)) with (length l + 0) by lia. rewrite alter_app_r. simpl.
  by rewrite !map_app; simpl; rewrite Hg.
Qed.

(** a list of attempts changed for one key only, with its numbering and ids *)
Definition attempts_step (k : Key) (l l' : list AttemptRow) (mine : list AttemptRow) : Prop :=
  attempts_of k l' = mine /\ (forall k', k' <> k -> attempts_of k' l' = attempts_of k' l) /\
  map a_id l' = seq 1 (length l') /\ map a_number mine = seq 1 (length mine).

Lemma update_newest_step k f l :
  (forall a, a_key (f a) = a_key a) -> (forall a, a_id (f a) = a_id a) ->
  (forall a, a_number (f a) = a_number a) ->
  map a_id l = seq 1 (length l) -> numbered k l ->
  attempts_step k l (update_newest k f l) (alter_last f (attempts_of k l)).
Proof.
  intros Hk Hi Hn Hids Hnum. assert (NoDup (map a_id l)) as Hnd by (rewrite Hids; apply NoDup_seq).
  unfold attempts_step. split_and!.
  - by apply update_newest_at.
  - intros k' Hne. by apply update_newest_other.
  - rewrite update_newest_ids by done. rewrite Hids. f_equal.
    pose proof (f_equal (@length nat) (update_newest_ids k f l Hi)) as Hl. by rewrite !length_map in Hl.
  - rewrite map_alter_last, length_alter_last by done. exact Hnum.
Qed.

Lemma moved_attempts_step k st reason provider evidence now l :
  map a_id l = seq 1 (length l) -> numbered k l ->
  attempts_step k l (moved_attempts k st reason provider evidence now l)
    (if bool_decide (st = dispatching) then attempts_of k l ++ [opened_attempt k now l]
     else if state_in st [accepted; readback_pending; completed; failed; reconciliation_required]
     then alter_last (moved_attempt st reason provider evidence now) (attempts_of k l)
     else attempts_of k l).
Proof.
  intros Hids Hnum. unfold moved_attempts. case_bool_decide.
  - unfold attempts_step. split_and!.
    + rewrite attempts_of_app. unfold attempts_of at 2. simpl. by rewrite bool_decide_eq_true_2.
    + intros k' Hne. rewrite attempts_of_app. unfold attempts_of at 2. simpl.
      by rewrite bool_decide_eq_false_2, app_nil_r.
    + rewrite map_app, Hids, length_app, seq_app. simpl. do 2 f_equal. lia.
    + rewrite map_app, Hnum, length_app, seq_app. simpl. rewrite max_attempt_length by done. do 2 f_equal. lia.
  - destruct (state_in st _); [by apply update_newest_step|]. by split_and!.
Qed.

Lemma length_nil_eqb {A} (l : list A) : (length l =? 0)%nat = bool_decide (l = []).
Proof. destruct l; symmetry; [by apply bool_decide_eq_true|by apply bool_decide_eq_false]. Qed.

(** the evidence of the newest attempt after an update of it *)
Lemma moved_evidence st k reason provider evidence now l l' mine :
  attempts_step k l l' mine ->
  mine = (if bool_decide (st = dispatching) then attempts_of k l ++ [opened_attempt k now l]
     else if state_in st [accepted; readback_pending; completed; failed; reconciliation_required]
     then alter_last (moved_attempt st reason provider evidence now) (attempts_of k l)
     else attempts_of k l) ->
  (evidence = None \/ state_in st [completed; reconciliation_required] = true) ->
  length (attempts_of k l') = (if bool_decide (st = dispatching) then S (length (attempts_of k l))
                               else length (attempts_of k l)) /\
  last (attempts_of k l') ≫= a_result_payload =
    (if bool_decide (st = dispatching) then None
     else if (length (attempts_of k l) =? 0)%nat then None
     else coalesce evidence (last (attempts_of k l) ≫= a_result_payload)).
Proof.
  intros (-> & _) -> He. case_bool_decide.
  - split; [rewrite length_app; simpl; lia|]. by rewrite last_snoc.
  - destruct (state_in st [accepted; _; _; _; _]) eqn:Hst.
    + rewrite length_alter_last, last_alter_last. split; [done|].
      rewrite length_nil_eqb. case_bool_decide as Hn; [by rewrite Hn|].
      destruct (last (attempts_of k l)) as [b|] eqn:Hb; [done|by apply last_None in Hb].
    + split; [done|]. destruct He as [->|He]; [|by destruct st].
      rewrite length_nil_eqb. case_bool_decide as Hn; [by rewrite Hn|done].
Qed.

(** ** [transition] *)

(** before a state with a way out nothing was completed *)
Lemma trail_not_completed prev evs st :
  trail prev evs st -> st <> completed -> forall e, In e evs -> new_state e <> completed.
Proof.
  revert prev. induction evs as [|e evs IH]; intros prev; simpl; [done|].
  intros (Hp & Hs & Ht) Hst x [<-|Hx]; [|by eapply IH].
  intros Hc. rewrite Hc in Ht. destruct evs as [|y evs]; simpl in Ht.
  - by injection Ht as <-.
  - destruct Ht as (_ & Hy & _). unfold audited_step in Hy. by destruct (new_state y).
Qed.

Lemma not_completed_digest d k r :
  row_ok d k r -> c_state r <> completed -> persisted_digest [completed] k (db_audit d) = None.
Proof.
  intros Hr Hst. unfold persisted_digest.
  assert (List.filter (fun u => state_in (u_new_state u) [completed] && has_key DIGEST (u_metadata u))
            (audit_of k (db_audit d)) = []) as ->; [|done].
  destruct (List.filter _ _) as [|u l] eqn:Hf; [done|]. exfalso.
  assert (In u (u :: l)) as Hu by by left. rewrite <- Hf in Hu. apply filter_In in Hu as [Hu Hc].
  apply andb_prop in Hc as [Hc _]. apply state_in_true, list_elem_of_singleton in Hc.
  eapply (trail_not_completed _ _ _ (ro_audit _ _ _ Hr) Hst (event_of_row u)); [by apply in_map|done].
Qed.

Definition transitioned (d : CommandDB) (k : Key) (r : CommandRow) (st : CommandState)
    (actor reason : string) (provider : option string) (evidence : option jdict) (now : datetime) : CommandDB :=
  let d1 := insert_audit k (Some (c_state r)) st actor reason (moved_metadata provider evidence) now
              (set_db_command k (moved_row r st reason provider now) d) in
  set_db_attempts (moved_attempts k st reason provider evidence now (db_attempts d1)) d1.

Lemma transitioned_updated d k r st actor reason provider evidence now :
  db_ok d -> db_commands d !! k = Some r ->
  state_in st (ALLOWED_COMMAND_TRANSITIONS (c_state r)) = true ->
  (evidence = None \/ state_in st [completed; reconciliation_required] = true) ->
  exists u, row_updated d (transitioned d k r st actor reason provider evidence now) k r
    (moved_row r st reason provider now) u.
Proof.
  intros Hok Hk Hst He. pose proof (db_rows _ Hok _ _ Hk) as Hr.
  pose proof (moved_attempts_step k st reason provider evidence now _ (db_ids _ Hok) (ro_attempts _ _ _ Hr)) as Hs.
  destruct (moved_evidence st k reason provider evidence now _ _ _ Hs eq_refl He) as [_ Hev].
  destruct Hs as (Hmine & Hoth & Hids & Hnum). eexists. split; try reflexivity; try done.
  - simpl. unfold audited_step. by rewrite Hst.
  - unfold numbered. cbn [transitioned set_db_attempts insert_audit set_db_command db_attempts]. by rewrite Hmine.
  - cbn [transitioned set_db_attempts insert_audit set_db_command db_attempts db_audit]. rewrite Hev.
    rewrite persisted_digest_snoc by done. cbn [u_new_state u_metadata].
    change (has_key DIGEST (moved_metadata provider evidence)) with true. rewrite andb_true_r.
    pose proof (ro_consistent _ _ _ Hr) as Hc. unfold consistent in *. intros e g. case_bool_decide; [done|].
    destruct (length (attempts_of k (db_attempts d)) =? 0)%nat; [done|].
    destruct evidence as [e0|]; [destruct He as [|He]; [done|]; rewrite He|].
    + intros [= <-] [= <-]. done.
    + destruct (state_in st [completed; reconciliation_required]); [done|]. apply Hc.
Qed.

Lemma transition_row_run d t c r st actor reason provider evidence expected now :
  tenant_ok t = true -> db_commands d !! (t, c) = Some r ->
  match expected with
  | Some n => negb (bool_decide (st = dispatching)) && negb (max_attempt (t, c) (db_attempts d) =? n)
  | None => false
  end = false ->
  state_in st (ALLOWED_COMMAND_TRANSITIONS (c_state r)) = true ->
  transition_row now t c st actor reason provider evidence expected d =
    (Ret (moved_row r st reason provider now), transitioned d (t, c) r st actor reason provider evidence now).
Proof.
  intros Ht Hk He Hst. unfold transition_row. rewrite tenant_run by done. apply transaction_ret.
  erewrite bind_run by by apply command_row_run. unfold bind at 1, gets. cbn [id]. by rewrite He, Hst.
Qed.

Lemma transitioned_view d k r st actor reason provider evidence now env :
  db_ok d -> db_commands d !! k = Some r ->
  (evidence = None \/ state_in st [completed; reconciliation_required] = true) ->
  row_view (transitioned d k r st actor reason provider evidence now) k (moved_row r st reason provider now) env =
    pg_moved (row_view d k r env) st provider evidence.
Proof.
  intros Hok Hk He. pose proof (db_rows _ Hok _ _ Hk) as Hr.
  pose proof (moved_attempts_step k st reason provider evidence now _ (db_ids _ Hok) (ro_attempts _ _ _ Hr)) as Hs.
  destruct (moved_evidence st k reason provider evidence now _ _ _ Hs eq_refl He) as [Hlen Hev].
  unfold row_view, pg_moved.
  cbn [transitioned set_db_attempts insert_audit set_db_command db_attempts db_audit db_dead_letters pv_core
       pv_digest v_env v_state v_provider v_evidence v_version v_attempts v_dead moved_row command_row_with c_state
       c_provider_operation_id c_resource_version].
  rewrite Hlen, Hev, persisted_digest_snoc by done. cbn [u_new_state u_metadata].
  change (has_key DIGEST (moved_metadata provider evidence)) with true. rewrite andb_true_r.
  f_equal. destruct (state_in st _); [|done]. by destruct evidence.
Qed.

(** the digest a call without evidence reads back: none was persisted by a completion *)
Lemma transitioned_digest d k r st actor reason provider now :
  db_ok d -> db_commands d !! k = Some r ->
  state_in st (ALLOWED_COMMAND_TRANSITIONS (c_state r)) = true ->
  persisted_digest [completed] k (db_audit (transitioned d k r st actor reason provider None now)) = None.
Proof.
  intros Hok Hk Hst. cbn [transitioned set_db_attempts insert_audit set_db_command db_audit].
  rewrite persisted_digest_snoc by done. cbn [u_new_state u_metadata].
  destruct (state_in st [completed] && _); [done|].
  apply (not_completed_digest d k r); [by apply (db_rows _ Hok)|]. intros Hc. rewrite Hc in Hst. done.
Qed.

Lemma pg_transition_refines d now t c st actor reason provider evidence expected :
  db_ok d -> tenant_ok t = true ->
  pg_implements (pg_transition now t c st actor reason provider evidence expected)
    (pg_spec_transition (db_view d (t, c)) st provider evidence expected) d (t, c).
Proof.
  intros Hok Ht. unfold pg_spec_transition, spec_transition, pg_transition.
  destruct (bool_decide (is_Some evidence) && _) eqn:Hg; [done|].
  assert (evidence = None \/ state_in st [completed; reconciliation_required] = true) as He.
  { destruct evidence; [right|by left]. by apply negb_false_iff. }
  destruct (db_commands d !! (t, c)) as [r|] eqn:Hk.
  2: { pose proof Hk as Hn. apply (db_view_None _ _ Hok) in Hn as ->. simpl. apply bind_exc.
       unfold transition_row. rewrite tenant_run by done. eapply transaction_exc, bind_exc.
       by apply command_row_none. }
  destruct (db_view_Some _ _ _ Hok Hk) as (env & Henv & Hi & Hv). pose proof (db_rows _ Hok _ _ Hk) as Hr.
  rewrite Hv. cbn [fmap option_fmap option_map row_view pv_core v_attempts v_state].
  rewrite <- (max_attempt_length _ _ (ro_attempts _ _ _ Hr)).
  destruct (match expected with Some _ => _ | None => _ end) eqn:Hf.
  { simpl. apply bind_exc. unfold transition_row. rewrite tenant_run by done. eapply transaction_exc.
    erewrite bind_run by by apply command_row_run. unfold bind at 1, gets. cbn [id]. by rewrite Hf. }
  destruct (state_in st (ALLOWED_COMMAND_TRANSITIONS (c_state r))) eqn:Hst; cbn [negb].
  2: { simpl. apply bind_exc. unfold transition_row. rewrite tenant_run by done. eapply transaction_exc.
       erewrite bind_run by by apply command_row_run. unfold bind at 1, gets. cbn [id]. by rewrite Hf, Hst. }
  set (reason' := str_take 2048 reason) in *. set (d1 := transitioned d (t, c) r st actor reason' provider evidence now).
  pose proof (transition_row_run d t c r st actor reason' provider evidence expected now Ht Hk Hf Hst) as Hrun.
  destruct (transitioned_updated d _ r st actor reason' provider evidence now Hok Hk Hst He) as [u U].
  destruct (row_updated_view _ _ _ _ _ _ env Hok Hk U Henv) as [Hv1 Hoth].
  pose proof (row_updated_ok _ _ _ _ _ _ Hok Hk U) as Hok1. fold d1 in Hrun, Hv1, Hoth, Hok1.
  rewrite <- (transitioned_view d _ r st actor reason' provider evidence now env Hok Hk He). fold d1.
  set (r1 := moved_row r st reason' provider now) in *.
  enough (exists o, match evidence with
    | Some e => lift_outcome (operation_of_row r1 false (Some e) (Some (provider_evidence_digest e)))
    | None => tenant_transaction t (let! d0 := gets id in lift_outcome (operation_of_row r1 false
        (newest_attempt (t, c) (db_attempts d0) ≫= a_result_payload) (persisted_digest [completed] (t, c) (db_audit d0))))
    end d1 = (Ret o, d1) /\ shows o (row_view d1 (t, c) r1 env)) as (o & Hm & Ho).
  { exists o, d1. split_and!; [by erewrite bind_run|done|done|by split]. }
  assert (c_identity r1 = identity_of env) as Hi1 by done.
  destruct evidence as [e|].
  - destruct (operation_of_row_shows d1 (t, c) r1 env false (Some e) (Some (provider_evidence_digest e)))
      as (o & Hop & Ho & _); [done|by eexists|congruence|].
    exists o. unfold lift_outcome. by rewrite Hop.
  - destruct (operation_of_row_shows d1 (t, c) r1 env false
      (newest_attempt (t, c) (db_attempts d1) ≫= a_result_payload) None) as (o & Hop & Ho & _);
      [done|by intros [? ?]|by intros ? ? ? [=]|].
    exists o. split; [|done]. rewrite tenant_run by done. apply transaction_ret. unfold bind, gets. cbn [id].
    unfold d1 at 2. rewrite (transitioned_digest d (t, c) r) by done. unfold lift_outcome. by rewrite Hop.
Qed.

(** ** [reconcile] *)

Definition verdict_db (d : CommandDB) (k : Key) (r : CommandRow) (matched : bool) (actor reason : string)
    (provider : option string) (evidence : jdict) (now : datetime) : CommandDB :=
  let st := if matched then completed else reconciliation_required in
  let d1 := insert_audit k (Some reconciliation_required) st actor reason
              (verdict_metadata matched provider evidence) now
              (set_db_command k (verdict_row r matched reason provider now) d) in
  set_db_attempts (update_newest k (verdict_attempt st reason provider evidence now) (db_attempts d1)) d1.

Lemma verdict_evidence k f l evidence :
  attempts_step k l (update_newest k f l) (alter_last f (attempts_of k l)) ->
  (forall a, a_result_payload (f a) = Some evidence) ->
  length (attempts_of k (update_newest k f l)) = length (attempts_of k l) /\
  last (attempts_of k (update_newest k f l)) ≫= a_result_payload =
    if (length (attempts_of k l) =? 0)%nat then None else Some evidence.
Proof.
  intros (-> & _) Hf. rewrite length_alter_last, last_alter_last, length_nil_eqb. split; [done|].
  case_bool_decide as Hn; [by rewrite Hn|]. destruct (last (attempts_of k l)) as [b|] eqn:Hb; [apply Hf|].
  by apply last_None in Hb.
Qed.

Lemma verdict_updated d k r matched actor reason provider evidence now env :
  db_ok d -> db_commands d !! k = Some r -> c_state r = reconciliation_required ->
  let d1 := verdict_db d k r matched actor reason provider evidence now in
  (exists u, row_updated d d1 k r (verdict_row r matched reason provider now) u) /\
  row_view d1 k (verdict_row r matched reason provider now) env =
    pg_verdict (row_view d k r env) matched provider evidence.
Proof.
  intros Hok Hk Hst. pose proof (db_rows _ Hok _ _ Hk) as Hr. set (st := if matched then completed else reconciliation_required).
  set (f := verdict_attempt st reason provider evidence now).
  assert (attempts_step k (db_attempts d) (update_newest k f (db_attempts d)) (alter_last f (attempts_of k (db_attempts d))))
    as Hs by (apply update_newest_step; done || apply Hok || apply Hr).
  destruct (verdict_evidence _ _ _ evidence Hs) as [Hlen Hev]; [done|]. destruct Hs as (Hmine & Hoth & Hids & Hnum).
  assert (persisted_digest [completed; reconciliation_required] k
    (db_audit (verdict_db d k r matched actor reason provider evidence now)) = Some (provider_evidence_digest evidence)) as Hdg.
  { cbn [verdict_db set_db_attempts insert_audit set_db_command db_audit]. rewrite persisted_digest_snoc by done.
    cbn [u_new_state u_metadata]. by destruct matched. }
  split.
  - eexists. split; try reflexivity; try done.
    + simpl. by destruct matched.
    + by destruct matched.
    + by destruct matched.
    + by rewrite Hst.
    + simpl. by destruct matched; simpl; rewrite ?Hst.
    + rewrite Hst. by destruct matched; simpl; rewrite ?Hst.
    + unfold numbered. cbn [verdict_db set_db_attempts insert_audit set_db_command db_attempts].
      fold st f. by rewrite Hmine.
    + rewrite Hdg. cbn [verdict_db set_db_attempts insert_audit set_db_command db_attempts]. fold st f. rewrite Hev.
      intros e g. destruct (_ =? 0)%nat; [done|]. by intros [= <-] [= <-].
  - unfold row_view, pg_verdict. rewrite Hdg.
    cbn [verdict_db set_db_attempts insert_audit set_db_command db_attempts db_dead_letters pv_core
       pv_digest v_env v_state v_provider v_evidence v_version v_attempts v_dead].
    fold st f. rewrite Hlen, Hev. by destruct matched; simpl; rewrite ?Hst.
Qed.

Lemma pg_reconcile_refines d now t c matched actor reason provider evidence expected :
  db_ok d -> tenant_ok t = true ->
  pg_implements (pg_reconcile now t c matched actor reason provider evidence expected)
    (pg_spec_reconcile (db_view d (t, c)) matched provider evidence expected) d (t, c).
Proof.
  intros Hok Ht. unfold pg_spec_reconcile, spec_reconcile, pg_reconcile.
  destruct (db_commands d !! (t, c)) as [r|] eqn:Hk.
  2: { pose proof Hk as Hn. apply (db_view_None _ _ Hok) in Hn as ->. simpl. apply bind_exc.
       rewrite tenant_run by done. eapply transaction_exc, bind_exc. by apply command_row_none. }
  destruct (db_view_Some _ _ _ Hok Hk) as (env & Henv & Hi & Hv).
  rewrite Hv. cbn [fmap option_fmap option_map row_view pv_core v_version v_state].
  destruct (bool_decide (c_state r = reconciliation_required)) eqn:Hst; cbn [negb].
  2: { simpl. apply bind_exc. rewrite tenant_run by done. eapply transaction_exc.
       erewrite bind_run by by apply command_row_run. by rewrite Hst. }
  destruct (match expected with Some _ => _ | None => _ end) eqn:Hf.
  { simpl. apply bind_exc. rewrite tenant_run by done. eapply transaction_exc.
    erewrite bind_run by by apply command_row_run. by rewrite Hst, Hf. }
  apply bool_decide_eq_true in Hst as Hrec. set (reason' := str_take 2048 reason).
  destruct (verdict_updated d _ r matched actor reason' provider evidence now env Hok Hk Hrec) as [[u U] Hview].
  set (d1 := verdict_db d (t, c) r matched actor reason' provider evidence now) in *.
  set (r1 := verdict_row r matched reason' provider now) in *.
  destruct (row_updated_view _ _ _ _ _ _ env Hok Hk U Henv) as [Hv1 Hoth].
  destruct (operation_of_row_shows d1 (t, c) r1 env false (Some evidence) (Some (provider_evidence_digest evidence)))
    as (o & Hop & Ho & _); [by rewrite (ru_identity _ _ _ _ _ _ U)|by eexists|congruence|].
  rewrite Hview in Ho, Hv1. exists o, d1. split_and!; [|done|by eapply row_updated_ok|by split].
  erewrite bind_run.
  2: { rewrite tenant_run by done. apply transaction_ret. erewrite bind_run by by apply command_row_run.
       rewrite Hst, Hf. cbn [negb]. reflexivity. }
  unfold lift_outcome. fold r1. by rewrite Hop.
Qed.

(** ** Reads *)

(** [get]: what is shown, or the error of evidence that was lost *)
Lemma pg_get_spec d t c :
  db_ok d -> tenant_ok t = true ->
  match db_view d (t, c) with
  | None => pg_get t c d = (not_found, d)
  | Some x =>
      match v_evidence (pv_core x), pv_digest x with
      | None, Some _ => pg_get t c d =
          (Exc (Exn RuntimeError "read-back evidence digest has no evidence payload"), d)
      | ev, dg => exists o, pg_get t c d = (Ret o, d) /\ shows o x /\ op_readback_evidence o = ev /\
          op_readback_evidence_sha256 o = dg
      end
  end.
Proof.
  intros Hok Ht. unfold pg_get. rewrite tenant_run by done. destruct (db_commands d !! (t, c)) as [r|] eqn:Hk.
  2: { pose proof Hk as Hn. apply (db_view_None _ _ Hok) in Hn as ->.
       eapply transaction_exc, bind_exc. by apply command_row_none. }
  destruct (db_view_Some _ _ _ Hok Hk) as (env & Henv & Hi & Hv). pose proof (db_rows _ Hok _ _ Hk) as Hr. rewrite Hv.
  pose proof (ro_consistent _ _ _ Hr) as Hc. rewrite <- (newest_attempt_last _ _ (ro_attempts _ _ _ Hr)) in Hc.
  change (v_evidence (pv_core (row_view d (t, c) r env))) with (last (attempts_of (t, c) (db_attempts d)) ≫= a_result_payload).
  change (pv_digest (row_view d (t, c) r env)) with (persisted_digest [completed; reconciliation_required] (t, c) (db_audit d)).
  rewrite <- (newest_attempt_last _ _ (ro_attempts _ _ _ Hr)).
  assert (Hrun : forall o, operation_of_row r false (newest_attempt (t, c) (db_attempts d) ≫= a_result_payload)
      (persisted_digest [completed; reconciliation_required] (t, c) (db_audit d)) = o ->
    transaction (let! r := command_row t c in let! d := gets id in lift_outcome (operation_of_row r false
      (newest_attempt (t, c) (db_attempts d) ≫= a_result_payload)
      (persisted_digest [completed; reconciliation_required] (t, c) (db_audit d)))) d = (o, d)).
  { intros o Ho. unfold transaction. erewrite bind_run by by apply command_row_run. unfold bind, gets, lift_outcome.
    cbn [id]. rewrite Ho. by destruct o. }
  revert Hrun Hc. generalize (newest_attempt (t, c) (db_attempts d) ≫= a_result_payload) as ev.
  generalize (persisted_digest [completed; reconciliation_required] (t, c) (db_audit d)) as dg. intros dg ev Hrun Hc.
  assert (Hgood : (is_Some dg -> is_Some ev) -> exists o, operation_of_row r false ev dg = Ret o /\
    shows o (row_view d (t, c) r env) /\ op_readback_evidence o = ev /\ op_readback_evidence_sha256 o = dg).
  { intros Hs. by apply operation_of_row_shows. }
  destruct ev as [e|], dg as [g|].
  3: by apply Hrun.
  all: destruct Hgood as (o & Hop & Ho); [intros Hs; by destruct Hs as [? ?] || by eexists|].
  all: exists o; split; [by apply Hrun|done].
Qed.

Lemma pg_latest_attempt_spec d t c x :
  db_ok d -> tenant_ok t = true -> db_view d (t, c) = Some x ->
  pg_latest_attempt t c d = (Ret (v_attempts (pv_core x)), d).
Proof.
  intros Hok Ht Hx. destruct (db_view_inv _ _ _ Hok Hx) as (r & env & Hk & _ & _ & ->).
  unfold pg_latest_attempt. rewrite tenant_run by done. apply transaction_ret.
  erewrite bind_run by by apply command_row_run. unfold gets. simpl.
  by rewrite (max_attempt_length _ _ (ro_attempts _ _ _ (db_rows _ Hok _ _ Hk))).
Qed.

Lemma pg_load_envelope_spec d t c x :
  db_ok d -> tenant_ok t = true -> db_view d (t, c) = Some x ->
  pg_load_envelope t c d = (Ret (v_env (pv_core x)), d).
Proof.
  intros Hok Ht Hx. destruct (db_view_inv _ _ _ Hok Hx) as (r & env & Hk & He & _ & ->).
  unfold pg_load_envelope. rewrite tenant_run by done. apply transaction_ret.
  erewrite bind_run by by apply command_row_run. unfold lift_outcome. by rewrite He.
Qed.

(** ** Dead letters *)

Definition with_dead (x : PgView) : PgView := {| pv_core := with_dead_letter (pv_core x); pv_digest := pv_digest x |}.

Lemma pg_dead_letter_spec d now t c x code class reason poisoned exhausted :
  db_ok d -> db_view d (t, c) = Some x ->
  exists r d', pg_record_dead_letter now t c code class reason poisoned exhausted d = (Ret r, d') /\
    db_ok d' /\ pg_upd d d' (t, c) (with_dead x).
Proof.
  intros Hok Hx. destruct (db_view_inv _ _ _ Hok Hx) as (row & env & Hk & He & Hi & ->).
  assert (Hupd : forall d', db_commands d' = db_commands d -> db_attempts d' = db_attempts d ->
    db_audit d' = db_audit d -> is_Some (db_dead_letters d' !! (t, c)) ->
    (forall k', k' <> (t, c) -> db_dead_letters d' !! k' = db_dead_letters d !! k') ->
    db_ok d' /\ pg_upd d d' (t, c) (with_dead (row_view d (t, c) row env))).
  { intros d' Hc Ha Hu Hd Ho. split.
    - destruct Hok as [H1 H2 H3 H4]. split.
      + intros k r Hr. rewrite Hc in Hr. destruct (H1 k r Hr). split; by rewrite ?Ha, ?Hu.
      + intros k1 k2 r1 r2. rewrite Hc. apply H2.
      + intros k Hn. rewrite Hc in Hn. destruct (H3 k Hn) as (? & ? & ?). rewrite Ha, Hu, Ho by congruence. done.
      + by rewrite Ha.
    - split.
      + unfold db_view, row_view, with_dead, with_dead_letter. rewrite Hc, Hk, He, Ha, Hu.
        by rewrite bool_decide_eq_true_2.
      + intros k' Hne. unfold db_view, row_view. by rewrite Hc, Ha, Hu, Ho. }
  unfold pg_record_dead_letter, transaction. erewrite bind_run by by apply command_row_run.
  unfold bind at 1, gets. cbn [id]. destruct (db_dead_letters d !! (t, c)) as [dl|] eqn:Hdl.
  - exists dl, d. split; [done|]. by apply Hupd.
  - eexists _, _. split; [reflexivity|]. apply Hupd; try done; simpl.
    + rewrite lookup_insert_eq. by eexists.
    + intros k' Hne. by rewrite lookup_insert_ne.
Qed.

(** ** [mutate_operation] *)

Lemma insert_outbox_quiet k dest event key payload next d :
  exists l, insert_outbox true k dest event key payload next d = (Ret tt, set_db_outbox l d).
Proof.
  unfold insert_outbox. destruct (outbox_conflict _ _ _ _); [|by eexists]. exists (db_outbox d). by destruct d.
Qed.

(** what the branch of an action writes *)
Lemma pg_action_spec now k r a actor key reason d res d1 :
  pg_action now k r a actor key reason d = (res, d1) ->
  match res with
  | Exc e => exn_cls e = CommandConflict
  | Ret r' => (exists l, d1 = set_db_outbox l (set_db_command k r' d)) /\
      c_identity r' = c_identity r /\ c_payload r' = c_payload r /\ c_payload_sha256 r' = c_payload_sha256 r /\
      c_provider_operation_id r' = c_provider_operation_id r /\
      c_resource_version r' = (c_resource_version r + 1)%Z /\ c_state r' <> completed /\
      audited_step (Some (c_state r)) (c_state r') = true
  end.
Proof.
  destruct a; unfold pg_action.
  - unfold pg_cancel. destruct (state_in (c_state r) _) eqn:Hst; [by intros [= <- <-]|].
    unfold bind, gets, modify, when, ret. cbn [id]. set (lease := existsb _ _).
    destruct (state_in (c_state r) [persisted; queued] && negb lease) eqn:Hc; simpl;
      intros [= <- <-]; split_and!; try done; try (by eexists).
    + simpl. unfold audited_step. apply andb_prop in Hc as [Hc _]. by destruct (c_state r).
    + simpl. unfold audited_step. by destruct (c_state r).
  - unfold pg_reconcile_request. destruct (negb (state_in (c_state r) _)) eqn:Hst; [by intros [= <- <-]|].
    unfold bind, gets, modify. cbn [id]. destruct (update_outbox _ _ _) as [l n]. unfold when.
    set (row := mutated_row _ _ _ _ _ _ _ _ _).
    assert (audited_step (Some (c_state r)) (c_state row) = true) as Ha.
    { unfold row, audited_step. simpl. by destruct (c_state r). }
    destruct (n =? 0)%nat.
    + destruct (insert_outbox_quiet k TEMPORAL_COMMAND_DESTINATION "operation.reconcile.v1"
        (work_key "operation-reconcile:" k actor key)
        [("command_id", JStr (uuid_str (snd k))); ("action", JStr "reconcile"); ("reason", JStr reason)]
        (seconds now) (set_db_outbox l (set_db_command k row d))) as [l' Hl'].
      rewrite Hl'. unfold ret. intros [= <- <-]. split_and!; try done. by eexists.
    + unfold ret. intros [= <- <-]. split_and!; try done. by eexists.
  - unfold pg_retry. destruct (negb (bool_decide _)) eqn:Hst; [by intros [= <- <-]|].
    unfold bind, gets, modify. cbn [id]. set (row := mutated_row _ _ _ _ _ _ _ _ _). set (dest := match last _ with Some _ => _ | None => _ end).
    destruct (insert_outbox_quiet k dest (command_type (c_identity r)) (work_key "operation-retry:" k actor key)
      (dict_set "idempotency_key" (JStr (work_key "operation-retry:" k actor key)) (c_payload r))
      (seconds now) (set_db_command k row d)) as [l' Hl'].
    rewrite Hl'. unfold ret. intros [= <- <-]. apply negb_false_iff, bool_decide_eq_true in Hst.
    split_and!; try done; [by eexists|]. simpl. by rewrite Hst.
Qed.

Lemma mutation_no_digest a v corr :
  has_key DIGEST (dict_merge [("action", JStr (action_name a)); ("resource_version", JInt v)] (mutation_evidence corr)) = false.
Proof. unfold has_key, mutation_evidence. by destruct (truthy_str corr). Qed.

(** after an operator's request: the state the action chose, one version on *)
Definition pg_restate (x : PgView) (st : CommandState) : PgView :=
  let v := pv_core x in {|
  pv_core := {| v_env := v_env v; v_state := st; v_provider := v_provider v; v_evidence := v_evidence v;
    v_version := v_version v + 1; v_attempts := v_attempts v; v_dead := v_dead v |};
  pv_digest := pv_digest x |}.

(** a row replaced with its attempts kept and no digest audited *)
Lemma quiet_updated d d' k r r' u :
  db_ok d -> db_commands d !! k = Some r ->
  db_commands d' = <[k := r']> (db_commands d) -> db_attempts d' = db_attempts d ->
  db_audit d' = db_audit d ++ [u] -> db_dead_letters d' = db_dead_letters d ->
  c_identity r' = c_identity r -> c_payload r' = c_payload r -> c_payload_sha256 r' = c_payload_sha256 r ->
  u_key u = k -> u_previous_state u = Some (c_state r) -> u_new_state u = c_state r' ->
  has_key DIGEST (u_metadata u) = false -> audited_step (Some (c_state r)) (c_state r') = true ->
  row_updated d d' k r r' u.
Proof.
  intros Hok Hk Hc Ha Hu Hd Hi Hp Hs Huk Hup Hun Hm Hst. pose proof (db_rows _ Hok _ _ Hk) as Hr.
  split; rewrite ?Ha; try done.
  - apply Hr.
  - apply Hok.
  - rewrite Hu, persisted_digest_snoc, Hm, andb_false_r by done. apply Hr.
Qed.

(** every outcome of [mutate_operation] *)
Lemma pg_mutate_cases d now t c a actor key version reason corr res d' :
  db_ok d -> tenant_ok t = true ->
  pg_mutate_operation now t c a actor key version reason corr d = (res, d') ->
  (exists e, res = Exc e /\ d' = d) \/
  (exists dg o, db_mutations d !! (t, c, a, actor, key) = Some (dg, o) /\ dg = mutation_digest version reason /\
     res = Ret (as_duplicate o) /\ d' = d) \/
  (exists r r' u o, db_commands d !! (t, c) = Some r /\ c_resource_version r = version /\
     db_mutations d !! (t, c, a, actor, key) = None /\ res = Ret o /\ row_updated d d' (t, c) r r' u /\
     db_mutations d' = <[(t, c, a, actor, key) := (mutation_digest version reason, o)]> (db_mutations d) /\
     (exists d1, pg_action now (t, c) r a actor key reason d = (Ret r', d1) /\ db_outbox d' = db_outbox d1) /\
     operation_of_row r' false None None = Ret o /\ c_resource_version r' = (version + 1)%Z /\
     c_state r' <> completed /\ (forall x, db_view d (t, c) = Some x ->
       db_view d' (t, c) = Some (pg_restate x (c_state r')))).
Proof.
  intros Hok Ht. unfold pg_mutate_operation. rewrite tenant_run by done. unfold transaction.
  destruct (db_commands d !! (t, c)) as [r|] eqn:Hk.
  2: { erewrite bind_exc by by apply command_row_none. intros [= <- <-]. left. eauto. }
  erewrite bind_run by by apply command_row_run. unfold bind at 1, gets. cbn [id].
  destruct (db_mutations d !! (t, c, a, actor, key)) as [[dg o]|] eqn:Hm.
  { destruct (negb (String.eqb dg _)) eqn:Hd; intros [= <- <-]; [left; eauto|].
    right; left. exists dg, o. apply negb_false_iff, String.eqb_eq in Hd. done. }
  destruct (negb (_ =? _)%Z) eqn:Hv; [intros [= <- <-]; left; eauto|].
  apply negb_false_iff, Z.eqb_eq in Hv.
  destruct (pg_action now (t, c) r a actor key reason d) as [[r'|e] d1] eqn:Ha.
  2: { erewrite bind_exc by exact Ha. intros [= <- <-]. left. eauto. }
  erewrite bind_run by exact Ha.
  pose proof (pg_action_spec _ _ _ _ _ _ _ _ _ _ Ha) as ((l & ->) & Hi & Hp & Hs & Hpr & Hver & Hnc & Hst).
  unfold bind, modify, lift_outcome, operation_of_row, ret. cbn [verify_readback_evidence_digest].
  intros [= <- <-]. right; right. eexists r, r', _, _.
  match goal with |- _ /\ _ /\ _ /\ _ /\ row_updated _ ?d' _ _ _ ?u /\ _ => assert (row_updated d d' (t, c) r r' u) as U end.
  { eapply quiet_updated; try done. apply mutation_no_digest. }
  split_and!; try done.
  - by eexists.
  - by rewrite Hver, Hv.
  - intros x Hx. destruct (db_view_inv _ _ _ Hok Hx) as (r0 & env & Hk0 & He & _ & ->).
    rewrite Hk in Hk0. injection Hk0 as <-. destruct (row_updated_view _ _ _ _ _ _ env Hok Hk U He) as [-> _].
    unfold row_view, pg_restate. cbn [pv_core pv_digest v_env v_state v_provider v_evidence v_version v_attempts v_dead].
    f_equal. rewrite Hpr, Hver. f_equal.
    cbn [set_db_mutation insert_audit set_db_outbox set_db_command db_audit].
    rewrite persisted_digest_snoc by done. cbn [u_metadata]. by rewrite mutation_no_digest, andb_false_r.
Qed.

End Facts.
