(* ===== verification/PgHistory.v ===== *)
(** * Submissions and histories of the durable ledger

    The rows a submission meets, the tables after a first one, and the proof
    that every state-changing method keeps the invariant of [PgLedgerFacts]. *)

From stdpp Require Import sorting.
From Stdlib Require Import QArith.
From S2P Require Import Prelude Json Sha256 Uuid Commands LedgerSpec Ledger LedgerFacts Bus Principal Outbox.
From S2P Require Import PgLedger PgLedgerFacts.
Local Open Scope nat_scope.

#[local] Opaque sha256_hex uuid_str.

Section History.
Context `{Externals}.

(** ** [submit] *)

Lemma elem_of_existing c d r :
  r ∈ existing_rows c d <-> exists k, db_commands d !! k = Some r /\ same_identity c r = true.
Proof.
  unfold existing_rows. rewrite merge_sort_Permutation, list_elem_of_In, filter_In, in_map_iff. split.
  - intros [([k r'] & <- & Hin) Hs]. exists k. split; [|done]. apply elem_of_map_to_list. by apply list_elem_of_In.
  - intros (k & Hk & Hs). split; [|done]. exists (k, r). split; [done|].
    apply list_elem_of_In. by apply elem_of_map_to_list.
Qed.

Lemma rows_NoDup d (l : list (Key * CommandRow)) :
  db_ok d -> NoDup l -> (forall k r, (k, r) ∈ l -> db_commands d !! k = Some r) -> NoDup (map snd l).
Proof.
  intros Hok. induction l as [|[k r] l IH]; intros Hnd Hin; [constructor|].
  apply NoDup_cons in Hnd as [Hk Hnd]. simpl. apply NoDup_cons. split.
  - intros Hr. rewrite list_elem_of_In, in_map_iff in Hr. destruct Hr as ([k' r'] & Heq & Hr). simpl in Heq.
    subst r'. apply list_elem_of_In in Hr.
    assert (db_commands d !! k = Some r) as H1 by (apply Hin; left).
    assert (db_commands d !! k' = Some r) as H2 by (apply Hin; by right).
    apply (db_rows _ Hok) in H1 as [Hk1 _ _ _ _ _]. apply (db_rows _ Hok) in H2 as [Hk2 _ _ _ _ _].
    apply Hk. congruence.
  - apply IH; [done|]. intros k' r' Hr. apply Hin. by right.
Qed.

Lemma existing_NoDup c d : db_ok d -> NoDup (existing_rows c d).
Proof.
  intros Hok. unfold existing_rows. rewrite merge_sort_Permutation.
  assert (NoDup (map snd (map_to_list (db_commands d)))) as Hnd.
  { apply (rows_NoDup d); [done|apply NoDup_map_to_list|]. intros k r. by rewrite elem_of_map_to_list. }
  revert Hnd. generalize (map snd (map_to_list (db_commands d))) as l. induction l as [|r l IH]; simpl; [done|].
  intros [Hr Hl]%NoDup_cons. destruct (same_identity c r); [|by apply IH]. apply NoDup_cons. split; [|by apply IH].
  rewrite list_elem_of_In, filter_In, <- list_elem_of_In. by intros [? _].
Qed.

(** the row of an idempotency key *)
Definition key_row (d : CommandDB) (t ik : string) (r : CommandRow) : Prop :=
  exists k, db_commands d !! k = Some r /\ fst k = t /\ idempotency_key (c_identity r) = ik.

Lemma key_row_unique d t ik r1 r2 : db_ok d -> key_row d t ik r1 -> key_row d t ik r2 -> r1 = r2.
Proof.
  intros Hok (k1 & H1 & Ht1 & Hi1) (k2 & H2 & Ht2 & Hi2).
  assert (k1 = k2) as ->; [|congruence]. eapply (db_unique _ Hok); [exact H1|exact H2|congruence..].
Qed.

Lemma existing_spec c d r :
  db_ok d ->
  r ∈ existing_rows c d <->
    db_commands d !! (env_tenant_id c, env_command_id c) = Some r \/
    key_row d (env_tenant_id c) (env_idempotency_key c) r.
Proof.
  intros Hok. rewrite elem_of_existing. unfold same_identity. split.
  - intros (k & Hk & [Ht Hor]%andb_prop). apply String.eqb_eq in Ht.
    pose proof (ro_key _ _ _ (db_rows _ Hok _ _ Hk)) as ->. apply orb_prop in Hor as [Hi|Hi].
    + left. apply N.eqb_eq in Hi. by rewrite <- Ht, <- Hi.
    + right. apply String.eqb_eq in Hi. by exists (tenant_id (c_identity r), command_id (c_identity r)).
  - intros [Hk|(k & Hk & Ht & Hi)].
    + exists (env_tenant_id c, env_command_id c). split; [done|].
      pose proof (ro_key _ _ _ (db_rows _ Hok _ _ Hk)) as [= -> ->]. by rewrite String.eqb_refl, N.eqb_refl.
    + exists k. split; [done|]. pose proof (ro_key _ _ _ (db_rows _ Hok _ _ Hk)) as ->. simpl in Ht.
      by rewrite Ht, Hi, !String.eqb_refl, orb_true_r.
Qed.

(** two rows: the identities name different commands *)
Lemma existing_two c d r1 r2 l :
  db_ok d -> existing_rows c d = r1 :: r2 :: l ->
  exists s1 s2, db_commands d !! (env_tenant_id c, env_command_id c) = Some s1 /\
    key_row d (env_tenant_id c) (env_idempotency_key c) s2 /\ s1 <> s2.
Proof.
  intros Hok He. assert (r1 <> r2) as Hne.
  { pose proof (existing_NoDup c d Hok) as Hnd. rewrite He in Hnd. apply NoDup_cons in Hnd as [Hn _].
    intros ->. apply Hn. left. }
  assert (r1 ∈ existing_rows c d) as H1 by (rewrite He; left).
  assert (r2 ∈ existing_rows c d) as H2 by (rewrite He; right; left).
  apply existing_spec in H1, H2; try done.
  destruct H1 as [H1|H1], H2 as [H2|H2].
  - congruence.
  - by exists r1, r2.
  - by exists r2, r1.
  - by pose proof (key_row_unique _ _ _ _ _ Hok H1 H2).
Qed.

(** the tables after a first submission *)
Definition inserted (d : CommandDB) (now : datetime) (c : CommandEnvelope) (client dest : string)
    (ev : option jdict) (tr : option (list (string * string))) : CommandDB :=
  let k := (env_tenant_id c, env_command_id c) in
  set_db_outbox (append_outbox k dest (env_command_type c) (env_idempotency_key c)
      (with_trace (authenticated_command_payload c client) tr) (seconds now) (db_outbox d))
    (insert_audit k None persisted (env_requested_by c) "validated command and persisted delivery intent"
      (submit_metadata client ev) now (set_db_command k (new_command_row c client now) d)).

(** every outcome of [submit] *)
Lemma pg_submit_cases d now c client dest ev tr :
  tenant_ok (env_tenant_id c) = true ->
  pg_submit now c client dest ev tr d =
    if negb (mem_string dest COMMAND_DESTINATIONS)
    then (conflict ("unsupported command destination " +:+ dest), d)
    else match existing_rows c d with
    | [] => if outbox_conflict (env_tenant_id c) dest (env_idempotency_key c) (db_outbox d)
            then (Exc (Exn (Foreign "UniqueViolationError" ["PostgresError"; "Exception"])
                           "middleware_outbox_tenant_id_destination_idempotency_key_key"), d)
            else (operation_of_row (new_command_row c client now) false None None, inserted d now c client dest ev tr)
    | [r] => if negb (command_digest_matches (c_payload_sha256 r) c client)
             then (conflict "command identity was reused with different content", d)
             else (operation_of_row r true None None, d)
    | _ => (conflict "command identity was reused with different content", d)
    end.
Proof.
  intros Ht. unfold pg_submit. rewrite tenant_run by done. unfold transaction, submit_on_connection.
  destruct (mem_string dest COMMAND_DESTINATIONS); cbn [negb]; [|done].
  unfold tenant_ok in Ht. apply andb_prop in Ht as [H1 H2]. unfold tenant_context. rewrite H1, H2.
  cbn [negb]. unfold bind at 1 2, gets, ret. cbn [id].
  destruct (existing_rows c d) as [|r [|r2 l]]; [|by destruct (negb _)|done].
  unfold bind, modify, insert_outbox. cbv beta iota. cbn [insert_audit set_db_command db_outbox fst].
  by destruct (outbox_conflict _ _ _ _).
Qed.

Lemma inserted_ok d now c client dest ev tr :
  db_ok d -> tenant_ok (env_tenant_id c) = true -> envelope_valid c = true -> (env_command_id c < uuid_bound)%N ->
  existing_rows c d = [] ->
  let d' := inserted d now c client dest ev tr in
  db_ok d' /\ db_view d' (env_tenant_id c, env_command_id c) = Some {| pv_core := initial_view c; pv_digest := None |} /\
  forall k', k' <> (env_tenant_id c, env_command_id c) -> db_view d' k' = db_view d k'.
Proof.
  intros Hok Ht Hv Hb He d'. set (k := (env_tenant_id c, env_command_id c)).
  assert (forall r, ~ (db_commands d !! k = Some r \/ key_row d (env_tenant_id c) (env_idempotency_key c) r)) as Hno.
  { intros r Hr. apply (existing_spec c d r Hok) in Hr. rewrite He in Hr. by apply elem_of_nil in Hr. }
  assert (db_commands d !! k = None) as Hk.
  { destruct (db_commands d !! k) as [r|] eqn:Hk; [|done]. exfalso. apply (Hno r). by left. }
  destruct (db_fresh _ Hok _ Hk) as (Hat & Hau & Hdl).
  set (r0 := new_command_row c client now).
  assert (db_commands d' = <[k := r0]> (db_commands d)) as Hcm by done.
  assert (db_attempts d' = db_attempts d) as Hatt by done.
  assert (db_dead_letters d' = db_dead_letters d) as Hdead by done.
  assert (exists u, db_audit d' = db_audit d ++ [u] /\ u_key u = k /\ u_previous_state u = None /\ u_new_state u = persisted)
    as (u & Hu & Huk & Hup & Hun) by by eexists.
  assert (persisted_digest [completed; reconciliation_required] k (db_audit d') = None) as Hdig.
  { rewrite Hu, persisted_digest_snoc, Hun by done. simpl. unfold persisted_digest. by rewrite Hau. }
  split_and!.
  - split.
    + intros k2 r2. rewrite Hcm. destruct (decide (k2 = k)) as [->|Hne].
      * rewrite lookup_insert_eq. intros [= <-]. split; try done.
        -- by exists c, client.
        -- rewrite Hu, audit_of_snoc, Hau by done. simpl. by rewrite Hup, Hun.
        -- unfold numbered. by rewrite Hatt, Hat.
        -- rewrite Hatt, Hat. by intros e g [=].
      * rewrite lookup_insert_ne by done. intros Hk2. destruct (db_rows _ Hok _ _ Hk2). split; try done.
        -- rewrite Hu, audit_of_other; [done|congruence].
        -- rewrite Hatt, Hu, persisted_digest_other; [done|congruence].
    + assert (forall k1 k2 r1 r2, k1 = k -> k2 <> k -> r1 = r0 -> db_commands d !! k2 = Some r2 ->
        fst k1 = fst k2 -> idempotency_key (c_identity r1) = idempotency_key (c_identity r2) -> False) as Hx.
      { intros k1 k2 r1 r2 -> Hne -> Hk2 Hf Hid. apply (Hno r2). right. exists k2. by split_and!. }
      intros k1 k2 r1 r2. rewrite Hcm. destruct (decide (k1 = k)) as [E1|E1], (decide (k2 = k)) as [E2|E2].
      * congruence.
      * rewrite E1, lookup_insert_eq, lookup_insert_ne by done. intros [= <-] H2 Hf Hid. exfalso.
        by eapply (Hx k k2 r0 r2).
      * rewrite E2, lookup_insert_eq, lookup_insert_ne by done. intros H1 [= <-] Hf Hid. exfalso.
        by eapply (Hx k k1 r0 r1).
      * rewrite !lookup_insert_ne by done. apply Hok.
    + intros k2. rewrite Hcm, Hatt, Hdead. destruct (decide (k2 = k)) as [->|Hne]; [by rewrite lookup_insert_eq|].
      rewrite lookup_insert_ne by done. intros Hn. destruct (db_fresh _ Hok _ Hn) as (? & ? & ?).
      rewrite Hu, audit_of_other by congruence. done.
    + rewrite Hatt. apply Hok.
  - unfold db_view. rewrite Hcm, lookup_insert_eq. cbn [r0 new_command_row c_payload]. rewrite payload_envelope by done.
    unfold row_view. rewrite Hdig, Hatt, Hat, Hdead, Hdl. done.
  - intros k' Hne. unfold db_view, row_view. rewrite Hcm, lookup_insert_ne by done.
    by rewrite Hatt, Hu, persisted_digest_other, Hdead by congruence.
Qed.

(** ** Histories *)

(** the replay methods write only the replay table *)
Lemma replay_frame r d : db_ok d -> db_ok (set_db_replay r d) /\ forall k, db_view (set_db_replay r d) k = db_view d k.
Proof.
  intros [H1 H2 H3 H4]. split; [|done]. split; try done. intros k r0 Hr. destruct (H1 k r0 Hr). by split.
Qed.

Lemma pg_create_replay_frame now t c rid actor key reason at_ d :
  let d' := snd (pg_create_replay now t c rid actor key reason at_ d) in d' = d \/ exists r, d' = set_db_replay r d.
Proof.
  unfold pg_create_replay, transaction, pg_get_dead_letter, bind, gets, raise, unique_violation, modify, ret. cbn.
  repeat case_match; simplify_eq/=; eauto.
Qed.
Lemma update_replay_frame t rid f msg d :
  let d' := snd (update_replay t rid f msg d) in d' = d \/ exists r, d' = set_db_replay r d.
Proof. unfold update_replay, bind, gets, raise, modify, ret. cbn. repeat case_match; simplify_eq/=; eauto. Qed.

(** one state-changing call of the store, of any of its methods *)
Inductive pg_step (d : CommandDB) : CommandDB -> Prop :=
  | ps_submit now c client dest ev tr : envelope_valid c = true -> (env_command_id c < uuid_bound)%N ->
      pg_step d (snd (pg_submit now c client dest ev tr d))
  | ps_transition now t c st actor reason p e n :
      pg_step d (snd (pg_transition now t c st actor reason p e n d))
  | ps_reconcile now t c matched actor reason p e n :
      pg_step d (snd (pg_reconcile now t c matched actor reason p e n d))
  | ps_mutate now t c action actor key version reason corr :
      pg_step d (snd (pg_mutate_operation now t c action actor key version reason corr d))
  | ps_dead_letter now t c code class reason poisoned exhausted :
      pg_step d (snd (pg_record_dead_letter now t c code class reason poisoned exhausted d))
  | ps_create_replay now t c rid actor key reason at_ :
      pg_step d (snd (pg_create_replay now t c rid actor key reason at_ d))
  | ps_complete_replay t rid c : pg_step d (snd (pg_complete_replay t rid c d))
  | ps_cancel_replay now t rid : pg_step d (snd (pg_cancel_replay now t rid d))
  | ps_notifications now t incident actor reason intents :
      pg_step d (snd (cancel_pending_grouped_notifications now t incident actor reason intents d))
  | ps_outbox l : pg_step d (set_db_outbox l d).

(** an inadmissible tenant is refused before anything is read *)
Lemma tenant_refused {A} t (m : DM A) d :
  tenant_ok t = false -> exists e, tenant_transaction t m d = (Exc e, d).
Proof.
  unfold tenant_ok, tenant_transaction, transaction, bind, tenant_context. intros Ht.
  destruct (str_nonempty (strip t)); simpl in *; [|by eexists]. rewrite Ht. by eexists.
Qed.
Ltac refuse t :=
  match goal with |- context [tenant_transaction t ?m ?d] =>
    let x := fresh "x" in let Hx := fresh "Hx" in
    destruct (tenant_refused t m d) as [x Hx]; [done|]; by rewrite Hx
  end.

Lemma pg_transition_refused d now t c st actor reason p e n :
  tenant_ok t = false -> snd (pg_transition now t c st actor reason p e n d) = d.
Proof.
  intros Ht. unfold pg_transition. destruct (_ && _); [done|]. unfold bind, transition_row. refuse t.
Qed.
Lemma pg_reconcile_refused d now t c matched actor reason p e n :
  tenant_ok t = false -> snd (pg_reconcile now t c matched actor reason p e n d) = d.
Proof.
  intros Ht. unfold pg_reconcile, bind at 1. refuse t.
Qed.

Lemma pg_implements_ok m spec d k : pg_implements m spec d k -> db_ok d -> db_ok (snd (m d)).
Proof. destruct spec; simpl; [by intros (o & d' & -> & _ & ? & _)|by intros ->]. Qed.

Lemma set_outbox_ok l d : db_ok d -> db_ok (set_db_outbox l d).
Proof. intros [H1 H2 H3 H4]. split; try done. intros k r Hr. destruct (H1 k r Hr). by split. Qed.

(** what the loop keeps: a command it may still withdraw is where the query found it *)
Definition found_there (t : string) (pending : list (UUID * CommandState * nat)) (d : CommandDB) : Prop :=
  forall c previous o r, (c, previous, o) ∈ pending -> db_commands d !! (t, c) = Some r ->
    state_in (c_state r) [persisted; queued] = true -> c_state r = previous.

Lemma pending_found now t intents d : found_there t (pending_notifications now t intents d) d.
Proof.
  intros c previous o r Hin Hr _. unfold pending_notifications in Hin. apply list_elem_of_In, in_concat in Hin as (l & Hl & Hin).
  apply in_map_iff in Hl as (c' & <- & _). destruct (db_commands d !! (t, c')) as [r'|] eqn:Hr'; [|done].
  destruct (state_in _ _); [|done]. apply in_map_iff in Hin as (x & [= -> <- _] & _). congruence.
Qed.

(** a withdrawn command: nothing, or one row with its audit *)
Lemma withdraw_cases now t incident actor reason c previous d :
  (snd (withdraw now t incident actor reason c previous d) = d /\
   forall r, db_commands d !! (t, c) = Some r -> state_in (c_state r) [persisted; queued] = false) \/
  exists r meta, db_commands d !! (t, c) = Some r /\ state_in (c_state r) [persisted; queued] = true /\
    snd (withdraw now t incident actor reason c previous d) =
      insert_audit (t, c) (Some previous) cancelled actor reason meta now (set_db_command (t, c) (withdrawn_row r reason now) d) /\
    has_key DIGEST meta = false.
Proof.
  unfold withdraw, bind, gets. cbn [id]. destruct (db_commands d !! (t, c)) as [r|] eqn:Hr; [|by left].
  destruct (state_in (c_state r) _) eqn:Hst; [|left; split; [done|by intros ? [= <-]]].
  right. eexists r, _. by split_and!.
Qed.

(** the cancellation is a sequence of such writes *)
Lemma notifications_kept (R : CommandDB -> CommandDB -> Prop) `{!PreOrder R} now t incident actor reason intents d :
  (forall l d, R d (set_db_outbox l d)) ->
  (forall d c r meta, db_commands d !! (t, c) = Some r -> state_in (c_state r) [persisted; queued] = true -> has_key DIGEST meta = false ->
     R d (insert_audit (t, c) (Some (c_state r)) cancelled actor reason meta now (set_db_command (t, c) (withdrawn_row r reason now) d))) ->
  R d (snd (cancel_pending_grouped_notifications now t incident actor reason intents d)).
Proof.
  intros Hl Hw. unfold cancel_pending_grouped_notifications, bind, gets. cbn [id]. pose proof (pending_found now t intents d) as Hf. revert Hf.
  generalize (pending_notifications now t intents d) as pending. intros pending. revert d.
  induction pending as [|[[c previous] o] pending IH]; intros d Hf; [done|]. cbn [cancel_notifications].
  assert (H1 : R d (snd (withdraw now t incident actor reason c previous d)) /\
    found_there t pending (snd (withdraw now t incident actor reason c previous d))).
  { destruct (withdraw_cases now t incident actor reason c previous d) as [[-> _]|(r & meta & Hr & Hst & -> & Hm)].
    - split; [done|]. intros c2 p2 o2 r2 Hin. by apply (Hf c2 p2 o2 r2); right.
    - rewrite <- (Hf c previous o r) by (done || left). split; [by apply Hw|]. intros c2 p2 o2 r2 Hin Hr2 Hst2.
      cbn [insert_audit set_db_command db_commands] in Hr2. destruct (decide ((t, c2) = (t, c))) as [Heq|Hne].
      + rewrite Heq, lookup_insert_eq in Hr2. by injection Hr2 as <-.
      + rewrite lookup_insert_ne in Hr2 by done. by apply (Hf c2 p2 o2 r2); [right|..]. }
  unfold bind at 1. destruct (withdraw now t incident actor reason c previous d) as [[[]|e] d1]; cbn [snd] in H1; [|apply H1].
  unfold bind, modify. cbv beta iota. etrans; [apply H1|]. etrans; [apply Hl|]. apply IH. apply H1.
Qed.

Lemma pg_step_ok d d' : pg_step d d' -> db_ok d -> db_ok d'.
Proof.
  intros Hs Hok. destruct Hs.
  - destruct (tenant_ok (env_tenant_id c)) eqn:Ht.
    2: { unfold pg_submit. refuse (env_tenant_id c). }
    rewrite pg_submit_cases by done. destruct (negb _); [done|]. destruct (existing_rows c d) as [|r [|]] eqn:He.
    + destruct (outbox_conflict _ _ _ _); [done|]. by apply inserted_ok.
    + by destruct (negb _).
    + done.
  - destruct (tenant_ok t) eqn:Ht; [|by rewrite pg_transition_refused].
    eapply pg_implements_ok; [by apply pg_transition_refines|done].
  - destruct (tenant_ok t) eqn:Ht; [|by rewrite pg_reconcile_refused].
    eapply pg_implements_ok; [by apply pg_reconcile_refines|done].
  - destruct (tenant_ok t) eqn:Ht; [|unfold pg_mutate_operation; refuse t].
    destruct (pg_mutate_operation _ _ _ _ _ _ _ _ _ d) as [res d'] eqn:Hm.
    destruct (pg_mutate_cases _ _ _ _ _ _ _ _ _ _ _ _ Hok Ht Hm)
      as [(? & _ & ->)|[(? & ? & _ & _ & _ & ->)|(r & r' & u & o & Hk & _ & _ & _ & U & _)]]; try done.
    by eapply row_updated_ok.
  - destruct (db_view d (t, c)) as [x|] eqn:Hx.
    + by destruct (pg_dead_letter_spec d now t c x code class reason poisoned exhausted Hok Hx) as (r & d' & -> & ? & _).
    + apply (db_view_None _ _ Hok) in Hx. unfold pg_record_dead_letter, transaction.
      by erewrite bind_exc by by apply command_row_none.
  - destruct (pg_create_replay_frame now t c rid actor key reason at_ d) as [->|[r ->]]; [done|by apply replay_frame].
  - destruct (update_replay_frame t rid (fun r => replay_update r replay_submitted (Some c) (replay_cancelled_at r))
      "replay is not executable" d) as [Hd|[r Hd]]; unfold pg_complete_replay; rewrite Hd; [done|by apply replay_frame].
  - destruct (update_replay_frame t rid (fun r => replay_update r replay_cancelled (replay_command_id r) (Some now))
      "replay can only be cancelled before execution" d) as [Hd|[r Hd]]; unfold pg_cancel_replay; rewrite Hd;
      [done|by apply replay_frame].
  - assert (PreOrder (fun d d' => db_ok d -> db_ok d')) by (split; [intros ? ?; done|intros ? ? ? H1 H2 ?; by apply H2, H1]).
    revert Hok. apply (notifications_kept (fun d d' => db_ok d -> db_ok d')); [intros l d0; apply set_outbox_ok|].
    clear d. intros d c r meta Hr Hst Hm Hok. eapply row_updated_ok; [done|exact Hr|].
    eapply quiet_updated; try done. unfold audited_step. simpl. by destruct (c_state r).
  - by apply set_outbox_ok.
Qed.

Definition pg_reachable (d : CommandDB) : Prop := rtc pg_step empty_db d.

Lemma pg_reachable_ok d : pg_reachable d -> db_ok d.
Proof.
  assert (forall d1 d2, rtc pg_step d1 d2 -> db_ok d1 -> db_ok d2) as Hh.
  { induction 1 as [|d1 d2 d3 Hs _ IH]; [done|]. intros Hok. by apply IH, (pg_step_ok d1 d2). }
  intros Hr. apply (Hh _ _ Hr), empty_db_ok.
Qed.

End History.
