(* ===== verification/PgEquivalence.v ===== *)
(** * Two stores, one ledger

    [MemoryCommandStore] and [PostgresCommandStore] implement one protocol.  A
    history of calls, written once against the class [CommandStore], is run on
    each from an empty store; the relation below holds along both runs and makes
    the answers agree.  [get] is left out: it reads evidence back, where the two
    stores differ. *)

From stdpp Require Import sorting.
From Stdlib Require Import QArith.
From S2P Require Import Prelude Json Sha256 Uuid Commands LedgerSpec Ledger LedgerFacts Bus Principal Outbox.
From S2P Require Import PgLedger PgLedgerFacts PgHistory.
Local Open Scope nat_scope.

#[local] Opaque sha256_hex uuid_str.

(** ** Calls and answers *)

Inductive LedgerCall :=
  | call_submit (now : datetime) (c : CommandEnvelope) (client dest : string) (ev : option jdict)
      (tr : option (list (string * string)))
  | call_transition (now : datetime) (t : string) (c : UUID) (st : CommandState) (actor reason : string)
      (provider : option string) (evidence : option jdict) (expected : option nat)
  | call_reconcile (now : datetime) (t : string) (c : UUID) (matched : bool) (actor reason : string)
      (provider : option string) (evidence : jdict) (expected : option Z)
  | call_mutate (now : datetime) (t : string) (c : UUID) (a : MutationAction) (actor key : string)
      (version : Z) (reason : string) (corr : option string)
  | call_dead_letter (now : datetime) (t : string) (c : UUID) (code class reason : string)
      (poisoned exhausted : bool)
  | call_latest_attempt (t : string) (c : UUID)
  | call_load_envelope (t : string) (c : UUID).

(** what a caller learns from an answer: of a submission whose command it is and
    whether it was a duplicate, of a parked command that it is parked *)
Inductive LedgerAnswer :=
  | ans_submitted (c : CommandIdentity) (duplicate : bool)
  | ans_operation (c : CommandIdentity) (st : CommandState) (provider : option string) (version : Z)
  | ans_mutated (c : CommandIdentity) (st : CommandState) (provider : option string) (version : Z) (duplicate : bool)
  | ans_parked
  | ans_attempt (n : nat)
  | ans_envelope (c : CommandEnvelope).

Definition ans_of (o : CommandOperation) : LedgerAnswer :=
  ans_operation (op_command o) (op_state o) (op_provider_operation_id o) (op_resource_version o).
Definition ans_mutation (o : CommandOperation) : LedgerAnswer :=
  ans_mutated (op_command o) (op_state o) (op_provider_operation_id o) (op_resource_version o) (op_duplicate o).

Definition answering {S A B} (f : A -> B) (m : M S A) : M S B := let! a := m in ret (f a).

(** a call on any store *)
Definition run_call {S} `{CommandStore S} (x : LedgerCall) : M S LedgerAnswer :=
  match x with
  | call_submit now c client dest ev tr =>
      answering (fun o => ans_submitted (op_command o) (op_duplicate o)) (store_submit now c client dest ev tr)
  | call_transition now t c st actor reason p e n =>
      answering ans_of (store_transition now t c st actor reason p e n)
  | call_reconcile now t c matched actor reason p e n =>
      answering ans_of (store_reconcile now t c matched actor reason p e n)
  | call_mutate now t c a actor key version reason corr =>
      answering ans_mutation (store_mutate_operation now t c a actor key version reason corr)
  | call_dead_letter now t c code class reason poisoned exhausted =>
      answering (fun _ => ans_parked) (store_record_dead_letter now t c code class reason poisoned exhausted)
  | call_latest_attempt t c => answering ans_attempt (store_latest_attempt t c)
  | call_load_envelope t c => answering ans_envelope (store_load_envelope t c)
  end.

(** the answers of a history *)
Fixpoint run_history {S} `{CommandStore S} (l : list LedgerCall) (s : S) : list (outcome LedgerAnswer) :=
  match l with
  | [] => []
  | x :: l => let (r, s') := run_call x s in r :: run_history l s'
  end.

(** the keys the ledger makes for its own work *)
Definition internal_key (k : string) : bool :=
  String.prefix "operation-retry:" k || String.prefix "operation-reconcile:" k.

(** the calls the application makes: valid envelopes whose key is not one of the
    ledger's own, admissible tenants, and never an empty provider identifier *)
Definition call_ok `{Externals} (x : LedgerCall) : Prop :=
  match x with
  | call_submit _ c _ _ _ _ => envelope_valid c = true /\ (env_command_id c < uuid_bound)%N /\
      tenant_ok (env_tenant_id c) = true /\ internal_key (env_idempotency_key c) = false
  | call_transition _ t _ _ _ _ p _ _ | call_reconcile _ t _ _ _ _ p _ _ => tenant_ok t = true /\ p <> Some ""
  | call_mutate _ t _ _ _ _ _ _ _ | call_latest_attempt t _ | call_load_envelope t _ => tenant_ok t = true
  | call_dead_letter _ _ _ _ _ _ _ _ => True
  end.

(** the same answer; two identities of different commands are refused by both
    stores, with different words *)
Definition same_answer (a b : outcome LedgerAnswer) : Prop :=
  a = b \/
  (a = conflict "command and idempotency identities refer to different operations" /\
   b = conflict "command identity was reused with different content").

(** ** The relation *)

Section Relation.
Context `{Externals}.

(** all but the evidence *)
Definition core_eq (v w : OpView) : Prop :=
  v_env v = v_env w /\ v_state v = v_state w /\ v_provider v = v_provider w /\ v_version v = v_version w /\
  v_attempts v = v_attempts w /\ v_dead v = v_dead w.

Definition view_eq (v : option OpView) (x : option PgView) : Prop :=
  match v, x with
  | Some v, Some x => core_eq v (pv_core x)
  | None, None => True
  | _, _ => False
  end.

Definition answer_eq (a b : option (string * CommandOperation)) : Prop :=
  match a, b with
  | Some (d, o), Some (d', o') => d = d' /\ ans_mutation o = ans_mutation o'
  | None, None => True
  | _, _ => False
  end.

Record same_ledger (s : MemoryCommandStore) (d : CommandDB) : Prop := {
  sl_mem : wf s;
  sl_db : db_ok d;
  sl_view : forall k, view_eq (mem_view s k) (db_view d k);
  sl_digest : forall k dg o r, commands s !! k = Some (dg, o) -> db_commands d !! k = Some r -> c_payload_sha256 r = dg;
  sl_fresh : forall k dg o, commands s !! k = Some (dg, o) -> op_duplicate o = false;
  sl_mutations : forall mk, answer_eq (mutations s !! mk) (db_mutations d !! mk);
  sl_mem_leases : forall i, i ∈ outbox s -> lease_owner i = None;
  sl_db_leases : forall o, o ∈ db_outbox d -> row_lease_owner (ob_row o) = None;
  sl_keys : forall o, o ∈ db_outbox d -> internal_key (row_idempotency_key (ob_row o)) = true \/
    exists r, key_row d (row_tenant_id (ob_row o)) (row_idempotency_key (ob_row o)) r;
}.

Lemma same_ledger_empty : same_ledger empty_store empty_db.
Proof.
  split; [apply wf_empty|apply empty_db_ok|..]; intros *; simpl; rewrite ?lookup_empty; try done.
  all: by intros ?%elem_of_nil.
Qed.

(** the two stores hold the same commands *)
Lemma same_rows s d k :
  same_ledger s d ->
  match commands s !! k, db_commands d !! k with
  | Some (dg, o), Some r => op_command o = c_identity r /\ op_state o = c_state r /\
      op_provider_operation_id o = c_provider_operation_id r /\ op_resource_version o = c_resource_version r /\
      op_duplicate o = false /\ c_payload_sha256 r = dg
  | None, None => True
  | _, _ => False
  end.
Proof.
  intros R. pose proof (sl_view _ _ R k) as Hv.
  destruct (commands s !! k) as [[dg o]|] eqn:Hs, (db_commands d !! k) as [r|] eqn:Hd; try done.
  - destruct (mem_view_Some _ _ _ _ (sl_mem _ _ R) Hs) as (env & client & _ & Ho & _ & _ & Hm).
    destruct (db_view_Some _ _ _ (sl_db _ _ R) Hd) as (env' & _ & Hi & Hx).
    rewrite Hm, Hx in Hv. destruct Hv as (He & Hst & Hp & Hv & _). simpl in He, Hst, Hp, Hv. split_and!; try done.
    + congruence.
    + by eapply (sl_fresh _ _ R).
    + by eapply (sl_digest _ _ R).
  - destruct (mem_view_Some _ _ _ _ (sl_mem _ _ R) Hs) as (env & client & _ & Ho & _ & _ & Hm).
    apply (db_view_None _ _ (sl_db _ _ R)) in Hd. by rewrite Hm, Hd in Hv.
  - destruct (db_view_Some _ _ _ (sl_db _ _ R) Hd) as (env' & _ & Hi & Hx).
    apply (mem_view_None _ _ (sl_mem _ _ R)) in Hs. by rewrite Hs, Hx in Hv.
Qed.

(** ** What a call on one operation leaves alone *)

Record mem_frame (s s' : MemoryCommandStore) : Prop := {
  mf_outbox : outbox s' = outbox s;
  mf_mutations : mutations s' = mutations s;
  mf_commands : forall k d o', commands s' !! k = Some (d, o') ->
    exists o, commands s !! k = Some (d, o) /\ op_duplicate o' = op_duplicate o;
}.

Record db_frame (d d' : CommandDB) : Prop := {
  df_outbox : db_outbox d' = db_outbox d;
  df_mutations : db_mutations d' = db_mutations d;
  df_commands : forall k r', db_commands d' !! k = Some r' ->
    exists r, db_commands d !! k = Some r /\ c_payload_sha256 r' = c_payload_sha256 r;
  df_kept : forall k r, db_commands d !! k = Some r ->
    exists r', db_commands d' !! k = Some r' /\ c_identity r' = c_identity r;
}.

Lemma mem_frame_refl s : mem_frame s s.
Proof. split; eauto. Qed.
Lemma db_frame_refl d : db_frame d d.
Proof. split; eauto. Qed.

Lemma mem_frame_update s s' k d o o' :
  commands s !! k = Some (d, o) -> op_duplicate o' = op_duplicate o ->
  commands s' = <[k := (d, o')]> (commands s) -> outbox s' = outbox s -> mutations s' = mutations s ->
  mem_frame s s'.
Proof.
  intros Hk Ho Hc Hout Hm. split; [done|done|]. intros k' d' x. rewrite Hc. destruct (decide (k' = k)) as [->|Hne].
  - rewrite lookup_insert_eq. intros [= <- <-]. by exists o.
  - rewrite lookup_insert_ne by done. by exists x.
Qed.

Lemma db_frame_update d d' k r r' :
  db_commands d !! k = Some r -> c_identity r' = c_identity r -> c_payload_sha256 r' = c_payload_sha256 r ->
  db_commands d' = <[k := r']> (db_commands d) -> db_outbox d' = db_outbox d -> db_mutations d' = db_mutations d ->
  db_frame d d'.
Proof.
  intros Hk Hi Hs Hc Ho Hm. split; [done|done|..]; intros k' x; rewrite Hc; (destruct (decide (k' = k)) as [->|Hne];
    [rewrite lookup_insert_eq|rewrite lookup_insert_ne by done; by exists x]).
  - intros [= <-]. by exists r.
  - intros Hx. rewrite Hk in Hx. injection Hx as <-. by exists r'.
Qed.

Lemma transition_frame now t c st actor reason p e n s :
  wf s -> mem_frame s (snd (transition now t c st actor reason p e n s)).
Proof.
  intros Hwf. unfold transition. destruct (bool_decide _ && _); [apply mem_frame_refl|].
  unfold bind at 1, gets. cbn [id]. destruct (commands s !! (t, c)) as [[d o]|] eqn:Hk; [|apply mem_frame_refl].
  destruct (match n with Some _ => _ | None => _ end); [apply mem_frame_refl|].
  destruct (negb (state_in st _)); [apply mem_frame_refl|].
  destruct (entry_parts _ _ _ _ Hwf Hk) as (evs & atts & Hevs & Hatts & _).
  unfold bind at 1 2, modify at 1 2. cbv beta iota.
  erewrite bind_run by (by apply append_event_run).
  erewrite bind_run by (by apply update_attempts_run).
  eapply mem_frame_update; [exact Hk| |reflexivity|done|done]. done.
Qed.

Lemma reconcile_frame now t c matched actor reason p e n s :
  wf s -> mem_frame s (snd (reconcile now t c matched actor reason p e n s)).
Proof.
  intros Hwf. unfold reconcile.
  unfold bind at 1, gets. cbn [id]. destruct (commands s !! (t, c)) as [[d o]|] eqn:Hk; [|apply mem_frame_refl].
  destruct (negb (bool_decide _)); [apply mem_frame_refl|].
  destruct (match n with Some _ => _ | None => _ end); [apply mem_frame_refl|].
  destruct (entry_parts _ _ _ _ Hwf Hk) as (evs & atts & Hevs & Hatts & _).
  unfold bind at 1 2, modify at 1 2. cbv beta iota.
  erewrite bind_run by (by apply append_event_run).
  erewrite bind_run by (by apply update_attempts_run).
  eapply mem_frame_update; [exact Hk| |reflexivity|done|done]. done.
Qed.

Lemma tenant_unchanged {A} t (m : DM A) d : tenant_ok t = false -> snd (tenant_transaction t m d) = d.
Proof. intros Ht. by destruct (tenant_refused t m d Ht) as [x ->]. Qed.

Lemma lift_unchanged {S A} (o : outcome A) (s : S) : snd (lift_outcome o s) = s.
Proof. by destruct o. Qed.

(** a transaction that reads only *)
Lemma tenant_read {A} t (f : CommandDB -> outcome A) d :
  snd (tenant_transaction t (let! x := gets id in lift_outcome (f x)) d) = d.
Proof.
  unfold tenant_transaction, transaction, bind, tenant_context, gets, lift_outcome, raise, ret.
  destruct (negb _); [done|]. destruct (negb _); [done|]. cbn [id]. by destruct (f d).
Qed.

Lemma pg_transition_frame now t c st actor reason p e n d :
  db_frame d (snd (pg_transition now t c st actor reason p e n d)).
Proof.
  unfold pg_transition. destruct (_ && _); [apply db_frame_refl|]. unfold bind at 1.
  assert (db_frame d (snd (transition_row now t c st actor (str_take 2048 reason) p e n d))) as Hf.
  { unfold transition_row. destruct (tenant_ok t) eqn:Ht.
    2: { rewrite tenant_unchanged by done. apply db_frame_refl. }
    rewrite tenant_run by done. unfold transaction. destruct (db_commands d !! (t, c)) as [r|] eqn:Hk.
    2: { erewrite bind_exc by by apply command_row_none. apply db_frame_refl. }
    erewrite bind_run by by apply command_row_run. unfold bind at 1, gets. cbn [id].
    destruct (match n with Some _ => _ | None => _ end); [apply db_frame_refl|].
    destruct (negb _); [apply db_frame_refl|]. eapply db_frame_update; [exact Hk| | |reflexivity|done|done]; done. }
  destruct (transition_row _ _ _ _ _ _ _ _ _ d) as [[row|x] d1]; [|done].
  destruct e as [e|].
  - by rewrite lift_unchanged.
  - by rewrite tenant_read.
Qed.

Lemma pg_reconcile_frame now t c matched actor reason p e n d :
  db_frame d (snd (pg_reconcile now t c matched actor reason p e n d)).
Proof.
  unfold pg_reconcile, bind at 1.
  match goal with |- context [tenant_transaction t ?m d] =>
    assert (db_frame d (snd (tenant_transaction t m d))) as Hf;
    [|destruct (tenant_transaction t m d) as [[row|x] d1]; [|done]] end.
  - destruct (tenant_ok t) eqn:Ht.
    2: { rewrite tenant_unchanged by done. apply db_frame_refl. }
    rewrite tenant_run by done. unfold transaction. destruct (db_commands d !! (t, c)) as [r|] eqn:Hk.
    2: { erewrite bind_exc by by apply command_row_none. apply db_frame_refl. }
    erewrite bind_run by by apply command_row_run.
    destruct (negb _); [apply db_frame_refl|].
    destruct (match n with Some _ => _ | None => _ end); [apply db_frame_refl|].
    eapply db_frame_update; [exact Hk| | |reflexivity|done|done]; by destruct matched.
  - by rewrite lift_unchanged.
Qed.

(** ** One call on both stores *)

(** the answers agree and the stores stay related *)
Definition same_step {A B} (f : A -> LedgerAnswer) (g : B -> LedgerAnswer)
    (x : outcome A * MemoryCommandStore) (y : outcome B * CommandDB) : Prop :=
  same_ledger (snd x) (snd y) /\
  match fst x, fst y with
  | Ret a, Ret b => f a = g b
  | Exc e, Exc e' => same_answer (Exc e) (Exc e')
  | _, _ => False
  end.

Lemma framed_same s d s' d' :
  same_ledger s d -> wf s' -> db_ok d' -> mem_frame s s' -> db_frame d d' ->
  (forall k, view_eq (mem_view s' k) (db_view d' k)) -> same_ledger s' d'.
Proof.
  intros R Hwf Hok [Mo Mm Mc] [Do Dm Dc Dk] Hv. split; try done.
  - intros k dg o' r' (o & Hs & _)%Mc (r & Hd & ->)%Dc. by eapply (sl_digest _ _ R).
  - intros k dg o' (o & Hs & ->)%Mc. by eapply (sl_fresh _ _ R).
  - intros mk. rewrite Mm, Dm. apply R.
  - rewrite Mo. apply R.
  - rewrite Do. apply R.
  - rewrite Do. intros o Ho. destruct (sl_keys _ _ R o Ho) as [Hi|(r & k & Hk & Ht & Hid)]; [by left|right].
    destruct (Dk _ _ Hk) as (r' & Hr' & Hi'). exists r', k. split_and!; [done|done|congruence].
Qed.

(** two refinements of one specification of one key *)
Definition spec_eq (a : outcome OpView) (b : outcome PgView) : Prop :=
  match a, b with
  | Ret v, Ret x => core_eq v (pv_core x)
  | Exc e, Exc e' => e = e'
  | _, _ => False
  end.

Lemma implemented_same s d k m m' spec spec' :
  same_ledger s d -> implements wf mem_view m spec s k -> pg_implements m' spec' d k -> spec_eq spec spec' ->
  mem_frame s (snd (m s)) -> db_frame d (snd (m' d)) -> same_step ans_of ans_of (m s) (m' d).
Proof.
  intros R Hm Hd He Fm Fd. destruct spec as [v|e], spec' as [x|e']; try done; simpl in *.
  - destruct Hm as (o & s' & Hms & Ho & Hwf & Hv & Hoth). destruct Hd as (o' & d' & Hmd & Ho' & Hok & Hx & Hoth').
    rewrite Hms in *. rewrite Hmd in *. simpl in *. split; simpl.
    + eapply framed_same; try done. intros k'. destruct (decide (k' = k)) as [->|Hne].
      * rewrite Hv, Hx. done.
      * rewrite Hoth, Hoth' by done. apply R.
    + destruct Ho as (H1 & H2 & H3 & _ & H4), Ho' as (H1' & H2' & H3' & H4'), He as (E1 & E2 & E3 & E4 & _).
      unfold ans_of. congruence.
  - rewrite Hm, Hd. subst e'. split; [done|by left].
Qed.

Lemma str_or_coalesce (p old : option string) : p <> Some "" -> str_or p old = coalesce p old.
Proof. destruct p as [[|c p]|]; done. Qed.

Lemma spec_transition_eq v x st p e n :
  view_eq v x -> p <> Some "" -> spec_eq (spec_transition v st p e n) (pg_spec_transition x st p e n).
Proof.
  intros Hv Hp. unfold pg_spec_transition, spec_transition. destruct (_ && _); [done|].
  destruct v as [v|], x as [x|]; try done. cbn [fmap option_fmap option_map].
  destruct Hv as (He & Hs & Hpr & Hver & Ha & Hd). rewrite <- Hs, <- Ha.
  destruct (match n with Some _ => _ | None => _ end); [done|]. destruct (negb _); [done|].
  unfold spec_eq, core_eq, moved, pg_moved. cbn [pv_core v_env v_state v_provider v_version v_attempts v_dead].
  rewrite str_or_coalesce by done. split_and!; congruence || by rewrite Ha.
Qed.

Lemma spec_reconcile_eq v x matched p e n :
  view_eq v x -> p <> Some "" -> spec_eq (spec_reconcile v matched p e n) (pg_spec_reconcile x matched p e n).
Proof.
  intros Hv Hp. unfold pg_spec_reconcile, spec_reconcile.
  destruct v as [v|], x as [x|]; try done. cbn [fmap option_fmap option_map].
  destruct Hv as (He & Hs & Hpr & Hver & Ha & Hd). rewrite <- Hs, <- Hver.
  destruct (negb _); [done|]. destruct (match n with Some _ => _ | None => _ end); [done|].
  unfold spec_eq, core_eq, reconciled, pg_verdict. cbn [pv_core v_env v_state v_provider v_version v_attempts v_dead].
  rewrite str_or_coalesce by done. split_and!; congruence.
Qed.

Lemma transition_same s d now t c st actor reason p e n :
  same_ledger s d -> tenant_ok t = true -> p <> Some "" ->
  same_step ans_of ans_of (transition now t c st actor reason p e n s) (pg_transition now t c st actor reason p e n d).
Proof.
  intros R Ht Hp. eapply implemented_same; [done|by apply transition_refines, R|by apply pg_transition_refines, Ht; apply R|
    by apply spec_transition_eq; [apply R|]|by apply transition_frame, R|apply pg_transition_frame].
Qed.

Lemma reconcile_same s d now t c matched actor reason p e n :
  same_ledger s d -> tenant_ok t = true -> p <> Some "" ->
  same_step ans_of ans_of (reconcile now t c matched actor reason p e n s) (pg_reconcile now t c matched actor reason p e n d).
Proof.
  intros R Ht Hp. eapply implemented_same; [done|by apply reconcile_refines, R|by apply pg_reconcile_refines, Ht; apply R|
    by apply spec_reconcile_eq; [apply R|]|by apply reconcile_frame, R|apply pg_reconcile_frame].
Qed.

Lemma same_ledger_views s d : same_ledger s d -> forall t c,
  match mem_view s (t, c), db_view d (t, c) with
  | Some v, Some x => core_eq v (pv_core x)
  | None, None => commands s !! (t, c) = None /\ db_commands d !! (t, c) = None
  | _, _ => False
  end.
Proof.
  intros R t c. pose proof (sl_view _ _ R (t, c)) as Hv.
  destruct (mem_view s (t, c)) eqn:Hs, (db_view d (t, c)) eqn:Hd; try done.
  split; [by apply mem_view_None; [apply R|]|by apply db_view_None; [apply R|]].
Qed.

Lemma dead_letter_frame now t c code class reason poisoned exhausted s :
  mem_frame s (snd (record_dead_letter now t c code class reason poisoned exhausted s)).
Proof.
  unfold record_dead_letter, bind at 1, get. destruct (commands s !! (t, c)) as [[dg o]|] eqn:Hk; [|apply mem_frame_refl].
  unfold bind at 1, gets at 1. cbn [id]. destruct (dead_letters s !! (t, c)); [apply mem_frame_refl|].
  unfold latest_attempt, bind, get. rewrite Hk. split; simpl; eauto.
Qed.

Lemma pg_dead_letter_frame now t c code class reason poisoned exhausted d :
  db_frame d (snd (pg_record_dead_letter now t c code class reason poisoned exhausted d)).
Proof.
  unfold pg_record_dead_letter, transaction. destruct (db_commands d !! (t, c)) as [r|] eqn:Hk.
  2: { erewrite bind_exc by by apply command_row_none. apply db_frame_refl. }
  erewrite bind_run by by apply command_row_run. unfold bind at 1, gets. cbn [id].
  destruct (db_dead_letters d !! (t, c)); [apply db_frame_refl|]. split; simpl; eauto.
Qed.

Lemma dead_letter_same s d now t c code class reason poisoned exhausted :
  same_ledger s d ->
  same_step (fun _ => ans_parked) (fun _ => ans_parked)
    (record_dead_letter now t c code class reason poisoned exhausted s)
    (pg_record_dead_letter now t c code class reason poisoned exhausted d).
Proof.
  intros R. pose proof (dead_letter_frame now t c code class reason poisoned exhausted s) as Fm.
  pose proof (pg_dead_letter_frame now t c code class reason poisoned exhausted d) as Fd.
  pose proof (same_ledger_views _ _ R t c) as Hc.
  destruct (mem_view s (t, c)) as [v|] eqn:Hv, (db_view d (t, c)) as [x|] eqn:Hx; try done.
  - destruct (record_dead_letter_refines s now t c v code class reason poisoned exhausted (sl_mem _ _ R) Hv)
      as (a & s' & Hs & Hwf & Hv' & Hoth).
    destruct (pg_dead_letter_spec d now t c x code class reason poisoned exhausted (sl_db _ _ R) Hx)
      as (b & d' & Hd & Hok & Hx' & Hoth').
    rewrite Hs in *. rewrite Hd in *. split; [|done]. eapply framed_same; try done.
    intros k'. destruct (decide (k' = (t, c))) as [->|Hne]; [|simpl; rewrite Hoth, Hoth' by done; apply R].
    simpl. rewrite Hv', Hx'. destruct Hc as (He & Hs' & Hpr & Hver & Ha & Hd'). by split_and!.
  - destruct Hc as [Hn Hn']. unfold record_dead_letter, bind at 1, get. rewrite Hn.
    unfold pg_record_dead_letter, transaction. erewrite bind_exc by by apply command_row_none.
    split; [done|by left].
Qed.

Lemma latest_attempt_same s d t c :
  same_ledger s d -> tenant_ok t = true ->
  same_step ans_attempt ans_attempt (latest_attempt t c s) (pg_latest_attempt t c d).
Proof.
  intros R Ht. pose proof (same_ledger_views _ _ R t c) as Hc.
  destruct (mem_view s (t, c)) as [v|] eqn:Hv, (db_view d (t, c)) as [x|] eqn:Hx; try done.
  - rewrite (pg_latest_attempt_spec _ _ _ _ (sl_db _ _ R) Ht Hx).
    assert (latest_attempt t c s = (Ret (v_attempts v), s)) as -> 
      by (by apply (@latest_attempt_law _ _ memory_ledger_laws s); [apply R|]).
    split; [done|]. simpl. f_equal. apply Hc.
  - destruct Hc as [Hn Hn']. unfold latest_attempt, bind at 1, get. rewrite Hn.
    unfold pg_latest_attempt. rewrite tenant_run by done. unfold transaction.
    erewrite bind_exc by by apply command_row_none. split; [done|by left].
Qed.

Lemma load_envelope_same s d t c :
  same_ledger s d -> tenant_ok t = true ->
  same_step ans_envelope ans_envelope (load_envelope t c s) (pg_load_envelope t c d).
Proof.
  intros R Ht. pose proof (same_ledger_views _ _ R t c) as Hc.
  destruct (mem_view s (t, c)) as [v|] eqn:Hv, (db_view d (t, c)) as [x|] eqn:Hx; try done.
  - rewrite (pg_load_envelope_spec _ _ _ _ (sl_db _ _ R) Ht Hx).
    assert (load_envelope t c s = (Ret (v_env v), s)) as -> 
      by (by apply (@load_envelope_law _ _ memory_ledger_laws s); [apply R|]).
    split; [done|]. simpl. f_equal. apply Hc.
  - destruct Hc as [Hn Hn']. unfold load_envelope, bind at 1, get. rewrite Hn.
    unfold pg_load_envelope. rewrite tenant_run by done. unfold transaction.
    erewrite bind_exc by by apply command_row_none. split; [done|by left].
Qed.

(** ** Submissions *)

Lemma outbox_conflict_row t dest key l :
  outbox_conflict t dest key l = true ->
  exists o, o ∈ l /\ row_tenant_id (ob_row o) = t /\ row_idempotency_key (ob_row o) = key.
Proof.
  unfold outbox_conflict. rewrite existsb_exists. intros (o & Ho & Hc). exists o.
  apply andb_prop in Hc as [[Ht _]%andb_prop Hk]. apply String.eqb_eq in Ht, Hk. by rewrite list_elem_of_In.
Qed.

(** what each store finds under the two identities of a submission *)
Lemma same_by_key s d t ik :
  same_ledger s d ->
  match idempotency s !! (t, ik) with
  | Some (dg, o) => exists r, key_row d t ik r /\ c_payload_sha256 r = dg /\ op_command o = c_identity r
  | None => forall r, ~ key_row d t ik r
  end.
Proof.
  intros R. destruct (idempotency s !! (t, ik)) as [[dg o]|] eqn:Hi.
  - destruct (wf_idem _ (sl_mem _ _ R) _ _ _ Hi) as (Heq & o' & Hk & Ho). injection Heq as Ht Hik.
    pose proof (same_rows s d (tenant_id (op_command o), command_id (op_command o)) R) as Hr. rewrite Hk in Hr.
    destruct (db_commands d !! (tenant_id (op_command o), command_id (op_command o))) as [r|] eqn:Hd; [|done].
    destruct Hr as (Hc & _ & _ & _ & _ & Hdg). exists r. split_and!; [|done|congruence].
    exists (tenant_id (op_command o), command_id (op_command o)). split_and!; [done|done|]. by rewrite <- Hc, Ho.
  - intros r (k & Hk & Ht & Hik). pose proof (same_rows s d k R) as Hr. rewrite Hk in Hr.
    destruct (commands s !! k) as [[dg o]|] eqn:Hs; [|done]. destruct Hr as (Hc & _).
    destruct (eo_idem _ _ _ _ (wf_entries _ (sl_mem _ _ R) _ _ _ Hs)) as (o' & Ho' & _).
    rewrite Hc, Ht, Hik in Ho'. congruence.
Qed.

Lemma inserted_same s d now c client dest ev tr :
  same_ledger s d -> envelope_valid c = true -> (env_command_id c < uuid_bound)%N ->
  tenant_ok (env_tenant_id c) = true -> existing_rows c d = [] ->
  commands s !! (env_tenant_id c, env_command_id c) = None ->
  idempotency s !! (env_tenant_id c, env_idempotency_key c) = None ->
  same_ledger (snd (insert_new now c client dest ev tr s)) (inserted d now c client dest ev tr).
Proof.
  intros R Hv Hb Ht He Hk Hi. set (k := (env_tenant_id c, env_command_id c)).
  pose proof (insert_new_wf s now c client dest ev tr (sl_mem _ _ R) Hv Hb Hk Hi) as Hwf.
  destruct (insert_new_view s now c client dest ev tr (sl_mem _ _ R) Hv Hb Hk) as [Hview Hoth].
  destruct (inserted_ok d now c client dest ev tr (sl_db _ _ R) Ht Hv Hb He) as (Hok & Hview' & Hoth').
  assert (db_commands (inserted d now c client dest ev tr) = <[k := new_command_row c client now]> (db_commands d)) as Hcm by done.
  rewrite insert_new_run in *. cbn [snd] in *. split; try done.
  - intros k'. destruct (decide (k' = k)) as [->|Hne].
    + unfold k. rewrite Hview, Hview'. done.
    + rewrite Hoth, Hoth' by done. apply R.
  - intros k' dg o r. rewrite Hcm. cbn [commands]. fold k. destruct (decide (k' = k)) as [->|Hne].
    + rewrite !lookup_insert_eq. by intros [= <- <-] [= <-].
    + rewrite !lookup_insert_ne by done. apply (sl_digest _ _ R).
  - intros k' dg o. cbn [commands]. fold k. destruct (decide (k' = k)) as [->|Hne].
    + rewrite !lookup_insert_eq. by intros [= <- <-].
    + rewrite !lookup_insert_ne by done. apply (sl_fresh _ _ R).
  - apply (sl_mutations _ _ R).
  - cbn [outbox]. intros i [Hin|Hin%list_elem_of_singleton]%elem_of_app; [by apply (sl_mem_leases _ _ R)|by subst i].
  - intros o [Hin|Hin%list_elem_of_singleton]%elem_of_app; [by apply (sl_db_leases _ _ R)|by subst o].
  - intros o [Hin|Hin%list_elem_of_singleton]%elem_of_app.
    + destruct (sl_keys _ _ R o Hin) as [?|(r & k' & Hk' & Ht' & Hid)]; [by left|right]. exists r, k'.
      split_and!; [|done|done]. rewrite Hcm, lookup_insert_ne; [done|]. intros <-.
      assert (r ∈ existing_rows c d) as Hr by (apply existing_spec; [apply R|by left]).
      rewrite He in Hr. by apply elem_of_nil in Hr.
    + right. subst o. exists (new_command_row c client now), k. split_and!; [|done|done]. by rewrite Hcm, lookup_insert_eq.
Qed.

Abbreviation ans_submit := (fun o => ans_submitted (op_command o) (op_duplicate o)).

(** [submit] once the two identities were looked up *)
Lemma submit_found s now c client dest ev tr existing :
  mem_string dest COMMAND_DESTINATIONS = true ->
  match commands s !! (env_tenant_id c, env_command_id c), idempotency s !! (env_tenant_id c, env_idempotency_key c) with
  | Some a, Some b => existing = a /\ command_id (op_command (snd a)) = command_id (op_command (snd b))
  | Some a, None => existing = a
  | None, Some b => existing = b
  | None, None => False
  end ->
  submit now c client dest ev tr s =
    (if command_digest_matches (fst existing) c client then Ret (as_duplicate (snd existing))
     else conflict "command identity was reused with different content", s).
Proof.
  intros Hd Hx. unfold submit. rewrite Hd. cbn [negb]. unfold bind at 1, gets. cbn [id].
  destruct (commands s !! _) as [a|], (idempotency s !! _) as [b|]; try done.
  - destruct Hx as [-> ->]. rewrite N.eqb_refl. cbn [negb]. by destruct (command_digest_matches _ c client).
  - subst. by destruct (command_digest_matches _ c client).
  - subst. by destruct (command_digest_matches _ c client).
Qed.

Lemma existing_in c d r : db_ok d -> existing_rows c d = [] ->
  db_commands d !! (env_tenant_id c, env_command_id c) = Some r \/
  key_row d (env_tenant_id c) (env_idempotency_key c) r -> False.
Proof. intros Hok He Hr. apply (existing_spec c d r Hok) in Hr. rewrite He in Hr. by apply elem_of_nil in Hr. Qed.

Lemma existing_one c d r r' : db_ok d -> existing_rows c d = [r] ->
  db_commands d !! (env_tenant_id c, env_command_id c) = Some r' \/
  key_row d (env_tenant_id c) (env_idempotency_key c) r' -> r' = r.
Proof. intros Hok He Hr. apply (existing_spec c d r' Hok) in Hr. rewrite He in Hr. by apply list_elem_of_singleton in Hr. Qed.

(** nothing found: a first submission *)
Lemma submit_fresh s d c dest :
  same_ledger s d -> internal_key (env_idempotency_key c) = false -> existing_rows c d = [] ->
  commands s !! (env_tenant_id c, env_command_id c) = None /\
  idempotency s !! (env_tenant_id c, env_idempotency_key c) = None /\
  outbox_conflict (env_tenant_id c) dest (env_idempotency_key c) (db_outbox d) = false.
Proof.
  intros R Hint He. pose proof (fun r => existing_in c d r (sl_db _ _ R) He) as Hno.
  pose proof (same_rows s d (env_tenant_id c, env_command_id c) R) as Hid.
  pose proof (same_by_key s d (env_tenant_id c) (env_idempotency_key c) R) as Hkey. split_and!.
  - destruct (commands s !! _) as [[dg o]|]; [|done].
    destruct (db_commands d !! _) as [r|]; [|done]. exfalso. apply (Hno r). by left.
  - destruct (idempotency s !! _) as [[dg o]|]; [|done]. destruct Hkey as (r & Hr & _). exfalso. apply (Hno r). by right.
  - apply not_true_iff_false. intros (o & Ho & Ht & Hk)%outbox_conflict_row.
    destruct (sl_keys _ _ R o Ho) as [Hi|(r & Hr)]; [congruence|]. rewrite Ht, Hk in Hr. apply (Hno r). by right.
Qed.

Lemma duplicate_same s d o r dg c client :
  same_ledger s d -> op_command o = c_identity r -> c_payload_sha256 r = dg ->
  same_step ans_submit ans_submit
    (if command_digest_matches dg c client then Ret (as_duplicate o)
     else conflict "command identity was reused with different content", s)
    (if negb (command_digest_matches (c_payload_sha256 r) c client)
     then (conflict "command identity was reused with different content", d)
     else (operation_of_row r true None None, d)).
Proof.
  intros R Hi ->. destruct (command_digest_matches dg c client); split; try done; [|by left].
  simpl. by rewrite Hi.
Qed.

Lemma submit_same s d now c client dest ev tr :
  same_ledger s d -> envelope_valid c = true -> (env_command_id c < uuid_bound)%N ->
  tenant_ok (env_tenant_id c) = true -> internal_key (env_idempotency_key c) = false ->
  same_step ans_submit ans_submit (submit now c client dest ev tr s) (pg_submit now c client dest ev tr d).
Proof.
  intros R Hv Hb Ht Hint. rewrite pg_submit_cases by done.
  destruct (mem_string dest COMMAND_DESTINATIONS) eqn:Hd; cbn [negb].
  2: { unfold submit. rewrite Hd. split; [done|by left]. }
  pose proof (same_rows s d (env_tenant_id c, env_command_id c) R) as Hid.
  pose proof (same_by_key s d (env_tenant_id c) (env_idempotency_key c) R) as Hkey.
  destruct (existing_rows c d) as [|r [|r2 l]] eqn:He.
  - destruct (submit_fresh s d c dest R Hint He) as (Hc & Hi & Ho). rewrite Ho.
    pose proof (inserted_same s d now c client dest ev tr R Hv Hb Ht He Hc Hi) as R'.
    unfold submit. rewrite Hd. cbn [negb]. unfold bind at 1, gets. cbn [id]. rewrite Hc, Hi.
    rewrite insert_new_run in *. by split.
  - pose proof (fun r' => existing_one c d r r' (sl_db _ _ R) He) as Hone.
    destruct (commands s !! (env_tenant_id c, env_command_id c)) as [[dg o]|] eqn:Hs,
      (db_commands d !! (env_tenant_id c, env_command_id c)) as [r0|] eqn:Hr0; try done.
    + assert (r0 = r) as -> by (apply Hone; by left). destruct Hid as (Hc & _ & _ & _ & _ & Hdg).
      rewrite (submit_found s now c client dest ev tr (dg, o)); [by apply duplicate_same|done|]. rewrite Hs.
      destruct (idempotency s !! _) as [[dg' o']|]; [|done]. destruct Hkey as (r' & Hr' & _ & Hc').
      assert (r' = r) as -> by (apply Hone; by right). split; [done|]. simpl. congruence.
    + destruct (idempotency s !! (env_tenant_id c, env_idempotency_key c)) as [[dg' o']|] eqn:Hi.
      * destruct Hkey as (r' & Hr' & Hdg & Hc'). assert (r' = r) as -> by (apply Hone; by right).
        rewrite (submit_found s now c client dest ev tr (dg', o')); [by apply duplicate_same|done|]. by rewrite Hs, Hi.
      * assert (r ∈ existing_rows c d) as Hr by (rewrite He; left). apply existing_spec in Hr; [|apply R].
        destruct Hr as [Hr|Hr]; [congruence|by apply Hkey in Hr].
  - destruct (existing_two c d r r2 l (sl_db _ _ R) He) as (s1 & s2 & H1 & H2 & Hne). rewrite H1 in Hid.
    destruct (commands s !! _) as [[dg o]|] eqn:Hs; [|done]. destruct Hid as (Hc & _).
    destruct (idempotency s !! _) as [[dg' o']|] eqn:Hi; [|by apply Hkey in H2].
    destruct Hkey as (r' & Hr' & _ & Hc'). rewrite (key_row_unique _ _ _ _ _ (sl_db _ _ R) Hr' H2) in Hc'.
    unfold submit. rewrite Hd. cbn [negb]. unfold bind at 1, gets. cbn [id]. rewrite Hs, Hi. cbn [fst snd].
    replace (command_id (op_command o) =? command_id (op_command o'))%N with false; [split; [done|by right]|].
    symmetry. apply N.eqb_neq. intros Heq. apply Hne. destruct H2 as (k2 & H2 & Ht2 & _).
    pose proof (ro_key _ _ _ (db_rows _ (sl_db _ _ R) _ _ H2)) as Hk2.
    pose proof (ro_key _ _ _ (db_rows _ (sl_db _ _ R) _ _ H1)) as [= Hk1 Hk1'].
    assert (k2 = (env_tenant_id c, env_command_id c)) as -> by (rewrite Hk2 in *; simpl in Ht2; congruence). congruence.
Qed.

(** ** Operator's requests *)

(** no lease is held, and every row is under its command's key or the ledger's own *)
Definition mem_quiet (l : list MemoryOutboxIntent) : Prop := forall i, i ∈ l -> lease_owner i = None.
Definition db_quiet (d : CommandDB) (l : list CommandOutboxRow) : Prop := forall o, o ∈ l ->
  row_lease_owner (ob_row o) = None /\
  (internal_key (row_idempotency_key (ob_row o)) = true \/
   exists r, key_row d (row_tenant_id (ob_row o)) (row_idempotency_key (ob_row o)) r).

Lemma same_quiet s d : same_ledger s d -> mem_quiet (outbox s) /\ db_quiet d (db_outbox d).
Proof. 
  intros R. split; [exact (sl_mem_leases _ _ R)|]. intros o Ho.
  split; [by apply (sl_db_leases _ _ R)|by apply (sl_keys _ _ R)].
 Qed.

Lemma map_intents_quiet t c f l :
  (forall i, lease_owner i = None -> lease_owner (f i) = None) -> mem_quiet l -> mem_quiet (map_intents t c f l).
Proof.
  intros Hf Hl i Hi. unfold map_intents in Hi. apply list_elem_of_fmap in Hi as (j & -> & Hj).
  destruct (is_intent_of t c j); [apply Hf|]; by apply Hl.
Qed.

Lemma update_outbox_quiet d p f l :
  (forall r, row_tenant_id (f r) = row_tenant_id r /\ row_idempotency_key (f r) = row_idempotency_key r /\
     (row_lease_owner r = None -> row_lease_owner (f r) = None)) ->
  db_quiet d l -> db_quiet d (fst (update_outbox p f l)).
Proof.
  intros Hf Hl o Ho. simpl in Ho. apply list_elem_of_fmap in Ho as (x & -> & Hx). destruct (Hl _ Hx) as [Hn Hk].
  destruct (p x); [|done]. simpl. destruct (Hf (ob_row x)) as (-> & -> & Hg). split; [by apply Hg|done].
Qed.

Lemma insert_outbox_internal k dest event key payload next d d0 :
  internal_key key = true -> db_quiet d0 (db_outbox d) ->
  let d1 := snd (insert_outbox true k dest event key payload next d) in
  db_quiet d0 (db_outbox d1) /\ fst (insert_outbox true k dest event key payload next d) = Ret tt.
Proof.
  intros Hk Hq. unfold insert_outbox. destruct (outbox_conflict _ _ _ _); [done|]. split; [|done].
  intros o [Ho|Ho%list_elem_of_singleton]%elem_of_app; [by apply Hq|]. subst o. split; [done|by left].
Qed.

Lemma no_lease_mem t c s : mem_quiet (outbox s) ->
  existsb (fun i => bool_decide (is_Some (lease_owner i)) && bool_decide (completed_at i = None)) (adapter_intents t c s) = false.
Proof.
  intros Hq. apply not_true_iff_false. rewrite existsb_exists. intros (i & Hi & Hc). apply filter_In in Hi as [Hi _].
  apply list_elem_of_In, Hq in Hi. by rewrite Hi in Hc.
Qed.
Lemma no_lease_db k now d l : db_quiet d l -> existsb (fun o => outbox_of k o && leased_now now o) l = false.
Proof.
  intros Hq. apply not_true_iff_false. rewrite existsb_exists. intros (o & Ho & Hc).
  apply list_elem_of_In, Hq in Ho as [Ho _]. unfold leased_now in Hc. rewrite Ho in Hc. by rewrite andb_false_r in Hc.
Qed.

Lemma work_key_internal k actor key :
  internal_key (work_key "operation-retry:" k actor key) = true /\
  internal_key (work_key "operation-reconcile:" k actor key) = true.
Proof.
  unfold work_key. generalize (sha256_hex (fst k +:+ ":" +:+ uuid_str (snd k) +:+ ":" +:+ actor +:+ ":" +:+ key)).
  intros h. by destruct h.
Qed.

(** an action refuses, or chooses a state, the same way on both stores *)
Lemma action_same s d now t c dg o r a actor key reason :
  same_ledger s d -> commands s !! (t, c) = Some (dg, o) -> db_commands d !! (t, c) = Some r ->
  match action_updates now t c o a actor key reason s, pg_action now (t, c) r a actor key reason d with
  | (Ret o', s1), (Ret r', d1) => op_state o' = c_state r' /\ mem_quiet (outbox s1) /\ db_quiet d (db_outbox d1)
  | (Exc e, _), (Exc e', _) => e = e'
  | _, _ => False
  end.
Proof.
  intros R Hs Hd. pose proof (same_rows s d (t, c) R) as Hr. rewrite Hs, Hd in Hr. destruct Hr as (_ & Hst & _).
  destruct (same_quiet s d R) as [Hqm Hqd]. destruct (work_key_internal (t, c) actor key) as [Hretry Hrec].
  destruct a; unfold action_updates, pg_action.
  - unfold cancel_updates, pg_cancel. rewrite Hst. destruct (state_in (c_state r) _); [done|].
    unfold bind, gets, when, modify, ret. cbn [id]. rewrite no_lease_mem by done. rewrite no_lease_db with (d := d) by done.
    destruct (state_in (c_state r) [persisted; queued]); simpl; split_and!; try done.
    + apply map_intents_quiet; [|done]. intros i. unfold cancel_intent. by repeat case_match.
    + by apply update_outbox_quiet.
  - unfold reconcile_updates, pg_reconcile_request. rewrite Hst. destruct (negb _); [done|].
    unfold bind at 1, modify at 1, ret at 1. cbv beta iota. unfold bind at 1 2, modify at 1, gets. cbn [id].
    set (row := mutated_row _ _ _ _ _ _ _ _ _).
    assert (mem_quiet (outbox (set_outbox (map_intents t c quarantine_intent) s))) as Hqm'.
    { apply map_intents_quiet; [|done]. intros i. unfold quarantine_intent. by repeat case_match. }
    destruct (update_outbox _ _ _) as [l n] eqn:Hu.
    assert (db_quiet d l) as Hql.
    { change l with (fst (l, n)). rewrite <- Hu. apply update_outbox_quiet; [|done].
      intros x. unfold quarantined_row, row_with. simpl. split_and!; try done. intros ->. by destruct (after _ _). }
    unfold bind at 1, modify at 1. unfold when. destruct (n =? 0).
    + match goal with |- context [insert_outbox true ?k ?dest ?ev ?key ?pl ?nx] =>
        destruct (insert_outbox_internal k dest ev key pl nx (set_db_outbox l (set_db_command (t, c) row d)) d Hrec Hql)
          as [Hq Hrun]; destruct (insert_outbox true k dest ev key pl nx (set_db_outbox l (set_db_command (t, c) row d)))
          as [u d1] eqn:Hi end.
      simpl in Hrun, Hq. subst u. unfold bind. rewrite Hi. done.
    + unfold bind, ret. done.
  - unfold retry_updates, pg_retry. rewrite Hst. destruct (negb _); [done|].
    unfold bind at 1 2, gets at 1, modify at 1, ret at 1. cbn [id].
    unfold bind at 1 2, gets at 1, modify at 1. cbn [id].
    assert (mem_quiet (outbox s ++ [new_intent (length (outbox s) + 1) t (uuid_str c)
      (match last (adapter_intents t c s) with Some i => intent_destination i | None => TEMPORAL_COMMAND_DESTINATION end)
      (command_type (op_command o)) (retry_key t c actor key)
      (match last (adapter_intents t c s) with Some i => intent_payload i
       | None => [("command_id", JStr (uuid_str c))] end)])) as Hqm'.
    { intros i [Hi|Hi%list_elem_of_singleton]%elem_of_app; [by apply Hqm|by subst i]. }
    set (row := mutated_row _ _ _ _ _ _ _ _ _).
    match goal with |- context [insert_outbox true ?k ?dest ?ev ?key ?pl ?nx] =>
      destruct (insert_outbox_internal k dest ev key pl nx (set_db_command (t, c) row d) d Hretry Hqd) as [Hq Hrun];
      destruct (insert_outbox true k dest ev key pl nx (set_db_command (t, c) row d)) as [u d1] eqn:Hi end.
    simpl in Hrun, Hq. subst u. unfold bind. rewrite Hi. done.
Qed.

(** what [mutate_operation] answers *)
Lemma mutate_answer s now t c a actor key version reason corr :
  wf s ->
  fst (mutate_operation now t c a actor key version reason corr s) =
    match commands s !! (t, c) with
    | None => not_found
    | Some (_, o) =>
        match mutations s !! (t, c, a, actor, key) with
        | Some (dg, o0) => if negb (String.eqb dg (mutation_digest version reason))
            then conflict "idempotency key was reused with different mutation content" else Ret (as_duplicate o0)
        | None => if negb (op_resource_version o =? version)%Z then conflict "expected_version is stale"
            else fst (action_updates now t c o a actor key reason s)
        end
    end.
Proof.
  intros Hwf. unfold mutate_operation, bind at 1, gets. cbn [id].
  destruct (commands s !! (t, c)) as [[dg o]|] eqn:Hk; [|done].
  destruct (mutations s !! _) as [[dg0 o0]|]; [by destruct (negb _)|]. destruct (negb _); [done|].
  destruct (action_updates now t c o a actor key reason s) as [[o'|e] s1] eqn:Ha.
  2: { by erewrite bind_exc by exact Ha. }
  erewrite bind_run by exact Ha. pose proof (action_updates_spec _ _ _ _ _ _ _ _ _ _ _ Hwf Ha) as (g & -> & _).
  destruct (entry_parts _ _ _ _ Hwf Hk) as (evs & atts & Hevs & _). unfold bind at 1, modify at 1. cbv beta iota.
  by erewrite bind_run by (by apply append_event_run).
Qed.

Lemma pg_mutate_answer d now t c a actor key version reason corr :
  tenant_ok t = true ->
  fst (pg_mutate_operation now t c a actor key version reason corr d) =
    match db_commands d !! (t, c) with
    | None => not_found
    | Some r =>
        match db_mutations d !! (t, c, a, actor, key) with
        | Some (dg, o0) => if negb (String.eqb dg (mutation_digest version reason))
            then conflict "idempotency key was reused with different mutation content" else Ret (as_duplicate o0)
        | None => if negb (c_resource_version r =? version)%Z then conflict "expected_version is stale"
            else match fst (pg_action now (t, c) r a actor key reason d) with
                 | Ret r' => operation_of_row r' false None None
                 | Exc e => Exc e
                 end
        end
    end.
Proof.
  intros Ht. unfold pg_mutate_operation. rewrite tenant_run by done. unfold transaction.
  destruct (db_commands d !! (t, c)) as [r|] eqn:Hk.
  2: { by erewrite bind_exc by by apply command_row_none. }
  erewrite bind_run by by apply command_row_run. unfold bind at 1, gets. cbn [id].
  destruct (db_mutations d !! _) as [[dg0 o0]|]; [by destruct (negb _)|]. destruct (negb _); [done|].
  destruct (pg_action now (t, c) r a actor key reason d) as [[r'|e] d1] eqn:Ha.
  2: { by erewrite bind_exc by exact Ha. }
  by erewrite bind_run by exact Ha.
Qed.

Lemma mutated_same s d s' d' now t c a actor key version reason dg o o' e atts r r' u b :
  same_ledger s d -> commands s !! (t, c) = Some (dg, o) -> db_commands d !! (t, c) = Some r ->
  updated_at s s' (t, c) dg o o' e atts -> row_updated d d' (t, c) r r' u ->
  (exists s1, action_updates now t c o a actor key reason s = (Ret o', s1) /\ outbox s' = outbox s1) ->
  (exists d1, pg_action now (t, c) r a actor key reason d = (Ret r', d1) /\ db_outbox d' = db_outbox d1) ->
  mutations s' = <[(t, c, a, actor, key) := (mutation_digest version reason, o')]> (mutations s) ->
  db_mutations d' = <[(t, c, a, actor, key) := (mutation_digest version reason, b)]> (db_mutations d) ->
  (forall k, view_eq (mem_view s' k) (db_view d' k)) -> ans_mutation o' = ans_mutation b ->
  op_duplicate o' = false -> same_ledger s' d'.
Proof.
  intros R Hs Hd U V (s1 & Ha & Ho) (d1 & Hb & Hob) Hm Hmd Hview Hans Hdup.
  pose proof (action_same s d now t c dg o r a actor key reason R Hs Hd) as Hact. rewrite Ha, Hb in Hact.
  destruct Hact as (_ & Hq & Hqd). rewrite <- Ho in Hq. rewrite <- Hob in Hqd.
  pose proof (sl_digest _ _ R _ _ _ _ Hs Hd) as Hdg.
  split; [by eapply updated_at_wf; [apply R|..]|by eapply row_updated_ok; [apply R|..]|done|..].
  - intros k dg1 o1 r1. rewrite (up_commands _ _ _ _ _ _ _ _ U), (ru_commands _ _ _ _ _ _ V).
    destruct (decide (k = (t, c))) as [->|Hne]; [|rewrite !lookup_insert_ne by done; apply (sl_digest _ _ R)].
    rewrite !lookup_insert_eq. intros [= <- <-] [= <-]. by rewrite (ru_sha256 _ _ _ _ _ _ V).
  - intros k dg1 o1. rewrite (up_commands _ _ _ _ _ _ _ _ U).
    destruct (decide (k = (t, c))) as [->|Hne]; [|rewrite !lookup_insert_ne by done; apply (sl_fresh _ _ R)].
    rewrite !lookup_insert_eq. by intros [= <- <-].
  - intros mk. rewrite Hm, Hmd. destruct (decide (mk = (t, c, a, actor, key))) as [->|Hne];
      [by rewrite !lookup_insert_eq|rewrite !lookup_insert_ne by done; apply R].
  - exact Hq.
  - intros x Hx. by apply Hqd.
  - intros x Hx. destruct (Hqd x Hx) as [_ [Hi|(r0 & k & Hk & Ht & Hid)]]; [by left|right].
    destruct (decide (k = (t, c))) as [->|Hne].
    + exists r', (t, c). rewrite (ru_commands _ _ _ _ _ _ V), lookup_insert_eq. split_and!; [done|done|].
      rewrite (ru_identity _ _ _ _ _ _ V). congruence.
    + exists r0, k. rewrite (ru_commands _ _ _ _ _ _ V), lookup_insert_ne by done. done.
Qed.

(** the operations the two stores make of one request look the same *)
Lemma mutate_answers_same s d now t c a actor key version reason corr :
  same_ledger s d -> tenant_ok t = true ->
  match fst (mutate_operation now t c a actor key version reason corr s),
        fst (pg_mutate_operation now t c a actor key version reason corr d) with
  | Ret o, Ret o' => ans_mutation o = ans_mutation o'
  | Exc e, Exc e' => e = e'
  | _, _ => False
  end.
Proof.
  intros R Ht. pose proof (sl_mem _ _ R) as Hwf. rewrite mutate_answer, pg_mutate_answer by done.
  pose proof (same_rows s d (t, c) R) as Hr.
  destruct (commands s !! (t, c)) as [[dg o]|] eqn:Hs, (db_commands d !! (t, c)) as [r|] eqn:Hd; try done.
  destruct Hr as (Hc & Hst & Hp & Hver & Hdup & _). pose proof (sl_mutations _ _ R (t, c, a, actor, key)) as Hm.
  destruct (mutations s !! _) as [[dg1 o1]|], (db_mutations d !! _) as [[dg2 o2]|]; try done.
  { destruct Hm as [-> Hm]. destruct (negb _); [done|]. unfold ans_mutation in *. simpl. congruence. }
  rewrite Hver. destruct (negb _); [done|].
  pose proof (action_same s d now t c dg o r a actor key reason R Hs Hd) as Ha.
  destruct (action_updates now t c o a actor key reason s) as [[o'|e] s1] eqn:Hau,
    (pg_action now (t, c) r a actor key reason d) as [[r'|e'] d1] eqn:Hap; try done.
  destruct Ha as [Hst' _].
  pose proof (action_updates_spec _ _ _ _ _ _ _ _ _ _ _ Hwf Hau) as (g & _ & _ & Ec & Ev & Ep & _ & Ed & _).
  pose proof (pg_action_spec _ _ _ _ _ _ _ _ _ _ Hap) as (_ & Fc & _ & _ & Fp & Fv & _).
  unfold ans_mutation. simpl. congruence.
Qed.

Lemma mutate_same s d now t c a actor key version reason corr :
  same_ledger s d -> tenant_ok t = true ->
  same_step ans_mutation ans_mutation (mutate_operation now t c a actor key version reason corr s)
    (pg_mutate_operation now t c a actor key version reason corr d).
Proof.
  intros R Ht. pose proof (mutate_answers_same s d now t c a actor key version reason corr R Ht) as Hans.
  pose proof (sl_mutations _ _ R (t, c, a, actor, key)) as Hmu.
  destruct (mutate_operation _ _ _ _ _ _ _ _ _ s) as [x s'] eqn:Hm.
  destruct (pg_mutate_operation _ _ _ _ _ _ _ _ _ d) as [y d'] eqn:Hd. simpl in Hans.
  enough (same_ledger s' d') as R'.
  { split; [done|]. simpl. destruct x, y; try done. left. by subst. }
  destruct (mutate_cases _ _ _ _ _ _ _ _ _ _ _ _ (sl_mem _ _ R) Hm)
    as [(e & -> & -> & _)|[(dg & o & Ho & _ & -> & ->)|
        (dg & o & o' & e & atts & Hk & Hn & Hv0 & -> & U & Hatts & Hmut & Hact & Hver & Hdup)]];
  destruct (pg_mutate_cases _ _ _ _ _ _ _ _ _ _ _ _ (sl_db _ _ R) Ht Hd)
    as [(e' & -> & ->)|[(dg' & b & Hb & _ & -> & ->)|
        (r & r' & u & b & Hr & Hv1 & Hn' & -> & V & Hmut' & Hact' & Hop & Hver' & Hnc & Hview)]]; try done.
  - rewrite Ho, Hn' in Hmu. done.
  - rewrite Hb, Hn in Hmu. done.
  - assert (op_duplicate o' = false) as Hdup' by (rewrite Hdup; by eapply (sl_fresh _ _ R)).
    eapply (mutated_same s d s' d' now t c a actor key version reason); try done.
    intros k. pose proof (same_ledger_views _ _ R t c) as Hc.
    destruct (mem_view_Some _ _ _ _ (sl_mem _ _ R) Hk) as (env & client & _ & _ & _ & _ & Hv).
    destruct (updated_at_view _ _ _ _ _ _ _ _ _ (sl_mem _ _ R) Hk U Hv) as [Hv' Hoth].
    destruct (db_view_Some _ _ _ (sl_db _ _ R) Hr) as (env' & He' & _ & Hx).
    destruct (row_updated_view _ _ _ _ _ _ env' (sl_db _ _ R) Hr V He') as [_ Hoth'].
    destruct (decide (k = (t, c))) as [->|Hne]; [|rewrite Hoth, Hoth' by done; apply R].
    rewrite Hv', (Hview _ Hx). rewrite Hv, Hx in Hc. rewrite Hatts in Hc.
    destruct Hc as (Ee & Es & Ep & Ev & Ea & Ed). unfold view_eq, core_eq, pg_restate.
    cbn [pv_core row_view v_env v_state v_provider v_version v_attempts v_dead default from_option] in *.
    unfold operation_of_row in Hop. injection Hop as <-. unfold ans_mutation in Hans. simpl in Hans.
    injection Hans as _ Hs' Hp' Hv2 _. split_and!; try done; [|lia].
    destruct Hact' as (d1 & Hact' & _). pose proof (pg_action_spec _ _ _ _ _ _ _ _ _ _ Hact') as (_ & _ & _ & _ & Fp & _).
    congruence.
Qed.

(** ** Histories *)

Lemma answering_same {A B} (f : A -> LedgerAnswer) (g : B -> LedgerAnswer)
    (m : M MemoryCommandStore A) (m' : DM B) s d :
  same_step f g (m s) (m' d) ->
  same_ledger (snd (answering f m s)) (snd (answering g m' d)) /\
  same_answer (fst (answering f m s)) (fst (answering g m' d)).
Proof.
  unfold same_step, answering, bind, ret. destruct (m s) as [[a|e] s'], (m' d) as [[b|e'] d']; simpl; try done.
  - intros [R ->]. split; [done|by left].
  - tauto.
  - tauto.
Qed.

Lemma run_call_same s d x :
  same_ledger s d -> call_ok x ->
  same_ledger (snd (run_call x s)) (snd (run_call x d)) /\
  same_answer (fst (run_call x s)) (fst (run_call x d)).
Proof.
  intros R Hx. destruct x; simpl in Hx; apply answering_same.
  - destruct Hx as (? & ? & ? & ?). by apply submit_same.
  - destruct Hx. by apply transition_same.
  - destruct Hx. by apply reconcile_same.
  - by apply mutate_same.
  - by apply dead_letter_same.
  - by apply latest_attempt_same.
  - by apply load_envelope_same.
Qed.

Lemma run_history_same l s d :
  same_ledger s d -> Forall call_ok l -> Forall2 same_answer (run_history l s) (run_history l d).
Proof.
  intros R Hl. revert s d R. induction Hl as [|x l Hx _ IH]; intros s d R; [constructor|].
  simpl. destruct (run_call_same s d x R Hx) as [R' Ha].
  destruct (run_call x s) as [a s'], (run_call x d) as [b d']. simpl in *. constructor; [done|by apply IH].
Qed.

End Relation.
