(* ===== verification/PgInbox.v ===== *)
(** * The durable event inbox

    [PostgresInboxStore.accept] and [verify_event_ledger] of [src/app/storage.py]
    over the tables of [migrations/0001_runtime.sql] and
    [0003_immutable_event_ledger.sql].  [accept] is one transaction; the advisory
    locks it takes order the calls of one tenant and of one source event, so calls
    follow one another.  Tables are lists in insertion order; a [jsonb] column
    holds a value. *)

From stdpp Require Import sorting pretty.
From Stdlib Require Import QArith.
From S2P Require Import Prelude Json PyValue Sha256 Commands Registry Outbox Inbox PgLedger.
Local Open Scope Z_scope.

(** ** Tables *)

(** [middleware_inbox], the columns [accept] writes *)
Record InboxRow := {
  ib_event_id : string;
  ib_tenant_id : string;
  ib_source_client_id : string;
  ib_event_type : string;
  ib_body_sha256 : string;
  ib_semantic_sha256 : string;
  ib_idempotency_key : string;
  ib_correlation_id : string;
  ib_payload : jdict;
  ib_received_at : datetime;
}.

(** [middleware_event_ledger]: a chain entry with the event's other columns *)
Record LedgerRow := {
  lr_record : EventLedgerRecord;
  lr_event_type : string;
  lr_event_version : string;
  lr_source_client_id : string;
  lr_correlation_id : string;
  lr_causation_id : string;
  lr_idempotency_key : string;
}.

Record InboxDB := mkInboxDB {
  ib_rows : list InboxRow;
  ib_ledger : list LedgerRow;
  ib_outbox : list OutboxRow;
}.
Abbreviation IDM := (M InboxDB).

Definition empty_inbox_db : InboxDB := mkInboxDB [] [] [].

(** the arguments of a call, with the caller's clock and the transaction's [now()] *)
Record DurableIngress := {
  di_ingress : Ingress;
  di_body_sha256 : string;
  di_destination : string;
  di_now : datetime;
  di_db_now : Q;
}.

Definition di_envelope (c : DurableIngress) : EventEnvelope := in_envelope (di_ingress c).

(** ** Statements *)

(** [ORDER BY received_at ASC] *)
Definition received_le (a b : InboxRow) : Prop := ib_received_at a <= ib_received_at b.
#[export] Instance received_le_dec a b : Decision (received_le a b).
Proof. unfold received_le. apply _. Defined.

(** the first row of the source's event *)
Definition source_existing (source event : string) (d : InboxDB) : option InboxRow :=
  head (merge_sort received_le (List.filter (fun r => String.eqb (ib_source_client_id r) source &&
                                                      String.eqb (ib_event_id r) event) (ib_rows d))).

Definition is_event (t event : string) (r : InboxRow) : bool :=
  String.eqb (ib_tenant_id r) t && String.eqb (ib_event_id r) event.
Definition is_key (t key : string) (r : InboxRow) : bool :=
  String.eqb (ib_tenant_id r) t && String.eqb (ib_idempotency_key r) key.

(** the rows of either identity *)
Definition existing_events (e : EventEnvelope) (d : InboxDB) : list InboxRow :=
  merge_sort received_le (List.filter (fun r => is_event (ev_tenant_id e) (ev_event_id e) r ||
                                                is_key (ev_tenant_id e) (ev_idempotency_key e) r) (ib_rows d)).

Definition outbox_slot (t dest key : string) (r : OutboxRow) : bool :=
  String.eqb (row_tenant_id r) t && String.eqb (row_destination r) dest && String.eqb (row_idempotency_key r) key.
Definition fresh_outbox_id (l : list OutboxRow) : nat := S (fold_right (fun r n => Nat.max (row_id r) n) 0%nat l).

(** [INSERT INTO middleware_outbox], without an [ON CONFLICT] clause *)
Definition insert_intent (t dest event_type key : string) (payload : jdict) (now : Q) : IDM unit := fun d =>
  if existsb (outbox_slot t dest key) (ib_outbox d)
  then unique_violation "middleware_outbox_tenant_id_destination_idempotency_key_key" d
  else (Ret tt, mkInboxDB (ib_rows d) (ib_ledger d)
         (ib_outbox d ++ [new_row (fresh_outbox_id (ib_outbox d)) t dest event_type key payload now])).

(** ** [accept] *)

Definition row_duplicate (r : InboxRow) : IngressResult := {|
  ing_event_id := ib_event_id r; ing_tenant_id := ib_tenant_id r; ing_status := ing_duplicate;
  ing_is_duplicate := true; ing_correlation_id := ib_correlation_id r |}.

(** a replay of a source event: the projection intent is checked, or rebuilt from
    the accepted row *)
Definition replay_source (c : DurableIngress) (r : InboxRow) : IDM IngressResult :=
  if negb (bool_decide (ib_body_sha256 r = comparison_sha256 (di_ingress c)))
  then raise ReplayConflict "source event identity was reused with a different raw payload"
  else
  let! d := gets id in
  match List.find (outbox_slot (ib_tenant_id r) (di_destination c) (ib_idempotency_key r)) (ib_outbox d) with
  | None =>
      insert_intent (ib_tenant_id r) (di_destination c) (ib_event_type r) (ib_idempotency_key r) (ib_payload r)
        (di_db_now c) ;;;
      ret (row_duplicate r)
  | Some p =>
      if negb (bool_decide (row_event_type p = ib_event_type r)) ||
         negb (py_eqb (JObj (row_payload p)) (JObj (ib_payload r)))
      then raise EventLedgerIntegrityError "durable projection does not match its accepted inbox event"
      else ret (row_duplicate r)
  end.

Definition inbox_row (c : DurableIngress) : InboxRow :=
  let e := di_envelope c in {|
  ib_event_id := ev_event_id e; ib_tenant_id := ev_tenant_id e;
  ib_source_client_id := in_producer_client_id (di_ingress c); ib_event_type := ev_event_type e;
  ib_body_sha256 := di_body_sha256 c; ib_semantic_sha256 := in_semantic_sha256 (di_ingress c);
  ib_idempotency_key := ev_idempotency_key e; ib_correlation_id := ev_correlation_id e;
  ib_payload := event_dump e; ib_received_at := di_now c |}.

(** [ORDER BY tenant_sequence DESC LIMIT 1] of a tenant *)
Fixpoint newest_entry (t : string) (l : list LedgerRow) : option EventLedgerRecord :=
  match l with
  | [] => None
  | r :: l' =>
      if String.eqb (rec_tenant_id (lr_record r)) t then
        match newest_entry t l' with
        | Some b => Some (if rec_tenant_sequence b <? rec_tenant_sequence (lr_record r) then lr_record r else b)
        | None => Some (lr_record r)
        end
      else newest_entry t l'
  end.

Definition next_entry (c : DurableIngress) (d : InboxDB) : EventLedgerRecord :=
  let e := di_envelope c in
  let previous := newest_entry (ev_tenant_id e) (ib_ledger d) in
  let sequence := match previous with Some p => rec_tenant_sequence p + 1 | None => 1 end in
  let previous_hash := match previous with Some p => rec_entry_hash p | None => ZERO_LEDGER_HASH end in
  {| rec_tenant_id := ev_tenant_id e; rec_tenant_sequence := sequence; rec_event_id := ev_event_id e;
     rec_semantic_sha256 := in_semantic_sha256 (di_ingress c); rec_previous_entry_hash := previous_hash;
     rec_entry_hash := event_ledger_hash (ev_tenant_id e) sequence (ev_event_id e)
                         (in_semantic_sha256 (di_ingress c)) previous_hash;
     rec_payload := event_dump e |}.

(** the three unique constraints of the ledger *)
Definition ledger_conflict (r : EventLedgerRecord) (key : string) (l : list LedgerRow) : bool :=
  existsb (fun x => String.eqb (rec_tenant_id (lr_record x)) (rec_tenant_id r) &&
                    ((rec_tenant_sequence (lr_record x) =? rec_tenant_sequence r) ||
                     String.eqb (rec_event_id (lr_record x)) (rec_event_id r) ||
                     String.eqb (lr_idempotency_key x) key)) l.

Definition insert_entry (c : DurableIngress) : IDM unit := fun d =>
  let e := di_envelope c in
  let r := next_entry c d in
  if ledger_conflict r (ev_idempotency_key e) (ib_ledger d)
  then unique_violation "middleware_event_ledger_unique" d
  else (Ret tt, mkInboxDB (ib_rows d)
         (ib_ledger d ++ [{|
            lr_record := r; lr_event_type := ev_event_type e; lr_event_version := ev_event_version e;
            lr_source_client_id := in_producer_client_id (di_ingress c);
            lr_correlation_id := ev_correlation_id e; lr_causation_id := ev_causation_id e;
            lr_idempotency_key := ev_idempotency_key e |}]) (ib_outbox d)).

(** the inbox row, the chain entry and the publication intent, or the rows that
    were there; two of them differ in an identity, by the table's keys *)
Definition take_in (c : DurableIngress) : IDM IngressResult :=
  let e := di_envelope c in
  let! d := gets id in
  match existing_events e d with
  | [] =>
      modify (fun d => mkInboxDB (ib_rows d ++ [inbox_row c]) (ib_ledger d) (ib_outbox d)) ;;;
      insert_entry c ;;;
      insert_intent (ev_tenant_id e) (di_destination c) (ev_event_type e) (ev_idempotency_key e) (event_dump e)
        (di_db_now c) ;;;
      ret (accepted_result e)
  | [r] =>
      let stored := match in_deduplication_sha256 (di_ingress c) with
                    | Some _ => ib_body_sha256 r | None => ib_semantic_sha256 r end in
      if negb (bool_decide (stored = comparison_sha256 (di_ingress c)))
      then raise ReplayConflict "event/idempotency identity was reused with a different semantic payload"
      else ret (row_duplicate r)
  | _ => raise ReplayConflict "event and idempotency identities refer to different accepted events"
  end.

Definition pg_accept (c : DurableIngress) : IDM IngressResult :=
  if negb (bool_decide (canonical_payload_sha256 (event_dump (di_envelope c)) = in_semantic_sha256 (di_ingress c)))
  then raise EventLedgerIntegrityError "semantic hash does not match the canonical event payload"
  else transaction (
    let! d := gets id in
    match in_deduplication_sha256 (di_ingress c) with
    | Some _ =>
        match source_existing (in_producer_client_id (di_ingress c)) (ev_event_id (di_envelope c)) d with
        | Some r => replay_source c r
        | None => take_in c
        end
    | None => take_in c
    end).

(** ** [verify_event_ledger] *)

Definition verify_event_ledger (tenant : option string) (d : InboxDB) : outcome (gmap string Z) :=
  verify_event_ledger_records
    (merge_sort record_le (List.filter (fun r => match tenant with
       | Some t => String.eqb (rec_tenant_id r) t | None => true end) (map lr_record (ib_ledger d)))).

(** a history of calls: what each answered, and the tables they leave *)
Fixpoint pg_inbox_run (cs : list DurableIngress) (d : InboxDB) : list (outcome IngressResult) * InboxDB :=
  match cs with
  | [] => ([], d)
  | c :: cs' =>
      let (r, d1) := pg_accept c d in
      let (rs, d2) := pg_inbox_run cs' d1 in (r :: rs, d2)
  end.
