(* ===== verification/PgInboxFacts.v ===== *)
(** * The durable inbox's invariant

    Every inbox row has its entry in the chain, the rows are unique under both of
    their identities, and a call answers, refuses or adds exactly one of each;
    the relation to the in-memory inbox. *)

From stdpp Require Import sorting pretty.
From Stdlib Require Import QArith.
From S2P Require Import Prelude Json Sha256 Commands Registry Outbox Inbox InboxFacts PgLedger.
From S2P Require Import PyValue PgInbox.
Local Open Scope Z_scope.

#[local] Opaque event_ledger_hash canonical_payload_sha256.

(** ** The newest entry *)

Definition records (d : InboxDB) : list EventLedgerRecord := map lr_record (ib_ledger d).

Lemma newest_entry_last t l n p :
  chained n p (of_tenant t (map lr_record l)) -> newest_entry t l = last (of_tenant t (map lr_record l)).
Proof.
  revert n p. induction l as [|r l IH]; intros n p; [done|]. cbn [map newest_entry].
  change (of_tenant t (lr_record r :: map lr_record l)) with (of_tenant t ([lr_record r] ++ map lr_record l)).
  rewrite of_tenant_app. unfold of_tenant at 1 3. cbn [List.filter].
  destruct (String.eqb_spec (rec_tenant_id (lr_record r)) t) as [Ht|Ht].
  2: { rewrite bool_decide_eq_false_2 by done. apply IH. }
  rewrite bool_decide_eq_true_2 by done. cbn [app]. rewrite chained_cons. intros [(Hs & _) Hc].
  rewrite (IH _ _ Hc). destruct (of_tenant t (map lr_record l)) as [|x k] eqn:Hk; [done|].
  change (last (lr_record r :: x :: k)) with (last (x :: k)).
  destruct (last (x :: k)) as [b|] eqn:Hb; [|by apply last_None in Hb].
  apply last_Some in Hb as [k' Hb].
  assert ((x :: k) !! length k' = Some b) as Hl by by rewrite Hb, list_lookup_middle.
  rewrite Hs, (chained_lookup _ _ _ _ _ Hc Hl). destruct (Z.ltb_spec (n + 1 + Z.of_nat (length k')) n); [lia|done].
Qed.

(** ** The invariant *)

Definition row_ids (r : InboxRow) : string * string * string := (ib_tenant_id r, ib_event_id r, ib_idempotency_key r).
Definition entry_ids (x : LedgerRow) : string * string * string :=
  (rec_tenant_id (lr_record x), rec_event_id (lr_record x), lr_idempotency_key x).

Record pg_inbox_ok (d : InboxDB) : Prop := {
  pi_chains : chains (records d);
  pi_entries : map row_ids (ib_rows d) = map entry_ids (ib_ledger d);
  pi_events : NoDup (map (fun r => (ib_tenant_id r, ib_event_id r)) (ib_rows d));
  pi_keys : NoDup (map (fun r => (ib_tenant_id r, ib_idempotency_key r)) (ib_rows d));
  pi_hashes : forall r, r ∈ ib_rows d -> ib_semantic_sha256 r = canonical_payload_sha256 (ib_payload r);
}.

Lemma empty_inbox_db_ok : pg_inbox_ok empty_inbox_db.
Proof. split; try done; [constructor..|]. by intros r ?%elem_of_nil. Qed.

Lemma NoDup_map_eq {A B} (f : A -> B) l x y : NoDup (map f l) -> x ∈ l -> y ∈ l -> f x = f y -> x = y.
Proof.
  induction l as [|z l IH]; [by intros _ ?%elem_of_nil|]. simpl. intros [Hz Hl]%NoDup_cons Hx Hy He.
  apply elem_of_cons in Hx, Hy. destruct Hx as [->|Hx], Hy as [->|Hy]; [done| | |by apply IH].
  - exfalso. apply Hz. rewrite He. by apply list_elem_of_fmap_2.
  - exfalso. apply Hz. rewrite <- He. by apply list_elem_of_fmap_2.
Qed.

(** the outbox is the worker's: any change of it keeps the invariant *)
Lemma outbox_changed_ok d l : pg_inbox_ok d -> pg_inbox_ok (mkInboxDB (ib_rows d) (ib_ledger d) l).
Proof. intros [H1 H2 H3 H4 H5]. by split. Qed.

(** ** The rows of a call *)

Lemma elem_of_existing_events e d r :
  r ∈ existing_events e d <-> r ∈ ib_rows d /\ ib_tenant_id r = ev_tenant_id e /\
    (ib_event_id r = ev_event_id e \/ ib_idempotency_key r = ev_idempotency_key e).
Proof.
  unfold existing_events. rewrite merge_sort_Permutation, !list_elem_of_In, filter_In. unfold is_event, is_key.
  rewrite orb_true_iff, !andb_true_iff, !String.eqb_eq. tauto.
Qed.

Lemma NoDup_existing e d : pg_inbox_ok d -> NoDup (existing_events e d).
Proof.
  intros Hok. unfold existing_events. rewrite merge_sort_Permutation.
  pose proof (NoDup_fmap_1 _ _ (pi_events _ Hok)) as Hnd. revert Hnd. generalize (ib_rows d) as l.
  induction l as [|r l IH]; simpl; [done|]. intros [Hr Hl]%NoDup_cons. destruct (_ || _); [|by apply IH].
  apply NoDup_cons. split; [|by apply IH]. rewrite list_elem_of_In, filter_In, <- list_elem_of_In. by intros [? _].
Qed.

Lemma row_by_event d r1 r2 :
  pg_inbox_ok d -> r1 ∈ ib_rows d -> r2 ∈ ib_rows d -> ib_tenant_id r1 = ib_tenant_id r2 ->
  ib_event_id r1 = ib_event_id r2 -> r1 = r2.
Proof. intros Hok H1 H2 Ht He. eapply (NoDup_map_eq _ _ _ _ (pi_events _ Hok)); try done. by rewrite Ht, He. Qed.
Lemma row_by_key d r1 r2 :
  pg_inbox_ok d -> r1 ∈ ib_rows d -> r2 ∈ ib_rows d -> ib_tenant_id r1 = ib_tenant_id r2 ->
  ib_idempotency_key r1 = ib_idempotency_key r2 -> r1 = r2.
Proof. intros Hok H1 H2 Ht He. eapply (NoDup_map_eq _ _ _ _ (pi_keys _ Hok)); try done. by rewrite Ht, He. Qed.

(** two rows: one holds the event, another one the key *)
Lemma existing_events_two e d r1 r2 l :
  pg_inbox_ok d -> existing_events e d = r1 :: r2 :: l ->
  exists s1 s2, s1 ∈ ib_rows d /\ s2 ∈ ib_rows d /\ ib_tenant_id s1 = ev_tenant_id e /\ ib_tenant_id s2 = ev_tenant_id e /\
    ib_event_id s1 = ev_event_id e /\ ib_idempotency_key s2 = ev_idempotency_key e /\
    ib_event_id s2 <> ev_event_id e /\ ib_idempotency_key s1 <> ev_idempotency_key e.
Proof.
  intros Hok He. pose proof (NoDup_existing e d Hok) as Hnd. rewrite He in Hnd. apply NoDup_cons in Hnd as [Hn _].
  assert (r1 <> r2) as Hne by (intros ->; apply Hn; left).
  assert (r1 ∈ existing_events e d) as H1 by (rewrite He; left).
  assert (r2 ∈ existing_events e d) as H2 by (rewrite He; right; left).
  apply elem_of_existing_events in H1 as (I1 & T1 & [E1|K1]), H2 as (I2 & T2 & [E2|K2]).
  - exfalso. apply Hne. apply (row_by_event d); congruence.
  - exists r1, r2. split_and!; try done; intros Hx; apply Hne;
      [apply (row_by_event d)|apply (row_by_key d)]; congruence.
  - exists r2, r1. split_and!; try done; intros Hx; apply Hne;
      [apply (row_by_event d)|apply (row_by_key d)]; congruence.
  - exfalso. apply Hne. apply (row_by_key d); congruence.
Qed.

(** ** A new event *)

(** the tables after an event was taken in *)
Definition taken_in (c : DurableIngress) (d : InboxDB) : InboxDB :=
  let e := di_envelope c in
  mkInboxDB (ib_rows d ++ [inbox_row c])
    (ib_ledger d ++ [{|
       lr_record := next_entry c d; lr_event_type := ev_event_type e; lr_event_version := ev_event_version e;
       lr_source_client_id := in_producer_client_id (di_ingress c);
       lr_correlation_id := ev_correlation_id e; lr_causation_id := ev_causation_id e;
       lr_idempotency_key := ev_idempotency_key e |}])
    (ib_outbox d ++ [new_row (fresh_outbox_id (ib_outbox d)) (ev_tenant_id e) (di_destination c) (ev_event_type e)
                       (ev_idempotency_key e) (event_dump e) (di_db_now c)]).

Lemma next_entry_chain c d :
  chains (records d) ->
  canonical_payload_sha256 (event_dump (di_envelope c)) = in_semantic_sha256 (di_ingress c) ->
  let l := of_tenant (ev_tenant_id (di_envelope c)) (records d) in
  chained 1 ZERO_LEDGER_HASH (l ++ [next_entry c d]) /\
  rec_tenant_sequence (next_entry c d) = 1 + Z.of_nat (length l).
Proof.
  intros Hc Hsem l. specialize (Hc (ev_tenant_id (di_envelope c))). fold l in Hc.
  assert (match newest_entry (ev_tenant_id (di_envelope c)) (ib_ledger d) with
          | Some p => rec_tenant_sequence p + 1 | None => 1 end = 1 + Z.of_nat (length l) /\
          match newest_entry (ev_tenant_id (di_envelope c)) (ib_ledger d) with
          | Some p => rec_entry_hash p | None => ZERO_LEDGER_HASH end = chain_head ZERO_LEDGER_HASH l) as [Hs Hh].
  { rewrite (newest_entry_last _ _ _ _ Hc). fold (records d). fold l.
    destruct l as [|x k _] eqn:Hl using rev_ind; [done|]. rewrite last_snoc, chain_head_app, length_app.
    apply chained_app in Hc as [_ (Hq & _)]. simpl. rewrite Hq. split; [lia|done]. }
  split; [|by simpl; rewrite Hs]. rewrite chained_app. split; [done|].
  unfold next_entry. rewrite Hs, Hh. cbn [chained rec_tenant_sequence rec_previous_entry_hash rec_semantic_sha256
    rec_payload rec_entry_hash rec_tenant_id rec_event_id]. by split_and!.
Qed.

(** the chain has room for a new event *)
Lemma next_entry_free c d :
  pg_inbox_ok d ->
  canonical_payload_sha256 (event_dump (di_envelope c)) = in_semantic_sha256 (di_ingress c) ->
  existing_events (di_envelope c) d = [] ->
  ledger_conflict (next_entry c d) (ev_idempotency_key (di_envelope c)) (ib_ledger d) = false.
Proof.
  intros Hok Hsem He. apply not_true_iff_false. unfold ledger_conflict. rewrite existsb_exists.
  intros (x & Hx & Hc). apply andb_prop in Hc as [Ht Hc]. apply String.eqb_eq in Ht.
  destruct (next_entry_chain c d (pi_chains _ Hok) Hsem) as [_ Hseq].
  assert (exists r, r ∈ ib_rows d /\ row_ids r = entry_ids x) as (r & Hr & Hids).
  { assert (entry_ids x ∈ map row_ids (ib_rows d)) as Hin.
    { rewrite (pi_entries _ Hok). apply list_elem_of_fmap_2. by apply list_elem_of_In. }
    apply list_elem_of_fmap in Hin as (r & Hr & Hin). by exists r. }
  injection Hids as It Ie Ik.
  assert (r ∈ existing_events (di_envelope c) d -> False) as Hno.
  { rewrite He. by intros ?%elem_of_nil. }
  rewrite elem_of_existing_events in Hno. rewrite !orb_true_iff, Z.eqb_eq, !String.eqb_eq in Hc.
  simpl in Ht. destruct Hc as [[Hc|Hc]|Hc].
  - assert (lr_record x ∈ of_tenant (ev_tenant_id (di_envelope c)) (records d)) as Hel.
    { apply list_elem_of_In. unfold of_tenant. apply filter_In. split; [by apply in_map|by apply bool_decide_eq_true]. }
    apply list_elem_of_lookup in Hel as [i Hi].
    rewrite (chained_lookup _ _ _ _ _ (pi_chains _ Hok _) Hi), Hseq in Hc.
    apply lookup_lt_Some in Hi. lia.
  - apply Hno. split_and!; [done|congruence|left; simpl in Hc; congruence].
  - apply Hno. split_and!; [done|congruence|right; congruence].
Qed.

Lemma taken_in_ok c d :
  pg_inbox_ok d ->
  canonical_payload_sha256 (event_dump (di_envelope c)) = in_semantic_sha256 (di_ingress c) ->
  existing_events (di_envelope c) d = [] -> pg_inbox_ok (taken_in c d).
Proof.
  intros Hok Hsem He.
  assert (forall r, r ∈ ib_rows d -> ib_tenant_id r = ev_tenant_id (di_envelope c) ->
    ib_event_id r = ev_event_id (di_envelope c) \/ ib_idempotency_key r = ev_idempotency_key (di_envelope c) -> False) as Hno.
  { intros r Hr Ht Hor. assert (r ∈ existing_events (di_envelope c) d) as Hin by by apply elem_of_existing_events.
    rewrite He in Hin. by apply elem_of_nil in Hin. }
  split; cbn [taken_in ib_rows ib_ledger].
  - intros t. unfold records. cbn [taken_in ib_ledger]. rewrite map_app, of_tenant_app. cbn [map lr_record].
    unfold of_tenant at 2. cbn [List.filter next_entry rec_tenant_id]. case_bool_decide as Ht.
    + subst t. by apply next_entry_chain; [apply Hok|].
    + rewrite app_nil_r. apply Hok.
  - rewrite !map_app, (pi_entries _ Hok). done.
  - rewrite map_app. apply NoDup_app. split_and!; [apply Hok| |apply NoDup_singleton].
    intros x Hx Hin. apply list_elem_of_singleton in Hin as ->. apply list_elem_of_fmap in Hx as (r & Heq & Hr).
    injection Heq as Ht Hev. eapply (Hno r); [done|done|by left].
  - rewrite map_app. apply NoDup_app. split_and!; [apply Hok| |apply NoDup_singleton].
    intros x Hx Hin. apply list_elem_of_singleton in Hin as ->. apply list_elem_of_fmap in Hx as (r & Heq & Hr).
    injection Heq as Ht Hk. eapply (Hno r); [done|done|by right].
  - intros r [Hr|Hr%list_elem_of_singleton]%elem_of_app; [by apply Hok|]. subst r. simpl. done.
Qed.

(** ** [accept] *)

Abbreviation slot_taken c d :=
  (existsb (outbox_slot (ev_tenant_id (di_envelope c)) (di_destination c) (ev_idempotency_key (di_envelope c))) (ib_outbox d)).
Abbreviation intent_violation :=
  (Exc (Exn (Foreign "UniqueViolationError" ["PostgresError"; "Exception"])
            "middleware_outbox_tenant_id_destination_idempotency_key_key")).

(** the row a replayed source event meets *)
Definition replayed (c : DurableIngress) (d : InboxDB) : option InboxRow :=
  match in_deduplication_sha256 (di_ingress c) with
  | Some _ => source_existing (in_producer_client_id (di_ingress c)) (ev_event_id (di_envelope c)) d
  | None => None
  end.

Definition stored_comparison (c : DurableIngress) (r : InboxRow) : string :=
  match in_deduplication_sha256 (di_ingress c) with Some _ => ib_body_sha256 r | None => ib_semantic_sha256 r end.

(** what a call that meets no replayed source event answers, and leaves *)
Definition taking_in (c : DurableIngress) (d : InboxDB) : outcome IngressResult * InboxDB :=
  match existing_events (di_envelope c) d with
  | [] => if slot_taken c d then (intent_violation, d) else (Ret (accepted_result (di_envelope c)), taken_in c d)
  | [r] =>
      if bool_decide (stored_comparison c r = comparison_sha256 (di_ingress c)) then (Ret (row_duplicate r), d)
      else (Exc (Exn ReplayConflict "event/idempotency identity was reused with a different semantic payload"), d)
  | _ => (Exc (Exn ReplayConflict "event and idempotency identities refer to different accepted events"), d)
  end.

Lemma pg_accept_run c d :
  pg_inbox_ok d ->
  pg_accept c d =
    if negb (bool_decide (canonical_payload_sha256 (event_dump (di_envelope c)) = in_semantic_sha256 (di_ingress c)))
    then (Exc (Exn EventLedgerIntegrityError "semantic hash does not match the canonical event payload"), d)
    else match replayed c d with
    | Some r => transaction (replay_source c r) d
    | None => taking_in c d
    end.
Proof.
  intros Hok. unfold pg_accept. case_bool_decide as Hsem; [|done]. cbn [negb].
  assert (transaction (take_in c) d = taking_in c d) as Ht.
  { unfold transaction, take_in, taking_in, bind at 1, gets. cbn [id].
    destruct (existing_events (di_envelope c) d) as [|r [|r2 l]] eqn:He; [|by unfold stored_comparison; case_bool_decide|done].
    unfold bind at 1, modify. unfold bind at 1, insert_entry.
    change (next_entry c (mkInboxDB (ib_rows d ++ [inbox_row c]) (ib_ledger d) (ib_outbox d))) with (next_entry c d).
    cbn [ib_ledger ib_rows ib_outbox]. rewrite next_entry_free by done.
    unfold bind, insert_intent. cbn [ib_ledger ib_rows ib_outbox]. by destruct (slot_taken c d). }
  unfold replayed. unfold transaction at 1, bind, gets. cbn [id].
  destruct (in_deduplication_sha256 (di_ingress c)); [destruct (source_existing _ _ d)|]; done.
Qed.

(** what the replay of a source event does *)
Lemma replay_source_cases c r d res d' :
  transaction (replay_source c r) d = (res, d') ->
  (exists e, res = Exc e /\ d' = d) \/
  (res = Ret (row_duplicate r) /\
   (d' = d \/
    List.find (outbox_slot (ib_tenant_id r) (di_destination c) (ib_idempotency_key r)) (ib_outbox d) = None /\
    d' = mkInboxDB (ib_rows d) (ib_ledger d) (ib_outbox d ++ [new_row (fresh_outbox_id (ib_outbox d)) (ib_tenant_id r)
           (di_destination c) (ib_event_type r) (ib_idempotency_key r) (ib_payload r) (di_db_now c)]))).
Proof.
  unfold transaction, replay_source. case_bool_decide; cbn [negb]; [|intros [= <- <-]; left; by eexists].
  unfold bind at 1, gets. cbn [id]. destruct (List.find _ _) as [p|].
  { destruct (_ || _); intros [= <- <-]; [left; by eexists|right]. by split; [|left]. }
  unfold bind, insert_intent, ret, unique_violation, raise. destruct (existsb _ _); intros [= <- <-];
    [left; by eexists|right]. split; [done|by right].
Qed.

(** every outcome of [accept]: it refuses, it answers a duplicate, or it takes the
    event in; only the last adds to the inbox and its chain *)
Lemma pg_accept_cases c d res d' :
  pg_inbox_ok d -> pg_accept c d = (res, d') ->
  (exists e, res = Exc e /\ d' = d) \/
  (exists r, res = Ret (row_duplicate r) /\ ib_rows d' = ib_rows d /\ ib_ledger d' = ib_ledger d) \/
  (res = Ret (accepted_result (di_envelope c)) /\ d' = taken_in c d /\
   canonical_payload_sha256 (event_dump (di_envelope c)) = in_semantic_sha256 (di_ingress c) /\
   existing_events (di_envelope c) d = []).
Proof.
  intros Hok. rewrite pg_accept_run by done. case_bool_decide as Hsem; cbn [negb]; [|intros [= <- <-]; eauto].
  destruct (replayed c d) as [r|].
  - intros [(e & -> & ->)|(-> & [->|[_ ->]])]%replay_source_cases; [eauto|right; left; by exists r..].
  - unfold taking_in. destruct (existing_events (di_envelope c) d) as [|r [|]] eqn:He.
    + destruct (slot_taken c d); intros [= <- <-]; [eauto|]. right; right. done.
    + case_bool_decide; intros [= <- <-]; [right; left; by exists r|eauto].
    + intros [= <- <-]. eauto.
Qed.

Lemma pg_accept_ok c d : pg_inbox_ok d -> pg_inbox_ok (snd (pg_accept c d)).
Proof.
  intros Hok. destruct (pg_accept c d) as [res d'] eqn:Ha.
  destruct (pg_accept_cases _ _ _ _ Hok Ha) as [(e & _ & ->)|[(r & _ & Hr & Hl)|(_ & -> & Hs & He)]]; [done| |].
  - pose proof (outbox_changed_ok d (ib_outbox d') Hok) as Hok'. rewrite <- Hr, <- Hl in Hok'. by destruct d'.
  - by apply taken_in_ok.
Qed.

(** the tenant's chain grows by its accepted events *)
Lemma pg_accept_counts t c d :
  pg_inbox_ok d ->
  length (of_tenant t (records (snd (pg_accept c d)))) =
  (length (of_tenant t (records d)) + length (accepted_for t [fst (pg_accept c d)]))%nat.
Proof.
  intros Hok. destruct (pg_accept c d) as [res d'] eqn:Ha. cbn [fst snd].
  destruct (pg_accept_cases _ _ _ _ Hok Ha) as [(e & -> & ->)|[(r & -> & Hr & Hl)|(-> & -> & _)]].
  - simpl. lia.
  - unfold records. rewrite Hl. simpl. lia.
  - unfold records. cbn [taken_in ib_ledger]. rewrite map_app, of_tenant_app, length_app. f_equal.
    cbn [map lr_record of_tenant accepted_for List.filter next_entry rec_tenant_id accepted_result ing_status ing_tenant_id].
    rewrite (bool_decide_eq_true_2 (ing_accepted = ing_accepted)) by done. cbn [andb]. by case_bool_decide.
Qed.

Lemma pg_inbox_run_ok cs d :
  pg_inbox_ok d ->
  pg_inbox_ok (snd (pg_inbox_run cs d)) /\
  forall t, length (of_tenant t (records (snd (pg_inbox_run cs d)))) =
    (length (of_tenant t (records d)) + length (accepted_for t (fst (pg_inbox_run cs d))))%nat.
Proof.
  revert d. induction cs as [|c cs IH]; intros d Hok; cbn [pg_inbox_run].
  { split; [done|]. intros t. simpl. lia. }
  pose proof (pg_accept_ok c d Hok) as Hok1. pose proof (fun t => pg_accept_counts t c d Hok) as Hn1.
  destruct (pg_accept c d) as [r d1]. cbn [fst snd] in *. destruct (IH d1 Hok1) as [Hok2 Hn2].
  destruct (pg_inbox_run cs d1) as [rs d2]. cbn [fst snd] in *. split; [done|]. intros t.
  rewrite Hn2, Hn1. change (r :: rs) with ([r] ++ rs). rewrite accepted_for_app, length_app. lia.
Qed.

(** ** [verify_event_ledger] *)

Lemma of_tenant_filter t t' l :
  of_tenant t' (List.filter (fun r => String.eqb (rec_tenant_id r) t) l) =
    if bool_decide (t' = t) then of_tenant t' l else [].
Proof.
  unfold of_tenant. induction l as [|r l IH]; simpl; [by case_bool_decide|].
  destruct (String.eqb_spec (rec_tenant_id r) t) as [Ht|Ht]; simpl; rewrite IH; repeat case_bool_decide; subst; done.
Qed.

Lemma verify_event_ledger_ok tenant d :
  pg_inbox_ok d ->
  exists m, verify_event_ledger tenant d = Ret m /\
    forall t, count_of m t = match tenant with
      | Some x => if bool_decide (t = x) then Z.of_nat (length (of_tenant t (records d))) else 0
      | None => Z.of_nat (length (of_tenant t (records d)))
      end.
Proof.
  intros Hok. unfold verify_event_ledger. set (l := List.filter _ (map lr_record (ib_ledger d))).
  assert (forall t, of_tenant t l = match tenant with
      | Some x => if bool_decide (t = x) then of_tenant t (records d) else []
      | None => of_tenant t (records d) end) as Hl.
  { intros t. unfold l. destruct tenant as [x|]; [apply of_tenant_filter|]. f_equal. unfold records.
    induction (map lr_record (ib_ledger d)) as [|r k IH]; [done|]. simpl. by rewrite IH. }
  assert (chains l) as Hc.
  { intros t. rewrite Hl. destruct tenant as [x|]; [case_bool_decide; [|done]|]; apply Hok. }
  destruct (chains_verify (merge_sort record_le l)) as (m & Hm & Hn).
  { intros t. by rewrite chains_sorted. }
  exists m. split; [done|]. intros t. rewrite Hn, chains_sorted, Hl by done.
  destruct tenant as [x|]; [|done]. by case_bool_decide.
Qed.
