(* ===== verification/SchemaReady.v ===== *)
(** * Schema readiness

    What the durable stores require of the database's catalogue before they serve:
    [verify_schema] and [ready] of [PostgresInboxStore] ([src/app/storage.py]) and
    [ready] of [PostgresCommandStore] ([src/app/commands.py]).  The catalogue is
    the rows their queries read: the applied migration head, the columns with
    their types, the key constraints and the triggers of the public schema. *)

From stdpp Require Import pretty.
From S2P Require Import Prelude Json PyValue Commands Registry.
Local Open Scope Z_scope.

Abbreviation Key3 := (string * string * list string)%type.

Record Catalogue := {
  cat_reachable : bool;
  cat_head : option Z;
  (* table, column, type *)
  cat_columns : list (string * string * string);
  (* table, kind of constraint, columns in order *)
  cat_keys : list Key3;
  (* trigger, [tgenabled] *)
  cat_triggers : list (string * string);
}.

(** ** What the stores require *)

Definition RUNTIME_SCHEMA_VERSION : Z := 15.

(** [PostgresInboxStore.REQUIRED_COLUMNS], in order *)
Definition INBOX_COLUMNS : list (string * list string) := [
  ("middleware_schema_migrations", [
     "version"; "name"; "applied_at"]);
  ("middleware_inbox", [
     "event_id"; "tenant_id"; "source_client_id"; "event_type"; "body_sha256"; "semantic_sha256";
     "idempotency_key"; "correlation_id"; "payload"; "received_at"; "status"; "processed_at"; "last_error";
     "resource_version"; "quarantined_at"; "quarantine_reason"; "released_at"; "reprocess_requested_at";
     "discarded_at"; "discard_reason"]);
  ("middleware_outbox", [
     "id"; "tenant_id"; "destination"; "event_type"; "payload"; "idempotency_key"; "created_at";
     "next_attempt_at"; "attempt_count"; "lease_owner"; "lease_until"; "completed_at"; "dead_lettered_at";
     "reconciliation_required_at"; "last_error"; "command_id"; "cancelled_at"; "resource_version";
     "fencing_token"]);
  ("middleware_communication_messages", [
     "tenant_id"; "message_id"; "payload"; "updated_at"]);
  ("middleware_communication_events", [
     "id"; "tenant_id"; "event_id"; "message_id"; "occurred_at"; "payload"]);
  ("middleware_communication_idempotency", [
     "tenant_id"; "route"; "idempotency_key"; "request_sha256"; "message_id"; "created_at"]);
  ("middleware_communication_provider_events", [
     "tenant_id"; "provider_event_id"; "request_sha256"; "created_at"]);
  ("middleware_communication_suppressions", [
     "tenant_id"; "channel"; "subject"; "created_at"]);
  ("middleware_communication_cancellations", [
     "tenant_id"; "message_id"; "idempotency_key"; "created_at"]);
  ("middleware_reconciliation_audit", [
     "id"; "outbox_id"; "tenant_id"; "action"; "operator_id"; "reason"; "attempt_count"; "created_at"]);
  ("middleware_event_ledger", [
     "ledger_id"; "tenant_id"; "tenant_sequence"; "event_id"; "event_type"; "event_version"; "source_client_id";
     "correlation_id"; "causation_id"; "idempotency_key"; "semantic_sha256"; "previous_entry_hash";
     "entry_hash"; "payload"; "recorded_at"]);
  ("middleware_operation_mutations", [
     "id"; "tenant_id"; "command_id"; "action"; "actor_id"; "idempotency_key"; "request_sha256";
     "response_status"; "response_payload"; "created_at"]);
  ("middleware_control_mutations", [
     "id"; "tenant_id"; "resource_kind"; "resource_id"; "action"; "actor_id"; "api_version"; "idempotency_key";
     "request_sha256"; "response_status"; "response_payload"; "created_at"]);
  ("middleware_control_audit", [
     "id"; "tenant_id"; "resource_kind"; "resource_id"; "action"; "actor_id"; "reason"; "previous_state";
     "new_state"; "metadata"; "created_at"]);
  ("middleware_outbox_attempt_events", [
     "id"; "outbox_id"; "tenant_id"; "attempt_number"; "event_type"; "worker_id"; "safe_error_code";
     "fencing_token"; "created_at"])].

(** [PostgresInboxStore.REQUIRED_UDT_TYPES], in order *)
Definition REQUIRED_UDT_TYPES : list (string * string * string) := [
  ("middleware_communication_messages", "tenant_id", "text");
  ("middleware_communication_messages", "message_id", "uuid");
  ("middleware_communication_messages", "payload", "jsonb");
  ("middleware_communication_messages", "updated_at", "timestamptz");
  ("middleware_communication_events", "id", "int8");
  ("middleware_communication_events", "tenant_id", "text");
  ("middleware_communication_events", "event_id", "uuid");
  ("middleware_communication_events", "message_id", "uuid");
  ("middleware_communication_events", "occurred_at", "timestamptz");
  ("middleware_communication_events", "payload", "jsonb");
  ("middleware_communication_idempotency", "tenant_id", "text");
  ("middleware_communication_idempotency", "route", "text");
  ("middleware_communication_idempotency", "idempotency_key", "text");
  ("middleware_communication_idempotency", "request_sha256", "bpchar");
  ("middleware_communication_idempotency", "message_id", "uuid");
  ("middleware_communication_idempotency", "created_at", "timestamptz");
  ("middleware_communication_provider_events", "tenant_id", "text");
  ("middleware_communication_provider_events", "provider_event_id", "text");
  ("middleware_communication_provider_events", "request_sha256", "bpchar");
  ("middleware_communication_provider_events", "created_at", "timestamptz");
  ("middleware_communication_suppressions", "tenant_id", "text");
  ("middleware_communication_suppressions", "channel", "text");
  ("middleware_communication_suppressions", "subject", "text");
  ("middleware_communication_suppressions", "created_at", "timestamptz");
  ("middleware_communication_cancellations", "tenant_id", "text");
  ("middleware_communication_cancellations", "message_id", "uuid");
  ("middleware_communication_cancellations", "idempotency_key", "text");
  ("middleware_communication_cancellations", "created_at", "timestamptz");
  ("middleware_schema_migrations", "version", "int4");
  ("middleware_schema_migrations", "name", "text");
  ("middleware_schema_migrations", "applied_at", "timestamptz");
  ("middleware_inbox", "event_id", "text");
  ("middleware_inbox", "tenant_id", "text");
  ("middleware_inbox", "source_client_id", "text");
  ("middleware_inbox", "event_type", "text");
  ("middleware_inbox", "body_sha256", "bpchar");
  ("middleware_inbox", "semantic_sha256", "bpchar");
  ("middleware_inbox", "idempotency_key", "text");
  ("middleware_inbox", "correlation_id", "text");
  ("middleware_inbox", "payload", "jsonb");
  ("middleware_inbox", "received_at", "timestamptz");
  ("middleware_inbox", "status", "text");
  ("middleware_inbox", "processed_at", "timestamptz");
  ("middleware_inbox", "last_error", "text");
  ("middleware_inbox", "resource_version", "int8");
  ("middleware_inbox", "quarantined_at", "timestamptz");
  ("middleware_inbox", "quarantine_reason", "text");
  ("middleware_inbox", "released_at", "timestamptz");
  ("middleware_inbox", "reprocess_requested_at", "timestamptz");
  ("middleware_inbox", "discarded_at", "timestamptz");
  ("middleware_inbox", "discard_reason", "text");
  ("middleware_outbox", "id", "int8");
  ("middleware_outbox", "tenant_id", "text");
  ("middleware_outbox", "destination", "text");
  ("middleware_outbox", "event_type", "text");
  ("middleware_outbox", "payload", "jsonb");
  ("middleware_outbox", "idempotency_key", "text");
  ("middleware_outbox", "created_at", "timestamptz");
  ("middleware_outbox", "next_attempt_at", "timestamptz");
  ("middleware_outbox", "attempt_count", "int4");
  ("middleware_outbox", "lease_owner", "text");
  ("middleware_outbox", "lease_until", "timestamptz");
  ("middleware_outbox", "completed_at", "timestamptz");
  ("middleware_outbox", "dead_lettered_at", "timestamptz");
  ("middleware_outbox", "reconciliation_required_at", "timestamptz");
  ("middleware_outbox", "last_error", "text");
  ("middleware_outbox", "command_id", "text");
  ("middleware_outbox", "cancelled_at", "timestamptz");
  ("middleware_outbox", "resource_version", "int8");
  ("middleware_outbox", "fencing_token", "int8");
  ("middleware_reconciliation_audit", "id", "int8");
  ("middleware_reconciliation_audit", "outbox_id", "int8");
  ("middleware_reconciliation_audit", "tenant_id", "text");
  ("middleware_reconciliation_audit", "action", "text");
  ("middleware_reconciliation_audit", "operator_id", "text");
  ("middleware_reconciliation_audit", "reason", "text");
  ("middleware_reconciliation_audit", "attempt_count", "int4");
  ("middleware_reconciliation_audit", "created_at", "timestamptz");
  ("middleware_event_ledger", "ledger_id", "int8");
  ("middleware_event_ledger", "tenant_id", "text");
  ("middleware_event_ledger", "tenant_sequence", "int8");
  ("middleware_event_ledger", "event_id", "text");
  ("middleware_event_ledger", "event_type", "text");
  ("middleware_event_ledger", "event_version", "text");
  ("middleware_event_ledger", "source_client_id", "text");
  ("middleware_event_ledger", "correlation_id", "text");
  ("middleware_event_ledger", "causation_id", "text");
  ("middleware_event_ledger", "idempotency_key", "text");
  ("middleware_event_ledger", "semantic_sha256", "bpchar");
  ("middleware_event_ledger", "previous_entry_hash", "bpchar");
  ("middleware_event_ledger", "entry_hash", "bpchar");
  ("middleware_event_ledger", "payload", "jsonb");
  ("middleware_event_ledger", "recorded_at", "timestamptz");
  ("middleware_operation_mutations", "id", "int8");
  ("middleware_operation_mutations", "tenant_id", "text");
  ("middleware_operation_mutations", "command_id", "text");
  ("middleware_operation_mutations", "action", "text");
  ("middleware_operation_mutations", "actor_id", "text");
  ("middleware_operation_mutations", "idempotency_key", "text");
  ("middleware_operation_mutations", "request_sha256", "bpchar");
  ("middleware_operation_mutations", "response_status", "int4");
  ("middleware_operation_mutations", "response_payload", "jsonb");
  ("middleware_operation_mutations", "created_at", "timestamptz");
  ("middleware_control_mutations", "id", "int8");
  ("middleware_control_mutations", "tenant_id", "text");
  ("middleware_control_mutations", "resource_kind", "text");
  ("middleware_control_mutations", "resource_id", "text");
  ("middleware_control_mutations", "action", "text");
  ("middleware_control_mutations", "actor_id", "text");
  ("middleware_control_mutations", "api_version", "text");
  ("middleware_control_mutations", "idempotency_key", "text");
  ("middleware_control_mutations", "request_sha256", "bpchar");
  ("middleware_control_mutations", "response_status", "int4");
  ("middleware_control_mutations", "response_payload", "jsonb");
  ("middleware_control_mutations", "created_at", "timestamptz");
  ("middleware_control_audit", "id", "int8");
  ("middleware_control_audit", "tenant_id", "text");
  ("middleware_control_audit", "resource_kind", "text");
  ("middleware_control_audit", "resource_id", "text");
  ("middleware_control_audit", "action", "text");
  ("middleware_control_audit", "actor_id", "text");
  ("middleware_control_audit", "reason", "text");
  ("middleware_control_audit", "previous_state", "text");
  ("middleware_control_audit", "new_state", "text");
  ("middleware_control_audit", "metadata", "jsonb");
  ("middleware_control_audit", "created_at", "timestamptz");
  ("middleware_outbox_attempt_events", "id", "int8");
  ("middleware_outbox_attempt_events", "outbox_id", "int8");
  ("middleware_outbox_attempt_events", "tenant_id", "text");
  ("middleware_outbox_attempt_events", "attempt_number", "int4");
  ("middleware_outbox_attempt_events", "event_type", "text");
  ("middleware_outbox_attempt_events", "worker_id", "text");
  ("middleware_outbox_attempt_events", "safe_error_code", "text");
  ("middleware_outbox_attempt_events", "fencing_token", "int8");
  ("middleware_outbox_attempt_events", "created_at", "timestamptz")].

(** [PostgresInboxStore.REQUIRED_KEYS] *)
Definition INBOX_KEYS : list Key3 := [
  ("middleware_schema_migrations", "PRIMARY KEY", ["version"]);
  ("middleware_inbox", "PRIMARY KEY", ["tenant_id"; "event_id"]);
  ("middleware_inbox", "UNIQUE", ["tenant_id"; "idempotency_key"]);
  ("middleware_outbox", "PRIMARY KEY", ["id"]);
  ("middleware_outbox", "UNIQUE", ["tenant_id"; "destination"; "idempotency_key"]);
  ("middleware_reconciliation_audit", "PRIMARY KEY", ["id"]);
  ("middleware_event_ledger", "PRIMARY KEY", ["ledger_id"]);
  ("middleware_event_ledger", "UNIQUE", ["tenant_id"; "tenant_sequence"]);
  ("middleware_event_ledger", "UNIQUE", ["tenant_id"; "event_id"]);
  ("middleware_event_ledger", "UNIQUE", ["tenant_id"; "idempotency_key"]);
  ("middleware_operation_mutations", "PRIMARY KEY", ["id"]);
  ("middleware_operation_mutations", "UNIQUE", ["tenant_id"; "command_id"; "action"; "actor_id"; "idempotency_key"]);
  ("middleware_control_mutations", "PRIMARY KEY", ["id"]);
  ("middleware_control_mutations", "UNIQUE", ["tenant_id"; "resource_kind"; "resource_id"; "action"; "actor_id"; "api_version"; "idempotency_key"]);
  ("middleware_control_audit", "PRIMARY KEY", ["id"]);
  ("middleware_outbox_attempt_events", "PRIMARY KEY", ["id"])].

(** [PostgresInboxStore.REQUIRED_TRIGGERS] *)
Definition INBOX_TRIGGERS : list string := [
  "middleware_event_ledger_immutable"; "middleware_command_audit_immutable";
  "middleware_reconciliation_audit_immutable"; "middleware_operation_mutations_immutable";
  "middleware_control_mutations_immutable"; "middleware_control_audit_immutable";
  "middleware_outbox_attempt_events_immutable"].

(** [PostgresCommandStore.REQUIRED_COLUMNS] *)
Definition COMMAND_COLUMNS : list (string * list string) := [
  ("middleware_commands", [
     "command_id"; "tenant_id"; "command_type"; "command_version"; "target"; "requested_by"; "correlation_id";
     "idempotency_key"; "capability"; "payload"; "payload_sha256"; "state"; "provider_operation_id";
     "last_error"; "created_at"; "updated_at"; "queued_at"; "accepted_at"; "completed_at"; "failed_at";
     "resource_version"; "cancelled_at"; "cancellation_reason"; "reconciliation_requested_at";
     "reconciliation_reason"]);
  ("middleware_command_attempts", [
     "id"; "tenant_id"; "command_id"; "attempt_number"; "state"; "provider_operation_id"; "result_payload";
     "error_code"; "error_detail"; "started_at"; "finished_at"]);
  ("middleware_command_audit", [
     "id"; "tenant_id"; "command_id"; "previous_state"; "new_state"; "actor_id"; "reason"; "metadata";
     "created_at"]);
  ("middleware_operation_mutations", [
     "id"; "tenant_id"; "command_id"; "action"; "actor_id"; "idempotency_key"; "request_sha256";
     "response_status"; "response_payload"; "created_at"]);
  ("middleware_command_dead_letters", [
     "id"; "tenant_id"; "command_id"; "attempt_number"; "reason_code"; "error_class"; "terminal_reason";
     "correlation_id"; "principal_id"; "capability"; "poisoned"; "retry_exhausted"; "created_at"]);
  ("middleware_command_replays", [
     "replay_id"; "tenant_id"; "original_command_id"; "replay_command_id"; "requested_by"; "idempotency_key";
     "reason"; "state"; "scheduled_at"; "cancelled_at"; "created_at"])].

(** [PostgresCommandStore.REQUIRED_KEYS] *)
Definition COMMAND_KEYS : list Key3 := [
  ("middleware_commands", "PRIMARY KEY", ["tenant_id"; "command_id"]);
  ("middleware_commands", "UNIQUE", ["tenant_id"; "idempotency_key"]);
  ("middleware_command_attempts", "PRIMARY KEY", ["id"]);
  ("middleware_command_attempts", "UNIQUE", ["tenant_id"; "command_id"; "attempt_number"]);
  ("middleware_command_audit", "PRIMARY KEY", ["id"]);
  ("middleware_operation_mutations", "PRIMARY KEY", ["id"]);
  ("middleware_operation_mutations", "UNIQUE", ["tenant_id"; "command_id"; "action"; "actor_id"; "idempotency_key"]);
  ("middleware_command_dead_letters", "PRIMARY KEY", ["id"]);
  ("middleware_command_dead_letters", "UNIQUE", ["tenant_id"; "command_id"]);
  ("middleware_command_replays", "PRIMARY KEY", ["replay_id"]);
  ("middleware_command_replays", "UNIQUE", ["tenant_id"; "original_command_id"; "idempotency_key"])].

(** [PostgresCommandStore.REQUIRED_TRIGGERS] *)
Definition COMMAND_TRIGGERS : list string := [
  "middleware_command_audit_immutable"; "middleware_operation_mutations_immutable";
  "middleware_command_dead_letters_immutable"].

(** ** The queries *)

Definition column_names (cat : Catalogue) (table : string) : list string :=
  map (fun r => snd (fst r)) (List.filter (fun r => String.eqb (fst (fst r)) table) (cat_columns cat)).
Definition missing_columns (cat : Catalogue) (table : string) (required : list string) : list string :=
  List.filter (fun c => negb (mem_string c (column_names cat table))) required.

(** [types.get((table, column))]: the last row read *)
Definition column_type (cat : Catalogue) (table column : string) : option string :=
  snd <$> last (List.filter (fun r => String.eqb (fst (fst r)) table && String.eqb (snd (fst r)) column)
                  (cat_columns cat)).

Definition missing_keys (cat : Catalogue) (required : list Key3) : list Key3 :=
  List.filter (fun k => negb (bool_decide (k ∈ cat_keys cat))) required.

(** the required triggers that fire for ordinary writes *)
Definition enabled_triggers (cat : Catalogue) (required : list string) : list string :=
  map fst (List.filter (fun t => mem_string (fst t) required && String.eqb (snd t) "O") (cat_triggers cat)).

(** ** The words of the refusals *)

(** [repr] of a list, of a tuple and of an optional string *)
Definition py_list (l : list string) : string := "[" +:+ join ", " l +:+ "]".
Definition py_tuple (l : list string) : string :=
  match l with [x] => "(" +:+ x +:+ ",)" | _ => "(" +:+ join ", " l +:+ ")" end.
Definition key_repr (k : Key3) : string :=
  let '(t, kind, cols) := k in py_tuple [repr_string t; repr_string kind; py_tuple (map repr_string cols)].
Definition option_repr (o : option string) : string := match o with Some s => repr_string s | None => "None" end.

(** tuples compare field by field, a prefix first *)
Fixpoint names_le (a b : list string) : bool :=
  match a, b with
  | [], _ => true
  | _ :: _, [] => false
  | x :: a, y :: b => if String.eqb x y then names_le a b else String.leb x y
  end.
Definition key_le (a b : Key3) : bool :=
  names_le (fst (fst a) :: snd (fst a) :: snd a) (fst (fst b) :: snd (fst b) :: snd b).

(** ** [PostgresInboxStore.verify_schema] *)

Fixpoint check_columns (cat : Catalogue) (l : list (string * list string)) : outcome unit :=
  match l with
  | [] => Ret tt
  | (table, required) :: l' =>
      match missing_columns cat table required with
      | [] => check_columns cat l'
      | missing => Exc (Exn StorageError ("runtime schema table " +:+ table +:+ " is missing columns: " +:+
                                          py_list (map repr_string (sorted_by String.leb missing))))
      end
  end.

Fixpoint check_types (cat : Catalogue) (l : list (string * string * string)) : outcome unit :=
  match l with
  | [] => Ret tt
  | (table, column, expected) :: l' =>
      if bool_decide (column_type cat table column = Some expected) then check_types cat l'
      else Exc (Exn StorageError ("runtime schema type mismatch for " +:+ table +:+ "." +:+ column +:+
                                  ": expected " +:+ expected +:+ ", got " +:+
                                  option_repr (column_type cat table column)))
  end.

Definition verify_schema (cat : Catalogue) : outcome unit :=
  if negb (bool_decide (cat_head cat = Some RUNTIME_SCHEMA_VERSION))
  then Exc (Exn StorageError ("runtime schema head mismatch: expected " +:+ pretty RUNTIME_SCHEMA_VERSION +:+
                              ", got " +:+ match cat_head cat with Some n => pretty n | None => "None" end))
  else match check_columns cat INBOX_COLUMNS with
  | Exc e => Exc e
  | Ret _ =>
      match check_types cat REQUIRED_UDT_TYPES with
      | Exc e => Exc e
      | Ret _ =>
          match missing_keys cat INBOX_KEYS with
          | [] =>
              if negb (same_names (enabled_triggers cat INBOX_TRIGGERS) INBOX_TRIGGERS)
              then Exc (Exn StorageError "runtime schema is missing enabled immutable-ledger triggers")
              else Ret tt
          | missing => Exc (Exn StorageError ("runtime schema is missing key constraints: " +:+
                                              py_list (map key_repr (sorted_by key_le missing))))
          end
      end
  end.

(** a database that does not answer is not ready *)
Definition inbox_ready (cat : Catalogue) : bool :=
  cat_reachable cat && match verify_schema cat with Ret _ => true | Exc _ => false end.

(** ** [PostgresCommandStore.ready] *)

Definition command_ready (cat : Catalogue) : bool :=
  cat_reachable cat &&
  match cat_head cat with
  | Some head =>
      negb (head <? 9) &&
      negb (existsb (fun tc => match missing_columns cat (fst tc) (snd tc) with [] => false | _ => true end)
              COMMAND_COLUMNS) &&
      match missing_keys cat COMMAND_KEYS with [] => true | _ => false end &&
      same_names (enabled_triggers cat COMMAND_TRIGGERS) COMMAND_TRIGGERS
  | None => false
  end.

(** ** Properties of the readiness checks *)

(** ** What the checks decide *)

Lemma missing_columns_nil cat t l : missing_columns cat t l = [] <-> forall c, c ∈ l -> c ∈ column_names cat t.
Proof.
  unfold missing_columns, mem_string. induction l as [|x l IH]; simpl.
  - split; [by intros _ c ?%elem_of_nil|done].
  - case_bool_decide as Hx; simpl.
    + rewrite IH. split; [|intros H c Hc; apply H; by right].
      intros H c [->|Hc]%elem_of_cons; [done|by apply H].
    + split; [done|]. intros H. exfalso. apply Hx, H. left.
Qed.

Lemma missing_keys_nil cat l : missing_keys cat l = [] <-> forall k, k ∈ l -> k ∈ cat_keys cat.
Proof.
  unfold missing_keys. induction l as [|x l IH]; simpl.
  - split; [by intros _ k ?%elem_of_nil|done].
  - case_bool_decide as Hx; simpl.
    + rewrite IH. split; [|intros H k Hk; apply H; by right].
      intros H k [->|Hk]%elem_of_cons; [done|by apply H].
    + split; [done|]. intros H. exfalso. apply Hx, H. left.
Qed.

Lemma enabled_spec cat l :
  same_names (enabled_triggers cat l) l = true <-> forall t, t ∈ l -> (t, "O"%string) ∈ cat_triggers cat.
Proof.
  assert (forall t, t ∈ enabled_triggers cat l <-> t ∈ l /\ (t, "O"%string) ∈ cat_triggers cat) as Hen.
  { intros t. unfold enabled_triggers, mem_string. rewrite list_elem_of_In, in_map_iff. split.
    - intros ([x o] & <- & Hin). apply filter_In in Hin as [Hin Hc]. simpl in Hc.
      apply andb_prop in Hc as [Hl Ho]. apply bool_decide_eq_true in Hl. apply String.eqb_eq in Ho. subst o.
      split; [done|by apply list_elem_of_In].
    - intros [Hl Hin]. exists (t, "O"%string). split; [done|]. apply filter_In. split; [by apply list_elem_of_In|].
      simpl. by rewrite bool_decide_eq_true_2. }
  unfold same_names, mem_string. rewrite andb_true_iff, !forallb_forall. split.
  - intros [_ H] t Ht. apply Hen. apply list_elem_of_In in Ht. specialize (H t Ht). by apply bool_decide_eq_true in H.
  - intros H. split; intros t Ht; apply bool_decide_eq_true, list_elem_of_In in Ht || apply list_elem_of_In in Ht;
      apply bool_decide_eq_true; [by apply Hen|apply Hen; split; [done|by apply H]].
Qed.

Lemma check_columns_ok cat l :
  check_columns cat l = Ret tt <-> forall t cs c, (t, cs) ∈ l -> c ∈ cs -> c ∈ column_names cat t.
Proof.
  induction l as [|[t cs] l IH]; simpl; [by split; [intros _ ? ? ? ?%elem_of_nil|]|].
  destruct (missing_columns cat t cs) as [|m ms] eqn:Hm.
  - rewrite IH. pose proof (proj1 (missing_columns_nil cat t cs) Hm) as Hm'. split.
    + intros H t' cs' c [[= -> ->]|Hin]%elem_of_cons Hc; [by apply Hm'|by eapply H].
    + intros H t' cs' c Hin Hc. eapply H; [by right|done].
  - split; [done|]. intros H. exfalso. assert (missing_columns cat t cs = []) as Hn; [|congruence].
    apply missing_columns_nil. intros c Hc. eapply H; [left|done].
Qed.

Lemma check_types_ok cat l :
  check_types cat l = Ret tt <-> forall t c ty, (t, c, ty) ∈ l -> column_type cat t c = Some ty.
Proof.
  induction l as [|[[t c] ty] l IH]; simpl; [by split; [intros _ ? ? ? ?%elem_of_nil|]|].
  case_bool_decide as Hc.
  - rewrite IH. split.
    + intros H t' c' ty' [[= -> -> ->]|Hin]%elem_of_cons; [done|by apply H].
    + intros H t' c' ty' Hin. apply H. by right.
  - split; [done|]. intros H. exfalso. apply Hc, H. left.
Qed.

Lemma column_type_name cat t c ty : column_type cat t c = Some ty -> c ∈ column_names cat t.
Proof.
  unfold column_type. destruct (last _) as [[[t' c'] ty']|] eqn:Hl; [|done]. intros _.
  apply last_Some in Hl as [l' Hl].
  assert (In (t', c', ty') (List.filter (fun r => String.eqb (fst (fst r)) t && String.eqb (snd (fst r)) c) (cat_columns cat))) as Hin.
  { rewrite Hl. apply in_or_app. right. by left. }
  apply filter_In in Hin as [Hin Hc]. apply andb_prop in Hc as [Ht Hc]. simpl in Ht, Hc.
  apply String.eqb_eq in Ht, Hc. subst. unfold column_names. rewrite list_elem_of_In, in_map_iff.
  exists (t, c, ty'). split; [done|]. apply filter_In. split; [done|]. simpl. by rewrite String.eqb_refl.
Qed.

(** ** The requirements *)

(** a decidable fact about the constants *)
Ltac decided := refine (bool_decide_unpack _ _); vm_compute; exact I.

Definition required_pairs (l : list (string * list string)) : list (string * string) :=
  concat (map (fun tc => map (fun c => (fst tc, c)) (snd tc)) l).
Definition keyed_pairs (l : list Key3) : list (string * string) :=
  concat (map (fun k => map (fun c => (fst (fst k), c)) (snd k)) l).

Lemma required_pairs_elem l t c : (t, c) ∈ required_pairs l <-> exists cs, (t, cs) ∈ l /\ c ∈ cs.
Proof.
  unfold required_pairs. rewrite list_elem_of_In, in_concat. split.
  - intros (x & Hx & Hin). apply in_map_iff in Hx as ([t' cs] & <- & Hl). simpl in Hin.
    apply in_map_iff in Hin as (c' & [= -> ->] & Hc). exists cs. by rewrite !list_elem_of_In.
  - intros (cs & Hl & Hc). exists (map (fun c => (t, c)) cs). rewrite !list_elem_of_In in *. split.
    + apply in_map_iff. by exists (t, cs).
    + apply in_map_iff. by exists c.
Qed.

Lemma incl_by_computation {A} `{EqDecision A} (a b : list A) :
  forallb (fun x => bool_decide (x ∈ b)) a = true -> forall x, x ∈ a -> x ∈ b.
Proof.
  intros H x Hx. rewrite forallb_forall in H. apply list_elem_of_In in Hx. apply H in Hx.
  by apply bool_decide_eq_true in Hx.
Qed.

(** every typed column is required, and every required one is typed *)
Lemma typed_required : required_pairs INBOX_COLUMNS ≡ₚ map fst REQUIRED_UDT_TYPES.
Proof.
  apply NoDup_Permutation; [decided..|]. intros x. split; apply incl_by_computation; vm_compute; reflexivity.
Qed.

Lemma required_typed t c : (t, c) ∈ required_pairs INBOX_COLUMNS <-> exists ty, (t, c, ty) ∈ REQUIRED_UDT_TYPES.
Proof.
  rewrite typed_required, list_elem_of_In, in_map_iff. split.
  - intros ([[t' c'] ty] & [= -> ->] & Hin). exists ty. by apply list_elem_of_In.
  - intros [ty Hin]. exists (t, c, ty). by rewrite <- list_elem_of_In.
Qed.

(** The requirements of the stores are coherent: the inbox requires exactly one
    type of each column it requires and of no other, every key it or the command
    store requires is over columns that are required, the two stores require the
    same of the table they share, and no requirement is stated twice *)
Theorem schema_requirements_coherent :
  (forall t c, (t, c) ∈ required_pairs INBOX_COLUMNS <-> exists ty, (t, c, ty) ∈ REQUIRED_UDT_TYPES) /\
  NoDup (map fst REQUIRED_UDT_TYPES) /\
  (forall t c, (t, c) ∈ keyed_pairs INBOX_KEYS -> (t, c) ∈ required_pairs INBOX_COLUMNS) /\
  (forall t c, (t, c) ∈ keyed_pairs COMMAND_KEYS -> (t, c) ∈ required_pairs COMMAND_COLUMNS) /\
  (forall t cs cs', (t, cs) ∈ INBOX_COLUMNS -> (t, cs') ∈ COMMAND_COLUMNS -> cs = cs') /\
  NoDup INBOX_KEYS /\ NoDup COMMAND_KEYS /\ NoDup INBOX_TRIGGERS /\ NoDup COMMAND_TRIGGERS.
Proof.
  split_and!.
  - apply required_typed.
  - decided.
  - intros t c. apply incl_by_computation. vm_compute. reflexivity.
  - intros t c. apply incl_by_computation. vm_compute. reflexivity.
  - assert (forallb (fun a => forallb (fun b => negb (String.eqb (fst a) (fst b)) || bool_decide (snd a = snd b)) COMMAND_COLUMNS)
      INBOX_COLUMNS = true) as H by (vm_compute; reflexivity).
    intros t cs cs' Ha Hb. rewrite forallb_forall in H. apply list_elem_of_In in Ha, Hb. apply H in Ha.
    rewrite forallb_forall in Ha. apply Ha in Hb. simpl in Hb. rewrite String.eqb_refl in Hb.
    by apply bool_decide_eq_true in Hb.
  - decided.
  - decided.
  - decided.
  - decided.
Qed.

#[local] Opaque INBOX_COLUMNS INBOX_KEYS INBOX_TRIGGERS REQUIRED_UDT_TYPES.
#[local] Opaque COMMAND_COLUMNS COMMAND_KEYS COMMAND_TRIGGERS.

(** [verify_schema] accepts exactly the databases at the runtime's own migration
    that have every required column at its type, every required key and every
    immutability trigger enabled; it refuses every other one with [StorageError] *)
Theorem verify_schema_exact cat :
  (verify_schema cat = Ret tt <->
   cat_head cat = Some RUNTIME_SCHEMA_VERSION /\
   (forall t c ty, (t, c, ty) ∈ REQUIRED_UDT_TYPES -> column_type cat t c = Some ty) /\
   (forall k, k ∈ INBOX_KEYS -> k ∈ cat_keys cat) /\
   (forall t, t ∈ INBOX_TRIGGERS -> (t, "O"%string) ∈ cat_triggers cat)) /\
  (verify_schema cat = Ret tt \/ exists msg, verify_schema cat = Exc (Exn StorageError msg)).
Proof.
  rewrite <- missing_keys_nil, <- enabled_spec, <- check_types_ok.
  assert (check_types cat REQUIRED_UDT_TYPES = Ret tt -> check_columns cat INBOX_COLUMNS = Ret tt) as Hcols.
  { rewrite check_types_ok, check_columns_ok. intros Ht t cs c Hin Hc.
    destruct (proj1 (required_typed t c)) as [ty Hty]; [apply required_pairs_elem; by exists cs|].
    by eapply column_type_name, Ht. }
  assert (check_columns cat INBOX_COLUMNS = Ret tt \/ exists msg, check_columns cat INBOX_COLUMNS = Exc (Exn StorageError msg)) as Hc.
  { generalize INBOX_COLUMNS as l. induction l as [|[t cs] l IH]; simpl; [by left|].
    destruct (missing_columns cat t cs); [done|right; by eexists]. }
  assert (check_types cat REQUIRED_UDT_TYPES = Ret tt \/ exists msg, check_types cat REQUIRED_UDT_TYPES = Exc (Exn StorageError msg)) as Ht.
  { generalize REQUIRED_UDT_TYPES as l. induction l as [|[[t c] ty] l IH]; simpl; [by left|].
    case_bool_decide; [done|right; by eexists]. }
  unfold verify_schema. case_bool_decide as Hh; cbn [negb].
  2: { split; [|right; by eexists]. split; [done|]. by intros (? & _). }
  destruct Ht as [Ht|[mt Ht]].
  2: { destruct Hc as [->|[mc ->]]; rewrite ?Ht; (split; [split; [done|by intros (_ & ? & _)]|right; by eexists]). }
  rewrite Hcols, Ht by done. destruct (missing_keys cat INBOX_KEYS) as [|k ks]; [|split; [|right; by eexists]].
  - destruct (same_names _ _); cbn [negb]; (split; [|(by left) || (right; by eexists)]); [done|].
    split; [done|]. by intros (_ & _ & _ & ?).
  - split; [done|]. by intros (_ & _ & ? & _).
Qed.

(** a database after migrations that only add *)
Record additive (cat cat' : Catalogue) : Prop := {
  ad_reachable : cat_reachable cat' = true;
  ad_head : forall n, cat_head cat = Some n -> exists n', cat_head cat' = Some n' /\ n <= n';
  ad_columns : forall x, x ∈ cat_columns cat -> x ∈ cat_columns cat';
  ad_keys : forall k, k ∈ cat_keys cat -> k ∈ cat_keys cat';
  ad_triggers : forall t, t ∈ cat_triggers cat -> t ∈ cat_triggers cat';
}.

Lemma column_names_additive cat cat' t c : additive cat cat' -> c ∈ column_names cat t -> c ∈ column_names cat' t.
Proof.
  intros A. unfold column_names. rewrite !list_elem_of_In, !in_map_iff. intros (x & <- & Hx). exists x. split; [done|].
  apply filter_In in Hx as [Hx Ht]. apply filter_In. split; [|done]. apply list_elem_of_In, (ad_columns _ _ A).
  by apply list_elem_of_In.
Qed.

(** Later additive migrations never make the command store unready, and each of
    them makes the inbox unready: [command_ready] is kept by every migration that
    only adds, while [verify_schema] refuses every head but its own *)
Theorem additive_migration cat cat' :
  additive cat cat' ->
  (command_ready cat = true -> command_ready cat' = true) /\
  (cat_head cat' <> Some RUNTIME_SCHEMA_VERSION -> inbox_ready cat' = false).
Proof.
  intros A. split.
  - unfold command_ready. rewrite (ad_reachable _ _ A). intros [_ H]%andb_prop. cbn [andb].
    destruct (cat_head cat) as [n|] eqn:Hn; [|done]. destruct (ad_head _ _ A n Hn) as (n' & -> & Hle).
    apply andb_prop in H as [[[Hv Hcol]%andb_prop Hkey]%andb_prop Htr].
    rewrite !andb_true_iff. split_and!.
    + rewrite negb_true_iff in *. lia.
    + rewrite negb_true_iff in *. apply not_true_iff_false. intros Hex. apply not_true_iff_false in Hcol. apply Hcol.
      apply existsb_exists in Hex as ([t cs] & Hin & Hm). apply existsb_exists. exists (t, cs). split; [done|].
      simpl in *. destruct (missing_columns cat t cs) eqn:Hmc; [|done]. exfalso.
      assert (missing_columns cat' t cs = []) as Hn'; [|by rewrite Hn' in Hm].
      apply missing_columns_nil. intros c Hc. eapply column_names_additive; [done|]. by apply (missing_columns_nil cat t cs).
    + destruct (missing_keys cat COMMAND_KEYS) eqn:Hk; [|done].
      assert (missing_keys cat' COMMAND_KEYS = []) as ->; [|done].
      apply missing_keys_nil. intros k Hin. apply (ad_keys _ _ A). by apply (missing_keys_nil cat COMMAND_KEYS).
    + apply enabled_spec. intros t Ht. apply (ad_triggers _ _ A). by apply (enabled_spec cat COMMAND_TRIGGERS).
  - intros Hh. unfold inbox_ready, verify_schema. rewrite bool_decide_eq_false_2 by done. by rewrite andb_false_r.
Qed.

(** ** A concrete catalogue *)

(** exactly what the two stores require, at head [n] *)
Definition migrated (n : Z) : Catalogue := {|
  cat_reachable := true; cat_head := Some n;
  cat_columns := REQUIRED_UDT_TYPES ++ map (fun tc => (tc, "text"%string)) (required_pairs COMMAND_COLUMNS);
  cat_keys := INBOX_KEYS ++ COMMAND_KEYS;
  cat_triggers := map (fun t => (t, "O"%string)) (INBOX_TRIGGERS ++ COMMAND_TRIGGERS) |}.

Lemma additive_migration_witness :
  additive (migrated 15) (migrated 16) /\ command_ready (migrated 16) = true /\ inbox_ready (migrated 16) = false.
Proof.
  assert (additive (migrated 15) (migrated 16)) as A.
  { split; [reflexivity| |exact (fun _ H => H)..]. intros n Hn. exists 16. split; [reflexivity|].
    injection Hn as <-. discriminate. }
  destruct (additive_migration (migrated 15) (migrated 16) A) as [Hc Hi]. split; [exact A|]. split.
  - apply Hc. vm_compute. reflexivity.
  - apply Hi. discriminate.
Defined.
