(* ===== verification/AutomationPolicy.v ===== *)
(** * The source policy of the automation machines

    [src/app/automation_policy.py]: an [AutomationPolicy] is read from a JSON
    document, checked against the invariants the program relies on, and then decides
    which machine may act on which workflow family and issue which command.  Reading
    the file is left out: the document is the argument. *)

From stdpp Require Import pretty.
From Stdlib Require Import Ascii.
From S2P Require Import Prelude Json PyValue Commands Principal Registry.

(** ** Constants *)

Definition FORBIDDEN_GENERIC_SCOPES : list string :=
  ["*"; "execute"; "command"; "automation.execute"; "automation.command"; "middleware.execute"; "middleware.command"].

Definition EXPECTED_INVARIANTS : pydict := map (fun k => (JStr k, JBool (String.eqb k "active_lease_required_for_steps_and_commands"))) [
  "generic_execute_scope_allowed";
  "generic_command_scope_allowed";
  "client_can_claim_other_family";
  "caller_tenant_authoritative";
  "caller_actor_authoritative";
  "active_lease_required_for_steps_and_commands";
  "public_provider_callbacks_to_n8n";
  "workflow_activation_enables_capability";
  "live_apply_authorized"].

Definition EXPECTED_CONTEXT : pydict := [
  (JStr "tenant", JStr "automation_job.tenant_id");
  (JStr "actor", JStr "automation_job.actor_context");
  (JStr "workflow_family", JStr "automation_job.workflow_family");
  (JStr "workflow_version", JStr "automation_job.workflow_version");
  (JStr "caller_tenant_assertion_authoritative", JBool false);
  (JStr "caller_actor_assertion_authoritative", JBool false)].

Definition EXPECTED_CLIENT_IDS : list string := [
  "n8n-platform-runtime";
  "n8n-identity-automation";
  "n8n-crm-automation";
  "n8n-telephony-automation";
  "n8n-messaging-automation";
  "n8n-social-automation";
  "n8n-crawler-automation";
  "n8n-product-automation";
  "n8n-privacy-automation";
  "n8n-operations-automation"].

Definition EXPECTED_OPERATION_IDS : list string := [
  "POST /v2/automation/jobs/claim";
  "GET /v2/automation/jobs/{job_id}";
  "POST /v2/automation/jobs/{job_id}/heartbeat";
  "POST /v2/automation/jobs/{job_id}/steps";
  "POST /v2/automation/jobs/{job_id}/complete";
  "POST /v2/automation/jobs/{job_id}/fail";
  "POST /v2/automation/commands";
  "GET /v2/automation/commands/{command_id}";
  "POST /v2/automation/approvals";
  "GET /v2/automation/approvals/{approval_id}";
  "POST /v2/automation/dead-letters/{dead_letter_id}/replay";
  "POST /v2/automation/jobs/reconcile";
  "GET /v2/automation/capabilities/{capability}"].

(** ** Data; a [frozenset] is the list of its names, compared as a set *)

Record AutomationClientPolicy := mkClient {
  client_id : string;
  client_workflow_families : list string;
  command_prefixes : list string;
  client_scopes : list string;
}.

Record CommandFamilyPolicy := mkFamily {
  family_prefix : string;
  family_scope : string;
  family_client_id : string;
  family_workflow_families : list string;
}.

Inductive AllowedClients :=
  | AllowedName (name : string)
  | AllowedList (clients : list string).

Record OperationPolicy := mkOperation {
  operation_method : string;
  operation_path : string;
  operation_scope : string;
  allowed_clients : AllowedClients;
  required_fields : list string;
  constraints : list string;
}.

Definition operation_id (o : OperationPolicy) : string := operation_method o +:+ " " +:+ operation_path o.

Record AutomationPolicy := mkAutomationPolicy {
  schema_version : string;
  policy_status : string;
  issuer : string;
  policy_audience : string;
  maximum_access_token_lifetime_seconds : option json;
  scope_resolution : string;
  authoritative_context : pydict;
  product_boundaries : pydict;
  invariants : pydict;
  clients : list (string * AutomationClientPolicy);
  operations : list OperationPolicy;
  command_families : list CommandFamilyPolicy;
  families_ : list CommandFamilyPolicy;
}.

(** ** Helpers *)

Abbreviation policy_error msg := (Exc (Exn AutomationPolicyError msg)).
Abbreviation unauthorized msg := (Exc (Exn AutomationAuthorizationError msg)).

(** [_require] *)
Definition require (condition : bool) (message : string) : outcome unit :=
  if condition then Ret tt else policy_error message.

(** [_is_generic] *)
Definition is_generic (scope : string) : bool := mem_string scope FORBIDDEN_GENERIC_SCOPES || has_char "*" scope.

Definition json_list (value : option json) : option (list json) :=
  match value with Some (JArr l) => Some l | _ => None end.

Definition normalized (s : string) : bool := str_nonempty s && String.eqb (strip s) s.

(** [_strings] *)
Definition strings (value : option json) (label : string) (allow_empty : bool) : outcome (list string) :=
  match json_list value with
  | None => policy_error (label +:+ " must be a list")
  | Some l =>
      require (forallb (fun item => match item with JStr s => normalized s | _ => false end) l)
              (label +:+ " must contain normalized strings") ??;
      let result := json_strings l in
      require (bool_decide (NoDup result)) (label +:+ " contains duplicates") ??;
      require (allow_empty || negb (bool_decide (result = []))) (label +:+ " must not be empty") ??;
      Ret result
  end.

(** [_token_scopes] *)
Definition token_scopes (value : option json) : outcome (list string) :=
  let raw := match value with
             | Some (JStr s) => Some (split s)
             | Some (JArr l) =>
                 if forallb (fun item => match item with JStr _ => true | _ => false end) l
                 then Some (json_strings l) else None
             | _ => None
             end in
  match raw with
  | None => unauthorized "token scope claim is missing or malformed"
  | Some raw =>
      if bool_decide (raw = []) || negb (bool_decide (NoDup raw))
      then unauthorized "token scopes must be non-empty and unique"
      else if existsb (fun item => negb (normalized item)) raw
      then unauthorized "token scopes must be normalized"
      else
        let generic := sorted_strings (List.filter is_generic raw) in
        if negb (bool_decide (generic = []))
        then unauthorized ("generic or wildcard machine scopes are prohibited: " +:+ join ", " generic)
        else Ret raw
  end.

(** [str.upper] of an ASCII text *)
Definition upper_char (c : ascii) : ascii :=
  let n := nat_of_ascii c in if (97 <=? n)%nat && (n <=? 122)%nat then ascii_of_nat (n - 32) else c.
Fixpoint upper (s : string) : string :=
  match s with EmptyString => EmptyString | String c s' => String (upper_char c) (upper s') end.

Definition ends_with_dot (s : string) : bool :=
  match String.get (String.length s - 1) s with Some c => Ascii.eqb c "." | None => false end.

(** [value.get(key, default)], [str] of it *)
Definition get_or (key : string) (default : json) (d : jdict) : json := from_option id default (dict_get key d).
Definition get_str (key : string) (d : jdict) : string := py_str (get_or key (JStr "") d).

(** ** [from_mapping] *)

Definition load_client (kv : string * json) : outcome AutomationClientPolicy :=
  let cid := fst kv in
  require (str_nonempty cid && negb (has_char "*" cid)) "invalid automation client ID" ??;
  match snd kv with
  | JObj value =>
      let? scopes := strings (dict_get "scopes" value) (cid +:+ ".scopes") false in
      require (negb (existsb is_generic scopes)) (cid +:+ ": generic scopes are prohibited") ??;
      let? families := strings (dict_get "workflow_families" value) (cid +:+ ".workflow_families") false in
      let? prefixes := strings (dict_get "command_prefixes" value) (cid +:+ ".command_prefixes") true in
      Ret (mkClient cid families prefixes scopes)
  | _ => policy_error (cid +:+ ": policy must be an object")
  end.

Definition load_operation (index : nat) (v : json) : outcome OperationPolicy :=
  let label := "operations[" +:+ pretty index +:+ "]" in
  match v with
  | JObj value =>
      let? allowed := match dict_get "allowed_clients" value with
                      | Some (JStr s) => Ret (AllowedName s)
                      | allowed => let? l := strings allowed (label +:+ ".allowed_clients") false in Ret (AllowedList l)
                      end in
      let? fields := strings (Some (get_or "required_fields" (JArr []) value)) (label +:+ ".required_fields") true in
      let? cs := strings (dict_get "constraints" value) (label +:+ ".constraints") false in
      Ret (mkOperation (get_str "method" value) (get_str "path" value) (get_str "scope" value) allowed fields cs)
  | _ => policy_error (label +:+ " must be an object")
  end.

Definition load_family (index : nat) (v : json) : outcome CommandFamilyPolicy :=
  let label := "command_families[" +:+ pretty index +:+ "]" in
  match v with
  | JObj value =>
      let? families := strings (dict_get "workflow_families" value) (label +:+ ".workflow_families") false in
      Ret (mkFamily (get_str "prefix" value) (get_str "scope" value) (get_str "client" value) families)
  | _ => policy_error (label +:+ " must be an object")
  end.

(** longer prefixes first *)
Definition longer_prefix (a b : CommandFamilyPolicy) : bool :=
  (String.length (family_prefix b) <=? String.length (family_prefix a))%nat.

(** the constructor *)
Definition make_policy (source : jdict) (cs : list (string * AutomationClientPolicy)) (ops : list OperationPolicy)
    (fams : list CommandFamilyPolicy) : outcome AutomationPolicy :=
  let? context := dict_of (get_or "authoritative_context" (JObj []) source) in
  let? boundaries := dict_of (get_or "product_boundaries" (JObj []) source) in
  let? invs := dict_of (get_or "invariants" (JObj []) source) in
  Ret {| schema_version := get_str "schema_version" source; policy_status := get_str "status" source;
         issuer := get_str "issuer" source; policy_audience := get_str "audience" source;
         maximum_access_token_lifetime_seconds := dict_get "maximum_access_token_lifetime_seconds" source;
         scope_resolution := get_str "scope_resolution" source; authoritative_context := context;
         product_boundaries := boundaries; invariants := invs; clients := cs; operations := ops;
         command_families := fams; families_ := sorted_by longer_prefix fams |}.

(** [operation] *)
Definition operation (p : AutomationPolicy) (method path : string) : outcome OperationPolicy :=
  let wanted := upper method +:+ " " +:+ path in
  match List.find (fun o => String.eqb (operation_id o) wanted) (operations p) with
  | Some o => Ret o
  | None => policy_error ("unknown automation operation: " +:+ wanted)
  end.

(** ** [assert_contract_invariants], in the order of its sections *)

Definition is_value (v : option json) (w : json) : bool := match v with Some x => py_eqb x w | None => false end.

Definition check_document (p : AutomationPolicy) : outcome unit :=
  require (String.eqb (schema_version p) "2.2") "automation schema must remain 2.2" ??;
  require (String.eqb (policy_status p) "SOURCE_ONLY") "automation policy must remain SOURCE_ONLY" ??;
  require (String.eqb (issuer p) "https://auth.codestra.co/realms/codestra") "automation issuer drift" ??;
  require (String.eqb (policy_audience p) "middleware-api") "automation audience drift" ??;
  require (is_value (maximum_access_token_lifetime_seconds p) (JInt 300)) "machine token lifetime must remain 300 seconds" ??;
  require (String.eqb (scope_resolution p) "client_scopes_are_exact_no_implicit_union") "scope resolution must remain exact" ??;
  require (pydict_eqb (authoritative_context p) EXPECTED_CONTEXT) "authoritative context drift" ??;
  require (pydict_eqb (invariants p) EXPECTED_INVARIANTS) "automation invariant set drift" ??;
  require (same_names (map fst (clients p)) EXPECTED_CLIENT_IDS) "automation client set drift".

Definition check_operation (p : AutomationPolicy) (o : OperationPolicy) : outcome unit :=
  require (String.eqb (operation_method o) (upper (operation_method o)) &&
           starts_with "/v2/automation/" (operation_path o) && str_nonempty (operation_scope o))
          ("invalid operation: " +:+ operation_id o) ??;
  match allowed_clients o with
  | AllowedList l => require (forallb (fun c => mem_string c (map fst (clients p))) l) (operation_id o +:+ ": unknown client")
  | AllowedName _ => Ret tt
  end.

Definition check_operations (p : AutomationPolicy) : outcome unit :=
  let operation_ids := map operation_id (operations p) in
  require (same_names operation_ids EXPECTED_OPERATION_IDS) "automation operation set drift" ??;
  require (bool_decide (NoDup operation_ids)) "duplicate operation IDs" ??;
  for_each (check_operation p) (operations p).

Definition check_prefix (prefixes : list string) (left : string) : outcome unit :=
  require (ends_with_dot left && negb (has_char "*" left)) ("invalid prefix: " +:+ left) ??;
  require (forallb (fun right => String.eqb left right || negb (starts_with left right)) prefixes)
          ("ambiguous command prefix: " +:+ left).

Definition check_prefixes (p : AutomationPolicy) : outcome unit :=
  let prefixes := map family_prefix (command_families p) in
  require (length prefixes =? 18)%nat "exactly eighteen command families are required" ??;
  require (bool_decide (NoDup prefixes)) "duplicate command prefix" ??;
  for_each (check_prefix prefixes) prefixes.

Definition subset_names (a b : list string) : bool := forallb (fun x => mem_string x b) a.

Definition check_family (p : AutomationPolicy) (f : CommandFamilyPolicy) : outcome unit :=
  match dict_get (family_client_id f) (clients p) with
  | None => policy_error ("unknown command client: " +:+ family_client_id f)
  | Some c =>
      require (starts_with "automation.command." (family_scope f) && negb (is_generic (family_scope f)) &&
               mem_string (family_scope f) (client_scopes c)) (family_prefix f +:+ ": command scope drift") ??;
      require (subset_names (family_workflow_families f) (client_workflow_families c))
              (family_prefix f +:+ ": workflow family escapes client")
  end.

(** the prefixes of the families of a client *)
Definition observed_prefixes (p : AutomationPolicy) (cid : string) : list string :=
  map family_prefix (List.filter (fun f => String.eqb (family_client_id f) cid) (command_families p)).

Definition declared_scopes (p : AutomationPolicy) : list string := concat (map (fun kv => client_scopes (snd kv)) (clients p)).

Definition check_commands (p : AutomationPolicy) : outcome unit :=
  for_each (check_family p) (command_families p) ??;
  for_each (fun kv => require (same_names (command_prefixes (snd kv)) (observed_prefixes p (fst kv)))
                              (fst kv +:+ ": command prefix registry drift")) (clients p) ??;
  for_each (fun o => require (String.eqb (operation_scope o) "resolved_from_command_prefix" ||
                              mem_string (operation_scope o) (declared_scopes p))
                             (operation_id o +:+ ": unassigned scope")) (operations p).

Definition privileged (c : AutomationClientPolicy) : list string :=
  List.filter (fun s => starts_with "automation.operations." s || starts_with "automation.dead-letter." s) (client_scopes c).

Definition check_isolation (p : AutomationPolicy) : outcome unit :=
  for_each (fun cid => match dict_get cid (clients p) with
    | Some c => require (bool_decide (command_prefixes c = [])) (cid +:+ " cannot issue commands")
    | None => Exc (Exn KeyError (repr_string cid))
    end) ["n8n-platform-runtime"; "n8n-operations-automation"] ??;
  for_each (fun kv => require (Bool.eqb (negb (bool_decide (privileged (snd kv) = []))) (String.eqb (fst kv) "n8n-operations-automation"))
                              (fst kv +:+ ": operations scope isolation drift")) (clients p).

Definition required_command_constraints : list string := [
  "active_lease_required"; "command_prefix_scope_match"; "tenant_and_actor_derived_server_side";
  "capability_rechecked_before_effect"; "exact_replay_returns_original"; "semantic_conflict_rejected"].

Definition check_boundary (kv : json * json) : outcome unit :=
  let name := py_str (fst kv) in
  match snd kv with
  | JObj boundary =>
      for_each (fun flag => require (match dict_get flag boundary with Some (JBool true) => false | _ => true end)
                                    (name +:+ ": " +:+ flag +:+ " must remain false"))
        ["financial_effects_allowed"; "demo_order_effects_allowed"]
  | _ => policy_error (name +:+ ": boundary must be an object")
  end.

Definition assert_contract_invariants (p : AutomationPolicy) : outcome unit :=
  check_document p ??;
  check_operations p ??;
  check_prefixes p ??;
  check_commands p ??;
  check_isolation p ??;
  let? command := operation p "POST" "/v2/automation/commands" in
  require (subset_names required_command_constraints (constraints command)) "automation command constraints drift" ??;
  for_each check_boundary (product_boundaries p).

Definition from_mapping (raw : json) : outcome AutomationPolicy :=
  match raw with
  | JObj source =>
      match dict_get "clients" source with
      | Some (JObj clients_raw) =>
          let? cs := traverse (fun _ kv => let? c := load_client kv in Ret (fst kv, c)) 0 clients_raw in
          match json_list (dict_get "operations" source) with
          | Some operations_raw =>
              let? ops := traverse load_operation 0 operations_raw in
              match json_list (dict_get "command_families" source) with
              | Some families_raw =>
                  let? fams := traverse load_family 0 families_raw in
                  let? policy := make_policy source cs ops fams in
                  assert_contract_invariants policy ??; Ret policy
              | None => policy_error "command_families must be a list"
              end
          | None => policy_error "operations must be a list"
          end
      | _ => policy_error "clients must be an object"
      end
  | _ => policy_error "automation policy must be an object"
  end.

(** ** Authorisation *)

Definition client (p : AutomationPolicy) (cid : string) : outcome AutomationClientPolicy :=
  match dict_get cid (clients p) with
  | Some c => Ret c
  | None => unauthorized "automation client is not declared"
  end.

Definition authorize_token (p : AutomationPolicy) (claims : jdict) (required_scope : string) : outcome AutomationClientPolicy :=
  if negb (is_value (dict_get "iss" claims) (JStr (issuer p)))
  then unauthorized "token issuer does not match automation policy"
  else if negb (is_value (dict_get "aud" claims) (JStr (policy_audience p))) &&
          negb (is_value (dict_get "aud" claims) (JArr [JStr (policy_audience p)]))
  then unauthorized "token audience does not match automation policy"
  else match dict_get "azp" claims with
  | Some (JStr cid) =>
      let? c := client p cid in
      let? scopes := token_scopes (dict_get "scope" claims) in
      let undeclared := List.filter (fun s => negb (mem_string s (client_scopes c))) scopes in
      if negb (bool_decide (undeclared = []))
      then unauthorized ("token contains scopes not declared for its client: " +:+ join ", " (sorted_strings undeclared))
      else if negb (mem_string required_scope scopes)
      then unauthorized "required exact automation scope is missing"
      else Ret c
  | _ => unauthorized "token azp is missing"
  end.

Definition authorize_job_family (p : AutomationPolicy) (claims : jdict) (required_scope workflow_family : string) :
    outcome AutomationClientPolicy :=
  let? c := authorize_token p claims required_scope in
  if negb (mem_string workflow_family (client_workflow_families c))
  then unauthorized "automation client cannot act on another workflow family"
  else Ret c.

Definition resolve_command_family (p : AutomationPolicy) (command_type : string) : outcome CommandFamilyPolicy :=
  if negb (str_nonempty command_type) then unauthorized "command_type is required"
  else match List.find (fun f => starts_with (family_prefix f) command_type) (families_ p) with
  | Some f => Ret f
  | None => unauthorized "command type has no declared command family"
  end.

Definition authorize_command (p : AutomationPolicy) (claims : jdict) (command_type workflow_family : string) :
    outcome CommandFamilyPolicy :=
  let? family := resolve_command_family p command_type in
  let? c := authorize_token p claims (family_scope family) in
  if negb (String.eqb (client_id c) (family_client_id family))
  then unauthorized "automation client cannot issue another command family's command"
  else if negb (mem_string workflow_family (family_workflow_families family))
  then unauthorized "command type is not valid for the job workflow family"
  else Ret family.
