(* ===== verification/Decision.v ===== *)
(** * The production GO/NO_GO decision

    [src/app/production_decision.py] with the control names of
    [src/app/capability_resolution.py] and [src/app/core/config.py], and
    [_store_readback] of [src/app/api/internal/production_decision.py].  What the
    Pydantic models make of a document is an argument: [model_validate] and
    [request_validate]; the validators the program adds to them are definitions. *)

From stdpp Require Import pretty.
From Stdlib Require Import QArith Ascii.
From S2P Require Import Prelude Json PyValue Clock Sha256 Commands Principal Registry.
Local Open Scope Z_scope.

(** ** Constants *)

Definition SCHEMA_VERSION : string := "1.0".
Definition POLICY_VERSION : string := "production-go-no-go.v1".

Inductive EvidenceKind := staging | release_seal | canary | monitoring | rollback | reconciliation | approval.
#[export] Instance EvidenceKind_eq_dec : EqDecision EvidenceKind.
Proof. solve_decision. Defined.

Definition kind_name (k : EvidenceKind) : string :=
  match k with
  | staging => "staging" | release_seal => "release_seal" | canary => "canary" | monitoring => "monitoring"
  | rollback => "rollback" | reconciliation => "reconciliation" | approval => "approval"
  end.
Definition EVIDENCE_KINDS : list EvidenceKind :=
  [staging; release_seal; canary; monitoring; rollback; reconciliation; approval].

Definition MAX_EVIDENCE_AGE (k : EvidenceKind) : Z :=
  match k with
  | staging => days 7
  | release_seal => days 30
  | canary => hours 72
  | monitoring => hours 24
  | rollback => days 7
  | reconciliation => hours 24
  | approval => hours 72
  end.
Definition MAX_CLOCK_SKEW : Z := minutes 5.
Definition MAX_APPROVAL_VALIDITY : Z := days 7.
Definition MIN_CANARY_DURATION_SECONDS : Z := 1800.
(** the binary64 number nearest to 0.01 *)
Definition MAX_CANARY_ERROR_RATE : Q := 5764607523034235 # 576460752303423488.

(** the names of [EXTERNAL_EFFECT_FIELDS] *)
Definition CAPABILITY_CATALOG : list string := [
  "SEND_EVENTS"; "ENABLE_EXTERNAL_DELIVERY"; "LIVE_WRITE"; "LIVE_WRITES"; "ODOO_WRITE"; "CALLBACK_DISPATCH";
  "N8N_DELIVERY_ENABLED"; "VICIDIAL_WRITES_ENABLED"; "EXTERNAL_DIAL_ENABLED"; "PRODUCTION_CALLBACKS_ENABLED";
  "N8N_PRODUCTION_WORKFLOWS_ENABLED"; "FORM_ODOO_DELIVERY_ENABLED"; "CRAWLER_ODOO_DELIVERY_ENABLED";
  "SCRAPPER_ODOO_DELIVERY_ENABLED"; "CRAWLER_EXTERNAL_CONTACT_ENABLED"; "SCRAPPER_EXTERNAL_CONTACT_ENABLED";
  "SMS_DELIVERY_ENABLED"; "WHATSAPP_DELIVERY_ENABLED"; "EMAIL_DELIVERY_ENABLED"; "SOCIAL_DELIVERY_ENABLED";
  "CRAWLER_EXECUTION_ENABLED"; "SCRAPPER_EXECUTION_ENABLED"; "LIVE_SMS_DELIVERY"; "LIVE_EMAIL_DELIVERY";
  "UNRESTRICTED_CRAWLING"].

Definition UMBRELLA_CONTROLS : list string := [
  "LIVE_ADVERTISING_ENABLED"; "EXTERNAL_DELIVERY_ENABLED"; "SOCIAL_PUBLISHING_ENABLED"; "EXTERNAL_MODEL_CALLS_ENABLED";
  "N8N_EXTERNAL_PROVIDER_WRITES"].

Definition UMBRELLA_BY_IMPLEMENTATION : list (string * string) := [
  ("ODOO_WRITE", "EXTERNAL_DELIVERY_ENABLED");
  ("FORM_ODOO_DELIVERY_ENABLED", "EXTERNAL_DELIVERY_ENABLED");
  ("CRAWLER_ODOO_DELIVERY_ENABLED", "EXTERNAL_DELIVERY_ENABLED");
  ("SCRAPPER_ODOO_DELIVERY_ENABLED", "EXTERNAL_DELIVERY_ENABLED");
  ("SMS_DELIVERY_ENABLED", "EXTERNAL_DELIVERY_ENABLED");
  ("EMAIL_DELIVERY_ENABLED", "EXTERNAL_DELIVERY_ENABLED");
  ("LIVE_SMS_DELIVERY", "EXTERNAL_DELIVERY_ENABLED");
  ("LIVE_EMAIL_DELIVERY", "EXTERNAL_DELIVERY_ENABLED");
  ("SOCIAL_DELIVERY_ENABLED", "SOCIAL_PUBLISHING_ENABLED");
  ("N8N_DELIVERY_ENABLED", "N8N_EXTERNAL_PROVIDER_WRITES");
  ("N8N_PRODUCTION_WORKFLOWS_ENABLED", "N8N_EXTERNAL_PROVIDER_WRITES")].

(** [effective_capability_enabled] *)
Definition is_true (v : option json) : bool := match v with Some (JBool true) => true | _ => false end.
Definition effective_capability_enabled (capabilities : jdict) (capability : string) : bool :=
  if negb (str_nonempty capability) || (100 <? String.length capability)%nat then false
  else if mem_string capability UMBRELLA_CONTROLS then false
  else
    let implementation_enabled :=
      match dict_get "runtime" capabilities with
      | Some (JObj runtime) =>
          match dict_get capability runtime with
          | Some v => is_true (Some v)
          | None => is_true (dict_get capability capabilities)
          end
      | _ => is_true (dict_get capability capabilities)
      end in
    if negb implementation_enabled then false
    else match dict_get capability UMBRELLA_BY_IMPLEMENTATION with
    | None => true
    | Some umbrella => is_true (obj_get umbrella (dict_get "umbrella_controls" capabilities))
    end.

(** ** Evidence *)

Record ReleaseIdentity := {
  source_sha : string;
  image_digest : string;
  schema_head : string;
}.

Inductive EvidenceStatus := PASS | FAIL.
#[export] Instance EvidenceStatus_eq_dec : EqDecision EvidenceStatus.
Proof. solve_decision. Defined.

(** the fields each of the seven models adds to [_Evidence] *)
Inductive EvidenceDetail :=
  | StagingEvidence (schema_head : string) (smoke_passed : bool)
  | ReleaseSealEvidence (seal_sha256 signer : string) (signature_verified : bool)
  | CanaryEvidence (capabilities : list string) (duration_seconds : Z) (error_rate : Q)
  | MonitoringEvidence (open_critical_alerts : Z) (alert_routes_verified slo_burn_rate_ok : bool)
  | RollbackEvidence (rehearsed rollback_verified : bool) (rollback_image_digest : string)
  | ReconciliationEvidence (unreconciled_count drift_count : Z)
  | ApprovalEvidence (approved_by : string) (expires_at : instant) (capabilities : list string).

Record Evidence := {
  evidence_id : string;
  ev_status : EvidenceStatus;
  ev_source_sha : string;
  ev_image_digest : string;
  observed_at : instant;
  artifact_sha256 : string;
  artifact_uri : option string;
  detail : EvidenceDetail;
}.

(** the model of a detail *)
Definition detail_kind (d : EvidenceDetail) : EvidenceKind :=
  match d with
  | StagingEvidence _ _ => staging
  | ReleaseSealEvidence _ _ _ => release_seal
  | CanaryEvidence _ _ _ => canary
  | MonitoringEvidence _ _ _ => monitoring
  | RollbackEvidence _ _ _ => rollback
  | ReconciliationEvidence _ _ => reconciliation
  | ApprovalEvidence _ _ _ => approval
  end.

(** ** Requests *)

Record DecisionRequest := {
  release : ReleaseIdentity;
  requested_capabilities : list string;
  evidence : list (string * option jdict);
}.

(** [_capabilities_are_names] and [_known_kinds]: what the program adds to the model *)
Definition capability_name (s : string) : bool :=
  match s with
  | String c s' => char_in 65 90 c && str_forallb (fun x => char_in 65 90 x || char_in 48 57 x || Ascii.eqb x "_") s' &&
                   (String.length s' <=? 99)%nat
  | EmptyString => false
  end.
Definition request_valid (r : DecisionRequest) : bool :=
  forallb capability_name (requested_capabilities r) && bool_decide (NoDup (requested_capabilities r)) &&
  forallb (fun kv => mem_string (fst kv) (map kind_name EVIDENCE_KINDS)) (evidence r).

(** ** Answers *)

Inductive AssessmentStatus := ACCEPTED | MISSING | REJECTED.
#[export] Instance AssessmentStatus_eq_dec : EqDecision AssessmentStatus.
Proof. solve_decision. Defined.

Record EvidenceAssessment := {
  as_kind : EvidenceKind;
  as_status : AssessmentStatus;
  as_reasons : list string;
  as_digest : option string;
  as_evidence_id : option string;
  as_artifact_sha256 : option string;
  as_observed_at : option string;
  as_invalid_fields : option (list string);
}.

Record CapabilityDecision := {
  cd_capability : string;
  cd_go : bool;
  cd_reasons : list string;
  cd_required_umbrella_control : option string;
}.

Record ActivationState := {
  performed : bool;
  capabilities_activated : list string;
  provider_effects_enabled : bool;
  note : string;
}.

Inductive DecisionSource := from_request | evidence_store.
#[export] Instance DecisionSource_eq_dec : EqDecision DecisionSource.
Proof. solve_decision. Defined.

Record DecisionReadback := {
  decision_id : string;
  go : bool;
  authoritative : bool;
  source : DecisionSource;
  evaluated_at : string;
  requested_by : option string;
  rb_release : option ReleaseIdentity;
  reasons : list string;
  assessments : list EvidenceAssessment;
  capabilities : list CapabilityDecision;
  authorized_capabilities : list string;
  denied_capabilities : list string;
  partial : bool;
  activation : ActivationState;
}.

Definition activation_block : ActivationState := {|
  performed := false; capabilities_activated := []; provider_effects_enabled := false;
  note := "decision only; activation is owned by the release controller" |}.

(** ** [evaluate] *)

Definition reason_if (b : bool) (r : string) : list string := if b then [r] else [].

Definition evidence_digest (raw : jdict) : string := sha256_hex (ascii_text (dumps (JObj raw))).

(** the checks of every kind *)
Definition common_reasons (kind : EvidenceKind) (e : Evidence) (r : ReleaseIdentity) (now : instant) : list string :=
  let k := kind_name kind in
  reason_if (negb (bool_decide (ev_status e = PASS))) (k +:+ "_status_not_pass") ++
  reason_if (negb (String.eqb (ev_source_sha e) (source_sha r))) (k +:+ "_source_sha_mismatch") ++
  reason_if (negb (String.eqb (ev_image_digest e) (image_digest r))) (k +:+ "_image_digest_mismatch") ++
  (if now + MAX_CLOCK_SKEW <? observed_at e then [k +:+ "_observed_in_future"]
   else reason_if (MAX_EVIDENCE_AGE kind <? now - observed_at e) (k +:+ "_evidence_stale")).

(** the checks of its model *)
Definition detail_reasons (e : Evidence) (r : ReleaseIdentity) (now : instant) : list string :=
  match detail e with
  | StagingEvidence head smoke_passed =>
      reason_if (negb (String.eqb head (schema_head r))) "staging_schema_head_mismatch" ++
      reason_if (negb smoke_passed) "staging_smoke_failed"
  | ReleaseSealEvidence _ _ signature_verified =>
      reason_if (negb signature_verified) "release_seal_signature_unverified"
  | CanaryEvidence _ duration_seconds error_rate =>
      reason_if (duration_seconds <? MIN_CANARY_DURATION_SECONDS) "canary_duration_insufficient" ++
      reason_if (negb (Qle_bool error_rate MAX_CANARY_ERROR_RATE)) "canary_error_rate_exceeded"
  | MonitoringEvidence open_critical_alerts alert_routes_verified slo_burn_rate_ok =>
      reason_if (negb (open_critical_alerts =? 0)) "monitoring_critical_alerts_open" ++
      reason_if (negb alert_routes_verified) "monitoring_alert_routes_unverified" ++
      reason_if (negb slo_burn_rate_ok) "monitoring_slo_burn_rate_exceeded"
  | RollbackEvidence rehearsed rollback_verified rollback_image_digest =>
      reason_if (negb rehearsed) "rollback_not_rehearsed" ++
      reason_if (negb rollback_verified) "rollback_not_verified" ++
      reason_if (String.eqb rollback_image_digest (image_digest r)) "rollback_target_is_candidate"
  | ReconciliationEvidence unreconciled_count drift_count =>
      reason_if (negb (unreconciled_count =? 0)) "reconciliation_unreconciled_records" ++
      reason_if (negb (drift_count =? 0)) "reconciliation_drift_detected"
  | ApprovalEvidence _ expires_at _ =>
      reason_if (expires_at <=? now) "approval_expired" ++
      reason_if (MAX_APPROVAL_VALIDITY <? expires_at - observed_at e) "approval_validity_too_long"
  end.

Definition missing_assessment (kind : EvidenceKind) : EvidenceAssessment := {|
  as_kind := kind; as_status := MISSING; as_reasons := [kind_name kind +:+ "_evidence_missing"]; as_digest := None;
  as_evidence_id := None; as_artifact_sha256 := None; as_observed_at := None; as_invalid_fields := None |}.

(** [_capability_decision] *)
Definition capability_decision (capability : string) (evidence_ok : bool) (canaried : option (list string))
    (approved : option (string * list string)) (requested_by : string) : CapabilityDecision :=
  let reasons :=
    (if mem_string capability UMBRELLA_CONTROLS then ["umbrella_control_not_grantable"]
     else reason_if (negb (mem_string capability CAPABILITY_CATALOG)) "capability_unknown") ++
    reason_if (negb evidence_ok) "release_evidence_incomplete" ++
    reason_if (match canaried with Some l => negb (mem_string capability l) | None => true end) "capability_not_canaried" ++
    match approved with
    | Some (by_, l) =>
        if negb (mem_string capability l) then ["capability_not_approved"]
        else reason_if (String.eqb by_ requested_by) "approval_not_independent"
    | None => ["capability_not_approved"]
    end in
  {| cd_capability := capability; cd_go := bool_decide (reasons = []); cd_reasons := reasons;
     cd_required_umbrella_control := dict_get capability UMBRELLA_BY_IMPLEMENTATION |}.

Section Engine.
(** [EVIDENCE_MODELS[kind].model_validate]: the evidence, or the places of its errors *)
Variable model_validate : EvidenceKind -> jdict -> Evidence + list (list string).

(** [_assess] *)
Definition assess (kind : EvidenceKind) (raw : option jdict) (r : ReleaseIdentity) (now : instant) :
    EvidenceAssessment * option Evidence :=
  match raw with
  | None => (missing_assessment kind, None)
  | Some raw =>
      let digest := evidence_digest raw in
      match model_validate kind raw with
      | inr locations =>
          let fields := sorted_strings (dedupe (map (fun loc =>
            let path := join "." loc in if str_nonempty path then path else "document") locations)) in
          ({| as_kind := kind; as_status := REJECTED; as_reasons := [kind_name kind +:+ "_evidence_invalid"];
              as_digest := Some digest; as_evidence_id := None; as_artifact_sha256 := None; as_observed_at := None;
              as_invalid_fields := Some fields |}, None)
      | inl e =>
          let reasons := common_reasons kind e r now ++ detail_reasons e r now in
          ({| as_kind := kind; as_status := if bool_decide (reasons = []) then ACCEPTED else REJECTED;
              as_reasons := reasons; as_digest := Some digest; as_evidence_id := Some (evidence_id e);
              as_artifact_sha256 := Some (artifact_sha256 e); as_observed_at := Some (isoformat (observed_at e));
              as_invalid_fields := None |},
           if bool_decide (reasons = []) then Some e else None)
      end
  end.

Definition assess_request (q : DecisionRequest) (now : instant) (kind : EvidenceKind) : EvidenceAssessment * option Evidence :=
  assess kind (mjoin (dict_get (kind_name kind) (evidence q))) (release q) now.

(** the kinds whose evidence was accepted *)
Definition accepted (q : DecisionRequest) (now : instant) : list (EvidenceKind * Evidence) :=
  omap (fun kind => pair kind <$> snd (assess_request q now kind)) EVIDENCE_KINDS.

Definition canaried_capabilities (l : list (EvidenceKind * Evidence)) : option (list string) :=
  match detail <$> dict_get canary l with Some (CanaryEvidence cs _ _) => Some cs | _ => None end.
Definition approved_capabilities (l : list (EvidenceKind * Evidence)) : option (string * list string) :=
  match detail <$> dict_get approval l with Some (ApprovalEvidence by_ _ cs) => Some (by_, cs) | _ => None end.

Definition release_dump (r : ReleaseIdentity) : json :=
  JObj [("source_sha", JStr (source_sha r)); ("image_digest", JStr (image_digest r)); ("schema_head", JStr (schema_head r))].

Definition decision_name (b : bool) : string := if b then "GO" else "NO_GO".

Definition evaluate (q : DecisionRequest) (requester : string) (now : instant) (src : DecisionSource) : DecisionReadback :=
  let results := map (assess_request q now) EVIDENCE_KINDS in
  let acc := accepted q now in
  let evidence_ok := (length acc =? length EVIDENCE_KINDS)%nat in
  let wanted := sorted_strings (requested_capabilities q) in
  let decisions := map (fun name => capability_decision name evidence_ok (canaried_capabilities acc)
                                      (approved_capabilities acc) requester) wanted in
  let authorized := map cd_capability (List.filter cd_go decisions) in
  let denied := map cd_capability (List.filter (fun d => negb (cd_go d)) decisions) in
  let rs := sorted_strings (dedupe (concat (map (fun x => as_reasons (fst x)) results))) ++
            reason_if (bool_decide (authorized = [])) "no_capability_authorized" in
  let decision := evidence_ok && negb (bool_decide (authorized = [])) in
  let identity := JObj [
    ("policy_version", JStr POLICY_VERSION); ("release", release_dump (release q)); ("requested_by", JStr requester);
    ("requested_capabilities", JArr (map JStr wanted));
    ("evidence", JObj (map (fun x => (kind_name (as_kind (fst x)), jopt (as_digest (fst x)))) results));
    ("evaluated_at", JStr (isoformat now)); ("decision", JStr (decision_name decision));
    ("authorized_capabilities", JArr (map JStr authorized))] in
  {| decision_id := sha256_hex (dumps identity); go := decision;
     authoritative := bool_decide (src = evidence_store); source := src; evaluated_at := isoformat now;
     requested_by := Some requester; rb_release := Some (release q); reasons := rs;
     assessments := map fst results; capabilities := decisions;
     authorized_capabilities := if decision then authorized else [];
     denied_capabilities := if decision then denied else wanted;
     partial := decision && negb (bool_decide (denied = []));
     activation := activation_block |}.

Definition default_no_go (now : instant) (reason : string) (requester : option string) : DecisionReadback := {|
  decision_id := sha256_hex (dumps (JObj [
    ("policy_version", JStr POLICY_VERSION); ("evaluated_at", JStr (isoformat now)); ("reason", JStr reason)]));
  go := false; authoritative := false; source := evidence_store; evaluated_at := isoformat now;
  requested_by := requester; rb_release := None; reasons := [reason];
  assessments := map missing_assessment EVIDENCE_KINDS; capabilities := []; authorized_capabilities := [];
  denied_capabilities := []; partial := false; activation := activation_block |}.

(** ** [_store_readback] *)

(** what is at a path: nothing, something [_read_json] refuses, or a JSON document *)
Inductive Document := Absent | Unreadable | Readable (j : json).

(** [DecisionRequest.model_validate] of the request with the evidence read *)
Variable request_validate : jdict -> option DecisionRequest.

Definition stored_evidence (d : Document) : option jdict :=
  match d with
  | Absent => None
  | Readable JNull => None
  | Readable (JObj raw) => Some raw
  | _ => Some [("unreadable", JBool true)]
  end.

Definition remove_field (k : string) (d : jdict) : jdict := List.filter (fun kv => negb (String.eqb (fst kv) k)) d.

(** [root]: the configured directory; [is_dir] and [read]: the file system *)
Definition store_readback (root : string) (is_dir : bool) (read : string -> Document) (now : instant) : DecisionReadback :=
  if negb (str_nonempty (strip root)) then default_no_go now "evidence_store_unconfigured" None
  else if negb is_dir then default_no_go now "evidence_store_unavailable" None
  else match read "decision-request.json" with
  | Unreadable => default_no_go now "decision_request_invalid" None
  | Absent | Readable JNull => default_no_go now "decision_request_missing" None
  | Readable (JObj raw) =>
      match dict_get "requested_by" raw with
      | Some (JStr requester) =>
          if negb (str_nonempty (strip requester)) || (200 <? String.length requester)%nat
          then default_no_go now "decision_requester_invalid" None
          else
            let documents := map (fun kind => (kind_name kind,
              from_option JObj JNull (stored_evidence (read (kind_name kind +:+ ".json"))))) EVIDENCE_KINDS in
            match request_validate (dict_set "evidence" (JObj documents) (remove_field "requested_by" raw)) with
            | None => default_no_go now "decision_request_invalid" (Some requester)
            | Some q => evaluate q requester now evidence_store
            end
      | _ => default_no_go now "decision_requester_invalid" None
      end
  | Readable _ => default_no_go now "decision_request_invalid" None
  end.
End Engine.

(** [policy_document] *)
Definition policy_document : json := JObj [
  ("schema_version", JStr SCHEMA_VERSION); ("policy_version", JStr POLICY_VERSION); ("default_decision", JStr "NO_GO");
  ("required_evidence", JArr (map (fun k => JStr (kind_name k)) EVIDENCE_KINDS));
  ("max_evidence_age_seconds", JObj (map (fun k => (kind_name k, JInt (MAX_EVIDENCE_AGE k / seconds 1))) EVIDENCE_KINDS));
  ("max_clock_skew_seconds", JInt (MAX_CLOCK_SKEW / seconds 1));
  ("max_approval_validity_seconds", JInt (MAX_APPROVAL_VALIDITY / seconds 1));
  ("min_canary_duration_seconds", JInt MIN_CANARY_DURATION_SECONDS); ("max_canary_error_rate", JFloat "0.01");
  ("grantable_capabilities", JArr (map JStr (sorted_strings CAPABILITY_CATALOG)));
  ("non_grantable_umbrella_controls", JArr (map JStr (sorted_strings UMBRELLA_CONTROLS)));
  ("activation_performed_by_this_service", JBool false)].
