(* ===== verification/Canary.v ===== *)
(** * The bounded provider-canary controller

    [src/app/provider_canary_controller.py] with the constants of
    [src/app/provider_canary.py], and the run endpoint of
    [src/app/api/internal/provider_canaries.py].  A plan is a validated value; what
    Pydantic writes for it ([model_dump(mode="json")], the plan's digest) is an
    argument.  The bodies run under the ledger's lock or without a suspension point:
    each operation is one step. *)

From stdpp Require Import pretty.
From Stdlib Require Import Ascii.
From S2P Require Import Prelude Json PyValue Clock Sha256 Uuid Commands Principal.
From S2P Require Import Registry.
Local Open Scope Z_scope.

(** ** Constants *)

Definition SYNTHETIC_CAMPAIGN : string := "TEST_SYN".
Definition SYNTHETIC_READBACK_SOURCE : string := "synthetic_simulator".

Inductive CanaryEvidenceKind := owner_approval | change_ticket | provider_readiness | rollback_plan.
#[export] Instance CanaryEvidenceKind_eq_dec : EqDecision CanaryEvidenceKind.
Proof. solve_decision. Defined.
Definition evidence_kind_name (k : CanaryEvidenceKind) : string :=
  match k with
  | owner_approval => "owner_approval" | change_ticket => "change_ticket"
  | provider_readiness => "provider_readiness" | rollback_plan => "rollback_plan"
  end.
Definition REQUIRED_EVIDENCE_KINDS : list CanaryEvidenceKind := [owner_approval; change_ticket; provider_readiness; rollback_plan].

Definition TARGET_BINDINGS : list (string * (string * string)) := [
  ("klyrow-email", ("postal", "email.send"));
  ("telnexa-sms", ("jasmin", "sms.send"));
  ("vicidial-restricted", ("vicidial", "voice.call"));
  ("postly-social", ("postiz", "social.publish"))].

Inductive CanaryChannel := email | sms | voice | social.
#[export] Instance CanaryChannel_eq_dec : EqDecision CanaryChannel.
Proof. solve_decision. Defined.
Inductive EvidenceSource := provider_api | provider_webhook | provider_cdr.
#[export] Instance EvidenceSource_eq_dec : EqDecision EvidenceSource.
Proof. solve_decision. Defined.

Definition TARGET_CHANNELS : list (string * CanaryChannel) := [
  ("klyrow-email", email); ("telnexa-sms", sms); ("vicidial-restricted", voice); ("postly-social", social)].
Definition SUCCESS_STATUSES (c : CanaryChannel) : list string :=
  match c with email => ["delivered"] | sms => ["delivered"] | voice => ["completed"] | social => ["published"] end.
Definition READBACK_SOURCES (c : CanaryChannel) : list EvidenceSource :=
  match c with
  | email => [provider_api; provider_webhook]
  | sms => [provider_api; provider_webhook]
  | voice => [provider_cdr]
  | social => [provider_api]
  end.

Definition RATE_WINDOW : Z := seconds 60.
Definition RUN_NAMESPACE : UUID := 0x6f0f8f551d2b4b539a575a0e3c7d57a1%N.

(** [canonical_fingerprint] *)
Definition canonical_fingerprint (value : json) : string := "sha256:" +:+ sha256_hex (dumps value).

(** ** Plans *)

Record CanaryEvidenceRef := { ref_kind : CanaryEvidenceKind; ref_reference : string; ref_digest : string }.

Record CanaryBudget := {
  max_attempts : Z;
  max_rate_per_minute : Z;
  max_spend_minor_units : Z;
  max_destinations : Z;
  max_duration_seconds : Z;
}.

Inductive SwitchState := armed | tripped | unknown.
#[export] Instance SwitchState_eq_dec : EqDecision SwitchState.
Proof. solve_decision. Defined.
Record KillSwitchReadback := { ks_reference : string; ks_state : SwitchState; ks_observed_at : instant }.
Record ReadbackRequirement := { rr_required : bool; rr_source : EvidenceSource; rr_timeout_seconds : Z }.

Inductive CanaryMode := synthetic | live.
#[export] Instance CanaryMode_eq_dec : EqDecision CanaryMode.
Proof. solve_decision. Defined.

Record ProviderCanaryPlan := {
  canary_id : string;
  plan_tenant_id : string;
  campaign_id : string;
  plan_target : string;
  plan_provider : string;
  plan_capability : string;
  mode : CanaryMode;
  destination_fingerprints : list string;
  payload_fingerprint : string;
  budget : CanaryBudget;
  not_before : instant;
  not_after : instant;
  plan_evidence : list CanaryEvidenceRef;
  kill_switch : option KillSwitchReadback;
  readback : option ReadbackRequirement;
}.

Record CanaryPolicySettings := {
  app_env : string;
  controller_enabled : bool;
  kill_switch_configured : bool;
  allowed_tenant_ids : string;
  allowed_targets : string;
  cap_attempts : Z;
  cap_rate_per_minute : Z;
  cap_destinations : Z;
  cap_duration_seconds : Z;
  cap_spend_minor_units : Z;
  cap_readback_max_age_seconds : Z;
}.

(** [value.split(sep)] *)
Fixpoint split_on (sep : ascii) (s : string) : list string :=
  match s with
  | EmptyString => [""]
  | String c s' =>
      if Ascii.eqb c sep then "" :: split_on sep s'
      else match split_on sep s' with [] => [String c ""] | w :: ws => String c w :: ws end
  end.
(** [_csv] *)
Definition csv (value : string) : list string := List.filter str_nonempty (map strip (split_on "," value)).

(** [policy_caps] *)
Definition policy_caps (st : CanaryPolicySettings) : json := JObj [
  ("allowed_tenant_ids", JArr (map JStr (sorted_strings (dedupe (csv (allowed_tenant_ids st))))));
  ("allowed_targets", JArr (map JStr (sorted_strings (dedupe (csv (allowed_targets st))))));
  ("max_attempts", JInt (cap_attempts st)); ("max_rate_per_minute", JInt (cap_rate_per_minute st));
  ("max_destinations", JInt (cap_destinations st)); ("max_duration_seconds", JInt (cap_duration_seconds st));
  ("max_spend_minor_units", JInt (cap_spend_minor_units st));
  ("kill_switch_readback_max_age_seconds", JInt (cap_readback_max_age_seconds st))].

Record CanaryDecision := {
  cd_canary_id : string;
  cd_plan_digest : string;
  cd_reasons : list string;
  cd_evaluated_at : instant;
}.
Definition allowed (d : CanaryDecision) : bool := bool_decide (cd_reasons d = []).
Definition decision_dict (d : CanaryDecision) : json := JObj [
  ("canary_id", JStr (cd_canary_id d)); ("decision", JStr (if allowed d then "ALLOW_SYNTHETIC" else "DENY"));
  ("allowed", JBool (allowed d)); ("execution_mode", JStr "synthetic"); ("live_execution_available", JBool false);
  ("reasons", JArr (map JStr (cd_reasons d))); ("plan_digest", JStr (cd_plan_digest d));
  ("evaluated_at", JStr (isoformat (cd_evaluated_at d))); ("provider_effects", JInt 0)].

(** ** [evaluate_plan], by its paragraphs *)

Definition deny (b : bool) (r : string) : list string := if b then [r] else [].

Definition gate_reasons (p : ProviderCanaryPlan) (st : CanaryPolicySettings) (runtime_kill_switch : bool) : list string :=
  deny (negb (controller_enabled st)) "CONTROLLER_DISABLED" ++
  deny (String.eqb (app_env st) "production") "PRODUCTION_ENVIRONMENT_FORBIDDEN" ++
  deny (kill_switch_configured st || runtime_kill_switch) "KILL_SWITCH_ENGAGED" ++
  deny (negb (bool_decide (mode p = synthetic))) "LIVE_EXECUTION_NOT_AUTHORIZED" ++
  deny (negb (String.eqb (campaign_id p) SYNTHETIC_CAMPAIGN)) "CAMPAIGN_NOT_TEST_SYN".

Definition binding_reasons (p : ProviderCanaryPlan) (st : CanaryPolicySettings) : list string :=
  deny (negb (mem_string (plan_tenant_id p) (csv (allowed_tenant_ids st)))) "TENANT_NOT_ALLOWED" ++
  match dict_get (plan_target p) TARGET_BINDINGS with
  | None => ["TARGET_UNKNOWN"]
  | Some (provider, capability) =>
      deny (negb (mem_string (plan_target p) (csv (allowed_targets st)))) "TARGET_NOT_ALLOWED" ++
      deny (negb (String.eqb (plan_provider p) provider)) "PROVIDER_MISMATCH" ++
      deny (negb (String.eqb (plan_capability p) capability)) "CAPABILITY_MISMATCH"
  end.

Definition budget_reasons (p : ProviderCanaryPlan) (st : CanaryPolicySettings) (now : instant) (recent_runs : Z) : list string :=
  let b := budget p in
  let destinations := Z.of_nat (length (destination_fingerprints p)) in
  deny (cap_attempts st <? max_attempts b) "BUDGET_ATTEMPTS_EXCEEDS_CAP" ++
  deny (cap_rate_per_minute st <? max_rate_per_minute b) "BUDGET_RATE_EXCEEDS_CAP" ++
  deny (cap_destinations st <? max_destinations b) "BUDGET_DESTINATIONS_EXCEEDS_CAP" ++
  deny (cap_duration_seconds st <? max_duration_seconds b) "BUDGET_DURATION_EXCEEDS_CAP" ++
  deny (cap_spend_minor_units st <? max_spend_minor_units b) "BUDGET_SPEND_EXCEEDS_CAP" ++
  deny (max_destinations b <? destinations) "DESTINATIONS_EXCEED_BUDGET" ++
  deny (max_attempts b <? destinations) "ATTEMPTS_EXCEED_BUDGET" ++
  deny (seconds (max_duration_seconds b) <? not_after p - not_before p) "WINDOW_EXCEEDS_DURATION_BUDGET" ++
  deny (now <? not_before p) "WINDOW_NOT_OPEN" ++
  deny (not_after p <=? now) "WINDOW_EXPIRED" ++
  deny (Z.min (max_rate_per_minute b) (cap_rate_per_minute st) <=? recent_runs) "RATE_BUDGET_EXHAUSTED".

Definition kind_count (p : ProviderCanaryPlan) (k : CanaryEvidenceKind) : nat :=
  length (List.filter (fun r => bool_decide (ref_kind r = k)) (plan_evidence p)).
Definition evidence_reasons (p : ProviderCanaryPlan) : list string :=
  concat (map (fun k => match kind_count p k with
    | O => ["EVIDENCE_MISSING:" +:+ evidence_kind_name k]
    | S O => []
    | _ => ["EVIDENCE_DUPLICATE:" +:+ evidence_kind_name k]
    end) REQUIRED_EVIDENCE_KINDS).

Definition switch_reasons (p : ProviderCanaryPlan) (st : CanaryPolicySettings) (now : instant) : list string :=
  match kill_switch p with
  | None => ["KILL_SWITCH_READBACK_MISSING"]
  | Some k =>
      let age := now - ks_observed_at k in
      deny (negb (bool_decide (ks_state k = armed))) "KILL_SWITCH_NOT_ARMED" ++
      (if age <? 0 then ["KILL_SWITCH_READBACK_FROM_FUTURE"]
       else deny (seconds (cap_readback_max_age_seconds st) <? age) "KILL_SWITCH_READBACK_STALE")
  end.

Definition readback_reasons (p : ProviderCanaryPlan) : list string :=
  match readback p with
  | None => ["READBACK_REQUIREMENT_MISSING"]
  | Some r =>
      deny (negb (rr_required r)) "READBACK_NOT_REQUIRED" ++
      match dict_get (plan_target p) TARGET_CHANNELS with
      | Some c => deny (negb (bool_decide (rr_source r ∈ READBACK_SOURCES c))) "READBACK_SOURCE_INVALID_FOR_CHANNEL"
      | None => []
      end
  end.

Definition plan_reasons (p : ProviderCanaryPlan) (st : CanaryPolicySettings) (now : instant) (runtime_kill_switch : bool)
    (recent_runs : Z) : list string :=
  gate_reasons p st runtime_kill_switch ++ binding_reasons p st ++ budget_reasons p st now recent_runs ++
  evidence_reasons p ++ switch_reasons p st now ++ readback_reasons p.

(** ** Runs *)

Record SyntheticAttempt := {
  attempt : nat;
  at_destination_fingerprint : string;
  at_payload_fingerprint : string;
  synthetic_reference : string;
  terminal_status : string;
  at_observed_at : instant;
}.

(** the read-back of an attempt repeats it, marked synthetic and verified *)
Definition attempt_dict (a : SyntheticAttempt) : json := JObj [
  ("attempt", JInt (Z.of_nat (attempt a))); ("destination_fingerprint", JStr (at_destination_fingerprint a));
  ("payload_fingerprint", JStr (at_payload_fingerprint a)); ("synthetic_reference", JStr (synthetic_reference a));
  ("terminal_status", JStr (terminal_status a));
  ("readback", JObj [
     ("source", JStr SYNTHETIC_READBACK_SOURCE); ("synthetic", JBool true); ("provider_reference", JStr (synthetic_reference a));
     ("destination_fingerprint", JStr (at_destination_fingerprint a)); ("payload_fingerprint", JStr (at_payload_fingerprint a));
     ("terminal_status", JStr (terminal_status a)); ("observed_at", JStr (isoformat (at_observed_at a))); ("verified", JBool true)])].

Inductive RunStatus := run_completed | run_halted.
#[export] Instance RunStatus_eq_dec : EqDecision RunStatus.
Proof. solve_decision. Defined.
Definition run_status_name (s : RunStatus) : string := match s with run_completed => "completed" | run_halted => "halted" end.

Record SyntheticCanaryRun := {
  run_id : string;
  run_canary_id : string;
  run_tenant_id : string;
  run_target : string;
  run_provider : string;
  run_capability : string;
  run_plan_digest : string;
  run_status : RunStatus;
  run_started_at : instant;
  run_completed_at : instant;
  attempts : list SyntheticAttempt;
  halt_reason : option string;
}.

Definition run_dict (r : SyntheticCanaryRun) : json :=
  let dicts := JArr (map attempt_dict (attempts r)) in
  let completed := bool_decide (run_status r = run_completed) in
  JObj [
    ("run_id", JStr (run_id r)); ("canary_id", JStr (run_canary_id r)); ("tenant_id", JStr (run_tenant_id r));
    ("target", JStr (run_target r)); ("provider", JStr (run_provider r)); ("capability", JStr (run_capability r));
    ("plan_digest", JStr (run_plan_digest r)); ("execution_mode", JStr "synthetic"); ("synthetic", JBool true);
    ("status", JStr (run_status_name (run_status r))); ("halt_reason", jopt (halt_reason r));
    ("started_at", JStr (isoformat (run_started_at r))); ("completed_at", JStr (isoformat (run_completed_at r)));
    ("attempt_count", JInt (Z.of_nat (length (attempts r)))); ("attempts", dicts);
    ("readback_verified", JBool completed); ("spend_minor_units", JInt 0); ("provider_calls", JInt 0);
    ("provider_effects", JInt 0);
    ("evidence_digest", JStr (canonical_fingerprint (JObj [
       ("run_id", JStr (run_id r)); ("plan_digest", JStr (run_plan_digest r));
       ("status", JStr (run_status_name (run_status r))); ("attempts", dicts)])))].

(** [f"{canary_id}:{plan_digest}"] named in the controller's namespace *)
Definition run_id_of (canary digest : string) : string := uuid_str (uuid5 RUN_NAMESPACE (canary +:+ ":" +:+ digest)).

Definition reference_of (rid : string) (index : nat) (destination : string) : string :=
  "syn-" +:+ str_take 32 (str_drop 7 (canonical_fingerprint (JArr [JStr rid; JInt (Z.of_nat index); JStr destination]))).

(** the loop over the destinations; [engaged i] is what the poll before attempt [i]
    answers *)
Fixpoint attempts_from (rid payload status : string) (now : instant) (engaged : nat -> bool) (index : nat) (ds : list string) :
    list SyntheticAttempt * bool :=
  match ds with
  | [] => ([], false)
  | d :: ds' =>
      if engaged index then ([], true)
      else
        let (l, halted) := attempts_from rid payload status now engaged (S index) ds' in
        ({| attempt := index; at_destination_fingerprint := d; at_payload_fingerprint := payload;
            synthetic_reference := reference_of rid index d; terminal_status := status; at_observed_at := now |} :: l, halted)
  end.

(** ** The ledger *)

Record KillSwitch := { engaged_by : string; switch_reason : string; engaged_at : string }.

Record ProviderCanaryLedger := mkCanaryLedger {
  max_runs : nat;
  max_denials : nat;
  runs : list (string * SyntheticCanaryRun);
  by_canary : gmap string string;
  starts : gmap (string * string) (list instant);
  denials : list CanaryDecision;
  switch : option KillSwitch;
}.
Abbreviation CanaryM := (M ProviderCanaryLedger).

Definition new_canary_ledger (max_runs max_denials : nat) : ProviderCanaryLedger :=
  mkCanaryLedger max_runs max_denials [] ∅ ∅ [] None.

Definition set_runs (rs : list (string * SyntheticCanaryRun)) (by_ : gmap string string) (l : ProviderCanaryLedger) : ProviderCanaryLedger :=
  mkCanaryLedger (max_runs l) (max_denials l) rs by_ (starts l) (denials l) (switch l).
Definition set_starts (m : gmap (string * string) (list instant)) (l : ProviderCanaryLedger) : ProviderCanaryLedger :=
  mkCanaryLedger (max_runs l) (max_denials l) (runs l) (by_canary l) m (denials l) (switch l).
Definition set_denials (ds : list CanaryDecision) (l : ProviderCanaryLedger) : ProviderCanaryLedger :=
  mkCanaryLedger (max_runs l) (max_denials l) (runs l) (by_canary l) (starts l) ds (switch l).
Definition set_switch (k : option KillSwitch) (l : ProviderCanaryLedger) : ProviderCanaryLedger :=
  mkCanaryLedger (max_runs l) (max_denials l) (runs l) (by_canary l) (starts l) (denials l) k.

Definition kill_switch_engaged (l : ProviderCanaryLedger) : bool := bool_decide (switch l <> None).

Definition engage_kill_switch (actor reason : string) (now : instant) : CanaryM (option KillSwitch) :=
  modify (fun l => match switch l with
    | None => set_switch (Some {| engaged_by := actor; switch_reason := reason; engaged_at := isoformat now |}) l
    | Some _ => l
    end) ;;;
  gets switch.

(** the starts that have left the window are dropped from the front *)
Fixpoint pop_expired (now : instant) (l : list instant) : list instant :=
  match l with
  | [] => []
  | t :: l' => if RATE_WINDOW <=? now - t then pop_expired now l' else l
  end.

Definition recent_runs (tenant target : string) (now : instant) : CanaryM Z := fun l =>
  match starts l !! (tenant, target) with
  | None | Some [] => (Ret 0, l)
  | Some ts =>
      let kept := pop_expired now ts in
      (Ret (Z.of_nat (length kept)), set_starts (<[(tenant, target) := kept]> (starts l)) l)
  end.

(** the deque keeps its newest [maxlen] entries *)
Definition push_bounded {A} (maxlen : nat) (x : A) (l : list A) : list A :=
  let l' := l ++ [x] in drop (length l' - maxlen) l'.
Definition record_denial (d : CanaryDecision) : CanaryM unit :=
  modify (fun l => set_denials (push_bounded (max_denials l) d (denials l)) l).

Definition record_run (r : SyntheticCanaryRun) : CanaryM unit :=
  let! l := gets id in
  (if (max_runs l <=? length (runs l))%nat
   then match runs l with
        | [] => raise StopIteration ""
        | (_, evicted) :: rest => modify (set_runs rest (delete (run_canary_id evicted) (by_canary l)))
        end
   else ret tt) ;;;
  modify (fun l => set_runs (dict_set (run_id r) r (runs l)) (<[run_canary_id r := run_id r]> (by_canary l)) l) ;;;
  modify (fun l => let key := (run_tenant_id r, run_target r) in
                   set_starts (<[key := default [] (starts l !! key) ++ [run_started_at r]]> (starts l)) l).

Definition get_run (rid : string) : CanaryM (option SyntheticCanaryRun) := gets (fun l => dict_get rid (runs l)).
Definition counts (l : ProviderCanaryLedger) : nat * nat := (length (runs l), length (denials l)).

Section Controller.
(** [plan.model_dump(mode="json")] *)
Variable plan_dump : ProviderCanaryPlan -> json.

Definition plan_digest (p : ProviderCanaryPlan) : string := canonical_fingerprint (plan_dump p).

Definition evaluate_plan (p : ProviderCanaryPlan) (st : CanaryPolicySettings) (now : instant) (runtime_kill_switch : bool)
    (recent : Z) : CanaryDecision := {|
  cd_canary_id := canary_id p; cd_plan_digest := plan_digest p;
  cd_reasons := plan_reasons p st now runtime_kill_switch recent; cd_evaluated_at := now |}.

Definition execute_synthetic (p : ProviderCanaryPlan) (d : CanaryDecision) (now : instant) (engaged : nat -> bool) :
    outcome SyntheticCanaryRun :=
  if negb (allowed d) || negb (String.eqb (cd_plan_digest d) (plan_digest p))
  then Exc (Exn PermissionError "synthetic execution requires an allowing decision")
  else if negb (bool_decide (mode p = synthetic))
  then Exc (Exn PermissionError "only synthetic execution is implemented")
  else match dict_get (plan_target p) TARGET_CHANNELS with
  | None => Exc (Exn KeyError (repr_string (plan_target p)))
  | Some channel =>
      match sorted_strings (SUCCESS_STATUSES channel) with
      | [] => Exc (Exn (Foreign "IndexError" ["LookupError"; "Exception"]) "list index out of range")
      | status :: _ =>
          let rid := run_id_of (canary_id p) (cd_plan_digest d) in
          let (l, halted) := attempts_from rid (payload_fingerprint p) status now engaged 1 (destination_fingerprints p) in
          Ret {| run_id := rid; run_canary_id := canary_id p; run_tenant_id := plan_tenant_id p; run_target := plan_target p;
                 run_provider := plan_provider p; run_capability := plan_capability p; run_plan_digest := cd_plan_digest d;
                 run_status := if halted then run_halted else run_completed; run_started_at := now; run_completed_at := now;
                 attempts := l; halt_reason := if halted then Some "KILL_SWITCH_ENGAGED" else None |}
      end
  end.

(** [ledger.existing] *)
Definition existing (p : ProviderCanaryPlan) : CanaryM (option SyntheticCanaryRun) :=
  let! l := gets id in
  match by_canary l !! canary_id p with
  | None => ret None
  | Some rid =>
      match dict_get rid (runs l) with
      | None => raise KeyError (repr_string rid)
      | Some r => if String.eqb (run_plan_digest r) (plan_digest p) then ret (Some r)
                  else raise IdempotencyConflict (canary_id p)
      end
  end.

(** [_decide]: the arguments are read in order *)
Definition decide_plan (st : CanaryPolicySettings) (p : ProviderCanaryPlan) (now : instant) : CanaryM CanaryDecision :=
  let! engaged := gets kill_switch_engaged in
  let! recent := recent_runs (plan_tenant_id p) (plan_target p) now in
  ret (evaluate_plan p st now engaged recent).

Inductive RunAnswer :=
  | Replayed (r : SyntheticCanaryRun)
  | Denied (d : CanaryDecision)
  | Created (r : SyntheticCanaryRun) (d : CanaryDecision).

(** [create_synthetic_run], after the caller is authorised *)
Definition create_synthetic_run (st : CanaryPolicySettings) (p : ProviderCanaryPlan) (now : instant) : CanaryM RunAnswer :=
  let! found := catch_ (fun e => bool_decide (exn_cls e = IdempotencyConflict)) (existing p)
    (fun _ => raise (HTTPException 409) "canary_id was already executed with a different plan") in
  match found with
  | Some r => ret (Replayed r)
  | None =>
      let! d := decide_plan st p now in
      if negb (allowed d) then record_denial d ;;; ret (Denied d)
      else
        let! engaged := gets kill_switch_engaged in
        let! r := lift_outcome (execute_synthetic p d now (fun _ => engaged)) in
        record_run r ;;;
        ret (Created r d)
  end.

(** the calls that change the ledger *)
Inductive CanaryCall :=
  | CreateRun (p : ProviderCanaryPlan)
  | PolicyCheck (p : ProviderCanaryPlan)
  | EngageKillSwitch (actor reason : string).
Inductive CanaryReply :=
  | RunReply (o : outcome RunAnswer)
  | CheckReply (o : outcome CanaryDecision)
  | SwitchReply (k : outcome (option KillSwitch)).

Definition canary_call (st : CanaryPolicySettings) (c : CanaryCall) (now : instant) (l : ProviderCanaryLedger) :
    CanaryReply * ProviderCanaryLedger :=
  match c with
  | CreateRun p => let (o, l') := create_synthetic_run st p now l in (RunReply o, l')
  | PolicyCheck p => let (o, l') := decide_plan st p now l in (CheckReply o, l')
  | EngageKillSwitch actor reason => let (o, l') := engage_kill_switch actor reason now l in (SwitchReply o, l')
  end.

(** a history of calls at their times: the replies, and the ledger they leave *)
Fixpoint canary_run (st : CanaryPolicySettings) (cs : list (instant * CanaryCall)) (l : ProviderCanaryLedger) :
    list CanaryReply * ProviderCanaryLedger :=
  match cs with
  | [] => ([], l)
  | (now, c) :: cs' =>
      let (r, l1) := canary_call st c now l in
      let (rs, l2) := canary_run st cs' l1 in (r :: rs, l2)
  end.
End Controller.
