(* ===== verification/Orders.v ===== *)
(** * Approved-order orchestration

    [src/app/order_orchestration.py] and its routes in [src/app/api/v1/orders.py].  A
    body is a validated value; a handler is its whole text after that, on the one
    store of the process.  Records and commands are shared dictionaries that the
    handlers change in place: the store holds them and every change is one of it.  The
    Prometheus counters that mirror [metrics] are left out. *)

From stdpp Require Import pretty.
From Stdlib Require Import Ascii.
From S2P Require Import Prelude Json PyValue Clock Sha256.
Local Open Scope Z_scope.

(** ** Data *)

Inductive OrderStatus :=
  | RECEIVED | VALIDATING | VALIDATED | APPROVAL_REQUIRED | APPROVED | REJECTED | QUEUED | DISPATCHED_TO_N8N | RUNNING
  | PARTIALLY_COMPLETED | COMPLETED | FAILED_RETRYABLE | RETRY_SCHEDULED | FAILED_FINAL | DEAD_LETTER | HUMAN_REVIEW
  | CANCELLED | EXPIRED.
#[export] Instance OrderStatus_eq_dec : EqDecision OrderStatus.
Proof. solve_decision. Defined.

Definition ALLOWED_WORKFLOWS : list string := [
  "CDST-ORDER-VALIDATE-V1"; "CDST-ORDER-ROUTER-V1"; "CDST-ORDER-EXECUTE-V1"; "CDST-ORDER-SHIPPING-V1";
  "CDST-ORDER-FULFILLMENT-V1"; "CDST-ORDER-CUSTOMER-SETUP-V1"; "CDST-ORDER-SOCIAL-DRAFT-V1";
  "CDST-ORDER-SOCIAL-CAMPAIGN-V1"; "CDST-ORDER-CALLBACK-V1"; "CDST-ORDER-INTERNAL-REPORT-V1"; "CDST-ORDER-RESULT-V1";
  "CDST-ORDER-FAILURE-V1"; "CDST-ORDER-DEAD-LETTER-V1"; "CDST-ORDER-RECONCILIATION-V1"].
Definition ALLOWED_ACTIONS : list string := [
  "validate_customer"; "create_fulfillment_task"; "request_shipping_quote"; "schedule_pickup"; "create_callback";
  "prepare_campaign_draft"; "create_social_draft"; "request_document"; "generate_internal_report"; "notify_internal_team"].
Definition BLOCKED_ACTIONS : list string := [
  "charge_payment_method"; "send_customer_message"; "place_external_call"; "publish_social_post"; "delete_record";
  "cancel_customer_service"; "export_customer_database"].

(** a [datetime]: with a time zone or without, its instant, and what
    [model_dump(mode="json")] writes for it *)
Record Timestamp := { ts_aware : bool; ts_instant : instant; ts_text : string }.

Record Approval := {
  required : bool;
  ap_status : string;
  approved_by : option string;
  approved_at : option Timestamp;
  ap_content_hash : string;
}.

Record OrderEnvelope := {
  o_schema_version : string;
  o_command_id : string;
  o_event_id : string;
  o_order_id : string;
  o_order_type : string;
  o_source_system : string;
  o_organization_id : string;
  o_customer_reference : string;
  o_workflow_code : string;
  o_workflow_version : string;
  o_approval : Approval;
  o_approval_required : option bool;
  o_approval_status : option string;
  o_approval_reference : option string;
  o_approval_content_hash : option string;
  o_payload : jdict;
  o_requested_actions : list string;
  o_approved_actions : option (list string);
  o_constraints : jdict;
  o_idempotency_key : string;
  o_correlation_id : string;
  o_trace_id : string;
  o_requested_at : Timestamp;
  o_expires_at : Timestamp;
}.

(** [normalize_approval_fields] *)
Definition normalize_approval_fields (o : OrderEnvelope) : OrderEnvelope := {|
  o_schema_version := o_schema_version o; o_command_id := o_command_id o; o_event_id := o_event_id o;
  o_order_id := o_order_id o; o_order_type := o_order_type o; o_source_system := o_source_system o;
  o_organization_id := o_organization_id o; o_customer_reference := o_customer_reference o;
  o_workflow_code := o_workflow_code o; o_workflow_version := o_workflow_version o; o_approval := o_approval o;
  o_approval_required := Some (default (required (o_approval o)) (o_approval_required o));
  o_approval_status := Some (default (ap_status (o_approval o)) (o_approval_status o));
  o_approval_reference := o_approval_reference o;
  o_approval_content_hash := Some (default (ap_content_hash (o_approval o)) (o_approval_content_hash o));
  o_payload := o_payload o; o_requested_actions := o_requested_actions o;
  o_approved_actions := Some (default (o_requested_actions o) (o_approved_actions o));
  o_constraints := o_constraints o; o_idempotency_key := o_idempotency_key o; o_correlation_id := o_correlation_id o;
  o_trace_id := o_trace_id o; o_requested_at := o_requested_at o; o_expires_at := o_expires_at o |}.

(** ** [model_dump(mode="json")] *)

Definition jbool (o : option bool) : json := from_option JBool JNull o.
Definition jstrings (l : list string) : json := JArr (map JStr l).
Definition approval_dump (a : Approval) : json := JObj [
  ("required", JBool (required a)); ("status", JStr (ap_status a)); ("approved_by", jopt (approved_by a));
  ("approved_at", jopt (ts_text <$> approved_at a)); ("content_hash", JStr (ap_content_hash a))].

Definition order_dump (o : OrderEnvelope) : jdict := [
  ("schema_version", JStr (o_schema_version o)); ("command_id", JStr (o_command_id o)); ("event_id", JStr (o_event_id o));
  ("order_id", JStr (o_order_id o)); ("order_type", JStr (o_order_type o)); ("source_system", JStr (o_source_system o));
  ("organization_id", JStr (o_organization_id o)); ("customer_reference", JStr (o_customer_reference o));
  ("workflow_code", JStr (o_workflow_code o)); ("workflow_version", JStr (o_workflow_version o));
  ("approval", approval_dump (o_approval o)); ("approval_required", jbool (o_approval_required o));
  ("approval_status", jopt (o_approval_status o)); ("approval_reference", jopt (o_approval_reference o));
  ("approval_content_hash", jopt (o_approval_content_hash o)); ("payload", JObj (o_payload o));
  ("requested_actions", jstrings (o_requested_actions o));
  ("approved_actions", from_option jstrings JNull (o_approved_actions o)); ("constraints", JObj (o_constraints o));
  ("idempotency_key", JStr (o_idempotency_key o)); ("correlation_id", JStr (o_correlation_id o));
  ("trace_id", JStr (o_trace_id o)); ("requested_at", JStr (ts_text (o_requested_at o)));
  ("expires_at", JStr (ts_text (o_expires_at o)))].

(** the digest of everything but the approval *)
Definition approval_fields : list string :=
  ["approval"; "approval_required"; "approval_status"; "approval_reference"; "approval_content_hash"; "approved_actions"].
Definition content_hash (o : OrderEnvelope) : string :=
  sha256_hex (dumps (JObj (List.filter (fun kv => negb (mem_string (fst kv) approval_fields)) (order_dump o)))).

Definition is_synthetic (o : OrderEnvelope) : bool := starts_with "CODESTRA-INTEGRATION-TEST-" (o_order_id o).

Record OrderSettings := { order_orchestration_enabled : bool; n8n_order_dispatch_enabled : bool; middleware_secret : string }.

Abbreviation http status msg := (Exc (Exn (HTTPException status) msg)).

(** [validate_for_dispatch] *)
Definition validate_for_dispatch (st : OrderSettings) (now : instant) (o : OrderEnvelope) : outcome unit :=
  if negb (ts_aware (o_expires_at o)) then Exc (Exn TypeError "can't compare offset-naive and offset-aware datetimes")
  else if ts_instant (o_expires_at o) <=? now then http 422 "order has expired"
  else if negb (mem_string (o_workflow_code o) ALLOWED_WORKFLOWS) then http 422 "workflow code is not allowlisted"
  else if existsb (fun a => mem_string a BLOCKED_ACTIONS) (o_requested_actions o) then http 422 "requested action is blocked"
  else if negb (forallb (fun a => mem_string a ALLOWED_ACTIONS) (o_requested_actions o))
  then http 422 "requested action is not allowlisted"
  else if required (o_approval o) && negb (String.eqb (ap_status (o_approval o)) "approved")
  then http 409 "approval is required before dispatch"
  else if negb (String.eqb (ap_content_hash (o_approval o)) (content_hash o))
  then http 409 "approval content hash does not match order"
  else if negb (is_synthetic o) && negb (order_orchestration_enabled st) then http 503 "order orchestration is disabled"
  else if negb (n8n_order_dispatch_enabled st) && negb (is_synthetic o) then http 503 "n8n order dispatch is disabled"
  else Ret tt.

(** ** [verify_body_integrity] *)

Record Headers := {
  x_timestamp : option string;
  x_nonce : option string;
  x_signature : option string;
  x_body_sha256 : option string;
}.

Definition body_sha256 (body : jdict) : string := sha256_hex (dumps (JObj body)).

Definition verify_body_integrity (st : OrderSettings) (body : jdict) (h : Headers) : outcome unit :=
  match truthy_str (x_timestamp h), truthy_str (x_nonce h), truthy_str (x_signature h), truthy_str (x_body_sha256 h) with
  | Some timestamp, Some nonce, Some signature, Some body_hash =>
      let computed_hash := body_sha256 body in
      if negb (String.eqb computed_hash body_hash) then http 401 "body hash mismatch"
      else if str_nonempty (middleware_secret st) &&
              negb (String.eqb (hmac_sha256_hex (middleware_secret st)
                                  (timestamp +:+ "." +:+ nonce +:+ "." +:+ computed_hash)) signature)
      then http 401 "signature invalid"
      else Ret tt
  | _, _, _, _ => http 401 "timestamp, nonce, signature, and body hash are required"
  end.

(** ** The store *)

(** the record's envelope is the dump of [or_envelope] with the approval [or_approval],
    which the approval route updates *)
Record OrderRecord := {
  or_order_id : string;
  or_command_id : string;
  or_workflow_code : string;
  or_status : OrderStatus;
  or_content_hash : string;
  or_trace_id : string;
  or_correlation_id : string;
  or_approval : Approval;
  or_envelope : OrderEnvelope;
  or_n8n_dispatch : option (string * string);
  or_result : option jdict;
  or_error_code : option string;
  or_dead_letter : option jdict;
}.

Record OrderCommand := {
  oc_command_id : string;
  oc_order_id : string;
  oc_workflow_code : string;
  oc_status : OrderStatus;
  oc_progress : list (Z * string);
  oc_attempts : Z;
}.

(** an audit event: its order, its name, and its details *)
Record AuditEvent := { ae_order_id : string; ae_event : string; ae_details : jdict }.

Record OrderStore := mkOrderStore {
  orders : gmap string OrderRecord;
  by_idempotency : gmap string string;
  commands : gmap string OrderCommand;
  audit_events : list AuditEvent;
  metrics : gmap string Z;
}.
Abbreviation OrderM := (M OrderStore).
Definition empty_store : OrderStore := mkOrderStore ∅ ∅ ∅ [] ∅.

Definition set_order (r : OrderRecord) (s : OrderStore) : OrderStore :=
  mkOrderStore (<[or_order_id r := r]> (orders s)) (by_idempotency s) (commands s) (audit_events s) (metrics s).
Definition set_command (c : OrderCommand) (s : OrderStore) : OrderStore :=
  mkOrderStore (orders s) (by_idempotency s) (<[oc_command_id c := c]> (commands s)) (audit_events s) (metrics s).

Definition with_status (st : OrderStatus) (r : OrderRecord) : OrderRecord := {|
  or_order_id := or_order_id r; or_command_id := or_command_id r; or_workflow_code := or_workflow_code r; or_status := st;
  or_content_hash := or_content_hash r; or_trace_id := or_trace_id r; or_correlation_id := or_correlation_id r;
  or_approval := or_approval r; or_envelope := or_envelope r; or_n8n_dispatch := or_n8n_dispatch r; or_result := or_result r;
  or_error_code := or_error_code r; or_dead_letter := or_dead_letter r |}.
Definition with_command_status (st : OrderStatus) (c : OrderCommand) : OrderCommand := {|
  oc_command_id := oc_command_id c; oc_order_id := oc_order_id c; oc_workflow_code := oc_workflow_code c; oc_status := st;
  oc_progress := oc_progress c; oc_attempts := oc_attempts c |}.

(** [record["status"] = status] of the order stored under [id] *)
Definition update_order (oid : string) (f : OrderRecord -> OrderRecord) : OrderM unit :=
  modify (fun s => match orders s !! oid with
    | Some r => mkOrderStore (<[oid := f r]> (orders s)) (by_idempotency s) (commands s) (audit_events s) (metrics s)
    | None => s
    end).
Definition update_command (cid : string) (f : OrderCommand -> OrderCommand) : OrderM unit :=
  modify (fun s => match commands s !! cid with
    | Some c => mkOrderStore (orders s) (by_idempotency s) (<[cid := f c]> (commands s)) (audit_events s) (metrics s)
    | None => s
    end).

Definition count (name : string) : OrderM unit := modify (fun s =>
  mkOrderStore (orders s) (by_idempotency s) (commands s) (audit_events s) (<[name := default 0 (metrics s !! name) + 1]> (metrics s))).
Definition audit (oid event : string) (details : jdict) : OrderM unit := modify (fun s =>
  mkOrderStore (orders s) (by_idempotency s) (commands s)
    (audit_events s ++ [{| ae_order_id := oid; ae_event := event; ae_details := details |}]) (metrics s)).

Definition get (oid : string) : OrderM OrderRecord :=
  let! s := gets id in
  match orders s !! oid with Some r => ret r | None => raise (HTTPException 404) "order not found" end.

(** [create]: the record, and whether it is marked a duplicate *)
Definition new_record (o : OrderEnvelope) : OrderRecord := {|
  or_order_id := o_order_id o; or_command_id := o_command_id o; or_workflow_code := o_workflow_code o;
  or_status := if required (o_approval o) then APPROVAL_REQUIRED else VALIDATED; or_content_hash := content_hash o;
  or_trace_id := o_trace_id o; or_correlation_id := o_correlation_id o; or_approval := o_approval o; or_envelope := o;
  or_n8n_dispatch := None; or_result := None; or_error_code := None; or_dead_letter := None |}.

Definition create (o : OrderEnvelope) : OrderM (OrderRecord * bool) :=
  let! s := gets id in
  match truthy_str (by_idempotency s !! o_idempotency_key o) with
  | Some existing_id =>
      match orders s !! existing_id with
      | None => raise KeyError (repr_string existing_id)
      | Some existing =>
          if negb (String.eqb (or_content_hash existing) (content_hash o))
          then raise (HTTPException 409) "duplicate idempotency key conflict"
          else count "order_duplicate_suppression_total" ;;; ret (existing, true)
      end
  | None =>
      let record := new_record o in
      modify (set_order record) ;;;
      modify (fun s => mkOrderStore (orders s) (<[o_idempotency_key o := o_order_id o]> (by_idempotency s)) (commands s)
                         (audit_events s) (metrics s)) ;;;
      count "orders_received_total" ;;;
      count (if String.eqb (ap_status (o_approval o)) "approved" then "orders_approved_total" else "orders_validated_total") ;;;
      audit (o_order_id o) "order_received" [("trace_id", JStr (o_trace_id o))] ;;;
      ret (record, false)
  end.

Definition command (cid oid : string) : OrderM OrderCommand :=
  let! record := get oid in
  let! s := gets id in
  match commands s !! cid with
  | Some existing =>
      if negb (String.eqb (oc_order_id existing) oid) then raise (HTTPException 409) "command reference conflict"
      else ret existing
  | None =>
      let c := {| oc_command_id := cid; oc_order_id := oid; oc_workflow_code := or_workflow_code record;
                  oc_status := QUEUED; oc_progress := []; oc_attempts := 0 |} in
      modify (set_command c) ;;;
      count "orders_dispatched_total" ;;;
      audit oid "command_created" [("command_id", JStr cid)] ;;;
      ret c
  end.

Definition security_failure (error_code : string) : bool :=
  mem_string error_code ["AUTHENTICATION_FAILURE"; "AUTHORIZATION_FAILURE"; "INVALID_SIGNATURE"].

Definition attempted (n : Z) (c : OrderCommand) : OrderCommand := {|
  oc_command_id := oc_command_id c; oc_order_id := oc_order_id c; oc_workflow_code := oc_workflow_code c; oc_status := oc_status c;
  oc_progress := oc_progress c; oc_attempts := n |}.

Definition record_failure (cid error_code : string) (retryable : bool) (max_attempts : Z) : OrderM OrderCommand :=
  let! s := gets id in
  match commands s !! cid with
  | None => raise (HTTPException 404) "command not found"
  | Some c =>
      let! order := get (oc_order_id c) in
      let n := oc_attempts c + 1 in
      update_command cid (attempted n) ;;;
      let can_retry := retryable && negb (security_failure error_code) && (n <? max_attempts) in
      let st := if can_retry then RETRY_SCHEDULED else if retryable then DEAD_LETTER else FAILED_FINAL in
      update_command cid (with_command_status st) ;;;
      update_order (oc_order_id c) (with_status (if can_retry then FAILED_RETRYABLE else st)) ;;;
      (if can_retry then count "orders_retried_total" else when retryable (count "orders_dead_lettered_total")) ;;;
      when (security_failure error_code) (count "security_failure_retry_total") ;;;
      count "orders_failed_total" ;;;
      audit (or_order_id order) "command_failure"
        [("command_id", JStr cid); ("error_code", JStr error_code); ("retryable", JBool can_retry)] ;;;
      ret (with_command_status st (attempted n c))
  end.

Definition record_result (cid status : string) : OrderM OrderCommand :=
  let! s := gets id in
  match commands s !! cid with
  | None => raise (HTTPException 404) "command not found"
  | Some c =>
      if bool_decide (oc_status c = COMPLETED) && String.eqb status "completed" then ret c
      else
        let! order := get (oc_order_id c) in
        let st := if String.eqb status "completed" then COMPLETED else PARTIALLY_COMPLETED in
        update_command cid (with_command_status st) ;;;
        update_order (oc_order_id c) (with_status st) ;;;
        count (if String.eqb status "completed" then "orders_completed_total" else "orders_failed_total") ;;;
        audit (or_order_id order) "command_result" [("command_id", JStr cid); ("status", JStr status)] ;;;
        ret (with_command_status st c)
  end.

(** ** The other bodies *)

Record ApprovalRequest := { ar_approved_by : string; ar_content_hash : string }.
Definition approval_request_dump (a : ApprovalRequest) : jdict :=
  [("approved_by", JStr (ar_approved_by a)); ("content_hash", JStr (ar_content_hash a))].

Record ResultEnvelope := {
  rs_schema_version : string; rs_command_id : string; rs_order_id : string; rs_workflow_code : string; rs_execution_id : string;
  rs_status : string; rs_completed_actions : list string; rs_failed_actions : list string; rs_result : jdict; rs_retryable : bool;
  rs_error_code : option string; rs_error_message : option string; rs_correlation_id : string; rs_trace_id : string;
  rs_started_at : Timestamp; rs_completed_at : Timestamp }.
Definition result_dump (r : ResultEnvelope) : jdict := [
  ("schema_version", JStr (rs_schema_version r)); ("command_id", JStr (rs_command_id r)); ("order_id", JStr (rs_order_id r));
  ("workflow_code", JStr (rs_workflow_code r)); ("execution_id", JStr (rs_execution_id r)); ("status", JStr (rs_status r));
  ("completed_actions", jstrings (rs_completed_actions r)); ("failed_actions", jstrings (rs_failed_actions r));
  ("result", JObj (rs_result r)); ("retryable", JBool (rs_retryable r)); ("error_code", jopt (rs_error_code r));
  ("error_message", jopt (rs_error_message r)); ("correlation_id", JStr (rs_correlation_id r)); ("trace_id", JStr (rs_trace_id r));
  ("started_at", JStr (ts_text (rs_started_at r))); ("completed_at", JStr (ts_text (rs_completed_at r)))].

Record ErrorEnvelope := {
  er_command_id : string; er_order_id : string; er_workflow_code : string; er_error_code : string; er_error_message : string;
  er_retryable : bool; er_correlation_id : string; er_trace_id : string }.
Definition error_dump (e : ErrorEnvelope) : jdict := [
  ("command_id", JStr (er_command_id e)); ("order_id", JStr (er_order_id e)); ("workflow_code", JStr (er_workflow_code e));
  ("error_code", JStr (er_error_code e)); ("error_message", JStr (er_error_message e)); ("retryable", JBool (er_retryable e));
  ("correlation_id", JStr (er_correlation_id e)); ("trace_id", JStr (er_trace_id e))].

Record DeadLetterEnvelope := {
  dl_schema_version : string; dl_command_id : string; dl_order_id : string; dl_workflow_code : string; dl_reason_code : string;
  dl_reason : string; dl_retry_count : Z; dl_correlation_id : string; dl_trace_id : string }.
Definition dead_letter_dump (d : DeadLetterEnvelope) : jdict := [
  ("schema_version", JStr (dl_schema_version d)); ("command_id", JStr (dl_command_id d)); ("order_id", JStr (dl_order_id d));
  ("workflow_code", JStr (dl_workflow_code d)); ("reason_code", JStr (dl_reason_code d)); ("reason", JStr (dl_reason d));
  ("retry_count", JInt (dl_retry_count d)); ("correlation_id", JStr (dl_correlation_id d)); ("trace_id", JStr (dl_trace_id d))].

(** [ProgressEnvelope] and [ProgressRequest]; [ReconciliationRequest] *)
Record ProgressEnvelope := { pg_order : OrderEnvelope; pg_percent : Z; pg_message : string }.
Definition progress_dump (p : ProgressEnvelope) : jdict :=
  order_dump (pg_order p) ++ [("progress_percent", JInt (pg_percent p)); ("message", JStr (pg_message p))].
Record ReconciliationRequest := { rc_order : OrderEnvelope; rc_n8n_execution_id : string }.
Definition reconciliation_dump (r : ReconciliationRequest) : jdict :=
  order_dump (rc_order r) ++ [("n8n_execution_id", JStr (rc_n8n_execution_id r))].

(** ** The routes *)

Definition status_name (s : OrderStatus) : string :=
  match s with
  | RECEIVED => "RECEIVED" | VALIDATING => "VALIDATING" | VALIDATED => "VALIDATED" | APPROVAL_REQUIRED => "APPROVAL_REQUIRED"
  | APPROVED => "APPROVED" | REJECTED => "REJECTED" | QUEUED => "QUEUED" | DISPATCHED_TO_N8N => "DISPATCHED_TO_N8N"
  | RUNNING => "RUNNING" | PARTIALLY_COMPLETED => "PARTIALLY_COMPLETED" | COMPLETED => "COMPLETED"
  | FAILED_RETRYABLE => "FAILED_RETRYABLE" | RETRY_SCHEDULED => "RETRY_SCHEDULED" | FAILED_FINAL => "FAILED_FINAL"
  | DEAD_LETTER => "DEAD_LETTER" | HUMAN_REVIEW => "HUMAN_REVIEW" | CANCELLED => "CANCELLED" | EXPIRED => "EXPIRED"
  end.

Inductive OrderReply :=
  | RecordReply (r : OrderRecord) (duplicate : bool)
  | CommandReply (c : OrderCommand)
  | Accepted (fields : jdict).

Section Routes.
Variable st : OrderSettings.

Definition integrity (body : jdict) (h : Headers) : OrderM unit := lift_outcome (verify_body_integrity st body h).

(** the record and the command as they are now *)
Definition current_record (oid : string) : OrderM OrderReply := let! r := get oid in ret (RecordReply r false).
Definition current_command (cid : string) : OrderM OrderReply :=
  let! s := gets id in
  match commands s !! cid with
  | Some c => ret (CommandReply c)
  | None => raise (HTTPException 404) "command not found"
  end.
(** [{"accepted": True, "status": record["status"], ...}] *)
Definition accepted_reply (oid : string) (more : jdict) : OrderM OrderReply :=
  let! r := get oid in
  ret (Accepted ([("accepted"%string, JBool true); ("status"%string, JStr (status_name (or_status r)))] ++ more)).

Definition receive_order (o : OrderEnvelope) (h : Headers) : OrderM OrderReply :=
  integrity (order_dump o) h ;;;
  let! r := create o in
  ret (RecordReply (fst r) (snd r)).

Definition approve (by_ : string) (now : instant) (r : OrderRecord) : OrderRecord := {|
  or_order_id := or_order_id r; or_command_id := or_command_id r; or_workflow_code := or_workflow_code r; or_status := APPROVED;
  or_content_hash := or_content_hash r; or_trace_id := or_trace_id r; or_correlation_id := or_correlation_id r;
  or_approval := {| required := required (or_approval r); ap_status := "approved"; approved_by := Some by_;
                    approved_at := Some {| ts_aware := true; ts_instant := now; ts_text := isoformat now |};
                    ap_content_hash := ap_content_hash (or_approval r) |};
  or_envelope := or_envelope r; or_n8n_dispatch := or_n8n_dispatch r; or_result := or_result r;
  or_error_code := or_error_code r; or_dead_letter := or_dead_letter r |}.

Definition approve_order (oid : string) (a : ApprovalRequest) (h : Headers) (now : instant) : OrderM OrderReply :=
  integrity (approval_request_dump a) h ;;;
  let! record := get oid in
  if negb (String.eqb (ar_content_hash a) (or_content_hash record))
  then raise (HTTPException 409) "approval content hash does not match order"
  else if String.eqb (ar_approved_by a) (o_source_system (or_envelope record))
  then raise (HTTPException 403) "self approval is not permitted"
  else update_order oid (approve (ar_approved_by a) now) ;;; current_record oid.

Definition reject_order (oid : string) (h : Headers) : OrderM OrderReply :=
  integrity [] h ;;;
  let! record := get oid in
  update_order oid (with_status REJECTED) ;;; current_record oid.

Definition dispatched (workflow_code accepted_at : string) (r : OrderRecord) : OrderRecord := {|
  or_order_id := or_order_id r; or_command_id := or_command_id r; or_workflow_code := or_workflow_code r;
  or_status := DISPATCHED_TO_N8N; or_content_hash := or_content_hash r; or_trace_id := or_trace_id r;
  or_correlation_id := or_correlation_id r; or_approval := or_approval r; or_envelope := or_envelope r;
  or_n8n_dispatch := Some (workflow_code, accepted_at); or_result := or_result r; or_error_code := or_error_code r;
  or_dead_letter := or_dead_letter r |}.

(** [now] is read by [validate_for_dispatch], [now2] for the stamp *)
Definition dispatch_order (o : OrderEnvelope) (h : Headers) (now now2 : instant) : OrderM OrderReply :=
  integrity (order_dump o) h ;;;
  let! record := get (o_order_id o) in
  lift_outcome (validate_for_dispatch st now o) ;;;
  if negb (String.eqb (or_content_hash record) (content_hash o))
  then raise (HTTPException 409) "order content changed after intake"
  else
    update_order (o_order_id o) (dispatched (o_workflow_code o) (isoformat now2)) ;;;
    command (o_command_id o) (o_order_id o) ;;;
    update_command (o_command_id o) (with_command_status DISPATCHED_TO_N8N) ;;;
    accepted_reply (o_order_id o) [("command_id", JStr (o_command_id o)); ("trace_id", JStr (o_trace_id o))].

Definition same_reference (r : OrderRecord) (cid trace : string) : bool :=
  String.eqb (or_command_id r) cid && String.eqb (or_trace_id r) trace.

Definition with_result (result : option jdict) (error_code : option string) (dead : option jdict) (status : OrderStatus) (r : OrderRecord) :
    OrderRecord := {|
  or_order_id := or_order_id r; or_command_id := or_command_id r; or_workflow_code := or_workflow_code r; or_status := status;
  or_content_hash := or_content_hash r; or_trace_id := or_trace_id r; or_correlation_id := or_correlation_id r;
  or_approval := or_approval r; or_envelope := or_envelope r; or_n8n_dispatch := or_n8n_dispatch r; or_result := result;
  or_error_code := error_code; or_dead_letter := dead |}.

Definition receive_result (r : ResultEnvelope) (h : Headers) : OrderM OrderReply :=
  integrity (result_dump r) h ;;;
  let! record := get (rs_order_id r) in
  if negb (same_reference record (rs_command_id r) (rs_trace_id r))
  then raise (HTTPException 409) "command or trace reference mismatch"
  else
    record_result (rs_command_id r) (rs_status r) ;;;
    update_order (rs_order_id r) (fun x => with_result (Some (result_dump r)) (or_error_code x) (or_dead_letter x) (or_status x) x) ;;;
    accepted_reply (rs_order_id r) [("order_id", JStr (rs_order_id r))].

Definition receive_error (e : ErrorEnvelope) (h : Headers) : OrderM OrderReply :=
  integrity (error_dump e) h ;;;
  let! record := get (er_order_id e) in
  if negb (same_reference record (er_command_id e) (er_trace_id e))
  then raise (HTTPException 409) "command or trace reference mismatch"
  else
    record_failure (er_command_id e) (er_error_code e) (er_retryable e) 3 ;;;
    update_order (er_order_id e) (fun x => with_result (or_result x) (Some (er_error_code e)) (or_dead_letter x) (or_status x) x) ;;;
    accepted_reply (er_order_id e) [("order_id", JStr (er_order_id e))].

Definition progressed (percent : Z) (message : string) (c : OrderCommand) : OrderCommand := {|
  oc_command_id := oc_command_id c; oc_order_id := oc_order_id c; oc_workflow_code := oc_workflow_code c; oc_status := oc_status c;
  oc_progress := oc_progress c ++ [(percent, message)]; oc_attempts := oc_attempts c |}.

Definition receive_progress (p : ProgressEnvelope) (h : Headers) : OrderM OrderReply :=
  let o := pg_order p in
  integrity (progress_dump p) h ;;;
  let! record := get (o_order_id o) in
  let! s := gets id in
  match commands s !! o_command_id o with
  | None => raise (HTTPException 409) "command or trace reference mismatch"
  | Some _ =>
      if negb (String.eqb (or_command_id record) (o_command_id o))
      then raise (HTTPException 409) "command or trace reference mismatch"
      else
        update_command (o_command_id o) (progressed (pg_percent p) (pg_message p)) ;;;
        update_order (o_order_id o) (with_status RUNNING) ;;;
        count "order_progress_total" ;;;
        audit (o_order_id o) "command_progress" [("command_id", JStr (o_command_id o)); ("percent", JInt (pg_percent p))] ;;;
        accepted_reply (o_order_id o) [("order_id", JStr (o_order_id o))]
  end.

Definition receive_dead_letter (d : DeadLetterEnvelope) (h : Headers) : OrderM OrderReply :=
  integrity (dead_letter_dump d) h ;;;
  let! record := get (dl_order_id d) in
  if negb (same_reference record (dl_command_id d) (dl_trace_id d))
  then raise (HTTPException 409) "command or trace reference mismatch"
  else
    update_order (dl_order_id d) (fun x => with_result (or_result x) (or_error_code x) (Some (dead_letter_dump d)) DEAD_LETTER x) ;;;
    count "orders_dead_lettered_total" ;;;
    audit (dl_order_id d) "command_dead_letter" [("command_id", JStr (dl_command_id d))] ;;;
    accepted_reply (dl_order_id d) [("order_id", JStr (dl_order_id d))].

Definition reconcile_body (o : OrderEnvelope) (body : jdict) (h : Headers) : OrderM OrderReply :=
  integrity body h ;;;
  let! record := get (o_order_id o) in
  ret (Accepted [("accepted"%string, JBool true); ("order_id"%string, JStr (o_order_id o));
                 ("canonical_status"%string, JStr (status_name (or_status record)))]).
Definition reconcile_order (o : OrderEnvelope) (h : Headers) : OrderM OrderReply := reconcile_body o (order_dump o) h.

Definition create_command (o : OrderEnvelope) (h : Headers) : OrderM OrderReply :=
  integrity (order_dump o) h ;;;
  let! c := command (o_command_id o) (o_order_id o) in ret (CommandReply c).

Definition start_command (cid : string) (h : Headers) : OrderM OrderReply :=
  integrity [] h ;;;
  let! s := gets id in
  match commands s !! cid with
  | None => raise (HTTPException 404) "command not found"
  | Some c =>
      update_command cid (with_command_status RUNNING) ;;;
      let! order := get (oc_order_id c) in
      update_order (oc_order_id c) (with_status RUNNING) ;;;
      current_command cid
  end.

Definition progress_command (cid : string) (p : ProgressEnvelope) (h : Headers) : OrderM OrderReply :=
  integrity (progress_dump p) h ;;;
  let! s := gets id in
  match commands s !! cid with
  | None => raise (HTTPException 404) "command not found"
  | Some _ =>
      if negb (String.eqb (o_command_id (pg_order p)) cid) then raise (HTTPException 409) "command reference mismatch"
      else update_command cid (progressed (pg_percent p) (pg_message p)) ;;; current_command cid
  end.

(** a route under [/orchestration/commands/{command_id}] checks the path against the
    body and goes on as the route of the body *)
Definition command_route (cid body_cid : string) (body : jdict) (h : Headers) (m : OrderM OrderReply) : OrderM OrderReply :=
  integrity body h ;;;
  if negb (String.eqb body_cid cid) then raise (HTTPException 409) "command reference mismatch" else m.
Definition command_result (cid : string) (r : ResultEnvelope) (h : Headers) : OrderM OrderReply :=
  command_route cid (rs_command_id r) (result_dump r) h (receive_result r h).
Definition command_error (cid : string) (e : ErrorEnvelope) (h : Headers) : OrderM OrderReply :=
  command_route cid (er_command_id e) (error_dump e) h (receive_error e h).
Definition command_dead_letter (cid : string) (d : DeadLetterEnvelope) (h : Headers) : OrderM OrderReply :=
  command_route cid (dl_command_id d) (dead_letter_dump d) h (receive_dead_letter d h).
Definition command_reconcile (cid : string) (r : ReconciliationRequest) (h : Headers) : OrderM OrderReply :=
  command_route cid (o_command_id (rc_order r)) (reconciliation_dump r) h (reconcile_body (rc_order r) (reconciliation_dump r) h).

(** ** Histories *)

Inductive OrderCall :=
  | ReceiveOrder (o : OrderEnvelope)
  | ApproveOrder (oid : string) (a : ApprovalRequest) (now : instant)
  | RejectOrder (oid : string)
  | DispatchOrder (o : OrderEnvelope) (now now2 : instant)
  | ReceiveResult (r : ResultEnvelope)
  | ReceiveError (e : ErrorEnvelope)
  | ReceiveProgress (p : ProgressEnvelope)
  | ReceiveDeadLetter (d : DeadLetterEnvelope)
  | ReconcileOrder (o : OrderEnvelope)
  | CreateCommand (o : OrderEnvelope)
  | StartCommand (cid : string)
  | ProgressCommand (cid : string) (p : ProgressEnvelope)
  | CommandResult (cid : string) (r : ResultEnvelope)
  | CommandError (cid : string) (e : ErrorEnvelope)
  | CommandDeadLetter (cid : string) (d : DeadLetterEnvelope)
  | CommandReconcile (cid : string) (r : ReconciliationRequest).

Definition order_call (c : OrderCall) (h : Headers) : OrderM OrderReply :=
  match c with
  | ReceiveOrder o => receive_order o h
  | ApproveOrder oid a now => approve_order oid a h now
  | RejectOrder oid => reject_order oid h
  | DispatchOrder o now now2 => dispatch_order o h now now2
  | ReceiveResult r => receive_result r h
  | ReceiveError e => receive_error e h
  | ReceiveProgress p => receive_progress p h
  | ReceiveDeadLetter d => receive_dead_letter d h
  | ReconcileOrder o => reconcile_order o h
  | CreateCommand o => create_command o h
  | StartCommand cid => start_command cid h
  | ProgressCommand cid p => progress_command cid p h
  | CommandResult cid r => command_result cid r h
  | CommandError cid e => command_error cid e h
  | CommandDeadLetter cid d => command_dead_letter cid d h
  | CommandReconcile cid r => command_reconcile cid r h
  end.

Fixpoint order_run (cs : list (OrderCall * Headers)) (s : OrderStore) : list (outcome OrderReply) * OrderStore :=
  match cs with
  | [] => ([], s)
  | (c, h) :: cs' =>
      let (r, s1) := order_call c h s in
      let (rs, s2) := order_run cs' s1 in (r :: rs, s2)
  end.
End Routes.
