(* ===== verification/Security.v ===== *)
(** * Machine tokens and signed webhooks

    [src/app/security.py]: the claims a machine token must carry, the tenants it
    may act for, and the HMAC signature of a webhook.  Decoding a token is the
    work of PyJWT ([jwt_decode]: signature, issuer, audience and required
    claims); the conversions of numbers and times are those of the standard
    library ([to_float], [float_of_text], [iso_timestamp]). *)

From Stdlib Require Import Ascii QArith Qabs.
From S2P Require Import Prelude Json Sha256 Principal AutomationPolicy.
Local Open Scope Z_scope.

(** ** Tokens *)

Abbreviation not_authorized msg := (Exc (Exn AuthorizationError msg)).

(** [text.partition(" ")]: before and after the first space *)
Fixpoint partition_space (s : string) : string * string :=
  match s with
  | EmptyString => (EmptyString, EmptyString)
  | String c s' =>
      if Ascii.eqb c " " then (EmptyString, s')
      else let (a, b) := partition_space s' in (String c a, b)
  end.

Section Tokens.
(* [float] of a number of a token: the exception it raises, or [None] for a
   value that is not finite *)
Context (to_float : json -> outcome (option Q)).
Context (jwt_decode : string -> outcome jdict).

(** [_strict_numeric_timestamp] *)
Definition strict_numeric_timestamp (claims : jdict) (name : string) : outcome Q :=
  match dict_get name claims with
  | Some (JInt _ as v) | Some (JFloat _ as v) =>
      match to_float v with
      | Exc e => Exc e
      | Ret None => not_authorized ("machine token " +:+ name +:+ " must be finite")
      | Ret (Some q) => Ret q
      end
  | _ => not_authorized ("machine token " +:+ name +:+ " must be a numeric timestamp")
  end.

Definition claimed_scopes (claims : jdict) : option (list string) :=
  match dict_get "scope" claims with
  | Some (JStr s) => Some (split s)
  | Some (JArr l) =>
      if forallb (fun item => match item with JStr _ => true | _ => false end) l then Some (json_strings l) else None
  | _ => None
  end.

Definition validate_claims (claims : jdict) (expected_client_id required_scope : string) : outcome unit :=
  if negb (is_value (dict_get "azp" claims) (JStr expected_client_id))
  then not_authorized "token azp does not match producer"
  else match claimed_scopes claims with
  | None => not_authorized "token scope claim is missing or malformed"
  | Some scopes =>
      if negb (mem_string required_scope scopes) then not_authorized "required scope is missing"
      else
      match strict_numeric_timestamp claims "iat" with
      | Exc e => Exc e
      | Ret issued_at =>
          match strict_numeric_timestamp claims "exp" with
          | Exc e => Exc e
          | Ret expires_at =>
              if Qle_bool expires_at issued_at || negb (Qle_bool (expires_at - issued_at)%Q 300%Q)
              then not_authorized "machine token lifetime exceeds the 300-second policy"
              else Ret tt
          end
      end
  end.

(** [KeycloakJwtVerifier.verify] *)
Definition verify_sync (token expected_client_id required_scope : string) : outcome jdict :=
  match jwt_decode token with
  | Exc e => Exc e
  | Ret claims => match validate_claims claims expected_client_id required_scope with Exc e => Exc e | Ret _ => Ret claims end
  end.
Definition verify (authorization expected_client_id required_scope : string) : outcome jdict :=
  let (scheme, token) := partition_space authorization in
  if negb (String.eqb (str_lower scheme) "bearer") || negb (str_nonempty token)
  then Exc (Exn AuthenticationError "Authorization must be a Bearer token")
  else match verify_sync token expected_client_id required_scope with
  | Ret claims => Ret claims
  | Exc e =>
      if isinstance e ["SecurityError"] || negb (is_exception e) then Exc e
      else Exc (Exn AuthenticationError "invalid bearer token")
  end.
End Tokens.

(** ** [authorize_tenant] *)

Definition authorized_tenants (claims : jdict) : list string :=
  let single := match dict_get "tenant_id" claims with
                | Some (JStr s) => if str_nonempty (strip s) then [strip s] else []
                | _ => []
                end in
  let multiple := match dict_get "tenant_ids" claims with
                  | Some (JArr l) =>
                      if forallb (fun item => match item with JStr _ => true | _ => false end) l
                      then List.filter str_nonempty (map strip (json_strings l)) else []
                  | _ => []
                  end in
  single ++ multiple.

Definition authorize_tenant (claims : jdict) (tenant_id : string) : outcome unit :=
  let authorized := authorized_tenants claims in
  if mem_string "*" authorized then not_authorized "wildcard tenant authorization is prohibited"
  else if bool_decide (authorized = []) then not_authorized "token has no authoritative tenant claim"
  else if negb (mem_string tenant_id authorized) then not_authorized "token is not authorized for the requested tenant"
  else Ret tt.

(** ** Webhook secrets, [Settings.webhook_secret] *)

Definition WEBHOOK_PRODUCERS : list string := [
  "odoo-integration"; "n8n-automation"; "vicidial-adapter"; "telnexa-gateway"; "klyrow-gateway"; "kyqra-gateway";
  "postly-adapter"].

(** [_secret_env_name] *)
Definition env_char (c : ascii) : ascii := if Ascii.eqb c "-" || Ascii.eqb c "." then "_"%char else upper_char c.
Fixpoint env_name (s : string) : string :=
  match s with EmptyString => EmptyString | String c s' => String (env_char c) (env_name s') end.
Definition secret_env_name (producer : string) : string := "WEBHOOK_SECRET_" +:+ env_name producer.

(** [secrets] holds the configured secret of every producer *)
Definition webhook_secret (secrets : list (string * list Z)) (producer : string) : outcome (list Z) :=
  if negb (mem_string producer WEBHOOK_PRODUCERS)
  then Exc (Exn ConfigurationError ("unknown webhook producer: " +:+ producer))
  else
  let secret := default [] (snd <$> List.find (fun kv => String.eqb (fst kv) producer) secrets) in
  if (length secret <? 32)%nat
  then Exc (Exn ConfigurationError (secret_env_name producer +:+ " must contain at least 32 bytes"))
  else Ret secret.

(** ** Signed requests *)

Abbreviation invalid_request msg := (Exc (Exn RequestValidationError msg)).
Abbreviation invalid_signature msg := (Exc (Exn SignatureError msg)).

(** the request's headers by their lower-case names *)
Abbreviation Headers := (list (string * string)).
Definition header (name : string) (headers : Headers) : option string :=
  snd <$> List.find (fun kv => String.eqb (fst kv) name) headers.
(** [headers[name]] once it is known to be there *)
Definition header_value (name : string) (headers : Headers) : string := default "" (header name headers).

Definition SIGNED_HEADERS : list string := [
  "authorization"; "content-type"; "idempotency-key"; "x-codestra-event-id"; "x-codestra-event-type"; "x-codestra-source";
  "x-codestra-tenant-id"; "x-codestra-timestamp"; "x-codestra-signature"; "x-correlation-id"].

Record SignedRequest := {
  sg_body_sha256 : string;
  sg_event_id : string;
  sg_event_type : string;
  sg_source_client_id : string;
  sg_tenant_id : string;
  sg_correlation_id : string;
  sg_idempotency_key : string;
  sg_timestamp : string;
}.

Record SecuritySettings := { webhook_max_clock_skew_seconds : Z; webhook_secrets : list (string * list Z) }.

Section Signed.
(* [float(text)], when it parses, and whether it is finite; the instant
   [datetime.fromisoformat] reads, [None] inside when it has no zone *)
Context (float_of_text : string -> option (option Q)).
Context (iso_timestamp : string -> option (option Q)).

(** [raw.replace("Z", "+00:00")] *)
Fixpoint replace_z (s : string) : string :=
  match s with
  | EmptyString => EmptyString
  | String c s' => if Ascii.eqb c "Z" then "+00:00" +:+ replace_z s' else String c (replace_z s')
  end.

(** [_parse_timestamp] *)
Definition parse_timestamp (raw : string) : outcome Q :=
  match float_of_text raw with
  | Some None => invalid_request "X-Codestra-Timestamp must be finite"
  | Some (Some q) => Ret q
  | None =>
      match iso_timestamp (replace_z raw) with
      | None => invalid_request "X-Codestra-Timestamp must be epoch seconds or ISO-8601"
      | Some None => invalid_request "X-Codestra-Timestamp must include timezone"
      | Some (Some q) => Ret q
      end
  end.

Definition newline : string := String (ascii_of_nat 10) EmptyString.
Definition is_hex_lower (c : ascii) : bool := char_in 48 57 c || char_in 97 102 c.
Definition hex_digest (bytes : list Z) : string := concat_strings (map hex_byte bytes).

(** the text the signature is taken over *)
Definition signed_text (method path timestamp event_id source body_sha : string) : string :=
  join newline ["v1"; upper method; path; timestamp; event_id; source; body_sha].
Definition expected_signature (secret : list Z) (text : string) : string := hex_digest (hmac_sha256 secret (bytes_of text)).

(** [s[n:]] *)
Definition str_drop (n : nat) (s : string) : string := String.substring n (String.length s - n) s.

(** [before_char ";"] of the content type, without the spaces around it *)
Definition media_type (s : string) : string := str_lower (strip (before_char ";" s)).

Definition verify_signed_request (settings : SecuritySettings) (now : Q) (method path body : string) (headers : Headers)
    (expected_source_client_id : string) : outcome SignedRequest :=
  let value name := header_value name headers in
  let missing := List.filter (fun name => negb (str_nonempty (value name))) SIGNED_HEADERS in
  if negb (bool_decide (missing = []))
  then invalid_request ("missing required headers: " +:+ join ", " missing)
  else if negb (String.eqb (media_type (value "content-type")) "application/json")
  then invalid_request "Content-Type must be application/json"
  else
  let source := value "x-codestra-source" in
  if negb (String.eqb source expected_source_client_id)
  then not_authorized "X-Codestra-Source does not match route producer"
  else
  let event_id := value "x-codestra-event-id" in
  if negb (String.eqb (value "idempotency-key") event_id)
  then invalid_request "Idempotency-Key must equal X-Codestra-Event-Id"
  else
  let timestamp := value "x-codestra-timestamp" in
  match parse_timestamp timestamp with
  | Exc e => Exc e
  | Ret observed =>
      if negb (Qle_bool (Qabs (now - observed)) (inject_Z (webhook_max_clock_skew_seconds settings)))
      then invalid_signature "webhook timestamp is outside the allowed clock skew"
      else
      let body_sha := sha256_hex body in
      match webhook_secret (webhook_secrets settings) expected_source_client_id with
      | Exc e => Exc e
      | Ret secret =>
          let expected := expected_signature secret (signed_text method path timestamp event_id source body_sha) in
          let supplied := value "x-codestra-signature" in
          if negb (starts_with "sha256=" supplied)
          then invalid_signature "X-Codestra-Signature must use sha256=<hex>"
          else
          let supplied_hex := str_lower (str_drop 7 supplied) in
          if negb (String.length supplied_hex =? 64)%nat || negb (str_forallb is_hex_lower supplied_hex)
          then invalid_signature "X-Codestra-Signature contains invalid hex"
          else if negb (String.eqb supplied_hex expected)
          then invalid_signature "invalid webhook signature"
          else Ret {|
            sg_body_sha256 := body_sha; sg_event_id := event_id; sg_event_type := value "x-codestra-event-type";
            sg_source_client_id := source; sg_tenant_id := value "x-codestra-tenant-id";
            sg_correlation_id := value "x-correlation-id"; sg_idempotency_key := value "idempotency-key";
            sg_timestamp := timestamp |}
      end
  end.
End Signed.
