(* ===== verification/Automation.v ===== *)
(** * The automation control plane

    The state machine of automation jobs of [src/app/automation_v2.py]: the
    request models, the routes of events to workflows, and
    [MemoryAutomationStore], whose methods each run under the store's lock.  A
    job is created by an event, claimed with its delivery token, kept alive and
    reported on under a lease, and ended, retried or dead-lettered; a dead
    letter is replayed with an approval.

    The clock is an argument of every method ([now], and [now2] where a method
    reads it a second time); so is the token a method draws from
    [secrets.token_urlsafe(32)]. *)

From stdpp Require Import pretty.
From Stdlib Require Import Ascii.
From S2P Require Import Prelude Json PyValue Clock Sha256 Uuid Commands Inbox.
Local Open Scope Z_scope.

Definition LEASE_SECONDS : Z := 60.
Definition MAX_SAFE_METADATA_BYTES : Z := 16384.
Definition MAX_AUTOMATION_PAYLOAD_BYTES : Z := 262144.
Definition SENSITIVE_PARTS : list string :=
  ["authorization"; "token"; "password"; "secret"; "credential"; "private_key"; "api_key"; "access_token"; "refresh_token"].
Definition SAFE_REPLAY_CLASSIFICATIONS : list string :=
  ["NO_EFFECT"; "IDEMPOTENT_CONFIRMED"; "READBACK_CONFIRMED_NOT_APPLIED"].

Inductive JobState :=
  | PENDING | DISPATCHING | CLAIMED | RUNNING | WAITING_APPROVAL | WAITING_TIMER | WAITING_COMMAND
  | RETRY_SCHEDULED | COMPLETED | FAILED_TERMINAL | DEAD_LETTER | CANCELLED.

#[export] Instance JobState_eq_dec : EqDecision JobState.
Proof. solve_decision. Defined.

Definition job_state_name (s : JobState) : string :=
  match s with
  | PENDING => "PENDING" | DISPATCHING => "DISPATCHING" | CLAIMED => "CLAIMED" | RUNNING => "RUNNING"
  | WAITING_APPROVAL => "WAITING_APPROVAL" | WAITING_TIMER => "WAITING_TIMER"
  | WAITING_COMMAND => "WAITING_COMMAND" | RETRY_SCHEDULED => "RETRY_SCHEDULED" | COMPLETED => "COMPLETED"
  | FAILED_TERMINAL => "FAILED_TERMINAL" | DEAD_LETTER => "DEAD_LETTER" | CANCELLED => "CANCELLED"
  end.

Definition is_state (s : JobState) (l : list JobState) : bool := bool_decide (s ∈ l).

(** an aware [datetime] of a request: its instant and its [isoformat()], which
    keeps the offset it was sent with *)
Record AwareDatetime := { aware_instant : instant; aware_text : string }.

(** ** Requests

    The validators of a model are the [_valid] predicate after it. *)

Record MirroredMutation := { tenant_id : string; correlation_id : string; idempotency_key : string }.

Definition mirrored_valid (m : MirroredMutation) : bool :=
  len_between 1 128 (tenant_id m) && len_between 1 180 (correlation_id m) && len_between 8 180 (idempotency_key m).

Record JobClaimRequest := {
  cl_mutation : MirroredMutation;
  cl_job_id : UUID;
  cl_delivery_token : string;
  cl_workflow_key : string;
  cl_workflow_version : Z;
  cl_execution_id : UUID;
}.
Definition claim_valid (b : JobClaimRequest) : bool :=
  mirrored_valid (cl_mutation b) && len_between 32 512 (cl_delivery_token b) && len_between 1 180 (cl_workflow_key b) &&
  (1 <=? cl_workflow_version b) && (cl_workflow_version b <=? 2147483647).

Record LeaseMutation := { le_mutation : MirroredMutation; le_lease_token : string; le_execution_id : UUID }.
Definition lease_valid (b : LeaseMutation) : bool :=
  mirrored_valid (le_mutation b) && len_between 32 512 (le_lease_token b).

(** ** [_validate_document_size] and [_validate_safe_document] *)

Definition json_bytes (v : json) : Z := Z.of_nat (String.length (dumps v)).
Definition digest (v : json) : string := sha256_hex (dumps v).

Definition validate_document_size (label : string) (maximum : Z) (v : json) : outcome unit :=
  if maximum <? json_bytes v
  then Exc (Exn ValueError (label +:+ " exceeds " +:+ pretty maximum +:+ " bytes")) else Ret tt.

(** of ASCII keys: [str_lower] folds no other letter *)
Definition sensitive_part (k : string) : bool :=
  existsb (fun part => str_contains part (str_lower k)) SENSITIVE_PARTS.

(** [visit] *)
Fixpoint visit (label path : string) (item : json) {struct item} : outcome unit :=
  match item with
  | JObj d =>
      (fix go (d : jdict) : outcome unit :=
         match d with
         | [] => Ret tt
         | (k, child) :: d' =>
             if sensitive_part k
             then Exc (Exn ValueError (label +:+ " contains sensitive key at " +:+ path +:+ "." +:+ k))
             else visit label (path +:+ "." +:+ k) child ??; go d'
         end) d
  | JArr l =>
      (fix go (i : nat) (l : list json) : outcome unit :=
         match l with
         | [] => Ret tt
         | child :: l' => visit label (path +:+ "[" +:+ pretty i +:+ "]") child ??; go (S i) l'
         end) 0%nat l
  | _ => Ret tt
  end.
Definition validate_safe_document (label : string) (maximum : Z) (v : json) : outcome unit :=
  validate_document_size label maximum v ??; visit label label v.

Definition accepted_by (o : outcome unit) : bool := match o with Ret _ => true | Exc _ => false end.

(** [^[A-Za-z0-9][A-Za-z0-9_.:-]*$] *)
Definition code_char (c : ascii) : bool :=
  char_in 48 57 c || char_in 65 90 c || char_in 97 122 c || Ascii.eqb c "_" || Ascii.eqb c "." || Ascii.eqb c ":" ||
  Ascii.eqb c "-".
Definition code_pattern (s : string) : bool :=
  match s with
  | EmptyString => false
  | String c s' => (char_in 48 57 c || char_in 65 90 c || char_in 97 122 c) && str_forallb code_char s'
  end.

Inductive StepState := step_started | step_completed | step_failed | step_waiting.
Definition step_state_name (s : StepState) : string :=
  match s with step_started => "STARTED" | step_completed => "COMPLETED" | step_failed => "FAILED" | step_waiting => "WAITING" end.

Record StepRecord := {
  st_lease : LeaseMutation;
  st_step_key : string;
  st_step_state : StepState;
  st_recorded_at : AwareDatetime;
  st_safe_metadata : jdict;
}.
Definition step_valid (b : StepRecord) : bool :=
  lease_valid (st_lease b) && len_between 1 180 (st_step_key b) &&
  accepted_by (validate_safe_document "safe_metadata" MAX_SAFE_METADATA_BYTES (JObj (st_safe_metadata b))).

Record TerminalResult := { tr_lease : LeaseMutation; tr_result_code : string; tr_safe_result : jdict }.
Definition terminal_valid (b : TerminalResult) : bool :=
  lease_valid (tr_lease b) && len_between 1 180 (tr_result_code b) && code_pattern (tr_result_code b) &&
  accepted_by (validate_safe_document "safe_result" MAX_SAFE_METADATA_BYTES (JObj (tr_safe_result b))).

Record FailureResult := {
  fr_lease : LeaseMutation;
  fr_error_code : string;
  fr_retryable : bool;
  fr_unknown_outcome : bool;
  fr_safe_error : jdict;
}.
Definition failure_valid (b : FailureResult) : bool :=
  lease_valid (fr_lease b) && len_between 1 180 (fr_error_code b) && code_pattern (fr_error_code b) &&
  accepted_by (validate_safe_document "safe_error" MAX_SAFE_METADATA_BYTES (JObj (fr_safe_error b))) &&
  negb (fr_unknown_outcome b && fr_retryable b).

Record ApprovalRequest := {
  ar_mutation : MirroredMutation;
  ar_job_id : UUID;
  ar_approval_type : string;
  ar_summary : string;
  ar_expires_at : AwareDatetime;
}.
(** [^[A-Z][A-Z0-9_]*$] *)
Definition type_pattern (s : string) : bool :=
  match s with
  | EmptyString => false
  | String c s' => char_in 65 90 c && str_forallb (fun c => char_in 65 90 c || char_in 48 57 c || Ascii.eqb c "_") s'
  end.
Definition approval_valid (now : instant) (b : ApprovalRequest) : bool :=
  mirrored_valid (ar_mutation b) && len_between 1 100 (ar_approval_type b) && type_pattern (ar_approval_type b) &&
  len_between 1 1000 (ar_summary b) && (now <? aware_instant (ar_expires_at b)).

Record DeadLetterReplayRequest := {
  rp_mutation : MirroredMutation;
  rp_approval_id : UUID;
  rp_expected_version : Z;
  rp_original_effect_fingerprint : string;
  rp_safe_replay_classification : string;
  rp_replay_reason : string;
}.
Definition replay_valid (b : DeadLetterReplayRequest) : bool :=
  mirrored_valid (rp_mutation b) && (1 <=? rp_expected_version b) &&
  (String.length (rp_original_effect_fingerprint b) =? 64)%nat && str_forallb is_hex (rp_original_effect_fingerprint b) &&
  mem_string (rp_safe_replay_classification b) SAFE_REPLAY_CLASSIFICATIONS && len_between 1 1000 (rp_replay_reason b).

Inductive ReconcileMode := mode_read | mode_plan.
Definition mode_name (m : ReconcileMode) : string := match m with mode_read => "READ" | mode_plan => "PLAN" end.
#[export] Instance ReconcileMode_eq_dec : EqDecision ReconcileMode.
Proof. solve_decision. Defined.

Record ReconciliationRequest := { rc_mutation : MirroredMutation; rc_mode : ReconcileMode; rc_job_ids : list UUID }.
Definition reconciliation_valid (b : ReconciliationRequest) : bool :=
  mirrored_valid (rc_mutation b) && (length (rc_job_ids b) <=? 1000)%nat.

(** ** Routes *)

Record WorkflowRoute := {
  event_type : string;
  workflow_key : string;
  workflow_family : string;
  workflow_version : Z;
  route_client_id : string;
  max_attempts : Z;
  external_effect : bool;
}.

Abbreviation WorkflowRouter := (list WorkflowRoute).

(** [int(text)]: spaces around, a sign, decimal digits with single underscores between them *)
Fixpoint int_digits (acc : Z) (after_digit : bool) (s : string) : option Z :=
  match s with
  | EmptyString => if after_digit then Some acc else None
  | String c s' =>
      if char_in 48 57 c then int_digits (10 * acc + Z.of_nat (nat_of_ascii c - 48)) true s'
      else if Ascii.eqb c "_" && after_digit then int_digits acc false s' else None
  end.
Definition int_of_text (s : string) : option Z :=
  match Uuid.strip Uuid.is_space s with
  | String c s' =>
      if Ascii.eqb c "+" then int_digits 0 false s'
      else if Ascii.eqb c "-" then Z.opp <$> int_digits 0 false s'
      else int_digits 0 false (String c s')
  | EmptyString => None
  end.

Section Load.
(* [int] of a float, by its [repr] *)
Context (int_of_float : string -> outcome Z).

Definition py_int (v : json) : outcome Z :=
  match v with
  | JInt z => Ret z
  | JBool b => Ret (Z.b2z b)
  | JFloat r => int_of_float r
  | JStr s => match int_of_text s with
              | Some z => Ret z
              | None => Exc (Exn ValueError ("invalid literal for int() with base 10: " +:+ repr_string s))
              end
  | _ => Exc (Exn TypeError ("int() argument must be a string, a bytes-like object or a real number, not '" +:+
                             type_name v +:+ "'"))
  end.

Definition is_true (v : option json) : bool := match v with Some (JBool true) => true | _ => false end.

Definition load_route (row : jdict) : outcome WorkflowRoute :=
  let text k := py_str (default (JStr "") (dict_get k row)) in
  let? version := py_int (default (JInt 0) (dict_get "workflow_version" row)) in
  let? attempts := py_int (default (JInt 0) (dict_get "max_attempts" row)) in
  Ret {| event_type := text "event_type"; workflow_key := text "workflow_key";
         workflow_family := text "workflow_family"; workflow_version := version;
         route_client_id := text "client_id"; max_attempts := attempts;
         external_effect := is_true (dict_get "external_effect" row) |}.

Definition route_identity (r : WorkflowRoute) : string * string * Z := (event_type r, workflow_key r, workflow_version r).

(** the loop over the rows; [seen] are the identities of the routes before *)
Fixpoint load_routes (seen : list (string * string * Z)) (rows : list json) : outcome (list WorkflowRoute) :=
  match rows with
  | [] => Ret []
  | JObj row :: rows' =>
      let? r := load_route row in
      if negb (str_nonempty (event_type r)) || negb (str_nonempty (workflow_key r)) || (workflow_version r =? 0) ||
         (workflow_version r <? 1) || (max_attempts r <? 1) || bool_decide (route_identity r ∈ seen) || external_effect r
      then Exc (Exn RuntimeError "automation workflow route violates first-release safety")
      else let? rs := load_routes (route_identity r :: seen) rows' in Ret (r :: rs)
  | _ :: _ => Exc (Exn RuntimeError "automation workflow route must be an object")
  end.

(** [WorkflowRouter.load], from the document *)
Definition load_router (raw : json) : outcome WorkflowRouter :=
  match raw with
  | JObj d =>
      let says k v := match dict_get k d with Some (JStr s) => String.eqb s v | _ => false end in
      if negb (says "schema_version" "1.0") || negb (says "status" "SOURCE_ONLY_DISABLED")
      then Exc (Exn RuntimeError "automation workflow routing authority is invalid")
      else match dict_get "routes" d with
      | Some (JArr (row :: rows)) => load_routes [] (row :: rows)
      | _ => Exc (Exn RuntimeError "automation workflow routing contains no routes")
      end
  | _ => Exc (Exn (Foreign "AttributeError" ["Exception"]) ("'" +:+ type_name raw +:+ "' object has no attribute 'get'"))
  end.
End Load.

(** the routes of an event, in the order of the document *)
Definition for_event (r : WorkflowRouter) (type : string) : list WorkflowRoute :=
  List.filter (fun x => String.eqb (event_type x) type) r.

(** ** Identities and tokens *)

Definition NAMESPACE_URL : UUID := 0x6ba7b8119dad11d180b400c04fd430c8%N.

Definition token_digest (token : string) : string := sha256_hex token.

Definition lease_token (delivery_token : string) (job execution : UUID) (client_id : string) : string :=
  urlsafe_b64 (hmac_sha256 (bytes_of delivery_token)
                 (bytes_of (uuid_str job +:+ ":" +:+ uuid_str execution +:+ ":" +:+ client_id))).

Definition job_id_text (t event : string) (r : WorkflowRoute) : string :=
  "codestra-automation-job:" +:+ t +:+ ":" +:+ event +:+ ":" +:+ workflow_key r +:+ ":" +:+ pretty (workflow_version r).
Definition job_id_of (t event : string) (r : WorkflowRoute) : UUID := uuid5 NAMESPACE_URL (job_id_text t event r).

Definition dead_letter_id_of (t : string) (job : UUID) : UUID :=
  uuid5 NAMESPACE_URL ("codestra-dead-letter:" +:+ t +:+ ":" +:+ uuid_str job).
Definition approval_id_of (t : string) (job : UUID) (key : string) : UUID :=
  uuid5 NAMESPACE_URL ("codestra-approval:" +:+ t +:+ ":" +:+ uuid_str job +:+ ":" +:+ key).
Definition reconciliation_id_of (t key : string) : UUID :=
  uuid5 NAMESPACE_URL ("codestra-automation-reconcile:" +:+ t +:+ ":" +:+ key).

(** the identity of a failure, [fingerprint] of [fail] *)
Definition effect_fingerprint (t : string) (job : UUID) (workflow error_code : string) : string :=
  digest (JObj [("tenant_id", JStr t); ("job_id", JStr (uuid_str job)); ("workflow_key", JStr workflow);
                ("error_code", JStr error_code)]).

(** ** Jobs

    What never changes about a job, and the fields its methods write. *)

Record JobData := {
  jb_job_id : UUID;
  jb_tenant_id : string;
  jb_event_id : string;
  jb_correlation_id : string;
  jb_causation_id : string;
  jb_occurred_at : string;
  jb_workflow_key : string;
  jb_workflow_family : string;
  jb_workflow_version : Z;
  jb_expected_client_id : string;
  jb_actor_context : jdict;
  jb_safe_payload : jdict;
  jb_max_attempts : Z;
  jb_created_at : instant;
}.

Record RawJob := mkJob {
  job_data : JobData;
  job_state : JobState;
  delivery_token_sha256 : string;
  delivery_token_used_at : option instant;
  lease_token_sha256 : option string;
  lease_client_id : option string;
  execution_id : option UUID;
  lease_expires_at : option instant;
  attempt_count : Z;
  result_code : option string;
  error_code : option string;
  terminal_idempotency_key : option string;
  terminal_request_sha256 : option string;
  resource_version : Z;
  updated_at : instant;
}.

(** [AutomationJob] *)
Record AutomationJob := {
  aj_data : JobData;
  aj_state : JobState;
  aj_execution_id : option UUID;
  aj_lease_client_id : option string;
  aj_lease_expires_at : option instant;
  aj_attempt_count : Z;
  aj_result_code : option string;
  aj_error_code : option string;
  aj_resource_version : Z;
  aj_updated_at : instant;
  aj_duplicate : bool;
}.

(** [_job] *)
Definition job_view (raw : RawJob) (duplicate : bool) : AutomationJob := {|
  aj_data := job_data raw; aj_state := job_state raw; aj_execution_id := execution_id raw;
  aj_lease_client_id := lease_client_id raw; aj_lease_expires_at := lease_expires_at raw;
  aj_attempt_count := attempt_count raw; aj_result_code := result_code raw; aj_error_code := error_code raw;
  aj_resource_version := resource_version raw; aj_updated_at := updated_at raw; aj_duplicate := duplicate |}.

Record JobClaimResponse := {
  cr_job : AutomationJob;
  cr_lease_token : string;
  cr_lease_expires_at : option instant;
  cr_duplicate : bool;
}.

Record StepEvidence := {
  se_evidence_id : nat;
  se_job_id : UUID;
  se_execution_id : UUID;
  se_step_key : string;
  se_step_state : StepState;
  se_safe_metadata : jdict;
  se_recorded_at : instant;
  se_duplicate : bool;
}.

Inductive ApprovalState := ap_pending | ap_approved | ap_rejected | ap_expired.
#[export] Instance ApprovalState_eq_dec : EqDecision ApprovalState.
Proof. solve_decision. Defined.

Record ApprovalRecord := {
  ap_approval_id : UUID;
  ap_tenant_id : string;
  ap_job_id : UUID;
  ap_approval_type : string;
  ap_summary : string;
  ap_state : ApprovalState;
  ap_requested_by : string;
  ap_decided_by : option string;
  ap_expires_at : instant;
  ap_created_at : instant;
  ap_updated_at : instant;
  ap_resource_version : Z;
  ap_duplicate : bool;
}.

Inductive DeadState := dl_open | dl_replay_requested | dl_replayed | dl_closed.
#[export] Instance DeadState_eq_dec : EqDecision DeadState.
Proof. solve_decision. Defined.

Record DeadLetterRecord := {
  dl_dead_letter_id : UUID;
  dl_tenant_id : string;
  dl_job_id : UUID;
  dl_workflow_key : string;
  dl_workflow_family : string;
  dl_original_effect_fingerprint : string;
  dl_safe_payload : jdict;
  dl_state : DeadState;
  dl_resource_version : Z;
  dl_created_at : instant;
  dl_updated_at : instant;
}.

Record ReconciliationRun := {
  rr_reconciliation_id : UUID;
  rr_tenant_id : string;
  rr_mode : ReconcileMode;
  rr_requested_by : string;
  rr_inspected_jobs : nat;
  rr_state_counts : list (string * Z);
  rr_expired_leases : nat;
  rr_missing_dispatches : nat;
  rr_safe_plan : list (UUID * string);
  rr_created_at : instant;
  rr_duplicate : bool;
}.

(** a wake-up of the dispatch outbox; its payload repeats the job's identity *)
Inductive DispatchState := dsp_pending | dsp_claimed.
Record Dispatch := { dsp_delivery_token : string; dsp_payload : jdict; dsp_state : DispatchState }.

Definition wake_payload (j : JobData) (token : string) : jdict :=
  [("job_id", JStr (uuid_str (jb_job_id j))); ("workflow_key", JStr (jb_workflow_key j));
   ("workflow_version", JInt (jb_workflow_version j)); ("correlation_id", JStr (jb_correlation_id j));
   ("delivery_token", JStr token)].
Definition new_dispatch (j : JobData) (token : string) : Dispatch :=
  {| dsp_delivery_token := token; dsp_payload := wake_payload j token; dsp_state := dsp_pending |}.

(** ** [MemoryAutomationStore]

    [job_keys] is the insertion order of the dictionary of jobs. *)

Abbreviation JobKey := (string * UUID)%type.

Record MemoryAutomationStore := mkStore {
  jobs : gmap JobKey RawJob;
  job_keys : list JobKey;
  steps : gmap (JobKey * string) (string * StepEvidence);
  approvals : gmap JobKey (string * ApprovalRecord);
  approval_idempotency : gmap (JobKey * string) UUID;
  dead_letters : gmap JobKey DeadLetterRecord;
  reconciliations : gmap (string * string) (string * ReconciliationRun);
  dispatches : gmap JobKey Dispatch;
}.
Abbreviation AM := (M MemoryAutomationStore).

Definition empty_automation : MemoryAutomationStore := mkStore ∅ [] ∅ ∅ ∅ ∅ ∅ ∅.

Definition set_job (k : JobKey) (j : RawJob) (s : MemoryAutomationStore) : MemoryAutomationStore :=
  mkStore (<[k := j]> (jobs s)) (job_keys s) (steps s) (approvals s) (approval_idempotency s) (dead_letters s)
    (reconciliations s) (dispatches s).
Definition add_job (k : JobKey) (j : RawJob) (s : MemoryAutomationStore) : MemoryAutomationStore :=
  mkStore (<[k := j]> (jobs s)) (job_keys s ++ [k]) (steps s) (approvals s) (approval_idempotency s) (dead_letters s)
    (reconciliations s) (dispatches s).
Definition set_step (k : JobKey * string) (e : string * StepEvidence) (s : MemoryAutomationStore) : MemoryAutomationStore :=
  mkStore (jobs s) (job_keys s) (<[k := e]> (steps s)) (approvals s) (approval_idempotency s) (dead_letters s)
    (reconciliations s) (dispatches s).
Definition set_approval (k : JobKey) (a : string * ApprovalRecord) (s : MemoryAutomationStore) : MemoryAutomationStore :=
  mkStore (jobs s) (job_keys s) (steps s) (<[k := a]> (approvals s)) (approval_idempotency s) (dead_letters s)
    (reconciliations s) (dispatches s).
Definition set_approval_key (k : JobKey * string) (u : UUID) (s : MemoryAutomationStore) : MemoryAutomationStore :=
  mkStore (jobs s) (job_keys s) (steps s) (approvals s) (<[k := u]> (approval_idempotency s)) (dead_letters s)
    (reconciliations s) (dispatches s).
Definition set_dead (k : JobKey) (d : DeadLetterRecord) (s : MemoryAutomationStore) : MemoryAutomationStore :=
  mkStore (jobs s) (job_keys s) (steps s) (approvals s) (approval_idempotency s) (<[k := d]> (dead_letters s))
    (reconciliations s) (dispatches s).
Definition set_reconciliation (k : string * string) (r : string * ReconciliationRun) (s : MemoryAutomationStore) :
    MemoryAutomationStore :=
  mkStore (jobs s) (job_keys s) (steps s) (approvals s) (approval_idempotency s) (dead_letters s)
    (<[k := r]> (reconciliations s)) (dispatches s).
Definition set_dispatch (k : JobKey) (d : Dispatch) (s : MemoryAutomationStore) : MemoryAutomationStore :=
  mkStore (jobs s) (job_keys s) (steps s) (approvals s) (approval_idempotency s) (dead_letters s)
    (reconciliations s) (<[k := d]> (dispatches s)).

Abbreviation a_conflict msg := (raise AutomationConflict msg).
Abbreviation a_denied msg := (raise AutomationAuthorizationDenied msg).
Abbreviation a_missing msg := (raise AutomationNotFound msg).

(** [_raw] *)
Definition raw_job (t : string) (job : UUID) : AM RawJob := fun s =>
  match jobs s !! (t, job) with
  | Some raw => (Ret raw, s)
  | None => a_missing "automation job was not found" s
  end.

(** [_active_lease] *)
Definition LEASED_STATES : list JobState := [CLAIMED; RUNNING; WAITING_APPROVAL; WAITING_TIMER; WAITING_COMMAND].
Definition holds_lease (now : instant) (b : LeaseMutation) (client_id : string) (raw : RawJob) : bool :=
  bool_decide (lease_token_sha256 raw = Some (token_digest (le_lease_token b))) &&
  bool_decide (execution_id raw = Some (le_execution_id b)) &&
  bool_decide (lease_client_id raw = Some client_id) &&
  match lease_expires_at raw with Some t => now <? t | None => false end &&
  is_state (job_state raw) LEASED_STATES.
Definition active_lease {S} (now : instant) (b : LeaseMutation) (client_id : string) (raw : RawJob) : M S unit :=
  if holds_lease now b client_id raw then ret tt else a_conflict "active automation lease is required".

(** ** [enqueue_event] *)

Definition new_job_data (e : EventEnvelope) (r : WorkflowRoute) (source_client_id : string) (now : instant) : JobData := {|
  jb_job_id := job_id_of (ev_tenant_id e) (ev_event_id e) r; jb_tenant_id := ev_tenant_id e;
  jb_event_id := ev_event_id e; jb_correlation_id := ev_correlation_id e; jb_causation_id := ev_causation_id e;
  jb_occurred_at := ev_occurred_at e; jb_workflow_key := workflow_key r; jb_workflow_family := workflow_family r;
  jb_workflow_version := workflow_version r; jb_expected_client_id := route_client_id r;
  jb_actor_context := [("source_client_id", JStr source_client_id); ("source_event_id", JStr (ev_event_id e))];
  jb_safe_payload := ev_payload e; jb_max_attempts := max_attempts r; jb_created_at := now |}.

Definition new_job (j : JobData) (token : string) : RawJob :=
  mkJob j PENDING (token_digest token) None None None None None 0 None None None None 1 (jb_created_at j).

Definition enqueue_event (token : string) (now : instant) (e : EventEnvelope) (r : WorkflowRoute)
    (source_client_id : string) : AM unit :=
  let k := (ev_tenant_id e, job_id_of (ev_tenant_id e) (ev_event_id e) r) in
  let! s := gets id in
  match jobs s !! k with
  | Some _ => ret tt
  | None =>
      let j := new_job_data e r source_client_id now in
      modify (add_job k (new_job j token)) ;;;
      modify (set_dispatch k (new_dispatch j token))
  end.

(** ** [claim] *)

Definition claimed_job (now : instant) (lease_hash : string) (client_id : string) (execution : UUID) (raw : RawJob) : RawJob :=
  mkJob (job_data raw) CLAIMED (delivery_token_sha256 raw) (Some now) (Some lease_hash) (Some client_id)
    (Some execution) (Some (now + seconds LEASE_SECONDS)) (attempt_count raw + 1) (result_code raw) (error_code raw)
    (terminal_idempotency_key raw) (terminal_request_sha256 raw) (resource_version raw + 1) now.

(** the delivery token was used by this very claim, whose lease still runs *)
Definition same_claim (now : instant) (lease_hash client_id : string) (execution : UUID) (raw : RawJob) : bool :=
  bool_decide (execution_id raw = Some execution) && bool_decide (lease_client_id raw = Some client_id) &&
  match lease_expires_at raw with Some t => now <? t | None => false end &&
  bool_decide (lease_token_sha256 raw = Some lease_hash).

Definition claim_response (raw : RawJob) (token : string) (duplicate : bool) : JobClaimResponse :=
  {| cr_job := job_view raw duplicate; cr_lease_token := token; cr_lease_expires_at := lease_expires_at raw;
     cr_duplicate := duplicate |}.

Definition claim_dispatch (d : Dispatch) : Dispatch :=
  {| dsp_delivery_token := dsp_delivery_token d; dsp_payload := dsp_payload d; dsp_state := dsp_claimed |}.
(** [self.dispatches[key]["state"] = "CLAIMED"] *)
Definition dispatch_claimed (k : JobKey) : AM unit := fun s =>
  match dispatches s !! k with
  | Some d => (Ret tt, set_dispatch k (claim_dispatch d) s)
  | None => raise KeyError "" s
  end.

Definition claim (now : instant) (b : JobClaimRequest) (client_id : string) : AM JobClaimResponse :=
  let k := (tenant_id (cl_mutation b), cl_job_id b) in
  let! raw := raw_job (tenant_id (cl_mutation b)) (cl_job_id b) in
  if negb (String.eqb (jb_workflow_key (job_data raw)) (cl_workflow_key b)) ||
     negb (jb_workflow_version (job_data raw) =? cl_workflow_version b)
  then a_conflict "claim workflow identity does not match durable job"
  else if negb (String.eqb (jb_expected_client_id (job_data raw)) client_id)
  then a_denied "client does not own the job workflow family"
  else if negb (String.eqb (delivery_token_sha256 raw) (token_digest (cl_delivery_token b)))
  then a_denied "delivery token is invalid"
  else
  let token := lease_token (cl_delivery_token b) (cl_job_id b) (cl_execution_id b) client_id in
  match delivery_token_used_at raw with
  | Some _ =>
      if same_claim now (token_digest token) client_id (cl_execution_id b) raw
      then ret (claim_response raw token true)
      else a_conflict "delivery token was already consumed"
  | None =>
      if negb (is_state (job_state raw) [PENDING; RETRY_SCHEDULED])
      then a_conflict "automation job is not claimable"
      else
      let raw := claimed_job now (token_digest token) client_id (cl_execution_id b) raw in
      modify (set_job k raw) ;;;
      dispatch_claimed k ;;;
      ret (claim_response raw token false)
  end.

Definition get_job (t : string) (job : UUID) : AM AutomationJob := let! raw := raw_job t job in ret (job_view raw false).

(** ** [heartbeat] and [record_step] *)

Definition running_job (now : instant) (expires : option instant) (raw : RawJob) : RawJob :=
  mkJob (job_data raw) RUNNING (delivery_token_sha256 raw) (delivery_token_used_at raw) (lease_token_sha256 raw)
    (lease_client_id raw) (execution_id raw) expires (attempt_count raw) (result_code raw) (error_code raw)
    (terminal_idempotency_key raw) (terminal_request_sha256 raw) (resource_version raw + 1) now.

Definition heartbeat (now now2 : instant) (job : UUID) (b : LeaseMutation) (client_id : string) : AM AutomationJob :=
  let t := tenant_id (le_mutation b) in
  let! raw := raw_job t job in
  active_lease now b client_id raw ;;;
  let raw := running_job now2 (Some (now2 + seconds LEASE_SECONDS)) raw in
  modify (set_job (t, job) raw) ;;;
  ret (job_view raw false).

Definition step_digest (b : StepRecord) : string :=
  digest (JObj [("execution_id", JStr (uuid_str (le_execution_id (st_lease b)))); ("step_key", JStr (st_step_key b));
                ("step_state", JStr (step_state_name (st_step_state b)));
                ("recorded_at", JStr (aware_text (st_recorded_at b))); ("safe_metadata", JObj (st_safe_metadata b))]).

Definition duplicate_step (e : StepEvidence) : StepEvidence := {|
  se_evidence_id := se_evidence_id e; se_job_id := se_job_id e; se_execution_id := se_execution_id e;
  se_step_key := se_step_key e; se_step_state := se_step_state e; se_safe_metadata := se_safe_metadata e;
  se_recorded_at := se_recorded_at e; se_duplicate := true |}.
Definition new_step (n : nat) (job : UUID) (b : StepRecord) : StepEvidence := {|
  se_evidence_id := n; se_job_id := job; se_execution_id := le_execution_id (st_lease b); se_step_key := st_step_key b;
  se_step_state := st_step_state b; se_safe_metadata := st_safe_metadata b;
  se_recorded_at := aware_instant (st_recorded_at b); se_duplicate := false |}.

Definition record_step (now now2 : instant) (job : UUID) (b : StepRecord) (client_id : string) : AM StepEvidence :=
  let t := tenant_id (le_mutation (st_lease b)) in
  let! raw := raw_job t job in
  active_lease now (st_lease b) client_id raw ;;;
  let k := ((t, job), idempotency_key (le_mutation (st_lease b))) in
  let! s := gets id in
  match steps s !! k with
  | Some (d, e) =>
      if negb (String.eqb d (step_digest b))
      then a_conflict "step idempotency key was reused with different content"
      else ret (duplicate_step e)
  | None =>
      let e := new_step (size (steps s) + 1) job b in
      modify (set_step k (step_digest b, e)) ;;;
      modify (set_job (t, job) (running_job now2 (lease_expires_at raw) raw)) ;;;
      ret e
  end.

(** ** [complete] and [fail] *)

(** [_terminal_replay]: an answer when the job already ended *)
Definition terminal_replay {S} (raw : RawJob) (key request_digest : string) : M S (option AutomationJob) :=
  match terminal_idempotency_key raw with
  | None => ret None
  | Some k =>
      if String.eqb k key && bool_decide (terminal_request_sha256 raw = Some request_digest)
      then ret (Some (job_view raw true))
      else a_conflict "job already has a different terminal transition"
  end.

Definition complete_digest (b : TerminalResult) : string :=
  digest (JObj [("execution_id", JStr (uuid_str (le_execution_id (tr_lease b)))); ("result_code", JStr (tr_result_code b));
                ("safe_result", JObj (tr_safe_result b))]).

Definition completed_job (now : instant) (b : TerminalResult) (raw : RawJob) : RawJob :=
  mkJob (job_data raw) COMPLETED (delivery_token_sha256 raw) (delivery_token_used_at raw) None (lease_client_id raw)
    (execution_id raw) None (attempt_count raw) (Some (tr_result_code b)) None
    (Some (idempotency_key (le_mutation (tr_lease b)))) (Some (complete_digest b)) (resource_version raw + 1) now.

Definition complete (now now2 : instant) (job : UUID) (b : TerminalResult) (client_id : string) : AM AutomationJob :=
  let t := tenant_id (le_mutation (tr_lease b)) in
  let! raw := raw_job t job in
  let! replay := terminal_replay raw (idempotency_key (le_mutation (tr_lease b))) (complete_digest b) in
  match replay with
  | Some answer => ret answer
  | None =>
      active_lease now (tr_lease b) client_id raw ;;;
      let raw := completed_job now2 b raw in
      modify (set_job (t, job) raw) ;;;
      ret (job_view raw false)
  end.

Definition failure_digest (b : FailureResult) : string :=
  digest (JObj [("execution_id", JStr (uuid_str (le_execution_id (fr_lease b)))); ("error_code", JStr (fr_error_code b));
                ("retryable", JBool (fr_retryable b)); ("unknown_outcome", JBool (fr_unknown_outcome b));
                ("safe_error", JObj (fr_safe_error b))]).

(** the state a failure leads to *)
Definition failure_state (b : FailureResult) (raw : RawJob) : JobState :=
  if fr_unknown_outcome b then DEAD_LETTER
  else if fr_retryable b && (attempt_count raw <? jb_max_attempts (job_data raw)) then RETRY_SCHEDULED
  else if jb_max_attempts (job_data raw) <=? attempt_count raw then DEAD_LETTER
  else FAILED_TERMINAL.

Definition failed_job (now : instant) (st : JobState) (b : FailureResult) (raw : RawJob) : RawJob :=
  mkJob (job_data raw) st (delivery_token_sha256 raw) (delivery_token_used_at raw) None (lease_client_id raw)
    (execution_id raw) None (attempt_count raw) None (Some (fr_error_code b))
    (Some (idempotency_key (le_mutation (fr_lease b)))) (Some (failure_digest b)) (resource_version raw + 1) now.

(** the job offered again, under a fresh delivery token *)
Definition offered_again (token : string) (raw : RawJob) : RawJob :=
  mkJob (job_data raw) (job_state raw) (token_digest token) None (lease_token_sha256 raw) None None
    (lease_expires_at raw) (attempt_count raw) (result_code raw) (error_code raw) None None (resource_version raw)
    (updated_at raw).

Definition new_dead_letter (now : instant) (t : string) (job : UUID) (b : FailureResult) (j : JobData) : DeadLetterRecord := {|
  dl_dead_letter_id := dead_letter_id_of t job; dl_tenant_id := t; dl_job_id := job;
  dl_workflow_key := jb_workflow_key j; dl_workflow_family := jb_workflow_family j;
  dl_original_effect_fingerprint := effect_fingerprint t job (jb_workflow_key j) (fr_error_code b);
  dl_safe_payload := [("error_code", JStr (fr_error_code b)); ("unknown_outcome", JBool (fr_unknown_outcome b))];
  dl_state := dl_open; dl_resource_version := 1; dl_created_at := now; dl_updated_at := now |}.

Definition fail (token : string) (now now2 : instant) (job : UUID) (b : FailureResult) (client_id : string) : AM AutomationJob :=
  let t := tenant_id (le_mutation (fr_lease b)) in
  let! raw := raw_job t job in
  let! replay := terminal_replay raw (idempotency_key (le_mutation (fr_lease b))) (failure_digest b) in
  match replay with
  | Some answer => ret answer
  | None =>
      active_lease now (fr_lease b) client_id raw ;;;
      let st := failure_state b raw in
      let raw := failed_job now2 st b raw in
      match st with
      | RETRY_SCHEDULED =>
          modify (set_job (t, job) (offered_again token raw)) ;;;
          modify (set_dispatch (t, job) (new_dispatch (job_data raw) token)) ;;;
          ret (job_view (offered_again token raw) false)
      | DEAD_LETTER =>
          modify (set_job (t, job) raw) ;;;
          modify (set_dead (t, dead_letter_id_of t job) (new_dead_letter now2 t job b (job_data raw))) ;;;
          ret (job_view raw false)
      | _ =>
          modify (set_job (t, job) raw) ;;;
          ret (job_view raw false)
      end
  end.

(** ** Approvals *)

Definition approval_digest (b : ApprovalRequest) : string :=
  digest (JObj [("job_id", JStr (uuid_str (ar_job_id b))); ("approval_type", JStr (ar_approval_type b));
                ("summary", JStr (ar_summary b)); ("expires_at", JStr (aware_text (ar_expires_at b)))]).

Definition new_approval (now : instant) (b : ApprovalRequest) (requested_by : string) : ApprovalRecord := {|
  ap_approval_id := approval_id_of (tenant_id (ar_mutation b)) (ar_job_id b) (idempotency_key (ar_mutation b));
  ap_tenant_id := tenant_id (ar_mutation b); ap_job_id := ar_job_id b; ap_approval_type := ar_approval_type b;
  ap_summary := ar_summary b; ap_state := ap_pending; ap_requested_by := requested_by; ap_decided_by := None;
  ap_expires_at := aware_instant (ar_expires_at b); ap_created_at := now; ap_updated_at := now;
  ap_resource_version := 1; ap_duplicate := false |}.

(** [model_copy(update=...)] *)
Definition approval_with (st : ApprovalState) (decided : option string) (now : instant) (a : ApprovalRecord) : ApprovalRecord := {|
  ap_approval_id := ap_approval_id a; ap_tenant_id := ap_tenant_id a; ap_job_id := ap_job_id a;
  ap_approval_type := ap_approval_type a; ap_summary := ap_summary a; ap_state := st; ap_requested_by := ap_requested_by a;
  ap_decided_by := decided; ap_expires_at := ap_expires_at a; ap_created_at := ap_created_at a; ap_updated_at := now;
  ap_resource_version := ap_resource_version a + 1; ap_duplicate := ap_duplicate a |}.
Definition duplicate_approval (a : ApprovalRecord) : ApprovalRecord := {|
  ap_approval_id := ap_approval_id a; ap_tenant_id := ap_tenant_id a; ap_job_id := ap_job_id a;
  ap_approval_type := ap_approval_type a; ap_summary := ap_summary a; ap_state := ap_state a;
  ap_requested_by := ap_requested_by a; ap_decided_by := ap_decided_by a; ap_expires_at := ap_expires_at a;
  ap_created_at := ap_created_at a; ap_updated_at := ap_updated_at a; ap_resource_version := ap_resource_version a;
  ap_duplicate := true |}.

Definition ENDED_STATES : list JobState := [COMPLETED; CANCELLED; FAILED_TERMINAL; DEAD_LETTER].
Definition waiting_job (now : instant) (raw : RawJob) : RawJob :=
  mkJob (job_data raw) WAITING_APPROVAL (delivery_token_sha256 raw) (delivery_token_used_at raw) (lease_token_sha256 raw)
    (lease_client_id raw) (execution_id raw) (lease_expires_at raw) (attempt_count raw) (result_code raw) (error_code raw)
    (terminal_idempotency_key raw) (terminal_request_sha256 raw) (resource_version raw + 1) now.

Definition request_approval (now : instant) (b : ApprovalRequest) (client_id requested_by : string) : AM ApprovalRecord :=
  let t := tenant_id (ar_mutation b) in
  let! raw := raw_job t (ar_job_id b) in
  if negb (String.eqb (jb_expected_client_id (job_data raw)) client_id)
  then a_denied "client does not own the approval job family"
  else
  let ik := ((t, ar_job_id b), idempotency_key (ar_mutation b)) in
  let! s := gets id in
  match approval_idempotency s !! ik with
  | Some existing_id =>
      match approvals s !! (t, existing_id) with
      | None => raise KeyError ""
      | Some (d, existing) =>
          if negb (String.eqb d (approval_digest b))
          then a_conflict "approval idempotency key was reused with different content"
          else ret (duplicate_approval existing)
      end
  | None =>
      let a := new_approval now b requested_by in
      modify (set_approval (t, ap_approval_id a) (approval_digest b, a)) ;;;
      modify (set_approval_key ik (ap_approval_id a)) ;;;
      when (negb (is_state (job_state raw) ENDED_STATES)) (modify (set_job (t, ar_job_id b) (waiting_job now raw))) ;;;
      ret a
  end.

Definition find_approval (t : string) (u : UUID) : AM (string * ApprovalRecord) := fun s =>
  match approvals s !! (t, u) with
  | Some e => (Ret e, s)
  | None => a_missing "approval was not found" s
  end.

Definition get_approval (now now2 : instant) (t : string) (u : UUID) : AM ApprovalRecord :=
  let! e := find_approval t u in
  let a := snd e in
  if bool_decide (ap_state a = ap_pending) && (ap_expires_at a <=? now) then
    let a := approval_with ap_expired (ap_decided_by a) now2 a in
    modify (set_approval (t, u) (fst e, a)) ;;; ret a
  else ret a.

Definition approve_for_test (now : instant) (t : string) (u : UUID) (decided_by : string) : AM ApprovalRecord :=
  let! e := find_approval t u in
  let a := snd e in
  if String.eqb (ap_requested_by a) decided_by
  then a_conflict "approval requester cannot self-approve"
  else
  let a := approval_with ap_approved (Some decided_by) now a in
  modify (set_approval (t, u) (fst e, a)) ;;; ret a.

(** ** Dead letters *)

Definition find_dead (t : string) (u : UUID) : AM DeadLetterRecord := fun s =>
  match dead_letters s !! (t, u) with
  | Some d => (Ret d, s)
  | None => a_missing "dead letter was not found" s
  end.
Definition get_dead_letter (t : string) (u : UUID) : AM DeadLetterRecord := find_dead t u.

Definition OPERATIONS_CLIENT : string := "n8n-operations-automation".

(** an approval of this replay by someone other than its requester, still valid *)
Definition protected_approval (now : instant) (a : ApprovalRecord) (job : UUID) : bool :=
  (ap_job_id a =? job)%N && String.eqb (ap_approval_type a) "REPLAY" && bool_decide (ap_state a = ap_approved) &&
  match truthy_str (ap_decided_by a) with Some by_ => negb (String.eqb by_ (ap_requested_by a)) | None => false end &&
  (now <? ap_expires_at a).

Definition replayed_job (token : string) (now : instant) (raw : RawJob) : RawJob :=
  mkJob (job_data raw) RETRY_SCHEDULED (token_digest token) None None None None None (attempt_count raw)
    (result_code raw) (error_code raw) None None (resource_version raw + 1) now.

Definition dead_with (st : DeadState) (now : instant) (d : DeadLetterRecord) : DeadLetterRecord := {|
  dl_dead_letter_id := dl_dead_letter_id d; dl_tenant_id := dl_tenant_id d; dl_job_id := dl_job_id d;
  dl_workflow_key := dl_workflow_key d; dl_workflow_family := dl_workflow_family d;
  dl_original_effect_fingerprint := dl_original_effect_fingerprint d; dl_safe_payload := dl_safe_payload d; dl_state := st;
  dl_resource_version := dl_resource_version d + 1; dl_created_at := dl_created_at d; dl_updated_at := now |}.

Definition replay_dead_letter (token : string) (now now2 : instant) (u : UUID) (b : DeadLetterReplayRequest)
    (client_id : string) : AM AutomationJob :=
  let t := tenant_id (rp_mutation b) in
  if negb (String.eqb client_id OPERATIONS_CLIENT)
  then a_denied "only operations automation may request replay"
  else
  let! dead := find_dead t u in
  let! approval := find_approval t (rp_approval_id b) in
  if negb (protected_approval now (snd approval) (dl_job_id dead))
  then a_denied "protected non-self approval is required"
  else if negb (dl_resource_version dead =? rp_expected_version b)
  then a_conflict "dead-letter expected_version is stale"
  else if negb (String.eqb (dl_original_effect_fingerprint dead) (rp_original_effect_fingerprint b))
  then a_conflict "dead-letter effect fingerprint does not match"
  else if negb (bool_decide (dl_state dead = dl_open))
  then a_conflict "dead letter is not open for replay"
  else
  let! original := raw_job t (dl_job_id dead) in
  let original := replayed_job token now2 original in
  modify (set_job (t, dl_job_id dead) original) ;;;
  modify (set_dispatch (t, dl_job_id dead) (new_dispatch (job_data original) token)) ;;;
  modify (set_dead (t, u) (dead_with dl_replay_requested now2 dead)) ;;;
  ret (job_view original false).

(** ** [reconcile]: what there is, and what could be done about it *)

Definition reconcile_digest (b : ReconciliationRequest) : string :=
  digest (JObj [("mode", JStr (mode_name (rc_mode b))); ("job_ids", JArr (map (fun u => JStr (uuid_str u)) (rc_job_ids b)))]).

Definition duplicate_run (r : ReconciliationRun) : ReconciliationRun := {|
  rr_reconciliation_id := rr_reconciliation_id r; rr_tenant_id := rr_tenant_id r; rr_mode := rr_mode r;
  rr_requested_by := rr_requested_by r; rr_inspected_jobs := rr_inspected_jobs r; rr_state_counts := rr_state_counts r;
  rr_expired_leases := rr_expired_leases r; rr_missing_dispatches := rr_missing_dispatches r; rr_safe_plan := rr_safe_plan r;
  rr_created_at := rr_created_at r; rr_duplicate := true |}.

Definition in_scope (t : string) (ids : list UUID) (k : JobKey) : bool :=
  String.eqb (fst k) t && (bool_decide (ids = []) || bool_decide (snd k ∈ ids)).
Definition selected_jobs (t : string) (ids : list UUID) (s : MemoryAutomationStore) : list RawJob :=
  omap (fun k => jobs s !! k) (List.filter (in_scope t ids) (job_keys s)).

Definition lease_ran_out (now : instant) (raw : RawJob) : bool :=
  match lease_expires_at raw with Some t => t <=? now | None => false end.
Definition count_state (counts : list (string * Z)) (raw : RawJob) : list (string * Z) :=
  let k := job_state_name (job_state raw) in dict_set k (default 0 (dict_get k counts) + 1) counts.

(** the plan of one job; [dispatched] says whether it has a dispatch *)
Definition undispatched (dispatched : RawJob -> bool) (raw : RawJob) : bool :=
  is_state (job_state raw) [PENDING; RETRY_SCHEDULED] && negb (dispatched raw).
Definition plan_of (dispatched : RawJob -> bool) (now : instant) (raw : RawJob) : list (UUID * string) :=
  (if lease_ran_out now raw then [(jb_job_id (job_data raw), "REQUEUE_EXPIRED_LEASE")] else []) ++
  (if undispatched dispatched raw then [(jb_job_id (job_data raw), "RECREATE_DISPATCH")] else []).

Definition reconciliation_run (dispatched : RawJob -> bool) (now : instant) (b : ReconciliationRequest)
    (requested_by : string) (l : list RawJob) : ReconciliationRun :=
  let t := tenant_id (rc_mutation b) in {|
  rr_reconciliation_id := reconciliation_id_of t (idempotency_key (rc_mutation b)); rr_tenant_id := t;
  rr_mode := rc_mode b; rr_requested_by := requested_by; rr_inspected_jobs := length l;
  rr_state_counts := fold_left count_state l []; rr_expired_leases := length (List.filter (lease_ran_out now) l);
  rr_missing_dispatches := length (List.filter (undispatched dispatched) l);
  rr_safe_plan := if bool_decide (rc_mode b = mode_plan) then concat (map (plan_of dispatched now) l) else [];
  rr_created_at := now; rr_duplicate := false |}.

Definition job_key (raw : RawJob) : JobKey := (jb_tenant_id (job_data raw), jb_job_id (job_data raw)).
Definition has_dispatch (s : MemoryAutomationStore) (raw : RawJob) : bool := bool_decide (is_Some (dispatches s !! job_key raw)).

Definition reconcile (now : instant) (b : ReconciliationRequest) (requested_by : string) : AM ReconciliationRun :=
  let t := tenant_id (rc_mutation b) in
  let k := (t, idempotency_key (rc_mutation b)) in
  let! s := gets id in
  match reconciliations s !! k with
  | Some (d, r) =>
      if negb (String.eqb d (reconcile_digest b))
      then a_conflict "reconciliation idempotency key was reused"
      else ret (duplicate_run r)
  | None =>
      let r := reconciliation_run (has_dispatch s) now b requested_by (selected_jobs t (rc_job_ids b) s) in
      modify (set_reconciliation k (reconcile_digest b, r)) ;;;
      ret r
  end.
