(* ===== verification/AutomationFacts.v ===== *)
(** * Facts about the automation store

    The calls of the store's clients as one type, what each of them does to the
    jobs, and the invariant all of them keep. *)

From S2P Require Import Prelude Json PyValue Clock Sha256 Uuid Commands Inbox.
From S2P Require Import Automation.
Local Open Scope Z_scope.
#[local] Opaque sha256_hex uuid5 hmac_sha256.

(** ** Histories of calls *)

(** a call with the instants it reads and the token it draws *)
Inductive AutomationCall :=
  | do_enqueue (token : string) (now : instant) (e : EventEnvelope) (r : WorkflowRoute) (source : string)
  | do_claim (now : instant) (b : JobClaimRequest) (client : string)
  | do_heartbeat (now now2 : instant) (job : UUID) (b : LeaseMutation) (client : string)
  | do_step (now now2 : instant) (job : UUID) (b : StepRecord) (client : string)
  | do_complete (now now2 : instant) (job : UUID) (b : TerminalResult) (client : string)
  | do_fail (token : string) (now now2 : instant) (job : UUID) (b : FailureResult) (client : string)
  | do_request_approval (now : instant) (b : ApprovalRequest) (client requested_by : string)
  | do_get_approval (now now2 : instant) (t : string) (u : UUID)
  | do_approve (now : instant) (t : string) (u : UUID) (decided_by : string)
  | do_replay (token : string) (now now2 : instant) (u : UUID) (b : DeadLetterReplayRequest) (client : string)
  | do_reconcile (now : instant) (b : ReconciliationRequest) (requested_by : string).

Inductive AutomationReply :=
  | re_enqueued
  | re_claim (r : JobClaimResponse)
  | re_job (j : AutomationJob)
  | re_step (e : StepEvidence)
  | re_approval (a : ApprovalRecord)
  | re_run (r : ReconciliationRun).

Definition answering {A} (f : A -> AutomationReply) (m : AM A) : AM AutomationReply := let! x := m in ret (f x).

Definition automation_call (c : AutomationCall) : AM AutomationReply :=
  match c with
  | do_enqueue token now e r source => answering (fun _ => re_enqueued) (enqueue_event token now e r source)
  | do_claim now b client => answering re_claim (claim now b client)
  | do_heartbeat now now2 job b client => answering re_job (heartbeat now now2 job b client)
  | do_step now now2 job b client => answering re_step (record_step now now2 job b client)
  | do_complete now now2 job b client => answering re_job (complete now now2 job b client)
  | do_fail token now now2 job b client => answering re_job (fail token now now2 job b client)
  | do_request_approval now b client by_ => answering re_approval (request_approval now b client by_)
  | do_get_approval now now2 t u => answering re_approval (get_approval now now2 t u)
  | do_approve now t u by_ => answering re_approval (approve_for_test now t u by_)
  | do_replay token now now2 u b client => answering re_job (replay_dead_letter token now now2 u b client)
  | do_reconcile now b by_ => answering re_run (reconcile now b by_)
  end.

(** the calls with their answers, and the store at the end *)
Fixpoint automation_run (cs : list AutomationCall) (s : MemoryAutomationStore) :
    list (AutomationCall * outcome AutomationReply) * MemoryAutomationStore :=
  match cs with
  | [] => ([], s)
  | c :: cs' =>
      let (r, s1) := automation_call c s in
      let (rs, s2) := automation_run cs' s1 in ((c, r) :: rs, s2)
  end.

(** the instant a call judges leases by *)
Definition call_now (c : AutomationCall) : instant :=
  match c with
  | do_enqueue _ now _ _ _ | do_claim now _ _ | do_heartbeat now _ _ _ _ | do_step now _ _ _ _ | do_complete now _ _ _ _
  | do_fail _ now _ _ _ _ | do_request_approval now _ _ _ | do_get_approval now _ _ _ | do_approve now _ _ _
  | do_replay _ now _ _ _ _ | do_reconcile now _ _ => now
  end.

(** ** What a call does to the jobs *)

(** an answer that tells of no change to a job *)
Definition idle_answer (c : AutomationCall) (r : outcome AutomationReply) : bool :=
  match c, r with
  | _, Exc _ => true
  | do_claim _ _ _, Ret (re_claim x) => cr_duplicate x
  | do_step _ _ _ _ _, Ret (re_step e) => se_duplicate e
  | do_complete _ _ _ _ _, Ret (re_job j) | do_fail _ _ _ _ _ _, Ret (re_job j) => aj_duplicate j
  | do_enqueue _ _ _ _ _, _ | do_request_approval _ _ _ _, _ | do_get_approval _ _ _ _, _ | do_approve _ _ _ _, _
  | do_reconcile _ _ _, _ => true
  | _, _ => false
  end.

Definition same_jobs (s s' : MemoryAutomationStore) : Prop :=
  jobs s' = jobs s /\ job_keys s' = job_keys s /\ dead_letters s' = dead_letters s /\ dispatches s' = dispatches s.

(** one job is written, and its dispatch when it is offered *)
Definition job_written (k : JobKey) (raw : RawJob) (d : option Dispatch) (s s' : MemoryAutomationStore) : Prop :=
  jobs s' = <[k := raw]> (jobs s) /\ job_keys s' = job_keys s /\
  dispatches s' = match d with Some d => <[k := d]> (dispatches s) | None => dispatches s end.

Definition lease_key (b : LeaseMutation) (job : UUID) : JobKey := (tenant_id (le_mutation b), job).

Inductive job_change (s : MemoryAutomationStore) : AutomationCall -> outcome AutomationReply -> MemoryAutomationStore -> Prop :=
  | ch_idle c r s' : same_jobs s s' -> idle_answer c r = true -> job_change s c r s'
  | ch_enqueued token now e r source s' :
      let j := new_job_data e r source now in
      let k := (jb_tenant_id j, jb_job_id j) in
      jobs s !! k = None ->
      jobs s' = <[k := new_job j token]> (jobs s) -> job_keys s' = job_keys s ++ [k] ->
      dispatches s' = <[k := new_dispatch j token]> (dispatches s) -> dead_letters s' = dead_letters s ->
      job_change s (do_enqueue token now e r source) (Ret re_enqueued) s'
  | ch_claimed now b client raw x d s' :
      let k := (tenant_id (cl_mutation b), cl_job_id b) in
      let token := lease_token (cl_delivery_token b) (cl_job_id b) (cl_execution_id b) client in
      jobs s !! k = Some raw -> dispatches s !! k = Some d ->
      delivery_token_used_at raw = None -> is_state (job_state raw) [PENDING; RETRY_SCHEDULED] = true ->
      jb_expected_client_id (job_data raw) = client ->
      delivery_token_sha256 raw = token_digest (cl_delivery_token b) ->
      job_written k (claimed_job now (token_digest token) client (cl_execution_id b) raw) (Some (claim_dispatch d)) s s' ->
      dead_letters s' = dead_letters s -> cr_duplicate x = false ->
      job_change s (do_claim now b client) (Ret (re_claim x)) s'
  | ch_heartbeat now now2 job b client raw s' :
      jobs s !! lease_key b job = Some raw -> holds_lease now b client raw = true ->
      job_written (lease_key b job) (running_job now2 (Some (now2 + seconds LEASE_SECONDS)) raw) None s s' ->
      dead_letters s' = dead_letters s ->
      job_change s (do_heartbeat now now2 job b client)
        (Ret (re_job (job_view (running_job now2 (Some (now2 + seconds LEASE_SECONDS)) raw) false))) s'
  | ch_stepped now now2 job b client raw e s' :
      jobs s !! lease_key (st_lease b) job = Some raw -> holds_lease now (st_lease b) client raw = true ->
      job_written (lease_key (st_lease b) job) (running_job now2 (lease_expires_at raw) raw) None s s' ->
      dead_letters s' = dead_letters s -> se_duplicate e = false ->
      job_change s (do_step now now2 job b client) (Ret (re_step e)) s'
  | ch_completed now now2 job b client raw s' :
      jobs s !! lease_key (tr_lease b) job = Some raw -> holds_lease now (tr_lease b) client raw = true ->
      terminal_idempotency_key raw = None ->
      job_written (lease_key (tr_lease b) job) (completed_job now2 b raw) None s s' ->
      dead_letters s' = dead_letters s ->
      job_change s (do_complete now now2 job b client) (Ret (re_job (job_view (completed_job now2 b raw) false))) s'
  | ch_failed token now now2 job b client raw s' :
      let k := lease_key (fr_lease b) job in
      let st := failure_state b raw in
      let raw' := failed_job now2 st b raw in
      jobs s !! k = Some raw -> holds_lease now (fr_lease b) client raw = true -> terminal_idempotency_key raw = None ->
      st <> RETRY_SCHEDULED -> job_written k raw' None s s' ->
      dead_letters s' = (if decide (st = DEAD_LETTER)
        then <[(fst k, dead_letter_id_of (fst k) job) := new_dead_letter now2 (fst k) job b (job_data raw)]> (dead_letters s)
        else dead_letters s) ->
      job_change s (do_fail token now now2 job b client) (Ret (re_job (job_view raw' false))) s'
  | ch_offered token now now2 job b client raw s' :
      let k := lease_key (fr_lease b) job in
      let raw' := offered_again token (failed_job now2 RETRY_SCHEDULED b raw) in
      jobs s !! k = Some raw -> holds_lease now (fr_lease b) client raw = true -> terminal_idempotency_key raw = None ->
      failure_state b raw = RETRY_SCHEDULED ->
      job_written k raw' (Some (new_dispatch (job_data raw) token)) s s' -> dead_letters s' = dead_letters s ->
      job_change s (do_fail token now now2 job b client) (Ret (re_job (job_view raw' false))) s'
  | ch_waiting now b client by_ raw a s' :
      let k := (tenant_id (ar_mutation b), ar_job_id b) in
      jobs s !! k = Some raw -> is_state (job_state raw) ENDED_STATES = false ->
      job_written k (waiting_job now raw) None s s' -> dead_letters s' = dead_letters s ->
      job_change s (do_request_approval now b client by_) (Ret (re_approval a)) s'
  | ch_replayed token now now2 u b client raw dead a s' :
      let t := tenant_id (rp_mutation b) in
      let k := (t, dl_job_id dead) in
      dead_letters s !! (t, u) = Some dead -> dl_state dead = dl_open ->
      approvals s !! (t, rp_approval_id b) = Some a -> protected_approval now (snd a) (dl_job_id dead) = true ->
      jobs s !! k = Some raw ->
      job_written k (replayed_job token now2 raw) (Some (new_dispatch (job_data raw) token)) s s' ->
      dead_letters s' = <[(t, u) := dead_with dl_replay_requested now2 dead]> (dead_letters s) ->
      job_change s (do_replay token now now2 u b client) (Ret (re_job (job_view (replayed_job token now2 raw) false))) s'.

Lemma answering_run {A} (f : A -> AutomationReply) (m : AM A) s :
  answering f m s = (match fst (m s) with Ret x => Ret (f x) | Exc e => Exc e end, snd (m s)).
Proof. unfold answering, bind, ret. by destruct (m s) as [[x|e] s']. Qed.

Lemma raw_job_run t job s :
  raw_job t job s = (match jobs s !! (t, job) with
                     | Some raw => Ret raw
                     | None => Exc (Exn AutomationNotFound "automation job was not found") end, s).
Proof. unfold raw_job, raise. by destruct (jobs s !! (t, job)). Qed.

Lemma idle c r s : idle_answer c r = true -> job_change s c r s.
Proof. intros. by apply ch_idle. Qed.

(** run the statements of a method in [H], taking every branch *)
Ltac run_in H :=
  unfold answering, when, bind, gets, ret, raise, modify, id in H; rewrite ?raw_job_run in H; cbn beta iota zeta in H;
  repeat (case_match; cbn beta iota zeta in H); simplify_eq/=.

Lemma enqueue_change token now e r source s r' s' :
  automation_call (do_enqueue token now e r source) s = (r', s') -> job_change s (do_enqueue token now e r source) r' s'.
Proof.
  simpl. unfold enqueue_event. intros H. run_in H; [by apply ch_idle|]. by eapply ch_enqueued.
Qed.

(** passed checks as propositions *)
Ltac checks :=
  repeat match goal with
  | H : negb _ = false |- _ => apply negb_false_iff in H
  | H : _ || _ = false |- _ => apply orb_false_iff in H as [? H]
  | H : String.eqb _ _ = true |- _ => apply String.eqb_eq in H
  | H : Z.eqb _ _ = true |- _ => apply Z.eqb_eq in H
  | H : bool_decide _ = true |- _ => apply bool_decide_eq_true in H
  end.

Lemma claim_change now b client s r s' :
  (forall k raw, jobs s !! k = Some raw -> is_Some (dispatches s !! k)) ->
  automation_call (do_claim now b client) s = (r, s') -> job_change s (do_claim now b client) r s'.
Proof.
  intros Hd. simpl. unfold claim, dispatch_claimed. intros H. run_in H; try by apply idle.
  - checks. by eapply ch_claimed.
  - exfalso. match goal with H : jobs s !! _ = Some _, Hn : dispatches s !! _ = None |- _ =>
      destruct (Hd _ _ H); congruence end.
Qed.

Lemma heartbeat_change now now2 job b client s r s' :
  automation_call (do_heartbeat now now2 job b client) s = (r, s') -> job_change s (do_heartbeat now now2 job b client) r s'.
Proof. simpl. unfold heartbeat, active_lease. intros H. run_in H; try by apply idle. by apply ch_heartbeat. Qed.

Lemma step_change now now2 job b client s r s' :
  automation_call (do_step now now2 job b client) s = (r, s') -> job_change s (do_step now now2 job b client) r s'.
Proof. simpl. unfold record_step, active_lease. intros H. run_in H; try by apply idle. by eapply ch_stepped. Qed.

Lemma complete_change now now2 job b client s r s' :
  automation_call (do_complete now now2 job b client) s = (r, s') -> job_change s (do_complete now now2 job b client) r s'.
Proof.
  simpl. unfold complete, active_lease, terminal_replay. intros H. run_in H; try by apply idle. by apply ch_completed.
Qed.

Lemma fail_change token now now2 job b client s r s' :
  automation_call (do_fail token now now2 job b client) s = (r, s') -> job_change s (do_fail token now now2 job b client) r s'.
Proof.
  simpl. unfold fail, active_lease, terminal_replay. intros H.
  unfold answering, bind, gets, ret, raise, modify, id in H. rewrite raw_job_run in H.
  destruct (jobs s !! (tenant_id (le_mutation (fr_lease b)), job)) as [raw|] eqn:Hraw; [|simplify_eq; by apply idle].
  destruct (terminal_idempotency_key raw) as [k|] eqn:Hk.
  { destruct (_ && _); simplify_eq/=; by apply idle. }
  destruct (holds_lease now (fr_lease b) client raw) eqn:Hl; [|simplify_eq; by apply idle].
  destruct (failure_state b raw) eqn:Hst; simplify_eq/=;
    first [ by eapply ch_offered | rewrite <- Hst; eapply ch_failed; rewrite ?Hst; done ].
Qed.

Lemma request_approval_change now b client by_ s r s' :
  automation_call (do_request_approval now b client by_) s = (r, s') -> job_change s (do_request_approval now b client by_) r s'.
Proof.
  simpl. unfold request_approval. intros H. run_in H; try by apply idle.
  - match goal with H : negb (is_state _ _) = true |- _ => apply negb_true_iff in H end. by eapply ch_waiting.
  - by apply ch_idle.
Qed.

Lemma approvals_change c s r s' :
  match c with do_get_approval _ _ _ _ | do_approve _ _ _ _ | do_reconcile _ _ _ => True | _ => False end ->
  automation_call c s = (r, s') -> job_change s c r s'.
Proof.
  destruct c; try done; intros _; simpl; unfold get_approval, approve_for_test, reconcile, find_approval; intros H;
    run_in H; by apply ch_idle.
Qed.

Lemma replay_change token now now2 u b client s r s' :
  automation_call (do_replay token now now2 u b client) s = (r, s') -> job_change s (do_replay token now now2 u b client) r s'.
Proof.
  simpl. unfold replay_dead_letter, find_dead, find_approval, raw_job. intros H. run_in H; try by apply idle.
  repeat match goal with H : negb _ = false |- _ => apply negb_false_iff in H end.
  match goal with H : bool_decide _ = true |- _ => apply bool_decide_eq_true in H end.
  by eapply ch_replayed.
Qed.

(** every call is idle or makes one of the changes *)
Lemma call_change c s r s' :
  (forall k raw, jobs s !! k = Some raw -> is_Some (dispatches s !! k)) ->
  automation_call c s = (r, s') -> job_change s c r s'.
Proof.
  intros Hd H. destruct c;
    [by apply enqueue_change|by apply claim_change|by apply heartbeat_change|by apply step_change|by apply complete_change
    |by apply fail_change|by apply request_approval_change|by apply approvals_change..|by apply replay_change|].
  by apply approvals_change.
Qed.

(** ** What a call does to one job *)

(** a claim of job [k] that opened a new attempt *)
Definition granted (k : JobKey) (c : AutomationCall) (r : outcome AutomationReply) : bool :=
  match c, r with
  | do_claim _ b _, Ret (re_claim x) => bool_decide ((tenant_id (cl_mutation b), cl_job_id b) = k) && negb (cr_duplicate x)
  | _, _ => false
  end.
(** a replay of job [k] *)
Definition replayed (k : JobKey) (c : AutomationCall) (r : outcome AutomationReply) : bool :=
  match c, r with
  | do_replay _ _ _ _ b _, Ret (re_job j) => bool_decide ((tenant_id (rp_mutation b), jb_job_id (aj_data j)) = k)
  | _, _ => false
  end.

Inductive raw_change (k : JobKey) (raw : RawJob) : AutomationCall -> outcome AutomationReply -> RawJob -> Prop :=
  | rw_same c r : granted k c r = false -> replayed k c r = false -> raw_change k raw c r raw
  | rw_claimed now b client x :
      k = (tenant_id (cl_mutation b), cl_job_id b) -> delivery_token_used_at raw = None ->
      is_state (job_state raw) [PENDING; RETRY_SCHEDULED] = true -> jb_expected_client_id (job_data raw) = client ->
      delivery_token_sha256 raw = token_digest (cl_delivery_token b) -> cr_duplicate x = false ->
      raw_change k raw (do_claim now b client) (Ret (re_claim x))
        (claimed_job now (token_digest (lease_token (cl_delivery_token b) (cl_job_id b) (cl_execution_id b) client)) client
           (cl_execution_id b) raw)
  | rw_heartbeat now now2 job b client r :
      k = lease_key b job -> holds_lease now b client raw = true ->
      raw_change k raw (do_heartbeat now now2 job b client) r (running_job now2 (Some (now2 + seconds LEASE_SECONDS)) raw)
  | rw_stepped now now2 job b client r :
      k = lease_key (st_lease b) job -> holds_lease now (st_lease b) client raw = true ->
      raw_change k raw (do_step now now2 job b client) r (running_job now2 (lease_expires_at raw) raw)
  | rw_completed now now2 job b client r :
      k = lease_key (tr_lease b) job -> holds_lease now (tr_lease b) client raw = true ->
      terminal_idempotency_key raw = None ->
      raw_change k raw (do_complete now now2 job b client) r (completed_job now2 b raw)
  | rw_failed token now now2 job b client r :
      k = lease_key (fr_lease b) job -> holds_lease now (fr_lease b) client raw = true ->
      terminal_idempotency_key raw = None -> failure_state b raw <> RETRY_SCHEDULED ->
      raw_change k raw (do_fail token now now2 job b client) r (failed_job now2 (failure_state b raw) b raw)
  | rw_offered token now now2 job b client r :
      k = lease_key (fr_lease b) job -> holds_lease now (fr_lease b) client raw = true ->
      terminal_idempotency_key raw = None -> failure_state b raw = RETRY_SCHEDULED ->
      raw_change k raw (do_fail token now now2 job b client) r (offered_again token (failed_job now2 RETRY_SCHEDULED b raw))
  | rw_waiting now b client by_ r :
      k = (tenant_id (ar_mutation b), ar_job_id b) -> is_state (job_state raw) ENDED_STATES = false ->
      raw_change k raw (do_request_approval now b client by_) r (waiting_job now raw)
  | rw_replayed token now now2 u b client r :
      replayed k (do_replay token now now2 u b client) r = true -> job_state raw = DEAD_LETTER ->
      raw_change k raw (do_replay token now now2 u b client) r (replayed_job token now2 raw).

(** ** The invariant *)

(** the fields of a job agree with one another: a job that was offered has
    neither lease nor end, a claimed one has its client and execution, and
    exactly one of a lease and an end *)
Definition offered_ok (raw : RawJob) : Prop :=
  lease_token_sha256 raw = None /\ lease_client_id raw = None /\ execution_id raw = None /\ lease_expires_at raw = None /\
  terminal_idempotency_key raw = None /\ terminal_request_sha256 raw = None /\ result_code raw = None /\
  is_state (job_state raw) [PENDING; RETRY_SCHEDULED; WAITING_APPROVAL] = true.
Definition claimed_ok (raw : RawJob) : Prop :=
  is_Some (execution_id raw) /\ lease_client_id raw = Some (jb_expected_client_id (job_data raw)) /\ 1 <= attempt_count raw /\
  ((is_Some (lease_token_sha256 raw) /\ is_Some (lease_expires_at raw) /\ terminal_idempotency_key raw = None /\
    terminal_request_sha256 raw = None /\ result_code raw = None /\
    is_state (job_state raw) [CLAIMED; RUNNING; WAITING_APPROVAL] = true) \/
   (lease_token_sha256 raw = None /\ lease_expires_at raw = None /\ is_Some (terminal_idempotency_key raw) /\
    is_Some (terminal_request_sha256 raw) /\ (is_Some (result_code raw) <-> job_state raw = COMPLETED) /\
    is_state (job_state raw) [COMPLETED; FAILED_TERMINAL; DEAD_LETTER] = true)).
Definition raw_ok (raw : RawJob) : Prop :=
  0 <= attempt_count raw /\ 1 <= resource_version raw /\
  match delivery_token_used_at raw with None => offered_ok raw | Some _ => claimed_ok raw end.

(** the dispatch carries the token the job can be claimed with *)
Definition dispatch_ok (raw : RawJob) (d : Dispatch) : Prop :=
  token_digest (dsp_delivery_token d) = delivery_token_sha256 raw /\
  dsp_payload d = wake_payload (job_data raw) (dsp_delivery_token d) /\
  (dsp_state d = dsp_pending <-> delivery_token_used_at raw = None).

Definition dead_ok (s : MemoryAutomationStore) (k : JobKey) (d : DeadLetterRecord) : Prop :=
  k = (dl_tenant_id d, dl_dead_letter_id d) /\ dl_dead_letter_id d = dead_letter_id_of (dl_tenant_id d) (dl_job_id d) /\
  exists raw, jobs s !! (dl_tenant_id d, dl_job_id d) = Some raw /\ (dl_state d = dl_open -> job_state raw = DEAD_LETTER).

Definition approval_ok (s : MemoryAutomationStore) (k : JobKey) (a : ApprovalRecord) : Prop :=
  k = (ap_tenant_id a, ap_approval_id a) /\ is_Some (jobs s !! (ap_tenant_id a, ap_job_id a)) /\
  (ap_state a = ap_approved -> exists by_, ap_decided_by a = Some by_ /\ by_ <> ap_requested_by a).

Record automation_ok (s : MemoryAutomationStore) : Prop := {
  ok_keys : NoDup (job_keys s) /\ forall k, k ∈ job_keys s <-> is_Some (jobs s !! k);
  ok_jobs : forall k raw, jobs s !! k = Some raw ->
    job_key raw = k /\ raw_ok raw /\ exists d, dispatches s !! k = Some d /\ dispatch_ok raw d;
  ok_dead : forall k d, dead_letters s !! k = Some d -> dead_ok s k d;
  ok_approvals : forall k d a, approvals s !! k = Some (d, a) -> approval_ok s k a;
  ok_approval_keys : forall t j key u, approval_idempotency s !! ((t, j), key) = Some u -> is_Some (approvals s !! (t, u));
}.

Lemma has_dispatches s k raw : automation_ok s -> jobs s !! k = Some raw -> is_Some (dispatches s !! k).
Proof. intros Ho Hk. destruct (ok_jobs s Ho k raw Hk) as (_ & _ & d & -> & _). done. Qed.

Lemma idle_quiet k c r : idle_answer c r = true -> granted k c r = false /\ replayed k c r = false.
Proof.
  destruct c, r as [[]|]; simpl; try done. intros ->. by rewrite andb_false_r.
Qed.

Lemma written_other k0 k raw0 s s' d :
  job_written k0 raw0 d s s' -> k0 <> k -> jobs s' !! k = jobs s !! k.
Proof. intros (-> & _ & _) Hne. by apply lookup_insert_ne. Qed.
Lemma written_here k raw0 s s' d : job_written k raw0 d s s' -> jobs s' !! k = Some raw0.
Proof. intros (-> & _ & _). apply lookup_insert_eq. Qed.

Lemma not_granted k b r now client :
  (tenant_id (cl_mutation b), cl_job_id b) <> k -> granted k (do_claim now b client) r = false.
Proof. intros. unfold granted. destruct r as [[]|]; try done. by rewrite bool_decide_eq_false_2. Qed.

(** a job that is there stays there, changed in one of the ways above *)
Lemma job_step s c r s' k raw :
  automation_ok s -> job_change s c r s' -> jobs s !! k = Some raw ->
  exists raw', jobs s' !! k = Some raw' /\ raw_change k raw c r raw'.
Proof.
  intros Ho H Hk.
  assert (Hown : forall k0 raw0 raw1 d, job_written k0 raw1 d s s' -> jobs s !! k0 = Some raw0 ->
            (k0 <> k -> granted k c r = false /\ replayed k c r = false) ->
            (k0 = k -> raw0 = raw -> raw_change k raw c r raw1) ->
            exists raw', jobs s' !! k = Some raw' /\ raw_change k raw c r raw').
  { intros k0 raw0 raw1 d Hw H0 Hq Hc. destruct (decide (k0 = k)) as [->|Hne].
    - exists raw1. split; [by eapply written_here|]. apply Hc; congruence.
    - exists raw. split; [by rewrite (written_other _ _ _ _ _ _ Hw Hne)|]. by apply rw_same; apply Hq. }
  destruct H; try (eapply Hown; [eassumption..|by intros; split|intros <- <-; by econstructor]).
  - match goal with H : same_jobs _ _ |- _ => destruct H as (Hj & _) end. exists raw. split; [by rewrite Hj|].
    by apply rw_same; apply idle_quiet.
  - exists raw. split; [|by apply rw_same]. match goal with H : jobs s' = _ |- _ => rewrite H end.
    rewrite lookup_insert_ne; [done|]. intros Heq. rewrite Heq in *. congruence.
  - eapply Hown; [eassumption..|intros; split; [by apply not_granted|done]|intros <- <-; by apply rw_claimed].
  - assert (Hdl := H). apply (ok_dead s Ho) in Hdl as (Hd & _ & raw1 & Hj1 & Hs). injection Hd as Ht Hu.
    assert (Hr := Hj1). apply (ok_jobs s Ho) in Hr as [Hkey _]. injection Hkey as Hkt Hkj.
    assert (raw1 = raw0) as -> by (unfold k0, t in *; congruence).
    assert (Hkk : (tenant_id (rp_mutation b), jb_job_id (job_data raw0)) = k0) by (unfold k0, t in *; congruence).
    eapply Hown; [eassumption..| |].
    + intros Hne. split; [done|]. cbn [replayed job_view replayed_job aj_data job_data]. rewrite Hkk.
      by apply bool_decide_eq_false_2.
    + intros <- <-. apply rw_replayed; [|by apply Hs].
      cbn [replayed job_view replayed_job aj_data job_data]. rewrite Hkk. by apply bool_decide_eq_true_2.
Qed.

Lemma is_state_spec st l : is_state st l = true <-> st ∈ l.
Proof. unfold is_state. apply bool_decide_eq_true. Qed.

(** what holding the lease says of a job *)
Lemma lease_held now b client raw :
  holds_lease now b client raw = true ->
  lease_token_sha256 raw = Some (token_digest (le_lease_token b)) /\ execution_id raw = Some (le_execution_id b) /\
  lease_client_id raw = Some client /\ is_state (job_state raw) LEASED_STATES = true /\
  exists e, lease_expires_at raw = Some e /\ now < e.
Proof.
  unfold holds_lease. rewrite !andb_true_iff, !bool_decide_eq_true. intros ((((-> & ->) & ->) & He) & ->).
  destruct (lease_expires_at raw) as [e|]; [|done]. apply Z.ltb_lt in He. eauto 10.
Qed.

(** a held lease belongs to a claimed job that has not ended *)
Lemma held_claimed now b client raw :
  raw_ok raw -> holds_lease now b client raw = true ->
  is_Some (delivery_token_used_at raw) /\ client = jb_expected_client_id (job_data raw) /\ 1 <= attempt_count raw /\
  terminal_idempotency_key raw = None /\ terminal_request_sha256 raw = None /\ result_code raw = None.
Proof.
  intros (_ & _ & Hu) (Ht & He & Hc & _ & _)%lease_held. destruct (delivery_token_used_at raw) as [i|].
  - destruct Hu as (_ & Hc' & Ha & [(_ & _ & ? & ? & ? & _)|(Hn & _)]); [|congruence].
    rewrite Hc in Hc'. injection Hc' as ->. eauto 10.
  - destruct Hu as (Hn & _). congruence.
Qed.

Lemma raw_change_data k raw c r raw' : raw_change k raw c r raw' -> job_data raw' = job_data raw.
Proof. by destruct 1. Qed.

Lemma failure_state_ended b raw :
  failure_state b raw <> RETRY_SCHEDULED -> is_state (failure_state b raw) [COMPLETED; FAILED_TERMINAL; DEAD_LETTER] = true.
Proof. unfold failure_state. repeat case_match; done. Qed.
Lemma failure_state_not_completed b raw : failure_state b raw <> COMPLETED.
Proof. unfold failure_state. repeat case_match; done. Qed.

Lemma waiting_ok now raw : raw_ok raw -> is_state (job_state raw) ENDED_STATES = false -> raw_ok (waiting_job now raw).
Proof.
  intros (Ha & Hv & Hu) Hs. repeat split; simpl; [done|lia|].
  destruct (delivery_token_used_at raw) as [i|].
  - destruct Hu as (He & Hc & H1 & [(?&?&?&?&?&_)|(?&?&?&?&?&Hst)]); unfold claimed_ok; simpl.
    + repeat split; try done. left. by repeat split.
    + exfalso. destruct (job_state raw); done.
  - destruct Hu as (?&?&?&?&?&?&?&_). by repeat split.
Qed.

Lemma running_ok now e raw b now0 client :
  raw_ok raw -> holds_lease now0 b client raw = true -> is_Some e -> raw_ok (running_job now e raw).
Proof.
  intros Ho Hl He. destruct (held_claimed _ _ _ _ Ho Hl) as ([i Hi] & _ & Ha & ? & ? & ?). destruct Ho as (Hpos & Hv & Hu).
  rewrite Hi in Hu. destruct Hu as (? & ? & _ & _). pose proof (lease_held _ _ _ _ Hl) as (Ht & _).
  split; [done|]. split; [simpl; lia|]. simpl. rewrite Hi. repeat split; try done. left. simpl. rewrite Ht. by repeat split.
Qed.

Lemma ended_ok now b client raw raw' :
  raw_ok raw -> holds_lease now b client raw = true ->
  delivery_token_used_at raw' = delivery_token_used_at raw -> execution_id raw' = execution_id raw ->
  lease_client_id raw' = lease_client_id raw -> job_data raw' = job_data raw -> attempt_count raw' = attempt_count raw ->
  resource_version raw' = resource_version raw + 1 -> lease_token_sha256 raw' = None -> lease_expires_at raw' = None ->
  is_Some (terminal_idempotency_key raw') -> is_Some (terminal_request_sha256 raw') ->
  (is_Some (result_code raw') <-> job_state raw' = COMPLETED) ->
  is_state (job_state raw') [COMPLETED; FAILED_TERMINAL; DEAD_LETTER] = true -> raw_ok raw'.
Proof.
  intros Ho Hl Hu He Hc Hd Ha Hv ? ? ? ? Hr ?. destruct (held_claimed _ _ _ _ Ho Hl) as ([i Hi] & _).
  destruct Ho as (Hpos & Hver & Hk). rewrite Hi in Hk. destruct Hk as (? & ? & ? & _).
  unfold raw_ok, claimed_ok. rewrite Hu, Hi, He, Hc, Hd, Ha, Hv. repeat split; try done; [lia|].
  right. by repeat split; try apply Hr.
Qed.

Lemma raw_change_ok k raw c r raw' : raw_change k raw c r raw' -> raw_ok raw -> raw_ok raw'.
Proof.
  intros H Ho. pose proof Ho as (Hpos & Hv & Hu). destruct H; subst; [done|..].
  - rewrite H0 in Hu. destruct Hu as (?&?&?&?&?&?&?&?).
    split; [simpl; lia|]. split; [simpl; lia|]. simpl. repeat split; simpl; try done; [lia|]. left. by repeat split.
  - by eapply running_ok.
  - destruct (lease_held _ _ _ _ H0) as (_ & _ & _ & _ & e & He & _). eapply running_ok; [done..|by rewrite He].
  - by eapply ended_ok.
  - eapply ended_ok; try done; simpl; [|by apply failure_state_ended]. split; [by intros []|].
    intros Hc. by destruct (failure_state_not_completed b raw).
  - repeat split; simpl; try done. lia.
  - by apply waiting_ok.
  - repeat split; simpl; try done; [lia|].
    destruct (delivery_token_used_at raw) as [i|]; [|by destruct Hu as (_&_&_&_&_&_&?&_)].
    destruct Hu as (_&_&_&[(_&_&_&_&_&?)|(_&_&_&_&Hr&_)]); [by rewrite H0 in *|].
    destruct (result_code raw); [|done]. destruct Hr as [Hr _]. rewrite H0 in Hr. by specialize (Hr ltac:(done)).
Qed.

(** a job that was not there was created by the event of an [enqueue_event] *)
Lemma new_job_step s c r s' k raw :
  job_change s c r s' -> jobs s !! k = None -> jobs s' !! k = Some raw ->
  exists token now e route source, let j := new_job_data e route source now in
    c = do_enqueue token now e route source /\ k = (jb_tenant_id j, jb_job_id j) /\ raw = new_job j token /\
    job_keys s' = job_keys s ++ [k] /\ dispatches s' !! k = Some (new_dispatch j token).
Proof.
  intros H Hn Hk. destruct H;
    try (match goal with H0 : jobs s !! ?k0 = Some _, H : job_written ?k0 _ _ _ _ |- _ =>
      rewrite (written_other _ k _ _ _ _ H) in Hk; [congruence|intros Heq; rewrite Heq in *; congruence] end).
  - destruct H as (Hj & _). congruence.
  - rewrite H0 in Hk. destruct (decide (k0 = k)) as [Heq|Hne].
    + rewrite Heq, lookup_insert_eq in Hk. injection Hk as <-. exists token, now, e, r, source.
      rewrite <- Heq. repeat split; try done. rewrite H2. apply lookup_insert_eq.
    + rewrite lookup_insert_ne in Hk by done. congruence.
Qed.

Lemma dispatch_kept raw raw' d :
  dispatch_ok raw d -> job_data raw' = job_data raw -> delivery_token_sha256 raw' = delivery_token_sha256 raw ->
  delivery_token_used_at raw' = delivery_token_used_at raw -> dispatch_ok raw' d.
Proof. unfold dispatch_ok. by intros H -> -> ->. Qed.
Lemma dispatch_new j token raw :
  job_data raw = j -> delivery_token_sha256 raw = token_digest token -> delivery_token_used_at raw = None ->
  dispatch_ok raw (new_dispatch j token).
Proof. unfold dispatch_ok. by intros -> -> ->. Qed.
Lemma dispatch_taken d raw raw' :
  dispatch_ok raw d -> job_data raw' = job_data raw -> delivery_token_sha256 raw' = delivery_token_sha256 raw ->
  is_Some (delivery_token_used_at raw') -> dispatch_ok raw' (claim_dispatch d).
Proof. unfold dispatch_ok. intros (H & H2 & _) -> -> [i ->]. by repeat split. Qed.

Lemma dispatch_written s s' k0 raw0 raw1 dd k raw :
  automation_ok s -> job_written k0 raw1 dd s s' -> jobs s !! k0 = Some raw0 ->
  (forall d, dispatches s !! k0 = Some d -> dispatch_ok raw0 d -> dispatch_ok raw1 (default d dd)) ->
  jobs s' !! k = Some raw -> exists d, dispatches s' !! k = Some d /\ dispatch_ok raw d.
Proof.
  intros Ho (Hj & _ & Hd) H0 Hn Hk. rewrite Hj in Hk. destruct (decide (k0 = k)) as [->|Hne].
  - rewrite lookup_insert_eq in Hk. injection Hk as <-.
    destruct (ok_jobs s Ho _ _ H0) as (_ & _ & d & Hdd & Hok). specialize (Hn d Hdd Hok). exists (default d dd).
    split; [|done]. rewrite Hd. destruct dd; [apply lookup_insert_eq|done].
  - rewrite lookup_insert_ne in Hk by done. destruct (ok_jobs s Ho _ _ Hk) as (_ & _ & d & Hdd & Hok). exists d.
    split; [|done]. rewrite Hd. destruct dd; [by rewrite lookup_insert_ne|done].
Qed.

Lemma dispatch_step s c r s' k raw :
  automation_ok s -> job_change s c r s' -> jobs s' !! k = Some raw ->
  exists d, dispatches s' !! k = Some d /\ dispatch_ok raw d.
Proof.
  intros Ho H Hk. destruct H;
    try (eapply dispatch_written; [done|eassumption..| |exact Hk]; intros d0 Hd0 Hok;
         first [by eapply dispatch_kept|by apply dispatch_new]).
  - destruct H as (Hj & _ & _ & ->). rewrite Hj in Hk. by apply (ok_jobs s Ho).
  - rewrite H0 in Hk. destruct (decide (k0 = k)) as [Heq|Hne].
    + rewrite Heq, lookup_insert_eq in Hk. injection Hk as <-. exists (new_dispatch j token).
      rewrite H2, Heq, lookup_insert_eq. split; [done|]. by apply dispatch_new.
    + rewrite lookup_insert_ne in Hk by done. rewrite H2, lookup_insert_ne by done. by apply (ok_jobs s Ho).
  - eapply dispatch_written; [done|eassumption..| |exact Hk]. intros d0 Hd0 Hok.
    simplify_eq. by eapply dispatch_taken.
Qed.

Lemma keys_step s c r s' :
  automation_ok s -> job_change s c r s' ->
  NoDup (job_keys s') /\ forall k, k ∈ job_keys s' <-> is_Some (jobs s' !! k).
Proof.
  intros Ho H. destruct (ok_keys s Ho) as [Hnd Hk].
  assert (Hw : forall k0 raw0 raw1 d, job_written k0 raw1 d s s' -> jobs s !! k0 = Some raw0 ->
            NoDup (job_keys s') /\ forall k, k ∈ job_keys s' <-> is_Some (jobs s' !! k)).
  { intros k0 raw0 raw1 d (-> & -> & _) H0. split; [done|]. intros k. rewrite Hk.
    destruct (decide (k0 = k)) as [->|Hne]; [rewrite lookup_insert_eq, H0; split; intros _; by eexists|].
    by rewrite lookup_insert_ne. }
  destruct H; try by eapply Hw.
  - destruct H as (-> & -> & _). done.
  - rewrite H0, H1. split.
    + apply NoDup_app. split; [done|]. split; [|by apply NoDup_singleton]. intros x Hx ->%list_elem_of_singleton.
      apply Hk in Hx as [? Hx]. congruence.
    + intros k1. rewrite elem_of_app, list_elem_of_singleton, Hk. destruct (decide (k = k1)) as [Heq|Hne].
      * rewrite Heq, lookup_insert_eq. split; [by eexists|]. by right.
      * rewrite lookup_insert_ne by done. split; [intros [Hx|Hx]; [done|congruence]|by left].
Qed.

(** a dead job only leaves its state by a replay *)
Lemma dead_stays k raw c r raw' :
  raw_ok raw -> raw_change k raw c r raw' -> job_state raw = DEAD_LETTER -> replayed k c r = false -> raw' = raw.
Proof.
  intros Ho H Hs Hr. destruct H; try done; try congruence.
  - exfalso. by rewrite Hs in *.
  - apply lease_held in H0 as (_ & _ & _ & Hl & _). by rewrite Hs in *.
  - apply lease_held in H0 as (_ & _ & _ & Hl & _). by rewrite Hs in *.
  - apply lease_held in H0 as (_ & _ & _ & Hl & _). by rewrite Hs in *.
  - apply lease_held in H0 as (_ & _ & _ & Hl & _). by rewrite Hs in *.
  - apply lease_held in H0 as (_ & _ & _ & Hl & _). by rewrite Hs in *.
  - by rewrite Hs in *.
Qed.

Lemma dead_keep s c r s' k d :
  automation_ok s -> job_change s c r s' -> dead_ok s k d ->
  (replayed (dl_tenant_id d, dl_job_id d) c r = true -> dl_state d <> dl_open) -> dead_ok s' k d.
Proof.
  intros Ho H (Hk & Hu & raw & Hraw & Hs) Hr. split; [done|]. split; [done|].
  destruct (job_step _ _ _ _ _ _ Ho H Hraw) as (raw' & Hraw' & Hc). exists raw'. split; [done|]. intros Hopen.
  specialize (Hs Hopen). destruct (ok_jobs s Ho _ _ Hraw) as (_ & Hok & _).
  rewrite (dead_stays _ _ _ _ _ Hok Hc Hs); [done|]. by destruct (replayed _ c r); [destruct (Hr eq_refl)|].
Qed.

Lemma dead_step s c r s' k d :
  automation_ok s -> job_change s c r s' -> dead_letters s' !! k = Some d -> dead_ok s' k d.
Proof.
  intros Ho H Hk. pose proof H as Hc.
  assert (Hkeep : dead_letters s' = dead_letters s -> (forall k, replayed k c r = false) -> dead_ok s' k d).
  { intros Hd Hr. rewrite Hd in Hk. eapply dead_keep; [done..|by apply (ok_dead s Ho)|]. by rewrite Hr. }
  destruct H; try by apply Hkeep.
  - apply Hkeep; [by destruct H as (_ & _ & ? & _)|]. intros k1. by apply (idle_quiet k1) in H0 as [_ ?].
  - rewrite H4 in Hk. destruct (decide (st = DEAD_LETTER)) as [Hst|]; [|by apply Hkeep].
    destruct (decide ((k0.1, dead_letter_id_of k0.1 job) = k)) as [<-|Hne].
    + rewrite lookup_insert_eq in Hk. injection Hk as <-. split; [done|]. split; [done|]. exists raw'. simpl.
      split; [by eapply written_here|]. done.
    + rewrite lookup_insert_ne in Hk by done. eapply dead_keep; [done..|by apply (ok_dead s Ho)|done].
  - rewrite H5 in Hk. destruct (decide ((t, u) = k)) as [<-|Hne].
    + rewrite lookup_insert_eq in Hk. injection Hk as <-. apply (dead_keep s _ _ _ _ _ Ho Hc); [|by simpl].
      destruct (ok_dead s Ho _ _ H) as (? & ? & raw0 & ? & _). by repeat split; [..|exists raw0].
    + rewrite lookup_insert_ne in Hk by done. pose proof (ok_dead s Ho _ _ Hk) as Hd.
      eapply dead_keep; [done..|]. intros Hr _. apply Hne.
      destruct (ok_dead s Ho _ _ H) as (Hk1 & Hu1 & raw1 & Hj1 & _). destruct Hd as (Hk2 & Hu2 & _).
      destruct (ok_jobs s Ho _ _ Hj1) as [Hkey _]. injection Hk1 as Ht1 Hu1'. injection Hkey as _ Hkj.
      simpl in Hr. apply bool_decide_eq_true in Hr. rewrite Hk2. unfold t, k0 in *.
      assert (Hraw : Some raw1 = Some raw) by (rewrite <- Hj1, <- H3; unfold t; by rewrite Ht1).
      injection Hraw as ->. injection Hr as Hr1 Hr2. f_equal; congruence.
Qed.

(** ** Approvals *)

Definition approval_call (c : AutomationCall) : bool :=
  match c with do_request_approval _ _ _ _ | do_get_approval _ _ _ _ | do_approve _ _ _ _ => true | _ => false end.

Lemma approvals_same c s r s' :
  approval_call c = false -> automation_call c s = (r, s') ->
  approvals s' = approvals s /\ approval_idempotency s' = approval_idempotency s.
Proof.
  intros Hc H. destruct c; try done; simpl in H;
    unfold enqueue_event, claim, heartbeat, record_step, complete, fail, replay_dead_letter, reconcile, find_dead,
      find_approval, active_lease, terminal_replay, raw_job, dispatch_claimed in H; run_in H; done.
Qed.

(** an approval of the new store is the old one, a new one, or the old one expired or decided *)
Lemma approval_step c s r s' k d a :
  automation_ok s -> automation_call c s = (r, s') -> approvals s' !! k = Some (d, a) -> approval_ok s k a.
Proof.
  intros Ho H Hk. destruct (approval_call c) eqn:Hc.
  2:{ destruct (approvals_same _ _ _ _ Hc H) as [Heq _]. rewrite Heq in Hk. by eapply ok_approvals. }
  destruct c; try done; simpl in H.
  - unfold request_approval, raw_job in H. run_in H;
      try (by eapply ok_approvals); rewrite lookup_insert in Hk; case_decide; simplify_eq/=;
      try (by eapply ok_approvals); by repeat split.
  - unfold get_approval, find_approval, answering, bind in H. destruct (approvals s !! (t, u)) as [[d1 a1]|] eqn:Ha;
      run_in H; try (by eapply ok_approvals).
    rewrite lookup_insert in Hk; case_decide; simplify_eq/=; [|by eapply ok_approvals].
    destruct (ok_approvals s Ho _ _ _ Ha) as (? & ? & ?). by repeat split.
  - unfold approve_for_test, find_approval, answering, bind in H. destruct (approvals s !! (t, u)) as [[d1 a1]|] eqn:Ha;
      run_in H; try (by eapply ok_approvals).
    rewrite lookup_insert in Hk; case_decide; simplify_eq/=; [|by eapply ok_approvals].
    destruct (ok_approvals s Ho _ _ _ Ha) as (? & ? & ?). repeat split; try done.
    intros _. exists decided_by. split; [done|]. simpl. intros ->. by rewrite String.eqb_refl in *.
Qed.

Lemma approval_keys_step c s r s' t j key u :
  automation_ok s -> automation_call c s = (r, s') -> approval_idempotency s' !! ((t, j), key) = Some u ->
  is_Some (approvals s' !! (t, u)).
Proof.
  intros Ho H Hk. destruct (approval_call c) eqn:Hc.
  2:{ destruct (approvals_same _ _ _ _ Hc H) as [-> Heq]. rewrite Heq in Hk. by eapply ok_approval_keys. }
  assert (Hi : forall k e, is_Some (approvals s !! k) -> is_Some (<[e.1 := e.2]> (approvals s) !! k)).
  { intros k e Hs. rewrite lookup_insert. by case_decide. }
  destruct c; try done; simpl in H.
  - unfold request_approval, raw_job in H. run_in H; try (by eapply ok_approval_keys);
      rewrite lookup_insert in Hk; case_decide; simplify_eq/=; try (by rewrite lookup_insert_eq);
      eapply (Hi _ (_, _)); by eapply ok_approval_keys.
  - unfold get_approval, find_approval in H. run_in H; try (by eapply ok_approval_keys);
      eapply (Hi _ (_, _)); by eapply ok_approval_keys.
  - unfold approve_for_test, find_approval in H. run_in H; try (by eapply ok_approval_keys);
      eapply (Hi _ (_, _)); by eapply ok_approval_keys.
Qed.

(** ** Every call keeps the invariant *)

Lemma call_keeps c s r s' : automation_ok s -> automation_call c s = (r, s') -> automation_ok s' /\ job_change s c r s'.
Proof.
  intros Ho H. assert (Hc : job_change s c r s') by (apply call_change; [|done]; intros; by eapply has_dispatches).
  split; [|done]. split.
  - by eapply keys_step.
  - intros k raw Hk. destruct (jobs s !! k) as [raw0|] eqn:H0.
    + destruct (job_step _ _ _ _ _ _ Ho Hc H0) as (raw' & Hk' & Hch). simplify_eq.
      destruct (ok_jobs s Ho _ _ H0) as (Hkey & Hok & _). split; [|split].
      * unfold job_key. by rewrite (raw_change_data _ _ _ _ _ Hch).
      * by eapply raw_change_ok.
      * by eapply dispatch_step.
    + destruct (new_job_step _ _ _ _ _ _ Hc H0 Hk) as (token & now & e & route & source & _ & -> & -> & _ & Hd).
      split; [done|]. split; [by repeat split|]. eexists. split; [done|]. by apply dispatch_new.
  - intros k d. by eapply dead_step.
  - intros k d a Hk. destruct (approval_step _ _ _ _ _ _ _ Ho H Hk) as (? & [raw Hraw] & ?). repeat split; try done.
    destruct (job_step _ _ _ _ _ _ Ho Hc Hraw) as (? & ? & _). by eexists.
  - intros t j key u. by eapply approval_keys_step.
Qed.

Lemma empty_automation_ok : automation_ok empty_automation.
Proof.
  split; try done. split; [constructor|]. intros k. simpl. rewrite lookup_empty. split; [by intros ?%elem_of_nil|by intros []].
Qed.

Lemma run_keeps cs s : automation_ok s -> automation_ok (snd (automation_run cs s)).
Proof.
  revert s. induction cs as [|c cs IH]; intros s Ho; simpl; [done|].
  destruct (automation_call c s) as [r s1] eqn:H. destruct (call_keeps _ _ _ _ Ho H) as [Ho1 _].
  specialize (IH s1 Ho1). by destruct (automation_run cs s1).
Qed.

(** ** One job through a history *)

Lemma run_app cs1 cs2 s :
  snd (automation_run (cs1 ++ cs2) s) = snd (automation_run cs2 (snd (automation_run cs1 s))).
Proof.
  revert s. induction cs1 as [|c cs1 IH]; intros s; [done|]. simpl. destruct (automation_call c s) as [r s1].
  specialize (IH s1). destruct (automation_run (cs1 ++ cs2) s1), (automation_run cs1 s1). done.
Qed.

Lemma run_cons c cs s :
  automation_run (c :: cs) s =
  let (r, s1) := automation_call c s in ((c, r) :: fst (automation_run cs s1), snd (automation_run cs s1)).
Proof. simpl. destruct (automation_call c s) as [r s1]. by destruct (automation_run cs s1). Qed.

Lemma run_job_keeps (P : RawJob -> Prop) (Q : AutomationCall -> Prop) k cs s raw :
  (forall c r raw0 raw1, Q c -> raw_ok raw0 -> P raw0 -> raw_change k raw0 c r raw1 -> P raw1) ->
  automation_ok s -> Forall Q cs -> jobs s !! k = Some raw -> P raw ->
  exists raw', jobs (snd (automation_run cs s)) !! k = Some raw' /\ P raw'.
Proof.
  intros Hstep. revert s raw. induction cs as [|c cs IH]; intros s raw Ho Hq Hk Hp; [by exists raw|].
  apply Forall_cons in Hq as [Hc Hq]. rewrite run_cons. destruct (automation_call c s) as [r s1] eqn:H. simpl.
  destruct (call_keeps _ _ _ _ Ho H) as [Ho1 Hch]. destruct (job_step _ _ _ _ _ _ Ho Hch Hk) as (raw1 & Hk1 & Hch1).
  destruct (ok_jobs s Ho _ _ Hk) as (_ & Hok & _). by eapply IH; eauto.
Qed.

(** a job that has completed or failed for good is written no more *)
Definition over (raw : RawJob) : bool := is_state (job_state raw) [COMPLETED; FAILED_TERMINAL].

Lemma held_not_over now b client raw : holds_lease now b client raw = true -> over raw = false.
Proof. intros (_ & _ & _ & H & _)%lease_held. unfold over. by destruct (job_state raw). Qed.

Lemma over_unchanged k raw c r raw' : over raw = true -> raw_change k raw c r raw' -> raw' = raw.
Proof.
  intros Ho H.
  destruct H; try done; try (exfalso; match goal with H : holds_lease _ _ _ _ = true |- _ =>
    apply held_not_over in H; congruence end); exfalso; unfold over in Ho; by destruct (job_state raw).
Qed.

Lemma over_stays cs s k raw :
  automation_ok s -> jobs s !! k = Some raw -> over raw = true -> jobs (snd (automation_run cs s)) !! k = Some raw.
Proof.
  intros Ho Hk Hov.
  destruct (run_job_keeps (fun x => x = raw) (fun _ => True) k cs s raw) as (raw' & -> & ->); try done.
  - intros c r raw0 raw1 _ _ -> H. by eapply over_unchanged.
  - by apply Forall_true.
Qed.

Lemma complete_run now now2 job b client s raw :
  jobs s !! lease_key (tr_lease b) job = Some raw ->
  automation_call (do_complete now now2 job b client) s =
  match terminal_idempotency_key raw with
  | Some k =>
      if String.eqb k (idempotency_key (le_mutation (tr_lease b))) && bool_decide (terminal_request_sha256 raw = Some (complete_digest b))
      then (Ret (re_job (job_view raw true)), s)
      else (Exc (Exn AutomationConflict "job already has a different terminal transition"), s)
  | None =>
      if holds_lease now (tr_lease b) client raw
      then (Ret (re_job (job_view (completed_job now2 b raw) false)), set_job (lease_key (tr_lease b) job) (completed_job now2 b raw) s)
      else (Exc (Exn AutomationConflict "active automation lease is required"), s)
  end.
Proof.
  intros Hk. unfold lease_key in *. simpl.
  unfold answering, complete, bind, terminal_replay, active_lease, ret, raise, modify. rewrite raw_job_run, Hk.
  destruct (terminal_idempotency_key raw); repeat case_match; simplify_eq/=; done.
Qed.

Lemma claim_run now b client s raw d :
  let k := (tenant_id (cl_mutation b), cl_job_id b) in
  let token := lease_token (cl_delivery_token b) (cl_job_id b) (cl_execution_id b) client in
  let raw' := claimed_job now (token_digest token) client (cl_execution_id b) raw in
  jobs s !! k = Some raw -> dispatches s !! k = Some d ->
  jb_workflow_key (job_data raw) = cl_workflow_key b -> jb_workflow_version (job_data raw) = cl_workflow_version b ->
  jb_expected_client_id (job_data raw) = client -> delivery_token_sha256 raw = token_digest (cl_delivery_token b) ->
  automation_call (do_claim now b client) s =
  match delivery_token_used_at raw with
  | Some _ =>
      if same_claim now (token_digest token) client (cl_execution_id b) raw
      then (Ret (re_claim (claim_response raw token true)), s)
      else (Exc (Exn AutomationConflict "delivery token was already consumed"), s)
  | None =>
      if is_state (job_state raw) [PENDING; RETRY_SCHEDULED]
      then (Ret (re_claim (claim_response raw' token false)), set_dispatch k (claim_dispatch d) (set_job k raw' s))
      else (Exc (Exn AutomationConflict "automation job is not claimable"), s)
  end.
Proof.
  intros k token raw' Hk Hd Hw Hv <- Ht. subst k token raw'. simpl.
  unfold answering, claim, bind, dispatch_claimed, ret, raise, modify. rewrite raw_job_run, Hk, Hw, Hv, Ht.
  rewrite !String.eqb_refl, Z.eqb_refl. simpl. destruct (delivery_token_used_at raw).
  - by destruct (same_claim _ _ _ _ _).
  - destruct (is_state (job_state raw) [PENDING; RETRY_SCHEDULED]); simpl; [|done]. by rewrite Hd.
Qed.

(** ** Refusals *)

Definition is_refusal (e : exn) : Prop :=
  exn_cls e ∈ [AutomationNotFound; AutomationConflict; AutomationAuthorizationDenied].

Lemma call_refused s c e s' :
  automation_ok s -> automation_call c s = (Exc e, s') -> s' = s /\ is_refusal e.
Proof.
  intros Ho H.
  assert (Hr : forall cl msg, cl ∈ [AutomationNotFound; AutomationConflict; AutomationAuthorizationDenied] ->
            Exn cl msg = e -> is_refusal e) by (intros cl msg Hc <-; exact Hc).
  destruct c; simpl in H;
    unfold enqueue_event, claim, heartbeat, record_step, complete, fail, replay_dead_letter, reconcile, find_dead,
      request_approval, get_approval, approve_for_test,
      find_approval, active_lease, terminal_replay, raw_job, dispatch_claimed in H; run_in H;
    try (split; [done|]; unfold is_refusal; simpl; set_solver).
  all: exfalso.
  - match goal with H : jobs _ !! _ = Some _ |- _ => destruct (has_dispatches _ _ _ Ho H) end. congruence.
  - match goal with H : approval_idempotency _ !! _ = Some _ |- _ => destruct (ok_approval_keys _ Ho _ _ _ _ H) end. congruence.
Qed.

(** ** Attempts *)

Definition count_calls (p : AutomationCall -> outcome AutomationReply -> bool)
    (h : list (AutomationCall * outcome AutomationReply)) : Z :=
  Z.of_nat (length (List.filter (fun e => p (fst e) (snd e)) h)).

Lemma count_cons p c r h : count_calls p ((c, r) :: h) = Z.b2z (p c r) + count_calls p h.
Proof. unfold count_calls. simpl. destruct (p c r); simpl; lia. Qed.

(** events are enqueued on routes that allow an attempt *)
Definition routed (c : AutomationCall) : Prop :=
  match c with do_enqueue _ _ _ r _ => 1 <= max_attempts r | _ => True end.

(** how many attempts an offer or a claim stands for *)
Definition attempts_within (raw : RawJob) (g p : Z) : Prop :=
  attempt_count raw = g /\ 0 <= p /\
  (if delivery_token_used_at raw then attempt_count raw else attempt_count raw + 1) <= jb_max_attempts (job_data raw) + p.

Lemma granted_only k c r : granted k c r = true -> exists now b client x, c = do_claim now b client /\ r = Ret (re_claim x) /\
  (tenant_id (cl_mutation b), cl_job_id b) = k /\ cr_duplicate x = false.
Proof.
  destruct c, r as [[]|]; simpl; try done. rewrite andb_true_iff, bool_decide_eq_true, negb_true_iff.
  intros [? ?]. eauto 10.
Qed.

Lemma attempt_change k raw c r raw' g p :
  raw_ok raw -> raw_change k raw c r raw' -> attempts_within raw g p ->
  attempts_within raw' (g + Z.b2z (granted k c r)) (p + Z.b2z (replayed k c r)).
Proof.
  unfold attempts_within. intros Ho H (Hg & H0p & Hp).
  assert (Hone : delivery_token_used_at raw' = delivery_token_used_at raw -> attempt_count raw' = attempt_count raw ->
            job_data raw' = job_data raw -> granted k c r = false -> replayed k c r = false ->
            attempt_count raw' = g + Z.b2z (granted k c r) /\ 0 <= p + Z.b2z (replayed k c r) /\
            (if delivery_token_used_at raw' then attempt_count raw' else attempt_count raw' + 1) <=
              jb_max_attempts (job_data raw') + (p + Z.b2z (replayed k c r))).
  { intros -> -> -> -> ->. simpl. lia. }
  destruct H; try by apply Hone.
  - simpl. rewrite H4, bool_decide_eq_true_2, H0 in * by done. simpl. lia.
  - assert (Hu : is_Some (delivery_token_used_at raw)) by by eapply held_claimed.
    destruct Hu as [i Hu]. rewrite Hu in Hp. simpl. unfold failure_state in H2.
    destruct (fr_unknown_outcome b); [done|]. destruct (fr_retryable b && _) eqn:Hlt; [|by destruct (_ <=? _)].
    apply andb_true_iff in Hlt as [_ Hlt]. lia.
  - rewrite H. simpl. destruct (delivery_token_used_at raw); lia.
Qed.

Lemma attempts_run k cs s raw h s' g p :
  automation_ok s -> jobs s !! k = Some raw -> attempts_within raw g p -> automation_run cs s = (h, s') ->
  exists raw', jobs s' !! k = Some raw' /\ attempts_within raw' (g + count_calls (granted k) h) (p + count_calls (replayed k) h).
Proof.
  revert s raw h s' g p. induction cs as [|c cs IH]; intros s raw h s' g p Ho Hk Hw H.
  - simpl in H. simplify_eq. exists raw. unfold count_calls. simpl. by rewrite !Z.add_0_r.
  - rewrite run_cons in H. destruct (automation_call c s) as [r s1] eqn:Hc. simplify_eq.
    destruct (call_keeps _ _ _ _ Ho Hc) as [Ho1 Hch]. destruct (job_step _ _ _ _ _ _ Ho Hch Hk) as (raw1 & Hk1 & Hch1).
    destruct (ok_jobs s Ho _ _ Hk) as (_ & Hok & _). pose proof (attempt_change _ _ _ _ _ _ _ Hok Hch1 Hw) as Hw1.
    destruct (automation_run cs s1) as [h2 s2] eqn:H2.
    destruct (IH _ _ _ _ _ _ Ho1 Hk1 Hw1 H2) as (raw' & Hk' & Hw'). exists raw'. simpl. split; [done|].
    by rewrite !count_cons, !Z.add_assoc.
Qed.

(** a job that is not there has been neither claimed nor replayed *)
Lemma absent_quiet s c r s' k :
  automation_ok s -> job_change s c r s' -> jobs s !! k = None -> granted k c r = false /\ replayed k c r = false.
Proof.
  intros Ho H Hk. destruct H; try done.
  - by apply idle_quiet.
  - split; [|done]. apply not_granted. intros Heq. unfold k0 in *. congruence.
  - split; [done|]. simpl. apply bool_decide_eq_false_2. intros Heq. unfold k0, t in *.
    destruct (ok_dead s Ho _ _ H) as (Hd & _ & _). destruct (ok_jobs s Ho _ _ H3) as (Hkey & _).
    unfold job_key in Hkey. injection Hkey as _ Hj. rewrite Hj in Heq. congruence.
Qed.

Lemma attempts_from_none k cs s raw h s' :
  automation_ok s -> Forall routed cs -> jobs s !! k = None -> automation_run cs s = (h, s') -> jobs s' !! k = Some raw ->
  attempts_within raw (count_calls (granted k) h) (count_calls (replayed k) h).
Proof.
  revert s h s'. induction cs as [|c cs IH]; intros s h s' Ho Hr Hk H Hf; [simpl in H; congruence|].
  apply Forall_cons in Hr as [Hrc Hr]. rewrite run_cons in H. destruct (automation_call c s) as [r s1] eqn:Hc. simplify_eq.
  destruct (call_keeps _ _ _ _ Ho Hc) as [Ho1 Hch]. destruct (absent_quiet _ _ _ _ _ Ho Hch Hk) as [Hg Hp].
  destruct (automation_run cs s1) as [h2 s2] eqn:H2. simpl in *. rewrite !count_cons, Hg, Hp. simpl.
  destruct (jobs s1 !! k) as [raw1|] eqn:Hk1; [|by eapply IH].
  destruct (new_job_step _ _ _ _ _ _ Hch Hk Hk1) as (token & now & e & route & source & -> & _ & -> & _).
  destruct (attempts_run k cs s1 _ h2 s2 0 0 Ho1 Hk1) as (raw' & Hk' & Hw); [|done|].
  - unfold attempts_within. simpl. simpl in Hrc. lia.
  - assert (raw' = raw) as -> by congruence. by rewrite !Z.add_0_l in Hw.
Qed.
