(* ===== verification/PgAutomation.v ===== *)
(** * The durable automation store

    [PostgresAutomationStore] of [src/app/automation_v2.py] over the tables of
    [migrations/automation/0001_automation_v2.sql].  Every method is one
    transaction that locks the job's row ([FOR UPDATE]) and is rolled back when
    it raises.  A table is a map by its primary key, or a list in the order of
    its serial ids; a [jsonb] column holds a value.

    [db_now] is the transaction's [now()]; [now] is the clock of the process,
    and [stamp] an instant a method read before its transaction began.  The
    serial id of a step is an argument, like the tokens.  [timestamptz] is the
    text of the column an event's [occurred_at] is read back from. *)

From stdpp Require Import sorting.
From S2P Require Import Prelude Json PyValue Clock Sha256 Uuid Commands Inbox.
From S2P Require Import PgLedger Automation.
Local Open Scope Z_scope.

(** ** Tables *)

(** [middleware_automation_jobs]: what the in-memory store keeps of a job, and the terminal document *)
Record JobRow := { jr_raw : RawJob; jr_safe_terminal_result : option jdict }.

(** [middleware_automation_dispatch_outbox] *)
Record DispatchRow := {
  ds_key : JobKey;
  ds_generation : Z;
  ds_workflow_key : string;
  ds_workflow_version : Z;
  ds_correlation_id : string;
  ds_payload : jdict;
  ds_state : DispatchState;
  ds_claimed_at : option instant;
}.

(** [middleware_automation_approvals] *)
Record ApprovalRow := { pr_record : ApprovalRecord; pr_idempotency_key : string; pr_request_sha256 : string }.

(** [middleware_automation_audit] *)
Record AutomationAudit := {
  au_key : JobKey;
  au_event_type : string;
  au_previous_state : option JobState;
  au_new_state : JobState;
  au_actor_id : string;
  au_correlation_id : string;
  au_safe_metadata : jdict;
}.

Record AutomationDB := mkADB {
  t_jobs : gmap JobKey JobRow;
  t_steps : gmap (JobKey * string) (string * StepEvidence);
  t_approvals : gmap JobKey ApprovalRow;
  t_dead_letters : gmap JobKey DeadLetterRecord;
  t_replay_requests : gmap (JobKey * string) (string * AutomationJob);
  t_reconciliation_runs : gmap (string * string) (string * ReconciliationRun);
  t_dispatch_outbox : list DispatchRow;
  t_audit : list AutomationAudit;
}.
Abbreviation DBM := (M AutomationDB).

Definition empty_automation_db : AutomationDB := mkADB ∅ ∅ ∅ ∅ ∅ ∅ [] [].

Definition put_job (k : JobKey) (r : JobRow) (d : AutomationDB) : AutomationDB :=
  mkADB (<[k := r]> (t_jobs d)) (t_steps d) (t_approvals d) (t_dead_letters d) (t_replay_requests d)
    (t_reconciliation_runs d) (t_dispatch_outbox d) (t_audit d).
Definition put_step (k : JobKey * string) (e : string * StepEvidence) (d : AutomationDB) : AutomationDB :=
  mkADB (t_jobs d) (<[k := e]> (t_steps d)) (t_approvals d) (t_dead_letters d) (t_replay_requests d)
    (t_reconciliation_runs d) (t_dispatch_outbox d) (t_audit d).
Definition put_approval (k : JobKey) (r : ApprovalRow) (d : AutomationDB) : AutomationDB :=
  mkADB (t_jobs d) (t_steps d) (<[k := r]> (t_approvals d)) (t_dead_letters d) (t_replay_requests d)
    (t_reconciliation_runs d) (t_dispatch_outbox d) (t_audit d).
Definition put_dead (k : JobKey) (r : DeadLetterRecord) (d : AutomationDB) : AutomationDB :=
  mkADB (t_jobs d) (t_steps d) (t_approvals d) (<[k := r]> (t_dead_letters d)) (t_replay_requests d)
    (t_reconciliation_runs d) (t_dispatch_outbox d) (t_audit d).
Definition put_replay (k : JobKey * string) (r : string * AutomationJob) (d : AutomationDB) : AutomationDB :=
  mkADB (t_jobs d) (t_steps d) (t_approvals d) (t_dead_letters d) (<[k := r]> (t_replay_requests d))
    (t_reconciliation_runs d) (t_dispatch_outbox d) (t_audit d).
Definition put_run (k : string * string) (r : string * ReconciliationRun) (d : AutomationDB) : AutomationDB :=
  mkADB (t_jobs d) (t_steps d) (t_approvals d) (t_dead_letters d) (t_replay_requests d)
    (<[k := r]> (t_reconciliation_runs d)) (t_dispatch_outbox d) (t_audit d).
Definition put_dispatches (l : list DispatchRow) (d : AutomationDB) : AutomationDB :=
  mkADB (t_jobs d) (t_steps d) (t_approvals d) (t_dead_letters d) (t_replay_requests d)
    (t_reconciliation_runs d) l (t_audit d).
Definition put_audit (a : AutomationAudit) (d : AutomationDB) : AutomationDB :=
  mkADB (t_jobs d) (t_steps d) (t_approvals d) (t_dead_letters d) (t_replay_requests d)
    (t_reconciliation_runs d) (t_dispatch_outbox d) (t_audit d ++ [a]).

(** [INSERT INTO middleware_automation_audit] *)
Definition audit (k : JobKey) (event : string) (previous : option JobState) (new : JobState) (actor correlation : string)
    (metadata : jdict) : DBM unit :=
  modify (put_audit {| au_key := k; au_event_type := event; au_previous_state := previous; au_new_state := new;
    au_actor_id := actor; au_correlation_id := correlation; au_safe_metadata := metadata |}).

(** [SELECT * FROM middleware_automation_jobs ... FOR UPDATE], with the check that follows it *)
Definition job_row (t : string) (job : UUID) : DBM JobRow := fun d =>
  match t_jobs d !! (t, job) with
  | Some r => (Ret r, d)
  | None => a_missing "automation job was not found" d
  end.

(** an [UPDATE middleware_automation_jobs]: the columns of [raw] *)
Definition row_with (raw : RawJob) (r : JobRow) : JobRow :=
  {| jr_raw := raw; jr_safe_terminal_result := jr_safe_terminal_result r |}.
Definition row_ended (raw : RawJob) (document : jdict) : JobRow :=
  {| jr_raw := raw; jr_safe_terminal_result := Some document |}.

(** [SELECT COALESCE(max(dispatch_generation),0)+1] *)
Definition generations (k : JobKey) (l : list DispatchRow) : list Z :=
  map ds_generation (List.filter (fun r => bool_decide (ds_key r = k)) l).
Definition next_generation (k : JobKey) (l : list DispatchRow) : Z := fold_right Z.max 0 (generations k l) + 1.

Definition dispatch_row (k : JobKey) (generation : Z) (workflow : string) (j : JobData) (token : string) : DispatchRow := {|
  ds_key := k; ds_generation := generation; ds_workflow_key := workflow; ds_workflow_version := jb_workflow_version j;
  ds_correlation_id := jb_correlation_id j;
  ds_payload := [("job_id", JStr (uuid_str (snd k))); ("workflow_key", JStr workflow);
                 ("workflow_version", JInt (jb_workflow_version j)); ("correlation_id", JStr (jb_correlation_id j));
                 ("delivery_token", JStr token)];
  ds_state := dsp_pending; ds_claimed_at := None |}.

(** the [INSERT] of the next generation *)
Definition insert_dispatch (k : JobKey) (workflow : string) (j : JobData) (token : string) : DBM unit :=
  modify (fun d => put_dispatches (t_dispatch_outbox d ++
    [dispatch_row k (next_generation k (t_dispatch_outbox d)) workflow j token]) d).

(** [UPDATE ... SET state='CLAIMED' ... AND state='PENDING'] *)
Definition claim_row (now : instant) (k : JobKey) (r : DispatchRow) : DispatchRow :=
  match ds_state r with
  | dsp_pending =>
      if bool_decide (ds_key r = k) then {|
        ds_key := ds_key r; ds_generation := ds_generation r; ds_workflow_key := ds_workflow_key r;
        ds_workflow_version := ds_workflow_version r; ds_correlation_id := ds_correlation_id r;
        ds_payload := ds_payload r; ds_state := dsp_claimed; ds_claimed_at := Some now |}
      else r
  | dsp_claimed => r
  end.

(** ** [enqueue_event_on_connection] *)

Section Enqueue.
Context (timestamptz : string -> string).

Definition durable_job_data (e : EventEnvelope) (r : WorkflowRoute) (source : string) (now : instant) : JobData :=
  let j := new_job_data e r source now in {|
  jb_job_id := jb_job_id j; jb_tenant_id := jb_tenant_id j; jb_event_id := jb_event_id j;
  jb_correlation_id := jb_correlation_id j; jb_causation_id := jb_causation_id j;
  jb_occurred_at := timestamptz (jb_occurred_at j); jb_workflow_key := jb_workflow_key j;
  jb_workflow_family := jb_workflow_family j; jb_workflow_version := jb_workflow_version j;
  jb_expected_client_id := jb_expected_client_id j; jb_actor_context := jb_actor_context j;
  jb_safe_payload := jb_safe_payload j; jb_max_attempts := jb_max_attempts j; jb_created_at := jb_created_at j |}.

(** [UNIQUE (tenant_id, event_id, workflow_key, workflow_version)] *)
Definition same_source (j : JobData) (r : JobRow) : bool :=
  let j' := job_data (jr_raw r) in
  String.eqb (jb_tenant_id j') (jb_tenant_id j) && String.eqb (jb_event_id j') (jb_event_id j) &&
  String.eqb (jb_workflow_key j') (jb_workflow_key j) && (jb_workflow_version j' =? jb_workflow_version j).

Definition job_columns_ok (r : WorkflowRoute) : bool := (0 <? workflow_version r) && (0 <? max_attempts r).

Definition enqueue_on_connection (token : string) (now : instant) (e : EventEnvelope) (r : WorkflowRoute) (source : string) :
    DBM unit :=
  tenant_context (ev_tenant_id e) ;;;
  let j := durable_job_data e r source now in
  let k := (jb_tenant_id j, jb_job_id j) in
  let! d := gets id in
  if negb (job_columns_ok r) then raise (Foreign "CheckViolationError" ["PostgresError"; "Exception"]) "middleware_automation_jobs"
  else if existsb (same_source j) (map snd (map_to_list (t_jobs d))) then ret tt
  else if bool_decide (is_Some (t_jobs d !! k)) then unique_violation "middleware_automation_jobs_pkey"
  else
    modify (put_job k {| jr_raw := new_job j token; jr_safe_terminal_result := None |}) ;;;
    (* ON CONFLICT (tenant_id,job_id,dispatch_generation) DO NOTHING, of the first generation *)
    when (negb (bool_decide (1 ∈ generations k (t_dispatch_outbox d))))
      (modify (fun d => put_dispatches (t_dispatch_outbox d ++ [dispatch_row k 1 (workflow_key r) j token]) d)) ;;;
    audit k "job.created" None PENDING source (ev_correlation_id e) [("workflow_key", JStr (workflow_key r))].

Definition pg_enqueue_event (token : string) (now : instant) (e : EventEnvelope) (r : WorkflowRoute) (source : string) : DBM unit :=
  tenant_transaction (ev_tenant_id e) (enqueue_on_connection token now e r source).
End Enqueue.

(** ** [claim] *)

Definition pg_claim (now : instant) (b : JobClaimRequest) (client_id : string) : DBM JobClaimResponse :=
  let t := tenant_id (cl_mutation b) in
  let k := (t, cl_job_id b) in
  let token := lease_token (cl_delivery_token b) (cl_job_id b) (cl_execution_id b) client_id in
  tenant_transaction t (
    let! row := job_row t (cl_job_id b) in
    let raw := jr_raw row in
    if negb (String.eqb (jb_workflow_key (job_data raw)) (cl_workflow_key b)) ||
       negb (jb_workflow_version (job_data raw) =? cl_workflow_version b)
    then a_conflict "claim workflow identity does not match durable job"
    else if negb (String.eqb (jb_expected_client_id (job_data raw)) client_id)
    then a_denied "client does not own the job workflow family"
    else if negb (String.eqb (delivery_token_sha256 raw) (token_digest (cl_delivery_token b)))
    then a_denied "delivery token is invalid"
    else
    match delivery_token_used_at raw with
    | Some _ =>
        if same_claim now (token_digest token) client_id (cl_execution_id b) raw
        then ret (claim_response raw token true)
        else a_conflict "delivery token was already consumed"
    | None =>
        if negb (is_state (job_state raw) [PENDING; RETRY_SCHEDULED])
        then a_conflict "automation job is not claimable"
        else
        let raw' := claimed_job now (token_digest token) client_id (cl_execution_id b) raw in
        modify (put_job k (row_with raw' row)) ;;;
        modify (fun d => put_dispatches (map (claim_row now k) (t_dispatch_outbox d)) d) ;;;
        audit k "job.claimed" (Some (job_state raw)) CLAIMED client_id (jb_correlation_id (job_data raw))
          [("execution_id", JStr (uuid_str (cl_execution_id b)))] ;;;
        ret (claim_response raw' token false)
    end).

Definition pg_get_job (t : string) (job : UUID) : DBM AutomationJob :=
  tenant_transaction t (let! row := job_row t job in ret (job_view (jr_raw row) false)).

(** ** [_lease_row], [heartbeat] and [record_step] *)

Definition lease_row (now : instant) (job : UUID) (b : LeaseMutation) (client_id : string) : DBM JobRow :=
  let! row := job_row (tenant_id (le_mutation b)) job in
  active_lease now b client_id (jr_raw row) ;;;
  ret row.

Definition pg_heartbeat (now stamp : instant) (job : UUID) (b : LeaseMutation) (client_id : string) : DBM AutomationJob :=
  let t := tenant_id (le_mutation b) in
  tenant_transaction t (
    let! row := lease_row now job b client_id in
    let raw := running_job stamp (Some (stamp + Clock.seconds LEASE_SECONDS)) (jr_raw row) in
    modify (put_job (t, job) (row_with raw row)) ;;;
    audit (t, job) "job.heartbeat" (Some (job_state (jr_raw row))) RUNNING client_id (correlation_id (le_mutation b)) [] ;;;
    ret (job_view raw false)).

Definition pg_record_step (id : nat) (now db_now : instant) (job : UUID) (b : StepRecord) (client_id : string) : DBM StepEvidence :=
  let t := tenant_id (le_mutation (st_lease b)) in
  let k := ((t, job), idempotency_key (le_mutation (st_lease b))) in
  tenant_transaction t (
    let! row := lease_row now job (st_lease b) client_id in
    let! d := gets (fun d => t_steps d !! k) in
    let! e := (match d with
      | None => modify (put_step k (step_digest b, new_step id job b)) ;;; ret (new_step id job b)
      | Some (digest, e) =>
          if negb (String.eqb digest (step_digest b))
          then a_conflict "step idempotency key was reused with different content"
          else ret (duplicate_step e)
      end) in
    modify (put_job (t, job) (row_with (running_job db_now (lease_expires_at (jr_raw row)) (jr_raw row)) row)) ;;;
    ret e).

(** ** [complete] and [fail] *)

Definition pg_complete (now db_now : instant) (job : UUID) (b : TerminalResult) (client_id : string) : DBM AutomationJob :=
  let t := tenant_id (le_mutation (tr_lease b)) in
  tenant_transaction t (
    let! current := job_row t job in
    let! replay := terminal_replay (jr_raw current) (idempotency_key (le_mutation (tr_lease b))) (complete_digest b) in
    match replay with
    | Some answer => ret answer
    | None =>
        let! row := lease_row now job (tr_lease b) client_id in
        let raw := completed_job db_now b (jr_raw row) in
        modify (put_job (t, job) (row_ended raw (tr_safe_result b))) ;;;
        audit (t, job) "job.completed" (Some (job_state (jr_raw current))) COMPLETED client_id
          (correlation_id (le_mutation (tr_lease b))) [("result_code", JStr (tr_result_code b))] ;;;
        ret (job_view raw false)
    end).

(** [ON CONFLICT (tenant_id,dead_letter_id) DO NOTHING]; a row of the same job
    has the same identifier, so the table's second key adds nothing *)
Definition insert_dead_letter (k : JobKey) (r : DeadLetterRecord) : DBM unit := fun d =>
  (Ret tt, match t_dead_letters d !! k with Some _ => d | None => put_dead k r d end).

Definition pg_fail (token : string) (now db_now : instant) (job : UUID) (b : FailureResult) (client_id : string) : DBM AutomationJob :=
  let t := tenant_id (le_mutation (fr_lease b)) in
  tenant_transaction t (
    let! current := job_row t job in
    let! replay := terminal_replay (jr_raw current) (idempotency_key (le_mutation (fr_lease b))) (failure_digest b) in
    match replay with
    | Some answer => ret answer
    | None =>
        let! row := lease_row now job (fr_lease b) client_id in
        let st := failure_state b (jr_raw current) in
        let failed := failed_job db_now st b (jr_raw row) in
        let raw := if bool_decide (st = RETRY_SCHEDULED) then offered_again token failed else failed in
        modify (put_job (t, job) (row_ended raw (fr_safe_error b))) ;;;
        match st with
        | RETRY_SCHEDULED =>
            insert_dispatch (t, job) (jb_workflow_key (job_data (jr_raw current))) (job_data (jr_raw current)) token
        | DEAD_LETTER =>
            insert_dead_letter (t, dead_letter_id_of t job) (new_dead_letter db_now t job b (job_data (jr_raw current)))
        | _ => ret tt
        end ;;;
        audit (t, job) "job.failed" (Some (job_state (jr_raw current))) st client_id
          (correlation_id (le_mutation (fr_lease b)))
          [("error_code", JStr (fr_error_code b)); ("unknown_outcome", JBool (fr_unknown_outcome b))] ;;;
        ret (job_view raw false)
    end).

(** ** Approvals *)

(** [UNIQUE (tenant_id, job_id, idempotency_key)] *)
Definition approval_slot (t : string) (job : UUID) (key : string) (r : ApprovalRow) : bool :=
  String.eqb (ap_tenant_id (pr_record r)) t && (ap_job_id (pr_record r) =? job)%N && String.eqb (pr_idempotency_key r) key.
Definition approval_of (t : string) (job : UUID) (key : string) (d : AutomationDB) : option ApprovalRow :=
  List.find (approval_slot t job key) (map snd (map_to_list (t_approvals d))).

Definition pg_request_approval (db_now : instant) (b : ApprovalRequest) (client_id requested_by : string) : DBM ApprovalRecord :=
  let t := tenant_id (ar_mutation b) in
  let key := idempotency_key (ar_mutation b) in
  tenant_transaction t (
    let! row := job_row t (ar_job_id b) in
    if negb (String.eqb (jb_expected_client_id (job_data (jr_raw row))) client_id)
    then a_denied "client does not own the approval job family"
    else
    let a := new_approval db_now b requested_by in
    let! existing := gets (approval_of t (ar_job_id b) key) in
    match existing with
    | Some r =>
        if negb (String.eqb (pr_request_sha256 r) (approval_digest b))
        then a_conflict "approval idempotency key was reused with different content"
        else ret (duplicate_approval (pr_record r))
    | None =>
        let! d := gets id in
        if bool_decide (is_Some (t_approvals d !! (t, ap_approval_id a)))
        then unique_violation "middleware_automation_approvals_pkey"
        else
        modify (put_approval (t, ap_approval_id a)
          {| pr_record := a; pr_idempotency_key := key; pr_request_sha256 := approval_digest b |}) ;;;
        when (negb (is_state (job_state (jr_raw row)) ENDED_STATES))
          (modify (put_job (t, ar_job_id b) (row_with (waiting_job db_now (jr_raw row)) row))) ;;;
        ret a
    end).

Definition approval_row_with (a : ApprovalRecord) (r : ApprovalRow) : ApprovalRow :=
  {| pr_record := a; pr_idempotency_key := pr_idempotency_key r; pr_request_sha256 := pr_request_sha256 r |}.

Definition pg_find_approval (t : string) (u : UUID) : DBM ApprovalRow := fun d =>
  match t_approvals d !! (t, u) with
  | Some r => (Ret r, d)
  | None => a_missing "approval was not found" d
  end.

Definition pg_get_approval (db_now : instant) (t : string) (u : UUID) : DBM ApprovalRecord :=
  tenant_transaction t (
    let! r := pg_find_approval t u in
    let a := pr_record r in
    if bool_decide (ap_state a = ap_pending) && (ap_expires_at a <=? db_now) then
      let a := approval_with ap_expired (ap_decided_by a) db_now a in
      modify (put_approval (t, u) (approval_row_with a r)) ;;; ret a
    else ret a).

(** ** Dead letters *)

Definition pg_find_dead (t : string) (u : UUID) : DBM DeadLetterRecord := fun d =>
  match t_dead_letters d !! (t, u) with
  | Some r => (Ret r, d)
  | None => a_missing "dead letter was not found" d
  end.
Definition pg_get_dead_letter (t : string) (u : UUID) : DBM DeadLetterRecord := tenant_transaction t (pg_find_dead t u).

(** [_digest(body.model_dump(mode="json"))] *)
Definition replay_digest (b : DeadLetterReplayRequest) : string :=
  digest (JObj [("tenant_id", JStr (tenant_id (rp_mutation b))); ("correlation_id", JStr (correlation_id (rp_mutation b)));
                ("idempotency_key", JStr (idempotency_key (rp_mutation b))); ("approval_id", JStr (uuid_str (rp_approval_id b)));
                ("expected_version", JInt (rp_expected_version b));
                ("original_effect_fingerprint", JStr (rp_original_effect_fingerprint b));
                ("safe_replay_classification", JStr (rp_safe_replay_classification b));
                ("replay_reason", JStr (rp_replay_reason b))]).

(** [model_copy(update={"duplicate": True})] *)
Definition duplicate_job (j : AutomationJob) : AutomationJob := {|
  aj_data := aj_data j; aj_state := aj_state j; aj_execution_id := aj_execution_id j;
  aj_lease_client_id := aj_lease_client_id j; aj_lease_expires_at := aj_lease_expires_at j;
  aj_attempt_count := aj_attempt_count j; aj_result_code := aj_result_code j; aj_error_code := aj_error_code j;
  aj_resource_version := aj_resource_version j; aj_updated_at := aj_updated_at j; aj_duplicate := true |}.

Definition pg_replay_dead_letter (token : string) (now db_now : instant) (u : UUID) (b : DeadLetterReplayRequest)
    (client_id : string) : DBM AutomationJob :=
  let t := tenant_id (rp_mutation b) in
  let k := ((t, u), idempotency_key (rp_mutation b)) in
  if negb (String.eqb client_id OPERATIONS_CLIENT)
  then a_denied "only operations automation may request replay"
  else tenant_transaction t (
    let! prior := gets (fun d => t_replay_requests d !! k) in
    match prior with
    | Some (digest, j) =>
        if negb (String.eqb digest (replay_digest b))
        then a_conflict "replay idempotency key was reused with different content"
        else ret (duplicate_job j)
    | None =>
        let! dead := pg_find_dead t u in
        let! approval := pg_find_approval t (rp_approval_id b) in
        if negb (protected_approval now (pr_record approval) (dl_job_id dead))
        then a_denied "protected non-self approval is required"
        else if negb (dl_resource_version dead =? rp_expected_version b)
        then a_conflict "dead-letter expected_version is stale"
        else if negb (String.eqb (dl_original_effect_fingerprint dead) (rp_original_effect_fingerprint b))
        then a_conflict "dead-letter effect fingerprint does not match"
        else if negb (bool_decide (dl_state dead = dl_open))
        then a_conflict "dead letter is not open for replay"
        else
        let! d := gets id in
        match t_jobs d !! (t, dl_job_id dead) with
        | None => a_missing "dead-letter job was not found"
        | Some row =>
            let raw := replayed_job token db_now (jr_raw row) in
            modify (put_job (t, dl_job_id dead) (row_with raw row)) ;;;
            insert_dispatch (t, dl_job_id dead) (dl_workflow_key dead) (job_data raw) token ;;;
            modify (put_dead (t, u) (dead_with dl_replay_requested db_now dead)) ;;;
            modify (put_replay k (replay_digest b, job_view raw false)) ;;;
            ret (job_view raw false)
        end
    end).

(** ** [reconcile] *)

(** [ORDER BY j.created_at,j.job_id] *)
Definition created_le (a b : RawJob) : Prop :=
  jb_created_at (job_data a) < jb_created_at (job_data b) \/
  jb_created_at (job_data a) = jb_created_at (job_data b) /\ (jb_job_id (job_data a) <= jb_job_id (job_data b))%N.
#[export] Instance created_le_dec a b : Decision (created_le a b).
Proof. unfold created_le. apply _. Defined.

Definition scoped_rows (t : string) (ids : list UUID) (d : AutomationDB) : list RawJob :=
  merge_sort created_le (map (fun e => jr_raw (snd e)) (List.filter (fun e => in_scope t ids (fst e)) (map_to_list (t_jobs d)))).
(** [EXISTS (... AND d.state IN ('PENDING','CLAIMED'))] *)
Definition row_dispatched (d : AutomationDB) (raw : RawJob) : bool :=
  existsb (fun r => bool_decide (ds_key r = job_key raw)) (t_dispatch_outbox d).

Definition pg_reconcile (now : instant) (b : ReconciliationRequest) (requested_by : string) : DBM ReconciliationRun :=
  let t := tenant_id (rc_mutation b) in
  let k := (t, idempotency_key (rc_mutation b)) in
  tenant_transaction t (
    let! d := gets id in
    match t_reconciliation_runs d !! k with
    | Some (digest, r) =>
        if negb (String.eqb digest (reconcile_digest b))
        then a_conflict "reconciliation idempotency key was reused"
        else ret (duplicate_run r)
    | None =>
        let r := reconciliation_run (row_dispatched d) now b requested_by (scoped_rows t (rc_job_ids b) d) in
        modify (put_run k (reconcile_digest b, r)) ;;;
        ret r
    end).
