(* ===== verification/PgAutomationFacts.v ===== *)
(** * The in-memory and the durable automation store, call by call

    The relation between a [MemoryAutomationStore] and the tables, and each call
    of a history without replays kept in step with its in-memory counterpart. *)

From stdpp Require Import pretty.
From S2P Require Import Prelude Json PyValue Clock Sha256 Uuid Commands Inbox.
From S2P Require Import PgLedger Automation AutomationFacts PgAutomation.
Local Open Scope Z_scope.
#[local] Opaque sha256_hex uuid5 hmac_sha256.

Section Simulation.
Context (timestamptz : string -> string).

(** a call on the tables; [serial] is the evidence id the step table's sequence
    gives it, if it draws one (a sequence skips the ids of conflicts and of rolled
    back transactions); approvals are decided by operators in the database, never
    by the store *)
Definition durable_call (serial : nat) (c : AutomationCall) : DBM AutomationReply :=
  let answering {A} (f : A -> AutomationReply) (m : DBM A) : DBM AutomationReply := let! x := m in ret (f x) in
  match c with
  | do_enqueue token now e r source => answering (fun _ => re_enqueued) (pg_enqueue_event timestamptz token now e r source)
  | do_claim now b client => answering re_claim (pg_claim now b client)
  | do_heartbeat now now2 job b client => answering re_job (pg_heartbeat now now2 job b client)
  | do_step now now2 job b client =>
      answering re_step (pg_record_step serial now now2 job b client)
  | do_complete now now2 job b client => answering re_job (pg_complete now now2 job b client)
  | do_fail token now now2 job b client => answering re_job (pg_fail token now now2 job b client)
  | do_request_approval now b client by_ => answering re_approval (pg_request_approval now b client by_)
  | do_get_approval _ now2 t u => answering re_approval (pg_get_approval now2 t u)
  | do_approve _ _ _ _ => raise (Foreign "AttributeError" ["Exception"]) "approve_for_test"
  | do_replay token now now2 u b client => answering re_job (pg_replay_dead_letter token now now2 u b client)
  | do_reconcile now b by_ => answering re_run (pg_reconcile now b by_)
  end.

(** a history, whose calls draw these evidence ids *)
Fixpoint durable_run (serials : nat -> nat) (cs : list AutomationCall) (d : AutomationDB) :
    list (AutomationCall * outcome AutomationReply) * AutomationDB :=
  match cs with
  | [] => ([], d)
  | c :: cs' =>
      let (r, d1) := durable_call (serials 0%nat) c d in
      let (rs, d2) := durable_run (fun n => serials (S n)) cs' d1 in ((c, r) :: rs, d2)
  end.

(** the tenant of a call *)
Definition call_tenant (c : AutomationCall) : string :=
  match c with
  | do_enqueue _ _ e _ _ => ev_tenant_id e
  | do_claim _ b _ => tenant_id (cl_mutation b)
  | do_heartbeat _ _ _ b _ => tenant_id (le_mutation b)
  | do_step _ _ _ b _ => tenant_id (le_mutation (st_lease b))
  | do_complete _ _ _ b _ => tenant_id (le_mutation (tr_lease b))
  | do_fail _ _ _ _ b _ => tenant_id (le_mutation (fr_lease b))
  | do_request_approval _ b _ _ => tenant_id (ar_mutation b)
  | do_get_approval _ _ t _ | do_approve _ t _ _ => t
  | do_replay _ _ _ _ b _ => tenant_id (rp_mutation b)
  | do_reconcile _ b _ => tenant_id (rc_mutation b)
  end.

(** the calls the two stores are compared on: of tenants the tables admit, no
    decision, replay or reconciliation, events whose time is in the column's form,
    on routes the columns hold, reads of an approval that see one instant *)
Definition comparable (c : AutomationCall) : Prop :=
  tenant_ok (call_tenant c) = true /\
  match c with
  | do_enqueue _ _ e r _ => timestamptz (ev_occurred_at e) = ev_occurred_at e /\ job_columns_ok r = true
  | do_get_approval now now2 _ _ => now = now2
  | do_approve _ _ _ _ | do_replay _ _ _ _ _ _ | do_reconcile _ _ _ => False
  | _ => True
  end.

(** ** Identities that do not collide *)

Abbreviation Source := (string * string * string * Z)%type.
Definition source_key (x : Source) : JobKey :=
  let '(t, e, w, v) := x in
  (t, uuid5 NAMESPACE_URL ("codestra-automation-job:" +:+ t +:+ ":" +:+ e +:+ ":" +:+ w +:+ ":" +:+ pretty v)).
Definition job_source (c : AutomationCall) : option Source :=
  match c with
  | do_enqueue _ _ e r _ => Some (ev_tenant_id e, ev_event_id e, workflow_key r, workflow_version r)
  | _ => None
  end.
Definition data_source (j : JobData) : Source := (jb_tenant_id j, jb_event_id j, jb_workflow_key j, jb_workflow_version j).

Definition approval_slot_of (c : AutomationCall) : option (JobKey * string) :=
  match c with
  | do_request_approval _ b _ _ => Some ((tenant_id (ar_mutation b), ar_job_id b), idempotency_key (ar_mutation b))
  | _ => None
  end.
Definition approval_key (x : JobKey * string) : JobKey := (fst (fst x), approval_id_of (fst (fst x)) (snd (fst x)) (snd x)).
Definition dead_key (k : JobKey) : JobKey := (fst k, dead_letter_id_of (fst k) (snd k)).

(** no two of these are given the same identifier *)
Definition apart {A B} (f : A -> B) (l : list A) : Prop := Forall (fun x => Forall (fun y => f x = f y -> x = y) l) l.

Lemma apart_eq {A B} (f : A -> B) l x y : apart f l -> x ∈ l -> y ∈ l -> f x = f y -> x = y.
Proof. unfold apart. rewrite Forall_forall. intros H Hx Hy. specialize (H x Hx). rewrite Forall_forall in H. by apply H. Qed.

Record ids_apart (srcs : list Source) (slots : list (JobKey * string)) : Prop := {
  apart_jobs : apart source_key srcs;
  apart_approvals : apart approval_key slots;
  apart_dead : apart dead_key (map source_key srcs);
}.

(** ** The relation *)

(** a recorded step without its evidence id, which each store numbers itself *)
Definition unnumbered (e : StepEvidence) : StepEvidence := {|
  se_evidence_id := 0%nat; se_job_id := se_job_id e; se_execution_id := se_execution_id e;
  se_step_key := se_step_key e; se_step_state := se_step_state e; se_safe_metadata := se_safe_metadata e;
  se_recorded_at := se_recorded_at e; se_duplicate := se_duplicate e |}.
Definition unnumbered_answer (r : outcome AutomationReply) : outcome AutomationReply :=
  match r with Ret (re_step e) => Ret (re_step (unnumbered e)) | _ => r end.
Definition unnumbered_steps {K} `{Countable K} (m : gmap K (string * StepEvidence)) : gmap K (string * StepEvidence) :=
  (fun x => (fst x, unnumbered (snd x))) <$> m.

Record same_store (srcs : list Source) (slots : list (JobKey * string)) (s : MemoryAutomationStore) (d : AutomationDB) : Prop := {
  ss_ok : automation_ok s;
  ss_jobs : jobs s = jr_raw <$> t_jobs d;
  ss_steps : unnumbered_steps (steps s) = unnumbered_steps (t_steps d);
  ss_approvals : approvals s = (fun r => (pr_request_sha256 r, pr_record r)) <$> t_approvals d;
  ss_slots : forall k key u, approval_idempotency s !! (k, key) = Some u <->
    exists r, t_approvals d !! (fst k, u) = Some r /\ approval_slot (fst k) (snd k) key r = true;
  ss_dead : dead_letters s = t_dead_letters d;
  ss_open : forall k r, dead_letters s !! k = Some r -> dl_state r = dl_open;
  ss_sources : forall k raw, jobs s !! k = Some raw -> data_source (job_data raw) ∈ srcs /\ k = source_key (data_source (job_data raw));
  ss_requests : forall k r, t_approvals d !! k = Some r ->
    ((ap_tenant_id (pr_record r), ap_job_id (pr_record r)), pr_idempotency_key r) ∈ slots /\
    k = approval_key ((ap_tenant_id (pr_record r), ap_job_id (pr_record r)), pr_idempotency_key r);
}.

Lemma scoped_run {A} t (m : DBM A) d : tenant_ok t = true -> tenant_transaction t m d = transaction m d.
Proof.
  unfold tenant_ok, tenant_transaction, tenant_context, transaction, bind. rewrite andb_true_iff. intros [-> ->]. done.
Qed.

Lemma job_row_run t job d :
  job_row t job d = (match t_jobs d !! (t, job) with
                     | Some r => Ret r
                     | None => Exc (Exn AutomationNotFound "automation job was not found") end, d).
Proof. unfold job_row, raise. by destruct (t_jobs d !! (t, job)). Qed.

Section Steps.
Context (srcs : list Source) (slots : list (JobKey * string)) (serial : nat).
Hypothesis Hapart : ids_apart srcs slots.
Abbreviation R := (same_store srcs slots).

Lemma jobs_at s d k : R s d -> jobs s !! k = jr_raw <$> t_jobs d !! k.
Proof. intros H. by rewrite (ss_jobs _ _ _ _ H), lookup_fmap. Qed.

Lemma row_at s d k row : R s d -> t_jobs d !! k = Some row -> jobs s !! k = Some (jr_raw row).
Proof. intros H Hr. by rewrite (jobs_at _ _ _ H), Hr. Qed.

(** the stores agree after a job is written, whatever dispatches and audit say *)
Lemma same_job s d s' d' k row0 raw doc :
  R s d -> automation_ok s' -> t_jobs d !! k = Some row0 -> jobs s' = <[k := raw]> (jobs s) ->
  job_data raw = job_data (jr_raw row0) -> t_jobs d' = <[k := {| jr_raw := raw; jr_safe_terminal_result := doc |}]> (t_jobs d) ->
  unnumbered_steps (steps s') = unnumbered_steps (t_steps d') -> approvals s' = approvals s -> t_approvals d' = t_approvals d ->
  approval_idempotency s' = approval_idempotency s -> dead_letters s' = t_dead_letters d' ->
  (forall x r, dead_letters s' !! x = Some r -> dl_state r = dl_open) -> R s' d'.
Proof.
  intros H Ho Hk Hj Hd Hj' Hs Ha Ha' Hi Hl Hop. split; try done.
  - by rewrite Hj, Hj', fmap_insert, (ss_jobs _ _ _ _ H).
  - rewrite Ha, Ha'. apply (ss_approvals _ _ _ _ H).
  - rewrite Hi, Ha'. apply (ss_slots _ _ _ _ H).
  - intros x r Hx. rewrite Hj, lookup_insert in Hx. case_decide; [|by apply (ss_sources _ _ _ _ H)].
    simplify_eq. rewrite Hd. apply (ss_sources _ _ _ _ H). by eapply row_at.
  - rewrite Ha'. apply (ss_requests _ _ _ _ H).
Qed.

Lemma lease_row_run now job b client d row :
  t_jobs d !! (tenant_id (le_mutation b), job) = Some row ->
  lease_row now job b client d =
  (if holds_lease now b client (jr_raw row) then Ret row
   else Exc (Exn AutomationConflict "active automation lease is required"), d).
Proof. intros H. unfold lease_row, bind, active_lease, ret, raise. rewrite job_row_run, H. by destruct (holds_lease _ _ _ _). Qed.

Lemma lease_row_none now job b client d :
  t_jobs d !! (tenant_id (le_mutation b), job) = None ->
  lease_row now job b client d = (Exc (Exn AutomationNotFound "automation job was not found"), d).
Proof. intros H. unfold lease_row, bind. by rewrite job_row_run, H. Qed.

(** the method in memory, in [Hc], and its durable counterpart, in the goal, at
    the same row of the job *)
Ltac both H Hc Hk t job :=
  unfold answering, bind in Hc; rewrite raw_job_run, (jobs_at _ _ _ H) in Hc;
  unfold bind; rewrite scoped_run by done; unfold transaction, bind;
  destruct (t_jobs _ !! (t, job)) as [row|] eqn:Hk; cbn [fmap option_fmap option_map] in Hc.
Ltac settle Hc := unfold ret, raise, modify, gets, id, audit in Hc |- *; cbn [fst snd] in Hc |- *; simplify_eq.

Lemma same_heartbeat now now2 job b client s d r s' :
  comparable (do_heartbeat now now2 job b client) -> R s d ->
  automation_call (do_heartbeat now now2 job b client) s = (r, s') ->
  exists d', durable_call serial (do_heartbeat now now2 job b client) d = (r, d') /\ R s' d'.
Proof.
  intros [Ht _] H Hc. destruct (call_keeps _ _ _ _ (ss_ok _ _ _ _ H) Hc) as [Ho' _].
  simpl in Hc |- *. unfold heartbeat, pg_heartbeat in Hc |- *. both H Hc Hk (tenant_id (le_mutation b)) job.
  2:{ rewrite lease_row_none by done. settle Hc. by exists d. }
  rewrite (lease_row_run _ _ _ _ _ row Hk). unfold active_lease in Hc.
  destruct (holds_lease now b client (jr_raw row)); settle Hc; [|by exists d].
  eexists. split; [reflexivity|].
  eapply same_job; try done; [apply (ss_steps _ _ _ _ H)|apply (ss_dead _ _ _ _ H)|apply (ss_open _ _ _ _ H)].
Qed.

(** the answer of a step that was recorded before *)
Definition repeated_step (r : outcome AutomationReply) : bool :=
  match r with Ret (re_step e) => se_duplicate e | _ => false end.

Lemma step_at s d k :
  R s d -> (fun x => (fst x, unnumbered (snd x))) <$> steps s !! k = (fun x => (fst x, unnumbered (snd x))) <$> t_steps d !! k.
Proof. intros H. pose proof (ss_steps _ _ _ _ H) as Hs. unfold unnumbered_steps in Hs. by rewrite <- !lookup_fmap, Hs. Qed.

Lemma same_step now now2 job b client s d r s' :
  comparable (do_step now now2 job b client) -> R s d -> repeated_step r = false ->
  automation_call (do_step now now2 job b client) s = (r, s') ->
  exists r' d', durable_call serial (do_step now now2 job b client) d = (r', d') /\ unnumbered_answer r' = unnumbered_answer r /\ R s' d'.
Proof.
  intros [Ht _] H Hr Hc. destruct (call_keeps _ _ _ _ (ss_ok _ _ _ _ H) Hc) as [Ho' _].
  simpl in Hc |- *. unfold record_step, pg_record_step in Hc |- *.
  both H Hc Hk (tenant_id (le_mutation (st_lease b))) job.
  2:{ rewrite lease_row_none by done. settle Hc. by eexists _, d. }
  rewrite (lease_row_run _ _ _ _ _ row Hk). unfold active_lease in Hc.
  destruct (holds_lease now (st_lease b) client (jr_raw row)); settle Hc; [|by eexists _, d].
  pose proof (step_at s d ((tenant_id (le_mutation (st_lease b)), job), idempotency_key (le_mutation (st_lease b))) H) as Hs.
  destruct (t_steps d !! _) as [[g e]|]; destruct (steps s !! _) as [[g' e']|]; try done.
  - simpl in Hs. injection Hs as -> He. settle Hc. destruct (negb (g =? step_digest b)%string); settle Hc. by eexists _, d.
  - settle Hc. eexists _, _. split; [reflexivity|]. split; [done|].
    eapply same_job; try done; simpl; [|apply (ss_dead _ _ _ _ H)|apply (ss_open _ _ _ _ H)].
    unfold unnumbered_steps in *. rewrite !fmap_insert. f_equal. apply (ss_steps _ _ _ _ H).
Qed.

Lemma same_complete now now2 job b client s d r s' :
  comparable (do_complete now now2 job b client) -> R s d ->
  automation_call (do_complete now now2 job b client) s = (r, s') ->
  exists d', durable_call serial (do_complete now now2 job b client) d = (r, d') /\ R s' d'.
Proof.
  intros [Ht _] H Hc. destruct (call_keeps _ _ _ _ (ss_ok _ _ _ _ H) Hc) as [Ho' _].
  simpl in Hc |- *. unfold complete, pg_complete in Hc |- *.
  both H Hc Hk (tenant_id (le_mutation (tr_lease b))) job; rewrite job_row_run, Hk.
  2:{ settle Hc. by exists d. }
  unfold terminal_replay in *. destruct (terminal_idempotency_key (jr_raw row)).
  { destruct (_ && _); settle Hc; by exists d. }
  settle Hc. rewrite (lease_row_run _ _ _ _ _ row Hk). unfold active_lease in Hc.
  destruct (holds_lease now (tr_lease b) client (jr_raw row)); settle Hc; [|by exists d].
  eexists. split; [reflexivity|].
  eapply same_job; try done; [apply (ss_steps _ _ _ _ H)|apply (ss_dead _ _ _ _ H)|apply (ss_open _ _ _ _ H)].
Qed.

Lemma same_claim_call now b client s d r s' :
  comparable (do_claim now b client) -> R s d -> automation_call (do_claim now b client) s = (r, s') ->
  exists d', durable_call serial (do_claim now b client) d = (r, d') /\ R s' d'.
Proof.
  intros [Ht _] H Hc. destruct (call_keeps _ _ _ _ (ss_ok _ _ _ _ H) Hc) as [Ho' _].
  pose proof (fun k raw => has_dispatches s k raw (ss_ok _ _ _ _ H)) as Hd.
  simpl in Hc |- *. unfold claim, pg_claim in Hc |- *.
  both H Hc Hk (tenant_id (cl_mutation b)) (cl_job_id b); rewrite job_row_run, Hk.
  2:{ settle Hc. by exists d. }
  destruct (_ || _); [settle Hc; by exists d|]. destruct (negb (_ =? client)%string); [settle Hc; by exists d|].
  destruct (negb (delivery_token_sha256 _ =? _)%string); [settle Hc; by exists d|].
  destruct (delivery_token_used_at (jr_raw row)).
  { destruct (Automation.same_claim _ _ _ _ _); settle Hc; by exists d. }
  destruct (negb (is_state _ _)); [settle Hc; by exists d|]. unfold dispatch_claimed in Hc. settle Hc.
  destruct (Hd _ _ (row_at _ _ _ _ H Hk)) as [dd Hdd]. cbn [dispatches set_job] in Hc. rewrite Hdd in Hc. settle Hc.
  eexists. split; [reflexivity|].
  eapply same_job; try done; [apply (ss_steps _ _ _ _ H)|apply (ss_dead _ _ _ _ H)|apply (ss_open _ _ _ _ H)].
Qed.

(** without replays a job that is not dead has no dead letter *)
Lemma no_dead_letter s d k raw :
  R s d -> jobs s !! k = Some raw -> job_state raw <> DEAD_LETTER -> t_dead_letters d !! dead_key k = None.
Proof.
  intros H Hk Hs. destruct (t_dead_letters d !! dead_key k) as [x|] eqn:Hx; [|done]. exfalso.
  rewrite <- (ss_dead _ _ _ _ H) in Hx. pose proof (ss_open _ _ _ _ H _ _ Hx) as Hopen.
  destruct (ok_dead _ (ss_ok _ _ _ _ H) _ _ Hx) as (Hkey & Hid & raw' & Hraw' & Hd). specialize (Hd Hopen).
  destruct (ss_sources _ _ _ _ H _ _ Hk) as [Hin Hsk]. destruct (ss_sources _ _ _ _ H _ _ Hraw') as [Hin' Hsk'].
  assert (k = (dl_tenant_id x, dl_job_id x)) as ->; [|congruence].
  apply (apart_eq _ _ _ _ (apart_dead _ _ Hapart)).
  - rewrite Hsk. by apply list_elem_of_fmap_2.
  - rewrite Hsk'. by apply list_elem_of_fmap_2.
  - rewrite Hkey. unfold dead_key. simpl. by rewrite Hid.
Qed.

Lemma same_fail token now now2 job b client s d r s' :
  comparable (do_fail token now now2 job b client) -> R s d ->
  automation_call (do_fail token now now2 job b client) s = (r, s') ->
  exists d', durable_call serial (do_fail token now now2 job b client) d = (r, d') /\ R s' d'.
Proof.
  intros [Ht _] H Hc. destruct (call_keeps _ _ _ _ (ss_ok _ _ _ _ H) Hc) as [Ho' _].
  simpl in Hc |- *. unfold fail, pg_fail in Hc |- *.
  both H Hc Hk (tenant_id (le_mutation (fr_lease b))) job; rewrite job_row_run, Hk.
  2:{ settle Hc. by exists d. }
  unfold terminal_replay in *. destruct (terminal_idempotency_key (jr_raw row)).
  { destruct (_ && _); settle Hc; by exists d. }
  settle Hc. rewrite (lease_row_run _ _ _ _ _ row Hk). unfold active_lease in Hc.
  destruct (holds_lease now (fr_lease b) client (jr_raw row)) eqn:Hl; settle Hc; [|by exists d].
  assert (Hdead : t_dead_letters d !! (tenant_id (le_mutation (fr_lease b)), dead_letter_id_of (tenant_id (le_mutation (fr_lease b))) job) = None).
  { apply (no_dead_letter _ _ _ _ H (row_at _ _ _ _ H Hk)). apply lease_held in Hl as (_ & _ & _ & Hs & _).
    intros Hx. by rewrite Hx in Hs. }
  destruct (failure_state b (jr_raw row)) eqn:Hst; settle Hc; unfold insert_dispatch, insert_dead_letter, modify;
    cbn [t_dead_letters put_job]; rewrite ?Hdead; rewrite ?Hst;
    (eexists; split; [reflexivity|]); eapply same_job; try done; simpl;
    try (apply (ss_steps _ _ _ _ H)); try (apply (ss_dead _ _ _ _ H)); try (apply (ss_open _ _ _ _ H)).
  - by rewrite (ss_dead _ _ _ _ H).
  - intros x y Hx. rewrite lookup_insert in Hx. case_decide; simplify_eq/=; [done|by apply (ss_open _ _ _ _ H) in Hx].
Qed.

(** ** Approvals *)

Lemma slot_spec t job key r :
  approval_slot t job key r = true <->
  t = ap_tenant_id (pr_record r) /\ job = ap_job_id (pr_record r) /\ key = pr_idempotency_key r.
Proof.
  unfold approval_slot. rewrite !andb_true_iff, !String.eqb_eq, N.eqb_eq. split; [intros ((-> & ->) & ->)|intros (-> & -> & ->)]; done.
Qed.

(** the approval of a request, by its key *)
Lemma approval_lookup s d t job key :
  R s d ->
  match approval_of t job key d with
  | Some r => exists u, approval_idempotency s !! ((t, job), key) = Some u /\ t_approvals d !! (t, u) = Some r
  | None => approval_idempotency s !! ((t, job), key) = None
  end.
Proof.
  intros H. unfold approval_of. destruct (List.find _ _) as [r|] eqn:Hf.
  - apply find_some in Hf as [Hin Hs]. apply list_elem_of_In, list_elem_of_fmap in Hin as ([k r'] & -> & Hin).
    apply elem_of_map_to_list in Hin. destruct (ss_requests _ _ _ _ H _ _ Hin) as [_ Hk].
    pose proof (proj1 (slot_spec _ _ _ _) Hs) as (Ht & _ & _). simpl in *.
    exists (snd k). rewrite Hk in Hin. unfold approval_key in Hin. simpl in Hin. rewrite Hk. unfold approval_key. simpl.
    rewrite <- Ht in *. split; [|done]. apply (ss_slots _ _ _ _ H). by exists r'.
  - destruct (approval_idempotency s !! (t, job, key)) as [u|] eqn:Hu; [|done]. exfalso.
    apply (ss_slots _ _ _ _ H) in Hu as (r & Hr & Hs). simpl in *.
    assert (Hin : In r (map snd (map_to_list (t_approvals d)))).
    { apply list_elem_of_In, list_elem_of_fmap. exists ((t, u), r). split; [done|]. by apply elem_of_map_to_list. }
    apply (find_none _ _ Hf) in Hin. congruence.
Qed.

(** a request that is not there takes an identifier that is free *)
Lemma approval_free s d t job key :
  R s d -> ((t, job), key) ∈ slots -> approval_of t job key d = None -> t_approvals d !! (t, approval_id_of t job key) = None.
Proof.
  intros H Hin Hn. destruct (t_approvals d !! (t, approval_id_of t job key)) as [r|] eqn:Hr; [|done]. exfalso.
  destruct (ss_requests _ _ _ _ H _ _ Hr) as [Hin' Hk].
  assert (Heq : ((ap_tenant_id (pr_record r), ap_job_id (pr_record r)), pr_idempotency_key r) = ((t, job), key)).
  { apply (apart_eq _ _ _ _ (apart_approvals _ _ Hapart)); [done..|]. by rewrite <- Hk. }
  injection Heq as Ht Hj Hkey. pose proof (approval_lookup s d t job key H) as Hl. rewrite Hn in Hl.
  assert (Hs : approval_idempotency s !! ((t, job), key) = Some (approval_id_of t job key)); [|congruence].
  apply (ss_slots _ _ _ _ H). exists r. split; [done|]. by apply slot_spec.
Qed.

Lemma job_fields s d k row0 raw doc :
  R s d -> t_jobs d !! k = Some row0 -> job_data raw = job_data (jr_raw row0) ->
  <[k := raw]> (jobs s) = jr_raw <$> <[k := {| jr_raw := raw; jr_safe_terminal_result := doc |}]> (t_jobs d) /\
  (forall x r, <[k := raw]> (jobs s) !! x = Some r -> data_source (job_data r) ∈ srcs /\ x = source_key (data_source (job_data r))).
Proof.
  intros H Hk Hd. split; [by rewrite fmap_insert, (ss_jobs _ _ _ _ H)|].
  intros x r Hx. rewrite lookup_insert in Hx. case_decide; [|by apply (ss_sources _ _ _ _ H)].
  simplify_eq. rewrite Hd. apply (ss_sources _ _ _ _ H). by eapply row_at.
Qed.

Lemma same_approval s d s' d' t job key u row :
  R s d -> automation_ok s' -> jobs s' = jr_raw <$> t_jobs d' ->
  (forall x r, jobs s' !! x = Some r -> data_source (job_data r) ∈ srcs /\ x = source_key (data_source (job_data r))) ->
  unnumbered_steps (steps s') = unnumbered_steps (t_steps d') -> dead_letters s' = t_dead_letters d' -> dead_letters s' = dead_letters s ->
  approvals s' = <[(t, u) := (pr_request_sha256 row, pr_record row)]> (approvals s) ->
  t_approvals d' = <[(t, u) := row]> (t_approvals d) ->
  approval_idempotency s' = <[((t, job), key) := u]> (approval_idempotency s) ->
  t_approvals d !! (t, u) = None -> approval_idempotency s !! ((t, job), key) = None ->
  approval_slot t job key row = true -> ((t, job), key) ∈ slots -> u = approval_id_of t job key -> R s' d'.
Proof.
  intros H Ho Hj Hsrc Hs Hl Hl' Ha Ha' Hi Hn Hni Hslot Hin Hu.
  pose proof (proj1 (slot_spec _ _ _ _) Hslot) as (Ht & Hjob & Hkey). split; try done.
  - by rewrite Ha, Ha', fmap_insert, (ss_approvals _ _ _ _ H).
  - intros k key' u'. rewrite Hi, Ha'. destruct (decide (((t, job), key) = (k, key'))) as [Heq|Hne].
    + injection Heq as <- <-. rewrite lookup_insert_eq. simpl. split.
      * intros [= <-]. exists row. by rewrite lookup_insert_eq.
      * intros (r & Hr & Hsl). rewrite lookup_insert in Hr. simpl in Hr. case_decide; [by simplify_eq|].
        exfalso. assert (approval_idempotency s !! ((t, job), key) = Some u'); [|congruence].
        apply (ss_slots _ _ _ _ H). by exists r.
    + rewrite lookup_insert_ne by done. rewrite (ss_slots _ _ _ _ H). split; intros (r & Hr & Hsl).
      * exists r. split; [|done]. rewrite lookup_insert_ne; [done|]. intros Heq. rewrite Heq in *. congruence.
      * rewrite lookup_insert in Hr. case_decide as Hd; [|by exists r]. exfalso. apply Hne. simplify_eq.
        apply slot_spec in Hsl as (? & ? & ?). destruct k as [kt kj]. simpl in *. congruence.
  - rewrite Hl'. apply (ss_open _ _ _ _ H).
  - intros k r Hr. rewrite Ha', lookup_insert in Hr. case_decide; [|by apply (ss_requests _ _ _ _ H)].
    by simplify_eq.
Qed.

Lemma same_request now b client by_ s d r s' :
  comparable (do_request_approval now b client by_) -> R s d ->
  ((tenant_id (ar_mutation b), ar_job_id b), idempotency_key (ar_mutation b)) ∈ slots ->
  automation_call (do_request_approval now b client by_) s = (r, s') ->
  exists d', durable_call serial (do_request_approval now b client by_) d = (r, d') /\ R s' d'.
Proof.
  intros [Ht _] H Hin Hc. destruct (call_keeps _ _ _ _ (ss_ok _ _ _ _ H) Hc) as [Ho' _].
  simpl in Hc |- *. unfold request_approval, pg_request_approval in Hc |- *.
  both H Hc Hk (tenant_id (ar_mutation b)) (ar_job_id b); rewrite job_row_run, Hk.
  2:{ settle Hc. by exists d. }
  destruct (negb (_ =? client)%string); [settle Hc; by exists d|]. settle Hc.
  pose proof (approval_lookup s d (tenant_id (ar_mutation b)) (ar_job_id b) (idempotency_key (ar_mutation b)) H) as Hl.
  destruct (approval_of _ _ _ d) as [row2|] eqn:Ha.
  - destruct Hl as (u & Hu & Hr). rewrite Hu in Hc. rewrite (ss_approvals _ _ _ _ H), lookup_fmap, Hr in Hc. simpl in Hc.
    destruct (negb (pr_request_sha256 row2 =? approval_digest b)%string); settle Hc; by exists d.
  - rewrite Hl in Hc. pose proof (approval_free _ _ _ _ _ H Hin Ha) as Hfree. simpl. rewrite Hfree. simpl.
    pose proof (job_fields _ _ _ _ (waiting_job now (jr_raw row)) (jr_safe_terminal_result row) H Hk eq_refl) as [Hj Hsrc].
    unfold when in *. destruct (negb (is_state _ ENDED_STATES)); settle Hc; (eexists; split; [reflexivity|]);
      eapply (same_approval _ _ _ _ _ _ _ _ (Build_ApprovalRow (new_approval now b by_) _ _)); try done; simpl;
      try (apply (ss_steps _ _ _ _ H)); try (apply (ss_dead _ _ _ _ H));
      try (apply (ss_jobs _ _ _ _ H)); try (apply (ss_sources _ _ _ _ H)); by apply slot_spec.
Qed.

Lemma same_get_approval now now2 t u s d r s' :
  comparable (do_get_approval now now2 t u) -> R s d ->
  automation_call (do_get_approval now now2 t u) s = (r, s') ->
  exists d', durable_call serial (do_get_approval now now2 t u) d = (r, d') /\ R s' d'.
Proof.
  intros [Ht ->] H Hc. destruct (call_keeps _ _ _ _ (ss_ok _ _ _ _ H) Hc) as [Ho' _].
  simpl in Hc |- *. unfold answering, get_approval, pg_get_approval, find_approval, pg_find_approval, bind in Hc |- *.
  rewrite scoped_run by done. unfold transaction. rewrite (ss_approvals _ _ _ _ H), lookup_fmap in Hc.
  destruct (t_approvals d !! (t, u)) as [row|] eqn:Hr; simpl in Hc; settle Hc; [|by exists d].
  destruct (_ && _); settle Hc; [|by exists d]. eexists. split; [reflexivity|]. split; try done; simpl.
  - apply (ss_jobs _ _ _ _ H).
  - apply (ss_steps _ _ _ _ H).
  - by rewrite fmap_insert, (ss_approvals _ _ _ _ H).
  - intros k key u'. rewrite (ss_slots _ _ _ _ H). split; intros (x & Hx & Hs).
    + destruct (decide ((t, u) = (fst k, u'))) as [Heq|Hne].
      * rewrite <- Heq in *. simplify_eq. eexists. by rewrite lookup_insert_eq.
      * exists x. by rewrite lookup_insert_ne.
    + rewrite lookup_insert in Hx. case_decide as Heq; [|by exists x]. rewrite <- Heq in *. simplify_eq.
      by exists row.
  - apply (ss_dead _ _ _ _ H).
  - apply (ss_open _ _ _ _ H).
  - apply (ss_sources _ _ _ _ H).
  - intros k x Hx. rewrite lookup_insert in Hx. case_decide; [|by apply (ss_requests _ _ _ _ H)]. simplify_eq.
    by apply (ss_requests _ _ _ _ H) in Hr.
Qed.

(** ** Events *)

Lemma durable_data e r source now :
  timestamptz (ev_occurred_at e) = ev_occurred_at e -> durable_job_data timestamptz e r source now = new_job_data e r source now.
Proof. intros H. unfold durable_job_data, new_job_data. simpl. by rewrite H. Qed.

Lemma same_source_spec j row : same_source j row = true <-> data_source (job_data (jr_raw row)) = data_source j.
Proof.
  unfold same_source, data_source. rewrite !andb_true_iff, !String.eqb_eq, Z.eqb_eq. split.
  - intros (((-> & ->) & ->) & ->). done.
  - intros [= -> -> -> ->]. done.
Qed.

Lemma new_data_key e r source now :
  let j := new_job_data e r source now in (jb_tenant_id j, jb_job_id j) = source_key (data_source j).
Proof. done. Qed.

(** the source of an event has a row exactly when its key has *)
Lemma source_row s d j :
  R s d -> data_source j ∈ srcs ->
  existsb (same_source j) (map snd (map_to_list (t_jobs d))) = bool_decide (is_Some (t_jobs d !! source_key (data_source j))).
Proof.
  intros H Hin. apply eq_true_iff_eq. rewrite existsb_exists, bool_decide_eq_true. split.
  - intros (row & Hr & Hs). apply list_elem_of_In, list_elem_of_fmap in Hr as ([k row'] & -> & Hr).
    apply elem_of_map_to_list in Hr. apply same_source_spec in Hs. simpl in Hs.
    destruct (ss_sources _ _ _ _ H _ _ (row_at _ _ _ _ H Hr)) as [_ Hk]. rewrite Hs in Hk. rewrite <- Hk. by exists row'.
  - intros [row Hr]. exists row. split.
    + apply list_elem_of_In, list_elem_of_fmap. exists (source_key (data_source j), row). split; [done|].
      by apply elem_of_map_to_list.
    + apply same_source_spec. destruct (ss_sources _ _ _ _ H _ _ (row_at _ _ _ _ H Hr)) as [Hin' Hk].
      symmetry. by apply (apart_eq _ _ _ _ (apart_jobs _ _ Hapart)).
Qed.

Lemma same_enqueue token now e r0 source s d r s' :
  comparable (do_enqueue token now e r0 source) -> R s d ->
  data_source (new_job_data e r0 source now) ∈ srcs ->
  automation_call (do_enqueue token now e r0 source) s = (r, s') ->
  exists d', durable_call serial (do_enqueue token now e r0 source) d = (r, d') /\ R s' d'.
Proof.
  intros [Ht [Htime Hcols]] H Hin Hc. destruct (call_keeps _ _ _ _ (ss_ok _ _ _ _ H) Hc) as [Ho' _].
  simpl in Hc |- *. unfold answering, enqueue_event, pg_enqueue_event, bind in Hc |- *.
  rewrite scoped_run by done. unfold transaction, enqueue_on_connection, bind.
  replace (tenant_context (ev_tenant_id e) d) with (Ret tt, d).
  2:{ unfold tenant_context, tenant_ok in *. simpl in Ht. apply andb_true_iff in Ht as [-> ->]. done. }
  rewrite durable_data by done. rewrite Hcols. unfold gets, id in Hc |- *. cbn [negb]. rewrite (source_row _ _ _ H Hin).
  set (j := new_job_data e r0 source now) in *.
  change (ev_tenant_id e, job_id_of (ev_tenant_id e) (ev_event_id e) r0) with (source_key (data_source j)) in Hc.
  change (jb_tenant_id j, jb_job_id j) with (source_key (data_source j)).
  rewrite (jobs_at _ _ (source_key (data_source j)) H) in Hc.
  destruct (t_jobs d !! source_key (data_source j)) as [row|] eqn:Hk; cbn [fmap option_fmap option_map] in Hc.
  { rewrite bool_decide_eq_true_2 by done. settle Hc. by exists d. }
  rewrite bool_decide_eq_false_2 by (by intros []). settle Hc. unfold when.
  assert (Hdone : forall d', t_jobs d' = <[source_key (data_source j) := {| jr_raw := new_job j token; jr_safe_terminal_result := None |}]> (t_jobs d) ->
    t_steps d' = t_steps d -> t_approvals d' = t_approvals d -> t_dead_letters d' = t_dead_letters d ->
    R (set_dispatch (source_key (data_source j)) (new_dispatch j token) (add_job (source_key (data_source j)) (new_job j token) s)) d').
  { intros d' Hj Hs Ha Hl. split; try done; simpl.
    - by rewrite Hj, fmap_insert, (ss_jobs _ _ _ _ H).
    - rewrite Hs. apply (ss_steps _ _ _ _ H).
    - rewrite Ha. apply (ss_approvals _ _ _ _ H).
    - rewrite Ha. apply (ss_slots _ _ _ _ H).
    - rewrite Hl. apply (ss_dead _ _ _ _ H).
    - apply (ss_open _ _ _ _ H).
    - intros k raw Hraw. rewrite lookup_insert in Hraw. case_decide; [by simplify_eq|by apply (ss_sources _ _ _ _ H)].
    - rewrite Ha. apply (ss_requests _ _ _ _ H). }
  destruct (negb _); (eexists; split; [reflexivity|]); by apply Hdone.
Qed.

(** ** Every comparable call *)

Lemma same_call c s d r s' :
  comparable c -> R s d -> repeated_step r = false ->
  (forall x, job_source c = Some x -> x ∈ srcs) -> (forall x, approval_slot_of c = Some x -> x ∈ slots) ->
  automation_call c s = (r, s') ->
  exists r' d', durable_call serial c d = (r', d') /\ unnumbered_answer r' = unnumbered_answer r /\ R s' d'.
Proof.
  intros Hcmp H Hr Hsrc Hslot Hc.
  enough (Hsame : match c with do_step _ _ _ _ _ => True | _ => exists d', durable_call serial c d = (r, d') /\ R s' d' end).
  { destruct c; try (destruct Hsame as (d' & ? & ?); by eexists _, d'). by eapply same_step. }
  destruct c; try done; try (by destruct Hcmp as [_ []]).
  - apply (same_enqueue _ _ _ _ _ _ _ _ _ Hcmp H); [|done]. by apply Hsrc.
  - by eapply same_claim_call.
  - by eapply same_heartbeat.
  - by eapply same_complete.
  - by eapply same_fail.
  - apply (same_request _ _ _ _ _ _ _ _ Hcmp H); [|done]. by apply Hslot.
  - by eapply same_get_approval.
Qed.

Lemma same_empty : R empty_automation empty_automation_db.
Proof.
  split; try done; [apply empty_automation_ok|]. intros k key u. simpl. rewrite !lookup_empty. split; [done|].
  intros (r & Hr & _). done.
Qed.

End Steps.

Lemma same_run srcs slots cs : ids_apart srcs slots -> forall serials s d h s',
  Forall comparable cs -> same_store srcs slots s d -> Forall (fun e => repeated_step (snd e) = false) h ->
  Forall (fun c => (forall x, job_source c = Some x -> x ∈ srcs) /\ (forall x, approval_slot_of c = Some x -> x ∈ slots)) cs ->
  automation_run cs s = (h, s') ->
  exists h' d', durable_run serials cs d = (h', d') /\
    Forall2 (fun x y => fst x = fst y /\ unnumbered_answer (snd x) = unnumbered_answer (snd y)) h' h /\
    same_store srcs slots s' d'.
Proof.
  intros Hapart. induction cs as [|c cs IH]; intros serials s d h s' Hcmp H Hh Hids Hrun.
  { simpl in *. simplify_eq. by eexists _, d. }
  apply Forall_cons in Hcmp as [Hc Hcmp]. apply Forall_cons in Hids as [[Hsrc Hslot] Hids].
  simpl in Hrun |- *. destruct (automation_call c s) as [r s1] eqn:Hcall.
  destruct (automation_run cs s1) as [h1 s2] eqn:Hrest. simplify_eq. apply Forall_cons in Hh as [Hr Hh].
  destruct (same_call srcs slots (serials 0%nat) Hapart c s d r s1 Hc H Hr Hsrc Hslot Hcall) as (r' & d1 & -> & Ha & H1).
  destruct (IH (fun n => serials (S n)) s1 d1 h1 _ Hcmp H1 Hh Hids Hrest) as (h' & d2 & -> & Hall & H2).
  eexists _, d2. split; [reflexivity|]. split; [by constructor|done].
Qed.
End Simulation.
