(* ===== verification/AutomationApi.v ===== *)
(** * The automation service and its routes

    [AutomationService] and the [/v2/automation] handlers of
    [src/app/automation_v2.py] over the in-memory stores.  A request is the
    headers its handler reads; its body has been validated.  At the end the two
    functions that answer a raised exception ([src/app/router_registry.py],
    [src/app/appolon_routes.py]). *)

From stdpp Require Import pretty.
From Stdlib Require Import Ascii QArith.
From S2P Require Import Prelude Json PyValue Clock Sha256 Uuid Principal Commands.
From S2P Require Import Ledger Inbox AutomationPolicy Automation Security.
Local Open Scope Z_scope.

(** ** Headers *)

(** [request.headers.get(name, "")]: names are compared without case *)
Definition request_header (name : string) (headers : Headers) : string :=
  default "" (snd <$> List.find (fun kv => String.eqb (str_lower (fst kv)) (str_lower name)) headers).
Definition header_list (name : string) (headers : Headers) : list string :=
  map snd (List.filter (fun kv => String.eqb (str_lower (fst kv)) (str_lower name)) headers).

(** [_require_header] *)
Definition require_header (name : string) (headers : Headers) : outcome string :=
  let value := strip (request_header name headers) in
  if negb (str_nonempty value) then Exc (Exn AutomationError (name +:+ " is required"))
  else if (180 <? String.length value)%nat then Exc (Exn AutomationError (name +:+ " exceeds 180 characters"))
  else Ret value.

(** [_assert_header_body_mirror] *)
Definition mirror (name label expected : string) (headers : Headers) : outcome unit :=
  let? value := require_header name headers in
  if negb (String.eqb value expected)
  then Exc (Exn AutomationConflict (name +:+ " does not match body " +:+ label)) else Ret tt.
Definition assert_header_body_mirror (headers : Headers) (m : MirroredMutation) : outcome unit :=
  mirror "X-Tenant-ID" "tenant_id" (Automation.tenant_id m) headers ??;
  mirror "X-Correlation-ID" "correlation_id" (Automation.correlation_id m) headers ??;
  mirror "Idempotency-Key" "idempotency_key" (Automation.idempotency_key m) headers ??;
  let? _request := require_header "X-Request-ID" headers in Ret tt.

(** [_read_headers] *)
Definition read_headers (headers : Headers) : outcome (string * string) :=
  let? tenant := require_header "X-Tenant-ID" headers in
  let? correlation := require_header "X-Correlation-ID" headers in
  let? _request := require_header "X-Request-ID" headers in
  Ret (tenant, correlation).

(** [authorization_header] of [src/app/api_inputs.py] *)
Definition authorization_header (headers : Headers) : outcome string :=
  match header_list "Authorization" headers with
  | _ :: _ :: _ => invalid_request "Authorization must be provided at most once"
  | values =>
      let value := match values with [v] => v | _ => "" end in
      if (8192 <? String.length value)%nat then invalid_request "Authorization is malformed" else Ret value
  end.

(** [text.split(".")] *)
Fixpoint split_dots (s : string) : list string :=
  match s with
  | EmptyString => [EmptyString]
  | String c s' =>
      if Ascii.eqb c "." then EmptyString :: split_dots s'
      else match split_dots s' with
           | w :: ws => String c w :: ws
           | [] => [String c EmptyString]
           end
  end.

(** ** Commands of a job *)

Record AutomationCommandRequest := {
  cm_mutation : MirroredMutation;
  cm_job_id : UUID;
  cm_lease_token : string;
  cm_execution_id : UUID;
  cm_workflow_key : string;
  cm_workflow_version : Z;
  cm_step_key : string;
  cm_event_id : string;
  cm_causation_id : string;
  cm_command_type : string;
  cm_command_version : string;
  cm_occurred_at : AwareDatetime;
  cm_payload : jdict;
}.
(** the last part after a dot, [v] and a number without a leading zero *)
Definition version_suffix (s : string) : bool :=
  match List.rev (split_dots s) with
  | String v (String d ds) :: _ :: _ => Ascii.eqb v "v" && char_in 49 57 d && str_forallb (char_in 48 57) ds
  | _ => false
  end.
Definition command_request_valid (b : AutomationCommandRequest) : bool :=
  mirrored_valid (cm_mutation b) && len_between 32 512 (cm_lease_token b) && len_between 1 180 (cm_workflow_key b) &&
  (1 <=? cm_workflow_version b) && (cm_workflow_version b <=? 2147483647) && len_between 1 180 (cm_step_key b) &&
  len_between 1 180 (cm_event_id b) && len_between 1 180 (cm_causation_id b) && len_between 3 180 (cm_command_type b) &&
  command_type_pattern (cm_command_type b) && negb (version_suffix (cm_command_type b)) &&
  String.eqb (cm_command_version b) "1.0" &&
  accepted_by (validate_document_size "payload" MAX_AUTOMATION_PAYLOAD_BYTES (JObj (cm_payload b))).

Definition command_lease (b : AutomationCommandRequest) : LeaseMutation :=
  {| le_mutation := cm_mutation b; le_lease_token := cm_lease_token b; le_execution_id := cm_execution_id b |}.

(** [_command_id] *)
Definition automation_command_id (b : AutomationCommandRequest) : UUID :=
  uuid5 NAMESPACE_URL ("codestra-automation-command:" +:+ Automation.tenant_id (cm_mutation b) +:+ ":" +:+
    uuid_str (cm_job_id b) +:+ ":" +:+ Automation.idempotency_key (cm_mutation b) +:+ ":" +:+ cm_command_type b +:+ ":" +:+
    cm_command_version b).

(** ** The service *)

Record AutomationService := {
  sv_policy : AutomationPolicy;
  sv_router : WorkflowRouter;
  sv_policies : CommandPolicyRegistry;
  sv_umbrella_controls : list (string * bool);
}.

(** [command_policy] and [capability_state] *)
Definition command_policy (sv : AutomationService) (command_type : string) : outcome CommandPolicy :=
  match matching (sv_policies sv) command_type with
  | [p] => Ret p
  | _ => Exc (Exn AutomationCapabilityDisabled "command type has no unique durable adapter policy")
  end.
Definition capability_state (sv : AutomationService) (capability : string) : bool :=
  match dict_get capability (sv_umbrella_controls sv) with
  | Some b => b
  | None => capability_enabled (sv_policies sv) capability
  end.

(** the stores of the runtime; [w_held] are the events the replay guard holds *)
Record ApiWorld := mkWorld {
  w_automation : MemoryAutomationStore;
  w_commands : MemoryCommandStore;
  w_inbox : MemoryInboxStore;
  w_held : gset (string * string);
}.
Abbreviation WM := (M ApiWorld).

Definition in_automation {A} : AM A -> WM A :=
  zoom w_automation (fun x w => mkWorld x (w_commands w) (w_inbox w) (w_held w)).
Definition in_commands {A} : MemM A -> WM A :=
  zoom w_commands (fun x w => mkWorld (w_automation w) x (w_inbox w) (w_held w)).
Definition in_inbox {A} : IM A -> WM A :=
  zoom w_inbox (fun x w => mkWorld (w_automation w) (w_commands w) x (w_held w)).

(** [accept_event]: the inbox, then a job for every route; [fresh] are the
    delivery tokens the store draws, [now] the times it reads *)
Fixpoint enqueue_routes (fresh : nat -> string) (now : nat -> instant) (e : EventEnvelope) (source : string)
    (n : nat) (rs : list WorkflowRoute) : AM unit :=
  match rs with
  | [] => ret tt
  | r :: rs' => enqueue_event (fresh n) (now n) e r source ;;; enqueue_routes fresh now e source (S n) rs'
  end.
Definition accept_event (sv : AutomationService) (fresh : nat -> string) (now : nat -> instant) (c : Ingress) : WM IngressResult :=
  let e := in_envelope c in
  let routes := for_event (sv_router sv) (ev_event_type e) in
  let! result := in_inbox (accept c) in
  in_automation (enqueue_routes fresh now e (in_producer_client_id c) 0 routes) ;;;
  ret result.

(** [_assert_store_lease], of the in-memory store *)
Definition assert_store_lease (now : instant) (job : UUID) (b : LeaseMutation) (client_id : string) : AM AutomationJob :=
  let! raw := raw_job (Automation.tenant_id (le_mutation b)) job in
  active_lease now b client_id raw ;;;
  ret (job_view raw false).

(** ** Authorization *)

(** [SAFE_IDENTIFIER] *)
Definition safe_identifier (s : string) : bool := len_between 1 180 s && code_pattern s.

(** one clock reading of a request, and the token it may draw *)
Record Tick := { tk_now : instant; tk_now2 : instant; tk_datetime : datetime; tk_token : string }.

Inductive Body :=
  | body_claim (r : JobClaimResponse)
  | body_job (j : AutomationJob)
  | body_step (e : StepEvidence)
  | body_operation (o : CommandOperation)
  | body_approval (a : ApprovalRecord)
  | body_run (r : ReconciliationRun)
  | body_capability (tenant capability : string) (effective : bool) (client : string).
Record Response := { rs_status : Z; rs_body : Body; rs_correlation_id : string; rs_location : option string }.

Definition respond (status : Z) (body : Body) (correlation : string) : Response :=
  {| rs_status := status; rs_body := body; rs_correlation_id := correlation; rs_location := None |}.
Definition respond_at (location : string) (status : Z) (body : Body) (correlation : string) : Response :=
  {| rs_status := status; rs_body := body; rs_correlation_id := correlation; rs_location := Some location |}.

Section Handlers.
Context `{Externals}.
(* the JSON value of a token's middle segment, when it decodes *)
Context (segment_json : string -> option json).
(* [runtime.tokens.verify] *)
Context (tokens_verify : string -> string -> string -> outcome jdict).

(** [_peek_client_id] *)
Definition peek_client_id (authorization : string) : outcome string :=
  let unauthenticated msg := Exc (Exn AutomationAuthenticationError msg) in
  if negb (starts_with "Bearer " authorization) then unauthenticated "Bearer token is required"
  else match split_dots (strip (str_drop 7 authorization)) with
  | [_; payload; _] =>
      match segment_json payload with
      | None => unauthenticated "Bearer token payload is malformed"
      | Some v =>
          match (match v with JObj d => dict_get "azp" d | _ => None end) with
          | Some (JStr client) =>
              if safe_identifier client then Ret client else unauthenticated "Bearer token azp is missing or invalid"
          | _ => unauthenticated "Bearer token azp is missing or invalid"
          end
      end
  | _ => unauthenticated "Bearer token is not a JWT"
  end.

(** [except AutomationAuthorizationError as exc: raise AutomationAuthorizationDenied(str(exc))] *)
Definition denied_as {A} (o : outcome A) : outcome A :=
  match o with
  | Exc e => if isinstance e ["AutomationAuthorizationError"] then Exc (Exn AutomationAuthorizationDenied (exn_msg e)) else Exc e
  | Ret a => Ret a
  end.

(** [_authorized] *)
Definition authorized (sv : AutomationService) (headers : Headers) (required_scope : string) :
    outcome (jdict * string * AutomationClientPolicy) :=
  let? authorization := authorization_header headers in
  let? client_id := peek_client_id authorization in
  let? claims := tokens_verify authorization client_id required_scope in
  let? policy := denied_as (authorize_token (sv_policy sv) claims required_scope) in
  Ret (claims, client_id, policy).

(** [_subject] *)
Definition subject (claims : jdict) : outcome string :=
  match dict_get "sub" claims with
  | Some (JStr s) => if str_nonempty s then Ret s else Exc (Exn AutomationAuthorizationDenied "token subject is required")
  | _ => Exc (Exn AutomationAuthorizationDenied "token subject is required")
  end.

(** [_authorize_family] *)
Definition authorize_family (sv : AutomationService) (claims : jdict) (required_scope family : string) : outcome AutomationClientPolicy :=
  denied_as (authorize_job_family (sv_policy sv) claims required_scope family).

(** ** Handlers *)

(** what the handlers on a job share: the mirrored headers, the token, and the
    family of the job *)
Definition on_job {A} (sv : AutomationService) (headers : Headers) (m : MirroredMutation) (job : UUID) (scope : string)
    (k : jdict -> string -> AM A) : WM A :=
  lift_outcome (assert_header_body_mirror headers m) ;;;
  let! who := lift_outcome (authorized sv headers scope) in
  let '(claims, client_id, _) := who in
  let! j := in_automation (get_job (Automation.tenant_id m) job) in
  lift_outcome (authorize_family sv claims scope (jb_workflow_family (aj_data j))) ;;;
  in_automation (k claims client_id).

Definition claim_automation_job (sv : AutomationService) (tk : Tick) (b : JobClaimRequest) (headers : Headers) : WM Response :=
  let! r := on_job sv headers (cl_mutation b) (cl_job_id b) "automation.job.claim" (fun _ client => claim (tk_now tk) b client) in
  ret (respond 200 (body_claim r) (Automation.correlation_id (cl_mutation b))).

Definition read_automation_job (sv : AutomationService) (job : UUID) (headers : Headers) : WM Response :=
  let! tc := lift_outcome (read_headers headers) in
  let! who := lift_outcome (authorized sv headers "automation.job.read") in
  let! j := in_automation (get_job (fst tc) job) in
  lift_outcome (authorize_family sv (fst (fst who)) "automation.job.read" (jb_workflow_family (aj_data j))) ;;;
  ret (respond 200 (body_job j) (snd tc)).

Definition heartbeat_automation_job (sv : AutomationService) (tk : Tick) (job : UUID) (b : LeaseMutation) (headers : Headers) : WM Response :=
  let! j := on_job sv headers (le_mutation b) job "automation.job.heartbeat"
              (fun _ client => heartbeat (tk_now tk) (tk_now2 tk) job b client) in
  ret (respond 200 (body_job j) (Automation.correlation_id (le_mutation b))).

Definition record_automation_step (sv : AutomationService) (tk : Tick) (job : UUID) (b : StepRecord) (headers : Headers) : WM Response :=
  let m := le_mutation (st_lease b) in
  let! e := on_job sv headers m job "automation.job.step.write"
              (fun _ client => record_step (tk_now tk) (tk_now2 tk) job b client) in
  ret (respond (if se_duplicate e then 200 else 202) (body_step e) (Automation.correlation_id m)).

Definition complete_automation_job (sv : AutomationService) (tk : Tick) (job : UUID) (b : TerminalResult) (headers : Headers) : WM Response :=
  let m := le_mutation (tr_lease b) in
  let! j := on_job sv headers m job "automation.job.complete"
              (fun _ client => complete (tk_now tk) (tk_now2 tk) job b client) in
  ret (respond 200 (body_job j) (Automation.correlation_id m)).

Definition fail_automation_job (sv : AutomationService) (tk : Tick) (job : UUID) (b : FailureResult) (headers : Headers) : WM Response :=
  let m := le_mutation (fr_lease b) in
  let! j := on_job sv headers m job "automation.job.fail"
              (fun _ client => fail (tk_token tk) (tk_now tk) (tk_now2 tk) job b client) in
  ret (respond 200 (body_job j) (Automation.correlation_id m)).

(** ** [submit_automation_command] *)

(** [str(job.actor_context.get("actor_id") or _subject(claims))] *)
Definition json_truthy (v : json) : bool :=
  match v with
  | JNull => false
  | JBool b => b
  | JInt z => negb (z =? 0)
  | JFloat r => negb (mem_string r ["0.0"; "-0.0"])
  | JStr s => str_nonempty s
  | JArr l => negb (bool_decide (l = []))
  | JObj d => negb (bool_decide (d = []))
  end.
Definition command_actor (j : AutomationJob) (claims : jdict) : outcome string :=
  match dict_get "actor_id" (jb_actor_context (aj_data j)) with
  | Some v => if json_truthy v then Ret (py_str v) else subject claims
  | None => subject claims
  end.

Definition automation_command (b : AutomationCommandRequest) (p : CommandPolicy) (actor : string) : CommandEnvelope := {|
  env_command_id := automation_command_id b; env_command_type := cm_command_type b;
  env_command_version := cm_command_version b; env_target := policy_target p;
  env_tenant_id := Automation.tenant_id (cm_mutation b); env_requested_by := actor;
  env_correlation_id := Automation.correlation_id (cm_mutation b);
  env_idempotency_key := Automation.idempotency_key (cm_mutation b); env_capability := policy_capability p;
  env_payload := cm_payload b |}.

(** [CommandService.submit]; a disabled capability is answered in the service's own class *)
Definition submit_command (sv : AutomationService) (now : datetime) (c : CommandEnvelope) (actor client_id : string) :
    MemM CommandOperation := fun s =>
  match (lift_outcome (validate_submission (sv_policies sv) c actor client_id) ;;;
         submit now c client_id TEMPORAL_COMMAND_DESTINATION None None) s with
  | (Exc e, s') =>
      (Exc (if isinstance e ["CommandCapabilityDisabled"] then Exn AutomationCapabilityDisabled (exn_msg e) else e), s')
  | r => r
  end.

(** the checks before the ledger: who submits, for which job, through which policy *)
Definition authorize_submission (sv : AutomationService) (tk : Tick) (b : AutomationCommandRequest) (headers : Headers) :
    WM (CommandEnvelope * string * string) :=
  lift_outcome (assert_header_body_mirror headers (cm_mutation b)) ;;;
  let! authorization := lift_outcome (authorization_header headers) in
  let! client_id := lift_outcome (peek_client_id authorization) in
  let! family := lift_outcome (denied_as (resolve_command_family (sv_policy sv) (cm_command_type b))) in
  if negb (String.eqb (family_client_id family) client_id)
  then a_denied "client does not own the command prefix"
  else
  let! claims := lift_outcome (tokens_verify authorization client_id (family_scope family)) in
  lift_outcome (denied_as (authorize_token (sv_policy sv) claims (family_scope family))) ;;;
  let! j := in_automation (assert_store_lease (tk_now tk) (cm_job_id b) (command_lease b) client_id) in
  if negb (String.eqb (jb_workflow_key (aj_data j)) (cm_workflow_key b)) ||
     negb (jb_workflow_version (aj_data j) =? cm_workflow_version b)
  then a_conflict "command workflow identity does not match durable job"
  else if negb (String.eqb (jb_event_id (aj_data j)) (cm_event_id b))
  then a_conflict "command event_id does not match durable job"
  else
  lift_outcome (denied_as (authorize_command (sv_policy sv) claims (cm_command_type b) (jb_workflow_family (aj_data j)))) ;;;
  let! adapter_policy := lift_outcome (command_policy sv (cm_command_type b)) in
  let! actor := lift_outcome (command_actor j claims) in
  let command := automation_command b adapter_policy actor in
  if envelope_valid command then ret (command, actor, client_id) else raise ValueError "validation error".

Definition submit_automation_command (sv : AutomationService) (tk : Tick) (b : AutomationCommandRequest) (headers : Headers) :
    WM Response :=
  let! who := authorize_submission sv tk b headers in
  let '(command, actor, client_id) := who in
  let! o := in_commands (submit_command sv (tk_datetime tk) command actor client_id) in
  ret (respond_at ("/v2/automation/commands/" +:+ uuid_str (Commands.command_id (op_command o)))
         (if op_duplicate o then 200 else 202) (body_operation o) (Automation.correlation_id (cm_mutation b))).

Definition read_automation_command (sv : AutomationService) (command : UUID) (headers : Headers) : WM Response :=
  let! tc := lift_outcome (read_headers headers) in
  let! who := lift_outcome (authorized sv headers "automation.command.read") in
  let! o := in_commands (Ledger.get (fst tc) command) in
  let! family := lift_outcome (resolve_command_family (sv_policy sv) (Commands.command_type (op_command o))) in
  if negb (String.eqb (family_client_id family) (snd (fst who)))
  then a_denied "client does not own the command family"
  else ret (respond 200 (body_operation o) (snd tc)).

(** ** Approvals, replays and reconciliation *)

Definition request_automation_approval (sv : AutomationService) (tk : Tick) (b : ApprovalRequest) (headers : Headers) : WM Response :=
  let! a := on_job sv headers (ar_mutation b) (ar_job_id b) "automation.approval.request"
              (fun claims client => let! by_ := lift_outcome (subject claims) in request_approval (tk_now tk) b client by_) in
  ret (respond_at ("/v2/automation/approvals/" +:+ uuid_str (ap_approval_id a)) (if ap_duplicate a then 200 else 201)
         (body_approval a) (Automation.correlation_id (ar_mutation b))).

Definition read_automation_approval (sv : AutomationService) (tk : Tick) (u : UUID) (headers : Headers) : WM Response :=
  let! tc := lift_outcome (read_headers headers) in
  let! who := lift_outcome (authorized sv headers "automation.approval.read") in
  let! a := in_automation (get_approval (tk_now tk) (tk_now2 tk) (fst tc) u) in
  let! j := in_automation (get_job (fst tc) (ap_job_id a)) in
  lift_outcome (authorize_family sv (fst (fst who)) "automation.approval.read" (jb_workflow_family (aj_data j))) ;;;
  ret (respond 200 (body_approval a) (snd tc)).

Definition replay_automation_dead_letter (sv : AutomationService) (tk : Tick) (u : UUID) (b : DeadLetterReplayRequest)
    (headers : Headers) : WM Response :=
  lift_outcome (assert_header_body_mirror headers (rp_mutation b)) ;;;
  let! who := lift_outcome (authorized sv headers "automation.operations.replay.request") in
  if negb (capability_state sv "DEAD_LETTER_REPLAY_ENABLED")
  then raise AutomationCapabilityDisabled "DEAD_LETTER_REPLAY_ENABLED is disabled"
  else
  let! j := in_automation (replay_dead_letter (tk_token tk) (tk_now tk) (tk_now2 tk) u b (snd (fst who))) in
  ret (respond 202 (body_job j) (Automation.correlation_id (rp_mutation b))).

Definition reconcile_automation_jobs (sv : AutomationService) (tk : Tick) (b : ReconciliationRequest) (headers : Headers) : WM Response :=
  lift_outcome (assert_header_body_mirror headers (rc_mutation b)) ;;;
  let! who := lift_outcome (authorized sv headers "automation.operations.reconcile") in
  let '(claims, client_id, _) := who in
  if negb (String.eqb client_id OPERATIONS_CLIENT)
  then a_denied "only operations automation may reconcile jobs"
  else
  let! by_ := lift_outcome (subject claims) in
  let! r := in_automation (reconcile (tk_now tk) b by_) in
  ret (respond (if rr_duplicate r then 200 else 202) (body_run r) (Automation.correlation_id (rc_mutation b))).

Definition read_automation_capability (sv : AutomationService) (capability : string) (headers : Headers) : WM Response :=
  let! tc := lift_outcome (read_headers headers) in
  let! who := lift_outcome (authorized sv headers "automation.capability.read") in
  if negb (capability_pattern capability) then a_missing "capability was not found"
  else if negb (bool_decide (is_Some (dict_get capability (sv_umbrella_controls sv))) ||
                bool_decide (is_Some (capabilities (sv_policies sv) !! capability)))
  then a_missing "capability was not found"
  else ret (respond 200 (body_capability (fst tc) capability (capability_state sv capability) (snd (fst who))) (snd tc)).
End Handlers.

(** ** The error envelope

    The status and code each domain exception carries, and the two functions that
    answer it: [domain_error], which [install_domain_error_handler] of
    [src/app/router_registry.py] registers, and the handlers
    [install_error_handlers] of [src/app/appolon_routes.py] registers after it. *)

(** the class attributes [status_code], [code] and [retryable]; the storage
    errors have no [status_code] *)
Record ClassAttributes := attributes { at_status : option Z; at_code : string; at_retryable : bool }.

(** [src/app/security.py] *)
Definition security_attributes (c : exn_class) : option ClassAttributes :=
  match c with
  | AuthenticationError => Some (attributes (Some 401) "authentication_failed" false)
  | AuthorizationError => Some (attributes (Some 403) "authorization_denied" false)
  | SignatureError => Some (attributes (Some 401) "webhook_signature_invalid" false)
  | RequestValidationError => Some (attributes (Some 400) "invalid_request" false)
  | _ => None
  end.
(** [src/app/service.py] *)
Definition ingress_attributes (c : exn_class) : option ClassAttributes :=
  match c with
  | EventTypeError => Some (attributes (Some 422) "event_type_not_allowed" false)
  | ReplayConflictError => Some (attributes (Some 409) "idempotency_conflict" false)
  | ProcessingConflictError => Some (attributes (Some 409) "processing_conflict" true)
  | PayloadTooLargeError => Some (attributes (Some 413) "payload_too_large" false)
  | _ => None
  end.
(** [src/app/commands.py] *)
Definition command_attributes (c : exn_class) : option ClassAttributes :=
  match c with
  | CommandCapabilityDisabled => Some (attributes (Some 403) "capability_disabled" false)
  | CommandConflict => Some (attributes (Some 409) "command_conflict" false)
  | CommandNotFound => Some (attributes (Some 404) "command_not_found" false)
  | _ => None
  end.
(** [src/app/automation_v2.py] *)
Definition automation_attributes (c : exn_class) : option ClassAttributes :=
  match c with
  | AutomationError => Some (attributes (Some 400) "automation_invalid" false)
  | AutomationAuthenticationError => Some (attributes (Some 401) "authentication_failed" false)
  | AutomationAuthorizationDenied => Some (attributes (Some 403) "authorization_denied" false)
  | AutomationNotFound => Some (attributes (Some 404) "automation_not_found" false)
  | AutomationConflict => Some (attributes (Some 409) "automation_conflict" false)
  | AutomationCapabilityDisabled => Some (attributes (Some 403) "capability_disabled" false)
  | _ => None
  end.
(** [src/app/storage.py] *)
Definition storage_attributes (c : exn_class) : option ClassAttributes :=
  match c with
  | StorageError => Some (attributes None "dependency_unavailable" true)
  | ReplayConflict => Some (attributes None "idempotency_conflict" false)
  | ReconciliationError => Some (attributes None "reconciliation_invalid" false)
  | EventLedgerIntegrityError => Some (attributes None "event_ledger_integrity_error" false)
  | _ => None
  end.

Definition class_attributes (c : exn_class) : option ClassAttributes :=
  union (security_attributes c) (union (ingress_attributes c)
    (union (storage_attributes c) (union (command_attributes c) (automation_attributes c)))).
(** [getattr(exc, name, default)] *)
Definition status_code (c : exn_class) : option Z := class_attributes c ≫= at_status.
Definition error_code (c : exn_class) : option string := at_code <$> class_attributes c.
Definition error_retryable (c : exn_class) : option bool := at_retryable <$> class_attributes c.

Record ErrorResponse := { er_status : Z; er_code : string; er_message : string; er_correlation_id : string; er_retryable : bool }.

(** the classes both functions are registered for; any other exception is the framework's [500] *)
Definition HANDLED : list string := ["SecurityError"; "IngressError"; "StorageError"; "CommandError"; "CommunicationsError"].
Definition handled (e : exn) : bool := isinstance e HANDLED.

Definition persistence_unavailable : string := "required persistence dependency is unavailable".

(** [domain_error] *)
Definition domain_error (correlation : string) (e : exn) : ErrorResponse :=
  let status := default 500 (status_code (exn_cls e)) in {|
  er_status := status; er_code := default "internal_error" (error_code (exn_cls e));
  er_message := if isinstance e ["StorageError"] then persistence_unavailable else exn_msg e;
  er_correlation_id := correlation; er_retryable := default (500 <=? status) (error_retryable (exn_cls e)) |}.

(** the handlers of [install_error_handlers] *)
Definition answer_error (correlation : string) (e : exn) : ErrorResponse :=
  let storage := isinstance e ["StorageError"] in {|
  er_status := if storage then 503 else default 500 (status_code (exn_cls e));
  er_code := default "internal_error" (error_code (exn_cls e));
  er_message := if storage then persistence_unavailable else exn_msg e;
  er_correlation_id := correlation; er_retryable := default false (error_retryable (exn_cls e)) |}.
