(* ===== verification/Calling.v ===== *)
(** * Internal calls

    [src/app/calling_contract.py], [src/app/calling_ledger.py] and the routes of
    [src/app/telephony_api.py]: who may start the one call a grant allows, what is
    accepted as evidence of it, and the ledger facade that keeps an agent to one
    call at a time over either command store.  The wire side
    ([src/app/vicidial_internal_call_adapter.py]) is the adapter at the end.

    The time-zone database, pydantic's reading and writing of an aware timestamp and
    the parsing of the grant file are arguments. *)

From stdpp Require Import pretty.
From Stdlib Require Import Ascii QArith.
From S2P Require Import AutomationApi.
From S2P Require Import Prelude Json PyValue Clock Sha256 Uuid Commands LedgerSpec Ledger.
From S2P Require Import PgLedger.
Local Open Scope Z_scope.

Definition CLIENT_ID := "odoo-integration".
Definition INTERNAL_PREFIX := "telephony-internal.".
Definition ORIGINATE := INTERNAL_PREFIX +:+ "calls.originate".
Definition HANGUP := INTERNAL_PREFIX +:+ "calls.hangup".
Definition CAPABILITY := "INTERNAL_TELEPHONY_CALLS".
Definition TARGET := "vicidial-restricted".
Definition TERMINAL_CALL_STATES : list string :=
  ["completed"; "failed"; "busy"; "no_answer"; "canceled"; "rejected"; "missed"; "cancelled"; "transferred"].
Definition NONTERMINAL_CALL_STATES : list string :=
  ["requested"; "accepted"; "new"; "initiating"; "queued"; "dialing"; "ringing"; "offered"; "answering";
   "connected"; "held"; "transferring"; "ending"].
Definition CALL_NAMESPACE : UUID := 0xc20d27c8a9c84eeab4ef29c60fc9ab40%N.

Definition contract_error {A} (msg : string) : outcome A := Exc (Exn CallingContractError msg).
Definition invalid_model {A} : outcome A := Exc (Exn (Foreign "ValidationError" ["ValueError"; "Exception"]) "validation error").

(** ** Field types *)

Definition is_digit (c : ascii) : bool := char_in 48 57 c.
Definition one_of (chars : string) (c : ascii) : bool := existsb (Ascii.eqb c) (String.list_ascii_of_string chars).
(** a first character, then any of the rest *)
Definition first_then (first rest : ascii -> bool) (s : string) : bool :=
  match s with String c s' => first c && str_forallb rest s' | EmptyString => false end.

(** [Identity] *)
Definition identity_ok (s : string) : bool :=
  len_between 1 128 s && first_then is_alnum (fun c => is_alnum c || one_of "_.:@-" c) s.
(** [IdempotencyKey] *)
Definition idempotency_key_ok (s : string) : bool :=
  len_between 8 180 s && first_then is_alnum (fun c => is_alnum c || one_of "_.:-" c) s.
(** [^\+[1-9][0-9]{7,14}$] *)
Definition e164 (s : string) : bool :=
  match s with
  | String "+" (String c s') => char_in 49 57 c && len_between 7 14 s' && str_forallb is_digit s'
  | _ => false
  end.
(** [internal:[A-Z][A-Z0-9_]{1,39}] *)
Definition internal_alias (s : string) : bool :=
  starts_with "internal:" s &&
  let alias := String.substring 9 (String.length s - 9) s in
  len_between 2 40 alias &&
  first_then (char_in 65 90) (fun c => char_in 65 90 c || is_digit c || Ascii.eqb c "_") alias.

(** an aware timestamp: the instant, and the text pydantic dumps for it *)
Record AwareDatetime := { ad_instant : instant; ad_text : string }.

(** ** Principals and requests *)

Record CallPrincipal := {
  cp_tenant_id : string;
  cp_subject : string;
  cp_employee_id : string;
  cp_campaign_id : string;
  cp_business_unit : string;
  cp_extension : string;
}.
#[export] Instance CallPrincipal_eq_dec : EqDecision CallPrincipal.
Proof. solve_decision. Defined.

Definition principal_ok (p : CallPrincipal) : bool :=
  identity_ok (cp_tenant_id p) && identity_ok (cp_subject p) && identity_ok (cp_employee_id p) &&
  identity_ok (cp_campaign_id p) && identity_ok (cp_business_unit p) &&
  len_between 2 12 (cp_extension p) && str_forallb is_digit (cp_extension p).

(** the fields [names] of a validated principal *)
Definition principal_fields (tenant subject employee campaign unit_ extension : string) (d : jdict) : option CallPrincipal :=
  t ← get_str tenant d; s ← get_str subject d; e ← get_str employee d;
  c ← get_str campaign d; b ← get_str unit_ d; x ← get_str extension d;
  let p := Build_CallPrincipal t s e c b x in if principal_ok p then Some p else None.

(** [CallPrincipal.from_claims] *)
Definition from_claims (claims : jdict) : outcome CallPrincipal :=
  match principal_fields "tenant_id" "sub" "employee_id" "campaign_id" "business_unit" "extension" claims with
  | Some p => Ret p
  | None => invalid_model
  end.

(** [principal.model_dump(mode="json")] *)
Definition principal_payload (p : CallPrincipal) : jdict :=
  [("tenant_id", JStr (cp_tenant_id p)); ("subject", JStr (cp_subject p)); ("employee_id", JStr (cp_employee_id p));
   ("campaign_id", JStr (cp_campaign_id p)); ("business_unit", JStr (cp_business_unit p));
   ("extension", JStr (cp_extension p))].

(** every key of [d] is among [fields]; pydantic's [extra="forbid"] *)
Definition no_extra (fields : list string) (d : jdict) : bool := forallb (fun kv => mem_string (fst kv) fields) d.

(** [CallPrincipal.model_validate] *)
Definition principal_validate (v : json) : outcome CallPrincipal :=
  match v with
  | JObj d =>
      if negb (no_extra ["tenant_id"; "subject"; "employee_id"; "campaign_id"; "business_unit"; "extension"] d) then invalid_model
      else match principal_fields "tenant_id" "subject" "employee_id" "campaign_id" "business_unit" "extension" d with
           | Some p => Ret p
           | None => invalid_model
           end
  | _ => invalid_model
  end.

Record OriginateRequest := {
  or_employee_id : string;
  or_campaign : string;
  or_business_unit : string;
  or_destination : string;
  or_destination_class : string;
  or_destination_country : string;
  or_destination_timezone : string;
  or_caller_id : string;
  or_lead_model : string;
  or_lead_id : Z;
  or_recording_requested : bool;
  or_idempotency_key : string;
}.

Record MutationRequest := { mr_idempotency_key : string; mr_expected_version : Z; mr_reason : string }.

Definition mutation_ok (m : MutationRequest) : bool :=
  idempotency_key_ok (mr_idempotency_key m) && (1 <=? mr_expected_version m) && len_between 3 200 (mr_reason m) &&
  first_then is_alnum (fun c => is_alnum c || one_of "_.: -" c) (mr_reason m).

(** [assert_principal] *)
Definition assert_principal (b : OriginateRequest) (p : CallPrincipal) : outcome unit :=
  if negb (bool_decide ((or_employee_id b, or_campaign b, or_business_unit b) =
                        (cp_employee_id p, cp_campaign_id p, cp_business_unit p)))
  then contract_error "calling_identity_mismatch" else Ret tt.

(** [payload] *)
Definition originate_payload (b : OriginateRequest) : jdict :=
  [("employee_id", JStr (or_employee_id b)); ("campaign", JStr (or_campaign b)); ("business_unit", JStr (or_business_unit b));
   ("destination", JStr (or_destination b)); ("destination_class", JStr (or_destination_class b));
   ("destination_country", JStr (or_destination_country b)); ("destination_timezone", JStr (or_destination_timezone b));
   ("caller_id", JStr (or_caller_id b)); ("lead_model", JStr (or_lead_model b)); ("lead_id", JInt (or_lead_id b));
   ("recording_requested", JBool (or_recording_requested b))].

(** [operation_identity] *)
Definition operation_identity (p : CallPrincipal) (key : string) : UUID :=
  uuid5 CALL_NAMESPACE (dumps (JArr [JStr CLIENT_ID; JStr (cp_tenant_id p); JStr (cp_subject p); JStr key])).

(** ** Grants *)

Record CallingGrant := {
  gr_authorization_reference : string;
  gr_principal : CallPrincipal;
  gr_destination : string;
  gr_caller_id : string;
  gr_lead_id : Z;
  gr_not_before : AwareDatetime;
  gr_expires_at : AwareDatetime;
  gr_source_sha : string;
}.

(** the field constraints and [bounded_window]; the literal fields have one value *)
Definition grant_ok (g : CallingGrant) : bool :=
  identity_ok (gr_authorization_reference g) && principal_ok (gr_principal g) && internal_alias (gr_destination g) &&
  e164 (gr_caller_id g) && (0 <? gr_lead_id g) &&
  (String.length (gr_source_sha g) =? 40)%nat && str_forallb is_hex (gr_source_sha g) &&
  let duration := ad_instant (gr_expires_at g) - ad_instant (gr_not_before g) in
  (0 <? duration) && (duration <=? Clock.seconds 3600).

Definition grant_dump (g : CallingGrant) : jdict :=
  [("authorization_reference", JStr (gr_authorization_reference g)); ("principal", JObj (principal_payload (gr_principal g)));
   ("destination", JStr (gr_destination g)); ("caller_id", JStr (gr_caller_id g)); ("lead_id", JInt (gr_lead_id g));
   ("not_before", JStr (ad_text (gr_not_before g))); ("expires_at", JStr (ad_text (gr_expires_at g)));
   ("source_sha", JStr (gr_source_sha g)); ("internal_only", JBool true); ("external_dialing", JBool false);
   ("max_calls", JInt 1)].
Definition grant_digest (g : CallingGrant) : string := canonical_sha256 (JObj (grant_dump g)).

Definition grant_authorize (g : CallingGrant) (p : CallPrincipal) (b : OriginateRequest) (source_sha : string) (now : instant) :
    outcome unit :=
  if negb ((ad_instant (gr_not_before g) <=? now) && (now <? ad_instant (gr_expires_at g)))
  then contract_error "calling_grant_expired_or_not_yet_valid"
  else if negb (String.eqb (gr_source_sha g) source_sha) || negb (bool_decide (gr_principal g = p))
  then contract_error "calling_grant_identity_or_release_mismatch"
  else if negb (String.eqb (or_destination_class b) "internal_test") ||
          negb (bool_decide ((or_destination b, or_caller_id b, or_lead_id b) = (gr_destination g, gr_caller_id g, gr_lead_id g)))
  then contract_error "calling_grant_destination_or_lead_mismatch"
  else assert_principal b p.

(** the policy file as it was opened: its metadata and its content *)
Record PolicyFile := { pf_regular : bool; pf_uid : Z; pf_mode : Z; pf_size : Z; pf_content : string }.

(** [load_grant]: [name] is the environment's path, [opened] the result of opening it
    ([None] when the system refuses) *)
Definition load_grant (parse : string -> option CallingGrant) (name : string) (symlink : bool) (opened : option PolicyFile) :
    outcome (option CallingGrant) :=
  let unavailable := contract_error "calling_policy_unavailable_or_invalid" in
  if negb (str_nonempty name) then Ret None
  else if negb (starts_with "/" name || starts_with "\" name) then contract_error "calling_policy_path_must_be_absolute"
  else if symlink then contract_error "calling_policy_permissions_or_size_invalid"
  else match opened with
       | None => unavailable
       | Some f =>
           (* both refusals are [ValueError]s, which the handler renames *)
           if negb (pf_regular f) || negb (pf_uid f =? 0) || negb (Z.land (pf_mode f) 0x17 =? 0) || (16384 <? pf_size f) then unavailable
           else if 16384 <? Z.of_nat (String.length (pf_content f)) then unavailable
           else match parse (pf_content f) with
                | Some g => if grant_ok g then Ret (Some g) else unavailable
                | None => unavailable
                end
       end.

Section Model.
Context `{Externals}.
(* whether the time-zone database has a zone, and pydantic's reading of an aware timestamp *)
Context (zone_exists : string -> bool) (aware : json -> option AwareDatetime).

(** the constraints and validators of [OriginateRequest] *)
Definition originate_ok (b : OriginateRequest) : bool :=
  identity_ok (or_employee_id b) && identity_ok (or_campaign b) && identity_ok (or_business_unit b) &&
  len_between 3 96 (or_destination b) && len_between 1 40 (or_destination_class b) &&
  len_between 2 2 (or_destination_country b) && str_forallb (char_in 65 90) (or_destination_country b) &&
  len_between 1 64 (or_destination_timezone b) && zone_exists (or_destination_timezone b) &&
  e164 (or_caller_id b) && String.eqb (or_lead_model b) "crm.lead" && (0 <? or_lead_id b) &&
  idempotency_key_ok (or_idempotency_key b) &&
  (if String.eqb (or_destination_class b) "internal_test" then internal_alias (or_destination b) else e164 (or_destination b)) &&
  negb (or_recording_requested b).

Definition ORIGINATE_FIELDS : list string :=
  ["employee_id"; "campaign"; "business_unit"; "destination"; "destination_class"; "destination_country";
   "destination_timezone"; "caller_id"; "lead_model"; "lead_id"; "recording_requested"; "idempotency_key"].

(** [OriginateRequest.model_validate] *)
Definition originate_validate (d : jdict) : outcome OriginateRequest :=
  let parsed :=
    e ← get_str "employee_id" d; c ← get_str "campaign" d; u ← get_str "business_unit" d;
    dst ← get_str "destination" d; cl ← get_str "destination_class" d; co ← get_str "destination_country" d;
    tz ← get_str "destination_timezone" d; ca ← get_str "caller_id" d; lm ← get_str "lead_model" d;
    li ← (match dict_get "lead_id" d with Some (JInt z) => Some z | _ => None end);
    rec ← (match dict_get "recording_requested" d with None => Some false | Some (JBool x) => Some x | _ => None end);
    k ← get_str "idempotency_key" d;
    Some (Build_OriginateRequest e c u dst cl co tz ca lm li rec k) in
  match parsed with
  | Some b => if no_extra ORIGINATE_FIELDS d && originate_ok b then Ret b else invalid_model
  | None => invalid_model
  end.

(** ** Evidence *)

Record CallLifecycleEvidence := {
  ev_operation_id : string;
  ev_correlation_id : string;
  ev_dispatch_state : string;
  ev_asterisk_uniqueid : string;
  ev_linkedid : option string;
  ev_call_id : option string;
  ev_call_state : string;
  ev_answered_at : option AwareDatetime;
  ev_ended_at : option AwareDatetime;
  ev_terminal : bool;
  ev_evidence : option jdict;
  ev_fine_state : option string;
  ev_fine_state_at : option AwareDatetime;
  ev_last_event_sequence : Z;
  ev_hangup_leg : option string;
  ev_tenant_id : string;
  ev_subject : string;
  ev_employee_id : string;
  ev_username : string;
  ev_extension : string;
  ev_campaign : string;
  ev_authorization_reference : string;
  ev_created_at : AwareDatetime;
  ev_duration_seconds : option Z;
  ev_talk_duration_seconds : option Z;
  ev_hangup_cause : option string;
  ev_hangup_cause_code : option Z;
}.

Definition EVIDENCE_FIELDS : list string :=
  ["operation_id"; "correlation_id"; "dispatch_state"; "asterisk_uniqueid"; "linkedid"; "call_id"; "call_state";
   "answered_at"; "ended_at"; "terminal"; "evidence"; "fine_state"; "fine_state_at"; "last_event_sequence";
   "hangup_leg"; "tenant_id"; "subject"; "employee_id"; "username"; "extension"; "campaign";
   "authorization_reference"; "created_at"; "duration_seconds"; "talk_duration_seconds"; "hangup_cause";
   "hangup_cause_code"; "internal_only"; "external_dialing"; "recording"].

(** [(b - a).total_seconds()], whole *)
Definition whole_seconds (a b : AwareDatetime) : Z := (ad_instant b - ad_instant a) / Clock.seconds 1.

Definition precedes (a b : AwareDatetime) : bool := ad_instant a <? ad_instant b.
Definition opt_is {A} (p : A -> bool) (o : option A) : bool := match o with Some x => p x | None => true end.

(** [coherent_timing] *)
Definition coherent_timing (e : CallLifecycleEvidence) : bool :=
  opt_is (fun a => negb (precedes a (ev_created_at e))) (ev_answered_at e) &&
  match ev_ended_at e with
  | Some z =>
      negb (precedes z (ev_created_at e)) && opt_is (fun a => negb (precedes z a)) (ev_answered_at e) &&
      opt_is (fun s => s =? whole_seconds (ev_created_at e) z) (ev_duration_seconds e) &&
      opt_is (fun s => s =? match ev_answered_at e with None => 0 | Some a => whole_seconds a z end)
        (ev_talk_duration_seconds e)
  | None => bool_decide (ev_duration_seconds e = None) && bool_decide (ev_talk_duration_seconds e = None)
  end.

Definition in_range (lo hi z : Z) : bool := (lo <=? z) && (z <=? hi).
Definition evidence_ok (e : CallLifecycleEvidence) : bool :=
  mem_string (ev_dispatch_state e) ["dispatch_unknown"; "accepted"] && (0 <=? ev_last_event_sequence e) &&
  opt_is (fun l => mem_string l ["agent_leg"; "peer_leg"]) (ev_hangup_leg e) &&
  String.eqb (ev_username e) "appolon" && String.eqb (ev_extension e) "6901" && String.eqb (ev_campaign e) "TEST_SYN" &&
  opt_is (in_range 0 86400) (ev_duration_seconds e) && opt_is (in_range 0 86400) (ev_talk_duration_seconds e) &&
  opt_is (fun c => String.length c <=? 128)%nat (ev_hangup_cause e) && opt_is (in_range 0 255) (ev_hangup_cause_code e) &&
  coherent_timing e.

(** a field that may be null; [absent] is what a missing one reads as *)
Definition nullable {A} (absent : option (option A)) (read : json -> option A) (k : string) (d : jdict) : option (option A) :=
  match dict_get k d with
  | None => absent
  | Some JNull => Some None
  | Some v => Some <$> read v
  end.
Definition read_str (v : json) : option string := match v with JStr s => Some s | _ => None end.
Definition read_int (v : json) : option Z := match v with JInt z => Some z | _ => None end.
Definition read_dict (v : json) : option jdict := match v with JObj d => Some d | _ => None end.
Definition is_bool (b : bool) (k : string) (d : jdict) : option unit :=
  match dict_get k d with Some (JBool x) => if Bool.eqb x b then Some tt else None | _ => None end.

Definition evidence_fields (d : jdict) : option CallLifecycleEvidence :=
  op ← get_str "operation_id" d; co ← get_str "correlation_id" d; ds ← get_str "dispatch_state" d;
  au ← get_str "asterisk_uniqueid" d; li ← nullable None read_str "linkedid" d; ca ← nullable None read_str "call_id" d;
  cs ← get_str "call_state" d; an ← nullable None aware "answered_at" d; en ← nullable None aware "ended_at" d;
  te ← (match dict_get "terminal" d with Some (JBool x) => Some x | _ => None end);
  ev ← nullable None read_dict "evidence" d; fs ← nullable (Some None) read_str "fine_state" d;
  fa ← nullable (Some None) aware "fine_state_at" d;
  ls ← (match dict_get "last_event_sequence" d with None => Some 0 | Some v => read_int v end);
  hl ← nullable (Some None) read_str "hangup_leg" d; tn ← get_str "tenant_id" d; su ← get_str "subject" d;
  em ← get_str "employee_id" d; us ← get_str "username" d; ex ← get_str "extension" d; cm ← get_str "campaign" d;
  ar ← get_str "authorization_reference" d; cr ← dict_get "created_at" d ≫= aware;
  du ← nullable None read_int "duration_seconds" d; ta ← nullable None read_int "talk_duration_seconds" d;
  hc ← nullable (Some None) read_str "hangup_cause" d; hcc ← nullable (Some None) read_int "hangup_cause_code" d;
  _ ← is_bool true "internal_only" d; _ ← is_bool false "external_dialing" d; _ ← is_bool false "recording" d;
  Some (Build_CallLifecycleEvidence op co ds au li ca cs an en te ev fs fa ls hl tn su em us ex cm ar cr du ta hc hcc).

(** [CallLifecycleEvidence.model_validate] *)
Definition evidence_validate (v : json) : outcome CallLifecycleEvidence :=
  match v with
  | JObj d =>
      match evidence_fields d with
      | Some e => if no_extra EVIDENCE_FIELDS d && evidence_ok e then Ret e else invalid_model
      | None => invalid_model
      end
  | _ => invalid_model
  end.

Definition dump_datetime (o : option AwareDatetime) : json := match o with Some a => JStr (ad_text a) | None => JNull end.
Definition dump_int (o : option Z) : json := match o with Some z => JInt z | None => JNull end.

(** [evidence.model_dump(mode="json")] *)
Definition evidence_dump (e : CallLifecycleEvidence) : jdict :=
  [("operation_id", JStr (ev_operation_id e)); ("correlation_id", JStr (ev_correlation_id e));
   ("dispatch_state", JStr (ev_dispatch_state e)); ("asterisk_uniqueid", JStr (ev_asterisk_uniqueid e));
   ("linkedid", jopt (ev_linkedid e)); ("call_id", jopt (ev_call_id e)); ("call_state", JStr (ev_call_state e));
   ("answered_at", dump_datetime (ev_answered_at e)); ("ended_at", dump_datetime (ev_ended_at e));
   ("terminal", JBool (ev_terminal e)); ("evidence", match ev_evidence e with Some d => JObj d | None => JNull end);
   ("fine_state", jopt (ev_fine_state e)); ("fine_state_at", dump_datetime (ev_fine_state_at e));
   ("last_event_sequence", JInt (ev_last_event_sequence e)); ("hangup_leg", jopt (ev_hangup_leg e));
   ("tenant_id", JStr (ev_tenant_id e)); ("subject", JStr (ev_subject e)); ("employee_id", JStr (ev_employee_id e));
   ("username", JStr (ev_username e)); ("extension", JStr (ev_extension e)); ("campaign", JStr (ev_campaign e));
   ("authorization_reference", JStr (ev_authorization_reference e)); ("created_at", JStr (ad_text (ev_created_at e)));
   ("duration_seconds", dump_int (ev_duration_seconds e)); ("talk_duration_seconds", dump_int (ev_talk_duration_seconds e));
   ("hangup_cause", jopt (ev_hangup_cause e)); ("hangup_cause_code", dump_int (ev_hangup_cause_code e));
   ("internal_only", JBool true); ("external_dialing", JBool false); ("recording", JBool false)].

(** [x == mapping.get(k)] *)
Definition same_as (s : string) (k : string) (d : jdict) : bool := py_eqb (JStr s) (default JNull (dict_get k d)).

Definition attribute_error {A} (v : json) (name : string) : outcome A :=
  Exc (Exn (Foreign "AttributeError" ["Exception"]) ("'" +:+ type_name v +:+ "' object has no attribute '" +:+ name +:+ "'")).

(** what the evidence is bound to *)
Record EvidenceBinding := {
  eb_operation_id : string;
  eb_correlation_id : string;
  eb_tenant_id : string;
  eb_actor : json;
  eb_authorization_reference : json;
  eb_provider_operation_id : option string;
}.

(** the call has ended, and the evidence says how *)
Definition terminal_complete (e : CallLifecycleEvidence) : bool :=
  ev_terminal e && mem_string (ev_call_state e) TERMINAL_CALL_STATES &&
  bool_decide (is_Some (truthy_str (ev_call_id e))) && bool_decide (is_Some (truthy_str (ev_linkedid e))) &&
  bool_decide (is_Some (ev_ended_at e)) && bool_decide (is_Some (ev_duration_seconds e)) &&
  bool_decide (is_Some (ev_evidence e)).
Definition still_running (e : CallLifecycleEvidence) : bool :=
  negb (ev_terminal e) && mem_string (ev_call_state e) NONTERMINAL_CALL_STATES && bool_decide (ev_ended_at e = None).

(** [validate_call_evidence] *)
Definition validate_call_evidence (v : json) (b : EvidenceBinding) (require_terminal : bool) : outcome jdict :=
  let? e := evidence_validate v in
  if negb (String.eqb (ev_operation_id e) (eb_operation_id b)) || negb (String.eqb (ev_correlation_id e) (eb_correlation_id b)) ||
     negb (String.eqb (ev_tenant_id e) (eb_tenant_id b))
  then contract_error "calling_evidence_identity_mismatch"
  else match eb_actor b with
       | JObj actor =>
           if negb (same_as (ev_subject e) "subject" actor) || negb (same_as (ev_employee_id e) "employee_id" actor) ||
              negb (same_as (ev_extension e) "extension" actor) || negb (same_as (ev_campaign e) "campaign_id" actor) ||
              negb (py_eqb (JStr (ev_authorization_reference e)) (eb_authorization_reference b))
           then contract_error "calling_evidence_identity_mismatch"
           else if opt_is (fun p => negb (String.eqb (ev_asterisk_uniqueid e) p)) (eb_provider_operation_id b) &&
                   bool_decide (is_Some (eb_provider_operation_id b))
           then contract_error "calling_evidence_provider_identity_mismatch"
           else if require_terminal && negb (terminal_complete e)
           then contract_error "calling_terminal_evidence_incomplete"
           else if negb require_terminal && negb (still_running e)
           then contract_error "calling_status_conflicts_with_terminal_evidence"
           else Ret (evidence_dump e)
       | v => attribute_error v "get"
       end.
Definition validate_terminal_call_evidence (v : json) (b : EvidenceBinding) : outcome jdict := validate_call_evidence v b true.

(** ** The ledger facade

    What [CallingLedger] asks of the store, each answered by the branch of the code
    for that store: reading a submitted document and its operation
    ([CallReads]), and reserving a call, submitting a command and requesting a
    reconciliation ([CallStore]). *)

Class CallReads (S : Type) := {
  load_document : string -> UUID -> M S CommandEnvelope;
  ledger_get : string -> UUID -> M S CommandOperation;
}.

Definition not_found_call {S A} : M S A := raise CommandNotFound "calling request was not found".

Definition payload_field (k : string) (c : CommandEnvelope) : json := default JNull (dict_get k (env_payload c)).

(** [_terminal] *)
Definition call_terminal (o : CommandOperation) (evidence_operation_id : option string) : outcome bool :=
  if bool_decide (op_state o = cancelled) then Ret true
  else if negb (bool_decide (op_state o = completed)) || bool_decide (op_readback_evidence_sha256 o = None) then Ret false
  else
  let evidence := default [] (op_readback_evidence o) in
  let id := default (uuid_str (command_id (op_command o))) (truthy_str evidence_operation_id) in
  match dict_get "call_state" evidence with
  | Some (JArr _ as v) | Some (JObj _ as v) => Exc (Exn TypeError ("unhashable type: '" +:+ type_name v +:+ "'"))
  | Some (JStr s) =>
      Ret (mem_string s TERMINAL_CALL_STATES && same_as id "operation_id" evidence &&
           same_as (tenant_id (op_command o)) "tenant_id" evidence &&
           bool_decide (is_Some (is_bool true "internal_only" evidence)) &&
           bool_decide (is_Some (is_bool false "external_dialing" evidence)))
  | _ => Ret false
  end.

(** [_owner] *)
Definition owned_by (document : CommandEnvelope) (p : CallPrincipal) : bool :=
  String.eqb (env_target document) TARGET && String.eqb (env_command_type document) ORIGINATE &&
  String.eqb (env_tenant_id document) (cp_tenant_id p) && String.eqb (env_requested_by document) (cp_subject p) &&
  py_eqb (payload_field "actor" document) (JObj (principal_payload p)).

Definition same_field (k : string) (a b : CommandEnvelope) : bool := py_eqb (payload_field k a) (payload_field k b).

(** a hangup names the call it was made for *)
Definition same_call (document original : CommandEnvelope) (o : CommandOperation) : bool :=
  String.eqb (env_tenant_id document) (env_tenant_id original) &&
  String.eqb (env_requested_by document) (env_requested_by original) &&
  String.eqb (env_correlation_id document) (env_correlation_id original) &&
  same_field "actor" document original && same_field "originate" document original &&
  same_field "authorization_reference" document original && same_field "policy_sha256" document original &&
  py_eqb (payload_field "call_id" document) (jopt (op_provider_operation_id o)).

(** [UUID(str(payload["origin_operation_id"]))] *)
Definition origin_of (document : CommandEnvelope) : option UUID :=
  v ← dict_get "origin_operation_id" (env_payload document); uuid_parse (py_str v).

Section Reads.
Context {S : Type} `{!CallReads S}.

(** [CallingLedger.get] *)
Definition call_get (p : CallPrincipal) (operation_id : UUID) : M S (CommandEnvelope * CommandOperation) :=
  let! document := load_document (cp_tenant_id p) operation_id in
  let! operation := ledger_get (cp_tenant_id p) operation_id in
  if String.eqb (env_command_type document) ORIGINATE
  then if owned_by document p then ret (document, operation) else not_found_call
  else if negb (String.eqb (env_target document) TARGET) || negb (String.eqb (env_command_type document) HANGUP)
  then not_found_call
  else match origin_of document with
       | None => not_found_call
       | Some original_id =>
           let! original := load_document (cp_tenant_id p) original_id in
           if negb (owned_by original p) then not_found_call
           else
           let! original_operation := ledger_get (cp_tenant_id p) original_id in
           if negb (same_call document original original_operation) then not_found_call
           else ret (document, operation)
       end.

(** [replay] *)
Definition call_replay (p : CallPrincipal) (b : OriginateRequest) (correlation_id : string) : M S (option CommandOperation) :=
  let! found := catch_ (fun e => isinstance e ["CommandNotFound"])
    (let! x := call_get p (operation_identity p (or_idempotency_key b)) in ret (Some x)) (fun _ => ret None) in
  match found with
  | None => ret None
  | Some (document, operation) =>
      if negb (py_eqb (payload_field "originate" document) (JObj (originate_payload b))) ||
         negb (String.eqb (env_idempotency_key document) (or_idempotency_key b)) ||
         negb (String.eqb (env_correlation_id document) correlation_id)
      then raise CommandConflict "calling idempotency key was reused with different content"
      else ret (Some (as_duplicate operation))
  end.
End Reads.

Class CallStore (S : Type) `{!CallReads S} := {
  reserve_call : instant -> datetime -> CallPrincipal -> OriginateRequest -> string -> CallingGrant -> CommandEnvelope -> M S CommandOperation;
  submit_call : datetime -> CommandEnvelope -> M S CommandOperation;
  request_reconcile : datetime -> string -> UUID -> string -> string -> Z -> string -> M S CommandOperation;
}.

(** [CommandEnvelope(...)] *)
Definition envelope (c : CommandEnvelope) : outcome CommandEnvelope := if envelope_valid c then Ret c else invalid_model.

(** [_validate] over the registry with the one capability added *)
Definition validate_call (pols : CommandPolicyRegistry) (c : CommandEnvelope) : outcome unit :=
  validate_submission (make_registry (policies pols) (<[CAPABILITY := true]> (capabilities pols))) c (env_requested_by c) CLIENT_ID.

Definition originate_command (p : CallPrincipal) (b : OriginateRequest) (correlation_id : string) (g : CallingGrant) : CommandEnvelope := {|
  env_command_id := operation_identity p (or_idempotency_key b);
  env_command_type := ORIGINATE; env_command_version := "1.0"; env_target := TARGET;
  env_tenant_id := cp_tenant_id p; env_requested_by := cp_subject p; env_correlation_id := correlation_id;
  env_idempotency_key := or_idempotency_key b; env_capability := CAPABILITY;
  env_payload := [("actor", JObj (principal_payload p)); ("originate", JObj (originate_payload b));
                  ("authorization_reference", JStr (gr_authorization_reference g)); ("policy_sha256", JStr (grant_digest g))] |}.

(** [original.payload[k]] *)
Definition payload_item (k : string) (c : CommandEnvelope) : outcome json :=
  match dict_get k (env_payload c) with Some v => Ret v | None => Exc (Exn KeyError k) end.

Section Facade.
Context {S : Type} `{!CallReads S, !CallStore S}.
Context (pols : CommandPolicyRegistry).

(** [originate] *)
Definition call_originate (clock : instant) (now : datetime) (p : CallPrincipal) (b : OriginateRequest) (correlation_id : string)
    (g : CallingGrant) : M S CommandOperation :=
  let! command := lift_outcome (envelope (originate_command p b correlation_id g)) in
  lift_outcome (validate_call pols command) ;;;
  reserve_call clock now p b correlation_id g command.

(** [reconcile] *)
Definition call_reconcile (now : datetime) (p : CallPrincipal) (operation_id : UUID) (key : string) (expected_version : Z)
    (reason : string) : M S CommandOperation :=
  let! found := call_get p operation_id in
  let current := snd found in
  if state_in (op_state current) [persisted; queued; completed; cancelled]
  then if negb (op_resource_version current =? expected_version)
       then raise CommandConflict "expected_version is stale" else ret current
  else request_reconcile now (cp_tenant_id p) operation_id (cp_subject p) key expected_version reason.

Definition hangup_command (p : CallPrincipal) (original : CommandEnvelope) (operation_id : UUID) (call_id key reason : string) :
    outcome CommandEnvelope :=
  let? actor := payload_item "actor" original in
  let? body := payload_item "originate" original in
  let? authorization := payload_item "authorization_reference" original in
  let? policy := payload_item "policy_sha256" original in
  envelope {|
    env_command_id := operation_identity p key; env_command_type := HANGUP; env_command_version := "1.0";
    env_target := TARGET; env_tenant_id := cp_tenant_id p; env_requested_by := cp_subject p;
    env_correlation_id := env_correlation_id original; env_idempotency_key := key; env_capability := CAPABILITY;
    env_payload := [("actor", actor); ("originate", body); ("origin_operation_id", JStr (uuid_str operation_id));
                    ("call_id", JStr call_id); ("authorization_reference", authorization);
                    ("policy_sha256", policy); ("reason", JStr reason)] |}.

(** [hangup] *)
Definition call_hangup (now : datetime) (p : CallPrincipal) (operation_id : UUID) (key : string) (expected_version : Z)
    (reason : string) : M S CommandOperation :=
  let! found := call_get p operation_id in
  let (original, current) := found in
  if negb (String.eqb (env_command_type original) ORIGINATE)
  then raise CommandConflict "hangup must reference an originate operation"
  else match truthy_str (op_provider_operation_id current) with
       | None => raise CommandConflict "call identity is unknown; reconcile before hangup"
       | Some call_id =>
           let! command := lift_outcome (hangup_command p original operation_id call_id key reason) in
           lift_outcome (validate_call pols command) ;;;
           catch_ (fun e => isinstance e ["CommandNotFound"])
             (ledger_get (cp_tenant_id p) (env_command_id command) ;;; ret tt)
             (fun _ =>
                let! over := lift_outcome (call_terminal current None) in
                if over then raise CommandConflict "call is already terminal"
                else if negb (op_resource_version current =? expected_version)
                then raise CommandConflict "expected_version is stale" else ret tt) ;;;
           submit_call now command
       end.
End Facade.
End Model.

(** ** The in-memory ledger

    The documents are a dictionary in the order of their first insertion.  Its
    operations run without suspending: the lock of [originate] is free whenever
    one of them starts. *)

Record MemoryCalling := mkMemoryCalling {
  mc_store : MemoryCommandStore;
  mc_documents : list (Key * CommandEnvelope);
}.
Definition on_store {A} (m : M MemoryCommandStore A) : M MemoryCalling A :=
  zoom mc_store (fun s c => mkMemoryCalling s (mc_documents c)) m.
Definition keep_document (c : CommandEnvelope) : M MemoryCalling unit :=
  modify (fun s => mkMemoryCalling (mc_store s) (dict_set (env_tenant_id c, env_command_id c) c (mc_documents s))).

#[export] Instance memory_reads : CallReads MemoryCalling := {|
  load_document t c := fun s =>
    match dict_get (t, c) (mc_documents s) with
    | Some d => (Ret d, s)
    | None => (Exc (Exn CommandNotFound "calling request was not found"), s)
    end;
  ledger_get t c := on_store (get t c) |}.

(** [prior.payload["actor"][k]] *)
Definition actor_item (k : string) (prior : CommandEnvelope) : outcome json :=
  let? actor := payload_item "actor" prior in
  match actor with
  | JObj d => match dict_get k d with Some v => Ret v | None => Exc (Exn KeyError k) end
  | v => Exc (Exn TypeError ("'" +:+ type_name v +:+ "' object is not subscriptable"))
  end.
(** the prior call is the agent's, or on the agent's extension *)
Definition same_line (p : CallPrincipal) (prior : CommandEnvelope) : outcome bool :=
  let? e := actor_item "employee_id" prior in
  if py_eqb e (JStr (cp_employee_id p)) then Ret true
  else let? x := actor_item "extension" prior in Ret (py_eqb x (JStr (cp_extension p))).

(** the loop over the documents *)
Fixpoint scan_documents (p : CallPrincipal) (g : CallingGrant) (l : list (Key * CommandEnvelope)) : M MemoryCalling unit :=
  match l with
  | [] => ret tt
  | (k, prior) :: l' =>
      if negb (String.eqb (fst k) (cp_tenant_id p)) || negb (String.eqb (env_command_type prior) ORIGINATE)
      then scan_documents p g l'
      else if py_eqb (payload_field "authorization_reference" prior) (JStr (gr_authorization_reference g))
      then raise CommandConflict "single-call authorization was already consumed"
      else
      let! same := lift_outcome (same_line p prior) in
      if negb same then scan_documents p g l'
      else
      let! o := ledger_get (fst k) (snd k) in
      let! over := lift_outcome (call_terminal o None) in
      if negb over then raise CommandConflict "agent already has an active or unknown call" else scan_documents p g l'
  end.

Definition memory_reserve (clock : instant) (now : datetime) (p : CallPrincipal) (b : OriginateRequest) (correlation_id : string)
    (g : CallingGrant) (command : CommandEnvelope) : M MemoryCalling CommandOperation :=
  let! duplicate := call_replay p b correlation_id in
  match duplicate with
  | Some o => ret o
  | None =>
      lift_outcome (grant_authorize g p b (gr_source_sha g) clock) ;;;
      let! documents := gets mc_documents in
      scan_documents p g documents ;;;
      let! o := on_store (submit now command CLIENT_ID TEMPORAL_COMMAND_DESTINATION None None) in
      keep_document command ;;;
      ret o
  end.

#[export] Instance memory_calling `{Externals} : CallStore MemoryCalling := {|
  reserve_call := memory_reserve;
  submit_call now c :=
    let! o := on_store (submit now c CLIENT_ID TEMPORAL_COMMAND_DESTINATION None None) in
    keep_document c ;;; ret o;
  request_reconcile now t c actor key version reason :=
    on_store (mutate_operation now t c act_reconcile actor key version reason None) |}.

(** ** The durable ledger *)

(** [_decode_document] *)
Definition decode_document `{Externals} (r : CommandRow) : outcome CommandEnvelope :=
  let? envelope := command_envelope_from_payload (c_payload r) in
  match dict_get AUTHENTICATED_CLIENT_ID_KEY (c_payload r) with
  | Some (JStr client) =>
      if negb (String.eqb client CLIENT_ID) || negb (String.eqb (authenticated_command_digest envelope client) (c_payload_sha256 r))
      then Exc (Exn CommandConflict "calling command provenance is invalid") else Ret envelope
  | _ => Exc (Exn CommandConflict "calling command provenance is invalid")
  end.

#[export] Instance pg_reads `{Externals} : CallReads CommandDB := {|
  load_document t c :=
    tenant_transaction t (
      let! d := gets id in
      match db_commands d !! (t, c) with
      | Some r => lift_outcome (decode_document r)
      | None => raise CommandNotFound "calling request was not found"
      end);
  ledger_get := pg_get |}.

(** the signed 64-bit number of the first eight bytes of a digest *)
Definition lock_of (value : string) : Z :=
  let n := fold_left (fun n b => 256 * n + b) (take 8 (sha256_bytes (bytes_of value))) 0 in
  if 2 ^ 63 <=? n then n - 2 ^ 64 else n.
Definition call_locks (p : CallPrincipal) (g : CallingGrant) : list Z :=
  sorted_by Z.leb (remove_dups (map lock_of
    ["calling:" +:+ cp_tenant_id p +:+ ":" +:+ cp_employee_id p;
     "calling-phone:" +:+ cp_tenant_id p +:+ ":" +:+ cp_extension p;
     "calling-grant:" +:+ cp_tenant_id p +:+ ":" +:+ gr_authorization_reference g])).

(** [payload #>> path] of a text *)
Fixpoint path_text (path : list string) (v : json) : option string :=
  match path, v with
  | [], JStr s => Some s
  | k :: path', JObj d => dict_get k d ≫= path_text path'
  | _, _ => None
  end.
Definition row_text (path : list string) (r : CommandRow) : option string := path_text path (JObj (c_payload r)).

Definition originates (t : string) (r : CommandRow) : bool :=
  String.eqb (tenant_id (c_identity r)) t && String.eqb (command_type (c_identity r)) ORIGINATE.
Definition consumes (p : CallPrincipal) (g : CallingGrant) (r : CommandRow) : bool :=
  originates (cp_tenant_id p) r &&
  bool_decide (row_text ["payload"; "authorization_reference"] r = Some (gr_authorization_reference g)).
Definition on_line (p : CallPrincipal) (r : CommandRow) : bool :=
  originates (cp_tenant_id p) r &&
  (bool_decide (row_text ["payload"; "actor"; "employee_id"] r = Some (cp_employee_id p)) ||
   bool_decide (row_text ["payload"; "actor"; "extension"] r = Some (cp_extension p))).

(** the digest of the newest audit row of a completion *)
Definition calling_digest (k : Key) (l : list AuditRow) : option string :=
  match last (List.filter (fun u => bool_decide (u_new_state u = completed)) (audit_of k l)) with
  | Some u => metadata_text "readback_evidence_sha256" (u_metadata u)
  | None => None
  end.

(** a candidate as the query joins it, and whether it is over *)
Definition prior_call (d : CommandDB) (k : Key) (r : CommandRow) : outcome bool :=
  let? x := verify_readback_evidence_digest (newest_attempt k (db_attempts d) ≫= a_result_payload) (calling_digest k (db_audit d)) in
  let? o := operation_of_row r false (fst x) (snd x) in
  call_terminal o None.

(** the rows of the tenant's table; the query gives no order *)
Definition rows_of (d : CommandDB) : list (Key * CommandRow) := map_to_list (db_commands d).

(** what must hold before the command is submitted, under the advisory locks *)
Definition call_checks (clock : instant) (p : CallPrincipal) (b : OriginateRequest) (g : CallingGrant) (d : CommandDB) : outcome unit :=
  grant_authorize g p b (gr_source_sha g) clock ??;
  if existsb (fun kr => consumes p g (snd kr)) (rows_of d)
  then Exc (Exn CommandConflict "single-call authorization was already consumed")
  else for_each (fun kr =>
         let? over := prior_call d (fst kr) (snd kr) in
         if over then Ret tt else Exc (Exn CommandConflict "agent already has an active or unknown call"))
       (List.filter (fun kr => on_line p (snd kr) && negb (bool_decide (c_state (snd kr) = cancelled))) (rows_of d)).

Definition pg_reserve (clock : instant) (now : datetime) (p : CallPrincipal) (b : OriginateRequest) (correlation_id : string)
    (g : CallingGrant) (command : CommandEnvelope) : DM CommandOperation :=
  tenant_transaction (cp_tenant_id p) (
    let! d := gets id in
    when (bool_decide (existing_rows command d = [])) (lift_outcome (call_checks clock p b g d)) ;;;
    submit_on_connection now command CLIENT_ID None TEMPORAL_COMMAND_DESTINATION None None).

#[export] Instance pg_calling `{Externals} : CallStore CommandDB := {|
  reserve_call := pg_reserve;
  submit_call now c := pg_submit now c CLIENT_ID TEMPORAL_COMMAND_DESTINATION None None;
  request_reconcile now t c actor key version reason :=
    pg_mutate_operation now t c act_reconcile actor key version reason None |}.

(** ** Responses and routes *)

(** [operation_response] *)
Definition operation_response (o : CommandOperation) (document : option CommandEnvelope) : outcome jdict :=
  let attempting := state_in (op_state o) [accepted; readback_pending] && bool_decide (is_Some (truthy_str (op_provider_operation_id o))) in
  let dialing := if attempting then "attempting" else if bool_decide (op_state o = cancelled) then "blocked" else "unknown" in
  let reason := if attempting then "telephony adapter accepted the call operation"
                else if bool_decide (op_state o = cancelled) then "request cancelled before dispatch"
                else "request persisted; awaiting authoritative call outcome" in
  let evidence_operation_id := match document with
    | Some c => if String.eqb (env_command_type c) HANGUP
                then Some (match dict_get "origin_operation_id" (env_payload c) with Some v => py_str v | None => "" end)
                else if negb (String.eqb (env_command_type c) ORIGINATE) then Some "invalid" else None
    | None => None end in
  let? over := call_terminal o evidence_operation_id in
  Ret [("operation_id", JStr (uuid_str (command_id (op_command o)))); ("correlation_id", JStr (correlation_id (op_command o)));
       ("dialing", JStr dialing); ("reason", JStr (if over then "terminal call outcome reconciled; see call_state" else reason));
       ("call_id", jopt (op_provider_operation_id o)); ("operation_state", JStr (state_name (op_state o)));
       ("call_state", default JNull (dict_get "call_state" (default [] (op_readback_evidence o))));
       ("resource_version", JInt (op_resource_version o)); ("duplicate", JBool (op_duplicate o));
       ("retry_safe", JBool (bool_decide (op_state o = cancelled))); ("external_dialing", JBool false);
       ("status_url", JStr ("/v1/telephony/calls/requests/" +:+ uuid_str (command_id (op_command o))))].

Section Routes.
Context `{Externals} {S : Type} `{!CallReads S, !CallStore S}.
Context (pols : CommandPolicyRegistry) (source_sha : string).
(* the token verifier, and what [load_grant] answers *)
Context (tokens_verify : string -> string -> string -> outcome jdict) (grant : outcome (option CallingGrant)).

Abbreviation Headers := (list (string * string)).
Definition invalid_header {A} (msg : string) : outcome A := Exc (Exn RequestValidationError msg).

(** [required_header] and [optional_header] of [src/app/api_inputs.py] *)
Definition required_header (name : string) (lo hi : nat) (headers : Headers) : outcome string :=
  match header_list name headers with
  | [v] => if len_between lo hi v then Ret v else invalid_header (name +:+ " is malformed")
  | _ => invalid_header (name +:+ " must be provided exactly once")
  end.
Definition optional_header (name : string) (lo hi : nat) (headers : Headers) : outcome (option string) :=
  match header_list name headers with
  | [] => Ret None
  | [v] => if len_between lo hi v then Ret (Some v) else invalid_header (name +:+ " is malformed")
  | _ => invalid_header (name +:+ " must be provided at most once")
  end.

(** [_principal] *)
Definition route_principal (action : string) (headers : Headers) : outcome CallPrincipal :=
  let? authorization := authorization_header headers in
  let? claims := tokens_verify authorization CLIENT_ID ("telephony.calls." +:+ action) in
  match from_claims claims with
  | Exc _ => Exc (Exn AuthorizationError "verified calling identity claims are incomplete")
  | Ret p =>
      let? supplied := optional_header "X-Tenant-ID" 1 128 headers in
      if opt_is (String.eqb (cp_tenant_id p)) supplied then Ret p
      else Exc (Exn AuthorizationError "calling tenant header conflicts with verified identity")
  end.

(** [_headers]: the correlation id *)
Definition route_headers (key : string) (headers : Headers) : outcome string :=
  let? supplied := required_header "Idempotency-Key" 8 180 headers in
  if negb (String.eqb supplied key) then invalid_header "Idempotency-Key must equal the request body key"
  else
  let? correlation := required_header "X-Correlation-ID" 8 180 headers in
  if len_between 8 180 correlation && first_then is_alnum (fun c => is_alnum c || one_of "_.:-" c) correlation
  then Ret correlation else invalid_header "a bounded X-Correlation-ID is required".

(** a refusal of the contract is an authorization error *)
Definition as_denied {A} (o : outcome A) : outcome A :=
  match o with
  | Exc (Exn CallingContractError msg) => Exc (Exn AuthorizationError msg)
  | _ => o
  end.

Definition blocked_response (correlation : string) : jdict :=
  [("dialing", JStr "blocked"); ("reason", JStr "internal calling is not authorized; public dialing remains disabled");
   ("correlation_id", JStr correlation); ("retry_safe", JBool true); ("external_dialing", JBool false)].

(** the route [originate] *)
Definition originate_route (clock : instant) (now : datetime) (b : OriginateRequest) (headers : Headers) : M S (Z * jdict) :=
  let! p := lift_outcome (route_principal "originate" headers) in
  let! correlation := lift_outcome (route_headers (or_idempotency_key b) headers) in
  lift_outcome (as_denied (assert_principal b p)) ;;;
  let! previous := call_replay p b correlation in
  match previous with
  | Some o => let! r := lift_outcome (operation_response o None) in ret (200, r)
  | None =>
      let! g := lift_outcome (as_denied grant) in
      match g with
      | Some g =>
          if negb (String.eqb (or_destination_class b) "internal_test") then ret (200, blocked_response correlation)
          else
          lift_outcome (as_denied (grant_authorize g p b source_sha clock)) ;;;
          let! o := call_originate pols clock now p b correlation g in
          let! r := lift_outcome (operation_response o None) in
          ret (if op_duplicate o then 200 else 202, r)
      | None => ret (200, blocked_response correlation)
      end
  end.

(** [call_status] *)
Definition status_route (operation_id : UUID) (headers : Headers) : M S (Z * jdict) :=
  let! p := lift_outcome (route_principal "read" headers) in
  let! x := call_get p operation_id in
  let! r := lift_outcome (operation_response (snd x) (Some (fst x))) in
  ret (200, r).

(** the route [reconcile] *)
Definition reconcile_route (now : datetime) (operation_id : UUID) (m : MutationRequest) (headers : Headers) : M S (Z * jdict) :=
  let! p := lift_outcome (route_principal "reconcile" headers) in
  let! correlation := lift_outcome (route_headers (mr_idempotency_key m) headers) in
  let! x := call_get p operation_id in
  if negb (String.eqb correlation (env_correlation_id (fst x)))
  then raise RequestValidationError "reconciliation must preserve the calling correlation ID"
  else
  let! o := call_reconcile now p operation_id (mr_idempotency_key m) (mr_expected_version m) (mr_reason m) in
  let! r := lift_outcome (operation_response o (Some (fst x))) in
  ret (202, r).

(** the route [hangup] *)
Definition hangup_route (now : datetime) (operation_id : UUID) (m : MutationRequest) (headers : Headers) : M S (Z * jdict) :=
  let! p := lift_outcome (route_principal "hangup" headers) in
  let! correlation := lift_outcome (route_headers (mr_idempotency_key m) headers) in
  let! x := call_get p operation_id in
  if negb (String.eqb correlation (env_correlation_id (fst x)))
  then raise RequestValidationError "hangup must preserve the calling correlation ID"
  else
  let! action := call_hangup pols now p operation_id (mr_idempotency_key m) (mr_expected_version m) (mr_reason m) in
  let! r := lift_outcome (operation_response (snd x) None) in
  ret (if op_duplicate action then 200 else 202,
       dict_merge r [("hangup_operation_id", JStr (uuid_str (command_id (op_command action))));
                     ("hangup_state", JStr (state_name (op_state action)));
                     ("reason", JStr "hangup requested; terminal provider confirmation is still required");
                     ("duplicate", JBool (op_duplicate action))]).
End Routes.

(** ** The adapter

    What an adapter is asked and answers ([src/app/temporal_workflows.py]). *)

Record ActivityResult := {
  ar_status : string;
  ar_detail : string;
  ar_provider_operation_id : option string;
  ar_readback_evidence : option jdict;
}.
Definition result (status detail : string) : ActivityResult :=
  {| ar_status := status; ar_detail := detail; ar_provider_operation_id := None; ar_readback_evidence := None |}.

Record CommandExecutionRequest := {
  rq_command_id : string;
  rq_command_type : string;
  rq_command_version : string;
  rq_target : string;
  rq_tenant_id : string;
  rq_requested_by : string;
  rq_correlation_id : string;
  rq_idempotency_key : string;
  rq_capability : string;
  rq_payload : jdict;
  rq_authenticated_client_id : string;
  rq_resume_from_queued : bool;
}.

(** a request of the executor ("Server B"), and what comes back: nothing that
    can be read, or a response with its body *)
Record WireRequest := { wr_method : string; wr_path : string; wr_document : option jdict; wr_scope : string; wr_idempotency_key : string }.
Inductive Wire := wire_lost | wire_response (status declared_length : Z) (raw : string).

Definition unknown_outcome {A} (msg : string) : outcome A := Exc (Exn VicidialInternalCallUnknown msg).
Definition call_error {A} (msg : string) : outcome A := Exc (Exn VicidialInternalCallError msg).
Definition rejected_before_dispatch {A} (msg : string) : outcome A := Exc (Exn VicidialInternalCallPreDispatchRejected msg).

Section Adapter.
Context (zone_exists : string -> bool) (aware : json -> option AwareDatetime).
Context {S : Type}.
(* whether the request can be built and signed; sending it; [json.loads]; the grant and the clock *)
Context (prepared : WireRequest -> bool) (send : WireRequest -> M S Wire) (json_loads : string -> option json).
Context (grant : outcome (option CallingGrant)) (source_sha : string) (clock : instant).

(** what a response tells *)
Definition read_wire (conclusive_denials : list string) (w : Wire) : outcome jdict :=
  match w with
  | wire_lost => unknown_outcome "Server B mutation/readback outcome is unknown"
  | wire_response status declared raw =>
      if (65536 <? declared) || (65536 <? Z.of_nat (String.length raw)) then unknown_outcome "Server B response exceeded the bounded size"
      else if (300 <=? status) && (status <? 400) then unknown_outcome "Server B redirected the bounded request"
      else if 500 <=? status then unknown_outcome "Server B did not return a conclusive outcome"
      else if 400 <=? status then
        let detail := match json_loads raw with Some (JObj d) => get_str "detail" d | _ => None end in
        if (status =? 403) && match detail with Some s => mem_string s conclusive_denials | None => false end
        then rejected_before_dispatch "Server B conclusively rejected originate before AMI dispatch"
        else call_error ("Server B rejected the bounded request (" +:+ pretty status +:+ ")")
      else match json_loads raw with
           | Some (JObj d) => Ret d
           | _ => unknown_outcome "Server B response was malformed"
           end
  end.

(** [_request] *)
Definition wire_request (q : WireRequest) (reject_preparation : bool) (conclusive_denials : list string) : M S jdict :=
  if negb (prepared q)
  then lift_outcome ((if reject_preparation then rejected_before_dispatch else call_error) "bounded Server B request preparation failed")
  else let! w := send q in lift_outcome (read_wire conclusive_denials w).

Definition keys_are (names : list string) (d : jdict) : bool :=
  no_extra names d && forallb (fun k => bool_decide (is_Some (dict_get k d))) names.

(** [_originate]: the document to send, decided with the grant of the moment *)
Definition originate_document (q : CommandExecutionRequest) : outcome jdict :=
  if negb (bool_decide ((rq_target q, rq_command_type q, rq_command_version q, rq_capability q, rq_authenticated_client_id q) =
                        (TARGET, ORIGINATE, "1.0", CAPABILITY, CLIENT_ID)))
  then rejected_before_dispatch "command provenance is outside bounded calling"
  else if negb (keys_are ["actor"; "originate"; "authorization_reference"; "policy_sha256"] (rq_payload q))
  then rejected_before_dispatch "calling payload shape is not canonical"
  else
  let parsed :=
    let? p := principal_validate (default JNull (dict_get "actor" (rq_payload q))) in
    match dict_get "originate" (rq_payload q) with
    | Some (JObj d) =>
        let? b := originate_validate zone_exists (dict_set "idempotency_key" (JStr (rq_idempotency_key q)) d) in Ret (p, b)
    | _ => Exc (Exn TypeError "unsupported operand type(s) for |")
    end in
  match parsed with
  | Exc _ => rejected_before_dispatch "calling identity or request is invalid"
  | Ret (p, b) =>
      match grant with
      | Exc _ => rejected_before_dispatch "dispatch-time calling policy is unavailable or invalid"
      | Ret None => rejected_before_dispatch "dispatch-time calling policy is unavailable or changed"
      | Ret (Some g) =>
          if negb (same_as (grant_digest g) "policy_sha256" (rq_payload q))
          then rejected_before_dispatch "dispatch-time calling policy is unavailable or changed"
          else match grant_authorize g p b source_sha clock with
          | Exc _ => rejected_before_dispatch "dispatch-time calling policy rejected the command"
          | Ret _ =>
              if negb (String.eqb (cp_extension p) "6901") || negb (String.eqb (cp_campaign_id p) "TEST_SYN") ||
                 negb (String.eqb (or_destination b) "internal:TEST_ECHO")
              then rejected_before_dispatch "identity or route is outside Appolon internal calling"
              else Ret [("operation_id", JStr (rq_command_id q)); ("correlation_id", JStr (rq_correlation_id q));
                        ("tenant_id", JStr (cp_tenant_id p)); ("subject", JStr (cp_subject p));
                        ("employee_id", JStr (cp_employee_id p)); ("username", JStr "appolon");
                        ("extension", JStr "6901"); ("campaign", JStr "TEST_SYN");
                        ("destination", JStr "internal:TEST_ECHO"); ("internal_only", JBool true);
                        ("external_dialing", JBool false); ("recording_requested", JBool false);
                        ("authorization_reference", JStr (gr_authorization_reference g))]
          end
      end
  end.

Definition nonblank (v : option json) : option string :=
  match v with Some (JStr s) => if str_nonempty (Principal.strip s) then Some s else None | _ => None end.

Definition execute_originate (q : CommandExecutionRequest) : M S ActivityResult :=
  let! document := lift_outcome (originate_document q) in
  let! value := wire_request {| wr_method := "POST"; wr_path := "/v1/calls/internal/originate"; wr_document := Some document;
                                wr_scope := "telephony:internal-call"; wr_idempotency_key := rq_command_id q |}
                  true ["internal call authorization expired"] in
  match get_str "status" value, nonblank (dict_get "asterisk_uniqueid" value) with
  | Some status, Some uniqueid =>
      if same_as (rq_command_id q) "operation_id" value && mem_string status ["accepted"; "dispatch_unknown"]
      then ret {| ar_status := status; ar_detail := "bounded originate submitted"; ar_provider_operation_id := Some uniqueid;
                  ar_readback_evidence := None |}
      else lift_outcome (unknown_outcome "Server B originate acknowledgement was invalid")
  | _, _ => lift_outcome (unknown_outcome "Server B originate acknowledgement was invalid")
  end.

(** [str(request.payload.get("origin_operation_id", ""))] *)
Definition origin_text (payload : jdict) : string :=
  match dict_get "origin_operation_id" payload with Some v => py_str v | None => "" end.

Definition HANGUP_KEYS : list string :=
  ["actor"; "originate"; "origin_operation_id"; "call_id"; "authorization_reference"; "policy_sha256"; "reason"].

(** the checks of a hangup: the call it is for and its actor *)
Definition hangup_binding (q : CommandExecutionRequest) : outcome (string * CallPrincipal) :=
  if negb (bool_decide ((rq_target q, rq_command_version q, rq_capability q, rq_authenticated_client_id q) =
                        (TARGET, "1.0", CAPABILITY, CLIENT_ID)))
  then call_error "hangup provenance is outside bounded calling"
  else
  let original := origin_text (rq_payload q) in
  if negb (str_nonempty original) || negb (keys_are HANGUP_KEYS (rq_payload q))
  then call_error "hangup payload shape is not canonical"
  else
  let parsed :=
    let? actor := principal_validate (default JNull (dict_get "actor" (rq_payload q))) in
    match dict_get "originate" (rq_payload q), uuid_parse original with
    | Some (JObj d), Some _ =>
        let? b := originate_validate zone_exists (dict_set "idempotency_key" (JStr original) d) in Ret (actor, b)
    | _, _ => Exc (Exn ValueError "badly formed")
    end in
  match parsed with
  | Exc _ => call_error "hangup identity or original request is invalid"
  | Ret (actor, b) =>
      if negb (String.eqb (rq_tenant_id q) (cp_tenant_id actor)) || negb (String.eqb (rq_requested_by q) (cp_subject actor)) ||
         negb (String.eqb (cp_extension actor) "6901") || negb (String.eqb (cp_campaign_id actor) "TEST_SYN") ||
         negb (String.eqb (or_employee_id b) (cp_employee_id actor)) || negb (String.eqb (or_campaign b) (cp_campaign_id actor)) ||
         negb (String.eqb (or_business_unit b) (cp_business_unit actor)) ||
         negb (String.eqb (or_destination b) "internal:TEST_ECHO") || negb (String.eqb (or_destination_class b) "internal_test") ||
         or_recording_requested b || negb (str_nonempty (Principal.strip (py_str (default JNull (dict_get "call_id" (rq_payload q))))))
      then call_error "hangup binding is outside the authorized call"
      else Ret (original, actor)
  end.

Definition execute_hangup (q : CommandExecutionRequest) : M S ActivityResult :=
  let! x := lift_outcome (hangup_binding q) in
  let (original, actor) := x in
  let! value := wire_request {| wr_method := "POST"; wr_path := "/v1/calls/internal/" +:+ original +:+ "/hangup"; wr_document := Some [];
                                wr_scope := "telephony:internal-call-hangup"; wr_idempotency_key := original +:+ ":hangup" |}
                  false [] in
  let item k d := default JNull (dict_get k d) in
  if negb (same_as original "operation_id" value) || negb (same_as (rq_correlation_id q) "correlation_id" value) ||
     negb (py_eqb (item "asterisk_uniqueid" value) (item "call_id" (rq_payload q))) ||
     negb (same_as (rq_tenant_id q) "tenant_id" value) || negb (same_as (cp_subject actor) "subject" value) ||
     negb (same_as (cp_employee_id actor) "employee_id" value) || negb (same_as (cp_extension actor) "extension" value) ||
     negb (same_as (cp_campaign_id actor) "campaign" value) ||
     negb (bool_decide (is_Some (is_bool true "internal_only" value))) || negb (bool_decide (is_Some (is_bool false "external_dialing" value))) ||
     negb (py_eqb (item "authorization_reference" value) (item "authorization_reference" (rq_payload q)))
  then lift_outcome (unknown_outcome "Server B hangup acknowledgement was invalid")
  else match get_str "hangup" value with
       | Some h =>
           if mem_string h ["requested"; "dispatch_unknown"; "already_terminal"]
           then ret {| ar_status := if String.eqb h "dispatch_unknown" then "dispatch_unknown" else "accepted";
                       ar_detail := "bounded same-call hangup submitted";
                       ar_provider_operation_id := get_str "asterisk_uniqueid" value; ar_readback_evidence := None |}
           else lift_outcome (unknown_outcome "Server B hangup acknowledgement was invalid")
       | None => lift_outcome (unknown_outcome "Server B hangup acknowledgement was invalid")
       end.

(** [execute] *)
Definition vicidial_execute (q : CommandExecutionRequest) : M S ActivityResult :=
  if String.eqb (rq_command_type q) ORIGINATE then execute_originate q
  else if String.eqb (rq_command_type q) HANGUP then execute_hangup q
  else lift_outcome (call_error "unsupported bounded calling command").

(** [readback] *)
Definition vicidial_readback (q : CommandExecutionRequest) : M S ActivityResult :=
  let original := if String.eqb (rq_command_type q) ORIGINATE then rq_command_id q else origin_text (rq_payload q) in
  let! value := wire_request {| wr_method := "GET"; wr_path := "/v1/calls/internal/" +:+ original; wr_document := None;
                                wr_scope := "telephony:internal-call-read"; wr_idempotency_key := "" |} false [] in
  let parsed :=
    let? e := evidence_validate aware (JObj value) in
    match dict_get "actor" (rq_payload q) with
    | Some v => let? actor := principal_validate v in Ret (e, actor)
    | None => Exc (Exn KeyError "actor")
    end in
  match parsed with
  | Exc _ => lift_outcome (call_error "Server B evidence contract is invalid")
  | Ret (e, actor) =>
      if negb (String.eqb (ev_operation_id e) original) || negb (String.eqb (ev_correlation_id e) (rq_correlation_id q)) ||
         negb (String.eqb (ev_tenant_id e) (rq_tenant_id q)) || negb (String.eqb (ev_subject e) (cp_subject actor)) ||
         negb (String.eqb (ev_employee_id e) (cp_employee_id actor)) || negb (String.eqb (ev_extension e) (cp_extension actor)) ||
         negb (String.eqb (ev_campaign e) (cp_campaign_id actor)) ||
         negb (same_as (ev_authorization_reference e) "authorization_reference" (rq_payload q)) ||
         (String.eqb (rq_command_type q) HANGUP && negb (same_as (ev_asterisk_uniqueid e) "call_id" (rq_payload q)))
      then lift_outcome (call_error "Server B evidence binding mismatch")
      else
      let terminal := ev_terminal e && mem_string (ev_call_state e) TERMINAL_CALL_STATES in
      if terminal && (bool_decide (ev_ended_at e = None) || bool_decide (truthy_str (ev_linkedid e) = None) ||
                      bool_decide (ev_duration_seconds e = None) || match ev_evidence e with Some (_ :: _) => false | _ => true end)
      then lift_outcome (call_error "Server B terminal evidence is incomplete")
      else ret {| ar_status := if terminal then "matched" else "mismatch";
                  ar_detail := if terminal then "terminal call evidence verified" else "call remains nonterminal or unknown";
                  ar_provider_operation_id := Some (ev_asterisk_uniqueid e); ar_readback_evidence := Some (evidence_dump e) |}
  end.
End Adapter.
