(* ===== verification/Temporal.v ===== *)
(** * Durable execution

    [src/app/temporal_workflows.py], [src/app/temporal_activities.py] and
    [src/app/temporal_transport.py]: how a command that reached the outbox is
    started as a workflow, executed once, read back and completed, or left for
    reconciliation.

    A workflow is a program over its activity calls ([Wf]): Temporal replays it
    against the recorded results, so it is a function of them.  An activity is an
    operation on the tables of [PgLedger].  The server runs an activity at least
    once: an attempt may not run, may run and lose its answer, or deliver it. *)

From stdpp Require Import pretty.
From Stdlib Require Import Ascii.
From S2P Require Import Prelude Json PyValue Clock Sha256 Uuid Commands LedgerSpec Ledger.
From S2P Require Import Canary Outbox PgLedger Calling.
Local Open Scope Z_scope.

(** ** Evidence of a provider canary ([src/app/provider_canary.py]) *)

Definition FINGERPRINT (s : string) : bool :=
  starts_with "sha256:" s && (String.length s =? 71)%nat && str_forallb is_hex (String.substring 7 64 s).
Definition SAFE_REFERENCE (s : string) : bool :=
  len_between 1 512 s && str_forallb (fun c => is_alnum c || one_of "._:/-" c) s.
Definition LOCAL_PROVIDER_NAMES : list string := ["fake"; "internal"; "local"; "mock"; "simulator"].
(** [^[a-z][a-z0-9._-]{1,63}$] *)
Definition provider_name (s : string) : bool :=
  len_between 2 64 s && first_then (char_in 97 122) (fun c => is_lower_alnum c || one_of "._-" c) s.

Record ProviderReadbackEvidence := {
  pe_channel : CanaryChannel;
  pe_provider : string;
  pe_reference : string;
  pe_terminal_status : string;
  pe_observed_at : AwareDatetime;
  pe_source : EvidenceSource;
  pe_destination_fingerprint : string;
  pe_payload_fingerprint : string;
  pe_facts : jdict;
}.

Definition channel_name (c : CanaryChannel) : string :=
  match c with email => "email" | sms => "sms" | voice => "voice" | social => "social" end.
Definition source_name (s : EvidenceSource) : string :=
  match s with provider_api => "provider_api" | provider_webhook => "provider_webhook" | provider_cdr => "provider_cdr" end.
Definition channel_of (s : string) : option CanaryChannel :=
  List.find (fun c => String.eqb (channel_name c) s) [email; sms; voice; social].
Definition source_of (s : string) : option EvidenceSource :=
  List.find (fun c => String.eqb (source_name c) s) [provider_api; provider_webhook; provider_cdr].

Definition channel_facts (c : CanaryChannel) : list string :=
  match c with
  | email => ["delivery_event_id"; "delivery_status"; "provider_message_id"; "recipient_fingerprint"; "occurred_at"]
  | sms => ["delivery_receipt_id"; "delivery_status"; "provider_message_id"; "destination_fingerprint"; "occurred_at"]
  | voice => ["cdr_id"; "disposition"; "duration_seconds"; "hangup_cause"; "destination_fingerprint"; "occurred_at"]
  | social => ["post_id"; "account_reference_fingerprint"; "content_fingerprint"; "publication_state"; "occurred_at"]
  end.

Definition ends_with (suffix s : string) : bool :=
  String.eqb (String.substring (String.length s - String.length suffix) (String.length suffix) s) suffix.
Definition upper_ascii (c : ascii) : ascii :=
  if char_in 97 122 c then ascii_of_nat (nat_of_ascii c - 32) else c.
Fixpoint str_upper (s : string) : string :=
  match s with EmptyString => EmptyString | String c s' => String (upper_ascii c) (str_upper s') end.

(** one fact by the kind its name gives it *)
Definition fact_ok (kv : string * json) : bool :=
  if ends_with "_fingerprint" (fst kv) then match snd kv with JStr s => FINGERPRINT s | _ => false end
  else if String.eqb (fst kv) "duration_seconds" then match snd kv with JInt z => 0 <? z | _ => false end
  else match snd kv with JStr s => len_between 1 512 s | _ => false end.

Definition fact_is (k value : string) (facts : jdict) : bool :=
  match dict_get k facts with Some (JStr s) => String.eqb s value | _ => false end.

Section Evidence.
(* [datetime.fromisoformat] of an aware text *)
Context (iso_instant : string -> option instant) (aware : json -> option AwareDatetime).

(** the facts that tie a channel's evidence to its provider and intent *)
Definition channel_bound (e : ProviderReadbackEvidence) : bool :=
  let says k v := fact_is k v (pe_facts e) in
  match pe_channel e with
  | email =>
      String.eqb (pe_provider e) "postal" && bool_decide (pe_source e ∈ [provider_api; provider_webhook]) &&
      says "delivery_status" (pe_terminal_status e) && says "provider_message_id" (pe_reference e) &&
      says "recipient_fingerprint" (pe_destination_fingerprint e)
  | sms =>
      String.eqb (pe_provider e) "jasmin" && bool_decide (pe_source e ∈ [provider_api; provider_webhook]) &&
      says "delivery_status" (pe_terminal_status e) && says "provider_message_id" (pe_reference e) &&
      says "destination_fingerprint" (pe_destination_fingerprint e)
  | voice =>
      String.eqb (pe_provider e) "vicidial" && bool_decide (pe_source e = provider_cdr) && says "cdr_id" (pe_reference e) &&
      match dict_get "disposition" (pe_facts e) with
      | Some (JStr s) => mem_string (str_upper s) ["ANSWER"; "ANSWERED"; "COMPLETED"] | _ => false end &&
      says "destination_fingerprint" (pe_destination_fingerprint e)
  | social =>
      negb (mem_string (pe_provider e) LOCAL_PROVIDER_NAMES) && bool_decide (pe_source e = provider_api) &&
      says "publication_state" (pe_terminal_status e) && says "post_id" (pe_reference e) &&
      says "account_reference_fingerprint" (pe_destination_fingerprint e) && says "content_fingerprint" (pe_payload_fingerprint e)
  end.

(** [require_channel_facts] *)
Definition require_channel_facts (e : ProviderReadbackEvidence) : bool :=
  keys_are (channel_facts (pe_channel e)) (pe_facts e) && forallb fact_ok (pe_facts e) &&
  match get_str "occurred_at" (pe_facts e) ≫= iso_instant with
  | Some t => t <=? ad_instant (pe_observed_at e)
  | None => false
  end && channel_bound e.

Definition PROVIDER_EVIDENCE_FIELDS : list string :=
  ["schema_version"; "channel"; "provider"; "provider_reference"; "terminal_status"; "observed_at"; "source";
   "destination_fingerprint"; "payload_fingerprint"; "facts"].

(** [ProviderReadbackEvidence.model_validate] *)
Definition provider_evidence_validate (v : json) : outcome ProviderReadbackEvidence :=
  match v with
  | JObj d =>
      let parsed :=
        sv ← get_str "schema_version" d; ch ← get_str "channel" d ≫= channel_of; pr ← get_str "provider" d;
        rf ← get_str "provider_reference" d; ts ← get_str "terminal_status" d; ob ← dict_get "observed_at" d ≫= aware;
        so ← get_str "source" d ≫= source_of; df ← get_str "destination_fingerprint" d; pf ← get_str "payload_fingerprint" d;
        fa ← dict_get "facts" d ≫= read_dict;
        Some (sv, Build_ProviderReadbackEvidence ch pr rf ts ob so df pf fa) in
      match parsed with
      | Some (sv, e) =>
          if no_extra PROVIDER_EVIDENCE_FIELDS d && String.eqb sv "1.0" && provider_name (pe_provider e) &&
             SAFE_REFERENCE (pe_reference e) && provider_name (pe_terminal_status e) &&
             FINGERPRINT (pe_destination_fingerprint e) && FINGERPRINT (pe_payload_fingerprint e) && require_channel_facts e
          then Ret e else invalid_model
      | None => invalid_model
      end
  | _ => invalid_model
  end.

Definition provider_evidence_dump (e : ProviderReadbackEvidence) : jdict :=
  [("schema_version", JStr "1.0"); ("channel", JStr (channel_name (pe_channel e))); ("provider", JStr (pe_provider e));
   ("provider_reference", JStr (pe_reference e)); ("terminal_status", JStr (pe_terminal_status e));
   ("observed_at", JStr (ad_text (pe_observed_at e))); ("source", JStr (source_name (pe_source e)));
   ("destination_fingerprint", JStr (pe_destination_fingerprint e)); ("payload_fingerprint", JStr (pe_payload_fingerprint e));
   ("facts", JObj (pe_facts e))].

(** [validate_provider_canary_evidence], with [require_success] *)
Definition validate_provider_canary_evidence (v : json) (tgt destination_fingerprint payload_fingerprint : string) :
    outcome ProviderReadbackEvidence :=
  match dict_get tgt TARGET_CHANNELS with
  | None => Exc (Exn ValueError (tgt +:+ " is not a provider-canary target"))
  | Some channel =>
      let? e := provider_evidence_validate v in
      if negb (bool_decide (pe_channel e = channel)) then Exc (Exn ValueError "read-back channel does not match connector target")
      else if negb (String.eqb (pe_destination_fingerprint e) destination_fingerprint)
      then Exc (Exn ValueError "read-back destination fingerprint does not match command intent")
      else if negb (String.eqb (pe_payload_fingerprint e) payload_fingerprint)
      then Exc (Exn ValueError "read-back payload fingerprint does not match command intent")
      else if negb (mem_string (pe_terminal_status e) (SUCCESS_STATUSES channel))
      then Exc (Exn ValueError (channel_name channel +:+ " canary did not reach a successful provider terminal status"))
      else Ret e
  end.
End Evidence.

(** ** Requests ([src/app/temporal_workflows.py]) *)

Record WorkflowOutcome := { wo_operation_id : string; wo_workflow_type : string; wo_status : string; wo_detail : string }.
Record ReconciliationRequest := { rc_operation_id : string; rc_tenant_id : string; rc_reason : string }.
Record DelayedCallbackRequest := { dc_operation_id : string; dc_tenant_id : string; dc_callback_id : string; dc_delay_seconds : Z }.
Record ProvisioningRequest := { pv_operation_id : string; pv_tenant_id : string; pv_principal_id : string; pv_products : list string }.
Record ProvisioningStepRequest := { ps_operation_id : string; ps_tenant_id : string; ps_principal_id : string; ps_product : option string }.
Record DeadLetterRecoveryRequest := { dr_operation_id : string; dr_tenant_id : string; dr_dead_letter_id : string }.
Record DeadLetterApproval := { da_operator_id : string; da_reason : string; da_approved : bool }.
Record DeadLetterReplayRequest := {
  dp_operation_id : string; dp_tenant_id : string; dp_dead_letter_id : string; dp_operator_id : string; dp_approval_reason : string }.
Record CommandTransitionRequest := {
  tr_command_id : string;
  tr_tenant_id : string;
  tr_new_state : CommandState;
  tr_actor_id : string;
  tr_reason : string;
  tr_provider_operation_id : option string;
  tr_readback_evidence : option jdict;
}.
Record OriginalCallCompletionRequest := { oc_hangup_command_id : string; oc_tenant_id : string; oc_readback_evidence : jdict }.

(** the activities, by name and request *)
Inductive ActivityCall :=
  | record_command_transition (r : CommandTransitionRequest)
  | execute_command (q : CommandExecutionRequest)
  | readback_command (q : CommandExecutionRequest)
  | recover_call_execution (q : CommandExecutionRequest)
  | reconcile_operation (r : ReconciliationRequest)
  | complete_originating_call (r : OriginalCallCompletionRequest)
  | dispatch_delayed_callback (r : DelayedCallbackRequest)
  | provision_identity (r : ProvisioningStepRequest)
  | provision_product (r : ProvisioningStepRequest)
  | verify_provisioning (r : ProvisioningStepRequest)
  | compensate_provisioning (r : ProvisioningStepRequest)
  | replay_dead_letter (r : DeadLetterReplayRequest).

(** [retry_policy.maximum_attempts] *)
Definition maximum_attempts (c : ActivityCall) : nat := match c with execute_command _ => 1 | _ => 5 end.

(** ** Workflow programs *)

Inductive Wf (A : Type) :=
  | Done (o : outcome A)
  | Do (c : ActivityCall) (k : outcome ActivityResult -> Wf A)
  | Sleep (delay : Z) (k : Wf A)
  | Await (k : DeadLetterApproval -> Wf A).
Arguments Done {A} o.
Arguments Do {A} c k.
Arguments Sleep {A} delay k.
Arguments Await {A} k.

Fixpoint wf_bind {A B} (m : Wf A) (k : A -> Wf B) : Wf B :=
  match m with
  | Done (Ret a) => k a
  | Done (Exc e) => Done (Exc e)
  | Do c f => Do c (fun r => wf_bind (f r) k)
  | Sleep d m' => Sleep d (wf_bind m' k)
  | Await f => Await (fun x => wf_bind (f x) k)
  end.
(** [try: m except p as e: h e] *)
Fixpoint wf_catch {A} (p : exn -> bool) (m : Wf A) (h : exn -> Wf A) : Wf A :=
  match m with
  | Done (Ret a) => Done (Ret a)
  | Done (Exc e) => if p e then h e else Done (Exc e)
  | Do c f => Do c (fun r => wf_catch p (f r) h)
  | Sleep d m' => Sleep d (wf_catch p m' h)
  | Await f => Await (fun x => wf_catch p (f x) h)
  end.
Notation "'do!' x ':=' m 'in' k" := (wf_bind m (fun x => k))
  (at level 200, x name, m at level 100, k at level 200, right associativity) : py_scope.
Notation "m '!;;' k" := (wf_bind m (fun _ => k)) (at level 199, right associativity) : py_scope.

Definition wret {A} (a : A) : Wf A := Done (Ret a).
Definition activity (c : ActivityCall) : Wf ActivityResult := Do c Done.
Definition activity_error (e : exn) : bool := isinstance e ["ActivityError"].

Definition app_error (type msg : string) : exn := Exn (ApplicationError type true) msg.

(** [_require_identity], of ASCII text, whose characters are its bytes *)
Definition require_identity (value label : string) : outcome unit :=
  if negb (str_nonempty value) || (180 <? String.length value)%nat
  then Exc (app_error "" (label +:+ " must contain 1-180 characters")) else Ret tt.
Definition identity (value label : string) : Wf unit := Done (require_identity value label).

Definition outcome_as (operation type : string) (r : ActivityResult) : WorkflowOutcome := {|
  wo_operation_id := operation; wo_workflow_type := type; wo_status := ar_status r; wo_detail := ar_detail r |}.

(** [ReconciliationWorkflow.run] *)
Definition reconciliation_workflow (r : ReconciliationRequest) : Wf WorkflowOutcome :=
  identity (rc_operation_id r) "operation_id" !;;
  identity (rc_tenant_id r) "tenant_id" !;;
  do! x := activity (reconcile_operation r) in
  wret (outcome_as (rc_operation_id r) "reconciliation" x).

(** [DelayedCallbackWorkflow.run] *)
Definition delayed_callback_workflow (r : DelayedCallbackRequest) : Wf WorkflowOutcome :=
  identity (dc_operation_id r) "operation_id" !;;
  identity (dc_tenant_id r) "tenant_id" !;;
  identity (dc_callback_id r) "callback_id" !;;
  if (dc_delay_seconds r <? 0) || (2592000 <? dc_delay_seconds r)
  then Done (Exc (app_error "" "delay_seconds must be between 0 and 2592000"))
  else Sleep (dc_delay_seconds r) (
    do! x := activity (dispatch_delayed_callback r) in
    wret (outcome_as (dc_operation_id r) "delayed_callback" x)).

(** [ProvisioningWorkflow.run]: the products provisioned so far are known to the
    handler, so the loop hands them on when an activity fails *)
Definition step_request (r : ProvisioningRequest) (product : option string) : ProvisioningStepRequest := {|
  ps_operation_id := pv_operation_id r; ps_tenant_id := pv_tenant_id r; ps_principal_id := pv_principal_id r; ps_product := product |}.

(** [",".join(completed_products) or None] *)
Definition joined (products : list string) : option string := truthy_str (Some (join "," products)).

Definition compensate (r : ProvisioningRequest) (completed : list string) (e : exn) : Wf WorkflowOutcome :=
  activity (compensate_provisioning (step_request r (joined completed))) !;;
  wret {| wo_operation_id := pv_operation_id r; wo_workflow_type := "provisioning"; wo_status := "failed_compensated";
          wo_detail := exn_msg e |}.

Fixpoint provision_products (r : ProvisioningRequest) (completed products : list string) : Wf WorkflowOutcome :=
  match products with
  | [] => Do (verify_provisioning (step_request r None)) (fun x =>
      match x with
      | Ret x => wret (outcome_as (pv_operation_id r) "provisioning" x)
      | Exc e => if activity_error e then compensate r completed e else Done (Exc e)
      end)
  | p :: products' =>
      identity p "product" !;;
      Do (provision_product (step_request r (Some p))) (fun x =>
        match x with
        | Ret _ => provision_products r (completed ++ [p]) products'
        | Exc e => if activity_error e then compensate r completed e else Done (Exc e)
        end)
  end.

Definition provisioning_workflow (r : ProvisioningRequest) : Wf WorkflowOutcome :=
  identity (pv_operation_id r) "operation_id" !;;
  identity (pv_tenant_id r) "tenant_id" !;;
  identity (pv_principal_id r) "principal_id" !;;
  if bool_decide (pv_products r = []) || (32 <? length (pv_products r))%nat
  then Done (Exc (app_error "" "products must contain 1-32 entries"))
  else Do (provision_identity (step_request r None)) (fun x =>
    match x with
    | Ret _ => provision_products r [] (pv_products r)
    | Exc e => if activity_error e then compensate r [] e else Done (Exc e)
    end).

(** the signal [approve]: what it leaves in [_approval], the last one wins *)
Definition approve (a : DeadLetterApproval) : outcome DeadLetterApproval :=
  match require_identity (da_operator_id a) "operator_id", require_identity (da_reason a) "reason" with
  | Ret _, Ret _ => Ret a
  | Exc e, _ | _, Exc e => Exc e
  end.
(** [approval_status] *)
Definition approval_status (a : option DeadLetterApproval) : string :=
  match a with None => "awaiting_approval" | Some a => if da_approved a then "approved" else "denied" end.

(** [DeadLetterRecoveryWorkflow.run] *)
Definition dead_letter_workflow (r : DeadLetterRecoveryRequest) : Wf WorkflowOutcome :=
  identity (dr_operation_id r) "operation_id" !;;
  identity (dr_tenant_id r) "tenant_id" !;;
  identity (dr_dead_letter_id r) "dead_letter_id" !;;
  Await (fun a =>
    if negb (da_approved a)
    then wret {| wo_operation_id := dr_operation_id r; wo_workflow_type := "dead_letter_recovery"; wo_status := "denied";
                 wo_detail := "operator denied replay" |}
    else
    do! x := activity (replay_dead_letter {| dp_operation_id := dr_operation_id r; dp_tenant_id := dr_tenant_id r;
      dp_dead_letter_id := dr_dead_letter_id r; dp_operator_id := da_operator_id a; dp_approval_reason := da_reason a |}) in
    wret (outcome_as (dr_operation_id r) "dead_letter_recovery" x)).

(** ** The execution of a command *)

Section Workflows.
Context (iso_instant : string -> option instant) (aware : json -> option AwareDatetime).

Definition calling (q : CommandExecutionRequest) : bool :=
  String.eqb (rq_target q) TARGET && mem_string (rq_command_type q) [ORIGINATE; HANGUP].
Definition bounded_originate (q : CommandExecutionRequest) : bool :=
  String.eqb (rq_target q) TARGET && String.eqb (rq_command_type q) ORIGINATE.

Definition EXECUTION_ACTOR := "temporal:codestra.command-execution.v1".
Definition transition_request (q : CommandExecutionRequest) (st : CommandState) (reason : string) (provider : option string)
    (evidence : option jdict) : CommandTransitionRequest := {|
  tr_command_id := rq_command_id q; tr_tenant_id := rq_tenant_id q; tr_new_state := st; tr_actor_id := EXECUTION_ACTOR;
  tr_reason := reason; tr_provider_operation_id := provider; tr_readback_evidence := evidence |}.
(** [_command_transition] *)
Definition command_transition (q : CommandExecutionRequest) (st : CommandState) (reason : string) (provider : option string)
    (evidence : option jdict) : Wf ActivityResult :=
  activity (record_command_transition (transition_request q st reason provider evidence)).

Definition executed_as (q : CommandExecutionRequest) (status detail : string) : WorkflowOutcome := {|
  wo_operation_id := rq_command_id q; wo_workflow_type := "command_execution"; wo_status := status; wo_detail := detail |}.

(** the transition to [reconciliation_required] and the outcome that goes with it *)
Definition park (q : CommandExecutionRequest) (reason : string) (provider : option string) (evidence : option jdict) (detail : string) :
    Wf WorkflowOutcome :=
  command_transition q reconciliation_required reason provider evidence !;;
  wret (executed_as q "reconciliation_required" detail).

(** what the evidence of a call must be bound to; [KeyError] for a missing field *)
Definition call_binding (q : CommandExecutionRequest) (provider : option string) : outcome EvidenceBinding :=
  let item k := match dict_get k (rq_payload q) with Some v => Ret v | None => Exc (Exn KeyError k) end in
  let? original := (if String.eqb (rq_command_type q) ORIGINATE then Ret (rq_command_id q)
                    else let? v := item "origin_operation_id" in Ret (py_str v)) in
  let? actor := item "actor" in
  let? authorization := item "authorization_reference" in
  Ret {| eb_operation_id := original; eb_correlation_id := rq_correlation_id q; eb_tenant_id := rq_tenant_id q;
         eb_actor := actor; eb_authorization_reference := authorization; eb_provider_operation_id := provider |}.
Definition evidence_json (o : option jdict) : json := match o with Some d => JObj d | None => JNull end.
Definition observed_call (q : CommandExecutionRequest) (provider : option string) (evidence : option jdict) (require_terminal : bool) :
    outcome jdict :=
  let? b := call_binding q provider in
  validate_call_evidence aware (evidence_json evidence) b require_terminal.
(** [except (KeyError, TypeError, ValueError)] *)
Definition contract_refusal (e : exn) : bool := isinstance e ["KeyError"; "TypeError"; "ValueError"].

(** the canary's evidence, from the fingerprints of the command's payload *)
Definition canary_evidence (q : CommandExecutionRequest) (canary : jdict) (evidence : option jdict) : outcome jdict :=
  if negb (fact_is "schema_version" "1.0" canary) then Exc (Exn ValueError "canary schema_version must be 1.0")
  else match dict_get "destination_fingerprint" canary, dict_get "payload_fingerprint" canary with
       | Some d, Some p =>
           let? e := validate_provider_canary_evidence iso_instant aware (evidence_json evidence) (rq_target q) (py_str d) (py_str p) in
           Ret (provider_evidence_dump e)
       | None, _ => Exc (Exn KeyError "destination_fingerprint")
       | _, None => Exc (Exn KeyError "payload_fingerprint")
       end.

(** the last transition: completed with what was validated *)
Definition complete (q : CommandExecutionRequest) (executed readback : ActivityResult) (evidence : option jdict) : Wf WorkflowOutcome :=
  command_transition q completed "provider read-back matched durable command intent" (ar_provider_operation_id executed) evidence !;;
  wret (executed_as q "completed" (ar_detail readback)).

(** after a read-back that matched *)
Definition confirm (q : CommandExecutionRequest) (executed readback : ActivityResult) : Wf WorkflowOutcome :=
  let provider := ar_provider_operation_id executed in
  if calling q then
    match observed_call q provider (ar_readback_evidence readback) true with
    | Ret evidence =>
        (if String.eqb (rq_command_type q) HANGUP
         then activity (complete_originating_call {| oc_hangup_command_id := rq_command_id q; oc_tenant_id := rq_tenant_id q;
                          oc_readback_evidence := evidence |}) !;; wret tt
         else wret tt) !;;
        complete q executed readback (Some evidence)
    | Exc e =>
        if contract_refusal e
        then park q ("terminal calling evidence was missing or invalid: " +:+ exn_msg e) provider None
               "terminal calling evidence did not satisfy the bounded contract"
        else Done (Exc e)
    end
  else match dict_get (rq_target q) TARGET_CHANNELS, dict_get "canary" (rq_payload q) with
       | Some _, Some (JObj canary) =>
           match canary_evidence q canary (ar_readback_evidence readback) with
           | Ret evidence => complete q executed readback (Some evidence)
           | Exc e =>
               if contract_refusal e
               then park q ("provider canary read-back evidence was missing or invalid: " +:+ exn_msg e) provider None
                      "provider canary evidence did not satisfy the channel contract"
               else Done (Exc e)
           end
       | _, _ => complete q executed readback None
       end.

(** the read-back did not match: what was observed of a running call is kept *)
Definition unmatched (q : CommandExecutionRequest) (executed readback : ActivityResult) : Wf WorkflowOutcome :=
  let provider := ar_provider_operation_id executed in
  let ended evidence := park q "provider read-back did not match durable command intent" provider evidence (ar_detail readback) in
  if calling q then
    match observed_call q provider (ar_readback_evidence readback) false with
    | Ret evidence => ended (Some evidence)
    | Exc e => if contract_refusal e then ended None else Done (Exc e)
    end
  else ended None.

(** what follows an execution that answered *)
Definition after_execution (q : CommandExecutionRequest) (executed : ActivityResult) : Wf WorkflowOutcome :=
  let provider := ar_provider_operation_id executed in
  if bounded_originate q && String.eqb (ar_status executed) "cancelled"
  then wret (executed_as q (ar_status executed) (ar_detail executed))
  else if calling q && String.eqb (ar_status executed) "dispatch_unknown"
  then park q "calling dispatch outcome is unknown; reconcile without redispatch" provider None
         "calling dispatch outcome requires authoritative read-back"
  else
  command_transition q accepted "adapter accepted the idempotent command" provider None !;;
  command_transition q readback_pending "provider read-back required before completion" provider None !;;
  Do (readback_command q) (fun r =>
    match r with
    | Ret readback =>
        if String.eqb (ar_status readback) "matched" then confirm q executed readback else unmatched q executed readback
    | Exc e =>
        if activity_error e
        then park q ("provider read-back did not confirm the outcome: " +:+ exn_msg e) provider None "provider read-back failed"
        else Done (Exc e)
    end).

(** [except ActivityError] of the execution *)
Definition execution_failed (q : CommandExecutionRequest) (e : exn) : Wf WorkflowOutcome :=
  let unknown := park q ("adapter outcome is unknown and requires read-back: " +:+ exn_msg e) None None
                   "adapter execution did not produce a confirmed outcome" in
  if bounded_originate q then
    do! recovered := activity (recover_call_execution q) in
    if String.eqb (ar_status recovered) "cancelled"
    then wret (executed_as q "cancelled" "committed no-send cancellation recovered after activity failure")
    else unknown
  else unknown.

(** [CommandExecutionWorkflow.run] *)
Definition execution_workflow (q : CommandExecutionRequest) : Wf WorkflowOutcome :=
  identity (rq_command_id q) "command_id" !;;
  identity (rq_tenant_id q) "tenant_id" !;;
  (if rq_resume_from_queued q then wret tt
   else command_transition q queued "Temporal workflow accepted durable command intent" None None !;; wret tt) !;;
  command_transition q dispatching "reserved command for one adapter execution attempt" None None !;;
  Do (execute_command q) (fun r =>
    match r with
    | Ret executed => after_execution q executed
    | Exc e => if activity_error e then execution_failed q e else Done (Exc e)
    end).
End Workflows.

(** ** The activities ([src/app/temporal_activities.py])

    The state is the tables, the clock of the transactions, and what was asked of
    the call adapter: [tw_tickets] are the attempts whose dispatch was claimed and
    whose mutation was not sent yet, [tw_sent] those it was sent for. *)

Record TW := mkTW { tw_db : CommandDB; tw_now : datetime; tw_tickets : list nat; tw_sent : list nat }.
Abbreviation TM := (M TW).
Definition set_tw_db (d : CommandDB) (w : TW) : TW := mkTW d (tw_now w) (tw_tickets w) (tw_sent w).
Definition on_db {A} (m : DM A) : TM A := zoom tw_db set_tw_db m.
Definition claim_ticket (a : nat) (w : TW) : TW := mkTW (tw_db w) (tw_now w) (tw_tickets w ++ [a]) (tw_sent w).
(** the holder of the ticket hands the command to the adapter *)
Definition spend_ticket (a : nat) (w : TW) : TW :=
  mkTW (tw_db w) (tw_now w) (List.filter (fun b => negb (b =? a)%nat) (tw_tickets w)) (tw_sent w ++ [a]).

Record ProviderAdapter := {
  pa_execute : CommandExecutionRequest -> TM ActivityResult;
  pa_readback : CommandExecutionRequest -> TM ActivityResult;
}.
Record Adapters := {
  ad_odoo : option ProviderAdapter;
  ad_klyrow_alert : option ProviderAdapter;
  ad_telnexa_sms : option ProviderAdapter;
  ad_klyrow_email : option ProviderAdapter;
  ad_postly_social : option ProviderAdapter;
  ad_vicidial_internal : option ProviderAdapter;
}.

(** a transaction that failed on its connection, and whether it was committed all the same *)
Record Fault := { ft_error : exn; ft_committed : bool }.

Definition command_rejected (msg : string) : exn := app_error "CommandExecutionRejected" msg.
Definition reconciliation_rejected (msg : string) : exn := app_error "ReconciliationRejected" msg.

Section Activities.
Context `{Externals}.
Context (aware : json -> option AwareDatetime) (adapters : Adapters) (faults : list Fault).

(** a row by the text of its id, as the column holds it *)
Definition key_of_text (t s : string) : option Key :=
  u ← uuid_parse s; if String.eqb (uuid_str u) s then Some (t, u) else None.
Definition row_by_text (t s : string) (d : CommandDB) : option CommandRow := k ← key_of_text t s; db_commands d !! k.

(** [CommandExecutionRequest( **command.model_dump(mode="json"), authenticated_client_id=...)] *)
Definition request_of (c : CommandEnvelope) (client : string) : CommandExecutionRequest := {|
  rq_command_id := uuid_str (env_command_id c); rq_command_type := env_command_type c;
  rq_command_version := env_command_version c; rq_target := env_target c; rq_tenant_id := env_tenant_id c;
  rq_requested_by := env_requested_by c; rq_correlation_id := env_correlation_id c;
  rq_idempotency_key := env_idempotency_key c; rq_capability := env_capability c; rq_payload := env_payload c;
  rq_authenticated_client_id := client; rq_resume_from_queued := false |}.
Definition request_dict (q : CommandExecutionRequest) : jdict :=
  [("command_id", JStr (rq_command_id q)); ("command_type", JStr (rq_command_type q));
   ("command_version", JStr (rq_command_version q)); ("target", JStr (rq_target q)); ("tenant_id", JStr (rq_tenant_id q));
   ("requested_by", JStr (rq_requested_by q)); ("correlation_id", JStr (rq_correlation_id q));
   ("idempotency_key", JStr (rq_idempotency_key q)); ("capability", JStr (rq_capability q)); ("payload", JObj (rq_payload q))].
(** [==] of two requests *)
Definition request_eqb (a b : CommandExecutionRequest) : bool :=
  bool_decide ((rq_command_id a, rq_command_type a, rq_command_version a, rq_target a, rq_tenant_id a, rq_requested_by a,
                rq_correlation_id a, rq_idempotency_key a, rq_capability a, rq_authenticated_client_id a, rq_resume_from_queued a) =
               (rq_command_id b, rq_command_type b, rq_command_version b, rq_target b, rq_tenant_id b, rq_requested_by b,
                rq_correlation_id b, rq_idempotency_key b, rq_capability b, rq_authenticated_client_id b, rq_resume_from_queued b)) &&
  py_eqb (JObj (rq_payload a)) (JObj (rq_payload b)).

(** [_validated_reconciliation_command] *)
Definition validated_command (r : CommandRow) (t : string) (operation_id : UUID) : outcome (CommandExecutionRequest * string) :=
  match truthy_str (get_str AUTHENTICATED_CLIENT_ID_KEY (c_payload r)) with
  | None => Exc (reconciliation_rejected "durable command is missing authenticated client provenance")
  | Some client =>
      match command_envelope_from_payload (c_payload r) with
      | Exc _ => Exc (reconciliation_rejected "durable command does not match the canonical envelope")
      | Ret c =>
          if negb (env_command_id c =? operation_id)%N || negb (String.eqb (env_tenant_id c) t)
          then Exc (reconciliation_rejected "reconciliation identity does not match the durable command")
          else
          let expected := authenticated_command_digest c client in
          if negb (String.eqb (c_payload_sha256 r) expected)
          then Exc (reconciliation_rejected "durable command payload digest does not match submission evidence")
          else Ret (request_of c client, expected)
      end
  end.

(** [_load_durable_execution_request] *)
Definition load_durable_request (q : CommandExecutionRequest) : DM CommandExecutionRequest :=
  match uuid_parse (rq_command_id q) with
  | None => reraise (command_rejected "command identity is invalid")
  | Some operation_id =>
      let! d := gets id in
      match row_by_text (rq_tenant_id q) (rq_command_id q) d with
      | None => reraise (command_rejected "durable command was not found")
      | Some r =>
          let! x := lift_outcome (validated_command r (rq_tenant_id q) operation_id) in
          let (durable, digest) := x in
          let refused := reraise (command_rejected "Temporal command differs from durable intent") in
          if negb (request_eqb durable q) then refused
          else
          let! c := lift_outcome (model_validate (request_dict q)) in
          if negb (String.eqb digest (authenticated_command_digest c (rq_authenticated_client_id q))) then refused
          else ret durable
      end
  end.

(** [_adapter] *)
Definition adapter_of (q : CommandExecutionRequest) : outcome ProviderAdapter :=
  let chosen :=
    match List.find (fun x => String.eqb (rq_target q) (fst x) && bool_decide (is_Some (snd x)))
            [("odoo-19", ad_odoo adapters); ("klyrow-alert-email", ad_klyrow_alert adapters);
             ("telnexa-sms", ad_telnexa_sms adapters); ("klyrow-email", ad_klyrow_email adapters);
             ("postly-social", ad_postly_social adapters)] with
    | Some x => snd x
    | None => if calling q then ad_vicidial_internal adapters else None
    end in
  match chosen with
  | Some a => Ret a
  | None => Exc (app_error "CapabilityDisabled" "no production provider adapter is activated for this command")
  end.

Definition DISPATCH_CLAIM : jdict := [("dispatch_claimed", JBool true)].
(** [_is_dispatch_claim] *)
Definition is_dispatch_claim (o : option jdict) : bool :=
  match o with Some d => py_eqb (JObj d) (JObj DISPATCH_CLAIM) | None => false end.

Definition with_result (v : jdict) (a : AttemptRow) : AttemptRow :=
  attempt_row_with a (a_state a) (a_provider_operation_id a) (Some v) (a_error_code a) (a_error_detail a) (a_finished_at a).

(** [_claim_call_dispatch]: the id of the attempt this caller may send for *)
Definition claim_call_dispatch (q : CommandExecutionRequest) : DM (option nat) :=
  let! d := gets id in
  match key_of_text (rq_tenant_id q) (rq_command_id q) with
  | None => ret None
  | Some k =>
      match newest_attempt k (db_attempts d) with
      | Some a =>
          if bool_decide (a_state a = dispatching) && negb (bool_decide (is_Some (a_result_payload a)))
          then modify (set_db_attempts (map (fun b => if (a_id b =? a_id a)%nat then with_result DISPATCH_CLAIM b else b) (db_attempts d))) ;;;
               ret (Some (a_id a))
          else ret None
      | None => ret None
      end
  end.

Definition cancelled_unsent : ActivityResult := result "cancelled" "bounded originate rejected before transport".

(** the row is cancelled and its newest attempt is the claimed one that was never sent *)
Definition proven_unsent (st : CommandState) (a : AttemptRow) : bool :=
  bool_decide (st = cancelled) && bool_decide (a_state a = failed) &&
  bool_decide (a_error_code a = Some "pre_dispatch_rejected") && is_dispatch_claim (a_result_payload a).

(** [_load_committed_call_cancellation] *)
Definition committed_cancellation (q : CommandExecutionRequest) : DM (option ActivityResult) :=
  let! d := gets id in
  match key_of_text (rq_tenant_id q) (rq_command_id q) with
  | None => ret None
  | Some k =>
      match db_commands d !! k, newest_attempt k (db_attempts d) with
      | Some r, Some a => ret (if proven_unsent (c_state r) a then Some cancelled_unsent else None)
      | _, _ => ret None
      end
  end.

Definition DISPATCH_ACTOR := "temporal:codestra.calling-dispatch.v1".
Definition UNSENT_REASON := "bounded originate rejected before transport".
Definition unsent_row (r : CommandRow) (now : datetime) : CommandRow :=
  command_row_with r cancelled (c_provider_operation_id r) (c_last_error r) now (c_queued_at r) (c_accepted_at r)
    (c_completed_at r) (c_failed_at r) (c_resource_version r + 1) (Some now) (Some UNSENT_REASON)
    (c_reconciliation_requested_at r) (c_reconciliation_reason r).
Definition unsent_attempt (now : datetime) (a : AttemptRow) : AttemptRow :=
  attempt_row_with a failed (a_provider_operation_id a) (a_result_payload a) (Some "pre_dispatch_rejected") (Some UNSENT_REASON) (Some now).

(** the transaction of [record_call_pre_dispatch_rejection] *)
Definition reject_unsent (now : datetime) (q : CommandExecutionRequest) : DM ActivityResult :=
  transaction (
    let! d := gets id in
    let refused := reraise (command_rejected "pre-dispatch rejection does not own the durable dispatch claim") in
    match key_of_text (rq_tenant_id q) (rq_command_id q) with
    | None => refused
    | Some k =>
        match db_commands d !! k, newest_attempt k (db_attempts d) with
        | Some r, Some a =>
            if proven_unsent (c_state r) a then ret cancelled_unsent
            else if negb (bool_decide (c_state r = dispatching)) || negb (is_dispatch_claim (a_result_payload a)) then refused
            else
            modify (set_db_command k (unsent_row r now)) ;;;
            modify (fun d => set_db_attempts
              (map (fun b => if (a_id b =? a_id a)%nat then unsent_attempt now b else b) (db_attempts d)) d) ;;;
            modify (insert_audit k (Some dispatching) cancelled DISPATCH_ACTOR UNSENT_REASON [("external_effect", JBool false)] now) ;;;
            ret cancelled_unsent
        | _, _ => refused
        end
    end).

Definition record_rejection (now : datetime) (q : CommandExecutionRequest) : DM ActivityResult :=
  let! durable := load_durable_request q in
  if negb (bounded_originate durable)
  then reraise (command_rejected "pre-dispatch rejection is restricted to bounded originate")
  else reject_unsent now durable.

(** the connection errors after which the rejection is recorded again *)
Definition connection_error (e : exn) : bool :=
  isinstance e ["PostgresConnectionError"; "InterfaceError"; "SerializationError"; "DeadlockDetectedError";
                "CannotConnectNowError"; "ConnectionError"; "TimeoutError"].

(** the loop over [range(3)] *)
Fixpoint persist_rejection (attempts : nat) (fs : list Fault) (q : CommandExecutionRequest) : TM ActivityResult :=
  match attempts with
  | O => raise RuntimeError "pre-dispatch rejection persistence did not complete"
  | S n =>
      let record := let! now := gets tw_now in on_db (record_rejection now q) in
      let attempt := match fs with
        | [] => record
        | f :: _ => (if ft_committed f then record ;;; ret tt else ret tt) ;;; reraise (ft_error f)
        end in
      catch_ connection_error attempt
        (fun e => match n with O => reraise e | _ => persist_rejection n (tl fs) q end)
  end.

Definition PROVIDER_ERRORS : list string :=
  ["OdooProviderAdapterError"; "KlyrowAlertAdapterError"; "TelnexaProviderAdapterError"; "KlyrowEmailAdapterError";
   "PostlySocialAdapterError"; "VicidialInternalCallError"].
(** the handlers of a provider's errors; [type] names the ordinary ones *)
Definition renamed (type : string) (e : exn) : exn := Exn (ApplicationError type false) (exn_msg e).

(** what [execute_command] makes of an adapter's answer *)
Definition guarded_execute (a : ProviderAdapter) (q : CommandExecutionRequest) : TM ActivityResult :=
  catch_ is_exception (pa_execute a q) (fun e =>
    if isinstance e ["VicidialInternalCallPreDispatchRejected"] then persist_rejection 3 faults q
    else if isinstance e ["PostlySocialUnknownOutcomeError"; "VicidialInternalCallUnknown"]
    then reraise (app_error "ProviderOutcomeUnknown" (exn_msg e))
    else if isinstance e PROVIDER_ERRORS then reraise (renamed "ProviderAdapterError" e)
    else reraise e).

(** [execute_command] *)
Definition execute_command_activity (q : CommandExecutionRequest) : TM ActivityResult :=
  if String.eqb (rq_target q) TARGET then
    let! q := on_db (load_durable_request q) in
    let! a := lift_outcome (adapter_of q) in
    let! claimed := on_db (claim_call_dispatch q) in
    match claimed with
    | None =>
        let! x := on_db (committed_cancellation q) in
        match x with Some r => ret r | None => pa_readback a q end
    | Some n =>
        modify (claim_ticket n) ;;;
        modify (spend_ticket n) ;;;
        guarded_execute a q
    end
  else
    let! a := lift_outcome (adapter_of q) in
    guarded_execute a q.

(** [readback_command] *)
Definition readback_command_activity (q : CommandExecutionRequest) : TM ActivityResult :=
  let! a := lift_outcome (adapter_of q) in
  catch_ (fun e => isinstance e PROVIDER_ERRORS) (pa_readback a q) (fun e => reraise (renamed "ProviderReadbackError" e)).

(** [recover_call_execution] *)
Definition recover_activity (q : CommandExecutionRequest) : DM ActivityResult :=
  let! durable := load_durable_request q in
  if negb (bounded_originate durable)
  then reraise (command_rejected "execution recovery is restricted to bounded originate")
  else
  let! x := committed_cancellation durable in
  ret (default (result "reconciliation_required" "no committed no-send proof") x).

(** [record_command_transition] *)
Definition transition_refusal (e : exn) : bool := isinstance e ["ValueError"; "CommandConflict"; "CommandNotFound"].
Definition record_transition (now : datetime) (r : CommandTransitionRequest) : DM ActivityResult :=
  let rejected msg := app_error "CommandTransitionRejected" msg in
  (match tr_readback_evidence r with
   | Some d =>
       if bool_decide (tr_new_state r = reconciliation_required) then
         match evidence_validate aware (JObj d) with
         | Exc _ => reraise (rejected "nonterminal calling evidence failed the bounded contract")
         | Ret e => if ev_terminal e then reraise (rejected "terminal calling evidence cannot be stored as nonterminal") else ret tt
         end
       else ret tt
   | None => ret tt
   end) ;;;
  let! o := catch_ transition_refusal
    (match uuid_parse (tr_command_id r) with
     | Some u => pg_transition now (tr_tenant_id r) u (tr_new_state r) (tr_actor_id r) (tr_reason r)
                   (tr_provider_operation_id r) (tr_readback_evidence r) None
     | None => raise ValueError "badly formed hexadecimal UUID string"
     end)
    (fun e => reraise (rejected (exn_msg e))) in
  ret {| ar_status := state_name (op_state o); ar_detail := tr_reason r;
         ar_provider_operation_id := op_provider_operation_id o; ar_readback_evidence := op_readback_evidence o |}.

(** ** Reconciliation *)

(** [_load_reconciliation_command] *)
Definition load_reconciliation (r : ReconciliationRequest) : DM (CommandExecutionRequest * option ActivityResult * string) :=
  match uuid_parse (rc_operation_id r) with
  | None => reraise (reconciliation_rejected "reconciliation operation_id is invalid")
  | Some operation_id =>
      let! d := gets id in
      match db_commands d !! (rc_tenant_id r, operation_id) with
      | None => reraise (reconciliation_rejected "reconciliation operation was not found")
      | Some row =>
          if bool_decide (c_state row = completed) then
            let! o := pg_get (rc_tenant_id r) operation_id in
            let! x := lift_outcome (validated_command row (rc_tenant_id r) operation_id) in
            ret (fst x, Some {| ar_status := "completed"; ar_detail := "provider read-back was already durably reconciled";
                                ar_provider_operation_id := op_provider_operation_id o;
                                ar_readback_evidence := op_readback_evidence o |}, snd x)
          else if negb (bool_decide (c_state row = reconciliation_required))
          then reraise (reconciliation_rejected "operation is not awaiting reconciliation")
          else
          let! x := lift_outcome (validated_command row (rc_tenant_id r) operation_id) in
          ret (fst x, None, snd x)
      end
  end.

Definition RECONCILIATION_ACTOR := "temporal:codestra.reconciliation.v1".

Definition nonempty_dict (o : option jdict) : option jdict := match o with Some (_ :: _) => o | _ => None end.
(** what is persisted: the adapter's evidence, or the least that can be said *)
Definition persisted_evidence (status provider : string) (o : option jdict) : jdict :=
  default [("schema_version", JStr "1.0"); ("status", JStr status); ("provider_operation_id", JStr provider)] (nonempty_dict o).

(** a completed row answers a second verdict with the same evidence *)
Definition committed_verdict (k : Key) (row : CommandRow) (evidence_digest : string) (d : CommandDB) : outcome ActivityResult :=
  match persisted_digest [completed] k (db_audit d) with
  | None => Exc (reconciliation_rejected "completed reconciliation evidence digest is unavailable")
  | Some digest =>
      match verify_readback_evidence_digest (newest_attempt k (db_attempts d) ≫= a_result_payload) (Some digest) with
      | Exc _ => Exc (reconciliation_rejected "completed reconciliation evidence failed integrity verification")
      | Ret (Some committed, _) =>
          if negb (String.eqb (provider_evidence_digest committed) evidence_digest)
          then Exc (reconciliation_rejected "replacement reconciliation evidence conflicts with the durable result")
          else Ret {| ar_status := "completed"; ar_detail := "provider read-back was already durably reconciled";
                      ar_provider_operation_id := c_provider_operation_id row; ar_readback_evidence := Some committed |}
      | Ret (None, _) => Exc (reconciliation_rejected "replacement reconciliation evidence conflicts with the durable result")
      end
  end.

(** a call's evidence names the channel the provider accepted *)
Definition same_channel (row : CommandRow) (answered : option string) (q : CommandExecutionRequest) (evidence : jdict) : bool :=
  let observed := default JNull (dict_get "asterisk_uniqueid" evidence) in
  forallb (fun v => match v with JNull => true | _ => py_eqb v observed end)
    [jopt (c_provider_operation_id row); jopt answered; default JNull (dict_get "call_id" (rq_payload q))].

(** [_persist_reconciliation_result] *)
Definition persist_result (now : datetime) (r : ReconciliationRequest) (x : ActivityResult) (expected_payload_sha256 : string) :
    DM ActivityResult :=
  if negb (mem_string (ar_status x) ["matched"; "mismatch"])
  then reraise (app_error "ProviderReadbackContractError" "provider read-back returned an unsupported status")
  else
  let detail := str_take 2048 (ar_detail x) in
  let provider := default (rc_operation_id r) (truthy_str (ar_provider_operation_id x)) in
  let evidence := persisted_evidence (ar_status x) provider (ar_readback_evidence x) in
  let matched := String.eqb (ar_status x) "matched" in
  let st := if matched then completed else reconciliation_required in
  transaction (
    let! d := gets id in
    match key_of_text (rc_tenant_id r) (rc_operation_id r) with
    | None => reraise (reconciliation_rejected "reconciliation operation was not found")
    | Some k =>
        match db_commands d !! k with
        | None => reraise (reconciliation_rejected "reconciliation operation was not found")
        | Some row =>
            if bool_decide (c_state row = completed) && matched
            then lift_outcome (committed_verdict k row (provider_evidence_digest evidence) d)
            else if negb (bool_decide (c_state row = reconciliation_required))
            then reraise (reconciliation_rejected "operation is no longer awaiting reconciliation")
            else
            let! v := lift_outcome (validated_command row (rc_tenant_id r) (snd k)) in
            let (q, digest) := v in
            if negb (String.eqb digest expected_payload_sha256)
            then reraise (reconciliation_rejected "durable command changed during provider reconciliation")
            else if String.eqb (rq_target q) TARGET && negb (same_channel row (ar_provider_operation_id x) q evidence)
            then reraise (app_error "ProviderReadbackContractError" "calling evidence differs from the accepted provider identity")
            else
            modify (set_db_command k (verdict_row row matched detail (Some provider) now)) ;;;
            modify (insert_audit k (Some reconciliation_required) st RECONCILIATION_ACTOR detail
                      (verdict_metadata matched (Some provider) evidence) now) ;;;
            modify (fun d => set_db_attempts
              (update_newest k (verdict_attempt st detail (Some provider) evidence now) (db_attempts d)) d) ;;;
            ret {| ar_status := state_name st; ar_detail := detail; ar_provider_operation_id := Some provider;
                   ar_readback_evidence := Some evidence |}
        end
    end).

(** the evidence of a call as a command names it *)
Definition command_evidence (q : CommandExecutionRequest) (original : string) (evidence : option jdict) (require_terminal : bool) :
    outcome jdict :=
  let item k := match dict_get k (rq_payload q) with Some v => Ret v | None => Exc (Exn KeyError k) end in
  let? actor := item "actor" in
  let? authorization := item "authorization_reference" in
  validate_call_evidence aware (evidence_json evidence)
    {| eb_operation_id := original; eb_correlation_id := rq_correlation_id q; eb_tenant_id := rq_tenant_id q; eb_actor := actor;
       eb_authorization_reference := authorization; eb_provider_operation_id := None |} require_terminal.

Definition bounded_hangup (q : CommandExecutionRequest) : bool :=
  String.eqb (rq_target q) TARGET && String.eqb (rq_command_type q) HANGUP.

(** the originating call is moved to where a verdict can be persisted *)
Definition park_origin (now : datetime) (t original : string) : DM unit :=
  let! d := gets id in
  match row_by_text t original d with
  | Some r =>
      if state_in (c_state r) [accepted; readback_pending] then
        catch_ (fun e => isinstance e ["CommandConflict"])
          (match uuid_parse original with
           | Some u => pg_transition now t u reconciliation_required "temporal:codestra.same-call-hangup.v1"
                         "validated terminal hangup requires originating-call reconciliation" None None None ;;; ret tt
           | None => ret tt
           end) (fun _ => ret tt)
      else ret tt
  | None => ret tt
  end.

(** [complete_originating_call] *)
Definition complete_origin (now : datetime) (r : OriginalCallCompletionRequest) : DM ActivityResult :=
  match uuid_parse (oc_hangup_command_id r) with
  | None => reraise (command_rejected "hangup command identity is invalid")
  | Some hangup_id =>
      let! d := gets id in
      match row_by_text (oc_tenant_id r) (oc_hangup_command_id r) d with
      | None => reraise (command_rejected "hangup command was not found")
      | Some row =>
          let! x := lift_outcome (validated_command row (oc_tenant_id r) hangup_id) in
          let hangup := fst x in
          if negb (bounded_hangup hangup) then reraise (command_rejected "command is not a bounded hangup")
          else
          let original := origin_text (rq_payload hangup) in
          let request := {| rc_operation_id := original; rc_tenant_id := oc_tenant_id r; rc_reason := "same-call hangup terminal evidence" |} in
          park_origin now (oc_tenant_id r) original ;;;
          let! y := load_reconciliation request in
          let '(command, done, digest) := y in
          match done with
          | Some done => ret done
          | None =>
              let! evidence := lift_outcome (command_evidence command original (Some (oc_readback_evidence r)) true) in
              persist_result now request
                {| ar_status := "matched"; ar_detail := "same-call hangup terminal evidence verified";
                   ar_provider_operation_id := get_str "asterisk_uniqueid" evidence; ar_readback_evidence := Some evidence |} digest
          end
      end
  end.

(** [reconcile_operation] *)
Definition reconcile_activity (r : ReconciliationRequest) : TM ActivityResult :=
  let! x := on_db (load_reconciliation r) in
  let '(q, done, digest) := x in
  let origin_too evidence :=
    let! now := gets tw_now in
    on_db (complete_origin now {| oc_hangup_command_id := rq_command_id q; oc_tenant_id := rq_tenant_id q;
                                  oc_readback_evidence := evidence |}) ;;; ret tt in
  match done with
  | Some done =>
      (match nonempty_dict (ar_readback_evidence done) with
       | Some evidence => when (bounded_hangup q) (origin_too evidence)
       | None => ret tt
       end) ;;;
      ret done
  | None =>
      let! answered := readback_command_activity q in
      let! checked := (if calling q then
          let original := if String.eqb (rq_command_type q) ORIGINATE then rq_command_id q else origin_text (rq_payload q) in
          match command_evidence q original (ar_readback_evidence answered) (String.eqb (ar_status answered) "matched") with
          | Ret evidence => ret {| ar_status := ar_status answered; ar_detail := ar_detail answered;
                                   ar_provider_operation_id := ar_provider_operation_id answered; ar_readback_evidence := Some evidence |}
          | Exc e => if contract_refusal e
                     then reraise (app_error "ProviderReadbackContractError" "calling evidence failed the bounded contract")
                     else reraise e
          end
        else ret answered) in
      let! now := gets tw_now in
      let! stored := on_db (persist_result now r checked digest) in
      when (bounded_hangup q && String.eqb (ar_status stored) "completed")
        (origin_too (default [] (ar_readback_evidence stored))) ;;;
      ret stored
  end.

(** ** The worker's bindings *)

(** [FailClosedWorkflowActivities._blocked] *)
Definition fail_closed (name : string) : TM ActivityResult :=
  reraise (app_error "CapabilityDisabled" (name +:+ " is not bound to the durable command ledger")).

(** the registered activities *)
Definition perform (c : ActivityCall) : TM ActivityResult :=
  match c with
  | record_command_transition r => let! now := gets tw_now in on_db (record_transition now r)
  | execute_command q => execute_command_activity q
  | readback_command q => readback_command_activity q
  | recover_call_execution q => on_db (recover_activity q)
  | reconcile_operation r => reconcile_activity r
  | complete_originating_call r => let! now := gets tw_now in on_db (complete_origin now r)
  | dispatch_delayed_callback _ => fail_closed "dispatch_delayed_callback"
  | provision_identity _ => fail_closed "provision_identity"
  | provision_product _ => fail_closed "provision_product"
  | verify_provisioning _ => fail_closed "verify_provisioning"
  | compensate_provisioning _ => fail_closed "compensate_provisioning"
  | replay_dead_letter _ => fail_closed "replay_dead_letter"
  end.
End Activities.

(** ** The server

    What becomes of one attempt of an activity: its answer is delivered, it runs and
    the answer is lost (a worker that dies, a time-out), or it never runs. *)

Inductive Fate := delivered | answer_lost | never_ran.

Definition non_retryable (e : exn) : bool := match exn_cls e with ApplicationError _ b => b | _ => false end.
Definition activity_failed : exn := Exn ActivityError "Activity task failed".

Section Server.
Context {W : Type} (perform : ActivityCall -> M W ActivityResult).

(** up to [n] attempts *)
Fixpoint attempt_activity (n : nat) (fates : list Fate) (c : ActivityCall) : M W ActivityResult :=
  match n with
  | O => reraise activity_failed
  | S n' => fun s =>
      match hd delivered fates with
      | never_ran => attempt_activity n' (tl fates) c s
      | answer_lost => attempt_activity n' (tl fates) c (snd (perform c s))
      | delivered =>
          match perform c s with
          | (Ret x, s') => (Ret x, s')
          | (Exc e, s') => if non_retryable e then (Exc activity_failed, s') else attempt_activity n' (tl fates) c s'
          end
      end
  end%nat.

(** a workflow run to its end: the fates of each call's attempts, the operator's approval *)
Fixpoint run_workflow {A} (w : Wf A) (fates : list (list Fate)) (approval : DeadLetterApproval) : M W A := fun s =>
  match w with
  | Done o => (o, s)
  | Do c k =>
      let (r, s') := attempt_activity (maximum_attempts c) (hd [] fates) c s in
      run_workflow (k r) (tl fates) approval s'
  | Sleep _ k => run_workflow k fates approval s
  | Await k => run_workflow (k approval) fates approval s
  end.
End Server.

(** ** The transport ([src/app/temporal_transport.py]) *)

Definition RECONCILIATION_EVENT_TYPE := "operation.reconcile.v1".

Definition transport_error {A} (msg : string) : outcome A := Exc (Exn (Foreign "TemporalTransportError" ["RuntimeError"; "Exception"]) msg).

Inductive WorkflowStart := start_execution (q : CommandExecutionRequest) | start_reconciliation (r : ReconciliationRequest).

(** the started workflows by id: a second start of an id, running or finished, starts nothing *)
Abbreviation Started := (list (string * WorkflowStart)).
Definition start_workflow (id : string) (w : WorkflowStart) (s : Started) : Started :=
  match dict_get id s with Some _ => s | None => s ++ [(id, w)] end.

Definition nul : string := String (ascii_of_nat 0) EmptyString.
Definition workflow_identity (t c key : string) : string := sha256_hex (t +:+ nul +:+ c +:+ nul +:+ key).
Definition command_workflow_id (t c key : string) : string := "codestra-command-" +:+ workflow_identity t c key.
Definition reconciliation_workflow_id (t c key : string) : string := "codestra-reconciliation-" +:+ workflow_identity t c key.

Section Transport.
Context `{Externals}.
(* the durable command of an outbox row; the exception its query raises *)
Context (lookup : option (OutboxRow -> outcome (option string))).

(** the checks of [_start_reconciliation] *)
Definition reconciliation_start (r : OutboxRow) : outcome (string * WorkflowStart) :=
  if negb (keys_are ["command_id"; "action"; "reason"] (row_payload r))
  then transport_error "reconciliation outbox payload does not match its versioned contract"
  else match get_str "command_id" (row_payload r) with
  | None => transport_error "reconciliation outbox payload has an invalid operation identity"
  | Some operation_id =>
      if negb (len_between 1 180 operation_id)
      then transport_error "reconciliation outbox payload has an invalid operation identity"
      else if negb (fact_is "action" "reconcile" (row_payload r))
      then transport_error "reconciliation outbox payload has an unsupported action"
      else match get_str "reason" (row_payload r) with
      | None => transport_error "reconciliation outbox payload has an invalid safe reason"
      | Some reason =>
          if negb (str_nonempty (Principal.strip reason)) || (500 <? String.length reason)%nat
          then transport_error "reconciliation outbox payload has an invalid safe reason"
          else if negb (starts_with "operation-reconcile:" (row_idempotency_key r))
          then transport_error "reconciliation outbox payload has an invalid idempotency identity"
          else match lookup with
          | None => transport_error "reconciliation dispatch is missing durable outbox identity verification"
          | Some f =>
              match f r with
              | Exc _ => transport_error "reconciliation outbox identity could not be verified"
              | Ret trusted =>
                  match truthy_str trusted with
                  | None => transport_error "reconciliation outbox has no durable command identity"
                  | Some trusted =>
                      if negb (String.eqb operation_id trusted)
                      then transport_error "reconciliation payload identity does not match the durable outbox command"
                      else Ret (reconciliation_workflow_id (row_tenant_id r) operation_id (row_idempotency_key r),
                                start_reconciliation {| rc_operation_id := operation_id; rc_tenant_id := row_tenant_id r;
                                                        rc_reason := reason |})
                  end
              end
          end
      end
  end.

Definition execution_start (r : OutboxRow) : outcome (string * WorkflowStart) :=
  match truthy_str (get_str AUTHENTICATED_CLIENT_ID_KEY (row_payload r)) with
  | None => transport_error "outbox command is missing authenticated client provenance"
  | Some client =>
      match command_envelope_from_payload (row_payload r) with
      | Exc _ => transport_error "outbox command does not match the canonical command envelope"
      | Ret c =>
          if negb (String.eqb (env_tenant_id c) (row_tenant_id r)) then transport_error "outbox tenant does not match the command envelope"
          else if negb (String.eqb (env_command_type c) (row_event_type r))
          then transport_error "outbox event type does not match the command type"
          else if negb (String.eqb (env_idempotency_key c) (row_idempotency_key r))
          then transport_error "outbox idempotency key does not match the command envelope"
          else
          let q := request_of c client in
          Ret (command_workflow_id (env_tenant_id c) (uuid_str (env_command_id c)) (env_idempotency_key c),
               start_execution {| rq_command_id := rq_command_id q; rq_command_type := rq_command_type q;
                 rq_command_version := rq_command_version q; rq_target := rq_target q; rq_tenant_id := rq_tenant_id q;
                 rq_requested_by := rq_requested_by q; rq_correlation_id := rq_correlation_id q;
                 rq_idempotency_key := rq_idempotency_key q; rq_capability := rq_capability q; rq_payload := rq_payload q;
                 rq_authenticated_client_id := client;
                 rq_resume_from_queued := starts_with "operation-retry:" (env_idempotency_key c) |})
      end
  end.

(** [dispatch] *)
Definition transport_dispatch (r : OutboxRow) : M Started unit :=
  if negb (String.eqb (row_destination r) TEMPORAL_COMMAND_DESTINATION)
  then lift_outcome (transport_error "outbox row targets an unsupported Temporal destination")
  else
  let! x := lift_outcome (if String.eqb (row_event_type r) RECONCILIATION_EVENT_TYPE then reconciliation_start r else execution_start r) in
  modify (start_workflow (fst x) (snd x)).
End Transport.
