(* ===== verification/CampaignSaga.v ===== *)
(** * The campaign-control saga

    [src/app/odoo_campaign_saga.py], its worker
    ([src/app/entrypoints/odoo_campaign_saga_worker.py]), the part of
    [src/app/adapters/odoo/campaign_control.py] it calls and the intake before it
    ([src/app/adapters/odoo/sync.py]): an event of Odoo's outbox is taken in once,
    enrolled as one row, claimed under a lease, checked against the state Odoo
    desires, observed by an adapter, and reported back to Odoo.

    A transaction is one step on the tables.  A call of Odoo or of the adapter is an
    action on them too, since other workers commit while a worker waits.  The
    catalogue and the settings are records; the clock, [uuid4] and pydantic's
    reading of an integer are arguments. *)

From stdpp Require Import pretty.
From S2P Require Import Prelude Json PyValue Clock Sha256 Commands.
Local Open Scope Z_scope.

(** ** Data *)

Inductive EffectiveState := unknown | absent | provisioned_disabled | synthetic_tested | active | disabled.
#[export] Instance EffectiveState_eq_dec : EqDecision EffectiveState.
Proof. solve_decision. Defined.
Definition effective_name (s : EffectiveState) : string :=
  match s with
  | unknown => "unknown" | absent => "absent" | provisioned_disabled => "provisioned_disabled"
  | synthetic_tested => "synthetic_tested" | active => "active" | disabled => "disabled"
  end.
Definition effective_states : list EffectiveState :=
  [unknown; absent; provisioned_disabled; synthetic_tested; active; disabled].

Inductive CampaignOperation := provision | synthetic_test | activate | disable | reconcile.
#[export] Instance CampaignOperation_eq_dec : EqDecision CampaignOperation.
Proof. solve_decision. Defined.
Definition operation_name (o : CampaignOperation) : string :=
  match o with
  | provision => "provision" | synthetic_test => "synthetic_test" | activate => "activate"
  | disable => "disable" | reconcile => "reconcile"
  end.

Definition Scope : Type := string * string * string.

(** what the module takes from [contracts/odoo/campaign-control.v1.json]: the
    allowlist, [OPERATION_BY_EVENT_TYPE], [RESULT_STATE_BY_OPERATION] and
    [WRITE_BINDING_BY_ENVIRONMENT] *)
Record Catalog := {
  cat_allowlist : list string;
  cat_operations : list (string * CampaignOperation);
  cat_results : list (CampaignOperation * option EffectiveState);
  cat_bindings : list (string * option Scope);
}.

(** the settings the module reads *)
Record SagaSettings := {
  st_environment : string;
  st_enabled : bool;
  st_adapter : string;
  st_lease_seconds : Z;
  st_retry_limit : Z;
}.

(** an [integration_event] row *)
Record IntegrationEvent := {
  ie_id : Z;
  ie_idempotency_key : string;
  ie_event_type : string;
  ie_schema_version : string;
  ie_original_event_id : string;
  ie_entity_key : string;
  ie_source_system : string;
  ie_correlation_id : string;
  ie_payload : json;
  ie_payload_hash : string;
  ie_state : string;
}.

Inductive SagaStatus := PENDING | RESERVED | RETRY | COMPLETED | DEAD_LETTER.
#[export] Instance SagaStatus_eq_dec : EqDecision SagaStatus.
Proof. solve_decision. Defined.
Definition status_name (s : SagaStatus) : string :=
  match s with
  | PENDING => "PENDING" | RESERVED => "RESERVED" | RETRY => "RETRY" | COMPLETED => "COMPLETED"
  | DEAD_LETTER => "DEAD_LETTER"
  end.

(** the columns of an [odoo_campaign_saga] row that never change *)
Record SagaIdentity := {
  sg_saga_id : N;
  sg_integration_event_id : Z;
  sg_event_uuid : string;
  sg_event_type : string;
  sg_operation : CampaignOperation;
  sg_command_id : string;
  sg_organization : string;
  sg_business_unit : string;
  sg_campaign : string;
  sg_configuration_version : Z;
  sg_manifest_ref : string;
  sg_manifest_hash : string;
  sg_correlation_id : string;
  sg_created_at : instant;
}.

Record SagaRow := mkSaga {
  sg_identity : SagaIdentity;
  sg_status : SagaStatus;
  sg_attempts : Z;
  sg_reserved_at : option instant;
  sg_lease_expires_at : option instant;
  sg_next_attempt_at : option instant;
  sg_last_error_class : option string;
  sg_effective_state : option EffectiveState;
  sg_evidence : option jdict;
  sg_observed_at : option instant;
  sg_readback_key : option string;
  sg_readback_attempt : Z;
  sg_readback_id : option string;
  sg_completed_at : option instant;
  sg_updated_at : instant;
}.

(** an [audit_event] the modules write *)
Record SagaAudit := {
  au_action : string;
  au_subject : string;
  au_correlation_id : string;
  au_decision : string;
  au_payload : jdict;
}.

Record SagaDB := mkSagaDB {
  db_events : list IntegrationEvent;
  db_sagas : list SagaRow;
  db_audits : list SagaAudit;
}.
Abbreviation SM := (M SagaDB).

Definition set_sagas (l : list SagaRow) (d : SagaDB) : SagaDB := mkSagaDB (db_events d) l (db_audits d).
Definition add_audit (a : SagaAudit) (d : SagaDB) : SagaDB := mkSagaDB (db_events d) (db_sagas d) (db_audits d ++ [a]).

Definition saga_id (r : SagaRow) : N := sg_saga_id (sg_identity r).
Definition find_saga (u : N) (d : SagaDB) : option SagaRow :=
  List.find (fun r => (saga_id r =? u)%N) (db_sagas d).

(** ** Errors *)

Definition db_error {A} (msg : string) : SM A := raise (Foreign "DBAPIError" ["SQLAlchemyError"; "Exception"]) msg.
Definition validation_error : exn := Exn (Foreign "ValidationError" ["ValueError"; "Exception"]) "validation error".

(** [_DEPENDENCY_ERRORS] *)
Definition dependency_error (e : exn) : bool :=
  isinstance e ["OdooCampaignAdapterError"; "TransportError"; "ResolutionDenied"; "RegistryDependencyUnavailable"].

Definition STALE_CONFIGURATION_VERSION := "STALE_CONFIGURATION_VERSION".
Definition TRANSPORT_RETRY_ERROR_CLASSES : list string :=
  ["ODOO_TRANSPORT_ERROR"; "ODOO_UPSTREAM_UNAVAILABLE"; "ODOO_ROUTE_UNRESOLVED"].
Definition OUTBOX_SOURCE_SYSTEM := "odoo".
Definition CLAIMABLE_STATUSES : list SagaStatus := [PENDING; RETRY].
Definition MINIMUM_LEASE_SECONDS : Z := 2 * (10 + 3) + 15.
Definition SYNTHETIC_ADAPTER := "synthetic".

(** ** Columns

    The widths of the table's columns ([src/app/db/models.py]): a value that does not
    fit is refused by the driver. *)

Definition int4 (z : Z) : bool := (- 2 ^ 31 <=? z) && (z <? 2 ^ 31).
Definition text_fits (n : nat) (o : option string) : bool :=
  match o with Some s => (String.length s <=? n)%nat | None => true end.
Definition row_fits (r : SagaRow) : bool :=
  let i := sg_identity r in
  int4 (sg_configuration_version i) && int4 (sg_attempts r) && int4 (sg_readback_attempt r) &&
  text_fits 128 (Some (sg_event_uuid i)) && text_fits 128 (Some (sg_command_id i)) &&
  text_fits 128 (Some (sg_organization i)) && text_fits 128 (Some (sg_business_unit i)) &&
  text_fits 128 (Some (sg_campaign i)) && text_fits 256 (Some (sg_manifest_ref i)) &&
  text_fits 80 (Some (sg_manifest_hash i)) && text_fits 128 (Some (sg_correlation_id i)) &&
  text_fits 64 (sg_last_error_class r) && text_fits 160 (sg_readback_key r) && text_fits 128 (sg_readback_id r).

(** ** Intake *)

Definition REQUIRED_FIELDS : list string :=
  ["event_id"; "event_type"; "schema_version"; "payload"; "payload_hash"; "correlation_id"; "lease_token"; "lease_generation"].

Definition str_drop_prefix (p s : string) : string :=
  if starts_with p s then String.substring (String.length p) (String.length s - String.length p) s else s.

(** [_validate_record]: the payload and the digest it was sent with *)
Definition validate_record (record : jdict) : outcome (jdict * string) :=
  if negb (forallb (fun k => bool_decide (is_Some (dict_get k record))) REQUIRED_FIELDS)
  then Exc (Exn OdooSyncError "Odoo outbox record schema rejected")
  else match dict_get "payload" record with
       | Some (JObj payload) =>
           let digest := canonical_sha256 (JObj payload) in
           let supplied := str_drop_prefix "sha256:" (py_str (default JNull (dict_get "payload_hash" record))) in
           if negb (String.eqb digest supplied) then Exc (Exn OdooSyncError "Odoo outbox payload hash rejected")
           else Ret (payload, digest)
       | _ => Exc (Exn OdooSyncError "Odoo outbox record schema rejected")
       end.

Definition json_true (v : json) : bool :=
  match v with
  | JNull | JBool false | JInt 0 | JStr EmptyString | JArr [] | JObj [] => false
  | JFloat r => negb (mem_string r ["0.0"; "-0.0"])
  | _ => true
  end.

Definition text_field (k : string) (record : jdict) : string := py_str (default JNull (dict_get k record)).
(** [f"{record.get(k, default)}"] *)
Definition text_or (k default_ : string) (record : jdict) : string :=
  match dict_get k record with Some v => py_str v | None => default_ end.

Definition incoming_event (id : Z) (record payload : jdict) (digest : string) : IntegrationEvent :=
  let event_id := text_field "event_id" record in {|
  ie_id := id;
  ie_idempotency_key := match dict_get "idempotency_key" record with
                        | Some v => if json_true v then py_str v else event_id | None => event_id end;
  ie_event_type := text_field "event_type" record; ie_schema_version := text_field "schema_version" record;
  ie_original_event_id := event_id;
  ie_entity_key := "odoo:" +:+ text_or "aggregate_type" "record" record +:+ ":" +:+
                   text_or "aggregate_public_id" event_id record;
  ie_source_system := OUTBOX_SOURCE_SYSTEM; ie_correlation_id := text_field "correlation_id" record;
  ie_payload := JObj payload; ie_payload_hash := digest; ie_state := "accepted" |}.

Definition event_fits (e : IntegrationEvent) : bool :=
  text_fits 255 (Some (ie_idempotency_key e)) && text_fits 100 (Some (ie_event_type e)) &&
  text_fits 16 (Some (ie_schema_version e)) && text_fits 128 (Some (ie_original_event_id e)) &&
  text_fits 256 (Some (ie_entity_key e)) && text_fits 128 (Some (ie_correlation_id e)) &&
  text_fits 64 (Some (ie_payload_hash e)).

Definition accepted_audit (e : IntegrationEvent) : SagaAudit := {|
  au_action := "odoo.outbox.accepted"; au_subject := ie_original_event_id e;
  au_correlation_id := ie_correlation_id e; au_decision := "accepted";
  au_payload := [("event_type", JStr (ie_event_type e)); ("schema_version", JStr (ie_schema_version e));
                 ("payload_hash", JStr (ie_payload_hash e))] |}.

Definition next_event_id (d : SagaDB) : Z := 1 + fold_right (fun e m => Z.max (ie_id e) m) 0 (db_events d).

(** [persist_intake]: whether the event was there, and its id.  The branch for a
    row that another process inserts between the look-up and the insertion answers
    like the look-up, so one transaction stands for both. *)
Definition persist_intake (record : jdict) : SM (bool * Z) :=
  let! x := lift_outcome (validate_record record) in
  let! d := gets id in
  match List.find (fun e => String.eqb (ie_original_event_id e) (text_field "event_id" record)) (db_events d) with
  | Some e =>
      if negb (String.eqb (ie_payload_hash e) (snd x)) then raise OdooSyncError "Odoo event idempotency conflict"
      else ret (true, ie_id e)
  | None =>
      let e := incoming_event (next_event_id d) record (fst x) (snd x) in
      if negb (event_fits e) then db_error "value too long"
      else modify (fun d => add_audit (accepted_audit e) (mkSagaDB (db_events d ++ [e]) (db_sagas d) (db_audits d))) ;;;
           ret (false, ie_id e)
  end.

(** what the sync cycle asks of Odoo; each answer is a JSON object *)
Inductive SyncRequest :=
  | GetCapabilities
  | ClaimRecords (consumer_id : string) (batch_size lease_ttl_ms : Z) (environment : string)
  | Acknowledge (event_id : string) (body : jdict).
Abbreviation SyncClient := (SyncRequest -> SM jdict).

Record SyncSettings := { sy_worker_id : string; sy_batch_size : Z; sy_lease_seconds : Z; sy_environment : string }.

(** [set(value)] of the names of [required] it holds *)
Definition supports (v : json) (required : list string) : outcome bool :=
  match iterate v with
  | Some l => if forallb hashable l then Ret (forallb (fun k => existsb (fun x => py_eqb x (JStr k)) l) required)
              else Exc (Exn TypeError "unhashable type")
  | None => Exc (Exn TypeError ("'" +:+ type_name v +:+ "' object is not iterable"))
  end.

Definition acknowledgement (sy : SyncSettings) (record : jdict) : SyncRequest :=
  let event_id := text_field "event_id" record in
  Acknowledge event_id [("consumer_id", JStr (sy_worker_id sy));
    ("lease_token", default JNull (dict_get "lease_token" record));
    ("lease_generation", default JNull (dict_get "lease_generation" record));
    ("idempotency_key", JStr ("ack-" +:+ event_id)); ("correlation_id", JStr (text_field "correlation_id" record));
    ("causation_id", JStr event_id)].

(** the loop over the claimed records: how many were new, and how many were there *)
Fixpoint sync_records (sy : SyncSettings) (client : SyncClient) (records : list json) : SM (nat * nat) :=
  match records with
  | [] => ret (0%nat, 0%nat)
  | JObj record :: records' =>
      let! x := persist_intake record in
      client (acknowledgement sy record) ;;;
      let! n := sync_records sy client records' in
      ret (if fst x then (fst n, S (snd n)) else (S (fst n), snd n))
  | _ :: _ => raise OdooSyncError "Odoo claim response schema rejected"
  end.

Record SyncResult := { sc_status : string; sc_claimed : nat; sc_accepted : nat; sc_duplicates : nat }.

Definition run_sync_cycle (sy : SyncSettings) (client : SyncClient) : SM SyncResult :=
  let! capabilities := client GetCapabilities in
  let! supported := lift_outcome (supports (default (JArr []) (dict_get "capabilities" capabilities))
                                    ["outbox.claim"; "outbox.acknowledge"]) in
  if negb supported then raise OdooSyncError "Odoo capability contract incompatible"
  else
  let! claim := client (ClaimRecords (sy_worker_id sy) (sy_batch_size sy) (sy_lease_seconds sy * 1000) (sy_environment sy)) in
  match default (JArr []) (dict_get "records" claim) with
  | JArr records =>
      let! n := sync_records sy client records in
      ret {| sc_status := if bool_decide (records = []) then "idle" else "processed"; sc_claimed := length records;
             sc_accepted := fst n; sc_duplicates := snd n |}
  | _ => raise OdooSyncError "Odoo claim response schema rejected"
  end.

(** ** Enrolment *)

Record CampaignControlEvent := {
  ce_command_id : string;
  ce_organization : string;
  ce_business_unit : string;
  ce_campaign : string;
  ce_configuration_version : Z;
  ce_manifest_ref : string;
  ce_manifest_hash : string;
}.

Definition field (lo hi : nat) (k : string) (d : jdict) : option string :=
  match get_str k d with Some s => if len_between lo hi s then Some s else None | None => None end.

(** [_text] and [_version] *)
Definition text_of (d : jdict) (k : string) (limit : nat) : string :=
  match dict_get k d with None | Some JNull => "" | Some v => str_take limit (py_str v) end.
Definition version_of (d : jdict) : Z :=
  match dict_get "configuration_version" d with Some (JInt z) => if 0 <=? z then z else 0 | _ => 0 end.

(** ** What is exchanged with Odoo *)

(** an [httpx.Response]: its status, and its body when it is JSON *)
Record Response := { rs_status_code : Z; rs_json : option json }.

Record DesiredState := {
  ds_campaign : string;
  ds_configuration_version : Z;
  ds_desired_state : EffectiveState;
  ds_manifest_ref : string;
  ds_manifest_hash : string;
}.

Record ActualStateReadback := {
  rb_event_uuid : string;
  rb_command_id : string;
  rb_idempotency_key : string;
  rb_attempt : Z;
  rb_organization : string;
  rb_business_unit : string;
  rb_campaign : string;
  rb_configuration_version : Z;
  rb_operation : CampaignOperation;
  rb_effective_state : EffectiveState;
  rb_manifest_ref : string;
  rb_manifest_hash : string;
  rb_evidence : jdict;
  rb_observed_at : instant;
  rb_correlation_id : string;
  rb_causation_id : string;
}.

(** the requests the client sends; the idempotency key of a report is its body's *)
Inductive OdooRequest :=
  | ReadDesired (scope : Scope) (idempotency_key correlation_id traceparent : string)
  | ReportActual (body : ActualStateReadback) (idempotency_key correlation_id causation_id traceparent : string).

(** the client and the adapter; other workers' transactions may be part of what they do *)
Record AdapterObservation := {
  ob_effective_state : EffectiveState;
  ob_evidence : jdict;
  ob_observed_at : instant;
}.
Abbreviation OdooClient := (OdooRequest -> SM Response).
Abbreviation CampaignAdapter := (SagaRow -> DesiredState -> SM AdapterObservation).

Section Model.
Context (cat : Catalog) (st : SagaSettings).
(* pydantic's reading of an [int] field *)
Context (lax_int : json -> option Z).

Definition nonnegative (k : string) (d : jdict) : option Z :=
  z ← dict_get k d ≫= lax_int; if 0 <=? z then Some z else None.

Definition control_event (payload : json) : option CampaignControlEvent :=
  match payload with
  | JObj d =>
      c ← field 1 128 "command_id" d; o ← field 1 128 "organization_public_id" d;
      b ← field 1 128 "business_unit_public_id" d; p ← field 1 128 "campaign_public_id" d;
      v ← nonnegative "configuration_version" d;
      r ← field 1 256 "manifest_ref" d; h ← field 1 80 "manifest_hash" d;
      Some (Build_CampaignControlEvent c o b p v r h)
  | _ => None
  end.

(** a new row: the columns the constructor is not given are null or their default *)
Definition new_saga (i : SagaIdentity) (s : SagaStatus) (error_class : option string) : SagaRow :=
  mkSaga i s 0 None None None error_class None None None None 0 None None (sg_created_at i).

(** [saga_for_event]; [u] and [now] are the defaults of its key and creation time *)
Definition saga_for_event (u : N) (now : instant) (e : IntegrationEvent) : outcome SagaRow :=
  match dict_get (ie_event_type e) (cat_operations cat) with
  | None => Exc (Exn SagaError ("event type " +:+ repr_string (ie_event_type e) +:+ " is not allowlisted"))
  | Some op =>
      let identity c o b p v r h := {|
        sg_saga_id := u; sg_integration_event_id := ie_id e; sg_event_uuid := ie_original_event_id e;
        sg_event_type := ie_event_type e; sg_operation := op; sg_command_id := c; sg_organization := o;
        sg_business_unit := b; sg_campaign := p; sg_configuration_version := v; sg_manifest_ref := r;
        sg_manifest_hash := h; sg_correlation_id := ie_correlation_id e; sg_created_at := now |} in
      match control_event (ie_payload e) with
      | None =>
          let raw := match ie_payload e with JObj d => d | _ => [] end in
          Ret (new_saga (identity (text_of raw "command_id" 128) (text_of raw "organization_public_id" 128)
                 (text_of raw "business_unit_public_id" 128) (text_of raw "campaign_public_id" 128) (version_of raw)
                 (text_of raw "manifest_ref" 256) (text_of raw "manifest_hash" 80))
               DEAD_LETTER (Some "INVALID_CONTROL_EVENT"))
      | Some c =>
          let scope := (ce_organization c, ce_business_unit c, ce_campaign c) in
          let allowed := match dict_get (st_environment st) (cat_bindings cat) with
                         | Some (Some binding) => bool_decide (scope = binding) | _ => true end in
          Ret (new_saga (identity (ce_command_id c) (ce_organization c) (ce_business_unit c) (ce_campaign c)
                 (ce_configuration_version c) (ce_manifest_ref c) (ce_manifest_hash c))
               (if allowed then PENDING else DEAD_LETTER) (if allowed then None else Some "SCOPE_NOT_ALLOWED"))
      end
  end.

(** [pending_events_statement] *)
Definition enrolled (d : SagaDB) (e : IntegrationEvent) : bool :=
  existsb (fun r => sg_integration_event_id (sg_identity r) =? ie_id e) (db_sagas d).
Definition pending (d : SagaDB) (e : IntegrationEvent) : bool :=
  String.eqb (ie_source_system e) OUTBOX_SOURCE_SYSTEM && mem_string (ie_event_type e) (cat_allowlist cat) &&
  String.eqb (ie_state e) "accepted" && negb (enrolled d e).
Definition pending_events (limit : nat) (d : SagaDB) : list IntegrationEvent :=
  take limit (sorted_by (fun a b => ie_id a <=? ie_id b) (List.filter (pending d) (db_events d))).

Definition enrolled_audit (r : SagaRow) : SagaAudit := {|
  au_action := "odoo.campaign_saga.enrolled"; au_subject := sg_event_uuid (sg_identity r);
  au_correlation_id := sg_correlation_id (sg_identity r); au_decision := status_name (sg_status r);
  au_payload := [("event_type", JStr (sg_event_type (sg_identity r)));
                 ("operation", JStr (operation_name (sg_operation (sg_identity r))));
                 ("campaign_public_id", JStr (sg_campaign (sg_identity r)));
                 ("configuration_version", JInt (sg_configuration_version (sg_identity r)));
                 ("error_class", jopt (sg_last_error_class r))] |}.

(** one transaction of the loop: the row and its audit are committed, or a row of
    the same event (or key) is there already and both are rolled back *)
Definition insert_saga (r : SagaRow) : SM bool :=
  let! d := gets id in
  if negb (row_fits r) then db_error "value out of range"
  else if existsb (fun x => (sg_integration_event_id (sg_identity x) =? sg_integration_event_id (sg_identity r)) ||
                            (saga_id x =? saga_id r)%N) (db_sagas d)
  then ret false
  else modify (fun d => add_audit (enrolled_audit r) (set_sagas (db_sagas d ++ [r]) d)) ;;; ret true.

Fixpoint insert_all (rows : list SagaRow) : SM nat :=
  match rows with
  | [] => ret 0%nat
  | r :: rows' => let! b := insert_saga r in let! n := insert_all rows' in ret (if b then S n else n)
  end.

Definition enroll_pending_sagas (ids : nat -> N) (now : nat -> instant) (limit : nat) : SM nat :=
  let! events := gets (pending_events limit) in
  let! rows := lift_outcome (traverse (fun i e => saga_for_event (ids i) (now i) e) 0 events) in
  insert_all rows.

(** ** Claims and leases *)

(** [claimable_saga_statement] *)
Definition claimable (now : instant) (r : SagaRow) : bool :=
  bool_decide (sg_status r ∈ CLAIMABLE_STATUSES) &&
  match sg_next_attempt_at r with None => true | Some t => t <=? now end.
Definition claimable_saga (now : instant) (d : SagaDB) : option SagaRow :=
  head (sorted_by (fun a b => sg_created_at (sg_identity a) <=? sg_created_at (sg_identity b))
          (List.filter (claimable now) (db_sagas d))).

Definition reserved (now : instant) (lease : Z) (r : SagaRow) : SagaRow :=
  mkSaga (sg_identity r) RESERVED (sg_attempts r + 1) (Some now) (Some (now + seconds lease)) None
    (sg_last_error_class r) (sg_effective_state r) (sg_evidence r) (sg_observed_at r) (sg_readback_key r)
    (sg_readback_attempt r) (sg_readback_id r) (sg_completed_at r) now.

Definition update_saga (u : N) (f : SagaRow -> SagaRow) (d : SagaDB) : SagaDB :=
  set_sagas (map (fun r => if (saga_id r =? u)%N then f r else r) (db_sagas d)) d.

Definition claim_saga (now : instant) (lease_seconds : Z) : SM (option SagaRow) :=
  if lease_seconds <? 1 then raise ValueError "lease_seconds must be positive"
  else
  let! d := gets id in
  match claimable_saga now d with
  | None => ret None
  | Some r =>
      if negb (row_fits (reserved now lease_seconds r)) then db_error "value out of range"
      else modify (update_saga (saga_id r) (reserved now lease_seconds)) ;;; ret (Some (reserved now lease_seconds r))
  end.

Definition lease_expired (now : instant) (r : SagaRow) : bool :=
  bool_decide (sg_status r = RESERVED) && match sg_lease_expires_at r with Some t => t <=? now | None => false end.

Definition released (now : instant) (s : SagaStatus) (next : option instant) (error_class : string) (r : SagaRow) : SagaRow :=
  mkSaga (sg_identity r) s (sg_attempts r) None None next (Some error_class) (sg_effective_state r) (sg_evidence r)
    (sg_observed_at r) (sg_readback_key r) (sg_readback_attempt r) (sg_readback_id r) (sg_completed_at r) now.

Definition recovered (retry_limit : Z) (now : instant) (r : SagaRow) : SagaRow :=
  if negb (lease_expired now r) then r
  else if retry_limit <=? sg_attempts r then released now DEAD_LETTER None "LEASE_EXPIRED" r
  else released now RETRY (Some now) "LEASE_EXPIRED_RECOVERED" r.

Definition recover_expired_leases (now : instant) (retry_limit : Z) : SM Z :=
  if retry_limit <? 1 then raise ValueError "retry_limit must be positive"
  else
  let! d := gets id in
  modify (set_sagas (map (recovered retry_limit now) (db_sagas d))) ;;;
  ret (Z.of_nat (length (List.filter (lease_expired now) (db_sagas d)))).

(** ** What a dispatch writes

    [_guarded_update] writes only while the row is still the claim the dispatch
    loaded: [RESERVED], with its [attempts] and [reserved_at].  The values are
    mirrored in the loaded row, which is returned.  What was added to the session
    ([audits]) is committed with them or rolled back. *)

Definition owned (r x : SagaRow) : bool :=
  (saga_id x =? saga_id r)%N && bool_decide (sg_status x = RESERVED) && (sg_attempts x =? sg_attempts r) &&
  bool_decide (sg_reserved_at x = sg_reserved_at r).

Definition guarded_update (r : SagaRow) (f : SagaRow -> SagaRow) (audits : list SagaAudit) : SM SagaRow :=
  let! d := gets id in
  if negb (existsb (owned r) (db_sagas d)) then raise SagaError "saga reservation was lost"
  else if negb (forallb (fun x => negb (owned r x) || row_fits (f x)) (db_sagas d)) then db_error "value too long"
  else
  modify (fun d => mkSagaDB (db_events d) (map (fun x => if owned r x then f x else x) (db_sagas d)) (db_audits d ++ audits)) ;;;
  ret (f r).

Definition renewed (now : instant) (lease : Z) (r : SagaRow) : SagaRow :=
  mkSaga (sg_identity r) (sg_status r) (sg_attempts r) (sg_reserved_at r) (Some (now + seconds lease))
    (sg_next_attempt_at r) (sg_last_error_class r) (sg_effective_state r) (sg_evidence r) (sg_observed_at r)
    (sg_readback_key r) (sg_readback_attempt r) (sg_readback_id r) (sg_completed_at r) now.

Definition terminated (now : instant) (s : SagaStatus) (error_class : option string) (next : option instant)
    (readback_id : option string) (r : SagaRow) : SagaRow :=
  mkSaga (sg_identity r) s (sg_attempts r) None None next error_class (sg_effective_state r) (sg_evidence r)
    (sg_observed_at r) (sg_readback_key r) (sg_readback_attempt r)
    (if bool_decide (s = COMPLETED) then readback_id else sg_readback_id r)
    (if bool_decide (s = COMPLETED) then Some now else sg_completed_at r) now.

Record SagaResult := { sr_outcome : string; sr_error_class : option string }.

Definition outcome_of (s : SagaStatus) (error_class : option string) : string :=
  match s with
  | COMPLETED => "completed"
  | RETRY => "retry"
  | _ => if bool_decide (error_class = Some STALE_CONFIGURATION_VERSION) then "stale" else "dead_letter"
  end.

Definition ended_audit (s : SagaStatus) (error_class readback_id : option string) (r : SagaRow) : SagaAudit := {|
  au_action := "odoo.campaign_saga." +:+ outcome_of s error_class; au_subject := sg_event_uuid (sg_identity r);
  au_correlation_id := sg_correlation_id (sg_identity r); au_decision := status_name s;
  au_payload := [("command_id", JStr (sg_command_id (sg_identity r)));
                 ("operation", JStr (operation_name (sg_operation (sg_identity r))));
                 ("campaign_public_id", JStr (sg_campaign (sg_identity r)));
                 ("configuration_version", JInt (sg_configuration_version (sg_identity r)));
                 ("attempt", JInt (sg_attempts r)); ("error_class", jopt error_class);
                 ("effective_state", jopt (effective_name <$> sg_effective_state r));
                 ("readback_id", jopt readback_id)] |}.

Definition terminate (now : instant) (r : SagaRow) (s : SagaStatus) (error_class : option string)
    (next : option instant) (readback_id : option string) : SM SagaResult :=
  guarded_update r (terminated now s error_class next readback_id) [ended_audit s error_class readback_id r] ;;;
  ret {| sr_outcome := outcome_of s error_class; sr_error_class := error_class |}.

Definition retryable_error_class (e : exn) : option string :=
  if isinstance e ["OdooCampaignAdapterUnavailable"] then Some "ODOO_UPSTREAM_UNAVAILABLE"
  else if isinstance e ["TransportError"] then Some "ODOO_TRANSPORT_ERROR"
  else if isinstance e ["ResolutionDenied"; "RegistryDependencyUnavailable"] then Some "ODOO_ROUTE_UNRESOLVED"
  else None.

(** [timedelta(seconds=5 * 2 ** (attempts - 1))] *)
Definition backoff (attempts : Z) : Z := seconds (5 * 2 ^ (attempts - 1)).

Definition retry_or_dead_letter (now : instant) (r : SagaRow) (error_class : string) : SM SagaResult :=
  if st_retry_limit st <=? sg_attempts r then terminate now r DEAD_LETTER (Some error_class) None None
  else terminate now r RETRY (Some error_class) (Some (now + backoff (sg_attempts r))) None.

Definition fail (now : instant) (r : SagaRow) (e : exn) (rejected_class : string) : SM SagaResult :=
  if isinstance e ["OdooCampaignStaleVersion"]
  then terminate now r DEAD_LETTER (Some STALE_CONFIGURATION_VERSION) None None
  else match retryable_error_class e with
       | Some c => retry_or_dead_letter now r c
       | None => terminate now r DEAD_LETTER (Some rejected_class) None None
       end.

(** ** Calls of Odoo *)

Definition decode (operation : string) (r : Response) : outcome jdict :=
  if 500 <=? rs_status_code r then Exc (Exn OdooCampaignAdapterUnavailable (operation +:+ " upstream unavailable"))
  else if 400 <=? rs_status_code r then Exc (Exn OdooCampaignAdapterError (operation +:+ " rejected by Odoo"))
  else match rs_json r with
       | None => Exc (Exn OdooCampaignAdapterError (operation +:+ " returned invalid JSON"))
       | Some (JObj d) => Ret d
       | Some _ => Exc (Exn OdooCampaignAdapterError (operation +:+ " returned a non-object response"))
       end.

Definition effective_of_name (s : string) : option EffectiveState :=
  List.find (fun e => String.eqb (effective_name e) s) effective_states.

(** [DesiredState.model_validate] *)
Definition desired_state (d : jdict) : outcome DesiredState :=
  match
    c ← field 1 128 "campaign_public_id" d; v ← nonnegative "configuration_version" d;
    s ← get_str "desired_state" d ≫= effective_of_name;
    r ← field 1 256 "manifest_ref" d; h ← field 1 80 "manifest_hash" d;
    Some (Build_DesiredState c v s r h)
  with Some x => Ret x | None => Exc validation_error end.

(** [ActualStateReadback.model_validate] of the loaded row's fields *)
Definition actual_state_readback (r : SagaRow) : outcome ActualStateReadback :=
  let i := sg_identity r in
  let fits lo hi s := len_between lo hi s in
  match sg_readback_key r, sg_effective_state r, sg_observed_at r with
  | Some key, Some state, Some observed =>
      if fits 1%nat 128%nat (sg_event_uuid i) && fits 1%nat 128%nat (sg_command_id i) && fits 1%nat 160%nat key &&
         (1 <=? sg_readback_attempt r) && fits 1%nat 128%nat (sg_organization i) &&
         fits 1%nat 128%nat (sg_business_unit i) && fits 1%nat 128%nat (sg_campaign i) &&
         (0 <=? sg_configuration_version i) && fits 1%nat 256%nat (sg_manifest_ref i) &&
         fits 1%nat 80%nat (sg_manifest_hash i) && fits 1%nat 128%nat (sg_correlation_id i)
      then Ret {| rb_event_uuid := sg_event_uuid i; rb_command_id := sg_command_id i; rb_idempotency_key := key;
                  rb_attempt := sg_readback_attempt r; rb_organization := sg_organization i;
                  rb_business_unit := sg_business_unit i; rb_campaign := sg_campaign i;
                  rb_configuration_version := sg_configuration_version i; rb_operation := sg_operation i;
                  rb_effective_state := state; rb_manifest_ref := sg_manifest_ref i;
                  rb_manifest_hash := sg_manifest_hash i; rb_evidence := default [] (sg_evidence r);
                  rb_observed_at := observed; rb_correlation_id := sg_correlation_id i;
                  rb_causation_id := sg_event_uuid i |}
      else Exc validation_error
  | _, _, _ => Exc validation_error
  end.

Definition scope_of (r : SagaRow) : Scope :=
  (sg_organization (sg_identity r), sg_business_unit (sg_identity r), sg_campaign (sg_identity r)).
Definition scope_dict (s : Scope) : jdict :=
  [("organization_public_id", JStr (fst (fst s))); ("business_unit_public_id", JStr (snd (fst s)));
   ("campaign_public_id", JStr (snd s))].

Definition traceparent_of (correlation : string) (span_source : jdict) : string :=
  "00-" +:+ str_take 32 (canonical_sha256 (JObj [("correlation_id", JStr correlation)])) +:+ "-" +:+
  str_take 16 (canonical_sha256 (JObj span_source)) +:+ "-01".

Definition read_desired_state (client : OdooClient) (r : SagaRow) : SM jdict :=
  let correlation := sg_correlation_id (sg_identity r) in
  let! response := client (ReadDesired (scope_of r) ("desired-state:" +:+ snd (scope_of r)) correlation
                             (traceparent_of correlation (scope_dict (scope_of r)))) in
  lift_outcome (decode "desired_state.read" response).

Definition bound_to (rb : ActualStateReadback) : jdict :=
  [("status", JStr "APPLIED"); ("event_uuid", JStr (rb_event_uuid rb)); ("command_id", JStr (rb_command_id rb));
   ("configuration_version", JInt (rb_configuration_version rb));
   ("effective_state", JStr (effective_name (rb_effective_state rb)));
   ("correlation_id", JStr (rb_correlation_id rb))].

(** the receipt of an applied report, and why an answer is none *)
Definition receipt (rb : ActualStateReadback) (response : Response) : outcome string :=
  if rs_status_code response =? 409 then Exc (Exn OdooCampaignStaleVersion STALE_CONFIGURATION_VERSION)
  else
  let? body := decode "campaign.actual_state.write" response in
  if existsb (fun kv => negb (match dict_get (fst kv) body with Some v => py_eqb v (snd kv) | None => false end)) (bound_to rb)
  then Exc (Exn OdooCampaignAdapterError "campaign.actual_state.write response binding mismatch")
  else match dict_get "readback_id" body with
       | Some v => if json_true v then Ret (py_str v)
                   else Exc (Exn OdooCampaignAdapterError "campaign.actual_state.write receipt is missing")
       | None => Exc (Exn OdooCampaignAdapterError "campaign.actual_state.write receipt is missing")
       end.

Definition report_actual_state (client : OdooClient) (rb : ActualStateReadback) : SM string :=
  let! response := client (ReportActual rb (rb_idempotency_key rb) (rb_correlation_id rb) (rb_causation_id rb)
    (traceparent_of (rb_correlation_id rb) [("idempotency_key", JStr (rb_idempotency_key rb))])) in
  lift_outcome (receipt rb response).

(** [SyntheticCampaignAdapter.apply] *)
Definition synthetic_apply (now : instant) : CampaignAdapter := fun r desired =>
  match dict_get (sg_operation (sg_identity r)) (cat_results cat) with
  | None => raise SagaError ("unsupported campaign operation " +:+ repr_string (operation_name (sg_operation (sg_identity r))))
  | Some state => ret {|
      ob_effective_state := default (ds_desired_state desired) state;
      ob_evidence := [("adapter", JStr SYNTHETIC_ADAPTER);
                      ("operation", JStr (operation_name (sg_operation (sg_identity r))));
                      ("manifest_ref", JStr (sg_manifest_ref (sg_identity r)));
                      ("manifest_hash", JStr (sg_manifest_hash (sg_identity r)));
                      ("configuration_version", JInt (sg_configuration_version (sg_identity r)));
                      ("provider_writes", JStr "disabled")];
      ob_observed_at := now |}
  end.

(** ** The dispatch *)

Definition has_reusable_observation (r : SagaRow) : bool :=
  match truthy_str (sg_readback_key r), sg_effective_state r, sg_observed_at r, sg_last_error_class r with
  | Some _, Some _, Some _, Some c => mem_string c TRANSPORT_RETRY_ERROR_CLASSES
  | _, _, _, _ => false
  end.

Definition readback_key (r : SagaRow) (u : string) : string :=
  "actual-state:" +:+ sg_event_uuid (sg_identity r) +:+ ":" +:+ u.

Definition with_observation (now : instant) (key : string) (o : AdapterObservation) (r : SagaRow) : SagaRow :=
  mkSaga (sg_identity r) (sg_status r) (sg_attempts r) (sg_reserved_at r) (sg_lease_expires_at r)
    (sg_next_attempt_at r) (sg_last_error_class r) (Some (ob_effective_state o)) (Some (ob_evidence o))
    (Some (ob_observed_at o)) (Some key) (sg_attempts r) (sg_readback_id r) (sg_completed_at r) now.

(** what a dispatch reads of the clock, in order, and its [uuid4()] *)
Record Ticks := { t_desired : instant; t_renew : instant; t_observe : instant; t_end : instant; t_uuid : string }.

(** the stale-command protection: the state Odoo desires, or the result the dispatch ends with *)
Definition check_desired (k : Ticks) (client : OdooClient) (r : SagaRow) : SM (DesiredState + SagaResult) :=
  let! checked := catch_ (fun e => dependency_error e || isinstance e ["ValidationError"])
    (let! body := read_desired_state client r in let! x := lift_outcome (desired_state body) in ret (inl x))
    (fun e => let! x := (if dependency_error e then fail (t_desired k) r e "DESIRED_STATE_REJECTED"
                         else terminate (t_desired k) r DEAD_LETTER (Some "DESIRED_STATE_REJECTED") None None) in ret (inr x)) in
  match checked with
  | inr x => ret (inr x)
  | inl desired =>
      let ended c := let! x := terminate (t_desired k) r DEAD_LETTER (Some c) None None in ret (inr x) in
      let version := sg_configuration_version (sg_identity r) in
      if negb (String.eqb (ds_campaign desired) (sg_campaign (sg_identity r))) then ended "DESIRED_STATE_REJECTED"
      else if version <? ds_configuration_version desired then ended STALE_CONFIGURATION_VERSION
      else if (ds_configuration_version desired <? version) ||
              negb (String.eqb (sg_manifest_hash (sg_identity r)) (ds_manifest_hash desired))
      then ended "CONFIGURATION_VERSION_MISMATCH"
      else ret (inl desired)
  end.

Definition observe (k : Ticks) (adapter : CampaignAdapter) (desired : DesiredState) (r : SagaRow) : SM SagaRow :=
  if has_reusable_observation r then ret r
  else
  let! o := adapter r desired in
  guarded_update r (with_observation (t_observe k) (readback_key r (t_uuid k)) o) [].

Definition report (k : Ticks) (client : OdooClient) (r : SagaRow) : SM SagaResult :=
  let! rb := lift_outcome (actual_state_readback r) in
  let! reported := catch_ dependency_error
    (let! id := report_actual_state client rb in ret (inl id))
    (fun e => let! x := fail (t_end k) r e "READBACK_REJECTED" in ret (inr x)) in
  match reported with
  | inr x => ret x
  | inl id => terminate (t_end k) r COMPLETED None None (Some id)
  end.

Definition dispatch (k : Ticks) (client : OdooClient) (adapter : CampaignAdapter) (r : SagaRow) : SM SagaResult :=
  let! checked := check_desired k client r in
  match checked with
  | inr x => ret x
  | inl desired =>
      let! r := guarded_update r (renewed (t_renew k) (st_lease_seconds st)) [] in
      let! r := observe k adapter desired r in
      report k client r
  end.

(** [process_saga] with its client and adapter given *)
Definition process_saga (k : Ticks) (client : OdooClient) (adapter : CampaignAdapter) (u : N) : SM SagaResult :=
  let! d := gets id in
  match find_saga u d with
  | Some r => if negb (bool_decide (sg_status r = RESERVED)) then raise SagaError "saga is not reserved"
              else dispatch k client adapter r
  | None => raise SagaError "saga is not reserved"
  end.

(** ** The worker *)

Definition adapter_for (now : instant) : outcome CampaignAdapter :=
  if negb (String.eqb (st_adapter st) SYNTHETIC_ADAPTER)
  then Exc (Exn SagaConfigurationError "odoo_campaign_saga_adapter must be 'synthetic'; no provider adapter exists")
  else Ret (synthetic_apply now).

Definition validate_worker_settings : outcome unit :=
  if st_lease_seconds st <? MINIMUM_LEASE_SECONDS
  then Exc (Exn SagaConfigurationError ("odoo_campaign_saga_lease_seconds must be >= " +:+ pretty MINIMUM_LEASE_SECONDS))
  else if st_retry_limit st <? 1
  then Exc (Exn SagaConfigurationError "odoo_campaign_saga_retry_limit must be >= 1")
  else let? _ := adapter_for 0 in Ret tt.

Record CycleClock := { cc_recover : instant; cc_enroll : nat -> instant; cc_ids : nat -> N; cc_claim : instant;
                       cc_adapter : instant; cc_ticks : Ticks }.
Record CycleResult := { cy_claimed : bool; cy_counts : option (Z * nat); cy_result : option SagaResult }.

Definition cycle (c : CycleClock) (client : OdooClient) : SM CycleResult :=
  if negb (st_enabled st) then ret {| cy_claimed := false; cy_counts := None; cy_result := None |}
  else
  lift_outcome validate_worker_settings ;;;
  let! adapter := lift_outcome (adapter_for (cc_adapter c)) in
  let! recovered := recover_expired_leases (cc_recover c) (st_retry_limit st) in
  let! enrolled := enroll_pending_sagas (cc_ids c) (cc_enroll c) 50 in
  let! claimed := claim_saga (cc_claim c) (st_lease_seconds st) in
  match claimed with
  | None => ret {| cy_claimed := false; cy_counts := Some (recovered, enrolled); cy_result := None |}
  | Some r =>
      let! x := process_saga (cc_ticks c) client adapter (saga_id r) in
      ret {| cy_claimed := true; cy_counts := Some (recovered, enrolled); cy_result := Some x |}
  end.
End Model.
