(* ===== verification/Ingress.v ===== *)
(** * The ingress of signed webhooks

    [accept_webhook] of [src/app/service.py], [_accept] and the route indexes of
    [src/app/webhook_api.py], [load_webhook_routes] of [src/app/contracts.py], and
    the replay guards of [src/app/replay.py]: the in-memory one as part of the
    runtime, the Redis one over its key and expiry. *)

From stdpp Require Import pretty.
From Stdlib Require Import Ascii QArith.
From S2P Require Import Prelude Json PyValue Clock Sha256 Principal.
From S2P Require Import Commands Inbox AutomationPolicy Automation Security AutomationApi.
Local Open Scope Z_scope.

(** ** [MemoryReplayGuard] *)

Definition replay_key (e : EventEnvelope) : string * string := (ev_tenant_id e, ev_event_id e).

Definition guard_acquire (k : string * string) : WM string := fun w =>
  if bool_decide (k ∈ w_held w) then raise ReplayBusy "event is already being processed" w
  else (Ret "memory", mkWorld (w_automation w) (w_commands w) (w_inbox w) ({[k]} ∪ w_held w)).
Definition guard_release (k : string * string) : WM unit := fun w =>
  (Ret tt, mkWorld (w_automation w) (w_commands w) (w_inbox w) (w_held w ∖ {[k]})).

(** ** [RedisReplayGuard]

    A key holds a token until an instant; [SET key token EX seconds NX] and the
    script that deletes a key only for the token it holds. *)

Record RedisKey := { rk_token : string; rk_expires_at : instant }.
Abbreviation Redis := (gmap string RedisKey).

Definition LOCK_SECONDS : Z := 30.
Definition redis_key (t event : string) : string :=
  "middleware:inbox-lock:" +:+ sha256_hex (dumps (JArr [JStr t; JStr event])).
(** [GET]: an expired key is gone *)
Definition redis_get (now : instant) (k : string) (r : Redis) : option string :=
  match r !! k with
  | Some v => if now <? rk_expires_at v then Some (rk_token v) else None
  | None => None
  end.

Definition redis_acquire (now : instant) (token t event : string) : M Redis string := fun r =>
  match redis_get now (redis_key t event) r with
  | Some _ => raise ReplayBusy "event is already being processed" r
  | None => (Ret token, <[redis_key t event := {| rk_token := token; rk_expires_at := now + Clock.seconds LOCK_SECONDS |}]> r)
  end.
Definition redis_release (now : instant) (t event token : string) : M Redis unit := fun r =>
  (Ret tt, if bool_decide (redis_get now (redis_key t event) r = Some token) then delete (redis_key t event) r else r).

(** ** Webhook routes *)

Record WebhookRoute := {
  wr_producer_client_id : string;
  wr_required_scope : string;
  wr_path : string;
  wr_event_types : list string;
}.

(** [item["producerClientId"]] and the like, of an item of the contract *)
Definition webhook_field (key : string) (d : jdict) : outcome string :=
  match dict_get key d with Some (JStr s) => Ret s | _ => Exc (Exn KeyError key) end.
Definition load_webhook_route (item : json) : outcome WebhookRoute :=
  match item with
  | JObj d =>
      let? producer := webhook_field "producerClientId" d in
      let? scope := webhook_field "requiredScope" d in
      let? path := webhook_field "path" d in
      match dict_get "eventTypes" d with
      | Some (JArr l) =>
          Ret {| wr_producer_client_id := producer; wr_required_scope := scope; wr_path := path; wr_event_types := json_strings l |}
      | _ => Exc (Exn KeyError "eventTypes")
      end
  | _ => Exc (Exn TypeError "webhook contract")
  end.
Fixpoint load_webhook_routes (items : list json) : outcome (list WebhookRoute) :=
  match items with
  | [] => Ret []
  | item :: items' => let? r := load_webhook_route item in let? rs := load_webhook_routes items' in Ret (r :: rs)
  end.

(** [text.split("-", 1)[0]] and the last part of a path *)
Definition connector_key (r : WebhookRoute) : outcome string :=
  let value := before_char "-" (wr_producer_client_id r) in
  if str_nonempty value then Ret value else Exc (Exn RuntimeError "webhook contract has no connector identity").
Fixpoint path_parts (cur : string) (s : string) : list string :=
  match s with
  | EmptyString => if str_nonempty cur then [cur] else []
  | String c s' =>
      if Ascii.eqb c "/" then (if str_nonempty cur then [cur] else []) ++ path_parts "" s'
      else path_parts (cur +:+ String c EmptyString) s'
  end.
Definition endpoint_key (r : WebhookRoute) : outcome string :=
  match List.rev (path_parts "" (wr_path r)) with
  | part :: _ => Ret part
  | [] => Exc (Exn RuntimeError "webhook contract has no endpoint identity")
  end.

(** [_build_route_indexes]: the routes by connector and endpoint, without
    repeats, and the first route of every connector *)
Abbreviation EndpointIndex := (list (string * string * WebhookRoute)).
Abbreviation ConnectorIndex := (list (string * WebhookRoute)).
Definition at_endpoint (connector endpoint : string) (x : string * string * WebhookRoute) : bool :=
  String.eqb (fst (fst x)) connector && String.eqb (snd (fst x)) endpoint.
Definition set_default (k : string) (r : WebhookRoute) (d : ConnectorIndex) : ConnectorIndex :=
  match dict_get k d with Some _ => d | None => d ++ [(k, r)] end.
Fixpoint index_routes (by_endpoint : EndpointIndex) (by_connector : ConnectorIndex) (rs : list WebhookRoute) :
    outcome (EndpointIndex * ConnectorIndex) :=
  match rs with
  | [] => Ret (by_endpoint, by_connector)
  | r :: rs' =>
      let? connector := connector_key r in
      let? endpoint := endpoint_key r in
      if existsb (at_endpoint connector endpoint) by_endpoint
      then Exc (Exn RuntimeError ("duplicate webhook contract for connector=" +:+ connector +:+ " endpoint=" +:+ endpoint))
      else index_routes (by_endpoint ++ [((connector, endpoint), r)]) (set_default connector r by_connector) rs'
  end.
Definition build_route_indexes (rs : list WebhookRoute) : outcome (EndpointIndex * ConnectorIndex) :=
  let? both := index_routes [] [] rs in
  match List.find (fun r => String.eqb (wr_producer_client_id r) "vicidial-adapter") rs with
  | Some r => Ret (fst both, dict_set "vicidial" r (snd both))
  | None => Exc (Exn (Foreign "StopIteration" ["Exception"]) "")
  end.
Definition route_for_connector_endpoint (index : EndpointIndex) (connector endpoint : string) : outcome WebhookRoute :=
  match List.find (at_endpoint connector endpoint) index with
  | Some x => Ret (snd x)
  | None => invalid_request "unknown webhook connector or endpoint"
  end.

(** ** [accept_webhook], of a runtime with an automation service *)

Definition semantic_digest (e : EventEnvelope) : string := canonical_payload_sha256 (event_dump e).

Section Webhook.
Context (float_of_text : string -> option (option Q)).
Context (iso_timestamp : string -> option (option Q)).
(* [json.loads] and [EventEnvelope.model_validate] of a body, with what they raise *)
Context (parse_event : string -> outcome EventEnvelope).

(** the body against the route and the signed headers *)
Definition check_envelope (route : WebhookRoute) (claims : jdict) (signed : SignedRequest) (e : EventEnvelope) : outcome unit :=
  authorize_tenant claims (ev_tenant_id e) ??;
  if negb (mem_string (ev_event_type e) (wr_event_types route))
  then Exc (Exn EventTypeError "event type is not allowed for this route")
  else if negb (String.eqb (sg_event_type signed) (ev_event_type e))
  then invalid_request "X-Codestra-Event-Type does not match body"
  else if negb (String.eqb (sg_event_id signed) (ev_event_id e))
  then invalid_request "X-Codestra-Event-Id does not match body"
  else if negb (String.eqb (sg_tenant_id signed) (ev_tenant_id e))
  then invalid_request "X-Codestra-Tenant-Id does not match body"
  else if negb (String.eqb (sg_correlation_id signed) (ev_correlation_id e))
  then invalid_request "X-Correlation-ID does not match body"
  else if negb (String.eqb (ev_idempotency_key e) (sg_idempotency_key signed))
  then invalid_request "body idempotency_key does not match headers"
  else if negb (String.eqb (ev_source e) (wr_producer_client_id route))
  then invalid_request "body source does not match route producer"
  else Ret tt.

Definition webhook_ingress (route : WebhookRoute) (e : EventEnvelope) : Ingress := {|
  in_envelope := e; in_producer_client_id := wr_producer_client_id route; in_semantic_sha256 := semantic_digest e;
  in_deduplication_sha256 := None |}.

(** the [try] around the inbox: a replayed identity is answered as a conflict *)
Definition accepted_or_conflict (m : WM IngressResult) : WM IngressResult := fun w =>
  match m w with
  | (Exc e, w') =>
      (Exc (if isinstance e ["ReplayConflict"] then Exn ReplayConflictError (exn_msg e) else e), w')
  | r => r
  end.

(** acquire, accept, and release in the [finally] *)
Definition guarded (k : string * string) (m : WM IngressResult) : WM IngressResult := fun w =>
  match guard_acquire k w with
  | (Exc e, w') =>
      (Exc (if isinstance e ["ReplayBusy"] then Exn ProcessingConflictError (exn_msg e) else e), w')
  | (Ret _, w') => let (r, w2) := m w' in (r, snd (guard_release k w2))
  end.

Definition accept_webhook (sv : AutomationService) (settings : SecuritySettings) (fresh : nat -> string) (clock : Q) (now : nat -> instant)
    (route : WebhookRoute) (claims : jdict) (method path body : string) (headers : Headers) : WM (IngressResult * Z) :=
  let! signed := lift_outcome (verify_signed_request float_of_text iso_timestamp settings clock method path body headers
                                 (wr_producer_client_id route)) in
  match parse_event body with
  | Exc ex =>
      (* bytes that are no UTF-8 raise a [UnicodeDecodeError], which is neither *)
      if isinstance ex ["JSONDecodeError"; "ValidationError"]
      then raise RequestValidationError "body does not match the canonical event envelope"
      else reraise ex
  | Ret e =>
      lift_outcome (check_envelope route claims signed e) ;;;
      let! result := guarded (replay_key e) (accepted_or_conflict (accept_event sv fresh now (webhook_ingress route e))) in
      ret (result, if ing_is_duplicate result then 200 else 202)
  end.

(* [runtime.tokens.verify] *)
Context (tokens_verify : string -> string -> string -> outcome jdict).

(** [_body]: the chunks of the stream, within the bound *)
Fixpoint read_body (maximum : Z) (raw : string) (chunks : list string) : outcome string :=
  match chunks with
  | [] => Ret raw
  | chunk :: chunks' =>
      if maximum <? Z.of_nat (String.length raw) + Z.of_nat (String.length chunk)
      then Exc (Exn PayloadTooLargeError ("request body exceeds " +:+ pretty maximum +:+ " bytes"))
      else read_body maximum (raw +:+ chunk) chunks'
  end.

(** [_accept]: the token, the body, then the webhook; the headers are a
    dictionary of the lower-case names *)
Definition lower_headers (headers : Headers) : Headers :=
  fold_left (fun d kv => dict_set (str_lower (fst kv)) (snd kv) d) headers [].
Definition accept_request (sv : AutomationService) (settings : SecuritySettings) (maximum : Z) (fresh : nat -> string) (clock : Q)
    (now : nat -> instant) (route : WebhookRoute) (method path : string) (chunks : list string) (headers : Headers) : WM (IngressResult * Z) :=
  let headers := lower_headers headers in
  let! claims := lift_outcome (tokens_verify (header_value "authorization" headers) (wr_producer_client_id route)
                                 (wr_required_scope route)) in
  let! body := lift_outcome (read_body maximum "" chunks) in
  accept_webhook sv settings fresh clock now route claims method path body headers.

(** ** The handlers: the route of a request, at the request's own path *)

Definition route_at (path : string) (base : WebhookRoute) : WebhookRoute := {|
  wr_producer_client_id := wr_producer_client_id base; wr_required_scope := wr_required_scope base; wr_path := path;
  wr_event_types := wr_event_types base |}.

(** a [StopIteration] of a coroutine is turned into a [RuntimeError] *)
Definition odoo_event_route (routes : list WebhookRoute) : outcome WebhookRoute :=
  match List.find (fun r => String.eqb (wr_path r) "/api/v1/odoo/events" &&
                            String.eqb (wr_producer_client_id r) "odoo-integration" &&
                            String.eqb (wr_required_scope r) "odoo.events.publish") routes with
  | Some r => Ret r
  | None => Exc (Exn RuntimeError "coroutine raised StopIteration")
  end.
Definition generic_webhook_route (index : EndpointIndex) (connector endpoint webhook path : string) : outcome WebhookRoute :=
  if negb (str_nonempty connector) || negb (str_nonempty endpoint) || negb (str_nonempty webhook)
  then invalid_request "unknown webhook connector or endpoint"
  else let? base := route_for_connector_endpoint index connector endpoint in Ret (route_at path base).
Definition connector_route (index : ConnectorIndex) (connector webhook path : string) : outcome WebhookRoute :=
  if negb (str_nonempty webhook) then invalid_request "webhook_id is required"
  else match dict_get connector index with
  | Some base => Ret (route_at path base)
  | None => Exc (Exn KeyError connector)
  end.

Section Handlers.
Context (sv : AutomationService) (settings : SecuritySettings) (maximum : Z) (fresh : nat -> string) (clock : Q)
  (now : nat -> instant) (routes : list WebhookRoute) (by_endpoint : EndpointIndex) (by_connector : ConnectorIndex)
  (method path : string) (chunks : list string) (headers : Headers).

Definition accept_at (route : outcome WebhookRoute) : WM (IngressResult * Z) :=
  let! r := lift_outcome route in accept_request sv settings maximum fresh clock now r method path chunks headers.

Definition odoo_event : WM (IngressResult * Z) := accept_at (odoo_event_route routes).
Definition generic_webhook (connector endpoint webhook : string) : WM (IngressResult * Z) :=
  accept_at (generic_webhook_route by_endpoint connector endpoint webhook path).
Definition vicidial_call_result (webhook : string) : WM (IngressResult * Z) :=
  accept_at (connector_route by_connector "vicidial" webhook path).
Definition crm_event (webhook : string) : WM (IngressResult * Z) :=
  accept_at (connector_route by_connector "odoo" webhook path).
End Handlers.
End Webhook.
