(* ===== verification/PgEvents.v ===== *)
(** * Atomic acceptance of an event

    [AutomationService._accept_postgres_event_atomic] of
    [src/app/automation_v2.py]: the inbox row, its chain entry, its publication
    intent and a job for every route, in one transaction over the tables of
    [PgInbox] and [PgAutomation]. *)

From stdpp Require Import sorting pretty.
From S2P Require Import Prelude Json PyValue Clock Sha256 Commands Inbox PgLedger.
From S2P Require Import PgInbox Automation PgAutomation.
Local Open Scope Z_scope.

Record EventsDB := mkEventsDB { vd_inbox : InboxDB; vd_automation : AutomationDB }.
Abbreviation VM := (M EventsDB).

Definition empty_events_db : EventsDB := mkEventsDB empty_inbox_db empty_automation_db.

Definition on_inbox {A} : IDM A -> VM A := zoom vd_inbox (fun x d => mkEventsDB x (vd_automation d)).
Definition on_automation {A} : DBM A -> VM A := zoom vd_automation (fun x d => mkEventsDB (vd_inbox d) x).

Definition NATS_JETSTREAM_DESTINATION : string := "nats-jetstream".

(** a row's identity in the set [{(event_id, idempotency_key)}] *)
Definition identity_of (r : InboxRow) : string * string := (ib_event_id r, ib_idempotency_key r).

(** the statements after a new inbox row *)
Definition record_event (c : DurableIngress) : IDM unit :=
  let e := di_envelope c in
  modify (fun d => mkInboxDB (ib_rows d ++ [inbox_row c]) (ib_ledger d) (ib_outbox d)) ;;;
  insert_entry c ;;;
  insert_intent (ev_tenant_id e) NATS_JETSTREAM_DESTINATION (ev_event_type e) (ev_idempotency_key e) (event_dump e) (di_db_now c).

(** whether the event was there; an [INSERT ... ON CONFLICT DO NOTHING] meets a
    conflict exactly when one of its identities has a row, so that the rows of a
    conflict are never missing *)
Definition take_event (c : DurableIngress) : IDM bool :=
  let! d := gets id in
  match existing_events (di_envelope c) d with
  | [] => record_event c ;;; ret false
  | r :: rows =>
      if negb (forallb (fun x => bool_decide (identity_of x = identity_of r)) rows) ||
         negb (String.eqb (ib_semantic_sha256 r) (in_semantic_sha256 (di_ingress c)))
      then raise ReplayConflict "event identity was reused with different semantic content"
      else ret true
  end.

Definition event_result (e : EventEnvelope) (duplicate : bool) : IngressResult := {|
  ing_event_id := ev_event_id e; ing_tenant_id := ev_tenant_id e;
  ing_status := if duplicate then ing_duplicate else ing_accepted; ing_is_duplicate := duplicate;
  ing_correlation_id := ev_correlation_id e |}.

Section Accept.
Context (timestamptz : string -> string).

(** the jobs, with the token and the time each draws *)
Fixpoint enqueue_on (fresh : nat -> string) (now : nat -> instant) (e : EventEnvelope) (source : string)
    (n : nat) (rs : list WorkflowRoute) : DBM unit :=
  match rs with
  | [] => ret tt
  | r :: rs' => enqueue_on_connection timestamptz (fresh n) (now n) e r source ;;; enqueue_on fresh now e source (S n) rs'
  end.

Definition accept_postgres_event_atomic (fresh : nat -> string) (now : nat -> instant) (routes : list WorkflowRoute)
    (c : DurableIngress) : VM IngressResult :=
  let e := di_envelope c in
  if negb (String.eqb (canonical_payload_sha256 (event_dump e)) (in_semantic_sha256 (di_ingress c)))
  then raise StorageError "semantic hash does not match canonical event payload"
  else transaction (
    let! duplicate := on_inbox (take_event c) in
    on_automation (enqueue_on fresh now e (in_producer_client_id (di_ingress c)) 0 routes) ;;;
    ret (event_result e duplicate)).
End Accept.
