(* ===== verification/Kernel.v ===== *)
(** * The command kernel

    [CommandKernel] of [src/app/platform/kernel.py]: submission (registry
    resolution, adapter ownership, policy engine, safety gate, then the
    ledger's one transaction), reads, cancellation, retry and replay. *)

From stdpp Require Import sorting.
From Stdlib Require Import QArith.
From S2P Require Import Prelude Json Uuid Commands LedgerSpec Resilience Policy Safety Adapter.
From S2P Require Import Registry World Bus Principal.
Local Open Scope nat_scope.

Definition SCOPE_COMMAND := "platform.command".
Definition SCOPE_COMMAND_READ := "platform.command.read".
Definition SCOPE_COMMAND_REPLAY := "platform.command.replay".

Record SubmitResult := {
  sr_operation : CommandOperation;
  sr_policy : CommandPolicyDecision;
  sr_safety : SafetyDecision;
  sr_destination : string;
}.

Record DenialAudit := {
  da_kind : string;
  da_tenant_id : string;
  da_command_id : UUID;
  da_command_type : string;
  da_target : string;
  da_capability : string;
  da_actor_id : string;
  da_client_id : string;
  da_correlation_id : string;
  da_reason_code : string;
  da_decision_id : string;
  da_version : string;
  da_created_at : datetime;
}.

(** the fresh identifiers one call draws from [uuid4] *)
Record Fresh := {
  fresh_policy_id : string;
  fresh_safety_id : string;
  fresh_replay_id : UUID;
  fresh_command_id : UUID;
}.

(** [CommandPolicyDecision.evidence], [SafetyDecision.evidence] *)
Definition policy_evidence (d : CommandPolicyDecision) : jdict :=
  [("policy_decision_id", JStr (cpd_decision_id d)); ("policy_version", JStr (cpd_policy_version d));
   ("policy_allow", JBool (cpd_allow d)); ("policy_reason_code", JStr (cpd_reason_code d))].
Definition safety_evidence (d : SafetyDecision) : jdict :=
  [("safety_decision_id", JStr (sd_decision_id d)); ("safety_version", JStr (sd_safety_version d));
   ("safety_allow", JBool (sd_allow d)); ("safety_reason_code", JStr (sd_reason_code d))].

Definition ENVIRONMENTS : list string := ["development"; "test"; "staging"; "preproduction"; "production"].
Definition EFFECT_CLASSIFICATIONS : list string := ["external_effect"; "internal"; "read"; "synthetic"].

(** the field constraints of [CommandPolicyRequest] *)
Definition policy_request_valid (r : CommandPolicyRequest) : bool :=
  len_between 1 180 (cpr_correlation_id r) && len_between 1 300 (cpr_principal r) &&
  len_between 1 100 (cpr_client_id r) && len_between 1 128 (cpr_tenant_id r) &&
  len_between 1 120 (cpr_required_scope r) && len_between 3 180 (cpr_command_type r) &&
  len_between 1 100 (cpr_target r) && len_between 3 100 (cpr_capability r) &&
  match cpr_resource_scope r with Some c => len_between 0 180 c | None => true end &&
  match cpr_campaign_id r with Some c => len_between 0 128 c | None => true end &&
  mem_string (cpr_environment r) ENVIRONMENTS &&
  mem_string (cpr_effect_classification r) EFFECT_CLASSIFICATIONS.

Section Kernel.
Context {S X : Type} `{CommandStore S}.
Abbreviation W := (World S X).

Record CommandKernel := {
  k_settings : Settings;
  k_policies : CommandPolicyRegistry;
  k_registry : AdapterRegistry W;
}.

(** the kernel's own state beside the shared world: [_BacklogCache] and the
    denial audit sink *)
Record KernelState := mkKernel {
  kernel_world : W;
  backlog_cache : gmap string (Q * (Z * option Z));
  denials : list DenialAudit;
}.
Abbreviation KM := (M KernelState).

Definition in_world {A} (m : M W A) : KM A :=
  zoom kernel_world (fun w s => mkKernel w (backlog_cache s) (denials s)) m.

Context (k : CommandKernel).

(** ** Submission *)

(** [_policy_request] *)
Definition policy_request (c : CommandEnvelope) (p : KernelPrincipal) (required_scope : string)
    (operator_required : bool) : KM CommandPolicyRequest := fun s =>
  let g := safety (kernel_world s) in
  let r := {|
    cpr_correlation_id := env_correlation_id c;
    cpr_principal := p_subject p;
    cpr_client_id := p_client_id p;
    cpr_tenant_id := env_tenant_id c;
    cpr_authorized_tenants := p_tenants p;
    cpr_roles := p_roles p;
    cpr_scopes := p_scopes p;
    cpr_required_scope := required_scope;
    cpr_command_type := env_command_type c;
    cpr_target := env_target c;
    cpr_capability := env_capability c;
    cpr_resource_scope := None;
    cpr_campaign_id := campaign_id_of (env_payload c);
    cpr_environment := app_env (k_settings k);
    cpr_effect_classification := classify g (env_capability c);
    cpr_caller_command_prefixes := allowed_command_prefixes (p_caller p);
    cpr_caller_targets := sorted_strings (allowed_targets (p_caller p));
    cpr_caller_connector_commands_allowed := connector_commands_allowed (p_caller p);
    cpr_campaign_scoped := is_campaign_scoped g (env_capability c);
    cpr_operator_required := operator_required;
    cpr_evaluated_at := None |} in
  if policy_request_valid r then (Ret r, s)
  else (Exc (Exn (Foreign "ValidationError" ["ValueError"; "Exception"]) ""), s).

(** [_BacklogCache.get] with [ttl_seconds = 2.0] *)
Definition cache_get (t : string) : KM (option (Z * option Z)) := gets (fun s =>
  match backlog_cache s !! t with
  | Some (at_, v) => if negb (Qle_bool (clock (kernel_world s) - at_) 2) then None else Some v
  | None => None
  end).

(** [_BacklogCache.put] *)
Definition cache_put (t : string) (v : Z * option Z) : KM unit := modify (fun s =>
  let values := if (10000 <? size (backlog_cache s))%nat then ∅ else backlog_cache s in
  mkKernel (kernel_world s) (<[t := (clock (kernel_world s), v)]> values) (denials s)).

(** [_backlog_for]: a failing probe is no backlog *)
Definition backlog_for (t : string) : KM (option Z * option Z) :=
  let! cached := cache_get t in
  match cached with
  | Some (a, b) => ret (Some a, b)
  | None =>
      let! probe := try_ (let! v := in_world (at_store (fun _ => store_backlog t)) in ret (Some v))
                         (fun _ => ret None) in
      match probe with
      | None => ret (None, None)
      | Some v => cache_put t v ;;; ret (Some (fst v), snd v)
      end
  end.

(** [_deny] *)
Definition deny (kind : string) (c : CommandEnvelope) (p : KernelPrincipal)
    (reason_code decision_id version : string) : KM unit := modify (fun s =>
  mkKernel (kernel_world s) (backlog_cache s) (denials s ++ [{|
    da_kind := kind; da_tenant_id := env_tenant_id c; da_command_id := env_command_id c;
    da_command_type := env_command_type c; da_target := env_target c;
    da_capability := env_capability c; da_actor_id := p_subject p; da_client_id := p_client_id p;
    da_correlation_id := env_correlation_id c; da_reason_code := reason_code;
    da_decision_id := decision_id; da_version := version;
    da_created_at := wall (kernel_world s) |}])).

(** what the audit keeps of the decisions *)
Definition decision_evidence (d : CommandPolicyDecision) (sd : SafetyDecision) (destination : string)
    (own : option Ownership) (replay : option (ReplayMode * option UUID)) : jdict :=
  let base := dict_merge (dict_merge (policy_evidence d) (safety_evidence sd))
                [("destination", JStr destination)] in
  let base := match own with
              | Some o => dict_set "adapter_id" (JStr (own_adapter_id o)) base
              | None => base
              end in
  match replay with
  | None => base
  | Some (mode, of_) =>
      dict_set "replay_of" (match of_ with Some u => JStr (uuid_str u) | None => JNull end)
        (dict_set "replay_mode" (JStr (replay_mode_name mode)) base)
  end.

(** [CommandService.submit] *)
Definition service_submit (c : CommandEnvelope) (p : KernelPrincipal) (destination : string)
    (evidence : jdict) (trace : option (list (string * string))) : KM CommandOperation :=
  lift_outcome (validate_submission (k_policies k) c (p_subject p) (p_client_id p)) ;;;
  in_world (at_store (fun now => store_submit now c (p_client_id p) destination (Some evidence) trace)).

(** the persistence step and its metrics *)
Definition persist (c : CommandEnvelope) (p : KernelPrincipal) (d : CommandPolicyDecision)
    (sd : SafetyDecision) (destination : string) (evidence : jdict)
    (trace : option (list (string * string))) (started : Q) : KM SubmitResult :=
  let! o := service_submit c p destination evidence trace in
  when (op_duplicate o) (in_world (inc "idempotency_duplicates" [])) ;;;
  in_world (observe "command_duration" ["accept"] started) ;;;
  ret {| sr_operation := o; sr_policy := d; sr_safety := sd; sr_destination := destination |}.

(** the safety decision of step 12 *)
Definition safety_step (fresh : Fresh) (c : CommandEnvelope) (own : option Ownership)
    (destination : string) : KM SafetyDecision :=
  let adapter_is_registered := bool_decide (is_Some own) || String.eqb destination TEMPORAL_COMMAND_DESTINATION in
  let! b := backlog_for (env_tenant_id c) in
  in_world (evaluate_safety (fresh_safety_id fresh)
    {| sub_tenant_id := env_tenant_id c; sub_command_type := env_command_type c;
       sub_target := env_target c; sub_capability := env_capability c;
       sub_campaign_id := campaign_id_of (env_payload c);
       sub_correlation_id := env_correlation_id c |}
    {| adapter_registered := adapter_is_registered; adapter_ready := None;
       tenant_backlog := fst b; global_backlog := snd b |} true).

(** [submit] *)
Definition kernel_submit (fresh : Fresh) (c : CommandEnvelope) (p : KernelPrincipal)
    (replay_mode : option ReplayMode) (replay_of : option UUID)
    (trace : option (list (string * string))) (required_scope : option string) : KM SubmitResult :=
  let! started := gets (fun s => clock (kernel_world s)) in
  in_world (inc "commands_received" [family_of (env_command_type c)]) ;;;
  (* 9: exactly one owning policy, matching target and capability *)
  if negb match resolve (k_policies k) (env_command_type c) with
          | Some pol => String.eqb (policy_target pol) (env_target c) &&
                        String.eqb (policy_capability pol) (env_capability c)
          | None => false
          end
  then
    in_world (inc "policy_denials" ["registry_mismatch"]) ;;;
    raise CommandCapabilityDisabled
      "command type, target and capability do not name one registered policy"
  else
  (* 10: adapter ownership *)
  let own := ownership (k_registry k) (env_command_type c) in
  let destination := match own with
                     | Some _ => ADAPTER_COMMAND_DESTINATION
                     | None => TEMPORAL_COMMAND_DESTINATION
                     end in
  let reexecute := bool_decide (replay_mode = Some REEXECUTE) in
  (* 11: the policy engine *)
  let! r := policy_request c p
    (if reexecute then SCOPE_COMMAND_REPLAY else default SCOPE_COMMAND (truthy_str required_scope))
    reexecute in
  let! now := gets (fun s => wall (kernel_world s)) in
  let d := evaluate_command now (fresh_policy_id fresh) r in
  if negb (cpd_allow d) then
    in_world (inc "policy_denials" [cpd_reason_code d]) ;;;
    deny "policy_deny" c p (cpd_reason_code d) (cpd_decision_id d) (cpd_policy_version d) ;;;
    raise PolicyDenied ("policy denied: " +:+ cpd_reason_code d)
  else
  (* 12: the safety gate *)
  let! sd := safety_step fresh c own destination in
  if negb (sd_allow sd) then
    in_world (inc "safety_denials" [sd_reason_code sd]) ;;;
    deny "safety_deny" c p (sd_reason_code sd) (sd_decision_id sd) (sd_safety_version sd) ;;;
    if sd_saturated sd
    then raise KernelSaturated ("kernel saturated: " +:+ sd_reason_code sd)
    else raise SafetyDenied ("safety denied: " +:+ sd_reason_code sd)
  else
  (* 13-17: one transaction of the ledger *)
  persist c p d sd destination
    (decision_evidence d sd destination own ((fun m => (m, replay_of)) <$> replay_mode)) trace started.

(** ** Reads *)

Definition kernel_get (t : string) (c : UUID) : KM CommandOperation := in_world (svc_get t c).

(** strictly increasing ids: sorted, and none repeated *)
Definition monotonic (l : list nat) : bool :=
  bool_decide (merge_sort le l = l) && bool_decide (NoDup l).

Definition timeline (t : string) (c : UUID) (limit : nat) : KM (list OperationEvent) :=
  let! evs := in_world (at_store (fun _ => store_list_events t c limit)) in
  if negb (monotonic (map event_id evs))
  then raise CommandConflict "operation timeline is not monotonic"
  else ret evs.

(** ** Mutations *)

Definition mutate (t : string) (c : UUID) (action : MutationAction) (p : KernelPrincipal) (key : string)
    (expected_version : Z) (reason : string) (corr : option string) : KM CommandOperation :=
  in_world (at_store (fun now =>
    store_mutate_operation now t c action (p_subject p) key expected_version reason corr)).

Definition kernel_cancel (t : string) (c : UUID) (p : KernelPrincipal) (key : string)
    (expected_version : Z) (reason : string) (corr : option string) : KM CommandOperation :=
  let! o := mutate t c act_cancel p key expected_version reason corr in
  in_world (inc "cancellations" [state_name (op_state o)]) ;;;
  ret o.

Definition kernel_retry (t : string) (c : UUID) (p : KernelPrincipal) (key : string)
    (expected_version : Z) (reason : string) (corr : option string) : KM CommandOperation :=
  mutate t c act_retry p key expected_version reason corr.

(** ** Replay *)

(** [REPROCESS]: a readback-only reconciliation is requested *)
Definition reprocess (original : CommandOperation) (t : string) (c : UUID) (p : KernelPrincipal)
    (key : string) (expected_version : Z) (reason : string) (corr : option string) :
    KM CommandOperation :=
  if negb (state_in (op_state original) [dispatching; accepted; readback_pending; reconciliation_required])
  then raise ReplayNotAllowed
    "REPROCESS is only meaningful for an operation with an unknown provider outcome"
  else
  let! o := mutate t c act_reconcile p key expected_version ("REPROCESS: " +:+ reason) corr in
  in_world (inc "replays" ["REPROCESS"]) ;;;
  ret o.

(** [envelope.model_copy(update={...})] of a replay *)
Definition replayed_envelope (env : CommandEnvelope) (cid : UUID) (key subject : string) : CommandEnvelope := {|
  env_command_id := cid;
  env_command_type := env_command_type env;
  env_command_version := env_command_version env;
  env_target := env_target env;
  env_tenant_id := env_tenant_id env;
  env_requested_by := subject;
  env_correlation_id := env_correlation_id env;
  env_idempotency_key := key;
  env_capability := env_capability env;
  env_payload := env_payload env |}.

(** [REEXECUTE]: a deliberately new command *)
Definition reexecute (fresh : Fresh) (original : CommandOperation) (t : string) (c : UUID)
    (p : KernelPrincipal) (key reason : string) (new_key : option string) : KM CommandOperation :=
  if negb (state_in (op_state original) [failed; dead_lettered; cancelled])
  then raise ReplayNotAllowed
    "REEXECUTE requires a terminal failed, dead-lettered or cancelled operation"
  else
  match truthy_str new_key with
  | None => raise ReplayNotAllowed "REEXECUTE requires a new idempotency key"
  | Some nk =>
      if String.eqb nk (idempotency_key (op_command original))
      then raise ReplayNotAllowed "REEXECUTE requires a new idempotency key"
      else
      (match ownership (k_registry k) (command_type (op_command original)) with
       | None => ret tt
       | Some own =>
           let! adv := lift_outcome (advertised (k_registry k) (own_adapter_id own)) in
           if negb (safe_reexecution adv)
           then raise ReplayNotAllowed
             ("adapter " +:+ own_adapter_id own +:+ " does not support safe re-execution")
           else ret tt
       end) ;;;
      in_world (at_store (fun _ => store_get_dead_letter t c)) ;;;
      let! request := in_world (at_store (fun now =>
        store_create_replay now t c (fresh_replay_id fresh) (p_subject p) key reason None)) in
      match replay_command_id request with
      | Some cid => in_world (svc_get t cid)
      | None =>
          let! env := in_world (svc_load_envelope t c) in
          let! result := kernel_submit fresh (replayed_envelope env (fresh_command_id fresh) nk (p_subject p))
                           p (Some REEXECUTE) (Some c) None None in
          in_world (at_store (fun _ =>
            store_complete_replay t (replay_id request) (command_id (op_command (sr_operation result))))) ;;;
          in_world (inc "replays" ["REEXECUTE"]) ;;;
          in_world (inc "replay_outcomes" ["submitted"]) ;;;
          ret (sr_operation result)
      end
  end.

(** [replay] *)
Definition replay (fresh : Fresh) (t : string) (c : UUID) (p : KernelPrincipal) (mode : ReplayMode)
    (key : string) (expected_version : Z) (reason : string) (new_key corr : option string) :
    KM CommandOperation :=
  if negb (mem_string PLATFORM_OPERATOR_ROLE (p_roles p))
  then raise ReplayNotAllowed "replay requires the platform-operator role"
  else
  let! original := in_world (svc_get t c) in
  match mode with
  | REPROCESS => reprocess original t c p key expected_version reason corr
  | REEXECUTE => reexecute fresh original t c p key reason new_key
  end.
End Kernel.
Arguments CommandKernel S X : clear implicits.
Arguments KernelState S X : clear implicits.
