(* ===== verification/Scenario.v ===== *)
(** * A concrete runtime

    The in-memory runtime of [src/app/platform/runtime.py] in the [test]
    environment with the synthetic TEST_SYN family, one submitted command and
    one worker: the concrete inputs on which the general theorems are applied,
    and end-to-end runs of the whole pipeline. *)

From Stdlib Require Import QArith.
From S2P Require Import Prelude Json Sha256 Uuid Commands LedgerSpec Ledger LedgerFacts.
From S2P Require Import Resilience Policy Safety Adapter Registry World Bus BusFacts.
From S2P Require Import Fixtures Reconciler MemoryBus Principal Kernel.
Local Open Scope nat_scope.

#[local] Existing Instance reference_externals.

(** ** Policies, switches, adapters *)

Definition synthetic_policy : CommandPolicy := {|
  prefix := "test.syn."; policy_target := "test-syn"; policy_capability := "TEST_SYN_EXECUTE";
  readback_required := true |}.
Definition odoo_policy : CommandPolicy := {|
  prefix := "odoo.crm."; policy_target := "odoo-19"; policy_capability := "ODOO_WRITE";
  readback_required := true |}.

Definition the_policies : CommandPolicyRegistry :=
  make_registry [synthetic_policy; odoo_policy]
    (list_to_map [("TEST_SYN_EXECUTE", true); ("ODOO_WRITE", true)]).

Definition the_settings : Settings := {|
  app_env := "test"; source_sha := "0000000"; external_effects := ∅; umbrella_controls := ∅ |}.

Definition synthetic_gate : CapabilityGate := {|
  gate_capability := "TEST_SYN_EXECUTE"; classification := "synthetic"; effect_flags := [];
  gate_umbrella_controls := []; environments := ["development"; "test"; "staging"; "preproduction"];
  campaign_scoped := false; synthetic_tenant_required := true |}.
Definition odoo_gate : CapabilityGate := {|
  gate_capability := "ODOO_WRITE"; classification := "external_effect"; effect_flags := [];
  gate_umbrella_controls := []; environments := ["test"; "staging"; "production"];
  campaign_scoped := false; synthetic_tenant_required := false |}.

Definition the_switches : SafetySwitches := {|
  safety_version := "2026-09-19.1"; global_kill_switch := false;
  provider_kill_switches := list_to_map [("test-syn", false); ("odoo-19", false)];
  synthetic_tenants := ["TEST_SYN"];
  gates := list_to_map [("TEST_SYN_EXECUTE", synthetic_gate); ("ODOO_WRITE", odoo_gate)];
  limits := {| tenant_commands_per_minute := 600; tenant_backlog_bound := 1000;
               global_backlog_bound := 10000 |} |}.

Definition the_gate : SafetyGate := new_gate the_settings the_policies the_switches.

Abbreviation FX := (gmap string FixtureState).
Abbreviation W := (World MemoryCommandStore FX).

Definition odoo_fixture : FixtureConfig :=
  fixture_config "odoo-fixture" "odoo" ["odoo-19"] ["ODOO_WRITE"].
Definition fixture (cfg : FixtureConfig) : Adapter W := FixtureAdapter dumps cfg.

Definition the_registry : AdapterRegistry W :=
  snd (register_all [complete_candidate "FixtureAdapter" (fixture test_syn_adapter);
                     complete_candidate "FixtureAdapter" (fixture odoo_fixture)]
         (new_registry the_policies)).

Definition the_bus_settings : BusSettings := {|
  bus_max_attempts := 5; default_timeout_seconds := 30; bulkhead_capacity := 8;
  breaker_threshold := 5; breaker_open_seconds := 30; timeouts_by_prefix := [] |}.

Definition the_dispatch : AdapterDispatch MemoryCommandStore FX := {|
  d_settings := the_settings; d_registry := the_registry; d_bus := the_bus_settings;
  d_worker_id := "worker:1"; d_others := id |}.

Definition the_bus : MemoryExecutionBus FX := {|
  mb_dispatch := the_dispatch; mb_max_attempts := 5; mb_lease_seconds := 60;
  mb_worker_id := "memory-bus" |}.

Definition the_reconciler : Reconciler MemoryCommandStore FX := {|
  r_settings := the_settings; r_registry := the_registry; r_source := MemoryReconciliationSource;
  r_budget := 6; r_lease_seconds := 60; r_timeout_seconds := 30; r_id := "reconciler:1" |}.

Definition the_kernel : CommandKernel MemoryCommandStore FX := {|
  k_settings := the_settings; k_policies := the_policies; k_registry := the_registry |}.

(** ** A command *)

Definition command (id : N) (behaviour : string) : CommandEnvelope := {|
  env_command_id := id;
  env_command_type := "test.syn.execute.v1";
  env_command_version := "1.0";
  env_target := "test-syn";
  env_tenant_id := "TEST_SYN";
  env_requested_by := "service:tester";
  env_correlation_id := "corr-1";
  env_idempotency_key := "key-" +:+ uuid_str id;
  env_capability := "TEST_SYN_EXECUTE";
  env_payload := [("fixture", JStr behaviour)] |}.

(** an external-effect command of the Odoo family *)
Definition odoo_command (id : N) : CommandEnvelope := {|
  env_command_id := id;
  env_command_type := "odoo.crm.write.v1";
  env_command_version := "1.0";
  env_target := "odoo-19";
  env_tenant_id := "tenant-a";
  env_requested_by := "service:tester";
  env_correlation_id := "corr-2";
  env_idempotency_key := "key-" +:+ uuid_str id;
  env_capability := "ODOO_WRITE";
  env_payload := [] |}.

Definition submitted (c : CommandEnvelope) : MemoryCommandStore :=
  snd (submit 1000%Z c "middleware-api" ADAPTER_COMMAND_DESTINATION None None empty_store).

(** a sequence of ledger transitions of one operation, from the worker *)
Fixpoint moves (t : string) (c : UUID) (l : list CommandState) (s : MemoryCommandStore) : MemoryCommandStore :=
  match l with
  | [] => s
  | st :: l' => moves t c l' (snd (transition 1001%Z t c st "worker:1" "moved" None None None s))
  end.

Definition at_state (c : CommandEnvelope) (l : list CommandState) : MemoryCommandStore :=
  moves (env_tenant_id c) (env_command_id c) l (submitted c).

Definition world (s : MemoryCommandStore) : W := mkWorld s 100%Q 1100%Z ∅ ∅ the_gate ∅ None [] [] [].

(** what a reader sees *)
Definition state_of (w : W) (c : CommandEnvelope) : option CommandState :=
  (fun x => op_state (snd x)) <$> commands (store w) !! (env_tenant_id c, env_command_id c).
Definition fixture_effects (w : W) : nat := provider_effects (default empty_fixture (ext w !! "test-syn")).

(** ** The concrete stores satisfy the invariant *)

Definition valid (c : CommandEnvelope) : bool := envelope_valid c && (env_command_id c <? uuid_bound)%N.

Lemma submitted_wf c : valid c = true -> wf (submitted c).
Proof.
  intros [Hv Hb]%andb_prop. apply N.ltb_lt in Hb. apply submit_preserves_wf; [done|done|apply wf_empty].
Qed.

Lemma transition_preserves_wf now t c st actor reason p e n :
  preserves wf (transition now t c st actor reason p e n).
Proof.
  intros s Hwf. pose proof (transition_refines s now t c st actor reason p e n Hwf) as Hi.
  destruct (spec_transition _ _ _ _ _); simpl in Hi.
  - by destruct Hi as (o & s' & -> & _ & ? & _).
  - by rewrite Hi.
Qed.

Lemma moves_wf t c l s : wf s -> wf (moves t c l s).
Proof. revert s. induction l as [|st l IH]; intros s Hs; simpl; [done|]. by apply IH, transition_preserves_wf. Qed.

Lemma at_state_wf c l : valid c = true -> wf (at_state c l).
Proof. intros Hv. by apply moves_wf, submitted_wf. Qed.

Lemma the_registry_ok : registry_ok the_registry.
Proof. apply register_all_ok, registry_ok_new. Qed.

(** ** Fixtures leave the ledger alone *)

Lemma fixture_quiet k cfg : quiet k (fixture cfg).
Proof.
  assert (Hu : forall g, leaves (S := MemoryCommandStore) k (update_fixture cfg g)) by (intros g; by apply leaves_same).
  assert (Hs : forall t, leaves (S := MemoryCommandStore) k (sleep t : M W unit)) by (intros g; by apply leaves_same).
  split; [intros c v|intros e c v|intros o c v..]; simpl.
  - apply preserves_ret.
  - unfold fixture_execute. apply preserves_bind; [apply Hu|intros _].
    apply preserves_bind; [apply preserves_gets|intros f].
    destruct (behaviour _ _ _) as [b f']. apply preserves_bind; [apply Hu|intros _].
    repeat (apply preserves_if; [|]);
      repeat (apply preserves_bind; [apply Hu || apply Hs|intros _]); apply preserves_ret || apply preserves_raise.
  - apply preserves_bind; [apply preserves_gets|intros f]. apply preserves_ret.
  - apply preserves_bind; [apply Hu|intros _]. apply preserves_bind; [apply preserves_gets|intros f].
    apply preserves_ret.
  - apply preserves_bind; [apply Hu|intros _]. apply preserves_bind; [apply preserves_gets|intros f].
    apply preserves_ret.
  - apply preserves_bind; [apply Hu|intros _]. apply preserves_ret.
Qed.

Lemma the_registry_fixtures aid a :
  reg_adapters the_registry !! aid = Some a -> exists cfg, a = fixture cfg.
Proof.
  change (reg_adapters the_registry) with
    (<["odoo-fixture" := fixture odoo_fixture]> (<["test-syn" := fixture test_syn_adapter]>
       (∅ : gmap string (Adapter W)))).
  intros Ha. apply lookup_insert_Some in Ha as [[_ <-]|[_ Ha]]; [by eexists|].
  apply lookup_insert_Some in Ha as [[_ <-]|[_ Ha]]; [by eexists|]. by rewrite lookup_empty in Ha.
Qed.

Lemma the_registry_quiet k aid a : reg_adapters the_registry !! aid = Some a -> quiet k a.
Proof. intros [cfg ->]%the_registry_fixtures. apply fixture_quiet. Qed.
