(* ===== verification/LedgerProps.v ===== *)
(** * Properties of the command ledger

    The in-memory ledger refines its specification, keeps its invariant and a
    complete audit trail along every history, and is idempotent, fenced and
    optimistic where it promises to be. *)

From Stdlib Require Import QArith.
From S2P Require Import Prelude Json Sha256 Uuid Commands LedgerSpec Ledger LedgerFacts.
From S2P Require Import Resilience Policy Safety Adapter Registry World Bus BusFacts.
From S2P Require Import Fixtures Reconciler MemoryBus Principal Kernel Scenario.
Local Open Scope nat_scope.

#[local] Opaque sha256_hex uuid_str.

(** ** Histories *)

Section Histories.
Context `{Externals}.

(** one state-changing call of the ledger, or a write of the shared outbox by
    the bus or the reconciler *)
Inductive ledger_step (s : MemoryCommandStore) : MemoryCommandStore -> Prop :=
  | ls_submit now c client dest ev tr : envelope_valid c = true -> (env_command_id c < uuid_bound)%N ->
      ledger_step s (snd (submit now c client dest ev tr s))
  | ls_transition now t c st actor reason p e n :
      ledger_step s (snd (transition now t c st actor reason p e n s))
  | ls_reconcile now t c matched actor reason p e n :
      ledger_step s (snd (reconcile now t c matched actor reason p e n s))
  | ls_mutate now t c action actor key version reason corr :
      ledger_step s (snd (mutate_operation now t c action actor key version reason corr s))
  | ls_dead_letter now t c code class reason poisoned exhausted :
      ledger_step s (snd (record_dead_letter now t c code class reason poisoned exhausted s))
  | ls_create_replay now t c rid actor key reason at_ :
      ledger_step s (snd (create_replay now t c rid actor key reason at_ s))
  | ls_complete_replay t rid c : ledger_step s (snd (complete_replay t rid c s))
  | ls_cancel_replay now t rid : ledger_step s (snd (cancel_replay now t rid s))
  | ls_outbox f : outbox_ids (f (outbox s)) -> ledger_step s (set_outbox f s).

Definition reachable (s : MemoryCommandStore) : Prop := rtc ledger_step empty_store s.

(** what one step may do to one operation *)
Definition step_on (v v' : option OpView) : Prop :=
  match v, v' with
  | None, None => True
  | None, Some x => exists c, x = initial_view c
  | Some _, None => False
  | Some x, Some y =>
      v_env y = v_env x /\ (v_attempts x <= v_attempts y)%nat /\ (v_version x <= v_version y)%Z /\
      (y = x \/ y = with_dead_letter x \/
       (audited_step (Some (v_state x)) (v_state y) = true /\
        (v_state y = completed -> is_Some (v_evidence y) \/ v_state x = readback_pending)))
  end.

Lemma step_on_refl v : step_on v v.
Proof. destruct v; simpl; [|done]. split_and!; [done|lia|lia|by left]. Qed.

Lemma implements_step m spec s k :
  implements wf mem_view m spec s k -> wf s ->
  (forall v', spec = Ret v' -> step_on (mem_view s k) (Some v')) ->
  wf (snd (m s)) /\ forall k', step_on (mem_view s k') (mem_view (snd (m s)) k').
Proof.
  intros Hi Hwf Hs. destruct spec as [v'|e]; simpl in Hi.
  - destruct Hi as (o & s' & -> & _ & Hwf' & Hv & Hne). split; [done|]. intros k'. simpl.
    destruct (decide (k' = k)) as [->|Hk]; [rewrite Hv; by apply Hs|].
    rewrite Hne by done. apply step_on_refl.
  - rewrite Hi. split; [done|]. intros k'. apply step_on_refl.
Qed.

Lemma transition_step ov st p e n v' :
  spec_transition ov st p e n = Ret v' -> step_on ov (Some v').
Proof.
  unfold spec_transition. destruct (bool_decide _ && _); [done|]. destruct ov as [v|]; [|done].
  destruct (match n with Some _ => _ | None => _ end); [done|].
  destruct (negb (state_in st _)) eqn:Hst; [done|]. intros [= <-].
  apply negb_false_iff in Hst. simpl. split_and!; [done|case_bool_decide; lia|lia|].
  right; right. unfold audited_step. rewrite Hst. split; [done|]. intros ->.
  right. apply completed_from_readback. by apply state_in_true.
Qed.

Lemma reconcile_step ov matched p e n v' :
  spec_reconcile ov matched p e n = Ret v' -> step_on ov (Some v').
Proof.
  unfold spec_reconcile. destruct ov as [v|]; [|done]. case_bool_decide as Hst; simpl; [|done].
  destruct (match n with Some _ => _ | None => _ end); [done|]. intros [= <-]. simpl.
  split_and!; [done|lia|lia|]. right; right. rewrite Hst. split; [by destruct matched|]. left. by eexists.
Qed.

Lemma mutate_step now t c action actor key version reason corr s :
  wf s ->
  let s' := snd (mutate_operation now t c action actor key version reason corr s) in
  wf s' /\ forall k, step_on (mem_view s k) (mem_view s' k).
Proof.
  intros Hwf. cbn zeta. destruct (mutate_operation _ _ _ _ _ _ _ _ _ s) as [r s'] eqn:Hm. simpl.
  destruct (mutate_cases _ _ _ _ _ _ _ _ _ _ _ _ Hwf Hm)
    as [(? & _ & -> & _)|[(? & ? & _ & _ & _ & ->)|
        (d & o & o' & e & atts & Hk & _ & Hv0 & _ & U & Hatts & _ & (s1 & Ha & _) & Hver & _)]].
  1,2: split; [done|]; intros k; apply step_on_refl.
  split; [by eapply updated_at_wf|]. intros k.
  destruct (mem_view_Some _ _ _ _ Hwf Hk) as (env & client & _ & _ & _ & _ & Hv).
  destruct (updated_at_view _ _ _ _ _ _ _ _ _ Hwf Hk U Hv) as [Hv' Hne].
  destruct (decide (k = (t, c))) as [->|Hd]; [|rewrite Hne by done; apply step_on_refl].
  rewrite Hv, Hv'. simpl. rewrite Hatts. simpl. split_and!; [done|lia|lia|]. right; right.
  split; [apply U|]. intros Hcomp. exfalso.
  pose proof (up_step _ _ _ _ _ _ _ _ U) as Hst. rewrite Hcomp in Hst.
  apply action_updates_completed in Ha. congruence.
Qed.

Lemma submit_step now c client dest ev tr s :
  envelope_valid c = true -> (env_command_id c < uuid_bound)%N -> wf s ->
  forall k, step_on (mem_view s k) (mem_view (snd (submit now c client dest ev tr s)) k).
Proof.
  intros Hv Hb Hwf k. destruct (submit _ _ _ _ _ _ s) as [r s'] eqn:Hs. simpl.
  destruct (submit_cases _ _ _ _ _ _ _ _ _ Hs)
    as [(? & _ & _ & ->)|[(? & ? & _ & -> & _)|(_ & _ & Hk & Hi & ->)]]; [apply step_on_refl..|].
  destruct (insert_new_view s now c client dest ev tr Hwf Hv Hb Hk) as [Hnew Hne].
  destruct (decide (k = (env_tenant_id c, env_command_id c))) as [->|Hd].
  - rewrite Hnew. apply (mem_view_None _ _ Hwf) in Hk as ->. by exists c.
  - rewrite Hne by done. apply step_on_refl.
Qed.

(** the replay methods write only the replay table *)
Lemma replays_frame s s' : s' = s \/ (exists f g, s' = set_replays f g s) ->
  wf s -> wf s' /\ forall k, mem_view s' k = mem_view s k.
Proof.
  intros [->|(f & g & ->)] Hwf; [done|]. split; [|done]. destruct Hwf as [He Hi Ho Hd].
  split; try done. intros k d o Hk. destruct (He k d o Hk). by split.
Qed.

Lemma create_replay_frame now t c rid actor key reason at_ s :
  let s' := snd (create_replay now t c rid actor key reason at_ s) in
  s' = s \/ exists f g, s' = set_replays f g s.
Proof.
  unfold create_replay, get_dead_letter, bind, gets, raise, modify, ret. simpl.
  repeat case_match; simplify_eq/=; eauto.
Qed.
Lemma complete_replay_frame t rid c s :
  let s' := snd (complete_replay t rid c s) in s' = s \/ exists f g, s' = set_replays f g s.
Proof.
  unfold complete_replay, bind, gets, raise, modify, ret. simpl. repeat case_match; simplify_eq/=; eauto.
Qed.
Lemma cancel_replay_frame now t rid s :
  let s' := snd (cancel_replay now t rid s) in s' = s \/ exists f g, s' = set_replays f g s.
Proof.
  unfold cancel_replay, bind, gets, raise, modify, ret. simpl. repeat case_match; simplify_eq/=; eauto.
Qed.

Lemma dead_letter_step now t c code class reason poisoned exhausted s :
  wf s ->
  let s' := snd (record_dead_letter now t c code class reason poisoned exhausted s) in
  wf s' /\ forall k, step_on (mem_view s k) (mem_view s' k).
Proof.
  intros Hwf. cbn zeta. destruct (mem_view s (t, c)) as [v|] eqn:Hv.
  - destruct (record_dead_letter_refines s now t c v code class reason poisoned exhausted Hwf Hv)
      as (r & s' & -> & Hwf' & Hv' & Hne). split; [done|]. intros k. simpl.
    destruct (decide (k = (t, c))) as [->|Hd]; [|rewrite Hne by done; apply step_on_refl].
    rewrite Hv, Hv'. simpl. split_and!; [done|lia|lia|by right; left].
  - apply mem_view_None in Hv; [|done]. unfold record_dead_letter, bind, get. rewrite Hv. simpl.
    split; [done|]. intros k. apply step_on_refl.
Qed.

(** every step keeps the invariant and acts on each operation as [step_on] says *)
Lemma ledger_step_spec s s' :
  ledger_step s s' -> wf s -> wf s' /\ forall k, step_on (mem_view s k) (mem_view s' k).
Proof.
  intros Hs Hwf. destruct Hs.
  - split; [by apply submit_preserves_wf|]. by apply submit_step.
  - eapply implements_step; [by apply transition_refines|done|]. intros v'. apply transition_step.
  - eapply implements_step; [by apply reconcile_refines|done|]. intros v'. apply reconcile_step.
  - by apply mutate_step.
  - by apply dead_letter_step.
  - destruct (replays_frame s _ (create_replay_frame now t c rid actor key reason at_ s) Hwf) as [? Hv].
    split; [done|]. intros k. rewrite Hv. apply step_on_refl.
  - destruct (replays_frame s _ (complete_replay_frame t rid c s) Hwf) as [? Hv].
    split; [done|]. intros k. rewrite Hv. apply step_on_refl.
  - destruct (replays_frame s _ (cancel_replay_frame now t rid s) Hwf) as [? Hv].
    split; [done|]. intros k. rewrite Hv. apply step_on_refl.
  - split; [|intros k; apply step_on_refl]. destruct Hwf as [He Hi Ho Hd]. split; try done.
    intros k d o Hk. destruct (He k d o Hk). by split.
Qed.

Lemma history_wf s s' : rtc ledger_step s s' -> wf s -> wf s'.
Proof. induction 1 as [|s s1 s' Hs _ IH]; [done|]. intros Hwf. by apply IH, (ledger_step_spec s s1). Qed.

(** what a whole history may do to one operation *)
Lemma history_spec s s' k v :
  rtc ledger_step s s' -> wf s -> mem_view s k = Some v ->
  exists v', mem_view s' k = Some v' /\ v_env v' = v_env v /\ (v_attempts v <= v_attempts v')%nat /\
    (v_version v <= v_version v')%Z /\ (terminal (v_state v) = true -> v_state v' = v_state v).
Proof.
  intros Hs. revert v. induction Hs as [|s s1 s' Hs _ IH]; intros v Hwf Hv.
  { exists v. split_and!; try done; lia. }
  destruct (ledger_step_spec _ _ Hs Hwf) as [Hwf1 Hstep]. specialize (Hstep k). rewrite Hv in Hstep.
  destruct (mem_view s1 k) as [v1|] eqn:Hv1; [|done].
  destruct Hstep as (He & Ha & Hn & Hcase). destruct (IH v1 Hwf1 eq_refl) as (v' & Hv' & He' & Ha' & Hn' & Ht).
  exists v'. split_and!; [done|congruence|lia|lia|]. intros Hterm.
  assert (v_state v1 = v_state v) as Heq.
  { destruct Hcase as [->|[->|[Haud _]]]; [done|done|]. exfalso. revert Hterm Haud.
    unfold terminal, audited_step. by destruct (v_state v), (v_state v1). }
  rewrite <- Heq. apply Ht. by rewrite Heq.
Qed.

(** ** What no step takes back *)

(** an operation keeps its identity and digest, a mutation its recorded answer *)
Record kept (s s' : MemoryCommandStore) : Prop := {
  kept_commands : forall k d o, commands s !! k = Some (d, o) ->
    exists o', commands s' !! k = Some (d, o') /\ op_command o' = op_command o;
  kept_mutations : forall mk x, mutations s !! mk = Some x -> mutations s' !! mk = Some x;
}.

Lemma kept_refl s : kept s s.
Proof. split; eauto. Qed.
Lemma kept_trans s1 s2 s3 : kept s1 s2 -> kept s2 s3 -> kept s1 s3.
Proof.
  intros [C1 M1] [C2 M2]. split; [|eauto]. intros k d o Hk.
  destruct (C1 _ _ _ Hk) as (o1 & Hk1 & Ho1). destruct (C2 _ _ _ Hk1) as (o2 & ? & ?).
  exists o2. split; congruence.
Qed.

Lemma kept_same s s' : commands s' = commands s -> mutations s' = mutations s -> kept s s'.
Proof. intros Hc Hm. split; intros *; rewrite ?Hc, ?Hm; eauto. Qed.

(** one operation replaced by one of the same identity *)
Lemma kept_update s s' k d o o' :
  commands s !! k = Some (d, o) -> op_command o' = op_command o ->
  commands s' = <[k := (d, o')]> (commands s) ->
  (mutations s' = mutations s \/
   exists mk x, mutations s !! mk = None /\ mutations s' = <[mk := x]> (mutations s)) ->
  kept s s'.
Proof.
  intros Hk Ho Hc Hm. split.
  - intros k' d' x Hk'. rewrite Hc. destruct (decide (k' = k)) as [->|Hne].
    + rewrite lookup_insert_eq. rewrite Hk in Hk'. injection Hk' as <- <-. by exists o'.
    + rewrite lookup_insert_ne by done. by exists x.
  - intros mk x Hx. destruct Hm as [->|(mk' & y & Hn & ->)]; [done|].
    rewrite lookup_insert_ne; [done|]. congruence.
Qed.

Lemma transition_kept now t c st actor reason p e n s :
  wf s -> kept s (snd (transition now t c st actor reason p e n s)).
Proof.
  intros Hwf. unfold transition. destruct (bool_decide _ && _); [apply kept_refl|].
  unfold bind at 1, gets. cbn [id]. destruct (commands s !! (t, c)) as [[d o]|] eqn:Hk; [|apply kept_refl].
  destruct (match n with Some _ => _ | None => _ end); [apply kept_refl|].
  destruct (negb (state_in st _)); [apply kept_refl|].
  destruct (entry_parts _ _ _ _ Hwf Hk) as (evs & atts & Hevs & Hatts & _).
  unfold bind at 1 2, modify at 1 2. cbv beta iota.
  erewrite bind_run by (by apply append_event_run).
  erewrite bind_run by (by apply update_attempts_run).
  eapply kept_update; [exact Hk| |reflexivity|by left]. done.
Qed.

Lemma reconcile_kept now t c matched actor reason p e n s :
  wf s -> kept s (snd (reconcile now t c matched actor reason p e n s)).
Proof.
  intros Hwf. unfold reconcile.
  unfold bind at 1, gets. cbn [id]. destruct (commands s !! (t, c)) as [[d o]|] eqn:Hk; [|apply kept_refl].
  destruct (negb (bool_decide _)); [apply kept_refl|].
  destruct (match n with Some _ => _ | None => _ end); [apply kept_refl|].
  destruct (entry_parts _ _ _ _ Hwf Hk) as (evs & atts & Hevs & Hatts & _).
  unfold bind at 1 2, modify at 1 2. cbv beta iota.
  erewrite bind_run by (by apply append_event_run).
  erewrite bind_run by (by apply update_attempts_run).
  eapply kept_update; [exact Hk| |reflexivity|by left]. done.
Qed.

Lemma mutate_kept now t c action actor key version reason corr s :
  wf s -> kept s (snd (mutate_operation now t c action actor key version reason corr s)).
Proof.
  intros Hwf. destruct (mutate_operation _ _ _ _ _ _ _ _ _ s) as [r s'] eqn:Hm. simpl.
  destruct (mutate_cases _ _ _ _ _ _ _ _ _ _ _ _ Hwf Hm)
    as [(? & _ & -> & _)|[(? & ? & _ & _ & _ & ->)|
        (d & o & o' & e & atts & Hk & Hmu & _ & _ & U & _ & Hmu' & _)]]; [apply kept_refl..|].
  eapply kept_update; [exact Hk|apply U|apply U|]. right. eauto.
Qed.

Lemma submit_kept now c client dest ev tr s : kept s (snd (submit now c client dest ev tr s)).
Proof.
  destruct (submit _ _ _ _ _ _ s) as [r s'] eqn:Hs. simpl.
  destruct (submit_cases _ _ _ _ _ _ _ _ _ Hs)
    as [(? & _ & _ & ->)|[(? & ? & _ & -> & _)|(_ & _ & Hk & _ & ->)]]; [apply kept_refl..|].
  rewrite insert_new_run. split; simpl; [|done]. intros k d o Hko. exists o.
  rewrite lookup_insert_ne; [done|]. congruence.
Qed.

Lemma step_kept s s' : ledger_step s s' -> wf s -> kept s s'.
Proof.
  intros Hs Hwf. destruct Hs.
  - apply submit_kept.
  - by apply transition_kept.
  - by apply reconcile_kept.
  - by apply mutate_kept.
  - destruct (commands s !! (t, c)) as [[d o]|] eqn:Hk.
    + destruct (record_dead_letter_run s now t c d o code class reason poisoned exhausted Hwf Hk)
        as (r & s' & -> & _ & _ & [->|[r' ->]]); by apply kept_same.
    + unfold record_dead_letter, bind, get. rewrite Hk. apply kept_refl.
  - destruct (create_replay_frame now t c rid actor key reason at_ s) as [->|(f & g & ->)]; by apply kept_same.
  - destruct (complete_replay_frame t rid c s) as [->|(f & g & ->)]; by apply kept_same.
  - destruct (cancel_replay_frame now t rid s) as [->|(f & g & ->)]; by apply kept_same.
  - by apply kept_same.
Qed.

Lemma history_kept s s' : rtc ledger_step s s' -> wf s -> kept s s'.
Proof.
  induction 1 as [|s s1 s' Hs _ IH]; intros Hwf; [apply kept_refl|].
  eapply kept_trans; [by apply step_kept|]. apply IH. by apply (ledger_step_spec s s1).
Qed.

(** the store after a first submission *)
Lemma submitted_entry now c client dest ev tr s s1 :
  submit now c client dest ev tr s = (Ret (new_operation c now), s1) ->
  commands s1 !! (env_tenant_id c, env_command_id c) =
    Some (authenticated_command_digest c client, new_operation c now).
Proof.
  intros Hs. destruct (submit_cases _ _ _ _ _ _ _ _ _ Hs)
    as [(? & ? & _)|[(? & o & Ho & _)|(_ & _ & _ & _ & ->)]]; [done|by destruct o|].
  rewrite insert_new_run. simpl. by rewrite lookup_insert_eq.
Qed.

Lemma submit_after_wf s now c client dest ev tr r s1 :
  wf s -> envelope_valid c = true -> (env_command_id c < uuid_bound)%N ->
  submit now c client dest ev tr s = (r, s1) -> wf s1.
Proof.
  intros Hwf Hv Hb Hs. pose proof (submit_preserves_wf now c client dest ev tr Hv Hb s Hwf) as Hp.
  by rewrite Hs in Hp.
Qed.

(** what [submit] answers when the tenant already holds the identity *)
Lemma resubmit now c client dest ev tr s d o :
  wf s -> commands s !! (env_tenant_id c, env_command_id c) = Some (d, o) ->
  idempotency_key (op_command o) = env_idempotency_key c ->
  mem_string dest COMMAND_DESTINATIONS = true ->
  submit now c client dest ev tr s =
    if command_digest_matches d c client then (Ret (as_duplicate o), s)
    else (Exc (Exn CommandConflict "command identity was reused with different content"), s).
Proof.
  intros Hwf Hk Hkey Hd. unfold submit. rewrite Hd. cbn [negb]. unfold bind at 1, gets. cbn [id].
  rewrite Hk. destruct (wf_entries _ Hwf _ _ _ Hk) as [Hks _ _ _ (o' & Hi & Ho')].
  simpl in Hi. rewrite Hkey in Hi. rewrite Hi. simpl. rewrite Ho', N.eqb_refl. simpl.
  by destruct (command_digest_matches d c client).
Qed.
End Histories.

(** ** Claims *)

Section Claims.
Context `{Externals}.

(** C1: on a well-formed store [transition] and [reconcile] of the in-memory
    ledger do exactly what the pure specification of one operation says: the
    specification's error with the store untouched, or the specified new view
    of that operation with every other operation's view unchanged. *)
Theorem ledger_refines_spec s now t c st actor reason p e n matched ev ver :
  wf s ->
  implements wf mem_view (transition now t c st actor reason p e n)
    (spec_transition (mem_view s (t, c)) st p e n) s (t, c) /\
  implements wf mem_view (reconcile now t c matched actor reason p ev ver)
    (spec_reconcile (mem_view s (t, c)) matched p ev ver) s (t, c).
Proof. intros Hwf. split; [by apply transition_refines|by apply reconcile_refines]. Qed.

(** In every store reachable by any history of ledger calls and outbox
    writes, an operation's events are numbered 1, 2, 3, ... and form a path of
    legal state changes from creation to exactly its current state, its
    attempts are numbered 1, 2, 3, ..., and its digest is that of the stored
    envelope. *)
Theorem ledger_audit_trail s k d o :
  reachable s -> commands s !! k = Some (d, o) ->
  (exists evs, events s !! k = Some evs /\ trail None evs (op_state o) /\
     map event_id evs = seq 1 (length evs)) /\
  (exists atts, attempts s !! k = Some atts /\ map attempt_number atts = seq 1 (length atts)) /\
  exists env client, payloads s !! k = Some (authenticated_command_payload env client) /\
    op_command o = identity_of env /\ d = authenticated_command_digest env client.
Proof.
  intros Hr Hk. pose proof (history_wf _ _ Hr wf_empty) as Hwf.
  destruct (wf_entries _ Hwf _ _ _ Hk) as [_ (env & client & ? & _ & _ & ? & ?) Hev Hat _].
  split_and!; [done|done|]. by exists env, client.
Qed.

(** Along any history an operation is never lost and never changes its
    envelope, its attempt count and resource version never go down, and once
    completed, dead-lettered or cancelled its state never changes again. *)
Theorem ledger_lifecycle s s' k v :
  wf s -> rtc ledger_step s s' -> mem_view s k = Some v ->
  exists v', mem_view s' k = Some v' /\ v_env v' = v_env v /\ (v_attempts v <= v_attempts v')%nat /\
    (v_version v <= v_version v')%Z /\ (terminal (v_state v) = true -> v_state v' = v_state v).
Proof. intros Hwf Hs. by apply history_spec. Qed.

(** A ledger step completes an operation only from [readback_pending], or
    by a reconciliation verdict on a [reconciliation_required] operation, which
    stores the readback evidence. *)
Theorem ledger_completion s s' k v v' :
  wf s -> ledger_step s s' -> mem_view s k = Some v -> mem_view s' k = Some v' ->
  v_state v <> completed -> v_state v' = completed ->
  v_state v = readback_pending \/ (v_state v = reconciliation_required /\ is_Some (v_evidence v')).
Proof.
  intros Hwf Hs Hv Hv' Hne Hc. destruct (ledger_step_spec _ _ Hs Hwf) as [_ Hstep].
  specialize (Hstep k). rewrite Hv, Hv' in Hstep.
  destruct Hstep as (_ & _ & _ & [->|[->|[Haud Hev]]]); [done|done|].
  destruct (Hev Hc) as [He|He]; [|by left].
  rewrite Hc in Haud. destruct (v_state v); try done; auto.
Qed.

(** C23: after a first submission, whatever happens to the ledger meanwhile,
    submitting the same command again for the same client answers the existing
    operation marked as a duplicate and writes nothing, so no second outbox
    intent exists. *)
Theorem submit_idempotent s now c client dest ev tr s1 s2 now' dest' ev' tr' :
  wf s -> envelope_valid c = true -> (env_command_id c < uuid_bound)%N ->
  submit now c client dest ev tr s = (Ret (new_operation c now), s1) ->
  rtc ledger_step s1 s2 -> mem_string dest' COMMAND_DESTINATIONS = true ->
  exists o, submit now' c client dest' ev' tr' s2 = (Ret (as_duplicate o), s2) /\
    op_command o = identity_of c.
Proof.
  intros Hwf Hv Hb Hs Hh Hd. pose proof (submitted_entry _ _ _ _ _ _ _ _ Hs) as Hk.
  pose proof (submit_after_wf _ _ _ _ _ _ _ _ _ Hwf Hv Hb Hs) as Hwf1.
  destruct (kept_commands _ _ (history_kept _ _ Hh Hwf1) _ _ _ Hk) as (o & Ho & Hid).
  exists o. split; [|done].
  rewrite (resubmit now' c client dest' ev' tr' s2 _ o (history_wf _ _ Hh Hwf1) Ho) by (by rewrite ?Hid).
  unfold command_digest_matches. rewrite (proj2 (mem_string_spec _ _)) by left. done.
Qed.

(** After a first submission, a submission that reuses its command id and
    idempotency key with a content or client that digests differently is
    refused with a conflict, whatever happened meanwhile, and changes nothing. *)
Theorem submit_identity_reuse s now c client dest ev tr s1 s2 now' c' client' dest' ev' tr' :
  wf s -> envelope_valid c = true -> (env_command_id c < uuid_bound)%N ->
  submit now c client dest ev tr s = (Ret (new_operation c now), s1) ->
  rtc ledger_step s1 s2 -> mem_string dest' COMMAND_DESTINATIONS = true ->
  env_tenant_id c' = env_tenant_id c -> env_command_id c' = env_command_id c ->
  env_idempotency_key c' = env_idempotency_key c ->
  command_digest_matches (authenticated_command_digest c client) c' client' = false ->
  exists msg, submit now' c' client' dest' ev' tr' s2 = (Exc (Exn CommandConflict msg), s2).
Proof.
  intros Hwf Hv Hb Hs Hh Hd Ht Hc Hi Hm. pose proof (submitted_entry _ _ _ _ _ _ _ _ Hs) as Hk.
  pose proof (submit_after_wf _ _ _ _ _ _ _ _ _ Hwf Hv Hb Hs) as Hwf1.
  destruct (kept_commands _ _ (history_kept _ _ Hh Hwf1) _ _ _ Hk) as (o & Ho & Hid).
  rewrite <- Ht, <- Hc in Ho.
  rewrite (resubmit now' c' client' dest' ev' tr' s2 _ o (history_wf _ _ Hh Hwf1) Ho) by (by rewrite ?Hid, ?Hi).
  rewrite Hm. by eexists.
Qed.

(** A worker that holds an attempt number other than the operation's
    current one cannot finalise anything: its transition is refused as a stale
    fencing token and the store is unchanged. *)
Theorem stale_attempt_fenced s now t c v st actor reason p e n :
  wf s -> mem_view s (t, c) = Some v -> st <> dispatching -> n <> v_attempts v ->
  (e = None \/ st ∈ [completed; reconciliation_required]) ->
  transition now t c st actor reason p e (Some n) s =
    (Exc (Exn CommandConflict "stale attempt fencing token"), s).
Proof.
  intros Hwf Hv Hst Hn He.
  pose proof (transition_refines s now t c st actor reason p e (Some n) Hwf) as Hi.
  rewrite Hv, spec_transition_stale in Hi; [exact Hi|done|congruence|done].
Qed.

(** An operator mutation is idempotent: once it succeeded, the same call
    answers the same operation (as a duplicate) and writes nothing, whatever
    happened to the ledger meanwhile. *)
Theorem mutation_idempotent s now t c action actor key version reason corr o s1 s2 now' corr' :
  wf s -> mutations s !! (t, c, action, actor, key) = None ->
  mutate_operation now t c action actor key version reason corr s = (Ret o, s1) ->
  rtc ledger_step s1 s2 ->
  mutate_operation now' t c action actor key version reason corr' s2 = (Ret (as_duplicate o), s2).
Proof.
  intros Hwf Hn Hm Hh.
  destruct (mutate_cases _ _ _ _ _ _ _ _ _ _ _ _ Hwf Hm)
    as [(? & ? & _)|[(? & ? & Hx & _)|
        (d & o0 & o' & e & atts & Hk & _ & _ & [= ->] & U & _ & Hmu & _)]]; [done|congruence|].
  assert (Hwf1 : wf s1) by (by eapply updated_at_wf).
  assert (Hk1 : commands s1 !! (t, c) = Some (d, o')) by (rewrite (up_commands _ _ _ _ _ _ _ _ U); apply lookup_insert_eq).
  destruct (history_kept _ _ Hh Hwf1) as [Hc Hmk]. destruct (Hc _ _ _ Hk1) as (o2 & Hk2 & _).
  unfold mutate_operation, bind, gets. cbn [id]. rewrite Hk2.
  rewrite (Hmk _ _ (eq_trans (f_equal (lookup _) Hmu) (lookup_insert_eq _ _ _))).
  by rewrite String.eqb_refl.
Qed.

(** Two operator mutations decided on the same version cannot both take
    effect: after one succeeded, any other one with that version is refused and
    changes nothing, whatever happened to the ledger meanwhile. *)
Theorem mutation_no_lost_update s now t c action actor key version reason corr o s1 s2
    now' action' actor' key' reason' corr' :
  wf s -> mutations s !! (t, c, action, actor, key) = None ->
  mutate_operation now t c action actor key version reason corr s = (Ret o, s1) ->
  rtc ledger_step s1 s2 -> mutations s2 !! (t, c, action', actor', key') = None ->
  mutate_operation now' t c action' actor' key' version reason' corr' s2 =
    (Exc (Exn CommandConflict "expected_version is stale"), s2).
Proof.
  intros Hwf Hn Hm Hh Hn2.
  destruct (mutate_cases _ _ _ _ _ _ _ _ _ _ _ _ Hwf Hm)
    as [(? & ? & _)|[(? & ? & Hx & _)|
        (d & o0 & o' & e & atts & Hk & _ & _ & [= ->] & U & _ & _ & _ & Hver & _)]]; [done|congruence|].
  assert (Hwf1 : wf s1) by (by eapply updated_at_wf).
  assert (Hk1 : commands s1 !! (t, c) = Some (d, o')) by (rewrite (up_commands _ _ _ _ _ _ _ _ U); apply lookup_insert_eq).
  destruct (mem_view_Some _ _ _ _ Hwf1 Hk1) as (env & client & _ & _ & _ & _ & Hv1).
  destruct (history_spec _ _ _ _ Hh Hwf1 Hv1) as (v2 & Hv2 & _ & _ & Hle & _). simpl in Hle.
  destruct (mem_view_inv _ _ _ (history_wf _ _ Hh Hwf1) Hv2) as (d2 & o2 & Hk2 & (_ & _ & _ & _ & Hov) & _).
  unfold mutate_operation, bind, gets. cbn [id]. rewrite Hk2, Hn2.
  assert ((op_resource_version o2 =? version)%Z = false) as -> by (apply Z.eqb_neq; lia). done.
Qed.

(** C39: a submitted command's envelope reads back from the stored payload
    exactly as it was submitted, whatever happened to the ledger meanwhile. *)
Theorem envelope_roundtrip s now c client dest ev tr s1 s2 :
  wf s -> envelope_valid c = true -> (env_command_id c < uuid_bound)%N ->
  submit now c client dest ev tr s = (Ret (new_operation c now), s1) ->
  rtc ledger_step s1 s2 ->
  load_envelope (env_tenant_id c) (env_command_id c) s2 = (Ret c, s2).
Proof.
  intros Hwf Hv Hb Hs Hh.
  destruct (submit_cases _ _ _ _ _ _ _ _ _ Hs)
    as [(? & ? & _)|[(? & o & Ho & _)|(_ & _ & Hk & _ & Hs1)]]; [done|by destruct o|].
  destruct (insert_new_view s now c client dest ev tr Hwf Hv Hb Hk) as [Hnew _]. rewrite <- Hs1 in Hnew.
  pose proof (submit_after_wf _ _ _ _ _ _ _ _ _ Hwf Hv Hb Hs) as Hwf1.
  destruct (history_spec _ _ _ _ Hh Hwf1 Hnew) as (v & Hv2 & He & _).
  pose proof (load_envelope_law (S := MemoryCommandStore) s2 _ _ _ (history_wf _ _ Hh Hwf1) Hv2) as Hl.
  rewrite He in Hl. exact Hl.
Qed.

(** The version fence of a reconciliation verdict does not see the
    worker's own transitions: an operation that was requeued, dispatched again
    (a new provider attempt) and parked again still carries the version read
    before, so a verdict about the old attempt completes it. *)
Theorem version_fence_blind s now t c v actor reason p ev :
  wf s -> mem_view s (t, c) = Some v -> v_state v = reconciliation_required ->
  exists v' o s'',
    let s' := moves t c [queued; dispatching; reconciliation_required] s in
    mem_view s' (t, c) = Some v' /\ v_attempts v' = S (v_attempts v) /\
    reconcile now t c true actor reason p ev (Some (v_version v)) s' = (Ret o, s'') /\
    op_state o = completed.
Proof.
  intros Hwf Hv Hst. cbn zeta.
  assert (Hmove : forall s v st, wf s -> mem_view s (t, c) = Some v ->
    state_in st (ALLOWED_COMMAND_TRANSITIONS (v_state v)) = true ->
    let s' := snd (transition 1001%Z t c st "worker:1" "moved" None None None s) in
    wf s' /\ mem_view s' (t, c) = Some (moved v st None None)).
  { intros s0 v0 st Hwf0 Hv0 Hok.
    pose proof (transition_refines s0 1001%Z t c st "worker:1" "moved" None None None Hwf0) as Hi.
    rewrite Hv0, (spec_transition_ok v0 st None None None Hok I I) in Hi.
    destruct Hi as (o & s' & -> & _ & ? & ? & _). done. }
  destruct (Hmove s v queued Hwf Hv) as [Hwf1 Hv1]; [by rewrite Hst|].
  destruct (Hmove _ _ dispatching Hwf1 Hv1) as [Hwf2 Hv2]; [done|].
  destruct (Hmove _ _ reconciliation_required Hwf2 Hv2) as [Hwf3 Hv3]; [done|].
  pose proof (reconcile_refines _ now t c true actor reason p ev (Some (v_version v)) Hwf3) as Hi.
  rewrite Hv3, spec_reconcile_ok in Hi by done.
  destruct Hi as (o & s'' & Hrun & (_ & Ho & _) & _).
  eexists _, o, s''. split_and!; [exact Hv3|done|exact Hrun|exact Ho].
Qed.
End Claims.
