(* ===== verification/BusProps.v ===== *)
(** * Properties of the execution bus and the reconciler

    Stated for any ledger that satisfies [LedgerLaws], any adapters and any
    interleaving the contract allows. *)

From Stdlib Require Import QArith.
From S2P Require Import Prelude Json Uuid Commands LedgerSpec Resilience Policy Safety.
From S2P Require Import Adapter Registry World Bus BusFacts Reconciler.
Local Open Scope nat_scope.

(** ** Replacing what [execute] does *)

Section Replace.
Context {W : Type}.

(** the same adapter with another [execute] *)
Definition replace_execute (e : CommandEnvelope -> AdapterContext -> M W Raw) (a : Adapter W) : Adapter W := {|
  adapter_id := adapter_id a; validate_config := validate_config a;
  adapter_capabilities := adapter_capabilities a; readiness := readiness a; execute := e;
  status := status a; readback := readback a; adapter_reconcile := adapter_reconcile a;
  adapter_cancel := adapter_cancel a; normalize_result := normalize_result a;
  classify_error := classify_error a; redact := redact a |}.

Definition registry_replace (e : CommandEnvelope -> AdapterContext -> M W Raw) (r : AdapterRegistry W) :
    AdapterRegistry W := {|
  reg_policies := reg_policies r; reg_adapters := replace_execute e <$> reg_adapters r;
  reg_advertised := reg_advertised r; reg_owners := reg_owners r; reg_validated := reg_validated r |}.

Lemma adapter_replace e r aid :
  adapter (registry_replace e r) aid =
    match adapter r aid with Ret a => Ret (replace_execute e a) | Exc x => Exc x end.
Proof. unfold adapter. simpl. rewrite lookup_fmap. by destruct (reg_adapters r !! aid). Qed.
End Replace.

Section Claims.
Context {S X : Type} `{LedgerLaws S}.
Abbreviation W := (World S X).
Implicit Types (w : W) (a : Adapter W).

Definition dispatch_replace e (d : AdapterDispatch S X) : AdapterDispatch S X := {|
  d_settings := d_settings d; d_registry := registry_replace e (d_registry d); d_bus := d_bus d;
  d_worker_id := d_worker_id d; d_others := d_others d |}.
Definition reconciler_replace e (r : Reconciler S X) : Reconciler S X := {|
  r_settings := r_settings r; r_registry := registry_replace e (r_registry r); r_source := r_source r;
  r_budget := r_budget r; r_lease_seconds := r_lease_seconds r;
  r_timeout_seconds := r_timeout_seconds r; r_id := r_id r |}.

(** [dispatched] by this world's adapters *)
Abbreviation ended d := (dispatched (S := S) (X := X) d).

(** the world a dispatch of the operation [(t, c)] runs in *)
Record dispatchable (d : AdapterDispatch S X) (k : Key) (v : OpView) (w : W) : Prop := {
  dp_registry : registry_ok (d_registry d);
  dp_others : forall k v w, at_view k v w -> at_view k v (d_others d w);
  dp_quiet : forall aid a, reg_adapters (d_registry d) !! aid = Some a -> quiet k a;
  dp_view : at_view k v w;
}.

(** states in which a provider effect may exist without a verdict *)
Definition in_flight (s : CommandState) : bool := state_in s [dispatching; accepted; readback_pending].


Lemma read_back_completed a v r v' :
  read_back a v r v' -> v_state v <> completed -> v_state v' = completed ->
  exists rb, r = Ret ("completed", rb) /\ rb_status rb = MATCHED /\ v' = conclude v rb /\
    exists o ctx w1 w2, op_command o = identity_of (v_env v) /\ readback a o ctx w1 = (Ret rb, w2).
Proof.
  intros Hr Hne Hc. destruct Hr as [rb Hobs Hs|rb msg Hobs Hs|]; [| |done].
  - destruct (rb_status rb) eqn:Hrb; unfold conclude in Hc; simpl in *; rewrite ?Hrb in Hc; try done.
    exists rb. split_and!; [done|done|done|]. destruct Hobs as (o & ctx & w1 & w2 & [Hid _] & Hobs).
    destruct (observe_readback_matched _ _ _ _ _ _ Hobs Hrb) as (w3 & w4 & Hread). by exists o, ctx, w3, w4.
  - unfold conclude in Hc. by destruct (rb_status rb).
Qed.

(** C2: a dispatch completes an operation only after the registered adapter
    that owns the command answered MATCHED to a readback of that very
    operation: the dispatch then returns with that readback, reports
    [completed], and the ledger holds its (redacted) evidence and the provider
    reference it named. *)
Theorem completed_only_matched d did t c n tr v w r w' v' :
  dispatchable d (t, c) v w -> dispatch d did t c n tr w = (r, w') -> at_view (t, c) v' w' ->
  v_state v <> completed -> v_state v' = completed ->
  exists out rb a o ctx w1 w2 p,
    r = Ret out /\ final_state out = "completed" /\ do_readback out = Some rb /\ rb_status rb = MATCHED /\
    serves d a v /\ op_command o = identity_of (v_env v) /\ readback a o ctx w1 = (Ret rb, w2) /\
    v_evidence v' = Some (readback_evidence rb p) /\ v_provider v' = str_or (rb_provider_operation_id rb) p.
Proof.
  intros Hdp Hd Hw' Hne Hc. destruct Hdp as [Hreg Ho Hq Hw].
  assert (Hwp : wp (dispatch d did t c n tr)
    (fun r w' => exists v', ended d v r v' /\ at_view (t, c) v' w') w)
    by (eapply dispatch_wp; eauto).
  destruct (wp_inv _ _ _ _ _ Hwp Hd) as (v2 & Hpost & Hw2).
  rewrite (at_view_fun _ _ _ _ Hw2 Hw') in Hpost. clear v2 Hw2 Hwp.
  assert (Hread : forall a v1 x, read_back a v1 x v' -> v_state v1 <> completed ->
    exists rb, x = Ret ("completed", rb) /\ rb_status rb = MATCHED /\
      v_evidence v' = Some (readback_evidence rb (v_provider v1)) /\
      v_provider v' = str_or (rb_provider_operation_id rb) (v_provider v1) /\
      exists o ctx w1 w2, op_command o = identity_of (v_env v1) /\ readback a o ctx w1 = (Ret rb, w2)).
  { intros a v1 x Hrb Hv1. destruct (read_back_completed _ _ _ _ Hrb Hv1 Hc) as (rb & -> & Hm & -> & Ho1).
    exists rb. unfold conclude. rewrite Hm. by split_and!. }
  destruct Hpost as [| out Hin _ _ _ | | | a x v'' out Hsv Hin Hrb Hf Hdo _ | a e v'' Hsv Hin Hrb
    | a result r v'' Hsv Hin Hans Hset | |]; try done.
  - unfold refuse in Hc. simpl in Hc. by destruct (state_in _ _).
  - destruct (Hread _ _ _ Hrb) as (rb & [= ->] & Hm & He & Hp & o & ctx & w1 & w2 & Hid & Hr1); [done|].
    by exists out, rb, a, o, ctx, w1, w2, (v_provider v).
  - by destruct (Hread _ _ _ Hrb) as (rb & ? & _).
  - destruct Hset as [out st rb v'' _ Hrb Hf _ Hdo _|e v'' _ Hrb|out _ _ _ _ _| | |]; try done.
    + destruct (Hread _ _ _ Hrb) as (rb' & [= -> ->] & Hm & He & Hp & o & ctx & w1 & w2 & Hid & Hr1); [done|].
      eexists out, rb', a, o, ctx, w1, w2, _. split_and!; done.
    + by destruct (Hread _ _ _ Hrb) as (rb & ? & _).
  - destruct H3 as [->|[_ ->]]; done.
Qed.


(** a recovery does not look at [execute] *)
Lemma recover_replace e d o env a t tr w :
  recover (dispatch_replace e d) o env (replace_execute e a) t tr w = recover d o env a t tr w.
Proof. reflexivity. Qed.

(** C9: no blind resend: dispatching an operation whose effect may already
    exist, or which is terminal, never runs [execute] — the dispatch is the same
    whatever [execute] would do. *)
Theorem no_blind_resend e d did t c n tr v w :
  at_view (t, c) v w ->
  in_flight (v_state v) || state_in (v_state v) [completed; failed; dead_lettered; cancelled] = true ->
  dispatch (dispatch_replace e d) did t c n tr w = dispatch d did t c n tr w.
Proof.
  intros Hw Hst. unfold dispatch.
  pose proof Hw as [Hok Hv]. pose proof (get_law _ t c Hok) as Hg. rewrite Hv in Hg.
  destruct Hg as (o & Hrun & _ & Hos & _).
  assert (Hcatch : catch_ (fun e => bool_decide (exn_cls e = CommandNotFound))
    (let! o := svc_get t c in ret (Some o)) (fun _ => ret None) w = (Ret (Some o), w)).
  { unfold catch_, bind, svc_get, at_store, zoom. rewrite Hrun. by destruct w. }
  erewrite !(bind_run _ _ w) by exact Hcatch. cbn beta iota. rewrite Hos.
  destruct (state_in (v_state v) [completed; failed; dead_lettered; cancelled]) eqn:Hterm; [done|].
  rewrite orb_false_r in Hst.
  assert (Hload : svc_load_envelope t c w = (Ret (v_env v), w)).
  { unfold svc_load_envelope, at_store, zoom. rewrite (load_envelope_law _ _ _ _ Hok Hv). by destruct w. }
  erewrite !(bind_run _ _ w) by exact Hload.
  change (ownership (d_registry (dispatch_replace e d)) (env_command_type (v_env v)))
    with (ownership (d_registry d) (env_command_type (v_env v))).
  destruct (ownership (d_registry d) _) as [own|]; [|done].
  change (d_registry (dispatch_replace e d)) with (registry_replace e (d_registry d)).
  rewrite adapter_replace. destruct (adapter (d_registry d) _) as [a|x]; [|done].
  rewrite !bind_lift_ret.
  change (adapter_capabilities (replace_execute e a)) with (adapter_capabilities a).
  destruct (negb (mem_string _ _)); [done|]. unfold in_flight in Hst. rewrite Hst. cbn zeta.
  apply recover_replace.
Qed.

(** An operation whose worker died in [readback_pending] cannot be
    recovered: every dispatch of it raises a conflict and every reconciliation
    pass leaves it, so the ledger keeps it in [readback_pending]. *)
Theorem readback_pending_stuck d r did t c n tr v w own a cl :
  dispatchable d (t, c) v w -> v_state v = readback_pending ->
  ownership (d_registry d) (env_command_type (v_env v)) = Some own ->
  adapter (d_registry d) (own_adapter_id own) = Ret a ->
  env_target (v_env v) ∈ adv_connector_ids (adapter_capabilities a) ->
  source_quiet r (t, c) -> (t, c) = (claim_tenant_id cl, claim_command_id cl) ->
  (exists msg w', dispatch d did t c n tr w = (Exc (Exn CommandConflict msg), w') /\
     at_view (t, c) v w') /\
  exists res w', reconcile_claim r cl w = (res, w') /\ at_view (t, c) v w' /\
    forall dec, res = Ret dec -> dec_action dec = "release".
Proof.
  intros [Hreg Ho Hq Hw] Hst Hown Ha Htgt Hsrc Hcl. split.
  - assert (Hwp : wp (dispatch d did t c n tr)
      (fun r w' => exists msg, r = Exc (Exn CommandConflict msg) /\ at_view (t, c) v w') w).
    { unfold dispatch. apply wp_bind, wp_catch, wp_bind. eapply wp_get; [done|]. intros o Hm. apply wp_ret.
      pose proof (matches_owned _ _ _ _ Hw Hm) as Hoo. pose proof Hm as (_ & Hos & _). rewrite Hos, Hst.
      cbn beta iota. apply wp_bind. eapply wp_load_envelope; [done|]. rewrite Hown, Ha.
      apply wp_bind, wp_lift. apply mem_string_spec in Htgt as ->. cbn [negb]. cbn zeta.
      unfold recover. pose proof (owned_key _ _ _ _ Hoo) as Hk. rewrite Hk in Hoo.
      apply wp_bind. eapply wp_latest_attempt; [apply Hoo|]. apply wp_bind. eapply wp_context; [exact Hoo|].
      intros ctx _. apply wp_bind, inc_same. intros w1 Hs. pose proof (owned_same _ _ _ _ _ Hs Hoo) as Ho1.
      rewrite Hos, Hst. apply wp_bind, wp_ret, wp_bind. unfold readback_. apply wp_bind. unfold advance.
      eapply wp_transition_exc; [apply Ho1|apply spec_transition_bad_edge; [by rewrite Hst|done]|].
      eexists. split; [done|]. rewrite Hk. apply Ho1. }
    destruct (dispatch d did t c n tr w) as [res w'] eqn:Hd.
    destruct (wp_inv _ _ _ _ _ Hwp Hd) as (msg & -> & ?). by exists msg, w'.
  - destruct (reconcile_claim r cl w) as [res w'] eqn:Hd. exists res, w'. split; [done|].
    assert (Hwp : wp (reconcile_claim r cl) (lands (t, c) "release" v) w).
    { unfold reconcile_claim. injection Hcl as <- <-. apply wp_bind, wp_catch, wp_bind.
      eapply wp_get; [done|]. intros o (_ & Hos & _). apply wp_ret. cbn zeta. rewrite Hos, Hst.
      rewrite !bool_decide_eq_false_2 by done. cbn [negb]. change (state_in readback_pending _) with false.
      cbn beta iota. apply (wp_source (t, c)); [apply sq_release, Hsrc|done|]. intros [] w1 Hw1.
      by apply wp_decide. }
    exact (wp_inv _ _ _ _ _ Hwp Hd).
Qed.

(** A worker whose attempt is no longer the operation's current one cannot
    finalise it, whatever its provider answered, as long as the operation is
    not back in the queue: it gets a conflict and the ledger is unchanged. *)
Theorem stale_worker_fenced d o a fam n ctx result v w k :
  at_view k v w -> op_command o = identity_of (v_env v) -> n <> v_attempts v ->
  state_in (v_state v) [persisted; queued] = false ->
  exists msg w', finalize d o a fam n ctx result w = (Exc (Exn CommandConflict msg), w') /\ at_view k v w'.
Proof.
  intros Hw Ho Hn Hst. pose proof (conj Hw Ho : owned k o v w) as Hoo.
  assert (Hwp : wp (finalize d o a fam n ctx result)
    (fun r w' => exists msg, r = Exc (Exn CommandConflict msg) /\ at_view k v w') w).
  { assert (Hadv : forall w1 st reason p A (f : CommandOperation -> M W A) (Q : outcome A -> W -> Prop),
      st <> dispatching -> owned k o v w1 ->
      (forall msg, Q (Exc (Exn CommandConflict msg)) w1) ->
      wp (bind (advance d o st reason p None (Some n)) f) Q w1).
    { intros w1 st reason p A f Q Hd Ho1 HQ. apply wp_bind. unfold advance.
      pose proof (owned_key _ _ _ _ Ho1) as Hk. rewrite Hk in Ho1.
      eapply wp_transition_exc; [apply Ho1|apply spec_transition_stale; [done|done|by left]|apply HQ]. }
    assert (Hfail : forall w1 reason b A (f : unit -> M W A),
      owned k o v w1 ->
      wp (bind (fail_ d o reason (Some n) b) f)
        (fun r w' => exists msg, r = Exc (Exn CommandConflict msg) /\ at_view k v w') w1).
    { intros w1 reason b A f Ho1. apply wp_bind. unfold fail_. apply wp_bind.
      pose proof (owned_key _ _ _ _ Ho1) as Hk. pose proof Ho1 as [Hw1 _]. rewrite Hk in Hw1.
      eapply wp_get; [exact Hw1|]. intros cur (_ & -> & _). rewrite Hst.
      apply Hadv; [done|done|]. intros msg. exists msg. split; [done|]. apply Ho1. }
    unfold finalize.
    destruct (res_outcome result); apply wp_bind;
      (apply breaker_success_same || apply breaker_failure_same); intros w1 Hs;
      pose proof (owned_same _ _ _ _ _ Hs Hoo) as Ho1;
      try (apply Hadv; [done|done|]; intros msg; exists msg; split; [done|apply Ho1]);
      try (apply Hfail; exact Ho1);
      apply wp_bind, inc_same; intros w2 Hs2; pose proof (owned_same _ _ _ _ _ Hs2 Ho1) as Ho2;
      try (apply Hadv; [done|done|]; intros msg; exists msg; split; [done|apply Ho2]);
      try (apply Hfail; exact Ho2).
    unfold finalize_transient. destruct (_ <=? _); [|by apply Hfail].
    apply Hadv; [done|done|]. intros msg. exists msg. split; [done|apply Ho2]. }
  destruct (finalize d o a fam n ctx result w) as [r w'] eqn:Hf.
  destruct (wp_inv _ _ _ _ _ Hwp Hf) as (msg & -> & ?). by exists msg, w'.
Qed.

(** The failure path is not fenced: when the operation is back in the
    queue, even for a newer attempt, a stale worker whose provider rejected its
    old attempt dead-letters the operation. *)
Theorem stale_rejection_dead_letters d o a fam n ctx result v w k :
  at_view k v w -> op_command o = identity_of (v_env v) -> n <> v_attempts v ->
  v_state v = queued -> res_outcome result = REJECTED ->
  exists out w', finalize d o a fam n ctx result w = (Ret out, w') /\
    at_view k (with_dead_letter (restate v dead_lettered)) w'.
Proof.
  intros Hw Ho Hn Hst Hr. pose proof (conj Hw Ho : owned k o v w) as Hoo.
  assert (Hwp : wp (finalize d o a fam n ctx result)
    (fun r w' => exists out, r = Ret out /\ at_view k (with_dead_letter (restate v dead_lettered)) w') w).
  { unfold finalize. rewrite Hr. apply wp_bind, breaker_failure_same. intros w1 Hs.
    pose proof (owned_same _ _ _ _ _ Hs Hoo) as Ho1. apply wp_bind, inc_same. intros w2 Hs2.
    pose proof (owned_same _ _ _ _ _ Hs2 Ho1) as Ho2. apply wp_bind. unfold fail_.
    pose proof (owned_key _ _ _ _ Ho2) as Hk. rewrite Hk in Ho2. apply wp_bind.
    eapply wp_get; [apply Ho2|]. intros cur (_ & -> & _). rewrite Hst. cbn [when].
    change (state_in queued [persisted; queued]) with true. cbn beta iota.
    rewrite bool_decide_eq_false_2 by done. apply wp_bind, wp_ret, wp_bind.
    eapply wp_advance; [exact Ho2|by rewrite Hst|done|done|]. intros o3 w3 _ Ho3.
    eapply wp_dead_letter; [by eapply owned_at; [exact Ho2|apply Ho3|]|]. intros w4 Hw4.
    apply wp_bind, inc_same. intros w5 Hs5. apply (at_view_same _ _ _ _ Hs5) in Hw4.
    eapply wp_record; [exact Hw4|]. intros w6 Hw6. eexists. split; [done|].
    rewrite moved_restate in Hw6 by done. by rewrite Hk. }
  destruct (finalize d o a fam n ctx result w) as [r w'] eqn:Hf.
  destruct (wp_inv _ _ _ _ _ Hwp Hf) as (out & -> & ?). by exists out, w'.
Qed.

(** the safety decision before execution knows no backlog *)
Lemma external_effect_denied now did s g rd :
  classify g (sub_capability s) = "external_effect" ->
  sd_allow (fst (safety_evaluate now did s
    {| adapter_registered := true; adapter_ready := Some rd; tenant_backlog := None;
       global_backlog := None |} false g)) = false.
Proof.
  intros Hc. rewrite safety_no_budget. simpl. apply bool_decide_eq_false. unfold standing_reasons.
  intros Hn. rewrite Hc in Hn. apply app_nil in Hn as [_ Hn]. apply app_nil in Hn as [_ Hn].
  apply app_nil in Hn as [_ Hn]. by apply app_nil in Hn as [Hn _].
Qed.

Lemma wp_evaluate_no_budget did s c Q w :
  Q (Ret (fst (safety_evaluate (clock w) did s c false (safety w)))) (set_safety (safety w) w) ->
  wp (evaluate_safety did s c false) Q w.
Proof. unfold wp, evaluate_safety. by rewrite safety_no_budget. Qed.

(** An external-effect capability is never executed: a dispatch of a queued
    command whose capability the safety table classifies so (and whose
    readiness probe does not rewrite that table) ends in a backoff that changes
    nothing or dead-letters the command; no attempt is opened. *)
Theorem external_effect_never_executes d did t c n tr v w r w' :
  dispatchable d (t, c) v w -> v_state v ∈ [persisted; queued] ->
  classify (safety w) (env_capability (v_env v)) = "external_effect" ->
  (forall aid a ctx w1, reg_adapters (d_registry d) !! aid = Some a ->
     safety (snd (readiness a ctx w1)) = safety w1) ->
  dispatch d did t c n tr w = (r, w') ->
  at_view (t, c) v w' \/ at_view (t, c) (refuse v) w'.
Proof.
  intros [Hreg Ho Hq Hw] Hst Hcls Hsafe Hd.
  assert (Hwp : wp (dispatch d did t c n tr)
    (fun r w' => at_view (t, c) v w' \/ at_view (t, c) (refuse v) w') w).
  2: { exact (wp_inv _ _ _ _ _ Hwp Hd). }
  unfold dispatch. apply wp_bind, wp_catch, wp_bind. eapply wp_get; [done|]. intros o Hm. apply wp_ret.
  pose proof (matches_owned _ _ _ _ Hw Hm) as Hoo. pose proof Hm as (Hid & Hos & _). rewrite Hos.
  assert (state_in (v_state v) [completed; failed; dead_lettered; cancelled] = false) as -> by by_state.
  cbn beta iota. apply wp_bind. eapply wp_load_envelope; [done|].
  assert (Hrefuse : forall reason w1, owned (t, c) o v w1 ->
    wp (fail_ d o reason None false ;;;
        record {| do_command_id := c; do_attempt := None; final_state := "failed";
          effect_attempted := false; do_result := None; do_readback := None |})
      (fun r w' => at_view (t, c) v w' \/ at_view (t, c) (refuse v) w') w1).
  { intros reason w1 Ho1. apply wp_bind. eapply wp_fail; [done|by_state|done|]. intros w2 Hw2.
    eapply wp_record; [done|]. intros w3 Hw3. by right. }
  destruct (ownership (d_registry d) _) as [own|] eqn:Hown; [|by apply Hrefuse].
  destruct (ownership_adapter _ _ _ Hreg Hown) as (a & p & Ha & Had & _). rewrite Had.
  apply wp_bind, wp_lift. destruct (negb (mem_string _ _)); [by apply Hrefuse|]. cbn zeta.
  assert (state_in (v_state v) [dispatching; accepted; readback_pending] = false) as -> by by_state.
  unfold execute_gated. apply wp_bind, wp_try.
  set (m := bind (context d o n _ tr _) _).
  assert (leaves (t, c) m /\ safety (snd (m w)) = safety w) as [Hleave Hsame].
  { split.
    - intros u. apply preserves_bind; [by apply leaves_same|]. intros ctx. by eapply leaves_wait_for, Hq.
    - unfold m, context, bind, gets, ret, wait_for. pose proof (fun ctx w1 => Hsafe _ a ctx w1 Ha) as Hsf.
      match goal with |- context [readiness a ?x w] => specialize (Hsf x w) end.
      by destruct (readiness a _ w) as [x w1]; destruct (negb _). }
  specialize (Hleave v w Hw). destruct (m w) as [x w1] eqn:Hrun. simpl in Hleave, Hsame.
  eapply wp_run; [exact Hrun|]. destruct x as [rd|e].
  2: { destruct (is_exception e); [apply wp_raise|]; by left. }
  apply wp_bind, wp_evaluate_no_budget. rewrite external_effect_denied.
  2: { cbn [subject_of sub_capability]. rewrite Hsame, Hid. exact Hcls. }
  cbn [negb]. apply wp_bind, inc_same. intros w2 Hs.
  assert (Ho2 : owned (t, c) o v w2) by (split; [by eapply at_view_same; [exact Hs|]|done]).
  destruct (String.eqb _ _); [apply wp_raise; left; apply Ho2|].
  pose proof (owned_key _ _ _ _ Ho2) as [= _ <-]. by apply Hrefuse.
Qed.

(** ** The reconciler *)

Lemma judge_replace e r cl o a adv n rb w :
  judge (reconciler_replace e r) cl o (replace_execute e a) adv n rb w = judge r cl o a adv n rb w.
Proof. reflexivity. Qed.

Lemma reconcile_parked_replace e r cl o w :
  reconcile_parked (reconciler_replace e r) cl o w = reconcile_parked r cl o w.
Proof.
  unfold reconcile_parked.
  change (ownership (r_registry (reconciler_replace e r)) (command_type (op_command o)))
    with (ownership (r_registry r) (command_type (op_command o))).
  destruct (ownership (r_registry r) _) as [own|]; [|done].
  change (r_registry (reconciler_replace e r)) with (registry_replace e (r_registry r)).
  rewrite adapter_replace. destruct (adapter (r_registry r) _) as [a|x]; [|done].
  rewrite !bind_lift_ret. reflexivity.
Qed.

(** The reconciler never issues a provider write: a whole pass, from the
    claim to the resolution, is the same whatever any adapter's [execute] would
    do. *)
Theorem reconciler_never_executes e r w :
  reconciler_run_once (reconciler_replace e r) w = reconciler_run_once r w.
Proof.
  unfold reconciler_run_once.
  change (src_claim (r_source (reconciler_replace e r)) (r_id (reconciler_replace e r))
    (r_lease_seconds (reconciler_replace e r))) with (src_claim (r_source r) (r_id r) (r_lease_seconds r)).
  apply bind_ext; [done|]. intros [cl|] w1; [|done].
  apply finally_ext, bind_ext; [|done]. unfold reconcile_claim. apply bind_ext; [done|].
  intros [o|] w2; [|done]. cbv zeta.
  destruct (bool_decide _); [done|]. destruct (state_in _ _); [done|]. destruct (negb _); [done|].
  apply reconcile_parked_replace.
Qed.

(** The verdict on a parked operation lands exactly as the reconciler's
    contract says, by readback status, budget and the adapter's declared
    safety of re-execution: MATCHED completes with the evidence; NOT_FOUND
    requeues only when re-execution is declared safe and budget is left;
    MISMATCH records the evidence and stays parked until the budget is spent;
    an unreadable provider changes nothing until then. *)
Theorem reconciler_contract r cl o a adv n rb v w :
  at_view (claim_tenant_id cl, claim_command_id cl) v w -> op_matches o v ->
  v_state v = reconciliation_required -> v_attempts v = n ->
  source_quiet r (claim_tenant_id cl, claim_command_id cl) ->
  let exhausted := (r_budget r <=? claim_attempts cl) || bool_decide (rb_status rb = RB_UNSUPPORTED) in
  let j := judgement (safe_reexecution adv) exhausted rb v in
  exists res w', judge r cl o a adv n rb w = (res, w') /\
    at_view (claim_tenant_id cl, claim_command_id cl) (snd j) w' /\
    forall dec, res = Ret dec -> dec_action dec = fst j.
Proof.
  intros Hw Hm Hst Hn Hsrc. cbn zeta. destruct (judge r cl o a adv n rb w) as [res w'] eqn:Hj.
  exists res, w'. split; [done|].
  exact (wp_inv _ _ _ _ _ (judge_wp r _ Hsrc cl o a adv n rb v w eq_refl Hw Hm Hst Hn) Hj).
Qed.

(** A verdict about an operation that an operator or another reconciler
    changed during the readback is discarded: nothing is recorded, and the
    claim is released instead of resolved. *)
Theorem stale_verdict_discarded r cl o matched reason p e v w :
  at_view (claim_tenant_id cl, claim_command_id cl) v w ->
  source_quiet r (claim_tenant_id cl, claim_command_id cl) ->
  op_resource_version o <> v_version v \/ v_state v <> reconciliation_required ->
  exists res w', fenced_reconcile r cl o matched reason p e w = (res, w') /\
    at_view (claim_tenant_id cl, claim_command_id cl) v w' /\ res <> Ret true.
Proof.
  intros Hw Hsrc Hch. destruct (fenced_reconcile r cl o matched reason p e w) as [res w'] eqn:Hf.
  exists res, w'. split; [done|].
  exact (wp_inv _ _ _ _ _ (fenced_reconcile_stale r _ Hsrc cl o matched reason p e v w eq_refl Hw Hch) Hf).
Qed.
End Claims.
