(* ===== verification/MemoryProps.v ===== *)
(** * Properties of the in-memory bus and reconciliation source *)

From Stdlib Require Import QArith Qminmax Lqa.
From S2P Require Import Prelude Json Uuid Commands LedgerSpec Ledger LedgerFacts Resilience Policy.
From S2P Require Import Safety Adapter Registry World Bus BusFacts Reconciler MemoryBus.
Local Open Scope nat_scope.

Section Facts.
Context `{Externals} {X : Type}.
Abbreviation W := (World MemoryCommandStore X).
Implicit Types w : W.

(** ** Writes to intents leave the operations alone *)

Lemma outbox_ids_alter l pos f :
  (forall i, intent_id (f i) = intent_id i) -> outbox_ids l -> outbox_ids (alter f pos l).
Proof.
  intros Hf Hl j it. destruct (decide (j = pos)) as [->|Hne].
  - rewrite list_lookup_alter_eq. destruct (l !! pos) as [x|] eqn:Hx; simpl; [|done].
    intros [= <-]. rewrite Hf. by apply Hl.
  - rewrite list_lookup_alter_ne by done. apply Hl.
Qed.

Lemma wf_set_outbox s f : wf s -> outbox_ids (f (outbox s)) -> wf (set_outbox f s).
Proof.
  intros [He Hi Ho Hd] Hf. split; try done. intros k d o Hk. destruct (He k d o Hk). by split.
Qed.

Lemma leaves_modify_intent k pos f :
  (forall i, intent_id (f i) = intent_id i) -> leaves k (modify_intent pos f : M W unit).
Proof.
  intros Hf v w [Hok Hv]. split; [|exact Hv]. apply wf_set_outbox; [done|].
  apply outbox_ids_alter; [done|apply Hok].
Qed.

Lemma leaves_source_item k cl rid : leaves k (source_item cl rid : M W nat).
Proof.
  apply leaves_same. intros w. unfold source_item, bind, gets, raise, ret. by repeat case_match.
Qed.

(** the memory source writes its rows, not the ledger's operations *)
Lemma memory_source_quiet (r : Reconciler MemoryCommandStore X) k :
  r_source r = MemoryReconciliationSource -> source_quiet r k.
Proof.
  intros Hr. split; rewrite Hr; simpl.
  - intros rid l v. apply preserves_bind; [apply preserves_gets|intros now].
    apply preserves_bind; [apply preserves_gets|intros rows].
    destruct (find_index _ rows) as [pos|]; [|apply preserves_ret].
    apply preserves_bind; [by apply leaves_modify_intent|intros _].
    apply preserves_bind; [apply preserves_gets|intros [i|]]; [|apply preserves_raise].
    apply preserves_bind; [apply preserves_lift|intros c; apply preserves_ret].
  - intros cl rid ac re v. apply preserves_bind; [apply leaves_source_item|intros pos].
    apply preserves_bind; [apply preserves_gets|intros now].
    apply preserves_bind; [by apply leaves_modify_intent|intros _].
    apply preserves_bind; [|intros _; by apply preserves_modify].
    repeat (apply preserves_if; [by apply leaves_modify_intent|]). apply preserves_raise.
  - intros cl rid re v. apply preserves_bind; [apply leaves_source_item|intros pos].
    apply preserves_bind; [by apply leaves_modify_intent|intros _]. by apply preserves_modify.
  - intros v. apply preserves_gets.
Qed.

(** ** Rows *)

Lemma modify_intent_run pos f w :
  modify_intent pos f w = (Ret tt, set_store (set_outbox (alter f pos) (store w)) w).
Proof. done. Qed.

Lemma intents_alter pos f w :
  intents (set_store (set_outbox (alter f pos) (store w)) w) = alter f pos (intents w).
Proof. done. Qed.

Lemma quarantined_not_claimable (bus : MemoryExecutionBus X) t i :
  is_Some (reconciliation_required_at i) -> claimable bus t i = false.
Proof.
  intros [q Hq]. unfold claimable. rewrite Hq. simpl. by rewrite !andb_false_r.
Qed.

(** [find_index] over an altered list at another row *)
Lemma lookup_alter_some {A} (f : A -> A) pos (l : list A) i :
  l !! pos = Some i -> alter f pos l !! pos = Some (f i).
Proof. intros Hi. by rewrite list_lookup_alter_eq, Hi. Qed.

Lemma retry_delay_bounds n : (1 <= retry_delay n)%Q /\ (retry_delay n <= 3600)%Q.
Proof.
  unfold retry_delay. split; [|apply Q.le_min_l]. apply Q.min_glb; [by unfold Qle|].
  change 1%Q with (inject_Z 1). rewrite <- Zle_Qle.
  pose proof (Z.pow_pos_nonneg 2 (Z.of_nat (Nat.min n 10)) ltac:(lia) ltac:(lia)). lia.
Qed.

(** the row after the clauses of [run_once]; [attempts] is the row's count *)
Definition settled_row (bus : MemoryExecutionBus X) (now : Q) (r : outcome unit) (i : MemoryOutboxIntent) :
    MemoryOutboxIntent :=
  match r with
  | Ret _ => set_end (next_attempt_at i) (Some now) (dead_lettered_at i) (unlease false i)
  | Exc e =>
      if bool_decide (exn_cls e = KnownSafeRetryError) then
        let i := set_error (exn_msg e) (unlease false i) in
        if (mb_max_attempts bus <=? attempt_count i)%nat
        then set_end (next_attempt_at i) (completed_at i) (Some now) i
        else set_end (now + retry_delay (attempt_count i))%Q (completed_at i) (dead_lettered_at i) i
      else if bool_decide (exn_cls e = UnknownOutcomeError) then set_error (exn_msg e) i
      else if is_exception e then set_error (exn_name e +:+ ": " +:+ exn_msg e) i
      else i
  end.

Lemma settle_intent_row bus pos id now r w i :
  intents w !! pos = Some i ->
  intents (snd (settle_intent bus pos id (attempt_count i) now r w)) !! pos = Some (settled_row bus now r i).
Proof.
  intros Hi. unfold settle_intent, settled_row. change (intents w) with (outbox (store w)) in Hi.
  change (attempt_count (set_error _ (unlease false i))) with (attempt_count i).
  destruct r as [u|e]; [|destruct (bool_decide (exn_cls e = KnownSafeRetryError));
    [destruct (mb_max_attempts bus <=? attempt_count i)
    |destruct (bool_decide (exn_cls e = UnknownOutcomeError)); [|destruct (is_exception e)]]];
    unfold bind, modify_intent, modify, reraise, intents; destruct w as [[] ? ? ? ? ? ? ? ? ? ?];
    cbn -[retry_delay] in *; rewrite ?list_lookup_alter_eq, Hi; done.
Qed.
End Facts.

(** ** Claims *)

Section Claims.
Context `{Externals} {X : Type}.
Abbreviation W := (World MemoryCommandStore X).
Implicit Types w : W.

(** Provider code runs only behind the quarantine: when the bus takes a
    row, the handler starts in a world where that very row is already marked
    as requiring reconciliation, leased and counted, so that no bus instance
    can claim it again whatever the time, and a crash leaves it parked. *)
Theorem quarantine_before_provider (bus : MemoryExecutionBus X) did w pos i :
  find_index (claimable bus (clock w)) (intents w) = Some pos -> intents w !! pos = Some i ->
  exists w1 i1,
    intents w1 !! pos = Some i1 /\ i1 = claim_intent bus (clock w) i /\
    attempt_count i1 = S (attempt_count i) /\ attempt_count i1 <= mb_max_attempts bus /\
    (forall t, claimable bus t i1 = false) /\
    run_once bus did w =
      (let (r, w2) := handle (mb_dispatch bus) did (record_of i1) w1 in
       (settle_intent bus pos (intent_id i1) (from_option attempt_count 0 (intents w2 !! pos)) (clock w2) r ;;;
        ret true) w2).
Proof.
  intros Hf Hi. destruct (find_index_Some _ _ _ Hf) as (j & Hj & Hc). rewrite Hi in Hj. injection Hj as <-.
  set (w1 := set_store (set_outbox (alter (claim_intent bus (clock w)) pos) (store w)) w).
  assert (Hi1 : intents w1 !! pos = Some (claim_intent bus (clock w) i)) by (by apply lookup_alter_some).
  exists w1, (claim_intent bus (clock w) i). split_and!; [done|done|done| | |].
  - unfold claimable in Hc. simpl. repeat (apply andb_prop in Hc as [Hc ?]).
    match goal with Hlt : (_ <? _)%nat = true |- _ => apply Nat.ltb_lt in Hlt; lia end.
  - intros t. apply quarantined_not_claimable. by eexists.
  - unfold run_once. unfold bind at 1 2, gets at 1 2. rewrite Hf.
    erewrite bind_run by apply modify_intent_run. fold w1. unfold bind at 1, gets at 1. rewrite Hi1.
    unfold bind at 1, attempted. by destruct (handle _ _ _ w1) as [r w2].
Qed.

(** What becomes of the row after the dispatch, by how the handler ended.
    Success completes it; a known-safe retry dead-letters it once the attempt
    budget is spent and otherwise schedules it between one second and an hour
    later, claimable again from that moment; every other exception leaves it
    quarantined, so that the bus never claims it again by itself. *)
Theorem settled_row_contract (bus : MemoryExecutionBus X) pos id now r w i :
  intents w !! pos = Some i -> is_Some (reconciliation_required_at i) ->
  exists i', intents (snd (settle_intent bus pos id (attempt_count i) now r w)) !! pos = Some i' /\
    match r with
    | Ret _ => completed_at i' = Some now /\ reconciliation_required_at i' = None /\ lease_owner i' = None
    | Exc e =>
        if bool_decide (exn_cls e = KnownSafeRetryError) then
          reconciliation_required_at i' = None /\ lease_owner i' = None /\
          if (mb_max_attempts bus <=? attempt_count i)%nat
          then dead_lettered_at i' = Some now /\ forall t, claimable bus t i' = false
          else (now + 1 <= next_attempt_at i')%Q /\ (next_attempt_at i' <= now + 3600)%Q /\
               (intent_destination i = ADAPTER_COMMAND_DESTINATION -> completed_at i = None ->
                dead_lettered_at i = None -> intent_cancelled_at i = None ->
                forall t, claimable bus t i' = Qle_bool (next_attempt_at i') t)
        else reconciliation_required_at i' = reconciliation_required_at i /\
             forall t, claimable bus t i' = false
    end.
Proof.
  intros Hi Hq. exists (settled_row bus now r i). split; [by apply settle_intent_row|].
  destruct r as [u|e]; [done|]. unfold settled_row. destruct (bool_decide (exn_cls e = KnownSafeRetryError)).
  - cbn [attempt_count set_error unlease set_claim].
    destruct (mb_max_attempts bus <=? attempt_count i)%nat eqn:Hmax; simpl; split_and!; try done.
    + intros t. unfold claimable. simpl. by rewrite !andb_false_r.
    + pose proof (retry_delay_bounds (attempt_count i)). lra.
    + pose proof (retry_delay_bounds (attempt_count i)). lra.
    + intros Hd Hc Hdl Hx t. unfold claimable. simpl. rewrite Hd, Hc, Hdl, Hx. simpl.
      apply Nat.leb_gt in Hmax. apply Nat.ltb_lt in Hmax as ->. simpl. by rewrite andb_true_r.
  - destruct (bool_decide _); [|destruct (is_exception e)]; split; try done; intros t;
      by apply quarantined_not_claimable.
Qed.

(** A row the reconciler returns to the queue after its last attempt is
    orphaned: resolving it with [retry] leaves the attempt count alone, so from
    then on neither the bus (its budget is spent) nor the reconciler (its
    quarantine is lifted) can ever claim it, while its command waits in the
    queue. *)
Theorem requeued_row_orphaned (bus : MemoryExecutionBus X) cl rid reason w w' pos i :
  find_index (fun x => (intent_id x =? claim_outbox_id cl)%nat) (intents w) = Some pos ->
  intents w !! pos = Some i -> mb_max_attempts bus <= attempt_count i ->
  source_resolve cl rid "retry" reason w = (Ret tt, w') ->
  exists i', intents w' !! pos = Some i' /\
    forall t, claimable bus t i' = false /\ reconcilable t i' = false.
Proof.
  intros Hf Hi Hmax. unfold source_resolve, source_item, bind, gets. rewrite Hf, Hi.
  destruct (bool_decide _); [|done]. cbv beta iota. unfold modify_intent, modify, ret.
  change (String.eqb "retry" "complete") with false. change (String.eqb "retry" "dead_letter") with false.
  change (String.eqb "retry" "retry") with true. cbv beta iota. intros [= <-].
  eexists. split.
  { unfold intents. simpl. rewrite !list_lookup_alter_eq. unfold intents in Hi. by rewrite Hi. }
  intros t. apply Nat.ltb_ge in Hmax. unfold claimable, reconcilable. simpl. rewrite Hmax. simpl.
  by rewrite !andb_false_r.
Qed.
End Claims.

(** ** The drain of the in-memory bus ends

    [MemoryExecutionBus.drain] of [src/app/platform/memory.py] loops while
    [run_once] finds a row.  Every pass that finds one spends an attempt of
    that row, so the loop runs at most as often as the rows have attempts
    left, whatever the adapters do and answer. *)

Section Drain.
Context `{Externals} {X : Type}.
Abbreviation W := (World MemoryCommandStore X).
Implicit Types (w : W) (a : Adapter W).

(** the attempts spent on each row of the outbox, in order *)
Definition counts w : list nat := attempt_count <$> intents w.

(** the action spends no attempt and neither adds nor removes a row *)
Definition unspent {A} (m : M W A) : Prop := forall l, preserves (fun w => counts w = l) m.

Lemma unspent_same {A} (m : M W A) : (forall w, store (snd (m w)) = store w) -> unspent m.
Proof. intros Hm l w <-. unfold counts, intents. by rewrite Hm. Qed.

Lemma unspent_outbox {A} (f : datetime -> MemM A) :
  (forall now l, preserves (fun s => outbox s = l) (f now)) -> unspent (at_store f : M W A).
Proof.
  intros Hf l w <-. unfold at_store, zoom, counts, intents. specialize (Hf (wall w) _ (store w) eq_refl).
  destruct (f (wall w) (store w)) as [r s]. simpl in *. by rewrite Hf.
Qed.

(** ** The ledger does not write the outbox *)

Lemma update_at_outbox {V} (g : MemoryCommandStore -> gmap Key V) set k f l :
  (forall h s, outbox (set h s) = outbox s) -> preserves (fun s => outbox s = l) (update_at g set k f).
Proof. intros Hset s <-. unfold update_at. destruct (g s !! k); [apply Hset|done]. Qed.

Lemma get_outbox t c l : preserves (fun s => outbox s = l) (get t c).
Proof. intros s Hs. unfold get. by repeat case_match. Qed.

Ltac walk_step :=
  match goal with
  | |- preserves _ (ret _) => apply preserves_ret
  | |- preserves _ (raise _ _) => apply preserves_raise
  | |- preserves _ (reraise _) => apply preserves_reraise
  | |- preserves _ (gets _) => apply preserves_gets
  | |- preserves _ (lift_outcome _) => apply preserves_lift
  | |- preserves _ (bind _ _) => apply preserves_bind; [|intros ?]
  | |- preserves _ (when _ _) => apply preserves_when
  | |- preserves _ (try_ _ _) => apply preserves_try; [|intros ?]
  | |- preserves _ (catch_ _ _ _) => apply preserves_catch; [|intros ?]
  | |- preserves _ (finally_ _ _) => apply preserves_finally
  | |- preserves _ (match ?x with _ => _ end) => destruct x
  | |- preserves _ (let _ := _ in _) => cbv zeta
  end.

Ltac ledger_step :=
  first [ walk_step | apply get_outbox | by (apply preserves_modify; intros [])
        | by (apply update_at_outbox; intros ? []) ].

Lemma transition_outbox now t c st actor reason p e n l :
  preserves (fun s => outbox s = l) (transition now t c st actor reason p e n).
Proof. unfold transition, append_event. repeat ledger_step. Qed.

Lemma unspent_get t c : unspent (svc_get t c : M W _).
Proof. apply unspent_outbox. intros now. apply get_outbox. Qed.
Lemma unspent_load t c : unspent (svc_load_envelope t c : M W _).
Proof.
  apply unspent_outbox. intros now l. simpl. unfold load_envelope. repeat ledger_step.
  intros s Hs. by case_match.
Qed.
Lemma unspent_latest t c : unspent (svc_latest_attempt t c : M W _).
Proof. apply unspent_outbox. intros now l. simpl. unfold latest_attempt. repeat ledger_step. Qed.
Lemma unspent_transition t c st actor reason p e n : unspent (svc_transition t c st actor reason p e n : M W _).
Proof. apply unspent_outbox. intros now l. apply transition_outbox. Qed.
Lemma unspent_dead_letter t c code class reason p x :
  unspent (svc_record_dead_letter t c code class reason p x : M W _).
Proof. apply unspent_outbox. intros now l. simpl. unfold record_dead_letter, latest_attempt. repeat ledger_step. Qed.

(** ** Nor does the dispatcher, when its adapters do not *)

(** a kernel whose adapters, and the tasks that run while it waits for a
    permit, leave the outbox to the bus *)
Record outbox_private (d : AdapterDispatch MemoryCommandStore X) : Prop := {
  private_readiness aid a c : adapter (d_registry d) aid = Ret a -> unspent (readiness a c);
  private_execute aid a e c : adapter (d_registry d) aid = Ret a -> unspent (execute a e c);
  private_status aid a o c : adapter (d_registry d) aid = Ret a -> unspent (status a o c);
  private_readback aid a o c : adapter (d_registry d) aid = Ret a -> unspent (readback a o c);
  private_others w : counts (d_others d w) = counts w;
}.

Lemma unspent_wait_for {A} t (m : M W A) : unspent m -> unspent (wait_for t m).
Proof.
  intros Hm l w Hw. unfold wait_for. specialize (Hm l w Hw). destruct (m w) as [r w']. by destruct (negb _).
Qed.

Context (d : AdapterDispatch MemoryCommandStore X).

Lemma unspent_breaker_admit aid : unspent (breaker_admit (d_bus d) aid : M W unit).
Proof.
  apply unspent_same. intros w. unfold breaker_admit, get_breaker, bind, gets.
  destruct (breakers w !! aid); destruct (cb_admit _ _) as [[[] b'] ts]; done.
Qed.
Lemma unspent_breaker_success aid : unspent (breaker_success (d_bus d) aid : M W unit).
Proof.
  apply unspent_same. intros w. unfold breaker_success, get_breaker, bind.
  destruct (breakers w !! aid); destruct (record_success _); done.
Qed.
Lemma unspent_breaker_failure aid : unspent (breaker_failure (d_bus d) aid : M W unit).
Proof.
  apply unspent_same. intros w. unfold breaker_failure, get_breaker, bind, gets.
  destruct (breakers w !! aid); destruct (record_failure _ _); done.
Qed.
Lemma unspent_safety did s c b : unspent (evaluate_safety did s c b : M W SafetyDecision).
Proof. apply unspent_same. intros w. unfold evaluate_safety. by destruct (safety_evaluate _ _ _ _ _ _). Qed.
Lemma unspent_bulkhead_do aid e : unspent (bulkhead_do aid e : M W unit).
Proof. apply unspent_same. intros w. unfold bulkhead_do, modify. simpl. by repeat case_match. Qed.
Lemma unspent_get_bulkhead aid : unspent (get_bulkhead (d_bus d) aid : M W Bulkhead).
Proof. apply unspent_same. intros w. unfold get_bulkhead. by repeat case_match. Qed.

(** what is said of a looked-up adapter may use that it is the one looked up *)
Lemma preserves_lookup {A B} (P : W -> Prop) (o : outcome A) (k : A -> M W B) :
  (forall x, o = Ret x -> preserves P (k x)) -> preserves P (bind (lift_outcome o) k).
Proof. intros Hk. destruct o as [x|e]; [|by intros w Hw]. intros w Hw. by apply (Hk x). Qed.

Ltac bus_step :=
  first [ match goal with |- preserves _ (bind (lift_outcome (adapter _ _)) _) =>
            apply preserves_lookup; intros ? ? end
        | walk_step
        | match goal with
          | |- preserves _ (svc_get _ _) => apply unspent_get
          | |- preserves _ (svc_load_envelope _ _) => apply unspent_load
          | |- preserves _ (svc_latest_attempt _ _) => apply unspent_latest
          | |- preserves _ (svc_transition _ _ _ _ _ _ _ _) => apply unspent_transition
          | |- preserves _ (svc_record_dead_letter _ _ _ _ _ _ _) => apply unspent_dead_letter
          | |- preserves _ (breaker_admit _ _) => apply unspent_breaker_admit
          | |- preserves _ (breaker_success _ _) => apply unspent_breaker_success
          | |- preserves _ (breaker_failure _ _) => apply unspent_breaker_failure
          | |- preserves _ (evaluate_safety _ _ _ _) => apply unspent_safety
          | |- preserves _ (bulkhead_do _ _) => apply unspent_bulkhead_do
          | |- preserves _ (get_bulkhead _ _) => apply unspent_get_bulkhead
          | |- preserves _ (wait_for _ _) => apply unspent_wait_for
          | |- preserves _ (inc _ _) => by apply unspent_same
          | |- preserves _ (observe _ _ _) => by apply unspent_same
          | |- preserves _ (record _) => by apply unspent_same
          end ].

Lemma unspent_bulkhead_call {A} aid (m : M W A) :
  outbox_private d -> unspent m -> unspent (bulkhead_call (d_bus d) (d_others d) aid m).
Proof.
  intros Hp Hm l. unfold bulkhead_call. repeat bus_step; try apply Hm.
  apply preserves_modify. intros w. by rewrite (private_others _ Hp).
Qed.

Lemma unspent_fail o reason n b : unspent (fail_ d o reason n b).
Proof. intros l. unfold fail_, advance, dead_letter. repeat bus_step. Qed.

Section OneAdapter.
Context (Hp : outbox_private d) (a : Adapter W) (aid : string) (Ha : adapter (d_registry d) aid = Ret a).

Lemma unspent_observe_readback o ctx : unspent (observe_readback a o ctx).
Proof.
  intros l. unfold observe_readback, status_readback. repeat bus_step.
  - by eapply private_status.
  - by eapply private_readback.
Qed.

Lemma unspent_readback o ctx n : unspent (readback_ d o a ctx n).
Proof.
  intros l. unfold readback_, conclude_readback, advance.
  repeat (bus_step || apply unspent_observe_readback).
Qed.

Lemma unspent_finalize o fam n ctx result : unspent (finalize d o a fam n ctx result).
Proof.
  intros l. unfold finalize, finalize_transient, advance, dead_letter.
  repeat (bus_step || apply unspent_readback || apply unspent_fail).
Qed.

Lemma unspent_recover o env t tr : unspent (recover d o env a t tr).
Proof. intros l. unfold recover, context, advance. repeat (bus_step || apply unspent_readback). Qed.

Lemma unspent_execute_gated did o env t n tr : unspent (execute_gated d did o env a t n tr).
Proof.
  intros l. unfold execute_gated, execute_attempt, run_execute, context, advance.
  repeat (bus_step || apply unspent_finalize || apply unspent_fail
          || by (apply unspent_bulkhead_call; [done|]; eapply unspent_wait_for, private_execute; eauto)
          || by eapply private_readiness).
Qed.
End OneAdapter.

Lemma unspent_handle did r : outbox_private d -> unspent (handle d did r).
Proof.
  intros Hp l. unfold handle, dispatch.
  repeat (bus_step || apply unspent_fail || by eapply unspent_recover || by eapply unspent_execute_gated).
Qed.
End Drain.

Section Claims.
Context `{Externals} {X : Type}.
Abbreviation W := (World MemoryCommandStore X).
Implicit Types w : W.
Context (bus : MemoryExecutionBus X).

Lemma unspent_modify_intent pos f :
  (forall i, attempt_count (f i) = attempt_count i) -> unspent (modify_intent pos f : M W unit).
Proof.
  intros Hf l w <-. unfold counts, intents. simpl. apply list_eq. intros j. rewrite !list_lookup_fmap.
  destruct (decide (j = pos)) as [->|Hne]; [rewrite list_lookup_alter_eq|by rewrite list_lookup_alter_ne].
  destruct (outbox (store w) !! pos); simpl; [by rewrite Hf|done].
Qed.

Lemma unspent_settle pos id n now r : unspent (settle_intent bus pos id n now r : M W unit).
Proof.
  intros l. unfold settle_intent.
  repeat first [ apply preserves_bind; [|intros ?] | apply preserves_reraise
               | match goal with |- preserves _ (match ?x with _ => _ end) => destruct x end
               | by apply unspent_modify_intent | by apply unspent_same ].
Qed.

(** the attempts the rows have left *)
Definition spare w : nat := sum_list_with (fun n => mb_max_attempts bus - n) (counts w).

(** ** One pass *)

Lemma counts_claim now pos i w :
  intents w !! pos = Some i ->
  counts (snd (modify_intent pos (claim_intent bus now) w)) = <[pos := S (attempt_count i)]> (counts w).
Proof.
  intros Hi. unfold counts, intents in *. simpl. apply list_eq. intros j. rewrite list_lookup_fmap.
  destruct (decide (j = pos)) as [->|Hne].
  - rewrite list_lookup_alter_eq, Hi, list_lookup_insert_eq; [done|].
    rewrite length_fmap. by eapply lookup_lt_Some.
  - rewrite list_lookup_alter_ne, list_lookup_insert_ne, list_lookup_fmap by done. done.
Qed.

Lemma sum_insert (f : nat -> nat) l pos n m :
  l !! pos = Some n -> sum_list_with f (<[pos := m]> l) + f n = sum_list_with f l + f m.
Proof.
  revert pos. induction l as [|x l IH]; intros [|pos] Hn; simplify_eq/=; [lia|]. specialize (IH _ Hn). lia.
Qed.

Lemma settle_result pos id n now r w :
  match fst ((settle_intent bus pos id n now r ;;; ret true) w) with
  | Ret more => more = true
  | Exc e => is_exception e = false
  end.
Proof.
  unfold settle_intent. destruct r as [u|e]; [done|].
  destruct (bool_decide (exn_cls e = KnownSafeRetryError)); [by destruct (_ <=? _)|].
  destruct (bool_decide _); [done|]. by destruct (is_exception e) eqn:He.
Qed.

(** a pass that finds no row changes nothing; one that does spends an attempt,
    and only what is not an [Exception] escapes it *)
Lemma run_once_spends did w : outbox_private (mb_dispatch bus) ->
  (find_index (claimable bus (clock w)) (intents w) = None /\ run_once bus did w = (Ret false, w)) \/
  (spare w = S (spare (snd (run_once bus did w))) /\
   match fst (run_once bus did w) with Ret more => more = true | Exc e => is_exception e = false end).
Proof.
  intros Hp. destruct (find_index (claimable bus (clock w)) (intents w)) as [pos|] eqn:Hf; [right|left].
  2: { split; [done|]. unfold run_once, bind, gets. by rewrite Hf. }
  destruct (find_index_Some _ _ _ Hf) as (i & Hi & Hc).
  assert (Hlt : attempt_count i < mb_max_attempts bus).
  { unfold claimable in Hc. repeat (apply andb_prop in Hc as [Hc ?]). by apply Nat.ltb_lt. }
  set (w1 := set_store (set_outbox (alter (claim_intent bus (clock w)) pos) (store w)) w).
  set (i1 := claim_intent bus (clock w) i).
  assert (Hi1 : intents w1 !! pos = Some i1) by (by apply lookup_alter_some).
  set (w2 := snd (handle (mb_dispatch bus) did (record_of i1) w1)).
  set (r := fst (handle (mb_dispatch bus) did (record_of i1) w1)).
  assert (Hrun : run_once bus did w =
    (settle_intent bus pos (intent_id i1) (from_option attempt_count 0 (intents w2 !! pos)) (clock w2) r ;;;
     ret true) w2).
  { unfold run_once. unfold bind at 1 2, gets at 1 2. rewrite Hf.
    erewrite bind_run by apply modify_intent_run. fold w1. unfold bind at 1, gets at 1.
    rewrite Hi1.
    unfold bind at 1, attempted. unfold w2, r. by destruct (handle _ _ _ _) as [r2 w3]. }
  rewrite Hrun. split; [|apply settle_result].
  assert (Hc2 : counts w2 = <[pos := S (attempt_count i)]> (counts w)).
  { rewrite <- (counts_claim (clock w) _ _ _ Hi). by apply (unspent_handle (mb_dispatch bus) did (record_of i1) Hp). }
  assert (Hc3 : forall l, counts w2 = l -> counts (snd ((settle_intent bus pos (intent_id i1)
    (from_option attempt_count 0 (intents w2 !! pos)) (clock w2) r ;;; ret true) w2)) = l).
  { intros l. apply (preserves_bind (fun w => counts w = l)); [apply unspent_settle|intros _; apply preserves_ret]. }
  unfold spare. rewrite (Hc3 _ Hc2).
  assert (Hl : counts w !! pos = Some (attempt_count i)) by (unfold counts; by rewrite list_lookup_fmap, Hi).
  pose proof (sum_insert (fun n => mb_max_attempts bus - n) (counts w) pos _ (S (attempt_count i)) Hl). simpl in *. lia.
Qed.

(** ** Termination *)

Lemma drain_enough ids limit count w : outbox_private (mb_dispatch bus) -> spare w <= limit ->
  exists r w', drain bus ids limit count w = (r, w') /\
    (forall more, drain bus ids (limit + more) count w = (r, w')) /\
    match r with
    | Ret n => count <= n /\ n + spare w' <= count + spare w /\
               find_index (claimable bus (clock w')) (intents w') = None
    | Exc e => is_exception e = false
    end.
Proof.
  intros Hp. revert count w. induction limit as [|limit IH]; intros count w Hs.
  - exists (Ret count), w. destruct (run_once_spends (ids count) w Hp) as [[Hn Hr]|[Hr _]]; [|lia].
    split_and!; [done| |lia|lia|done]. intros [|more]; [done|]. simpl. unfold bind. by rewrite Hr.
  - simpl. unfold bind at 1. destruct (run_once_spends (ids count) w Hp) as [[Hn Hr]|[Hr Hres]].
    + rewrite Hr. exists (Ret count), w. split_and!; [done| |lia|lia|done]. intros more. unfold bind. by rewrite Hr.
    + destruct (run_once bus (ids count) w) as [[more|e] w1] eqn:Hrun; simpl in Hr, Hres.
      * subst more. destruct (IH (S count) w1) as (r & w' & Hd & Hm & Hpost); [lia|].
        exists r, w'. split_and!; [done| |].
        { intros more. unfold bind. rewrite Hrun. apply Hm. }
        destruct r as [n|e]; [|done]. destruct Hpost as (? & ? & ?). split_and!; [lia|lia|done].
      * exists (Exc e), w1. split_and!; [done| |done]. intros more. unfold bind. by rewrite Hrun.
Qed.

(** C35: the drain loop ends whatever the adapters answer: as many passes as
    the rows have attempts left are enough, a larger limit changes nothing,
    and at the end either no row is claimable and no more attempts were made
    than the budgets held, or the task was interrupted by something that is
    not an [Exception]. *)
Theorem drain_terminates (ids : nat -> string) (limit : nat) w :
  outbox_private (mb_dispatch bus) -> spare w <= limit ->
  exists r w', drain bus ids limit 0 w = (r, w') /\
    (forall more, drain bus ids (limit + more) 0 w = (r, w')) /\
    match r with
    | Ret n => n + spare w' <= spare w /\ forall i, i ∈ intents w' -> claimable bus (clock w') i = false
    | Exc e => is_exception e = false
    end.
Proof.
  intros Hp Hl. destruct (drain_enough ids limit 0 w Hp Hl) as (r & w' & Hd & Hm & Hpost).
  exists r, w'. split_and!; [done|done|]. destruct r as [n|e]; [|done].
  destruct Hpost as (_ & Hn & Hf). split; [lia|]. intros i Hi. by eapply find_index_None.
Qed.
End Claims.
