(* ===== verification/KernelProps.v ===== *)
(** * Properties of the command kernel

    Over the in-memory ledger: what a refused submission leaves, what an
    accepted one proves about its principal and the process, and where replay
    cannot go. *)

From Stdlib Require Import QArith.
From S2P Require Import Prelude Json Uuid Commands LedgerSpec Ledger LedgerFacts Resilience Policy.
From S2P Require Import Safety Adapter Registry World Bus BusFacts Principal Kernel.
Local Open Scope nat_scope.

Section Facts.
Context `{Externals} {X : Type}.
Abbreviation KS := (KernelState MemoryCommandStore X).
Implicit Types s : KS.

(** an action leaves one part of the kernel's state as it was *)
Definition keeps {T A} (f : KS -> T) (m : M KS A) : Prop := forall s, f (snd (m s)) = f s.

Abbreviation ledger := (fun s : KS => store (kernel_world s)).
Abbreviation switches := (fun s : KS => safety (kernel_world s)).
Definition same_ledger s s' : Prop := ledger s' = ledger s.

Lemma keeps_bind {T A B} (f : KS -> T) (m : M KS A) (g : A -> M KS B) :
  keeps f m -> (forall a, keeps f (g a)) -> keeps f (bind m g).
Proof.
  intros Hm Hg s. unfold bind. specialize (Hm s). destruct (m s) as [[a|e] s1]; [|done].
  simpl in Hm. by rewrite <- Hm, (Hg a s1).
Qed.
Lemma keeps_try {T A} (f : KS -> T) (m : M KS A) (g : exn -> M KS A) :
  keeps f m -> (forall e, keeps f (g e)) -> keeps f (try_ m g).
Proof.
  intros Hm Hg s. unfold try_, catch_. specialize (Hm s). destruct (m s) as [[a|e] s1]; [done|].
  simpl in Hm. destruct (is_exception e); [|done]. by rewrite <- Hm, (Hg e s1).
Qed.
Lemma keeps_backlog_for t :
  keeps ledger (backlog_for (S := MemoryCommandStore) (X := X) t) /\
  keeps switches (backlog_for (S := MemoryCommandStore) (X := X) t).
Proof.
  split; (apply keeps_bind; [done|]); (intros [[a b]|]; [done|]);
    (apply keeps_bind; [apply keeps_try; [by apply keeps_bind|done]|]);
    (intros [v|]; [|done]); by apply keeps_bind.
Qed.

Lemma keeps_safety_step fresh c own dest :
  keeps ledger (safety_step (S := MemoryCommandStore) (X := X) fresh c own dest).
Proof.
  apply keeps_bind; [apply keeps_backlog_for|]. intros b s. unfold in_world, zoom, evaluate_safety.
  by destruct (safety_evaluate _ _ _ _ _ _).
Qed.

(** the ledger's submission changes nothing when it raises *)
Lemma submit_raises now c client dest ev tr (ms : MemoryCommandStore) e ms' :
  submit now c client dest ev tr ms = (Exc e, ms') -> ms' = ms.
Proof.
  intros Hs. by destruct (submit_cases _ _ _ _ _ _ _ _ _ Hs) as [(? & _ & _ & ?)|[(? & ? & ? & _)|(? & _)]].
Qed.

Lemma persist_raises (k : CommandKernel MemoryCommandStore X) c p d sd dest ev tr t0 s e s' :
  persist k c p d sd dest ev tr t0 s = (Exc e, s') -> same_ledger s s'.
Proof.
  unfold persist, service_submit. unfold bind at 1 3, lift_outcome.
  destruct (validate_submission _ _ _ _) as [[]|e1]; [|by intros [= _ <-]].
  unfold in_world at 1, at_store, zoom, ret, bind at 1. simpl.
  match goal with |- context [submit ?n ?c ?cl ?de ?v ?r ?ms] =>
    destruct (submit n c cl de v r ms) as [[o|e1] ms'] eqn:Hs end.
  - unfold bind, when, in_world, zoom, inc, observe, modify, ret. by destruct (op_duplicate o).
  - intros [= _ <-]. unfold same_ledger. simpl. by apply submit_raises in Hs.
Qed.

(** the decisions an accepted submission went through *)
Record admitted (k : CommandKernel MemoryCommandStore X) (c : CommandEnvelope) (p : KernelPrincipal)
    (required_scope : string) (operator : bool) s (res : SubmitResult) : Prop := {
  ad_policy : exists pol, resolve (k_policies k) (env_command_type c) = Some pol /\
    policy_target pol = env_target c /\ policy_capability pol = env_capability c;
  ad_request : exists r, policy_request k c p required_scope operator s = (Ret r, s) /\
    command_policy_reasons r = [];
  ad_safety : exists g subj ctx, standing_reasons g subj ctx = [] /\ g = safety (kernel_world s) /\
    sub_target subj = env_target c /\ sub_capability subj = env_capability c;
  ad_submission : validate_submission (k_policies k) c (p_subject p) (p_client_id p) = Ret tt;
  ad_allow : cpd_allow (sr_policy res) = true /\ sd_allow (sr_safety res) = true;
}.

Lemma persist_inv (k : CommandKernel MemoryCommandStore X) c p d sd dest ev tr t0 s res s' :
  persist k c p d sd dest ev tr t0 s = (Ret res, s') ->
  validate_submission (k_policies k) c (p_subject p) (p_client_id p) = Ret tt /\
  sr_policy res = d /\ sr_safety res = sd.
Proof.
  unfold persist, service_submit. intros Hp. apply bind_Ret_inv in Hp as (o & s1 & Ho & Hp).
  apply bind_Ret_inv in Ho as ([] & s2 & Hv & _). unfold lift_outcome in Hv.
  apply bind_Ret_inv in Hp as (u & s3 & _ & Hp). apply bind_Ret_inv in Hp as (u' & s4 & _ & Hp).
  injection Hp as <- _. split; [|done]. by injection Hv.
Qed.

Lemma safety_step_inv fresh c own dest s sd s' :
  safety_step (S := MemoryCommandStore) (X := X) fresh c own dest s = (Ret sd, s') -> sd_allow sd = true ->
  exists subj ctx, standing_reasons (safety (kernel_world s)) subj ctx = [] /\
    sub_target subj = env_target c /\ sub_capability subj = env_capability c.
Proof.
  unfold safety_step. intros Hs Hallow. apply bind_Ret_inv in Hs as (b & s1 & Hb & Hs).
  assert (Hg : safety (kernel_world s1) = safety (kernel_world s)).
  { pose proof (proj2 (keeps_backlog_for (env_tenant_id c)) s) as Hk. by rewrite Hb in Hk. }
  unfold in_world, zoom, evaluate_safety in Hs. rewrite Hg in Hs.
  destruct (safety_evaluate _ _ _ _ _ _) as [dec g] eqn:He. injection Hs as <- _.
  eexists _, _. split; [eapply safety_allow_reasons; by rewrite He|done].
Qed.

Lemma policy_request_state (k : CommandKernel MemoryCommandStore X) c p sc op s r s' :
  policy_request k c p sc op s = (r, s') -> s' = s.
Proof. unfold policy_request. case_match; by intros [= _ <-]. Qed.

Lemma kernel_submit_inv (k : CommandKernel MemoryCommandStore X) fresh c p mode of_ tr sc s res s' :
  kernel_submit k fresh c p mode of_ tr sc s = (Ret res, s') ->
  exists s1, same_ledger s s1 /\ safety (kernel_world s1) = safety (kernel_world s) /\
  admitted k c p
    (if bool_decide (mode = Some REEXECUTE) then SCOPE_COMMAND_REPLAY else default SCOPE_COMMAND (truthy_str sc))
    (bool_decide (mode = Some REEXECUTE)) s1 res.
Proof.
  unfold kernel_submit. intros Hr. apply bind_Ret_inv in Hr as (t0 & s0 & [= <- <-] & Hr).
  apply bind_Ret_inv in Hr as (u & s1 & Hinc & Hr). injection Hinc as <- <-.
  set (s1 := mkKernel _ _ _) in Hr. exists s1. split; [done|]. split; [done|].
  destruct (negb _) eqn:Hpol; [by apply bind_Ret_inv in Hr as (? & ? & _ & Hr)|].
  apply negb_false_iff in Hpol. cbv zeta in Hr.
  apply bind_Ret_inv in Hr as (r & s2 & Hreq & Hr).
  assert (s2 = s1) as -> by by apply policy_request_state in Hreq.
  apply bind_Ret_inv in Hr as (now & s2 & [= <- <-] & Hr).
  destruct (negb (cpd_allow _)) eqn:Hd.
  { apply bind_Ret_inv in Hr as (? & ? & _ & Hr). by apply bind_Ret_inv in Hr as (? & ? & _ & Hr). }
  apply bind_Ret_inv in Hr as (sd & s3 & Hsd & Hr).
  destruct (negb (sd_allow sd)) eqn:Hsa.
  { apply bind_Ret_inv in Hr as (? & ? & _ & Hr). apply bind_Ret_inv in Hr as (? & ? & _ & Hr).
    by destruct (sd_saturated sd). }
  apply negb_false_iff in Hd, Hsa.
  destruct (persist_inv _ _ _ _ _ _ _ _ _ _ _ _ Hr) as (Hv & Hpd & Hps).
  destruct (safety_step_inv _ _ _ _ _ _ _ Hsd Hsa) as (subj & ctx & Hst & Ht & Hc).
  split.
  - destruct (resolve _ _) as [pol|]; [|done]. exists pol. apply andb_prop in Hpol as [Hp1 Hp2].
    apply String.eqb_eq in Hp1, Hp2. done.
  - exists r. split; [done|]. by apply bool_decide_eq_true in Hd.
  - by exists (safety (kernel_world s1)), subj, ctx.
  - done.
  - by rewrite Hpd, Hps.
Qed.
End Facts.

(** ** Claims *)

Section Claims.
Context `{Externals} {X : Type}.
Abbreviation KS := (KernelState MemoryCommandStore X).

(** A submission that raises for whatever reason — unregistered command,
    malformed policy request, policy denial, safety denial, saturation,
    disabled capability, identity conflict — leaves the ledger exactly as it
    was: no command, no event, no outbox intent. *)
Theorem refused_submission_persists_nothing (k : CommandKernel MemoryCommandStore X)
    fresh c p mode of_ tr sc (s : KS) e s' :
  kernel_submit k fresh c p mode of_ tr sc s = (Exc e, s') ->
  store (kernel_world s') = store (kernel_world s).
Proof.
  unfold kernel_submit. unfold bind at 1, gets at 1. unfold bind at 1.
  change (in_world (inc "commands_received" [family_of (env_command_type c)]) s)
    with (Ret tt, snd (in_world (inc "commands_received" [family_of (env_command_type c)]) s)).
  cbv beta iota. set (s1 := snd (in_world _ s)).
  assert (Hs1 : same_ledger s s1) by done. unfold same_ledger in Hs1. rewrite <- Hs1. clearbody s1.
  destruct (negb _); [by intros [= _ <-]|]. cbv zeta. unfold bind at 1.
  destruct (policy_request _ _ _ _ _ s1) as [[r|e1] s2] eqn:Hreq.
  2: { apply policy_request_state in Hreq as ->. by intros [= _ <-]. }
  assert (s2 = s1) as -> by by apply policy_request_state in Hreq.
  unfold bind at 1, gets at 1.
  destruct (negb (cpd_allow _)); [by intros [= _ <-]|]. unfold bind at 1.
  match goal with |- context [safety_step fresh c ?o ?dd s1] =>
    pose proof (keeps_safety_step fresh c o dd s1) as Hk; destruct (safety_step fresh c o dd s1) as [[sd|e1] s2] end;
    unfold same_ledger in Hk; simpl in Hk; rewrite <- Hk; [|by intros [= _ <-]].
  destruct (negb (sd_allow sd)).
  - destruct (sd_saturated sd); by intros [= _ <-].
  - apply persist_raises.
Qed.

(** C38: what an accepted submission proves: exactly one policy owns the command
    type and names its target and capability, that capability is enabled and
    its policy demands readback; the principal holds the required scope and the
    command's tenant (never through a wildcard), its registered caller may
    command that target and namespace, and it is the command's declared
    requester; and no kill switch denies the target. *)
Theorem accepted_submission_authorized (k : CommandKernel MemoryCommandStore X)
    fresh c p mode of_ tr sc (s : KS) res s' :
  kernel_submit k fresh c p mode of_ tr sc s = (Ret res, s') ->
  let scope := if bool_decide (mode = Some REEXECUTE) then SCOPE_COMMAND_REPLAY
               else default SCOPE_COMMAND (truthy_str sc) in
  let g := safety (kernel_world s) in
  (exists pol, resolve (k_policies k) (env_command_type c) = Some pol /\
     policy_target pol = env_target c /\ policy_capability pol = env_capability c /\
     capability_enabled (k_policies k) (env_capability c) = true /\ readback_required pol = true) /\
  scope ∈ p_scopes p /\ env_tenant_id c ∈ p_tenants p /\ "*" ∉ p_tenants p /\
  (classify g (env_capability c) <> "read" ->
     connector_commands_allowed (p_caller p) = true /\ env_target c ∈ allowed_targets (p_caller p) /\
     exists pf, pf ∈ allowed_command_prefixes (p_caller p) /\ starts_with pf (env_command_type c) = true) /\
  (mode = Some REEXECUTE -> PLATFORM_OPERATOR_ROLE ∈ p_roles p) /\
  env_requested_by c = p_subject p /\
  global_kill g = false /\ provider_kill g (env_target c) = false.
Proof.
  intros Hr. cbv zeta. destruct (kernel_submit_inv _ _ _ _ _ _ _ _ _ _ _ Hr) as (s1 & _ & Hg & Had).
  destruct Had as [(pol & Hpol & Ht & Hc) (r & Hreq & Hreasons) (g & subj & ctx & Hst & -> & Htg & _) Hv _].
  rewrite Hg in Hst. unfold policy_request in Hreq. rewrite Hg in Hreq.
  destruct (policy_request_valid _) in Hreq; [|done]. injection Hreq as <-.
  unfold command_policy_reasons in Hreasons. cbn in Hreasons.
  autorewrite with policy in Hreasons.
  destruct Hreasons as (Hscope & Htenant & Hcaller & _ & Hop & _).
  apply negb_false_iff, mem_string_spec in Hscope.
  destruct (mem_string "*" (p_tenants p)) eqn:Hstar; [done|]. autorewrite with policy in Htenant.
  apply negb_false_iff, mem_string_spec in Htenant.
  unfold validate_submission in Hv.
  destruct (negb (String.eqb (env_requested_by c) _)) eqn:Hreqby; [done|].
  apply negb_false_iff, String.eqb_eq in Hreqby.
  destruct (negb (slug_pattern _) || _); [done|].
  destruct (authorize (k_policies k) c) as [pol'|] eqn:Hauth; [|done].
  pose proof (authorize_resolve _ _ _ Hauth) as Hpol'. rewrite Hpol in Hpol'. injection Hpol' as <-.
  split_and!; try done.
  - exists pol. split_and!; try done; unfold authorize in Hauth; repeat case_match; simplify_eq/=;
      rewrite ?negb_false_iff in *; congruence.
  - intros Hin. apply mem_string_spec in Hin. congruence.
  - intros Hread. destruct (String.eqb _ "read") eqn:Hrd; [by apply String.eqb_eq in Hrd|].
    destruct (connector_commands_allowed (p_caller p)); simpl in Hcaller; [|done].
    autorewrite with policy in Hcaller. destruct Hcaller as [H1 H2].
    apply negb_false_iff in H1, H2. rewrite mem_string_spec, sorted_strings_elem in H1. split_and!; [done|done|].
    apply existsb_exists in H2 as (pf & Hin & Hs). exists pf. by rewrite list_elem_of_In.
  - intros ->. rewrite bool_decide_eq_true_2 in Hop by done. apply negb_false_iff in Hop.
    by apply mem_string_spec.
  - unfold standing_reasons, kill_reasons in Hst. autorewrite with policy in Hst. by destruct Hst as [[? _] _].
  - unfold standing_reasons, kill_reasons in Hst. autorewrite with policy in Hst.
    rewrite <- Htg. by destruct Hst as [[_ ?] _].
Qed.

(** An operation that was cancelled without a dead letter — as the
    operator's cancel leaves it — can never be re-executed, although the replay
    accepts the cancelled state: the request always raises. *)
Theorem cancelled_not_replayable (k : CommandKernel MemoryCommandStore X)
    fresh t c p key version reason new_key corr (s : KS) v :
  at_view (t, c) v (kernel_world s) -> v_state v = cancelled -> v_dead v = false ->
  exists e s', replay k fresh t c p REEXECUTE key version reason new_key corr s = (Exc e, s').
Proof.
  intros [Hwf Hv] Hst Hdead. unfold replay. destruct (negb _); [by eexists _, _|].
  destruct (mem_view_inv _ _ _ Hwf Hv) as (d & o & Hk & Hm & _ & Hdl & _).
  assert (Hget : in_world (svc_get t c) s = (Ret o, s)).
  { unfold in_world, svc_get, at_store, zoom. simpl. unfold get. rewrite Hk. by destruct s as [[] ? ?]. }
  erewrite bind_run by exact Hget. unfold reexecute. destruct (negb (state_in _ _)); [by eexists _, _|].
  destruct (truthy_str new_key) as [nk|]; [|by eexists _, _].
  destruct (String.eqb nk _); [by eexists _, _|].
  match goal with |- context [bind ?m _ s] => destruct (m s) as [[u|e] s1] eqn:Hm1 end.
  2: { erewrite bind_exc by exact Hm1. by eexists _, _. }
  erewrite bind_run by exact Hm1.
  assert (s1 = s) as ->.
  { revert Hm1. destruct (ownership _ _) as [own|]; [|by intros [= _ <-]].
    unfold bind, lift_outcome. destruct (advertised _ _); [|done].
    destruct (negb _); [done|]. by intros [= _ <-]. }
  assert (dead_letters (store (kernel_world s)) !! (t, c) = None) as Hnone.
  { rewrite Hdead in Hdl. symmetry in Hdl. apply bool_decide_eq_false in Hdl. by apply eq_None_not_Some. }
  eexists _, _. eapply bind_exc. unfold in_world, at_store, zoom. simpl. unfold get_dead_letter. by rewrite Hnone.
Qed.
End Claims.
