(* ===== verification/PlatformProps.v ===== *)
(** * Properties of the platform's guards

    The policy engine, the safety gate and its rate budget, retry, circuit
    breaker, bulkhead, adapter registry, redaction and the verified
    principal. *)

From Stdlib Require Import QArith Qminmax Lqa.
From S2P Require Import Prelude Json Uuid Commands Resilience Policy Safety Adapter Registry.
From S2P Require Import Principal.
Local Open Scope nat_scope.

(** ** The policy engine *)

(** an observation that is present, taken and not contradicted by its age *)
Definition fresh_when_aware (now : Z) (o : option DateTime) : Prop :=
  exists d, o = Some d /\ (dt_aware d = true -> (0 <= now - dt_us d <= MAX_FRESHNESS)%Z).

Lemma freshness_ok now o code :
  o <> None -> snd (freshness_of now o code) = [] -> fresh_when_aware (dt_us now) o.
Proof.
  intros Ho Hf. destruct o as [d|]; [|done]. exists d. split; [done|]. intros Ha. simpl in Hf.
  rewrite Ha in Hf. apply reason_if_nil in Hf. apply orb_false_iff in Hf as [H1 H2].
  apply Z.ltb_ge in H1, H2. lia.
Qed.

Lemma allowed_member v l : v <> None -> l <> None -> denied v l = false ->
  exists x xs, v = Some x /\ l = Some xs /\ x ∈ xs.
Proof.
  destruct v as [x|], l as [xs|]; try done. intros _ _ Hd. exists x, xs.
  by apply negb_false_iff, mem_string_spec in Hd.
Qed.

(** the instant [evaluate] decides for *)
Definition decided_at (clock : Z) (r : PolicyRequest) : Z := from_option dt_us clock (evaluated_at r).

Lemma evaluate_rules `{ZoneInfo} clock did r :
  res_allow (evaluate clock did r) = true ->
  let now := {| dt_us := decided_at clock r; dt_aware := true |} in
  missing_reasons r = [] /\
  snd (freshness_of now (consent_observed_at r) "stale_consent_data") = [] /\
  snd (freshness_of now (dnc_observed_at r) "stale_dnc_data") = [] /\
  denial_reasons r = [] /\ attempt_reasons now r = [] /\ snd (window_reasons now r) = [].
Proof.
  unfold evaluate, decided_at.
  destruct (evaluated_at r) as [d|]; cbv [from_option]; cbv zeta;
    destruct (freshness_of _ (consent_observed_at r) _) as [? ?];
    destruct (freshness_of _ (dnc_observed_at r) _) as [? ?];
    destruct (window_reasons _ r) as [? ?]; cbn [res_allow snd];
    rewrite bool_decide_eq_true, !app_nil_iff; tauto.
Qed.

Lemma window_open `{ZoneInfo} now r tz :
  snd (window_reasons now r) = [] -> customer_timezone r = Some tz -> tz <> "" ->
  exists z s e, zone_info tz = Some z /\ calling_window_start r = Some s /\
    calling_window_end r = Some e /\ in_window (zone_time_of_day z (dt_us now)) s e = true.
Proof.
  intros Hw Htz Hne. unfold window_reasons in Hw. rewrite Htz in Hw. unfold truthy_str in Hw.
  destruct tz as [|a tz]; [done|]. cbn [str_nonempty] in Hw.
  destruct (zone_info _) as [z|]; cbn [snd] in Hw; apply app_nil_iff in Hw as [Hm Hw]; [|done].
  apply reason_if_nil, none_of_false in Hm as [[s Hs] [e He]]. rewrite Hs, He in Hw.
  apply reason_if_nil, negb_false_iff in Hw. by exists z, s, e.
Qed.

Lemma attempts_open now r :
  attempt_reasons now r = [] ->
  (exists a m, pr_attempts r = Some a /\ pr_max_attempts r = Some m /\ (a < m)%Z) /\
  (forall l, last_attempt_at r = Some l -> dt_aware l = true /\
     exists sp, minimum_spacing_seconds r = Some sp /\ (sp * second <= dt_us now - dt_us l)%Z).
Proof.
  unfold attempt_reasons. rewrite app_nil_iff. intros [H1 H2]. split.
  - destruct (pr_attempts r) as [a|], (pr_max_attempts r) as [m|]; try done.
    apply reason_if_nil, Z.leb_gt in H1. by exists a, m.
  - intros l Hl. rewrite Hl in H2. destruct (minimum_spacing_seconds r) as [sp|]; [|done].
    destruct (dt_aware l); [|done]. apply reason_if_nil, Z.ltb_ge in H2. split; [done|]. by exists sp.
Qed.

(** A contact is allowed only when every compliance rule holds: consent is
    given, do-not-call does not suppress it, the kill switch is known to be
    off, the channel is eligible, the business unit, campaign and agent are on
    their lists, the attempts are below the limit and spaced, the customer's
    local time lies in the calling window, and observations that carry a time
    zone are at most a day old and not from the future. *)
Theorem policy_allow_sound `{ZoneInfo} clock did r tz :
  res_allow (evaluate clock did r) = true -> customer_timezone r = Some tz -> tz <> "" ->
  let now := decided_at clock r in
  consent_allowed r = Some true /\ fresh_when_aware now (consent_observed_at r) /\
  dnc_suppressed r = Some false /\ fresh_when_aware now (dnc_observed_at r) /\
  emergency_kill_switch r = Some false /\ channel_eligible r = Some true /\
  (exists x xs, business_unit r = Some x /\ allowed_business_units r = Some xs /\ x ∈ xs) /\
  (exists x xs, campaign r = Some x /\ allowed_campaigns r = Some xs /\ x ∈ xs) /\
  (exists x xs, agent r = Some x /\ allowed_agents r = Some xs /\ x ∈ xs) /\
  (exists a m, pr_attempts r = Some a /\ pr_max_attempts r = Some m /\ (a < m)%Z) /\
  (forall l, last_attempt_at r = Some l -> dt_aware l = true /\
     exists sp, minimum_spacing_seconds r = Some sp /\ (sp * second <= now - dt_us l)%Z) /\
  (exists z s e, zone_info tz = Some z /\ calling_window_start r = Some s /\
     calling_window_end r = Some e /\ in_window (zone_time_of_day z now) s e = true) /\
  (action r = callback -> callback_allowed r = Some true) /\
  (action r = transfer -> transfer_allowed r = Some true) /\
  (action r = recording -> recording_required r = Some true -> disclosure_present r = Some true).
Proof.
  intros Ha Htz Hne. cbv zeta.
  destruct (evaluate_rules _ _ _ Ha) as (Hm & Hc & Hd & Hden & Hatt & Hwin).
  destruct (attempts_open _ _ Hatt) as [Hat1 Hat2]. pose proof (window_open _ _ _ Hwin Htz Hne) as Hw.
  unfold missing_reasons, denial_reasons in *. autorewrite with policy in Hm, Hden.
  rewrite !none_of_false in Hm.
  destruct Hm as (([ca Hca] & [co Hco]) & ([ds Hds] & [dobs Hdo]) & _ & _ & ([ce Hce] & _) &
    ([bu Hbu] & [bus Hbus]) & ([cp Hcp] & [cps Hcps]) & ([ag Hag] & [ags Hags]) & ([ks Hks] & _)).
  destruct Hden as (Dk & Dc & Dd & De & Dbu & Dcp & Dag & Dcb & Dtr & Drec).
  rewrite Hks in Dk |- *. rewrite Hca in Dc |- *. rewrite Hds in Dd |- *. rewrite Hce in De |- *.
  split_and!; try done.
  - by destruct ca.
  - apply (freshness_ok _ _ _) in Hc; [exact Hc|by rewrite Hco].
  - by destruct ds.
  - apply (freshness_ok _ _ _) in Hd; [exact Hd|by rewrite Hdo].
  - by destruct ks.
  - by destruct ce.
  - by apply allowed_member; [rewrite Hbu|rewrite Hbus|].
  - by apply allowed_member; [rewrite Hcp|rewrite Hcps|].
  - by apply allowed_member; [rewrite Hag|rewrite Hags|].
  - intros Hx. rewrite bool_decide_eq_true_2 in Dcb by done. by destruct (callback_allowed r) as [[]|].
  - intros Hx. rewrite bool_decide_eq_true_2 in Dtr by done. by destruct (transfer_allowed r) as [[]|].
  - intros Hx Hy. rewrite bool_decide_eq_true_2, Hy in Drec by done. by destruct (disclosure_present r) as [[]|].
Qed.

(** the request with its observations restamped, its time zone and its calling
    window replaced *)
Definition restamp (r : PolicyRequest) (consent dnc : DateTime) (tz : string) (s e : Z) : PolicyRequest := {|
  pr_correlation_id := pr_correlation_id r; action := action r; subject := subject r;
  resource := resource r; environment := environment r; evaluated_at := evaluated_at r;
  consent_allowed := consent_allowed r; consent_observed_at := Some consent;
  dnc_suppressed := dnc_suppressed r; dnc_observed_at := Some dnc;
  customer_timezone := Some tz; jurisdiction := jurisdiction r;
  calling_window_start := Some s; calling_window_end := Some e;
  pr_attempts := pr_attempts r; pr_max_attempts := pr_max_attempts r;
  last_attempt_at := last_attempt_at r; minimum_spacing_seconds := minimum_spacing_seconds r;
  channel_eligible := channel_eligible r; business_unit := business_unit r;
  allowed_business_units := allowed_business_units r; campaign := campaign r;
  allowed_campaigns := allowed_campaigns r; agent := agent r; allowed_agents := allowed_agents r;
  callback_allowed := callback_allowed r; transfer_allowed := transfer_allowed r;
  recording_required := recording_required r; disclosure_present := disclosure_present r;
  emergency_kill_switch := emergency_kill_switch r; shadow_mode := shadow_mode r |}.

(** Two inputs escape the compliance rules: observations without a time
    zone are never stale, and an empty customer time zone skips the calling
    window.  An allowed request stays allowed when its observations are
    restamped to any naive instants, however old, and its time zone is blanked
    under any calling window, even one that is never open. *)
Theorem policy_rules_skipped `{ZoneInfo} clock did r t1 t2 s e :
  res_allow (evaluate clock did r) = true ->
  res_allow (evaluate clock did (restamp r {| dt_us := t1; dt_aware := false |}
                                           {| dt_us := t2; dt_aware := false |} "" s e)) = true.
Proof.
  intros Ha. destruct (evaluate_rules _ _ _ Ha) as (Hm & _ & _ & Hden & Hatt & _).
  unfold missing_reasons in Hm. autorewrite with policy in Hm. rewrite !none_of_false in Hm.
  unfold evaluate, decided_at in *. set (r' := restamp _ _ _ _ _ _).
  assert (Hm' : missing_reasons r' = []).
  { unfold missing_reasons. autorewrite with policy. rewrite !none_of_false. simpl. naive_solver. }
  change (evaluated_at r') with (evaluated_at r).
  change (denial_reasons r') with (denial_reasons r).
  assert (Hatt' : forall n, attempt_reasons n r' = attempt_reasons n r) by done.
  assert (Hw' : forall n, window_reasons n r' = ([], [])) by done.
  cbn [freshness_of consent_observed_at dnc_observed_at restamp dt_aware r'].
  destruct (evaluated_at r) as [d|]; cbv [from_option] in *; cbv zeta;
    rewrite Hw'; cbn [res_allow]; apply bool_decide_eq_true_2; by rewrite Hm', Hden, Hatt', Hatt.
Qed.

(** ** The safety gate *)

Lemma map_filter_nil {A B} (f : A -> B) (p : A -> bool) l :
  map f (List.filter p l) = [] -> forall x, x ∈ l -> p x = false.
Proof.
  intros Hm x Hx. apply map_eq_nil in Hm. destruct (p x) eqn:Hp; [|done].
  assert (Hin : x ∈ List.filter p l) by (by apply filter_In_list).
  rewrite Hm in Hin. by apply elem_of_nil in Hin.
Qed.

Lemma flag_on_spec m k : flag_on m k = true -> m !! k = Some true.
Proof. unfold flag_on. by destruct (m !! k) as [[]|]. Qed.

Lemma over_false bound v n : over bound v = false -> v = Some n -> (n < bound)%Z.
Proof. intros H ->. by apply Z.leb_gt in H. Qed.

(** The gate allows a subject only when no kill switch covers it, its
    capability has a gate that admits the environment (and the campaign and
    synthetic-tenant demands are met), the adapter is registered and not known
    to be unready, no known backlog is at its bound, and, for an external
    effect, the capability is enabled, every effect flag and umbrella control
    is explicitly on, and both backlogs are known. *)
Theorem safety_allow_sound now did subj c consume g :
  sd_allow (fst (safety_evaluate now did subj c consume g)) = true ->
  global_kill g = false /\ provider_kill g (sub_target subj) = false /\
  adapter_registered c = true /\ adapter_ready c <> Some false /\
  (forall n, global_backlog c = Some n -> (n < global_backlog_bound (limits (sg_switches g)))%Z) /\
  (forall n, tenant_backlog c = Some n -> (n < tenant_backlog_bound (limits (sg_switches g)))%Z) /\
  exists cg, gate_of g (sub_capability subj) = Some cg /\
    app_env (sg_settings g) ∈ environments cg /\
    (campaign_scoped cg = true -> exists x, sub_campaign_id subj = Some x /\ x <> "") /\
    (synthetic_tenant_required cg = true -> sub_tenant_id subj ∈ synthetic_tenants (sg_switches g)) /\
    (classification cg = "external_effect" ->
       capability_enabled (sg_policies g) (sub_capability subj) = true /\
       (forall f, f ∈ effect_flags cg -> external_effects (sg_settings g) !! f = Some true) /\
       (forall u, u ∈ gate_umbrella_controls cg -> umbrella_controls (sg_settings g) !! u = Some true) /\
       global_backlog c <> None /\ tenant_backlog c <> None).
Proof.
  intros Ha. apply safety_allow_reasons in Ha. unfold standing_reasons, kill_reasons, saturation_reasons in Ha.
  autorewrite with policy in Ha. destruct Ha as ([Hg Hp] & Hc & Had & Hb & Hs1 & Hs2).
  unfold adapter_reasons in Had. destruct (adapter_registered c); [|done]. apply reason_if_nil in Had.
  split_and!; [done|done|done|by destruct (adapter_ready c) as [[]|]|
    intros n; by apply over_false|intros n; by apply over_false|].
  unfold capability_reasons in Hc. destruct (gate_of g _) as [cg|] eqn:Hcg; [|done]. exists cg.
  unfold classify in Hb. rewrite Hcg in Hb. simpl in Hb.
  autorewrite with policy in Hc. destruct Hc as (He & Hcs & Hst & Hx).
  apply negb_false_iff, mem_string_spec in He. split_and!; [done|done| | |].
  - intros Hsc. rewrite Hsc in Hcs. apply bool_decide_eq_false in Hcs. unfold truthy_str in Hcs.
    destruct (sub_campaign_id subj) as [[|a x]|]; [done| |done]. by eexists.
  - intros Hsy. rewrite Hsy in Hst. apply negb_false_iff in Hst. by apply mem_string_spec.
  - intros Hcls. unfold backlog_unavailable_reasons in Hb. rewrite Hcls in Hx, Hb. simpl in Hx, Hb.
    autorewrite with policy in Hx, Hb. destruct Hx as (Hen & Hf & Hu), Hb as [Hb1 Hb2].
    apply negb_false_iff in Hen. apply bool_decide_eq_false in Hb1, Hb2. split_and!; try done.
    + intros f Hin. apply flag_on_spec, negb_false_iff, (map_filter_nil _ _ _ Hf _ Hin).
    + intros u Hin. apply flag_on_spec, negb_false_iff, (map_filter_nil _ _ _ Hu _ Hin).
Qed.

(** what happens to a gate at run time *)
Inductive GateCall :=
  | gate_trip (provider : option string)
  | gate_evaluate (now : Q) (subj : SafetySubject) (c : SafetyContext) (consume : bool).

Definition gate_step (g : SafetyGate) (call : GateCall) : SafetyGate :=
  match call with
  | gate_trip p => trip p g
  | gate_evaluate now subj c consume => snd (safety_evaluate now "" subj c consume g)
  end.

Lemma gate_step_kill g call p :
  (global_kill g = true -> global_kill (gate_step g call) = true) /\
  (provider_kill g p = true -> provider_kill (gate_step g call) p = true).
Proof.
  destruct call as [q|now subj c consume]; [apply trip_monotone|].
  simpl. unfold safety_evaluate. destruct (_ && _); [|done]. destruct (bucket_admit _ _ _) as [[] ?]; done.
Qed.

Lemma gate_run_kill calls g p :
  (global_kill g = true -> global_kill (fold_left gate_step calls g) = true) /\
  (provider_kill g p = true -> provider_kill (fold_left gate_step calls g) p = true).
Proof.
  revert g. induction calls as [|call calls IH]; intros g; simpl; [done|].
  destruct (IH (gate_step g call)) as [IH1 IH2], (gate_step_kill g call p) as [H1 H2]. split; auto.
Qed.

(** A kill switch latches: once tripped (for everything, or for one
    provider), whatever the gate does afterwards every subject it covers is
    denied, for as long as the process lives. *)
Theorem kill_switch_latches g provider calls now did subj c consume :
  match provider with Some p => sub_target subj = p | None => True end ->
  sd_allow (fst (safety_evaluate now did subj c consume
                   (fold_left gate_step calls (trip provider g)))) = false.
Proof.
  intros Hp. destruct (sd_allow _) eqn:Ha; [|done]. apply safety_allow_reasons in Ha.
  unfold standing_reasons, kill_reasons in Ha. autorewrite with policy in Ha. destruct Ha as ([Hg Hk] & _).
  destruct (gate_run_kill calls (trip provider g) (sub_target subj)) as [G1 G2]. destruct provider as [p|].
  - rewrite G2 in Hk; [done|]. unfold provider_kill. rewrite Hp, mem_string_tripped. apply orb_true_r.
  - rewrite G1 in Hg; [done|]. unfold global_kill. simpl. apply orb_true_r.
Qed.

(** ** The rate budget *)

(** the outcome of a sequence of requests (time, tenant): the bucket and how
    many requests of [k] were admitted *)
Fixpoint admissions (k : string) (reqs : list (Q * string)) (b : TokenBucket) (n : nat) : nat * TokenBucket :=
  match reqs with
  | [] => (n, b)
  | (now, t) :: reqs' =>
      let (ok, b') := bucket_admit now t b in
      admissions k reqs' b' (if ok && String.eqb t k then S n else n)
  end.

(** the requests come in time order, from [t] on, and end by [u] *)
Fixpoint timed (t u : Q) (reqs : list (Q * string)) : Prop :=
  match reqs with
  | [] => (t <= u)%Q
  | (now, _) :: reqs' => (t <= now)%Q /\ timed now u reqs'
  end.

Definition rate (n : Z) : Q := inject_Z n / 60.

(** what [k] has used and what it has left fit the budget since [t0] *)
Definition within (n : Z) (t0 t : Q) (k : string) (b : TokenBucket) (c : nat) : Prop :=
  match dict_get k (bucket_state b) with
  | Some (tok, u) => (0 <= tok)%Q /\ (t0 <= u)%Q /\ (u <= t)%Q /\
      (inject_Z (Z.of_nat c) + tok <= inject_Z n + (u - t0) * rate n)%Q
  | None => c = 0
  end.

(** every tenant of the bucket is one of [ts], so it never evicts one *)
Record roomy (ts : list string) (n : Z) (b : TokenBucket) : Prop := {
  roomy_rate : per_minute b = n;
  roomy_size : length ts <= max_tenants b;
  roomy_nodup : NoDup (dict_keys (bucket_state b));
  roomy_keys : forall k, In k (dict_keys (bucket_state b)) -> In k ts;
}.

Lemma roomy_set ts n b k v :
  roomy ts n b -> In k ts ->
  let st := dict_set k v (bucket_state b) in
  (max_tenants b <? length st) = false /\
  roomy ts n {| per_minute := per_minute b; max_tenants := max_tenants b; bucket_state := st |}.
Proof.
  intros [Hr Hs Hn Hk] Hin. cbv zeta.
  assert (Hn' : NoDup (dict_keys (dict_set k v (bucket_state b)))) by by apply dict_set_NoDup.
  assert (Hk' : forall x, In x (dict_keys (dict_set k v (bucket_state b))) -> In x ts).
  { intros x. rewrite dict_set_keys. intros [->|?]; auto. }
  split; [|by split]. apply Nat.ltb_ge. etrans; [|exact Hs].
  rewrite <- (length_map fst). apply (NoDup_incl_length (l := dict_keys _)); [by apply NoDup_ListNoDup|].
  intros x Hx. by apply Hk'.
Qed.

(** an admission without eviction: the tenant's entry, whether it was admitted *)
Lemma bucket_admit_roomy ts n b now t :
  roomy ts n b -> In t ts ->
  let '(tok, u) := default (inject_Z n, now) (dict_get t (bucket_state b)) in
  let tok' := refill n tok u now in
  bucket_admit now t b =
    (Qle_bool 1 tok',
     {| per_minute := n; max_tenants := max_tenants b;
        bucket_state := dict_set t (if Qle_bool 1 tok' then (tok' - 1)%Q else tok', now) (bucket_state b) |}).
Proof.
  intros Hr Hin. unfold bucket_admit. rewrite (roomy_rate _ _ _ Hr).
  destruct (default _ _) as [tok u]. cbv zeta. destruct (Qle_bool 1 _); simpl; [|done].
  destruct (roomy_set ts n b t ((refill n tok u now - 1)%Q, now) Hr Hin) as [-> _]. done.
Qed.

Lemma refill_step n c tok u now t0 :
  (0 <= n)%Z -> (0 <= tok)%Q -> (u <= now)%Q ->
  (inject_Z (Z.of_nat c) + tok <= inject_Z n + (u - t0) * rate n)%Q ->
  (0 <= refill n tok u now)%Q /\
  (inject_Z (Z.of_nat c) + refill n tok u now <= inject_Z n + (now - t0) * rate n)%Q.
Proof.
  intros Hn Ht Hu Hb. split; [by apply refill_nonneg|].
  assert (Hle : (refill n tok u now <= tok + (now - u) * rate n)%Q) by apply Q.le_min_r. lra.
Qed.

Lemma inject_S c : (inject_Z (Z.of_nat (S c)) == inject_Z (Z.of_nat c) + 1)%Q.
Proof. rewrite Nat2Z.inj_succ. unfold Z.succ. by rewrite inject_Z_plus. Qed.

Lemma rate_nonneg n : (0 <= n)%Z -> (0 <= inject_Z n)%Q /\ (0 <= rate n)%Q.
Proof.
  intros Hn. assert (0 <= inject_Z n)%Q by (change 0%Q with (inject_Z 0); by rewrite <- Zle_Qle).
  split; [done|]. unfold rate. apply Qle_shift_div_l; lra.
Qed.

Lemma within_own n t0 t now k b c m :
  (0 <= n)%Z -> (t <= now)%Q -> (t0 <= t)%Q -> within n t0 t k b c ->
  let '(tok, u) := default (inject_Z n, now) (dict_get k (bucket_state b)) in
  let tok' := refill n tok u now in
  within n t0 now k
    {| per_minute := n; max_tenants := m;
       bucket_state := dict_set k (if Qle_bool 1 tok' then (tok' - 1)%Q else tok', now) (bucket_state b) |}
    (if Qle_bool 1 tok' then S c else c).
Proof.
  intros Hn Ht Ht0 Hw. destruct (rate_nonneg _ Hn) as [Hn' Hr'].
  assert (Hpos : (0 <= (now - t0) * rate n)%Q) by (apply Qmult_le_0_compat; lra).
  assert (Hq : exists tok u, default (inject_Z n, now) (dict_get k (bucket_state b)) = (tok, u) /\
    (0 <= tok)%Q /\ (u <= now)%Q /\ (inject_Z (Z.of_nat c) + tok <= inject_Z n + (u - t0) * rate n)%Q).
  { unfold within in Hw. destruct (dict_get k (bucket_state b)) as [[tok u]|]; simpl.
    - exists tok, u. split_and!; try done; try lra; tauto.
    - subst c. exists (inject_Z n), now. split_and!; try done; try lra. change (inject_Z (Z.of_nat 0)) with 0%Q. lra. }
  destruct Hq as (tok & u & -> & Htok & Hu & Hb). cbv zeta. unfold within. cbn [bucket_state].
  rewrite dict_get_set_eq. destruct (refill_step n c tok u now t0 Hn Htok Hu Hb) as [H1 H2].
  destruct (Qle_bool 1 _) eqn:Hq; [apply Qle_bool_iff in Hq; rewrite inject_S|]; split_and!; lra.
Qed.

Lemma within_other n t0 t now k k' v b c m :
  k <> k' -> (t <= now)%Q -> within n t0 t k b c ->
  within n t0 now k
    {| per_minute := n; max_tenants := m; bucket_state := dict_set k' v (bucket_state b) |} c.
Proof.
  intros Hne Ht. unfold within. cbn [bucket_state]. rewrite dict_get_set_ne by done.
  destruct (dict_get k _) as [[tok u]|]; [|done]. intros (? & ? & ? & ?). split_and!; lra.
Qed.

Lemma admissions_within ts n k t0 t u reqs b c :
  (0 <= n)%Z -> roomy ts n b -> (forall q, In q reqs -> In (snd q) ts) -> timed t u reqs -> (t0 <= t)%Q ->
  within n t0 t k b c ->
  let (c', b') := admissions k reqs b c in exists t', (t0 <= t' <= u)%Q /\ within n t0 t' k b' c'.
Proof.
  revert t b c. induction reqs as [|[now x] reqs IH]; intros t b c Hn Hr Hin Ht Ht0 Hw; cbn [admissions].
  { simpl in Ht. exists t. split; [lra|done]. }
  destruct Ht as [Ht Htimed]. assert (Hx : In x ts) by (apply (Hin (now, x)); by left).
  pose proof (bucket_admit_roomy ts n b now x Hr Hx) as Hadm.
  pose proof (within_own n t0 t now k b c (max_tenants b) Hn Ht Ht0) as Hown.
  destruct (default _ (dict_get x _)) as [tok v] eqn:Hd. cbv zeta in Hadm. rewrite Hadm.
  apply (IH now); [done| |intros q Hq; apply Hin; by right|done|lra|].
  - rewrite <- (roomy_rate _ _ _ Hr) at 2. by apply (roomy_set ts n b).
  - destruct (String.eqb x k) eqn:Hxk.
    + apply String.eqb_eq in Hxk as ->. rewrite Hd in Hown. rewrite andb_true_r. by apply Hown.
    + apply String.eqb_neq in Hxk. rewrite andb_false_r. by apply (within_other n t0 t).
Qed.

(** The rate budget: over any run of requests in time order, from a fresh
    bucket that has room for the tenants involved, a tenant gets at most
    [per_minute] admissions plus [per_minute / 60] for every second that
    passed, however the other tenants' requests interleave. *)
Theorem rate_budget_bound n t0 t1 k ts reqs :
  (0 <= n)%Z -> length ts <= 10000 -> (forall q, In q reqs -> In (snd q) ts) -> timed t0 t1 reqs ->
  (inject_Z (Z.of_nat (fst (admissions k reqs (new_bucket n) 0))) <= inject_Z n + (t1 - t0) * (inject_Z n / 60))%Q.
Proof.
  intros Hn Hts Hin Ht.
  assert (Hr : roomy ts n (new_bucket n)) by (split; [done|done|constructor|done]).
  pose proof (admissions_within ts n k t0 t0 t1 reqs (new_bucket n) 0 Hn Hr Hin Ht (Qle_refl _) eq_refl) as Hw.
  destruct (admissions k reqs _ 0) as [c' b']. destruct Hw as (t' & [Ht0 Ht1] & Hw). simpl.
  fold (rate n). destruct (rate_nonneg _ Hn) as [Hn' Hr'].
  assert (Hmono : ((t' - t0) * rate n <= (t1 - t0) * rate n)%Q) by (apply Qmult_le_compat_r; lra).
  assert (Hpos : (0 <= (t' - t0) * rate n)%Q) by (apply Qmult_le_0_compat; lra).
  unfold within in Hw. destruct (dict_get k _) as [[tok u]|].
  - destruct Hw as (? & ? & ? & ?).
    assert ((u - t0) * rate n <= (t' - t0) * rate n)%Q by (apply Qmult_le_compat_r; lra). lra.
  - subst c'. change (inject_Z (Z.of_nat 0)) with 0%Q. lra.
Qed.

(** ** Retry *)

Lemma attempts_made_stop fuel c o n :
  (max_attempts (RETRY_POLICIES c) - n <= Z.of_nat fuel)%Z ->
  may_retry c o (attempts_made fuel c o n) = false.
Proof.
  revert n. induction fuel as [|fuel IH]; intros n Hf; cbn [attempts_made].
  - unfold may_retry. by replace (_ <=? n)%Z with true by lia.
  - destruct (may_retry c o n) eqn:Hr; [apply IH; lia|done].
Qed.

Lemma delay_bound_range c n :
  (0 <= delay_bound (RETRY_POLICIES c) n)%Q /\
  (delay_bound (RETRY_POLICIES c) n <= max_delay_seconds (RETRY_POLICIES c))%Q.
Proof.
  unfold delay_bound. split; [|apply Q.le_min_l].
  assert (0 <= inject_Z (2 ^ Z.max 0 (n - 1)))%Q.
  { change 0%Q with (inject_Z 0). rewrite <- Zle_Qle. lia. }
  apply Q.min_glb; [by destruct c|]. apply Qmult_le_0_compat; [by destruct c|done].
Qed.

(** The retry policy bounds every loop that asks it: repeating an attempt
    while [may_retry] allows it stops by itself, after at most the class's
    [max_attempts]; each wait in between is at most the class's maximal delay;
    and an effect that is not idempotent is never tried twice, whatever the
    first outcome. *)
Theorem retry_bounded c o attempt r fuel :
  (0 <= r)%Q -> (r <= 1)%Q -> (max_attempts (RETRY_POLICIES c) <= Z.of_nat fuel)%Z ->
  let n := attempts_made fuel c o 1 in
  may_retry c o n = false /\ (1 <= n <= max_attempts (RETRY_POLICIES c))%Z /\
  (0 <= delay (RETRY_POLICIES c) attempt r)%Q /\
  (delay (RETRY_POLICIES c) attempt r <= max_delay_seconds (RETRY_POLICIES c))%Q /\
  (c = NON_IDEMPOTENT_EFFECT -> n = 1%Z).
Proof.
  intros Hr0 Hr1 Hf. cbv zeta. pose proof (attempts_made_bound fuel c o 1) as Hb.
  assert (Hlo : forall k f, (k <= attempts_made f c o k)%Z).
  { intros k f. revert k. induction f as [|f IH]; intros k; simpl; [lia|].
    destruct (may_retry c o k); [specialize (IH (k + 1)%Z); lia|lia]. }
  specialize (Hlo 1%Z fuel).
  assert (Hmax : (1 <= max_attempts (RETRY_POLICIES c))%Z) by (by destruct c).
  destruct (delay_bound_range c attempt) as [Hd0 Hd1].
  split_and!; [apply attempts_made_stop; lia|lia|lia|by apply Qmult_le_0_compat| |].
  - unfold delay. assert (r * delay_bound (RETRY_POLICIES c) attempt <= 1 * delay_bound (RETRY_POLICIES c) attempt)%Q
      by by apply Qmult_le_compat_r. lra.
  - intros ->. simpl in Hb. lia.
Qed.

(** ** The circuit breaker *)

Lemma failures_open b ts now :
  cb_state b = CLOSED -> (failures b + Z.of_nat (length ts) + 1 = failure_threshold b)%Z ->
  let b' := fold_left breaker_step (map call_failure (ts ++ [now])) b in
  cb_state b' = OPEN /\ opened_at b' = now /\ open_seconds b' = open_seconds b /\
  half_open_max_probes b' = half_open_max_probes b.
Proof.
  revert b. induction ts as [|t ts IH]; intros b Hc Hn; cbv zeta; cbn [app map fold_left breaker_step].
  - unfold record_failure. cbn [cb_with cb_state failure_threshold failures]. rewrite Hc. simpl in Hn.
    replace (failure_threshold b <=? failures b + 1)%Z with true by lia. rewrite orb_true_r.
    unfold cb_transition. by cbn.
  - cbn [length] in Hn.
    assert (E : fst (record_failure t b) = cb_with b CLOSED (failures b + 1) (opened_at b) (probes b)).
    { unfold record_failure. cbn [cb_with cb_state failure_threshold failures]. rewrite Hc.
      replace (failure_threshold b <=? failures b + 1)%Z with false by lia. by rewrite bool_decide_eq_false_2. }
    rewrite E.
    destruct (IH (cb_with b CLOSED (failures b + 1) (opened_at b) (probes b))) as (? & ? & ? & ?);
      cbn [cb_with cb_state failures failure_threshold]; [done|lia|]. done.
Qed.

(** The breaker's life: a closed breaker opens on the failure that reaches
    its threshold and not before an attempt passes; while its wait lasts every
    attempt is refused; afterwards exactly one probe passes, and until its
    outcome is known the next attempt is refused; the probe's success closes
    the breaker with no failure counted, its failure opens it again for a
    whole wait. *)
Theorem breaker_lifecycle name threshold seconds fs now early late again fail_at :
  (Z.of_nat (length fs) + 1 = threshold)%Z ->
  (early - now < seconds)%Q -> (seconds <= late - now)%Q ->
  let closed := new_breaker name threshold seconds in
  let opened := fold_left breaker_step (map call_failure (fs ++ [now])) closed in
  let probing := breaker_step opened (call_admit late) in
  fst (fst (cb_admit early (fold_left breaker_step (map call_failure fs) closed))) = true /\
  cb_state opened = OPEN /\
  fst (fst (cb_admit early opened)) = false /\
  fst (fst (cb_admit late opened)) = true /\
  fst (fst (cb_admit again probing)) = false /\
  cb_state (breaker_step probing call_success) = CLOSED /\
  failures (breaker_step probing call_success) = 0%Z /\
  cb_state (breaker_step probing (call_failure fail_at)) = OPEN /\
  opened_at (breaker_step probing (call_failure fail_at)) = fail_at.
Proof.
  intros Hn He Hl. cbv zeta. set (closed := new_breaker name threshold seconds).
  destruct (failures_open closed fs now eq_refl) as (Ho & Hat & Hsec & Hpr); [simpl; lia|].
  assert (Hearly : cb_state (fold_left breaker_step (map call_failure fs) closed) = CLOSED).
  { clear -Hn. assert (Hc : cb_state closed = CLOSED) by done.
    assert (Hf : (failures closed + Z.of_nat (length fs) < failure_threshold closed)%Z) by (simpl; lia).
    clearbody closed. clear Hn. revert closed Hc Hf.
    induction fs as [|f fs IH]; intros b Hc Hf; simpl; [done|]. simpl in Hf.
    unfold record_failure. cbn [cb_with cb_state failure_threshold failures]. rewrite Hc.
    replace (failure_threshold b <=? failures b + 1)%Z with false by lia.
    rewrite bool_decide_eq_false_2 by done. apply IH; simpl; [done|lia]. }
  set (opened := fold_left _ _ closed) in *. change (open_seconds closed) with seconds in Hsec.
  change (half_open_max_probes closed) with 1%Z in Hpr. clearbody opened.
  assert (Hlate : cb_admit late opened =
    (true, cb_with opened HALF_OPEN (failures opened) (opened_at opened) 1, [(OPEN, HALF_OPEN)])).
  { unfold cb_admit. rewrite breaker_state_late by (try done; rewrite Hsec, Hat; done). simpl. by rewrite Hpr. }
  cbn [breaker_step]. rewrite Hlate. cbn [fst snd]. split_and!; try done.
  - unfold cb_admit. rewrite breaker_state_other by (by rewrite Hearly). by rewrite Hearly.
  - unfold cb_admit. rewrite breaker_open_early by (try done; rewrite Hsec, Hat; done). by rewrite Ho.
  - unfold cb_admit. rewrite breaker_state_other by done. simpl. by rewrite Hpr.
Qed.

(** A probe whose outcome is never recorded wedges the breaker: half-open
    with its probes spent, it refuses every later attempt, however much time
    passes, and stays exactly as it is. *)
Theorem half_open_wedged b times now :
  cb_state b = HALF_OPEN -> (half_open_max_probes b <= probes b)%Z ->
  fold_left breaker_step (map call_admit times) b = b /\ fst (fst (cb_admit now b)) = false.
Proof.
  intros Hs Hp.
  assert (Ha : forall t, cb_admit t b = (false, b, [])).
  { intros t. unfold cb_admit. rewrite breaker_state_other by (by rewrite Hs). rewrite Hs.
    by replace (probes b <? half_open_max_probes b)%Z with false by lia. }
  split; [|by rewrite Ha]. induction times as [|t ts IH]; simpl; [done|]. by rewrite Ha.
Qed.

(** ** The bulkhead *)

(** Whatever the interleaving of tasks, a bulkhead never runs more than its
    capacity at once and gives every permit back; and the bulkheads the bus
    builds, whose wait is zero, never reject: a saturated family's tasks wait. *)
Theorem bulkhead_bounded name capacity wait b es b' :
  new_bulkhead name capacity wait = Ret b -> bulkhead_run b es = Some b' ->
  (Z.of_nat (bh_active b') <= capacity)%Z /\
  (Z.of_nat (bh_active b' + permits b') = capacity)%Z /\
  ((wait == 0)%Q -> bh_rejected b' = 0).
Proof.
  unfold new_bulkhead. destruct (capacity <? 1)%Z eqn:Hc; [done|]. intros [= <-] Hr.
  apply Z.ltb_ge in Hc. destruct (bulkhead_run_inv _ _ _ Hr) as (Hinv & Hcap & _); [simpl; lia|].
  simpl in Hcap. split_and!; [lia|lia|]. intros Hw.
  rewrite (bulkhead_run_no_reject _ _ _ Hr); [done|]. unfold wait_timeout. simpl.
  by apply Qeq_bool_iff in Hw as ->.
Qed.

(** ** The adapter registry *)

(** A registry that registered its adapters and passed validation routes
    soundly: every enabled capability of the command registry has an owner; a
    routed command has one registered owner, which claims the policy's target,
    advertises its capability and can read back when the policy demands it; and
    no other registered adapter claims that target. *)
Theorem registry_routes_soundly {W} ps (cs : list (Candidate W)) r u r' v :
  register_all cs (new_registry ps) = (Ret u, r) -> validate r = (Ret v, r') ->
  (forall p, p ∈ policies (reg_policies r') ->
     capability_enabled (reg_policies r') (policy_capability p) = true ->
     exists aid, reg_owners r' !! prefix p = Some aid) /\
  forall ct o, ownership r' ct = Some o ->
  exists a, owner_for r' ct = Ret (Some a) /\ adapter_id a = own_adapter_id o /\
    own_target o ∈ adv_connector_ids (adapter_capabilities a) /\
    own_capability o ∈ adv_capabilities (adapter_capabilities a) /\
    (own_readback_required o = true -> supports_readback (adapter_capabilities a) = true) /\
    forall aid2 a2, reg_adapters r' !! aid2 = Some a2 ->
      own_target o ∈ adv_connector_ids (adapter_capabilities a2) -> aid2 = own_adapter_id o.
Proof.
  intros Hreg Hval.
  assert (Hok : registry_ok r).
  { pose proof (register_all_ok cs _ (registry_ok_new ps)) as H. by rewrite Hreg in H. }
  assert (Hok' : registry_ok r').
  { pose proof (validate_ok_preserved _ Hok) as H. by rewrite Hval in H. }
  assert (Hv : validation_problems r' = []).
  { apply (ro_validated _ Hok'). unfold validate in Hval. destruct (validation_problems r); [|done].
    by injection Hval as _ <-. }
  split.
  - intros p Hp Hen. pose proof (map_filter_nil _ _ _ Hv _ Hp) as Hf. cbn beta in Hf. rewrite Hen in Hf.
    apply bool_decide_eq_false in Hf. destruct (reg_owners r' !! prefix p) as [aid|]; [by exists aid|done].
  - intros ct o Ho. destruct (ownership_policy _ _ _ Hok' Ho) as (a & p & Ha & Hid & Hp & -> & -> & -> & Htgt).
    exists a. split; [unfold owner_for; by rewrite Ho, Ha|].
    destruct (ro_serves _ Hok' p _ a Hp Ha Htgt) as (Ho1 & ? & ?). split_and!; try done.
    intros aid2 a2 Ha2 Ht2. destruct (ro_serves _ Hok' p aid2 a2 Hp Ha2 Ht2) as (Ho2 & _). congruence.
Qed.

(** ** Redaction *)

(** Whatever is logged or stored through [redact_metadata] shows
    [[REDACTED]] under every sensitive key at every depth, keeps the keys and
    their order, and redacting again changes nothing. *)
Theorem redaction_total d :
  redacted (JObj (redact_metadata d)) /\ map fst (redact_metadata d) = map fst d /\
  redact_metadata (redact_metadata d) = redact_metadata d.
Proof. split_and!; [apply redact_metadata_redacted|apply redact_metadata_keys|apply redact_metadata_idem]. Qed.

(** ** The principal *)

Lemma tenants_from_claims_ok claims l :
  tenants_from_claims claims = Ret l -> "*" ∉ l /\ NoDup l.
Proof.
  unfold tenants_from_claims. destruct (string_items _ _) as [l0|]; [|done].
  destruct (mem_string "*" _) eqn:Hs; [done|]. intros [= <-]. split; [|apply dedupe_NoDup].
  intros Hin. apply mem_string_spec in Hin. congruence.
Qed.

Lemma roles_from_claims_ok claims cid l : roles_from_claims claims cid = Ret l -> length l <= MAX_ROLES /\ NoDup l.
Proof.
  unfold roles_from_claims. destruct (items_of _ _) as [l0|]; [|done].
  destruct (MAX_ROLES <? _) eqn:Hl; [done|]. intros [= <-]. apply Nat.ltb_ge in Hl.
  split; [done|apply dedupe_NoDup].
Qed.

Lemma synthetic_production c env :
  env ∉ SYNTHETIC_ENVIRONMENTS -> with_synthetic_authority c env = c.
Proof.
  intros Hn. unfold with_synthetic_authority. destruct (mem_string env _) eqn:Hm; [|done].
  by apply mem_string_spec in Hm.
Qed.

(** A principal is what the verified token says: its client is the
    authenticated caller the token was issued to, its subject is named, its
    tenants are finitely many and listed one by one (a wildcard is refused, so
    [authorized_for] is membership), roles and scopes are bounded and without
    repetition; and in production the caller's registered authority is used
    as it is registered. *)
Theorem principal_sound claims c env p :
  principal_from_claims claims c env = Ret p ->
  p_client_id p = caller_client_id c /\ get_str "azp" claims = Some (caller_client_id c) /\
  (exists s, get_str "sub" claims = Some s /\ p_subject p = strip s /\ str_nonempty (p_subject p) = true) /\
  NoDup (p_tenants p) /\ (forall t, authorized_for p t = true <-> t ∈ p_tenants p) /\
  length (p_roles p) <= MAX_ROLES /\ NoDup (p_roles p) /\
  length (p_scopes p) <= MAX_SCOPES /\ NoDup (p_scopes p) /\
  (env = Some "production" -> p_caller p = c).
Proof.
  unfold principal_from_claims. set (c' := match env with Some e => _ | None => c end).
  assert (Hid : caller_client_id c' = caller_client_id c).
  { subst c'. destruct env as [e|]; [|done]. unfold with_synthetic_authority. by destruct (_ || _). }
  destruct (get_str "sub" claims) as [s|]; [|done].
  destruct (negb (str_nonempty (strip s))) eqn:Hs; [done|]. apply negb_false_iff in Hs.
  destruct (300 <? _); [done|]. destruct (bool_decide _) eqn:Ha; [|done]. simpl. apply bool_decide_eq_true in Ha.
  destruct (tenants_from_claims claims) as [ts|] eqn:Ht; [|done].
  destruct (roles_from_claims claims _) as [rs|] eqn:Hr; [|done].
  destruct (string_items (dict_get "scope" claims) _) as [sc|] eqn:Hsc; [|done]. intros [= <-]. simpl.
  destruct (tenants_from_claims_ok _ _ Ht), (roles_from_claims_ok _ _ _ Hr), (string_items_bound _ _ _ Hsc).
  split_and!; try done; try congruence.
  - by exists s.
  - intros t. unfold authorized_for. simpl. rewrite andb_true_iff, mem_string_spec, negb_true_iff.
    destruct (mem_string "*" ts) eqn:Hst; [by apply mem_string_spec in Hst|]. naive_solver.
  - intros ->. subst c'. apply synthetic_production. unfold SYNTHETIC_ENVIRONMENTS. set_solver.
Qed.
