(* ===== verification/PgProps.v ===== *)
(** * Properties of the durable ledger

    [PostgresCommandStore] refines its specification, keeps its invariant along
    every history, and answers like the in-memory store; and the one place where
    a read refuses what a write accepted. *)

From Stdlib Require Import QArith.
From S2P Require Import Prelude Json Sha256 Uuid Commands LedgerSpec Ledger LedgerFacts Bus Principal Outbox.
From S2P Require Import PgLedger PgLedgerFacts PgHistory PgEquivalence.
Local Open Scope nat_scope.

#[local] Opaque sha256_hex uuid_str.

(** a sequence of transitions without evidence, unfenced *)
Fixpoint pg_moves (now : datetime) (t : string) (c : UUID) (l : list CommandState) (d : CommandDB) : CommandDB :=
  match l with
  | [] => d
  | st :: l => pg_moves now t c l (snd (pg_transition now t c st "worker:1" "moved" None None None d))
  end.

Section Claims.
Context `{Externals}.

(** C6: on every database that the store's own methods, with the cancellation of
    notifications, can produce, [transition] and [reconcile] of the Postgres store do
    exactly what the pure specification of one operation says - its error with every
    table untouched, or its new view, every other operation as it was.  [get] answers
    an unknown command with [CommandNotFound]; one whose audited digest outlived its
    evidence (a newer attempt has none) with [RuntimeError]; and every other with the
    view, its evidence and its digest. *)
Theorem pg_refines_spec d now t c st actor reason p e n matched ev ver :
  pg_reachable d -> tenant_ok t = true ->
  pg_implements (pg_transition now t c st actor reason p e n)
    (pg_spec_transition (db_view d (t, c)) st p e n) d (t, c) /\
  pg_implements (pg_reconcile now t c matched actor reason p ev ver)
    (pg_spec_reconcile (db_view d (t, c)) matched p ev ver) d (t, c) /\
  match db_view d (t, c) with
  | None => pg_get t c d = (not_found, d)
  | Some x =>
      if bool_decide (v_evidence (pv_core x) = None) && bool_decide (is_Some (pv_digest x))
      then pg_get t c d = (Exc (Exn RuntimeError "read-back evidence digest has no evidence payload"), d)
      else exists o, pg_get t c d = (Ret o, d) /\ shows o x /\ op_readback_evidence o = v_evidence (pv_core x) /\
        op_readback_evidence_sha256 o = pv_digest x
  end.
Proof.
  intros Hr Ht. pose proof (pg_reachable_ok d Hr) as Hok.
  split_and!; [by apply pg_transition_refines|by apply pg_reconcile_refines|].
  pose proof (pg_get_spec d t c Hok Ht) as Hg. destruct (db_view d (t, c)) as [x|]; [|done].
  by destruct (v_evidence (pv_core x)), (pv_digest x).
Qed.

(** In every database the store's own methods, with the cancellation of
    notifications, can produce, each command is stored under its own tenant and
    identifier with the digest of its own payload, its audit rows are a path of legal
    steps from its creation to its current state, its attempts are numbered from one
    without a gap, the stored evidence has the audited digest, and no two commands of
    a tenant share an idempotency key. *)
Theorem pg_invariant d k r :
  pg_reachable d -> db_commands d !! k = Some r ->
  k = (tenant_id (c_identity r), command_id (c_identity r)) /\
  (exists env client, c_payload r = authenticated_command_payload env client /\ c_identity r = identity_of env /\
     c_payload_sha256 r = authenticated_command_digest env client) /\
  trail None (map event_of_row (audit_of k (db_audit d))) (c_state r) /\
  map a_number (attempts_of k (db_attempts d)) = seq 1 (length (attempts_of k (db_attempts d))) /\
  consistent (last (attempts_of k (db_attempts d)) ≫= a_result_payload)
    (persisted_digest [completed; reconciliation_required] k (db_audit d)) /\
  (forall k' r', db_commands d !! k' = Some r' -> fst k = fst k' ->
     idempotency_key (c_identity r) = idempotency_key (c_identity r') -> k = k').
Proof.
  intros Hr Hk. pose proof (pg_reachable_ok d Hr) as Hok.
  destruct (db_rows _ Hok _ _ Hk) as [Hkey _ (env & client & Hp & _ & _ & Hi & Hs) Hau Hat Hc].
  split_and!; try done; [by exists env, client|]. intros k' r' Hk' Hf Hid. by eapply (db_unique _ Hok).
Qed.

(** C4: on every history of submissions, transitions, verdicts, operator requests,
    dead letters, and reads of the attempt number and of the envelope, the in-memory
    store and the Postgres store raise the same errors with the same words, except
    that two identities of different commands are refused with other words, and
    tell the same: of a submission its command's identity and whether it was a
    duplicate; of a transition or a verdict the identity, the state, the provider
    identifier and the version; of an operator's request these and whether it was a
    duplicate; the attempt number; the envelope.  The calls have a valid envelope
    whose key is none of the ledger's own, a tenant Postgres admits and no empty
    provider identifier.  The other parts of an answer are not compared (evidence
    and its digest, the text of the last error, which Postgres truncates, times, the
    dead-letter record), nor are [get], the lists and the backlog, in which the
    stores differ. *)
Theorem stores_agree l :
  Forall call_ok l ->
  Forall2 same_answer (run_history l empty_store) (run_history l empty_db).
Proof. intros Hl. apply run_history_same; [apply same_ledger_empty|done]. Qed.

(** When evidence of an earlier attempt was audited and the command is
    dispatched again, [get] raises [RuntimeError] - and with it the lists of
    events and attempts - whatever the new attempt goes through, until it
    completes or is parked *)
Theorem pg_evidence_lost d t c r g now actor reason l :
  pg_reachable d -> tenant_ok t = true ->
  db_commands d !! (t, c) = Some r -> c_state r = queued ->
  persisted_digest [completed; reconciliation_required] (t, c) (db_audit d) = Some g ->
  Forall (fun st => state_in st [completed; reconciliation_required] = false) l ->
  let e := Exn RuntimeError "read-back evidence digest has no evidence payload" in
  exists o d1, pg_transition now t c dispatching actor reason None None None d = (Ret o, d1) /\
  let d' := pg_moves now t c l d1 in
  pg_get t c d' = (Exc e, d') /\
  (forall limit position, fst (pg_list_events t c limit position d') = Exc e) /\
  (forall limit position, fst (pg_list_attempts t c limit position d') = Exc e).
Proof.
  intros Hr Ht Hk Hst Hg Hl. cbn zeta. pose proof (pg_reachable_ok d Hr) as Hok.
  set (lost := fun d => db_ok d /\ exists x, db_view d (t, c) = Some x /\ v_evidence (pv_core x) = None /\ pv_digest x = Some g).
  assert (forall d', lost d' -> pg_get t c d' =
    (Exc (Exn RuntimeError "read-back evidence digest has no evidence payload"), d')) as Hget.
  { intros d' (Hok' & x & Hx & He & Hd). pose proof (pg_get_spec d' t c Hok' Ht) as Hs. by rewrite Hx, He, Hd in Hs. }
  assert (forall l d', Forall (fun st => state_in st [completed; reconciliation_required] = false) l ->
    lost d' -> lost (pg_moves now t c l d')) as Hmoves.
  { clear -Ht. intros l. induction l as [|st l IH]; [done|]. intros d' [Hst Hl]%Forall_cons (Hok & x & Hx & He & Hd).
    simpl. apply IH; [done|].
    pose proof (pg_transition_refines d' now t c st "worker:1" "moved" None None None Hok Ht) as Hi. rewrite Hx in Hi.
    unfold pg_spec_transition, spec_transition in Hi. simpl in Hi.
    destruct (negb (state_in st (ALLOWED_COMMAND_TRANSITIONS _))); simpl in Hi.
    - rewrite Hi. split; [done|]. by exists x.
    - destruct Hi as (o & d1 & -> & _ & Hok1 & Hx1 & _). split; [done|]. eexists. split; [exact Hx1|].
      simpl. rewrite He, Hst. split; [by repeat case_match|done]. }
  destruct (db_view_Some _ _ _ Hok Hk) as (env & _ & _ & Hx).
  pose proof (pg_transition_refines d now t c dispatching actor reason None None None Hok Ht) as Hi. rewrite Hx in Hi.
  unfold pg_spec_transition, spec_transition in Hi. simpl in Hi. rewrite Hst in Hi.
  destruct Hi as (o & d1 & Hrun & _ & Hok1 & Hx1 & _). exists o, d1. split; [done|].
  assert (lost (pg_moves now t c l d1)) as Hlost.
  { apply Hmoves; [done|]. split; [done|]. by eexists. }
  specialize (Hget _ Hlost). split_and!; [done|..]; intros limit position;
    unfold pg_list_events, pg_list_attempts; by erewrite bind_exc by exact Hget.
Qed.

End Claims.
