(* ===== verification/InboxProps.v ===== *)
(** * Properties of the event inbox *)

From stdpp Require Import sorting.
From Stdlib Require Import Ascii.
From S2P Require Import Prelude Json Sha256 Uuid Commands Registry Inbox InboxFacts.
Local Open Scope Z_scope.

#[local] Opaque event_ledger_hash canonical_payload_sha256.

(** ** The store *)

(** the tenant's chain, its length and its head are what the store keeps *)
Definition inbox_ok (s : MemoryInboxStore) : Prop := forall t,
  let l := of_tenant t (ledger_records s) in
  chained 1 ZERO_LEDGER_HASH l /\ count_of (ledger_counts s) t = Z.of_nat (length l) /\
  default ZERO_LEDGER_HASH (ledger_heads s !! t) = chain_head ZERO_LEDGER_HASH l.

(** what [accept] does: nothing but answer, or append *)
Lemma accept_cases c s r s' :
  accept c s = (r, s') ->
  (s' = s /\ (forall t, accepted_for t [r] = [])) \/
  (r = Ret (accepted_result (in_envelope c)) /\ s' = append_event_record c s /\
   canonical_payload_sha256 (event_dump (in_envelope c)) = in_semantic_sha256 c /\
   event_items s !! event_key c = None /\ idempotency_items s !! idempotency_key_of c = None).
Proof.
  unfold accept. case_bool_decide as Hsem; cbn [negb]; [|intros [= <- <-]; left; split; reflexivity].
  destruct (event_items s !! event_key c) as [[h1 r1]|] eqn:He,
    (idempotency_items s !! idempotency_key_of c) as [[h2 r2]|] eqn:Hi; cbn [negb];
    [case_bool_decide; cbn [negb]; [|intros [= <- <-]; left; split; reflexivity]| |
       |intros [= <- <-]; right; split_and!; reflexivity || exact Hsem];
    case_bool_decide; cbn [negb]; intros [= <- <-]; left; split; reflexivity.
Qed.

Lemma append_ok c s :
  inbox_ok s -> canonical_payload_sha256 (event_dump (in_envelope c)) = in_semantic_sha256 c ->
  inbox_ok (append_event_record c s).
Proof.
  intros Hok Hsem t. cbn zeta. cbn [append_event_record ledger_records ledger_counts ledger_heads].
  rewrite of_tenant_app. destruct (Hok t) as (Hc & Hn & Hh). unfold of_tenant at 2 4 6.
  cbn [List.filter next_record rec_tenant_id].
  unfold count_of in *. case_bool_decide as Ht.
  - subst t. rewrite !lookup_insert_eq, chained_app, chain_head_app, length_app.
    unfold next_record. rewrite Hh, Hn. cbn. split_and!; try lia; try done; f_equal; lia.
  - rewrite app_nil_r, !lookup_insert_ne by done. done.
Qed.

Lemma accept_ok c s : inbox_ok s -> inbox_ok (snd (accept c s)).
Proof.
  intros Hok. destruct (accept c s) as [r s'] eqn:Ha. destruct (accept_cases _ _ _ _ Ha) as [[-> _]|(_ & -> & Hs & _)].
  - done.
  - by apply append_ok.
Qed.

(** the tenant's records grow by its accepted events *)
Lemma accept_counts t c s :
  length (of_tenant t (ledger_records (snd (accept c s)))) =
  (length (of_tenant t (ledger_records s)) + length (accepted_for t [fst (accept c s)]))%nat.
Proof.
  destruct (accept c s) as [r s'] eqn:Ha. cbn [fst snd].
  destruct (accept_cases _ _ _ _ Ha) as [[-> Hn]|(-> & -> & _)]; [rewrite Hn; simpl; lia|].
  cbn [append_event_record ledger_records]. rewrite of_tenant_app, length_app. f_equal.
  cbn [of_tenant accepted_for List.filter next_record rec_tenant_id accepted_result ing_status ing_tenant_id].
  rewrite (bool_decide_eq_true_2 (ing_accepted = ing_accepted)) by done. cbn [andb]. by case_bool_decide.
Qed.

Lemma inbox_run_ok cs s :
  inbox_ok s ->
  inbox_ok (snd (inbox_run cs s)) /\
  forall t, length (of_tenant t (ledger_records (snd (inbox_run cs s)))) =
    (length (of_tenant t (ledger_records s)) + length (accepted_for t (fst (inbox_run cs s))))%nat.
Proof.
  revert s. induction cs as [|c cs IH]; intros s Hok; cbn [inbox_run].
  { split; [done|]. intros t. simpl. lia. }
  pose proof (accept_ok c s Hok) as Hok1. pose proof (fun t => accept_counts t c s) as Hn1.
  destruct (accept c s) as [r s1]. cbn [fst snd] in *. destruct (IH s1 Hok1) as [Hok2 Hn2].
  destruct (inbox_run cs s1) as [rs s2]. cbn [fst snd] in *. split; [done|]. intros t.
  rewrite Hn2, Hn1. change (r :: rs) with ([r] ++ rs). rewrite accepted_for_app, length_app. lia.
Qed.

Lemma empty_inbox_ok : inbox_ok empty_inbox.
Proof. done. Qed.

(** The inbox's ledger always verifies: after any history of calls, with
    any answers, the verifier accepts the records the store holds, and the
    counts it reports are, tenant by tenant, the number of events that were
    answered [accepted]. *)
Theorem inbox_chain_verifies cs :
  let (rs, s) := inbox_run cs empty_inbox in
  exists m, verify_event_ledger_records (ledger_records s) = Ret m /\
    forall t, count_of m t = Z.of_nat (length (accepted_for t rs)).
Proof.
  destruct (inbox_run_ok cs empty_inbox empty_inbox_ok) as [Hok Hn].
  destruct (inbox_run cs empty_inbox) as [rs s]. cbn [fst snd] in *.
  destruct (chains_verify (ledger_records s)) as (m & Hm & Hc); [intros t; apply Hok|].
  exists m. split; [done|]. intros t. by rewrite Hc, Hn.
Qed.

(** ** Once *)

Lemma accept_keeps c s k x :
  (event_items s !! k = Some x -> event_items (snd (accept c s)) !! k = Some x) /\
  (idempotency_items s !! k = Some x -> idempotency_items (snd (accept c s)) !! k = Some x).
Proof.
  destruct (accept c s) as [r s'] eqn:Ha. cbn [snd].
  destruct (accept_cases _ _ _ _ Ha) as [[-> _]|(_ & -> & _ & He & Hi)]; [done|].
  cbn [append_event_record event_items idempotency_items].
  split; intros Hk; (rewrite lookup_insert_ne; [done|congruence]).
Qed.

Lemma inbox_run_keeps cs s k x :
  (event_items s !! k = Some x -> event_items (snd (inbox_run cs s)) !! k = Some x) /\
  (idempotency_items s !! k = Some x -> idempotency_items (snd (inbox_run cs s)) !! k = Some x).
Proof.
  revert s. induction cs as [|c cs IH]; intros s; cbn [inbox_run]; [done|].
  destruct (accept_keeps c s k x) as [H1 H2]. destruct (accept c s) as [r s1]. cbn [snd] in *.
  destruct (IH s1) as [H3 H4]. destruct (inbox_run cs s1) as [rs s2]. cbn [snd] in *. auto.
Qed.

(** An event is taken in once: after it was accepted, and whatever was
    ingested since, the same call answers the same result as a duplicate and
    writes nothing; and a call that reuses its event identity with a different
    comparison hash, or its idempotency key for an event not seen, is refused
    and writes nothing. *)
Theorem inbox_accept_once cs c s r s1 :
  accept c s = (Ret r, s1) -> ing_status r = ing_accepted ->
  let s2 := snd (inbox_run cs s1) in
  accept c s2 = (Ret (as_duplicate r), s2) /\
  forall c', comparison_sha256 c' <> comparison_sha256 c ->
    event_key c' = event_key c \/
      idempotency_key_of c' = idempotency_key_of c /\ event_items s2 !! event_key c' = None ->
    exists e, accept c' s2 = (Exc e, s2).
Proof.
  intros Ha Hacc. cbv zeta. destruct (accept_cases _ _ _ _ Ha) as [[_ Hn]|(Hr & Hs1 & Hsem & _)].
  { exfalso. specialize (Hn (ing_tenant_id r)). cbn [accepted_for List.filter] in Hn.
    by rewrite Hacc, !bool_decide_eq_true_2 in Hn. }
  injection Hr as ->.
  destruct (inbox_run_keeps cs s1 (event_key c) (comparison_sha256 c, accepted_result (in_envelope c))) as [Hev _].
  destruct (inbox_run_keeps cs s1 (idempotency_key_of c) (comparison_sha256 c, accepted_result (in_envelope c)))
    as [_ Hid].
  rewrite Hs1 in Hev at 1. rewrite Hs1 in Hid at 1. specialize (Hev (lookup_insert_eq _ _ _)).
  specialize (Hid (lookup_insert_eq _ _ _)). generalize dependent (snd (inbox_run cs s1)). intros s2 Hev Hid. split.
  - unfold accept. rewrite Hsem, Hev, Hid. by rewrite !bool_decide_eq_true_2.
  - intros c' Hne Hk. unfold accept. case_bool_decide; cbn [negb]; [|by eexists].
    destruct Hk as [->|[-> ->]]; rewrite ?Hev, ?Hid.
    + destruct (idempotency_items s2 !! idempotency_key_of c') as [[h2 r2]|]; cbn [negb];
        [case_bool_decide; cbn [negb]; [|by eexists]|]; rewrite bool_decide_eq_false_2 by congruence; by eexists.
    + cbn [negb]. rewrite bool_decide_eq_false_2 by congruence. by eexists.
Qed.

(** ** Tamper evidence *)

(** the texts behind the hashes of a list of records *)
Definition hashed_texts (l : list EventLedgerRecord) : list string :=
  flat_map (fun r => [dumps (JObj (rec_payload r)); entry_text r]) l.

(** the same entry: every field, and the payload's canonical text *)
Definition same_entry (a b : EventLedgerRecord) : Prop :=
  rec_tenant_id a = rec_tenant_id b /\ rec_tenant_sequence a = rec_tenant_sequence b /\
  rec_event_id a = rec_event_id b /\ rec_semantic_sha256 a = rec_semantic_sha256 b /\
  rec_previous_entry_hash a = rec_previous_entry_hash b /\ rec_entry_hash a = rec_entry_hash b /\
  dumps (JObj (rec_payload a)) = dumps (JObj (rec_payload b)).

(** SHA-256 does not collide on the texts of the two ledgers *)
Definition no_collision (l1 l2 : list EventLedgerRecord) : Prop :=
  forall x y, In x (hashed_texts l1) -> In y (hashed_texts l2) -> sha256_hex x = sha256_hex y -> x = y.

Lemma in_hashed r l : In r l -> In (dumps (JObj (rec_payload r))) (hashed_texts l) /\ In (entry_text r) (hashed_texts l).
Proof. intros Hr. unfold hashed_texts. rewrite !in_flat_map. split; exists r; simpl; tauto. Qed.

Lemma no_collision_incl l1 l2 k1 k2 : incl l1 k1 -> incl l2 k2 -> no_collision k1 k2 -> no_collision l1 l2.
Proof.
  intros H1 H2 Hn x y. unfold hashed_texts. rewrite !in_flat_map. intros (a & Ha & Hx) (b & Hb & Hy).
  apply Hn; unfold hashed_texts; rewrite in_flat_map; eauto.
Qed.

Lemma last_entry_agrees n h1 h2 t a b :
  rec_tenant_id a = t -> rec_tenant_id b = t -> chained n h1 [a] -> chained n h2 [b] ->
  rec_entry_hash a = rec_entry_hash b -> no_collision [a] [b] -> same_entry a b /\ h1 = h2.
Proof.
  intros Ht1 Ht2 (Hn1 & Hp1 & Hs1 & He1 & _) (Hn2 & Hp2 & Hs2 & He2 & _) He Hn.
  destruct (in_hashed a [a]) as [Ha1 Ha2]; [by left|]. destruct (in_hashed b [b]) as [Hb1 Hb2]; [by left|].
  assert (entry_text a = entry_text b) as Htext.
  { apply Hn; [done|done|]. rewrite <- !event_ledger_hash_text. congruence. }
  destruct (entry_text_inj a b) as (H1 & H2 & H3); [congruence|congruence|done|].
  split; [|congruence]. unfold same_entry. split_and!; try congruence.
  apply Hn; [done|done|]. rewrite <- !canonical_payload_text. congruence.
Qed.

Lemma chains_agree n p t l1 l2 :
  Forall (fun r => rec_tenant_id r = t) l1 -> Forall (fun r => rec_tenant_id r = t) l2 ->
  chained n p l1 -> chained n p l2 -> length l1 = length l2 -> chain_head p l1 = chain_head p l2 ->
  no_collision l1 l2 -> Forall2 same_entry l1 l2.
Proof.
  revert l2. induction l1 as [|a l1 IH] using rev_ind; intros l2 Ht1 Ht2 Hc1 Hc2 Hlen Hh Hn.
  { destruct l2; [constructor|done]. }
  destruct l2 as [|b l2 _] using rev_ind; [rewrite length_app in Hlen; simpl in Hlen; lia|].
  rewrite !length_app in Hlen. simpl in Hlen. rewrite !chain_head_app in Hh.
  apply Forall_app in Ht1 as [Ht1 Ha]. apply Forall_app in Ht2 as [Ht2 Hb].
  apply Forall_cons in Ha as [Ha _]. apply Forall_cons in Hb as [Hb _].
  apply chained_app in Hc1 as [Hc1 Hca]. apply chained_app in Hc2 as [Hc2 Hcb].
  assert (length l1 = length l2) as Hl by lia. rewrite Hl in Hca.
  destruct (last_entry_agrees _ _ _ t a b Ha Hb Hca Hcb Hh) as [Hsame Hprev].
  { eapply no_collision_incl; [| |exact Hn]; apply incl_appr, incl_refl. }
  apply Forall2_app; [|by constructor]. apply IH; try done.
  eapply no_collision_incl; [| |exact Hn]; apply incl_appl, incl_refl.
Qed.

(** The chain is tamper-evident: when two ledgers both verify and agree on
    a tenant's number of events and on the hash of its last entry, then, unless
    SHA-256 collides on texts of these very ledgers, they agree on every entry
    of the tenant, in order: sequence, event, hashes and the payload's
    canonical text.  Any change to a past event changes the last hash. *)
Theorem ledger_tamper_evident l1 l2 m1 m2 t :
  verify_event_ledger_records l1 = Ret m1 -> verify_event_ledger_records l2 = Ret m2 ->
  count_of m1 t = count_of m2 t ->
  let c1 := of_tenant t (merge_sort record_le l1) in
  let c2 := of_tenant t (merge_sort record_le l2) in
  chain_head ZERO_LEDGER_HASH c1 = chain_head ZERO_LEDGER_HASH c2 -> no_collision c1 c2 ->
  Forall2 same_entry c1 c2.
Proof.
  intros H1 H2 Hn. cbv zeta. intros Hh Hcol. unfold verify_event_ledger_records in H1, H2.
  destruct (verify_loop verify_start (merge_sort record_le l1)) as [st1|] eqn:E1; [|done]. injection H1 as <-.
  destruct (verify_loop verify_start (merge_sort record_le l2)) as [st2|] eqn:E2; [|done]. injection H2 as <-.
  pose proof (proj1 (verify_loop_spec _ _) (ex_intro _ _ E1) t) as Hc1.
  pose proof (proj1 (verify_loop_spec _ _) (ex_intro _ _ E2) t) as Hc2.
  rewrite (verify_loop_counts _ _ _ t E1), (verify_loop_counts _ _ _ t E2) in Hn.
  eapply (chains_agree 1 ZERO_LEDGER_HASH t); try done; try (apply Forall_forall; intros r; apply of_tenant_elem). lia.
Qed.
