(* ===== verification/OutboxProps.v ===== *)
(** * Properties of the durable outbox and its worker

    Fencing, deadlines and the worker's failures; then the witnesses of these
    properties and of the event ledger's. *)

From Stdlib Require Import QArith Lqa.
From stdpp Require Import sorting.
From S2P Require Import Prelude Json Sha256 Commands Registry Bus Principal Outbox.
From S2P Require Import Inbox InboxProps.
Local Open Scope nat_scope.

(** ** Fencing *)

Lemma update_where_none p f l : (forall r, In r l -> p r = false) -> update_where p f l = (None, l).
Proof.
  induction l as [|r l IH]; intros Hp; simpl; [done|]. rewrite (Hp r) by by left.
  rewrite IH; [done|]. intros x Hx. apply Hp. by right.
Qed.

(** a fenced update whose fence the row does not meet *)
Lemma fenced_update_refused p f ev lost t id r :
  table_ok t -> row_at id t = Some r -> p r = false -> (forall x, p x = true -> row_id x = id) ->
  fenced_update p f ev lost t = (Exc (Exn StorageError lost), t).
Proof.
  intros Hok Hr Hp Hid. unfold fenced_update. rewrite update_where_none; [done|].
  intros x Hx. destruct (p x) eqn:Hpx; [|done]. pose proof (find_in _ _ Hok Hx) as Hf.
  rewrite (Hid _ Hpx) in Hf. unfold row_at in Hr. rewrite Hr in Hf. by injection Hf as <-; congruence.
Qed.

(** the fence alone makes the conditions false *)
Lemma fence_stale f r : (f < row_fencing_token r)%Z -> fence_ok (Some f) r = false.
Proof. intros Hf. simpl. lia. Qed.

Ltac refused_by_fence Hok Hr Hf :=
  eexists; eapply fenced_update_refused; [exact Hok|exact Hr| |];
  [by rewrite (fence_stale _ _ Hf), ?andb_false_r|intros x Hx; split_andb; by apply Nat.eqb_eq].

(** Fencing: once a row was claimed again, the holder of an older fencing
    token can never write it any more, whatever happens to the outbox later and
    whoever it says it is: completing, failing, quarantining, renewing or
    resolving with the old token is refused and changes nothing. *)
Theorem stale_lease_fenced t cs id r f :
  table_ok t -> row_at id t = Some r -> (f < row_fencing_token r)%Z ->
  forall now worker error lease n operator a reason,
  let t' := outbox_run t cs in
  let refused m := exists e, m t' = (Exc e, t') in
  refused (complete now id worker (Some f)) /\ refused (fail now id worker error n (Some f)) /\
  refused (quarantine_unknown_outcome now id worker error lease (Some f)) /\
  refused (renew_active_dispatch now id worker lease (Some f)) /\
  refused (resolve_reconciliation now id operator a reason n (Some worker) (Some f)).
Proof.
  intros Hok Hr Hf now worker error lease n operator a reason. cbv zeta.
  destruct (outbox_run_row t cs id r Hok Hr) as (Hok' & r' & Hr' & Htok & _).
  assert (Hf' : (f < row_fencing_token r')%Z) by lia. clear Hr Hf Hok. set (t' := outbox_run t cs) in *.
  split_and!.
  - refused_by_fence Hok' Hr' Hf'.
  - unfold fail. destruct (n <? 1)%Z; [by eexists|]. refused_by_fence Hok' Hr' Hf'.
  - unfold quarantine_unknown_outcome. destruct (Qle_bool lease 0); [by eexists|]. refused_by_fence Hok' Hr' Hf'.
  - unfold renew_active_dispatch. destruct (Qle_bool lease 0); [by eexists|]. refused_by_fence Hok' Hr' Hf'.
  - unfold resolve_reconciliation. destruct (resolve_arguments _ _ _ _); [by eexists|].
    unfold row_at in Hr'. rewrite Hr'. cbn [fmap option_fmap option_map].
    assert (exists e, resolve_refusal now a n (Some (strip worker)) (Some f) r' = Some e) as [e ->]; [|by eexists].
    unfold resolve_refusal. rewrite (fence_stale _ _ Hf'). cbn [negb]. repeat case_match; eauto.
Qed.

(** ** Quarantine *)

(** awaiting a verdict, and not ended *)
Definition in_quarantine (r : OutboxRow) : Prop :=
  is_Some (row_reconciliation_required_at r) /\ row_completed_at r = None /\ row_dead_lettered_at r = None.

(** still in quarantine, with no attempt or token spent meanwhile *)
Definition held (r r' : OutboxRow) : Prop :=
  in_quarantine r' /\ row_attempt_count r' = row_attempt_count r /\ row_fencing_token r' = row_fencing_token r.

Lemma in_quarantine_not_live r : in_quarantine r -> live r = false.
Proof. intros [[x Hx] _]. unfold live. rewrite Hx. simpl. apply andb_false_r. Qed.

Lemma row_step_held r r' : row_step false r r' -> in_quarantine r -> held r r'.
Proof.
  intros Hs Hq. pose proof (in_quarantine_not_live r Hq) as Hl. destruct Hq as ((x & Hx) & Hc & Hd).
  destruct Hs as [|? ? H|? ? ? H|? ? ? ? H|? ? ? H|until H|? ? ? H]; try congruence;
    unfold held, in_quarantine; simpl; rewrite Hx;
    split_and!; eauto.
Qed.

Lemma run_held t cs i r :
  table_ok t -> row_at i t = Some r -> in_quarantine r -> forallb (fun c => negb (resolves c i)) cs = true ->
  table_ok (outbox_run t cs) /\ exists r', row_at i (outbox_run t cs) = Some r' /\ held r r'.
Proof.
  revert t r. induction cs as [|c cs IH]; intros t r Hok Hr Hq Hc; simpl.
  { split; [done|]. by exists r. }
  simpl in Hc. apply andb_prop in Hc as [Hc Hcs]. apply negb_true_iff in Hc.
  destruct (exec_step t c Hok) as [Hok1 Hs]. destruct (Hs _ _ Hr) as (r1 & Hr1 & Hs1). rewrite Hc in Hs1.
  destruct (row_step_held _ _ Hs1 Hq) as (Hq1 & Hn1 & Ht1).
  destruct (IH _ _ Hok1 Hr1 Hq1 Hcs) as (Hok2 & r2 & Hr2 & Hq2 & Hn2 & Ht2).
  split; [done|]. exists r2. split; [done|]. split_and!; [done|congruence|congruence].
Qed.

(** a row in quarantine is not what a claim returns *)
Lemma claim_skips t i r now locked w l n rec t' :
  table_ok t -> row_at i t = Some r -> in_quarantine r ->
  claim now locked w l n t = (Ret (Some rec), t') -> record_id rec <> i.
Proof.
  intros Hok Hr Hq Hc Heq. destruct (claim_inv _ _ _ _ _ _ _ _ Hok Hc) as (r0 & Hr0 & Hcl & _).
  rewrite Heq, Hr in Hr0. injection Hr0 as <-. unfold claimable_row in Hcl.
  by rewrite (in_quarantine_not_live _ Hq) in Hcl.
Qed.

(** ** The worker *)

Section WorkerClaims.
Context {X : Type}.
Implicit Types (wk : OutboxWorker X) (s : WorkerState X).

(** A timeout is final: when a handler overruns its deadline on a row in
    quarantine, the worker writes nothing, whatever the handler answers in the
    end — return, certified safe retry, error or cancellation — and from then
    on, through any history of calls by anyone except a resolution of that row,
    the row stays in quarantine with its attempt count and fencing token and no
    claim returns it. *)
Theorem timeout_is_sticky wk rec h s run s1 cs0 r cs :
  table_ok (table s) -> row_at (record_id rec) (table s) = Some r -> in_quarantine r ->
  h rec s = (run, s1) -> (time_ s + wk_handler_timeout_seconds wk < time_ s1)%Q ->
  worker_cancelled run = false ->
  (forall e, run_result run = Exc e -> is_exception e = true \/ is_cancelled e = true) ->
  table s1 = outbox_run (table s) cs0 ->
  forallb (fun c => negb (resolves c (record_id rec))) (cs0 ++ cs) = true ->
  supervise wk rec h s = (Ret true, s1) /\
  let t := outbox_run (table s1) cs in
  (exists r', row_at (record_id rec) t = Some r' /\ held r r') /\
  forall now locked w l n rec' t', claim now locked w l n t = (Ret (Some rec'), t') ->
    record_id rec' <> record_id rec.
Proof.
  intros Hok Hr Hq Hh Htime Hwc Hexc Hs1 Hcs. split.
  - unfold supervise. rewrite Hh, Hwc.
    assert (Qle_bool (time_ s1) (time_ s + wk_handler_timeout_seconds wk) = false) as ->.
    { apply not_true_iff_false. rewrite Qle_bool_iff. lra. }
    cbn [negb]. destruct (run_result run) as [u|e] eqn:He; [done|]. destruct (Hexc _ eq_refl) as [Hx|Hx].
    + rewrite Hx. destruct (is_cancelled e); [done|]. by case_bool_decide.
    + by rewrite Hx.
  - cbv zeta. rewrite Hs1. unfold outbox_run. rewrite <- fold_left_app. fold (outbox_run (table s) (cs0 ++ cs)).
    destruct (run_held _ _ _ _ Hok Hr Hq Hcs) as (Hok' & r' & Hr' & Hheld). split; [by exists r'|].
    intros now locked w l n rec' t' Hc. eapply claim_skips; [exact Hok'|exact Hr'|apply Hheld|exact Hc].
Qed.

Definition with_handlers wk hs : OutboxWorker X := {|
  wk_handlers := hs; wk_poll_seconds := wk_poll_seconds wk; wk_lease_seconds := wk_lease_seconds wk;
  wk_handler_timeout_seconds := wk_handler_timeout_seconds wk; wk_max_attempts := wk_max_attempts wk;
  wk_effect_gate := wk_effect_gate wk; wk_id := wk_id wk |}.

(** The worker fails closed: with no effect gate, or with one that does not
    allow the record, no handler runs: the whole pass, the row's failure
    included, is the same whatever the registered handlers do. *)
Theorem effect_gate_fails_closed wk hs locked s :
  (forall dest, is_Some (hs !! dest) <-> is_Some (wk_handlers wk !! dest)) ->
  (forall gate rec s1, wk_effect_gate wk = Some gate -> fst (gate rec s1) <> Ret true) ->
  run_once (with_handlers wk hs) locked s = run_once wk locked s.
Proof.
  intros Hdom Hgate. unfold run_once. apply bind_ext; [done|]. intros [rec|] s1; [|done].
  specialize (Hdom (record_destination rec)). cbn [with_handlers wk_handlers wk_effect_gate].
  destruct (hs !! record_destination rec) as [h1|], (wk_handlers wk !! record_destination rec) as [h2|];
    [| |by destruct Hdom as [_ [? ?]]|done].
  2: { by destruct (proj1 Hdom (ex_intro _ h1 eq_refl)). }
  unfold bind. destruct (wk_effect_gate wk) as [gate|]; [|done].
  specialize (Hgate gate rec s1 eq_refl). destruct (gate rec s1) as [[[]|e] s2]; [by destruct Hgate|done|done].
Qed.

(** A known-safe retry on the last attempt takes the worker down: the
    outbox refuses to requeue the row, so the pass raises (a
    [ReconciliationError], or a [ValueError] when the worker's id or the reason
    is too long), which [run_forever] does not catch, and the row is left in
    quarantine instead of being dead-lettered. *)
Theorem last_retry_raises wk rec h s run s1 r msg :
  h rec s = (run, s1) -> worker_cancelled run = false ->
  run_result run = Exc (Exn KnownSafeRetryError msg) ->
  (time_ s1 <= time_ s + wk_handler_timeout_seconds wk)%Q ->
  row_at (record_id rec) (table s1) = Some r -> in_quarantine r ->
  (wk_max_attempts wk <= Z.of_nat (row_attempt_count r))%Z ->
  exists e, supervise wk rec h s = (Exc e, s1) /\ exn_cls e ∈ [ReconciliationError; ValueError].
Proof.
  intros Hh Hwc Hres Htime Hr ((x & Hx) & Hc & Hd) Hmax. unfold supervise. rewrite Hh, Hwc, Hres.
  apply Qle_bool_iff in Htime. rewrite Htime. cbn [negb exn_cls exn_msg is_cancelled].
  change (is_cancelled (Exn KnownSafeRetryError msg)) with false. rewrite bool_decide_eq_true_2 by done.
  unfold bind, settle, in_table, resolve_reconciliation.
  destruct (resolve_arguments _ _ _ _) as [e|].
  { exists (Exn ValueError e). split; [by destruct s1|]. right. left. }
  unfold row_at in Hr. rewrite Hr. cbn [fmap option_fmap option_map].
  assert (exists e, resolve_refusal (time_ s1) act_retry_row (wk_max_attempts wk) (Some (strip (wk_id wk)))
    (Some (record_fencing_token rec)) r = Some e) as [e ->].
  { unfold resolve_refusal. rewrite Hx, Hc, Hd. cbn [present orb negb].
    assert ((wk_max_attempts wk <=? Z.of_nat (row_attempt_count r))%Z = true) as -> by lia.
    rewrite (bool_decide_eq_true_2 (act_retry_row = act_retry_row)) by done. cbn [andb]. repeat case_match; eauto; done. }
  exists (Exn ReconciliationError e). split; [by destruct s1|]. left.
Qed.
End WorkerClaims.

(** ** The outbox and inbox theorems on concrete inputs *)

(** ** The outbox *)

Definition unlocked (_ : nat) : bool := false.
Definition one_row : OutboxTable :=
  outbox_run (mkTable [] [] []) [call_enqueue 1 "acme" "nats-jetstream" "codestra.lead.created" "key-0001" [] 0].

(** claimed by [w1], and again by [w2] when the lease of [w1] was over *)
Definition claimed_twice : OutboxTable :=
  outbox_run one_row [call_claim 0 unlocked "w1" 30 8; call_claim 31 unlocked "w2" 30 8].

Lemma stale_lease_fenced_witness :
  let t' := outbox_run claimed_twice [call_renew 40 1 "w2" 30 (Some 2%Z)] in
  exists e, complete 41 1 "w1" (Some 1%Z) t' = (Exc e, t').
Proof.
  destruct (row_at 1 claimed_twice) as [r|] eqn:Hr; [|vm_compute in Hr; discriminate Hr].
  apply (stale_lease_fenced claimed_twice [call_renew 40 1 "w2" 30 (Some 2%Z)] 1 r 1%Z) with
    (error := "late"%string) (lease := 30%Q) (n := 8%Z) (operator := "w1"%string) (a := act_complete_row)
    (reason := "late"%string).
  - unfold table_ok. vm_compute. apply NoDup_singleton.
  - exact Hr.
  - vm_compute in Hr. injection Hr as <-. reflexivity.
Defined.

(** ** The worker *)

Definition taken : OutboxTable :=
  outbox_run one_row [call_claim 0 unlocked "w1" 30 8; call_quarantine 0 1 "w1" RESERVED 30 (Some 1%Z)].
Definition taken_row : OutboxRow := default (new_row 0 "" "" "" "" [] 0) (row_at 1 taken).
Definition the_record : OutboxRecord := record_of_row taken_row.
Definition start_at (t : OutboxTable) : WorkerState unit := mkWorker t 0 tt.

(** a handler that takes [d] seconds and ends with [o] *)
Definition slow (d : Q) (o : outcome unit) (rec : OutboxRecord) (s : WorkerState unit) : HandlerRun * WorkerState unit :=
  ({| run_result := o; worker_cancelled := false |}, mkWorker (table s) (time_ s + d) tt).

Definition a_worker (n : Z) (gate : option (OutboxRecord -> M (WorkerState unit) bool)) : OutboxWorker unit := {|
  wk_handlers := {["nats-jetstream" := slow 1 (Ret tt)]}; wk_poll_seconds := 1; wk_lease_seconds := 30;
  wk_handler_timeout_seconds := 10; wk_max_attempts := n; wk_effect_gate := gate; wk_id := "w1" |}.

Lemma taken_ok : table_ok taken.
Proof. unfold table_ok. vm_compute. apply NoDup_singleton. Qed.
Lemma taken_at : row_at (record_id the_record) taken = Some taken_row.
Proof. vm_compute. reflexivity. Qed.
Lemma taken_quarantined : in_quarantine taken_row.
Proof. unfold in_quarantine. split_and!; [|reflexivity|reflexivity]. exists 0%Q. reflexivity. Qed.

Lemma timeout_is_sticky_witness :
  let h := slow 60 (Ret tt) in
  supervise (a_worker 8 None) the_record h (start_at taken) = (Ret true, mkWorker taken (0 + 60) tt) /\
  exists r', row_at 1 (outbox_run taken [call_claim 100 unlocked "w2" 30 8]) = Some r' /\ held taken_row r'.
Proof.
  destruct (timeout_is_sticky (a_worker 8 None) the_record (slow 60 (Ret tt)) (start_at taken)
    {| run_result := Ret tt; worker_cancelled := false |} (mkWorker taken (0 + 60) tt) [] taken_row
    [call_claim 100 unlocked "w2" 30 8]) as [H1 [H2 _]].
  - exact taken_ok.
  - exact taken_at.
  - exact taken_quarantined.
  - reflexivity.
  - reflexivity.
  - reflexivity.
  - intros e He. discriminate He.
  - reflexivity.
  - reflexivity.
  - split; [exact H1|exact H2].
Defined.

Lemma effect_gate_fails_closed_witness :
  let hs := {["nats-jetstream" := slow 99 (Exc (Exn RuntimeError "x"))]} in
  run_once (with_handlers (a_worker 8 None) hs) unlocked (start_at one_row) =
  run_once (a_worker 8 None) unlocked (start_at one_row).
Proof.
  apply (effect_gate_fails_closed (a_worker 8 None)).
  - intros dest. cbn [a_worker wk_handlers]. destruct (decide (dest = "nats-jetstream"%string)) as [->|Hne].
    + rewrite !lookup_singleton_eq. split; intros _; eexists; reflexivity.
    + rewrite !lookup_singleton_ne by congruence. tauto.
  - intros gate rec s1 Hg. discriminate Hg.
Defined.

Lemma last_retry_raises_witness :
  let h := slow 1 (Exc (Exn KnownSafeRetryError "busy")) in
  exists e, supervise (a_worker 1 None) the_record h (start_at taken) = (Exc e, mkWorker taken (0 + 1) tt) /\
    exn_cls e ∈ [ReconciliationError; ValueError].
Proof.
  apply (last_retry_raises (a_worker 1 None) the_record (slow 1 (Exc (Exn KnownSafeRetryError "busy")))
    (start_at taken) {| run_result := Exc (Exn KnownSafeRetryError "busy"); worker_cancelled := false |}
    (mkWorker taken (0 + 1) tt) taken_row "busy").
  - reflexivity.
  - reflexivity.
  - reflexivity.
  - vm_compute. discriminate.
  - exact taken_at.
  - exact taken_quarantined.
  - vm_compute. discriminate.
Defined.

(** ** The inbox *)

Definition an_event (tenant id key : string) : EventEnvelope := {|
  ev_event_id := id; ev_event_type := "codestra.lead.created"; ev_event_version := "1.0";
  ev_occurred_at := "2026-01-01T00:00:00Z"; ev_received_at := "2026-01-01T00:00:01Z"; ev_source := "crm";
  ev_tenant_id := tenant; ev_customer_id := None; ev_correlation_id := "c"; ev_causation_id := "c";
  ev_idempotency_key := key; ev_payload := [("n", JInt 1)]; ev_metadata := [] |}.
Definition ingress (e : EventEnvelope) : Ingress := {|
  in_envelope := e; in_producer_client_id := "producer";
  in_semantic_sha256 := canonical_payload_sha256 (event_dump e); in_deduplication_sha256 := None |}.
Definition first_event : Ingress := ingress (an_event "acme" "e1" "key-0001").
Definition other_event : Ingress := ingress (an_event "zenith" "e9" "key-0009").

Lemma first_accepted : accept first_event empty_inbox =
  (Ret (accepted_result (in_envelope first_event)), append_event_record first_event empty_inbox).
Proof. unfold accept. rewrite bool_decide_eq_true_2 by reflexivity. reflexivity. Qed.

Lemma inbox_accept_once_witness :
  let s2 := snd (inbox_run [other_event] (append_event_record first_event empty_inbox)) in
  accept first_event s2 = (Ret (as_duplicate (accepted_result (in_envelope first_event))), s2).
Proof.
  apply (inbox_accept_once [other_event] first_event empty_inbox (accepted_result (in_envelope first_event))
           (append_event_record first_event empty_inbox) first_accepted).
  reflexivity.
Defined.

(** the same two tenants' events, ingested in either order *)
Definition ledger_ab : list EventLedgerRecord := ledger_records (snd (inbox_run [first_event; other_event] empty_inbox)).
Definition ledger_ba : list EventLedgerRecord := ledger_records (snd (inbox_run [other_event; first_event] empty_inbox)).
Definition verified (l : list EventLedgerRecord) : gmap string Z :=
  match verify_event_ledger_records l with Ret m => m | Exc _ => ∅ end.
Definition is_ret {A} (o : outcome A) : bool := match o with Ret _ => true | Exc _ => false end.

Lemma verified_spec l : is_ret (verify_event_ledger_records l) = true -> verify_event_ledger_records l = Ret (verified l).
Proof. unfold verified. by destruct (verify_event_ledger_records l). Qed.

Definition chain_of (l : list EventLedgerRecord) := of_tenant "acme" (merge_sort record_le l).

(** pairwise, a text of one and a text of the other are equal or have different hashes *)
Definition collision_free (l1 l2 : list EventLedgerRecord) : bool :=
  forallb (fun x => forallb (fun y => String.eqb x y || negb (String.eqb (sha256_hex x) (sha256_hex y)))
    (hashed_texts l2)) (hashed_texts l1).
Lemma collision_free_spec l1 l2 : collision_free l1 l2 = true -> no_collision l1 l2.
Proof.
  unfold collision_free, no_collision. rewrite forallb_forall. intros H x y Hx Hy Hxy. specialize (H x Hx).
  rewrite forallb_forall in H. specialize (H y Hy). rewrite Hxy, String.eqb_refl in H. cbn [negb] in H.
  rewrite orb_false_r in H. by apply String.eqb_eq.
Qed.

Lemma ledger_tamper_evident_witness : Forall2 same_entry (chain_of ledger_ab) (chain_of ledger_ba).
Proof.
  apply (ledger_tamper_evident ledger_ab ledger_ba (verified ledger_ab) (verified ledger_ba) "acme").
  - apply verified_spec. vm_compute. reflexivity.
  - apply verified_spec. vm_compute. reflexivity.
  - vm_compute. reflexivity.
  - vm_compute. reflexivity.
  - apply collision_free_spec. vm_compute. reflexivity.
Defined.
