(* ===== verification/PgInboxProps.v ===== *)
(** * Properties of the durable inbox *)

From stdpp Require Import sorting pretty.
From Stdlib Require Import QArith.
From S2P Require Import Prelude Json Sha256 Commands Registry Outbox Inbox InboxFacts InboxProps PgLedger.
From S2P Require Import PyValue PgInbox PgInboxFacts.
Local Open Scope Z_scope.

#[local] Opaque event_ledger_hash canonical_payload_sha256.

(** ** The two inboxes *)

(** the answer kept with an accepted row *)
Definition row_accepted (r : InboxRow) : IngressResult := {|
  ing_event_id := ib_event_id r; ing_tenant_id := ib_tenant_id r; ing_status := ing_accepted;
  ing_is_duplicate := false; ing_correlation_id := ib_correlation_id r |}.
Definition row_item (r : InboxRow) : string * IngressResult := (ib_semantic_sha256 r, row_accepted r).

(** the in-memory store holds the same events, chain and answers *)
Record same_inbox (s : MemoryInboxStore) (d : InboxDB) : Prop := {
  si_mem : inbox_ok s;
  si_db : pg_inbox_ok d;
  si_records : ledger_records s = records d;
  si_events : forall t e, event_items s !! (t, e) = row_item <$> List.find (is_event t e) (ib_rows d);
  si_keys : forall t k, idempotency_items s !! (t, k) = row_item <$> List.find (is_key t k) (ib_rows d);
  si_outbox : forall o, o ∈ ib_outbox d ->
    exists r, r ∈ ib_rows d /\ ib_tenant_id r = row_tenant_id o /\ ib_idempotency_key r = row_idempotency_key o;
}.

Lemma same_inbox_empty : same_inbox empty_inbox empty_inbox_db.
Proof.
  split; [done|apply empty_inbox_db_ok|done|..]; intros *; simpl; rewrite ?lookup_empty; try done.
  by intros ?%elem_of_nil.
Qed.

Lemma find_event d t e r : List.find (is_event t e) (ib_rows d) = Some r ->
  r ∈ ib_rows d /\ ib_tenant_id r = t /\ ib_event_id r = e.
Proof.
  intros Hf. apply find_some in Hf as [Hin Hp]. unfold is_event in Hp. apply andb_prop in Hp as [H1 H2].
  apply String.eqb_eq in H1, H2. by rewrite list_elem_of_In.
Qed.
Lemma find_key d t k r : List.find (is_key t k) (ib_rows d) = Some r ->
  r ∈ ib_rows d /\ ib_tenant_id r = t /\ ib_idempotency_key r = k.
Proof.
  intros Hf. apply find_some in Hf as [Hin Hp]. unfold is_key in Hp. apply andb_prop in Hp as [H1 H2].
  apply String.eqb_eq in H1, H2. by rewrite list_elem_of_In.
Qed.
Lemma find_event_None d t e r : List.find (is_event t e) (ib_rows d) = None ->
  r ∈ ib_rows d -> ib_tenant_id r = t -> ib_event_id r <> e.
Proof.
  intros Hf Hr <- <-. apply list_elem_of_In in Hr. pose proof (find_none _ _ Hf r Hr) as Hn.
  unfold is_event in Hn. by rewrite !String.eqb_refl in Hn.
Qed.
Lemma find_key_None d t k r : List.find (is_key t k) (ib_rows d) = None ->
  r ∈ ib_rows d -> ib_tenant_id r = t -> ib_idempotency_key r <> k.
Proof.
  intros Hf Hr <- <-. apply list_elem_of_In in Hr. pose proof (find_none _ _ Hf r Hr) as Hn.
  unfold is_key in Hn. by rewrite !String.eqb_refl in Hn.
Qed.

Lemma NoDup_only {A} (l : list A) r : NoDup l -> (forall x, x ∈ l <-> x = r) -> l = [r].
Proof.
  intros Hnd Hl. destruct l as [|a [|b l]].
  - exfalso. assert (r ∈ @nil A) as Hr by by apply Hl. by apply elem_of_nil in Hr.
  - f_equal. apply Hl. left.
  - exfalso. apply NoDup_cons in Hnd as [Hn _]. apply Hn.
    assert (a = r) as -> by (apply Hl; left). assert (b = r) as -> by (apply Hl; right; left). left.
Qed.

(** the rows of a call, from the two indexes *)
Lemma existing_by_index e d :
  pg_inbox_ok d ->
  match List.find (is_event (ev_tenant_id e) (ev_event_id e)) (ib_rows d),
        List.find (is_key (ev_tenant_id e) (ev_idempotency_key e)) (ib_rows d) with
  | None, None => existing_events e d = []
  | Some r, None | None, Some r => existing_events e d = [r]
  | Some r, Some r' => if bool_decide (ib_event_id r = ib_event_id r') then existing_events e d = [r] /\ r' = r
                       else exists a b l, existing_events e d = a :: b :: l
  end.
Proof.
  intros Hok. destruct (List.find (is_event _ _) _) as [r|] eqn:He, (List.find (is_key _ _) _) as [r'|] eqn:Hk.
  - apply find_event in He as (Hr & Ht & Hev). apply find_key in Hk as (Hr' & Ht' & Hky). case_bool_decide as Heq.
    + assert (r' = r) as -> by (apply (row_by_event d); congruence). split; [|done].
      apply NoDup_only; [by apply NoDup_existing|]. intros x. rewrite elem_of_existing_events. split.
      * intros (Hx & Htx & [Hxe|Hxk]); [apply (row_by_event d)|apply (row_by_key d)]; congruence.
      * intros ->. by split_and!; [| |left].
    + assert (r ∈ existing_events e d) as H1 by (apply elem_of_existing_events; split_and!; auto).
      assert (r' ∈ existing_events e d) as H2 by (apply elem_of_existing_events; split_and!; auto).
      destruct (existing_events e d) as [|a [|b l]]; [by apply elem_of_nil in H1| |by eauto].
      apply list_elem_of_singleton in H1, H2. congruence.
  - apply find_event in He as (Hr & Ht & Hev). apply NoDup_only; [by apply NoDup_existing|]. intros x.
    rewrite elem_of_existing_events. split.
    + intros (Hx & Htx & [Hxe|Hxk]); [apply (row_by_event d); congruence|]. by eapply find_key_None in Hk.
    + intros ->. by split_and!; [| |left].
  - apply find_key in Hk as (Hr & Ht & Hev). apply NoDup_only; [by apply NoDup_existing|]. intros x.
    rewrite elem_of_existing_events. split.
    + intros (Hx & Htx & [Hxe|Hxk]); [|apply (row_by_key d); congruence]. by eapply find_event_None in He.
    + intros ->. by split_and!; [| |right].
  - destruct (existing_events e d) as [|x l] eqn:Hx; [done|]. exfalso.
    assert (x ∈ existing_events e d) as Hin by (rewrite Hx; left).
    apply elem_of_existing_events in Hin as (Hin & Ht & [Hxe|Hxk]);
      [by eapply find_event_None in He|by eapply find_key_None in Hk].
Qed.

Lemma find_snoc {A} (p : A -> bool) l x :
  List.find p (l ++ [x]) = match List.find p l with Some y => Some y | None => if p x then Some x else None end.
Proof. induction l as [|y l IH]; simpl; [done|]. by destruct (p y). Qed.

Lemma find_event_snoc d t e c :
  List.find (is_event t e) (ib_rows d ++ [inbox_row c]) =
    match List.find (is_event t e) (ib_rows d) with
    | Some y => Some y
    | None => if bool_decide ((ev_tenant_id (di_envelope c), ev_event_id (di_envelope c)) = (t, e))
              then Some (inbox_row c) else None
    end.
Proof.
  rewrite find_snoc. destruct (List.find _ _); [done|]. unfold is_event. simpl.
  destruct (String.eqb_spec (ev_tenant_id (di_envelope c)) t), (String.eqb_spec (ev_event_id (di_envelope c)) e);
    simpl; case_bool_decide; congruence.
Qed.
Lemma find_key_snoc d t k c :
  List.find (is_key t k) (ib_rows d ++ [inbox_row c]) =
    match List.find (is_key t k) (ib_rows d) with
    | Some y => Some y
    | None => if bool_decide ((ev_tenant_id (di_envelope c), ev_idempotency_key (di_envelope c)) = (t, k))
              then Some (inbox_row c) else None
    end.
Proof.
  rewrite find_snoc. destruct (List.find _ _); [done|]. unfold is_key. simpl.
  destruct (String.eqb_spec (ev_tenant_id (di_envelope c)) t), (String.eqb_spec (ev_idempotency_key (di_envelope c)) k);
    simpl; case_bool_decide; congruence.
Qed.

(** both stores make the same chain entry *)
Lemma next_record_same c s d :
  same_inbox s d -> next_record (di_ingress c) s = next_entry c d.
Proof.
  intros R. destruct (si_mem _ _ R (ev_tenant_id (di_envelope c))) as (Hc & Hn & Hh).
  rewrite (si_records _ _ R) in *. set (l := of_tenant (ev_tenant_id (di_envelope c)) (records d)) in *.
  unfold next_record, next_entry. fold (di_envelope c). unfold count_of in Hn. rewrite Hn, Hh.
  rewrite (newest_entry_last _ _ _ _ (pi_chains _ (si_db _ _ R) _)). fold (records d). fold l.
  destruct l as [|x k _] using rev_ind; [done|]. rewrite last_snoc, chain_head_app, length_app.
  apply chained_app in Hc as [_ (Hq & _)]. simpl. rewrite Hq.
  replace (Z.of_nat (length k + 1)) with (1 + Z.of_nat (length k)) by lia. done.
Qed.

Lemma taken_in_same c s d :
  same_inbox s d -> in_deduplication_sha256 (di_ingress c) = None ->
  canonical_payload_sha256 (event_dump (di_envelope c)) = in_semantic_sha256 (di_ingress c) ->
  existing_events (di_envelope c) d = [] ->
  List.find (is_event (ev_tenant_id (di_envelope c)) (ev_event_id (di_envelope c))) (ib_rows d) = None ->
  List.find (is_key (ev_tenant_id (di_envelope c)) (ev_idempotency_key (di_envelope c))) (ib_rows d) = None ->
  same_inbox (append_event_record (di_ingress c) s) (taken_in c d).
Proof.
  intros R Hd Hsem Hex He Hk. pose proof (next_record_same c s d R) as Hnext.
  assert (event_key (di_ingress c) = (ev_tenant_id (di_envelope c), ev_event_id (di_envelope c))) as Hek.
  { unfold event_key. by rewrite Hd. }
  assert (comparison_sha256 (di_ingress c) = in_semantic_sha256 (di_ingress c)) as Hcmp.
  { unfold comparison_sha256. by rewrite Hd. }
  split.
  - by apply append_ok; [apply R|].
  - apply taken_in_ok; [apply R|done|done].
  - cbn [append_event_record ledger_records]. unfold records. cbn [taken_in ib_ledger]. rewrite map_app.
    cbn [map lr_record]. by rewrite Hnext, (si_records _ _ R).
  - intros t e. cbn [append_event_record event_items taken_in ib_rows]. rewrite find_event_snoc, Hek.
    destruct (decide ((ev_tenant_id (di_envelope c), ev_event_id (di_envelope c)) = (t, e))) as [Heq|Hne].
    + injection Heq as <- <-. rewrite He, lookup_insert_eq, bool_decide_eq_true_2, Hcmp by done. done.
    + rewrite lookup_insert_ne, bool_decide_eq_false_2 by done. rewrite (si_events _ _ R).
      by destruct (List.find (is_event t e) _).
  - intros t k. cbn [append_event_record idempotency_items taken_in ib_rows]. rewrite find_key_snoc.
    unfold idempotency_key_of. fold (di_envelope c).
    destruct (decide ((ev_tenant_id (di_envelope c), ev_idempotency_key (di_envelope c)) = (t, k))) as [Heq|Hne].
    + injection Heq as <- <-. rewrite Hk, lookup_insert_eq, bool_decide_eq_true_2, Hcmp by done. done.
    + rewrite lookup_insert_ne, bool_decide_eq_false_2 by done. rewrite (si_keys _ _ R).
      by destruct (List.find (is_key t k) _).
  - cbn [taken_in ib_rows ib_outbox]. intros o [Ho|Ho%list_elem_of_singleton]%elem_of_app.
    + destruct (si_outbox _ _ R o Ho) as (r & Hr & ? & ?). exists r. split_and!; [apply elem_of_app; by left|done|done].
    + subst o. exists (inbox_row c). split_and!; [apply elem_of_app; right; left|done|done].
Qed.

(** without a conflicting row the publication intent is always free *)
Lemma intent_free c s d :
  same_inbox s d -> existing_events (di_envelope c) d = [] -> slot_taken c d = false.
Proof.
  intros R He. apply not_true_iff_false. rewrite existsb_exists. intros (o & Ho & Hs).
  unfold outbox_slot in Hs. apply andb_prop in Hs as [[Ht _]%andb_prop Hk]. apply String.eqb_eq in Ht, Hk.
  apply list_elem_of_In in Ho. destruct (si_outbox _ _ R o Ho) as (r & Hr & Hrt & Hrk).
  assert (r ∈ existing_events (di_envelope c) d) as Hin.
  { apply elem_of_existing_events. split_and!; [done|congruence|right; congruence]. }
  rewrite He in Hin. by apply elem_of_nil in Hin.
Qed.

Lemma accept_same c s d :
  same_inbox s d -> in_deduplication_sha256 (di_ingress c) = None ->
  fst (accept (di_ingress c) s) = fst (pg_accept c d) /\
  same_inbox (snd (accept (di_ingress c) s)) (snd (pg_accept c d)).
Proof.
  intros R Hd. rewrite pg_accept_run by apply R. unfold accept. fold (di_envelope c).
  case_bool_decide as Hsem; cbn [negb]; [|done].
  unfold replayed, event_key, idempotency_key_of. rewrite Hd. fold (di_envelope c).
  assert (comparison_sha256 (di_ingress c) = in_semantic_sha256 (di_ingress c)) as Hcmp.
  { unfold comparison_sha256. by rewrite Hd. }
  rewrite (si_events _ _ R), (si_keys _ _ R), Hcmp. unfold taking_in, stored_comparison. rewrite Hd, Hcmp.
  pose proof (existing_by_index (di_envelope c) d (si_db _ _ R)) as Hex.
  destruct (List.find (is_event _ _) _) as [r|] eqn:He, (List.find (is_key _ _) _) as [r'|] eqn:Hk;
    cbn [fmap option_fmap option_map row_item fst snd row_accepted ing_event_id].
  - case_bool_decide as Hids.
    + destruct Hex as [-> ->]. cbn [negb]. by case_bool_decide.
    + destruct Hex as (a & b & l & ->). done.
  - rewrite Hex. by case_bool_decide.
  - rewrite Hex. by case_bool_decide.
  - rewrite Hex, (intent_free c s d) by done. split; [done|]. by apply taken_in_same.
Qed.

Lemma inbox_runs_same cs s d :
  same_inbox s d -> Forall (fun c => in_deduplication_sha256 (di_ingress c) = None) cs ->
  fst (inbox_run (map di_ingress cs) s) = fst (pg_inbox_run cs d) /\
  same_inbox (snd (inbox_run (map di_ingress cs) s)) (snd (pg_inbox_run cs d)).
Proof.
  intros R Hcs. revert s d R. induction Hcs as [|c cs Hc _ IH]; intros s d R; [done|].
  cbn [map inbox_run pg_inbox_run]. destruct (accept_same c s d R Hc) as [Ha R'].
  destruct (accept (di_ingress c) s) as [a s'], (pg_accept c d) as [b d']. cbn [fst snd] in *.
  destruct (IH s' d' R') as [Hr R2]. destruct (inbox_run _ s') as [rs s2], (pg_inbox_run cs d') as [rs' d2].
  cbn [fst snd] in *. split; [congruence|done].
Qed.

(** ** Values read back *)

Fixpoint unique_fields (j : json) : Prop :=
  match j with
  | JArr l => (fix go (l : list json) : Prop := match l with [] => True | x :: l => unique_fields x /\ go l end) l
  | JObj d => NoDup (map fst d) /\
      (fix go (d : jdict) : Prop := match d with [] => True | kv :: d => unique_fields (snd kv) /\ go d end) d
  | _ => True
  end.

Lemma dict_get_NoDup {V} (k : string) (v : V) d : NoDup (map fst d) -> (k, v) ∈ d -> dict_get k d = Some v.
Proof.
  induction d as [|[k' v'] d IH]; simpl; [by intros _ ?%elem_of_nil|]. intros [Hn Hd]%NoDup_cons Hin.
  apply elem_of_cons in Hin as [[= <- <-]|Hin]; [by rewrite decide_True|].
  rewrite decide_False; [by apply IH|]. intros ->. apply Hn. by apply (list_elem_of_fmap_2 fst) in Hin.
Qed.

Lemma py_eqb_refl j : unique_fields j -> py_eqb j j = true.
Proof.
  induction j as [| | z|r|s|l IH|d IH] using json_rec'; simpl; try done.
  - intros _. destruct b; apply Z.eqb_refl.
  - intros _. apply Z.eqb_refl.
  - intros _. apply String.eqb_refl.
  - intros _. apply String.eqb_refl.
  - induction IH as [|x l Hx _ IHl]; [done|]. intros [H1 H2]. by rewrite Hx, IHl.
  - intros [Hnd Hall]. rewrite Nat.eqb_refl. cbn [andb].
    assert (forall d', (forall kv, kv ∈ d' -> kv ∈ d) -> Forall (fun kv => unique_fields (snd kv) -> py_eqb (snd kv) (snd kv) = true) d' ->
      (fix go (d : jdict) : Prop := match d with [] => True | kv :: d => unique_fields (snd kv) /\ go d end) d' ->
      (fix go (d0 : jdict) : bool := match d0 with
         | [] => true
         | kv :: d0 => match dict_get (fst kv) d with Some w => py_eqb (snd kv) w | None => false end && go d0
         end) d' = true) as Hgo.
    { clear IH Hall. induction d' as [|[k v] d' IHd]; [done|]. intros Hin [Hv Hd']%Forall_cons [Hu Hall].
      simpl in *. rewrite (dict_get_NoDup k v d) by (done || apply Hin; left). rewrite Hv by done. simpl.
      apply IHd; [intros kv Hkv; apply Hin; by right|done|done]. }
    by apply Hgo.
Qed.

(** ** Claims *)

(** The durable chain always verifies: after any history of calls, whatever
    they answered and whichever source deduplicated, [verify_event_ledger] accepts
    the stored entries, reports tenant by tenant the number of events answered
    [accepted], and reports for one tenant the same number; every accepted event
    has its inbox row and its entry *)
Theorem pg_inbox_chain_verifies cs t :
  let (rs, d) := pg_inbox_run cs empty_inbox_db in
  (exists m, verify_event_ledger None d = Ret m /\ forall t, count_of m t = Z.of_nat (length (accepted_for t rs))) /\
  (exists m, verify_event_ledger (Some t) d = Ret m /\ count_of m t = Z.of_nat (length (accepted_for t rs))) /\
  map row_ids (ib_rows d) = map entry_ids (ib_ledger d).
Proof.
  destruct (pg_inbox_run_ok cs empty_inbox_db empty_inbox_db_ok) as [Hok Hn].
  destruct (pg_inbox_run cs empty_inbox_db) as [rs d]. cbn [fst snd] in *. split_and!.
  - destruct (verify_event_ledger_ok None d Hok) as (m & Hm & Hc). exists m. split; [done|].
    intros t'. by rewrite Hc, Hn.
  - destruct (verify_event_ledger_ok (Some t) d Hok) as (m & Hm & Hc). exists m. split; [done|].
    rewrite Hc, bool_decide_eq_true_2 by done. by rewrite Hn.
  - apply Hok.
Qed.

(** C36: the in-memory inbox and the durable one give the same answers, errors and
    their words included, to every history of calls without a source
    deduplication hash, and keep the same chain *)
Theorem inboxes_agree cs :
  Forall (fun c => in_deduplication_sha256 (di_ingress c) = None) cs ->
  fst (inbox_run (map di_ingress cs) empty_inbox) = fst (pg_inbox_run cs empty_inbox_db) /\
  ledger_records (snd (inbox_run (map di_ingress cs) empty_inbox)) = records (snd (pg_inbox_run cs empty_inbox_db)).
Proof.
  intros Hcs. destruct (inbox_runs_same cs _ _ same_inbox_empty Hcs) as [Ha R]. split; [done|apply R].
Qed.

(** Replaying a source event repairs its projection: the accepted event is
    answered as a duplicate and nothing is written while its publication intent
    stands; when the intent was lost, exactly one is written, from the stored row
    and not from the retry; when it was altered, the call raises
    [EventLedgerIntegrityError] and nothing is written *)
Theorem pg_replay_repairs c d r h :
  pg_inbox_ok d ->
  canonical_payload_sha256 (event_dump (di_envelope c)) = in_semantic_sha256 (di_ingress c) ->
  in_deduplication_sha256 (di_ingress c) = Some h -> h <> "" ->
  source_existing (in_producer_client_id (di_ingress c)) (ev_event_id (di_envelope c)) d = Some r ->
  ib_body_sha256 r = h ->
  match List.find (outbox_slot (ib_tenant_id r) (di_destination c) (ib_idempotency_key r)) (ib_outbox d) with
  | None => exists p, pg_accept c d = (Ret (row_duplicate r), mkInboxDB (ib_rows d) (ib_ledger d) (ib_outbox d ++ [p])) /\
      outbox_slot (ib_tenant_id r) (di_destination c) (ib_idempotency_key r) p = true /\
      row_event_type p = ib_event_type r /\ row_payload p = ib_payload r
  | Some p =>
      (row_event_type p = ib_event_type r -> row_payload p = ib_payload r -> unique_fields (JObj (ib_payload r)) ->
       pg_accept c d = (Ret (row_duplicate r), d)) /\
      (row_event_type p <> ib_event_type r \/ py_eqb (JObj (row_payload p)) (JObj (ib_payload r)) = false ->
       pg_accept c d =
         (Exc (Exn EventLedgerIntegrityError "durable projection does not match its accepted inbox event"), d))
  end.
Proof.
  intros Hok Hsem Hd Hh Hr Hb. rewrite pg_accept_run by done. rewrite bool_decide_eq_true_2 by done. cbn [negb].
  unfold replayed. rewrite Hd, Hr. unfold transaction, replay_source, comparison_sha256. rewrite Hd.
  assert (truthy_str (Some h) = Some h) as -> by by destruct h. cbn [default from_option id].
  rewrite bool_decide_eq_true_2 by done. cbn [negb]. unfold bind, gets. cbn [id].
  destruct (List.find _ (ib_outbox d)) as [p|] eqn:Hf.
  - split.
    + intros -> -> Hu. rewrite bool_decide_eq_true_2, py_eqb_refl by done. done.
    + intros [Hne| ->]; [rewrite bool_decide_eq_false_2 by done; done|]. by rewrite orb_true_r.
  - unfold insert_intent.
    assert (existsb (outbox_slot (ib_tenant_id r) (di_destination c) (ib_idempotency_key r)) (ib_outbox d) = false) as ->.
    { apply not_true_iff_false. rewrite existsb_exists. intros (o & Ho & Hs). by rewrite (find_none _ _ Hf o Ho) in Hs. }
    eexists. split; [reflexivity|]. split_and!; [|done|done]. unfold outbox_slot. simpl.
    by rewrite !String.eqb_refl.
Qed.
