(* ===== verification/AutomationProps.v ===== *)
(** * Properties of the automation policy *)

From Stdlib Require Import Ascii.
From S2P Require Import Prelude Json PyValue Commands Principal Registry AutomationPolicy.

(** ** Checks that pass *)

Lemma require_Ret b msg : require b msg = Ret tt <-> b = true.
Proof. unfold require. by destruct b. Qed.

Lemma obind_unit {B} (o : outcome unit) (k : outcome B) b : (o ??; k) = Ret b <-> o = Ret tt /\ k = Ret b.
Proof. rewrite obind_Ret. split; [by intros ([] & ?)|]. intros []. by exists tt. Qed.

(** take a chain of checks that passed apart *)
Ltac passed :=
  repeat match goal with
  | H : (_ ??; _) = Ret _ |- _ => apply obind_unit in H as [? H]
  | H : obind _ _ = Ret _ |- _ => apply obind_Ret in H as (? & ? & H)
  | H : require _ _ = Ret _ |- _ => apply require_Ret in H
  | H : _ && _ = true |- _ => apply andb_prop in H as [? H]
  | H : for_each _ _ = Ret tt |- _ => rewrite for_each_Ret in H
  end.

(** ** What a loaded policy promises *)

Lemma strings_ok v label allow l :
  strings v label allow = Ret l -> NoDup l /\ (forall s, s ∈ l -> s <> "" /\ strip s = s) /\ (allow = false -> l <> []).
Proof.
  unfold strings. destruct (json_list v) as [js|]; [|done]. intros H. passed. injection H as <-.
  match goal with H : forallb _ js = true |- _ => rename H into Hall end. rewrite forallb_forall in Hall.
  split_and!.
  - by apply bool_decide_eq_true in H1.
  - intros s Hs. apply list_elem_of_In in Hs. unfold json_strings in Hs. apply list_elem_of_In, list_elem_of_omap in Hs as (j & Hj & Hs).
    apply list_elem_of_In, Hall in Hj. destruct j; simplify_eq. apply andb_prop in Hj as [Hn Hs].
    apply String.eqb_eq in Hs. split; [|done]. by intros ->.
  - intros ->. cbn [orb] in H2. by apply negb_true_iff, bool_decide_eq_false in H2.
Qed.

Definition idle_clients : list string := ["n8n-platform-runtime"; "n8n-operations-automation"].
Definition operations_client : string := "n8n-operations-automation".
Definition is_privileged (s : string) : bool := starts_with "automation.operations." s || starts_with "automation.dead-letter." s.

(** the facts a reader of the policy may rely on *)
Record policy_ok (p : AutomationPolicy) : Prop := {
  po_issuer : issuer p = "https://auth.codestra.co/realms/codestra";
  po_audience : policy_audience p = "middleware-api";
  po_prefix : forall f, f ∈ command_families p -> ends_with_dot (family_prefix f) = true /\ has_char "*"%char (family_prefix f) = false;
  po_prefix_free : forall f g, f ∈ command_families p -> g ∈ command_families p ->
    starts_with (family_prefix f) (family_prefix g) = true -> f = g;
  po_count : length (command_families p) = 18;
  po_family : forall f, f ∈ command_families p -> exists c,
    dict_get (family_client_id f) (clients p) = Some c /\ family_scope f ∈ client_scopes c /\
    starts_with "automation.command." (family_scope f) = true /\
    forall w, w ∈ family_workflow_families f -> w ∈ client_workflow_families c;
  po_client : forall cid c, dict_get cid (clients p) = Some c ->
    client_id c = cid /\ NoDup (client_scopes c) /\ (forall s, s ∈ client_scopes c -> is_generic s = false) /\
    (forall x, x ∈ command_prefixes c <-> exists f, f ∈ command_families p /\ family_client_id f = cid /\ family_prefix f = x);
  po_idle : forall cid f, cid ∈ idle_clients -> f ∈ command_families p -> family_client_id f <> cid;
  po_privileged : forall cid c s, dict_get cid (clients p) = Some c -> s ∈ client_scopes c -> is_privileged s = true ->
    cid = operations_client;
  po_sorted : families_ p = sorted_by longer_prefix (command_families p);
}.

Lemma load_client_ok kv c :
  load_client kv = Ret c ->
  client_id c = fst kv /\ NoDup (client_scopes c) /\ (forall s, s ∈ client_scopes c -> is_generic s = false).
Proof.
  unfold load_client. destruct kv as [cid v]. simpl. intros H. passed. destruct v as [| | | | | |value]; [done..|]. passed.
  injection H as <-. simpl. match goal with E : strings (dict_get "scopes" value) _ _ = Ret _ |- _ => apply strings_ok in E as (Hn & _) end.
  split_and!; [done..|]. intros s Hs. match goal with E : negb (existsb is_generic _) = true |- _ => apply negb_true_iff in E; rename E into Hg end.
  apply not_true_iff_false. intros Hs'. apply not_true_iff_false in Hg. apply Hg, existsb_exists. exists s.
  by rewrite <- list_elem_of_In.
Qed.

Lemma load_clients_ok l cs :
  traverse (fun _ kv => let? c := load_client kv in Ret (fst kv, c)) 0 l = Ret cs ->
  forall cid c, In (cid, c) cs ->
  client_id c = cid /\ NoDup (client_scopes c) /\ (forall s, s ∈ client_scopes c -> is_generic s = false).
Proof.
  intros [_ H]%traverse_Ret cid c Hin. apply list_elem_of_In, list_elem_of_lookup in Hin as [k Hk].
  destruct (H k _ Hk) as (kv & _ & (c' & Hc & [= <- <-])%obind_Ret). by apply load_client_ok.
Qed.

Lemma NoDup_map_inj {A B} (f : A -> B) l x y : NoDup (map f l) -> x ∈ l -> y ∈ l -> f x = f y -> x = y.
Proof.
  intros Hn Hx Hy E. apply list_elem_of_lookup in Hx as [i Hi], Hy as [j Hj].
  assert (i = j) as ->; [|congruence]. eapply (NoDup_lookup (map f l)); [done|..]; rewrite list_lookup_fmap.
  - by rewrite Hi.
  - by rewrite Hj, E.
Qed.

Lemma check_prefixes_ok p :
  check_prefixes p = Ret tt ->
  length (command_families p) = 18 /\
  (forall f, f ∈ command_families p -> ends_with_dot (family_prefix f) = true /\ has_char "*"%char (family_prefix f) = false) /\
  (forall f g, f ∈ command_families p -> g ∈ command_families p ->
    starts_with (family_prefix f) (family_prefix g) = true -> f = g).
Proof.
  unfold check_prefixes. intros H. passed. rewrite length_map in H0. apply Nat.eqb_eq in H0. apply bool_decide_eq_true in H1.
  split_and!; [done|..].
  - intros f Hf. specialize (H _ (list_elem_of_fmap_2 _ _ _ Hf)). unfold check_prefix in H. passed.
    split; [done|]. by apply negb_true_iff.
  - intros f g Hf Hg Hp. specialize (H _ (list_elem_of_fmap_2 _ _ _ Hf)). unfold check_prefix in H. passed.
    rewrite forallb_forall in H. specialize (H (family_prefix g) (in_map _ _ _ (proj1 (list_elem_of_In _ _) Hg))).
    rewrite Hp, orb_false_r in H. apply String.eqb_eq in H. by eapply NoDup_map_inj.
Qed.

Lemma check_commands_ok p :
  check_commands p = Ret tt ->
  (forall f, f ∈ command_families p -> check_family p f = Ret tt) /\
  (forall cid c x, dict_get cid (clients p) = Some c ->
     x ∈ command_prefixes c <-> exists f, f ∈ command_families p /\ family_client_id f = cid /\ family_prefix f = x).
Proof.
  unfold check_commands. intros H. passed. split; [done|]. intros cid c x Hc. apply dict_get_Some_In, list_elem_of_In in Hc.
  match goal with E : forall kv, kv ∈ clients p -> _ |- _ => specialize (E _ Hc); simpl in E; passed; rename E into Hs end.
  rewrite same_names_spec in Hs. rewrite Hs. unfold observed_prefixes. rewrite list_elem_of_In, in_map_iff.
  setoid_rewrite filter_In. setoid_rewrite <- list_elem_of_In. split.
  - intros (f & <- & Hf & He). apply String.eqb_eq in He. eauto.
  - intros (f & Hf & He & <-). exists f. rewrite He, String.eqb_refl. done.
Qed.

Lemma check_family_ok p f :
  check_family p f = Ret tt -> exists c,
    dict_get (family_client_id f) (clients p) = Some c /\ family_scope f ∈ client_scopes c /\
    starts_with "automation.command." (family_scope f) = true /\
    forall w, w ∈ family_workflow_families f -> w ∈ client_workflow_families c.
Proof.
  unfold check_family. destruct (dict_get _ _) as [c|]; [|done]. intros H. passed. exists c.
  repeat match goal with H : _ && _ = true |- _ => apply andb_prop in H as [? H] end.
  split_and!; [done|by apply mem_string_spec|done|].
  intros w Hw. unfold subset_names in H. rewrite forallb_forall in H. apply mem_string_spec, H. by apply list_elem_of_In.
Qed.

Lemma privileged_nil c : privileged c = [] <-> forall s, s ∈ client_scopes c -> is_privileged s = false.
Proof.
  unfold privileged, is_privileged. split.
  - intros H s Hs. apply not_true_iff_false. intros Hp.
    assert (s ∈ List.filter (fun s => starts_with "automation.operations." s || starts_with "automation.dead-letter." s) (client_scopes c)) as Hin.
    { apply list_elem_of_In, filter_In. by rewrite <- list_elem_of_In. }
    rewrite H in Hin. by apply elem_of_nil in Hin.
  - intros H. destruct (List.filter _ _) as [|s l] eqn:E; [done|].
    assert (In s (List.filter (fun s => starts_with "automation.operations." s || starts_with "automation.dead-letter." s) (client_scopes c))) as Hin
      by (rewrite E; by left).
    apply filter_In in Hin as [Hin Hp]. apply list_elem_of_In, H in Hin. congruence.
Qed.

Lemma check_isolation_ok p :
  check_isolation p = Ret tt ->
  (forall cid, cid ∈ idle_clients -> exists c, dict_get cid (clients p) = Some c /\ command_prefixes c = []) /\
  (forall cid c s, dict_get cid (clients p) = Some c -> s ∈ client_scopes c -> is_privileged s = true -> cid = operations_client).
Proof.
  unfold check_isolation. intros H. passed. split.
  - intros cid Hcid. specialize (H0 cid Hcid). destruct (dict_get cid (clients p)) as [c|]; [|done]. passed.
    exists c. by apply bool_decide_eq_true in H0.
  - intros cid c s Hc Hs Hp. apply dict_get_Some_In, list_elem_of_In in Hc. specialize (H _ Hc). simpl in H. passed.
    apply eqb_prop in H. rewrite bool_decide_eq_false_2 in H; [by symmetry in H; apply String.eqb_eq in H|].
    intros He. rewrite privileged_nil in He. specialize (He s Hs). congruence.
Qed.

Lemma from_mapping_inv raw p :
  from_mapping raw = Ret p ->
  assert_contract_invariants p = Ret tt /\ families_ p = sorted_by longer_prefix (command_families p) /\
  forall cid c, In (cid, c) (clients p) -> client_id c = cid /\ NoDup (client_scopes c) /\ (forall s, s ∈ client_scopes c -> is_generic s = false).
Proof.
  unfold from_mapping. destruct raw as [| | | | | |source]; try done.
  destruct (dict_get "clients" source) as [[| | | | | |clients_raw]|]; try done. intros (cs & Hcs & H)%obind_Ret.
  destruct (json_list (dict_get "operations" source)); [|done]. apply obind_Ret in H as (ops & _ & H).
  destruct (json_list (dict_get "command_families" source)); [|done]. apply obind_Ret in H as (fams & _ & H).
  apply obind_Ret in H as (q & Hq & H). apply obind_unit in H as [Ha [= <-]]. split; [done|].
  unfold make_policy in Hq. passed. injection Hq as <-. simpl. split; [done|]. exact (load_clients_ok _ _ Hcs).
Qed.

Lemma from_mapping_ok raw p : from_mapping raw = Ret p -> policy_ok p.
Proof.
  intros (H & Hsort & Hcs)%from_mapping_inv. unfold assert_contract_invariants in H.
  apply obind_unit in H as [Hd H]. apply obind_unit in H as [_ H]. apply obind_unit in H as [(Hcount & Hend & Hfree)%check_prefixes_ok H].
  apply obind_unit in H as [[Hfam Hpre]%check_commands_ok H]. apply obind_unit in H as [[Hidle Hpriv]%check_isolation_ok _].
  unfold check_document in Hd. passed. rewrite String.eqb_eq in *. split; try done.
  - intros f Hf. by apply check_family_ok, Hfam.
  - intros cid c Hc. destruct (Hcs _ _ (dict_get_Some_In _ _ _ Hc)) as (? & ? & ?). split_and!; [done..|]. intros x. by apply Hpre.
  - intros cid f Hcid Hf He. destruct (Hidle cid Hcid) as (c & Hc & Hnil).
    assert (family_prefix f ∈ command_prefixes c) as Hin by (apply (Hpre _ _ _ Hc); eauto). rewrite Hnil in Hin. by apply elem_of_nil in Hin.
Qed.

(** ** Resolution *)

Definition matches (ct : string) (f : CommandFamilyPolicy) : bool := starts_with (family_prefix f) ct.

Lemma matching_unique p f g ct :
  policy_ok p -> f ∈ command_families p -> g ∈ command_families p -> matches ct f = true -> matches ct g = true -> f = g.
Proof.
  intros P Hf Hg Mf Mg. destruct (starts_with_comparable _ _ _ Mf Mg) as [H|H]; [by apply (po_prefix_free _ P)|].
  symmetry. by apply (po_prefix_free _ P).
Qed.

Lemma find_matching p ct l f :
  policy_ok p -> l ≡ₚ command_families p ->
  List.find (matches ct) l = Some f <-> f ∈ command_families p /\ matches ct f = true.
Proof.
  intros P Hl. split.
  - intros [Hin Hm]%List.find_some. split; [|done]. rewrite <- Hl. by apply list_elem_of_In.
  - intros [Hin Hm]. destruct (List.find (matches ct) l) as [g|] eqn:E.
    + apply List.find_some in E as [Hg Mg]. f_equal. eapply matching_unique; try done. rewrite <- Hl. by apply list_elem_of_In.
    + rewrite <- Hl in Hin. apply list_elem_of_In in Hin. eapply List.find_none in E; [|done]. congruence.
Qed.

Lemma matches_nonempty p f ct :
  policy_ok p -> f ∈ command_families p -> matches ct f = true -> str_nonempty ct = true.
Proof.
  intros P Hf Hm. destruct (po_prefix _ P f Hf) as [He _]. destruct ct; [|done]. unfold matches in Hm.
  by destruct (family_prefix f).
Qed.

Lemma resolve_spec p ct f :
  policy_ok p -> resolve_command_family p ct = Ret f <-> f ∈ command_families p /\ matches ct f = true.
Proof.
  intros P. assert (families_ p ≡ₚ command_families p) as Hl by (rewrite (po_sorted _ P); apply sorted_by_perm).
  rewrite <- (find_matching p ct (families_ p) f P Hl). unfold resolve_command_family, matches.
  destruct (str_nonempty ct) eqn:Hne; cbn [negb].
  - destruct (List.find _ (families_ p)); naive_solver.
  - split; [done|]. intros H. change (List.find (matches ct) (families_ p) = Some f) in H.
    apply (find_matching p ct _ f P Hl) in H as [Hf Hm]. by rewrite (matches_nonempty p f ct P Hf Hm) in Hne.
Qed.

(** In every policy that loads the family of a command type is unambiguous: the
    longest-prefix order of [_families] is immaterial, any order of the families
    resolves every command type alike, its refusals included *)
Theorem command_resolution_unambiguous raw p ct l :
  from_mapping raw = Ret p -> l ≡ₚ command_families p ->
  resolve_command_family p ct =
    match List.find (matches ct) l with
    | Some f => Ret f
    | None => unauthorized (if str_nonempty ct then "command type has no declared command family" else "command_type is required")
    end.
Proof.
  intros P%from_mapping_ok Hl. destruct (List.find (matches ct) l) as [f|] eqn:E.
  - apply resolve_spec; [done|]. by apply (find_matching p ct l f P Hl).
  - assert (forall f, resolve_command_family p ct <> Ret f) as Hno.
    { intros f Hf. apply resolve_spec in Hf; [|done]. apply (find_matching p ct l f P Hl) in Hf. congruence. }
    unfold resolve_command_family in *. destruct (str_nonempty ct); [|done]. cbn [negb] in *.
    destruct (List.find _ (families_ p)) as [f|]; [by destruct (Hno f)|done].
Qed.

(** ** Tokens *)

Lemma py_eqb_str v s : py_eqb v (JStr s) = true <-> v = JStr s.
Proof.
  destruct v; simpl; try (by split). rewrite String.eqb_eq. naive_solver.
Qed.
Lemma is_value_str v s : is_value v (JStr s) = true <-> v = Some (JStr s).
Proof. destruct v as [v|]; simpl; [rewrite py_eqb_str; naive_solver|done]. Qed.
Lemma is_value_list v s : is_value v (JArr [JStr s]) = true <-> v = Some (JArr [JStr s]).
Proof.
  destruct v as [v|]; simpl; [|done]. destruct v as [| | | | |l|]; simpl; try done.
  destruct l as [|x [|y l]]; [done| |by rewrite andb_false_r].
  rewrite andb_true_r, py_eqb_str. naive_solver.
Qed.

(** what [authorize_token] requires of the claims of client [cid] *)
Definition token_for (p : AutomationPolicy) (claims : jdict) (required_scope cid : string) (c : AutomationClientPolicy) : Prop :=
  dict_get "iss" claims = Some (JStr (issuer p)) /\
  (dict_get "aud" claims = Some (JStr (policy_audience p)) \/ dict_get "aud" claims = Some (JArr [JStr (policy_audience p)])) /\
  dict_get "azp" claims = Some (JStr cid) /\ dict_get cid (clients p) = Some c /\
  exists scopes, token_scopes (dict_get "scope" claims) = Ret scopes /\
    (forall s, s ∈ scopes -> s ∈ client_scopes c) /\ required_scope ∈ scopes.

Lemma undeclared_nil (l m : list string) : List.filter (fun s => negb (mem_string s m)) l = [] <-> forall s, s ∈ l -> s ∈ m.
Proof.
  induction l as [|x l IH]; simpl; [by split; [intros _ ? ?%elem_of_nil|]|].
  destruct (mem_string x m) eqn:Hx; simpl.
  - apply mem_string_spec in Hx. rewrite IH. split; [intros H s [->|Hs]%elem_of_cons; auto|intros H s Hs; apply H; by right].
  - split; [done|]. intros H. assert (mem_string x m = true); [|congruence]. apply mem_string_spec, H. left.
Qed.

Lemma authorize_token_spec p claims scope c :
  authorize_token p claims scope = Ret c <-> exists cid, token_for p claims scope cid c.
Proof.
  unfold authorize_token, token_for, client. split.
  - destruct (is_value (dict_get "iss" claims) _) eqn:Hi; [apply is_value_str in Hi|done]. cbn [negb].
    destruct (negb _ && negb _) eqn:Ha; [done|]. apply andb_false_iff in Ha. rewrite !negb_false_iff, is_value_str, is_value_list in Ha.
    destruct (dict_get "azp" claims) as [[| | | |cid| |]|]; try done. destruct (dict_get cid (clients p)) as [d|] eqn:Hd; [|done].
    intros (d' & [= <-] & (scopes & Hs & H)%obind_Ret)%obind_Ret. case_bool_decide as Hu; [|done]. pose proof (proj1 (undeclared_nil _ _) Hu) as Hu'.
    destruct (mem_string scope scopes) eqn:Hm; [|done]. apply mem_string_spec in Hm. injection H as <-.
    exists cid. split_and!; [done..|]. by exists scopes.
  - intros (cid & Hi & Ha & -> & Hc & scopes & Hs & Hu & Hm). rewrite (proj2 (is_value_str _ _) Hi). cbn [negb].
    replace (negb _ && negb _) with false; [|destruct Ha as [Ha|Ha];
      [by rewrite (proj2 (is_value_str _ _) Ha)|by rewrite (proj2 (is_value_list _ _) Ha), andb_false_r]].
    rewrite Hc, Hs. unfold obind. rewrite (proj2 (undeclared_nil _ _) Hu), bool_decide_eq_true_2 by done. cbn [negb].
    by rewrite (proj2 (mem_string_spec _ _) Hm).
Qed.

(** ** Who may issue a command *)

(** C26: in every policy that loads, a command is authorised exactly when the issuer and
    audience of the token are the platform's, its client is the one client of the
    command's family, its scopes are all declared for that client and contain the
    family's own, and the job's workflow family is one of the family's *)
Theorem authorize_command_exact raw p claims ct wf f :
  from_mapping raw = Ret p ->
  authorize_command p claims ct wf = Ret f <->
  f ∈ command_families p /\ matches ct f = true /\ wf ∈ family_workflow_families f /\
  dict_get "iss" claims = Some (JStr "https://auth.codestra.co/realms/codestra") /\
  (dict_get "aud" claims = Some (JStr "middleware-api") \/ dict_get "aud" claims = Some (JArr [JStr "middleware-api"])) /\
  dict_get "azp" claims = Some (JStr (family_client_id f)) /\
  exists c scopes, dict_get (family_client_id f) (clients p) = Some c /\
    token_scopes (dict_get "scope" claims) = Ret scopes /\
    (forall s, s ∈ scopes -> s ∈ client_scopes c) /\ family_scope f ∈ scopes.
Proof.
  intros P%from_mapping_ok. rewrite <- (po_issuer _ P), <- (po_audience _ P). unfold authorize_command. rewrite obind_Ret. split.
  - intros (g & [Hg Mg]%resolve_spec & (c & (cid & Hi & Ha & Hz & Hc & Hs)%authorize_token_spec & H)%obind_Ret); [|done].
    destruct (String.eqb_spec (client_id c) (family_client_id g)) as [He|]; [|done]. cbn [negb] in H.
    destruct (mem_string wf (family_workflow_families g)) eqn:Hw; [|done]. injection H as <-. apply mem_string_spec in Hw.
    destruct (po_client _ P cid c Hc) as [Hid _]. rewrite Hid in He. subst cid. split_and!; try done.
    exists c. destruct Hs as (scopes & ? & ? & ?). by exists scopes.
  - intros (Hf & Mf & Hw & Hi & Ha & Hz & c & scopes & Hc & Hs). exists f. split; [by apply resolve_spec|].
    apply obind_Ret. exists c. split.
    + apply authorize_token_spec. exists (family_client_id f). split_and!; try done. by exists scopes.
    + destruct (po_client _ P _ c Hc) as [-> _]. rewrite String.eqb_refl, (proj2 (mem_string_spec _ _) Hw). done.
Qed.

(** Whoever is authorised for a command in a policy that loads is neither the
    platform runtime nor the operations client, and its token carries no operations,
    dead-letter, generic or wildcard scope *)
Theorem command_authority_isolated raw p claims ct wf f :
  from_mapping raw = Ret p -> authorize_command p claims ct wf = Ret f ->
  exists cid scopes, dict_get "azp" claims = Some (JStr cid) /\ cid ∉ idle_clients /\
    token_scopes (dict_get "scope" claims) = Ret scopes /\
    forall s, s ∈ scopes -> is_privileged s = false /\ is_generic s = false.
Proof.
  intros P%from_mapping_ok (g & [Hg Mg]%resolve_spec & (c & (cid & _ & _ & Hz & Hc & scopes & Hs & Hsub & _)%authorize_token_spec & H)%obind_Ret)%obind_Ret; [|done].
  destruct (String.eqb_spec (client_id c) (family_client_id g)) as [He|]; [|done].
  destruct (po_client _ P cid c Hc) as (Hid & _ & Hgen & _). rewrite Hid in He. subst cid.
  assert (family_client_id g ∉ idle_clients) as Hidle by (intros Hin; by apply (po_idle _ P _ _ Hin Hg)).
  exists (family_client_id g), scopes. split_and!; [done..|]. intros s Hin. split; [|by apply Hgen, Hsub].
  apply not_true_iff_false. intros Hp. apply Hidle. rewrite (po_privileged _ P _ c s Hc (Hsub s Hin) Hp). right. left.
Qed.

(** ** What the policy raises *)

Definition raises_only {A} (cs : list exn_class) (o : outcome A) : Prop :=
  match o with Ret _ => True | Exc e => exn_cls e ∈ cs end.

Lemma raises_obind {A B} cs (o : outcome A) (k : A -> outcome B) :
  raises_only cs o -> (forall a, o = Ret a -> raises_only cs (k a)) -> raises_only cs (obind o k).
Proof. destruct o; simpl; [intros _ H; by apply H|done]. Qed.
Lemma raises_for_each {A} cs (f : A -> outcome unit) l :
  (forall x, x ∈ l -> raises_only cs (f x)) -> raises_only cs (for_each f l).
Proof.
  induction l as [|x l IH]; intros H; [done|]. simpl. apply raises_obind; [apply H; left|]. intros _ _. apply IH. intros y Hy. apply H. by right.
Qed.
Lemma raises_traverse {A B} cs (f : nat -> A -> outcome B) i l :
  (forall i x, raises_only cs (f i x)) -> raises_only cs (traverse f i l).
Proof.
  intros H. revert i. induction l as [|x l IH]; intros i; [done|]. simpl. apply raises_obind; [apply H|]. intros y _.
  apply raises_obind; [apply IH|done].
Qed.
Lemma raises_mono {A} cs cs' (o : outcome A) : cs ⊆ cs' -> raises_only cs o -> raises_only cs' o.
Proof. destruct o; simpl; [done|]. intros H Hc. by apply H. Qed.

Abbreviation policy_errors := ([AutomationPolicyError] : list exn_class).

Lemma raises_require b msg : raises_only policy_errors (require b msg).
Proof. unfold require. destruct b; [done|]. left. Qed.

(** walk over the checks of a function *)
Ltac raising :=
  repeat first
  [ apply raises_require
  | apply raises_for_each; intros ? ?
  | apply raises_traverse; intros ? ?
  | apply raises_obind; [|intros ? ?]
  | match goal with |- raises_only _ (match ?x with _ => _ end) => destruct x end
  | exact I
  | solve [simpl; set_solver] ].

Lemma raises_strings v label allow : raises_only policy_errors (strings v label allow).
Proof. unfold strings. raising. Qed.

Ltac loading := repeat first [apply raises_strings | progress raising].

Lemma raises_load_client kv : raises_only policy_errors (load_client kv).
Proof. unfold load_client. loading. Qed.
Lemma raises_load_operation i v : raises_only policy_errors (load_operation i v).
Proof. unfold load_operation. loading. Qed.
Lemma raises_load_family i v : raises_only policy_errors (load_family i v).
Proof. unfold load_family. loading. Qed.

(** the two [KeyError]s of the code's look-ups never happen: the client set was checked *)
Lemma raises_contract p : raises_only policy_errors (assert_contract_invariants p).
Proof.
  unfold assert_contract_invariants. apply raises_obind; [unfold check_document; raising|]. intros [] Hd.
  assert (same_names (map fst (clients p)) EXPECTED_CLIENT_IDS = true) as Hset by (unfold check_document in Hd; by passed).
  apply raises_obind; [unfold check_operations, check_operation; raising|]. intros _ _.
  apply raises_obind; [unfold check_prefixes, check_prefix; raising|]. intros _ _.
  apply raises_obind; [unfold check_commands, check_family; raising|]. intros _ _.
  apply raises_obind; [|intros _ _; unfold operation, check_boundary; raising].
  unfold check_isolation. apply raises_obind; [|intros ? _; raising]. apply raises_for_each. intros cid Hcid.
  destruct (dict_get cid (clients p)) eqn:Hg; [raising|]. exfalso. apply dict_get_None in Hg. apply Hg.
  unfold dict_keys. apply list_elem_of_In. apply (proj1 (same_names_spec _ _) Hset).
  clear Hg. revert cid Hcid. apply list.Forall_forall. repeat constructor; set_solver.
Qed.

Lemma raises_dict_of j : raises_only [TypeError; ValueError] (dict_of j).
Proof.
  assert (forall l n d, raises_only [TypeError; ValueError] (dict_items n l d)) as Hitems.
  { induction l as [|x l IH]; intros n d; [done|]. simpl. destruct (iterate x) as [[|k [|v [|? ?]]]|]; try (simpl; set_solver).
    destruct (hashable k); [apply IH|simpl; set_solver]. }
  unfold dict_of. destruct j; simpl; try set_solver; apply Hitems.
Qed.

(** an object, or missing *)
Definition object_field (key : string) (d : jdict) : bool :=
  match get_or key (JObj []) d with JObj _ => true | _ => false end.

Lemma raises_make_policy source cs ops fams :
  raises_only [AutomationPolicyError; TypeError; ValueError] (make_policy source cs ops fams) /\
  (forallb (fun k => object_field k source) ["authoritative_context"; "product_boundaries"; "invariants"] = true ->
   raises_only policy_errors (make_policy source cs ops fams)).
Proof.
  assert (forall j, raises_only [AutomationPolicyError; TypeError; ValueError] (dict_of j)) as Hd
    by (intros j; eapply raises_mono; [|apply raises_dict_of]; set_solver).
  unfold make_policy, object_field. split; [by repeat (apply raises_obind; [apply Hd|intros ? _])|].
  intros H. cbn [forallb] in H. rewrite !andb_true_iff in H. destruct H as (Ha & Hb & Hc & _).
  destruct (get_or "authoritative_context" (JObj []) source), (get_or "product_boundaries" (JObj []) source),
    (get_or "invariants" (JObj []) source); try done; cbn; exact I.
Qed.

Lemma raises_from_mapping es raw :
  policy_errors ⊆ es ->
  (forall source cs ops fams, raw = JObj source -> raises_only es (make_policy source cs ops fams)) ->
  raises_only es (from_mapping raw).
Proof.
  intros Hes Hmake. assert (forall A (o : outcome A), raises_only policy_errors o -> raises_only es o) as Hm by (intros A o; by apply raises_mono).
  assert (forall A msg, raises_only es (policy_error msg : outcome A)) as Herr by (intros A msg; apply Hm; simpl; set_solver).
  unfold from_mapping. destruct raw as [| | | | | |source]; try apply Herr.
  destruct (dict_get "clients" source) as [[| | | | | |cr]|]; try apply Herr.
  apply raises_obind; [apply Hm, raises_traverse; intros; apply raises_obind; [apply raises_load_client|done]|]. intros cs _.
  destruct (json_list (dict_get "operations" source)); [|apply Herr].
  apply raises_obind; [apply Hm, raises_traverse, raises_load_operation|]. intros ops _.
  destruct (json_list (dict_get "command_families" source)); [|apply Herr].
  apply raises_obind; [apply Hm, raises_traverse, raises_load_family|]. intros fams _.
  apply raises_obind; [by apply Hmake|]. intros p _. apply raises_obind; [apply Hm, raises_contract|done].
Qed.

(** Reading a policy raises nothing but [AutomationPolicyError], with one exception:
    a document whose context, boundaries or invariants are not objects can raise
    [TypeError] or [ValueError]; the decisions of a policy raise nothing but
    [AutomationAuthorizationError], whatever the claims are *)
Theorem automation_policy_errors raw :
  raises_only [AutomationPolicyError; TypeError; ValueError] (from_mapping raw) /\
  (match raw with
   | JObj source => forallb (fun k => object_field k source) ["authoritative_context"; "product_boundaries"; "invariants"] = true
   | _ => True
   end -> raises_only policy_errors (from_mapping raw)) /\
  forall p claims ct wf scope,
    raises_only [AutomationAuthorizationError] (authorize_command p claims ct wf) /\
    raises_only [AutomationAuthorizationError] (authorize_job_family p claims scope wf).
Proof.
  split_and!.
  - apply raises_from_mapping; [set_solver|]. intros. apply raises_make_policy.
  - intros Hobj. apply raises_from_mapping; [done|]. intros source cs ops fams ->. by apply raises_make_policy.
  - intros p claims ct wf scope. assert (forall c, raises_only [AutomationAuthorizationError] (token_scopes c)) as Ht.
    { intros c. unfold token_scopes. repeat (match goal with |- raises_only _ (match ?x with _ => _ end) => destruct x end); simpl; set_solver. }
    assert (forall c s, raises_only [AutomationAuthorizationError] (authorize_token p c s)) as Ha.
    { intros c s. unfold authorize_token, client.
      repeat first [apply Ht | apply raises_obind; [|intros ? _] | match goal with |- raises_only _ (match ?x with _ => _ end) => destruct x end
        | solve [simpl; set_solver]]. }
    split; [unfold authorize_command, resolve_command_family|unfold authorize_job_family];
      repeat first [apply Ha | apply raises_obind; [|intros ? _] | match goal with |- raises_only _ (match ?x with _ => _ end) => destruct x end
        | solve [simpl; set_solver]].
Qed.
