(* ===== verification/DecisionProps.v ===== *)
(** * Properties of the production decision *)

From stdpp Require Import sorting.
From Stdlib Require Import QArith Permutation.
From S2P Require Import Prelude Json PyValue Clock Sha256 Commands Principal Registry Decision.
Local Open Scope Z_scope.
#[local] Opaque sha256_hex.

(** ** Reasons *)

Lemma no_reason b r : reason_if b r = [] <-> b = false.
Proof. unfold reason_if. by destruct b. Qed.

Lemma kind_in k : k ∈ EVIDENCE_KINDS.
Proof. unfold EVIDENCE_KINDS. destruct k; set_solver. Qed.

(** the evidence of a kind stands for a release at a time *)
Definition holds (kind : EvidenceKind) (e : Evidence) (r : ReleaseIdentity) (now : instant) : Prop :=
  ev_status e = PASS /\ ev_source_sha e = source_sha r /\ ev_image_digest e = image_digest r /\
  observed_at e <= now + minutes 5 /\ now - observed_at e <= MAX_EVIDENCE_AGE kind /\
  match detail e with
  | StagingEvidence head smoke_passed => head = schema_head r /\ smoke_passed = true
  | ReleaseSealEvidence _ _ signature_verified => signature_verified = true
  | CanaryEvidence _ duration error_rate => 1800 <= duration /\ (error_rate <= MAX_CANARY_ERROR_RATE)%Q
  | MonitoringEvidence alerts routes slo => alerts = 0 /\ routes = true /\ slo = true
  | RollbackEvidence rehearsed verified digest => rehearsed = true /\ verified = true /\ digest <> image_digest r
  | ReconciliationEvidence unreconciled drift => unreconciled = 0 /\ drift = 0
  | ApprovalEvidence _ expires_at _ => now < expires_at /\ expires_at - observed_at e <= days 7
  end.

Ltac no_reasons := rewrite ?app_nil, ?no_reason, ?negb_false_iff, ?String.eqb_eq, ?String.eqb_neq, ?Z.eqb_eq, ?Z.ltb_ge, ?Z.leb_gt.

Lemma common_reasons_nil kind e r now :
  common_reasons kind e r now = [] <->
  ev_status e = PASS /\ ev_source_sha e = source_sha r /\ ev_image_digest e = image_digest r /\
  observed_at e <= now + minutes 5 /\ now - observed_at e <= MAX_EVIDENCE_AGE kind.
Proof.
  unfold common_reasons. no_reasons. rewrite bool_decide_eq_true. change MAX_CLOCK_SKEW with (minutes 5).
  destruct (Z.ltb_spec (now + minutes 5) (observed_at e)).
  - split; [by intros (_ & _ & _ & ?)|]. intros (_ & _ & _ & ? & _). lia.
  - no_reasons. naive_solver lia.
Qed.

Lemma reasons_nil kind e r now :
  common_reasons kind e r now ++ detail_reasons e r now = [] <-> holds kind e r now.
Proof.
  rewrite app_nil, common_reasons_nil. unfold holds.
  assert (forall A B C D E F G : Prop, (F <-> G) -> (A /\ B /\ C /\ D /\ E) /\ F <-> A /\ B /\ C /\ D /\ E /\ G) as Hand by tauto.
  apply Hand. clear Hand. unfold detail_reasons.
  destruct (detail e); no_reasons; rewrite ?Qle_bool_iff; try done.
Qed.

(** ** Assessments *)

Section Props.
  Context (model_validate : EvidenceKind -> jdict -> Evidence + list (list string)).

  Abbreviation assess_request := (assess_request model_validate).
  Abbreviation accepted := (accepted model_validate).
  Abbreviation evaluate := (evaluate model_validate).

(** the request's valid document of a kind *)
Definition evidence_for (q : DecisionRequest) (kind : EvidenceKind) (e : Evidence) : Prop :=
  exists raw, dict_get (kind_name kind) (evidence q) = Some (Some raw) /\ model_validate kind raw = inl e.

Lemma assess_Some q now kind e :
  snd (assess_request q now kind) = Some e <-> evidence_for q kind e /\ holds kind e (release q) now.
Proof.
  unfold Decision.assess_request, assess, evidence_for. destruct (dict_get (kind_name kind) (evidence q)) as [[raw|]|]; simpl.
  2, 3: split; [done|]; intros [(raw & ? & _) _]; done.
  destruct (model_validate kind raw) as [e'|] eqn:Hv; simpl.
  - case_bool_decide as Hr; rewrite reasons_nil in Hr.
    + split; [intros [= <-]; split; [by exists raw|done]|]. intros [(raw' & [= <-] & He) _]. congruence.
    + split; [done|]. intros [(raw' & [= <-] & He) Hh]. rewrite Hv in He. by injection He as <-.
  - split; [done|]. intros [(raw' & [= <-] & He) _]. congruence.
Qed.

Lemma assess_reasons q now kind : as_reasons (fst (assess_request q now kind)) = [] <-> is_Some (snd (assess_request q now kind)).
Proof.
  unfold Decision.assess_request, assess. destruct (dict_get (kind_name kind) (evidence q)) as [[raw|]|]; simpl.
  2, 3: split; [done|by intros [? ?]].
  destruct (model_validate kind raw) as [e'|]; simpl; [|split; [done|by intros [? ?]]].
  case_bool_decide; [naive_solver|]. split; [done|by intros [? ?]].
Qed.

Lemma accepted_get q now kind : dict_get kind (accepted q now) = snd (assess_request q now kind).
Proof.
  unfold Decision.accepted. generalize (Decision.assess_request model_validate q now) as f. intros f.
  assert (forall l, NoDup l -> dict_get kind (omap (fun k => pair k <$> snd (f k)) l) =
                    if bool_decide (kind ∈ l) then snd (f kind) else None) as H.
  { induction l as [|k l IH]; intros Hn; [done|]. apply NoDup_cons in Hn as [Hk Hn]. specialize (IH Hn). simpl.
    destruct (snd (f k)) as [e|] eqn:Hs; simpl.
    - destruct (decide (kind = k)) as [->|Hkk]; [by rewrite bool_decide_eq_true_2 by left|].
      etransitivity; [exact IH|]. case_bool_decide as H1; case_bool_decide as H2; try done; set_solver.
    - etransitivity; [exact IH|]. case_bool_decide as H1; case_bool_decide as H2; try done; [set_solver|].
      assert (kind = k) as -> by set_solver. done. }
  rewrite H; [by rewrite bool_decide_eq_true_2 by apply kind_in|].
  refine (bool_decide_unpack _ _). vm_compute. exact I.
Qed.

Lemma accepted_all q now :
  (length (accepted q now) =? length EVIDENCE_KINDS)%nat = true <-> forall kind, is_Some (snd (assess_request q now kind)).
Proof.
  rewrite Nat.eqb_eq. unfold Decision.accepted. generalize (Decision.assess_request model_validate q now) as f. intros f.
  assert (forall l, (length (omap (fun k => pair k <$> snd (f k)) l) <= length l)%nat) as Hle.
  { induction l as [|k l IH]; simpl; [done|]. unfold omap in IH. destruct (snd (f k)); simpl; lia. }
  assert (forall l, length (omap (fun k => pair k <$> snd (f k)) l) = length l <-> forall k, k ∈ l -> is_Some (snd (f k))) as H.
  { induction l as [|k l IH]; simpl; [by split; [intros _ ? ?%elem_of_nil|]|]. specialize (Hle l). unfold omap in *.
    destruct (snd (f k)) as [e|] eqn:Hs; simpl.
    - split; [intros [= Hl] k' [->|Hk]%elem_of_cons; [by rewrite Hs|by apply IH]|].
      intros Ha. f_equal. apply IH. intros k' Hk'. apply Ha. by right.
    - split; [lia|]. intros Ha. destruct (Ha k) as [e He]; [left|congruence]. }
  rewrite H. split; [intros Ha k; apply Ha, kind_in|naive_solver].
Qed.

(** ** Capabilities *)

Lemma capability_go c ok canaried approved by_ :
  cd_go (capability_decision c ok canaried approved by_) = true <->
  ok = true /\ c ∈ CAPABILITY_CATALOG /\ c ∉ UMBRELLA_CONTROLS /\
  (exists l, canaried = Some l /\ c ∈ l) /\ (exists approver l, approved = Some (approver, l) /\ c ∈ l /\ approver <> by_).
Proof.
  unfold capability_decision. cbn [cd_go]. rewrite bool_decide_eq_true, !app_nil, !no_reason, negb_false_iff.
  assert ((if mem_string c UMBRELLA_CONTROLS then ["umbrella_control_not_grantable"]
           else reason_if (negb (mem_string c CAPABILITY_CATALOG)) "capability_unknown") = [] <->
          c ∈ CAPABILITY_CATALOG /\ c ∉ UMBRELLA_CONTROLS) as ->.
  { destruct (mem_string c UMBRELLA_CONTROLS) eqn:Hu; [apply mem_string_spec in Hu; naive_solver|].
    apply not_true_iff_false in Hu. rewrite mem_string_spec in Hu. no_reasons. rewrite mem_string_spec. tauto. }
  assert (match canaried with Some l => negb (mem_string c l) | None => true end = false <-> exists l, canaried = Some l /\ c ∈ l) as ->.
  { destruct canaried as [l|]; [|naive_solver]. rewrite negb_false_iff, mem_string_spec. naive_solver. }
  destruct approved as [[approver l]|]; [|naive_solver].
  destruct (mem_string c l) eqn:Hm; simpl.
  - apply mem_string_spec in Hm. no_reasons. naive_solver.
  - apply not_true_iff_false in Hm. rewrite mem_string_spec in Hm. naive_solver.
Qed.

Lemma canaried_spec q now l :
  canaried_capabilities (accepted q now) = Some l <->
  exists e d r, snd (assess_request q now canary) = Some e /\ detail e = CanaryEvidence l d r.
Proof.
  unfold canaried_capabilities. rewrite accepted_get. destruct (snd (assess_request q now canary)) as [e|]; simpl; [|naive_solver].
  split; [destruct (detail e) eqn:Hd; [..]; first [by intros [=] | intros [= <-]] |intros (e' & d & r & [= <-] & He); by rewrite He]. all: eauto.
Qed.
Lemma approved_spec q now approver l :
  approved_capabilities (accepted q now) = Some (approver, l) <->
  exists e x, snd (assess_request q now approval) = Some e /\ detail e = ApprovalEvidence approver x l.
Proof.
  unfold approved_capabilities. rewrite accepted_get. destruct (snd (assess_request q now approval)) as [e|]; simpl; [|naive_solver].
  split; [destruct (detail e) eqn:Hd; [..]; first [by intros [=] | intros [= <- <-]] |intros (e' & x & [= <-] & He); by rewrite He]. all: eauto.
Qed.

(** the capabilities the evidence authorises, before the decision is made *)
Definition decided (q : DecisionRequest) (by_ : string) (now : instant) (name : string) : CapabilityDecision :=
  capability_decision name (length (accepted q now) =? length EVIDENCE_KINDS)%nat (canaried_capabilities (accepted q now))
    (approved_capabilities (accepted q now)) by_.

Lemma decided_names (g : CapabilityDecision -> bool) q by_ now l :
  map cd_capability (List.filter g (map (decided q by_ now) l)) = List.filter (fun c => g (decided q by_ now c)) l.
Proof. induction l as [|c l IH]; simpl; [done|]. destruct (g (decided q by_ now c)); simpl; by rewrite IH. Qed.

(** [c] may be authorised for the release *)
Definition authorizable (q : DecisionRequest) (by_ : string) (now : instant) (c : string) : Prop :=
  (forall kind, exists e, evidence_for q kind e /\ holds kind e (release q) now) /\
  c ∈ CAPABILITY_CATALOG /\ c ∉ UMBRELLA_CONTROLS /\
  (exists e l d r, evidence_for q canary e /\ detail e = CanaryEvidence l d r /\ c ∈ l) /\
  (exists e approver x l, evidence_for q approval e /\ detail e = ApprovalEvidence approver x l /\ c ∈ l /\ approver <> by_).

Lemma decided_go q by_ now c : cd_go (decided q by_ now c) = true <-> authorizable q by_ now c.
Proof.
  unfold decided, authorizable. rewrite capability_go, accepted_all. setoid_rewrite canaried_spec. setoid_rewrite approved_spec.
  setoid_rewrite assess_Some. unfold is_Some. setoid_rewrite assess_Some.
  assert (forall kind e e', evidence_for q kind e -> evidence_for q kind e' -> e = e') as Hfun.
  { intros kind e e' (raw & Hr & Hv) (raw' & Hr' & Hv'). congruence. }
  split.
  - intros (Hall & Hcat & Humb & (l & (e & d & r & [He _] & Hd) & Hl) & (ap & l' & (e' & x & [He' _] & Hd') & Hl' & Hne)).
    split_and!; [done..| |]; [by exists e, l, d, r|by exists e', ap, x, l'].
  - intros (Hall & Hcat & Humb & (e & l & d & r & He & Hd & Hl) & (e' & ap & x & l' & He' & Hd' & Hl' & Hne)).
    split_and!; [done..| |].
    + exists l. split; [|done]. exists e, d, r. split; [split; [done|]|done]. destruct (Hall canary) as (e0 & H0 & Hh).
      by rewrite (Hfun _ _ _ He H0).
    + exists ap, l'. split; [|done]. exists e', x. split; [split; [done|]|done]. destruct (Hall approval) as (e0 & H0 & Hh).
      by rewrite (Hfun _ _ _ He' H0).
Qed.

Lemma evaluate_go q by_ now src :
  go (evaluate q by_ now src) = true <-> exists c, c ∈ requested_capabilities q /\ authorizable q by_ now c.
Proof.
  cbn [go Decision.evaluate]. change (map (fun name => capability_decision name _ _ _ _) ?l) with (map (decided q by_ now) l).
  rewrite (decided_names cd_go). rewrite andb_true_iff, negb_true_iff, bool_decide_eq_false. split.
  - intros [_ Hne]. destruct (List.filter _ _) as [|c l] eqn:Hf; [done|].
    assert (In c (List.filter (fun c => cd_go (decided q by_ now c)) (sorted_strings (requested_capabilities q)))) as Hin by (rewrite Hf; by left).
    apply filter_In in Hin as [Hin Hgo]. exists c. split; [|by apply decided_go].
    rewrite <- sorted_strings_elem. by apply list_elem_of_In.
  - intros (c & Hc & Ha). split.
    + apply accepted_all. intros kind. destruct (proj1 Ha kind) as (e & He). exists e. by apply assess_Some.
    + intros Hf. assert (In c (List.filter (fun c => cd_go (decided q by_ now c)) (sorted_strings (requested_capabilities q)))) as Hin.
      { apply filter_In. split; [by apply list_elem_of_In, sorted_strings_elem|by apply decided_go]. }
      rewrite Hf in Hin. by destruct Hin.
Qed.

Lemma authorized_elem q by_ now src c :
  c ∈ authorized_capabilities (evaluate q by_ now src) <-> c ∈ requested_capabilities q /\ authorizable q by_ now c.
Proof.
  pose proof (evaluate_go q by_ now src) as Hgo. cbn [go authorized_capabilities Decision.evaluate] in *.
  change (map (fun name => capability_decision name _ _ _ _) ?l) with (map (decided q by_ now) l) in *.
  rewrite (decided_names cd_go) in *. destruct (_ && _).
  - rewrite list_elem_of_In, filter_In, <- list_elem_of_In, sorted_strings_elem, decided_go. done.
  - split; [by intros ?%elem_of_nil|]. intros Hc. exfalso. assert (false = true); [|done]. apply Hgo. by exists c.
Qed.

(** ** The decision *)

(** C25: a capability is authorised for a release exactly when it was requested, is a
    grantable capability and no kill switch, the evidence of all seven kinds is
    there, well formed, and stands for this release at this time, the canary
    exercised it, and an approver other than the requester approved it *)
Theorem go_exact q requester now src c :
  c ∈ authorized_capabilities (evaluate q requester now src) <->
  c ∈ requested_capabilities q /\
  (forall kind, exists e, evidence_for q kind e /\ holds kind e (release q) now) /\
  c ∈ CAPABILITY_CATALOG /\ c ∉ UMBRELLA_CONTROLS /\
  (exists e l d r, evidence_for q canary e /\ detail e = CanaryEvidence l d r /\ c ∈ l) /\
  (exists e approver x l, evidence_for q approval e /\ detail e = ApprovalEvidence approver x l /\ c ∈ l /\ approver <> requester).
Proof. apply authorized_elem. Qed.

Lemma filter_partition {A} (g : A -> bool) l : List.filter g l ++ List.filter (fun x => negb (g x)) l ≡ₚ l.
Proof.
  induction l as [|x l IH]; simpl; [done|]. destruct (g x); simpl; [by rewrite IH|].
  by rewrite <- Permutation_middle, IH.
Qed.

Lemma reasons_empty q now :
  sorted_strings (dedupe (concat (map (fun x => as_reasons (fst x)) (map (assess_request q now) EVIDENCE_KINDS)))) = [] <->
  forall kind, is_Some (snd (assess_request q now kind)).
Proof.
  setoid_rewrite <- assess_reasons. generalize (Decision.assess_request model_validate q now) as f. intros f.
  assert (forall l : list string, l = [] <-> forall x, x ∉ l) as Hnil.
  { intros [|x l]; [by split; [intros _ x ?%elem_of_nil|]|]. split; [done|]. intros H. by destruct (H x); left. }
  rewrite Hnil. setoid_rewrite sorted_strings_elem. setoid_rewrite dedupe_elem. split.
  - intros H kind. apply Hnil. intros x Hx. apply (H x). apply list_elem_of_In, in_concat. exists (as_reasons (fst (f kind))).
    split; [|by apply list_elem_of_In]. rewrite map_map. apply in_map_iff. exists kind. split; [done|apply list_elem_of_In, kind_in].
  - intros H x Hx. apply list_elem_of_In, in_concat in Hx as (rs & Hrs & Hx). rewrite map_map in Hrs.
    apply in_map_iff in Hrs as (kind & <- & _). by rewrite H in Hx.
Qed.

(** The parts of a readback agree: GO is exactly a non-empty authorisation, and
    exactly an empty list of reasons; the authorised and the denied capabilities
    share the requested ones out; partial is GO with a denial; only a decision from
    the evidence store is authoritative; and nothing was activated *)
Theorem decision_coherent q requester now src :
  let rb := evaluate q requester now src in
  (go rb = true <-> authorized_capabilities rb <> []) /\
  (go rb = true <-> reasons rb = []) /\
  authorized_capabilities rb ++ denied_capabilities rb ≡ₚ requested_capabilities q /\
  (partial rb = true <-> go rb = true /\ denied_capabilities rb <> []) /\
  (authoritative rb = true <-> src = evidence_store) /\
  (forall d, d ∈ capabilities rb -> cd_go d = true <-> cd_reasons d = []) /\
  performed (activation rb) = false /\ capabilities_activated (activation rb) = [] /\
  provider_effects_enabled (activation rb) = false.
Proof.
  pose proof (evaluate_go q requester now src) as Hgo. pose proof (authorized_elem q requester now src) as Hauth.
  pose proof (reasons_empty q now) as Hr. pose proof (accepted_all q now) as Hall.
  cbn zeta. assert (go (evaluate q requester now src) = true <-> authorized_capabilities (evaluate q requester now src) <> []) as H1.
  { rewrite Hgo. setoid_rewrite <- Hauth. split.
    - intros (c & Hc) E. rewrite E in Hc. by apply elem_of_nil in Hc.
    - intros H. destruct (authorized_capabilities _) as [|c l]; [done|]. exists c. left. }
  split; [exact H1|]. revert H1.
  cbn [go authorized_capabilities reasons denied_capabilities partial authoritative capabilities activation Decision.evaluate].
  change (map (fun name => capability_decision name _ _ _ _) ?l) with (map (decided q requester now) l).
  set (dec := map (decided q requester now) _). intros H1. split_and!; try done.
  - rewrite app_nil, no_reason, bool_decide_eq_false, Hr, <- Hall, andb_true_iff, negb_true_iff, bool_decide_eq_false. done.
  - destruct (_ && _); unfold dec.
    + rewrite !decided_names, (filter_partition (fun c => cd_go (decided q requester now c))).
      unfold sorted_strings. apply merge_sort_Permutation.
    + unfold sorted_strings. apply merge_sort_Permutation.
  - rewrite andb_true_iff, negb_true_iff, bool_decide_eq_false. split; intros [H2 H3]; (split; [done|]); by rewrite H2 in *.
  - apply bool_decide_eq_true.
  - intros d Hd. unfold dec in Hd. apply list_elem_of_In, in_map_iff in Hd as (c & <- & _). apply bool_decide_eq_true.
Qed.

(** A GO is an interval of time: between two moments at which a request is GO it
    is GO at every moment, and two such moments are at most a day and five minutes
    apart *)
Theorem go_window q requester src t1 t t2 :
  go (evaluate q requester t1 src) = true -> go (evaluate q requester t2 src) = true -> t1 <= t <= t2 ->
  go (evaluate q requester t src) = true /\ t2 - t1 <= hours 24 + minutes 5.
Proof.
  rewrite !evaluate_go. intros (c1 & Hc1 & Ha1 & Hrest1) (c2 & Hc2 & Ha2 & Hrest2) Ht. split.
  - exists c1. split; [done|]. split; [|done]. intros kind. destruct (Ha1 kind) as (e & (raw & Hr & Hv) & Hh1).
    destruct (Ha2 kind) as (e2 & (raw2 & Hr2 & Hv2) & Hh2). assert (e2 = e) as -> by congruence. exists e.
    split; [by exists raw|]. unfold holds in *. destruct Hh1 as (? & ? & ? & ? & ? & Hd1), Hh2 as (? & ? & ? & ? & ? & Hd2).
    split_and!; [done..|lia|lia|]. destruct (detail e); try done. destruct Hd1, Hd2. split; [lia|done].
  - destruct (Ha1 monitoring) as (e & (raw & Hr & Hv) & Hh1), (Ha2 monitoring) as (e2 & (raw2 & Hr2 & Hv2) & Hh2).
    assert (e2 = e) as -> by congruence. destruct Hh1 as (_ & _ & _ & H1 & _), Hh2 as (_ & _ & _ & _ & H2 & _).
    unfold MAX_EVIDENCE_AGE in H2. lia.
Qed.
End Props.

(** ** The evidence store *)

(** the [evidence] field of a request document *)
Definition evidence_field (d : jdict) : list (string * option jdict) :=
  match dict_get "evidence" d with
  | Some (JObj l) => map (fun kv => (fst kv, match snd kv with JObj raw => Some raw | _ => None end)) l
  | _ => []
  end.

Lemma get_kind {A} (g : EvidenceKind -> A) kind :
  dict_get (kind_name kind) (map (fun k => (kind_name k, g k)) EVIDENCE_KINDS) = Some (g kind).
Proof. destruct kind; reflexivity. Qed.

(** The decision of the evidence store fails closed: it is GO only when a directory
    is configured and there, its request names a requester, and each of the seven
    evidence documents was read as a JSON object *)
Theorem store_fails_closed model_validate request_validate root is_dir read now :
  (forall d q, request_validate d = Some q -> evidence q = evidence_field d) ->
  (forall kind raw e, model_validate kind raw = inl e -> dict_get "unreadable" raw = None) ->
  go (store_readback model_validate request_validate root is_dir read now) = true ->
  strip root <> "" /\ is_dir = true /\
  (exists raw requester, read "decision-request.json" = Readable (JObj raw) /\
     dict_get "requested_by" raw = Some (JStr requester) /\ strip requester <> "") /\
  (forall kind, exists raw, read (kind_name kind +:+ ".json") = Readable (JObj raw)) /\
  authoritative (store_readback model_validate request_validate root is_dir read now) = true.
Proof.
  intros Hreq Hval. unfold store_readback. destruct (strip root) eqn:Hroot; [done|]. destruct is_dir; [|done]. cbn [negb str_nonempty].
  destruct (read "decision-request.json") as [| |[| | | | | |raw]]; try done.
  destruct (dict_get "requested_by" raw) as [[| | | |requester| |]|] eqn:Hby; try done.
  destruct (strip requester) eqn:Hs; [done|]. cbn [negb str_nonempty orb]. destruct (200 <? String.length requester)%nat; [done|].
  destruct (request_validate _) as [q|] eqn:Hq; [|done]. intros Hgo. split_and!; try done.
  - exists raw, requester. by rewrite Hs.
  - apply evaluate_go in Hgo as (c & _ & Hall & _). intros kind. destruct (Hall kind) as (e & (doc & Hdoc & Hv) & _).
    apply Hreq in Hq. unfold evidence_field in Hq. rewrite dict_get_set_eq, map_map in Hq. cbn [fst snd] in Hq.
    rewrite Hq in Hdoc. rewrite (get_kind (fun k => match from_option JObj JNull (stored_evidence (read (kind_name k +:+ ".json"))) with
      | JObj raw => Some raw | _ => None end)) in Hdoc. injection Hdoc as Hdoc. unfold stored_evidence in Hdoc.
    destruct (read (kind_name kind +:+ ".json")) as [| |[| | | | | |d]]; simpl in Hdoc; try done;
      try (injection Hdoc as <-; by apply Hval in Hv). by exists d.
Qed.

(** the control names: every mapped umbrella is a kill switch, every mapped
    implementation is grantable, and no kill switch is *)
Lemma controls_coherent :
  (forall c u, In (c, u) UMBRELLA_BY_IMPLEMENTATION -> u ∈ UMBRELLA_CONTROLS /\ c ∈ CAPABILITY_CATALOG) /\
  (forall u, u ∈ UMBRELLA_CONTROLS -> u ∉ CAPABILITY_CATALOG).
Proof.
  split.
  - intros c u Hin. assert (Forall (fun cu => snd cu ∈ UMBRELLA_CONTROLS /\ fst cu ∈ CAPABILITY_CATALOG) UMBRELLA_BY_IMPLEMENTATION) as H
      by (refine (bool_decide_unpack _ _); vm_compute; exact I).
    rewrite List.Forall_forall in H. exact (H _ Hin).
  - apply list.Forall_forall. refine (bool_decide_unpack _ _). vm_compute. exact I.
Qed.

(** what an authorisation is worth: the capability takes effect once its own control
    and the umbrella the readback names are switched on, and not before *)
Lemma authorized_effective model_validate q requester now src c capabilities :
  c ∈ authorized_capabilities (evaluate model_validate q requester now src) ->
  dict_get "runtime" capabilities = None -> (String.length c <= 100)%nat ->
  effective_capability_enabled capabilities c = true <->
  is_true (dict_get c capabilities) = true /\
  forall u, dict_get c UMBRELLA_BY_IMPLEMENTATION = Some u -> is_true (obj_get u (dict_get "umbrella_controls" capabilities)) = true.
Proof.
  intros (_ & _ & Hcat & Humb & _)%authorized_elem Hrt Hlen. unfold effective_capability_enabled. rewrite Hrt.
  destruct (str_nonempty c) eqn:Hne; [|destruct c; [|done]; exfalso; revert Hcat; refine (bool_decide_unpack _ _); vm_compute; exact I].
  destruct (Nat.ltb_spec 100 (String.length c)); [lia|]. cbn [negb orb].
  destruct (mem_string c UMBRELLA_CONTROLS) eqn:Hm; [by apply mem_string_spec in Hm|].
  destruct (is_true (dict_get c capabilities)); cbn [negb]; [|split; [done|by intros [? _]]].
  destruct (dict_get c UMBRELLA_BY_IMPLEMENTATION) as [u|]; (split; [intros Hx; split; [done|]; intros ? [=]; by subst|intros [_ Hx]; by auto]).
Qed.
