(* ===== verification/CanaryProps.v ===== *)
(** * Properties of the canary controller *)

From S2P Require Import Prelude Json PyValue Clock Sha256 Uuid Commands Registry Principal.
From S2P Require Import Canary.

(** ** Facts about the canary controller

    What an allowing decision implies, what each call does to the ledger, and the
    ledger's invariant. *)

Local Open Scope Z_scope.
#[local] Opaque sha256_hex uuid5.

(** ** The policy *)

(** a plan within every bound the operator set *)
Record plan_bounded (p : ProviderCanaryPlan) (st : CanaryPolicySettings) (now : instant) (runtime_kill_switch : bool) (recent : Z) : Prop := {
  pb_enabled : controller_enabled st = true /\ app_env st <> "production" /\ kill_switch_configured st = false /\ runtime_kill_switch = false;
  pb_synthetic : mode p = synthetic /\ campaign_id p = "TEST_SYN";
  pb_tenant : plan_tenant_id p ∈ csv (allowed_tenant_ids st);
  pb_target : plan_target p ∈ csv (allowed_targets st) /\ dict_get (plan_target p) TARGET_BINDINGS = Some (plan_provider p, plan_capability p);
  pb_caps : max_attempts (budget p) <= cap_attempts st /\ max_rate_per_minute (budget p) <= cap_rate_per_minute st /\
    max_destinations (budget p) <= cap_destinations st /\ max_duration_seconds (budget p) <= cap_duration_seconds st /\
    max_spend_minor_units (budget p) <= cap_spend_minor_units st;
  pb_destinations : Z.of_nat (length (destination_fingerprints p)) <= Z.min (max_destinations (budget p)) (max_attempts (budget p));
  pb_window : not_before p <= now < not_after p /\ not_after p - not_before p <= seconds (max_duration_seconds (budget p));
  pb_rate : recent < max_rate_per_minute (budget p);
  pb_evidence : forall k, kind_count p k = 1%nat;
  pb_switch : exists k, kill_switch p = Some k /\ ks_state k = armed /\
    0 <= now - ks_observed_at k <= seconds (cap_readback_max_age_seconds st);
  pb_readback : exists r c, readback p = Some r /\ rr_required r = true /\ dict_get (plan_target p) TARGET_CHANNELS = Some c /\
    rr_source r ∈ READBACK_SOURCES c;
}.

Lemma deny_nil b r : deny b r = [] <-> b = false.
Proof. unfold deny. by destruct b. Qed.

Ltac no_denials := rewrite ?app_nil, ?deny_nil, ?negb_false_iff, ?String.eqb_eq, ?String.eqb_neq, ?mem_string_spec, ?Z.ltb_ge, ?Z.leb_gt,
  ?bool_decide_eq_true, ?orb_false_iff.

Lemma binding_channel t b : dict_get t TARGET_BINDINGS = Some b -> is_Some (dict_get t TARGET_CHANNELS).
Proof. cbn. repeat (case_decide; [intros _; by eexists|]). done. Qed.

Lemma evidence_reasons_nil p : evidence_reasons p = [] <-> forall k, kind_count p k = 1%nat.
Proof.
  unfold evidence_reasons. cbn [map concat REQUIRED_EVIDENCE_KINDS]. rewrite !app_nil. split.
  - intros (H1 & H2 & H3 & H4 & _) k. destruct k.
    all: match goal with |- kind_count ?q ?k = _ => by destruct (kind_count q k) as [|[|n]] end.
  - intros H. by rewrite !H.
Qed.

Lemma plan_reasons_nil p st now ks recent : plan_reasons p st now ks recent = [] <-> plan_bounded p st now ks recent.
Proof.
  unfold plan_reasons. rewrite !app_nil, evidence_reasons_nil.
  unfold gate_reasons, binding_reasons, budget_reasons, switch_reasons, readback_reasons. split.
  - intros (Hg & Hb & Hu & He & Hs & Hr).
    revert Hg Hu. no_denials. intros (H1 & H2 & (H3 & H4) & H5 & H6) (U1 & U2 & U3 & U4 & U5 & U6 & U7 & U8 & U9 & U10 & U11).
    apply app_nil in Hb as [Ht Hb]. revert Ht. no_denials. intros Ht.
    destruct (dict_get (plan_target p) TARGET_BINDINGS) as [[prov capa]|] eqn:Hbind; [|done].
    revert Hb. no_denials. intros (B1 & B2 & B3). subst prov capa.
    destruct (kill_switch p) as [k|] eqn:Hk; [|done]. destruct (readback p) as [r|] eqn:Hrb; [|done].
    destruct (binding_channel _ _ Hbind) as [c Hc]. rewrite Hc in Hr. revert Hs Hr. no_denials.
    intros (S1 & S2) (R1 & R2). destruct (Z.ltb_spec (now - ks_observed_at k) 0); [done|]. revert S2. no_denials. intros S2.
    split; try done; try lia.
    + exists k. split_and!; [done..|lia].
    + by exists r, c.
  - intros P. destruct (pb_enabled _ _ _ _ _ P) as (? & ? & ? & ?), (pb_synthetic _ _ _ _ _ P), (pb_target _ _ _ _ _ P) as [? Hbind],
      (pb_caps _ _ _ _ _ P) as (? & ? & ? & ? & ?), (pb_window _ _ _ _ _ P) as [? ?], (pb_switch _ _ _ _ _ P) as (k & Hk & ? & ?),
      (pb_readback _ _ _ _ _ P) as (r & c & Hr & ? & Hc & ?).
    pose proof (pb_destinations _ _ _ _ _ P). pose proof (pb_rate _ _ _ _ _ P). pose proof (pb_tenant _ _ _ _ _ P).
    rewrite Hbind, Hk, Hr, Hc. destruct (Z.ltb_spec (now - ks_observed_at k) 0); [lia|]. no_denials.
    split_and!; try done; try lia. apply (pb_evidence _ _ _ _ _ P).
Qed.
#[local] Opaque RUN_NAMESPACE run_id_of.

(** ** Runs *)

Lemma attempts_from_idle rid payload status now engaged i ds :
  (forall k, engaged k = false) ->
  attempts_from rid payload status now engaged i ds =
    (imap (fun k d => {| attempt := i + k; at_destination_fingerprint := d; at_payload_fingerprint := payload;
       synthetic_reference := reference_of rid (i + k) d; terminal_status := status; at_observed_at := now |}) ds, false).
Proof.
  intros He. revert i. induction ds as [|d ds IH]; intros i; simpl; [done|]. rewrite He, IH. do 2 f_equal; [by rewrite Nat.add_0_r|].
  apply imap_ext. intros k x _. cbn. by rewrite <- Nat.add_succ_comm.
Qed.

Section Controller.
  Context (plan_dump : ProviderCanaryPlan -> json) (st : CanaryPolicySettings).

  Abbreviation plan_digest := (plan_digest plan_dump).
  Abbreviation evaluate_plan := (evaluate_plan plan_dump).
  Abbreviation execute_synthetic := (execute_synthetic plan_dump).
  Abbreviation create_synthetic_run := (create_synthetic_run plan_dump st).
  Abbreviation canary_call := (canary_call plan_dump st).
  Abbreviation canary_run := (canary_run plan_dump st).
  Abbreviation existing := (existing plan_dump).
  Abbreviation decide_plan := (decide_plan plan_dump st).

Lemma allowed_bounded p now ks recent : allowed (evaluate_plan p st now ks recent) = true <-> plan_bounded p st now ks recent.
Proof. unfold allowed. cbn [cd_reasons Canary.evaluate_plan]. by rewrite bool_decide_eq_true, plan_reasons_nil. Qed.

(** the run an allowed plan gets when the switch is never engaged *)
Record run_of (p : ProviderCanaryPlan) (now : instant) (r : SyntheticCanaryRun) : Prop := {
  ro_id : run_id r = run_id_of (canary_id p) (plan_digest p);
  ro_canary : run_canary_id r = canary_id p;
  ro_key : (run_tenant_id r, run_target r) = (plan_tenant_id p, plan_target p);
  ro_digest : run_plan_digest r = plan_digest p;
  ro_started : run_started_at r = now;
  ro_status : run_status r = run_completed;
  ro_destinations : map at_destination_fingerprint (attempts r) = destination_fingerprints p;
}.

Lemma execute_allowed p now ks recent :
  allowed (evaluate_plan p st now ks recent) = true ->
  exists r, execute_synthetic p (evaluate_plan p st now ks recent) now (fun _ => false) = Ret r /\ run_of p now r.
Proof.
  intros Ha. pose proof (proj1 (allowed_bounded _ _ _ _) Ha) as P. unfold Canary.execute_synthetic. rewrite Ha.
  cbn [negb orb cd_plan_digest Canary.evaluate_plan]. rewrite String.eqb_refl. cbn [negb].
  destruct (pb_synthetic _ _ _ _ _ P) as [-> _], (pb_readback _ _ _ _ _ P) as (_ & c & _ & _ & -> & _).
  assert (exists s, sorted_strings (SUCCESS_STATUSES c) = [s]) as [s ->] by (destruct c; eexists; reflexivity).
  rewrite attempts_from_idle by done. rewrite bool_decide_eq_true_2 by done. cbn [negb].
  eexists. split; [reflexivity|]. split; try done. cbn [attempts]. apply list_eq; intros i; rewrite list_lookup_fmap, list_lookup_imap; by destruct (destination_fingerprints p !! i).
Qed.

(** ** What a call does to the ledger *)

Lemma recent_runs_run t g now l :
  exists m, recent_runs t g now l = (Ret (Z.of_nat (length (pop_expired now (default [] (starts l !! (t, g)))))), set_starts m l) /\
    default [] (m !! (t, g)) = pop_expired now (default [] (starts l !! (t, g))) /\
    forall k, k <> (t, g) -> m !! k = starts l !! k.
Proof.
  assert (forall l, set_starts (starts l) l = l) as Heta by (by intros []).
  unfold recent_runs. destruct (starts l !! (t, g)) as [[|x xs]|] eqn:Hs; cbn [default].
  - exists (starts l). by rewrite Heta, Hs.
  - eexists. split; [done|]. rewrite lookup_insert_eq. split; [done|]. intros k Hk. by rewrite lookup_insert_ne.
  - exists (starts l). by rewrite Heta, Hs.
Qed.

(** the oldest run makes room *)
Definition make_room (l : ProviderCanaryLedger) : list (string * SyntheticCanaryRun) * gmap string string :=
  if (max_runs l <=? length (runs l))%nat
  then match runs l with
       | [] => ([], by_canary l)
       | (_, evicted) :: rest => (rest, delete (run_canary_id evicted) (by_canary l))
       end
  else (runs l, by_canary l).

Lemma record_run_run r l :
  max_runs l <> 0%nat ->
  record_run r l = (Ret tt,
    set_starts (<[(run_tenant_id r, run_target r) := default [] (starts l !! (run_tenant_id r, run_target r)) ++ [run_started_at r]]> (starts l))
      (set_runs (dict_set (run_id r) r (fst (make_room l))) (<[run_canary_id r := run_id r]> (snd (make_room l))) l)).
Proof.
  intros Hmax. unfold record_run, make_room, bind, gets, modify, id. destruct (max_runs l <=? length (runs l))%nat eqn:Hle; [|done].
  apply Nat.leb_le in Hle. destruct (runs l) as [|[k e] rest]; [simpl in Hle; lia|done].
Qed.

(** the replies, with the ledger each leaves *)
Inductive create_effect (p : ProviderCanaryPlan) (now : instant) (l : ProviderCanaryLedger) : outcome RunAnswer -> ProviderCanaryLedger -> Prop :=
  | known_replayed rid r :
      by_canary l !! canary_id p = Some rid -> dict_get rid (runs l) = Some r -> run_plan_digest r = plan_digest p ->
      create_effect p now l (Ret (Replayed r)) l
  | known_conflict rid r :
      by_canary l !! canary_id p = Some rid -> dict_get rid (runs l) = Some r -> run_plan_digest r <> plan_digest p ->
      create_effect p now l (Exc (Exn (HTTPException 409) "canary_id was already executed with a different plan")) l
  | known_lost rid :
      by_canary l !! canary_id p = Some rid -> dict_get rid (runs l) = None ->
      create_effect p now l (Exc (Exn KeyError (repr_string rid))) l
  | fresh_denied d m ds :
      by_canary l !! canary_id p = None -> cd_reasons d <> [] -> d = evaluate_plan p st now (kill_switch_engaged l) (Z.of_nat (length (pop_expired now (default [] (starts l !! (plan_tenant_id p, plan_target p)))))) ->
      default [] (m !! (plan_tenant_id p, plan_target p)) = pop_expired now (default [] (starts l !! (plan_tenant_id p, plan_target p))) ->
      (forall k, k <> (plan_tenant_id p, plan_target p) -> m !! k = starts l !! k) ->
      create_effect p now l (Ret (Denied d)) (set_denials ds (set_starts m l))
  | fresh_created d r m :
      by_canary l !! canary_id p = None -> run_of p now r -> max_runs l <> 0%nat -> switch l = None ->
      plan_bounded p st now false (Z.of_nat (length (pop_expired now (default [] (starts l !! (plan_tenant_id p, plan_target p)))))) ->
      m !! (plan_tenant_id p, plan_target p) = Some (pop_expired now (default [] (starts l !! (plan_tenant_id p, plan_target p))) ++ [now]) ->
      (forall k, k <> (plan_tenant_id p, plan_target p) -> m !! k = starts l !! k) ->
      create_effect p now l (Ret (Created r d))
        (set_starts m (set_runs (dict_set (run_id r) r (fst (make_room l))) (<[run_canary_id r := run_id r]> (snd (make_room l))) l)).

Lemma create_effects p now l :
  max_runs l <> 0%nat ->
  create_effect p now l (fst (create_synthetic_run p now l)) (snd (create_synthetic_run p now l)).
Proof.
  intros Hmax. unfold Canary.create_synthetic_run, catch_, Canary.existing, bind, gets, id.
  destruct (by_canary l !! canary_id p) as [rid|] eqn:Hby.
  - destruct (dict_get rid (runs l)) as [r|] eqn:Hr; cbn.
    + destruct (String.eqb_spec (run_plan_digest r) (plan_digest p)); cbn; [by eapply known_replayed|by eapply known_conflict].
    + by eapply known_lost.
  - cbn [ret lift_outcome]. unfold Canary.decide_plan, bind, gets.
    destruct (recent_runs_run (plan_tenant_id p) (plan_target p) now l) as (m & Hm & Hkey & Hother).
    rewrite Hm. cbn [ret]. set (recent := Z.of_nat _).
    destruct (allowed (evaluate_plan p st now (kill_switch_engaged l) recent)) eqn:Ha; cbn [negb].
    + pose proof (proj1 (allowed_bounded _ _ _ _) Ha) as P. destruct (pb_enabled _ _ _ _ _ P) as (_ & _ & _ & Hks).
      assert (kill_switch_engaged (set_starts m l) = false) as -> by exact Hks. destruct (execute_allowed p now _ recent Ha) as (r & -> & R).
      cbn [lift_outcome ret]. rewrite record_run_run by done. cbn [fst snd].
      pose proof (ro_key _ _ _ R) as Hk. injection Hk as Ht Hg. rewrite Ht, Hg. rewrite (ro_started _ _ _ R). cbn [starts set_starts].
      eapply (fresh_created p now l _ r (<[_ := _]> m)); try done.
      * unfold kill_switch_engaged in Hks. apply bool_decide_eq_false, dec_stable in Hks. done.
      * rewrite <- Hks. exact P.
      * by rewrite lookup_insert_eq, Hkey.
      * intros k Hk. by rewrite lookup_insert_ne, Hother.
    + cbn. eapply fresh_denied; try done. unfold allowed in Ha. by apply bool_decide_eq_false in Ha.
Qed.

Lemma created_inv p now l r d l' :
  create_effect p now l (Ret (Created r d)) l' ->
  by_canary l !! canary_id p = None /\ run_of p now r /\ runs l' = dict_set (run_id r) r (fst (make_room l)).
Proof. intros E. by inversion E; subst. Qed.

(** ** The rate window *)

(** the starts of the runs that were created for a tenant and target *)
Definition created_starts (key : string * string) (rs : list CanaryReply) : list instant :=
  omap (fun reply => match reply with
    | RunReply (Ret (Created r _)) => if bool_decide ((run_tenant_id r, run_target r) = key) then Some (run_started_at r) else None
    | _ => None
    end) rs.

(** how many of them fall into the minute that ends at [t] *)
Definition in_window (t : instant) (l : list instant) : nat :=
  length (List.filter (fun s => (t - RATE_WINDOW <? s) && (s <=? t)) l).

Lemma in_window_app t a b : in_window t (a ++ b) = (in_window t a + in_window t b)%nat.
Proof. unfold in_window. induction a as [|s a IH]; simpl; [done|]. destruct (_ && _); simpl; by rewrite IH. Qed.
Lemma in_window_le t l : (in_window t l <= length l)%nat.
Proof. unfold in_window. induction l as [|s l IH]; simpl; [done|]. destruct (_ && _); simpl; lia. Qed.
Lemma in_window_expired t now l : (forall s, s ∈ l -> RATE_WINDOW <= now - s) -> now <= t -> in_window t l = 0%nat.
Proof.
  intros H Ht. unfold in_window. induction l as [|s l IH]; [done|]. simpl.
  assert (RATE_WINDOW <= now - s) as Hs by (apply H; left). destruct (Z.ltb_spec (t - RATE_WINDOW) s); [lia|]. apply IH. intros x Hx. apply H. by right.
Qed.

Lemma pop_expired_suffix now l : exists e, l = e ++ pop_expired now l /\ forall s, s ∈ e -> RATE_WINDOW <= now - s.
Proof.
  induction l as [|s l IH]; simpl; [by exists []; split; [|intros ? ?%elem_of_nil]|].
  destruct (Z.leb_spec RATE_WINDOW (now - s)) as [Hs|].
  - destruct IH as (e & He & Hall). exists (s :: e). split; [by rewrite He at 1|]. intros x [->|Hx]%elem_of_cons; [done|by apply Hall].
  - exists []. split; [done|by intros ? ?%elem_of_nil].
Qed.

Abbreviation started key l := (default [] (starts l !! key)).

Inductive start_effect (key : string * string) (now : instant) (l : ProviderCanaryLedger) : CanaryReply -> ProviderCanaryLedger -> Prop :=
  | starts_kept reply l' :
      created_starts key [reply] = [] -> started key l' = started key l \/ started key l' = pop_expired now (started key l) ->
      start_effect key now l reply l'
  | starts_added reply l' :
      created_starts key [reply] = [now] -> started key l' = pop_expired now (started key l) ++ [now] ->
      Z.of_nat (length (pop_expired now (started key l))) < cap_rate_per_minute st ->
      start_effect key now l reply l'.

Lemma decide_effect key p now l : started key (snd (decide_plan p now l)) = started key l \/ started key (snd (decide_plan p now l)) = pop_expired now (started key l).
Proof.
  unfold Canary.decide_plan, bind, gets. destruct (recent_runs_run (plan_tenant_id p) (plan_target p) now l) as (m & -> & Hkey & Hother).
  cbn. destruct (decide (key = (plan_tenant_id p, plan_target p))) as [->|Hne]; [by right|left]. by rewrite Hother.
Qed.

Lemma call_starts key c now l :
  max_runs l <> 0%nat -> start_effect key now l (fst (canary_call c now l)) (snd (canary_call c now l)).
Proof.
  intros Hmax. destruct c as [p|p|actor reason]; cbn [Canary.canary_call].
  - pose proof (create_effects p now l Hmax) as E. destruct (create_synthetic_run p now l) as [o l']. cbn [fst snd] in *.
    destruct E as [| | |d m ds Hby Hrs Hd Hkey Hother|d r m Hby R Hm Hsw P Hkey Hother]; try (by apply starts_kept; [|left]).
    + apply starts_kept; [done|]. cbn. destruct (decide (key = (plan_tenant_id p, plan_target p))) as [->|Hne]; [by right|left; by rewrite Hother].
    + cbn [starts set_starts]. destruct (decide (key = (plan_tenant_id p, plan_target p))) as [->|Hne].
      * apply starts_added; cbn.
        -- rewrite (ro_key _ _ _ R), bool_decide_eq_true_2 by done. by rewrite (ro_started _ _ _ R).
        -- by rewrite Hkey.
        -- pose proof (pb_rate _ _ _ _ _ P). destruct (pb_caps _ _ _ _ _ P) as (_ & ? & _). lia.
      * apply starts_kept; cbn; [|left; by rewrite Hother]. rewrite (ro_key _ _ _ R), bool_decide_eq_false_2 by done. done.
  - pose proof (decide_effect key p now l) as E. destruct (decide_plan p now l) as [o l']. by apply starts_kept.
  - cbn. apply starts_kept; [done|]. left. unfold set_switch. by destruct (switch l).
Qed.

Lemma record_run_max r l : max_runs (snd (record_run r l)) = max_runs l.
Proof.
  unfold record_run, bind, gets, modify, id. destruct (max_runs l <=? length (runs l))%nat; [|done]. by destruct (runs l) as [|[? ?] ?].
Qed.

Lemma call_max c now l : max_runs l <> 0%nat -> max_runs (snd (canary_call c now l)) = max_runs l.
Proof.
  intros Hmax. destruct c as [p|p|actor reason]; cbn [Canary.canary_call].
  - pose proof (create_effects p now l Hmax) as E. destruct (create_synthetic_run p now l) as [o l']. cbn [fst snd] in *. by destruct E.
  - unfold Canary.decide_plan, bind, gets. destruct (recent_runs_run (plan_tenant_id p) (plan_target p) now l) as (m & -> & _). done.
  - cbn. by destruct (switch l).
Qed.

(** the calls come in the order of their times *)
Fixpoint in_order (now : instant) (cs : list (instant * CanaryCall)) : Prop :=
  match cs with [] => True | (t, _) :: cs' => now <= t /\ in_order t cs' end.

Record rate_ok (key : string * string) (past : list instant) (now : instant) (l : ProviderCanaryLedger) : Prop := {
  rk_split : exists expired, past = expired ++ started key l /\ forall s, s ∈ expired -> RATE_WINDOW <= now - s;
  rk_past : forall s, s ∈ past -> s <= now;
  rk_bound : forall t, Z.of_nat (in_window t past) <= Z.max 0 (cap_rate_per_minute st);
}.

Lemma rate_step key past now0 now c l :
  max_runs l <> 0%nat -> now0 <= now -> rate_ok key past now0 l ->
  rate_ok key (past ++ created_starts key [fst (canary_call c now l)]) now (snd (canary_call c now l)).
Proof.
  intros Hmax Hnow [(ex & Hp & Hex) Hpast Hbound]. destruct (pop_expired_suffix now (started key l)) as (e & He & Hee).
  destruct (call_starts key c now l Hmax) as [reply l' -> Hs|reply l' -> Hs Hlt].
  - rewrite app_nil_r. split; [|intros s Hin; specialize (Hpast s Hin); lia|done]. destruct Hs as [Hs|Hs]; rewrite Hs.
    + exists ex. split; [done|]. intros s Hin. specialize (Hex s Hin). lia.
    + exists (ex ++ e). split; [by rewrite <- app_assoc, <- He|]. intros s [Hin|Hin]%elem_of_app; [specialize (Hex s Hin); lia|by apply Hee].
  - assert (past = (ex ++ e) ++ pop_expired now (started key l)) as Hsplit by (by rewrite <- app_assoc, <- He).
    assert (forall s, s ∈ ex ++ e -> RATE_WINDOW <= now - s) as Hexp.
    { intros s [Hin|Hin]%elem_of_app; [specialize (Hex s Hin); lia|by apply Hee]. }
    split.
    + exists (ex ++ e). rewrite Hs. split; [by rewrite Hsplit, <- !app_assoc|done].
    + intros s [Hin| ->%list_elem_of_singleton]%elem_of_app; [specialize (Hpast s Hin); lia|lia].
    + intros t. rewrite in_window_app. destruct (Z.lt_ge_cases t now) as [Ht|Ht].
      * replace (in_window t [now]) with 0%nat; [rewrite Nat.add_0_r; apply Hbound|].
        unfold in_window. simpl. destruct (Z.leb_spec now t); [lia|]. by rewrite andb_false_r.
      * rewrite Hsplit, in_window_app, (in_window_expired t now) by done.
        pose proof (in_window_le t (pop_expired now (started key l))). pose proof (in_window_le t [now]) as H1. simpl in H1. lia.
Qed.

Lemma rate_run key past now0 cs l :
  max_runs l <> 0%nat -> in_order now0 cs -> rate_ok key past now0 l ->
  forall t, Z.of_nat (in_window t (past ++ created_starts key (fst (canary_run cs l)))) <= Z.max 0 (cap_rate_per_minute st).
Proof.
  revert past now0 l. induction cs as [|[now c] cs IH]; intros past now0 l Hmax Hord R t.
  - rewrite app_nil_r. apply (rk_bound _ _ _ _ R).
  - destruct Hord as [Hnow Hord]. pose proof (rate_step key past now0 now c l Hmax Hnow R) as R'. pose proof (call_max c now l Hmax) as Hm.
    cbn [Canary.canary_run]. destruct (canary_call c now l) as [reply l1]. cbn [fst snd] in *.
    assert (max_runs l1 <> 0%nat) as Hm1 by lia. specialize (IH _ _ _ Hm1 Hord R' t). destruct (canary_run cs l1) as [rs l2]. cbn [fst] in *.
    assert (created_starts key (reply :: rs) = created_starts key [reply] ++ created_starts key rs) as ->.
    { unfold created_starts. simpl. by destruct reply as [[[]|]| |]; simpl; try destruct (bool_decide _). }
    by rewrite app_assoc.
Qed.

(** ** The ledger's invariant *)

(** no two of the plans with different canary ids share a run id *)
Definition collision_free (ps : list ProviderCanaryPlan) : Prop :=
  forall p q, p ∈ ps -> q ∈ ps ->
  run_id_of (canary_id p) (plan_digest p) = run_id_of (canary_id q) (plan_digest q) -> canary_id p = canary_id q.

Definition call_plans (c : CanaryCall) : list ProviderCanaryPlan := match c with CreateRun p => [p] | _ => [] end.
Definition history_plans (cs : list (instant * CanaryCall)) : list ProviderCanaryPlan := concat (map (fun c => call_plans (snd c)) cs).

(** the runs and the index by canary id are one relation *)
Record indexed (ps : list ProviderCanaryPlan) (rs : list (string * SyntheticCanaryRun)) (by_ : gmap string string) : Prop := {
  ix_keys : NoDup (dict_keys rs);
  ix_runs : forall rid r, In (rid, r) rs -> by_ !! run_canary_id r = Some rid /\
    exists p, p ∈ ps /\ run_canary_id r = canary_id p /\ run_plan_digest r = plan_digest p /\ rid = run_id_of (canary_id p) (plan_digest p);
  ix_index : forall c rid, by_ !! c = Some rid -> exists r, dict_get rid rs = Some r /\ run_canary_id r = c;
}.

Record ledger_ok (ps : list ProviderCanaryPlan) (l : ProviderCanaryLedger) : Prop := {
  lo_indexed : indexed ps (runs l) (by_canary l);
  lo_length : (length (runs l) <= max_runs l)%nat;
}.

Lemma ledger_ok_new ps n m : ledger_ok ps (new_canary_ledger n m).
Proof. split; [|simpl; lia]. split; [apply NoDup_nil_2|done|]. intros c rid Hc. change ((∅ : gmap string string) !! c = Some rid) in Hc. by rewrite lookup_empty in Hc. Qed.

Lemma make_room_ok ps l :
  max_runs l <> 0%nat -> ledger_ok ps l ->
  indexed ps (fst (make_room l)) (snd (make_room l)) /\ (length (fst (make_room l)) < max_runs l)%nat.
Proof.
  intros Hmax [[Hn Hruns Hidx] Hlen]. unfold make_room. destruct (Nat.leb_spec (max_runs l) (length (runs l))) as [Hle|Hlt]; [|by split].
  destruct (runs l) as [|[k e] rest] eqn:Hr; [simpl in Hle; lia|]. cbn [fst snd]. split; [|simpl in *; lia].
  apply NoDup_cons in Hn as [Hk Hn]. destruct (Hruns k e (or_introl eq_refl)) as [Hke _]. cbn [fst] in Hk. split; [done|..].
  - intros rid r Hin. destruct (Hruns rid r (or_intror Hin)) as [Hby Hp]. split; [|done]. rewrite lookup_delete_ne; [done|].
    intros Heq. rewrite Heq, Hby in Hke. injection Hke as ->. apply Hk, list_elem_of_In. by apply (in_map fst) in Hin.
  - intros c rid Hc. apply lookup_delete_Some in Hc as [Hne Hc]. destruct (Hidx c rid Hc) as (r & Hget & Hrc). exists r. split; [|done].
    cbn in Hget. destruct (decide (rid = k)) as [->|]; [|done]. injection Hget as <-. by rewrite Hrc in Hne.
Qed.

Lemma dict_set_fresh (rid : string) (r : SyntheticCanaryRun) rs : dict_get rid rs = None -> dict_set rid r rs = rs ++ [(rid, r)].
Proof. induction rs as [|[k v] rs IH]; simpl; [done|]. destruct (decide (rid = k)); [done|]. intros H. by rewrite IH. Qed.
Lemma dict_get_app (rid : string) (a b : list (string * SyntheticCanaryRun)) :
  dict_get rid (a ++ b) = match dict_get rid a with Some r => Some r | None => dict_get rid b end.
Proof. induction a as [|[k v] a IH]; simpl; [done|]. by destruct (decide (rid = k)). Qed.
Lemma make_room_incl l x : In x (fst (make_room l)) -> In x (runs l).
Proof. unfold make_room. destruct (_ <=? _)%nat; [|done]. destruct (runs l) as [|[k e] rest]; [done|]. by right. Qed.

(** a created run's id is not in the ledger *)
Lemma created_fresh ps p r now l :
  collision_free ps -> p ∈ ps -> ledger_ok ps l -> by_canary l !! canary_id p = None -> run_of p now r ->
  dict_get (run_id r) (fst (make_room l)) = None.
Proof.
  intros Hfree Hp [[Hn Hruns _] _] Hby R. destruct (dict_get (run_id r) (fst (make_room l))) as [r'|] eqn:Hg; [|done]. exfalso.
  apply dict_get_Some_In, make_room_incl, Hruns in Hg as (Hg & q & Hq & Hc & _ & Hid). rewrite (ro_id _ _ _ R) in Hid.
  rewrite (Hfree p q Hp Hq Hid), <- Hc, Hg in Hby. done.
Qed.

Lemma indexed_add ps p r now rs by_ :
  p ∈ ps -> indexed ps rs by_ -> by_ !! canary_id p = None -> run_of p now r -> dict_get (run_id r) rs = None ->
  indexed ps (rs ++ [(run_id r, r)]) (<[run_canary_id r := run_id r]> by_).
Proof.
  intros Hp [Hn Hruns Hidx] Hby R Hfresh. rewrite (ro_canary _ _ _ R). split.
  - unfold dict_keys. rewrite map_app. apply NoDup_app. split_and!; [done| |apply NoDup_singleton].
    intros k Hk ->%list_elem_of_singleton. apply dict_get_None in Hfresh. apply Hfresh. by apply list_elem_of_In.
  - intros rid r' [Hin|[[= <- <-]|[]]]%in_app_or.
    + destruct (Hruns rid r' Hin) as [Hb Hq]. split; [|done]. rewrite lookup_insert_ne; [done|]. intros Heq. by rewrite <- Heq, Hby in Hb.
    + rewrite (ro_canary _ _ _ R), lookup_insert_eq. split; [done|]. exists p. split_and!; [done..|apply (ro_digest _ _ _ R)|apply (ro_id _ _ _ R)].
  - intros c rid. destruct (decide (c = canary_id p)) as [->|Hne].
    + rewrite lookup_insert_eq. intros [= <-]. exists r. split; [|apply (ro_canary _ _ _ R)]. rewrite dict_get_app, Hfresh. cbn. by rewrite decide_True.
    + rewrite lookup_insert_ne by done. intros Hc. destruct (Hidx c rid Hc) as (r' & Hget & Hrc). exists r'. split; [|done].
      by rewrite dict_get_app, Hget.
Qed.

Lemma make_room_by l c : by_canary l !! c = None -> snd (make_room l) !! c = None.
Proof.
  intros H. unfold make_room. destruct (_ <=? _)%nat; [|done]. destruct (runs l) as [|[k e] rest]; [done|]. cbn.
  apply lookup_delete_None. by right.
Qed.

Lemma call_ledger_ok ps c now l :
  collision_free ps -> (forall p, p ∈ call_plans c -> p ∈ ps) -> max_runs l <> 0%nat -> ledger_ok ps l ->
  ledger_ok ps (snd (canary_call c now l)).
Proof.
  intros Hfree Hps Hmax L. destruct c as [p|p|actor reason]; cbn [Canary.canary_call].
  - pose proof (create_effects p now l Hmax) as E. destruct (create_synthetic_run p now l) as [o l']. cbn [fst snd] in *.
    destruct E as [| | |d m ds Hby Hrs Hd Hkey Hother|d r m Hby R Hm Hsw P Hkey Hother]; try done; [by destruct L|].
    assert (p ∈ ps) as Hp by (apply Hps; left). destruct (make_room_ok ps l Hmax L) as [Hix Hlen].
    pose proof (created_fresh ps p r now l Hfree Hp L Hby R) as Hfresh. split; cbn; rewrite (dict_set_fresh _ _ _ Hfresh).
    + eapply indexed_add; try done. by apply make_room_by.
    + rewrite length_app. simpl. lia.
  - unfold Canary.decide_plan, bind, gets. destruct (recent_runs_run (plan_tenant_id p) (plan_target p) now l) as (m & -> & _). by destruct L.
  - cbn. destruct (switch l); [done|]. by destruct L.
Qed.

Lemma run_ledger_ok ps cs l :
  collision_free ps -> (forall p, p ∈ history_plans cs -> p ∈ ps) -> max_runs l <> 0%nat -> ledger_ok ps l ->
  ledger_ok ps (snd (canary_run cs l)) /\ max_runs (snd (canary_run cs l)) = max_runs l.
Proof.
  intros Hfree. revert l. induction cs as [|[now c] cs IH]; intros l Hps Hmax L; [done|]. cbn [Canary.canary_run].
  assert (forall p, p ∈ call_plans c -> p ∈ ps) as Hc by (intros p Hp; apply Hps; unfold history_plans; simpl; set_solver).
  pose proof (call_ledger_ok ps c now l Hfree Hc Hmax L) as L1. pose proof (call_max c now l Hmax) as Hm.
  destruct (canary_call c now l) as [reply l1]. cbn [snd] in *.
  assert (max_runs l1 <> 0%nat) as Hm1 by lia. assert (forall p, p ∈ history_plans cs -> p ∈ ps) as Hps'
    by (intros p Hp; apply Hps; unfold history_plans in *; simpl; set_solver).
  destruct (IH l1 Hps' Hm1 L1) as [L2 Hm2]. destruct (canary_run cs l1) as [rs l2]. cbn [snd] in *. split; [done|lia].
Qed.

(** ** How long a run is kept *)

Definition creations (rs : list CanaryReply) : nat :=
  length (omap (fun reply => match reply with RunReply (Ret (Created r _)) => Some r | _ => None end) rs).

(** the run is stored, with at most [k] younger ones *)
Definition kept (rid : string) (r : SyntheticCanaryRun) (k : nat) (l : ProviderCanaryLedger) : Prop :=
  exists older younger, runs l = older ++ (rid, r) :: younger /\ (length younger <= k)%nat.

Lemma call_kept ps c now rid r k l :
  collision_free ps -> (forall p, p ∈ call_plans c -> p ∈ ps) -> max_runs l <> 0%nat -> ledger_ok ps l ->
  (k + creations [fst (canary_call c now l)] < max_runs l)%nat ->
  kept rid r k l -> kept rid r (k + creations [fst (canary_call c now l)]) (snd (canary_call c now l)).
Proof.
  intros Hfree Hps Hmax L Hk (older & younger & Hr & Hy). destruct c as [p|p|actor reason]; cbn [Canary.canary_call] in *.
  - pose proof (create_effects p now l Hmax) as E. destruct (create_synthetic_run p now l) as [o l']. cbn [fst snd] in *.
    destruct E as [| | |d m ds Hby Hrs Hd Hkey Hother|d r' m Hby R Hm Hsw P Hkey Hother]; try (exists older, younger; simpl in *; split; [done|lia]).
    assert (p ∈ ps) as Hp by (apply Hps; left). pose proof (created_fresh ps p r' now l Hfree Hp L Hby R) as Hfresh.
    unfold kept. cbn [runs set_starts set_runs]. rewrite (dict_set_fresh _ _ _ Hfresh).
    unfold creations in *. cbn [omap list_omap length] in *. unfold make_room.
    destruct (Nat.leb_spec (max_runs l) (length (runs l))) as [Hle|Hlt].
    + rewrite Hr in Hle. rewrite length_app in Hle. cbn in Hle. destruct older as [|[k' e] older]; [simpl in Hle; lia|].
      rewrite Hr. cbn [fst app]. exists older, (younger ++ [(run_id r', r')]). rewrite <- app_assoc, length_app. simpl. split; [done|lia].
    + rewrite Hr. exists older, (younger ++ [(run_id r', r')]). cbn [fst]. rewrite <- app_assoc, length_app. simpl. split; [done|lia].
  - unfold Canary.decide_plan, bind, gets in *. destruct (recent_runs_run (plan_tenant_id p) (plan_target p) now l) as (m & -> & _).
    exists older, younger. simpl. split; [done|lia].
  - cbn. exists older, younger. split; [by destruct (switch l)|lia].
Qed.

Lemma run_kept ps cs rid r k l :
  collision_free ps -> (forall p, p ∈ history_plans cs -> p ∈ ps) -> max_runs l <> 0%nat -> ledger_ok ps l ->
  (k + creations (fst (canary_run cs l)) < max_runs l)%nat -> kept rid r k l ->
  kept rid r (k + creations (fst (canary_run cs l))) (snd (canary_run cs l)).
Proof.
  intros Hfree. revert k l. induction cs as [|[now c] cs IH]; intros k l Hps Hmax L Hk K; [simpl; by rewrite Nat.add_0_r|].
  cbn [Canary.canary_run] in *.
  assert (forall p, p ∈ call_plans c -> p ∈ ps) as Hc by (intros p Hp; apply Hps; unfold history_plans; simpl; set_solver).
  assert (forall p, p ∈ history_plans cs -> p ∈ ps) as Hps' by (intros p Hp; apply Hps; unfold history_plans in *; simpl; set_solver).
  pose proof (call_ledger_ok ps c now l Hfree Hc Hmax L) as L1. pose proof (call_max c now l Hmax) as Hm.
  pose proof (call_kept ps c now rid r k l Hfree Hc Hmax L) as Hstep.
  destruct (canary_call c now l) as [reply l1]. cbn [fst snd] in *. specialize (IH (k + creations [reply])%nat l1 Hps').
  destruct (canary_run cs l1) as [rs l2]. cbn [fst snd] in *.
  assert (creations (reply :: rs) = (creations [reply] + creations rs)%nat) as Hsum
    by (unfold creations; simpl; by destruct reply as [[[]|]| |]).
  rewrite Hsum in *. rewrite Nat.add_assoc. apply IH; [lia|done|lia|]. apply Hstep; [lia|done].
Qed.
End Controller.

Section CanaryProps.
Local Open Scope Z_scope.
#[local] Opaque sha256_hex uuid5 run_id_of.

Section Props.
  Context (plan_dump : ProviderCanaryPlan -> json) (st : CanaryPolicySettings).

(** A plan is allowed exactly when the controller is enabled outside production and
    no kill switch is engaged, it is synthetic, names an allowed tenant and an
    allowed target with that target's own provider and capability, keeps every budget
    within the operator's caps and its own declarations, is inside its window, has
    rate budget left, and carries each piece of evidence once, a fresh armed
    kill-switch read-back and a read-back source of its channel *)
Theorem canary_allowed_exact p now runtime_kill_switch recent :
  allowed (evaluate_plan plan_dump p st now runtime_kill_switch recent) = true <->
  recent < Z.min (max_rate_per_minute (budget p)) (cap_rate_per_minute st) /\
  plan_bounded p st now runtime_kill_switch recent.
Proof.
  rewrite allowed_bounded. split; [|by intros []]. intros P. split; [|done].
  pose proof (pb_rate _ _ _ _ _ P). destruct (pb_caps _ _ _ _ _ P) as (_ & ? & _). lia.
Qed.

(** C32: the rate budget bounds the runs of a tenant and target over any history of
    calls in the order of their times: in no minute, wherever it starts, more runs
    are started than the operator's cap allows, although the deque of starts is
    only trimmed when it is read and old runs are evicted *)
Theorem canary_rate_bound capacity denied cs now0 key t :
  capacity <> 0%nat -> in_order now0 cs ->
  Z.of_nat (in_window t (created_starts key (fst (canary_run plan_dump st cs (new_canary_ledger capacity denied))))) <=
  Z.max 0 (cap_rate_per_minute st).
Proof.
  intros Hcap Hord. apply (rate_run plan_dump st key [] now0 cs (new_canary_ledger capacity denied)); [done..|]. split.
  - exists []. split; [done|by intros ? ?%elem_of_nil].
  - by intros ? ?%elem_of_nil.
  - intros t'. unfold in_window. simpl. lia.
Qed.

(** A canary runs once while it is remembered: after a run was created for a plan
    and until as many others were created as the ledger holds, the same plan is
    answered with that run and any other plan of the canary id is refused with 409,
    and neither changes the ledger, whatever was called in between *)
Theorem canary_runs_once capacity denied ps cs1 p now r d l cs2 q now2 :
  collision_free plan_dump ps -> p ∈ ps -> (forall x, x ∈ history_plans (cs1 ++ cs2) -> x ∈ ps) ->
  create_synthetic_run plan_dump st p now (snd (canary_run plan_dump st cs1 (new_canary_ledger capacity denied))) = (Ret (Created r d), l) ->
  (creations (fst (canary_run plan_dump st cs2 l)) < capacity)%nat ->
  canary_id q = canary_id p ->
  let l2 := snd (canary_run plan_dump st cs2 l) in
  create_synthetic_run plan_dump st q now2 l2 =
    (if String.eqb (plan_digest plan_dump p) (plan_digest plan_dump q) then Ret (Replayed r)
     else Exc (Exn (HTTPException 409) "canary_id was already executed with a different plan"), l2).
Proof.
  intros Hfree Hp Hps Hcreate Hcount Hq. cbn zeta.
  assert ((forall x, x ∈ history_plans cs1 -> x ∈ ps) /\ forall x, x ∈ history_plans cs2 -> x ∈ ps) as [Hps1 Hps2].
  { unfold history_plans in *. rewrite map_app, concat_app in Hps. split; intros x Hx; apply Hps, elem_of_app; tauto. }
  assert (capacity <> 0%nat) as Hcap by lia.
  destruct (run_ledger_ok plan_dump st ps cs1 (new_canary_ledger capacity denied) Hfree Hps1 Hcap (ledger_ok_new plan_dump ps _ _)) as [L1 Hm1].
  set (l1 := snd (canary_run plan_dump st cs1 (new_canary_ledger capacity denied))) in *. cbn [max_runs new_canary_ledger] in Hm1.
  assert (max_runs l1 <> 0%nat) as Hmax1 by lia.
  pose proof (call_ledger_ok plan_dump st ps (CreateRun p) now l1 Hfree) as L2. pose proof (call_max plan_dump st (CreateRun p) now l1 Hmax1) as Hm2.
  cbn [canary_call call_plans] in L2, Hm2. rewrite Hcreate in L2, Hm2. cbn [snd] in L2, Hm2.
  assert (ledger_ok plan_dump ps l) as L by (apply L2; [|done..]; intros x ->%list_elem_of_singleton; done).
  pose proof (create_effects plan_dump st p now l1 Hmax1) as E. rewrite Hcreate in E. cbn [fst snd] in E.
  apply created_inv in E as (Hby & R & Hl). assert (max_runs l <> 0%nat) as Hmax by lia.
  assert (kept (run_id r) r 0 l) as K.
  { pose proof (created_fresh plan_dump ps p r now l1 Hfree Hp L1 Hby R) as Hfresh. unfold kept.
    rewrite Hl, (dict_set_fresh _ _ _ Hfresh). by exists (fst (make_room l1)), []. }
  destruct (run_ledger_ok plan_dump st ps cs2 l Hfree Hps2 Hmax L) as [L3 Hm3].
  destruct (run_kept plan_dump st ps cs2 (run_id r) r 0 l Hfree Hps2 Hmax L) as (older & younger & Hruns & _); [simpl; lia|done|].
  set (l2 := snd (canary_run plan_dump st cs2 l)) in *. clearbody l2.
  assert (In (run_id r, r) (runs l2)) as Hin by (rewrite Hruns; apply in_elt).
  destruct (ix_runs _ _ _ _ (lo_indexed _ _ _ L3) _ _ Hin) as [Hidx _]. rewrite (ro_canary _ _ _ _ R), <- Hq in Hidx.
  destruct (ix_index _ _ _ _ (lo_indexed _ _ _ L3) _ _ Hidx) as (r2 & Hget & Hc2).
  assert (r2 = r) as ->.
  { apply dict_get_Some_In in Hget. apply list_elem_of_In, list_elem_of_lookup in Hget as [i Hi]. apply list_elem_of_In, list_elem_of_lookup in Hin as [j Hj].
    assert (i = j) as ->; [|congruence]. eapply (NoDup_lookup (dict_keys (runs l2))); [apply (lo_indexed _ _ _ L3)|..];
      unfold dict_keys; rewrite list_lookup_fmap; [by rewrite Hi|by rewrite Hj]. }
  unfold create_synthetic_run, catch_, existing, bind, gets, id. rewrite Hidx, Hget, (ro_digest _ _ _ _ R).
  by destruct (String.eqb _ _).
Qed.

(** ** The kill switch *)

Lemma call_switch c now l : max_runs l <> 0%nat -> switch l <> None -> switch (snd (canary_call plan_dump st c now l)) <> None.
Proof.
  intros Hmax Hs. destruct c as [p|p|actor reason]; cbn [canary_call].
  - pose proof (create_effects plan_dump st p now l Hmax) as E. destruct (create_synthetic_run plan_dump st p now l) as [o l'].
    cbn [fst snd] in *. by destruct E.
  - unfold decide_plan, bind, gets. by destruct (recent_runs_run (plan_tenant_id p) (plan_target p) now l) as (m & -> & _).
  - cbn. destruct (switch l) eqn:E; cbn; congruence.
Qed.

(** An engaged kill switch is never released and stops every canary: whatever is
    called afterwards, no run is created, and each refused plan names the switch *)
Theorem kill_switch_stops_canaries cs now actor reason l :
  max_runs l <> 0%nat ->
  let l1 := snd (engage_kill_switch actor reason now l) in
  kill_switch_engaged (snd (canary_run plan_dump st cs l1)) = true /\
  forall reply, reply ∈ fst (canary_run plan_dump st cs l1) ->
    match reply with
    | RunReply (Ret (Created _ _)) => False
    | RunReply (Ret (Denied d)) => "KILL_SWITCH_ENGAGED" ∈ cd_reasons d
    | _ => True
    end.
Proof.
  intros Hmax. cbn zeta. assert (switch (snd (engage_kill_switch actor reason now l)) <> None /\ max_runs (snd (engage_kill_switch actor reason now l)) <> 0%nat) as [Hs Hm].
  { cbn. destruct (switch l) eqn:E; cbn; rewrite ?E; done. }
  revert Hs Hm. generalize (snd (engage_kill_switch actor reason now l)) as l1. clear l Hmax.
  induction cs as [|[t c] cs IH]; intros l Hs Hm; [split; [by apply bool_decide_eq_true|by intros ? ?%elem_of_nil]|].
  pose proof (call_switch c t l Hm Hs) as Hs1. pose proof (call_max plan_dump st c t l Hm) as Hm1. cbn [canary_run].
  assert (match fst (canary_call plan_dump st c t l) with
    | RunReply (Ret (Created _ _)) => False
    | RunReply (Ret (Denied d)) => "KILL_SWITCH_ENGAGED" ∈ cd_reasons d
    | _ => True end) as Hreply.
  { destruct c as [p|p|a z]; cbn [canary_call].
    - pose proof (create_effects plan_dump st p t l Hm) as E. destruct (create_synthetic_run plan_dump st p t l) as [o l']. cbn [fst snd] in *.
      destruct E as [| | |d m ds _ _ -> _ _|d r m _ _ _ Hn]; try done. unfold kill_switch_engaged. rewrite (bool_decide_eq_true_2 _ Hs).
      cbn [cd_reasons evaluate_plan]. unfold plan_reasons, gate_reasons. rewrite orb_true_r. cbn [deny]. set_solver.
    - by destruct (decide_plan plan_dump st p t l).
    - by destruct (engage_kill_switch a z t l). }
  destruct (canary_call plan_dump st c t l) as [reply l1]. cbn [fst snd] in *.
  assert (max_runs l1 <> 0%nat) as Hm' by lia. destruct (IH l1 Hs1 Hm') as [Hk Hall]. destruct (canary_run plan_dump st cs l1) as [rs l2].
  cbn [fst snd] in *. split; [done|]. by intros x [->|Hx]%elem_of_cons; [|apply Hall].
Qed.
End Props.
End CanaryProps.
