(* ===== verification/OrdersProps.v ===== *)
(** * Properties of approved-order orchestration *)

From stdpp Require Import relations.
From S2P Require Import Prelude Json PyValue Clock Sha256 Orders.
Local Open Scope Z_scope.
#[local] Opaque sha256_hex hmac_sha256_hex.

(** ** What the order routes do to the store

    Every route is a sequence of a few kinds of changes ([order_step]); an invariant
    is then proved by induction on the steps. *)

(** ** Steps *)

(** a change of a record that keeps its identity and content, and one of a command *)
Definition keeps_order (f : OrderRecord -> OrderRecord) : Prop :=
  forall r, or_order_id (f r) = or_order_id r /\ or_content_hash (f r) = or_content_hash r.
Definition keeps_command (f : OrderCommand -> OrderCommand) : Prop :=
  forall c, oc_order_id (f c) = oc_order_id c /\ oc_attempts (f c) = oc_attempts c.

Definition insert_order (o : OrderEnvelope) (s : OrderStore) : OrderStore :=
  mkOrderStore (<[o_order_id o := new_record o]> (orders s)) (<[o_idempotency_key o := o_order_id o]> (by_idempotency s))
    (commands s) (audit_events s) (metrics s).
Definition new_command (cid oid workflow_code : string) : OrderCommand :=
  {| oc_command_id := cid; oc_order_id := oid; oc_workflow_code := workflow_code; oc_status := QUEUED; oc_progress := []; oc_attempts := 0 |}.

Section Steps.
  (** the envelopes of a history *)
  Variable received : list OrderEnvelope.

Inductive order_step (s : OrderStore) : OrderStore -> Prop :=
  | step_count name : order_step s (snd (count name s))
  | step_audit oid event details : event <> "command_failure" -> order_step s (snd (audit oid event details s))
  | step_order oid f : keeps_order f -> order_step s (snd (update_order oid f s))
  | step_command cid f : keeps_command f -> order_step s (snd (update_command cid f s))
  | step_new_command cid oid w : commands s !! cid = None -> order_step s (set_command (new_command cid oid w) s)
  | step_new_order o : o ∈ received -> truthy_str (by_idempotency s !! o_idempotency_key o) = None -> order_step s (insert_order o s)
  | step_failure cid code retryable : order_step s (snd (record_failure cid code retryable 3 s)).

Abbreviation steps := (rtc order_step).

Definition stepping {A} (m : OrderM A) : Prop := forall s, steps s (snd (m s)).

Lemma stepping_ret {A} (a : A) : stepping (ret a).
Proof. intros s. apply rtc_refl. Qed.
Lemma stepping_raise {A} c msg : stepping (raise (A:=A) c msg).
Proof. intros s. apply rtc_refl. Qed.
Lemma stepping_lift {A} (o : outcome A) : stepping (lift_outcome o).
Proof. intros s. apply rtc_refl. Qed.
Lemma stepping_gets {A} (f : OrderStore -> A) : stepping (gets f).
Proof. intros s. apply rtc_refl. Qed.
Lemma stepping_bind {A B} (m : OrderM A) (k : A -> OrderM B) : stepping m -> (forall a, stepping (k a)) -> stepping (bind m k).
Proof.
  intros Hm Hk s. unfold bind. specialize (Hm s). destruct (m s) as [[a|e] s']; [|done]. etrans; [exact Hm|]. apply Hk.
Qed.
Lemma stepping_when b (m : OrderM unit) : stepping m -> stepping (when b m).
Proof. destruct b; [done|]. intros _. apply stepping_ret. Qed.
Lemma stepping_if {A} (b : bool) (m n : OrderM A) : stepping m -> stepping n -> stepping (if b then m else n).
Proof. by destruct b. Qed.
Lemma stepping_count name : stepping (count name).
Proof. intros s. apply rtc_once, step_count. Qed.
Lemma stepping_audit oid event details : event <> "command_failure" -> stepping (audit oid event details).
Proof. intros H s. by apply rtc_once, step_audit. Qed.
Lemma stepping_order oid f : keeps_order f -> stepping (update_order oid f).
Proof. intros H s. by apply rtc_once, step_order. Qed.
Lemma stepping_command cid f : keeps_command f -> stepping (update_command cid f).
Proof. intros H s. by apply rtc_once, step_command. Qed.
Lemma stepping_failure cid code retryable : stepping (record_failure cid code retryable 3).
Proof. intros s. apply rtc_once, step_failure. Qed.
Lemma stepping_get oid : stepping (get oid).
Proof. intros s. unfold get, bind, gets, id. destruct (orders s !! oid); apply rtc_refl. Qed.

Lemma stepping_command_op cid oid : stepping (command cid oid).
Proof.
  unfold command. apply stepping_bind; [apply stepping_get|]. intros record s. unfold bind at 1, gets, id.
  destruct (commands s !! cid) as [c|] eqn:Hc; [destruct (negb _); apply rtc_refl|].
  eapply rtc_l; [by apply (step_new_command s cid oid (or_workflow_code record))|].
  assert (stepping (count "orders_dispatched_total" ;;; audit oid "command_created" [("command_id", JStr cid)] ;;;
    ret (new_command cid oid (or_workflow_code record)))) as Hrest.
  { apply stepping_bind; [apply stepping_count|]. intros _. apply stepping_bind; [by apply stepping_audit|]. intros _. apply stepping_ret. }
  exact (Hrest (set_command (new_command cid oid (or_workflow_code record)) s)).
Qed.

Lemma stepping_create o : o ∈ received -> stepping (create o).
Proof.
  intros Ho s. unfold create. unfold bind at 1, gets, id. destruct (truthy_str _) as [oid|] eqn:Hk.
  - destruct (orders s !! oid) as [e|]; [|apply rtc_refl]. destruct (negb _); [apply rtc_refl|]. apply rtc_once, step_count.
  - eapply rtc_l; [by apply (step_new_order s o)|].
    assert (stepping (count "orders_received_total" ;;;
      count (if String.eqb (ap_status (o_approval o)) "approved" then "orders_approved_total" else "orders_validated_total") ;;;
      audit (o_order_id o) "order_received" [("trace_id", JStr (o_trace_id o))] ;;; ret (new_record o, false))) as Hrest.
    { do 2 (apply stepping_bind; [apply stepping_count|]; intros _). apply stepping_bind; [by apply stepping_audit|]. intros _. apply stepping_ret. }
    exact (Hrest (insert_order o s)).
Qed.

Lemma stepping_result cid status : stepping (record_result cid status).
Proof.
  unfold record_result. apply stepping_bind; [apply stepping_gets|]. intros s. destruct (commands s !! cid); [|apply stepping_raise].
  apply stepping_if; [apply stepping_ret|]. apply stepping_bind; [apply stepping_get|]. intros r.
  repeat (apply stepping_bind; [first [by apply stepping_command | by apply stepping_order | apply stepping_count | by apply stepping_audit]|intros _]).
  apply stepping_ret.
Qed.
End Steps.

Create HintDb orders.
#[export] Hint Resolve stepping_ret stepping_raise stepping_lift stepping_gets stepping_when stepping_if stepping_count
  stepping_failure stepping_get stepping_command_op stepping_result : orders.

(** walk over a route *)
Ltac stepping :=
  repeat first
  [ solve [auto with orders]
  | apply stepping_bind; [|intros ?]
  | apply stepping_if
  | apply stepping_audit; discriminate
  | apply stepping_order; by intros []
  | apply stepping_command; by intros []
  | match goal with |- stepping _ (match ?x with _ => _ end) => destruct x end ].

Lemma stepping_current_record rs oid : stepping rs (current_record oid).
Proof. unfold current_record. stepping. Qed.
Lemma stepping_current_command rs cid : stepping rs (current_command cid).
Proof. unfold current_command. stepping. Qed.
Lemma stepping_accepted rs oid more : stepping rs (accepted_reply oid more).
Proof. unfold accepted_reply. stepping. Qed.
#[export] Hint Resolve stepping_current_record stepping_current_command stepping_accepted : orders.

Definition received_orders (cs : list (OrderCall * Headers)) : list OrderEnvelope :=
  concat (map (fun c => match fst c with ReceiveOrder o => [o] | _ => [] end) cs).

(** every route is a sequence of steps *)
Lemma order_call_steps st rs c h :
  (forall o, c = ReceiveOrder o -> o ∈ rs) -> stepping rs (order_call st c h).
Proof.
  intros Hrs. destruct c; cbn [order_call];
    unfold receive_order, approve_order, reject_order, dispatch_order, receive_result, receive_error, receive_progress,
      receive_dead_letter, reconcile_order, create_command, start_command, progress_command, command_result, command_error,
      command_dead_letter, command_reconcile, command_route, receive_result, receive_error, receive_dead_letter, reconcile_body, integrity.
  1: apply stepping_bind; [auto with orders|]; intros _; apply stepping_bind; [by apply stepping_create, Hrs|]; intros; auto with orders.
  all: stepping.
Qed.

Lemma order_run_steps st rs cs s :
  (forall o, o ∈ received_orders cs -> o ∈ rs) -> rtc (order_step rs) s (snd (order_run st cs s)).
Proof.
  revert s. induction cs as [|[c h] cs IH]; intros s Hrs; [apply rtc_refl|]. cbn [order_run].
  assert (stepping rs (order_call st c h)) as Hc.
  { apply order_call_steps. intros o ->. apply Hrs. unfold received_orders. simpl. set_solver. }
  specialize (Hc s). destruct (order_call st c h s) as [r s1]. cbn [snd] in Hc. specialize (IH s1).
  destruct (order_run st cs s1) as [rs' s2]. cbn [snd] in *. etrans; [exact Hc|]. apply IH.
  intros o Ho. apply Hrs. unfold received_orders in *. simpl. set_solver.
Qed.

(** ** What each step keeps *)

Definition failure_event (oid cid code : string) (can_retry : bool) : AuditEvent := {|
  ae_order_id := oid; ae_event := "command_failure";
  ae_details := [("command_id", JStr cid); ("error_code", JStr code); ("retryable", JBool can_retry)] |}.

Lemma update_command_run cid f s c :
  commands s !! cid = Some c ->
  update_command cid f s = (Ret tt, mkOrderStore (orders s) (by_idempotency s) (<[cid := f c]> (commands s)) (audit_events s) (metrics s)).
Proof. unfold update_command, modify. by intros ->. Qed.
Lemma update_order_run oid f s r :
  orders s !! oid = Some r ->
  update_order oid f s = (Ret tt, mkOrderStore (<[oid := f r]> (orders s)) (by_idempotency s) (commands s) (audit_events s) (metrics s)).
Proof. unfold update_order, modify. by intros ->. Qed.

(** a failure of a known command: its attempt is counted and the event written *)
Lemma failure_effect cid code retryable s :
  let s' := snd (record_failure cid code retryable 3 s) in
  s' = s \/
  exists c order, commands s !! cid = Some c /\ orders s !! oc_order_id c = Some order /\
    let can_retry := retryable && negb (security_failure code) && (oc_attempts c + 1 <? 3) in
    (exists c', commands s' = <[cid := c']> (commands s) /\ oc_attempts c' = oc_attempts c + 1 /\ oc_order_id c' = oc_order_id c /\
       oc_status c' = if can_retry then RETRY_SCHEDULED else if retryable then DEAD_LETTER else FAILED_FINAL) /\
    (exists f, keeps_order f /\ orders s' = <[oc_order_id c := f order]> (orders s)) /\
    by_idempotency s' = by_idempotency s /\
    audit_events s' = audit_events s ++ [failure_event (or_order_id order) cid code can_retry].
Proof.
  cbn zeta. unfold record_failure. rewrite (bind_run (gets id) _ s s s) by done.
  destruct (commands s !! cid) as [c|] eqn:Hc; [|by left].
  destruct (orders s !! oc_order_id c) as [order|] eqn:Ho.
  2: { left. unfold bind, get, bind, gets, id. by rewrite Ho. }
  right. exists c, order. split; [done|]. split; [done|].
  rewrite (bind_run _ _ s order s) by (unfold get, bind, gets, id; by rewrite Ho).
  cbv beta zeta. erewrite bind_run by (by apply update_command_run). erewrite bind_run by (apply update_command_run, lookup_insert_eq).
  erewrite bind_run by (by apply update_order_run). set (cr := retryable && _ && _).
  destruct cr, retryable, (security_failure code);
    (split; [eexists; split; [cbn; by rewrite insert_insert_eq|by split_and!]|]; split; [eexists; split; [|reflexivity]; by intros []|by split]).
Qed.

(** the failures of a command that were answered with a retry *)
Definition retried (cid : string) (e : AuditEvent) : bool :=
  String.eqb (ae_event e) "command_failure" &&
  match dict_get "command_id" (ae_details e), dict_get "retryable" (ae_details e) with
  | Some (JStr x), Some (JBool true) => String.eqb x cid
  | _, _ => false
  end.
Definition retries (cid : string) (s : OrderStore) : Z := Z.of_nat (length (List.filter (retried cid) (audit_events s))).
Definition attempts_of (s : OrderStore) (cid : string) : Z := match commands s !! cid with Some c => oc_attempts c | None => 0 end.

Definition retries_ok (s : OrderStore) : Prop := forall cid, retries cid s <= attempts_of s cid /\ retries cid s <= 2.

Lemma retries_app cid s e l : audit_events s = l ++ [e] ->
  retries cid s = Z.of_nat (length (List.filter (retried cid) l)) + Z.b2z (retried cid e).
Proof.
  intros H. unfold retries. rewrite H, List.filter_app, length_app. simpl. destruct (retried cid e); simpl; lia.
Qed.

Lemma retries_ok_step rs s s' : retries_ok s -> order_step rs s s' -> retries_ok s'.
Proof.
  intros H Hstep. destruct Hstep as [name|oid event details Hne|oid f Hf|cid f Hf|cid oid w Hnone|o Ho Hk|cid code retryable].
  - exact H.
  - intros c. rewrite (retries_app c (snd (audit oid event details s)) _ _ eq_refl). unfold retried at 2 4. cbn [ae_event].
    destruct (String.eqb_spec event "command_failure"); [done|]. cbn [andb Z.b2z]. rewrite !Z.add_0_r. exact (H c).
  - unfold update_order, modify. cbn [snd]. destruct (orders s !! oid); exact H.
  - unfold update_command, modify. cbn [snd]. destruct (commands s !! cid) as [c0|] eqn:Hc; [|exact H].
    intros c. destruct (H c) as [H1 H2]. split; [|exact H2]. unfold attempts_of in *. cbn [commands]. unfold retries in *. cbn [audit_events].
    destruct (decide (c = cid)) as [->|Hne]; [rewrite lookup_insert_eq; rewrite Hc in H1; by rewrite (proj2 (Hf c0))|by rewrite lookup_insert_ne].
  - intros c. destruct (H c) as [H1 H2]. split; [|exact H2]. unfold attempts_of, retries, set_command, new_command in *. cbn in *.
    destruct (decide (c = cid)) as [->|Hne]; [rewrite lookup_insert_eq; by rewrite Hnone in H1|by rewrite lookup_insert_ne].
  - exact H.
  - pose proof (failure_effect cid code retryable s) as E. cbn zeta in E. destruct (record_failure cid code retryable 3 s) as [r s1]. cbn [snd] in *.
    destruct E as [->|(c & order & Hc & _ & (c' & Hcs & Hn & _) & _ & _ & Haudit)]; [exact H|]. intros x. destruct (H x) as [H1 H2].
    rewrite (retries_app x _ _ _ Haudit). unfold attempts_of in *. rewrite Hcs. unfold retries in *.
    assert (forall b, Z.b2z (retried x (failure_event (or_order_id order) cid code b)) = if b && String.eqb cid x then 1 else 0) as -> by (by intros []).
    destruct (decide (x = cid)) as [->|Hne].
    + rewrite lookup_insert_eq, String.eqb_refl. rewrite Hc in H1. rewrite Hn.
      destruct retryable, (security_failure code), (Z.ltb_spec (oc_attempts c + 1) 3); cbn; lia.
    + rewrite lookup_insert_ne by done. assert (String.eqb cid x = false) as -> by (apply String.eqb_neq; congruence).
      destruct (_ && _); cbn; lia.
Qed.

(** ** What intake recorded *)

Definition intake (key oid hash : string) (s : OrderStore) : Prop :=
  by_idempotency s !! key = Some oid /\ exists r, orders s !! oid = Some r /\ or_content_hash r = hash.

Lemma intake_step rs key oid hash s s' :
  oid <> "" -> (forall o, o ∈ rs -> o_order_id o = oid -> o_idempotency_key o = key) ->
  intake key oid hash s -> order_step rs s s' -> intake key oid hash s'.
Proof.
  intros Hne Hrs [Hk (r & Hr & Hh)] Hstep. unfold intake.
  destruct Hstep as [name|oid' event details _|oid' f Hf|cid f _|cid oid' w _|o Ho Hnew|cid code retryable]; try (split; [exact Hk|by exists r]).
  - unfold update_order, modify. cbn [snd]. destruct (orders s !! oid') as [r'|] eqn:Hr'; cbn [by_idempotency orders]; (split; [exact Hk|]); [|by exists r].
    destruct (decide (oid = oid')) as [->|Hd]; [|rewrite lookup_insert_ne by done; by exists r].
    rewrite lookup_insert_eq. exists (f r'). split; [done|]. rewrite (proj2 (Hf r')). congruence.
  - unfold update_command, modify. cbn [snd]. destruct (commands s !! cid); (split; [exact Hk|by exists r]).
  - cbn [insert_order by_idempotency orders]. assert (o_idempotency_key o <> key) as Hkey.
    { intros E. rewrite E, Hk in Hnew. unfold truthy_str in Hnew. by destruct oid. }
    assert (o_order_id o <> oid) as Hoid by (intros E; by apply Hkey, Hrs). rewrite !lookup_insert_ne by done. split; [done|by exists r].
  - pose proof (failure_effect cid code retryable s) as E. cbn zeta in E. destruct (record_failure cid code retryable 3 s) as [x s1]. cbn [snd] in *.
    destruct E as [->|(c & order & Hc & Ho & _ & (f & Hf & Hord) & Hby & _)]; [split; [exact Hk|by exists r]|].
    rewrite Hby, Hord. split; [exact Hk|]. destruct (decide (oid = oc_order_id c)) as [->|Hd]; [|rewrite lookup_insert_ne by done; by exists r].
    rewrite lookup_insert_eq. exists (f order). split; [done|]. rewrite (proj2 (Hf order)). congruence.
Qed.

(** an invariant of the steps holds after every history *)
Lemma invariant_run (P : OrderStore -> Prop) st rs cs s :
  (forall s s', P s -> order_step rs s s' -> P s') -> (forall o, o ∈ received_orders cs -> o ∈ rs) -> P s ->
  P (snd (order_run st cs s)).
Proof.
  intros Hstep Hrs Hs. pose proof (order_run_steps st rs cs s Hrs) as Hsteps. revert Hs. generalize (snd (order_run st cs s)) Hsteps.
  clear -Hstep. intros s' H. induction H as [|x y z Hxy Hyz IH]; [done|]. intros Hx. apply IH. by eapply Hstep.
Qed.

(** ** Retries *)

(** No command is retried more than twice: over any history of calls, however they
    are interleaved, at most two of its failures are answered with a retry, and each
    was one of its counted attempts *)
Theorem retries_bounded st cs cid :
  let s := snd (order_run st cs empty_store) in
  retries cid s <= 2 /\ retries cid s <= attempts_of s cid.
Proof.
  cbn zeta. assert (retries_ok (snd (order_run st cs empty_store))) as H; [|destruct (H cid); lia].
  apply (invariant_run retries_ok st (received_orders cs)); [apply retries_ok_step|done|].
  intros c. by unfold retries, attempts_of, empty_store.
Qed.

(** ** Intake *)

Lemma integrity_Ret st body h : verify_body_integrity st body h = Ret tt -> integrity st body h = ret tt.
Proof. unfold integrity, lift_outcome. by intros ->. Qed.

(** Intake is idempotent while the order is not received under another key: after an
    order was taken in, whatever happens to it, its idempotency key with the same
    content is answered as a duplicate and only counted, and with another content it
    is refused with 409 and nothing changes *)
Theorem order_intake_idempotent st cs o h o2 h2 s1 r s2 :
  receive_order st o h s1 = (Ret (RecordReply r false), s2) ->
  o_order_id o <> "" -> o_idempotency_key o2 = o_idempotency_key o ->
  (forall x, x ∈ received_orders cs -> o_order_id x = o_order_id o -> o_idempotency_key x = o_idempotency_key o) ->
  verify_body_integrity st (order_dump o2) h2 = Ret tt ->
  let s3 := snd (order_run st cs s2) in
  (content_hash o2 = content_hash o -> exists r3, or_content_hash r3 = content_hash o /\
     receive_order st o2 h2 s3 = (Ret (RecordReply r3 true), snd (count "order_duplicate_suppression_total" s3))) /\
  (content_hash o2 <> content_hash o ->
     receive_order st o2 h2 s3 = (Exc (Exn (HTTPException 409) "duplicate idempotency key conflict"), s3)).
Proof.
  intros Hfirst Hne Hkey Hcs Hver. cbn zeta.
  assert (intake (o_idempotency_key o) (o_order_id o) (content_hash o) s2) as I.
  { unfold receive_order, integrity, lift_outcome, bind in Hfirst. destruct (verify_body_integrity _ _ _) as [[]|]; [|done].
    unfold create, bind, gets, id in Hfirst. destruct (truthy_str (by_idempotency s1 !! o_idempotency_key o)) as [oid|] eqn:Hk.
    - destruct (orders s1 !! oid) as [e|]; [|done]. by destruct (negb _).
    - cbn in Hfirst. injection Hfirst as <- <-. unfold intake. cbn [by_idempotency orders]. rewrite !lookup_insert_eq. split; [done|by eexists]. }
  pose proof (invariant_run (intake (o_idempotency_key o) (o_order_id o) (content_hash o)) st (received_orders cs) cs s2) as Hinv.
  destruct Hinv as [Hk (r3 & Hr & Hh)]; [intros s s'; by apply intake_step|done|exact I|].
  revert Hk Hr. generalize (snd (order_run st cs s2)) as s3. intros s3 Hk Hr.
  unfold receive_order. rewrite (integrity_Ret _ _ _ Hver). unfold create, bind, gets, id. cbn [ret]. rewrite Hkey, Hk.
  assert (truthy_str (Some (o_order_id o)) = Some (o_order_id o)) as -> by (unfold truthy_str; by destruct (o_order_id o)).
  rewrite Hr, Hh. split; intros Hc.
  - exists r3. split; [done|]. rewrite Hc, String.eqb_refl. done.
  - apply not_eq_sym, String.eqb_neq in Hc. by rewrite Hc.
Qed.

(** ** Dispatch *)

(** the same order with another approval *)
Definition with_approval (a : Approval) (o : OrderEnvelope) : OrderEnvelope := {|
  o_schema_version := o_schema_version o; o_command_id := o_command_id o; o_event_id := o_event_id o;
  o_order_id := o_order_id o; o_order_type := o_order_type o; o_source_system := o_source_system o;
  o_organization_id := o_organization_id o; o_customer_reference := o_customer_reference o;
  o_workflow_code := o_workflow_code o; o_workflow_version := o_workflow_version o; o_approval := a;
  o_approval_required := o_approval_required o; o_approval_status := o_approval_status o;
  o_approval_reference := o_approval_reference o; o_approval_content_hash := o_approval_content_hash o;
  o_payload := o_payload o; o_requested_actions := o_requested_actions o; o_approved_actions := o_approved_actions o;
  o_constraints := o_constraints o; o_idempotency_key := o_idempotency_key o; o_correlation_id := o_correlation_id o;
  o_trace_id := o_trace_id o; o_requested_at := o_requested_at o; o_expires_at := o_expires_at o |}.

Lemma hashed_fields a o :
  List.filter (fun kv => negb (mem_string (fst kv) approval_fields)) (order_dump (with_approval a o)) =
  List.filter (fun kv => negb (mem_string (fst kv) approval_fields)) (order_dump o).
Proof. vm_compute. reflexivity. Qed.
Lemma content_hash_approval a o : content_hash (with_approval a o) = content_hash o.
Proof. unfold content_hash. by rewrite hashed_fields. Qed.
#[local] Opaque content_hash.

(** what [validate_for_dispatch] asks of an order besides its approval *)
Definition dispatchable (st : OrderSettings) (now : instant) (o : OrderEnvelope) : Prop :=
  ts_aware (o_expires_at o) = true /\ now < ts_instant (o_expires_at o) /\ o_workflow_code o ∈ ALLOWED_WORKFLOWS /\
  (forall a, a ∈ o_requested_actions o -> a ∈ ALLOWED_ACTIONS) /\
  (is_synthetic o = true \/ order_orchestration_enabled st = true /\ n8n_order_dispatch_enabled st = true).

Lemma actions_disjoint a : a ∈ ALLOWED_ACTIONS -> a ∉ BLOCKED_ACTIONS.
Proof. revert a. apply list.Forall_forall. refine (bool_decide_unpack _ _). vm_compute. exact I. Qed.

Lemma validate_exact st now o :
  validate_for_dispatch st now o = Ret tt <->
  dispatchable st now o /\ (required (o_approval o) = true -> ap_status (o_approval o) = "approved") /\
  ap_content_hash (o_approval o) = content_hash o.
Proof.
  unfold validate_for_dispatch, dispatchable. destruct (ts_aware (o_expires_at o)); cbn [negb]; [|split; [discriminate|]; intros ((? & _) & _); discriminate].
  destruct (Z.leb_spec (ts_instant (o_expires_at o)) now); [split; [done|]; intros ((_ & ? & _) & _); lia|].
  destruct (mem_string (o_workflow_code o) ALLOWED_WORKFLOWS) eqn:Hw.
  2: { split; [done|]. intros ((_ & _ & Hin & _) & _). apply mem_string_spec in Hin. congruence. }
  apply mem_string_spec in Hw. cbn [negb].
  destruct (forallb (fun a => mem_string a ALLOWED_ACTIONS) (o_requested_actions o)) eqn:Hall.
  2: { split; [by destruct (existsb _ _)|]. intros ((_ & _ & _ & Hin & _) & _). apply not_true_iff_false in Hall. exfalso. apply Hall.
       apply forallb_forall. intros a Ha. apply mem_string_spec, Hin. by apply list_elem_of_In. }
  assert (forall a, a ∈ o_requested_actions o -> a ∈ ALLOWED_ACTIONS) as Hact.
  { intros a Ha. rewrite forallb_forall in Hall. apply mem_string_spec, Hall. by apply list_elem_of_In. }
  assert (existsb (fun a => mem_string a BLOCKED_ACTIONS) (o_requested_actions o) = false) as ->.
  { apply not_true_iff_false. intros (a & Ha & Hb)%existsb_exists. apply mem_string_spec in Hb. apply list_elem_of_In, Hact in Ha.
    by apply actions_disjoint in Ha. }
  destruct (required (o_approval o) && negb (String.eqb (ap_status (o_approval o)) "approved")) eqn:Happ.
  { split; [done|]. intros (_ & Hr & _). apply andb_prop in Happ as [Hr' Hs]. apply Hr in Hr'. by rewrite Hr' in Hs. }
  assert (required (o_approval o) = true -> ap_status (o_approval o) = "approved") as Hreq.
  { intros Hr. rewrite Hr in Happ. cbn [andb] in Happ. apply negb_false_iff in Happ. by apply String.eqb_eq. }
  destruct (String.eqb_spec (ap_content_hash (o_approval o)) (content_hash o)) as [Hh|Hh]; cbn [negb].
  2: { split; [discriminate|intros (_ & _ & He); by destruct Hh]. }
  destruct (is_synthetic o); cbn [negb andb].
  { rewrite andb_false_r. split; intros _; [|reflexivity].
    exact (conj (conj eq_refl (conj H (conj Hw (conj Hact (or_introl eq_refl))))) (conj Hreq Hh)). }
  destruct (order_orchestration_enabled st), (n8n_order_dispatch_enabled st); cbn [negb andb].
  { split; intros _; [|reflexivity].
    exact (conj (conj eq_refl (conj H (conj Hw (conj Hact (or_intror (conj eq_refl eq_refl)))))) (conj Hreq Hh)). }
  all: split; [discriminate|]; intros ((_ & _ & _ & _ & [Hf|[Hf Hg]]) & _); discriminate.
Qed.

(** where a dispatch leaves the record *)
Lemma dispatch_run st o h now now2 s record :
  verify_body_integrity st (order_dump o) h = Ret tt -> orders s !! o_order_id o = Some record ->
  validate_for_dispatch st now o = Ret tt -> or_content_hash record = content_hash o ->
  (forall c, commands s !! o_command_id o = Some c -> oc_order_id c = o_order_id o) ->
  exists s', dispatch_order st o h now now2 s =
    (Ret (Accepted ([("accepted"%string, JBool true); ("status"%string, JStr "DISPATCHED_TO_N8N")] ++
       [("command_id"%string, JStr (o_command_id o)); ("trace_id"%string, JStr (o_trace_id o))])), s') /\
    orders s' !! o_order_id o = Some (dispatched (o_workflow_code o) (isoformat now2) record) /\
    exists c, commands s' !! o_command_id o = Some c /\ oc_order_id c = o_order_id o /\ oc_status c = DISPATCHED_TO_N8N.
Proof.
  intros Hver Hr Hval Hh Hcmd. unfold dispatch_order. rewrite (integrity_Ret _ _ _ Hver), Hval.
  rewrite (bind_run _ _ s tt s) by done. rewrite (bind_run _ _ s record s) by (unfold get, bind, gets, id; by rewrite Hr).
  rewrite (bind_run _ _ s tt s) by done. rewrite Hh, String.eqb_refl. cbn [negb].
  erewrite bind_run by (by apply update_order_run). set (s1 := mkOrderStore _ _ _ _ _).
  assert (exists c s2, command (o_command_id o) (o_order_id o) s1 = (Ret c, s2) /\ commands s2 !! o_command_id o = Some c /\
    oc_order_id c = o_order_id o /\ orders s2 = orders s1) as (c & s2 & Hc & Hin & Hoid & Hord).
  { unfold command, get, bind, gets, id, s1. cbn [orders commands]. rewrite lookup_insert_eq. cbn [ret commands].
    destruct (commands s !! o_command_id o) as [c|] eqn:Hc.
    - rewrite (Hcmd c eq_refl), String.eqb_refl. cbn [negb ret]. exists c. eexists. split; [reflexivity|]. cbn. rewrite Hc. by auto.
    - cbn. do 2 eexists. split; [reflexivity|]. cbn. rewrite lookup_insert_eq. done. }
  rewrite (bind_run _ _ _ _ _ Hc). erewrite bind_run by (by apply update_command_run).
  unfold accepted_reply. set (s3 := mkOrderStore (orders s2) _ _ _ _).
  assert (orders s3 !! o_order_id o = Some (dispatched (o_workflow_code o) (isoformat now2) record)) as Hs3
    by (unfold s3, s1 in *; cbn [orders]; rewrite Hord; apply lookup_insert_eq).
  rewrite (bind_run _ _ s3 (dispatched (o_workflow_code o) (isoformat now2) record) s3) by (unfold get, bind, gets, id; by rewrite Hs3).
  exists s3. split; [reflexivity|]. split; [exact Hs3|]. exists (with_command_status DISPATCHED_TO_N8N c).
  split; [unfold s3; cbn [commands]; apply lookup_insert_eq|]. by split.
Qed.

(** A dispatch is accepted exactly when its body is intact, the order was taken in
    with the same content, the order is unexpired, allowlisted and enabled (or
    synthetic), the approval in the request is a granted one or none is required, its
    hash is the content's, and the command id is not another order's *)
Theorem dispatch_exact st o h now now2 s :
  (exists fields s', dispatch_order st o h now now2 s = (Ret (Accepted fields), s')) <->
  verify_body_integrity st (order_dump o) h = Ret tt /\
  (exists record, orders s !! o_order_id o = Some record /\ or_content_hash record = content_hash o) /\
  dispatchable st now o /\ (required (o_approval o) = true -> ap_status (o_approval o) = "approved") /\
  ap_content_hash (o_approval o) = content_hash o /\
  (forall c, commands s !! o_command_id o = Some c -> oc_order_id c = o_order_id o).
Proof.
  split.
  - intros (fields & s' & H). unfold dispatch_order in H.
    apply bind_Ret_inv in H as ([] & s1 & Hv & H). unfold integrity, lift_outcome in Hv. injection Hv as Hv <-. split; [done|].
    apply bind_Ret_inv in H as (record & s1 & Hg & H). unfold get, bind, gets, id in Hg.
    destruct (orders s !! o_order_id o) as [r|] eqn:Hr; [|done]. injection Hg as <- <-.
    apply bind_Ret_inv in H as ([] & s1 & Hval & H). unfold lift_outcome in Hval. injection Hval as Hval <-. apply validate_exact in Hval as (? & ? & ?).
    destruct (String.eqb_spec (or_content_hash r) (content_hash o)) as [Hh|]; [|done]. cbn [negb] in H. split; [exists r; split; [reflexivity|exact Hh]|].
    split_and!; [assumption..|]. apply bind_Ret_inv in H as ([] & s1 & Hu & H). rewrite (update_order_run _ _ _ _ Hr) in Hu. injection Hu as <-.
    apply bind_Ret_inv in H as (c & s2 & Hc & _). intros c0 Hc0. unfold command, get, bind, gets, id in Hc. cbn [orders commands] in Hc.
    rewrite lookup_insert_eq in Hc. cbn [ret commands] in Hc. rewrite Hc0 in Hc.
    destruct (String.eqb_spec (oc_order_id c0) (o_order_id o)); [done|by cbn in Hc].
  - intros (Hv & (record & Hr & Hh) & Hd & Ha & Hah & Hcmd). assert (validate_for_dispatch st now o = Ret tt) as Hval by (apply validate_exact; exact (conj Hd (conj Ha Hah))).
    destruct (dispatch_run st o h now now2 s record Hv Hr Hval Hh Hcmd) as (s' & -> & _). by do 2 eexists.
Qed.

(** The approval of the order is never asked for: an order in whatever state, not
    approved or rejected, is dispatched by a request that carries the order with an
    approval of its own that is not required *)
Theorem approval_bypass st o h now now2 s record :
  orders s !! o_order_id o = Some record -> or_content_hash record = content_hash o -> dispatchable st now o ->
  (forall c, commands s !! o_command_id o = Some c -> oc_order_id c = o_order_id o) ->
  let waived := with_approval {| required := false; ap_status := "pending"; approved_by := None; approved_at := None;
                                 ap_content_hash := content_hash o |} o in
  verify_body_integrity st (order_dump waived) h = Ret tt ->
  exists reply s', dispatch_order st waived h now now2 s = (Ret reply, s') /\
    exists record', orders s' !! o_order_id o = Some record' /\ or_status record' = DISPATCHED_TO_N8N /\ or_approval record' = or_approval record.
Proof.
  intros Hr Hh Hd Hcmd waived Hver.
  assert (content_hash waived = content_hash o) as Hsame by apply content_hash_approval.
  assert (validate_for_dispatch st now waived = Ret tt) as Hval.
  { apply validate_exact. split; [exact Hd|]. split; [discriminate|]. rewrite Hsame. reflexivity. }
  destruct (dispatch_run st waived h now now2 s record Hver Hr Hval (eq_trans Hh (eq_sym Hsame)) Hcmd) as (s' & E & Hrec & _).
  rewrite E. do 2 eexists. split; [reflexivity|]. eexists. split; [exact Hrec|split; reflexivity].
Qed.

(** ** Integrity *)

(** a request is intact when its four headers are there, the hash is the body's, and,
    if a secret is configured, the signature is the secret's over the time stamp, the
    nonce and the hash; neither the time stamp nor the nonce is compared with anything *)
Lemma integrity_exact st body h :
  verify_body_integrity st body h = Ret tt <->
  exists t n sig, truthy_str (x_timestamp h) = Some t /\ truthy_str (x_nonce h) = Some n /\ truthy_str (x_signature h) = Some sig /\
    truthy_str (x_body_sha256 h) = Some (body_sha256 body) /\
    (middleware_secret st <> "" -> sig = hmac_sha256_hex (middleware_secret st) (t +:+ "." +:+ n +:+ "." +:+ body_sha256 body)).
Proof.
  unfold verify_body_integrity.
  destruct (truthy_str (x_timestamp h)) as [t|], (truthy_str (x_nonce h)) as [n|], (truthy_str (x_signature h)) as [sig|],
    (truthy_str (x_body_sha256 h)) as [b|]; try (split; [done|by intros (? & ? & ? & ? & ? & ? & ? & _)]).
  destruct (String.eqb_spec (body_sha256 body) b) as [<-|Hb]; cbn [negb].
  2: { split; [done|]. intros (? & ? & ? & _ & _ & _ & [= ->] & _). done. }
  destruct (middleware_secret st) as [|a sec] eqn:Hsec; cbn [str_nonempty andb].
  - split; [intros _|done]. by exists t, n, sig.
  - destruct (String.eqb_spec (hmac_sha256_hex (String a sec) (t +:+ "." +:+ n +:+ "." +:+ body_sha256 body)) sig) as [<-|Hs]; cbn [negb].
    + split; [intros _|done]. by exists t, n, (hmac_sha256_hex (String a sec) (t +:+ "." +:+ n +:+ "." +:+ body_sha256 body)).
    + split; [done|]. intros (? & ? & ? & [= <-] & [= <-] & [= <-] & _ & Hsig). by destruct Hs; rewrite Hsig.
Qed.
