(* ===== verification/SecurityProps.v ===== *)
(** * Properties of machine tokens and signed webhooks

    The exact conditions under which a token, a tenant and a signature pass. *)

From Stdlib Require Import Ascii QArith Qabs.
From S2P Require Import Prelude Json Sha256 Principal AutomationPolicy Security.
Local Open Scope Z_scope.
#[local] Opaque sha256_hex hmac_sha256.

(** A bearer token is accepted exactly when it decodes to claims issued to
    the expected client, with the required scope among its scopes and a
    lifetime that is positive and at most 300 seconds; the claims returned are
    the decoded ones. *)
Theorem token_accepted_exactly to_float jwt_decode authorization client scope claims :
  verify to_float jwt_decode authorization client scope = Ret claims <->
  str_lower (fst (partition_space authorization)) = "bearer" /\ snd (partition_space authorization) <> "" /\
  jwt_decode (snd (partition_space authorization)) = Ret claims /\
  is_value (dict_get "azp" claims) (JStr client) = true /\
  (exists scopes, claimed_scopes claims = Some scopes /\ mem_string scope scopes = true) /\
  exists iat exp, strict_numeric_timestamp to_float claims "iat" = Ret iat /\
    strict_numeric_timestamp to_float claims "exp" = Ret exp /\ (iat < exp)%Q /\ (exp - iat <= 300)%Q.
Proof.
  unfold verify, verify_sync. destruct (partition_space authorization) as [scheme token]. simpl.
  destruct (String.eqb_spec (str_lower scheme) "bearer") as [->|Hs]; simpl; [|split; [done|by intros (? & _)]].
  destruct token as [|c token']; simpl; [split; [done|by intros (_ & ? & _)]|].
  set (token := String c token'). destruct (jwt_decode token) as [cl|e]; [|split; [by case_match|by intros (_ & _ & ? & _)]].
  unfold validate_claims.
  assert (Hout : forall (o : outcome unit),
    (match match o with Ret _ => Ret cl | Exc e => Exc e end with
     | Ret claims0 => Ret claims0
     | Exc e => if isinstance e ["SecurityError"] || negb (is_exception e) then Exc e
                else Exc (Exn AuthenticationError "invalid bearer token")
     end = Ret claims) <-> o = Ret tt /\ cl = claims).
  { intros [[]|e]; split; try (by intros [? ?]; simplify_eq); [by intros [=]|by case_match]. }
  rewrite Hout. clear Hout. split.
  - intros [H ->]. repeat split; try done.
    + destruct (is_value _ _); [done|]. by simpl in H.
    + destruct (is_value _ _); simpl in H; [|done]. destruct (claimed_scopes claims) as [scopes|]; [|done].
      exists scopes. split; [done|]. by destruct (mem_string scope scopes).
    + destruct (is_value _ _); simpl in H; [|done]. destruct (claimed_scopes claims) as [scopes|]; [|done].
      destruct (mem_string scope scopes); simpl in H; [|done].
      destruct (strict_numeric_timestamp to_float claims "iat") as [iat|]; [|done].
      destruct (strict_numeric_timestamp to_float claims "exp") as [exp|]; [|done].
      exists iat, exp. destruct (Qle_bool exp iat) eqn:H1; simpl in H; [done|].
      destruct (Qle_bool (exp - iat) 300) eqn:H2; simpl in H; [|done].
      split; [done|]. split; [done|]. split; [|by apply Qle_bool_iff].
      apply Qnot_le_lt. intros Hle. apply Qle_bool_iff in Hle. congruence.
  - intros (_ & _ & [= ->] & -> & (scopes & -> & Hm) & iat & exp & -> & -> & Hlt & Hle). split; [|done]. rewrite Hm. simpl.
    apply Qle_bool_iff in Hle. rewrite Hle. destruct (Qle_bool exp iat) eqn:H1; [|done].
    apply Qle_bool_iff in H1. exfalso. by apply (Qlt_not_le _ _ Hlt).
Qed.

(** [authorize_tenant] lets a token act for exactly the tenants it names,
    without the spaces around them, and never when it names the wildcard. *)
Theorem tenant_authorized_exactly claims tenant :
  authorize_tenant claims tenant = Ret tt <-> tenant ∈ authorized_tenants claims /\ "*" ∉ authorized_tenants claims.
Proof.
  unfold authorize_tenant. rewrite <- !mem_string_spec. destruct (mem_string "*" _); [split; [done|naive_solver]|].
  case_bool_decide as Hn; [rewrite Hn; simpl; split; [done|naive_solver]|].
  destruct (mem_string tenant _); simpl; naive_solver.
Qed.

(** the signature of a request: the prefix, 64 hexadecimal digits in either case,
    and the HMAC of the signed text under the producer's secret *)
Definition signature_ok (secret : list Z) (text supplied : string) : Prop :=
  starts_with "sha256=" supplied = true /\ String.length (str_lower (str_drop 7 supplied)) = 64%nat /\
  str_forallb is_hex_lower (str_lower (str_drop 7 supplied)) = true /\
  str_lower (str_drop 7 supplied) = expected_signature secret text.

Definition signed_request (headers : Headers) (body : string) : SignedRequest :=
  let value name := header_value name headers in {|
  sg_body_sha256 := sha256_hex body; sg_event_id := value "x-codestra-event-id";
  sg_event_type := value "x-codestra-event-type"; sg_source_client_id := value "x-codestra-source";
  sg_tenant_id := value "x-codestra-tenant-id"; sg_correlation_id := value "x-correlation-id";
  sg_idempotency_key := value "idempotency-key"; sg_timestamp := value "x-codestra-timestamp" |}.

Lemma missing_none {A} (p : A -> bool) l : List.filter (fun x => negb (p x)) l = [] <-> Forall (fun x => p x = true) l.
Proof.
  induction l as [|x l IH]; simpl; [by split|]. rewrite Forall_cons, <- IH. destruct (p x); simpl; naive_solver.
Qed.

(** C28: a webhook is accepted exactly when it carries every signed header, is
    JSON from the route's producer, is as old as the allowed skew at most, and is
    signed with the producer's secret over its method, path, time, event, source
    and the digest of its body; nothing else of the request is trusted. *)
Theorem signed_request_exact float_of_text iso_timestamp settings now method path body headers producer r :
  verify_signed_request float_of_text iso_timestamp settings now method path body headers producer = Ret r <->
  Forall (fun name => str_nonempty (header_value name headers) = true) SIGNED_HEADERS /\
  media_type (header_value "content-type" headers) = "application/json" /\
  header_value "x-codestra-source" headers = producer /\
  header_value "idempotency-key" headers = header_value "x-codestra-event-id" headers /\
  (exists observed, parse_timestamp float_of_text iso_timestamp (header_value "x-codestra-timestamp" headers) = Ret observed /\
     (Qabs (now - observed) <= inject_Z (webhook_max_clock_skew_seconds settings))%Q) /\
  (exists secret, webhook_secret (webhook_secrets settings) producer = Ret secret /\
     signature_ok secret (signed_text method path (header_value "x-codestra-timestamp" headers)
       (header_value "x-codestra-event-id" headers) producer (sha256_hex body)) (header_value "x-codestra-signature" headers)) /\
  r = signed_request headers body.
Proof.
  unfold verify_signed_request. cbv zeta. rewrite <- missing_none. case_bool_decide as Hm; cbn [negb orb]; [|split; [done|by intros (? & _)]].
  destruct (String.eqb_spec (media_type (header_value "content-type" headers)) "application/json") as [Hc|]; cbn [negb orb];
    [|split; [done|by intros (_ & ? & _)]].
  destruct (String.eqb_spec (header_value "x-codestra-source" headers) producer) as [Hs|]; cbn [negb orb]; [|split; [done|by intros (_ & _ & ? & _)]].
  destruct (String.eqb_spec (header_value "idempotency-key" headers) (header_value "x-codestra-event-id" headers)) as [Hi|]; cbn [negb orb];
    [|split; [done|by intros (_ & _ & _ & ? & _)]].
  destruct (parse_timestamp _ _ _) as [observed|e]; [|split; [done|intros (_ & _ & _ & _ & (? & ? & _) & _); done]].
  match goal with |- context [Qle_bool ?a ?b] => destruct (Qle_bool a b) eqn:Hq end; cbn [negb];
    [|split; [done|]; intros (_ & _ & _ & _ & (o & [= ->] & Ho) & _); apply Qle_bool_iff in Ho; congruence].
  apply Qle_bool_iff in Hq. destruct (webhook_secret _ _) as [secret|e]; [|split; [done|intros (_ & _ & _ & _ & _ & (? & ? & _) & _); done]].
  unfold signature_ok. rewrite Hs.
  destruct (starts_with "sha256=" _) eqn:Hp; cbn [negb orb]; [|split; [done|intros (_ & _ & _ & _ & _ & (? & [= ->] & Hx & _) & _); done]].
  destruct (Nat.eqb_spec (String.length (str_lower (str_drop 7 (header_value "x-codestra-signature" headers)))) 64) as [Hl|]; cbn [negb orb];
    [|split; [done|intros (_ & _ & _ & _ & _ & (? & [= ->] & _ & Hx & _) & _); done]].
  destruct (str_forallb is_hex_lower _) eqn:Hh; cbn [negb orb]; [|split; [done|intros (_ & _ & _ & _ & _ & (? & [= ->] & _ & _ & Hx & _) & _); done]].
  match goal with |- context [String.eqb ?a ?b] => destruct (String.eqb_spec a b) as [He|Hne] end; cbn [negb orb];
    [|split; [done|intros (_ & _ & _ & _ & _ & (? & [= ->] & _ & _ & _ & Hx) & _); done]].
  unfold signed_request. rewrite Hs. split.
  - intros [= <-]. repeat split; try done; [by exists observed|by exists secret].
  - by intros (_ & _ & _ & _ & _ & _ & ->).
Qed.
