(* ===== verification/AutomationJobProps.v ===== *)
(** * Properties of automation jobs

    What the automation store promises: its invariant, what a refused call
    does, who can write a leased job, how often a job is attempted, what ends
    it for good, when a dead letter is replayed, and which jobs can still be
    finished. *)

From stdpp Require Import pretty.
From S2P Require Import Prelude Json PyValue Clock Sha256 Uuid Commands Inbox.
From S2P Require Import Automation AutomationFacts.
Local Open Scope Z_scope.
#[local] Opaque sha256_hex uuid5 hmac_sha256.

(** C30: whatever calls are made, the automation store stays coherent: its jobs
    are filed under their identity, each with a dispatch that carries the
    token it can be claimed with; an offered job has no lease, a claimed one
    belongs to the client of its route and has either a lease or an end, never
    both; an open dead letter stands for a job in [DEAD_LETTER]; an approved
    approval was decided by someone other than its requester. *)
Theorem automation_store_coherent cs : automation_ok (snd (automation_run cs empty_automation)).
Proof. apply run_keeps, empty_automation_ok. Qed.

(** A call the automation store refuses writes nothing and is answered with
    one of the three errors the routes translate (not found, conflict,
    authorization denied); in a store its own methods wrote, no call fails
    with a [KeyError]. *)
Theorem automation_refusal cs c e s' :
  let s := snd (automation_run cs empty_automation) in
  automation_call c s = (Exc e, s') -> s' = s /\ is_refusal e.
Proof. intros s H. apply (call_refused s c e s'); [|done]. apply run_keeps, empty_automation_ok. Qed.

(** the credentials of a call made under a lease, and the job it names *)
Definition lease_call (c : AutomationCall) : option (LeaseMutation * string * UUID) :=
  match c with
  | do_heartbeat _ _ job b client => Some (b, client, job)
  | do_step _ _ job b client => Some (st_lease b, client, job)
  | do_complete _ _ job b client => Some (tr_lease b, client, job)
  | do_fail _ _ _ job b client => Some (fr_lease b, client, job)
  | _ => None
  end.

(** C7: a leased job is written only by a call that presents its lease (the
    token, the execution and the client it was granted to, before it runs
    out), or marked as waiting by a request for an approval, which leaves the
    lease as it is; no claim takes a job from the execution that holds it. *)
Theorem lease_exclusive cs c k raw :
  let s := snd (automation_run cs empty_automation) in
  jobs s !! k = Some raw -> is_Some (lease_token_sha256 raw) ->
  exists raw', jobs (snd (automation_call c s)) !! k = Some raw' /\
    (raw' = raw \/
     (exists now b client by_, c = do_request_approval now b client by_ /\ raw' = waiting_job now raw) \/
     exists b client job, lease_call c = Some (b, client, job) /\ lease_key b job = k /\
       holds_lease (call_now c) b client raw = true).
Proof.
  intros s Hk Hl. assert (Ho : automation_ok s) by apply run_keeps, empty_automation_ok.
  destruct (automation_call c s) as [r s'] eqn:H. destruct (call_keeps _ _ _ _ Ho H) as [_ Hch].
  destruct (job_step _ _ _ _ _ _ Ho Hch Hk) as (raw' & Hk' & Hc). exists raw'. split; [done|].
  destruct (ok_jobs s Ho _ _ Hk) as (_ & (_ & _ & Hu) & _).
  destruct Hc; try (by left); try (by right; right; do 3 eexists; split; [reflexivity|by split]).
  - rewrite H1 in Hu. destruct Hu as (Hn & _). rewrite Hn in Hl. by destruct Hl.
  - right. left. by do 4 eexists.
  - destruct (delivery_token_used_at raw); [|destruct Hu as (Hn & _); rewrite Hn in Hl; by destruct Hl].
    destruct Hu as (_ & _ & _ & [(_ & _ & _ & _ & _ & Hs)|(Hn & _)]).
    + by rewrite H1 in Hs.
    + rewrite Hn in Hl. by destruct Hl.
Qed.

(** C31: the attempts of a job are exactly the claims granted for it, and they
    never exceed the attempts its route allows plus its approved replays:
    neither retries nor repeated claims open further attempts. *)
Theorem attempts_bounded cs k raw :
  Forall routed cs ->
  let (h, s) := automation_run cs empty_automation in
  jobs s !! k = Some raw ->
  attempt_count raw = count_calls (granted k) h /\
  count_calls (granted k) h <= jb_max_attempts (job_data raw) + count_calls (replayed k) h.
Proof.
  intros Hr. destruct (automation_run cs empty_automation) as [h s] eqn:H. intros Hk.
  destruct (attempts_from_none k cs empty_automation raw h s empty_automation_ok Hr) as (Hg & _ & Hp); try done.
  split; [done|]. rewrite <- Hg. destruct (delivery_token_used_at raw); lia.
Qed.

(** The first accepted completion of a job is its end: whatever calls
    follow, the job stays as it was written, the same completion is answered
    as a duplicate with that job and writes nothing, and any other completion
    is refused. *)
Theorem completion_is_final cs now now2 job b client j s1 cs' :
  let s := snd (automation_run cs empty_automation) in
  automation_call (do_complete now now2 job b client) s = (Ret (re_job j), s1) -> aj_duplicate j = false ->
  let s2 := snd (automation_run cs' s1) in
  exists raw, jobs s2 !! lease_key (tr_lease b) job = Some raw /\ job_view raw false = j /\
    result_code raw = Some (tr_result_code b) /\
    forall n n2 b' client', lease_key (tr_lease b') job = lease_key (tr_lease b) job ->
      automation_call (do_complete n n2 job b' client') s2 =
      (if String.eqb (idempotency_key (le_mutation (tr_lease b))) (idempotency_key (le_mutation (tr_lease b'))) &&
          String.eqb (complete_digest b) (complete_digest b')
       then Ret (re_job (job_view raw true))
       else Exc (Exn AutomationConflict "job already has a different terminal transition"), s2).
Proof.
  intros s H Hd s2. assert (Ho : automation_ok s) by apply run_keeps, empty_automation_ok.
  destruct (call_keeps _ _ _ _ Ho H) as [Ho1 Hch]. inversion Hch; subst; [simpl in *; congruence|].
  exists (completed_job now2 b raw). split; [|split; [done|split; [done|]]].
  - apply over_stays; [done| |done]. by eapply written_here.
  - intros n n2 b' client' Hkey. rewrite (complete_run _ _ _ _ _ _ (completed_job now2 b raw)).
    2:{ rewrite Hkey. apply over_stays; [done| |done]. by eapply written_here. }
    simpl. destruct (String.eqb_spec (complete_digest b) (complete_digest b')) as [->|Hne].
    + rewrite bool_decide_eq_true_2 by done. by destruct (_ =? _)%string.
    + rewrite bool_decide_eq_false_2 by congruence. by rewrite !andb_false_r.
Qed.

Lemma protected_facts now a job :
  protected_approval now a job = true ->
  ap_job_id a = job /\ ap_approval_type a = "REPLAY" /\ ap_state a = ap_approved /\ now < ap_expires_at a /\
  exists by_, ap_decided_by a = Some by_ /\ by_ <> ap_requested_by a.
Proof.
  unfold protected_approval. rewrite !andb_true_iff, N.eqb_eq, String.eqb_eq, bool_decide_eq_true, Z.ltb_lt.
  intros ((((-> & ->) & ->) & Hd) & Hn). repeat split; try done. destruct (ap_decided_by a) as [by_|]; [|done].
  simpl in Hd. destruct (str_nonempty by_); [|done]. exists by_. split; [done|]. intros ->. by rewrite String.eqb_refl in Hd.
Qed.

(** negated checks as propositions *)
Ltac unpack :=
  repeat match goal with
  | H : negb _ = false |- _ => apply negb_false_iff in H
  | H : String.eqb _ _ = true |- _ => apply String.eqb_eq in H
  | H : Z.eqb _ _ = true |- _ => apply Z.eqb_eq in H
  | H : bool_decide _ = true |- _ => apply bool_decide_eq_true in H
  end.

Lemma replay_refused token now now2 u b client s dead :
  dead_letters s !! (tenant_id (rp_mutation b), u) = Some dead -> dl_state dead <> dl_open ->
  exists e, automation_call (do_replay token now now2 u b client) s = (Exc e, s).
Proof.
  intros Hd Hs. simpl. unfold answering, replay_dead_letter, find_dead, find_approval, bind, raise.
  destruct (negb (client =? OPERATIONS_CLIENT)%string); [by eexists|]. rewrite Hd.
  destruct (approvals s !! (tenant_id (rp_mutation b), rp_approval_id b)) as [a|]; [|by eexists].
  destruct (negb (protected_approval now a.2 (dl_job_id dead))); [by eexists|].
  destruct (negb (dl_resource_version dead =? rp_expected_version b)); [by eexists|].
  destruct (negb (_ =? _)%string); [by eexists|]. rewrite bool_decide_eq_false_2 by done. by eexists.
Qed.

(** the answer tells that dead letter [k] was opened again: its job, claimed
    anew, was dead-lettered once more *)
Definition dead_again (k : string * UUID) (cr : AutomationCall * outcome AutomationReply) : bool :=
  match cr with
  | (do_fail _ _ _ job b _, Ret (re_job j)) =>
      let t := tenant_id (le_mutation (fr_lease b)) in
      bool_decide ((t, dead_letter_id_of t job) = k) && bool_decide (aj_state j = DEAD_LETTER) && negb (aj_duplicate j)
  | _ => false
  end.

(** only a call that dead-letters its job again opens a consumed dead letter *)
Lemma closed_step c s r s' k dead :
  automation_ok s -> job_change s c r s' -> dead_again k (c, r) = false ->
  dead_letters s !! k = Some dead -> dl_state dead <> dl_open ->
  exists dead', dead_letters s' !! k = Some dead' /\ dl_state dead' <> dl_open.
Proof.
  intros Ho Hch Hq Hk Hs. destruct Hch; try (exists dead; split; [congruence|done]).
  - match goal with H : same_jobs _ _ |- _ => destruct H as (_ & _ & -> & _) end. by exists dead.
  - match goal with H : dead_letters s' = _ |- _ => rewrite H end. destruct (decide (st = DEAD_LETTER)) as [He|]; [|by exists dead].
    exists dead. split; [|done]. rewrite lookup_insert_ne; [done|]. intros Heq. revert Hq. unfold dead_again.
    rewrite bool_decide_eq_true_2 by exact Heq. rewrite bool_decide_eq_true_2 by exact He. done.
  - match goal with H : dead_letters s' = _ |- _ => rewrite H end. exists dead. split; [|done].
    rewrite lookup_insert_ne; [done|]. intros <-. congruence.
Qed.

Lemma closed_stays k : forall cs s dead,
  automation_ok s -> dead_letters s !! k = Some dead -> dl_state dead <> dl_open ->
  Forall (fun cr => dead_again k cr = false) (fst (automation_run cs s)) ->
  exists dead', dead_letters (snd (automation_run cs s)) !! k = Some dead' /\ dl_state dead' <> dl_open.
Proof.
  induction cs as [|c cs IH]; intros s dead Ho Hk Hs; [by exists dead|].
  cbn [automation_run]. destruct (automation_call c s) as [r s1] eqn:Hc.
  destruct (call_keeps _ _ _ _ Ho Hc) as [Ho1 Hch].
  specialize (IH s1). destruct (automation_run cs s1) as [h s2]. cbn [fst snd] in *. rewrite Forall_cons. intros [Hq Hqs].
  destruct (closed_step _ _ _ _ _ _ Ho Hch Hq Hk Hs) as (dead1 & Hk1 & Hs1). by apply (IH dead1).
Qed.

(** C13: a replay is accepted only from the operations client, for an open dead
    letter of the expected version and fingerprint whose job is dead, with an
    unexpired [REPLAY] approval of that job decided by someone other than its
    requester; it offers the job again and consumes the dead letter, so that
    the same request is refused, and writes nothing, after any later calls,
    for as long as none of them opens the dead letter again, as a new death of
    its job does.  (It is the dead letter that is consumed, not the approval: once
    the replayed job has died again the same request can be accepted once more,
    [same_replay_accepted_again] of AutomationJobWitnesses.) *)
Theorem replay_protected cs token now now2 u b client j s1 :
  let s := snd (automation_run cs empty_automation) in
  automation_call (do_replay token now now2 u b client) s = (Ret (re_job j), s1) ->
  client = OPERATIONS_CLIENT /\
  (exists dead d a raw, dead_letters s !! (tenant_id (rp_mutation b), u) = Some dead /\
    dl_state dead = dl_open /\ dl_resource_version dead = rp_expected_version b /\
    dl_original_effect_fingerprint dead = rp_original_effect_fingerprint b /\
    approvals s !! (tenant_id (rp_mutation b), rp_approval_id b) = Some (d, a) /\
    ap_job_id a = dl_job_id dead /\ ap_approval_type a = "REPLAY" /\ ap_state a = ap_approved /\ now < ap_expires_at a /\
    (exists by_, ap_decided_by a = Some by_ /\ by_ <> ap_requested_by a) /\
    jobs s !! (tenant_id (rp_mutation b), dl_job_id dead) = Some raw /\ job_state raw = DEAD_LETTER /\
    jobs s1 !! (tenant_id (rp_mutation b), dl_job_id dead) = Some (replayed_job token now2 raw)) /\
  forall cs2, let (h, s2) := automation_run cs2 s1 in
    Forall (fun cr => dead_again (tenant_id (rp_mutation b), u) cr = false) h ->
    forall token' n n2, exists e, automation_call (do_replay token' n n2 u b client) s2 = (Exc e, s2).
Proof.
  intros s H. assert (Ho : automation_ok s) by apply run_keeps, empty_automation_ok. clearbody s.
  destruct (call_keeps _ _ _ _ Ho H) as [Ho1 _]. pose proof H as H'. simpl in H.
  unfold replay_dead_letter, find_dead, find_approval, raw_job in H. run_in H. unpack.
  match goal with H : protected_approval _ _ _ = true |- _ => apply protected_facts in H as (? & ? & ? & ? & ?) end.
  match goal with Hd : dead_letters _ !! _ = Some ?dead, Ha : approvals _ !! _ = Some ?a, Hj : jobs _ !! _ = Some ?raw |- _ =>
    split; [done|]; split; [exists dead, (fst a), (snd a), raw|];
    pose proof (ok_dead _ Ho _ _ Hd) as (Hk & _ & raw' & Hj' & Hs) end.
  - injection Hk as Ht Hu. assert (job_state a2 = DEAD_LETTER) by (rewrite <- Ht in Hj'; simplify_eq; by apply Hs).
    repeat split; try done; [by destruct a1|by rewrite lookup_insert_eq].
  - intros cs2. match type of Ho1 with automation_ok ?x => set (s1 := x) in * end.
    pose proof (closed_stays (tenant_id (rp_mutation b), u) cs2 s1) as Hc. destruct (automation_run cs2 s1) as [h s2].
    intros Hq token' n n2. edestruct Hc as (dead' & Hd' & Hn'); [done|apply lookup_insert_eq|done|done|].
    by eapply replay_refused.
Qed.

(** A job whose lease ran out while it was claimed is never finished nor
    offered again: whatever calls come later, it keeps the same execution and
    neither ends, nor is it retried, nor claimed; reconciliation plans
    [REQUEUE_EXPIRED_LEASE] for it and nothing executes the plan. *)
Theorem abandoned_job_stuck cs cs' k raw expiry :
  let s := snd (automation_run cs empty_automation) in
  jobs s !! k = Some raw -> lease_expires_at raw = Some expiry -> Forall (fun c => expiry <= call_now c) cs' ->
  exists raw', jobs (snd (automation_run cs' s)) !! k = Some raw' /\
    execution_id raw' = execution_id raw /\ lease_expires_at raw' = Some expiry /\
    attempt_count raw' = attempt_count raw /\
    job_state raw' ∈ [job_state raw; WAITING_APPROVAL] /\
    is_state (job_state raw') [CLAIMED; RUNNING; WAITING_APPROVAL] = true.
Proof.
  intros s Hk He Hq. assert (Ho : automation_ok s) by apply run_keeps, empty_automation_ok.
  destruct (ok_jobs s Ho _ _ Hk) as (_ & (_ & _ & Hu) & _).
  destruct (run_job_keeps (fun x => execution_id x = execution_id raw /\ lease_expires_at x = Some expiry /\
      attempt_count x = attempt_count raw /\ is_Some (delivery_token_used_at x) /\
      job_state x ∈ [job_state raw; WAITING_APPROVAL] /\
      is_state (job_state x) [CLAIMED; RUNNING; WAITING_APPROVAL] = true) (fun c => expiry <= call_now c) k cs' s raw)
    as (raw' & Hk' & ? & ? & ? & ? & ? & ?); [|done..| |by exists raw'].
  - intros c r raw0 raw1 Hc _ (H1 & H2 & H3 & [i H4] & H5 & H6) H.
    destruct H; try (exfalso; match goal with H : holds_lease _ _ _ _ = true |- _ =>
      apply lease_held in H as (_ & _ & _ & _ & e & He' & Hlt) end; simpl in Hc; simplify_eq; lia).
    + by repeat split.
    + congruence.
    + repeat split; try done; simpl; set_solver.
    + by rewrite H0 in H6.
  - repeat split; try done; [|set_solver|].
    + destruct (delivery_token_used_at raw); [done|]. destruct Hu as (_ & _ & _ & Hn & _). congruence.
    + destruct (delivery_token_used_at raw); [|destruct Hu as (_ & _ & _ & Hn & _); congruence].
      destruct Hu as (_ & _ & _ & [(_ & _ & _ & _ & _ & Hs)|(_ & Hn & _)]); congruence.
Qed.

#[local] Arguments automation_call : simpl never.

(** C37: every job that is offered can be claimed by its client with the token
    its dispatch carries, and then completed by it before the lease runs out:
    the claim grants a lease, its repetition is answered with the same lease
    and writes nothing, and the completion ends the job. *)
Theorem offered_job_completes cs k raw now now2 execution m code result :
  let s := snd (automation_run cs empty_automation) in
  let client := jb_expected_client_id (job_data raw) in
  jobs s !! k = Some raw -> is_state (job_state raw) [PENDING; RETRY_SCHEDULED] = true -> tenant_id m = fst k ->
  now2 < now + seconds LEASE_SECONDS ->
  exists d token, dispatches s !! k = Some d /\
    let b := {| cl_mutation := m; cl_job_id := snd k; cl_delivery_token := dsp_delivery_token d;
                cl_workflow_key := jb_workflow_key (job_data raw); cl_workflow_version := jb_workflow_version (job_data raw);
                cl_execution_id := execution |} in
    let s1 := snd (automation_call (do_claim now b client) s) in
    (exists x, fst (automation_call (do_claim now b client) s) = Ret (re_claim x) /\ cr_duplicate x = false /\ cr_lease_token x = token) /\
    (exists x, automation_call (do_claim now2 b client) s1 = (Ret (re_claim x), s1) /\ cr_duplicate x = true /\ cr_lease_token x = token) /\
    let r := {| tr_lease := {| le_mutation := m; le_lease_token := token; le_execution_id := execution |};
                tr_result_code := code; tr_safe_result := result |} in
    exists raw', automation_call (do_complete now2 now2 (snd k) r client) s1 =
      (Ret (re_job (job_view raw' false)), set_job k raw' s1) /\ job_state raw' = COMPLETED /\ result_code raw' = Some code.
Proof.
  intros s client Hk Hs Hm Hlt. assert (Ho : automation_ok s) by apply run_keeps, empty_automation_ok. clearbody s.
  destruct k as [t job]. simpl in Hm. subst t.
  destruct (ok_jobs s Ho _ _ Hk) as (_ & Hok & d & Hd & Hdt & _).
  assert (Hu : delivery_token_used_at raw = None /\ terminal_idempotency_key raw = None).
  { destruct Hok as (_ & _ & Hu). destruct (delivery_token_used_at raw).
    - destruct Hu as (_&_&_&[(_&_&_&_&_&Hx)|(_&_&_&_&_&Hx)]); by destruct (job_state raw).
    - by destruct Hu as (_&_&_&_&?&_). }
  destruct Hu as [Hu Ht]. exists d, (lease_token (dsp_delivery_token d) job execution client). split; [done|].
  intros b s1. subst s1. rewrite (claim_run now b client s raw d), Hu, Hs by done. simpl.
  set (raw1 := claimed_job _ _ _ _ _). set (s1 := set_dispatch _ _ _).
  assert (Hk1 : jobs s1 !! (tenant_id m, job) = Some raw1) by apply lookup_insert_eq.
  assert (Hd1 : dispatches s1 !! (tenant_id m, job) = Some (claim_dispatch d)) by apply lookup_insert_eq.
  assert (Hlive : (now2 <? now + seconds LEASE_SECONDS) = true) by lia.
  split; [by eexists|]. split.
  - exists (claim_response raw1 (lease_token (dsp_delivery_token d) job execution client) true).
    split; [|by split]. rewrite (claim_run now2 b client s1 raw1 (claim_dispatch d)) by done. simpl.
    unfold same_claim. simpl. by rewrite !bool_decide_eq_true_2, Hlive by done.
  - exists (completed_job now2 {| tr_lease := {| le_mutation := m;
      le_lease_token := lease_token (dsp_delivery_token d) job execution client; le_execution_id := execution |};
      tr_result_code := code; tr_safe_result := result |} raw1). split; [|done].
    rewrite (complete_run _ _ _ _ _ _ raw1) by done. simpl. rewrite Ht. unfold holds_lease. simpl.
    by rewrite !bool_decide_eq_true_2, Hlive by done.
Qed.

(** ** Documents and routes *)

(** every key of a document, at any depth *)
Fixpoint all_keys (v : json) : list string :=
  match v with
  | JObj d => flat_map (fun kv => fst kv :: all_keys (snd kv)) d
  | JArr l => flat_map all_keys l
  | _ => []
  end.

Lemma visit_accepts label v : forall path,
  visit label path v = Ret tt <-> Forall (fun k => sensitive_part k = false) (all_keys v).
Proof.
  induction v as [| | | | |l IH|d IH] using json_rec'; intros path; try (split; [constructor|done]).
  - cbn [visit all_keys]. generalize 0%nat as i. induction IH as [|x l Hx _ IHl]; intros i; [split; [constructor|done]|].
    cbn [flat_map]. rewrite Forall_app, <- (Hx (path +:+ "[" +:+ pretty i +:+ "]")), <- (IHl (S i)).
    destruct (visit label (path +:+ "[" +:+ pretty i +:+ "]") x) as [[]|e]; simpl; [tauto|]. split; [done|by intros []].
  - cbn [visit all_keys]. induction IH as [|[k x] d Hx _ IHd]; [split; [constructor|done]|].
    simpl in Hx. cbn [flat_map fst snd app]. rewrite Forall_cons, Forall_app, <- (Hx (path +:+ "." +:+ k)), <- IHd.
    destruct (sensitive_part k); [split; [done|by intros []]|].
    destruct (visit label (path +:+ "." +:+ k) x) as [[]|e]; simpl; [tauto|]. split; [done|by intros (_ & ? & _)].
Qed.

Lemma sensitive_part_none k :
  sensitive_part k = false <-> forall part, In part SENSITIVE_PARTS -> str_contains part (str_lower k) = false.
Proof.
  unfold sensitive_part. rewrite <- not_true_iff_false, existsb_exists. split.
  - intros H part Hin. apply not_true_iff_false. intros Hc. apply H. by exists part.
  - intros H (part & Hin & Hc). by rewrite (H part Hin) in Hc.
Qed.

(** [_validate_safe_document] accepts exactly the documents whose canonical
    text fits the bound and none of whose keys, at any depth of objects and
    arrays, holds one of the sensitive words in any case. *)
Theorem safe_document_exact label maximum v :
  validate_safe_document label maximum v = Ret tt <->
  json_bytes v <= maximum /\
  Forall (fun k => forall part, In part SENSITIVE_PARTS -> str_contains part (str_lower k) = false) (all_keys v).
Proof.
  rewrite <- (Forall_iff _ _ _ sensitive_part_none).
  unfold validate_safe_document, validate_document_size. rewrite <- (visit_accepts label v label).
  destruct (Z.ltb_spec maximum (json_bytes v)); simpl; [split; [done|lia]|]. split; [done|by intros []].
Qed.

(** the promises of a route of the first release *)
Definition route_ok (r : WorkflowRoute) : Prop :=
  event_type r <> "" /\ workflow_key r <> "" /\ 1 <= workflow_version r /\ 1 <= max_attempts r /\ external_effect r = false.

Lemma load_routes_ok f seen rows rs :
  load_routes f seen rows = Ret rs ->
  Forall route_ok rs /\ NoDup (map route_identity rs) /\ (forall x, x ∈ map route_identity rs -> x ∉ seen) /\
  length rs = length rows.
Proof.
  revert seen rs. induction rows as [|row rows IH]; intros seen rs H; simpl in H.
  { simplify_eq. repeat split; [constructor..|by intros x ?%elem_of_nil]. }
  destruct row as [| | | | | |d]; try done. unfold obind in H. destruct (load_route f d) as [r|e]; [|done].
  match type of H with context [if ?c then _ else _] => destruct c eqn:Hc end; [done|].
  rewrite !orb_false_iff, !negb_false_iff, bool_decide_eq_false in Hc.
  destruct Hc as ((((((Het & Hwk) & _) & Hv) & Hm) & Hs) & Hx).
  destruct (load_routes f (route_identity r :: seen) rows) as [rs'|e] eqn:Hl; [|done]. simpl in H. simplify_eq.
  destruct (IH _ _ Hl) as (Hok & Hnd & Hsee & Hlen). repeat split.
  - constructor; [|done]. unfold route_ok. repeat split; try lia; try done; intros Hz; by rewrite Hz in *.
  - simpl. constructor; [|done]. intros Hin%Hsee. set_solver.
  - intros x Hin. simpl in Hin. apply elem_of_cons in Hin as [->|Hin]; [done|]. apply Hsee in Hin. set_solver.
  - simpl. by rewrite Hlen.
Qed.

Lemma identities_distinct t e rs type :
  NoDup (map route_identity rs) ->
  NoDup (map (fun r => (t, e, workflow_key r, workflow_version r)) (for_event rs type) : list (string * string * string * Z)).
Proof.
  induction rs as [|r rs IH]; intros H; [constructor|]. simpl in H. apply NoDup_cons in H as [Hn H]. unfold for_event. simpl.
  destruct (String.eqb_spec (event_type r) type) as [He|]; [|by apply IH]. simpl. constructor; [|by apply IH].
  rewrite list_elem_of_fmap. intros (r2 & Heq & Hin). apply list_elem_of_In, filter_In in Hin as [Hin He2%String.eqb_eq].
  apply Hn. rewrite list_elem_of_fmap. exists r2. split; [|by apply list_elem_of_In].
  unfold route_identity. injection Heq as Hk Hv. by rewrite Hk, Hv, He, He2.
Qed.

(** C40: a routing document is only loaded when it holds routes, every one of
    them free of external effects, with a name, a version and at least one
    attempt, and no two routes share event, workflow and version; so every
    event is sent to distinct workflows, none of which the document loses. *)
Theorem routes_are_safe f raw rs :
  load_router f raw = Ret rs ->
  rs <> [] /\ Forall route_ok rs /\
  (exists d rows, raw = JObj d /\ dict_get "routes" d = Some (JArr rows) /\ length rs = length rows) /\
  forall t e type, NoDup (map (fun r => (t, e, workflow_key r, workflow_version r)) (for_event rs type) : list (string * string * string * Z)).
Proof.
  destruct raw as [| | | | | |d]; try done. unfold load_router. cbn zeta. destruct (_ || _); [done|].
  destruct (dict_get "routes" d) as [[| | | | |[|row rows]|]|] eqn:Hd; try done. intros H.
  destruct (load_routes_ok _ _ _ _ H) as (Hok & Hnd & _ & Hlen). repeat split; try done.
  - by destruct rs.
  - by exists d, (row :: rows).
  - intros t e type. by apply identities_distinct.
Qed.
