(* ===== verification/PgAutomationProps.v ===== *)
(** * Properties of the durable automation store

    It answers like the in-memory store on histories without replays, and a
    dead letter is replayed once, for good. *)

From S2P Require Import Prelude Json PyValue Clock Sha256 Uuid Commands Inbox.
From S2P Require Import PgLedger Automation AutomationFacts PgAutomation PgAutomationFacts.
Local Open Scope Z_scope.
#[local] Opaque sha256_hex uuid5 hmac_sha256.

(** C20: on a history of events, claims, heartbeats, steps, ends, approval
    requests and reads of approvals, the durable store answers every call like
    the in-memory one, refusals with the same error, whatever evidence ids its
    sequence draws, and ends with the same jobs, the same steps up to these ids,
    the same approvals and the same dead letters.  Both read the same instants
    (the two readings of [get_approval] coincide); every call is of a tenant the
    tables admit, every event's time is in the text form of its column and its
    route fits the columns; no step is recorded twice (the durable store then
    marks the job as running again, the in-memory one does not), and the
    identifiers the history derives are taken not to collide.  Decisions of
    approvals, replays of dead letters and reconciliations are left out: the
    tables are decided on by operators, replays differ ([durable_replay_once]),
    and the two stores plan in different orders. *)
Theorem durable_matches_memory timestamptz serials cs h s :
  Forall (comparable timestamptz) cs -> ids_apart (omap job_source cs) (omap approval_slot_of cs) ->
  automation_run cs empty_automation = (h, s) -> Forall (fun e => repeated_step (snd e) = false) h ->
  exists h' d, durable_run timestamptz serials cs empty_automation_db = (h', d) /\
    Forall2 (fun x y => fst x = fst y /\ unnumbered_answer (snd x) = unnumbered_answer (snd y)) h' h /\
    jobs s = jr_raw <$> t_jobs d /\ unnumbered_steps (steps s) = unnumbered_steps (t_steps d) /\
    approvals s = (fun r => (pr_request_sha256 r, pr_record r)) <$> t_approvals d /\ dead_letters s = t_dead_letters d.
Proof.
  intros Hcmp Hids Hrun Hh.
  destruct (same_run timestamptz (omap job_source cs) (omap approval_slot_of cs) cs Hids serials empty_automation empty_automation_db h s)
    as (h' & d & Hd & Ha & H); try done.
  - by apply same_empty.
  - rewrite Forall_forall. intros c Hc. split; intros x Hx; apply list_elem_of_omap; by exists c.
  - exists h', d. split; [done|]. split; [done|]. split; [apply (ss_jobs _ _ _ _ H)|]. split; [apply (ss_steps _ _ _ _ H)|].
    split; [apply (ss_approvals _ _ _ _ H)|apply (ss_dead _ _ _ _ H)].
Qed.

(** ** Dead letters *)

Section Keeps.
Context (P : AutomationDB -> Prop).

(** a computation after which [P] still holds *)
Definition keeps {A} (m : DBM A) : Prop := forall d, P d -> P (snd (m d)).

Lemma keeps_ret {A} (a : A) : keeps (ret a).
Proof. by intros d. Qed.
Lemma keeps_raise {A} cls msg : keeps (raise cls msg : DBM A).
Proof. by intros d. Qed.
Lemma keeps_gets {A} (f : AutomationDB -> A) : keeps (gets f).
Proof. by intros d. Qed.
Lemma db_keeps_bind {A B} (m : DBM A) (k : A -> DBM B) : keeps m -> (forall a, keeps (k a)) -> keeps (bind m k).
Proof. intros Hm Hk d Hd. unfold bind. specialize (Hm d Hd). destruct (m d) as [[a|e] d']; [by apply Hk|done]. Qed.
Lemma keeps_when b (m : DBM unit) : keeps m -> keeps (when b m).
Proof. intros H. destruct b; [done|apply keeps_ret]. Qed.
Lemma keeps_modify f : (forall d, P d -> P (f d)) -> keeps (modify f).
Proof. intros H d Hd. by apply H. Qed.
Lemma keeps_transaction {A} (m : DBM A) : keeps m -> keeps (transaction m).
Proof. intros H d Hd. unfold transaction. specialize (H d Hd). by destruct (m d) as [[a|e] d']. Qed.
Lemma keeps_context t : keeps (tenant_context t).
Proof. unfold tenant_context. repeat case_match; auto using keeps_ret, keeps_raise. Qed.
Lemma keeps_tenant {A} t (m : DBM A) : keeps m -> keeps (tenant_transaction t m).
Proof. intros H. by apply keeps_transaction, db_keeps_bind; [apply keeps_context|]. Qed.
Lemma keeps_reads {A} (m : DBM A) : (forall d, snd (m d) = d) -> keeps m.
Proof. intros H d Hd. by rewrite H. Qed.
End Keeps.

Lemma job_row_reads t job d : snd (job_row t job d) = d.
Proof. by rewrite job_row_run. Qed.
Lemma lease_row_reads now job b client d : snd (lease_row now job b client d) = d.
Proof. unfold lease_row, bind, active_lease, ret, raise. rewrite job_row_run. by repeat case_match; simplify_eq/=. Qed.
Lemma find_approval_reads t u d : snd (pg_find_approval t u d) = d.
Proof. unfold pg_find_approval. by case_match. Qed.

(** take a method apart, down to its statements *)
Ltac statements :=
  repeat first
    [ apply keeps_tenant | apply keeps_ret | apply keeps_raise | apply keeps_gets | apply keeps_context
    | apply keeps_reads; intros ?; first [apply job_row_reads | apply lease_row_reads | apply find_approval_reads]
    | apply db_keeps_bind; [|intros ?] | apply keeps_when | apply keeps_modify; intros ? ?; done | case_match ].

Section Frozen.
Context (k : JobKey) (x : DeadLetterRecord).
Hypothesis Hs : dl_state x <> dl_open.
Let P (d : AutomationDB) : Prop := t_dead_letters d !! k = Some x.

Lemma step_frozen id now now2 job b client : keeps P (pg_record_step id now now2 job b client).
Proof. unfold pg_record_step. statements. Qed.

Lemma insert_frozen k' r : keeps P (insert_dead_letter k' r).
Proof.
  intros d Hd. unfold insert_dead_letter, P in *. destruct (t_dead_letters d !! k') eqn:Hk; [done|]. simpl.
  rewrite lookup_insert_ne; [done|]. congruence.
Qed.

Lemma replay_frozen token now now2 u b client : keeps P (pg_replay_dead_letter token now now2 u b client).
Proof.
  unfold pg_replay_dead_letter. case_match; [statements|]. apply keeps_tenant, db_keeps_bind; [statements|]. intros prior.
  destruct prior as [[]|]; [statements|].
  destruct (decide ((tenant_id (rp_mutation b), u) = k)) as [Heq|Hne].
  - intros d Hd. unfold bind at 1, pg_find_dead. rewrite Heq, Hd. unfold bind at 1, pg_find_approval.
    destruct (t_approvals d !! (tenant_id (rp_mutation b), rp_approval_id b)); [|done].
    rewrite (bool_decide_eq_false_2 _ Hs). by repeat case_match.
  - apply db_keeps_bind; [apply keeps_reads; intros d; unfold pg_find_dead; by case_match|]. intros dead. unfold insert_dispatch.
    statements; apply keeps_modify; intros d Hd; unfold P; simpl; by rewrite lookup_insert_ne.
Qed.

(** a dead letter that is no longer open is never written again *)
Lemma dead_frozen timestamptz serial c : keeps P (durable_call timestamptz serial c).
Proof.
  destruct c; cbn [durable_call].
  - unfold pg_enqueue_event, enqueue_on_connection, audit, unique_violation. statements.
  - unfold pg_claim, audit. statements.
  - unfold pg_heartbeat, audit. statements.
  - apply db_keeps_bind; [intros d; apply step_frozen|intros; statements].
  - unfold pg_complete, terminal_replay, audit. statements.
  - unfold pg_fail, terminal_replay, insert_dispatch, audit. statements. apply insert_frozen.
  - unfold pg_request_approval, unique_violation. statements.
  - unfold pg_get_approval. statements.
  - statements.
  - apply db_keeps_bind; [apply replay_frozen|intros; statements].
  - unfold pg_reconcile. statements.
Qed.

Lemma frozen_run timestamptz cs : forall serials, keeps P (fun d => (Ret tt, snd (durable_run timestamptz serials cs d))).
Proof.
  induction cs as [|c cs IH]; intros serials d Hd; [done|]. simpl. pose proof (dead_frozen timestamptz (serials 0%nat) c d Hd) as H1.
  destruct (durable_call timestamptz (serials 0%nat) c d) as [r d1]. specialize (IH (fun n => serials (S n)) d1 H1). simpl in IH.
  by destruct (durable_run timestamptz _ cs d1).
Qed.
End Frozen.

Definition fresh_replay (u : UUID) (b : DeadLetterReplayRequest) (d : AutomationDB) : Prop :=
  t_replay_requests d !! ((tenant_id (rp_mutation b), u), idempotency_key (rp_mutation b)) = None.

(** run the statements of a durable method in [H] *)
Ltac run_durable H :=
  unfold insert_dispatch, tenant_transaction, transaction, tenant_context, bind, gets, ret, raise, modify in H;
  repeat (case_match; cbn beta iota zeta in H); simplify_eq/=.

Lemma scope_refused {A} t (m : DBM A) d : tenant_ok t = false -> exists e, tenant_transaction t m d = (Exc e, d).
Proof.
  unfold tenant_ok, tenant_transaction, tenant_context, transaction, bind, raise, ret. rewrite andb_false_iff.
  intros [H|H]; rewrite H; simpl; [by eexists|]. destruct (negb _); by eexists.
Qed.

Lemma replay_requested token now now2 u b client j d d1 :
  fresh_replay u b d -> pg_replay_dead_letter token now now2 u b client d = (Ret j, d1) ->
  exists dead, t_dead_letters d1 !! (tenant_id (rp_mutation b), u) = Some dead /\ dl_state dead = dl_replay_requested.
Proof.
  unfold fresh_replay. intros Hf H. unfold pg_replay_dead_letter in H. case_match; [done|].
  destruct (tenant_ok (tenant_id (rp_mutation b))) eqn:Ht.
  2:{ match type of H with tenant_transaction ?t ?m ?d = _ => destruct (scope_refused t m d Ht) as [e He] end. congruence. }
  rewrite scoped_run in H by done. unfold transaction, bind at 1, gets at 1 in H. rewrite Hf in H.
  unfold pg_find_dead, pg_find_approval in H. run_durable H.
  all: eexists; split; [apply lookup_insert_eq|done].
Qed.

Lemma durable_replay_refused token now now2 u b client d dead :
  t_dead_letters d !! (tenant_id (rp_mutation b), u) = Some dead -> dl_state dead <> dl_open -> fresh_replay u b d ->
  exists e, pg_replay_dead_letter token now now2 u b client d = (Exc e, d).
Proof.
  unfold fresh_replay. intros Hd Hs Hf. unfold pg_replay_dead_letter. case_match; [by eexists|].
  destruct (tenant_ok (tenant_id (rp_mutation b))) eqn:Ht; [|by apply scope_refused].
  rewrite scoped_run by done. unfold transaction, bind at 1, gets at 1. rewrite Hf. unfold bind at 1, pg_find_dead. rewrite Hd.
  unfold bind at 1, pg_find_approval. destruct (t_approvals d !! _); [|by eexists].
  rewrite (bool_decide_eq_false_2 _ Hs). repeat case_match; simplify_eq/=; by eexists.
Qed.

(** In the durable store a dead letter is replayed once, for good: after an
    accepted replay it stays [REPLAY_REQUESTED] whatever calls follow, even a
    second death of its job (whose dead letter the insert leaves out), and every
    further replay request of it is refused. *)
Theorem durable_replay_once timestamptz serial serials d token now now2 u b client j d1 cs :
  durable_call timestamptz serial (do_replay token now now2 u b client) d = (Ret (re_job j), d1) -> fresh_replay u b d ->
  let d2 := snd (durable_run timestamptz serials cs d1) in
  exists dead, t_dead_letters d2 !! (tenant_id (rp_mutation b), u) = Some dead /\ dl_state dead = dl_replay_requested /\
    forall token' n n2 b' client', tenant_id (rp_mutation b') = tenant_id (rp_mutation b) -> fresh_replay u b' d2 ->
      exists e, durable_call timestamptz serial (do_replay token' n n2 u b' client') d2 = (Exc e, d2).
Proof.
  intros H Hf d2. simpl in H. unfold bind in H.
  destruct (pg_replay_dead_letter token now now2 u b client d) as [[j'|e] d1'] eqn:Hr; [|done].
  unfold ret in H. simplify_eq. destruct (replay_requested _ _ _ _ _ _ _ _ _ Hf Hr) as (dead & Hdead & Hst). exists dead.
  assert (Hs : dl_state dead <> dl_open) by by rewrite Hst.
  pose proof (frozen_run _ _ Hs timestamptz cs serials d1 Hdead) as Hd2. split; [exact Hd2|]. split; [done|].
  intros token' n n2 b' client' Ht Hf'. simpl. unfold bind. fold d2 in Hd2 |- *. rewrite <- Ht in Hd2. simpl in Hd2.
  destruct (durable_replay_refused token' n n2 u b' client' d2 dead Hd2 Hs Hf') as [e ->]. by exists e.
Qed.
