(* ===== verification/AutomationApiProps.v ===== *)
(** * Properties of the automation routes

    Who a handler lets act on a job, and what an accepted command has been
    checked for before it reaches the ledger. *)

From S2P Require Import Prelude Json PyValue Clock Sha256 Uuid Commands Ledger LedgerFacts.
From S2P Require Import Principal Inbox AutomationPolicy Security Automation AutomationFacts.
From S2P Require Import AutomationApi.
Local Open Scope Z_scope.
#[local] Opaque sha256_hex uuid5.

(** the steps of a handler that answered, one by one *)
Ltac answered H :=
  repeat match type of H with
  | bind _ _ _ = (Ret _, _) => apply bind_Ret_inv in H as (? & ? & ? & H); cbn beta in *
  end.

Lemma lift_ret {S A} (o : outcome A) (s : S) a s' : lift_outcome o s = (Ret a, s') -> o = Ret a /\ s' = s.
Proof. unfold lift_outcome. intros [= -> ->]. done. Qed.

Lemma denied_ret {A} (o : outcome A) a : denied_as o = Ret a -> o = Ret a.
Proof. unfold denied_as. by destruct o as [|e]; [|destruct (isinstance e _)]. Qed.

Lemma in_automation_ret {A} (m : AM A) w a w' :
  in_automation m w = (Ret a, w') ->
  m (w_automation w) = (Ret a, w_automation w') /\ w_commands w' = w_commands w /\ w_inbox w' = w_inbox w /\ w_held w' = w_held w.
Proof. unfold in_automation, zoom. destruct (m (w_automation w)) as [r s]. by intros [= -> <-]. Qed.

Lemma in_commands_ret {A} (m : MemM A) w a w' :
  in_commands m w = (Ret a, w') ->
  m (w_commands w) = (Ret a, w_commands w') /\ w_automation w' = w_automation w /\ w_inbox w' = w_inbox w /\ w_held w' = w_held w.
Proof. unfold in_commands, zoom. destruct (m (w_commands w)) as [r s]. by intros [= -> <-]. Qed.

Section Api.
Context `{Externals}.
Context (segment_json : string -> option json).
Context (tokens_verify : string -> string -> string -> outcome jdict).

(** the token of a request: it names the client, verifies for the scope, and its
    client's policy grants the scope *)
Definition authenticated (sv : AutomationService) (headers : Headers) (scope : string) (claims : jdict) (client : string) : Prop :=
  exists authorization c, authorization_header headers = Ret authorization /\ peek_client_id segment_json authorization = Ret client /\
    tokens_verify authorization client scope = Ret claims /\ authorize_token (sv_policy sv) claims scope = Ret c.

Lemma authorized_ret sv headers scope claims client c :
  authorized segment_json tokens_verify sv headers scope = Ret (claims, client, c) ->
  authenticated sv headers scope claims client.
Proof.
  unfold authorized, obind. destruct (authorization_header headers) as [auth|] eqn:Ha; [|done].
  destruct (peek_client_id segment_json auth) as [cl|] eqn:Hp; [|done].
  destruct (tokens_verify auth cl scope) as [cs|] eqn:Hv; [|done].
  destruct (denied_as _) as [p|] eqn:Hd; [|done]. intros [= <- <- <-]. apply denied_ret in Hd. by exists auth, p.
Qed.

Lemma get_job_ret t job s j s' : get_job t job s = (Ret j, s') -> s' = s /\ exists raw, jobs s !! (t, job) = Some raw /\ j = job_view raw false.
Proof.
  unfold get_job, bind, ret, raw_job, raise. destruct (jobs s !! (t, job)) as [raw|]; [|done].
  intros [= <- <-]. split; [done|]. by exists raw.
Qed.

(** what [on_job] checked before it ran the store's method *)
Lemma on_job_ret {A} sv headers m job scope (k : jdict -> string -> AM A) w a w' :
  on_job segment_json tokens_verify sv headers m job scope k w = (Ret a, w') ->
  assert_header_body_mirror headers m = Ret tt /\
  exists claims client raw c, authenticated sv headers scope claims client /\
    jobs (w_automation w) !! (Automation.tenant_id m, job) = Some raw /\
    authorize_job_family (sv_policy sv) claims scope (jb_workflow_family (job_data raw)) = Ret c /\
    k claims client (w_automation w) = (Ret a, w_automation w') /\
    w_commands w' = w_commands w /\ w_inbox w' = w_inbox w.
Proof.
  unfold on_job. intros Hr. apply bind_Ret_inv in Hr as ([] & w1 & H1 & Hr). apply lift_ret in H1 as [H1 ->].
  apply bind_Ret_inv in Hr as ([[claims client] c] & w1 & H2 & Hr). apply lift_ret in H2 as [H2 ->]. cbn beta iota in Hr.
  apply bind_Ret_inv in Hr as (j & w1 & H3 & Hr). apply in_automation_ret in H3 as (H3 & Hc1 & Hi1 & Hh1).
  apply get_job_ret in H3 as (Hs & raw & Hraw & ->).
  apply bind_Ret_inv in Hr as (p & w2 & H4 & Hr). apply lift_ret in H4 as [H4 ->]. apply denied_ret in H4.
  apply in_automation_ret in Hr as (Hk & Hc2 & Hi2 & _). rewrite Hs in Hk. split; [done|].
  exists claims, client, raw, p. split; [by eapply authorized_ret|]. repeat split; try done; congruence.
Qed.

Lemma store_lease_ret now job b client s j s' :
  assert_store_lease now job b client s = (Ret j, s') ->
  s' = s /\ exists raw, jobs s !! (Automation.tenant_id (le_mutation b), job) = Some raw /\
    holds_lease now b client raw = true /\ j = job_view raw false.
Proof.
  unfold assert_store_lease, bind, active_lease, ret, raise. rewrite raw_job_run.
  destruct (jobs s !! _) as [raw|]; [|done]. destruct (holds_lease now b client raw) eqn:Hl; [|done].
  intros [= <- <-]. split; [done|]. by exists raw.
Qed.

Lemma command_policy_ret sv ct p : command_policy sv ct = Ret p -> matching (sv_policies sv) ct = [p].
Proof. unfold command_policy. destruct (matching _ _) as [|q [|]]; try done. by intros [= ->]. Qed.

Lemma submit_command_ret sv now c actor client s o s' :
  submit_command sv now c actor client s = (Ret o, s') ->
  (exists p, authorize (sv_policies sv) c = Ret p) /\ submit now c client TEMPORAL_COMMAND_DESTINATION None None s = (Ret o, s').
Proof.
  unfold submit_command, bind, lift_outcome. destruct (validate_submission _ _ _ _) as [[]|e] eqn:Hv; [|done].
  destruct (submit now c client TEMPORAL_COMMAND_DESTINATION None None s) as [[x|e] s1]; [|done]. intros [= <- <-].
  split; [|done]. unfold validate_submission in Hv. destruct (negb _); [done|]. destruct (_ || _); [done|].
  destruct (authorize _ c) as [p|]; [by exists p|done].
Qed.

End Api.

(** A claim is answered only for a request whose headers repeat the body's
    tenant, correlation and key, whose token verifies for the claim scope and
    names the client the job is meant for, and whose client's policy covers the
    job's workflow family; the commands and the inbox are untouched. *)
Theorem claim_route_authorized segment_json tokens_verify sv tk b headers w resp w' :
  claim_automation_job segment_json tokens_verify sv tk b headers w = (Ret resp, w') ->
  assert_header_body_mirror headers (cl_mutation b) = Ret tt /\
  exists claims client raw c x, authenticated segment_json tokens_verify sv headers "automation.job.claim" claims client /\
    jobs (w_automation w) !! (Automation.tenant_id (cl_mutation b), cl_job_id b) = Some raw /\
    authorize_job_family (sv_policy sv) claims "automation.job.claim" (jb_workflow_family (job_data raw)) = Ret c /\
    mem_string (jb_workflow_family (job_data raw)) (client_workflow_families c) = true /\
    jb_expected_client_id (job_data raw) = client /\
    claim (tk_now tk) b client (w_automation w) = (Ret x, w_automation w') /\
    resp = respond 200 (body_claim x) (Automation.correlation_id (cl_mutation b)) /\
    w_commands w' = w_commands w /\ w_inbox w' = w_inbox w.
Proof.
  unfold claim_automation_job. intros Hr. apply bind_Ret_inv in Hr as (x & w1 & Hj & Hr).
  unfold ret in Hr. injection Hr as <- <-.
  apply on_job_ret in Hj as (Hm & claims & client & raw & c & Ha & Hraw & Hf & Hk & Hc & Hi). split; [done|].
  exists claims, client, raw, c, x. repeat split; try done.
  - unfold authorize_job_family, obind in Hf. destruct (authorize_token _ _ _) as [c'|]; [|done].
    destruct (mem_string _ _) eqn:Hmem; [|done]. by injection Hf as <-.
  - unfold claim, bind in Hk. rewrite raw_job_run, Hraw in Hk. destruct (_ || _); [done|].
    destruct (String.eqb_spec (jb_expected_client_id (job_data raw)) client); [done|done].
Qed.

(** C17: an automation command reaches the ledger only under a live lease of the
    job it names (same tenant, workflow, version and event), from the client
    that owns its command family with a token of the family's scope, through
    the one adapter policy of its type, with the capability enabled and
    read-back required; the identifier is derived from the request, so that it
    is stored once, and nothing else of the runtime changes. *)
Theorem command_submission_authorized `{Externals} segment_json tokens_verify sv tk b headers w resp w' :
  submit_automation_command segment_json tokens_verify sv tk b headers w = (Ret resp, w') ->
  exists family client claims raw c p command o,
    resolve_command_family (sv_policy sv) (cm_command_type b) = Ret family /\ family_client_id family = client /\
    authenticated segment_json tokens_verify sv headers (family_scope family) claims client /\
    jobs (w_automation w) !! (Automation.tenant_id (cm_mutation b), cm_job_id b) = Some raw /\
    holds_lease (tk_now tk) (command_lease b) client raw = true /\
    jb_workflow_key (job_data raw) = cm_workflow_key b /\ jb_workflow_version (job_data raw) = cm_workflow_version b /\
    jb_event_id (job_data raw) = cm_event_id b /\
    authorize_command (sv_policy sv) claims (cm_command_type b) (jb_workflow_family (job_data raw)) = Ret c /\
    matching (sv_policies sv) (cm_command_type b) = [p] /\ capability_enabled (sv_policies sv) (policy_capability p) = true /\
    readback_required p = true /\
    env_command_id command = automation_command_id b /\ env_tenant_id command = Automation.tenant_id (cm_mutation b) /\
    env_command_type command = cm_command_type b /\ env_payload command = cm_payload b /\
    submit (tk_datetime tk) command client TEMPORAL_COMMAND_DESTINATION None None (w_commands w) = (Ret o, w_commands w') /\
    rs_body resp = body_operation o /\ rs_status resp = (if op_duplicate o then 200 else 202) /\
    w_automation w' = w_automation w /\ w_inbox w' = w_inbox w.
Proof.
  unfold submit_automation_command. intros Hr. apply bind_Ret_inv in Hr as ([[command actor] client] & w1 & Ha & Hr). cbn beta iota in Hr.
  apply bind_Ret_inv in Hr as (o & w2 & Hs & Hr). unfold ret in Hr. injection Hr as <- <-.
  unfold authorize_submission in Ha. apply bind_Ret_inv in Ha as ([] & w3 & H1 & Ha). apply lift_ret in H1 as [Hmir ->].
  apply bind_Ret_inv in Ha as (auth & w3 & H1 & Ha). apply lift_ret in H1 as [Hauth ->].
  apply bind_Ret_inv in Ha as (cl & w3 & H1 & Ha). apply lift_ret in H1 as [Hpeek ->].
  apply bind_Ret_inv in Ha as (family & w3 & H1 & Ha). apply lift_ret in H1 as [Hfam ->]. apply denied_ret in Hfam.
  destruct (String.eqb_spec (family_client_id family) cl) as [Hcl|]; cbn [negb] in Ha; [|done].
  apply bind_Ret_inv in Ha as (claims & w3 & H1 & Ha). apply lift_ret in H1 as [Hver ->].
  apply bind_Ret_inv in Ha as (pol & w3 & H1 & Ha). apply lift_ret in H1 as [Htok ->]. apply denied_ret in Htok.
  apply bind_Ret_inv in Ha as (j & w3 & H1 & Ha). apply in_automation_ret in H1 as (Hl & Hc3 & Hi3 & Hh3).
  apply store_lease_ret in Hl as (Hsame & raw & Hraw & Hheld & ->). cbn [job_view aj_data] in Ha.
  destruct (String.eqb_spec (jb_workflow_key (job_data raw)) (cm_workflow_key b)) as [Hk|]; cbn [negb orb] in Ha; [|done].
  destruct (Z.eqb_spec (jb_workflow_version (job_data raw)) (cm_workflow_version b)) as [Hv|]; cbn [negb orb] in Ha; [|done].
  destruct (String.eqb_spec (jb_event_id (job_data raw)) (cm_event_id b)) as [He|]; cbn [negb] in Ha; [|done].
  apply bind_Ret_inv in Ha as (c & w4 & H1 & Ha). apply lift_ret in H1 as [Hcmd ->]. apply denied_ret in Hcmd.
  apply bind_Ret_inv in Ha as (p & w4 & H1 & Ha). apply lift_ret in H1 as [Hpol ->].
  apply bind_Ret_inv in Ha as (who & w4 & H1 & Ha). apply lift_ret in H1 as [Hact ->].
  destruct (envelope_valid _); [|done]. unfold ret in Ha. injection Ha as <- <- <- <-.
  apply in_commands_ret in Hs as (Hsub & Ha2 & Hi2 & _). apply submit_command_ret in Hsub as ([p' Hauth'] & Hsub).
  apply command_policy_ret in Hpol. unfold authorize in Hauth'. cbn [automation_command env_command_type] in Hauth'.
  rewrite Hpol in Hauth'. repeat (match type of Hauth' with (if negb ?x then _ else _) = _ => destruct x eqn:? end; cbn [negb] in Hauth'; [|done]).
  rewrite Hc3 in Hsub.
  exists family, cl, claims, raw, c, p, (automation_command b p who), o. repeat split; try done; try congruence.
  by exists auth, pol.
Qed.

(** ** How the automation routes refuse

    A request of the thirteen routes that is refused leaves the stores alone and
    raises an exception the application answers with a client error, but for the
    two the theorem names. *)

(** ** Client errors *)

Definition client_error (e : exn) : bool :=
  handled e && (400 <=? er_status (answer_error "" e)) && (er_status (answer_error "" e) <? 500).

Lemma refusal_is_client_error e : is_refusal e -> client_error e = true.
Proof.
  destruct e as [c msg]. unfold is_refusal. simpl. rewrite !elem_of_cons. intros [->|[->|[->|[]%elem_of_nil]]]; reflexivity.
Qed.

(** a pure step that fails only with client errors *)
Definition clean {A} (o : outcome A) : Prop := forall e, o = Exc e -> client_error e = true.

Lemma clean_ret {A} (a : A) : clean (Ret a).
Proof. by intros e. Qed.
Lemma clean_exc {A} c msg : client_error (Exn c msg) = true -> clean (Exc (Exn c msg) : outcome A).
Proof. by intros H e [= <-]. Qed.
Lemma clean_obind {A B} (o : outcome A) (k : A -> outcome B) : clean o -> (forall a, clean (k a)) -> clean (obind o k).
Proof. intros Ho Hk e. unfold obind. destruct o as [a|x]; [apply Hk|]. intros [= <-]. by apply Ho. Qed.

Create HintDb clean discriminated.
#[local] Hint Resolve clean_ret clean_obind : clean.
#[local] Hint Extern 1 (clean (Exc (Exn _ _))) => (apply clean_exc; reflexivity) : clean.
Ltac clean_step := repeat first [progress intros | apply clean_obind | case_match | progress auto with clean].

Lemma clean_require name headers : clean (require_header name headers).
Proof. unfold require_header. clean_step. Qed.
#[local] Hint Resolve clean_require : clean.
Lemma clean_mirror name label expected headers : clean (mirror name label expected headers).
Proof. unfold mirror. clean_step. Qed.
#[local] Hint Resolve clean_mirror : clean.
Lemma clean_mirrored headers m : clean (assert_header_body_mirror headers m).
Proof. unfold assert_header_body_mirror. clean_step. Qed.
Lemma clean_read headers : clean (read_headers headers).
Proof. unfold read_headers. clean_step. Qed.
Lemma clean_authorization headers : clean (authorization_header headers).
Proof. unfold authorization_header. clean_step. Qed.
Lemma clean_peek segment_json authorization : clean (peek_client_id segment_json authorization).
Proof. unfold peek_client_id. clean_step. Qed.
Lemma clean_subject claims : clean (subject claims).
Proof. unfold subject. clean_step. Qed.
Lemma clean_actor j claims : clean (command_actor j claims).
Proof. unfold command_actor. repeat case_match; auto using clean_ret, clean_subject. Qed.
Lemma clean_policy sv ct : clean (command_policy sv ct).
Proof. unfold command_policy. clean_step. Qed.

(** the policy refuses with its own error, which the routes translate *)
Definition unauthorized_only {A} (o : outcome A) : Prop := forall e, o = Exc e -> exn_cls e = AutomationAuthorizationError.

Lemma unauthorized_obind {A B} (o : outcome A) (k : A -> outcome B) :
  unauthorized_only o -> (forall a, unauthorized_only (k a)) -> unauthorized_only (obind o k).
Proof. intros Ho Hk e. unfold obind. destruct o as [a|x]; [apply Hk|]. intros [= <-]. by apply Ho. Qed.
Lemma unauthorized_ret {A} (a : A) : unauthorized_only (Ret a).
Proof. by intros e. Qed.
Lemma unauthorized_exc {A} msg : unauthorized_only (unauthorized msg : outcome A).
Proof. by intros e [= <-]. Qed.
Ltac unauthorized_step :=
  repeat first [progress intros | apply unauthorized_obind | apply unauthorized_ret | apply unauthorized_exc | case_match].

Lemma token_unauthorized p claims scope : unauthorized_only (authorize_token p claims scope).
Proof. unfold authorize_token, client, token_scopes. unauthorized_step. Qed.
Lemma family_unauthorized p claims scope family : unauthorized_only (authorize_job_family p claims scope family).
Proof. unfold authorize_job_family. apply unauthorized_obind; [apply token_unauthorized|]. unauthorized_step. Qed.
Lemma resolve_unauthorized p ct : unauthorized_only (resolve_command_family p ct).
Proof. unfold resolve_command_family. unauthorized_step. Qed.
Lemma command_unauthorized p claims ct family : unauthorized_only (authorize_command p claims ct family).
Proof.
  unfold authorize_command. apply unauthorized_obind; [apply resolve_unauthorized|intros f].
  apply unauthorized_obind; [apply token_unauthorized|]. unauthorized_step.
Qed.
Lemma clean_denied {A} (o : outcome A) : unauthorized_only o -> clean (denied_as o).
Proof.
  intros H e. unfold denied_as. destruct o as [a|[c msg]]; [done|]. specialize (H _ eq_refl). simpl in H. subst c.
  by intros [= <-].
Qed.

(** ** Requests *)

(** a step that fails only with such errors, and then changes nothing *)
Definition refuses (P : exn -> Prop) {A} (m : WM A) (w : ApiWorld) : Prop :=
  match m w with (Exc e, w') => P e /\ w' = w | (Ret _, _) => True end.
(** a step that reads, and fails only with such errors *)
Definition checks (P : exn -> Prop) {A} (m : WM A) (w : ApiWorld) : Prop :=
  match m w with (Exc e, w') => P e /\ w' = w | (Ret _, w') => w' = w end.

Lemma refuses_weaken (P Q : exn -> Prop) {A} (m : WM A) w : (forall e, P e -> Q e) -> refuses P m w -> refuses Q m w.
Proof. unfold refuses. destruct (m w) as [[a|e] w']; [done|]. intros H [HP ->]. split; [by apply H|done]. Qed.
Lemma checks_weaken (P Q : exn -> Prop) {A} (m : WM A) w : (forall e, P e -> Q e) -> checks P m w -> checks Q m w.
Proof. unfold checks. destruct (m w) as [[a|e] w']; [done|]. intros H [HP ->]. split; [by apply H|done]. Qed.
Lemma checks_lift (P : exn -> Prop) {A} (o : outcome A) w : (forall e, o = Exc e -> P e) -> checks P (lift_outcome o) w.
Proof. unfold checks, lift_outcome. destruct o; [done|]. intros H. split; [by apply H|done]. Qed.
Lemma checks_bind P {A B} (m : WM A) (k : A -> WM B) w :
  checks P m w -> (forall a, checks P (k a) w) -> checks P (bind m k) w.
Proof. unfold checks, bind. destruct (m w) as [[a|e] w']; [|done]. intros -> Hk. apply Hk. Qed.
Lemma refuses_bind P {A B} (m : WM A) (k : A -> WM B) w :
  checks P m w -> (forall a, refuses P (k a) w) -> refuses P (bind m k) w.
Proof. unfold refuses, checks, bind. destruct (m w) as [[a|e] w']; [|done]. intros -> Hk. apply Hk. Qed.
Lemma refuses_lifted P {A B} (o : outcome A) (k : A -> WM B) w :
  (forall e, o = Exc e -> P e) -> (forall a, refuses P (k a) w) -> refuses P (bind (lift_outcome o) k) w.
Proof. intros Ho. by apply refuses_bind, checks_lift. Qed.
Lemma checks_lifted P {A B} (o : outcome A) (k : A -> WM B) w :
  (forall e, o = Exc e -> P e) -> (forall a, checks P (k a) w) -> checks P (bind (lift_outcome o) k) w.
Proof. intros Ho. by apply checks_bind, checks_lift. Qed.
Lemma checks_raise (P : exn -> Prop) {A} c msg w : P (Exn c msg) -> checks P (raise c msg : WM A) w.
Proof. by split. Qed.
Lemma checks_if P {A} (b : bool) (m1 m2 : WM A) w : checks P m1 w -> checks P m2 w -> checks P (if b then m1 else m2) w.
Proof. by destruct b. Qed.
(** the response is made after the last step *)
Lemma refuses_last P {A B} (m : WM A) (f : A -> B) w : refuses P m w -> refuses P (let! a := m in ret (f a)) w.
Proof. unfold refuses, bind. by destruct (m w) as [[a|e] w']. Qed.

Abbreviation client := (fun e => client_error e = true).

Lemma store_refuses {A} (m : AM A) c f w :
  automation_ok (w_automation w) -> automation_call c (w_automation w) = answering f m (w_automation w) ->
  refuses client (in_automation m) w.
Proof.
  intros Hok Hc. unfold refuses, in_automation, zoom. destruct (m (w_automation w)) as [[a|e] s'] eqn:Hm; [done|].
  unfold answering, bind in Hc. rewrite Hm in Hc. destruct (call_refused _ _ _ _ Hok Hc) as [-> Hr].
  split; [by apply refusal_is_client_error|by destruct w].
Qed.

Lemma get_job_checks t job w : checks client (in_automation (get_job t job)) w.
Proof.
  unfold checks, in_automation, zoom, get_job, bind, raw_job, ret, raise.
  destruct (jobs (w_automation w) !! (t, job)); by destruct w.
Qed.

Lemma store_lease_checks now job b c w : checks client (in_automation (assert_store_lease now job b c)) w.
Proof.
  unfold checks, in_automation, zoom, assert_store_lease, active_lease, bind, raw_job, ret, raise.
  destruct (jobs (w_automation w) !! _) as [raw|]; [destruct (holds_lease now b c raw)|]; by destruct w.
Qed.

Lemma command_refuses `{Externals} sv now c actor client_id w :
  refuses client (in_commands (submit_command sv now c actor client_id)) w.
Proof.
  unfold refuses, in_commands, zoom, submit_command, bind at 1, lift_outcome.
  destruct (validate_submission (sv_policies sv) c actor client_id) as [[]|e] eqn:Hv.
  - unfold submit. cbn [mem_string negb]. destruct (mem_string _ _); cbn [negb]; [|by destruct w].
    unfold bind at 1, gets, id. destruct (match commands (w_commands w) !! _ with Some _ => _ | None => false end); [by destruct w|].
    destruct (match commands (w_commands w) !! _ with Some a => Some a | None => _ end) as [old|]; [|done].
    destruct (negb _); [by destruct w|done].
  - split; [|by destruct w]. destruct e as [cls msg].
    assert (cls = CommandCapabilityDisabled) as ->; [|reflexivity].
    unfold validate_submission, authorize in Hv. repeat case_match; simplify_eq/=; done.
Qed.

Section Routes.
Context `{Externals}.
Context (segment_json : string -> option json) (tokens_verify : string -> string -> string -> outcome jdict).
Hypothesis Hverify : forall authorization client_id scope, clean (tokens_verify authorization client_id scope).

Lemma clean_authorized sv headers scope : clean (authorized segment_json tokens_verify sv headers scope).
Proof.
  unfold authorized. apply clean_obind; [apply clean_authorization|intros auth]. apply clean_obind; [apply clean_peek|intros c].
  apply clean_obind; [apply Hverify|intros claims]. apply clean_obind; [apply clean_denied, token_unauthorized|auto with clean].
Qed.
Lemma clean_family sv claims scope family : clean (authorize_family sv claims scope family).
Proof. apply clean_denied, family_unauthorized. Qed.

Lemma on_job_refuses {A} sv headers m job scope (k : jdict -> string -> AM A) w :
  (forall claims c, refuses client (in_automation (k claims c)) w) ->
  refuses client (on_job segment_json tokens_verify sv headers m job scope k) w.
Proof.
  intros Hk. unfold on_job. apply refuses_lifted; [apply clean_mirrored|intros _].
  apply refuses_lifted; [apply clean_authorized|intros [[claims c] p]].
  apply refuses_bind; [apply get_job_checks|intros j].
  apply refuses_lifted; [apply clean_family|intros _]. apply Hk.
Qed.

(** ** The thirteen routes *)

Inductive ApiRequest :=
  | ask_claim (b : JobClaimRequest)
  | ask_job (job : UUID)
  | ask_heartbeat (job : UUID) (b : LeaseMutation)
  | ask_step (job : UUID) (b : StepRecord)
  | ask_complete (job : UUID) (b : TerminalResult)
  | ask_fail (job : UUID) (b : FailureResult)
  | ask_submit (b : AutomationCommandRequest)
  | ask_command (command : UUID)
  | ask_approval (b : ApprovalRequest)
  | ask_approval_state (approval : UUID)
  | ask_replay (dead : UUID) (b : DeadLetterReplayRequest)
  | ask_reconcile (b : ReconciliationRequest)
  | ask_capability (capability : string).

Definition api_call (sv : AutomationService) (tk : Tick) (r : ApiRequest) (headers : Headers) : WM Response :=
  match r with
  | ask_claim b => claim_automation_job segment_json tokens_verify sv tk b headers
  | ask_job job => read_automation_job segment_json tokens_verify sv job headers
  | ask_heartbeat job b => heartbeat_automation_job segment_json tokens_verify sv tk job b headers
  | ask_step job b => record_automation_step segment_json tokens_verify sv tk job b headers
  | ask_complete job b => complete_automation_job segment_json tokens_verify sv tk job b headers
  | ask_fail job b => fail_automation_job segment_json tokens_verify sv tk job b headers
  | ask_submit b => submit_automation_command segment_json tokens_verify sv tk b headers
  | ask_command command => read_automation_command segment_json tokens_verify sv command headers
  | ask_approval b => request_automation_approval segment_json tokens_verify sv tk b headers
  | ask_approval_state u => read_automation_approval segment_json tokens_verify sv tk u headers
  | ask_replay u b => replay_automation_dead_letter segment_json tokens_verify sv tk u b headers
  | ask_reconcile b => reconcile_automation_jobs segment_json tokens_verify sv tk b headers
  | ask_capability capability => read_automation_capability segment_json tokens_verify sv capability headers
  end.

(** the two exceptions that are not translated *)
Definition untranslated (r : ApiRequest) (e : exn) : Prop :=
  match r with
  | ask_submit _ => exn_cls e = ValueError
  | ask_command _ => exn_cls e = AutomationAuthorizationError
  | _ => False
  end.
Definition answered_or (r : ApiRequest) (e : exn) : Prop := client_error e = true \/ untranslated r e.

Lemma answered_clean r {A} (o : outcome A) : clean o -> forall e, o = Exc e -> answered_or r e.
Proof. intros Ho e He. left. by apply Ho. Qed.
Lemma answered_checks r {A} (m : WM A) w : checks client m w -> checks (answered_or r) m w.
Proof. apply checks_weaken. intros e He. by left. Qed.

Lemma submission_checks sv tk b headers w :
  checks (answered_or (ask_submit b)) (authorize_submission segment_json tokens_verify sv tk b headers) w.
Proof.
  unfold authorize_submission. apply checks_lifted; [apply answered_clean, clean_mirrored|intros _].
  apply checks_lifted; [apply answered_clean, clean_authorization|intros auth].
  apply checks_lifted; [apply answered_clean, clean_peek|intros c].
  apply checks_lifted; [apply answered_clean, clean_denied, resolve_unauthorized|intros family].
  apply checks_if; [apply checks_raise; by left|].
  apply checks_lifted; [apply answered_clean, Hverify|intros claims].
  apply checks_lifted; [apply answered_clean, clean_denied, token_unauthorized|intros _].
  apply checks_bind; [apply answered_checks, store_lease_checks|intros j].
  apply checks_if; [apply checks_raise; by left|]. apply checks_if; [apply checks_raise; by left|].
  apply checks_lifted; [apply answered_clean, clean_denied, command_unauthorized|intros _].
  apply checks_lifted; [apply answered_clean, clean_policy|intros p].
  apply checks_lifted; [apply answered_clean, clean_actor|intros actor].
  apply checks_if; [done|]. apply checks_raise. by right.
Qed.

Lemma submit_refuses sv tk b headers w : refuses (answered_or (ask_submit b)) (api_call sv tk (ask_submit b) headers) w.
Proof.
  simpl. unfold submit_automation_command. apply refuses_bind; [apply submission_checks|intros [[command actor] c]].
  apply refuses_last. eapply refuses_weaken; [|apply command_refuses]. intros e He. by left.
Qed.

Lemma command_read_refuses sv tk u headers w : refuses (answered_or (ask_command u)) (api_call sv tk (ask_command u) headers) w.
Proof.
  simpl. unfold read_automation_command. apply refuses_lifted; [apply answered_clean, clean_read|intros tc].
  apply refuses_lifted; [apply answered_clean, clean_authorized|intros who]. apply refuses_bind.
  - unfold checks, in_commands, zoom, Ledger.get. destruct (commands (w_commands w) !! _) as [[h o]|]; [by destruct w|].
    split; [by left|by destruct w].
  - intros o. apply refuses_lifted; [intros e He; right; by apply (resolve_unauthorized _ _ _ He)|intros family].
    destruct (negb _); [split; [by left|done]|done].
Qed.

(** the exceptions of a request, and what they leave *)
Definition outcome_of_refusal (tk : Tick) (r : ApiRequest) (headers : Headers) (w : ApiWorld) (e : exn) (w' : ApiWorld) : Prop :=
  answered_or r e /\
  (w' = w \/
   exists u tenant a, r = ask_approval_state u /\
     get_approval (tk_now tk) (tk_now2 tk) tenant u (w_automation w) = (Ret a, w_automation w') /\
     w_commands w' = w_commands w /\ w_inbox w' = w_inbox w /\ w_held w' = w_held w).

Lemma refused_plain r tk headers w (m : WM Response) e w' :
  refuses client m w -> m w = (Exc e, w') -> outcome_of_refusal tk r headers w e w'.
Proof. unfold refuses. intros Hr Hm. rewrite Hm in Hr. destruct Hr as [He ->]. split; [by left|by left]. Qed.

Lemma approval_read_refused sv tk u headers w e w' :
  automation_ok (w_automation w) -> api_call sv tk (ask_approval_state u) headers w = (Exc e, w') ->
  outcome_of_refusal tk (ask_approval_state u) headers w e w'.
Proof.
  intros Hok. simpl. unfold read_automation_approval, bind at 1, lift_outcome at 1.
  destruct (read_headers headers) as [tc|x] eqn:Hh; [|intros [= <- <-]; split; [left; by apply (clean_read headers)|by left]].
  unfold bind at 1, lift_outcome at 1.
  destruct (authorized segment_json tokens_verify sv headers _) as [who|x] eqn:Ha;
    [|intros [= <- <-]; split; [left; by apply (clean_authorized sv headers "automation.approval.read")|by left]].
  pose proof (store_refuses (get_approval (tk_now tk) (tk_now2 tk) (fst tc) u) (do_get_approval (tk_now tk) (tk_now2 tk) (fst tc) u)
    re_approval w Hok eq_refl) as Hs.
  unfold bind at 1. unfold refuses, in_automation, zoom in Hs. unfold in_automation at 1, zoom at 1.
  destruct (get_approval (tk_now tk) (tk_now2 tk) (fst tc) u (w_automation w)) as [[a|x] s] eqn:Hg;
    [|intros [= <- <-]; destruct Hs as [He Hw]; split; [by left|by left]].
  set (w1 := mkWorld s (w_commands w) (w_inbox w) (w_held w)). intros Hrest.
  assert (client_error e = true /\ w' = w1) as [He ->].
  { assert (refuses client (let! j := in_automation (get_job (fst tc) (ap_job_id a)) in
      lift_outcome (authorize_family sv (fst (fst who)) "automation.approval.read" (jb_workflow_family (aj_data j))) ;;;
      ret (respond 200 (body_approval a) (snd tc))) w1) as Hc.
    { apply refuses_bind; [apply get_job_checks|intros j]. by apply refuses_lifted; [apply clean_family|]. }
    unfold refuses in Hc. by rewrite Hrest in Hc. }
  split; [by left|right]. by exists u, (fst tc), a.
Qed.

Lemma plain_refused sv tk r headers w e w' :
  automation_ok (w_automation w) -> (forall u, r <> ask_approval_state u) ->
  api_call sv tk r headers w = (Exc e, w') -> answered_or r e /\ w' = w.
Proof.
  intros Hok Hr Hcall. assert (refuses (answered_or r) (api_call sv tk r headers) w) as Href.
  2: { unfold refuses in Href. by rewrite Hcall in Href. }
  assert (Hweak : forall (m : WM Response), refuses client m w -> refuses (answered_or r) m w).
  { intros m. apply refuses_weaken. intros x Hx. by left. }
  destruct r as [b|job|job b|job b|job b|job b|b|command|b|approval|u b|b|capability].
  - apply Hweak; simpl. apply refuses_last, on_job_refuses. intros claims c. by eapply store_refuses with (c := do_claim _ _ _).
  - apply Hweak. simpl. unfold read_automation_job. apply refuses_lifted; [apply clean_read|intros tc].
    apply refuses_lifted; [apply clean_authorized|intros who]. apply refuses_bind; [apply get_job_checks|intros j].
    by apply refuses_lifted; [apply clean_family|].
  - apply Hweak; simpl. apply refuses_last, on_job_refuses. intros claims c. by eapply store_refuses with (c := do_heartbeat _ _ _ _ _).
  - apply Hweak; simpl. apply refuses_last, on_job_refuses. intros claims c. by eapply store_refuses with (c := do_step _ _ _ _ _).
  - apply Hweak; simpl. apply refuses_last, on_job_refuses. intros claims c. by eapply store_refuses with (c := do_complete _ _ _ _ _).
  - apply Hweak; simpl. apply refuses_last, on_job_refuses. intros claims c. by eapply store_refuses with (c := do_fail _ _ _ _ _ _).
  - apply submit_refuses.
  - apply command_read_refuses.
  - apply Hweak; simpl. apply refuses_last, on_job_refuses. intros claims c. unfold refuses, in_automation, zoom, bind, lift_outcome.
    destruct (subject claims) as [by_|x] eqn:Hs; [|split; [by apply (clean_subject claims)|by destruct w]].
    by apply (store_refuses (request_approval (tk_now tk) b c by_) (do_request_approval (tk_now tk) b c by_) re_approval w).
  - by destruct (Hr approval).
  - apply Hweak. simpl. unfold replay_automation_dead_letter. apply refuses_lifted; [apply clean_mirrored|intros _].
    apply refuses_lifted; [apply clean_authorized|intros who]. destruct (negb _); [done|].
    apply refuses_last. by eapply store_refuses with (c := do_replay _ _ _ _ _ _).
  - apply Hweak. simpl. unfold reconcile_automation_jobs. apply refuses_lifted; [apply clean_mirrored|intros _].
    apply refuses_lifted; [apply clean_authorized|intros [[claims c] p]]. destruct (negb _); [done|].
    apply refuses_lifted; [apply clean_subject|intros by_]. apply refuses_last. by eapply store_refuses with (c := do_reconcile _ _ _).
  - apply Hweak. simpl. unfold read_automation_capability. apply refuses_lifted; [apply clean_read|intros tc].
    apply refuses_lifted; [apply clean_authorized|intros who]. destruct (negb _); [done|]. by destruct (negb _).
Qed.
End Routes.


(** The two functions that answer domain errors agree but for a failing store: the
    one [create_app] registers first would answer [500], the one it registers
    after it answers [503] *)
Theorem envelopes_differ_on_storage correlation e :
  handled e = true -> (forall name bases, exn_cls e <> Foreign name bases) ->
  if isinstance e ["StorageError"]
  then er_status (domain_error correlation e) = 500 /\ er_status (answer_error correlation e) = 503
  else domain_error correlation e = answer_error correlation e.
Proof. destruct e as [[] msg]; try discriminate; intros _ Hf; try reflexivity; try (split; reflexivity). by destruct (Hf name bases). Qed.
