(* ===== verification/IngressProps.v ===== *)
(** * Properties of the ingress of events

    What an accepted webhook has been checked for and what it leaves behind,
    its repetition, and the exclusion the Redis guard gives. *)

From Stdlib Require Import Ascii QArith.
From S2P Require Import Prelude Json PyValue Clock Sha256 Uuid Commands Inbox.
From S2P Require Import AutomationPolicy Automation Security AutomationApi Ingress.
Local Open Scope Z_scope.
#[local] Opaque sha256_hex uuid5.

(** ** Jobs of an event *)

Definition event_job (e : EventEnvelope) (r : WorkflowRoute) : JobKey := (ev_tenant_id e, job_id_of (ev_tenant_id e) (ev_event_id e) r).

Lemma enqueue_run token now e r source s :
  exists s', enqueue_event token now e r source s = (Ret tt, s') /\ is_Some (jobs s' !! event_job e r) /\
    (forall k raw, jobs s !! k = Some raw -> jobs s' !! k = Some raw) /\
    (is_Some (jobs s !! event_job e r) -> s' = s).
Proof.
  unfold enqueue_event, bind, gets, id, ret, modify. fold (event_job e r).
  destruct (jobs s !! event_job e r) as [raw|] eqn:Hk.
  - exists s. rewrite Hk. by repeat split.
  - eexists. split; [reflexivity|]. simpl. rewrite lookup_insert_eq. repeat split; [by eexists| |by intros []].
    intros k raw Hraw. rewrite lookup_insert_ne; [done|]. congruence.
Qed.

Lemma routes_run fresh now e source rs : forall n s,
  exists s', enqueue_routes fresh now e source n rs s = (Ret tt, s') /\
    (forall r, In r rs -> is_Some (jobs s' !! event_job e r)) /\
    (forall k raw, jobs s !! k = Some raw -> jobs s' !! k = Some raw) /\
    ((forall r, In r rs -> is_Some (jobs s !! event_job e r)) -> s' = s).
Proof.
  induction rs as [|r rs IH]; intros n s; [exists s; by repeat split|].
  destruct (enqueue_run (fresh n) (now n) e r source s) as (s1 & H1 & Hr & Hold & Hsame).
  destruct (IH (S n) s1) as (s2 & H2 & Hrs & Hold2 & Hsame2). exists s2. simpl. unfold bind. rewrite H1.
  split; [done|]. repeat split.
  - intros x [<-|Hx]; [|by apply Hrs]. destruct Hr as [raw Hraw]. exists raw. by apply Hold2.
  - intros k raw Hk. by apply Hold2, Hold.
  - intros Hall. rewrite <- (Hsame (Hall r (or_introl eq_refl))). apply Hsame2. intros x Hx.
    rewrite (Hsame (Hall r (or_introl eq_refl))). apply Hall. by right.
Qed.

(** ** The inbox, again *)

Lemma accept_repeat c s r s1 : accept c s = (Ret r, s1) -> accept c s1 = (Ret (Inbox.as_duplicate r), s1).
Proof.
  unfold accept. destruct (negb (bool_decide (canonical_payload_sha256 _ = _))); [done|].
  set (ek := event_key c). set (ik := idempotency_key_of c).
  destruct (match event_items s !! ek with
            | Some (_, r1) => match idempotency_items s !! ik with
                              | Some (_, r2) => negb (bool_decide (ing_event_id r1 = ing_event_id r2)) | None => false end
            | None => false end) eqn:Hd; [done|].
  destruct (match event_items s !! ek with Some x => Some x | None => idempotency_items s !! ik end) as [[h x]|] eqn:Hx.
  - destruct (negb (bool_decide (h = _))) eqn:Hh; [done|]. intros [= <- <-]. by rewrite Hd, Hx, Hh.
  - intros [= <- <-]. cbn [append_event_record event_items idempotency_items]. fold ek ik.
    rewrite !lookup_insert_eq. cbn [fst snd]. by rewrite !bool_decide_eq_true_2.
Qed.

Lemma world_eta w : mkWorld (w_automation w) (w_commands w) (w_inbox w) (w_held w) = w.
Proof. by destruct w. Qed.

Lemma accept_event_run sv fresh now c w r w1 :
  accept_event sv fresh now c w = (Ret r, w1) ->
  exists i1, accept c (w_inbox w) = (Ret r, i1) /\
    w1 = mkWorld (snd (enqueue_routes fresh now (in_envelope c) (in_producer_client_id c) 0
                         (for_event (sv_router sv) (ev_event_type (in_envelope c))) (w_automation w)))
           (w_commands w) i1 (w_held w).
Proof.
  unfold accept_event, in_inbox, in_automation, zoom, bind, ret. destruct (accept c (w_inbox w)) as [[x|e] i1]; [|done].
  cbn [w_automation w_commands w_inbox w_held].
  destruct (routes_run fresh now (in_envelope c) (in_producer_client_id c) (for_event (sv_router sv) (ev_event_type (in_envelope c)))
              0 (w_automation w)) as (s' & -> & _). intros [= <- <-]. by exists i1.
Qed.

(** An accepted event leaves a job for every route of its type and changes
    no job that was there; accepting it again, with other tokens at another
    time, is answered as a duplicate and changes nothing at all: the inbox, the
    ledger and the jobs are exactly as they were. *)
Theorem event_accepted_once sv fresh now c w r w1 :
  accept_event sv fresh now c w = (Ret r, w1) ->
  accept c (w_inbox w) = (Ret r, w_inbox w1) /\ w_commands w1 = w_commands w /\
  (forall route, In route (for_event (sv_router sv) (ev_event_type (in_envelope c))) ->
     is_Some (jobs (w_automation w1) !! event_job (in_envelope c) route)) /\
  (forall k raw, jobs (w_automation w) !! k = Some raw -> jobs (w_automation w1) !! k = Some raw) /\
  forall fresh' now', accept_event sv fresh' now' c w1 = (Ret (Inbox.as_duplicate r), w1).
Proof.
  intros H. destruct (accept_event_run _ _ _ _ _ _ _ H) as (i1 & Hi & Hw).
  destruct (routes_run fresh now (in_envelope c) (in_producer_client_id c) (for_event (sv_router sv) (ev_event_type (in_envelope c)))
              0 (w_automation w)) as (s' & Hr & Hall & Hold & _). rewrite Hr in Hw. cbn [snd] in Hw. subst w1. cbn [w_automation w_commands w_inbox].
  split; [done|]. split; [done|]. split; [done|]. split; [done|]. intros fresh' now'.
  unfold accept_event, in_inbox, in_automation, zoom, bind, ret. cbn [w_automation w_commands w_inbox w_held].
  rewrite (accept_repeat _ _ _ _ Hi). cbn [w_automation w_commands w_inbox w_held].
  destruct (routes_run fresh' now' (in_envelope c) (in_producer_client_id c) (for_event (sv_router sv) (ev_event_type (in_envelope c)))
              0 s') as (s2 & -> & _ & _ & Hsame). by rewrite (Hsame Hall).
Qed.

Lemma held_again (k : string * string) (held : gset (string * string)) : k ∉ held -> ({[k]} ∪ held) ∖ {[k]} = held.
Proof. set_solver. Qed.

Lemma check_envelope_ok route claims signed e :
  check_envelope route claims signed e = Ret tt ->
  authorize_tenant claims (ev_tenant_id e) = Ret tt /\ ev_event_type e ∈ wr_event_types route /\
  sg_event_type signed = ev_event_type e /\ sg_event_id signed = ev_event_id e /\ sg_tenant_id signed = ev_tenant_id e /\
  sg_correlation_id signed = ev_correlation_id e /\ ev_idempotency_key e = sg_idempotency_key signed /\
  ev_source e = wr_producer_client_id route.
Proof.
  unfold check_envelope, obind. destruct (authorize_tenant _ _) as [[]|]; [|done].
  destruct (mem_string _ _) eqn:Hm; [|done]. apply mem_string_spec in Hm. cbn [negb].
  repeat (match goal with |- context [String.eqb ?a ?b] => destruct (String.eqb_spec a b) end; cbn [negb]; [|done]).
  done.
Qed.

(** C29: a webhook that is accepted was signed by its route's producer, and its
    body is an event of a type of the route, from the producer, in a tenant its
    token may act for, with the identity and type of the signed headers; the
    event went through the inbox, every route of its type has a job, the replay
    guard is free again, and the answer is 200 exactly for a duplicate. *)
Theorem webhook_accepted fot iso parse sv settings fresh clock now route claims method path body headers w result status w' :
  accept_webhook fot iso parse sv settings fresh clock now route claims method path body headers w = (Ret (result, status), w') ->
  exists signed e,
    verify_signed_request fot iso settings clock method path body headers (wr_producer_client_id route) = Ret signed /\
    parse body = Ret e /\ check_envelope route claims signed e = Ret tt /\
    ev_event_type e ∈ wr_event_types route /\ ev_tenant_id e = sg_tenant_id signed /\ ev_event_id e = sg_event_id signed /\
    replay_key e ∉ w_held w /\ w_held w' = w_held w /\
    accept (webhook_ingress route e) (w_inbox w) = (Ret result, w_inbox w') /\
    (forall r, In r (for_event (sv_router sv) (ev_event_type e)) -> is_Some (jobs (w_automation w') !! event_job e r)) /\
    status = (if ing_is_duplicate result then 200 else 202).
Proof.
  unfold accept_webhook, bind at 1, lift_outcome at 1.
  destruct (verify_signed_request _ _ _ _ _ _ _ _ _) as [signed|]; [|done]. destruct (parse body) as [e|ex] eqn:Hp; [|by case_match].
  unfold bind at 1, lift_outcome at 1. destruct (check_envelope route claims signed e) as [[]|] eqn:Hc; [|done].
  destruct (check_envelope_ok _ _ _ _ Hc) as (_ & Hty & _ & Hid & Ht & _).
  unfold bind, guarded, guard_acquire, accepted_or_conflict. case_bool_decide as Hheld; [done|].
  destruct (accept_event _ _ _ _ _) as [[x|ex] w1] eqn:Ha; [|done]. cbn. intros [= <- <- <-].
  exists signed, e. destruct (accept_event_run _ _ _ _ _ _ _ Ha) as (i1 & Hi & Hw1).
  cbn [w_inbox w_automation w_commands w_held] in Hi, Hw1. repeat split; try done.
  - subst w1. cbn [w_held]. by apply held_again.
  - subst w1. done.
  - intros r Hr. subst w1. cbn [w_automation].
    destruct (routes_run fresh now e (wr_producer_client_id route) (for_event (sv_router sv) (ev_event_type e)) 0 (w_automation w))
      as (s' & Hrun & Hall & _). simpl. rewrite Hrun. by apply Hall.
Qed.

(** ** The routes of the contract *)

Lemma at_endpoint_spec connector endpoint x : at_endpoint connector endpoint x = true <-> fst x = (connector, endpoint).
Proof. destruct x as [[a b] r]. unfold at_endpoint. simpl. rewrite andb_true_iff, !String.eqb_eq. split; [by intros [-> ->]|by intros [= -> ->]]. Qed.

(** an index over [rs]: every entry under its own keys, no key twice *)
Record endpoint_index (rs : list WebhookRoute) (index : EndpointIndex) : Prop := {
  ei_routes : map snd index = rs;
  ei_keys : NoDup (map fst index);
  ei_own : Forall (fun x => connector_key (snd x) = Ret (fst (fst x)) /\ endpoint_key (snd x) = Ret (snd (fst x))) index;
}.

Lemma index_routes_ok rs : forall done index conns index' conns',
  endpoint_index done index -> index_routes index conns rs = Ret (index', conns') -> endpoint_index (done ++ rs) index'.
Proof.
  induction rs as [|r rs IH]; intros done index conns index' conns' [Hr Hk Ho]; simpl.
  { intros [= <- <-]. by rewrite app_nil_r. }
  unfold obind. destruct (connector_key r) as [c|] eqn:Hc; [|done]. destruct (endpoint_key r) as [e|] eqn:He; [|done].
  destruct (existsb (at_endpoint c e) index) eqn:Hx; [done|]. intros Hrest.
  change (r :: rs) with ([r] ++ rs). rewrite app_assoc. eapply IH; [|exact Hrest]. split.
  - by rewrite map_app, Hr.
  - rewrite map_app. apply NoDup_app. split_and!; [done| |apply NoDup_singleton]. intros x Hin Hx1.
    apply list_elem_of_singleton in Hx1 as ->. apply list_elem_of_fmap in Hin as (y & Hy & Hin).
    apply not_true_iff_false in Hx. apply Hx, existsb_exists. exists y. split; [by apply list_elem_of_In|by apply at_endpoint_spec].
  - apply Forall_app. split; [done|]. by repeat constructor.
Qed.

Lemma find_endpoint index c e r :
  NoDup (map fst index) -> In ((c, e), r) index -> List.find (at_endpoint c e) index = Some ((c, e), r).
Proof.
  induction index as [|x index IH]; simpl; [done|]. intros [Hx Hnd]%NoDup_cons [->|Hin].
  - by rewrite (proj2 (at_endpoint_spec c e ((c, e), r)) eq_refl).
  - destruct (at_endpoint c e x) eqn:Ha; [|by apply IH]. apply at_endpoint_spec in Ha. exfalso. apply Hx. rewrite Ha.
    change (c, e) with (fst ((c, e), r)). apply list_elem_of_fmap_2. by apply list_elem_of_In.
Qed.

(** When the routes of the contract can be indexed, every route is found
    under its own connector and endpoint, what is found there is a route of the
    contract with exactly those keys, no two routes share them, and the
    telephony connector is bound to the dialler's own producer; a request is
    accepted by the found route at the request's own path. *)
Theorem webhook_routes_indexed rs by_endpoint by_connector :
  build_route_indexes rs = Ret (by_endpoint, by_connector) ->
  map snd by_endpoint = rs /\ NoDup (map fst by_endpoint) /\
  (forall r, In r rs -> exists connector endpoint, connector_key r = Ret connector /\ endpoint_key r = Ret endpoint /\
     route_for_connector_endpoint by_endpoint connector endpoint = Ret r) /\
  (forall connector endpoint webhook path r, generic_webhook_route by_endpoint connector endpoint webhook path = Ret r ->
     exists base, In base rs /\ connector_key base = Ret connector /\ endpoint_key base = Ret endpoint /\ r = route_at path base) /\
  exists r, dict_get "vicidial" by_connector = Some r /\ In r rs /\ wr_producer_client_id r = "vicidial-adapter".
Proof.
  unfold build_route_indexes, obind. destruct (index_routes [] [] rs) as [[ie ic]|] eqn:Hi; [|done].
  destruct (List.find _ rs) as [v|] eqn:Hv; [|done]. intros [= -> <-].
  assert (endpoint_index rs by_endpoint) as [Hr Hk Ho].
  { apply (index_routes_ok rs [] [] [] by_endpoint ic); [split; [done|constructor|constructor]|done]. }
  split_and!; [done|done| | |].
  - intros r Hin. rewrite <- Hr in Hin. apply in_map_iff in Hin as ([[c e] r'] & <- & Hin). simpl.
    assert (Hown := Ho). rewrite Forall_forall in Hown. destruct (Hown ((c, e), r')) as [Hc He]; [by apply list_elem_of_In|].
    exists c, e. split_and!; [done|done|]. unfold route_for_connector_endpoint. by rewrite (find_endpoint _ c e r').
  - intros c e webhook path r. unfold generic_webhook_route. destruct (_ || _); [done|].
    unfold route_for_connector_endpoint, obind. destruct (List.find _ by_endpoint) as [x|] eqn:Hf; [|done]. intros [= <-].
    apply find_some in Hf as [Hin Hx]. apply at_endpoint_spec in Hx. rewrite Forall_forall in Ho.
    destruct (Ho x) as [Hc He]; [by apply list_elem_of_In|]. rewrite Hx in Hc, He. exists (snd x). split_and!; try done.
    rewrite <- Hr. by apply in_map.
  - apply find_some in Hv as [Hin Hp]. apply String.eqb_eq in Hp. exists v. split_and!; try done. apply dict_get_set_eq.
Qed.

(** ** The Redis guard *)

Inductive GuardCall :=
  | g_acquire (now : instant) (token t event : string)
  | g_release (now : instant) (t event token : string).
Definition guard_call (c : GuardCall) (r : Redis) : Redis :=
  match c with
  | g_acquire now token t event => snd (redis_acquire now token t event r)
  | g_release now t event token => snd (redis_release now t event token r)
  end.
Definition guard_time (c : GuardCall) : instant := match c with g_acquire now _ _ _ | g_release now _ _ _ => now end.
Definition releases_with (token : string) (c : GuardCall) : bool :=
  match c with g_release _ _ _ x => String.eqb x token | _ => false end.

Lemma lock_held n k v (r : Redis) : r !! k = Some v -> n < rk_expires_at v -> redis_get n k r = Some (rk_token v).
Proof. intros H Hn. unfold redis_get. rewrite H. by rewrite (proj2 (Z.ltb_lt _ _) Hn). Qed.

Lemma lock_stays c k v (r : Redis) :
  r !! k = Some v -> guard_time c < rk_expires_at v -> releases_with (rk_token v) c = false -> guard_call c r !! k = Some v.
Proof.
  intros Hk Ht Hr. destruct c as [now token t event|now t event token]; simpl in *.
  - unfold redis_acquire. destruct (decide (redis_key t event = k)) as [->|Hne].
    + by rewrite (lock_held now _ v r Hk Ht).
    + destruct (redis_get _ _ _); simpl; [done|]. by rewrite lookup_insert_ne.
  - unfold redis_release. case_bool_decide as Hb; simpl; [|done].
    destruct (decide (redis_key t event = k)) as [Heq|Hne]; [|by rewrite lookup_delete_ne].
    rewrite Heq in Hb. rewrite (lock_held now _ v r Hk Ht) in Hb. injection Hb as <-. by rewrite String.eqb_refl in Hr.
Qed.

(** The Redis guard excludes: once a worker holds the lock of an event, no
    other worker acquires it before it expires, whatever the workers do to this
    or any other event in between, unless its own token is released; the
    release of the holder frees it, and the release of a worker whose lock
    expired leaves the lock of the one after it alone. *)
Theorem redis_lock_exclusive now token t event r r1 cs :
  redis_acquire now token t event r = (Ret token, r1) ->
  Forall (fun c => guard_time c < now + Clock.seconds LOCK_SECONDS /\ releases_with token c = false) cs ->
  let r2 := fold_left (fun r c => guard_call c r) cs r1 in
  (forall n token', n < now + Clock.seconds LOCK_SECONDS ->
     redis_acquire n token' t event r2 = (Exc (Exn ReplayBusy "event is already being processed"), r2)) /\
  (forall n token', n < now + Clock.seconds LOCK_SECONDS -> token' <> token -> snd (redis_release n t event token' r2) = r2) /\
  (forall n n2 token', n < now + Clock.seconds LOCK_SECONDS ->
     fst (redis_acquire n2 token' t event (snd (redis_release n t event token r2))) = Ret token').
Proof.
  intros H Hcs r2. set (v := {| rk_token := token; rk_expires_at := now + Clock.seconds LOCK_SECONDS |}).
  assert (H1 : r1 !! redis_key t event = Some v).
  { unfold redis_acquire in H. destruct (redis_get _ _ _); [done|]. injection H as <-. apply lookup_insert_eq. }
  assert (H2 : r2 !! redis_key t event = Some v).
  { subst r2. clear H. revert r1 H1. induction Hcs as [|c cs [Ht Hr] _ IH]; intros r1 H1; [done|]. simpl. apply IH.
    by apply lock_stays. }
  assert (Hget : forall n, n < now + Clock.seconds LOCK_SECONDS -> redis_get n (redis_key t event) r2 = Some token)
    by (intros n Hn; by apply (lock_held n _ v)).
  repeat split.
  - intros n token' Hn. unfold redis_acquire. by rewrite Hget.
  - intros n token' Hn Hne. unfold redis_release. rewrite Hget by done. by rewrite bool_decide_eq_false_2 by congruence.
  - intros n n2 token' Hn. unfold redis_release, redis_acquire. rewrite Hget by done. rewrite bool_decide_eq_true_2 by done.
    simpl. unfold redis_get. by rewrite lookup_delete_eq.
Qed.
