(* ===== verification/PgEventsProps.v ===== *)
(** * Properties of atomic acceptance

    An event is accepted with all of its effects or none of them, once; and the
    acceptance over the tables is the one over the in-memory stores. *)

From stdpp Require Import sorting pretty.
From Stdlib Require Import QArith.
From S2P Require Import Prelude Json PyValue Clock Sha256 Uuid Commands Outbox Inbox.
From S2P Require Import InboxFacts PgLedger PgInbox PgInboxFacts AutomationPolicy Automation.
From S2P Require Import AutomationFacts PgAutomation PgAutomationFacts AutomationApi PgEvents.
From S2P Require Import PgInboxProps.
Local Open Scope Z_scope.
#[local] Opaque event_ledger_hash canonical_payload_sha256 sha256_hex uuid5.

(** ** Facts about atomic acceptance

    What the inbox's statements and the jobs' statements of one transaction
    leave, and the same acceptance in memory. *)

(** ** The inbox *)

(** the same call with its publication destination *)
Definition to_nats (c : DurableIngress) : DurableIngress := {|
  di_ingress := di_ingress c; di_body_sha256 := di_body_sha256 c; di_destination := NATS_JETSTREAM_DESTINATION;
  di_now := di_now c; di_db_now := di_db_now c |}.

Definition well_hashed (c : DurableIngress) : Prop :=
  canonical_payload_sha256 (event_dump (di_envelope c)) = in_semantic_sha256 (di_ingress c).

Lemma record_event_run c d :
  pg_inbox_ok d -> well_hashed c -> existing_events (di_envelope c) d = [] ->
  fst (record_event c d) = (if slot_taken (to_nats c) d then intent_violation else Ret tt) /\
  (slot_taken (to_nats c) d = false -> snd (record_event c d) = taken_in (to_nats c) d).
Proof.
  intros Hok Hsem He. unfold record_event, bind, modify, insert_entry.
  change (next_entry c (mkInboxDB (ib_rows d ++ [inbox_row c]) (ib_ledger d) (ib_outbox d))) with (next_entry c d).
  cbn [ib_ledger ib_rows ib_outbox]. rewrite (next_entry_free c) by done. cbn [ib_ledger ib_rows ib_outbox].
  unfold insert_intent. cbn [ib_ledger ib_rows ib_outbox].
  change (di_destination (to_nats c)) with NATS_JETSTREAM_DESTINATION. change (di_envelope (to_nats c)) with (di_envelope c).
  by destruct (existsb _ (ib_outbox d)).
Qed.

(** rows of two identities are never taken for one *)
Lemma existing_distinct e d r r2 rows :
  pg_inbox_ok d -> existing_events e d = r :: r2 :: rows ->
  forallb (fun x => bool_decide (identity_of x = identity_of r)) (r2 :: rows) = false.
Proof.
  intros Hok He. apply not_true_iff_false. simpl. rewrite andb_true_iff, bool_decide_eq_true. intros [Hi _].
  pose proof (NoDup_existing e d Hok) as Hnd. rewrite He in Hnd. apply NoDup_cons in Hnd as [Hn _]. apply Hn.
  assert (r ∈ existing_events e d) as H1 by (rewrite He; left).
  assert (r2 ∈ existing_events e d) as H2 by (rewrite He; right; left).
  apply elem_of_existing_events in H1 as (I1 & T1 & _), H2 as (I2 & T2 & _).
  injection Hi as Hev _. replace r with r2; [left|]. apply (row_by_event d); congruence.
Qed.

(** the one row of an event that was there *)
Definition seen_before (c : DurableIngress) (d : InboxDB) : Prop :=
  exists r, existing_events (di_envelope c) d = [r] /\ ib_semantic_sha256 r = in_semantic_sha256 (di_ingress c).

Lemma take_event_cases c d :
  pg_inbox_ok d -> well_hashed c ->
  match take_event c d with
  | (Ret true, d') => d' = d /\ seen_before c d
  | (Ret false, d') => d' = taken_in (to_nats c) d /\ existing_events (di_envelope c) d = []
  | (Exc _, _) => ~ seen_before c d
  end.
Proof.
  intros Hok Hsem. unfold take_event, bind at 1, gets. cbn [id]. unfold seen_before.
  destruct (existing_events (di_envelope c) d) as [|r [|r2 rows]] eqn:He.
  - destruct (record_event_run c d Hok Hsem He) as [Hf Hs]. unfold bind.
    destruct (record_event c d) as [[[]|ex] d'] eqn:Hr; cbn [fst snd] in *; [|by intros (? & ? & _)].
    destruct (slot_taken _ _); [done|]. split; [by apply Hs|done].
  - cbn [forallb negb orb]. destruct (String.eqb_spec (ib_semantic_sha256 r) (in_semantic_sha256 (di_ingress c))) as [Hq|Hq]; cbn [negb].
    + split; [done|]. by exists r.
    + intros (x & [= <-] & ?). done.
  - rewrite (existing_distinct _ _ _ _ _ Hok He). cbn [negb orb raise]. by intros (x & ? & _).
Qed.

Lemma taken_seen c d :
  pg_inbox_ok d -> well_hashed c -> existing_events (di_envelope c) d = [] -> seen_before c (taken_in (to_nats c) d).
Proof.
  intros Hok Hsem He. exists (inbox_row c). split; [|done].
  pose proof (taken_in_ok (to_nats c) d Hok Hsem He) as Hok'.
  apply NoDup_only; [by apply NoDup_existing|]. intros x. rewrite elem_of_existing_events. cbn [taken_in ib_rows].
  change (inbox_row (to_nats c)) with (inbox_row c). rewrite elem_of_app, list_elem_of_singleton. split.
  - intros ([Hx|Hx] & Ht & Hk); [|done]. exfalso.
    assert (x ∈ existing_events (di_envelope c) d) as Hin by by apply elem_of_existing_events.
    rewrite He in Hin. by apply elem_of_nil in Hin.
  - intros ->. split; [by right|]. split; [done|by left].
Qed.

Lemma take_event_seen c d : pg_inbox_ok d -> well_hashed c -> seen_before c d -> take_event c d = (Ret true, d).
Proof.
  intros Hok Hsem (r & He & Hq). unfold take_event, bind, gets. cbn [id]. rewrite He. cbn [forallb].
  by rewrite Hq, String.eqb_refl.
Qed.

(** ** The jobs *)

Section Jobs.
Context (timestamptz : string -> string).

Definition source_of (e : EventEnvelope) (r : WorkflowRoute) : string * string * string * Z := (ev_tenant_id e, ev_event_id e, workflow_key r, workflow_version r).
(** a row for the event and the route *)
Definition has_job (e : EventEnvelope) (r : WorkflowRoute) (a : AutomationDB) : Prop :=
  exists k row, t_jobs a !! k = Some row /\ data_source (job_data (jr_raw row)) = source_of e r.
Definition keeps_jobs (a a' : AutomationDB) : Prop := forall k row, t_jobs a !! k = Some row -> t_jobs a' !! k = Some row.

Lemma has_job_source_spec now e r source a :
  existsb (same_source (durable_job_data timestamptz e r source now)) (map snd (map_to_list (t_jobs a))) = true <-> has_job e r a.
Proof.
  rewrite existsb_exists. unfold has_job. split.
  - intros (row & Hin & Hs). apply list_elem_of_In, list_elem_of_fmap in Hin as ([k row'] & -> & Hin).
    apply elem_of_map_to_list in Hin. exists k, row'. split; [done|]. unfold same_source in Hs. simpl in Hs.
    rewrite !andb_true_iff, !String.eqb_eq, Z.eqb_eq in Hs. destruct Hs as [[[H1 H2] H3] H4]. unfold data_source, source_of. congruence.
  - intros (k & row & Hk & Hs). exists row. split.
    + apply list_elem_of_In, list_elem_of_fmap. exists (k, row). split; [done|]. by apply elem_of_map_to_list.
    + unfold data_source, source_of in Hs. injection Hs as H1 H2 H3 H4. unfold same_source. simpl.
      by rewrite H1, H2, H3, H4, !String.eqb_refl, Z.eqb_refl.
Qed.

Lemma context_ret {S} t (d d' : S) : tenant_context t d = (Ret tt, d') -> d' = d /\ forall x : S, tenant_context t x = (Ret tt, x).
Proof. unfold tenant_context, raise, ret. destruct (negb _); [done|]. destruct (negb _); [done|]. by intros [= <-]. Qed.

Lemma connection_ret token now e r source a a' :
  enqueue_on_connection timestamptz token now e r source a = (Ret tt, a') ->
  has_job e r a' /\ keeps_jobs a a' /\
  forall token' now' a2, has_job e r a2 -> enqueue_on_connection timestamptz token' now' e r source a2 = (Ret tt, a2).
Proof.
  intros H. unfold enqueue_on_connection, bind at 1 in H.
  destruct (tenant_context (ev_tenant_id e) a) as [[[]|ex] a0] eqn:Hc; [|done]. apply context_ret in Hc as [-> Hctx].
  unfold bind at 1, gets, id in H. destruct (job_columns_ok r) eqn:Hcols; cbn [negb] in H; [|done].
  assert (Hagain : forall token' now' a2, has_job e r a2 ->
    enqueue_on_connection timestamptz token' now' e r source a2 = (Ret tt, a2)).
  { intros token' now' a2 H2. unfold enqueue_on_connection, bind, gets, id. rewrite Hctx, Hcols. cbn [negb].
    by rewrite (proj2 (has_job_source_spec now' e r source a2) H2). }
  destruct (existsb _ _) eqn:Hs.
  { injection H as <-. apply has_job_source_spec in Hs. split_and!; [done|by intros ???|done]. }
  case_bool_decide as Hk; [done|]. split_and!; [| |done].
  - exists (jb_tenant_id (durable_job_data timestamptz e r source now), jb_job_id (durable_job_data timestamptz e r source now)).
    exists {| jr_raw := new_job (durable_job_data timestamptz e r source now) token; jr_safe_terminal_result := None |}.
    split; [|done]. unfold bind, modify, when, audit in H. destruct (negb _); injection H as <-; apply lookup_insert_eq.
  - intros k row Hr. unfold bind, modify, when, audit in H.
    destruct (negb _); injection H as <-; cbn [put_audit put_dispatches put_job t_jobs]; rewrite lookup_insert_ne; try done;
      intros <-; apply Hk; by exists row.
Qed.

Lemma enqueue_on_ret fresh now e source rs : forall n a a',
  enqueue_on timestamptz fresh now e source n rs a = (Ret tt, a') ->
  Forall (fun r => has_job e r a') rs /\ keeps_jobs a a' /\
  forall fresh' now' m a2, Forall (fun r => has_job e r a2) rs -> enqueue_on timestamptz fresh' now' e source m rs a2 = (Ret tt, a2).
Proof.
  induction rs as [|r rs IH]; intros n a a'; simpl.
  { intros [= <-]. split_and!; [constructor|by intros ???|by intros]. }
  unfold bind. destruct (enqueue_on_connection timestamptz (fresh n) (now n) e r source a) as [[[]|ex] a1] eqn:H1; [|done].
  intros H2. destruct (connection_ret _ _ _ _ _ _ _ H1) as ((k & row & Hk & Hs) & Hold & Hagain).
  destruct (IH _ _ _ H2) as (Hall & Hold2 & Hagain2). split_and!.
  - constructor; [|done]. exists k, row. split; [by apply Hold2|done].
  - intros x y Hx. by apply Hold2, Hold.
  - intros fresh' now' m a2 [Hr Hrs]%Forall_cons. rewrite Hagain by done. by apply Hagain2.
Qed.
End Jobs.

(** ** The same acceptance in memory *)

Lemma accept_exc c s e s' : accept c s = (Exc e, s') -> s' = s.
Proof.
  unfold accept. destruct (negb (bool_decide (canonical_payload_sha256 _ = _))); [by intros [= _ <-]|].
  destruct (match event_items s !! event_key c with Some _ => _ | None => false end); [by intros [= _ <-]|].
  destruct (match event_items s !! event_key c with Some x => Some x | None => _ end) as [[h x]|]; [|done].
  destruct (negb _); [by intros [= _ <-]|done].
Qed.

Section Agreement.
Context (timestamptz : string -> string) (es : list EventEnvelope) (srcs : list (string * string * string * Z)).
Hypothesis Hes : apart (fun e => canonical_payload_sha256 (event_dump e)) es.

(** every row of the inbox is one of these events *)
Definition rows_from (d : InboxDB) : Prop := forall r, r ∈ ib_rows d ->
  exists e, e ∈ es /\ row_ids r = (ev_tenant_id e, ev_event_id e, ev_idempotency_key e) /\
    ib_correlation_id r = ev_correlation_id e /\ ib_semantic_sha256 r = canonical_payload_sha256 (event_dump e).

Lemma seen_result c d r :
  rows_from d -> di_envelope c ∈ es -> well_hashed c -> r ∈ ib_rows d ->
  ib_semantic_sha256 r = in_semantic_sha256 (di_ingress c) -> row_duplicate r = event_result (di_envelope c) true.
Proof.
  intros Hr Hc Hsem Hin Hq. destruct (Hr r Hin) as (e & He & Hids & Hcorr & Hhash).
  assert (e = di_envelope c) as ->.
  { apply (apart_eq _ _ _ _ Hes He Hc). unfold well_hashed in Hsem. congruence. }
  injection Hids as Ht Hev Hk. unfold row_duplicate, event_result. by rewrite Ht, Hev, Hcorr.
Qed.

Lemma taken_rows c d : rows_from d -> di_envelope c ∈ es -> well_hashed c -> rows_from (taken_in (to_nats c) d).
Proof.
  intros Hr Hc Hsem r. cbn [taken_in ib_rows]. intros [Hin|Hin%list_elem_of_singleton]%elem_of_app; [by apply Hr|].
  subst r. exists (di_envelope c). split_and!; [done|done|done|by symmetry].
Qed.

Lemma nats_accept c d :
  pg_inbox_ok d -> well_hashed c -> in_deduplication_sha256 (di_ingress c) = None ->
  pg_accept (to_nats c) d =
    match existing_events (di_envelope c) d with
    | [] => if slot_taken (to_nats c) d then (intent_violation, d)
            else (Ret (accepted_result (di_envelope c)), taken_in (to_nats c) d)
    | [r] =>
        if bool_decide (ib_semantic_sha256 r = in_semantic_sha256 (di_ingress c)) then (Ret (row_duplicate r), d)
        else (Exc (Exn ReplayConflict "event/idempotency identity was reused with a different semantic payload"), d)
    | _ => (Exc (Exn ReplayConflict "event and idempotency identities refer to different accepted events"), d)
    end.
Proof.
  intros Hok Hsem Hd. rewrite pg_accept_run by done. rewrite bool_decide_eq_true_2 by done. cbn [negb].
  unfold PgInboxFacts.replayed, taking_in, stored_comparison, comparison_sha256. cbn [to_nats di_ingress]. by rewrite Hd.
Qed.

Lemma same_take c s d :
  same_inbox s d -> rows_from d -> di_envelope c ∈ es -> well_hashed c -> in_deduplication_sha256 (di_ingress c) = None ->
  match accept (di_ingress c) s with
  | (Ret r, s') => exists dup d', take_event c d = (Ret dup, d') /\ r = event_result (di_envelope c) dup /\
                     same_inbox s' d' /\ rows_from d'
  | (Exc e, s') => s' = s /\ exists e' d', take_event c d = (Exc e', d') /\ exn_cls e' = exn_cls e
  end.
Proof.
  intros R Hrows Hc Hsem Hd. pose proof (si_db _ _ R) as Hok.
  pose proof (accept_same (to_nats c) s d R Hd) as [Ha R']. rewrite nats_accept in Ha, R' by done.
  change (di_ingress (to_nats c)) with (di_ingress c) in Ha, R'.
  destruct (existing_events (di_envelope c) d) as [|r [|r2 rows]] eqn:He.
  - pose proof (intent_free (to_nats c) s d R He) as Hfree.
    cbv iota in Ha, R'. rewrite Hfree in Ha, R'. destruct (record_event_run c d Hok Hsem He) as [Hf Hs]. specialize (Hs Hfree).
    rewrite Hfree in Hf.
    destruct (accept (di_ingress c) s) as [x s']. cbn [fst snd] in *. subst x.
    exists false, (taken_in (to_nats c) d). split_and!; try done; [|by apply taken_rows].
    unfold take_event, bind at 1, gets. cbn [id]. rewrite He. unfold bind.
    destruct (record_event c d) as [x d']. cbn [fst snd] in *. by subst.
  - assert (r ∈ ib_rows d) as Hin.
    { assert (r ∈ existing_events (di_envelope c) d) as Hx by (rewrite He; left). apply elem_of_existing_events in Hx. tauto. }
    destruct (accept (di_ingress c) s) as [x s'] eqn:Hacc. case_bool_decide as Hq; cbn [fst snd] in *; subst x.
    + exists true, d. split_and!; try done; [|by apply (seen_result c d)].
      apply take_event_seen; [done|done|]. by exists r.
    + split; [by eapply accept_exc|]. unfold take_event, bind, gets. cbn [id]. rewrite He. cbn [forallb negb orb].
      destruct (String.eqb_spec (ib_semantic_sha256 r) (in_semantic_sha256 (di_ingress c))); [done|]. by eexists _, _.
  - destruct (accept (di_ingress c) s) as [x s'] eqn:Hacc. cbn [fst snd] in *. subst x. split; [by eapply accept_exc|].
    unfold take_event, bind, gets. cbn [id]. rewrite He, (existing_distinct _ _ _ _ _ Hok He). by eexists _, _.
Qed.

Hypothesis Hids : ids_apart srcs [].

Lemma pg_enqueue_ret token now e r source d d' :
  pg_enqueue_event timestamptz token now e r source d = (Ret tt, d') ->
  enqueue_on_connection timestamptz token now e r source d = (Ret tt, d').
Proof.
  unfold pg_enqueue_event, tenant_transaction, transaction, bind. destruct (tenant_context _ d) as [[[]|x] d1] eqn:Hc; [|done].
  apply context_ret in Hc as [-> _]. by destruct (enqueue_on_connection _ _ _ _ _ _ d) as [[[]|x] d2].
Qed.

(** what a routed event has so that its job is the same row of the table: a
    tenant the tables admit, a time in the column's form, a route the columns
    hold *)
Definition routed_event (e : EventEnvelope) (r : WorkflowRoute) : Prop :=
  tenant_ok (ev_tenant_id e) = true /\ timestamptz (ev_occurred_at e) = ev_occurred_at e /\ job_columns_ok r = true.

Lemma same_enqueues fresh now e source rs : forall n s d,
  Forall (fun r => routed_event e r /\ source_of e r ∈ srcs) rs -> same_store srcs [] s d ->
  exists s' d', enqueue_routes fresh now e source n rs s = (Ret tt, s') /\
    enqueue_on timestamptz fresh now e source n rs d = (Ret tt, d') /\ same_store srcs [] s' d'.
Proof.
  induction rs as [|r rs IH]; intros n s d Hrs H; [by exists s, d|].
  apply Forall_cons in Hrs as [[(Ht & Htime & Hcols) Hin] Hrs]. simpl. unfold bind.
  destruct (enqueue_event (fresh n) (now n) e r source s) as [x s1] eqn:He.
  assert (x = Ret tt) as ->.
  { unfold enqueue_event, bind, gets, ret, modify in He. by destruct (jobs (id s) !! _); injection He as <- _. }
  destruct (same_enqueue timestamptz srcs [] 0%nat Hids (fresh n) (now n) e r source s d (Ret re_enqueued) s1) as (d1 & Hd & H1);
    [done|done|done| |].
  { unfold automation_call, AutomationFacts.answering, bind. by rewrite He. }
  simpl in Hd. unfold bind in Hd.
  destruct (pg_enqueue_event timestamptz (fresh n) (now n) e r source d) as [[[]|x] d2] eqn:Hp; [|done]. injection Hd as ->.
  rewrite (pg_enqueue_ret _ _ _ _ _ _ _ Hp). by apply IH.
Qed.
End Agreement.

(** the statements of an acceptance, one store after the other *)
Lemma atomic_run timestamptz fresh now routes c d :
  well_hashed c ->
  accept_postgres_event_atomic timestamptz fresh now routes c d =
  match take_event c (vd_inbox d) with
  | (Exc e, _) => (Exc e, d)
  | (Ret dup, i') =>
      match enqueue_on timestamptz fresh now (di_envelope c) (in_producer_client_id (di_ingress c)) 0 routes (vd_automation d) with
      | (Exc e, _) => (Exc e, d)
      | (Ret _, a') => (Ret (event_result (di_envelope c) dup), mkEventsDB i' a')
      end
  end.
Proof.
  intros Hsem. unfold accept_postgres_event_atomic. rewrite Hsem, String.eqb_refl. cbn [negb].
  unfold transaction, bind at 1, on_inbox, zoom. destruct (take_event c (vd_inbox d)) as [[dup|e] i']; [|done].
  unfold bind, on_automation, zoom. cbn [vd_automation vd_inbox]. by destruct (enqueue_on _ _ _ _ _ _ _ _) as [[[]|e] a'].
Qed.

Lemma atomic_unhashed timestamptz fresh now routes c d :
  ~ well_hashed c ->
  accept_postgres_event_atomic timestamptz fresh now routes c d =
  (Exc (Exn StorageError "semantic hash does not match canonical event payload"), d).
Proof. intros Hsem. unfold accept_postgres_event_atomic. by destruct (String.eqb_spec (canonical_payload_sha256 (event_dump (di_envelope c))) (in_semantic_sha256 (di_ingress c))). Qed.

Lemma well_hashed_dec c : Decision (well_hashed c).
Proof. unfold well_hashed. apply _. Qed.

(** C16: an event is accepted over the tables with all of its effects or none: a
    call that raises leaves both stores as they were; one that answers has taken
    the event into the inbox, its chain and its publication queue, unless it was
    there, and left a job for every route without touching the jobs that were
    there; the same call again, with other tokens at other times, is a duplicate
    that writes nothing. *)
Theorem durable_acceptance_atomic timestamptz fresh now routes c d :
  pg_inbox_ok (vd_inbox d) ->
  let (r, d') := accept_postgres_event_atomic timestamptz fresh now routes c d in
  match r with
  | Exc _ => d' = d
  | Ret res =>
      res = event_result (di_envelope c) (ing_is_duplicate res) /\
      (if ing_is_duplicate res then vd_inbox d' = vd_inbox d
       else existing_events (di_envelope c) (vd_inbox d) = [] /\ vd_inbox d' = taken_in (to_nats c) (vd_inbox d)) /\
      pg_inbox_ok (vd_inbox d') /\
      Forall (fun route => has_job (di_envelope c) route (vd_automation d')) routes /\
      keeps_jobs (vd_automation d) (vd_automation d') /\
      forall fresh' now', accept_postgres_event_atomic timestamptz fresh' now' routes c d' =
        (Ret (event_result (di_envelope c) true), d')
  end.
Proof.
  intros Hok. destruct (well_hashed_dec c) as [Hsem|Hsem]; [|by rewrite atomic_unhashed].
  rewrite atomic_run by done. pose proof (take_event_cases c (vd_inbox d) Hok Hsem) as Ht.
  destruct (take_event c (vd_inbox d)) as [[dup|e] i'] eqn:Htake; [|done].
  destruct (enqueue_on _ _ _ _ _ _ _ _) as [[[]|e] a'] eqn:Hen; [|done].
  destruct (enqueue_on_ret _ _ _ _ _ _ _ _ _ Hen) as (Hall & Hold & Hagain). cbn [vd_inbox vd_automation].
  assert (pg_inbox_ok i' /\ seen_before c i') as [Hok' Hseen].
  { destruct dup; [by destruct Ht as [-> ?]|]. destruct Ht as [-> He]. split; [by apply (taken_in_ok (to_nats c))|by apply taken_seen]. }
  split_and!; try done.
  - destruct dup; [by destruct Ht|]. by destruct Ht.
  - intros fresh' now'. rewrite atomic_run by done. cbn [vd_inbox vd_automation].
    rewrite (take_event_seen c i') by done. by rewrite (Hagain fresh' now' 0%nat a' Hall).
Qed.

(** ** Histories of events *)

Record EventCall := { ec_fresh : nat -> string; ec_now : nat -> instant; ec_ingress : DurableIngress }.

Fixpoint memory_events (sv : AutomationService) (cs : list EventCall) (w : ApiWorld) : list (outcome IngressResult) * ApiWorld :=
  match cs with
  | [] => ([], w)
  | c :: cs' =>
      let (r, w1) := accept_event sv (ec_fresh c) (ec_now c) (di_ingress (ec_ingress c)) w in
      let (rs, w2) := memory_events sv cs' w1 in (r :: rs, w2)
  end.
Definition event_routes (sv : AutomationService) (c : DurableIngress) : list WorkflowRoute :=
  for_event (sv_router sv) (ev_event_type (di_envelope c)).
Fixpoint durable_events (timestamptz : string -> string) (sv : AutomationService) (cs : list EventCall) (d : EventsDB) :
    list (outcome IngressResult) * EventsDB :=
  match cs with
  | [] => ([], d)
  | c :: cs' =>
      let (r, d1) := accept_postgres_event_atomic timestamptz (ec_fresh c) (ec_now c) (event_routes sv (ec_ingress c)) (ec_ingress c) d in
      let (rs, d2) := durable_events timestamptz sv cs' d1 in (r :: rs, d2)
  end.

(** the same result, or a refusal of the same class; a semantic hash that is not
    the event's is an [EventLedgerIntegrityError] of the in-memory inbox and the
    [StorageError] it derives from over the tables *)
Definition same_answer (r r' : outcome IngressResult) : Prop :=
  match r, r' with
  | Ret x, Ret x' => x = x'
  | Exc e, Exc e' => exn_cls e' = exn_cls e \/ (exn_cls e = EventLedgerIntegrityError /\ exn_cls e' = StorageError)
  | _, _ => False
  end.

(** calls without a source hash, and routed events of tenants the tables admit *)
Definition event_ok (timestamptz : string -> string) (sv : AutomationService) (c : EventCall) : Prop :=
  in_deduplication_sha256 (di_ingress (ec_ingress c)) = None /\
  Forall (routed_event timestamptz (di_envelope (ec_ingress c))) (event_routes sv (ec_ingress c)).
Definition call_event (c : EventCall) : EventEnvelope := di_envelope (ec_ingress c).
Definition call_sources (sv : AutomationService) (c : EventCall) : list (string * string * string * Z) :=
  map (source_of (call_event c)) (event_routes sv (ec_ingress c)).

Section Runs.
Context (timestamptz : string -> string) (sv : AutomationService) (es : list EventEnvelope) (srcs : list (string * string * string * Z)).
Hypothesis Hes : apart (fun e => canonical_payload_sha256 (event_dump e)) es.
Hypothesis Hids : ids_apart srcs [].

Record same_world (w : ApiWorld) (d : EventsDB) : Prop := {
  sw_inbox : same_inbox (w_inbox w) (vd_inbox d);
  sw_rows : rows_from es (vd_inbox d);
  sw_jobs : same_store srcs [] (w_automation w) (vd_automation d);
}.

Lemma same_event c w d :
  event_ok timestamptz sv c -> call_event c ∈ es -> (forall x, x ∈ call_sources sv c -> x ∈ srcs) -> same_world w d ->
  exists r w' r' d', accept_event sv (ec_fresh c) (ec_now c) (di_ingress (ec_ingress c)) w = (r, w') /\
    accept_postgres_event_atomic timestamptz (ec_fresh c) (ec_now c) (event_routes sv (ec_ingress c)) (ec_ingress c) d = (r', d') /\
    same_answer r r' /\ same_world w' d'.
Proof.
  intros (Hd & Hcols) He Hsrc [Hi Hr Hj]. destruct c as [fresh now c]. unfold call_event, call_sources in *.
  cbn [ec_fresh ec_now ec_ingress] in *. unfold accept_event, in_inbox, zoom, bind at 1. fold (di_envelope c).
  destruct (well_hashed_dec c) as [Hsem|Hsem].
  2:{ rewrite atomic_unhashed by done. unfold accept. fold (di_envelope c).
      rewrite bool_decide_eq_false_2 by done. cbn [negb]. eexists _, _, _, _. split; [done|]. split; [done|].
      destruct w. split; [by right|done]. }
  rewrite atomic_run by done. pose proof (same_take es Hes c _ _ Hi Hr He Hsem Hd) as Htake.
  destruct (accept (di_ingress c) (w_inbox w)) as [[r|e] s'].
  2:{ destruct Htake as [-> (ex & d' & -> & Hcls)]. eexists _, _, _, _. split; [done|]. split; [done|].
      destruct w. split; [by left|done]. }
  destruct Htake as (dup & i' & -> & -> & Hi' & Hr').
  assert (Forall (fun r => routed_event timestamptz (di_envelope c) r /\ source_of (di_envelope c) r ∈ srcs) (event_routes sv c)) as Hroutes.
  { rewrite Forall_forall in Hcols |- *. intros x Hx. split; [by apply Hcols|]. apply Hsrc. by apply list_elem_of_fmap_2. }
  destruct (same_enqueues timestamptz srcs Hids fresh now (di_envelope c) (in_producer_client_id (di_ingress c)) (event_routes sv c)
    0 (w_automation w) (vd_automation d) Hroutes Hj) as (s2 & a2 & Hm & -> & Hj').
  unfold bind, in_automation, zoom, ret. cbn [w_automation w_commands w_inbox w_held]. fold (event_routes sv c). rewrite Hm.
  eexists _, _, _, _. split; [done|]. split; [done|]. split; [done|]. by split.
Qed.

Lemma same_events cs : forall w d,
  Forall (event_ok timestamptz sv) cs -> (forall c, c ∈ cs -> call_event c ∈ es /\ (forall x, x ∈ call_sources sv c -> x ∈ srcs)) ->
  same_world w d ->
  Forall2 same_answer (fst (memory_events sv cs w)) (fst (durable_events timestamptz sv cs d)) /\
  same_world (snd (memory_events sv cs w)) (snd (durable_events timestamptz sv cs d)).
Proof.
  induction cs as [|c cs IH]; intros w d Hok Hin H; [done|]. apply Forall_cons in Hok as [Hc Hok].
  destruct (Hin c) as [He Hs]; [left|]. cbn [memory_events durable_events].
  destruct (same_event c w d Hc He Hs H) as (r & w' & r' & d' & -> & -> & Ha & H').
  destruct (IH w' d' Hok) as [Hrest H2]; [by intros x Hx; apply Hin; right|done|].
  destruct (memory_events sv cs w') as [rs w2], (durable_events timestamptz sv cs d') as [rs' d2]. cbn [fst snd] in *.
  split; [by constructor|done].
Qed.
End Runs.

(** an event of a tenant the tables do not admit is refused once it has a route,
    while the in-memory stores, which look at no tenant, accept it *)
Lemma ill_named_tenant_refused timestamptz fresh now route routes c d :
  well_hashed c -> tenant_ok (ev_tenant_id (di_envelope c)) = false ->
  exists e, accept_postgres_event_atomic timestamptz fresh now (route :: routes) c d = (Exc e, d).
Proof.
  intros Hsem Ht. rewrite atomic_run by done. destruct (take_event c (vd_inbox d)) as [[dup|e] i']; [|by eexists].
  cbn [enqueue_on]. unfold enqueue_on_connection, tenant_context, tenant_ok, bind, raise, ret in *.
  destruct (str_nonempty _); cbn [negb andb] in *; [rewrite Ht|]; by eexists.
Qed.

(** C14: over any history of events without a source hash, whose routed events
    are of tenants the tables admit, with their time in the text form of its
    column and on routes the columns hold, the acceptance over the tables and
    the one over the in-memory stores give the same results and refuse with the
    same class of error (a wrong semantic hash apart, which is an
    [EventLedgerIntegrityError] in memory and the [StorageError] it derives from
    over the tables), and they end with the same chain of events, the same jobs
    and the same dead letters.  The history's digests and identifiers are taken
    not to collide; a routed event of any other tenant is accepted in memory
    only ([ill_named_tenant_refused]). *)
Theorem durable_events_match_memory timestamptz sv cs w0 :
  Forall (event_ok timestamptz sv) cs -> apart (fun e => canonical_payload_sha256 (event_dump e)) (map call_event cs) ->
  ids_apart (concat (map (call_sources sv) cs)) [] -> w_automation w0 = empty_automation -> w_inbox w0 = empty_inbox ->
  let (h, w) := memory_events sv cs w0 in
  let (h', d) := durable_events timestamptz sv cs empty_events_db in
  Forall2 same_answer h h' /\ ledger_records (w_inbox w) = records (vd_inbox d) /\
  jobs (w_automation w) = jr_raw <$> t_jobs (vd_automation d) /\ dead_letters (w_automation w) = t_dead_letters (vd_automation d).
Proof.
  intros Hok Hes Hids Ha Hi.
  destruct (same_events timestamptz sv (map call_event cs) (concat (map (call_sources sv) cs)) Hes Hids cs w0 empty_events_db Hok)
    as [Hans [H1 H2 H3]].
  - intros c Hc. split; [by apply list_elem_of_fmap_2|]. intros x Hx. apply list_elem_of_In, in_concat. exists (call_sources sv c).
    split; [apply in_map|]; by apply list_elem_of_In.
  - split; rewrite ?Ha, ?Hi; [apply same_inbox_empty|by intros r ?%elem_of_nil|by apply same_empty].
  - destruct (memory_events sv cs w0) as [h w], (durable_events timestamptz sv cs empty_events_db) as [h' d]. cbn [fst snd] in *.
    split_and!; [done|apply H1|apply (ss_jobs _ _ _ _ H3)|apply (ss_dead _ _ _ _ H3)].
Qed.
