(* ===== verification/SagaProps.v ===== *)
(** * Properties of the campaign-control saga

    What every transaction of every worker may do to a row, the invariant they
    keep however they interleave, and what a dispatch sends to Odoo. *)

From stdpp Require Import relations pretty.
From S2P Require Import Prelude Json PyValue Clock Sha256 Uuid Commands CampaignSaga.
Local Open Scope Z_scope.
#[local] Opaque canonical_sha256.

(** ** The transactions of all workers *)

Definition terminal_row (r : SagaRow) : Prop := sg_status r = COMPLETED \/ sg_status r = DEAD_LETTER.

Definition observed_row (r : SagaRow) : Prop := is_Some (sg_readback_key r) /\ is_Some (sg_effective_state r).

Section Steps.
Context (cat : Catalog) (st : SagaSettings) (lax_int : json -> option Z).
Abbreviation limit := (st_retry_limit st).

(** what the holder of a reservation may write over its row *)
Inductive owner_write (x : SagaRow) : (SagaRow -> SagaRow) -> Prop :=
  | write_renewed now lease : owner_write x (renewed now lease)
  | write_observation now u o : String.length u = 36%nat -> owner_write x (with_observation now (readback_key x u) o)
  | write_dead now c : owner_write x (terminated now DEAD_LETTER (Some c) None None)
  | write_retry now c next : sg_attempts x < limit -> owner_write x (terminated now RETRY (Some c) (Some next) None)
  | write_completed now id : observed_row x -> owner_write x (terminated now COMPLETED None None (Some id)).

(** one committed transaction: an event arrives, or a worker enrols, claims,
    recovers, or writes a row it holds *)
Inductive saga_step : SagaDB -> SagaDB -> Prop :=
  | step_event d record : saga_step d (snd (persist_intake record d))
  | step_insert d e u now r :
      e ∈ db_events d -> saga_for_event cat st lax_int u now e = Ret r -> saga_step d (snd (insert_saga r d))
  | step_claim d now lease : saga_step d (snd (claim_saga now lease d))
  | step_recover d now : saga_step d (snd (recover_expired_leases now limit d))
  | step_write d r f audits :
      (forall x, x ∈ db_sagas d -> owned r x = true -> owner_write x f) ->
      saga_step d (snd (guarded_update r f audits d)).

(** ** What they keep *)

Record row_ok (r : SagaRow) : Prop := {
  ro_bounds : 0 <= sg_attempts r <= limit;
  ro_pending : sg_status r = PENDING -> sg_attempts r = 0;
  ro_retry : sg_status r = RETRY -> 1 <= sg_attempts r < limit;
  ro_reserved : sg_status r = RESERVED -> 1 <= sg_attempts r /\ is_Some (sg_reserved_at r) /\ is_Some (sg_lease_expires_at r);
  ro_released : sg_status r <> RESERVED -> sg_reserved_at r = None /\ sg_lease_expires_at r = None;
  ro_completed : sg_status r = COMPLETED <-> is_Some (sg_completed_at r);
  ro_key : is_Some (sg_readback_key r) -> (String.length (sg_event_uuid (sg_identity r)) <= 110)%nat;
  ro_receipt : sg_status r = COMPLETED -> observed_row r /\ is_Some (sg_readback_id r);
}.

Definition event_of (r : SagaRow) : Z := sg_integration_event_id (sg_identity r).

Record saga_ok (d : SagaDB) : Prop := {
  so_rows : Forall row_ok (db_sagas d);
  so_events : NoDup (map event_of (db_sagas d));
  so_ids : NoDup (map saga_id (db_sagas d));
  so_intake : NoDup (map ie_original_event_id (db_events d));
}.

(** what a step makes of a row that was there *)
Inductive row_moves (x : SagaRow) : SagaRow -> Prop :=
  | moves_not : row_moves x x
  | moves_claim now lease : sg_status x ∈ CLAIMABLE_STATUSES -> row_moves x (reserved now lease x)
  | moves_recover now : row_moves x (recovered limit now x)
  | moves_write f : sg_status x = RESERVED -> owner_write x f -> row_fits (f x) = true -> row_moves x (f x).

Lemma update_saga_rows u f d : db_sagas (update_saga u f d) = map (fun r => if (saga_id r =? u)%N then f r else r) (db_sagas d).
Proof. done. Qed.

Lemma in_sorted {A} (le : A -> A -> bool) l x : x ∈ sorted_by le l <-> x ∈ l.
Proof. by rewrite sorted_by_perm. Qed.

Lemma claimable_saga_in now d r : claimable_saga now d = Some r -> r ∈ db_sagas d /\ claimable now r = true.
Proof.
  unfold claimable_saga. intros H. assert (Hin : r ∈ List.filter (claimable now) (db_sagas d)).
  { rewrite <- (in_sorted (fun a b => sg_created_at (sg_identity a) <=? sg_created_at (sg_identity b))).
    destruct (sorted_by _ _) as [|y l]; [done|]. simpl in H. simplify_eq. left. }
  by apply filter_In_list in Hin.
Qed.

Lemma claimable_status now r : claimable now r = true -> sg_status r ∈ CLAIMABLE_STATUSES.
Proof. unfold claimable. intros [H _]%andb_true_iff. by apply bool_decide_eq_true in H. Qed.

Lemma owned_spec r x : owned r x = true ->
  saga_id x = saga_id r /\ sg_status x = RESERVED /\ sg_attempts x = sg_attempts r /\ sg_reserved_at x = sg_reserved_at r.
Proof.
  unfold owned. rewrite !andb_true_iff, !bool_decide_eq_true. intros [[[H1 H2] H3] H4].
  apply N.eqb_eq in H1. apply Z.eqb_eq in H3. done.
Qed.

Lemma guarded_run r f audits d :
  snd (guarded_update r f audits d) = d \/
  (forall x, x ∈ db_sagas d -> owned r x = true -> row_fits (f x) = true) /\
  guarded_update r f audits d = (Ret (f r), mkSagaDB (db_events d)
    (map (fun x => if owned r x then f x else x) (db_sagas d)) (db_audits d ++ audits)).
Proof.
  unfold guarded_update, bind, gets, id. destruct (existsb _ _); simpl; [|by left].
  destruct (forallb _ _) eqn:Hf; simpl; [right; split; [|done]|by left].
  intros x Hx Ho. rewrite forallb_forall in Hf. specialize (Hf x (proj1 (list_elem_of_In _ _) Hx)). by rewrite Ho in Hf.
Qed.

(** the ids a claim matches are the claimed row's *)
Lemma same_id_same d x y : NoDup (map saga_id (db_sagas d)) -> x ∈ db_sagas d -> y ∈ db_sagas d -> saga_id x = saga_id y -> x = y.
Proof.
  intros Hnd Hx Hy E. apply list_elem_of_lookup in Hx as [i Hi], Hy as [j Hj].
  assert (i = j) as ->; [|congruence]. eapply (NoDup_lookup _ i j (saga_id x)); [exact Hnd|..]; rewrite list_lookup_fmap.
  - by rewrite Hi.
  - by rewrite Hj, E.
Qed.

Definition rows_step (d d' : SagaDB) : Prop :=
  exists g new, db_sagas d' = map g (db_sagas d) ++ new /\ (forall x, x ∈ db_sagas d -> row_moves x (g x)) /\
    (new = [] \/ exists r e u now, new = [r] /\ saga_for_event cat st lax_int u now e = Ret r /\
       forall x, x ∈ db_sagas d -> event_of x <> event_of r /\ saga_id x <> saga_id r).

Lemma rows_stay d d' : db_sagas d' = db_sagas d -> rows_step d d'.
Proof. intros E. exists id, []. rewrite app_nil_r, map_id. split_and!; [done|constructor|by left]. Qed.

Lemma intake_sagas record d : db_sagas (snd (persist_intake record d)) = db_sagas d.
Proof.
  unfold persist_intake, bind, lift_outcome, gets, id. destruct (validate_record record) as [x|]; [|done].
  destruct (List.find _ _) as [e|]; [by destruct (negb _)|]. cbv zeta. by destruct (negb (event_fits _)).
Qed.

(** a step moves each row by [row_moves] and appends at most a new one *)
Lemma step_rows d d' : saga_ok d -> saga_step d d' -> rows_step d d'.
Proof.
  intros Hok Hs. destruct Hs as [d record|d e u now r He Hr|d now lease|d now|d r f audits Hf].
  - apply rows_stay, intake_sagas.
  - unfold insert_saga, bind, gets, id. destruct (row_fits r); simpl; [|exact (rows_stay d d eq_refl)].
    destruct (existsb _ _) eqn:Hex; simpl; [exact (rows_stay d d eq_refl)|].
    exists id, [r]. rewrite map_id. split_and!; [done|constructor|]. right. exists r, e, u, now. split_and!; [done|done|].
    intros x Hx. rewrite <- not_true_iff_false, existsb_exists in Hex.
    split; intros E; apply Hex; exists x; (split; [by apply list_elem_of_In|]); unfold event_of in E; rewrite E, orb_true_iff;
      [left; apply Z.eqb_refl|right; apply N.eqb_refl].
  - unfold claim_saga, bind, gets, id. destruct (lease <? 1); [exact (rows_stay d d eq_refl)|].
    destruct (claimable_saga now d) as [r|] eqn:Hc; [|exact (rows_stay d d eq_refl)].
    destruct (row_fits _); [|exact (rows_stay d d eq_refl)].
    eexists _, []. rewrite app_nil_r. split_and!; [done| |by left]. intros x Hx. simpl.
    destruct (N.eqb_spec (saga_id x) (saga_id r)) as [E|]; [|constructor].
    apply claimable_saga_in in Hc as [Hr Hc]. assert (x = r) as -> by by eapply same_id_same; [apply Hok|..].
    constructor. by eapply claimable_status.
  - unfold recover_expired_leases, bind, gets, id. destruct (limit <? 1); simpl; [exact (rows_stay d d eq_refl)|].
    eexists _, []. rewrite app_nil_r. split_and!; [done| |by left]. intros x Hx. constructor.
  - destruct (guarded_run r f audits d) as [Hg|[Hfit Hg]]; rewrite Hg; simpl; [exact (rows_stay d d eq_refl)|].
    eexists _, []. rewrite app_nil_r. split_and!; [done| |by left]. intros x Hx. simpl.
    destruct (owned r x) eqn:Ho; [|constructor]. constructor; [by apply owned_spec in Ho as (_ & ? & _)|by apply Hf|by apply Hfit].
Qed.

Lemma moves_identity x y : row_moves x y -> sg_identity y = sg_identity x.
Proof.
  intros [|now lease _|now|f _ Hf _]; [done|done| |by destruct Hf].
  unfold recovered. destruct (lease_expired now x); [|done]. simpl. by destruct (limit <=? sg_attempts x).
Qed.

Lemma moves_terminal x y : row_moves x y -> terminal_row x -> y = x.
Proof.
  intros [|now lease Hs|now|f Hs _ _] Ht; [done| | |unfold terminal_row in Ht; rewrite Hs in Ht; by destruct Ht].
  - exfalso. destruct Ht as [Ht|Ht]; rewrite Ht in Hs; unfold CLAIMABLE_STATUSES in Hs; set_solver.
  - unfold recovered, lease_expired. destruct (bool_decide_reflect (sg_status x = RESERVED)) as [E|]; [|done].
    unfold terminal_row in Ht. rewrite E in Ht. by destruct Ht.
Qed.

Lemma moves_observed x y : row_moves x y -> observed_row x -> observed_row y.
Proof.
  intros [|now lease _|now|f _ Hf _] Hx; [done|done| |by destruct Hf; simpl; try done; split; eexists].
  unfold recovered. destruct (lease_expired now x); [|done]. simpl. by destruct (limit <=? sg_attempts x).
Qed.

Lemma reserved_ok now lease x : row_ok x -> sg_status x ∈ CLAIMABLE_STATUSES -> 1 <= limit -> row_ok (reserved now lease x).
Proof.
  intros [Hb Hp Hr _ Hrel Hc Hk _] Hs Hl. assert (Hlt : 0 <= sg_attempts x < limit).
  { unfold CLAIMABLE_STATUSES in Hs. apply elem_of_cons in Hs as [E|Hs]; [rewrite (Hp E); lia|].
    apply list_elem_of_singleton in Hs. specialize (Hr Hs). lia. }
  assert (Hn : sg_completed_at x = None).
  { destruct (sg_completed_at x) eqn:E; [|done]. assert (sg_status x = COMPLETED) as Hx by (apply Hc; by eexists).
    rewrite Hx in Hs. unfold CLAIMABLE_STATUSES in Hs. set_solver. }
  split; simpl; try done; [lia| |split; [done|by rewrite Hn; intros []]].
  intros _. split_and!; [lia|by eexists..].
Qed.

Lemma recovered_ok now x : row_ok x -> row_ok (recovered limit now x).
Proof.
  intros H. unfold recovered, lease_expired. case_bool_decide as Hs; simpl; [|done].
  destruct (sg_lease_expires_at x) as [t|]; simpl; [|done]. destruct (t <=? now); simpl; [|done].
  destruct H as [Hb _ _ Hres _ Hc Hk _]. destruct (Hres Hs) as (Ha & _).
  assert (Hn : sg_completed_at x = None) by (destruct (sg_completed_at x); [|done]; by rewrite (proj2 Hc) in Hs; eauto).
  destruct (Z.leb_spec limit (sg_attempts x)); split; simpl; try done; try lia;
    by split; [done|rewrite Hn; intros []].
Qed.

Lemma readback_key_length x u : String.length u = 36%nat ->
  String.length (readback_key x u) = (50 + String.length (sg_event_uuid (sg_identity x)))%nat.
Proof. intros Hu. unfold readback_key. rewrite !str_length_app, Hu. simpl. lia. Qed.

Lemma observation_fits now u o x : String.length u = 36%nat -> row_fits (with_observation now (readback_key x u) o x) = true ->
  (String.length (sg_event_uuid (sg_identity x)) <= 110)%nat.
Proof.
  intros Hu H. unfold row_fits in H. rewrite !andb_true_iff in H. destruct H as [[_ H] _]. cbn -[readback_key] in H.
  apply Nat.leb_le in H. rewrite readback_key_length in H by done. lia.
Qed.

Lemma written_ok x f : row_ok x -> sg_status x = RESERVED -> owner_write x f -> row_fits (f x) = true -> row_ok (f x).
Proof.
  intros [Hb _ _ Hres _ Hc Hk _] Hs Hf Hfit. destruct (Hres Hs) as (Ha & Hr & Hl).
  assert (Hn : sg_completed_at x = None) by (destruct (sg_completed_at x); [|done]; by rewrite (proj2 Hc) in Hs; eauto).
  destruct Hf as [now lease|now u o Hu|now c|now c next Hlt|now id Ho]; split; simpl; rewrite ?Hs; try done; try lia;
    try (by rewrite Hn; split; [done|intros []]); try (by intros _; split_and!; eauto); try (by split; eauto).
  intros _. apply (observation_fits now u o x Hu Hfit).
Qed.

Lemma moves_ok x y : 1 <= limit -> row_moves x y -> row_ok x -> row_ok y.
Proof. intros Hl [|now lease Hs|now|f Hs Hf Hfit] H; [done|by apply reserved_ok|by apply recovered_ok|by apply written_ok]. Qed.

Lemma enrolled_ok u now e r : 1 <= limit -> saga_for_event cat st lax_int u now e = Ret r -> row_ok r.
Proof.
  intros Hl. unfold saga_for_event. destruct (dict_get _ _) as [op|]; [|done].
  destruct (control_event _ _) as [c|]; intros [= <-]; [match goal with |- context [if ?b then PENDING else _] => destruct b end|];
    split; simpl; try done; try lia; by split; [|intros []].
Qed.

(** an event is taken in once *)
Lemma step_intake d d' : saga_step d d' -> NoDup (map ie_original_event_id (db_events d)) ->
  NoDup (map ie_original_event_id (db_events d')).
Proof.
  intros Hs Hnd. destruct Hs as [d record|d e u now r _ _|d now lease|d now|d r f audits _].
  - unfold persist_intake, bind, lift_outcome, gets, id. destruct (validate_record record) as [x|]; [|done].
    destruct (List.find _ _) as [e|] eqn:Hf; [by destruct (negb _)|]. cbv zeta. destruct (negb (event_fits _)); [done|].
    simpl. rewrite map_app. apply NoDup_app. split_and!; [done| |apply NoDup_singleton].
    intros y (e & -> & He)%list_elem_of_fmap Hy%list_elem_of_singleton. eapply List.find_none in Hf; [|by apply list_elem_of_In].
    cbv beta in Hf. rewrite Hy in Hf. by rewrite String.eqb_refl in Hf.
  - unfold insert_saga, bind, gets, id. destruct (row_fits r); simpl; [|done]. by destruct (existsb _ _).
  - unfold claim_saga, bind, gets, id. destruct (lease <? 1); [done|]. destruct (claimable_saga now d) as [r|]; [|done].
    by destruct (row_fits _).
  - unfold recover_expired_leases, bind, gets, id. by destruct (limit <? 1).
  - by destruct (guarded_run r f audits d) as [->|[_ ->]].
Qed.

Lemma step_ok d d' : 1 <= limit -> saga_ok d -> saga_step d d' -> saga_ok d'.
Proof.
  intros Hl Hok Hs. destruct (step_rows d d' Hok Hs) as (g & new & Hrows & Hg & Hnew). destruct Hok as [Hr He Hi Ht].
  apply (step_intake _ _ Hs) in Ht.
  assert (Hmap : forall (B : Type) (h : SagaIdentity -> B), map (fun r => h (sg_identity r)) (map g (db_sagas d)) = map (fun r => h (sg_identity r)) (db_sagas d)).
  { intros B h. rewrite map_map. apply map_ext_in. intros x Hx. f_equal. apply moves_identity, Hg. by apply list_elem_of_In. }
  assert (Heq : map event_of (map g (db_sagas d)) = map event_of (db_sagas d)) by exact (Hmap _ sg_integration_event_id).
  assert (Hiq : map saga_id (map g (db_sagas d)) = map saga_id (db_sagas d)) by exact (Hmap _ sg_saga_id).
  assert (Hkept : Forall row_ok (map g (db_sagas d))).
  { rewrite Forall_map. rewrite Forall_forall in Hr |- *. intros x Hx. eapply moves_ok; [done|by apply Hg|by apply Hr]. }
  destruct Hnew as [->|(r & e & u & now & -> & Hre & Hfresh)]; rewrite ?app_nil_r in Hrows.
  - split; rewrite ?Hrows; [done|by rewrite Heq|by rewrite Hiq|done].
  - assert (Hone : forall (B : Type) (h : SagaIdentity -> B), NoDup (map (fun r => h (sg_identity r)) (db_sagas d)) ->
        (forall x, x ∈ db_sagas d -> h (sg_identity x) <> h (sg_identity r)) ->
        NoDup (map (fun r => h (sg_identity r)) (map g (db_sagas d) ++ [r]))).
    { intros B h Hnd Hne. rewrite map_app, Hmap. apply NoDup_app. split_and!; [done| |apply NoDup_singleton].
      intros y Hy Hy'%list_elem_of_singleton. apply list_elem_of_fmap in Hy as (x & -> & Hx). by apply (Hne x). }
    split; rewrite ?Hrows; [..|done].
    + apply Forall_app. split; [done|]. constructor; [by eapply enrolled_ok|done].
    + apply (Hone _ sg_integration_event_id); [done|]. intros x Hx. by apply Hfresh.
    + apply (Hone _ sg_saga_id); [done|]. intros x Hx. by apply Hfresh.
Qed.

(** a row that ended is never written again *)
Lemma step_terminal d d' r : saga_ok d -> saga_step d d' -> r ∈ db_sagas d -> terminal_row r -> r ∈ db_sagas d'.
Proof.
  intros Hok Hs Hr Ht. destruct (step_rows d d' Hok Hs) as (g & new & -> & Hg & _). apply elem_of_app. left.
  apply list_elem_of_fmap. exists r. split; [|done]. symmetry. eapply moves_terminal; [by apply Hg|done].
Qed.

(** the saga [u] is there, and its row satisfies [P] *)
Definition row_fact (u : N) (P : SagaRow -> Prop) (d : SagaDB) : Prop :=
  (exists x, x ∈ db_sagas d /\ saga_id x = u) /\ forall x, x ∈ db_sagas d -> saga_id x = u -> P x.

Lemma step_fact u (P : SagaRow -> Prop) d d' : (forall x y, row_moves x y -> P x -> P y) ->
  saga_ok d -> saga_step d d' -> row_fact u P d -> row_fact u P d'.
Proof.
  intros HP Hok Hs [(x & Hx & Hu) Hall]. destruct (step_rows d d' Hok Hs) as (g & new & Hrows & Hg & Hnew).
  assert (Hid : forall y, y ∈ db_sagas d -> saga_id (g y) = saga_id y) by (intros y Hy; unfold saga_id; by rewrite (moves_identity y (g y)) by auto).
  unfold row_fact. rewrite Hrows. split.
  - exists (g x). split; [|by rewrite Hid]. apply elem_of_app. left. apply list_elem_of_fmap. by exists x.
  - intros y [Hy|Hy]%elem_of_app Hyu.
    + apply list_elem_of_fmap in Hy as (z & -> & Hz). eapply HP; [by apply Hg|]. apply Hall; [done|]. by rewrite <- Hid.
    + destruct Hnew as [->|(r & e & v & now & -> & _ & Hfresh)]; [by apply elem_of_nil in Hy|].
      apply list_elem_of_singleton in Hy as ->. destruct (Hfresh x Hx) as [_ Hne]. congruence.
Qed.

Lemma fact_at u (P : SagaRow -> Prop) d x : saga_ok d -> x ∈ db_sagas d -> saga_id x = u -> P x -> row_fact u P d.
Proof.
  intros Hok Hx Hu Ho. split; [by exists x|]. intros y Hy E.
  by assert (y = x) as -> by (eapply same_id_same; [apply Hok|..]; congruence).
Qed.

Abbreviation observed_in u := (row_fact u observed_row).
Abbreviation identity_in u i := (row_fact u (fun x => sg_identity x = i)).

Lemma steps_ok d d' : 1 <= limit -> rtc saga_step d d' -> saga_ok d -> saga_ok d'.
Proof. intros Hl. induction 1; [done|]. intros Hok. eauto using step_ok. Qed.
Lemma steps_terminal d d' r : 1 <= limit -> rtc saga_step d d' -> saga_ok d -> r ∈ db_sagas d -> terminal_row r -> r ∈ db_sagas d'.
Proof. intros Hl. induction 1; [done|]. intros Hok Hr Ht. eauto using step_ok, step_terminal. Qed.
Lemma steps_fact u (P : SagaRow -> Prop) d d' : (forall x y, row_moves x y -> P x -> P y) -> 1 <= limit ->
  rtc saga_step d d' -> saga_ok d -> row_fact u P d -> row_fact u P d'.
Proof. intros HP Hl. induction 1; [done|]. intros Hok Ho. eauto using step_ok, step_fact. Qed.
Lemma steps_observed u d d' : 1 <= limit -> rtc saga_step d d' -> saga_ok d -> observed_in u d -> observed_in u d'.
Proof. apply steps_fact, moves_observed. Qed.
Lemma steps_identity u i d d' : 1 <= limit -> rtc saga_step d d' -> saga_ok d -> identity_in u i d -> identity_in u i d'.
Proof. apply steps_fact. intros x y Hm <-. by apply moves_identity. Qed.

(** ** A worker is a sequence of such transactions

    [does m d Q]: what [m] leaves is reached from [d] by the workers' transactions,
    and a result it returns satisfies [Q]. *)
Definition does {A} (m : SM A) (d : SagaDB) (Q : A -> SagaDB -> Prop) : Prop :=
  rtc saga_step d (snd (m d)) /\ forall a, fst (m d) = Ret a -> Q a (snd (m d)).

(** an action that only waits while other workers commit *)
Definition waits {A} (m : SM A) : Prop := forall d, rtc saga_step d (snd (m d)).

Lemma does_ret {A} (a : A) d (Q : A -> SagaDB -> Prop) : Q a d -> does (ret a) d Q.
Proof. intros H. split; [done|]. by intros ? [= <-]. Qed.
Lemma does_gets {A} (f : SagaDB -> A) d (Q : A -> SagaDB -> Prop) : Q (f d) d -> does (gets f) d Q.
Proof. intros H. split; [done|]. by intros ? [= <-]. Qed.
Lemma does_raise {A} c msg d (Q : A -> SagaDB -> Prop) : does (raise c msg) d Q.
Proof. by split. Qed.
Lemma does_lift {A} (o : outcome A) d (Q : A -> SagaDB -> Prop) : (forall a, o = Ret a -> Q a d) -> does (lift_outcome o) d Q.
Proof. by split. Qed.
Lemma does_waits {A} (m : SM A) d (Q : A -> SagaDB -> Prop) :
  waits m -> (forall a d', rtc saga_step d d' -> Q a d') -> does m d Q.
Proof. intros Hm HQ. split; [apply Hm|]. intros a _. apply HQ, Hm. Qed.
Lemma does_mono {A} (m : SM A) d (Q Q' : A -> SagaDB -> Prop) : does m d Q -> (forall a d', Q a d' -> Q' a d') -> does m d Q'.
Proof. intros [Hs HQ] H. split; [done|]. eauto. Qed.
Lemma does_bind {A B} (m : SM A) (k : A -> SM B) d R Q :
  does m d R -> (forall a d', rtc saga_step d d' -> R a d' -> does (k a) d' Q) -> does (bind m k) d Q.
Proof.
  intros [Hs HR] Hk. unfold does, bind. destruct (m d) as [[a|e] d'] eqn:E; simpl in *; [|by split].
  destruct (Hk a d' Hs (HR a eq_refl)) as [Hs' HQ]. split; [by etrans|done].
Qed.
Lemma does_catch {A} p (m : SM A) (h : exn -> SM A) d Q :
  does m d Q -> (forall e d', rtc saga_step d d' -> does (h e) d' Q) -> does (catch_ p m h) d Q.
Proof.
  intros [Hs HR] Hh. unfold does, catch_. destruct (m d) as [[a|e] d'] eqn:E; simpl in *; [by split|].
  destruct (p e); simpl; [|by split]. destruct (Hh e d' Hs) as [Hs' HQ]. split; [by etrans|done].
Qed.
Lemma does_guarded r f audits d (Q : SagaRow -> SagaDB -> Prop) :
  (forall x, x ∈ db_sagas d -> owned r x = true -> owner_write x f) ->
  (existsb (owned r) (db_sagas d) = true ->
   Q (f r) (mkSagaDB (db_events d) (map (fun x => if owned r x then f x else x) (db_sagas d)) (db_audits d ++ audits))) ->
  does (guarded_update r f audits) d Q.
Proof.
  intros Hf HQ. split; [by apply rtc_once, step_write|].
  unfold guarded_update, bind, gets, id. destruct (existsb _ _) eqn:He; simpl; [|done].
  destruct (forallb _ _); simpl; [|done]. intros a [= <-]. by apply HQ.
Qed.

Lemma does_terminate now r s c next id d :
  (forall x, x ∈ db_sagas d -> owned r x = true -> owner_write x (terminated now s c next id)) ->
  does (terminate now r s c next id) d (fun _ _ => True).
Proof. intros H. eapply does_bind with (R := fun _ _ => True); [by apply does_guarded|]. intros. by apply does_ret. Qed.

Lemma does_dead now r c d : does (terminate now r DEAD_LETTER (Some c) None None) d (fun _ _ => True).
Proof. apply does_terminate. intros. constructor. Qed.

Lemma does_fail now r e c d : does (fail st now r e c) d (fun _ _ => True).
Proof.
  unfold fail, retry_or_dead_letter. destruct (isinstance _ _); [apply does_dead|].
  destruct (retryable_error_class e) as [cl|]; [|apply does_dead].
  destruct (Z.leb_spec limit (sg_attempts r)); [apply does_dead|]. apply does_terminate.
  intros x _ (_ & _ & E & _)%owned_spec. constructor. lia.
Qed.

Lemma does_check k client r d : (forall q, waits (client q)) ->
  does (check_desired st lax_int k client r) d (fun _ _ => True).
Proof.
  intros Hc. eapply does_bind with (R := fun _ _ => True).
  - apply does_catch.
    + eapply does_bind with (R := fun _ _ => True).
      * eapply does_bind with (R := fun _ _ => True); [by apply does_waits|]. intros. by apply does_lift.
      * intros. eapply does_bind with (R := fun _ _ => True); [by apply does_lift|]. intros. by apply does_ret.
    + intros e d' _. eapply does_bind with (R := fun _ _ => True); [destruct (dependency_error e); [apply does_fail|apply does_dead]|].
      intros. by apply does_ret.
  - intros [desired|x] d' _ _; [|by apply does_ret]. cbv zeta.
    repeat (match goal with |- does (if ?b then _ else _) _ _ => destruct b end);
      first [by apply does_ret|eapply does_bind; [apply does_dead|intros; by apply does_ret]].
Qed.

Lemma does_observe k adapter desired r d : 1 <= limit -> saga_ok d -> (forall x y, waits (adapter x y)) ->
  String.length (t_uuid k) = 36%nat -> identity_in (saga_id r) (sg_identity r) d ->
  (observed_row r -> observed_in (saga_id r) d) ->
  does (observe k adapter desired r) d (fun r' d' => saga_id r' = saga_id r /\ observed_in (saga_id r) d').
Proof.
  intros Hl Hok Ha Hlen Hi Ho. unfold observe. destruct (has_reusable_observation r) eqn:Hr.
  - apply does_ret. split; [done|]. apply Ho. unfold has_reusable_observation in Hr.
    destruct (sg_readback_key r) as [key|] eqn:Hk; [|done]. destruct (truthy_str (Some key)); [|done].
    destruct (sg_effective_state r) eqn:He; [|done]. split; rewrite ?Hk, ?He; by eexists.
  - eapply does_bind with (R := fun _ d' => saga_ok d' /\ identity_in (saga_id r) (sg_identity r) d').
    { apply does_waits; [done|]. intros _ d' Hs. split; [by eapply steps_ok|by eapply steps_identity]. }
    intros o d' _ [Hok' Hi']. apply does_guarded.
    { intros x Hx (Hid & _)%owned_spec. replace (readback_key r (t_uuid k)) with (readback_key x (t_uuid k)); [by constructor|].
      unfold readback_key. by rewrite (proj2 Hi' x Hx Hid). } intros (x & Hx & Hown)%existsb_exists. split; [done|].
    apply list_elem_of_In in Hx. destruct (owned_spec _ _ Hown) as (Hid & _). set (f := with_observation _ _ _).
    assert (Hall : forall y, y ∈ db_sagas d' -> saga_id y = saga_id r -> y = x)
      by (intros y Hy E; eapply same_id_same; [apply Hok'|..]; congruence).
    assert (Hfid : forall y, saga_id (if owned r y then f y else y) = saga_id y) by (intros y; by destruct (owned r y)).
    split.
    + exists (f x). split; [|done]. apply list_elem_of_fmap. exists x. by rewrite Hown.
    + intros y (z & -> & Hz)%list_elem_of_fmap E. rewrite Hfid in E. rewrite (Hall z Hz E), Hown. split; by eexists.
Qed.

Lemma does_report k client r d : 1 <= limit -> saga_ok d -> (forall q, waits (client q)) -> observed_in (saga_id r) d ->
  does (report st k client r) d (fun _ _ => True).
Proof.
  intros Hl Hok Hc Ho. eapply does_bind with (R := fun _ d' => d' = d); [by apply does_lift|]. intros rb d' _ ->.
  eapply does_bind with (R := fun _ d' => observed_in (saga_id r) d').
  - apply does_catch.
    + eapply does_bind with (R := fun _ d' => observed_in (saga_id r) d'); [|intros; by apply does_ret].
      eapply does_bind with (R := fun _ d' => observed_in (saga_id r) d').
      * apply does_waits; [done|]. intros _ d' Hs. by eapply steps_observed.
      * intros. by apply does_lift.
    + intros e d' Hs. eapply does_bind; [apply does_fail|]. intros x d2 Hs2 _. apply does_ret.
      eapply steps_observed; [done| |exact Hok|done]. by etrans.
  - intros [id|x] d' _ Ho'; [|by apply does_ret]. apply does_terminate.
    intros x Hx (Hid & _)%owned_spec. constructor. by apply Ho'.
Qed.

Lemma find_saga_in u d r : find_saga u d = Some r -> r ∈ db_sagas d /\ saga_id r = u.
Proof. intros [H1 H2]%List.find_some. split; [by apply list_elem_of_In|]. by apply N.eqb_eq in H2. Qed.

Lemma does_process k client adapter u d : 1 <= limit -> saga_ok d -> String.length (t_uuid k) = 36%nat ->
  (forall q, waits (client q)) -> (forall x y, waits (adapter x y)) ->
  does (process_saga st lax_int k client adapter u) d (fun _ _ => True).
Proof.
  intros Hl Hok Hlen Hc Ha. eapply does_bind with (R := fun x d' => x = d /\ d' = d); [by apply does_gets|].
  intros x d' _ [-> ->]. destruct (find_saga u d) as [r|] eqn:Hf; [|apply does_raise].
  destruct (negb _); [apply does_raise|]. apply find_saga_in in Hf as [Hr Hu]. unfold dispatch.
  eapply does_bind; [by apply does_check|]. intros [desired|x] d1 Hs1 _; [|by apply does_ret].
  eapply does_bind with (R := fun r' d' => exists t, r' = renewed t (st_lease_seconds st) r).
  { apply does_guarded; [intros; constructor|]. intros _. by eexists. }
  intros r' d2 Hs2 [t ->]. assert (Hs : rtc saga_step d d2) by by etrans.
  assert (Hok2 : saga_ok d2) by by eapply steps_ok.
  eapply does_bind; [apply does_observe; [done..| |]|].
  { eapply steps_identity; [done|exact Hs|done|]. by eapply fact_at. }
  { intros Ho. eapply steps_observed; [done|exact Hs|done|]. by eapply fact_at. }
  intros r' d3 Hs3 [Hid Ho]. apply does_report; [done|by eapply steps_ok|done|by rewrite Hid].
Qed.

Lemma does_insert_all rows d :
  Forall (fun r => exists e u now, e ∈ db_events d /\ saga_for_event cat st lax_int u now e = Ret r) rows ->
  does (insert_all rows) d (fun _ _ => True).
Proof.
  intros H. assert (Hev : forall d', db_events d' = db_events d -> does (insert_all rows) d' (fun _ _ => True)); [|by apply Hev].
  induction H as [|r rows (e & u & now & He & Hr) _ IH]; intros d' E; [by apply does_ret|]. simpl.
  eapply does_bind with (R := fun _ d2 => db_events d2 = db_events d).
  - split; [apply rtc_once; eapply step_insert; [by rewrite E|done]|]. intros a _.
    unfold insert_saga, bind, gets, id. destruct (row_fits r); simpl; [|done]. by destruct (existsb _ _).
  - intros b d2 _ E2. eapply does_bind; [by apply IH|]. intros. by apply does_ret.
Qed.

Lemma does_enroll ids now n d : does (enroll_pending_sagas cat st lax_int ids now n) d (fun _ _ => True).
Proof.
  eapply does_bind with (R := fun x d' => x = pending_events cat n d /\ d' = d); [by apply does_gets|]. intros es d' _ [-> ->].
  eapply does_bind with (R := fun rows d' => traverse (fun i e => saga_for_event cat st lax_int (ids i) (now i) e) 0 (pending_events cat n d) = Ret rows /\ d' = d);
    [by apply does_lift|].
  intros rows d' _ [Hrows ->]. apply does_insert_all. apply traverse_Ret in Hrows as [_ Hrows]. apply Forall_forall.
  intros r (i & Hi)%list_elem_of_lookup. destruct (Hrows i r Hi) as (e & He & Hr). exists e, (ids i), (now i). split; [|done].
  apply list_elem_of_lookup_2 in He. unfold pending_events in He. apply elem_of_take in He as (j & Hj & _).
  apply list_elem_of_lookup_2, in_sorted, filter_In_list in Hj. by destruct Hj.
Qed.

Lemma does_cycle c client d : saga_ok d -> String.length (t_uuid (cc_ticks c)) = 36%nat -> (forall q, waits (client q)) ->
  does (cycle cat st lax_int c client) d (fun _ _ => True).
Proof.
  intros Hok Hlen Hc. unfold cycle. destruct (negb (st_enabled st)); [by apply does_ret|].
  unfold validate_worker_settings. destruct (st_lease_seconds st <? MINIMUM_LEASE_SECONDS); [by split|].
  destruct (Z.ltb_spec limit 1) as [|Hl]; [by split|].
  eapply does_bind with (R := fun _ d' => d' = d); [by apply does_lift|]. intros _ d' _ ->.
  eapply does_bind with (R := fun a d' => d' = d /\ adapter_for cat st (cc_adapter c) = Ret a); [by apply does_lift|].
  intros adapter d' _ [-> Had].
  assert (Hwait : forall x y, waits (adapter x y)).
  { unfold adapter_for in Had. destruct (negb _); [done|]. injection Had as <-. intros x y d'. unfold synthetic_apply.
    by destruct (dict_get _ _). }
  eapply does_bind with (R := fun _ _ => True); [split; [apply rtc_once, step_recover|done]|]. intros n d1 Hs1 _.
  eapply does_bind; [apply does_enroll|]. intros m d2 Hs2 _.
  eapply does_bind with (R := fun _ _ => True); [split; [apply rtc_once, step_claim|done]|]. intros [r|] d3 Hs3 _; [|by apply does_ret].
  assert (saga_ok d3) by (eapply steps_ok; [done| |exact Hok]; etrans; [exact Hs1|etrans; done]).
  eapply does_bind; [by apply does_process|]. intros. by apply does_ret.
Qed.

Lemma does_sync sy client d : (forall q, waits (client q)) -> does (run_sync_cycle sy client) d (fun _ _ => True).
Proof.
  intros Hc. assert (Hrec : forall records d, does (sync_records sy client records) d (fun _ _ => True)).
  { induction records as [|v records IH]; intros d0; [by apply does_ret|]. destruct v as [| | | | | |record]; try apply does_raise.
    simpl. eapply does_bind with (R := fun _ _ => True); [split; [apply rtc_once, step_event|done]|]. intros x d1 _ _.
    eapply does_bind with (R := fun _ _ => True); [by apply does_waits|]. intros _ d2 _ _.
    eapply does_bind; [apply IH|]. intros. by apply does_ret. }
  eapply does_bind with (R := fun _ _ => True); [by apply does_waits|]. intros caps d1 _ _.
  eapply does_bind with (R := fun _ _ => True); [by apply does_lift|]. intros ok d2 _ _. destruct (negb ok); [apply does_raise|].
  eapply does_bind with (R := fun _ _ => True); [by apply does_waits|]. intros claim d3 _ _.
  destruct (default _ _); try apply does_raise. eapply does_bind; [apply Hrec|]. intros. by apply does_ret.
Qed.

(** ** Histories *)

Definition empty_saga_db : SagaDB := mkSagaDB [] [] [].

Lemma empty_saga_ok : saga_ok empty_saga_db.
Proof. split; constructor. Qed.

(** a call of one of the two workers: its cycle, or the intake before it *)
Inductive worker_call : SagaDB -> SagaDB -> Prop :=
  | call_cycle c client d : String.length (t_uuid (cc_ticks c)) = 36%nat -> (forall q, waits (client q)) ->
      worker_call d (snd (cycle cat st lax_int c client d))
  | call_sync sy client d : (forall q, waits (client q)) -> worker_call d (snd (run_sync_cycle sy client d)).

Lemma call_steps d d' : saga_ok d -> worker_call d d' -> rtc saga_step d d'.
Proof. intros Hok Hc. destruct Hc; [by apply does_cycle|by apply does_sync]. Qed.

(** C12: whatever the workers do, and however their transactions interleave while they
    wait for Odoo, the tables keep the invariant: one row per event, attempts
    within the retry limit, a lease exactly on the reserved rows, a completion
    time exactly on the completed ones, which were observed and carry Odoo's
    receipt; an event is taken in once; and a completed or dead-lettered row is
    never written again. *)
Theorem saga_history d d' : 1 <= limit -> rtc saga_step empty_saga_db d -> worker_call d d' ->
  rtc saga_step empty_saga_db d' /\ saga_ok d' /\
  forall r, r ∈ db_sagas d -> terminal_row r -> r ∈ db_sagas d'.
Proof.
  intros Hl Hd Hc. assert (Hok : saga_ok d) by (by eapply steps_ok; [..|apply empty_saga_ok]).
  apply call_steps in Hc; [|done]. split_and!; [by etrans|by eapply steps_ok|intros r Hr Ht; by eapply steps_terminal].
Qed.

(** an event whose id is longer than 110 characters is never completed: the key of
    its report does not fit its column *)
Lemma long_event_never_completes d r : 1 <= limit -> rtc saga_step empty_saga_db d -> r ∈ db_sagas d ->
  (110 < String.length (sg_event_uuid (sg_identity r)))%nat -> sg_status r <> COMPLETED.
Proof.
  intros Hl Hd Hr Hlen Hs. assert (Hok : saga_ok d) by (by eapply steps_ok; [..|apply empty_saga_ok]).
  destruct Hok as [Hrows _ _ _]. rewrite Forall_forall in Hrows. destruct (Hrows r Hr) as [_ _ _ _ _ _ Hk Hrec].
  destruct (Hrec Hs) as [[Hkey _] _]. specialize (Hk Hkey). lia.
Qed.
End Steps.

(** ** Dispatches without interference *)

(** a client that answers each request as [f] says, while nobody else commits *)
Definition answering (f : OdooRequest -> outcome Response) : OdooClient := fun q d => (f q, d).
Definition quiet (a : CampaignAdapter) : Prop := forall r x d, snd (a r x d) = d.

(** the two answer alike what a dispatch asks that reports [body] and nothing else *)
Definition agree_on (body : ActualStateReadback) (f f' : OdooRequest -> outcome Response) : Prop :=
  forall q, match q with ReadDesired _ _ _ _ => True | ReportActual b _ _ _ _ => b = body end -> f q = f' q.

Lemma find_map u g l : (forall x, x ∈ l -> saga_id (g x) = saga_id x) ->
  List.find (fun r => (saga_id r =? u)%N) (map g l) = g <$> List.find (fun r => (saga_id r =? u)%N) l.
Proof.
  intros H. induction l as [|x l IH]; [done|]. simpl. rewrite H by left. destruct (saga_id x =? u)%N; [done|].
  apply IH. intros y Hy. apply H. by right.
Qed.

Lemma owned_id r x : owned r x = true -> saga_id x = saga_id r.
Proof. by intros [? _]%owned_spec. Qed.

Section Quiet.
Context (cat : Catalog) (st : SagaSettings) (lax_int : json -> option Z).

Lemma guarded_Ret r f audits d r' d' : guarded_update r f audits d = (Ret r', d') -> r' = f r.
Proof.
  unfold guarded_update, bind, gets, id. destruct (existsb _ _); simpl; [|done].
  destruct (forallb _ _); simpl; [|done]. by intros [= <- _].
Qed.

Lemma guarded_found r f audits d r' d' : find_saga (saga_id r) d = Some r -> (forall x, saga_id (f x) = saga_id x) ->
  NoDup (map saga_id (db_sagas d)) -> guarded_update r f audits d = (Ret r', d') ->
  r' = f r /\ find_saga (saga_id r) d' = Some (f r) /\ NoDup (map saga_id (db_sagas d')).
Proof.
  intros Hf Hid Hnd. unfold guarded_update, bind, gets, id. destruct (existsb _ _) eqn:He; simpl; [|done].
  destruct (forallb _ _); simpl; [|done]. intros [= <- <-]. split; [done|].
  assert (Hg : forall x, saga_id (if owned r x then f x else x) = saga_id x) by (intros x; by destruct (owned r x)).
  apply existsb_exists in He as (x & Hx & Ho). apply list_elem_of_In in Hx. pose proof (find_saga_in _ _ _ Hf) as [Hr _].
  assert (x = r) as -> by (eapply same_id_same; [done..|by apply owned_id]).
  split; [|by simpl; rewrite map_map, (map_ext _ _ Hg)].
  unfold find_saga in *. simpl. rewrite find_map by done. rewrite Hf. simpl. by rewrite Ho.
Qed.

Lemma check_agrees body k f f' r d : agree_on body f f' ->
  check_desired st lax_int k (answering f) r d = check_desired st lax_int k (answering f') r d.
Proof.
  intros H. unfold check_desired, read_desired_state. unfold bind at 1, catch_ at 1, bind at 1, bind at 1, answering at 1.
  symmetry. unfold bind at 1, catch_ at 1, bind at 1, bind at 1, answering at 1. by rewrite <- (H (ReadDesired _ _ _ _)).
Qed.

Lemma report_agrees body k f f' r d : actual_state_readback r = Ret body -> agree_on body f f' ->
  report st k (answering f) r d = report st k (answering f') r d.
Proof.
  intros Hb H. unfold report. rewrite Hb, !bind_lift_ret. apply bind_ext; [|done]. unfold catch_. f_equal.
  unfold report_actual_state, bind, answering. by rewrite (H (ReportActual _ _ _ _ _)).
Qed.

Lemma renewed_id now lease x : saga_id (renewed now lease x) = saga_id x.
Proof. done. Qed.
Lemma observation_id now key o x : saga_id (with_observation now key o x) = saga_id x.
Proof. done. Qed.

Lemma terminated_id now s c next rid x : saga_id (terminated now s c next rid x) = saga_id x.
Proof. done. Qed.

Lemma terminate_Ret now r s c next rid x d d' : terminate now r s c next rid d = (Ret x, d') ->
  x = {| sr_outcome := outcome_of s c; sr_error_class := c |} /\
  exists audits, guarded_update r (terminated now s c next rid) audits d = (Ret (terminated now s c next rid r), d').
Proof.
  unfold terminate. intros (r' & d1 & Hg & Hx)%bind_Ret_inv. unfold ret in Hx. injection Hx as <- <-. split; [done|].
  eexists. rewrite Hg. by rewrite (guarded_Ret _ _ _ _ _ _ Hg).
Qed.

Lemma retryable_transport e c : retryable_error_class e = Some c -> c ∈ TRANSPORT_RETRY_ERROR_CLASSES.
Proof. unfold retryable_error_class. repeat (destruct (isinstance _ _); [intros [= <-]; set_solver|]). done. Qed.

(** a failure that is answered with a retry leaves the row waiting, its error a transport's *)
Lemma fail_retry now r e rejected x d d' : fail st now r e rejected d = (Ret x, d') -> sr_outcome x = "retry" ->
  exists c next audits, c ∈ TRANSPORT_RETRY_ERROR_CLASSES /\
    guarded_update r (terminated now RETRY (Some c) (Some next) None) audits d = (Ret (terminated now RETRY (Some c) (Some next) None r), d').
Proof.
  assert (Hdead : forall c, terminate now r DEAD_LETTER (Some c) None None d = (Ret x, d') -> sr_outcome x <> "retry").
  { intros c [-> _]%terminate_Ret. simpl. by case_bool_decide. }
  unfold fail, retry_or_dead_letter. destruct (isinstance _ _); [by intros ?%Hdead|].
  destruct (retryable_error_class e) as [c|] eqn:Hc; [|by intros ?%Hdead].
  destruct (_ <=? _); [by intros ?%Hdead|]. intros [_ (audits & Hg)]%terminate_Ret _. eexists c, _, _. split; [|done].
  by eapply retryable_transport.
Qed.

Lemma report_retry k f r x d d' : report st k (answering f) r d = (Ret x, d') -> sr_outcome x = "retry" ->
  exists body c next audits, actual_state_readback r = Ret body /\ c ∈ TRANSPORT_RETRY_ERROR_CLASSES /\
    guarded_update r (terminated (t_end k) RETRY (Some c) (Some next) None) audits d =
      (Ret (terminated (t_end k) RETRY (Some c) (Some next) None r), d').
Proof.
  unfold report. intros H Hx. apply bind_Ret_inv in H as (body & d0 & Hb & H). unfold lift_outcome in Hb. injection Hb as Hb <-.
  exists body. apply bind_Ret_inv in H as (y & d1 & Hc & H). unfold catch_, report_actual_state, bind, answering, lift_outcome in Hc.
  destruct y as [id|y].
  - exfalso. apply terminate_Ret in H as [-> _]. done.
  - unfold ret in H. injection H as <- <-. destruct (f _) as [resp|e].
    + destruct (receipt body resp) as [id|e]; [done|]. destruct (dependency_error e); [|done].
      destruct (fail st (t_end k) r e "READBACK_REJECTED" d) as [[z|e'] d2] eqn:Hf; [|done]. injection Hc as -> ->.
      destruct (fail_retry _ _ _ _ _ _ _ Hf Hx) as (c & next & audits & Hin & Hg). by exists c, next, audits.
    + destruct (dependency_error e); [|done].
      destruct (fail st (t_end k) r e "READBACK_REJECTED" d) as [[z|e'] d2] eqn:Hf; [|done]. injection Hc as -> ->.
      destruct (fail_retry _ _ _ _ _ _ _ Hf Hx) as (c & next & audits & Hin & Hg). by exists c, next, audits.
Qed.

Lemma observe_found k adapter desired r d r' d' : quiet adapter -> find_saga (saga_id r) d = Some r ->
  NoDup (map saga_id (db_sagas d)) -> observe k adapter desired r d = (Ret r', d') ->
  saga_id r' = saga_id r /\ find_saga (saga_id r) d' = Some r' /\ NoDup (map saga_id (db_sagas d')).
Proof.
  intros Hq Hf Hnd. unfold observe. destruct (has_reusable_observation r); [by intros [= <- <-]|].
  intros (o & d1 & Ha & Hg)%bind_Ret_inv. pose proof (Hq r desired d) as E. rewrite Ha in E. simpl in E. subst d1.
  by destruct (guarded_found _ _ _ _ _ _ Hf (observation_id _ _ _) Hnd Hg) as (-> & ? & ?).
Qed.

Lemma claim_found now lease d r2 d2 r : claim_saga now lease d = (Ret (Some r2), d2) -> find_saga (saga_id r2) d = Some r ->
  NoDup (map saga_id (db_sagas d)) -> r2 = reserved now lease r /\ find_saga (saga_id r2) d2 = Some r2.
Proof.
  unfold claim_saga, bind, gets, id. destruct (lease <? 1); [done|]. destruct (claimable_saga now d) as [x|] eqn:Hc; [|done].
  destruct (negb _); [done|]. intros [= <- <-] Hf Hnd. apply claimable_saga_in in Hc as [Hx _].
  change (saga_id (reserved now lease x)) with (saga_id x) in *. apply find_saga_in in Hf as Hr. destruct Hr as [Hr Hid].
  assert (r = x) as -> by (by eapply same_id_same). split; [done|]. unfold find_saga, update_saga in *. simpl. rewrite find_map.
  - rewrite Hf. simpl. by rewrite N.eqb_refl.
  - intros y _. by destruct (saga_id y =? saga_id x)%N.
Qed.

(** C24: a report that Odoo did not answer is sent again as it was.  When the report of
    a dispatch fails in transport and the saga waits for a retry, the next dispatch
    of the saga asks its adapter nothing and sends no other report than the
    first one: same idempotency key, attempt, state and evidence. *)
Theorem resend_same_report k f adapter u d r desired x d1 :
  NoDup (map saga_id (db_sagas d)) -> quiet adapter -> find_saga u d = Some r ->
  check_desired st lax_int k (answering f) r d = (Ret (inl desired), d) ->
  process_saga st lax_int k (answering f) adapter u d = (Ret x, d1) -> sr_outcome x = "retry" ->
  exists body,
    (forall f', agree_on body f f' ->
       process_saga st lax_int k (answering f') adapter u d = process_saga st lax_int k (answering f) adapter u d) /\
    forall now lease r2 d2, claim_saga now lease d1 = (Ret (Some r2), d2) -> saga_id r2 = u ->
      forall k2 f2 f2' a2 a2', agree_on body f2 f2' ->
        process_saga st lax_int k2 (answering f2) a2 u d2 = process_saga st lax_int k2 (answering f2') a2' u d2.
Proof.
  intros Hnd Hq Hf Hck Hp Hx. pose proof (find_saga_in _ _ _ Hf) as [_ Hu]. subst u.
  unfold process_saga, dispatch in Hp |- *. unfold bind at 1, gets at 1 in Hp. unfold id in Hp. rewrite Hf in Hp.
  destruct (negb _) eqn:Hres; [done|]. rewrite (bind_run _ _ _ _ _ Hck) in Hp.
  apply bind_Ret_inv in Hp as (r1 & da & Hg & Hp). apply bind_Ret_inv in Hp as (r' & db & Ho & Hp).
  destruct (guarded_found _ _ _ _ _ _ Hf (renewed_id _ _) Hnd Hg) as (-> & Hf1 & Hnd1).
  destruct (observe_found _ _ _ (renewed (t_renew k) (st_lease_seconds st) r) _ _ _ Hq Hf1 Hnd1 Ho) as (Hid & Hf2 & Hnd2).
  change (saga_id (renewed (t_renew k) (st_lease_seconds st) r)) with (saga_id r) in Hid, Hf2.
  destruct (report_retry _ _ _ _ _ _ Hp Hx) as (body & c & next & audits & Hb & Hc & Hend).
  exists body. split.
  - intros f' Ha. unfold bind at 1, gets at 1. symmetry. unfold bind at 1, gets at 1. unfold id. rewrite Hf, Hres.
    rewrite (bind_run _ _ _ _ _ Hck), (bind_run _ _ _ _ _ (eq_trans (eq_sym (check_agrees _ _ _ _ _ _ Ha)) Hck)).
    rewrite !(bind_run _ _ _ _ _ Hg), !(bind_run _ _ _ _ _ Ho). by eapply report_agrees.
  - intros now lease r2 d2 Hcl Hu k2 f2 f2' a2 a2' Ha.
    rewrite <- Hid in Hf2. destruct (guarded_found _ _ _ _ _ _ Hf2 (terminated_id _ _ _ _ _) Hnd2 Hend) as (_ & Hf3 & Hnd3).
    rewrite Hid in Hf3. rewrite <- Hu in Hf3. destruct (claim_found _ _ _ _ _ _ Hcl Hf3 Hnd3) as [Hr2 Hf4]. rewrite Hu in Hf4.
    unfold bind at 1, gets at 1. symmetry. unfold bind at 1, gets at 1. unfold id. rewrite Hf4.
    destruct (negb (bool_decide (sg_status r2 = RESERVED))); [done|]. symmetry. apply bind_ext; [by apply (check_agrees body)|].
    intros [ds|y] d3; [|done]. unfold bind at 1. symmetry. unfold bind at 1. symmetry.
    destruct (guarded_update r2 (renewed (t_renew k2) (st_lease_seconds st)) [] d3) as [[r3|e] d4] eqn:Hg3; [|done].
    assert (r3 = renewed (t_renew k2) (st_lease_seconds st) r2) as ->.
    { by eapply guarded_Ret. }
    set (r3 := renewed (t_renew k2) (st_lease_seconds st) r2).
    assert (Hb3 : actual_state_readback r3 = Ret body) by (unfold r3; rewrite Hr2, <- Hb; done).
    assert (Hre : has_reusable_observation r3 = true).
    { unfold r3. rewrite Hr2. unfold has_reusable_observation. cbn. unfold actual_state_readback in Hb.
      destruct (sg_readback_key r') as [key|]; [|done]. destruct (sg_effective_state r'); [|done].
      destruct (sg_observed_at r'); [|done]. destruct key; [by rewrite !andb_false_r in Hb|]. by apply mem_string_spec. }
    unfold observe. rewrite Hre. unfold bind, ret. by apply (report_agrees body).
Qed.

(** ** A saga that can be reported completes *)

Lemma guarded_writes r f audits d : find_saga (saga_id r) d = Some r -> NoDup (map saga_id (db_sagas d)) ->
  sg_status r = RESERVED -> row_fits (f r) = true ->
  exists d', guarded_update r f audits d = (Ret (f r), d').
Proof.
  intros Hf Hnd Hs Hfit. pose proof (find_saga_in _ _ _ Hf) as [Hr _]. unfold guarded_update, bind, gets, id.
  assert (Ho : owned r r = true).
  { unfold owned. by rewrite N.eqb_refl, Z.eqb_refl, !bool_decide_eq_true_2. }
  assert (existsb (owned r) (db_sagas d) = true) as -> by (apply existsb_exists; exists r; by rewrite <- list_elem_of_In).
  assert (forallb (fun x => negb (owned r x) || row_fits (f x)) (db_sagas d) = true) as ->; [|by eexists].
  apply forallb_forall. intros x Hx. destruct (owned r x) eqn:Hox; [|done].
  by assert (x = r) as -> by (eapply same_id_same; [done|by apply list_elem_of_In|done|by apply owned_id]).
Qed.

(** the columns a report needs *)
Definition reportable (i : SagaIdentity) : bool :=
  len_between 1 110 (sg_event_uuid i) && len_between 1 128 (sg_command_id i) &&
  len_between 1 128 (sg_organization i) && len_between 1 128 (sg_business_unit i) && len_between 1 128 (sg_campaign i) &&
  (0 <=? sg_configuration_version i) && len_between 1 256 (sg_manifest_ref i) && len_between 1 80 (sg_manifest_hash i) &&
  len_between 1 128 (sg_correlation_id i).

Lemma readback_ok r key state observed : reportable (sg_identity r) = true -> 1 <= sg_readback_attempt r ->
  sg_readback_key r = Some key -> sg_effective_state r = Some state -> sg_observed_at r = Some observed ->
  len_between 1 160 key = true -> exists body, actual_state_readback r = Ret body.
Proof.
  intros Hi Ha Hk He Ho Hl. unfold actual_state_readback. rewrite Hk, He, Ho. unfold reportable in Hi.
  rewrite !andb_true_iff in Hi. destruct Hi as [[[[[[[[H1 H2] H3] H4] H5] H6] H7] H8] H9].
  apply Z.leb_le in Ha. rewrite H2, H3, H4, H5, H6, H7, H8, H9, Hl, Ha.
  assert (len_between 1 128 (sg_event_uuid (sg_identity r)) = true) as ->; [|by eexists].
  unfold len_between in *. rewrite andb_true_iff, !Nat.leb_le in *. lia.
Qed.

(** C33: a reserved saga that Odoo still desires, as it was enrolled, is completed by
    its dispatch when the adapter observes and Odoo acknowledges what is reported:
    the row is [COMPLETED] and keeps Odoo's receipt.  It is a saga that was
    claimed, has no earlier observation to report again and fits its columns; its
    event id has at most 110 characters and the other fields of its identity fit
    the report ([reportable]); the receipt has at most 128 characters; and neither
    the adapter, nor Odoo, nor another worker writes the tables meanwhile.  (With
    a longer event id it never completes, [long_event_never_completes].) *)
Theorem reserved_saga_completes k f adapter u d r desired o rid :
  NoDup (map saga_id (db_sagas d)) -> find_saga u d = Some r -> sg_status r = RESERVED ->
  1 <= sg_attempts r -> row_fits r = true -> reportable (sg_identity r) = true ->
  has_reusable_observation r = false -> String.length (t_uuid k) = 36%nat ->
  check_desired st lax_int k (answering f) r d = (Ret (inl desired), d) ->
  (forall x d', sg_identity x = sg_identity r -> adapter x desired d' = (Ret o, d')) ->
  (forall body, exists resp, (forall key c p t, f (ReportActual body key c p t) = Ret resp) /\ receipt body resp = Ret rid) ->
  (String.length rid <= 128)%nat ->
  exists d' r', process_saga st lax_int k (answering f) adapter u d = (Ret {| sr_outcome := "completed"; sr_error_class := None |}, d') /\
    find_saga u d' = Some r' /\ sg_status r' = COMPLETED /\ sg_readback_id r' = Some rid /\
    sg_effective_state r' = Some (ob_effective_state o) /\ sg_attempts r' = sg_attempts r.
Proof.
  intros Hnd Hf Hs Ha Hfit Hi Hre Hlen Hck Hobs Hack Hrid. pose proof (find_saga_in _ _ _ Hf) as [_ Hu]. subst u.
  set (r1 := renewed (t_renew k) (st_lease_seconds st) r).
  destruct (guarded_writes r (renewed (t_renew k) (st_lease_seconds st)) [] d Hf Hnd Hs Hfit) as [da Hg1]. fold r1 in Hg1.
  destruct (guarded_found _ _ _ _ _ _ Hf (renewed_id _ _) Hnd Hg1) as (_ & Hf1 & Hnd1). fold r1 in Hf1.
  set (key := readback_key r1 (t_uuid k)). set (r2 := with_observation (t_observe k) key o r1).
  assert (Hkl : len_between 1 160 key = true).
  { unfold len_between, key. rewrite readback_key_length, andb_true_iff, !Nat.leb_le by done. unfold reportable in Hi.
    rewrite !andb_true_iff in Hi. destruct Hi as [[[[[[[[H1 _] _] _] _] _] _] _] _]. unfold len_between in H1.
    rewrite andb_true_iff, !Nat.leb_le in H1. simpl. lia. }
  assert (Hfits : forall x, sg_identity x = sg_identity r -> sg_attempts x = sg_attempts r -> sg_last_error_class x = sg_last_error_class r ->
      sg_readback_id x = sg_readback_id r -> row_fits (with_observation (t_observe k) key o x) = true).
  { intros x Ex Ea Ee Er. unfold row_fits in Hfit |- *. cbn -[key]. rewrite Ex, Ea, Ee, Er. rewrite !andb_true_iff in Hfit |- *.
    destruct Hfit as [[[[[[[[[[[[[H1 H2] H3] H4] H5] H6] H7] H8] H9] H10] H11] H12] H13] H14].
    unfold len_between in Hkl. apply andb_true_iff in Hkl as [_ ?]. by repeat split. }
  destruct (guarded_writes r1 (with_observation (t_observe k) key o) [] da Hf1 Hnd1 Hs (Hfits r1 eq_refl eq_refl eq_refl eq_refl)) as [db Hg2].
  fold r2 in Hg2. destruct (guarded_found r1 _ _ _ _ _ Hf1 (observation_id _ _ _) Hnd1 Hg2) as (_ & Hf2 & Hnd2). fold r2 in Hf2.
  destruct (readback_ok r2 key (ob_effective_state o) (ob_observed_at o) Hi Ha eq_refl eq_refl eq_refl Hkl) as [body Hbody].
  destruct (Hack body) as (resp & Hresp & Hrec).
  set (fin := terminated (t_end k) COMPLETED None None (Some rid)).
  assert (Hfin : row_fits (fin r2) = true).
  { pose proof (Hfits r1 eq_refl eq_refl eq_refl eq_refl) as H. fold r2 in H. unfold row_fits in H |- *. unfold fin, terminated.
    cbn -[key] in H |- *. rewrite !andb_true_iff in H |- *.
    destruct H as [[[[[[[[[[[[[H1 H2] H3] H4] H5] H6] H7] H8] H9] H10] H11] H12] H13] H14].
    apply Nat.leb_le in Hrid. by repeat split. }
  destruct (guarded_writes r2 fin [ended_audit COMPLETED None (Some rid) r2] db Hf2 Hnd2 Hs Hfin) as [dc Hg3].
  destruct (guarded_found r2 _ _ _ _ _ Hf2 (terminated_id _ _ _ _ _) Hnd2 Hg3) as (_ & Hf3 & _).
  exists dc, (fin r2). split; [|done].
  unfold process_saga, dispatch. unfold bind at 1, gets at 1, Datatypes.id at 1. rewrite Hf, Hs, bool_decide_eq_true_2 by done. change (negb true) with false. cbv iota.
  rewrite (bind_run _ _ _ _ _ Hck). cbv beta iota. rewrite (bind_run _ _ _ _ _ Hg1).
  assert (Hob : observe k adapter desired r1 da = (Ret r2, db)).
  { unfold observe. change (has_reusable_observation r1) with (has_reusable_observation r). rewrite Hre.
    rewrite (bind_run _ _ _ _ _ (Hobs r1 da eq_refl)). exact Hg2. }
  rewrite (bind_run _ _ _ _ _ Hob). unfold report. rewrite Hbody, bind_lift_ret.
  unfold bind at 1, catch_, report_actual_state, bind at 1, bind at 1, answering at 1, lift_outcome. rewrite Hresp, Hrec.
  unfold ret at 1. unfold terminate. fold fin. by rewrite (bind_run _ _ _ _ _ Hg3).
Qed.

(** ** Events that never get through *)

(** a valid event whose version does not fit its column *)
Definition oversized (e : IntegrationEvent) : Prop :=
  exists op c, dict_get (ie_event_type e) (cat_operations cat) = Some op /\ control_event lax_int (ie_payload e) = Some c /\
    2 ^ 31 <= ce_configuration_version c.

Lemma insert_all_refused rows r d : r ∈ rows -> row_fits r = false -> exists e, fst (insert_all rows d) = Exc e.
Proof.
  intros Hr Hf. revert d. induction rows as [|x rows IH]; intros d; [by apply not_elem_of_nil in Hr|].
  simpl. unfold bind. apply elem_of_cons in Hr as [<-|Hr].
  - unfold insert_saga, bind, gets. rewrite Hf. by eexists.
  - destruct (insert_saga x d) as [[b|e] d'] eqn:Hi; [|by eexists]. destruct (IH Hr d') as [e He]. exists e.
    by destruct (insert_all rows d') as [[n|e'] d2].
Qed.

Lemma traverse_has {A B} (g : nat -> A -> outcome B) l i ys j x : traverse g i l = Ret ys -> l !! j = Some x ->
  exists y, y ∈ ys /\ g (i + j)%nat x = Ret y.
Proof.
  intros H Hj. destruct (traverse_Ret _ _ _ _ H) as [Hlen Hall].
  destruct (lookup_lt_is_Some_2 ys j) as [y Hy]; [rewrite Hlen; by eapply lookup_lt_Some|].
  destruct (Hall j y Hy) as (x' & Hx' & Hg). exists y. split; [by eapply list_elem_of_lookup_2|]. congruence.
Qed.

(** enrolling an oversized event raises *)
Lemma oversized_refused ids now n d e : e ∈ pending_events cat n d -> oversized e ->
  exists x, fst (enroll_pending_sagas cat st lax_int ids now n d) = Exc x.
Proof.
  intros (j & Hj)%list_elem_of_lookup (op & c & Hop & Hc & Hv). unfold enroll_pending_sagas, bind, gets, lift_outcome.
  destruct (traverse _ 0 _) as [rows|x] eqn:Ht; [|by eexists].
  destruct (traverse_has _ _ _ _ _ _ Ht Hj) as (r & Hr & Hre).
  apply (insert_all_refused rows r); [done|]. unfold saga_for_event in Hre. rewrite Hop, Hc in Hre. injection Hre as <-.
  assert (int4 (ce_configuration_version c) = false) as Hbig by (unfold int4; lia).
  unfold row_fits. cbn -[int4]. rewrite Hbig. done.
Qed.

Lemma recovered_pending n l now d :
  pending_events cat n (set_sagas (map (recovered l now) (db_sagas d)) d) = pending_events cat n d.
Proof.
  unfold pending_events. f_equal. f_equal. apply filter_ext. intros x. unfold pending. f_equal. f_equal. unfold enrolled. simpl.
  induction (db_sagas d) as [|r rs IH]; [done|]. simpl. rewrite IH. f_equal. unfold recovered.
  destruct (lease_expired _ r); simpl; [by destruct (_ <=? sg_attempts r)|done].
Qed.

(** and the worker's cycle ends there, at every cycle: no saga is claimed *)
Lemma oversized_wedges c client d e : st_enabled st = true ->
  validate_worker_settings cat st = Ret tt -> e ∈ pending_events cat 50 d -> oversized e ->
  exists x d', cycle cat st lax_int c client d = (Exc x, d') /\
    d' = snd (enroll_pending_sagas cat st lax_int (cc_ids c) (cc_enroll c) 50
                (set_sagas (map (recovered (st_retry_limit st) (cc_recover c)) (db_sagas d)) d)).
Proof.
  intros Hen Hv He Ho. unfold cycle. rewrite Hen. change (negb true) with false. cbv iota.
  assert (Hl : (st_retry_limit st <? 1) = false /\ exists a, adapter_for cat st (cc_adapter c) = Ret a).
  { unfold validate_worker_settings, adapter_for in *. destruct (_ <? MINIMUM_LEASE_SECONDS); [done|].
    destruct (_ <? 1); [done|]. split; [done|]. destruct (negb _); [done|]. by eexists. }
  destruct Hl as [Hl [a Ha]]. rewrite Hv, Ha, !bind_lift_ret.
  set (d1 := set_sagas (map (recovered (st_retry_limit st) (cc_recover c)) (db_sagas d)) d).
  assert (Hrec : exists n, recover_expired_leases (cc_recover c) (st_retry_limit st) d = (Ret n, d1))
    by (unfold recover_expired_leases; rewrite Hl; by eexists).
  destruct Hrec as [n Hrec]. rewrite (bind_run _ _ _ _ _ Hrec).
  assert (Hp : pending_events cat 50 d1 = pending_events cat 50 d) by apply recovered_pending.
  rewrite <- Hp in He. destruct (oversized_refused (cc_ids c) (cc_enroll c) 50 d1 e He Ho) as [x Hx].
  unfold bind at 1. destruct (enroll_pending_sagas _ _ _ _ _ _ d1) as [[b|y] d2]; [done|]. by exists y, d2.
Qed.
End Quiet.

(** ** A worker's run *)

Module SagaExample.
Definition cat : Catalog := {|
  cat_allowlist := ["campaign.provision.requested.v1"];
  cat_operations := [("campaign.provision.requested.v1", provision)];
  cat_results := [(provision, Some provisioned_disabled)];
  cat_bindings := [("test", None)] |}.
Definition st : SagaSettings := {|
  st_environment := "test"; st_enabled := true; st_adapter := "synthetic"; st_lease_seconds := 60; st_retry_limit := 5 |}.
Definition lax (v : json) : option Z := match v with JInt z => Some z | _ => None end.
Definition payload : jdict :=
  [("command_id", JStr "cmd-1"); ("organization_public_id", JStr "org"); ("business_unit_public_id", JStr "bu");
   ("campaign_public_id", JStr "camp"); ("configuration_version", JInt 3); ("manifest_ref", JStr "m"); ("manifest_hash", JStr "h")].
Definition record : jdict :=
  [("event_id", JStr "ev-1"); ("event_type", JStr "campaign.provision.requested.v1");
   ("schema_version", JStr "1"); ("payload", JObj payload); ("payload_hash", JStr (canonical_sha256 (JObj payload)));
   ("correlation_id", JStr "corr"); ("lease_token", JStr "t"); ("lease_generation", JInt 1)].
Definition outbox : SyncClient := fun q => match q with
  | GetCapabilities => ret [("capabilities", JArr [JStr "outbox.claim"; JStr "outbox.acknowledge"])]
  | ClaimRecords _ _ _ _ => ret [("records", JArr [JObj record])]
  | Acknowledge _ _ => ret [] end.
Definition sy : SyncSettings := {| sy_worker_id := "w"; sy_batch_size := 1; sy_lease_seconds := 30; sy_environment := "test" |}.
Definition synced : SagaDB := snd (run_sync_cycle sy outbox empty_saga_db).
Definition odoo (receive : ActualStateReadback -> outcome Response) (q : OdooRequest) : outcome Response :=
  match q with
  | ReadDesired _ _ _ _ => Ret {| rs_status_code := 200; rs_json := Some (JObj
      [("campaign_public_id", JStr "camp"); ("configuration_version", JInt 3);
       ("desired_state", JStr "provisioned_disabled"); ("manifest_ref", JStr "m"); ("manifest_hash", JStr "h")]) |}
  | ReportActual b _ _ _ _ => receive b
  end.
Definition applied (b : ActualStateReadback) : outcome Response :=
  Ret {| rs_status_code := 200; rs_json := Some (JObj (("readback_id", JStr "rb-1") :: bound_to b)) |}.
Definition lost (_ : ActualStateReadback) : outcome Response := Exc (Exn (Foreign "TransportError" ["HTTPError"; "Exception"]) "timeout").
Definition ticks : Ticks := {| t_desired := 10; t_renew := 20; t_observe := 30; t_end := 40;
  t_uuid := "11111111-2222-4333-8444-555555555555" |}.
Definition clock : CycleClock := {| cc_recover := 1; cc_enroll _ := 2; cc_ids i := N.of_nat (S i); cc_claim := 3;
  cc_adapter := 4; cc_ticks := ticks |}.
Definition claimed : SagaDB :=
  snd (claim_saga 3 60 (snd (enroll_pending_sagas cat st lax (cc_ids clock) (cc_enroll clock) 50 synced))).
Definition row : SagaRow := default (new_saga {| sg_saga_id := 0; sg_integration_event_id := 0; sg_event_uuid := "";
  sg_event_type := ""; sg_operation := provision; sg_command_id := ""; sg_organization := ""; sg_business_unit := "";
  sg_campaign := ""; sg_configuration_version := 0; sg_manifest_ref := ""; sg_manifest_hash := ""; sg_correlation_id := "";
  sg_created_at := 0 |} PENDING None) (find_saga 1 claimed).
Definition desired : DesiredState := {| ds_campaign := "camp"; ds_configuration_version := 3;
  ds_desired_state := provisioned_disabled; ds_manifest_ref := "m"; ds_manifest_hash := "h" |}.
Definition observation : AdapterObservation := {| ob_effective_state := provisioned_disabled;
  ob_evidence := [("adapter", JStr "synthetic")]; ob_observed_at := 4 |}.
Definition adapter : CampaignAdapter := fun _ _ => ret observation.
End SagaExample.

Lemma saga_history_witness :
  map sg_status (db_sagas (snd (cycle SagaExample.cat SagaExample.st SagaExample.lax SagaExample.clock
    (answering (SagaExample.odoo SagaExample.applied)) SagaExample.synced))) = [COMPLETED] /\
  saga_ok SagaExample.st (snd (cycle SagaExample.cat SagaExample.st SagaExample.lax SagaExample.clock
    (answering (SagaExample.odoo SagaExample.applied)) SagaExample.synced)).
Proof.
  split; [vm_compute; reflexivity|]. eapply (saga_history SagaExample.cat SagaExample.st SagaExample.lax SagaExample.synced).
  - done.
  - apply (call_steps SagaExample.cat SagaExample.st SagaExample.lax _ _ (empty_saga_ok _)), call_sync. intros q; destruct q; intros d; apply rtc_refl.
  - apply call_cycle; [reflexivity|intros q d; apply rtc_refl].
Defined.

Lemma resend_same_report_witness :
  exists d body, process_saga SagaExample.st SagaExample.lax SagaExample.ticks (answering (SagaExample.odoo SagaExample.lost))
    SagaExample.adapter 1 SagaExample.claimed = (Ret {| sr_outcome := "retry"; sr_error_class := Some "ODOO_TRANSPORT_ERROR" |}, d) /\
  forall f', agree_on body (SagaExample.odoo SagaExample.lost) f' ->
    process_saga SagaExample.st SagaExample.lax SagaExample.ticks (answering f') SagaExample.adapter 1 SagaExample.claimed =
    process_saga SagaExample.st SagaExample.lax SagaExample.ticks (answering (SagaExample.odoo SagaExample.lost))
      SagaExample.adapter 1 SagaExample.claimed.
Proof.
  assert (H : process_saga SagaExample.st SagaExample.lax SagaExample.ticks (answering (SagaExample.odoo SagaExample.lost))
    SagaExample.adapter 1 SagaExample.claimed = (Ret {| sr_outcome := "retry"; sr_error_class := Some "ODOO_TRANSPORT_ERROR" |},
      snd (process_saga SagaExample.st SagaExample.lax SagaExample.ticks (answering (SagaExample.odoo SagaExample.lost))
        SagaExample.adapter 1 SagaExample.claimed))) by (vm_compute; reflexivity).
  edestruct (resend_same_report SagaExample.st SagaExample.lax SagaExample.ticks (SagaExample.odoo SagaExample.lost)
    SagaExample.adapter 1 SagaExample.claimed SagaExample.row SagaExample.desired) as (body & Hb & _); [..|exact H|reflexivity|].
  - assert (map saga_id (db_sagas SagaExample.claimed) = [1%N]) as -> by (vm_compute; reflexivity). apply NoDup_singleton.
  - by intros r x d.
  - vm_compute; reflexivity.
  - vm_compute; reflexivity.
  - eexists _, body. split; [exact H|exact Hb].
Defined.

Lemma reserved_saga_completes_witness : exists d' r',
  process_saga SagaExample.st SagaExample.lax SagaExample.ticks (answering (SagaExample.odoo SagaExample.applied))
    SagaExample.adapter 1 SagaExample.claimed = (Ret {| sr_outcome := "completed"; sr_error_class := None |}, d') /\
  find_saga 1 d' = Some r' /\ sg_status r' = COMPLETED /\ sg_readback_id r' = Some "rb-1".
Proof.
  edestruct (reserved_saga_completes SagaExample.st SagaExample.lax SagaExample.ticks (SagaExample.odoo SagaExample.applied)
    SagaExample.adapter 1 SagaExample.claimed SagaExample.row SagaExample.desired SagaExample.observation "rb-1")
    as (d' & r' & Hp & Hf & Hs & Hr & _).
  - assert (map saga_id (db_sagas SagaExample.claimed) = [1%N]) as -> by (vm_compute; reflexivity). apply NoDup_singleton.
  - vm_compute; reflexivity.
  - vm_compute; reflexivity.
  - vm_compute; discriminate.
  - vm_compute; reflexivity.
  - vm_compute; reflexivity.
  - vm_compute; reflexivity.
  - reflexivity.
  - vm_compute; reflexivity.
  - done.
  - intros body. exists {| rs_status_code := 200; rs_json := Some (JObj (("readback_id", JStr "rb-1") :: bound_to body)) |}.
    split; [done|]. unfold receipt, decode, obind. lazy -[String.eqb Z.eqb effective_name]. rewrite !String.eqb_refl, !Z.eqb_refl. reflexivity.
  - vm_compute. lia.
  - exists d', r'. exact (conj Hp (conj Hf (conj Hs Hr))).
Defined.
