(* ===== verification/TemporalHistory.v ===== *)
(** * Histories of the durable execution

    What every writer of the ledger keeps, read as one relation between the tables
    before and after ([moves_on]): rows keep their identity and payload, a row that
    ended is left alone with its audit, and with its attempts once the newest of them
    holds a result, an attempt that holds a result keeps one, and, where it is said, no
    call appears.  Then the steps workers, routes and operators take on the shared
    tables, in any order ([tw_step]): the activities are sequences of such steps, so a
    run of a workflow is one whatever becomes of its attempts. *)

From stdpp Require Import relations.
From S2P Require Import Prelude Json PyValue Clock Sha256 Uuid Commands LedgerSpec Ledger LedgerFacts.
From S2P Require Import Outbox PgLedger PgLedgerFacts PgHistory Calling Temporal.
Local Open Scope Z_scope.
#[local] Opaque sha256_hex canonical_sha256 uuid_str.

(** ** Actions whose steps stay in a preorder *)

Definition within {S A} (R : S -> S -> Prop) (m : M S A) : Prop := forall s, R s (snd (m s)).

Section Within.
Context {S : Type} (R : S -> S -> Prop) `{!PreOrder R}.
Lemma within_ret {A} (a : A) : within R (ret a).
Proof. by intros s. Qed.
Lemma within_raise {A} c msg : within R (raise (A:=A) c msg).
Proof. by intros s. Qed.
Lemma within_reraise {A} e : within R (reraise (A:=A) e).
Proof. by intros s. Qed.
Lemma within_gets {A} (f : S -> A) : within R (gets f).
Proof. by intros s. Qed.
Lemma within_lift {A} (o : outcome A) : within R (lift_outcome o).
Proof. by intros s. Qed.
Lemma within_bind {A B} (m : M S A) (k : A -> M S B) : within R m -> (forall a, within R (k a)) -> within R (bind m k).
Proof. intros Hm Hk s. unfold bind. specialize (Hm s). destruct (m s) as [[a|e] s']; [|done]. by etrans; [|apply Hk]. Qed.
Lemma within_catch {A} p (m : M S A) h : within R m -> (forall e, within R (h e)) -> within R (catch_ p m h).
Proof.
  intros Hm Hh s. unfold catch_. specialize (Hm s). destruct (m s) as [[a|e] s']; [done|]. destruct (p e); [|done].
  by etrans; [|apply Hh].
Qed.
Lemma within_when b (m : M S unit) : within R m -> within R (when b m).
Proof. destruct b; [done|intros _; apply within_ret]. Qed.
Lemma within_if {A} (b : bool) (m m' : M S A) : within R m -> within R m' -> within R (if b then m else m').
Proof. by destruct b. Qed.
End Within.

Create HintDb within.
#[export] Hint Resolve within_ret within_raise within_reraise within_gets within_lift within_when within_if : within.

Lemma within_transaction (R : CommandDB -> CommandDB -> Prop) `{!PreOrder R} {A} (m : DM A) : within R m -> within R (transaction m).
Proof. intros Hm d. unfold transaction. specialize (Hm d). by destruct (m d) as [[a|e] d']. Qed.
Lemma within_tenant (R : CommandDB -> CommandDB -> Prop) `{!PreOrder R} {A} t (m : DM A) : within R m -> within R (tenant_transaction t m).
Proof.
  intros Hm. unfold tenant_transaction. apply within_transaction; [done|]. apply within_bind; [done| |done].
  intros d. unfold tenant_context. repeat (match goal with |- context [if ?b then _ else _] => destruct b end); reflexivity.
Qed.
Lemma within_row (R : CommandDB -> CommandDB -> Prop) `{!PreOrder R} t c : within R (command_row t c).
Proof. intros d. unfold command_row. by destruct (_ !! _). Qed.
#[export] Hint Resolve within_row : within.

(** ** The relation *)

(** rows are filed under their identity, attempts are numbered as they come *)
Definition keyed (m : gmap Key CommandRow) : Prop := forall k r, m !! k = Some r -> k = (tenant_id (c_identity r), command_id (c_identity r)).
Record ids_ok (d : CommandDB) : Prop := {
  io_attempts : map a_id (db_attempts d) = seq 1 (length (db_attempts d));
  io_keyed : keyed (db_commands d);
}.

Definition ended (r : CommandRow) : bool := state_in (c_state r) [completed; cancelled].
Definition is_call (r : CommandRow) : Prop := command_type (c_identity r) = ORIGINATE.

(** what the newest attempt of a command holds *)
Definition newest_result (k : Key) (d : CommandDB) : option jdict := newest_attempt k (db_attempts d) ≫= a_result_payload.

Definition holds_result (n : nat) (l : list AttemptRow) : Prop := exists a, a ∈ l /\ a_id a = n /\ is_Some (a_result_payload a).

(** [calls]: whether a new row may be a call *)
Record moved_on (calls : bool) (d d' : CommandDB) : Prop := {
  mo_ids : ids_ok d';
  mo_rows : forall k r, db_commands d !! k = Some r -> exists r', db_commands d' !! k = Some r' /\
    c_identity r' = c_identity r /\ c_payload r' = c_payload r /\ c_payload_sha256 r' = c_payload_sha256 r /\
    (ended r = true -> r' = r /\ audit_of k (db_audit d') = audit_of k (db_audit d) /\
       (is_Some (newest_result k d) -> attempts_of k (db_attempts d') = attempts_of k (db_attempts d)));
  mo_new : calls = false -> forall k r', db_commands d' !! k = Some r' -> db_commands d !! k = None -> ~ is_call r';
  mo_results : forall n, holds_result n (db_attempts d) -> holds_result n (db_attempts d');
}.
Definition moves_on (calls : bool) (d d' : CommandDB) : Prop := ids_ok d -> moved_on calls d d'.

#[export] Instance moves_on_preorder calls : PreOrder (moves_on calls).
Proof.
  split.
  - intros d Hi. split; [done| |by intros ? k r' -> |done]. intros k r Hr. by exists r.
  - intros d1 d2 d3 H12 H23 Hi. specialize (H12 Hi). specialize (H23 (mo_ids _ _ _ H12)).
    split; [apply H23| | |].
    + intros k r Hr. destruct (mo_rows _ _ _ H12 k r Hr) as (r2 & Hr2 & Hi2 & Hp2 & Hs2 & He2).
      destruct (mo_rows _ _ _ H23 k r2 Hr2) as (r3 & Hr3 & Hi3 & Hp3 & Hs3 & He3).
      exists r3. split_and!; [done|congruence..|]. intros He. destruct (He2 He) as (-> & Hu2 & Ha2).
      destruct (He3 He) as (-> & Hu3 & Ha3). split_and!; [done|congruence|]. intros Hn. rewrite <- (Ha2 Hn). apply Ha3.
      unfold newest_result, newest_attempt in *. by rewrite (Ha2 Hn).
    + intros Hcalls k r3 Hr3 Hn. destruct (db_commands d2 !! k) as [r2|] eqn:Hr2; [|by eapply (mo_new _ _ _ H23)].
      destruct (mo_rows _ _ _ H23 k r2 Hr2) as (r3' & Hr3' & Hi3 & _). unfold is_call.
      assert (r3' = r3) as -> by congruence. rewrite Hi3. by eapply (mo_new _ _ _ H12).
    + intros n Hn. by apply (mo_results _ _ _ H23), (mo_results _ _ _ H12).
Qed.

(** tables the relation does not read *)
Lemma moves_on_same calls d d' : db_commands d' = db_commands d -> db_attempts d' = db_attempts d -> db_audit d' = db_audit d -> moves_on calls d d'.
Proof.
  intros Hc Ha Hu [H1 H2]. split; rewrite ?Hc, ?Ha, ?Hu; [by split; rewrite ?Ha, ?Hc| |by intros ? k r' -> |done].
  intros k r Hr. by exists r.
Qed.

Lemma keyed_insert m k r : keyed m -> k = (tenant_id (c_identity r), command_id (c_identity r)) -> keyed (<[k := r]> m).
Proof.
  intros Hm Hk k2 r2. destruct (decide (k2 = k)) as [->|Hne]; [rewrite lookup_insert_eq; by intros [= <-]|].
  rewrite lookup_insert_ne by done. apply Hm.
Qed.

(** ** Attempts *)

(** the attempts of one key moved *)
Record attempts_moved (k : Key) (l l' : list AttemptRow) : Prop := {
  am_ids : map a_id l' = seq 1 (length l');
  am_others : forall k', k' <> k -> attempts_of k' l' = attempts_of k' l;
  am_results : forall n, holds_result n l -> holds_result n l';
}.

Lemma newest_in l a : newest l = Some a -> a ∈ l.
Proof.
  revert a. induction l as [|x l IH]; intros a; simpl; [done|]. destruct (newest l) as [b|].
  - destruct (_ <? _)%nat; intros [= <-]; [left|right; by apply IH].
  - intros [= <-]. left.
Qed.
Lemma newest_attempt_in k l a : newest_attempt k l = Some a -> a ∈ l /\ a_key a = k.
Proof. intros H%newest_in. by apply attempts_of_key. Qed.

Lemma ids_unique l a b : map a_id l = seq 1 (length l) -> a ∈ l -> b ∈ l -> a_id a = a_id b -> a = b.
Proof. intros Hi. apply map_inj_NoDup. rewrite Hi. apply NoDup_seq. Qed.

Lemma attempts_same k l : map a_id l = seq 1 (length l) -> attempts_moved k l l.
Proof. by split. Qed.

(** one attempt of the key rewritten, its result kept or set *)
Lemma attempt_rewritten k f l a : map a_id l = seq 1 (length l) -> a ∈ l -> a_key a = k ->
  (forall x, a_key (f x) = a_key x) -> (forall x, a_id (f x) = a_id x) ->
  (is_Some (a_result_payload a) -> is_Some (a_result_payload (f a))) ->
  attempts_moved k l (map (fun x => if (a_id x =? a_id a)%nat then f x else x) l).
Proof.
  intros Hi Ha Hk Hfk Hfi Hfr. split.
  - rewrite length_map, map_map, <- Hi. apply map_ext. intros x. by destruct (_ =? _)%nat.
  - intros k' Hne. rewrite attempts_of_map by (intros x; by destruct (_ =? _)%nat).
    rewrite <- (map_id (attempts_of k' l)) at 2. apply map_ext_in. intros x Hx%list_elem_of_In.
    destruct (Nat.eqb_spec (a_id x) (a_id a)) as [He|]; [|done]. apply attempts_of_key in Hx as [Hx Hxk].
    rewrite (ids_unique l x a Hi Hx Ha He) in Hxk. congruence.
  - intros n (x & Hx & Hn & Hr). exists (if (a_id x =? a_id a)%nat then f x else x). split_and!.
    + apply list_elem_of_fmap. by exists x.
    + by destruct (_ =? _)%nat; rewrite ?Hfi.
    + destruct (Nat.eqb_spec (a_id x) (a_id a)) as [He|]; [|done]. rewrite (ids_unique l x a Hi Hx Ha He) in *. auto.
Qed.

Lemma update_newest_moved k f l : map a_id l = seq 1 (length l) ->
  (forall x, a_key (f x) = a_key x) -> (forall x, a_id (f x) = a_id x) ->
  (forall x, is_Some (a_result_payload x) -> is_Some (a_result_payload (f x))) ->
  attempts_moved k l (update_newest k f l).
Proof.
  intros Hi Hfk Hfi Hfr. unfold update_newest. destruct (newest_attempt k l) as [a|] eqn:Ha; [|by apply attempts_same].
  apply newest_attempt_in in Ha as [Ha Hk]. by apply attempt_rewritten; auto.
Qed.

Lemma moved_attempts_moved k st reason provider evidence now l : map a_id l = seq 1 (length l) ->
  attempts_moved k l (moved_attempts k st reason provider evidence now l).
Proof.
  intros Hi. unfold moved_attempts. case_bool_decide.
  - split.
    + rewrite map_app, Hi, length_app, seq_app. simpl. do 2 f_equal. lia.
    + intros k' Hne. rewrite attempts_of_app. unfold attempts_of at 2. simpl. by rewrite bool_decide_eq_false_2, app_nil_r.
    + intros n (x & Hx & Hn & Hr). exists x. split_and!; [by apply elem_of_app; left|done..].
  - destruct (state_in st _); [|by apply attempts_same]. apply update_newest_moved; [done..|].
    intros x [v Hv]. simpl. rewrite Hv. by destruct evidence; eexists.
Qed.

(** ** One row written *)

Lemma row_moves_on calls d d' k r r' : ids_ok d -> db_commands d !! k = Some r -> ended r = false ->
  db_commands d' = <[k := r']> (db_commands d) ->
  c_identity r' = c_identity r -> c_payload r' = c_payload r -> c_payload_sha256 r' = c_payload_sha256 r ->
  attempts_moved k (db_attempts d) (db_attempts d') ->
  (forall k', k' <> k -> audit_of k' (db_audit d') = audit_of k' (db_audit d)) -> moved_on calls d d'.
Proof.
  intros [_ Hi] Hr He Hc Hid Hp Hs [Ha1 Ha2 Ha3] Hu. split; [| | |done].
  - split; [done|]. rewrite Hc. apply keyed_insert; [done|]. rewrite Hid. by apply Hi.
  - intros k2 r2 Hr2. rewrite Hc. destruct (decide (k2 = k)) as [->|Hne].
    + rewrite lookup_insert_eq. exists r'. assert (r2 = r) as -> by congruence. split_and!; [done..|]. by rewrite He.
    + rewrite lookup_insert_ne by done. exists r2. split_and!; [done..|]. intros _. split_and!; [done|by apply Hu|by intros _; apply Ha2].
  - intros _ k2 r2. rewrite Hc. destruct (decide (k2 = k)) as [->|Hne]; [by rewrite Hr|]. rewrite lookup_insert_ne by done. by intros ->.
Qed.

Lemma step_not_ended st st' : audited_step (Some st) st' = true -> state_in st [completed; cancelled] = false.
Proof. unfold audited_step. by destruct st, st'. Qed.

(** a row written with its audit and attempts, as the methods do *)
Lemma written_moves_on calls d k r r' prev st actor reason meta now l : ids_ok d -> db_commands d !! k = Some r -> ended r = false ->
  c_identity r' = c_identity r -> c_payload r' = c_payload r -> c_payload_sha256 r' = c_payload_sha256 r ->
  attempts_moved k (db_attempts d) l ->
  moved_on calls d (set_db_attempts l (insert_audit k prev st actor reason meta now (set_db_command k r' d))).
Proof.
  intros Hi Hr He Hid Hp Hs Ha. eapply row_moves_on; [done|exact Hr|done|reflexivity|done..|]. intros k' Hne. simpl.
  apply audit_of_other. simpl. congruence.
Qed.

(** ** The writers *)

Section Writers.
Context `{Externals} (calls : bool).

Lemma transition_row_moves now t c st actor reason provider evidence expected :
  within (moves_on calls) (transition_row now t c st actor reason provider evidence expected).
Proof.
  apply within_tenant; [apply _|]. intros d. unfold bind at 1, command_row. destruct (_ !! _) as [r|] eqn:Hr; [|reflexivity].
  unfold bind at 1, gets. destruct (match expected with Some _ => _ | None => _ end); [reflexivity|].
  destruct (state_in st _) eqn:Hst; [|reflexivity]. intros Hi. eapply written_moves_on; [done|exact Hr| |done..|].
  - unfold ended. eapply step_not_ended. unfold audited_step. by rewrite Hst.
  - apply moved_attempts_moved, (io_attempts _ Hi).
Qed.

Lemma pg_transition_moves now t c st actor reason provider evidence expected :
  within (moves_on calls) (pg_transition now t c st actor reason provider evidence expected).
Proof.
  unfold pg_transition. apply within_if; [apply within_raise; apply _|]. apply within_bind; [apply _|apply transition_row_moves|].
  intros row. destruct evidence; [apply within_lift; apply _|]. apply within_tenant; [apply _|].
  apply within_bind; [apply _|apply within_gets; apply _|intros d; apply within_lift; apply _].
Qed.

Lemma verdict_attempt_moved k st reason provider evidence now l : map a_id l = seq 1 (length l) ->
  attempts_moved k l (update_newest k (verdict_attempt st reason provider evidence now) l).
Proof. intros Hi. by apply update_newest_moved. Qed.

Lemma pg_reconcile_moves now t c matched actor reason provider evidence expected :
  within (moves_on calls) (pg_reconcile now t c matched actor reason provider evidence expected).
Proof.
  unfold pg_reconcile. apply within_bind; [apply _| |intros row; apply within_lift; apply _].
  apply within_tenant; [apply _|]. intros d. unfold bind at 1, command_row. destruct (_ !! _) as [r|] eqn:Hr; [|reflexivity].
  destruct (bool_decide_reflect (c_state r = reconciliation_required)) as [Hst|]; [|reflexivity].
  cbn [negb]. destruct (match expected with Some _ => _ | None => _ end); [reflexivity|]. intros Hi.
  eapply written_moves_on; [done|exact Hr| |by destruct matched..|apply verdict_attempt_moved, (io_attempts _ Hi)].
  unfold ended. by rewrite Hst.
Qed.

Lemma pg_mutate_moves now t c a actor key version reason corr :
  within (moves_on calls) (pg_mutate_operation now t c a actor key version reason corr).
Proof.
  apply within_tenant; [apply _|]. intros d. unfold bind at 1, command_row. destruct (_ !! _) as [r|] eqn:Hr; [|reflexivity].
  unfold bind at 1, gets. cbn [id]. destruct (db_mutations d !! _) as [[digest o]|].
  { destruct (negb _); reflexivity. }
  destruct (negb _); [reflexivity|]. unfold bind at 1. destruct (pg_action _ _ _ _ _ _ _ d) as [res d1] eqn:Ha.
  pose proof (pg_action_spec _ _ _ _ _ _ _ _ _ _ Ha) as Hs. destruct res as [r'|e].
  - destruct Hs as ([l ->] & Hi & Hp & Hsh & _ & _ & _ & Hst). unfold bind, modify, lift_outcome.
    intros Hids. assert (moved_on calls d (insert_audit (t, c) (Some (c_state r)) (c_state r') actor reason
          (dict_merge [("action", JStr (action_name a)); ("resource_version", JInt (c_resource_version r'))]
                      (mutation_evidence corr)) now (set_db_outbox l (set_db_command (t, c) r' d)))) as Hm.
    { eapply row_moves_on; [done|exact Hr|by eapply step_not_ended|reflexivity|done..|apply attempts_same, (io_attempts _ Hids)|].
      intros k' Hne. simpl. apply audit_of_other. simpl. congruence. }
    destruct (operation_of_row _ _ _ _) as [o|e]; [|exact Hm]. simpl.
    destruct Hm as [H1 H2 H3 H4]. split; [split; apply H1|done..].
  - (* the action refused: what it wrote is rolled back with the transaction *)
    simpl. clear Hs. revert Ha. unfold pg_action. destruct a.
    + unfold pg_cancel. destruct (state_in _ _); [by intros [= <- <-]|]. unfold bind, gets, modify, when, ret. cbn [id].
      by destruct (bool_decide _).
    + unfold pg_reconcile_request. destruct (negb _); [by intros [= <- <-]|]. unfold bind, gets, modify. cbn [id].
      destruct (update_outbox _ _ _) as [l n]. unfold when. destruct (n =? 0)%nat; [|done].
      match goal with |- context [insert_outbox true ?k ?x1 ?x2 ?x3 ?x4 ?x5 ?x6] =>
        destruct (insert_outbox_quiet k x1 x2 x3 x4 x5 x6) as [l' ->] end. done.
    + unfold pg_retry. destruct (negb _); [by intros [= <- <-]|]. unfold bind, gets, modify. cbn [id].
      match goal with |- context [insert_outbox true ?k ?x1 ?x2 ?x3 ?x4 ?x5 ?x6] =>
        destruct (insert_outbox_quiet k x1 x2 x3 x4 x5 x6) as [l' ->] end. done.
Qed.

Lemma dead_letter_moves now t c code class reason poisoned exhausted :
  within (moves_on calls) (pg_record_dead_letter now t c code class reason poisoned exhausted).
Proof.
  apply within_transaction; [apply _|]. intros d. unfold bind at 1, command_row. destruct (_ !! _) as [r|] eqn:Hr; [|reflexivity].
  unfold bind at 1, gets. cbn [id]. destruct (db_dead_letters d !! _); [reflexivity|]. by apply moves_on_same.
Qed.

Lemma replay_moves d d' : (d' = d \/ exists r, d' = set_db_replay r d) -> moves_on calls d d'.
Proof. intros [->|[r ->]]; [reflexivity|by apply moves_on_same]. Qed.

(** a submission of anything but a call *)
Lemma pg_submit_moves now c client dest ev tr : (calls = false -> env_command_type c <> ORIGINATE) ->
  within (moves_on calls) (pg_submit now c client dest ev tr).
Proof.
  intros Hc d. destruct (tenant_ok (env_tenant_id c)) eqn:Ht.
  2: { unfold pg_submit. destruct (tenant_refused (env_tenant_id c) (submit_on_connection now c client None dest ev tr) d Ht) as [x ->]. reflexivity. }
  rewrite pg_submit_cases by done. destruct (negb _); [reflexivity|].
  destruct (existing_rows c d) as [|r [|]] eqn:He; [|by destruct (negb _)|reflexivity].
  destruct (outbox_conflict _ _ _ _); [reflexivity|]. intros Hi. set (k := (env_tenant_id c, env_command_id c)).
  assert (Hk : db_commands d !! k = None).
  { destruct (db_commands d !! k) as [r|] eqn:Hk; [|done]. assert (r ∈ existing_rows c d) as Hin; [|by rewrite He in Hin; apply elem_of_nil in Hin].
    apply elem_of_existing. exists k. split; [done|]. pose proof (io_keyed _ Hi _ _ Hk) as [= Ht' Hc']. unfold same_identity.
    by rewrite Ht', Hc', String.eqb_refl, N.eqb_refl. }
  split; [| | |done]; simpl.
  - split; [apply Hi|]. by apply keyed_insert; [apply Hi|].
  - intros k2 r2 Hr2. assert (k2 <> k) by congruence. rewrite lookup_insert_ne by done. exists r2. split_and!; [done..|].
    intros _. split_and!; [done| |done]. simpl. apply audit_of_other. by apply not_eq_sym.
  - intros Hcalls k2 r2. destruct (decide (k2 = k)) as [->|Hne]; [|rewrite lookup_insert_ne by done; by intros ->].
    rewrite lookup_insert_eq. intros [= <-] _. by apply Hc.
Qed.

Lemma notifications_moves now t incident actor reason intents :
  within (moves_on calls) (cancel_pending_grouped_notifications now t incident actor reason intents).
Proof.
  intros d. apply (notifications_kept (moves_on calls)); [intros l d0; by apply moves_on_same|]. clear d. intros d c r meta Hr Hst _ Hi.
  eapply row_moves_on; [done|exact Hr| |reflexivity|done..|apply attempts_same, (io_attempts _ Hi)|].
  - unfold ended. by destruct (c_state r).
  - intros k' Hne. simpl. apply audit_of_other. simpl. congruence.
Qed.

(** ** The transactions of the activities *)

(** actions that only read *)
Definition reads {A} (m : DM A) : Prop := forall d, snd (m d) = d.
Lemma reads_within (R : CommandDB -> CommandDB -> Prop) `{!PreOrder R} {A} (m : DM A) : reads m -> within R m.
Proof. intros Hm d. by rewrite Hm. Qed.
Lemma reads_eq {A} (m : DM A) : within eq m <-> reads m.
Proof. split; intros Hm d; symmetry; apply Hm. Qed.

Lemma load_durable_reads q : reads (load_durable_request q).
Proof.
  intros d. unfold load_durable_request. destruct (uuid_parse _); [|done]. unfold bind at 1, gets. cbn [id].
  destruct (row_by_text _ _ d) as [r|]; [|done]. unfold bind, lift_outcome. destruct (validated_command _ _ _) as [[durable digest]|]; [|done].
  destruct (negb _); [done|]. destruct (model_validate _) as [c|]; [|done]. by destruct (negb _).
Qed.
Lemma pg_get_reads t c : reads (pg_get t c).
Proof.
  apply reads_eq. apply (within_tenant eq). apply (within_bind eq); [apply (within_row eq)|intros r].
  apply (within_bind eq); [apply (within_gets eq)|intros d; apply (within_lift eq)].
Qed.
Lemma load_reconciliation_reads r : reads (load_reconciliation r).
Proof.
  intros d. unfold load_reconciliation. destruct (uuid_parse _) as [u|]; [|done]. unfold bind at 1, gets. cbn [id].
  destruct (_ !! _) as [row|]; [|done]. case_bool_decide.
  - pose proof (pg_get_reads (rc_tenant_id r) u d) as Hg. unfold bind, lift_outcome. destruct (pg_get _ _ d) as [[o|e] d']; simpl in Hg; subst; [|done].
    by destruct (validated_command _ _ _).
  - destruct (negb _); [done|]. unfold bind, lift_outcome. by destruct (validated_command _ _ _).
Qed.
Lemma committed_cancellation_reads q : reads (committed_cancellation q).
Proof.
  intros d. unfold committed_cancellation, bind, gets. cbn [id]. destruct (key_of_text _ _) as [k|]; [|done].
  destruct (_ !! _); [|done]. by destruct (newest_attempt _ _).
Qed.
Lemma recover_reads q : reads (recover_activity q).
Proof.
  apply reads_eq. apply (within_bind eq); [apply reads_eq, load_durable_reads|intros durable].
  apply within_if; [apply (within_reraise eq)|]. apply (within_bind eq); [apply reads_eq, committed_cancellation_reads|intros x].
  apply (within_ret eq).
Qed.

(** one attempt rewritten while its row stays *)
Lemma attempts_only k d l : ids_ok d -> attempts_moved k (db_attempts d) l -> newest_result k d = None -> moved_on calls d (set_db_attempts l d).
Proof.
  intros Hi [H1 H2 H3] Hn. split; [|intros k2 r Hr|intros _ k2 r' Hk2 Hn2; simpl in Hk2; congruence|done].
  - split; [done|apply Hi].
  - exists r. split_and!; [done..|]. intros _. split_and!; [done..|]. intros Hs. simpl. apply H2. intros ->.
    rewrite Hn in Hs. by destruct Hs.
Qed.

Lemma claim_moves q : within (moves_on calls) (claim_call_dispatch q).
Proof.
  intros d Hi. unfold claim_call_dispatch, bind at 1, gets. cbn [id]. destruct (key_of_text _ _) as [k|]; [|by apply moves_on_same].
  destruct (newest_attempt k (db_attempts d)) as [a|] eqn:Ha; [|by apply moves_on_same].
  destruct (bool_decide _ && negb (bool_decide (is_Some (a_result_payload a)))) eqn:Hc; [|by apply moves_on_same].
  apply andb_true_iff in Hc as [_ Hc]. apply negb_true_iff, bool_decide_eq_false, eq_None_not_Some in Hc.
  unfold bind, modify, ret. cbv beta iota. cbn [snd]. apply (attempts_only k); [done| |].
  - apply newest_attempt_in in Ha as [Ha Hk]. apply attempt_rewritten; [apply Hi|done..]. 
  - unfold newest_result. by rewrite Ha.
Qed.

Lemma reject_moves now q : within (moves_on calls) (reject_unsent now q).
Proof.
  apply within_transaction; [apply _|]. intros d. unfold bind at 1, gets. cbn [id]. destruct (key_of_text _ _) as [k|]; [|reflexivity].
  destruct (db_commands d !! k) as [r|] eqn:Hr; [|reflexivity]. destruct (newest_attempt k (db_attempts d)) as [a|] eqn:Ha; [|reflexivity].
  destruct (proven_unsent _ a); [reflexivity|]. destruct (negb (bool_decide (c_state r = dispatching)) || _) eqn:Hc; [reflexivity|].
  apply orb_false_iff in Hc as [Hc _]. apply negb_false_iff, bool_decide_eq_true in Hc. intros Hi.
  unfold bind, modify, ret. cbv beta iota. cbn [snd]. apply newest_attempt_in in Ha as [Ha Hk].
  eapply row_moves_on; [done|exact Hr|by unfold ended; rewrite Hc|reflexivity|done..| |].
  - simpl. apply attempt_rewritten; [apply Hi|done..].
  - intros k' Hne. simpl. apply audit_of_other. simpl. congruence.
Qed.

Lemma persist_moves now r x digest : within (moves_on calls) (persist_result now r x digest).
Proof.
  apply within_if; [apply within_reraise; apply _|]. apply within_transaction; [apply _|]. intros d. unfold bind at 1, gets. cbn [id].
  destruct (key_of_text _ _) as [k|]; [|reflexivity]. destruct (db_commands d !! k) as [row|] eqn:Hr; [|reflexivity].
  destruct (bool_decide (c_state row = completed) && _); [by unfold lift_outcome|].
  destruct (negb (bool_decide (c_state row = reconciliation_required))) eqn:Hc; [reflexivity|].
  apply negb_false_iff, bool_decide_eq_true in Hc. unfold bind at 1, lift_outcome. destruct (validated_command _ _ _) as [[q dg]|]; [|reflexivity].
  destruct (negb _); [reflexivity|]. destruct (String.eqb (rq_target q) TARGET && _); [reflexivity|]. intros Hi.
  unfold bind, modify, ret. cbv beta iota. cbn [snd]. eapply written_moves_on; [done|exact Hr|by unfold ended; rewrite Hc| | | |].
  1-3: by destruct (String.eqb (ar_status x) "matched").
  apply verdict_attempt_moved, (io_attempts _ Hi).
Qed.

End Writers.

(** ** What is made of transitions, verdicts and rejections

    The activities that compose the transactions above keep what those keep. *)

Section Composed.
Context `{Externals} (aware : json -> option AwareDatetime) (R : CommandDB -> CommandDB -> Prop) `{!PreOrder R}.
Hypothesis transitions : forall now t c st actor reason provider evidence expected,
  within R (pg_transition now t c st actor reason provider evidence expected).
Hypothesis verdicts : forall now r x digest, within R (persist_result now r x digest).
Hypothesis rejections : forall now q, within R (reject_unsent now q).

Lemma record_rejection_within now q : within R (record_rejection now q).
Proof.
  apply within_bind; [apply _|apply reads_within, load_durable_reads; apply _|intros durable].
  apply within_if; [apply within_reraise; apply _|apply rejections].
Qed.

Lemma record_transition_within now r : within R (record_transition aware now r).
Proof.
  apply within_bind; [apply _| |intros _].
  - destruct (tr_readback_evidence r); [|apply within_ret; apply _]. apply within_if; [|apply within_ret; apply _].
    destruct (evidence_validate _ _); [|apply within_reraise; apply _]. apply within_if; [apply within_reraise|apply within_ret]; apply _.
  - apply within_bind; [apply _| |intros o; apply within_ret; apply _]. apply within_catch; [apply _| |intros e; apply within_reraise; apply _].
    destruct (uuid_parse _); [apply transitions|apply within_raise; apply _].
Qed.

Lemma park_within now t original : within R (park_origin now t original).
Proof.
  apply within_bind; [apply _|apply within_gets; apply _|intros d]. destruct (row_by_text _ _ _); [|apply within_ret; apply _].
  apply within_if; [|apply within_ret; apply _]. apply within_catch; [apply _| |intros e; apply within_ret; apply _].
  destruct (uuid_parse _); [|apply within_ret; apply _]. apply within_bind; [apply _|apply transitions|intros _; apply within_ret; apply _].
Qed.

Lemma complete_origin_within now r : within R (complete_origin aware now r).
Proof.
  unfold complete_origin. destruct (uuid_parse _); [|apply within_reraise; apply _]. apply within_bind; [apply _|apply within_gets; apply _|intros d].
  destruct (row_by_text _ _ _); [|apply within_reraise; apply _]. apply within_bind; [apply _|apply within_lift; apply _|intros x].
  apply within_if; [apply within_reraise; apply _|]. apply within_bind; [apply _|apply park_within|intros _].
  apply within_bind; [apply _|apply reads_within, load_reconciliation_reads; apply _|intros [[command done] digest]].
  destruct done; [apply within_ret; apply _|]. apply within_bind; [apply _|apply within_lift; apply _|intros evidence; apply verdicts].
Qed.
End Composed.

(** ** Steps *)

Section Steps.
Context `{Externals} (aware : json -> option AwareDatetime).

(** one transaction on the ledger that inserts no call: a method of the store or a
    transaction of an activity *)
Inductive db_step (d : CommandDB) : CommandDB -> Prop :=
  | ds_submit now c client dest ev tr : env_command_type c <> ORIGINATE -> db_step d (snd (pg_submit now c client dest ev tr d))
  | ds_transition now t c st actor reason p e n : db_step d (snd (pg_transition now t c st actor reason p e n d))
  | ds_reconcile now t c matched actor reason p e n : db_step d (snd (pg_reconcile now t c matched actor reason p e n d))
  | ds_mutate now t c action actor key version reason corr :
      db_step d (snd (pg_mutate_operation now t c action actor key version reason corr d))
  | ds_dead_letter now t c code class reason poisoned exhausted :
      db_step d (snd (pg_record_dead_letter now t c code class reason poisoned exhausted d))
  | ds_create_replay now t c rid actor key reason at_ : db_step d (snd (pg_create_replay now t c rid actor key reason at_ d))
  | ds_complete_replay t rid c : db_step d (snd (pg_complete_replay t rid c d))
  | ds_cancel_replay now t rid : db_step d (snd (pg_cancel_replay now t rid d))
  | ds_notifications now t incident actor reason intents :
      db_step d (snd (cancel_pending_grouped_notifications now t incident actor reason intents d))
  | ds_outbox l : db_step d (set_db_outbox l d)
  | ds_record_transition now r : db_step d (snd (record_transition aware now r d))
  | ds_record_rejection now q : db_step d (snd (record_rejection now q d))
  | ds_persist_result now r x digest : db_step d (snd (persist_result now r x digest d))
  | ds_complete_origin now r : db_step d (snd (complete_origin aware now r d)).

Lemma db_step_moves d d' : db_step d d' -> moves_on false d d'.
Proof.
  destruct 1.
  - by apply pg_submit_moves.
  - apply pg_transition_moves.
  - apply pg_reconcile_moves.
  - apply pg_mutate_moves.
  - apply dead_letter_moves.
  - apply replay_moves, pg_create_replay_frame.
  - apply replay_moves, update_replay_frame.
  - apply replay_moves, update_replay_frame.
  - apply notifications_moves.
  - by apply moves_on_same.
  - apply record_transition_within; [apply _|apply pg_transition_moves].
  - apply record_rejection_within; [apply _|apply reject_moves].
  - apply persist_moves.
  - apply complete_origin_within; [apply _|apply pg_transition_moves|apply persist_moves].
Qed.

(** what workers, routes and operators do to the world *)
Inductive tw_step (w : TW) : TW -> Prop :=
  | ts_ledger d : db_step (tw_db w) d -> tw_step w (set_tw_db d w)
  | ts_originate pols clock now p b correlation g :
      tw_step w (snd (on_db (call_originate pols clock now p b correlation g) w))
  | ts_claim q n d : claim_call_dispatch q (tw_db w) = (Ret (Some n), d) -> tw_step w (claim_ticket n (set_tw_db d w))
  | ts_send n : n ∈ tw_tickets w -> tw_step w (spend_ticket n w)
  | ts_time t : tw_step w (mkTW (tw_db w) t (tw_tickets w) (tw_sent w)).
Definition tw_history : TW -> TW -> Prop := rtc tw_step.
#[global] Instance tw_history_preorder : PreOrder tw_history.
Proof. apply _. Qed.

Lemma on_db_run {A} (m : DM A) w : on_db m w = (fst (m (tw_db w)), set_tw_db (snd (m (tw_db w))) w).
Proof. unfold on_db, zoom. by destruct (m (tw_db w)). Qed.

(** nothing written *)
Lemma on_db_still {A} (m : DM A) x w : m (tw_db w) = (x, tw_db w) -> on_db m w = (x, w).
Proof. intros Hm. rewrite on_db_run, Hm. by destruct w. Qed.

Lemma on_db_within {A} (m : DM A) : within db_step m -> within tw_history (on_db m).
Proof. intros Hm w. rewrite on_db_run. apply rtc_once, ts_ledger, Hm. Qed.
Lemma on_db_reads {A} (m : DM A) : reads m -> within tw_history (on_db m).
Proof. intros Hm w. rewrite on_db_run, Hm. by destruct w. Qed.
End Steps.

(** ** The activities and the workflows are histories *)

Section Activities.
Context `{Externals} (aware : json -> option AwareDatetime) (adapters : Adapters) (faults : list Fault).
Abbreviation history := (tw_history aware).

(** a provider's adapter takes its time: whatever happens meanwhile is a history *)
Hypothesis adapters_step : forall a q, adapter_of adapters q = Ret a ->
  within history (pa_execute a q) /\ within history (pa_readback a q).

Lemma claim_cases q d :
  (exists n d', claim_call_dispatch q d = (Ret (Some n), d')) \/ claim_call_dispatch q d = (Ret None, d).
Proof.
  unfold claim_call_dispatch, bind, modify, gets. cbn [id]. destruct (key_of_text _ _) as [k|]; [|by right].
  destruct (newest_attempt k _) as [a|]; [|by right]. destruct (_ && _); [|by right]. left. by eexists _, _.
Qed.

Lemma persist_rejection_history n fs q : within history (persist_rejection n fs q).
Proof.
  assert (Hrec : within history (let! now := gets tw_now in on_db (record_rejection now q))).
  { apply (within_bind history); [apply (within_gets history)|]. intros now. apply on_db_within. intros d. constructor. }
  revert fs. induction n as [|n IH]; intros fs; simpl; [apply (within_raise history)|]. apply (within_catch history).
  - destruct fs as [|f fs]; [exact Hrec|]. apply (within_bind history); [|intros []; apply (within_reraise history)].
    destruct (ft_committed f); [|apply (within_ret history)].
    apply (within_bind history); [exact Hrec|intros _; apply (within_ret history)].
  - intros e. destruct n; [apply (within_reraise history)|apply IH].
Qed.

Lemma guarded_history a q : adapter_of adapters q = Ret a -> forall q', within history (pa_execute a q') -> within history (guarded_execute faults a q').
Proof.
  intros _ q' Hq. apply (within_catch history); [done|]. intros e. apply within_if; [apply persist_rejection_history|].
  apply within_if; [apply (within_reraise history)|]. apply within_if; apply (within_reraise history).
Qed.

Lemma execute_history q : within history (execute_command_activity adapters faults q).
Proof.
  apply within_if.
  - apply (within_bind history); [apply on_db_reads, load_durable_reads|]. clear q. intros q.
    destruct (adapter_of adapters q) as [a|e] eqn:Ha; [|by intros w]. destruct (adapters_step a q Ha) as [Hx Hr].
    intros w. unfold bind at 1, lift_outcome. unfold bind at 1. rewrite on_db_run.
    destruct (claim_cases q (tw_db w)) as [(n & d' & Hc)|Hc]; rewrite Hc; cbv beta iota; cbn [fst snd].
    + unfold bind at 1 2, modify. etrans; [|exact (guarded_history a q Ha q Hx _)].
      etrans; [apply rtc_once, (ts_claim aware w q n d' Hc)|]. apply rtc_once, ts_send. simpl. apply elem_of_app. right. by left.
    + replace (set_tw_db (tw_db w) w) with w by (by destruct w). revert w Hc. intros w _.
      apply (within_bind history (on_db (committed_cancellation q)) (fun x => match x with Some r => ret r | None => pa_readback a q end));
        [apply on_db_reads, committed_cancellation_reads|].
      intros [x|]; [apply (within_ret history)|done].
  - destruct (adapter_of adapters q) as [a|e] eqn:Ha; [|by intros w]. intros w. unfold bind, lift_outcome.
    apply (guarded_history a q Ha q). by apply adapters_step.
Qed.

Lemma readback_history q : within history (readback_command_activity adapters q).
Proof.
  destruct (adapter_of adapters q) as [a|e] eqn:Ha; unfold readback_command_activity; rewrite Ha; [|by intros w].
  intros w. unfold bind, lift_outcome. apply (within_catch history); [by apply adapters_step|intros e; apply (within_reraise history)].
Qed.

Lemma reconcile_history r : within history (reconcile_activity aware adapters r).
Proof.
  apply (within_bind history); [apply on_db_reads, load_reconciliation_reads|]. intros [[q done] digest].
  assert (Ho : forall evidence, within history (let! now := gets tw_now in
      on_db (complete_origin aware now {| oc_hangup_command_id := rq_command_id q; oc_tenant_id := rq_tenant_id q;
                                          oc_readback_evidence := evidence |}) ;;; ret tt)).
  { intros evidence. apply (within_bind history); [apply (within_gets history)|]. intros now. apply (within_bind history); [|intros _; apply (within_ret history)].
    apply on_db_within. intros d. constructor. }
  destruct done as [done|].
  - apply (within_bind history); [|intros _; apply (within_ret history)].
    destruct (nonempty_dict _); [|apply (within_ret history)]. by apply (within_when history).
  - apply (within_bind history); [apply readback_history|]. intros answered. apply (within_bind history).
    { apply within_if; [|apply (within_ret history)]. cbv zeta. destruct (command_evidence aware _ _ _ _); [apply (within_ret history)|].
      apply within_if; apply (within_reraise history). }
    intros checked. apply (within_bind history); [apply (within_gets history)|]. intros now.
    apply (within_bind history); [apply on_db_within; intros d; constructor|]. intros stored.
    apply (within_bind history); [by apply (within_when history)|intros _; apply (within_ret history)].
Qed.

Lemma perform_history c : within history (perform aware adapters faults c).
Proof.
  destruct c; simpl; try apply (within_reraise history).
  - apply (within_bind history); [apply (within_gets history)|]. intros now. apply on_db_within. intros d. constructor.
  - apply execute_history.
  - apply readback_history.
  - apply on_db_reads, recover_reads.
  - apply reconcile_history.
  - apply (within_bind history); [apply (within_gets history)|]. intros now. apply on_db_within. intros d. constructor.
Qed.

Lemma attempts_history n fates c : within history (attempt_activity (perform aware adapters faults) n fates c).
Proof.
  revert fates. induction n as [|n IH]; intros fates w; simpl; [reflexivity|]. pose proof (perform_history c w) as Hp.
  destruct (hd delivered fates).
  - destruct (perform _ _ _ c w) as [[x|e] w']; simpl in Hp; [done|]. destruct (non_retryable e); [done|]. etrans; [exact Hp|apply IH].
  - etrans; [exact Hp|apply IH].
  - apply IH.
Qed.

(** a workflow run to its end, whatever becomes of its attempts *)
Lemma run_history {A} (m : Wf A) fates approval : within history (run_workflow (perform aware adapters faults) m fates approval).
Proof.
  revert fates. induction m as [o|c k IH|delay m IH|k IH]; intros fates w; simpl; [reflexivity| |apply IH|apply IH].
  pose proof (attempts_history (maximum_attempts c) (hd [] fates) c w) as Ha.
  destruct (attempt_activity _ _ _ c w) as [r w']. etrans; [exact Ha|apply IH].
Qed.
End Activities.

(** ** Reserving a call *)

Section Reserve.
Context `{Externals} (aware : json -> option AwareDatetime).

(** a check before the rest *)
Lemma checked_first {A} (b : CommandDB -> bool) (check : CommandDB -> outcome unit) (m : DM A) d :
  (let! d := gets id in when (b d) (lift_outcome (check d)) ;;; m) d =
  if b d then match check d with Ret _ => m d | Exc e => (Exc e, d) end else m d.
Proof. unfold bind, gets, when, lift_outcome. cbn [id]. destruct (b d); [|done]. by destruct (check d) as [[]|e]. Qed.

(** [originate]: refused with the tables as they were, or the submission of the
    command, which had no row yet only if the checks passed *)
Lemma originate_cases pols clock now p b correlation g d :
  snd (call_originate pols clock now p b correlation g d) = d \/
  let c := originate_command p b correlation g in
  snd (call_originate pols clock now p b correlation g d) = snd (pg_submit now c CLIENT_ID TEMPORAL_COMMAND_DESTINATION None None d) /\
  (existing_rows c d = [] -> call_checks clock p b g d = Ret tt).
Proof.
  set (c := originate_command p b correlation g).
  assert (Hrun : snd (call_originate pols clock now p b correlation g d) = d \/
    call_originate pols clock now p b correlation g d = pg_reserve clock now p b correlation g c d).
  { unfold call_originate, envelope, bind, lift_outcome. fold c. destruct (envelope_valid c); [|by left].
    destruct (validate_call pols c) as [[]|e]; [by right|by left]. }
  destruct Hrun as [->| ->]; [by left|]. unfold pg_reserve. destruct (tenant_ok (cp_tenant_id p)) eqn:Ht.
  2: { left. match goal with |- snd (tenant_transaction ?t ?m d) = d => by destruct (tenant_refused t m d Ht) as [x ->] end. }
  unfold pg_submit. rewrite !tenant_run by done. unfold transaction.
  rewrite (checked_first (fun d => bool_decide (existing_rows c d = [])) (fun d => call_checks clock p b g d)).
  case_bool_decide as He; [|by right].
  assert (Hc : (exists e, call_checks clock p b g d = Exc e) \/ call_checks clock p b g d = Ret tt)
    by (destruct (call_checks _ _ _ _ _) as [[]|e]; eauto).
  destruct Hc as [[e ->]| ->]; [by left|by right].
Qed.

Lemma originate_moves pols clock now p b correlation g : within (moves_on true) (call_originate pols clock now p b correlation g).
Proof.
  intros d. destruct (originate_cases pols clock now p b correlation g d) as [->|[-> _]]; [reflexivity|]. by apply pg_submit_moves.
Qed.

Lemma moved_on_calls d d' : moves_on false d d' -> moves_on true d d'.
Proof. intros Hm Hi. destruct (Hm Hi) as [H1 H2 _ H4]. by split. Qed.

Lemma tw_step_moves w w' : tw_step aware w w' -> moves_on true (tw_db w) (tw_db w').
Proof.
  destruct 1 as [d Hd|pols clock now p b correlation g|q n d Hc|n Hn|t]; [| | |apply reflexivity|apply reflexivity].
  - apply moved_on_calls. exact (db_step_moves aware _ _ Hd).
  - rewrite on_db_run. apply originate_moves.
  - pose proof (claim_moves true q (tw_db w)) as Hm. by rewrite Hc in Hm.
Qed.
Lemma history_moves w w' : tw_history aware w w' -> moves_on true (tw_db w) (tw_db w').
Proof. induction 1 as [w|w1 w2 w3 Hs _ IH]; [reflexivity|]. etrans; [by apply tw_step_moves|done]. Qed.
End Reserve.

(** ** A claim is sent once *)

Section Sent.
Context `{Externals} (aware : json -> option AwareDatetime).

(** every claim, held or spent, is one of its own and its attempt holds a result *)
Record claims_ok (w : TW) : Prop := {
  cl_ids : ids_ok (tw_db w);
  cl_once : NoDup (tw_tickets w ++ tw_sent w);
  cl_held : forall n, n ∈ tw_tickets w ++ tw_sent w -> holds_result n (db_attempts (tw_db w));
}.

Lemma claim_holds q n d d' : ids_ok d -> claim_call_dispatch q d = (Ret (Some n), d') ->
  ~ holds_result n (db_attempts d) /\ holds_result n (db_attempts d').
Proof.
  intros Hi. unfold claim_call_dispatch, bind, modify, gets. cbn [id]. destruct (key_of_text _ _) as [k|]; [|done].
  destruct (newest_attempt k _) as [a|] eqn:Ha; [|done].
  destruct (bool_decide _ && negb (bool_decide (is_Some (a_result_payload a)))) eqn:Hc; [|done]. intros [= <- <-].
  apply andb_true_iff in Hc as [_ Hc]. apply negb_true_iff, bool_decide_eq_false in Hc.
  apply newest_attempt_in in Ha as [Ha _]. split.
  - intros (x & Hx & Hn & Hr). by rewrite (ids_unique _ x a (io_attempts _ Hi) Hx Ha Hn) in Hr.
  - exists (with_result DISPATCH_CLAIM a). split_and!; [|done|by eexists]. simpl. apply list_elem_of_fmap. exists a.
    split; [by rewrite Nat.eqb_refl|done].
Qed.

Lemma claim_refused q k d : key_of_text (rq_tenant_id q) (rq_command_id q) = Some k -> is_Some (newest_result k d) ->
  claim_call_dispatch q d = (Ret None, d).
Proof.
  intros Hk. unfold newest_result, claim_call_dispatch, bind, gets. cbn [id]. rewrite Hk.
  destruct (newest_attempt k (db_attempts d)) as [a|]; [|done]. simpl. intros Hs. by rewrite (bool_decide_eq_true_2 _ Hs), andb_false_r.
Qed.

Lemma filter_others_permutation n (l : list nat) : NoDup l -> n ∈ l -> l ≡ₚ n :: List.filter (fun b => negb (b =? n)%nat) l.
Proof.
  induction 1 as [|x l Hx Hnd IH]; intros Hin; [by apply elem_of_nil in Hin|]. simpl. destruct (Nat.eqb_spec x n) as [->|Hne]; simpl.
  - f_equiv. rewrite (List.forallb_filter_id _ l); [done|]. apply forallb_forall. intros y Hy%list_elem_of_In.
    apply negb_true_iff, Nat.eqb_neq. by intros ->.
  - apply elem_of_cons in Hin as [->|Hin]; [done|]. rewrite (IH Hin) at 1. apply Permutation_swap.
Qed.

Lemma tw_step_claims w w' : tw_step aware w w' -> claims_ok w -> claims_ok w'.
Proof.
  intros Hs [H1 H2 H3]. pose proof (tw_step_moves aware w w' Hs H1) as Hm.
  assert (Hheld : forall n, n ∈ tw_tickets w ++ tw_sent w -> holds_result n (db_attempts (tw_db w'))).
  { intros n Hn. by apply (mo_results _ _ _ Hm), H3. }
  destruct Hs as [d Hd|pols clock now p b correlation g|q n d Hc|n Hn|t].
  - split; [apply Hm|done..].
  - rewrite on_db_run in *. split; [apply Hm|done..].
  - destruct (claim_holds q n _ _ H1 Hc) as [Hno Hyes]. split; [apply Hm| |]; simpl.
    + rewrite <- (assoc_L (++)). apply (NoDup_Permutation_proper _ (n :: tw_tickets w ++ tw_sent w)); [by rewrite Permutation_middle|].
      apply NoDup_cons. split; [|done]. intros Hn. by apply Hno, H3.
    + intros m Hin. assert (m = n \/ m ∈ tw_tickets w ++ tw_sent w) as [->|Hm'] by set_solver; [done|by apply Hheld].
  - assert (Hp : tw_tickets (spend_ticket n w) ++ tw_sent (spend_ticket n w) ≡ₚ tw_tickets w ++ tw_sent w).
    { simpl. apply NoDup_app in H2 as (H2 & _ & _). rewrite (filter_others_permutation n (tw_tickets w) H2 Hn) at 2.
      rewrite (assoc_L (++)), (Permutation_app_comm _ [n]). done. }
    split; [done|by rewrite Hp|]. intros m. rewrite Hp. apply Hheld.
  - by split.
Qed.
Lemma history_claims w w' : tw_history aware w w' -> claims_ok w -> claims_ok w'.
Proof. induction 1 as [w|w1 w2 w3 Hs _ IH]; [done|]. intros Hc. by apply IH, (tw_step_claims w1). Qed.
End Sent.

(** ** What ended stays *)

Section Settled.
Context `{Externals} (aware : json -> option AwareDatetime).

(** an ended row whose newest attempt holds a result, with what is recorded of it *)
Record settled (k : Key) (r : CommandRow) (la : list AttemptRow) (lu : list AuditRow) (d : CommandDB) : Prop := {
  st_ids : ids_ok d;
  st_row : db_commands d !! k = Some r;
  st_ended : ended r = true;
  st_result : is_Some (newest_result k d);
  st_attempts : attempts_of k (db_attempts d) = la;
  st_audit : audit_of k (db_audit d) = lu;
}.

Lemma moves_settled k r la lu d d' : moves_on true d d' -> settled k r la lu d -> settled k r la lu d'.
Proof.
  intros Hm [H1 H2 H3 H4 H5 H6]. destruct (Hm H1) as [M1 M2 _ _]. destruct (M2 k r H2) as (r' & Hr' & _ & _ & _ & He).
  destruct (He H3) as (-> & Hu & Ha). specialize (Ha H4). split; [done..| | |].
  - unfold newest_result, newest_attempt in *. by rewrite Ha.
  - by rewrite Ha.
  - by rewrite Hu.
Qed.
Lemma history_settled k r la lu w w' : tw_history aware w w' -> settled k r la lu (tw_db w) -> settled k r la lu (tw_db w').
Proof. intros Hh. apply moves_settled. by eapply history_moves. Qed.

Lemma newest_map f l : (forall a, a_number (f a) = a_number a) -> newest (map f l) = f <$> newest l.
Proof.
  intros Hf. induction l as [|a l IH]; simpl; [done|]. rewrite IH. destruct (newest l) as [b|]; simpl; [|done]. rewrite !Hf.
  by destruct (_ <? _)%nat.
Qed.
(** the newest attempt rewritten where it stands *)
Lemma newest_rewritten k f l a : newest_attempt k l = Some a -> (forall x, a_number (f x) = a_number x) -> (forall x, a_key (f x) = a_key x) ->
  newest_attempt k (map (fun x => if (a_id x =? a_id a)%nat then f x else x) l) = Some (f a).
Proof.
  intros Ha Hn Hk. unfold newest_attempt in *. rewrite attempts_of_map by (intros x; by destruct (_ =? _)%nat).
  rewrite newest_map by (intros x; by destruct (_ =? _)%nat). rewrite Ha. simpl. by rewrite Nat.eqb_refl.
Qed.

(** ** The rejection *)

(** a loaded command is the request, up to the order of its payload *)
Lemma load_durable_cases q d o d' : load_durable_request q d = (Ret o, d') ->
  d' = d /\ request_eqb o q = true /\ exists k r, key_of_text (rq_tenant_id q) (rq_command_id q) = Some k /\ db_commands d !! k = Some r /\
    forall d2 r2, db_commands d2 !! k = Some r2 -> c_payload r2 = c_payload r -> c_payload_sha256 r2 = c_payload_sha256 r ->
      load_durable_request q d2 = (Ret o, d2).
Proof.
  intros Hl. pose proof (load_durable_reads q d) as Hd. rewrite Hl in Hd. simpl in Hd. subst d'. split; [done|].
  revert Hl. unfold load_durable_request, bind, gets. cbn [id].
  destruct (uuid_parse (rq_command_id q)) as [u|]; [|done]. unfold row_by_text.
  destruct (key_of_text (rq_tenant_id q) (rq_command_id q)) as [k|]; simpl; [|done].
  destruct (db_commands d !! k) as [r|] eqn:Hr; [|done]. unfold lift_outcome.
  destruct (validated_command r (rq_tenant_id q) u) as [[durable digest]|] eqn:Hv; [|done].
  destruct (request_eqb durable q) eqn:He; [|done]. cbn [negb].
  destruct (model_validate (request_dict q)) as [c|] eqn:Hm; [|done]. destruct (negb _) eqn:Hn; [done|]. intros [= <-].
  split; [done|]. exists k, r. split_and!; [done..|]. intros d2 r2 -> Hp Hs.
  assert (validated_command r2 (rq_tenant_id q) u = Ret (durable, digest)) as -> by (rewrite <- Hv; unfold validated_command; by rewrite Hp, Hs).
  cbv beta iota. rewrite He. cbn [negb]. by rewrite Hn.
Qed.

Lemma request_eqb_key o q : request_eqb o q = true ->
  rq_tenant_id o = rq_tenant_id q /\ rq_command_id o = rq_command_id q /\ rq_target o = rq_target q /\ rq_command_type o = rq_command_type q.
Proof. intros [Ha _]%andb_true_iff. apply bool_decide_eq_true in Ha. by simplify_eq. Qed.

Lemma reject_unsent_settles now q d x d' : ids_ok d -> reject_unsent now q d = (Ret x, d') ->
  x = cancelled_unsent /\ exists k r a, key_of_text (rq_tenant_id q) (rq_command_id q) = Some k /\
    settled k r (attempts_of k (db_attempts d')) (audit_of k (db_audit d')) d' /\ newest_attempt k (db_attempts d') = Some a /\
    proven_unsent (c_state r) a = true /\
    exists r0, db_commands d !! k = Some r0 /\ c_payload r = c_payload r0 /\ c_payload_sha256 r = c_payload_sha256 r0.
Proof.
  intros Hi. pose proof (reject_moves true now q d Hi) as Hm. intros Hj. rewrite Hj in Hm. simpl in Hm. revert Hj.
  unfold reject_unsent, transaction, bind, modify, gets. cbn [id]. destruct (key_of_text _ _) as [k|]; [|done].
  destruct (db_commands d !! k) as [r|] eqn:Hr; [|done]. destruct (newest_attempt k (db_attempts d)) as [a|] eqn:Ha; [|done].
  destruct (proven_unsent (c_state r) a) eqn:Hp.
  - intros [= <- <-]. split; [done|]. exists k, r, a. split_and!; [done| |done|done|by exists r].
    unfold proven_unsent in Hp. rewrite !andb_true_iff, !bool_decide_eq_true in Hp. destruct Hp as (((Hs & _) & _) & Hc).
    split; try done; [by unfold ended; rewrite Hs|]. unfold newest_result. rewrite Ha. simpl.
    destruct (a_result_payload a); [by eexists|done].
  - destruct (negb _ || negb _) eqn:Hc; [done|]. apply orb_false_iff in Hc as [_ Hc]. apply negb_false_iff in Hc. intros [= <- <-].
    split; [done|]. exists k, (unsent_row r now), (unsent_attempt now a).
    assert (Hnew : newest_attempt k (map (fun b => if (a_id b =? a_id a)%nat then unsent_attempt now b else b) (db_attempts d)) =
                   Some (unsent_attempt now a)) by (by apply newest_rewritten).
    split_and!; [done| |exact Hnew|done|by exists r]. split; [apply Hm|simpl; by rewrite lookup_insert_eq|done| |done|done].
    unfold newest_result. cbn [insert_audit set_db_attempts db_attempts]. rewrite Hnew. simpl. destruct (a_result_payload a); [by eexists|done].
Qed.
End Settled.
