(* ===== verification/LedgerInvariant.v ===== *)
(** * The invariant of the ledger's tables

    What every modelled writer of the tables keeps, the store's methods, the
    transactions of the activities, the reservation of calls and the cancellation of
    notifications alike: rows are filed under their identity with the digest of
    their payload, the audit is a path to the state, attempts are numbered without a
    gap, and the evidence is the audited one unless a dispatch claim stands in its
    place.  Two writes are outside the transition table or the evidence rule of the
    store: a call refused before it was sent goes from [dispatching] to [cancelled],
    and a claimed attempt holds the claim. *)

From Stdlib Require Import QArith.
From stdpp Require Import relations.
From S2P Require Import Prelude Json PyValue Clock Sha256 Uuid Commands LedgerSpec Ledger LedgerFacts.
From S2P Require Import Outbox PgLedger PgLedgerFacts PgHistory Calling Temporal TemporalHistory.
Local Open Scope nat_scope.
#[local] Opaque sha256_hex canonical_sha256 uuid_str provider_evidence_digest.

(** ** The invariant *)

(** the audit row of a call that was refused before anything was sent *)
Definition unsent_record (u : AuditRow) : Prop :=
  u_previous_state u = Some dispatching /\ u_new_state u = cancelled /\ u_actor_id u = DISPATCH_ACTOR /\ u_reason u = UNSENT_REASON.

(** audit rows that lead from [prev] to [final], each by a legal step or by that one *)
Fixpoint audit_path (prev : option CommandState) (l : list AuditRow) (final : CommandState) : Prop :=
  match l with
  | [] => prev = Some final
  | u :: l => u_previous_state u = prev /\ (audited_step prev (u_new_state u) = true \/ unsent_record u) /\
      audit_path (Some (u_new_state u)) l final
  end.

Lemma audit_path_snoc prev l st u : audit_path prev l st -> u_previous_state u = Some st ->
  audited_step (Some st) (u_new_state u) = true \/ unsent_record u -> audit_path prev (l ++ [u]) (u_new_state u).
Proof.
  revert prev. induction l as [|v l IH]; intros prev; simpl; [by intros -> -> ?|]. intros (H1 & H2 & H3) Hp Hu. split_and!; [done..|].
  by apply IH.
Qed.

Definition audited_digest (k : Key) (d : CommandDB) : option string :=
  persisted_digest [completed; reconciliation_required] k (db_audit d).

(** the newest attempt holds a claim, or nothing the audit contradicts *)
Definition evidence_sound (k : Key) (d : CommandDB) : Prop :=
  newest_result k d = Some DISPATCH_CLAIM \/ consistent (newest_result k d) (audited_digest k d).

Record row_sound (d : CommandDB) (k : Key) (r : CommandRow) : Prop := {
  rs_key : k = (tenant_id (c_identity r), command_id (c_identity r));
  rs_payload : exists env client, c_payload r = authenticated_command_payload env client /\ c_identity r = identity_of env /\
    c_payload_sha256 r = authenticated_command_digest env client;
  rs_audit : audit_path None (audit_of k (db_audit d)) (c_state r);
  rs_numbered : numbered k (db_attempts d);
  rs_evidence : evidence_sound k d;
}.

Record ledger_sound (d : CommandDB) : Prop := {
  ls_rows : forall k r, db_commands d !! k = Some r -> row_sound d k r;
  ls_unique : forall k1 k2 r1 r2, db_commands d !! k1 = Some r1 -> db_commands d !! k2 = Some r2 ->
    fst k1 = fst k2 -> idempotency_key (c_identity r1) = idempotency_key (c_identity r2) -> k1 = k2;
  ls_fresh : forall k, db_commands d !! k = None -> attempts_of k (db_attempts d) = [] /\ audit_of k (db_audit d) = [];
  ls_ids : map a_id (db_attempts d) = seq 1 (length (db_attempts d));
}.

Lemma empty_sound : ledger_sound empty_db.
Proof. by split; intros *; simpl; rewrite ?lookup_empty. Qed.

Lemma sound_ids d : ledger_sound d -> ids_ok d.
Proof. intros H. split; [apply H|]. intros k r Hr. apply (rs_key _ _ _ (ls_rows _ H _ _ Hr)). Qed.

Definition stays_sound (d d' : CommandDB) : Prop := ledger_sound d -> ledger_sound d'.
#[export] Instance stays_sound_preorder : PreOrder stays_sound.
Proof. split; unfold stays_sound; [by intros d|]. intros d1 d2 d3 H1 H2 H. by apply H2, H1. Qed.

(** tables the invariant does not read *)
Lemma stays_same d d' : db_commands d' = db_commands d -> db_attempts d' = db_attempts d -> db_audit d' = db_audit d -> stays_sound d d'.
Proof.
  intros Hc Ha Hu [H1 H2 H3 H4]. split; rewrite ?Hc, ?Ha, ?Hu; try done. intros k r Hr. destruct (H1 k r Hr) as [K P A N E].
  split; rewrite ?Ha, ?Hu; try done. unfold evidence_sound, newest_result, audited_digest in *. by rewrite Ha, Hu.
Qed.

(** ** One row written *)

(** a row, one audit row of it and its attempts *)
Record row_written (d d' : CommandDB) (k : Key) (r r' : CommandRow) (u : AuditRow) : Prop := {
  rw_commands : db_commands d' = <[k := r']> (db_commands d);
  rw_identity : c_identity r' = c_identity r;
  rw_payload : c_payload r' = c_payload r;
  rw_sha256 : c_payload_sha256 r' = c_payload_sha256 r;
  rw_audit : db_audit d' = db_audit d ++ [u];
  rw_key : u_key u = k;
  rw_previous : u_previous_state u = Some (c_state r);
  rw_new : u_new_state u = c_state r';
  rw_step : audited_step (Some (c_state r)) (c_state r') = true \/ unsent_record u;
  rw_numbered : numbered k (db_attempts d');
  rw_others : forall k', k' <> k -> attempts_of k' (db_attempts d') = attempts_of k' (db_attempts d);
  rw_ids : map a_id (db_attempts d') = seq 1 (length (db_attempts d'));
  rw_evidence : evidence_sound k d';
}.

(** what is recorded of the others stays *)
Lemma others_sound d d' k u k2 r2 : k2 <> k -> u_key u = k -> db_audit d' = db_audit d ++ [u] ->
  attempts_of k2 (db_attempts d') = attempts_of k2 (db_attempts d) -> row_sound d k2 r2 -> row_sound d' k2 r2.
Proof.
  intros Hne Hu Haud Hat [K P A N E]. split; try done.
  - by rewrite Haud, audit_of_other by congruence.
  - unfold numbered. by rewrite Hat.
  - unfold evidence_sound, newest_result, newest_attempt, audited_digest in *. rewrite Hat, Haud, persisted_digest_other by congruence. done.
Qed.

Lemma row_written_sound d d' k r r' u : db_commands d !! k = Some r -> row_written d d' k r r' u -> stays_sound d d'.
Proof.
  intros Hk [Hc Hi Hp Hs Ha Hu Hpr Hn Hst Hnum Hoth Hids Hev] Hok. destruct (ls_rows _ Hok _ _ Hk) as [Hkey Hpay Haud _ _]. split.
  - intros k2 r2. rewrite Hc. destruct (decide (k2 = k)) as [->|Hne].
    + rewrite lookup_insert_eq. intros [= <-]. split; [by rewrite Hi|by rewrite Hp, Hi, Hs| |done|done].
      rewrite Ha, audit_of_snoc, <- Hn by done. apply (audit_path_snoc _ _ (c_state r)); [done..|by rewrite Hn].
    + rewrite lookup_insert_ne by done. intros Hk2. eapply (others_sound d d' k u); [done..|by apply Hoth|by apply Hok].
  - assert (Hold : forall k2 r2, db_commands d' !! k2 = Some r2 -> exists r0, db_commands d !! k2 = Some r0 /\ c_identity r0 = c_identity r2).
    { intros k2 r2. rewrite Hc. destruct (decide (k2 = k)) as [->|Hne]; [rewrite lookup_insert_eq|rewrite lookup_insert_ne by done; by exists r2].
      intros [= <-]. by exists r. }
    intros k1 k2 r1 r2 (s1 & H1 & I1)%Hold (s2 & H2 & I2)%Hold Hf Hid. eapply (ls_unique _ Hok); [exact H1|exact H2|done|congruence].
  - intros k2. rewrite Hc. destruct (decide (k2 = k)) as [->|Hne]; [by rewrite lookup_insert_eq|]. rewrite lookup_insert_ne by done.
    intros Hno. destruct (ls_fresh _ Hok _ Hno). by rewrite Hoth, Ha, audit_of_other by congruence.
  - done.
Qed.

(** an audit row without a digest and attempts left alone *)
Lemma quiet_written d d' k r r' prev st actor reason meta now : ledger_sound d -> db_commands d !! k = Some r ->
  c_identity r' = c_identity r -> c_payload r' = c_payload r -> c_payload_sha256 r' = c_payload_sha256 r ->
  db_commands d' = <[k := r']> (db_commands d) -> db_attempts d' = db_attempts d ->
  db_audit d' = db_audit (insert_audit k prev st actor reason meta now d) -> prev = Some (c_state r) -> st = c_state r' ->
  audited_step (Some (c_state r)) (c_state r') = true -> has_key DIGEST meta = false -> ledger_sound d'.
Proof.
  intros Hok Hk Hi Hp Hs Hc Ha Hu -> -> Hst Hm. pose proof (ls_rows _ Hok _ _ Hk) as Hr.
  eapply row_written_sound; [exact Hk| |done]. split; [done..|exact Hu|reflexivity|reflexivity|reflexivity|by left|rewrite Ha; apply Hr|by rewrite Ha|rewrite Ha; apply Hok|].
  pose proof (rs_evidence _ _ _ Hr) as He. unfold evidence_sound, newest_result, audited_digest in *. rewrite Ha, Hu. cbn [insert_audit db_audit].
  rewrite persisted_digest_snoc by done. cbn [u_metadata]. by rewrite Hm, andb_false_r.
Qed.

(** the attempts of one key rewritten where they stand *)
Lemma rewritten_numbered k g l : (forall a, a_key (g a) = a_key a) -> (forall a, a_number (g a) = a_number a) -> numbered k l ->
  numbered k (map g l).
Proof.
  intros Hk Hn H. unfold numbered. rewrite attempts_of_map, map_map, length_map by done.
  by rewrite (map_ext _ a_number) by (intros a; apply Hn).
Qed.

(** ** The store's methods *)

Section Writers.
Context `{Externals}.

Lemma evidence_kept k d d' : newest_result k d' = newest_result k d -> audited_digest k d' = audited_digest k d ->
  evidence_sound k d -> evidence_sound k d'.
Proof. unfold evidence_sound. by intros -> ->. Qed.

(** a transition: the evidence it brings is audited with it *)
Lemma transitioned_written d k r st actor reason provider evidence now : ledger_sound d -> db_commands d !! k = Some r ->
  state_in st (ALLOWED_COMMAND_TRANSITIONS (c_state r)) = true ->
  (evidence = None \/ state_in st [completed; reconciliation_required] = true) ->
  exists u, row_written d (transitioned d k r st actor reason provider evidence now) k r (moved_row r st reason provider now) u.
Proof.
  intros Hok Hk Hst He. pose proof (ls_rows _ Hok _ _ Hk) as Hr.
  pose proof (moved_attempts_step k st reason provider evidence now _ (ls_ids _ Hok) (rs_numbered _ _ _ Hr)) as Hs.
  destruct (moved_evidence st k reason provider evidence now _ _ _ Hs eq_refl He) as [_ Hev]. destruct Hs as (Hmine & Hoth & Hids & Hnum).
  set (d' := transitioned d k r st actor reason provider evidence now).
  assert (Hn' : numbered k (db_attempts d')).
  { unfold numbered, d'. cbn [transitioned set_db_attempts insert_audit set_db_command db_attempts]. by rewrite Hmine. }
  eexists. split; try reflexivity; try done; [left; simpl; unfold audited_step; by rewrite Hst|].
  assert (Hnew : newest_result k d' = if bool_decide (st = dispatching) then None
    else if (length (attempts_of k (db_attempts d)) =? 0)%nat then None else coalesce evidence (newest_result k d)).
  { unfold newest_result. rewrite (newest_attempt_last _ _ Hn'), (newest_attempt_last _ _ (rs_numbered _ _ _ Hr)). exact Hev. }
  assert (Hdig : audited_digest k d' = if state_in st [completed; reconciliation_required]
    then provider_evidence_digest <$> evidence else audited_digest k d).
  { unfold audited_digest, d'. cbn [transitioned set_db_attempts insert_audit set_db_command db_audit]. rewrite persisted_digest_snoc by done.
    cbn [u_new_state u_metadata]. change (has_key DIGEST (moved_metadata provider evidence)) with true. rewrite andb_true_r.
    destruct (state_in st [completed; reconciliation_required]); [|done]. by destruct evidence. }
  pose proof (rs_evidence _ _ _ Hr) as Hold. unfold evidence_sound, consistent in *. rewrite Hnew, Hdig.
  case_bool_decide; [right; intros ? ? [=]|]. destruct (_ =? 0)%nat; [right; intros ? ? [=]|].
  destruct evidence as [e|]; cbn [coalesce fmap option_fmap option_map].
  - destruct He as [|He]; [done|]. rewrite He. right. by intros ? ? [= <-] [= <-].
  - destruct (state_in st [completed; reconciliation_required]); [right; intros ? ? _ [=]|done].
Qed.

Lemma transition_row_sound now t c st actor reason provider evidence expected :
  (evidence = None \/ state_in st [completed; reconciliation_required] = true) ->
  within stays_sound (transition_row now t c st actor reason provider evidence expected).
Proof.
  intros He. apply within_tenant; [apply _|]. intros d. unfold bind at 1, command_row. destruct (_ !! _) as [r|] eqn:Hr; [|reflexivity].
  unfold bind at 1, gets. destruct (match expected with Some _ => _ | None => _ end); [reflexivity|].
  destruct (state_in st (ALLOWED_COMMAND_TRANSITIONS (c_state r))) eqn:Hst; [|reflexivity]. intros Hok.
  destruct (transitioned_written d (t, c) r st actor reason provider evidence now Hok Hr Hst He) as [u U].
  by apply (row_written_sound _ _ _ _ _ _ Hr U).
Qed.

Lemma pg_transition_sound now t c st actor reason provider evidence expected :
  within stays_sound (pg_transition now t c st actor reason provider evidence expected).
Proof.
  unfold pg_transition. destruct (bool_decide (is_Some evidence) && _) eqn:Hg; [apply within_raise; apply _|].
  assert (evidence = None \/ state_in st [completed; reconciliation_required] = true) as He.
  { destruct evidence; [right|by left]. by apply negb_false_iff. }
  apply within_bind; [apply _|by apply transition_row_sound|]. intros row. destruct evidence; [apply within_lift; apply _|].
  apply within_tenant; [apply _|]. apply within_bind; [apply _|apply within_gets; apply _|intros d; apply within_lift; apply _].
Qed.

(** a verdict, by the store or by the reconciliation activity *)
Lemma verdict_written d k r matched actor reason provider evidence now : ledger_sound d -> db_commands d !! k = Some r ->
  c_state r = reconciliation_required ->
  exists u, row_written d (verdict_db d k r matched actor reason provider evidence now) k r (verdict_row r matched reason provider now) u.
Proof.
  intros Hok Hk Hst. pose proof (ls_rows _ Hok _ _ Hk) as Hr. set (st := if matched then completed else reconciliation_required).
  set (f := verdict_attempt st reason provider evidence now).
  assert (attempts_step k (db_attempts d) (update_newest k f (db_attempts d)) (alter_last f (attempts_of k (db_attempts d))))
    as Hs by (apply update_newest_step; done || apply Hok || apply Hr).
  destruct (verdict_evidence _ _ _ evidence Hs) as [_ Hev]; [done|]. destruct Hs as (Hmine & Hoth & Hids & Hnum).
  set (d' := verdict_db d k r matched actor reason provider evidence now).
  assert (Hn' : numbered k (db_attempts d')).
  { unfold numbered, d'. cbn [verdict_db set_db_attempts insert_audit set_db_command db_attempts]. fold st f. by rewrite Hmine. }
  eexists. split; try reflexivity; try done; [by destruct matched..|by rewrite Hst|by destruct matched; simpl; rewrite ?Hst| |].
  { left. rewrite Hst. by destruct matched; simpl; rewrite ?Hst. }
  right. unfold newest_result. rewrite (newest_attempt_last _ _ Hn'). intros e g. change (db_attempts d') with (update_newest k f (db_attempts d)).
  rewrite Hev. destruct (_ =? 0)%nat; [done|]. intros [= <-]. unfold audited_digest, d'.
  cbn [verdict_db set_db_attempts insert_audit set_db_command db_audit]. rewrite persisted_digest_snoc by done.
  cbn [u_new_state u_metadata]. destruct matched; by intros [= <-].
Qed.

Lemma pg_reconcile_sound now t c matched actor reason provider evidence expected :
  within stays_sound (pg_reconcile now t c matched actor reason provider evidence expected).
Proof.
  unfold pg_reconcile. apply within_bind; [apply _| |intros row; apply within_lift; apply _].
  apply within_tenant; [apply _|]. intros d. unfold bind at 1, command_row. destruct (_ !! _) as [r|] eqn:Hr; [|reflexivity].
  destruct (bool_decide_reflect (c_state r = reconciliation_required)) as [Hst|]; [|reflexivity].
  cbn [negb]. destruct (match expected with Some _ => _ | None => _ end); [reflexivity|]. intros Hok.
  destruct (verdict_written d (t, c) r matched actor (str_take 2048 reason) provider evidence now Hok Hr Hst) as [u U].
  by apply (row_written_sound _ _ _ _ _ _ Hr U).
Qed.

(** a transaction that raises leaves nothing behind *)
Lemma sound_if_kept {A} t (m : DM A) : (forall d a d', m d = (Ret a, d') -> stays_sound d d') -> within stays_sound (tenant_transaction t m).
Proof.
  intros Hm d. unfold tenant_transaction, transaction, bind, tenant_context. destruct (negb _); [done|]. destruct (negb _); [done|].
  unfold ret. cbv beta iota. specialize (Hm d). destruct (m d) as [[a|e] d']; [by apply (Hm a)|done].
Qed.

Lemma pg_mutate_sound now t c a actor key version reason corr :
  within stays_sound (pg_mutate_operation now t c a actor key version reason corr).
Proof.
  apply sound_if_kept. intros d x d'. unfold bind at 1, command_row. destruct (_ !! _) as [r|] eqn:Hr; [|done].
  unfold bind at 1, gets. cbn [id]. destruct (db_mutations d !! _) as [[digest o]|]; [destruct (negb _); by intros [= _ <-]|].
  destruct (negb _); [done|]. unfold bind at 1. destruct (pg_action _ _ _ _ _ _ _ d) as [[r'|e] d1] eqn:Ha; [|done].
  destruct (pg_action_spec _ _ _ _ _ _ _ _ _ _ Ha) as ([l ->] & Hi & Hp & Hsh & _ & _ & _ & Hst).
  unfold bind, modify, lift_outcome. destruct (operation_of_row _ _ _ _); [|done]. intros [= _ <-] Hok.
  eapply quiet_written; [done|exact Hr|done..|reflexivity|reflexivity|reflexivity|reflexivity|reflexivity|done|apply mutation_no_digest].
Qed.

Lemma dead_letter_sound now t c code class reason poisoned exhausted :
  within stays_sound (pg_record_dead_letter now t c code class reason poisoned exhausted).
Proof.
  apply within_transaction; [apply _|]. intros d. unfold bind at 1, command_row. destruct (_ !! _) as [r|] eqn:Hr; [|reflexivity].
  unfold bind at 1, gets. cbn [id]. destruct (db_dead_letters d !! _); [reflexivity|]. by apply stays_same.
Qed.

Lemma replay_sound d d' : (d' = d \/ exists r, d' = set_db_replay r d) -> stays_sound d d'.
Proof. intros [->|[r ->]]; [reflexivity|by apply stays_same]. Qed.

(** nobody has the identity or the idempotency key of a command without rows *)
Lemma no_existing c d : ledger_sound d -> existing_rows c d = [] ->
  db_commands d !! (env_tenant_id c, env_command_id c) = None /\
  forall k r, db_commands d !! k = Some r -> fst k = env_tenant_id c -> idempotency_key (c_identity r) <> env_idempotency_key c.
Proof.
  intros Hok He. assert (Hno : forall k r, db_commands d !! k = Some r -> same_identity c r = false).
  { intros k r Hk. apply not_true_iff_false. intros Hs. assert (r ∈ existing_rows c d) as Hin by (apply elem_of_existing; by exists k).
    rewrite He in Hin. by apply elem_of_nil in Hin. }
  split.
  - destruct (db_commands d !! _) as [r|] eqn:Hk; [|done]. specialize (Hno _ _ Hk). pose proof (rs_key _ _ _ (ls_rows _ Hok _ _ Hk)) as [= Ht Hc].
    unfold same_identity in Hno. by rewrite Ht, Hc, String.eqb_refl, N.eqb_refl in Hno.
  - intros k r Hk Hf Hi. specialize (Hno _ _ Hk). rewrite (rs_key _ _ _ (ls_rows _ Hok _ _ Hk)) in Hf. simpl in Hf.
    unfold same_identity in Hno. by rewrite Hf, Hi, !String.eqb_refl, orb_true_r in Hno.
Qed.

Lemma inserted_sound d now c client dest ev tr : existing_rows c d = [] -> stays_sound d (inserted d now c client dest ev tr).
Proof.
  intros He Hok. destruct (no_existing c d Hok He) as [Hk Hkey]. set (k := (env_tenant_id c, env_command_id c)) in *.
  destruct (ls_fresh _ Hok _ Hk) as [Hat Hau]. set (d' := inserted d now c client dest ev tr). set (r0 := new_command_row c client now).
  assert (Hcm : db_commands d' = <[k := r0]> (db_commands d)) by done. assert (Hatt : db_attempts d' = db_attempts d) by done.
  assert (exists u, db_audit d' = db_audit d ++ [u] /\ u_key u = k /\ u_previous_state u = None /\ u_new_state u = persisted)
    as (u & Hu & Huk & Hup & Hun) by by eexists.
  split.
  - intros k2 r2. rewrite Hcm. destruct (decide (k2 = k)) as [->|Hne].
    + rewrite lookup_insert_eq. intros [= <-]. split; [done|by exists c, client| | |].
      * rewrite Hu, audit_of_snoc, Hau by done. simpl. rewrite Hup, Hun. by split_and!; [|left|].
      * unfold numbered. by rewrite Hatt, Hat.
      * right. unfold newest_result, newest_attempt. rewrite Hatt, Hat. intros e g [=].
    + rewrite lookup_insert_ne by done. intros Hk2. eapply (others_sound d d' k u); [done..|by rewrite Hatt|by apply Hok].
  - assert (Hnew : forall k1 k2 r1 r2, db_commands d' !! k1 = Some r1 -> db_commands d !! k2 = Some r2 -> k1 = k ->
      fst k1 = fst k2 -> idempotency_key (c_identity r1) <> idempotency_key (c_identity r2)).
    { intros k1 k2 r1 r2 H1 H2 -> Hf Hi. rewrite Hcm, lookup_insert_eq in H1. injection H1 as <-. by apply (Hkey k2 r2 H2). }
    intros k1 k2 r1 r2 H1 H2 Hf Hi. destruct (decide (k1 = k)) as [E1|N1], (decide (k2 = k)) as [E2|N2]; [congruence|..].
    + exfalso. rewrite Hcm, lookup_insert_ne in H2 by done. by eapply (Hnew k1 k2).
    + exfalso. rewrite Hcm, lookup_insert_ne in H1 by done. by eapply (Hnew k2 k1).
    + rewrite Hcm, lookup_insert_ne in H1, H2 by done. by eapply (ls_unique _ Hok).
  - intros k2. rewrite Hcm. destruct (decide (k2 = k)) as [->|Hne]; [by rewrite lookup_insert_eq|]. rewrite lookup_insert_ne by done.
    intros Hno. rewrite Hatt, Hu, audit_of_other by congruence. by apply Hok.
  - rewrite Hatt. apply Hok.
Qed.

Lemma pg_submit_sound now c client dest ev tr : within stays_sound (pg_submit now c client dest ev tr).
Proof.
  intros d. destruct (tenant_ok (env_tenant_id c)) eqn:Ht.
  2: { unfold pg_submit. destruct (tenant_refused (env_tenant_id c) (submit_on_connection now c client None dest ev tr) d Ht) as [x ->]. reflexivity. }
  rewrite pg_submit_cases by done. destruct (negb _); [reflexivity|].
  destruct (existing_rows c d) as [|r [|]] eqn:He; [|by destruct (negb _)|reflexivity].
  destruct (outbox_conflict _ _ _ _); [reflexivity|]. by apply inserted_sound.
Qed.

Lemma notifications_sound now t incident actor reason intents :
  within stays_sound (cancel_pending_grouped_notifications now t incident actor reason intents).
Proof.
  intros d. apply (notifications_kept stays_sound); [intros l d0; by apply stays_same|]. clear d.
  intros d c r meta Hr Hst Hm Hok. eapply (quiet_written d _ _ _ (withdrawn_row r reason now)); [done|exact Hr|done..|reflexivity|reflexivity|reflexivity|reflexivity|reflexivity| |exact Hm].
  unfold audited_step. simpl. by destruct (c_state r).
Qed.

(** ** The activities' transactions *)

(** the newest attempt of a key rewritten where it stands *)
Lemma rewritten_attempts k f l a : map a_id l = seq 1 (length l) -> newest_attempt k l = Some a -> numbered k l ->
  (forall x, a_key (f x) = a_key x) -> (forall x, a_number (f x) = a_number x) -> (forall x, a_id (f x) = a_id x) ->
  let l' := map (fun b => if a_id b =? a_id a then f b else b) l in
  newest_attempt k l' = Some (f a) /\ numbered k l' /\ (forall k', k' <> k -> attempts_of k' l' = attempts_of k' l) /\
  map a_id l' = seq 1 (length l').
Proof.
  intros Hids Ha Hn Hfk Hfn Hfi l'. split_and!.
  - by apply newest_rewritten.
  - apply rewritten_numbered; [..|done]; intros b; by destruct (_ =? _).
  - intros k' Hne. apply newest_attempt_in in Ha as [Hin Hk]. unfold l'. rewrite attempts_of_map by (intros b; by destruct (_ =? _)).
    rewrite <- (map_id (attempts_of k' l)) at 2. apply map_ext_in. intros b Hb. apply list_elem_of_In, attempts_of_key in Hb as [Hb Hkb].
    destruct (Nat.eqb_spec (a_id b) (a_id a)) as [Heq|]; [|done]. exfalso. apply Hne. rewrite <- Hk, <- Hkb. by rewrite (ids_unique l b a).
  - unfold l'. rewrite map_map, length_map, <- Hids. apply map_ext. intros b. by destruct (_ =? _).
Qed.

Lemma claim_sound q : within stays_sound (claim_call_dispatch q).
Proof.
  intros d Hok. unfold claim_call_dispatch, bind at 1, gets. cbn [id]. destruct (key_of_text _ _) as [k|]; [|done].
  destruct (newest_attempt k (db_attempts d)) as [a|] eqn:Ha; [|done]. destruct (bool_decide _ && _) eqn:Hc; [|done].
  unfold bind, modify, ret. cbv beta iota. cbn [snd]. assert (Hk : exists r, db_commands d !! k = Some r).
  { destruct (db_commands d !! k) as [r|] eqn:Hk; [by exists r|]. destruct (ls_fresh _ Hok _ Hk) as [Hn _].
    unfold newest_attempt in Ha. by rewrite Hn in Ha. }
  destruct Hk as [r Hk]. pose proof (rs_numbered _ _ _ (ls_rows _ Hok _ _ Hk)) as Hn.
  destruct (rewritten_attempts k (with_result DISPATCH_CLAIM) (db_attempts d) a) as (Hnew & Hnum & Hoth & Hids); [apply Hok|done..|].
  set (l' := map _ (db_attempts d)) in *. split; [|apply Hok| |exact Hids].
  - intros k2 r2 Hk2. cbn [set_db_attempts db_commands] in Hk2. destruct (ls_rows _ Hok _ _ Hk2) as [K P A N E].
    destruct (decide (k2 = k)) as [->|Hne]; [split; [done..|left]|split; [done..| |]].
    + unfold newest_result. cbn [set_db_attempts db_attempts]. by rewrite Hnew.
    + unfold numbered. cbn [set_db_attempts db_attempts]. by rewrite Hoth.
    + revert E. apply evidence_kept; [|done]. unfold newest_result, newest_attempt. cbn [set_db_attempts db_attempts]. by rewrite Hoth.
  - intros k2 Hk2. cbn [set_db_attempts db_attempts db_audit]. rewrite Hoth; [by apply Hok|]. intros ->. cbn [set_db_attempts db_commands] in Hk2. congruence.
Qed.

Lemma reject_sound now q : within stays_sound (reject_unsent now q).
Proof.
  apply within_transaction; [apply _|]. intros d. unfold bind at 1, gets. cbn [id]. destruct (key_of_text _ _) as [k|]; [|reflexivity].
  destruct (db_commands d !! k) as [r|] eqn:Hr; [|reflexivity]. destruct (newest_attempt k (db_attempts d)) as [a|] eqn:Ha; [|reflexivity].
  destruct (proven_unsent _ a); [reflexivity|]. destruct (negb (bool_decide (c_state r = dispatching)) || _) eqn:Hc; [reflexivity|].
  apply orb_false_iff in Hc as [Hc _]. apply negb_false_iff, bool_decide_eq_true in Hc. intros Hok.
  unfold bind, modify, ret. cbv beta iota. cbn [snd]. pose proof (ls_rows _ Hok _ _ Hr) as Hrow.
  destruct (rewritten_attempts k (unsent_attempt now) (db_attempts d) a) as (Hnew & Hnum & Hoth & Hids); [apply Hok|done|apply Hrow|done..|].
  eapply (row_written_sound _ _ _ _ (unsent_row r now)); [exact Hr| |done].
  split; [reflexivity|done..|reflexivity|reflexivity|by rewrite Hc|reflexivity|by right|exact Hnum|exact Hoth|exact Hids|].
  eapply evidence_kept; [| |apply (rs_evidence _ _ _ Hrow)].
  - unfold newest_result. cbn [insert_audit set_db_attempts set_db_command db_attempts]. by rewrite Hnew, Ha.
  - unfold audited_digest. cbn [insert_audit set_db_attempts set_db_command db_audit]. by rewrite persisted_digest_snoc.
Qed.

Lemma persist_sound now r x digest : within stays_sound (persist_result now r x digest).
Proof.
  apply within_if; [apply within_reraise; apply _|]. apply within_transaction; [apply _|]. intros d. unfold bind at 1, gets. cbn [id].
  destruct (key_of_text _ _) as [k|]; [|reflexivity]. destruct (db_commands d !! k) as [row|] eqn:Hr; [|reflexivity].
  destruct (bool_decide (c_state row = completed) && _); [by unfold lift_outcome|].
  destruct (negb (bool_decide (c_state row = reconciliation_required))) eqn:Hc; [reflexivity|].
  apply negb_false_iff, bool_decide_eq_true in Hc. unfold bind at 1, lift_outcome. destruct (validated_command _ _ _) as [[q dg]|]; [|reflexivity].
  destruct (negb _); [reflexivity|]. destruct (String.eqb (rq_target q) TARGET && _); [reflexivity|]. intros Hok.
  destruct (verdict_written d k row (String.eqb (ar_status x) "matched") RECONCILIATION_ACTOR (str_take 2048 (ar_detail x))
    (Some (default (rc_operation_id r) (truthy_str (ar_provider_operation_id x))))
    (persisted_evidence (ar_status x) (default (rc_operation_id r) (truthy_str (ar_provider_operation_id x))) (ar_readback_evidence x))
    now Hok Hr Hc) as [u U].
  by apply (row_written_sound _ _ _ _ _ _ Hr U).
Qed.
End Writers.

(** ** Every history *)

Section Histories.
Context `{Externals} (aware : json -> option AwareDatetime).

Lemma db_step_sound d d' : db_step aware d d' -> stays_sound d d'.
Proof.
  destruct 1.
  - apply pg_submit_sound.
  - apply pg_transition_sound.
  - apply pg_reconcile_sound.
  - apply pg_mutate_sound.
  - apply dead_letter_sound.
  - apply replay_sound, pg_create_replay_frame.
  - apply replay_sound, update_replay_frame.
  - apply replay_sound, update_replay_frame.
  - apply notifications_sound.
  - by apply stays_same.
  - apply record_transition_within; [apply _|apply pg_transition_sound].
  - apply record_rejection_within; [apply _|apply reject_sound].
  - apply persist_sound.
  - apply complete_origin_within; [apply _|apply pg_transition_sound|apply persist_sound].
Qed.

Lemma tw_step_sound w w' : tw_step aware w w' -> stays_sound (tw_db w) (tw_db w').
Proof.
  destruct 1 as [d Hd|pols clock now p b correlation g|q n d Hc|n Hn|t]; [by apply db_step_sound| | |apply reflexivity|apply reflexivity].
  - rewrite on_db_run. cbn [snd set_tw_db tw_db].
    destruct (originate_cases pols clock now p b correlation g (tw_db w)) as [->|[-> _]]; [reflexivity|apply pg_submit_sound].
  - pose proof (claim_sound q (tw_db w)) as Hm. by rewrite Hc in Hm.
Qed.

(** a step of the writers, or a submission of any command *)
Inductive ledger_step (w : TW) : TW -> Prop :=
  | ls_written w' : tw_step aware w w' -> ledger_step w w'
  | ls_submit now c client dest ev tr : ledger_step w (set_tw_db (snd (pg_submit now c client dest ev tr (tw_db w))) w).
Definition ledger_history : TW -> TW -> Prop := rtc ledger_step.

Lemma written_history w w' : tw_history aware w w' -> ledger_history w w'.
Proof. induction 1 as [w|w1 w2 w3 Hs _ IH]; [apply rtc_refl|]. eapply rtc_l; [by apply ls_written|done]. Qed.

Lemma history_sound w w' : ledger_history w w' -> stays_sound (tw_db w) (tw_db w').
Proof.
  induction 1 as [w|w1 w2 w3 Hs _ IH]; [reflexivity|]. etrans; [|done].
  destruct Hs; [by apply tw_step_sound|]. apply pg_submit_sound.
Qed.
End Histories.

Section Claims.
Context `{Externals} (aware : json -> option AwareDatetime).

(** C8: from an empty ledger, whatever the store's methods, the transactions of the
    workflows' activities, the reservation of calls and the cancellation of an
    incident's notifications do to the tables, in any order: each command is stored
    under its own tenant and identifier with the digest of its own payload; its audit
    rows are a path from its creation to its current state, each a step of the
    transition table, of an operator or of a verdict, but for the one step from
    [dispatching] to [cancelled] that records a call refused before it was sent; its
    attempts are numbered from one without a gap; its newest attempt holds the bare
    claim of a dispatch, or evidence the audited digest does not contradict; and no
    two commands of a tenant share an idempotency key. *)
Theorem ledger_invariant now w k r : ledger_history aware (mkTW empty_db now [] []) w -> db_commands (tw_db w) !! k = Some r ->
  k = (tenant_id (c_identity r), command_id (c_identity r)) /\
  (exists env client, c_payload r = authenticated_command_payload env client /\ c_identity r = identity_of env /\
     c_payload_sha256 r = authenticated_command_digest env client) /\
  audit_path None (audit_of k (db_audit (tw_db w))) (c_state r) /\
  map a_number (attempts_of k (db_attempts (tw_db w))) = seq 1 (length (attempts_of k (db_attempts (tw_db w)))) /\
  (newest_result k (tw_db w) = Some DISPATCH_CLAIM \/
   consistent (newest_result k (tw_db w)) (persisted_digest [completed; reconciliation_required] k (db_audit (tw_db w)))) /\
  (forall k' r', db_commands (tw_db w) !! k' = Some r' -> fst k = fst k' ->
     idempotency_key (c_identity r) = idempotency_key (c_identity r') -> k = k').
Proof.
  intros Hh Hr. pose proof (history_sound aware _ _ Hh empty_sound) as Hok. destruct (ls_rows _ Hok _ _ Hr) as [K P A N E].
  split_and!; [done..|]. intros k' r' Hr' Hf Hi. by eapply (ls_unique _ Hok).
Qed.
End Claims.
