(* ===== verification/CallingProps.v ===== *)
(** * Properties of internal calling

    Over the histories of [TemporalHistory]: an authorization is consumed by one call,
    and an agent, or an extension, has one call that is not over.  A call is found by
    its owner only, and evidence that validated as terminal ends the call it is
    stored for. *)

From S2P Require Import Prelude Json PyValue Clock Sha256 Uuid Commands LedgerSpec Ledger LedgerFacts.
From S2P Require Import Outbox PgLedger PgLedgerFacts PgHistory Calling Temporal.
From S2P Require Import TemporalHistory.
Local Open Scope Z_scope.
#[local] Opaque sha256_hex canonical_sha256 uuid_str provider_evidence_digest.

(** ** Calls that are over *)

Definition call_over (d : CommandDB) (k : Key) (r : CommandRow) : bool :=
  bool_decide (c_state r = cancelled) || match prior_call d k r with Ret b => b | Exc _ => false end.

Definition GRANT_PATH : list string := ["payload"; "authorization_reference"].
Definition EMPLOYEE_PATH : list string := ["payload"; "actor"; "employee_id"].
Definition EXTENSION_PATH : list string := ["payload"; "actor"; "extension"].

(** the two calls name the same value at the path *)
Definition share (path : list string) (r1 r2 : CommandRow) : Prop := exists v, row_text path r1 = Some v /\ row_text path r2 = Some v.

(** a tenant's calls: no two on one authorization, no two live ones of one agent or extension *)
Definition lines_ok (d : CommandDB) : Prop := forall t k1 k2 r1 r2,
  db_commands d !! k1 = Some r1 -> db_commands d !! k2 = Some r2 -> originates t r1 = true -> originates t r2 = true -> k1 <> k2 ->
  ~ share GRANT_PATH r1 r2 /\
  (call_over d k1 r1 = false -> call_over d k2 r2 = false -> ~ share EMPLOYEE_PATH r1 r2 /\ ~ share EXTENSION_PATH r1 r2).

Lemma row_text_payload path r r' : c_payload r' = c_payload r -> row_text path r' = row_text path r.
Proof. intros H. unfold row_text. by rewrite H. Qed.
Lemma share_payload path r1 r2 r1' r2' : c_payload r1' = c_payload r1 -> c_payload r2' = c_payload r2 -> share path r1' r2' -> share path r1 r2.
Proof. intros H1 H2 (v & Hv1 & Hv2). exists v. by rewrite <- (row_text_payload _ _ _ H1), <- (row_text_payload _ _ _ H2). Qed.
Lemma share_sym path r1 r2 : share path r1 r2 -> share path r2 r1.
Proof. intros (v & ? & ?). by exists v. Qed.

Lemma verified_again v g x : verify_readback_evidence_digest v g = Ret x ->
  verify_readback_evidence_digest (fst x) (snd x) = Ret x /\ (is_Some (snd x) -> is_Some v).
Proof.
  unfold verify_readback_evidence_digest at 1. destruct v as [e|], g as [g|]; [| |done|].
  2-3: intros [= <-]; split; [done|by intros [? [=]]].
  destruct (negb _) eqn:Hg; [done|]. intros [= <-]. unfold verify_readback_evidence_digest. cbn [fst snd]. rewrite Hg. split; [done|by eexists].
Qed.

(** a call that is over ended, and what says so is settled *)
Lemma over_ended d k r : call_over d k r = true -> c_state r = cancelled \/ (ended r = true /\ is_Some (newest_result k d)).
Proof.
  unfold call_over. case_bool_decide as Hc; [by left|]. cbn [orb]. intros Hp. right. revert Hp. unfold prior_call, newest_result.
  destruct (verify_readback_evidence_digest _ _) as [x|] eqn:Hv; [|done]. apply verified_again in Hv as [Hv Hs].
  unfold operation_of_row. unfold obind. rewrite Hv. destruct x as [ev dg]. unfold call_terminal.
  cbn [op_state op_readback_evidence_sha256]. rewrite bool_decide_eq_false_2 by done.
  destruct (bool_decide_reflect (c_state r = completed)) as [Hr|]; [|done]. cbn [negb orb].
  case_bool_decide as Hg; [done|]. intros _. split; [by unfold ended; rewrite Hr|]. apply Hs. cbn [snd] in *. by destruct dg; [eexists|].
Qed.

Lemma over_moves d d' k r : ids_ok d -> moves_on true d d' -> db_commands d !! k = Some r -> call_over d k r = true ->
  db_commands d' !! k = Some r /\ call_over d' k r = true.
Proof.
  intros Hi Hm Hr Ho. destruct (over_ended d k r Ho) as [Hc|[He Hn]].
  - destruct (Hm Hi) as [_ M2 _ _]. destruct (M2 k r Hr) as (r' & Hr' & _ & _ & _ & He). destruct He as (-> & _ & _); [by unfold ended; rewrite Hc|].
    split; [done|]. unfold call_over. by rewrite (bool_decide_eq_true_2 _ Hc).
  - destruct (moves_settled k r _ _ d d' Hm {| st_ids := Hi; st_row := Hr; st_ended := He; st_result := Hn; st_attempts := eq_refl; st_audit := eq_refl |})
      as [S1 S2 _ _ S5 S6]. split; [done|]. unfold call_over, prior_call, calling_digest, newest_attempt in *. by rewrite S5, S6.
Qed.

(** ** One live call *)

Section Lines.
Context `{Externals} (aware : json -> option AwareDatetime).

(** a step that inserts no call *)
Lemma quiet_lines d d' : ids_ok d -> moves_on false d d' -> lines_ok d -> lines_ok d'.
Proof.
  intros Hi Hm Hl t k1 k2 r1' r2' Hk1 Hk2 Ho1 Ho2 Hne. destruct (Hm Hi) as [M1 M2 M3 M4].
  assert (Hold : forall k r', db_commands d' !! k = Some r' -> originates t r' = true ->
    exists r, db_commands d !! k = Some r /\ originates t r = true /\ c_payload r' = c_payload r /\
      (call_over d' k r' = false -> call_over d k r = false)).
  { intros k r' Hr' Ho. destruct (db_commands d !! k) as [r|] eqn:Hr.
    - destruct (M2 k r Hr) as (r'' & Hr'' & Hid & Hp & _ & _). assert (r'' = r') as -> by congruence. exists r.
      split_and!; [done| |done|]; [unfold originates in *; by rewrite <- Hid|]. intros Hov. apply not_true_is_false. intros Hov'.
      destruct (over_moves d d' k r Hi (moved_on_calls _ _ Hm) Hr Hov') as [Hs Ht]. congruence.
    - exfalso. apply (M3 eq_refl k r' Hr' Hr). unfold originates in Ho. apply andb_true_iff in Ho as [_ Ho]. by apply String.eqb_eq in Ho. }
  destruct (Hold k1 r1' Hk1 Ho1) as (r1 & Hr1 & Hor1 & Hp1 & Hv1). destruct (Hold k2 r2' Hk2 Ho2) as (r2 & Hr2 & Hor2 & Hp2 & Hv2).
  destruct (Hl t k1 k2 r1 r2 Hr1 Hr2 Hor1 Hor2 Hne) as [Hg Hs]. split.
  - intros Hsh. apply Hg. by eapply share_payload.
  - intros H1 H2. destruct (Hs (Hv1 H1) (Hv2 H2)) as [He Hx]. split; intros Hsh; [apply He|apply Hx]; by eapply share_payload.
Qed.

(** what the row of a new call names *)
Lemma call_row_names p b correlation g now :
  let r := new_command_row (originate_command p b correlation g) CLIENT_ID now in
  row_text GRANT_PATH r = Some (gr_authorization_reference g) /\ row_text EMPLOYEE_PATH r = Some (cp_employee_id p) /\
  row_text EXTENSION_PATH r = Some (cp_extension p) /\ forall t, originates t r = true -> t = cp_tenant_id p.
Proof.
  split_and!; [reflexivity..|]. intros t [Ht _]%andb_true_iff. by apply String.eqb_eq in Ht.
Qed.

Lemma checks_lines clock p b g d k r : call_checks clock p b g d = Ret tt -> db_commands d !! k = Some r -> originates (cp_tenant_id p) r = true ->
  row_text GRANT_PATH r <> Some (gr_authorization_reference g) /\
  (row_text EMPLOYEE_PATH r = Some (cp_employee_id p) \/ row_text EXTENSION_PATH r = Some (cp_extension p) -> call_over d k r = true).
Proof.
  unfold call_checks. destruct (grant_authorize _ _ _ _ _) as [[]|]; [|done]. unfold obind at 1.
  destruct (existsb _ _) eqn:Hx; [done|]. intros Hall Hk Ho. assert (Hin : (k, r) ∈ rows_of d) by (by apply elem_of_map_to_list).
  split.
  - intros Hg. assert (existsb (fun kr => consumes p g (snd kr)) (rows_of d) = true); [|congruence]. apply existsb_exists. exists (k, r).
    split; [by apply list_elem_of_In|]. unfold consumes. cbn [snd]. rewrite Ho. by apply bool_decide_eq_true.
  - intros Hline. unfold call_over. case_bool_decide as Hc; [done|]. rewrite for_each_Ret in Hall. specialize (Hall (k, r)).
    cbn [orb]. destruct (prior_call d k r) as [[]|] eqn:Hp; [done| |].
    all: exfalso; cbn [fst snd] in Hall; rewrite Hp in Hall; unfold obind in Hall; enough (Hbad : (k, r) ∈
      List.filter (fun kr => on_line p (snd kr) && negb (bool_decide (c_state (snd kr) = cancelled))) (rows_of d))
      by (by apply Hall in Hbad); apply list_elem_of_In, filter_In; (split; [by apply list_elem_of_In|]); cbn [snd];
      rewrite (bool_decide_eq_false_2 _ Hc), andb_true_r; unfold on_line; rewrite Ho; cbn [andb];
      apply orb_true_iff; rewrite !bool_decide_eq_true; exact Hline.
Qed.

Lemma originate_lines pols clock now p b correlation g d : ids_ok d -> lines_ok d -> lines_ok (snd (call_originate pols clock now p b correlation g d)).
Proof.
  intros Hi Hl. pose proof (originate_moves pols clock now p b correlation g d) as Hm.
  destruct (originate_cases pols clock now p b correlation g d) as [->|[Heq Hchk]]; [done|]. cbv zeta in *. rewrite Heq in *. clear Heq.
  set (c := originate_command p b correlation g) in *. destruct (tenant_ok (env_tenant_id c)) eqn:Ht.
  2: { unfold pg_submit. match goal with |- lines_ok (snd (tenant_transaction ?t ?m d)) => by destruct (tenant_refused t m d Ht) as [x ->] end. }
  rewrite pg_submit_cases in * by done. destruct (negb _); [done|].
  destruct (existing_rows c d) as [|r [|]] eqn:He; [|by destruct (negb _)|done]. destruct (outbox_conflict _ _ _ _); [done|].
  specialize (Hchk eq_refl). cbn [snd] in *. set (d' := inserted d now c CLIENT_ID TEMPORAL_COMMAND_DESTINATION None None) in *.
  set (k0 := (env_tenant_id c, env_command_id c)). set (r0 := new_command_row c CLIENT_ID now).
  assert (Hrows : forall k r', db_commands d' !! k = Some r' -> k = k0 /\ r' = r0 \/ k <> k0 /\ db_commands d !! k = Some r').
  { intros k r' Hr'. unfold d', inserted in Hr'. cbn in Hr'. destruct (decide (k = k0)) as [->|Hne].
    - rewrite lookup_insert_eq in Hr'. left. split; [done|]. by injection Hr' as <-.
    - rewrite lookup_insert_ne in Hr' by done. by right. }
  assert (Hnew : forall t k r', db_commands d !! k = Some r' -> originates t r0 = true -> originates t r' = true ->
    ~ share GRANT_PATH r0 r' /\ (call_over d' k r' = false -> ~ share EMPLOYEE_PATH r0 r' /\ ~ share EXTENSION_PATH r0 r')).
  { intros t k r' Hr' Ho0 Ho. destruct (call_row_names p b correlation g now) as (Hg0 & He0 & Hx0 & Ht0).
    apply Ht0 in Ho0. subst t. destruct (checks_lines clock p b g d k r' Hchk Hr' Ho) as [Hg Hline]. split.
    - intros (v & Hv1 & Hv2). apply Hg. unfold r0, c in Hv1. congruence.
    - intros Hov. assert (Hov' : call_over d k r' = false).
      { apply not_true_is_false. intros Hov'. destruct (over_moves d d' k r' Hi Hm Hr' Hov') as [_ ?]. congruence. }
      split; intros (v & Hv1 & Hv2); unfold r0, c in Hv1; rewrite Hline in Hov'; try done; [left|right]; congruence. }
  intros t k1 k2 r1 r2 H1 H2 Ho1 Ho2 Hne.
  destruct (Hrows _ _ H1) as [[-> ->]|[Hn1 H1']], (Hrows _ _ H2) as [[-> ->]|[Hn2 H2']]; [done| | |].
  - destruct (Hnew t k2 r2 H2' Ho1 Ho2) as [Hg Hs]. split; [done|]. intros _ Hov. by apply Hs.
  - destruct (Hnew t k1 r1 H1' Ho2 Ho1) as [Hg Hs]. split; [intros ?%share_sym; by apply Hg|]. intros Hov _. destruct (Hs Hov) as [He1 Hx1].
    split; intros ?%share_sym; [by apply He1|by apply Hx1].
  - destruct (Hl t k1 k2 r1 r2 H1' H2' Ho1 Ho2 Hne) as [Hg Hs]. split; [done|]. intros Hov1 Hov2. apply Hs; apply not_true_is_false; intros Hov.
    + destruct (over_moves d d' k1 r1 Hi Hm H1' Hov) as [_ ?]. congruence.
    + destruct (over_moves d d' k2 r2 Hi Hm H2' Hov) as [_ ?]. congruence.
Qed.

Lemma history_lines w w' : tw_history aware w w' -> ids_ok (tw_db w) -> lines_ok (tw_db w) -> lines_ok (tw_db w').
Proof.
  induction 1 as [w|w1 w2 w3 Hs _ IH]; [done|]. intros Hi Hl. apply IH; [by apply (tw_step_moves aware _ _ Hs)|].
  destruct Hs as [d Hd|pols clock now p b correlation g|q n d Hc|n Hn|t]; [| | |done|done].
  - apply (quiet_lines (tw_db w1)); [done|by apply (db_step_moves aware)|done].
  - rewrite on_db_run. by apply originate_lines.
  - apply (quiet_lines (tw_db w1)); [done| |done]. pose proof (claim_moves false q (tw_db w1)) as Hm. by rewrite Hc in Hm.
Qed.

Lemma empty_ids : ids_ok empty_db.
Proof. by split. Qed.

(** C10: starting from an empty ledger, after any history of originations, submissions,
    transitions, operators' requests and activities, two calls of a tenant never carry the
    same authorization, and two calls of one employee or on one extension are never
    both live: unless one of them was cancelled or completed with evidence of its end. *)
Theorem one_live_call now w t k1 k2 r1 r2 : tw_history aware (mkTW empty_db now [] []) w ->
  db_commands (tw_db w) !! k1 = Some r1 -> db_commands (tw_db w) !! k2 = Some r2 ->
  originates t r1 = true -> originates t r2 = true ->
  (share GRANT_PATH r1 r2 -> k1 = k2) /\
  (share EMPLOYEE_PATH r1 r2 \/ share EXTENSION_PATH r1 r2 -> k1 = k2 \/ call_over (tw_db w) k1 r1 = true \/ call_over (tw_db w) k2 r2 = true).
Proof.
  intros Hh H1 H2 Ho1 Ho2. assert (Hl : lines_ok (tw_db w)) by (apply (history_lines _ _ Hh empty_ids); by intros ? ? ? ? ? ?).
  destruct (decide (k1 = k2)) as [->|Hne]; [split; [done|by left]|]. destruct (Hl t k1 k2 r1 r2 H1 H2 Ho1 Ho2 Hne) as [Hg Hs].
  split; [by intros ?%Hg|]. intros Hsh. right. destruct (call_over (tw_db w) k1 r1); [by left|]. right.
  destruct (call_over (tw_db w) k2 r2); [done|]. destruct (Hs eq_refl eq_refl) as [He Hx]. by destruct Hsh as [?%He|?%Hx].
Qed.
End Lines.

Module CallExample.
#[local] Existing Instance reference_externals.
Definition at_ (t : Z) (text : string) : AwareDatetime := {| ad_instant := Clock.seconds t; ad_text := text |}.
Definition agent : CallPrincipal := Build_CallPrincipal "tenant-a" "subject-1" "employee-1" "TEST_SYN" "unit-1" "6901".
Definition request (key : string) : OriginateRequest := {|
  or_employee_id := "employee-1"; or_campaign := "TEST_SYN"; or_business_unit := "unit-1"; or_destination := "internal:ECHO_TEST";
  or_destination_class := "internal_test"; or_destination_country := "US"; or_destination_timezone := "UTC";
  or_caller_id := "+15550001111"; or_lead_model := "crm.lead"; or_lead_id := 7; or_recording_requested := false;
  or_idempotency_key := key |}.
Definition grant (reference : string) : CallingGrant := {|
  gr_authorization_reference := reference; gr_principal := agent; gr_destination := "internal:ECHO_TEST"; gr_caller_id := "+15550001111";
  gr_lead_id := 7; gr_not_before := at_ 0 "1970-01-01T00:00:00Z"; gr_expires_at := at_ 600 "1970-01-01T00:10:00Z";
  gr_source_sha := "0123456789abcdef0123456789abcdef01234567" |}.
Definition registry : CommandPolicyRegistry := make_registry
  [{| prefix := INTERNAL_PREFIX; policy_target := TARGET; policy_capability := CAPABILITY; readback_required := true |}] ∅.

Definition originated (key reference : string) (w : TW) : outcome CommandOperation * TW :=
  on_db (call_originate registry (Clock.seconds 5) (tw_now w) agent (request key) ("corr-" +:+ key) (grant reference)) w.
Definition new_world : TW := mkTW empty_db 1000 [] [].
Definition world1 : TW := snd (originated "call-key-1" "grant-1" new_world).
Definition call_key (key : string) : Key := ("tenant-a", operation_identity agent key).
Definition world2 : TW :=
  set_tw_db (snd (pg_mutate_operation 1001 "tenant-a" (operation_identity agent "call-key-1") act_cancel "subject-1" "cancel-key-1" 1 "agent left" None (tw_db world1))) world1.
Definition world3 : TW := snd (originated "call-key-2" "grant-2" world2).

Lemma originated_step w key reference : tw_step (fun _ => None) w (snd (originated key reference w)).
Proof. exact (ts_originate _ w registry (Clock.seconds 5) (tw_now w) agent (request key) ("corr-" +:+ key) (grant reference)). Qed.

Lemma history3 : tw_history (fun _ => None) new_world world3.
Proof.
  assert (Hc : tw_step (fun _ => None) world1 world2).
  { unfold world2. apply ts_ledger. apply ds_mutate. }
  apply (rtc_l _ _ world1); [exact (originated_step new_world "call-key-1" "grant-1")|].
  apply (rtc_l _ _ world2); [exact Hc|]. apply rtc_once. exact (originated_step world2 "call-key-2" "grant-2").
Qed.

(** the second call of the agent while the first is live, and one on a spent authorization *)
Example second_live_call : fst (originated "call-key-2" "grant-2" world1) =
  Exc (Exn CommandConflict "agent already has an active or unknown call").
Proof. vm_compute. reflexivity. Qed.
Example spent_grant : fst (originated "call-key-2" "grant-1" world2) =
  Exc (Exn CommandConflict "single-call authorization was already consumed").
Proof. vm_compute. reflexivity. Qed.
End CallExample.

Lemma one_live_call_witness : exists k1 k2 r1 r2, k1 <> k2 /\
  db_commands (tw_db CallExample.world3) !! k1 = Some r1 /\ db_commands (tw_db CallExample.world3) !! k2 = Some r2 /\
  share EMPLOYEE_PATH r1 r2 /\ ~ share GRANT_PATH r1 r2 /\
  (call_over (tw_db CallExample.world3) k1 r1 = true \/ call_over (tw_db CallExample.world3) k2 r2 = true).
Proof.
  assert (Hr : exists r1 r2, db_commands (tw_db CallExample.world3) !! CallExample.call_key "call-key-1" = Some r1 /\
    db_commands (tw_db CallExample.world3) !! CallExample.call_key "call-key-2" = Some r2 /\
    originates "tenant-a" r1 = true /\ originates "tenant-a" r2 = true /\
    row_text EMPLOYEE_PATH r1 = Some "employee-1" /\ row_text EMPLOYEE_PATH r2 = Some "employee-1").
  { eexists _, _. split; [vm_compute; reflexivity|]. split; [vm_compute; reflexivity|]. repeat split. }
  destruct Hr as (r1 & r2 & H1 & H2 & Ho1 & Ho2 & He1 & He2).
  assert (Hne : CallExample.call_key "call-key-1" <> CallExample.call_key "call-key-2") by (vm_compute; congruence).
  pose proof (@one_live_call reference_externals (fun _ => None) 1000 CallExample.world3 "tenant-a" _ _ r1 r2 CallExample.history3 H1 H2 Ho1 Ho2) as [Hg Hs].
  exists (CallExample.call_key "call-key-1"), (CallExample.call_key "call-key-2"), r1, r2.
  assert (Hsh : share EMPLOYEE_PATH r1 r2) by (exact (ex_intro _ "employee-1" (conj He1 He2))).
  refine (conj Hne (conj H1 (conj H2 (conj Hsh (conj (fun H => Hne (Hg H)) _))))).
  destruct (Hs (or_introl Hsh)) as [Heq|Hov]; [exact (False_ind _ (Hne Heq))|exact Hov].
Defined.
