(* ===== verification/TemporalProps.v ===== *)
(** * Properties of the durable execution

    What a run of a workflow asked and was answered ([runs]), the claim that lets
    one attempt of a call be sent once, and what the activities leave in the
    ledger. *)

From stdpp Require Import relations.
From S2P Require Import Prelude Json PyValue Clock Sha256 Uuid Commands LedgerSpec Ledger LedgerFacts.
From S2P Require Import Canary Outbox PgLedger PgLedgerFacts PgHistory Calling Temporal.
From S2P Require Import TemporalHistory.
Local Open Scope Z_scope.
#[local] Opaque sha256_hex canonical_sha256 uuid_str provider_evidence_digest.

(** ** Runs of a workflow program

    [runs w h o]: answered as the history [h] says, [w] ends with [o]; nothing is
    assumed of the answers. *)
Inductive runs {A} : Wf A -> list (ActivityCall * outcome ActivityResult) -> outcome A -> Prop :=
  | runs_done o : runs (Done o) [] o
  | runs_do c k r h o : runs (k r) h o -> runs (Do c k) ((c, r) :: h) o
  | runs_sleep d w h o : runs w h o -> runs (Sleep d w) h o
  | runs_await k a h o : runs (k a) h o -> runs (Await k) h o.

(** the server's runs are runs *)
Lemma run_workflow_runs {W A} (perform : ActivityCall -> M W ActivityResult) (w : Wf A) fates approval s :
  exists h, runs w h (fst (run_workflow perform w fates approval s)).
Proof.
  revert fates s. induction w as [o|c k IH|d w IH|k IH]; intros fates s; simpl.
  - eexists. constructor.
  - destruct (attempt_activity perform _ _ c s) as [r s']. destruct (IH r (tl fates) s') as [h Hh]. eexists. by constructor.
  - destruct (IH fates s) as [h Hh]. eexists. by constructor.
  - destruct (IH approval fates s) as [h Hh]. eexists. by econstructor.
Qed.

Lemma runs_bind {A B} (m : Wf A) (k : A -> Wf B) h o : runs (wf_bind m k) h o ->
  (exists a h1 h2, runs m h1 (Ret a) /\ runs (k a) h2 o /\ h = h1 ++ h2) \/ (exists e, runs m h (Exc e) /\ o = Exc e).
Proof.
  revert h o. induction m as [r|c f IH|d m IH|f IH]; intros h o H; simpl in H.
  - destruct r as [a|e]; [left; by exists a, [], h; split; [constructor|]|]. inversion H; subst. right. exists e. by split; [constructor|].
  - inversion H as [|c' k' r h' o' Hr| |]; subst. destruct (IH r _ _ Hr) as [(a & h1 & h2 & H1 & H2 & ->)|(e & H1 & ->)].
    + left. exists a, ((c, r) :: h1), h2. split_and!; [by constructor|done|done].
    + right. exists e. by split; [constructor|].
  - inversion H as [| |d' w' h' o' Hr|]; subst. destruct (IH _ _ Hr) as [(a & h1 & h2 & H1 & H2 & ->)|(e & H1 & ->)].
    + left. exists a, h1, h2. split_and!; [by constructor|done|done].
    + right. exists e. by split; [constructor|].
  - inversion H as [| | |k' a h' o' Hr]; subst. destruct (IH a _ _ Hr) as [(b & h1 & h2 & H1 & H2 & ->)|(e & H1 & ->)].
    + left. exists b, h1, h2. split_and!; [by econstructor|done|done].
    + right. exists e. by split; [econstructor|].
Qed.

Lemma runs_do_inv {A} c (k : outcome ActivityResult -> Wf A) h o : runs (Do c k) h o ->
  exists r h', h = (c, r) :: h' /\ runs (k r) h' o.
Proof. inversion 1; subst. eauto. Qed.
Lemma runs_done_inv {A} (r o : outcome A) h : runs (Done r) h o -> h = [] /\ o = r.
Proof. by inversion 1. Qed.

(** one activity, then the rest *)
Lemma runs_activity {B} c (k : ActivityResult -> Wf B) h o : runs (wf_bind (activity c) k) h o ->
  exists r h', h = (c, r) :: h' /\ match r with Ret x => runs (k x) h' o | Exc e => h' = [] /\ o = Exc e end.
Proof.
  intros (r & h' & -> & H)%runs_do_inv. exists r, h'. split; [done|]. destruct r as [x|e]; [done|]. by apply runs_done_inv in H.
Qed.
Lemma runs_check {B} (c : outcome unit) (k : Wf B) h o : runs (wf_bind (Done c) (fun _ => k)) h o ->
  (c = Ret tt /\ runs k h o) \/ (exists e, c = Exc e /\ h = [] /\ o = Exc e).
Proof. destruct c as [[]|e]; [by left|]. intros [-> ->]%runs_done_inv. right. eauto. Qed.

(** the transitions a history asks for, in order *)
Definition requested (h : list (ActivityCall * outcome ActivityResult)) : list CommandState :=
  omap (fun x => match fst x with record_command_transition r => Some (tr_new_state r) | _ => None end) h.
(** the executions it asks for *)
Definition executions (h : list (ActivityCall * outcome ActivityResult)) : nat :=
  length (List.filter (fun x => match fst x with execute_command _ => true | _ => false end) h).

(** each is a transition of the table from the one before *)
Fixpoint follows (prev : CommandState) (l : list CommandState) : Prop :=
  match l with [] => True | st :: l' => st ∈ ALLOWED_COMMAND_TRANSITIONS prev /\ follows st l' end.

Section Execution.
Context (iso_instant : string -> option instant) (aware : json -> option AwareDatetime).

(** what confirms a matched read-back before the command is completed *)
Definition confirmed_by (q : CommandExecutionRequest) (executed readback : ActivityResult) (evidence : option jdict) : Prop :=
  if calling q then exists d, evidence = Some d /\
    observed_call aware q (ar_provider_operation_id executed) (ar_readback_evidence readback) true = Ret d
  else match dict_get (rq_target q) TARGET_CHANNELS, dict_get "canary" (rq_payload q) with
       | Some _, Some (JObj canary) => exists d, evidence = Some d /\
           canary_evidence iso_instant aware q canary (ar_readback_evidence readback) = Ret d
       | _, _ => evidence = None
       end.

(** the transition that completes the command *)
Definition completion (q : CommandExecutionRequest) (executed : ActivityResult) (evidence : option jdict) : ActivityCall :=
  record_command_transition (transition_request q completed "provider read-back matched durable command intent"
    (ar_provider_operation_id executed) evidence).

(** how the last part of a run may end: at most one transition, none but to a
    reconciliation or a confirmed completion *)
Record ends (q : CommandExecutionRequest) (executed readback : ActivityResult) (h : list (ActivityCall * outcome ActivityResult))
    (o : outcome WorkflowOutcome) : Prop := {
  en_requests : requested h = [] \/ requested h = [completed] \/ requested h = [reconciliation_required];
  en_executions : executions h = 0%nat;
  en_status : forall x, o = Ret x -> wo_status x = "reconciliation_required" \/
    exists evidence r, confirmed_by q executed readback evidence /\ last h = Some (completion q executed evidence, Ret r);
}.

Lemma park_runs q reason provider evidence detail executed readback h o :
  runs (park q reason provider evidence detail) h o ->
  ends q executed readback h o /\ requested h = [reconciliation_required] /\
  forall x, o = Ret x -> wo_status x = "reconciliation_required".
Proof.
  intros (r & h' & -> & H)%runs_activity. destruct r as [x|e].
  - apply runs_done_inv in H as [-> ->]. split_and!; [|done|by intros ? [= <-]]. split; [by right; right|done|]. intros ? [= <-]. by left.
  - destruct H as [-> ->]. split_and!; [|done..]. split; [by right; right|done..].
Qed.

Lemma stuck_runs q executed readback e h (o : outcome WorkflowOutcome) : runs (Done (Exc e)) h o -> ends q executed readback h o.
Proof. intros [-> ->]%runs_done_inv. split; [by left|done..]. Qed.

Lemma complete_runs q executed readback evidence h o : confirmed_by q executed readback evidence ->
  runs (complete q executed readback evidence) h o -> ends q executed readback h o.
Proof.
  intros Hc (r & h' & -> & H)%runs_activity. destruct r as [x|e].
  - apply runs_done_inv in H as [-> ->]. split; [by right; left|done|]. intros ? [= <-]. right. by exists evidence, x.
  - destruct H as [-> ->]. split; [by right; left|done..].
Qed.

Lemma ends_after q executed readback h o c r : requested [(c, r)] = [] -> executions [(c, r)] = 0%nat ->
  ends q executed readback h o -> h <> [] \/ (forall x, o = Ret x -> wo_status x = "reconciliation_required") ->
  ends q executed readback ((c, r) :: h) o.
Proof.
  intros Hr He [H1 H2 H3] Hne. assert (Hq : requested ((c, r) :: h) = requested h) by (unfold requested in *; simpl in *; by destruct c).
  assert (Hx : executions ((c, r) :: h) = executions h) by (unfold executions in *; simpl in *; by destruct c).
  split; [by rewrite Hq|by rewrite Hx|]. intros x Ho. destruct (H3 x Ho) as [|(ev & y & Hc & Hl)]; [by left|]. right. exists ev, y.
  split; [done|]. rewrite last_cons, Hl. done.
Qed.

Lemma confirm_runs q executed readback h o : runs (confirm iso_instant aware q executed readback) h o -> ends q executed readback h o.
Proof.
  unfold confirm. destruct (calling q) eqn:Hq.
  - destruct (observed_call _ _ _ _ _) as [d|e] eqn:Ho.
    + assert (Hc : confirmed_by q executed readback (Some d)) by (unfold confirmed_by; rewrite Hq; eauto).
      destruct (String.eqb (rq_command_type q) HANGUP); [|by apply complete_runs].
      intros (r & h' & -> & H)%runs_do_inv. destruct r as [x|e]; simpl in H.
      * apply ends_after; [done..| |]; [by eapply complete_runs|]. left.
        by apply runs_activity in H as (r & h2 & -> & _).
      * apply runs_done_inv in H as [-> ->]. split; [by left|done..].
    + destruct (contract_refusal e); [by intros [? _]%(park_runs _ _ _ _ _ executed readback)|by apply stuck_runs].
  - assert (Hn : forall ev, (match dict_get (rq_target q) TARGET_CHANNELS, dict_get "canary" (rq_payload q) with
       | Some _, Some (JObj canary) => exists d, ev = Some d /\
           canary_evidence iso_instant aware q canary (ar_readback_evidence readback) = Ret d
       | _, _ => ev = None
       end) -> confirmed_by q executed readback ev) by (unfold confirmed_by; by rewrite Hq).
    destruct (dict_get (rq_target q) TARGET_CHANNELS) as [ch|]; [|apply complete_runs; by apply Hn].
    destruct (dict_get "canary" (rq_payload q)) as [v|]; [|apply complete_runs; by apply Hn].
    destruct v as [| | | | | |canary]; try (apply complete_runs; by apply Hn).
    destruct (canary_evidence _ _ _ _ _) as [d|e] eqn:He; [apply complete_runs, Hn; eauto|].
    destruct (contract_refusal e); [by intros [? _]%(park_runs _ _ _ _ _ executed readback)|by apply stuck_runs].
Qed.

Lemma unmatched_runs q executed readback h o : runs (unmatched aware q executed readback) h o ->
  ends q executed readback h o /\ forall x, o = Ret x -> wo_status x = "reconciliation_required".
Proof.
  assert (Hp : forall reason provider evidence detail, runs (park q reason provider evidence detail) h o ->
    ends q executed readback h o /\ forall x, o = Ret x -> wo_status x = "reconciliation_required")
    by (intros * (? & _ & ?)%(park_runs _ _ _ _ _ executed readback); done).
  unfold unmatched. destruct (calling q); [|apply Hp]. destruct (observed_call _ _ _ _ _) as [d|e]; [apply Hp|].
  destruct (contract_refusal e); [apply Hp|]. intros H. split; [by eapply stuck_runs|]. by apply runs_done_inv in H as [_ ->].
Qed.

(** a run as the property wants it, from a point where the command is in [st] *)
Record run_ok (q : CommandExecutionRequest) (st : CommandState) (budget : nat) (h : list (ActivityCall * outcome ActivityResult))
    (o : outcome WorkflowOutcome) : Prop := {
  rk_requests : follows st (requested h);
  rk_executions : (executions h <= budget)%nat;
}.

(** completion, and what came before it *)
Definition confirmed_completion (q : CommandExecutionRequest) (executed : ActivityResult) (h : list (ActivityCall * outcome ActivityResult)) : Prop :=
  exists readback evidence r, (readback_command q, Ret readback) ∈ h /\ ar_status readback = "matched" /\
    confirmed_by q executed readback evidence /\ last h = Some (completion q executed evidence, Ret r).

Lemma requested_cons c r h : requested ((c, r) :: h) =
  match c with record_command_transition t => tr_new_state t :: requested h | _ => requested h end.
Proof. unfold requested. simpl. by destruct c. Qed.
Lemma executions_cons c r h : executions ((c, r) :: h) =
  match c with execute_command _ => S (executions h) | _ => executions h end.
Proof. unfold executions. simpl. by destruct c. Qed.

(** one transition, then the rest *)
Lemma runs_transition q st reason provider evidence k h (o : outcome WorkflowOutcome) :
  runs (wf_bind (command_transition q st reason provider evidence) (fun _ => k)) h o ->
  exists r h', h = (record_command_transition (transition_request q st reason provider evidence), r) :: h' /\
    requested h = st :: requested h' /\ executions h = executions h' /\
    match r with Ret _ => runs k h' o | Exc e => h' = [] /\ o = Exc e end.
Proof. intros (r & h' & -> & H)%runs_activity. exists r, h'. rewrite requested_cons, executions_cons. by split_and!. Qed.

Lemma ends_follow st q executed readback h o : completed ∈ ALLOWED_COMMAND_TRANSITIONS st ->
  reconciliation_required ∈ ALLOWED_COMMAND_TRANSITIONS st -> ends q executed readback h o -> follows st (requested h).
Proof. intros H1 H2 [[->|[->| ->]] _ _]; by repeat split. Qed.

Ltac in_table := by (simpl; set_solver).

Lemma parked_ok q reason provider evidence detail st n h o : reconciliation_required ∈ ALLOWED_COMMAND_TRANSITIONS st ->
  runs (park q reason provider evidence detail) h o -> run_ok q st n h o /\ forall x, o = Ret x -> wo_status x <> "completed".
Proof.
  intros Hst (Hend & Hr & Hs)%(park_runs _ _ _ _ _ (result "" "") (result "" "")). destruct Hend as [_ He _].
  split; [split; [by rewrite Hr|lia]|]. intros x Ho. by rewrite (Hs x Ho).
Qed.

Lemma after_execution_runs q executed h o : runs (after_execution iso_instant aware q executed) h o ->
  run_ok q dispatching 0 h o /\ forall x, o = Ret x -> wo_status x = "completed" -> confirmed_completion q executed h.
Proof.
  unfold after_execution. destruct (bounded_originate q && _) eqn:Hc.
  { intros [-> ->]%runs_done_inv. split; [by split|]. intros ? [= <-] Hs. simpl in Hs.
    apply andb_true_iff in Hc as [_ Hc]. apply String.eqb_eq in Hc. congruence. }
  destruct (calling q && _).
  { intros [Hk Hs]%(parked_ok _ _ _ _ _ dispatching 0); [|in_table]. split; [done|]. intros x Ho Hx. by apply Hs in Ho. }
  intros (r & h1 & Hh & Hq & He & H)%runs_transition. destruct r as [x1|e1].
  2: { destruct H as [-> ->]. split; [|done]. split; [rewrite Hq; split; [in_table|done]|by rewrite He]. }
  apply runs_transition in H as (r & h2 & Hh1 & Hq1 & He1 & H). destruct r as [x2|e2].
  2: { destruct H as [-> ->]. split; [|done]. split; [rewrite Hq, Hq1; cbn [follows]; split_and!; [in_table|in_table|done]|by rewrite He, He1]. }
  apply runs_do_inv in H as (r & h3 & Hh2 & H).
  assert (Hq2 : requested h = accepted :: readback_pending :: requested h3) by (by rewrite Hq, Hq1, Hh2, requested_cons).
  assert (He2 : executions h = executions h3) by (by rewrite He, He1, Hh2, executions_cons).
  assert (Hgo : follows readback_pending (requested h3) -> executions h3 = 0%nat -> run_ok q dispatching 0 h o).
  { intros Hf Hz. split; [rewrite Hq2; cbn [follows]; split_and!; [in_table|in_table|done]|lia]. }
  destruct r as [readback|e].
  2: { destruct (activity_error e).
       - apply (parked_ok _ _ _ _ _ readback_pending 0) in H as [[Hf Hz] Hs]; [|in_table]. split; [apply Hgo; [done|lia]|].
         intros x Ho Hx. by apply Hs in Ho.
       - apply runs_done_inv in H as [-> ->]. split; [apply Hgo; [exact I|reflexivity]|done]. }
  assert (Hend : ends q executed readback h3 o).
  { clear Hgo. destruct (String.eqb (ar_status readback) "matched"); [by apply confirm_runs|by apply unmatched_runs]. }
  split; [apply Hgo; [|apply Hend]; by apply (ends_follow _ q executed readback h3 o); [in_table..|]|].
  intros x Ho Hx. destruct (String.eqb (ar_status readback) "matched") eqn:Hm.
  2: { apply unmatched_runs in H as [_ Hs]. rewrite (Hs x Ho) in Hx. done. }
  destruct (en_status _ _ _ _ _ Hend x Ho) as [Hs|(evidence & y & Hcf & Hl)]; [congruence|].
  exists readback, evidence, y. apply String.eqb_eq in Hm. split_and!; [|done|done|].
  - rewrite Hh, Hh1, Hh2. set_solver.
  - rewrite Hh, Hh1, Hh2, !last_cons, Hl. done.
Qed.

Lemma failed_runs q e h o : runs (execution_failed q e) h o ->
  run_ok q dispatching 0 h o /\ forall x, o = Ret x -> wo_status x <> "completed".
Proof.
  unfold execution_failed. destruct (bounded_originate q); [|by apply parked_ok; in_table].
  intros (r & h' & -> & H)%runs_activity. destruct r as [x|e'].
  2: { destruct H as [-> ->]. by split. }
  destruct (String.eqb (ar_status x) "cancelled").
  - apply runs_done_inv in H as [-> ->]. split; [done|]. by intros ? [= <-].
  - apply (parked_ok _ _ _ _ _ dispatching 0) in H as [[Hf Hz] Hs]; [|in_table]. split; [|done].
    split; [by rewrite requested_cons|by rewrite executions_cons].
Qed.

(** C3: a command is executed at most once in a run of its workflow, whatever its
    activities answer; the transitions the run asks for are steps of the ledger's table,
    starting where the command was; and a run that reports it completed executed
    it, read it back as matched, asked last for the completion with exactly the
    evidence that was validated (a call's terminal evidence, a canary's, none
    otherwise), and was answered. *)
Theorem completed_only_confirmed q h o : runs (execution_workflow iso_instant aware q) h o ->
  follows (if rq_resume_from_queued q then queued else persisted) (requested h) /\ (executions h <= 1)%nat /\
  forall x, o = Ret x -> wo_status x = "completed" ->
    exists executed, (execute_command q, Ret executed) ∈ h /\ confirmed_completion q executed h.
Proof.
  unfold execution_workflow. intros H. apply runs_check in H as [[_ H]|(e & _ & -> & ->)]; [|by split_and!; [|cbn; lia|]].
  apply runs_check in H as [[_ H]|(e & _ & -> & ->)]; [|by split_and!; [|cbn; lia|]].
  assert (Hgo : forall h0, runs (command_transition q dispatching "reserved command for one adapter execution attempt" None None !;;
      Do (execute_command q) (fun r => match r with Ret executed => after_execution iso_instant aware q executed
        | Exc e => if activity_error e then execution_failed q e else Done (Exc e) end)) h0 o ->
    follows queued (requested h0) /\ (executions h0 <= 1)%nat /\ forall x, o = Ret x -> wo_status x = "completed" ->
      exists executed, (execute_command q, Ret executed) ∈ h0 /\ confirmed_completion q executed h0).
  { clear h H. intros h (r & h1 & Hh & Hq & He & H)%runs_transition. destruct r as [x1|e1].
    2: { destruct H as [-> ->]. rewrite Hq, He. cbn [follows]; split_and!; [in_table|exact I|cbn; lia|done]. }
    apply runs_do_inv in H as (r & h2 & Hh1 & H). rewrite Hh1, requested_cons in Hq. rewrite Hh1, executions_cons in He.
    assert (Hk : run_ok q dispatching 0 h2 o /\ forall x, o = Ret x -> wo_status x = "completed" ->
        exists executed, r = Ret executed /\ confirmed_completion q executed h2).
    { destruct r as [executed|e].
      - apply after_execution_runs in H as [Hk Hs]. split; [done|]. intros x Ho Hx. exists executed. split; [done|by eapply Hs].
      - destruct (activity_error e).
        + apply failed_runs in H as [Hk Hs]. split; [done|]. intros x Ho Hx. by apply Hs in Ho.
        + apply runs_done_inv in H as [-> ->]. by split. }
    destruct Hk as [[Hf Hz] Hs]. rewrite Hq, He. cbn [follows]. split_and!; [in_table|done|lia|]. intros x Ho Hx.
    destruct (Hs x Ho Hx) as (executed & -> & readback & evidence & y & Hin & Hm & Hc & Hl). exists executed.
    split; [rewrite Hh, Hh1; set_solver|]. exists readback, evidence, y. split_and!; [rewrite Hh, Hh1; set_solver|done|done|].
    rewrite Hh, Hh1, !last_cons, Hl. done. }
  destruct (rq_resume_from_queued q); [by apply Hgo|]. simpl in H.
  apply runs_do_inv in H as (r & h1 & -> & H). rewrite requested_cons, executions_cons. destruct r as [x|e]; simpl in H.
  - destruct (Hgo h1 H) as (Hf & Hz & Hs). cbn [follows]; split_and!; [in_table|done|done|]. intros y Ho Hy.
    destruct (Hs y Ho Hy) as (executed & Hin & readback & evidence & z & Hin2 & Hm & Hc & Hl). exists executed.
    split; [set_solver|]. exists readback, evidence, z. split_and!; [set_solver|done|done|]. by rewrite last_cons, Hl.
  - apply runs_done_inv in H as [-> ->]. cbn [follows]; split_and!; [in_table|exact I|cbn; lia|done].
Qed.
End Execution.

(** ** A call is sent once *)

Section World.
Context `{Externals} (aware : json -> option AwareDatetime).
Abbreviation history := (tw_history aware).

(** C5: whatever workers, routes and operators do to the ledger, in any order, and
    whatever becomes of the attempts of the workflow that is run next (lost before
    they ran, lost after, delivered), the command of one attempt is handed to the call
    adapter at most once, and only after its claim was committed to the attempt. *)
Theorem calls_sent_once (iso_instant : string -> option instant) adapters faults q fates approval w0 w :
  (forall a x, adapter_of adapters x = Ret a -> within history (pa_execute a x) /\ within history (pa_readback a x)) ->
  ids_ok (tw_db w0) -> tw_tickets w0 = [] -> tw_sent w0 = [] -> history w0 w ->
  let w' := snd (run_workflow (perform aware adapters faults) (execution_workflow iso_instant aware q) fates approval w) in
  NoDup (tw_sent w') /\ forall n, n ∈ tw_sent w' -> holds_result n (db_attempts (tw_db w')).
Proof.
  intros Ha Hi Ht Hs Hh. pose proof (run_history aware adapters faults Ha (execution_workflow iso_instant aware q) fates approval w) as Hr.
  assert (Hc : claims_ok w0) by (split; rewrite ?Ht, ?Hs; [done|constructor|by intros n ?%elem_of_nil]).
  apply (history_claims aware _ _ Hh), (history_claims aware _ _ Hr) in Hc as [_ H2 H3]. split.
  - by apply NoDup_app in H2 as (_ & _ & ?).
  - intros n Hn. apply H3. apply elem_of_app. by right.
Qed.

(** ** A committed rejection *)

Lemma adapter_of_same adapters o q : rq_target o = rq_target q -> rq_command_type o = rq_command_type q ->
  adapter_of adapters o = adapter_of adapters q.
Proof. intros H1 H2. unfold adapter_of, calling. by rewrite H1, H2. Qed.

(** C21: once it is committed that a call was refused before anything was sent, every
    later execution of the command, after any history, answers with that cancellation
    and sends nothing, and so does the recovery: the row stays cancelled. *)
Theorem rejection_final adapters faults now q d x a w0 w : ids_ok d -> rq_target q = TARGET -> adapter_of adapters q = Ret a ->
  record_rejection now q d = (Ret x, tw_db w0) -> history w0 w ->
  x = cancelled_unsent /\ execute_command_activity adapters faults q w = (Ret cancelled_unsent, w) /\
  recover_activity q (tw_db w) = (Ret cancelled_unsent, tw_db w) /\
  exists r, row_by_text (rq_tenant_id q) (rq_command_id q) (tw_db w) = Some r /\ c_state r = cancelled.
Proof.
  intros Hi Ht Ha Hrec Hh. unfold record_rejection in Hrec. unfold bind at 1 in Hrec.
  destruct (load_durable_request q d) as [[o|e] d1] eqn:Hl; [|done].
  apply load_durable_cases in Hl as (-> & He & k & r0 & Hk & Hr0 & Hload). destruct (bounded_originate o) eqn:Hb; [|done]. cbn [negb] in Hrec.
  apply request_eqb_key in He as (Et & Ec & Eg & Ey).
  destruct (reject_unsent_settles now o d x (tw_db w0) Hi Hrec) as (-> & k' & r & at_ & Hk' & Hst & Hn & Hp & r0' & Hr0' & Hpay & Hsha).
  rewrite Et, Ec, Hk in Hk'. injection Hk' as <-. apply (history_settled aware _ _ _ _ _ _ Hh) in Hst as [S1 S2 S3 S4 S5 S6].
  assert (Hnew : newest_attempt k (db_attempts (tw_db w)) = Some at_) by (unfold newest_attempt in *; by rewrite S5).
  assert (Hcan : committed_cancellation o (tw_db w) = (Ret (Some cancelled_unsent), tw_db w)).
  { unfold committed_cancellation, bind, gets. cbn [id]. rewrite Et, Ec, Hk, S2, Hnew. unfold ret. by rewrite Hp. }
  assert (Hlw : load_durable_request q (tw_db w) = (Ret o, tw_db w)) by (eapply Hload; [exact S2|congruence..]).
  split_and!; [done| | |].
  - unfold execute_command_activity. rewrite Ht, String.eqb_refl. unfold bind. rewrite (on_db_still _ _ w Hlw), (adapter_of_same adapters o q Eg Ey), Ha. unfold lift_outcome.
    rewrite (on_db_still _ (Ret None) w) by (apply (claim_refused o k); rewrite ?Et, ?Ec; done).
    by rewrite (on_db_still _ _ w Hcan).
  - unfold recover_activity, bind. rewrite Hlw, Hb. cbn [negb]. cbv beta. by rewrite Hcan.
  - exists r. unfold row_by_text. rewrite Hk. split; [done|]. unfold proven_unsent in Hp. rewrite !andb_true_iff, !bool_decide_eq_true in Hp.
    by destruct Hp as (((-> & _) & _) & _).
Qed.

(** ** A persisted verdict *)

(** the evidence a verdict persists *)
Definition verdict_evidence (r : ReconciliationRequest) (x : ActivityResult) : jdict :=
  persisted_evidence (ar_status x) (default (rc_operation_id r) (truthy_str (ar_provider_operation_id x))) (ar_readback_evidence x).

(** a completed row with committed evidence, and what a second verdict makes of it *)
Lemma second_verdict now r x digest k row committed la lu d : ar_status x = "matched" ->
  key_of_text (rc_tenant_id r) (rc_operation_id r) = Some k -> settled k row la lu d -> c_state row = completed ->
  newest_result k d = Some committed -> persisted_digest [completed] k (db_audit d) = Some (provider_evidence_digest committed) ->
  persist_result now r x digest d =
    (if String.eqb (provider_evidence_digest committed) (provider_evidence_digest (verdict_evidence r x))
     then Ret {| ar_status := "completed"; ar_detail := "provider read-back was already durably reconciled";
                 ar_provider_operation_id := c_provider_operation_id row; ar_readback_evidence := Some committed |}
     else Exc (reconciliation_rejected "replacement reconciliation evidence conflicts with the durable result"), d).
Proof.
  intros Hx Hk [_ Hr _ _ _ _] Hc Hn Hd. unfold persist_result, verdict_evidence. rewrite Hx. change (mem_string "matched" ["matched"; "mismatch"]) with true. cbn [negb].
  unfold transaction, bind, gets. cbn [id]. rewrite Hk, Hr, Hc. rewrite bool_decide_eq_true_2 by done. change (String.eqb "matched" "matched") with true. cbn [andb].
  unfold lift_outcome, committed_verdict. rewrite Hd. unfold newest_result in Hn. rewrite Hn. unfold verify_readback_evidence_digest.
  rewrite String.eqb_refl. cbn [negb]. by destruct (String.eqb _ _).
Qed.

Lemma persist_settles now r x digest d y d' : ids_ok d -> ar_status x = "matched" -> persist_result now r x digest d = (Ret y, d') ->
  (forall k, key_of_text (rc_tenant_id r) (rc_operation_id r) = Some k -> is_Some (newest_attempt k (db_attempts d))) ->
  exists k row committed, key_of_text (rc_tenant_id r) (rc_operation_id r) = Some k /\
    settled k row (attempts_of k (db_attempts d')) (audit_of k (db_audit d')) d' /\ c_state row = completed /\
    newest_result k d' = Some committed /\ persisted_digest [completed] k (db_audit d') = Some (provider_evidence_digest committed) /\
    provider_evidence_digest committed = provider_evidence_digest (verdict_evidence r x) /\
    ar_status y = "completed" /\ ar_provider_operation_id y = c_provider_operation_id row /\ ar_readback_evidence y = Some committed.
Proof.
  intros Hi Hx Hp Hat. pose proof (persist_moves true now r x digest d Hi) as Hm. rewrite Hp in Hm. simpl in Hm. revert Hp.
  unfold persist_result. rewrite Hx. change (mem_string "matched" ["matched"; "mismatch"]) with true. cbn [negb]. unfold transaction, bind, gets, modify. cbn [id].
  destruct (key_of_text _ _) as [k|] eqn:Hk; [|done]. destruct (db_commands d !! k) as [row|] eqn:Hr; [|done].
  destruct (Hat k eq_refl) as [a Ha]. destruct (bool_decide_reflect (c_state row = completed)) as [Hc|Hc]; change (String.eqb "matched" "matched") with true. cbn [andb].
  - (* already completed: the same evidence *)
    unfold lift_outcome, committed_verdict. destruct (persisted_digest [completed] k (db_audit d)) as [dg|] eqn:Hd; [|done].
    rewrite Ha. cbn [mbind option_bind]. destruct (a_result_payload a) as [e|] eqn:He; cbn [verify_readback_evidence_digest]; [|done].
    destruct (String.eqb_spec (provider_evidence_digest e) dg) as [<-|]; [|done]. cbn [negb].
    match goal with |- context [String.eqb ?p ?q] => destruct (String.eqb_spec p q) as [Heq|]; [|done] end. cbn [negb]. intros [= <- <-].
    exists k, row, e. split_and!; try done.
    + split; try done; [by unfold ended; rewrite Hc|]. unfold newest_result. rewrite Ha. simpl. by rewrite He.
    + unfold newest_result. by rewrite Ha.
    + rewrite Heq. unfold verdict_evidence. by rewrite Hx.
  - destruct (bool_decide_reflect (c_state row = reconciliation_required)) as [Hs|]; [|done]. cbn [negb].
    unfold lift_outcome. destruct (validated_command _ _ _) as [[q dg]|]; [|done]. destruct (negb _); [done|].
    destruct (String.eqb (rq_target q) TARGET && _); [done|]. intros [= <- <-].
    set (provider := default (rc_operation_id r) (truthy_str (ar_provider_operation_id x))).
    set (evidence := persisted_evidence "matched" provider (ar_readback_evidence x)).
    exists k, (verdict_row row true (str_take 2048 (ar_detail x)) (Some provider) now), evidence.
    assert (Hn : newest_attempt k (update_newest k (verdict_attempt completed (str_take 2048 (ar_detail x)) (Some provider) evidence now)
        (db_attempts d)) = Some (verdict_attempt completed (str_take 2048 (ar_detail x)) (Some provider) evidence now a)).
    { unfold update_newest. rewrite Ha. by apply newest_rewritten. }
    split_and!; try done.
    + split; [apply Hm|simpl; by rewrite lookup_insert_eq|done| |done|done]. unfold newest_result. simpl. rewrite Hn. by eexists.
    + unfold newest_result. simpl. by rewrite Hn.
    + simpl. rewrite persisted_digest_snoc by done. done.
    + unfold verdict_evidence. by rewrite Hx.
Qed.

(** C15: a verdict that matched is final: after any history, a second one with the same
    evidence is answered with what was committed, one with other evidence is refused
    as a conflict, and a mismatch is refused; none of them writes. *)
Theorem verdict_final now r x digest d y w0 w now' r' x' digest' : ids_ok d -> ar_status x = "matched" ->
  (forall k, key_of_text (rc_tenant_id r) (rc_operation_id r) = Some k -> is_Some (newest_attempt k (db_attempts d))) ->
  persist_result now r x digest d = (Ret y, tw_db w0) -> history w0 w ->
  rc_tenant_id r' = rc_tenant_id r -> rc_operation_id r' = rc_operation_id r ->
  persist_result now' r' x' digest' (tw_db w) =
    (if String.eqb (ar_status x') "matched" then
       if String.eqb (provider_evidence_digest (verdict_evidence r x)) (provider_evidence_digest (verdict_evidence r' x'))
       then Ret {| ar_status := "completed"; ar_detail := "provider read-back was already durably reconciled";
                   ar_provider_operation_id := ar_provider_operation_id y; ar_readback_evidence := ar_readback_evidence y |}
       else Exc (reconciliation_rejected "replacement reconciliation evidence conflicts with the durable result")
     else if String.eqb (ar_status x') "mismatch" then Exc (reconciliation_rejected "operation is no longer awaiting reconciliation")
     else Exc (app_error "ProviderReadbackContractError" "provider read-back returned an unsupported status"), tw_db w).
Proof.
  intros Hi Hx Hat Hp Hh Et Eo. destruct (persist_settles _ _ _ _ _ _ _ Hi Hx Hp Hat)
    as (k & row & e & Hk & Hst & Hc & Hn & Hd & He & _ & Hpr & Hev).
  apply (history_settled aware _ _ _ _ _ _ Hh) in Hst. rewrite <- He, Hpr, Hev.
  destruct (String.eqb_spec (ar_status x') "matched") as [Hx'|Hx'].
  - eapply (second_verdict now' r' x' digest' k row e); [done|by rewrite Et, Eo|exact Hst|done| |].
    + destruct Hst as [_ _ _ _ S5 _]. unfold newest_result, newest_attempt in *. by rewrite S5.
    + destruct Hst as [_ _ _ _ _ S6]. unfold persisted_digest in *. by rewrite S6.
  - destruct Hst as [_ S2 _ _ _ _]. unfold persist_result. rewrite Et, Eo. destruct (String.eqb_spec (ar_status x') "mismatch") as [Hm|Hm].
    + rewrite Hm. change (mem_string "mismatch" ["matched"; "mismatch"]) with true. cbn [negb]. unfold transaction, bind, gets. cbn [id]. rewrite Hk, S2, Hc. done.
    + assert (mem_string (ar_status x') ["matched"; "mismatch"] = false) as -> by (apply bool_decide_eq_false; rewrite !elem_of_cons, elem_of_nil; tauto). done.
Qed.
End World.
