(* ===== verification/WorkflowProps.v ===== *)
(** * Properties of whole workflows

    What the workflows of [Temporal] achieve on the ledger: a command runs to its
    completion when its provider confirms it; an answer lost after a transition was
    committed stops it; a provisioning is undone product by product; a submitted
    command is started once, as it was submitted. *)

From S2P Require Import Prelude Json PyValue Clock Sha256 Uuid Commands LedgerSpec Ledger LedgerFacts.
From S2P Require Import Canary Outbox PgLedger PgLedgerFacts PgHistory PgInboxProps Calling Temporal TemporalHistory.
From S2P Require Import LedgerInvariant TemporalProps CallingProps.
Local Open Scope Z_scope.
#[local] Opaque sha256_hex canonical_sha256 uuid_str provider_evidence_digest.

Section Ledger.
Context `{Externals} (aware : json -> option AwareDatetime).

(** ** The transition activity on the ledger's view *)

Definition transition_key (r : CommandTransitionRequest) : option Key := u ← uuid_parse (tr_command_id r); Some (tr_tenant_id r, u).

Lemma record_transition_spec now r k d : transition_key r = Some k -> db_ok d -> tenant_ok (tr_tenant_id r) = true ->
  tr_readback_evidence r = None \/ tr_new_state r = completed ->
  match pg_spec_transition (db_view d k) (tr_new_state r) (tr_provider_operation_id r) (tr_readback_evidence r) None with
  | Ret x => exists y d', record_transition aware now r d = (Ret y, d') /\ db_ok d' /\ pg_upd d d' k x
  | Exc e => transition_refusal e = true ->
      record_transition aware now r d = (Exc (app_error "CommandTransitionRejected" (exn_msg e)), d)
  end.
Proof.
  intros Hk Hok Ht He. unfold transition_key in Hk. destruct (uuid_parse (tr_command_id r)) as [u|] eqn:Hu; [|done]. simpl in Hk. injection Hk as <-.
  pose proof (pg_transition_refines d now (tr_tenant_id r) u (tr_new_state r) (tr_actor_id r) (tr_reason r) (tr_provider_operation_id r)
    (tr_readback_evidence r) None Hok Ht) as Hr. unfold pg_implements in Hr.
  assert (Hrun : forall d, record_transition aware now r d = bind (catch_ transition_refusal
      (pg_transition now (tr_tenant_id r) u (tr_new_state r) (tr_actor_id r) (tr_reason r) (tr_provider_operation_id r) (tr_readback_evidence r) None)
      (fun e => reraise (app_error "CommandTransitionRejected" (exn_msg e))))
      (fun o => ret {| ar_status := state_name (op_state o); ar_detail := tr_reason r;
         ar_provider_operation_id := op_provider_operation_id o; ar_readback_evidence := op_readback_evidence o |}) d).
  { intros d0. unfold record_transition. rewrite Hu. destruct He as [->|Hs]; [done|]. destruct (tr_readback_evidence r) as [ev|]; [|done].
    by rewrite bool_decide_eq_false_2 by (by rewrite Hs). }
  destruct (pg_spec_transition _ _ _ _ _) as [x|e].
  - destruct Hr as (o & d' & Hr & _ & Hok' & Hupd). eexists _, d'. split; [|done]. rewrite Hrun. unfold bind, catch_. by rewrite Hr.
  - intros He'. rewrite Hrun. unfold bind, catch_. by rewrite Hr, He'.
Qed.

(** no state is followed by itself *)
Lemma no_self_transition st : state_in st (ALLOWED_COMMAND_TRANSITIONS st) = false.
Proof. by destruct st. Qed.

Lemma spec_transition_again x x' st provider evidence : pg_spec_transition (Some x) st provider evidence None = Ret x' ->
  exists e, pg_spec_transition (Some x') st provider evidence None = Exc e /\ transition_refusal e = true.
Proof.
  unfold pg_spec_transition, spec_transition. destruct (_ && _); [done|]. simpl. destruct (negb _); [done|]. intros [= <-]. simpl.
  rewrite no_self_transition. simpl. by eexists.
Qed.

Context (adapters : Adapters) (faults : list Fault).
Abbreviation act := (perform aware adapters faults).

(** a transition is not repeatable: when the answer of one that was committed is lost,
    its next attempt is refused for good, the activity fails, and the command stays in
    the state the workflow believes it did not reach. *)
Lemma lost_answer_fails r k x x' w fates n : (2 <= n)%nat -> transition_key r = Some k -> db_ok (tw_db w) -> tenant_ok (tr_tenant_id r) = true ->
  tr_readback_evidence r = None \/ tr_new_state r = completed -> db_view (tw_db w) k = Some x ->
  pg_spec_transition (Some x) (tr_new_state r) (tr_provider_operation_id r) (tr_readback_evidence r) None = Ret x' ->
  exists d', attempt_activity act n (answer_lost :: delivered :: fates) (record_command_transition r) w = (Exc activity_failed, set_tw_db d' w) /\
    db_ok d' /\ pg_upd (tw_db w) d' k x'.
Proof.
  intros Hn Hk Hok Ht He Hx Hs. pose proof (record_transition_spec (tw_now w) r k (tw_db w) Hk Hok Ht He) as Hr. rewrite Hx, Hs in Hr.
  destruct Hr as (y & d' & Hr & Hok' & Hupd). exists d'. split; [|done]. destruct n as [|[|n]]; [lia|lia|]. cbn [attempt_activity hd tl].
  assert (Ha : forall w0, act (record_command_transition r) w0 = on_db (record_transition aware (tw_now w0) r) w0) by done.
  assert (H1 : act (record_command_transition r) w = (Ret y, set_tw_db d' w)) by (by rewrite Ha, on_db_run, Hr).
  destruct (spec_transition_again _ _ _ _ _ Hs) as (e & Hs' & He').
  pose proof (record_transition_spec (tw_now w) r k d' Hk Hok' Ht He) as Hr'. destruct Hupd as [Hv _]. rewrite Hv, Hs' in Hr'.
  assert (H2 : act (record_command_transition r) (set_tw_db d' w) = (Exc (app_error "CommandTransitionRejected" (exn_msg e)), set_tw_db d' w)).
  { rewrite Ha. apply on_db_still. by apply Hr'. }
  rewrite H1. cbn [snd]. by rewrite H2.
Qed.

(** ** A command that runs to its end *)

Lemma attempt_calm n j c w x w' : (j < n)%nat -> act c w = (Ret x, w') -> attempt_activity act n (replicate j never_ran) c w = (Ret x, w').
Proof.
  revert n. induction j as [|j IH]; intros [|n] Hj Hc; try lia; cbn [attempt_activity replicate hd tl]; [by rewrite Hc|]. apply IH; [lia|done].
Qed.

Lemma run_calm {A} c (k : outcome ActivityResult -> Wf A) j fates approval w x w' : (j < maximum_attempts c)%nat -> act c w = (Ret x, w') ->
  run_workflow act (Do c k) (replicate j never_ran :: fates) approval w = run_workflow act (k (Ret x)) fates approval w'.
Proof. intros Hj Hc. cbn [run_workflow hd tl]. by rewrite (attempt_calm _ _ _ _ _ _ Hj Hc). Qed.

Lemma spec_transition_moves x st provider evidence : state_in st (ALLOWED_COMMAND_TRANSITIONS (v_state (pv_core x))) = true ->
  evidence = None \/ st = completed -> pg_spec_transition (Some x) st provider evidence None = Ret (pg_moved x st provider evidence).
Proof. intros Ha He. unfold pg_spec_transition, spec_transition. destruct He as [->| ->]; simpl; [|rewrite andb_false_r]; by rewrite Ha. Qed.

(** one transition of a run, its key in the state before *)
Lemma run_transition {A} q st reason provider evidence (f : outcome ActivityResult -> Wf A) j fates approval w u x : (j < 5)%nat ->
  uuid_parse (rq_command_id q) = Some u -> tenant_ok (rq_tenant_id q) = true -> db_ok (tw_db w) -> db_view (tw_db w) (rq_tenant_id q, u) = Some x ->
  state_in st (ALLOWED_COMMAND_TRANSITIONS (v_state (pv_core x))) = true -> evidence = None \/ st = completed ->
  exists y d', db_ok d' /\ pg_upd (tw_db w) d' (rq_tenant_id q, u) (pg_moved x st provider evidence) /\
    run_workflow act (Do (record_command_transition (transition_request q st reason provider evidence)) f) (replicate j never_ran :: fates) approval w =
    run_workflow act (f (Ret y)) fates approval (set_tw_db d' w).
Proof.
  intros Hj Hu Ht Hok Hx Ha He. set (r := transition_request q st reason provider evidence).
  assert (Hk : transition_key r = Some (rq_tenant_id q, u)) by (unfold transition_key; simpl; by rewrite Hu).
  pose proof (record_transition_spec (tw_now w) r _ (tw_db w) Hk Hok Ht He) as Hr. simpl in Hr. rewrite Hx, spec_transition_moves in Hr by done.
  destruct Hr as (y & d' & Hr & Hok' & Hupd). exists y, d'. split_and!; [done..|]. apply run_calm; [done|].
  assert (Hact : act (record_command_transition r) w = on_db (record_transition aware (tw_now w) r) w) by done. by rewrite Hact, on_db_run, Hr.
Qed.

Lemma pg_upd_trans d1 d2 d3 k x2 x3 : pg_upd d1 d2 k x2 -> pg_upd d2 d3 k x3 -> pg_upd d1 d3 k x3.
Proof. intros [_ H12] [H3 H23]. split; [done|]. intros k' Hne. by rewrite H23, H12. Qed.

Context (iso_instant : string -> option instant).

(** what [confirm] does with a confirmed read-back that is not a call's *)
Lemma confirm_completes q executed readback evidence : calling q = false -> confirmed_by iso_instant aware q executed readback evidence ->
  confirm iso_instant aware q executed readback = complete q executed readback evidence.
Proof.
  intros Hc. unfold confirmed_by, confirm. rewrite Hc. destruct (dict_get (rq_target q) TARGET_CHANNELS) as [ch|]; [|by intros ->].
  destruct (dict_get "canary" (rq_payload q)) as [v|]; [|by intros ->]. destruct v as [| | | | | |canary]; try (by intros ->).
  by intros (ev & -> & ->).
Qed.

(** the next transition of a run whose command shows [x] *)
Ltac advance x Hu Ht Hok Hx :=
  match goal with
  | |- context [run_workflow _ (Do (record_command_transition (transition_request ?q ?st ?re ?p ?ev)) ?k) (replicate ?j never_ran :: ?fs) ?ap ?w] =>
      let y := fresh "y" in let d := fresh "d" in let Hok' := fresh "Hok" in let Hup := fresh "Hup" in let Hrun := fresh "Hrun" in
      lazymatch type of Hu with _ = Some ?u => destruct (run_transition q st re p ev k j fs ap w u x) as (y & d & Hok' & Hup & Hrun) end;
      [lia|exact Hu|exact Ht|exact Hok|exact Hx| | |
       rewrite Hrun; clear Hrun; cbn [wf_bind wret tw_db set_tw_db] in *]
  end.

(** An execution that is lost once is not repeated: the command waits for a
    reconciliation, whatever the provider did. *)
Theorem lost_execution_parked q j0 j1 j3 approval w u x :
  Forall (fun j => (j < 5)%nat) [j0; j1; j3] ->
  require_identity (rq_command_id q) "command_id" = Ret tt -> require_identity (rq_tenant_id q) "tenant_id" = Ret tt ->
  rq_target q <> TARGET -> rq_resume_from_queued q = false ->
  uuid_parse (rq_command_id q) = Some u -> tenant_ok (rq_tenant_id q) = true -> db_ok (tw_db w) ->
  db_view (tw_db w) (rq_tenant_id q, u) = Some x -> v_state (pv_core x) = persisted ->
  exists d' x', run_workflow act (execution_workflow iso_instant aware q)
      [replicate j0 never_ran; replicate j1 never_ran; [never_ran]; replicate j3 never_ran] approval w =
      (Ret (executed_as q "reconciliation_required" "adapter execution did not produce a confirmed outcome"), set_tw_db d' w) /\
    db_ok d' /\ pg_upd (tw_db w) d' (rq_tenant_id q, u) x' /\
    v_state (pv_core x') = reconciliation_required /\ v_attempts (pv_core x') = S (v_attempts (pv_core x)).
Proof.
  intros Hj Hi1 Hi2 Htg Hres Hu Ht Hok Hx Hst.
  repeat match goal with H : Forall _ (_ :: _) |- _ => apply Forall_cons in H as [? H] end. clear Hj.
  assert (Htg' : String.eqb (rq_target q) TARGET = false) by (by apply String.eqb_neq).
  assert (Hb : bounded_originate q = false) by (unfold bounded_originate; by rewrite Htg').
  unfold execution_workflow, identity, command_transition, activity. rewrite Hi1, Hi2, Hres. cbn [wf_bind wret].
  advance x Hu Ht Hok Hx; [by rewrite Hst|by left|]. set (x1 := pg_moved x queued None None) in *.
  advance x1 Hu Ht Hok0 (proj1 Hup); [done|by left|]. set (x2 := pg_moved x1 dispatching None None) in *.
  match goal with |- context [run_workflow act (Do (execute_command q) ?k) ([never_ran] :: ?fs) ?ap ?v] =>
    change (run_workflow act (Do (execute_command q) k) ([never_ran] :: fs) ap v) with (run_workflow act (k (Exc activity_failed)) fs ap v) end.
  cbv beta iota. change (activity_error activity_failed) with true. cbv iota. unfold execution_failed. rewrite Hb.
  unfold park, command_transition, activity. cbn [wf_bind].
  advance x2 Hu Ht Hok1 (proj1 Hup0); [done|by left|].
  exists d1, (pg_moved x2 reconciliation_required None None). cbn [run_workflow]. split_and!; [by destruct w|done| |done|done].
  pose proof (pg_upd_trans _ _ _ _ _ _ Hup Hup0) as Hu1. exact (pg_upd_trans _ _ _ _ _ _ Hu1 Hup1).
Qed.

(** C18: a persisted command, not of the internal call service and not resumed from the queue,
    whose provider accepts it and confirms it on read-back is completed by its
    workflow when no other writer touches the ledger during the run and the one
    attempt the execution has is delivered ([lost_execution_parked] is the other
    case): however often, up to four times each, the server loses a transition or
    the read-back before it ran, the workflow ends [completed] and the ledger
    holds the command completed, in one attempt, with the provider's id and
    exactly the validated evidence; no other command is touched. *)
Theorem command_completes q a executed readback evidence j0 j1 j3 j4 j5 j6 approval w u x :
  Forall (fun j => (j < 5)%nat) [j0; j1; j3; j4; j5; j6] ->
  require_identity (rq_command_id q) "command_id" = Ret tt -> require_identity (rq_tenant_id q) "tenant_id" = Ret tt ->
  rq_target q <> TARGET -> rq_resume_from_queued q = false ->
  uuid_parse (rq_command_id q) = Some u -> tenant_ok (rq_tenant_id q) = true -> db_ok (tw_db w) ->
  db_view (tw_db w) (rq_tenant_id q, u) = Some x -> v_state (pv_core x) = persisted ->
  adapter_of adapters q = Ret a -> (forall w, pa_execute a q w = (Ret executed, w)) -> (forall w, pa_readback a q w = (Ret readback, w)) ->
  ar_status readback = "matched" -> confirmed_by iso_instant aware q executed readback evidence ->
  exists d' x', run_workflow act (execution_workflow iso_instant aware q)
      [replicate j0 never_ran; replicate j1 never_ran; []; replicate j3 never_ran; replicate j4 never_ran; replicate j5 never_ran;
       replicate j6 never_ran] approval w = (Ret (executed_as q "completed" (ar_detail readback)), set_tw_db d' w) /\
    db_ok d' /\ pg_upd (tw_db w) d' (rq_tenant_id q, u) x' /\
    v_state (pv_core x') = completed /\ v_provider (pv_core x') = coalesce (ar_provider_operation_id executed) (v_provider (pv_core x)) /\
    v_evidence (pv_core x') = evidence /\ pv_digest x' = provider_evidence_digest <$> evidence /\
    v_attempts (pv_core x') = S (v_attempts (pv_core x)) /\ v_env (pv_core x') = v_env (pv_core x).
Proof.
  intros Hj Hi1 Hi2 Htg Hres Hu Ht Hok Hx Hst Ha Hexec Hread Hm Hconf.
  repeat match goal with H : Forall _ (_ :: _) |- _ => apply Forall_cons in H as [? H] end. clear Hj.
  assert (Htg' : String.eqb (rq_target q) TARGET = false) by (by apply String.eqb_neq).
  assert (Hcall : calling q = false) by (unfold calling; by rewrite Htg').
  assert (Hb : bounded_originate q = false) by (unfold bounded_originate; by rewrite Htg').
  unfold execution_workflow, identity, command_transition, activity. rewrite Hi1, Hi2, Hres. cbn [wf_bind wret].
  advance x Hu Ht Hok Hx; [by rewrite Hst|by left|]. set (x1 := pg_moved x queued None None) in *.
  advance x1 Hu Ht Hok0 (proj1 Hup); [done|by left|]. set (x2 := pg_moved x1 dispatching None None) in *.
  assert (Hex : forall v, act (execute_command q) v = (Ret executed, v)).
  { intros v. cbn [perform]. unfold execute_command_activity. rewrite Htg', Ha. unfold bind, lift_outcome, guarded_execute, catch_. by rewrite Hexec. }
  assert (Hre : forall v, act (readback_command q) v = (Ret readback, v)).
  { intros v. cbn [perform]. unfold readback_command_activity. rewrite Ha. unfold bind, lift_outcome, catch_. by rewrite Hread. }
  rewrite (run_calm (execute_command q) _ 0 _ _ _ _ _ (Nat.lt_0_succ _) (Hex _)).
  unfold after_execution, command_transition, activity. rewrite Hb, Hcall. cbn [andb wf_bind].
  advance x2 Hu Ht Hok1 (proj1 Hup0); [done|by left|]. set (x3 := pg_moved x2 accepted _ None) in *.
  advance x3 Hu Ht Hok2 (proj1 Hup1); [done|by left|]. set (x4 := pg_moved x3 readback_pending _ None) in *.
  rewrite (run_calm (readback_command q) _ j5 _ _ _ _ _ H4 (Hre _)). rewrite Hm. change (String.eqb "matched" "matched") with true. cbv iota.
  rewrite (confirm_completes _ _ _ evidence Hcall Hconf). unfold complete, command_transition, activity. cbn [wf_bind].
  advance x4 Hu Ht Hok3 (proj1 Hup2); [done|by right|]. set (x5 := pg_moved x4 completed _ evidence) in *.
  exists d3, x5. cbn [run_workflow]. split_and!; [by destruct w|done| |done| | | |done|done].
  - pose proof (pg_upd_trans _ _ _ _ _ _ Hup Hup0) as Hu1. pose proof (pg_upd_trans _ _ _ _ _ _ Hu1 Hup1) as Hu2.
    pose proof (pg_upd_trans _ _ _ _ _ _ Hu2 Hup2) as Hu3. exact (pg_upd_trans _ _ _ _ _ _ Hu3 Hup3).
  - cbn. by destruct (ar_provider_operation_id executed).
  - cbn. by destruct evidence.
  - done.
Qed.
End Ledger.

(** ** Provisioning *)

(** the products a history provisioned, in order *)
Definition provisioned (h : list (ActivityCall * outcome ActivityResult)) : list string :=
  omap (fun x => match x with (provision_product s, Ret _) => ps_product s | _ => None end) h.
Definition compensation (r : ProvisioningRequest) (done_ : list string) : ActivityCall := compensate_provisioning (step_request r (joined done_)).
Definition compensations (h : list (ActivityCall * outcome ActivityResult)) : list ActivityCall :=
  omap (fun x => match fst x with compensate_provisioning s => Some (compensate_provisioning s) | _ => None end) h.

(** how a run ends from the point where [before] is provisioned and [left] is to do *)
Record provisioning_ends (r : ProvisioningRequest) (before left : list string) (h : list (ActivityCall * outcome ActivityResult))
    (o : outcome WorkflowOutcome) : Prop := {
  pr_prefix : provisioned h `prefix_of` left;
  pr_compensated : compensations h = [] \/ compensations h = [compensation r (before ++ provisioned h)];
  pr_failed : forall c e, (c, Exc e) ∈ h -> activity_error e = true -> compensations h = [compensation r (before ++ provisioned h)];
  pr_answer : forall x, o = Ret x ->
    (provisioned h = left /\ compensations h = [] /\ exists y, last h = Some (verify_provisioning (step_request r None), Ret y) /\
      x = outcome_as (pv_operation_id r) "provisioning" y) \/
    (wo_status x = "failed_compensated" /\ exists y, last h = Some (compensation r (before ++ provisioned h), Ret y));
  pr_raised : forall e, o = Exc e -> compensations h = [] ->
    (exists c, last h = Some (c, Exc e) /\ activity_error e = false) \/
    (Forall (fun x => exists y, snd x = Ret y) h /\ exists p, left !! length (provisioned h) = Some p /\ require_identity p "product" = Exc e);
}.

Lemma compensate_runs r before e h o : runs (compensate r before e) h o ->
  exists y, h = [(compensation r before, y)] /\
  forall x, o = Ret x -> wo_status x = "failed_compensated" /\ exists z, y = Ret z.
Proof.
  intros (y & h' & -> & Hr)%runs_activity. exists y. destruct y as [z|e'].
  - apply runs_done_inv in Hr as [-> ->]. split; [done|]. intros x [= <-]. eauto.
  - destruct Hr as [-> ->]. by split.
Qed.

(** an activity failed and was followed by the compensation of what was done *)
Lemma compensated_ends r before left c e h o : provisioned [(c, Exc e)] = [] -> compensations [(c, Exc e)] = [] ->
  runs (compensate r before e) h o -> provisioning_ends r before left ((c, Exc e) :: h) o.
Proof.
  intros Hp Hc (y & -> & Hx)%compensate_runs. assert (Hq : provisioned [(c, Exc e); (compensation r before, y)] = []) by (by destruct c).
  assert (Hk : compensations [(c, Exc e); (compensation r before, y)] = [compensation r before]) by (by destruct c).
  split; rewrite ?Hq, ?app_nil_r, ?Hk; [apply prefix_nil|by right|done| |done]. intros x Ho. right. destruct (Hx x Ho) as [Hs [z ->]].
  split; [done|]. by exists z.
Qed.

Lemma stopped_ends r before left c e o : activity_error e = false -> provisioned [(c, Exc e)] = [] -> compensations [(c, Exc e)] = [] ->
  o = Exc e -> provisioning_ends r before left [(c, Exc e)] o.
Proof.
  intros He Hp Hc ->. split; rewrite ?Hp, ?Hc; [apply prefix_nil|by left| |done|].
  - intros c' e' [= -> ->]%list_elem_of_singleton. congruence.
  - intros e' [= <-] _. left. by exists c.
Qed.

(** an answered activity before a run: what it provisioned comes first *)
Lemma answered_ends r before left c y h o : provisioned [(c, Ret y)] = [] -> compensations [(c, Ret y)] = [] ->
  provisioning_ends r before left h o -> provisioning_ends r before left ((c, Ret y) :: h) o.
Proof.
  intros Hp Hc [H1 H2 H3 H4 H5].
  assert (Hp' : provisioned ((c, Ret y) :: h) = provisioned h) by (change (provisioned ([(c, Ret y)] ++ h) = provisioned h); unfold provisioned in *; by rewrite omap_app, Hp).
  assert (Hc' : compensations ((c, Ret y) :: h) = compensations h) by (change (compensations ([(c, Ret y)] ++ h) = compensations h); unfold compensations in *; by rewrite omap_app, Hc).
  split; rewrite ?Hp', ?Hc'; [done|done| | |].
  - intros c' e [[=]|Hin]%elem_of_cons He; by eapply H3.
  - intros x Ho. destruct (H4 x Ho) as [(-> & Hn & z & Hl & Hx)|(Hs & z & Hl)].
    + left. split_and!; [done..|]. exists z. by rewrite last_cons, Hl.
    + right. split; [done|]. exists z. by rewrite last_cons, Hl.
  - intros e Ho Hn. destruct (H5 e Ho Hn) as [(c' & Hl & He)|(Hall & p & Hleft & Hid)].
    + left. exists c'. by rewrite last_cons, Hl.
    + right. split; [|by exists p]. constructor; [by eexists|done].
Qed.

(** a provisioned product before a run over the rest *)
Lemma product_ends r before p left y h o : provisioning_ends r (before ++ [p]) left h o ->
  provisioning_ends r before (p :: left) ((provision_product (step_request r (Some p)), Ret y) :: h) o.
Proof.
  intros [H1 H2 H3 H4 H5]. set (x := (provision_product (step_request r (Some p)), Ret y)).
  assert (Hp : provisioned (x :: h) = p :: provisioned h) by done. assert (Hc : compensations (x :: h) = compensations h) by done.
  assert (Ha : before ++ p :: provisioned h = (before ++ [p]) ++ provisioned h) by (by rewrite <- (assoc_L (++))).
  split; rewrite ?Hp, ?Hc, ?Ha; [by apply prefix_cons|done| | |].
  - intros c e [[=]|Hin]%elem_of_cons He; by eapply H3.
  - intros z Ho. destruct (H4 z Ho) as [(-> & Hn & w & Hl & Hx)|(Hs & w & Hl)].
    + left. split_and!; [done..|]. exists w. by rewrite last_cons, Hl.
    + right. split; [done|]. exists w. by rewrite last_cons, Hl.
  - intros e Ho Hn. destruct (H5 e Ho Hn) as [(c & Hl & He)|(Hall & q & Hleft & Hid)].
    + left. exists c. by rewrite last_cons, Hl.
    + right. split; [|by exists q]. constructor; [by eexists|done].
Qed.

Lemma products_end r before left h o : runs (provision_products r before left) h o -> provisioning_ends r before left h o.
Proof.
  revert before h. induction left as [|p left IH]; intros before h; cbn [provision_products].
  - intros (y & h' & -> & Hr)%runs_do_inv. destruct y as [y|e].
    + apply runs_done_inv in Hr as [-> ->]. split; [apply prefix_nil|by left| | |done].
      * by intros c e [=]%list_elem_of_singleton.
      * intros x [= <-]. left. split_and!; [done|done|]. by exists y.
    + destruct (activity_error e) eqn:He; [by apply compensated_ends|]. apply runs_done_inv in Hr as [-> ->]. by apply stopped_ends.
  - intros [[_ Hr]|(e & Hid & -> & ->)]%runs_check.
    2: { split; [apply prefix_nil|by left| |done|]; [by intros c e' ?%elem_of_nil|]. intros e' [= <-] _. right. split; [done|]. by exists p. }
    apply runs_do_inv in Hr as (y & h' & -> & Hr). destruct y as [y|e].
    + by apply product_ends, IH.
    + destruct (activity_error e) eqn:He; [by apply compensated_ends|]. apply runs_done_inv in Hr as [-> ->]. by apply stopped_ends.
Qed.

(** C27: whatever the activities of a provisioning answer: the products are provisioned in
    order; if any activity fails, the compensation is asked once, with exactly the
    products provisioned before; a run that answers either provisioned all of them and
    verified, or reports the failure after the compensation answered.  The compensation
    is for failed activities only: a run that raises without it asked nothing, or
    passes on an error that is no failure of an activity, or met, after answers of all
    its activities, a product whose name is not one, and then what it provisioned
    stays ([unnamed_product_uncompensated]). *)
Theorem provisioning_compensates r h o : runs (provisioning_workflow r) h o ->
  provisioned h `prefix_of` pv_products r /\
  (compensations h = [] \/ compensations h = [compensation r (provisioned h)]) /\
  (forall c e, (c, Exc e) ∈ h -> activity_error e = true -> compensations h = [compensation r (provisioned h)]) /\
  (forall x, o = Ret x ->
    (provisioned h = pv_products r /\ compensations h = [] /\ exists y, last h = Some (verify_provisioning (step_request r None), Ret y) /\
      x = outcome_as (pv_operation_id r) "provisioning" y) \/
    (wo_status x = "failed_compensated" /\ exists y, last h = Some (compensation r (provisioned h), Ret y))) /\
  forall e, o = Exc e -> compensations h = [] ->
    h = [] \/ (exists c, last h = Some (c, Exc e) /\ activity_error e = false) \/
    (Forall (fun x => exists y, snd x = Ret y) h /\
     exists p, pv_products r !! length (provisioned h) = Some p /\ require_identity p "product" = Exc e).
Proof.
  intros Hr. enough ((h = [] /\ exists e, o = Exc e) \/ provisioning_ends r [] (pv_products r) h o) as [[-> [e ->]]|[H1 H2 H3 H4 H5]].
  { split_and!; [apply prefix_nil|by left|by intros c e' ?%elem_of_nil|done|by left]. }
  { split_and!; [done..|]. intros e Ho Hn. right. by apply H5. }
  unfold provisioning_workflow in Hr.
  apply runs_check in Hr as [[_ Hr]|(e & _ & -> & ->)]; [|left; eauto]. apply runs_check in Hr as [[_ Hr]|(e & _ & -> & ->)]; [|left; eauto].
  apply runs_check in Hr as [[_ Hr]|(e & _ & -> & ->)]; [|left; eauto].
  destruct (bool_decide _ || _); [apply runs_done_inv in Hr as [-> ->]; left; eauto|]. right.
  apply runs_do_inv in Hr as (y & h' & -> & Hr). destruct y as [y|e].
  - by apply (answered_ends r [] (pv_products r) (provision_identity _)), products_end.
  - destruct (activity_error e) eqn:He; [by apply compensated_ends|]. apply runs_done_inv in Hr as [-> ->]. by apply stopped_ends.
Qed.

(** a product without a name stops the run with what was provisioned left in place *)
Lemma unnamed_product_uncompensated : exists h e,
  runs (provisioning_workflow {| pv_operation_id := "op-1"; pv_tenant_id := "tenant-a"; pv_principal_id := "user-1"; pv_products := ["email"; ""] |})
    h (Exc e) /\ provisioned h = ["email"] /\ compensations h = [] /\ Forall (fun x => exists y, snd x = Ret y) h.
Proof.
  set (r := {| pv_operation_id := "op-1"; pv_tenant_id := "tenant-a"; pv_principal_id := "user-1"; pv_products := ["email"; ""] |}).
  exists [(provision_identity (step_request r None), Ret (result "ok" "")); (provision_product (step_request r (Some "email")), Ret (result "ok" ""))].
  eexists. split_and!; [|done|done|by repeat constructor; eexists].
  apply (runs_do (provision_identity _)). apply (runs_do (provision_product _)). apply runs_done.
Qed.

(** ** From the submission to the workflow *)

Section Transport.
Context `{Externals} (lookup : option (OutboxRow -> outcome (option string))).

(** what the outbox row of a submitted command starts: the request is taken for a
    resumed one by the prefix of its key *)
Definition started_request (c : CommandEnvelope) (client : string) : CommandExecutionRequest := {|
  rq_command_id := uuid_str (env_command_id c); rq_command_type := env_command_type c;
  rq_command_version := env_command_version c; rq_target := env_target c; rq_tenant_id := env_tenant_id c;
  rq_requested_by := env_requested_by c; rq_correlation_id := env_correlation_id c; rq_idempotency_key := env_idempotency_key c;
  rq_capability := env_capability c; rq_payload := env_payload c; rq_authenticated_client_id := client;
  rq_resume_from_queued := starts_with "operation-retry:" (env_idempotency_key c) |}.
Definition execution_of (c : CommandEnvelope) (client : string) : string * WorkflowStart :=
  (command_workflow_id (env_tenant_id c) (uuid_str (env_command_id c)) (env_idempotency_key c),
   start_execution (started_request c client)).

Lemma started_once id w s : start_workflow id w (start_workflow id w s) = start_workflow id w s.
Proof.
  unfold start_workflow at 1. assert (Hs : exists x, dict_get id (start_workflow id w s) = Some x); [|by destruct Hs as [x ->]].
  unfold start_workflow. destruct (dict_get id s) as [x|] eqn:Hx; [by exists x|]. exists w.
  revert Hx. induction s as [|[k v] s IH]; simpl; [by rewrite decide_True|]. by case_decide.
Qed.

Lemma execution_start_of id c client now : (env_command_id c < uuid_bound)%N -> envelope_valid c = true -> str_nonempty client = true ->
  execution_start (new_row id (env_tenant_id c) TEMPORAL_COMMAND_DESTINATION (env_command_type c) (env_idempotency_key c)
    (authenticated_command_payload c client) now) = Ret (execution_of c client).
Proof.
  intros Hb Hv Hc. unfold execution_start. cbn [row_payload new_row row_tenant_id row_event_type row_idempotency_key].
  assert (Hcl : truthy_str (get_str AUTHENTICATED_CLIENT_ID_KEY (authenticated_command_payload c client)) = Some client).
  { change (get_str AUTHENTICATED_CLIENT_ID_KEY (authenticated_command_payload c client)) with (Some client). unfold truthy_str. by destruct client. }
  rewrite Hcl, (payload_envelope c client Hb Hv), !String.eqb_refl. reflexivity.
Qed.

(** a command as the worker finds it in the ledger *)
Lemma load_submitted c client d r : (env_command_id c < uuid_bound)%N -> envelope_valid c = true -> str_nonempty client = true ->
  unique_fields (JObj (env_payload c)) -> db_commands d !! (env_tenant_id c, env_command_id c) = Some r ->
  c_payload r = authenticated_command_payload c client -> c_payload_sha256 r = authenticated_command_digest c client ->
  load_durable_request (started_request c client) d =
    (if starts_with "operation-retry:" (env_idempotency_key c)
     then Exc (command_rejected "Temporal command differs from durable intent") else Ret (request_of c client), d).
Proof.
  intros Hb Hv Hc Hu Hr Hp Hs. unfold load_durable_request. cbn [rq_command_id rq_tenant_id started_request]. rewrite (uuid_parse_str _ Hb).
  assert (Hrow : row_by_text (env_tenant_id c) (uuid_str (env_command_id c)) d = Some r).
  { unfold row_by_text, key_of_text. rewrite (uuid_parse_str _ Hb). cbn [mbind option_bind]. rewrite String.eqb_refl. cbn [mbind option_bind]. exact Hr. }
  unfold bind, gets. cbn [id]. rewrite Hrow. unfold lift_outcome.
  assert (Hval : validated_command r (env_tenant_id c) (env_command_id c) = Ret (request_of c client, authenticated_command_digest c client)).
  { unfold validated_command. rewrite Hp.
    assert (Hcl : truthy_str (get_str AUTHENTICATED_CLIENT_ID_KEY (authenticated_command_payload c client)) = Some client).
    { change (get_str AUTHENTICATED_CLIENT_ID_KEY (authenticated_command_payload c client)) with (Some client). unfold truthy_str. by destruct client. }
    rewrite Hcl, (payload_envelope c client Hb Hv), N.eqb_refl, String.eqb_refl. cbn [negb orb]. by rewrite Hs, String.eqb_refl. }
  rewrite Hval. destruct (starts_with "operation-retry:" (env_idempotency_key c)) eqn:Hretry.
  { assert (Heq : request_eqb (request_of c client) (started_request c client) = false); [|by rewrite Heq].
    unfold request_eqb, started_request. rewrite Hretry. by rewrite bool_decide_eq_false_2. }
  assert (Heq : request_eqb (request_of c client) (started_request c client) = true).
  { unfold request_eqb, started_request. rewrite Hretry, bool_decide_eq_true_2 by done. by apply py_eqb_refl. }
  rewrite Heq. cbn [negb]. assert (Hm : model_validate (request_dict (started_request c client)) = Ret c)
    by (change (request_dict (started_request c client)) with (envelope_dump c); by apply model_validate_dump).
  rewrite Hm. cbn [rq_authenticated_client_id started_request]. by rewrite String.eqb_refl.
Qed.

(** C22: the outbox row of a first submission to Temporal, of a valid command whose
    payload repeats no key, for an admissible tenant, from a named client, without
    a trace and with no outbox row under its key, is dispatched by the transport
    as one workflow under an id of its own, which carries exactly the command the
    ledger holds; dispatching the row again starts nothing; and the check of the
    request against the ledger, made before a call is executed, answers the
    submitted command, unless the client's key begins with [operation-retry:]:
    then the request claims to be a resumed one and the check refuses it.  (The
    row of a reconciliation event starts a reconciliation instead.) *)
Theorem submitted_starts_once c client now d s : tenant_ok (env_tenant_id c) = true -> (env_command_id c < uuid_bound)%N -> envelope_valid c = true ->
  str_nonempty client = true -> unique_fields (JObj (env_payload c)) -> env_command_type c <> RECONCILIATION_EVENT_TYPE ->
  existing_rows c d = [] ->
  outbox_conflict (env_tenant_id c) TEMPORAL_COMMAND_DESTINATION (env_idempotency_key c) (db_outbox d) = false ->
  let d' := snd (pg_submit now c client TEMPORAL_COMMAND_DESTINATION None None d) in
  exists o, last (db_outbox d') = Some o /\
    let dispatched := transport_dispatch lookup (ob_row o) s in
    dispatched = (Ret tt, start_workflow (fst (execution_of c client)) (start_execution (started_request c client)) s) /\
    transport_dispatch lookup (ob_row o) (snd dispatched) = dispatched /\
    load_durable_request (started_request c client) d' =
      (if starts_with "operation-retry:" (env_idempotency_key c)
       then Exc (command_rejected "Temporal command differs from durable intent") else Ret (request_of c client), d').
Proof.
  intros Ht Hb Hv Hc Hu Hrec He Ho d'.
  assert (Hd' : d' = inserted d now c client TEMPORAL_COMMAND_DESTINATION None None).
  { unfold d'. rewrite pg_submit_cases by done. change (mem_string TEMPORAL_COMMAND_DESTINATION COMMAND_DESTINATIONS) with true. cbn [negb].
    by rewrite He, Ho. }
  eexists. split.
  { rewrite Hd'. unfold inserted, append_outbox. cbn [db_outbox set_db_outbox]. apply last_snoc. }
  cbn [fst snd ob_row with_trace]. cbv zeta.
  assert (Hrun : forall s, transport_dispatch lookup (new_row (next_outbox_id (db_outbox d)) (env_tenant_id c) TEMPORAL_COMMAND_DESTINATION
      (env_command_type c) (env_idempotency_key c) (authenticated_command_payload c client) (PgLedger.seconds now)) s =
      (Ret tt, start_workflow (fst (execution_of c client)) (start_execution (started_request c client)) s)).
  { intros s0. unfold transport_dispatch. change (row_destination (new_row _ _ TEMPORAL_COMMAND_DESTINATION _ _ _ _)) with TEMPORAL_COMMAND_DESTINATION.
    rewrite String.eqb_refl. cbn [negb row_event_type new_row]. rewrite (proj2 (String.eqb_neq _ _) Hrec), execution_start_of by done.
    reflexivity. }
  split_and!; [apply Hrun|rewrite !Hrun; cbn [snd]; by rewrite started_once|].
  eapply (load_submitted c client d' (new_command_row c client now)); try done. rewrite Hd'. unfold inserted. cbn. by rewrite lookup_insert_eq.
Qed.

(** a traced command: its payload is not the envelope it was *)
Lemma traced_never_starts c client id now kv tr s : env_command_type c <> RECONCILIATION_EVENT_TYPE -> str_nonempty client = true ->
  exists msg, transport_dispatch lookup (new_row id (env_tenant_id c) TEMPORAL_COMMAND_DESTINATION (env_command_type c) (env_idempotency_key c)
    (with_trace (authenticated_command_payload c client) (Some (kv :: tr))) now) s = (transport_error msg, s).
Proof.
  intros Hrec Hc. unfold transport_dispatch. change (row_destination (new_row _ _ TEMPORAL_COMMAND_DESTINATION _ _ _ _)) with TEMPORAL_COMMAND_DESTINATION.
  rewrite String.eqb_refl. cbn [negb row_event_type new_row]. rewrite (proj2 (String.eqb_neq _ _) Hrec). unfold execution_start.
  cbn [row_payload new_row]. set (payload := with_trace _ _). destruct (truthy_str _); [|by eexists].
  assert (Hm : exists e, command_envelope_from_payload payload = Exc e); [|destruct Hm as [e ->]; by eexists].
  unfold command_envelope_from_payload, model_validate.
  assert (Hl : length (List.filter (fun kv => negb (String.eqb (fst kv) AUTHENTICATED_CLIENT_ID_KEY)) payload) = 11%nat) by reflexivity.
  rewrite Hl. cbn [Nat.eqb andb]. match goal with |- exists e, match ?o with _ => _ end = _ => destruct o end; by eexists.
Qed.
End Transport.

(** ** Worlds the theorems apply to *)

Module RunExample.
#[local] Existing Instance reference_externals.
Import CallExample.

Definition aware0 (v : json) : option AwareDatetime := None.
Definition iso0 (s : string) : option instant := None.
Definition nobody : DeadLetterApproval := {| da_operator_id := ""; da_reason := ""; da_approved := false |}.

(** a provider that accepts and confirms at once *)
Definition accepted_as (id : string) : ActivityResult :=
  {| ar_status := "accepted"; ar_detail := "accepted"; ar_provider_operation_id := Some id; ar_readback_evidence := None |}.
Definition matched : ActivityResult :=
  {| ar_status := "matched"; ar_detail := "confirmed"; ar_provider_operation_id := Some "chan-1"; ar_readback_evidence := None |}.
Definition provider : ProviderAdapter := {| pa_execute := fun _ => ret (accepted_as "chan-1"); pa_readback := fun _ => ret matched |}.
Definition adapters : Adapters := {|
  ad_odoo := Some provider; ad_klyrow_alert := None; ad_telnexa_sms := None; ad_klyrow_email := None; ad_postly_social := None;
  ad_vicidial_internal := Some provider |}.

Lemma adapter_is_provider q a : adapter_of adapters q = Ret a -> a = provider.
Proof.
  unfold adapter_of. cbn [List.find ad_odoo ad_klyrow_alert ad_telnexa_sms ad_klyrow_email ad_postly_social ad_vicidial_internal adapters fst snd].
  rewrite (bool_decide_eq_false_2 (is_Some (@None ProviderAdapter))) by (intros [? [=]]). rewrite !andb_false_r.
  destruct (String.eqb (rq_target q) "odoo-19" && _); [by intros [= <-]|]. destruct (calling q); by intros [= <-].
Qed.

(** the call of [CallExample], executed *)
Definition call : CommandEnvelope := originate_command agent (request "call-key-1") "corr-call-key-1" (grant "grant-1").
Definition call_request : CommandExecutionRequest := request_of call CLIENT_ID.

(** claimed, and refused by the adapter before anything was sent *)
Definition at_dispatching : CommandDB :=
  snd (bind (pg_transition 1001 "tenant-a" (env_command_id call) queued "worker-1" "queued" None None None)
         (fun _ => pg_transition 1002 "tenant-a" (env_command_id call) dispatching "worker-1" "reserved" None None None)
         (tw_db world1)).
Definition claimed : CommandDB := snd (claim_call_dispatch call_request at_dispatching).
Definition rejected : TW := mkTW (snd (record_rejection 1003 call_request claimed)) 1003 [] [1%nat].

(** a command to Odoo *)
Definition plain : CommandEnvelope := {|
  env_command_id := 77; env_command_type := "crm.lead.create"; env_command_version := "1.0"; env_target := "odoo-19";
  env_tenant_id := "tenant-a"; env_requested_by := "subject-1"; env_correlation_id := "corr-77"; env_idempotency_key := "plain-key-1";
  env_capability := "ODOO_WRITE"; env_payload := [("name", JStr "a lead")] |}.
Definition plain_request : CommandExecutionRequest := request_of plain "client-1".
Definition submitted : CommandDB := snd (pg_submit 1000 plain "client-1" TEMPORAL_COMMAND_DESTINATION None None empty_db).

(** parked for reconciliation, and the verdict on it *)
Definition parked : CommandDB :=
  snd (bind (pg_transition 1001 "tenant-a" 77 queued "worker-1" "queued" None None None)
         (fun _ => bind (pg_transition 1002 "tenant-a" 77 dispatching "worker-1" "reserved" None None None)
            (fun _ => pg_transition 1003 "tenant-a" 77 reconciliation_required "worker-1" "unknown" None None None)) submitted).
Definition reconciliation : ReconciliationRequest :=
  {| rc_operation_id := uuid_str 77; rc_tenant_id := "tenant-a"; rc_reason := "operator" |}.
Definition digest : string := authenticated_command_digest plain "client-1".
Definition verdict : outcome ActivityResult * CommandDB := persist_result 1004 reconciliation matched digest parked.
Definition decided : TW := mkTW (snd verdict) 1004 [] [].

(** its evidence replaced *)
Definition other_matched : ActivityResult :=
  {| ar_status := "matched"; ar_detail := "confirmed"; ar_provider_operation_id := Some "chan-2"; ar_readback_evidence := None |}.

(** a provisioning whose second product fails *)
Definition setup : ProvisioningRequest :=
  {| pv_operation_id := "op-1"; pv_tenant_id := "tenant-a"; pv_principal_id := "user-1"; pv_products := ["email"; "calls"; "crm"] |}.
Lemma world1_ids : ids_ok (tw_db world1).
Proof. exact (mo_ids _ _ _ (history_moves _ _ _ (rtc_once _ _ (originated_step new_world "call-key-1" "grant-1")) empty_ids)). Qed.
Lemma at_dispatching_ids : ids_ok at_dispatching.
Proof.
  exact (mo_ids _ _ _ (within_bind (moves_on true) _ _ (pg_transition_moves true _ _ _ _ _ _ _ _ _)
    (fun _ => pg_transition_moves true _ _ _ _ _ _ _ _ _) _ world1_ids)).
Qed.
Lemma claimed_ids : ids_ok claimed.
Proof. exact (mo_ids _ _ _ (claim_moves true _ _ at_dispatching_ids)). Qed.
Lemma parked_ids : ids_ok parked.
Proof.
  exact (mo_ids _ _ _ (within_bind (moves_on true) _ _ (pg_transition_moves true _ _ _ _ _ _ _ _ _)
    (fun _ => within_bind (moves_on true) _ _ (pg_transition_moves true _ _ _ _ _ _ _ _ _) (fun _ => pg_transition_moves true _ _ _ _ _ _ _ _ _)) _
    (mo_ids _ _ _ (pg_submit_moves true _ _ _ _ _ _ (fun E => False_ind _ (diff_true_false E)) _ empty_ids)))).
Qed.

Lemma submitted_ok : db_ok submitted /\ db_view submitted ("tenant-a", 77%N) = Some {| pv_core := initial_view plain; pv_digest := None |}.
Proof.
  assert (Hs : submitted = inserted empty_db 1000 plain "client-1" TEMPORAL_COMMAND_DESTINATION None None) by (vm_compute; reflexivity).
  rewrite Hs. destruct (inserted_ok empty_db 1000 plain "client-1" TEMPORAL_COMMAND_DESTINATION None None empty_db_ok) as (Hok & Hv & _);
    [vm_compute; reflexivity..|]. exact (conj Hok Hv).
Qed.

(** the steps that lead to the refused call *)
Definition queued_world : TW := set_tw_db (snd (pg_transition 1001 "tenant-a" (env_command_id call) queued "worker-1" "queued" None None None (tw_db world1))) world1.
Definition dispatching_world : TW :=
  set_tw_db (snd (pg_transition 1002 "tenant-a" (env_command_id call) dispatching "worker-1" "reserved" None None None (tw_db queued_world))) queued_world.
Definition claimed_world : TW := claim_ticket 1 (set_tw_db (snd (claim_call_dispatch call_request (tw_db dispatching_world))) dispatching_world).
Definition refused_world : TW := set_tw_db (snd (record_rejection 1003 call_request (tw_db claimed_world))) claimed_world.

Lemma refused_history : tw_history aware0 new_world refused_world.
Proof.
  apply (rtc_l _ _ world1); [exact (originated_step new_world "call-key-1" "grant-1")|].
  apply (rtc_l _ _ queued_world); [exact (ts_ledger _ world1 _ (ds_transition _ _ 1001 "tenant-a" _ queued "worker-1" "queued" None None None))|].
  apply (rtc_l _ _ dispatching_world); [exact (ts_ledger _ queued_world _ (ds_transition _ _ 1002 "tenant-a" _ dispatching "worker-1" "reserved" None None None))|].
  apply (rtc_l _ _ claimed_world).
  - refine (ts_claim _ dispatching_world call_request 1 _ _).
    assert (Hc : fst (claim_call_dispatch call_request (tw_db dispatching_world)) = Ret (Some 1%nat)) by (vm_compute; reflexivity).
    rewrite <- Hc. exact (surjective_pairing _).
  - apply rtc_once. exact (ts_ledger _ claimed_world _ (ds_record_rejection _ _ 1003 call_request)).
Qed.
End RunExample.

Lemma ledger_invariant_witness : exists r, db_commands (tw_db RunExample.refused_world) !! CallExample.call_key "call-key-1" = Some r /\
  c_state r = cancelled /\
  audit_path None (audit_of (CallExample.call_key "call-key-1") (db_audit (tw_db RunExample.refused_world))) (c_state r) /\
  length (audit_of (CallExample.call_key "call-key-1") (db_audit (tw_db RunExample.refused_world))) = 4%nat.
Proof.
  assert (Hr : exists r, db_commands (tw_db RunExample.refused_world) !! CallExample.call_key "call-key-1" = Some r /\ c_state r = cancelled)
    by (eexists; split; [vm_compute; reflexivity|reflexivity]).
  destruct Hr as (r & Hr & Hst).
  pose proof (@ledger_invariant reference_externals RunExample.aware0 1000 RunExample.refused_world _ r (written_history _ _ _ RunExample.refused_history) Hr) as (_ & _ & Hp & _).
  exists r. refine (conj Hr (conj Hst (conj Hp _))). vm_compute. reflexivity.
Defined.

Lemma calls_sent_once_witness :
  let w' := snd (run_workflow (perform (H := reference_externals) RunExample.aware0 RunExample.adapters [])
    (execution_workflow RunExample.iso0 RunExample.aware0 RunExample.call_request) [] RunExample.nobody CallExample.world1) in
  tw_sent w' = [1%nat] /\ NoDup (tw_sent w') /\ forall n, n ∈ tw_sent w' -> holds_result n (db_attempts (tw_db w')).
Proof.
  split; [vm_compute; reflexivity|].
  apply (@calls_sent_once reference_externals RunExample.aware0 RunExample.iso0 RunExample.adapters [] RunExample.call_request [] RunExample.nobody
    CallExample.new_world CallExample.world1).
  - intros a q ->%RunExample.adapter_is_provider. split; exact (within_ret _ _).
  - exact empty_ids.
  - exact eq_refl.
  - exact eq_refl.
  - apply rtc_once. exact (CallExample.originated_step CallExample.new_world "call-key-1" "grant-1").
Defined.

Lemma rejection_final_witness :
  fst (execute_command_activity (H := reference_externals) RunExample.adapters [] RunExample.call_request
    (mkTW (tw_db RunExample.rejected) 2000 [] [1%nat])) = Ret cancelled_unsent.
Proof.
  assert (Hrec : @record_rejection reference_externals 1003 RunExample.call_request RunExample.claimed = (Ret cancelled_unsent, tw_db RunExample.rejected))
    by (vm_compute; reflexivity).
  destruct (@rejection_final reference_externals RunExample.aware0 RunExample.adapters [] 1003 RunExample.call_request RunExample.claimed
    cancelled_unsent RunExample.provider RunExample.rejected (mkTW (tw_db RunExample.rejected) 2000 [] [1%nat]) RunExample.claimed_ids eq_refl eq_refl Hrec) as (_ & Hx & _).
  - apply rtc_once. exact (ts_time _ RunExample.rejected 2000).
  - exact (f_equal fst Hx).
Defined.

Lemma verdict_final_witness : exists y,
  persist_result (H := reference_externals) 2000 RunExample.reconciliation RunExample.matched "" (tw_db RunExample.decided) =
    (Ret {| ar_status := "completed"; ar_detail := "provider read-back was already durably reconciled";
            ar_provider_operation_id := ar_provider_operation_id y; ar_readback_evidence := ar_readback_evidence y |}, tw_db RunExample.decided) /\
  persist_result (H := reference_externals) 2000 RunExample.reconciliation RunExample.other_matched "" (tw_db RunExample.decided) =
    (Exc (reconciliation_rejected "replacement reconciliation evidence conflicts with the durable result"), tw_db RunExample.decided).
Proof.
  assert (Hv : exists y, @persist_result reference_externals 1004 RunExample.reconciliation RunExample.matched RunExample.digest RunExample.parked =
    (Ret y, tw_db RunExample.decided)) by (eexists; vm_compute; reflexivity).
  destruct Hv as [y Hv]. exists y.
  assert (Hat : forall k, key_of_text (rc_tenant_id RunExample.reconciliation) (rc_operation_id RunExample.reconciliation) = Some k ->
    is_Some (newest_attempt k (db_attempts RunExample.parked))).
  { intros k Hk. assert (Hk' : key_of_text (rc_tenant_id RunExample.reconciliation) (rc_operation_id RunExample.reconciliation) = Some ("tenant-a", 77%N))
      by (vm_compute; reflexivity). rewrite Hk' in Hk. injection Hk as <-. eexists. vm_compute. reflexivity. }
  pose proof (@verdict_final reference_externals RunExample.aware0 1004 RunExample.reconciliation RunExample.matched RunExample.digest RunExample.parked y
    RunExample.decided RunExample.decided 2000) as Hf.
  split.
  - rewrite (Hf RunExample.reconciliation RunExample.matched "" RunExample.parked_ids eq_refl Hat Hv (rtc_refl _ _) eq_refl eq_refl).
    vm_compute. reflexivity.
  - rewrite (Hf RunExample.reconciliation RunExample.other_matched "" RunExample.parked_ids eq_refl Hat Hv (rtc_refl _ _) eq_refl eq_refl).
    vm_compute. reflexivity.
Defined.

Lemma command_completes_witness : exists d' x',
  run_workflow (perform (H := reference_externals) RunExample.aware0 RunExample.adapters [])
    (execution_workflow RunExample.iso0 RunExample.aware0 RunExample.plain_request)
    [replicate 1 never_ran; []; []; replicate 4 never_ran; []; []; []] RunExample.nobody (mkTW RunExample.submitted 1001 [] []) =
    (Ret (executed_as RunExample.plain_request "completed" "confirmed"), set_tw_db d' (mkTW RunExample.submitted 1001 [] [])) /\
  v_state (pv_core x') = completed /\ v_provider (pv_core x') = Some "chan-1" /\ @db_view reference_externals d' ("tenant-a", 77%N) = Some x'.
Proof.
  destruct RunExample.submitted_ok as [Hok Hv].
  destruct (@command_completes reference_externals RunExample.aware0 RunExample.adapters [] RunExample.iso0 RunExample.plain_request RunExample.provider
    (RunExample.accepted_as "chan-1") RunExample.matched None 1 0 4 0 0 0 RunExample.nobody (mkTW RunExample.submitted 1001 [] []) 77%N
    {| pv_core := initial_view RunExample.plain; pv_digest := None |}) as (d' & x' & Hr & _ & Hu & Hs & Hp & _).
  - repeat constructor.
  - exact eq_refl.
  - exact eq_refl.
  - intros E. discriminate E.
  - exact eq_refl.
  - vm_compute. reflexivity.
  - vm_compute. reflexivity.
  - exact Hok.
  - exact Hv.
  - exact eq_refl.
  - exact eq_refl.
  - intros w. exact eq_refl.
  - intros w. exact eq_refl.
  - exact eq_refl.
  - vm_compute. reflexivity.
  - exists d', x'. exact (conj Hr (conj Hs (conj Hp (proj1 Hu)))).
Defined.

Lemma provisioning_compensates_witness : exists h o, runs (provisioning_workflow RunExample.setup) h o /\
  provisioned h = ["email"] /\ compensations h = [compensation RunExample.setup ["email"]] /\
  (compensations h = [] \/ compensations h = [compensation RunExample.setup (provisioned h)]).
Proof.
  exists [(provision_identity (step_request RunExample.setup None), Ret (result "ok" ""));
          (provision_product (step_request RunExample.setup (Some "email")), Ret (result "ok" ""));
          (provision_product (step_request RunExample.setup (Some "calls")), Exc activity_failed);
          (compensation RunExample.setup ["email"], Ret (result "ok" ""))].
  eexists. match goal with |- ?R /\ _ => assert (Hr : R) end.
  { apply (runs_do (provision_identity _)). apply (runs_do (provision_product _)). apply (runs_do (provision_product _)).
    apply (runs_do (compensate_provisioning _)). apply runs_done. }
  exact (conj Hr (conj eq_refl (conj eq_refl (proj1 (proj2 (provisioning_compensates RunExample.setup _ _ Hr)))))).
Defined.

Lemma submitted_starts_once_witness : exists o, last (db_outbox RunExample.submitted) = Some o /\
  fst (transport_dispatch (H := reference_externals) None (ob_row o) []) = Ret tt /\
  length (snd (transport_dispatch (H := reference_externals) None (ob_row o) [])) = 1%nat.
Proof.
  destruct (@submitted_starts_once reference_externals None RunExample.plain "client-1" 1000 empty_db []) as (o & Ho & Hd & _);
    [vm_compute; first [reflexivity | repeat split; repeat constructor; intros ?; set_solver | discriminate] ..|].
  exists o. split; [exact Ho|]. cbv zeta in Hd. rewrite Hd. split; [exact eq_refl|]. vm_compute. reflexivity.
Defined.

Lemma completed_only_confirmed_witness : exists h x,
  runs (execution_workflow RunExample.iso0 RunExample.aware0 RunExample.plain_request) h (Ret x) /\ wo_status x = "completed" /\
  follows persisted (requested h) /\ (executions h <= 1)%nat /\
  exists executed, (execute_command RunExample.plain_request, Ret executed) ∈ h /\
    confirmed_completion RunExample.iso0 RunExample.aware0 RunExample.plain_request executed h.
Proof.
  pose (answers := fun (c : ActivityCall) (s : unit) => (Ret match c with readback_command _ => RunExample.matched | _ => RunExample.accepted_as "chan-1" end, s)).
  destruct (run_workflow_runs answers (execution_workflow RunExample.iso0 RunExample.aware0 RunExample.plain_request) [] RunExample.nobody tt) as [h Hh].
  exists h. assert (Ho : exists x, fst (run_workflow answers (execution_workflow RunExample.iso0 RunExample.aware0 RunExample.plain_request) []
    RunExample.nobody tt) = Ret x /\ wo_status x = "completed") by (eexists; split; [vm_compute; reflexivity|reflexivity]).
  destruct Ho as (x & Hx & Hs). rewrite Hx in Hh. exists x.
  destruct (completed_only_confirmed RunExample.iso0 RunExample.aware0 RunExample.plain_request h (Ret x) Hh) as (Hf & He & Hc).
  exact (conj Hh (conj Hs (conj Hf (conj He (Hc x eq_refl Hs))))).
Defined.
