(* ===== verification/Witnesses.v ===== *)
(** * The theorems on concrete inputs

    Each conditional property of the development applied to a concrete run of
    the runtime of [Scenario.v], where its hypotheses hold. *)

From Stdlib Require Import QArith.
From S2P Require Import Prelude Json Sha256 Uuid Commands LedgerSpec Ledger LedgerFacts Resilience.
From S2P Require Import Policy Safety Adapter Registry World Bus BusFacts Fixtures Reconciler.
From S2P Require Import MemoryBus Principal Kernel Scenario LedgerProps BusProps MemoryProps.
From S2P Require Import KernelProps PlatformProps.
Local Open Scope nat_scope.
#[local] Existing Instance reference_externals.

(** ** The ledger *)

Definition cmd : CommandEnvelope := command 7 "ok".
Definition key : Key := (env_tenant_id cmd, env_command_id cmd).
Definition other_cmd : CommandEnvelope := command 7 "timeout".

Lemma cmd_valid : valid cmd = true.
Proof. vm_compute. reflexivity. Qed.

Lemma cmd_envelope_valid : envelope_valid cmd = true /\ (env_command_id cmd < uuid_bound)%N.
Proof. split; [vm_compute|]; reflexivity. Qed.

Lemma cmd_submit :
  submit 1000%Z cmd "middleware-api" ADAPTER_COMMAND_DESTINATION None None empty_store =
    (Ret (new_operation cmd 1000%Z), submitted cmd).
Proof. reflexivity. Qed.

Lemma submitted_next st :
  rtc ledger_step (submitted cmd) (moves (fst key) (snd key) [st] (submitted cmd)).
Proof. apply rtc_once, ls_transition. Qed.

Lemma ledger_refines_spec_witness :
  wf (submitted cmd) /\
  implements wf mem_view (transition 1001%Z (fst key) (snd key) queued "worker:1" "moved" None None None)
    (spec_transition (mem_view (submitted cmd) key) queued None None None) (submitted cmd) key /\
  implements wf mem_view (reconcile 1001%Z (fst key) (snd key) true "worker:1" "moved" None [] None)
    (spec_reconcile (mem_view (submitted cmd) key) true None [] None) (submitted cmd) key.
Proof.
  split; [apply submitted_wf, cmd_valid|]. apply ledger_refines_spec, submitted_wf, cmd_valid.
Defined.

Lemma ledger_audit_trail_witness :
  exists evs, events (submitted cmd) !! key = Some evs /\ trail None evs persisted /\
    map event_id evs = seq 1 (length evs).
Proof.
  destruct (ledger_audit_trail (submitted cmd) key (authenticated_command_digest cmd "middleware-api")
    (new_operation cmd 1000%Z)) as (H & _).
  - apply rtc_once. apply (ls_submit _ 1000%Z cmd "middleware-api" ADAPTER_COMMAND_DESTINATION None None);
      apply cmd_envelope_valid.
  - reflexivity.
  - exact H.
Defined.

Lemma ledger_lifecycle_witness :
  exists v', mem_view (moves (fst key) (snd key) [queued] (submitted cmd)) key = Some v' /\ v_env v' = cmd.
Proof.
  destruct (ledger_lifecycle (submitted cmd) _ key (initial_view cmd)
    (submitted_wf cmd cmd_valid) (submitted_next queued)) as (v' & H1 & H2 & _); [reflexivity|].
  exists v'. split; [exact H1|exact H2].
Defined.

Definition path_to_readback : list CommandState := [queued; dispatching; accepted; readback_pending].

Lemma ledger_completion_witness : readback_pending = readback_pending \/
  readback_pending = reconciliation_required /\ is_Some (Some ([] : jdict)).
Proof.
  refine (ledger_completion (at_state cmd path_to_readback)
    (snd (transition 1002%Z (fst key) (snd key) completed "worker:1" "matched" None (Some []) None
            (at_state cmd path_to_readback)))
    key (restate (moved (initial_view cmd) dispatching None None) readback_pending)
    (moved (restate (moved (initial_view cmd) dispatching None None) readback_pending) completed None (Some []))
    _ _ _ _ _ _).
  - apply at_state_wf, cmd_valid.
  - apply ls_transition.
  - reflexivity.
  - reflexivity.
  - discriminate.
  - reflexivity.
Defined.

Lemma submit_idempotent_witness :
  exists o, submit 2000%Z cmd "middleware-api" ADAPTER_COMMAND_DESTINATION None None
    (moves (fst key) (snd key) [queued] (submitted cmd)) =
      (Ret (as_duplicate o), moves (fst key) (snd key) [queued] (submitted cmd)) /\
    op_command o = identity_of cmd.
Proof.
  apply (submit_idempotent empty_store 1000%Z cmd "middleware-api" ADAPTER_COMMAND_DESTINATION None None
    (submitted cmd)).
  - apply wf_empty.
  - apply cmd_envelope_valid.
  - apply cmd_envelope_valid.
  - apply cmd_submit.
  - apply submitted_next.
  - reflexivity.
Defined.

Lemma submit_identity_reuse_witness :
  exists msg, submit 2000%Z other_cmd "middleware-api" ADAPTER_COMMAND_DESTINATION None None
    (moves (fst key) (snd key) [queued] (submitted cmd)) =
      (Exc (Exn CommandConflict msg), moves (fst key) (snd key) [queued] (submitted cmd)).
Proof.
  apply (submit_identity_reuse empty_store 1000%Z cmd "middleware-api" ADAPTER_COMMAND_DESTINATION None None
    (submitted cmd)).
  - apply wf_empty.
  - apply cmd_envelope_valid.
  - apply cmd_envelope_valid.
  - apply cmd_submit.
  - apply submitted_next.
  - reflexivity.
  - reflexivity.
  - reflexivity.
  - reflexivity.
  - vm_compute. reflexivity.
Defined.

Lemma stale_attempt_fenced_witness :
  transition 1002%Z (fst key) (snd key) completed "worker:0" "late" None (Some []) (Some 7)
    (at_state cmd path_to_readback) =
    (Exc (Exn CommandConflict "stale attempt fencing token"), at_state cmd path_to_readback).
Proof.
  apply (stale_attempt_fenced _ _ _ _ (restate (moved (initial_view cmd) dispatching None None) readback_pending)).
  - apply at_state_wf, cmd_valid.
  - reflexivity.
  - discriminate.
  - discriminate.
  - right. left.
Defined.

(** what a call returned, for calls that do return *)
Definition returned {A S} (x : outcome A * S) (d : A) : A := match fst x with Ret a => a | Exc _ => d end.

Definition returns {A S} (x : outcome A * S) : bool := match fst x with Ret _ => true | Exc _ => false end.
Lemma returned_spec {A S} (x : outcome A * S) d : returns x = true -> x = (Ret (returned x d), snd x).
Proof. by destruct x as [[a|e] s]. Qed.

(** an operator's cancellation of the submitted command *)
Definition cancel_call : outcome CommandOperation * MemoryCommandStore :=
  mutate_operation 1001%Z (fst key) (snd key) act_cancel "operator" "k1" 1 "stop" None (submitted cmd).
Definition cancelled_op : CommandOperation := returned cancel_call (new_operation cmd 0%Z).

Lemma cancel_returns : cancel_call = (Ret cancelled_op, snd cancel_call).
Proof. apply returned_spec. vm_compute. reflexivity. Qed.

Lemma mutation_idempotent_witness :
  mutate_operation 1005%Z (fst key) (snd key) act_cancel "operator" "k1" 1 "stop" None (snd cancel_call) =
    (Ret (as_duplicate cancelled_op), snd cancel_call).
Proof.
  apply (mutation_idempotent (submitted cmd) 1001%Z (fst key) (snd key) act_cancel "operator" "k1" 1 "stop" None
    cancelled_op (snd cancel_call) (snd cancel_call) 1005%Z None);
    [apply submitted_wf, cmd_valid|reflexivity|exact cancel_returns|apply rtc_refl].
Defined.

Lemma mutation_no_lost_update_witness :
  mutate_operation 1005%Z (fst key) (snd key) act_retry "operator-2" "k2" 1 "again" None (snd cancel_call) =
    (Exc (Exn CommandConflict "expected_version is stale"), snd cancel_call).
Proof.
  apply (mutation_no_lost_update (submitted cmd) 1001%Z (fst key) (snd key) act_cancel "operator" "k1" 1 "stop" None
    cancelled_op (snd cancel_call) (snd cancel_call));
    [apply submitted_wf, cmd_valid|reflexivity|exact cancel_returns|apply rtc_refl|vm_compute; reflexivity].
Defined.

Lemma envelope_roundtrip_witness :
  load_envelope (env_tenant_id cmd) (env_command_id cmd) (moves (fst key) (snd key) [queued] (submitted cmd)) =
    (Ret cmd, moves (fst key) (snd key) [queued] (submitted cmd)).
Proof.
  apply (envelope_roundtrip empty_store 1000%Z cmd "middleware-api" ADAPTER_COMMAND_DESTINATION None None
    (submitted cmd)).
  - apply wf_empty.
  - apply cmd_envelope_valid.
  - apply cmd_envelope_valid.
  - apply cmd_submit.
  - apply submitted_next.
Defined.

(** the operation after a dispatch that lost its provider *)
Definition parked : MemoryCommandStore := at_state cmd [queued; dispatching; reconciliation_required].
Definition dispatched_view : OpView := moved (initial_view cmd) dispatching None None.

Lemma version_fence_blind_witness :
  exists v' o s'',
    let s' := moves (fst key) (snd key) [queued; dispatching; reconciliation_required] parked in
    mem_view s' key = Some v' /\ v_attempts v' = 2 /\
    reconcile 1005%Z (fst key) (snd key) true "reconciler:1" "matched" None [] (Some 1%Z) s' = (Ret o, s'') /\
    op_state o = completed.
Proof.
  apply (version_fence_blind parked 1005%Z (fst key) (snd key) (restate dispatched_view reconciliation_required)).
  - apply at_state_wf, cmd_valid.
  - reflexivity.
  - reflexivity.
Defined.

(** ** Dispatch *)

Lemma at_state_view c l v :
  valid c = true -> mem_view (at_state c l) (env_tenant_id c, env_command_id c) = Some v ->
  at_view (env_tenant_id c, env_command_id c) v (world (at_state c l)).
Proof. intros Hc Hv. split; [by apply at_state_wf|exact Hv]. Qed.

Lemma the_dispatchable c l v :
  valid c = true -> mem_view (at_state c l) (env_tenant_id c, env_command_id c) = Some v ->
  dispatchable the_dispatch (env_tenant_id c, env_command_id c) v (world (at_state c l)).
Proof.
  intros Hc Hv. split; [apply the_registry_ok|done|apply the_registry_quiet|by apply at_state_view].
Qed.

Lemma the_sources_quiet k : source_quiet the_reconciler k.
Proof. by apply memory_source_quiet. Qed.

Definition queued_view : OpView := restate (initial_view cmd) queued.


(** a dispatch of an operation leaves the ledger showing it *)
Lemma dispatch_view c l v :
  valid c = true -> mem_view (at_state c l) (env_tenant_id c, env_command_id c) = Some v ->
  exists v', at_view (env_tenant_id c, env_command_id c) v'
    (snd (dispatch the_dispatch "s1" (env_tenant_id c) (env_command_id c) 1 None (world (at_state c l)))).
Proof.
  intros Hc Hv. destruct (the_dispatchable c l v Hc Hv) as [Hreg Ho Hq Hw].
  refine (dispatch_wp _ _ _ _ _ _ _ _ _ (fun _ w' => exists v', at_view _ v' w') Hreg Hq Hw _); [done|].
  intros r v' w' _ Hw'. by exists v'.
Qed.

(** the dispatch of the queued command *)
Definition call : outcome DispatchOutcome * World MemoryCommandStore (gmap string FixtureState) :=
  dispatch the_dispatch "s1" (fst key) (snd key) 1 None (world (at_state cmd [queued])).

Lemma call_completes : v_state <$> mem_view (store (snd call)) key = Some completed.
Proof. vm_compute. reflexivity. Qed.

Lemma completed_only_matched_witness :
  exists out rb, fst call = Ret out /\ do_readback out = Some rb /\ rb_status rb = MATCHED.
Proof.
  destruct (dispatch_view cmd [queued] queued_view cmd_valid eq_refl) as [v' Hv'].
  destruct (completed_only_matched the_dispatch "s1" (fst key) (snd key) 1 None queued_view
    (world (at_state cmd [queued])) (fst call) (snd call) v') as (out & rb & _ & _ & _ & _ & _ & _ & H1 & _ & H2 & H3 & _).
  - apply the_dispatchable; [apply cmd_valid|reflexivity].
  - apply surjective_pairing.
  - exact Hv'.
  - discriminate.
  - pose proof call_completes as Hc.
    assert (Hv2 : mem_view (store (snd call)) key = Some v') by exact (proj2 Hv').
    rewrite Hv2 in Hc. injection Hc as Hc. exact Hc.
  - exists out, rb. split; [exact H1|]. split; [exact H2|exact H3].
Defined.

(** a command no adapter owns, whose worker died after the provider's answer *)
Definition orphan_cmd : CommandEnvelope := {|
  env_command_id := 9; env_command_type := "none.do.v1"; env_command_version := "1.0";
  env_target := "none"; env_tenant_id := "TEST_SYN"; env_requested_by := "service:tester";
  env_correlation_id := "corr-3"; env_idempotency_key := "key-9-orphan"; env_capability := "NONE_DO";
  env_payload := [] |}.
Definition orphan_key : Key := (env_tenant_id orphan_cmd, env_command_id orphan_cmd).
Definition orphan_path : list CommandState := [queued; dispatching; accepted].
Definition orphan_view : OpView := restate (moved (initial_view orphan_cmd) dispatching None None) accepted.
Definition orphan_call : outcome DispatchOutcome * World MemoryCommandStore (gmap string FixtureState) :=
  dispatch the_dispatch "s1" (fst orphan_key) (snd orphan_key) 1 None (world (at_state orphan_cmd orphan_path)).

Lemma orphan_valid : valid orphan_cmd = true.
Proof. vm_compute. reflexivity. Qed.
Lemma orphan_accepted : v_state <$> mem_view (store (snd orphan_call)) orphan_key = Some accepted.
Proof. vm_compute. reflexivity. Qed.


(** an [execute] that always fails *)
Definition broken_execute : CommandEnvelope -> AdapterContext ->
    M (World MemoryCommandStore (gmap string FixtureState)) Raw := fun _ _ => raise RuntimeError "boom".

Lemma no_blind_resend_witness :
  dispatch (dispatch_replace broken_execute the_dispatch) "s1" (fst key) (snd key) 1 None
    (world (at_state cmd [queued; dispatching])) =
  dispatch the_dispatch "s1" (fst key) (snd key) 1 None (world (at_state cmd [queued; dispatching])).
Proof.
  apply (no_blind_resend broken_execute the_dispatch "s1" (fst key) (snd key) 1 None dispatched_view).
  - apply (at_state_view cmd); [apply cmd_valid|reflexivity].
  - reflexivity.
Defined.

Definition claim : ReconciliationClaim := {|
  claim_outbox_id := 1; claim_tenant_id := fst key; claim_command_id := snd key; claim_attempts := 0 |}.

Definition readback_view : OpView := restate dispatched_view readback_pending.

Definition the_owner : Ownership := {|
  own_prefix := "test.syn."; own_target := "test-syn"; own_capability := "TEST_SYN_EXECUTE";
  own_readback_required := true; own_adapter_id := "test-syn" |}.

Lemma readback_pending_stuck_witness :
  exists msg w', dispatch the_dispatch "s1" (fst key) (snd key) 1 None (world (at_state cmd path_to_readback)) =
    (Exc (Exn CommandConflict msg), w') /\ at_view key readback_view w'.
Proof.
  refine (proj1 (readback_pending_stuck the_dispatch the_reconciler "s1" (fst key) (snd key) 1 None readback_view
    (world (at_state cmd path_to_readback)) the_owner (fixture test_syn_adapter) claim _ _ _ _ _ _ _)).
  - apply the_dispatchable; [apply cmd_valid|reflexivity].
  - reflexivity.
  - vm_compute. reflexivity.
  - reflexivity.
  - apply mem_string_spec. reflexivity.
  - apply the_sources_quiet.
  - reflexivity.
Defined.

Definition stale_op : CommandOperation := new_operation cmd 1000%Z.
Definition rejection : AdapterResult := error_result REJECTED NON_RETRYABLE "rejected".
Definition a_context : AdapterContext := {|
  ctx_tenant_id := fst key; ctx_command_id := "7"; ctx_correlation_id := "corr-1"; ctx_attempt := 7;
  ctx_timeout_seconds := 30; ctx_environment := "test"; ctx_deployment_sha := ""; ctx_trace_context := [];
  ctx_test_syn := true; ctx_payload := [] |}.

Lemma stale_worker_fenced_witness :
  exists msg w', finalize the_dispatch stale_op (fixture test_syn_adapter) "test.syn" 7 a_context rejection
    (world (at_state cmd path_to_readback)) = (Exc (Exn CommandConflict msg), w') /\ at_view key readback_view w'.
Proof.
  apply stale_worker_fenced.
  - apply (at_state_view cmd); [apply cmd_valid|reflexivity].
  - reflexivity.
  - discriminate.
  - reflexivity.
Defined.

(** requeued after its first attempt *)
Definition requeued_path : list CommandState := [queued; dispatching; reconciliation_required; queued].
Definition requeued_view : OpView := restate dispatched_view queued.

Lemma stale_rejection_dead_letters_witness :
  exists out w', finalize the_dispatch stale_op (fixture test_syn_adapter) "test.syn" 7 a_context rejection
    (world (at_state cmd requeued_path)) = (Ret out, w') /\
    at_view key (with_dead_letter (restate requeued_view dead_lettered)) w'.
Proof.
  apply stale_rejection_dead_letters.
  - apply (at_state_view cmd); [apply cmd_valid|reflexivity].
  - reflexivity.
  - discriminate.
  - reflexivity.
  - reflexivity.
Defined.

Definition odoo_cmd : CommandEnvelope := odoo_command 11.
Definition odoo_key : Key := (env_tenant_id odoo_cmd, env_command_id odoo_cmd).
Definition odoo_view : OpView := restate (initial_view odoo_cmd) queued.
Definition odoo_call : outcome DispatchOutcome * World MemoryCommandStore (gmap string FixtureState) :=
  dispatch the_dispatch "s1" (fst odoo_key) (snd odoo_key) 1 None (world (at_state odoo_cmd [queued])).

Lemma odoo_valid : valid odoo_cmd = true.
Proof. vm_compute. reflexivity. Qed.

Lemma fixture_readiness_safety aid a ctx w1 :
  reg_adapters the_registry !! aid = Some a -> safety (snd (readiness a ctx w1)) = safety w1.
Proof. intros [cfg ->]%the_registry_fixtures. reflexivity. Qed.

Lemma external_effect_never_executes_witness :
  at_view odoo_key odoo_view (snd odoo_call) \/ at_view odoo_key (refuse odoo_view) (snd odoo_call).
Proof.
  apply (external_effect_never_executes the_dispatch "s1" (fst odoo_key) (snd odoo_key) 1 None odoo_view
    (world (at_state odoo_cmd [queued])) (fst odoo_call) (snd odoo_call)).
  - apply (the_dispatchable odoo_cmd); [apply odoo_valid|reflexivity].
  - right. left.
  - vm_compute. reflexivity.
  - apply fixture_readiness_safety.
  - apply surjective_pairing.
Defined.

(** ** Reconciliation *)

Definition parked_view : OpView := restate dispatched_view reconciliation_required.
Definition matched : ReadbackResult := {|
  rb_status := MATCHED; rb_provider_operation_id := Some "p-1"; rb_evidence := []; rb_safe_error_code := None |}.

(** what the reconciler read before asking the provider *)
Definition parked_op : CommandOperation := returned (get (fst key) (snd key) parked) stale_op.

Lemma reconciler_contract_witness :
  exists res w', judge the_reconciler claim parked_op (fixture test_syn_adapter)
      (adapter_capabilities (fixture test_syn_adapter)) 1 matched (world parked) = (res, w') /\
    at_view key (LedgerSpec.reconciled parked_view true (Some "p-1") (readback_evidence matched None)) w' /\
    forall dec, res = Ret dec -> dec_action dec = "complete".
Proof.
  refine (reconciler_contract the_reconciler claim parked_op (fixture test_syn_adapter)
    (adapter_capabilities (fixture test_syn_adapter)) 1 matched parked_view (world parked) _ _ _ _ _).
  - apply (at_state_view cmd); [apply cmd_valid|reflexivity].
  - vm_compute. repeat split.
  - reflexivity.
  - reflexivity.
  - apply the_sources_quiet.
Defined.

Lemma reconciler_never_executes_witness :
  reconciler_run_once (reconciler_replace broken_execute the_reconciler) (world parked) =
  reconciler_run_once the_reconciler (world parked).
Proof. apply reconciler_never_executes. Defined.

(** an operator requested another reconciliation while the provider was read *)
Definition reopened : MemoryCommandStore :=
  snd (mutate_operation 1003%Z (fst key) (snd key) act_reconcile "operator" "k3" 1 "look again" None parked).
Definition reopened_view : OpView := default parked_view (mem_view reopened key).

Lemma reopened_at : at_view key reopened_view (world reopened) /\ v_version reopened_view <> 1%Z.
Proof.
  split; [|vm_compute; discriminate]. split; [|vm_compute; reflexivity].
  apply mutate_preserves_wf, at_state_wf, cmd_valid.
Qed.

Lemma stale_verdict_discarded_witness :
  exists res w', fenced_reconcile the_reconciler claim parked_op true "matched" None [] (world reopened) = (res, w') /\
    at_view key reopened_view w' /\ res <> Ret true.
Proof.
  refine (stale_verdict_discarded the_reconciler claim parked_op true "matched" None [] reopened_view
    (world reopened) _ _ _).
  - apply reopened_at.
  - apply the_sources_quiet.
  - left. intros Heq. apply (proj2 reopened_at). rewrite <- Heq. vm_compute. reflexivity.
Defined.

(** ** The in-memory bus *)

Definition w0 : World MemoryCommandStore (gmap string FixtureState) := world (submitted cmd).
Definition row : MemoryOutboxIntent := default (new_intent 0 "" "" "" "" "" []) (intents w0 !! 0).

Lemma quarantine_before_provider_witness :
  exists (w1 : World MemoryCommandStore (gmap string FixtureState)) i1, intents w1 !! 0 = Some i1 /\ i1 = claim_intent the_bus 100%Q row /\
    forall t, claimable the_bus t i1 = false.
Proof.
  destruct (quarantine_before_provider the_bus "s1" w0 0 row) as (w1 & i1 & H1 & H2 & _ & _ & H3 & _).
  - vm_compute. reflexivity.
  - reflexivity.
  - exists w1, i1. split; [exact H1|]. split; [exact H2|exact H3].
Defined.

(** the same row, claimed for its last attempt *)
Definition claimed_row (n : nat) : MemoryOutboxIntent :=
  set_claim n (Some "memory-bus") (Some 160%Q) (Some 100%Q) row.
Definition with_row (i : MemoryOutboxIntent) : World MemoryCommandStore (gmap string FixtureState) :=
  set_store (set_outbox (fun _ => [i]) (submitted cmd)) w0.

Lemma settled_row_contract_witness :
  exists i', intents (snd (settle_intent the_bus 0 1 5 100%Q (Exc (Exn KnownSafeRetryError "busy"))
                            (with_row (claimed_row 5)))) !! 0 = Some i' /\
    dead_lettered_at i' = Some 100%Q.
Proof.
  destruct (settled_row_contract the_bus 0 1 100%Q (Exc (Exn KnownSafeRetryError "busy"))
    (with_row (claimed_row 5)) (claimed_row 5)) as (i' & H1 & H2 & H3 & H4 & H5).
  - reflexivity.
  - exists 100%Q. reflexivity.
  - exists i'. split; [exact H1|exact H4].
Defined.

Definition retry_call : outcome unit * World MemoryCommandStore (gmap string FixtureState) :=
  source_resolve claim "memory-bus" "retry" "no effect found" (with_row (claimed_row 5)).

Lemma retry_call_returns : retry_call = (Ret tt, snd retry_call).
Proof. apply (returned_spec retry_call tt). vm_compute. reflexivity. Qed.

Lemma requeued_row_orphaned_witness :
  exists i', intents (snd retry_call) !! 0 = Some i' /\
    forall t, claimable the_bus t i' = false /\ reconcilable t i' = false.
Proof.
  apply (requeued_row_orphaned the_bus claim "memory-bus" "no effect found" (with_row (claimed_row 5))
    (snd retry_call) 0 (claimed_row 5)).
  - vm_compute. reflexivity.
  - reflexivity.
  - apply le_n.
  - exact retry_call_returns.
Defined.

(** ** The kernel *)

Definition caller : ControlPlaneCaller := {|
  caller_client_id := "middleware-api"; command_scope := SCOPE_COMMAND; status_scope := SCOPE_COMMAND_READ;
  allowed_command_prefixes := ["test.syn."]; allowed_targets := ["test-syn"];
  connector_commands_allowed := true; compatibility_only := false |}.
Definition principal (tenants : list string) : KernelPrincipal := {|
  p_subject := "service:tester"; p_client_id := "middleware-api"; p_tenants := tenants;
  p_roles := [PLATFORM_OPERATOR_ROLE]; p_scopes := [SCOPE_COMMAND]; p_caller := caller |}.
Definition kernel_state (s : MemoryCommandStore) : KernelState MemoryCommandStore (gmap string FixtureState) :=
  mkKernel (world s) ∅ [].
Definition fresh : Fresh := {|
  fresh_policy_id := "p"; fresh_safety_id := "s"; fresh_replay_id := 100; fresh_command_id := 101 |}.

(** a principal of another tenant is refused; the right one is accepted *)
Definition refused_call := kernel_submit the_kernel fresh cmd (principal ["other"]) None None None None
  (kernel_state empty_store).
Definition accepted_call := kernel_submit the_kernel fresh cmd (principal ["TEST_SYN"]) None None None None
  (kernel_state empty_store).

Lemma refused_submission_witness : store (kernel_world (snd refused_call)) = empty_store.
Proof.
  apply (refused_submission_persists_nothing the_kernel fresh cmd (principal ["other"]) None None None None
    (kernel_state empty_store) (Exn PolicyDenied "policy denied: tenant_not_authorized") (snd refused_call)).
  vm_compute. reflexivity.
Defined.

Definition no_result : SubmitResult := {|
  sr_operation := stale_op; sr_policy := evaluate_command 0%Z "" (Build_CommandPolicyRequest "" "" "" "" [] [] [] "" "" "" ""
    None None "" "" [] [] false false false None);
  sr_safety := decision "" the_gate (Build_SafetySubject "" "" "" "" None "") [] false; sr_destination := "" |}.

Lemma accepted_call_returns : accepted_call = (Ret (returned accepted_call no_result), snd accepted_call).
Proof. apply returned_spec. vm_compute. reflexivity. Qed.

Lemma accepted_submission_witness : env_tenant_id cmd ∈ p_tenants (principal ["TEST_SYN"]).
Proof.
  apply (accepted_submission_authorized the_kernel fresh cmd (principal ["TEST_SYN"]) None None None None
    (kernel_state empty_store) (returned accepted_call no_result) (snd accepted_call)).
  exact accepted_call_returns.
Defined.

Definition cancelled_view : OpView := default parked_view (mem_view (snd cancel_call) key).

Lemma cancelled_at : at_view key cancelled_view (world (snd cancel_call)).
Proof.
  split; [|vm_compute; reflexivity]. apply mutate_preserves_wf, submitted_wf, cmd_valid.
Qed.

Lemma cancelled_not_replayable_witness :
  exists e s', replay the_kernel fresh (fst key) (snd key) (principal ["TEST_SYN"]) REEXECUTE "k4" 2 "again"
    (Some "new-key") None (kernel_state (snd cancel_call)) = (Exc e, s').
Proof.
  apply (cancelled_not_replayable the_kernel fresh (fst key) (snd key) (principal ["TEST_SYN"]) "k4" 2 "again"
    (Some "new-key") None (kernel_state (snd cancel_call)) cancelled_view).
  - exact cancelled_at.
  - vm_compute. reflexivity.
  - vm_compute. reflexivity.
Defined.

(** ** The guards *)

(** one zone, eight hours behind UTC at noon *)
#[local] Instance some_zones : ZoneInfo := fun tz =>
  if String.eqb tz "America/Los_Angeles"
  then Some {| zone_time_of_day := fun us => ((us - 8 * 3600 * second) mod (24 * 3600 * second))%Z;
               zone_isoformat := fun _ => "" |}
  else None.

Definition noon_utc : Z := (20 * 3600 * second)%Z.
Definition contact : PolicyRequest := {|
  pr_correlation_id := "c"; action := sms; subject := "s"; resource := "r"; environment := None;
  evaluated_at := Some {| dt_us := noon_utc; dt_aware := true |};
  consent_allowed := Some true; consent_observed_at := Some {| dt_us := 0; dt_aware := true |};
  dnc_suppressed := Some false; dnc_observed_at := Some {| dt_us := 0; dt_aware := true |};
  customer_timezone := Some "America/Los_Angeles"; jurisdiction := Some "US-CA";
  calling_window_start := Some (9 * 3600 * second)%Z; calling_window_end := Some (17 * 3600 * second)%Z;
  pr_attempts := Some 1%Z; pr_max_attempts := Some 3%Z; last_attempt_at := None;
  minimum_spacing_seconds := Some 60%Z; channel_eligible := Some true; business_unit := Some "b";
  allowed_business_units := Some ["b"]; campaign := Some "c"; allowed_campaigns := Some ["c"];
  agent := Some "a"; allowed_agents := Some ["a"]; callback_allowed := None; transfer_allowed := None;
  recording_required := None; disclosure_present := None; emergency_kill_switch := Some false;
  shadow_mode := false |}.

Lemma policy_allow_sound_witness : consent_allowed contact = Some true.
Proof.
  apply (policy_allow_sound 0%Z "d" contact "America/Los_Angeles").
  - vm_compute. reflexivity.
  - reflexivity.
  - discriminate.
Defined.

Lemma policy_rules_skipped_witness :
  res_allow (evaluate 0%Z "d" (restamp contact {| dt_us := (-10 ^ 18)%Z; dt_aware := false |}
    {| dt_us := (-10 ^ 18)%Z; dt_aware := false |} "" 5%Z 5%Z)) = true.
Proof. apply policy_rules_skipped. vm_compute. reflexivity. Defined.

Definition the_subject : SafetySubject := {|
  sub_tenant_id := "TEST_SYN"; sub_command_type := "test.syn.execute.v1"; sub_target := "test-syn";
  sub_capability := "TEST_SYN_EXECUTE"; sub_campaign_id := None; sub_correlation_id := "c" |}.
Definition the_safety_context : SafetyContext := {|
  adapter_registered := true; adapter_ready := Some true; tenant_backlog := Some 3%Z; global_backlog := None |}.

Lemma safety_allow_sound_witness :
  global_kill the_gate = false /\ provider_kill the_gate "test-syn" = false.
Proof.
  destruct (safety_allow_sound 0%Q "d" the_subject the_safety_context true the_gate) as (H1 & H2 & _).
  - vm_compute. reflexivity.
  - split; [exact H1|exact H2].
Defined.

Lemma kill_switch_latches_witness :
  sd_allow (fst (safety_evaluate 0%Q "d" the_subject the_safety_context true
    (fold_left gate_step [gate_evaluate 0%Q the_subject the_safety_context true]
       (trip (Some "test-syn") the_gate)))) = false.
Proof. apply (kill_switch_latches the_gate (Some "test-syn")). reflexivity. Defined.

Lemma rate_budget_bound_witness :
  (inject_Z (Z.of_nat (fst (admissions "a" [(0, "a"); (0, "b"); (1, "a")]%Q (new_bucket 60) 0))) <=
   inject_Z 60 + (1 - 0) * (inject_Z 60 / 60))%Q.
Proof.
  apply (rate_budget_bound 60 0 1 "a" ["a"; "b"]).
  - discriminate.
  - apply Nat.leb_le. reflexivity.
  - intros q [<-|[<-|[<-|[]]]]; simpl; auto.
  - repeat split; discriminate.
Defined.

Lemma retry_bounded_witness : attempts_made 10 NON_IDEMPOTENT_EFFECT Resilience.TRANSIENT 1 = 1%Z.
Proof.
  destruct (retry_bounded NON_IDEMPOTENT_EFFECT Resilience.TRANSIENT 1 (1#2) 10) as (_ & _ & _ & _ & H).
  - discriminate.
  - discriminate.
  - discriminate.
  - apply H. reflexivity.
Defined.

Lemma breaker_lifecycle_witness :
  cb_state (fold_left breaker_step (map call_failure ([1; 2] ++ [3])%Q) (new_breaker "b" 3 30)) = OPEN.
Proof.
  destruct (breaker_lifecycle "b" 3 30%Q [1; 2]%Q 3%Q 10%Q 40%Q 41%Q 42%Q) as (_ & H & _).
  - reflexivity.
  - reflexivity.
  - discriminate.
  - exact H.
Defined.

Definition spent_probe : CircuitBreaker := cb_with (new_breaker "b" 3 30) HALF_OPEN 3 0 1.

Lemma half_open_wedged_witness :
  fold_left breaker_step (map call_admit [100; 1000; 10000]%Q) spent_probe = spent_probe.
Proof.
  destruct (half_open_wedged spent_probe [100; 1000; 10000]%Q 0%Q) as [H _].
  - reflexivity.
  - discriminate.
  - exact H.
Defined.

Definition one_permit : Bulkhead := {|
  bh_name := "b"; bh_capacity := 1; bh_max_wait_seconds := 0; permits := 1; bh_active := 0; bh_waiting := 0;
  bh_rejected := 0 |}.

Lemma bulkhead_bounded_witness :
  exists b', bulkhead_run one_permit [bh_enter; bh_enter; bh_acquire] = Some b' /\ bh_rejected b' = 0.
Proof.
  eexists. split; [reflexivity|].
  apply (bulkhead_bounded "b" 1 0 one_permit [bh_enter; bh_enter; bh_acquire]).
  - reflexivity.
  - reflexivity.
  - reflexivity.
Defined.

Lemma registry_routes_soundly_witness :
  exists a, owner_for (snd (validate the_registry)) "test.syn.execute.v1" = Ret (Some a) /\
    adapter_id a = "test-syn".
Proof.
  destruct (registry_routes_soundly the_policies
    [complete_candidate "FixtureAdapter" (fixture test_syn_adapter);
     complete_candidate "FixtureAdapter" (fixture odoo_fixture)] the_registry tt
    (snd (validate the_registry)) tt) as [_ H].
  - reflexivity.
  - reflexivity.
  - destruct (H "test.syn.execute.v1" the_owner) as (a & H1 & H2 & _).
    + vm_compute. reflexivity.
    + exists a. split; [exact H1|exact H2].
Defined.

Definition claims : jdict :=
  [("sub", JStr " service:tester "); ("azp", JStr "middleware-api"); ("tenant_id", JStr "TEST_SYN");
   ("scope", JStr "platform.command openid")].
Definition claimed_principal : KernelPrincipal := {|
  p_subject := "service:tester"; p_client_id := "middleware-api"; p_tenants := ["TEST_SYN"]; p_roles := [];
  p_scopes := ["platform.command"; "openid"]; p_caller := caller |}.

Lemma principal_sound_witness : p_client_id claimed_principal = caller_client_id caller.
Proof.
  apply (principal_sound claims caller (Some "production")). vm_compute. reflexivity.
Defined.

(** ** The termination of the drain at the runtime of the scenario

    The fixture adapters leave the outbox to the bus, so the drain of the
    assembled runtime ends; here it settles one command with one attempt. *)

Abbreviation FW := (World MemoryCommandStore (gmap string FixtureState)).

(** no call of a fixture writes the store *)
Lemma fixture_keeps_store cfg (s : MemoryCommandStore) :
  (forall e c, preserves (fun w : FW => store w = s) (execute (fixture cfg) e c)) /\
  (forall o c, preserves (fun w : FW => store w = s) (readback (fixture cfg) o c)).
Proof.
  assert (Hu : forall g, preserves (fun w : FW => store w = s) (update_fixture cfg g)) by (intros g; by apply preserves_modify).
  split; simpl.
  - intros e c. unfold fixture_execute, sleep. apply preserves_bind; [apply Hu|intros _].
    apply preserves_bind; [apply preserves_gets|intros f]. destruct (behaviour _ _ _) as [b f'].
    apply preserves_bind; [apply Hu|intros _].
    repeat (apply preserves_if; [|]); repeat (apply preserves_bind; [by apply preserves_modify|intros _]);
      apply preserves_ret || apply preserves_raise.
  - intros o c. unfold fixture_readback. apply preserves_bind; [apply Hu|intros _].
    apply preserves_bind; [apply preserves_gets|intros f]. apply preserves_ret.
Qed.

Lemma the_outbox_private : outbox_private the_dispatch.
Proof.
  assert (Hf : forall aid (a : Adapter FW), adapter (d_registry the_dispatch) aid = Ret a -> exists cfg, a = fixture cfg).
  { intros aid a. unfold adapter. change (d_registry the_dispatch) with the_registry.
    destruct (reg_adapters the_registry !! aid) as [x|] eqn:Hx; [|done]. intros [= ->].
    by eapply the_registry_fixtures. }
  assert (Hs : forall {A} (m : M FW A), (forall s, preserves (fun w => store w = s) m) -> unspent m).
  { intros A m Hm. apply unspent_same. intros w. by apply Hm. }
  split; [intros aid a c Ha|intros aid a e c Ha|intros aid a o c Ha|intros aid a o c Ha|done];
    destruct (Hf _ _ Ha) as [cfg ->]; apply Hs; intros s.
  - apply preserves_ret.
  - apply fixture_keeps_store.
  - simpl. unfold fixture_status. apply preserves_bind; [apply preserves_gets|intros f; apply preserves_ret].
  - apply fixture_keeps_store.
Qed.

Definition drained : outcome nat * FW := drain the_bus (fun _ => "s1"%string) 5 0 (world (submitted cmd)).

(** one pass completes the submitted command; five attempts were its budget *)
Lemma drain_terminates_witness :
  spare the_bus (world (submitted cmd)) = 5 /\ fst drained = Ret 1 /\
  spare the_bus (snd drained) = 4 /\
  (forall more, drain the_bus (fun _ => "s1"%string) (5 + more) 0 (world (submitted cmd)) = drained) /\
  forall i, i ∈ intents (snd drained) -> claimable the_bus (clock (snd drained)) i = false.
Proof.
  assert (Hs : spare the_bus (world (submitted cmd)) = 5) by (vm_compute; reflexivity).
  assert (Hr : fst drained = Ret 1) by (vm_compute; reflexivity).
  destruct (drain_terminates the_bus (fun _ => "s1"%string) 5 (world (submitted cmd)) the_outbox_private)
    as (r & w' & Hd & Hm & Hpost).
  - rewrite Hs. apply Nat.le_refl.
  - fold drained in Hd. split; [exact Hs|]. split; [exact Hr|].
    split; [vm_compute; reflexivity|]. rewrite Hd in *. split; [exact Hm|].
    simpl in Hr. rewrite Hr in Hpost. exact (proj2 Hpost).
Defined.
