(* ===== verification/PgWitnesses.v ===== *)
(** * The durable ledger's theorems on concrete inputs *)

From Stdlib Require Import QArith.
From stdpp Require Import sorting.
From S2P Require Import Prelude Json PyValue Sha256 Uuid Commands LedgerSpec Ledger LedgerFacts.
From S2P Require Import Registry Bus Reconciler MemoryBus Principal Outbox Inbox InboxFacts PgLedger.
From S2P Require Import PgLedgerFacts PgHistory PgEquivalence PgInbox PgInboxFacts Kernel Scenario.
From S2P Require Import PgProps PgInboxProps.
Local Open Scope nat_scope.
#[local] Existing Instance reference_externals.

Definition cmd : CommandEnvelope := command 7 "success".
Abbreviation cid := (env_command_id cmd).

Definition pg_submitted : CommandDB :=
  snd (pg_submit 1000%Z cmd "middleware-api" ADAPTER_COMMAND_DESTINATION None None empty_db).
Definition pg_move (st : CommandState) (e : option jdict) (d : CommandDB) : CommandDB :=
  snd (pg_transition 1001%Z "TEST_SYN" cid st "worker:1" "moved" None e None d).
Definition observed : jdict := [("state", JStr "unknown")].

(** parked with evidence, and queued again *)
Definition pg_parked : CommandDB :=
  pg_move reconciliation_required (Some observed) (pg_move dispatching None (pg_move queued None pg_submitted)).
Definition pg_requeued : CommandDB := pg_move queued None pg_parked.

Lemma pg_submitted_reachable : pg_reachable pg_submitted.
Proof. apply rtc_once, ps_submit; [vm_compute; reflexivity|reflexivity]. Qed.
Lemma pg_move_reachable st e d : pg_reachable d -> pg_reachable (pg_move st e d).
Proof. intros Hd. eapply rtc_r; [exact Hd|]. apply ps_transition. Qed.
Lemma pg_parked_reachable : pg_reachable pg_parked.
Proof. do 3 apply pg_move_reachable. apply pg_submitted_reachable. Qed.
Lemma tenant_syn : tenant_ok "TEST_SYN" = true.
Proof. vm_compute. reflexivity. Qed.

Lemma pg_refines_spec_witness :
  pg_implements (pg_transition 1002%Z "TEST_SYN" cid queued "service:reconciler" "again" None None None)
    (pg_spec_transition (db_view pg_parked ("TEST_SYN", cid)) queued None None None) pg_parked ("TEST_SYN", cid) /\
  pg_implements (pg_reconcile 1002%Z "TEST_SYN" cid true "service:reconciler" "seen" (Some "p-1") observed (Some 1%Z))
    (pg_spec_reconcile (db_view pg_parked ("TEST_SYN", cid)) true (Some "p-1") observed (Some 1%Z))
    pg_parked ("TEST_SYN", cid).
Proof.
  destruct (pg_refines_spec pg_parked 1002%Z "TEST_SYN" cid queued "service:reconciler" "again" None None None
    true observed (Some 1%Z) pg_parked_reachable tenant_syn) as [H1 _].
  destruct (pg_refines_spec pg_parked 1002%Z "TEST_SYN" cid queued "service:reconciler" "seen" (Some "p-1"%string)
    None None true observed (Some 1%Z) pg_parked_reachable tenant_syn) as (_ & H2 & _).
  split; [exact H1|exact H2].
Defined.

Lemma pg_invariant_witness :
  exists r, db_commands pg_parked !! ("TEST_SYN", cid) = Some r /\ c_state r = reconciliation_required /\
    trail None (map event_of_row (audit_of ("TEST_SYN", cid) (db_audit pg_parked))) (c_state r).
Proof.
  destruct (db_commands pg_parked !! ("TEST_SYN"%string, cid)) as [r|] eqn:Hr; [|vm_compute in Hr; discriminate Hr].
  exists r. split; [reflexivity|]. split; [vm_compute in Hr; injection Hr as <-; reflexivity|].
  apply (pg_invariant pg_parked ("TEST_SYN"%string, cid) r pg_parked_reachable Hr).
Defined.

(** a history with a duplicate, a verdict, an operator's request and refusals *)
Definition a_history : list LedgerCall := [
  call_submit 1000%Z cmd "middleware-api" ADAPTER_COMMAND_DESTINATION None None;
  call_submit 1001%Z cmd "middleware-api" ADAPTER_COMMAND_DESTINATION None None;
  call_transition 1002%Z "TEST_SYN" cid queued "worker:1" "queued" None None None;
  call_transition 1003%Z "TEST_SYN" cid dispatching "worker:1" "dispatched" None None None;
  call_transition 1004%Z "TEST_SYN" cid queued "worker:1" "illegal" None None (Some 1);
  call_mutate 1005%Z "TEST_SYN" cid act_reconcile "operator" "op-1" 1%Z "look" None;
  call_mutate 1006%Z "TEST_SYN" cid act_reconcile "operator" "op-1" 1%Z "look" None;
  call_reconcile 1007%Z "TEST_SYN" cid true "service:reconciler" "seen" (Some "p-1"%string) observed (Some 2%Z);
  call_dead_letter 1008%Z "TEST_SYN" cid "code" "class" "reason" false false;
  call_latest_attempt "TEST_SYN" cid;
  call_load_envelope "TEST_SYN" cid;
  call_latest_attempt "TEST_SYN" 8%N].

Lemma stores_agree_witness :
  Forall2 same_answer (run_history a_history empty_store) (run_history a_history empty_db) /\
  run_history a_history empty_store !! 7 =
    Some (Ret (ans_operation (identity_of cmd) completed (Some "p-1"%string) 3)).
Proof.
  split; [|vm_compute; reflexivity]. apply (stores_agree a_history).
  repeat (apply Forall_cons; split; [|]); [..|apply Forall_nil]; vm_compute; repeat split; discriminate.
Defined.

Lemma pg_evidence_lost_witness :
  exists o d1, pg_transition 1003%Z "TEST_SYN" cid dispatching "worker:1" "again" None None None pg_requeued = (Ret o, d1) /\
  let d' := pg_moves 1003%Z "TEST_SYN" cid [accepted; readback_pending] d1 in
  pg_get "TEST_SYN" cid d' = (Exc (Exn RuntimeError "read-back evidence digest has no evidence payload"), d').
Proof.
  destruct (db_commands pg_requeued !! ("TEST_SYN"%string, cid)) as [r|] eqn:Hr; [|vm_compute in Hr; discriminate Hr].
  destruct (persisted_digest [completed; reconciliation_required] ("TEST_SYN"%string, cid) (db_audit pg_requeued))
    as [g|] eqn:Hg; [|vm_compute in Hg; discriminate Hg].
  destruct (pg_evidence_lost pg_requeued "TEST_SYN" cid r g 1003%Z "worker:1" "again" [accepted; readback_pending])
    as (o & d1 & Hrun & Hget & _).
  - apply pg_move_reachable, pg_parked_reachable.
  - exact tenant_syn.
  - exact Hr.
  - vm_compute in Hr. injection Hr as <-. reflexivity.
  - exact Hg.
  - repeat constructor.
  - exists o, d1. split; [exact Hrun|exact Hget].
Defined.

(** ** The durable inbox's theorems on concrete inputs *)

Section PgInboxWitnesses.
Local Open Scope Z_scope.

Definition a_lead (tenant id key : string) (n : Z) : EventEnvelope := {|
  ev_event_id := id; ev_event_type := "codestra.lead.created"; ev_event_version := "1.0";
  ev_occurred_at := "2026-01-01T00:00:00Z"; ev_received_at := "2026-01-01T00:00:01Z"; ev_source := "crm";
  ev_tenant_id := tenant; ev_customer_id := None; ev_correlation_id := "c"; ev_causation_id := "c";
  ev_idempotency_key := key; ev_payload := [("n", JInt n)]; ev_metadata := [] |}.

(** a call whose raw body hashes to [h] *)
Definition call (e : EventEnvelope) (h : string) (dedup : option string) (now : datetime) : DurableIngress := {|
  di_ingress := {| in_envelope := e; in_producer_client_id := "producer";
                   in_semantic_sha256 := canonical_payload_sha256 (event_dump e);
                   in_deduplication_sha256 := dedup |};
  di_body_sha256 := h; di_destination := "nats-jetstream"; di_now := now; di_db_now := 0%Q |}.

(** a new event, the same event, its key with another payload, another tenant *)
Definition some_calls : list DurableIngress := [
  call (a_lead "acme" "e1" "key-1" 1) "h1" None 0;
  call (a_lead "acme" "e1" "key-1" 1) "h1" None 1;
  call (a_lead "acme" "e2" "key-1" 2) "h2" None 2;
  call (a_lead "zenith" "e1" "key-1" 1) "h3" None 3].

Lemma inboxes_agree_witness :
  fst (inbox_run (map di_ingress some_calls) empty_inbox) = fst (pg_inbox_run some_calls empty_inbox_db) /\
  map (fun o => match o with Ret r => ing_is_duplicate r | Exc _ => true end)
    (fst (pg_inbox_run some_calls empty_inbox_db)) = [false; true; true; false].
Proof.
  split; [|vm_compute; reflexivity]. destruct (inboxes_agree some_calls) as [Ha _]; [repeat constructor|exact Ha].
Defined.

(** ** Replays *)

Definition wire_call (now : datetime) : DurableIngress := call (a_lead "acme" "e1" "key-1" 1) "h1" (Some "h1"%string) now.
Definition after_wire : InboxDB := snd (pg_accept (wire_call 0) empty_inbox_db).
(** the publication intent is lost *)
Definition lost_intent : InboxDB := mkInboxDB (ib_rows after_wire) (ib_ledger after_wire) [].

Lemma after_wire_ok : pg_inbox_ok after_wire.
Proof. apply pg_accept_ok, empty_inbox_db_ok. Qed.
Lemma lost_intent_ok : pg_inbox_ok lost_intent.
Proof. apply outbox_changed_ok, after_wire_ok. Qed.

Lemma pg_replay_repairs_witness :
  exists p, pg_accept (wire_call 9) lost_intent =
    (Ret (row_duplicate (inbox_row (wire_call 0))), mkInboxDB (ib_rows lost_intent) (ib_ledger lost_intent) [p]) /\
    row_payload p = event_dump (a_lead "acme" "e1" "key-1" 1).
Proof.
  destruct (pg_replay_repairs (wire_call 9) lost_intent (inbox_row (wire_call 0)) "h1" lost_intent_ok) as (p & Hp & _ & _ & Hpay).
  - reflexivity.
  - reflexivity.
  - discriminate.
  - vm_compute. reflexivity.
  - reflexivity.
  - exists p. split; [exact Hp|exact Hpay].
Defined.

(** ** Where the inboxes differ *)

(** one source deduplicates and the other does not: the same event of one tenant,
    under two keys, is taken in twice by the in-memory inbox and once by the
    durable one *)
Theorem inboxes_differ_on_mixed_calls :
  let cs := [wire_call 0; call (a_lead "acme" "e1" "key-2" 2) "h2" None 1] in
  map (fun o => match o with Ret r => ing_is_duplicate r | Exc _ => true end)
    (fst (inbox_run (map di_ingress cs) empty_inbox)) = [false; false] /\
  map (fun o => match o with Ret r => ing_is_duplicate r | Exc _ => true end)
    (fst (pg_inbox_run cs empty_inbox_db)) = [false; true].
Proof. vm_compute. split; reflexivity. Qed.
End PgInboxWitnesses.
