(* ===== verification/AutomationWitnesses.v ===== *)
(** * The shipped automation policy

    [src/contracts/automation/operation-policy.v2.json], field by field, and the
    properties of [AutomationProps] at it. *)

From S2P Require Import Prelude Json PyValue Commands Principal Registry AutomationPolicy AutomationProps.

Definition operation_policy : json := JObj [
  ("schema_version", JStr "2.2"); ("status", JStr "SOURCE_ONLY");
  ("issuer", JStr "https://auth.codestra.co/realms/codestra"); ("audience", JStr "middleware-api");
  ("maximum_access_token_lifetime_seconds", JInt 300);
  ("scope_resolution", JStr "client_scopes_are_exact_no_implicit_union");
  ("authoritative_context", JObj [
    ("tenant", JStr "automation_job.tenant_id"); ("actor", JStr "automation_job.actor_context");
    ("workflow_family", JStr "automation_job.workflow_family");
    ("workflow_version", JStr "automation_job.workflow_version");
    ("caller_tenant_assertion_authoritative", JBool false); ("caller_actor_assertion_authoritative", JBool false)]);
  ("clients", JObj [
    ("n8n-platform-runtime", JObj [
      ("workflow_families", JArr [JStr "platform.shared"]); ("command_prefixes", JArr []);
      ("scopes", JArr [
        JStr "automation.job.claim"; JStr "automation.job.read"; JStr "automation.job.heartbeat";
        JStr "automation.job.step.write"; JStr "automation.job.complete"; JStr "automation.job.fail";
        JStr "automation.capability.read"])]);
    ("n8n-identity-automation", JObj [
      ("workflow_families", JArr [JStr "identity"; JStr "provisioning"]);
      ("command_prefixes", JArr [JStr "identity."; JStr "provisioning."]);
      ("scopes", JArr [
        JStr "automation.job.claim"; JStr "automation.job.read"; JStr "automation.job.heartbeat";
        JStr "automation.job.step.write"; JStr "automation.job.complete"; JStr "automation.job.fail";
        JStr "automation.command.read"; JStr "automation.command.identity"; JStr "automation.approval.request";
        JStr "automation.approval.read"; JStr "automation.capability.read"])]);
    ("n8n-crm-automation", JObj [
      ("workflow_families", JArr [JStr "crm"; JStr "support"]);
      ("command_prefixes", JArr [JStr "crm."; JStr "support."]);
      ("scopes", JArr [
        JStr "automation.job.claim"; JStr "automation.job.read"; JStr "automation.job.heartbeat";
        JStr "automation.job.step.write"; JStr "automation.job.complete"; JStr "automation.job.fail";
        JStr "automation.command.read"; JStr "automation.command.crm"; JStr "automation.approval.request";
        JStr "automation.approval.read"; JStr "automation.capability.read"])]);
    ("n8n-telephony-automation", JObj [
      ("workflow_families", JArr [JStr "telephony"]); ("command_prefixes", JArr [JStr "telephony."]);
      ("scopes", JArr [
        JStr "automation.job.claim"; JStr "automation.job.read"; JStr "automation.job.heartbeat";
        JStr "automation.job.step.write"; JStr "automation.job.complete"; JStr "automation.job.fail";
        JStr "automation.command.read"; JStr "automation.command.telephony"; JStr "automation.approval.request";
        JStr "automation.approval.read"; JStr "automation.capability.read"])]);
    ("n8n-messaging-automation", JObj [
      ("workflow_families", JArr [JStr "messaging.email"; JStr "messaging.sms"]);
      ("command_prefixes", JArr [JStr "email."; JStr "sms."]);
      ("scopes", JArr [
        JStr "automation.job.claim"; JStr "automation.job.read"; JStr "automation.job.heartbeat";
        JStr "automation.job.step.write"; JStr "automation.job.complete"; JStr "automation.job.fail";
        JStr "automation.command.read"; JStr "automation.command.messaging"; JStr "automation.approval.request";
        JStr "automation.approval.read"; JStr "automation.capability.read"])]);
    ("n8n-social-automation", JObj [
      ("workflow_families", JArr [JStr "social.postly"]); ("command_prefixes", JArr [JStr "social."]);
      ("scopes", JArr [
        JStr "automation.job.claim"; JStr "automation.job.read"; JStr "automation.job.heartbeat";
        JStr "automation.job.step.write"; JStr "automation.job.complete"; JStr "automation.job.fail";
        JStr "automation.command.read"; JStr "automation.command.social"; JStr "automation.approval.request";
        JStr "automation.approval.read"; JStr "automation.capability.read"])]);
    ("n8n-crawler-automation", JObj [
      ("workflow_families", JArr [JStr "crawler.kyqra"]); ("command_prefixes", JArr [JStr "crawler."]);
      ("scopes", JArr [
        JStr "automation.job.claim"; JStr "automation.job.read"; JStr "automation.job.heartbeat";
        JStr "automation.job.step.write"; JStr "automation.job.complete"; JStr "automation.job.fail";
        JStr "automation.command.read"; JStr "automation.command.crawler"; JStr "automation.approval.request";
        JStr "automation.approval.read"; JStr "automation.capability.read"])]);
    ("n8n-product-automation", JObj [
      ("workflow_families", JArr [
        JStr "product.moneybee"; JStr "product.breero"; JStr "product.larim-a"; JStr "product.freight";
        JStr "product.beyvra-nonfinancial"; JStr "product.booked4seasons"; JStr "product.trading-nonfinancial"]);
      ("command_prefixes", JArr [
        JStr "moneybee."; JStr "breero."; JStr "larim."; JStr "freight."; JStr "beyvra.operations.";
        JStr "booked4seasons."; JStr "trading.operations."; JStr "real-wallet.operations."]);
      ("scopes", JArr [
        JStr "automation.job.claim"; JStr "automation.job.read"; JStr "automation.job.heartbeat";
        JStr "automation.job.step.write"; JStr "automation.job.complete"; JStr "automation.job.fail";
        JStr "automation.command.read"; JStr "automation.command.product"; JStr "automation.approval.request";
        JStr "automation.approval.read"; JStr "automation.capability.read"])]);
    ("n8n-privacy-automation", JObj [
      ("workflow_families", JArr [JStr "privacy"]); ("command_prefixes", JArr [JStr "privacy."]);
      ("scopes", JArr [
        JStr "automation.job.claim"; JStr "automation.job.read"; JStr "automation.job.heartbeat";
        JStr "automation.job.step.write"; JStr "automation.job.complete"; JStr "automation.job.fail";
        JStr "automation.command.read"; JStr "automation.command.privacy"; JStr "automation.approval.request";
        JStr "automation.approval.read"; JStr "automation.capability.read"])]);
    ("n8n-operations-automation", JObj [
      ("workflow_families", JArr [JStr "operations"]); ("command_prefixes", JArr []);
      ("scopes", JArr [
        JStr "automation.job.claim"; JStr "automation.job.read"; JStr "automation.job.heartbeat";
        JStr "automation.job.step.write"; JStr "automation.job.complete"; JStr "automation.job.fail";
        JStr "automation.approval.request"; JStr "automation.approval.read"; JStr "automation.capability.read";
        JStr "automation.operations.reconcile"; JStr "automation.dead-letter.read";
        JStr "automation.operations.replay.request"])])]);
  ("operations", JArr [
    JObj [
      ("method", JStr "POST"); ("path", JStr "/v2/automation/jobs/claim"); ("scope", JStr "automation.job.claim");
      ("allowed_clients", JStr "all_declared_clients");
      ("required_fields", JArr [
        JStr "job_id"; JStr "delivery_token"; JStr "workflow_key"; JStr "workflow_version"; JStr "execution_id"]);
      ("constraints", JArr [JStr "job_client_family_match"; JStr "one_use_delivery_token"; JStr "atomic_lease_grant"])];
    JObj [
      ("method", JStr "GET"); ("path", JStr "/v2/automation/jobs/{job_id}"); ("scope", JStr "automation.job.read");
      ("allowed_clients", JStr "job_family_client_only");
      ("constraints", JArr [JStr "tenant_from_job"; JStr "workflow_family_match"])];
    JObj [
      ("method", JStr "POST"); ("path", JStr "/v2/automation/jobs/{job_id}/heartbeat");
      ("scope", JStr "automation.job.heartbeat"); ("allowed_clients", JStr "job_family_client_only");
      ("required_fields", JArr [JStr "lease_token"; JStr "execution_id"]);
      ("constraints", JArr [JStr "active_lease_required"; JStr "stale_execution_denied"])];
    JObj [
      ("method", JStr "POST"); ("path", JStr "/v2/automation/jobs/{job_id}/steps");
      ("scope", JStr "automation.job.step.write"); ("allowed_clients", JStr "job_family_client_only");
      ("required_fields", JArr [
        JStr "lease_token"; JStr "execution_id"; JStr "step_key"; JStr "step_state"; JStr "idempotency_key";
        JStr "recorded_at"]);
      ("constraints", JArr [JStr "active_lease_required"; JStr "step_idempotency"; JStr "safe_metadata_only"])];
    JObj [
      ("method", JStr "POST"); ("path", JStr "/v2/automation/jobs/{job_id}/complete");
      ("scope", JStr "automation.job.complete"); ("allowed_clients", JStr "job_family_client_only");
      ("required_fields", JArr [JStr "lease_token"; JStr "execution_id"; JStr "result_code"]);
      ("constraints", JArr [JStr "active_lease_required"; JStr "terminal_transition_serialized"])];
    JObj [
      ("method", JStr "POST"); ("path", JStr "/v2/automation/jobs/{job_id}/fail");
      ("scope", JStr "automation.job.fail"); ("allowed_clients", JStr "job_family_client_only");
      ("required_fields", JArr [JStr "lease_token"; JStr "execution_id"; JStr "error_code"; JStr "retryable"]);
      ("constraints", JArr [
        JStr "active_lease_required"; JStr "bounded_retry";
        JStr "unknown_outcome_not_retryable_without_reconciliation"])];
    JObj [
      ("method", JStr "POST"); ("path", JStr "/v2/automation/commands");
      ("scope", JStr "resolved_from_command_prefix"); ("allowed_clients", JStr "command_prefix_client_only");
      ("required_fields", JArr [
        JStr "job_id"; JStr "lease_token"; JStr "execution_id"; JStr "workflow_key"; JStr "workflow_version";
        JStr "step_key"; JStr "event_id"; JStr "correlation_id"; JStr "causation_id"; JStr "idempotency_key";
        JStr "command_type"; JStr "command_version"; JStr "occurred_at"; JStr "payload"]);
      ("constraints", JArr [
        JStr "active_lease_required"; JStr "job_workflow_identity_match"; JStr "command_prefix_scope_match";
        JStr "tenant_and_actor_derived_server_side"; JStr "capability_rechecked_before_effect";
        JStr "exact_replay_returns_original"; JStr "semantic_conflict_rejected"])];
    JObj [
      ("method", JStr "GET"); ("path", JStr "/v2/automation/commands/{command_id}");
      ("scope", JStr "automation.command.read"); ("allowed_clients", JStr "command_family_client_only");
      ("constraints", JArr [JStr "tenant_from_command"; JStr "job_family_match"])];
    JObj [
      ("method", JStr "POST"); ("path", JStr "/v2/automation/approvals");
      ("scope", JStr "automation.approval.request"); ("allowed_clients", JStr "job_family_client_only");
      ("required_fields", JArr [
        JStr "job_id"; JStr "approval_type"; JStr "summary"; JStr "expires_at"; JStr "idempotency_key"]);
      ("constraints", JArr [JStr "approval_policy_allowlist"; JStr "requester_cannot_self_approve"])];
    JObj [
      ("method", JStr "GET"); ("path", JStr "/v2/automation/approvals/{approval_id}");
      ("scope", JStr "automation.approval.read"); ("allowed_clients", JStr "approval_job_family_client_only");
      ("constraints", JArr [JStr "tenant_from_approval"])];
    JObj [
      ("method", JStr "POST"); ("path", JStr "/v2/automation/dead-letters/{dead_letter_id}/replay");
      ("scope", JStr "automation.operations.replay.request");
      ("allowed_clients", JArr [JStr "n8n-operations-automation"]);
      ("required_fields", JArr [
        JStr "approval_id"; JStr "idempotency_key"; JStr "expected_version"; JStr "original_effect_fingerprint";
        JStr "safe_replay_classification"; JStr "replay_reason"]);
      ("constraints", JArr [
        JStr "protected_non_self_approval"; JStr "dead_letter_version_match"; JStr "original_fingerprint_match";
        JStr "safe_replay_classification_allowlist"; JStr "capability_dead_letter_replay_enabled";
        JStr "original_tenant_preserved"])];
    JObj [
      ("method", JStr "POST"); ("path", JStr "/v2/automation/jobs/reconcile");
      ("scope", JStr "automation.operations.reconcile");
      ("allowed_clients", JArr [JStr "n8n-operations-automation"]);
      ("constraints", JArr [JStr "read_or_plan_by_default"; JStr "repair_requires_separate_policy"])];
    JObj [
      ("method", JStr "GET"); ("path", JStr "/v2/automation/capabilities/{capability}");
      ("scope", JStr "automation.capability.read"); ("allowed_clients", JStr "all_declared_clients");
      ("constraints", JArr [JStr "safe_effective_state_only"])]]);
  ("command_families", JArr [
    JObj [
      ("prefix", JStr "identity."); ("scope", JStr "automation.command.identity");
      ("client", JStr "n8n-identity-automation"); ("workflow_families", JArr [JStr "identity"])];
    JObj [
      ("prefix", JStr "provisioning."); ("scope", JStr "automation.command.identity");
      ("client", JStr "n8n-identity-automation"); ("workflow_families", JArr [JStr "provisioning"])];
    JObj [
      ("prefix", JStr "crm."); ("scope", JStr "automation.command.crm"); ("client", JStr "n8n-crm-automation");
      ("workflow_families", JArr [JStr "crm"])];
    JObj [
      ("prefix", JStr "support."); ("scope", JStr "automation.command.crm"); ("client", JStr "n8n-crm-automation");
      ("workflow_families", JArr [JStr "support"])];
    JObj [
      ("prefix", JStr "telephony."); ("scope", JStr "automation.command.telephony");
      ("client", JStr "n8n-telephony-automation"); ("workflow_families", JArr [JStr "telephony"])];
    JObj [
      ("prefix", JStr "email."); ("scope", JStr "automation.command.messaging");
      ("client", JStr "n8n-messaging-automation"); ("workflow_families", JArr [JStr "messaging.email"])];
    JObj [
      ("prefix", JStr "sms."); ("scope", JStr "automation.command.messaging");
      ("client", JStr "n8n-messaging-automation"); ("workflow_families", JArr [JStr "messaging.sms"])];
    JObj [
      ("prefix", JStr "social."); ("scope", JStr "automation.command.social");
      ("client", JStr "n8n-social-automation"); ("workflow_families", JArr [JStr "social.postly"])];
    JObj [
      ("prefix", JStr "crawler."); ("scope", JStr "automation.command.crawler");
      ("client", JStr "n8n-crawler-automation"); ("workflow_families", JArr [JStr "crawler.kyqra"])];
    JObj [
      ("prefix", JStr "moneybee."); ("scope", JStr "automation.command.product");
      ("client", JStr "n8n-product-automation"); ("workflow_families", JArr [JStr "product.moneybee"])];
    JObj [
      ("prefix", JStr "breero."); ("scope", JStr "automation.command.product");
      ("client", JStr "n8n-product-automation"); ("workflow_families", JArr [JStr "product.breero"])];
    JObj [
      ("prefix", JStr "larim."); ("scope", JStr "automation.command.product");
      ("client", JStr "n8n-product-automation"); ("workflow_families", JArr [JStr "product.larim-a"])];
    JObj [
      ("prefix", JStr "freight."); ("scope", JStr "automation.command.product");
      ("client", JStr "n8n-product-automation"); ("workflow_families", JArr [JStr "product.freight"])];
    JObj [
      ("prefix", JStr "beyvra.operations."); ("scope", JStr "automation.command.product");
      ("client", JStr "n8n-product-automation"); ("workflow_families", JArr [JStr "product.beyvra-nonfinancial"])];
    JObj [
      ("prefix", JStr "booked4seasons."); ("scope", JStr "automation.command.product");
      ("client", JStr "n8n-product-automation"); ("workflow_families", JArr [JStr "product.booked4seasons"])];
    JObj [
      ("prefix", JStr "trading.operations."); ("scope", JStr "automation.command.product");
      ("client", JStr "n8n-product-automation"); ("workflow_families", JArr [JStr "product.trading-nonfinancial"])];
    JObj [
      ("prefix", JStr "real-wallet.operations."); ("scope", JStr "automation.command.product");
      ("client", JStr "n8n-product-automation"); ("workflow_families", JArr [JStr "product.trading-nonfinancial"])];
    JObj [
      ("prefix", JStr "privacy."); ("scope", JStr "automation.command.privacy");
      ("client", JStr "n8n-privacy-automation"); ("workflow_families", JArr [JStr "privacy"])]]);
  ("product_boundaries", JObj [
    ("product.beyvra-nonfinancial", JObj [
      ("backend_repository", JStr "appolon1908-hue/beyvra-backend");
      ("frontend_repository", JStr "appolon1908-hue/beyvra-frontend");
      ("frontend_is_automation_client", JBool false);
      ("allowed_command_prefixes", JArr [JStr "beyvra.operations."]);
      ("prohibited_prefixes", JArr [
        JStr "trade."; JStr "order."; JStr "wallet."; JStr "ledger."; JStr "hold."; JStr "payment.";
        JStr "withdrawal."; JStr "deposit."; JStr "transfer."; JStr "custody."; JStr "chain."; JStr "broker.";
        JStr "provider."]);
      ("financial_effects_allowed", JBool false); ("demo_order_effects_allowed", JBool false)])]);
  ("invariants", JObj [
    ("generic_execute_scope_allowed", JBool false); ("generic_command_scope_allowed", JBool false);
    ("client_can_claim_other_family", JBool false); ("caller_tenant_authoritative", JBool false);
    ("caller_actor_authoritative", JBool false); ("active_lease_required_for_steps_and_commands", JBool true);
    ("public_provider_callbacks_to_n8n", JBool false); ("workflow_activation_enables_capability", JBool false);
    ("live_apply_authorized", JBool false)])].

Definition no_policy : AutomationPolicy := mkAutomationPolicy "" "" "" "" None "" [] [] [] [] [] [] [].

(** the policy the document loads as *)
Definition shipped : AutomationPolicy :=
  match from_mapping operation_policy with Ret p => p | Exc _ => no_policy end.

Lemma shipped_loads : from_mapping operation_policy = Ret shipped.
Proof. vm_compute. reflexivity. Qed.

Definition crm_claims : jdict := [
  ("iss", JStr "https://auth.codestra.co/realms/codestra"); ("aud", JArr [JStr "middleware-api"]);
  ("azp", JStr "n8n-crm-automation"); ("scope", JStr "automation.job.read automation.command.crm")].

Definition crm_family : CommandFamilyPolicy := mkFamily "crm." "automation.command.crm" "n8n-crm-automation" ["crm"].

(** the file's families, in the reverse of their order *)
Lemma command_resolution_unambiguous_witness :
  resolve_command_family shipped "crm.lead.create" =
    match List.find (matches "crm.lead.create") (reverse (command_families shipped)) with
    | Some f => Ret f
    | None => unauthorized "command type has no declared command family"
    end.
Proof.
  apply (command_resolution_unambiguous operation_policy shipped "crm.lead.create" (reverse (command_families shipped)) shipped_loads).
  apply reverse_Permutation.
Defined.

Lemma authorize_command_exact_witness :
  authorize_command shipped crm_claims "crm.lead.create" "crm" = Ret crm_family /\
  matches "crm.lead.create" crm_family = true /\ "crm" ∈ family_workflow_families crm_family.
Proof.
  assert (authorize_command shipped crm_claims "crm.lead.create" "crm" = Ret crm_family) as H by (vm_compute; reflexivity).
  split; [exact H|].
  destruct (proj1 (authorize_command_exact operation_policy shipped crm_claims "crm.lead.create" "crm" crm_family shipped_loads) H)
    as (_ & Hm & Hw & _).
  exact (conj Hm Hw).
Defined.

Lemma command_authority_isolated_witness :
  exists cid scopes, dict_get "azp" crm_claims = Some (JStr cid) /\ cid ∉ idle_clients /\
    token_scopes (dict_get "scope" crm_claims) = Ret scopes /\
    forall s, s ∈ scopes -> is_privileged s = false /\ is_generic s = false.
Proof.
  apply (command_authority_isolated operation_policy shipped crm_claims "crm.lead.create" "crm" crm_family shipped_loads).
  vm_compute. reflexivity.
Defined.

(** a document whose invariants are a number raises [TypeError] *)
Lemma automation_policy_errors_witness :
  let raw := JObj (dict_set "invariants" (JInt 1) (match operation_policy with JObj d => d | _ => [] end)) in
  from_mapping raw = Exc (Exn TypeError "'int' object is not iterable") /\
  raises_only [AutomationPolicyError; TypeError; ValueError] (from_mapping raw) /\
  raises_only [AutomationPolicyError] (from_mapping (JArr [])).
Proof.
  split; [vm_compute; reflexivity|]. split; [apply automation_policy_errors|]. apply automation_policy_errors. exact I.
Defined.
