(* ===== verification/DecisionWitnesses.v ===== *)
(** * Releases, canaries and orders: concrete instances

    A release and its evidence, a burst of canary runs, and orders under approval,
    with the properties of [DecisionProps], [CanaryProps] and [OrdersProps] at them. *)

From Stdlib Require Import QArith.
From S2P Require Import Prelude Json PyValue Clock Sha256 Uuid Commands Registry Principal.
From S2P Require Import Canary CanaryProps Decision Orders DecisionProps OrdersProps.
Local Open Scope Z_scope.

Definition a_release : ReleaseIdentity := {| source_sha := "5ha"; image_digest := "sha256:new"; schema_head := "0015" |}.

Definition good_detail (kind : EvidenceKind) : EvidenceDetail :=
  match kind with
  | staging => StagingEvidence "0015" true
  | release_seal => ReleaseSealEvidence "5ea1" "release-bot" true
  | canary => CanaryEvidence ["EMAIL_DELIVERY_ENABLED"] 3600 (1 # 128)
  | monitoring => MonitoringEvidence 0 true true
  | rollback => RollbackEvidence true true "sha256:old"
  | reconciliation => ReconciliationEvidence 0 0
  | approval => ApprovalEvidence "alice" (days 2) ["EMAIL_DELIVERY_ENABLED"; "SMS_DELIVERY_ENABLED"]
  end.

(** documents are valid unless they have the field the models forbid *)
Definition validate_document (kind : EvidenceKind) (raw : jdict) : Evidence + list (list string) :=
  match dict_get "unreadable" raw with
  | Some _ => inr [["unreadable"%string]]
  | None => inl {| evidence_id := "ev"; ev_status := PASS; ev_source_sha := "5ha"; ev_image_digest := "sha256:new";
                   observed_at := 0; artifact_sha256 := "a"; artifact_uri := None; detail := good_detail kind |}
  end.

Definition a_request (documents : list (string * option jdict)) : DecisionRequest := {|
  release := a_release; requested_capabilities := ["SMS_DELIVERY_ENABLED"; "EMAIL_DELIVERY_ENABLED"]; evidence := documents |}.
Definition full_request : DecisionRequest := a_request (map (fun k => (kind_name k, Some [("kind"%string, JStr (kind_name k))])) EVIDENCE_KINDS).

(** a partial GO: one capability was not exercised by the canary *)
Example partial_go :
  let rb := evaluate validate_document full_request "bob" (hours 1) from_request in
  go rb = true /\ authorized_capabilities rb = ["EMAIL_DELIVERY_ENABLED"] /\ denied_capabilities rb = ["SMS_DELIVERY_ENABLED"] /\
  partial rb = true /\ reasons rb = [] /\ map cd_reasons (capabilities rb) = [[]; ["capability_not_canaried"]].
Proof. vm_compute. repeat split. Qed.

(** the requester approved her own release *)
Example own_approval :
  let rb := evaluate validate_document full_request "alice" (hours 1) evidence_store in
  go rb = false /\ reasons rb = ["no_capability_authorized"] /\ denied_capabilities rb = ["EMAIL_DELIVERY_ENABLED"; "SMS_DELIVERY_ENABLED"].
Proof. vm_compute. repeat split. Qed.

(** a day later the monitoring evidence is stale *)
Example stale_release :
  reasons (evaluate validate_document full_request "bob" (hours 25) evidence_store) =
  ["monitoring_evidence_stale"; "reconciliation_evidence_stale"; "no_capability_authorized"].
Proof. vm_compute. reflexivity. Qed.

Lemma go_window_witness :
  go (evaluate validate_document full_request "bob" (hours 5) from_request) = true /\ hours 24 - - minutes 5 <= hours 24 + minutes 5.
Proof.
  assert (go (evaluate validate_document full_request "bob" (- minutes 5) from_request) = true) as H1 by (vm_compute; reflexivity).
  assert (go (evaluate validate_document full_request "bob" (hours 24) from_request) = true) as H2 by (vm_compute; reflexivity).
  assert (- minutes 5 <= hours 5 <= hours 24) as Ht by (split; discriminate).
  exact (go_window validate_document full_request "bob" from_request (- minutes 5) (hours 5) (hours 24) H1 H2 Ht).
Defined.

Definition validate_request (d : jdict) : option DecisionRequest := Some (a_request (evidence_field d)).
Definition a_store (path : string) : Document :=
  if String.eqb path "decision-request.json" then Readable (JObj [("requested_by"%string, JStr "bob")]) else Readable (JObj []).

Lemma store_fails_closed_witness :
  let rb := store_readback validate_document validate_request "/evidence" true a_store (hours 1) in
  go rb = true /\ authoritative rb = true /\
  go (store_readback validate_document validate_request "/evidence" true
        (fun p => if String.eqb p "canary.json" then Unreadable else a_store p) (hours 1)) = false.
Proof.
  cbn zeta. assert (go (store_readback validate_document validate_request "/evidence" true a_store (hours 1)) = true) as H
    by (vm_compute; reflexivity).
  split; [exact H|]. split; [|vm_compute; reflexivity].
  assert (forall d q, validate_request d = Some q -> evidence q = evidence_field d) as Hreq by (intros d q [= <-]; reflexivity).
  assert (forall kind raw e, validate_document kind raw = inl e -> dict_get "unreadable" raw = None) as Hval.
  { intros kind raw e. unfold validate_document. destruct (dict_get "unreadable" raw); [discriminate|reflexivity]. }
  destruct (store_fails_closed validate_document validate_request "/evidence" true a_store (hours 1) Hreq Hval H) as (_ & _ & _ & _ & Ha).
  exact Ha.
Defined.

(** ** Canary plans, and the properties of [CanaryProps] at them *)

(** the fields that tell the plans below apart *)
Definition dump_plan (p : ProviderCanaryPlan) : json :=
  JObj [("canary_id", JStr (canary_id p)); ("target", JStr (plan_target p)); ("payload_fingerprint", JStr (payload_fingerprint p))].

Definition a_plan (id payload : string) : ProviderCanaryPlan := {|
  canary_id := id; plan_tenant_id := "acme"; campaign_id := "TEST_SYN"; plan_target := "klyrow-email"; plan_provider := "postal";
  plan_capability := "email.send"; mode := synthetic; destination_fingerprints := ["sha256:d1"]; payload_fingerprint := payload;
  budget := {| max_attempts := 1; max_rate_per_minute := 2; max_spend_minor_units := 0; max_destinations := 1; max_duration_seconds := 600 |};
  not_before := 0; not_after := seconds 600;
  plan_evidence := map (fun k => {| ref_kind := k; ref_reference := "ref"; ref_digest := "sha256:e" |}) REQUIRED_EVIDENCE_KINDS;
  kill_switch := Some {| ks_reference := "switch"; ks_state := armed; ks_observed_at := 0 |};
  readback := Some {| rr_required := true; rr_source := provider_webhook; rr_timeout_seconds := 30 |} |}.

Definition staging_settings : CanaryPolicySettings := {|
  app_env := "staging"; controller_enabled := true; kill_switch_configured := false; allowed_tenant_ids := "acme, globex";
  allowed_targets := "klyrow-email"; cap_attempts := 5; cap_rate_per_minute := 2; cap_destinations := 5; cap_duration_seconds := 3600;
  cap_spend_minor_units := 0; cap_readback_max_age_seconds := 900 |}.

Definition reply_kind (r : CanaryReply) : string :=
  match r with
  | RunReply (Ret (Replayed _)) => "replayed"
  | RunReply (Ret (Denied d)) => "denied: " +:+ join ", " (Canary.cd_reasons d)
  | RunReply (Ret (Created _ _)) => "created"
  | RunReply (Exc e) => exn_name e
  | CheckReply _ => "checked"
  | SwitchReply _ => "engaged"
  end.

(** four canaries within a minute at a cap of two, one after it *)
Definition burst : list (instant * CanaryCall) := [
  (seconds 0, CreateRun (a_plan "c1" "p")); (seconds 1, CreateRun (a_plan "c2" "p")); (seconds 2, CreateRun (a_plan "c3" "p"));
  (seconds 59, CreateRun (a_plan "c3" "p")); (seconds 60, CreateRun (a_plan "c3" "p"))].

Example burst_replies :
  map reply_kind (fst (canary_run dump_plan staging_settings burst (new_canary_ledger 2 2))) =
  ["created"; "created"; "denied: RATE_BUDGET_EXHAUSTED"; "denied: RATE_BUDGET_EXHAUSTED"; "created"].
Proof. vm_compute. reflexivity. Qed.

Lemma canary_rate_bound_witness :
  let started := created_starts ("acme", "klyrow-email") (fst (canary_run dump_plan staging_settings burst (new_canary_ledger 2 2))) in
  started = [seconds 0; seconds 1; seconds 60] /\ Z.of_nat (in_window (seconds 60) started) <= Z.max 0 2.
Proof.
  cbn zeta. split; [vm_compute; reflexivity|].
  assert (in_order 0 burst) as Hord by (repeat split; discriminate).
  exact (canary_rate_bound dump_plan staging_settings 2 2 burst 0 ("acme", "klyrow-email") (seconds 60) ltac:(discriminate) Hord).
Defined.

Definition some_plans : list ProviderCanaryPlan := [a_plan "c1" "p"; a_plan "c2" "p"; a_plan "c1" "q"].

Lemma some_plans_free : collision_free dump_plan some_plans.
Proof.
  assert (forallb (fun p => forallb (fun q => negb (String.eqb (run_id_of (canary_id p) (plan_digest dump_plan p))
      (run_id_of (canary_id q) (plan_digest dump_plan q))) || String.eqb (canary_id p) (canary_id q)) some_plans) some_plans = true) as H
    by (vm_compute; reflexivity).
  intros p q Hp Hq E. rewrite forallb_forall in H. apply list_elem_of_In in Hp, Hq. apply H in Hp. rewrite forallb_forall in Hp.
  apply Hp in Hq. rewrite E, String.eqb_refl in Hq. by apply String.eqb_eq in Hq.
Qed.

Definition first_run : outcome RunAnswer * ProviderCanaryLedger :=
  create_synthetic_run dump_plan staging_settings (a_plan "c1" "p") 0 (new_canary_ledger 2 2).
Definition the_run : option (SyntheticCanaryRun * CanaryDecision) := match fst first_run with Ret (Created r d) => Some (r, d) | _ => None end.
Definition others : list (instant * CanaryCall) := [(seconds 1, CreateRun (a_plan "c2" "p")); (seconds 2, PolicyCheck (a_plan "c1" "p"))].

(** the same canary again, and another plan under its id *)
Lemma canary_runs_once_witness :
  exists r d, the_run = Some (r, d) /\
  let l2 := snd (canary_run dump_plan staging_settings others (snd first_run)) in
  create_synthetic_run dump_plan staging_settings (a_plan "c1" "p") (seconds 3) l2 = (Ret (Replayed r), l2) /\
  create_synthetic_run dump_plan staging_settings (a_plan "c1" "q") (seconds 3) l2 =
    (Exc (Exn (HTTPException 409) "canary_id was already executed with a different plan"), l2).
Proof.
  destruct the_run as [[r d]|] eqn:Hrun; [|vm_compute in Hrun; discriminate]. exists r, d. split; [reflexivity|].
  assert (first_run = (Ret (Created r d), snd first_run)) as Hfirst.
  { unfold the_run in Hrun. destruct first_run as [[[| |r' d']|] l]; try discriminate. cbn in Hrun. injection Hrun as -> ->. reflexivity. }
  assert (creations (fst (canary_run dump_plan staging_settings others (snd first_run))) < 2)%nat as Hcount
    by (apply Nat.ltb_lt; vm_compute; reflexivity).
  assert (forall x, x ∈ history_plans ([] ++ others) -> x ∈ some_plans) as Hps.
  { intros x Hx. change (x ∈ [a_plan "c2" "p"]) in Hx. apply list_elem_of_singleton in Hx as ->. right. left. }
  assert (a_plan "c1" "p" ∈ some_plans) as Hp by left.
  split.
  - assert (String.eqb (plan_digest dump_plan (a_plan "c1" "p")) (plan_digest dump_plan (a_plan "c1" "p")) = true) as E by apply String.eqb_refl.
    pose proof (canary_runs_once dump_plan staging_settings 2 2 some_plans [] (a_plan "c1" "p") 0 r d (snd first_run) others
      (a_plan "c1" "p") (seconds 3) some_plans_free Hp Hps Hfirst Hcount eq_refl) as H. rewrite E in H. exact H.
  - assert (String.eqb (plan_digest dump_plan (a_plan "c1" "p")) (plan_digest dump_plan (a_plan "c1" "q")) = false) as E by (vm_compute; reflexivity).
    pose proof (canary_runs_once dump_plan staging_settings 2 2 some_plans [] (a_plan "c1" "p") 0 r d (snd first_run) others
      (a_plan "c1" "q") (seconds 3) some_plans_free Hp Hps Hfirst Hcount eq_refl) as H. rewrite E in H. exact H.
Defined.

Lemma kill_switch_stops_canaries_witness :
  map reply_kind (fst (canary_run dump_plan staging_settings burst (snd (engage_kill_switch "ops" "drill" 0 (new_canary_ledger 2 2))))) =
    repeat "denied: KILL_SWITCH_ENGAGED"%string 5 /\
  kill_switch_engaged (snd (canary_run dump_plan staging_settings burst (snd (engage_kill_switch "ops" "drill" 0 (new_canary_ledger 2 2))))) = true.
Proof.
  split; [vm_compute; reflexivity|].
  exact (proj1 (kill_switch_stops_canaries dump_plan staging_settings burst 0 "ops" "drill" (new_canary_ledger 2 2) ltac:(discriminate))).
Defined.

(** ** Orders, and the properties of [OrdersProps] at them *)

Definition at_time (t : instant) : Timestamp := {| ts_aware := true; ts_instant := t; ts_text := isoformat t |}.
Definition pending (hash : string) : Approval :=
  {| required := true; ap_status := "pending"; approved_by := None; approved_at := None; ap_content_hash := hash |}.

Definition an_order (oid key cid : string) (payload : jdict) : OrderEnvelope := {|
  o_schema_version := "codestra.order.command.v1"; o_command_id := cid; o_event_id := "e1"; o_order_id := oid;
  o_order_type := "shipping_order"; o_source_system := "odoo"; o_organization_id := "acme"; o_customer_reference := "c1";
  o_workflow_code := "CDST-ORDER-SHIPPING-V1"; o_workflow_version := "1"; o_approval := pending "";
  o_approval_required := Some true; o_approval_status := Some "pending"; o_approval_reference := None;
  o_approval_content_hash := Some ""; o_payload := payload; o_requested_actions := ["create_fulfillment_task"];
  o_approved_actions := Some ["create_fulfillment_task"]; o_constraints := []; o_idempotency_key := key;
  o_correlation_id := "corr"; o_trace_id := "trace"; o_requested_at := at_time 0; o_expires_at := at_time (minutes 10) |}.

Definition enabled : OrderSettings := {| order_orchestration_enabled := true; n8n_order_dispatch_enabled := true; middleware_secret := "key" |}.

(** the headers a holder of the secret sends *)
Definition signed (body : jdict) : Headers := {|
  x_timestamp := Some "0"; x_nonce := Some "n"; x_body_sha256 := Some (body_sha256 body);
  x_signature := Some (hmac_sha256_hex "key" ("0.n." +:+ body_sha256 body)) |}.

Definition the_order : OrderEnvelope := an_order "order-1" "key-order-1" "cmd-1" [("box", JInt 1)].
Definition received : list (OrderCall * Headers) := [(ReceiveOrder the_order, signed (order_dump the_order))].
Definition rejected : list (OrderCall * Headers) := received ++ [(RejectOrder "order-1", signed [])].

Definition status_at (oid : string) (s : OrderStore) : string :=
  match orders s !! oid with Some r => status_name (or_status r) | None => "none" end.
Definition reply_status {A} (o : outcome A) : string := match o with Ret _ => "ok" | Exc e => exn_msg e end.

Example rejected_order : status_at "order-1" (snd (order_run enabled rejected empty_store)) = "REJECTED".
Proof. vm_compute. reflexivity. Qed.

(** a rejected order is dispatched by a request that waives its approval *)
Lemma approval_bypass_witness :
  let s := snd (order_run enabled rejected empty_store) in
  let waived := with_approval {| required := false; ap_status := "pending"; approved_by := None; approved_at := None;
                                 ap_content_hash := content_hash the_order |} the_order in
  status_at "order-1" s = "REJECTED" /\
  reply_status (fst (dispatch_order enabled the_order (signed (order_dump the_order)) 1 2 s)) = "approval is required before dispatch" /\
  exists reply s', dispatch_order enabled waived (signed (order_dump waived)) 1 2 s = (Ret reply, s') /\
    exists record', orders s' !! "order-1" = Some record' /\ or_status record' = DISPATCHED_TO_N8N.
Proof.
  cbn zeta. split; [vm_compute; reflexivity|]. split; [vm_compute; reflexivity|].
  set (s := snd (order_run enabled rejected empty_store)). set (waived := with_approval _ the_order).
  set (record := default (new_record the_order) (orders s !! "order-1")).
  assert (orders s !! "order-1" = Some record) as Hr by (vm_compute; reflexivity).
  assert (or_content_hash record = content_hash the_order) as Hh by (vm_compute; reflexivity).
  assert (dispatchable enabled 1 the_order) as Hd.
  { split_and!; [reflexivity|reflexivity| | |right; split; reflexivity].
    - apply mem_string_spec. vm_compute. reflexivity.
    - intros a Ha. change (a ∈ ["create_fulfillment_task"%string]) in Ha. apply list_elem_of_singleton in Ha as ->.
      apply mem_string_spec. vm_compute. reflexivity. }
  assert (forall c, commands s !! "cmd-1"%string = Some c -> oc_order_id c = "order-1"%string) as Hcmd.
  { assert (commands s !! "cmd-1" = None) as Hnone by (vm_compute; reflexivity). intros c Hc. rewrite Hnone in Hc. discriminate. }
  assert (verify_body_integrity enabled (order_dump waived) (signed (order_dump waived)) = Ret tt) as Hv by (vm_compute; reflexivity).
  destruct (approval_bypass enabled the_order (signed (order_dump waived)) 1 2 s record Hr Hh Hd Hcmd Hv) as (reply & s' & E & record' & Hrec & Hst & _).
  exists reply, s'. split; [exact E|]. exists record'. split; [exact Hrec|exact Hst].
Defined.

(** the same key with the same content, and with another one, after the rejection *)
Lemma order_intake_idempotent_witness :
  let first := receive_order enabled the_order (signed (order_dump the_order)) empty_store in
  let s3 := snd (order_run enabled [(RejectOrder "order-1", signed [])] (snd first)) in
  let other := an_order "order-1" "key-order-1" "cmd-1" [("box", JInt 2)] in
  reply_status (fst (receive_order enabled the_order (signed (order_dump the_order)) s3)) = "ok" /\
  receive_order enabled other (signed (order_dump other)) s3 =
    (Exc (Exn (HTTPException 409) "duplicate idempotency key conflict"), s3).
Proof.
  cbn zeta. set (h := signed (order_dump the_order)). set (first := receive_order enabled the_order h empty_store).
  set (other := an_order _ _ _ _).
  set (r := match fst first with Ret (RecordReply r _) => r | _ => new_record the_order end). set (s2 := snd first).
  assert (receive_order enabled the_order h empty_store = (Ret (RecordReply r false), s2)) as Hfirst by (vm_compute; reflexivity).
  assert (verify_body_integrity enabled (order_dump the_order) h = Ret tt) as Hv1 by (vm_compute; reflexivity).
  assert (verify_body_integrity enabled (order_dump other) (signed (order_dump other)) = Ret tt) as Hv2 by (vm_compute; reflexivity).
  assert (forall x, x ∈ received_orders [(RejectOrder "order-1", signed [])] -> o_order_id x = o_order_id the_order ->
    o_idempotency_key x = o_idempotency_key the_order) as Hcs by (intros x Hx; apply elem_of_nil in Hx; destruct Hx).
  assert (o_order_id the_order <> "") as Hne by discriminate. split.
  - destruct (order_intake_idempotent enabled _ the_order h the_order h empty_store r s2 Hfirst Hne eq_refl Hcs Hv1) as [H _].
    destruct (H eq_refl) as (r3 & _ & E). rewrite E. reflexivity.
  - assert (content_hash other <> content_hash the_order) as Hc by (apply String.eqb_neq; vm_compute; reflexivity).
    destruct (order_intake_idempotent enabled _ the_order h other (signed (order_dump other)) empty_store r s2 Hfirst Hne eq_refl Hcs Hv2) as [_ H].
    exact (H Hc).
Defined.

(** ** Where the store does less than it means to *)

(** an order id received again under another key replaces the order: its state is lost,
    and the first key, with the content it was accepted with, is now refused *)
Theorem order_overwritten :
  let again := an_order "order-1" "key-order-2" "cmd-1" [("box", JInt 2)] in
  let s := snd (order_run enabled (rejected ++ [(ReceiveOrder again, signed (order_dump again))]) empty_store) in
  status_at "order-1" s = "APPROVAL_REQUIRED" /\
  reply_status (fst (receive_order enabled the_order (signed (order_dump the_order)) s)) = "duplicate idempotency key conflict".
Proof. vm_compute. split; reflexivity. Qed.

(** two orders with one command id: a result for the second moves the first *)
Theorem result_of_another_order :
  let second := an_order "order-2" "key-order-2" "cmd-1" [("box", JInt 1)] in
  let result := {| rs_schema_version := "codestra.order.result.v1"; rs_command_id := "cmd-1"; rs_order_id := "order-2";
    rs_workflow_code := "CDST-ORDER-SHIPPING-V1"; rs_execution_id := "x"; rs_status := "failed"; rs_completed_actions := [];
    rs_failed_actions := []; rs_result := []; rs_retryable := false; rs_error_code := None; rs_error_message := None;
    rs_correlation_id := "corr"; rs_trace_id := "trace"; rs_started_at := at_time 0; rs_completed_at := at_time 1 |} in
  let s := snd (order_run enabled (received ++ [
    (CreateCommand the_order, signed (order_dump the_order)); (ReceiveOrder second, signed (order_dump second));
    (ReceiveResult result, signed (result_dump result))]) empty_store) in
  status_at "order-1" s = "PARTIALLY_COMPLETED" /\ status_at "order-2" s = "APPROVAL_REQUIRED".
Proof. vm_compute. split; reflexivity. Qed.
