(* ===== verification/AutomationJobWitnesses.v ===== *)
(** * The properties of automation jobs at a history

    A bounce report enqueues a job of the first route of
    [src/config/automation-workflow-routing.v1.json]; it is claimed, and fails
    with an unknown outcome; the replay of its dead letter is asked for,
    approved and executed. *)

From S2P Require Import Prelude Json PyValue Clock Uuid Commands Ledger Inbox AutomationPolicy.
From S2P Require Import Security Automation AutomationFacts AutomationApi.
From S2P Require Import AutomationJobProps AutomationApiProps AutomationWitnesses.
Local Open Scope Z_scope.

(** two rows of the routing document *)
Definition routing_row (type : string) : json := JObj
  [("event_type", JStr type); ("workflow_key", JStr "klyrow.email.delivery-reconcile.v1");
   ("workflow_family", JStr "messaging.email"); ("workflow_version", JInt 1);
   ("client_id", JStr "n8n-messaging-automation"); ("max_attempts", JInt 3); ("external_effect", JBool false)].
Definition routing_document : json := JObj
  [("schema_version", JStr "1.0"); ("status", JStr "SOURCE_ONLY_DISABLED");
   ("routes", JArr [routing_row "codestra.email.message.delivered"; routing_row "codestra.email.message.bounced"])].
Definition no_float (_ : string) : outcome Z := Exc (Exn ValueError "not a routing number").
Definition bounced_route : WorkflowRoute := {|
  event_type := "codestra.email.message.bounced"; workflow_key := "klyrow.email.delivery-reconcile.v1";
  workflow_family := "messaging.email"; workflow_version := 1; route_client_id := "n8n-messaging-automation";
  max_attempts := 3; external_effect := false |}.
Definition delivered_route : WorkflowRoute := {|
  event_type := "codestra.email.message.delivered"; workflow_key := "klyrow.email.delivery-reconcile.v1";
  workflow_family := "messaging.email"; workflow_version := 1; route_client_id := "n8n-messaging-automation";
  max_attempts := 3; external_effect := false |}.

Lemma routes_are_safe_witness :
  load_router no_float routing_document = Ret [delivered_route; bounced_route] /\ Forall route_ok [delivered_route; bounced_route].
Proof.
  split; [reflexivity|].
  apply (routes_are_safe no_float routing_document [delivered_route; bounced_route] ltac:(reflexivity)).
Defined.

Definition a_bounce : EventEnvelope := {|
  ev_event_id := "evt-bounce-0001"; ev_event_type := "codestra.email.message.bounced"; ev_event_version := "1.0";
  ev_occurred_at := "2026-01-05T09:00:00Z"; ev_received_at := "2026-01-05T09:00:01Z"; ev_source := "klyrow";
  ev_tenant_id := "tenant-a"; ev_customer_id := None; ev_correlation_id := "corr-1"; ev_causation_id := "cause-1";
  ev_idempotency_key := "bounce-key-1"; ev_payload := [("message_id", JStr "m-1")]; ev_metadata := [] |}.

Definition token1 : string := "delivery-token-one-0123456789abcdefghij".
Definition token2 : string := "delivery-token-two-0123456789abcdefghij".
Definition messaging : string := "n8n-messaging-automation".
Definition execution1 : UUID := 0x11111111111141118111111111111111%N.
Definition the_job : UUID := Eval vm_compute in job_id_of "tenant-a" "evt-bounce-0001" bounced_route.
Definition the_key : JobKey := ("tenant-a", the_job).
Definition mutation (key : string) : MirroredMutation :=
  {| tenant_id := "tenant-a"; correlation_id := "corr-1"; idempotency_key := key |}.
Definition the_claim : JobClaimRequest := {|
  cl_mutation := mutation "claim-key-1"; cl_job_id := the_job; cl_delivery_token := token1;
  cl_workflow_key := "klyrow.email.delivery-reconcile.v1"; cl_workflow_version := 1; cl_execution_id := execution1 |}.
Definition lease1 : string := Eval vm_compute in lease_token token1 the_job execution1 messaging.
Definition under_lease (key : string) : LeaseMutation :=
  {| le_mutation := mutation key; le_lease_token := lease1; le_execution_id := execution1 |}.
Definition done_ : TerminalResult := {|
  tr_lease := under_lease "complete-key-1"; tr_result_code := "DELIVERY_RECONCILED"; tr_safe_result := [("checked", JBool true)] |}.
Definition unknown : FailureResult := {|
  fr_lease := under_lease "fail-key-1"; fr_error_code := "PROVIDER_TIMEOUT"; fr_retryable := false;
  fr_unknown_outcome := true; fr_safe_error := [] |}.
Definition t (n : Z) : instant := seconds (1767603600 + n).

Definition enqueued : list AutomationCall := [do_enqueue token1 (t 0) a_bounce bounced_route "klyrow"].
Definition claimed_ : list AutomationCall := enqueued ++ [do_claim (t 5) the_claim messaging].
Definition dead_letter : UUID := Eval vm_compute in dead_letter_id_of "tenant-a" the_job.
Definition please : ApprovalRequest := {|
  ar_mutation := mutation "approve-key-1"; ar_job_id := the_job; ar_approval_type := "REPLAY";
  ar_summary := "confirmed not applied"; ar_expires_at := {| aware_instant := t 3600; aware_text := "2026-01-05T10:00:00+00:00" |} |}.
Definition the_approval : UUID := Eval vm_compute in approval_id_of "tenant-a" the_job "approve-key-1".
Definition again : DeadLetterReplayRequest := {|
  rp_mutation := mutation "replay-key-1"; rp_approval_id := the_approval; rp_expected_version := 1;
  rp_original_effect_fingerprint := effect_fingerprint "tenant-a" the_job "klyrow.email.delivery-reconcile.v1" "PROVIDER_TIMEOUT";
  rp_safe_replay_classification := "READBACK_CONFIRMED_NOT_APPLIED"; rp_replay_reason := "provider confirmed" |}.
Definition approved_replay : list AutomationCall :=
  claimed_ ++ [do_fail token2 (t 20) (t 20) the_job unknown messaging;
              do_request_approval (t 30) please messaging "operator-a";
              do_approve (t 40) "tenant-a" the_approval "operator-b"].
Definition the_replay (n : Z) : AutomationCall := do_replay token2 (t n) (t n) dead_letter again OPERATIONS_CLIENT.

Definition job_of (o : option RawJob) : RawJob :=
  default (new_job (new_job_data a_bounce bounced_route "klyrow" 0) "") o.
Definition job_after (cs : list AutomationCall) : RawJob := job_of (jobs (snd (automation_run cs empty_automation)) !! the_key).

Definition at_ (cs : list AutomationCall) : MemoryAutomationStore := snd (automation_run cs empty_automation).
Definition by_someone_else : AutomationCall := do_heartbeat (t 6) (t 6) the_job (under_lease "beat-key-1") "n8n-crm-automation".

Lemma automation_refusal_witness :
  exists e, automation_call by_someone_else (at_ claimed_) = (Exc e, at_ claimed_) /\ is_refusal e.
Proof.
  exists (Exn AutomationConflict "active automation lease is required").
  assert (H : automation_call by_someone_else (at_ claimed_) =
    (Exc (Exn AutomationConflict "active automation lease is required"), at_ claimed_)) by (vm_compute; reflexivity).
  split; [exact H|]. apply (automation_refusal claimed_ by_someone_else _ (at_ claimed_) H).
Defined.

Lemma lease_exclusive_witness :
  lease_token_sha256 (job_after claimed_) = Some (token_digest lease1) /\
  exists raw', jobs (snd (automation_call by_someone_else (at_ claimed_))) !! the_key = Some raw' /\
    (raw' = job_after claimed_ \/
     (exists now b client by_, by_someone_else = do_request_approval now b client by_ /\ raw' = waiting_job now (job_after claimed_)) \/
     exists b client job, lease_call by_someone_else = Some (b, client, job) /\ lease_key b job = the_key /\
       holds_lease (call_now by_someone_else) b client (job_after claimed_) = true).
Proof.
  split; [vm_compute; reflexivity|].
  apply (lease_exclusive claimed_ by_someone_else the_key (job_after claimed_)); [vm_compute; reflexivity|].
  exists (token_digest lease1). vm_compute. reflexivity.
Defined.

Lemma attempts_bounded_witness :
  let raw := job_after (approved_replay ++ [the_replay 50]) in
  attempt_count raw = 1 /\ 1 <= jb_max_attempts (job_data raw) + 1.
Proof.
  intros raw. split; [vm_compute; reflexivity|].
  assert (Hr : Forall routed (approved_replay ++ [the_replay 50])) by (repeat constructor; simpl; lia).
  pose proof (attempts_bounded (approved_replay ++ [the_replay 50]) the_key raw Hr) as H.
  destruct (automation_run (approved_replay ++ [the_replay 50]) empty_automation) as [h s] eqn:Hrun.
  assert (Hj : jobs s !! the_key = Some raw).
  { change s with (snd (h, s)). rewrite <- Hrun. vm_compute. reflexivity. }
  destruct (H Hj) as [_ H2].
  assert (Hg : count_calls (granted the_key) h = 1).
  { change h with (fst (h, s)). rewrite <- Hrun. vm_compute. reflexivity. }
  assert (Hp : count_calls (replayed the_key) h = 1).
  { change h with (fst (h, s)). rewrite <- Hrun. vm_compute. reflexivity. }
  rewrite Hg, Hp in H2. exact H2.
Defined.

Definition completed_raw : RawJob := Eval vm_compute in completed_job (t 9) done_ (job_after claimed_).
Definition after_done : MemoryAutomationStore := snd (automation_call (do_complete (t 9) (t 9) the_job done_ messaging) (at_ claimed_)).

Lemma completion_is_final_witness :
  exists raw, jobs (snd (automation_run [by_someone_else; do_claim (t 90) the_claim messaging] after_done)) !! the_key = Some raw /\
    result_code raw = Some "DELIVERY_RECONCILED".
Proof.
  assert (H : automation_call (do_complete (t 9) (t 9) the_job done_ messaging) (at_ claimed_) =
    (Ret (re_job (job_view completed_raw false)), after_done)) by (vm_compute; reflexivity).
  destruct (completion_is_final claimed_ (t 9) (t 9) the_job done_ messaging (job_view completed_raw false) after_done
    [by_someone_else; do_claim (t 90) the_claim messaging] H (eq_refl false)) as (raw & Hk & _ & Hr & _).
  exists raw. split; [exact Hk|exact Hr].
Defined.

Definition replayed_raw : RawJob := Eval vm_compute in replayed_job token2 (t 50) (job_after approved_replay).

(** the replayed job is claimed again *)
Definition the_claim2 : JobClaimRequest := {|
  cl_mutation := mutation "claim-key-2"; cl_job_id := the_job; cl_delivery_token := token2;
  cl_workflow_key := "klyrow.email.delivery-reconcile.v1"; cl_workflow_version := 1; cl_execution_id := execution1 |}.
Definition after_replay : list AutomationCall := [do_claim (t 60) the_claim2 messaging].

Lemma replay_protected_witness :
  exists s1, automation_call (the_replay 50) (at_ approved_replay) = (Ret (re_job (job_view replayed_raw false)), s1) /\
    forall n, exists e, automation_call (the_replay n) (snd (automation_run after_replay s1)) =
      (Exc e, snd (automation_run after_replay s1)).
Proof.
  exists (snd (automation_call (the_replay 50) (at_ approved_replay))).
  assert (H : automation_call (the_replay 50) (at_ approved_replay) =
    (Ret (re_job (job_view replayed_raw false)), snd (automation_call (the_replay 50) (at_ approved_replay))))
    by (vm_compute; reflexivity).
  split; [exact H|]. intros n.
  destruct (replay_protected approved_replay token2 (t 50) (t 50) dead_letter again OPERATIONS_CLIENT _ _ H) as (_ & _ & Hr).
  specialize (Hr after_replay).
  assert (Hq : forallb (fun cr => negb (dead_again (tenant_id (rp_mutation again), dead_letter) cr))
    (fst (automation_run after_replay (snd (automation_call (the_replay 50) (at_ approved_replay))))) = true)
    by (vm_compute; reflexivity).
  destruct (automation_run after_replay _) as [h s2]. apply (Hr ltac:(
    apply Forall_forall; intros cr Hin; apply negb_true_iff; apply (proj1 (forallb_forall _ _) Hq), list_elem_of_In, Hin)
    token2 (t n) (t n)).
Defined.

(** the second attempt dies like the first one: the request that was already
    executed is accepted once more, under the same approval *)
Definition lease2 : string := Eval vm_compute in lease_token token2 the_job execution1 messaging.
Definition unknown2 : FailureResult := {|
  fr_lease := {| le_mutation := mutation "fail-key-2"; le_lease_token := lease2; le_execution_id := execution1 |};
  fr_error_code := "PROVIDER_TIMEOUT"; fr_retryable := false; fr_unknown_outcome := true; fr_safe_error := [] |}.

Lemma same_replay_accepted_again :
  match fst (automation_call (the_replay 80)
      (at_ (approved_replay ++ [the_replay 50] ++ after_replay ++ [do_fail token2 (t 70) (t 70) the_job unknown2 messaging]))) with
  | Ret (re_job j) => aj_state j = RETRY_SCHEDULED /\ aj_attempt_count j = 2
  | _ => False
  end.
Proof. vm_compute. split; reflexivity. Qed.

(** a minute later the worker is gone: no call revives its job *)
Definition later : list AutomationCall :=
  [do_claim (t 70) the_claim messaging; do_heartbeat (t 71) (t 71) the_job (under_lease "beat-key-1") messaging;
   do_complete (t 72) (t 72) the_job done_ messaging; do_fail token2 (t 73) (t 73) the_job unknown messaging].

Lemma abandoned_job_stuck_witness :
  exists raw', jobs (snd (automation_run later (at_ claimed_))) !! the_key = Some raw' /\
    execution_id raw' = Some execution1 /\ lease_expires_at raw' = Some (t 65) /\
    is_state (job_state raw') [CLAIMED; RUNNING; WAITING_APPROVAL] = true.
Proof.
  destruct (abandoned_job_stuck claimed_ later the_key (job_after claimed_) (t 65)) as (raw' & Hk & He & Hl & _ & _ & Hs).
  - vm_compute. reflexivity.
  - vm_compute. reflexivity.
  - repeat constructor; vm_compute; discriminate.
  - exists raw'. split; [exact Hk|]. split; [rewrite He; vm_compute; reflexivity|]. split; [exact Hl|exact Hs].
Defined.

Lemma offered_job_completes_witness :
  exists d, dispatches (at_ enqueued) !! the_key = Some d /\ dsp_delivery_token d = token1.
Proof.
  destruct (offered_job_completes enqueued the_key (job_after enqueued) (t 5) (t 9) execution1 (mutation "claim-key-1")
    "DELIVERY_RECONCILED" []) as (d & token & Hd & _).
  - vm_compute. reflexivity.
  - vm_compute. reflexivity.
  - reflexivity.
  - vm_compute. reflexivity.
  - exists d. split; [exact Hd|].
    assert (Hx : dispatches (at_ enqueued) !! the_key = Some (new_dispatch (job_data (job_after enqueued)) token1))
      by (vm_compute; reflexivity).
    unfold at_ in Hx. rewrite Hd in Hx. injection Hx as ->. reflexivity.
Defined.

(** ** The automation routes at a request

    The messaging client of the shipped policy claims the job of a bounce report
    and, under its lease, submits an e-mail command. *)

Section AutomationApiWitnesses.
Local Open Scope Z_scope.
#[local] Existing Instance reference_externals.

Definition email_policy : CommandPolicy := {|
  prefix := "email."; policy_target := "klyrow"; policy_capability := "KLYROW_EMAIL_SEND"; readback_required := true |}.
Definition the_service : AutomationService := {|
  sv_policy := shipped; sv_router := [delivered_route; bounced_route];
  sv_policies := make_registry [email_policy] (list_to_map [("KLYROW_EMAIL_SEND", true)]); sv_umbrella_controls := [] |}.

(** a token of the messaging client *)
Definition messaging_claims : jdict := [
  ("iss", JStr "https://auth.codestra.co/realms/codestra"); ("aud", JStr "middleware-api");
  ("azp", JStr messaging); ("sub", JStr "service-account-messaging");
  ("scope", JStr "automation.job.claim automation.command.messaging")].
Definition messaging_token : string := "Bearer head.claims.signature".
Definition segments (s : string) : option json := if String.eqb s "claims" then Some (JObj messaging_claims) else None.
Definition verified (authorization client scope : string) : outcome jdict :=
  if String.eqb authorization messaging_token && String.eqb client messaging then Ret messaging_claims
  else Exc (Exn AuthenticationError "invalid bearer token").

Definition request_headers (key : string) : Headers := [
  ("Authorization", messaging_token); ("X-Tenant-ID", "tenant-a"); ("X-Correlation-ID", "corr-1");
  ("Idempotency-Key", key); ("X-Request-ID", "request-1")].
Definition tick (n : Z) : Tick := {| tk_now := t n; tk_now2 := t n; tk_datetime := 1767603600 + n; tk_token := token2 |}.
Definition api_world (cs : list AutomationCall) : ApiWorld := mkWorld (at_ cs) empty_store empty_inbox ∅.

(** the answer and the world of a call that returns *)
Definition answer (r : outcome Response * ApiWorld) : Response :=
  match fst r with Ret x => x | Exc _ => respond 0 (body_capability "" "" false "") "" end.
Definition answered (r : outcome Response * ApiWorld) : bool := match fst r with Ret _ => true | Exc _ => false end.
Lemma returns (r : outcome Response * ApiWorld) : answered r = true -> r = (Ret (answer r), snd r).
Proof. by destruct r as [[x|e] w]. Qed.

Lemma authenticated_messaging sv headers scope claims client :
  authenticated segments verified sv headers scope claims client -> claims = messaging_claims /\ client = messaging.
Proof.
  intros (a & p & _ & _ & Hv & _). revert Hv. unfold verified. destruct (String.eqb a messaging_token); [|discriminate].
  destruct (String.eqb_spec client messaging) as [->|]; [|discriminate]. cbn [andb]. intros [= <-]. split; reflexivity.
Qed.

Abbreviation claim_call :=
  (claim_automation_job segments verified the_service (tick 5) the_claim (request_headers "claim-key-1") (api_world enqueued)).

Lemma claim_route_authorized_witness :
  rs_status (answer claim_call) = 200 /\
  exists raw c, jobs (w_automation (api_world enqueued)) !! the_key = Some raw /\
    jb_expected_client_id (job_data raw) = messaging /\
    authorize_job_family shipped messaging_claims "automation.job.claim" (jb_workflow_family (job_data raw)) = Ret c.
Proof.
  split; [vm_compute; reflexivity|].
  assert (H : claim_call = (Ret (answer claim_call), snd claim_call)) by (apply returns; vm_compute; reflexivity).
  destruct (claim_route_authorized segments verified the_service (tick 5) the_claim (request_headers "claim-key-1")
    (api_world enqueued) (answer claim_call) (snd claim_call) H)
    as (_ & claims & client & raw & c & x & Ha & Hk & Hf & _ & Hc & _).
  destruct (authenticated_messaging _ _ _ _ _ Ha) as [-> ->]. exists raw, c. exact (conj Hk (conj Hc Hf)).
Defined.

Definition the_command : AutomationCommandRequest := {|
  cm_mutation := mutation "command-key-1"; cm_job_id := the_job; cm_lease_token := lease1; cm_execution_id := execution1;
  cm_workflow_key := "klyrow.email.delivery-reconcile.v1"; cm_workflow_version := 1; cm_step_key := "send-notice";
  cm_event_id := "evt-bounce-0001"; cm_causation_id := "evt-bounce-0001"; cm_command_type := "email.notice.send";
  cm_command_version := "1.0"; cm_occurred_at := {| aware_instant := t 10; aware_text := "2026-01-05T09:00:10+00:00" |};
  cm_payload := [("template", JStr "bounce-notice")] |}.
Abbreviation command_call :=
  (submit_automation_command segments verified the_service (tick 10) the_command (request_headers "command-key-1") (api_world claimed_)).

Lemma command_submission_authorized_witness :
  command_request_valid the_command = true /\ rs_status (answer command_call) = 202 /\
  exists raw p, jobs (w_automation (api_world claimed_)) !! the_key = Some raw /\
    holds_lease (t 10) (command_lease the_command) messaging raw = true /\
    matching (sv_policies the_service) "email.notice.send" = [p] /\ readback_required p = true.
Proof.
  split; [vm_compute; reflexivity|]. split; [vm_compute; reflexivity|].
  assert (H : command_call = (Ret (answer command_call), snd command_call)) by (apply returns; vm_compute; reflexivity).
  destruct (@command_submission_authorized reference_externals segments verified the_service (tick 10) the_command (request_headers "command-key-1")
    (api_world claimed_) (answer command_call) (snd command_call) H)
    as (family & client & claims & raw & c & p & command & o & _ & _ & Ha & Hk & Hl & _ & _ & _ & _ & Hm & _ & Hr & _).
  destruct (authenticated_messaging _ _ _ _ _ Ha) as [_ ->]. exists raw, p. exact (conj Hk (conj Hl (conj Hm Hr))).
Defined.

(** ** A command no family owns *)

Definition operator_claims : jdict := [
  ("iss", JStr "https://auth.codestra.co/realms/codestra"); ("aud", JStr "middleware-api");
  ("azp", JStr messaging); ("sub", JStr "service-account-messaging"); ("scope", JStr "automation.command.read")].
Definition reader_verified (authorization client scope : string) : outcome jdict :=
  if String.eqb client messaging then Ret operator_claims else Exc (Exn AuthenticationError "invalid bearer token").

(** a bus command of the same ledger, whose type is none of the policy's families *)
Definition bus_command : CommandEnvelope := {|
  env_command_id := 7%N; env_command_type := "test.syn.execute"; env_command_version := "1.0"; env_target := "test-syn";
  env_tenant_id := "tenant-a"; env_requested_by := "operator"; env_correlation_id := "corr-1"; env_idempotency_key := "bus-key-1";
  env_capability := "TEST_SYN_EXECUTE"; env_payload := [] |}.
Definition with_bus_command : ApiWorld :=
  mkWorld (at_ claimed_) (snd (submit 1767603600 bus_command "middleware-api" ADAPTER_COMMAND_DESTINATION None None empty_store)) empty_inbox ∅.
Abbreviation read_call :=
  (api_call segments reader_verified the_service (tick 20) (ask_command 7%N) (request_headers "read-key-1") with_bus_command).

End AutomationApiWitnesses.
