(* ===== verification/IngressWitnesses.v ===== *)
(** * The ingress and the durable automation store at a run

    A bounce report signed by the e-mail gateway is accepted and leaves its
    job; the Redis guard of one event; and the properties of the durable
    automation store and of atomic acceptance at a history. *)

From Stdlib Require Import QArith.
From S2P Require Import Prelude Json PyValue Clock Sha256 Uuid Commands Ledger Inbox.
From S2P Require Import PgLedger PgInbox PgInboxFacts AutomationPolicy Security Automation.
From S2P Require Import AutomationFacts PgAutomation PgAutomationFacts AutomationApi Ingress.
From S2P Require Import PgEvents PgInboxProps PgAutomationProps IngressProps PgEventsProps.
From S2P Require Import AutomationWitnesses AutomationJobWitnesses.
Local Open Scope Z_scope.

Definition gateway : string := "klyrow-gateway".
Definition gateway_event : EventEnvelope := {|
  ev_event_id := "evt-bounce-0001"; ev_event_type := "codestra.email.message.bounced"; ev_event_version := "1.0";
  ev_occurred_at := "2026-01-05T09:00:00Z"; ev_received_at := "2026-01-05T09:00:01Z"; ev_source := gateway;
  ev_tenant_id := "tenant-a"; ev_customer_id := None; ev_correlation_id := "corr-1"; ev_causation_id := "cause-1";
  ev_idempotency_key := "evt-bounce-0001"; ev_payload := [("message_id", JStr "m-1")]; ev_metadata := [] |}.
Definition gateway_route : WebhookRoute := {|
  wr_producer_client_id := gateway; wr_required_scope := "email.events.publish"; wr_path := "/api/v1/klyrow/events";
  wr_event_types := ["codestra.email.message.delivered"; "codestra.email.message.bounced"] |}.
Definition ingress_service : AutomationService := {|
  sv_policy := shipped; sv_router := [delivered_route; bounced_route]; sv_policies := make_registry [] ∅;
  sv_umbrella_controls := [] |}.

(** the webhooks of [src/config/api-webhook-contracts.json] *)
Definition shipped_webhooks : list json := [
  JObj [
    ("id", JStr "odoo-events-to-middleware");
    ("producerClientId", JStr "odoo-integration");
    ("consumerClientId", JStr "middleware-api");
    ("audience", JStr "middleware-api");
    ("requiredScope", JStr "odoo.events.publish");
    ("path", JStr "/api/v1/odoo/events");
    ("eventTypes", JArr [JStr "codestra.odoo.activity.completed"; JStr "codestra.odoo.lead.created";
      JStr "codestra.odoo.lead.updated"]);
    ("delivery", JStr "at_least_once")];
  JObj [
    ("id", JStr "n8n-results-to-middleware");
    ("producerClientId", JStr "n8n-automation");
    ("consumerClientId", JStr "middleware-api");
    ("audience", JStr "middleware-api");
    ("requiredScope", JStr "workflow.result.publish");
    ("path", JStr "/api/v1/n8n/results");
    ("eventTypes", JArr [JStr "codestra.n8n.workflow.completed"; JStr "codestra.n8n.workflow.failed"]);
    ("delivery", JStr "at_least_once")];
  JObj [
    ("id", JStr "vicidial-events-to-middleware");
    ("producerClientId", JStr "vicidial-adapter");
    ("consumerClientId", JStr "middleware-api");
    ("audience", JStr "middleware-api");
    ("requiredScope", JStr "telephony.events.publish");
    ("path", JStr "/api/v1/vicidial/events");
    ("eventTypes", JArr [JStr "codestra.events.call_disposition_updated"; JStr "codestra.vicidial.call.completed";
      JStr "codestra.vicidial.call.lifecycle.answered"; JStr "codestra.vicidial.call.lifecycle.completed";
      JStr "codestra.vicidial.call.lifecycle.connected"; JStr "codestra.vicidial.call.lifecycle.created";
      JStr "codestra.vicidial.call.lifecycle.failed"; JStr "codestra.vicidial.call.lifecycle.hangup";
      JStr "codestra.vicidial.call.lifecycle.held"; JStr "codestra.vicidial.call.lifecycle.missed";
      JStr "codestra.vicidial.call.lifecycle.offered"; JStr "codestra.vicidial.call.lifecycle.resumed";
      JStr "codestra.vicidial.call.lifecycle.ringing"; JStr "codestra.vicidial.call.lifecycle.transfer.completed";
      JStr "codestra.vicidial.call.lifecycle.transfer.started"; JStr "codestra.vicidial.call.started";
      JStr "codestra.vicidial.callback.requested"]);
    ("delivery", JStr "at_least_once")];
  JObj [
    ("id", JStr "telnexa-events-to-middleware");
    ("producerClientId", JStr "telnexa-gateway");
    ("consumerClientId", JStr "middleware-api");
    ("audience", JStr "middleware-api");
    ("requiredScope", JStr "sms.events.publish");
    ("path", JStr "/api/v1/telnexa/events");
    ("eventTypes", JArr [JStr "codestra.events.sms_received"; JStr "codestra.sms.help_requested";
      JStr "codestra.sms.inbound.received"; JStr "codestra.sms.message.delivered"; JStr "codestra.sms.message.failed";
      JStr "codestra.sms.recipient.opted_out"]);
    ("delivery", JStr "at_least_once")];
  JObj [
    ("id", JStr "klyrow-events-to-middleware");
    ("producerClientId", JStr "klyrow-gateway");
    ("consumerClientId", JStr "middleware-api");
    ("audience", JStr "middleware-api");
    ("requiredScope", JStr "email.events.publish");
    ("path", JStr "/api/v1/klyrow/events");
    ("eventTypes", JArr [JStr "codestra.email.message.bounced"; JStr "codestra.email.message.complained";
      JStr "codestra.email.message.delivered"; JStr "codestra.email.message.inbound";
      JStr "codestra.email.message.unsubscribed"]);
    ("delivery", JStr "at_least_once")];
  JObj [
    ("id", JStr "kyqra-results-to-middleware");
    ("producerClientId", JStr "kyqra-gateway");
    ("consumerClientId", JStr "middleware-api");
    ("audience", JStr "middleware-api");
    ("requiredScope", JStr "crawler.results.publish");
    ("path", JStr "/api/v1/kyqra/results");
    ("eventTypes", JArr [JStr "codestra.crawler.job.completed"; JStr "codestra.crawler.result.available";
      JStr "codestra.crawler.result.review_required"]);
    ("delivery", JStr "at_least_once")];
  JObj [
    ("id", JStr "kyqra-progress-to-middleware");
    ("producerClientId", JStr "kyqra-gateway");
    ("consumerClientId", JStr "middleware-api");
    ("audience", JStr "middleware-api");
    ("requiredScope", JStr "crawler.progress.publish");
    ("path", JStr "/api/v1/kyqra/progress");
    ("eventTypes", JArr [JStr "codestra.crawler.job.failed"; JStr "codestra.crawler.job.progress"]);
    ("delivery", JStr "at_least_once")];
  JObj [
    ("id", JStr "postly-events-to-middleware");
    ("producerClientId", JStr "postly-adapter");
    ("consumerClientId", JStr "middleware-api");
    ("audience", JStr "middleware-api");
    ("requiredScope", JStr "social.events.publish");
    ("path", JStr "/api/v1/postly/events");
    ("eventTypes", JArr [JStr "codestra.social.post.failed"; JStr "codestra.social.post.published"]);
    ("delivery", JStr "at_least_once")]].
Definition shipped_routes : list WebhookRoute := match load_webhook_routes shipped_webhooks with Ret rs => rs | Exc _ => [] end.
Definition shipped_indexes : EndpointIndex * ConnectorIndex :=
  match build_route_indexes shipped_routes with Ret x => x | Exc _ => ([], []) end.

Lemma webhook_routes_indexed_witness :
  load_webhook_routes shipped_webhooks = Ret shipped_routes /\ length shipped_routes = 8%nat /\
  map snd (fst shipped_indexes) = shipped_routes /\ NoDup (map fst (fst shipped_indexes)).
Proof.
  split; [vm_compute; reflexivity|]. split; [vm_compute; reflexivity|].
  assert (H : build_route_indexes shipped_routes = Ret (fst shipped_indexes, snd shipped_indexes)) by (vm_compute; reflexivity).
  destruct (webhook_routes_indexed shipped_routes (fst shipped_indexes) (snd shipped_indexes) H) as (Hr & Hn & _).
  exact (conj Hr Hn).
Defined.

(** the parsers at the one body and the one timestamp of the request *)
Definition body : string := dumps (JObj (event_dump gateway_event)).
Definition parse (s : string) : outcome EventEnvelope :=
  if String.eqb s body then Ret gateway_event else Exc (Exn (Foreign "JSONDecodeError" ["ValueError"; "Exception"]) "").
Definition epoch (s : string) : option (option Q) := if String.eqb s "1767603600" then Some (Some (inject_Z 1767603600)) else None.
Definition iso (_ : string) : option (option Q) := None.

Definition secret : list Z := bytes_of "0123456789abcdef0123456789abcdef".
Definition settings : SecuritySettings := {| webhook_max_clock_skew_seconds := 300; webhook_secrets := [(gateway, secret)] |}.
Definition signature : string := Eval vm_compute in
  expected_signature secret (signed_text "POST" "/api/v1/klyrow/events" "1767603600" "evt-bounce-0001" gateway (sha256_hex body)).
Definition signed_headers : Headers := [
  ("authorization", "Bearer token"); ("content-type", "application/json; charset=utf-8"); ("idempotency-key", "evt-bounce-0001");
  ("x-codestra-event-id", "evt-bounce-0001"); ("x-codestra-event-type", "codestra.email.message.bounced");
  ("x-codestra-source", gateway); ("x-codestra-tenant-id", "tenant-a"); ("x-codestra-timestamp", "1767603600");
  ("x-codestra-signature", "sha256=" +:+ signature); ("x-correlation-id", "corr-1")].
Definition gateway_claims : jdict := [("azp", JStr gateway); ("tenant_id", JStr "tenant-a")].
Definition fresh (n : nat) : string := token1.
Definition quiet_world : ApiWorld := mkWorld empty_automation empty_store empty_inbox ∅.

Abbreviation event_call :=
  (accept_event ingress_service fresh (fun _ => t 0) (webhook_ingress gateway_route gateway_event) quiet_world).
Abbreviation webhook_call :=
  (accept_webhook epoch iso parse ingress_service settings fresh (inject_Z 1767603610) (fun _ => t 0) gateway_route gateway_claims
    "POST" "/api/v1/klyrow/events" body signed_headers quiet_world).

Definition no_result : IngressResult := {|
  ing_event_id := ""; ing_tenant_id := ""; ing_status := ing_duplicate; ing_is_duplicate := true; ing_correlation_id := "" |}.
Definition the_result {A} (d : A) (r : outcome A * ApiWorld) : A := match fst r with Ret x => x | Exc _ => d end.
Definition accepted {A} (r : outcome A * ApiWorld) : bool := match fst r with Ret _ => true | Exc _ => false end.
Lemma accepts {A} (d : A) (r : outcome A * ApiWorld) : accepted r = true -> r = (Ret (the_result d r), snd r).
Proof. by destruct r as [[x|e] w]. Qed.

Lemma event_accepted_once_witness :
  ing_is_duplicate (the_result no_result event_call) = false /\
  is_Some (jobs (w_automation (snd event_call)) !! event_job gateway_event bounced_route) /\
  accept_event ingress_service (fun _ => token2) (fun _ => t 60) (webhook_ingress gateway_route gateway_event) (snd event_call) =
    (Ret (Inbox.as_duplicate (the_result no_result event_call)), snd event_call).
Proof.
  split; [vm_compute; reflexivity|].
  assert (H : event_call = (Ret (the_result no_result event_call), snd event_call)) by (apply accepts; vm_compute; reflexivity).
  destruct (event_accepted_once ingress_service fresh (fun _ => t 0) (webhook_ingress gateway_route gateway_event) quiet_world
    (the_result no_result event_call) (snd event_call) H) as (_ & _ & Hj & _ & Hd).
  split; [|apply Hd]. apply Hj. assert (for_event (sv_router ingress_service) (ev_event_type gateway_event) = [bounced_route]) as Hr
    by (vm_compute; reflexivity).
  change (ev_event_type (in_envelope (webhook_ingress gateway_route gateway_event))) with (ev_event_type gateway_event).
  rewrite Hr. left. reflexivity.
Defined.

Lemma webhook_accepted_witness :
  snd (the_result (no_result, 0) webhook_call) = 202 /\
  exists signed, verify_signed_request epoch iso settings (inject_Z 1767603610) "POST" "/api/v1/klyrow/events" body
    signed_headers gateway = Ret signed /\ sg_tenant_id signed = "tenant-a".
Proof.
  split; [vm_compute; reflexivity|].
  assert (H : webhook_call = (Ret (the_result (no_result, 0) webhook_call), snd webhook_call))
    by (apply accepts; vm_compute; reflexivity).
  rewrite (surjective_pairing (the_result (no_result, 0) webhook_call)) in H.
  destruct (webhook_accepted epoch iso parse ingress_service settings fresh (inject_Z 1767603610) (fun _ => t 0) gateway_route gateway_claims
    "POST" "/api/v1/klyrow/events" body signed_headers quiet_world _ _ _ H) as (signed & e & Hs & Hp & _ & _ & Ht & _).
  exists signed. split; [exact Hs|]. rewrite <- Ht. revert Hp. unfold parse. rewrite String.eqb_refl. intros [= <-]. reflexivity.
Defined.

(** another worker tries, and releases what it never held *)
Definition locked : Redis := snd (redis_acquire (t 0) "worker-a" "tenant-a" "evt-bounce-0001" ∅).
Lemma redis_lock_exclusive_witness :
  let r2 := snd (redis_release (t 5) "tenant-a" "evt-bounce-0001" "worker-b" locked) in
  redis_acquire (t 10) "worker-b" "tenant-a" "evt-bounce-0001" r2 =
    (Exc (Exn ReplayBusy "event is already being processed"), r2).
Proof.
  assert (H : redis_acquire (t 0) "worker-a" "tenant-a" "evt-bounce-0001" ∅ = (Ret "worker-a", locked)).
  { unfold locked, redis_acquire, redis_get. rewrite lookup_empty. reflexivity. }
  destruct (redis_lock_exclusive (t 0) "worker-a" "tenant-a" "evt-bounce-0001" ∅ locked
    [g_release (t 5) "tenant-a" "evt-bounce-0001" "worker-b"] H) as [Hr _].
  - constructor; [|constructor]. split; vm_compute; reflexivity.
  - exact (Hr (t 10) "worker-b" ltac:(vm_compute; reflexivity)).
Defined.

(** ** The properties of the durable automation store at a history

    The history of [AutomationJobWitnesses], in both stores; the approval of its
    replay is decided in the table, as an operator would. *)

(** an event's time in UTC is read back as it was written *)
Definition utc_text (s : string) : string := s.

Definition a_step : StepRecord := {|
  st_lease := under_lease "step-key-1"; st_step_key := "lookup"; st_step_state := step_completed;
  st_recorded_at := {| aware_instant := t 7; aware_text := "2026-01-05T09:00:07+00:00" |};
  st_safe_metadata := [("rows", JInt 1)] |}.
Definition both_history : list AutomationCall :=
  claimed_ ++ [do_heartbeat (t 6) (t 6) the_job (under_lease "beat-key-1") messaging;
               do_step (t 7) (t 7) the_job a_step messaging;
               by_someone_else;
               do_fail token2 (t 20) (t 20) the_job unknown messaging;
               do_request_approval (t 30) please messaging "operator-a";
               do_request_approval (t 31) please messaging "operator-a"].

#[local] Instance source_eq_dec : EqDecision (string * string * string * Z) := _.

(** the steps' sequence skipped an id before every call *)
Definition skipping (n : nat) : nat := (2 * n + 7)%nat.

Lemma durable_matches_memory_witness :
  exists h d, durable_run utc_text skipping both_history empty_automation_db = (h, d) /\
    Forall2 (fun x y => fst x = fst y /\ unnumbered_answer (snd x) = unnumbered_answer (snd y)) h
      (fst (automation_run both_history empty_automation)) /\
    jobs (at_ both_history) = jr_raw <$> t_jobs d.
Proof.
  destruct (durable_matches_memory utc_text skipping both_history (fst (automation_run both_history empty_automation)) (at_ both_history))
    as (h & d & Hd & Ha & Hj & _).
  - repeat constructor.
  - assert (Hd : bool_decide (apart source_key (omap job_source both_history) /\
        apart approval_key (omap approval_slot_of both_history) /\
        apart dead_key (map source_key (omap job_source both_history))) = true) by (vm_compute; reflexivity).
    apply bool_decide_eq_true in Hd as (H1 & H2 & H3). split; assumption.
  - unfold at_. destruct (automation_run both_history empty_automation). reflexivity.
  - refine (bool_decide_unpack _ _). vm_compute. exact I.
  - exists h, d. split; [exact Hd|]. split; [exact Ha|exact Hj].
Defined.

(** the tables once the operator has approved the replay *)
Definition decided (r : option ApprovalRow) : option ApprovalRow :=
  match r with
  | Some r => Some (approval_row_with (approval_with ap_approved (Some "operator-b") (t 40) (pr_record r)) r)
  | None => None
  end.
Definition approved_db : AutomationDB :=
  let d := snd (durable_run utc_text skipping both_history empty_automation_db) in
  match decided (t_approvals d !! ("tenant-a", the_approval)) with
  | Some r => put_approval ("tenant-a", the_approval) r d
  | None => d
  end.

Definition dies_again : list AutomationCall :=
  [do_claim (t 55) {| cl_mutation := mutation "claim-key-2"; cl_job_id := the_job; cl_delivery_token := token2;
      cl_workflow_key := "klyrow.email.delivery-reconcile.v1"; cl_workflow_version := 1; cl_execution_id := execution1 |} messaging;
   do_fail token1 (t 60) (t 60) the_job {|
      fr_lease := {| le_mutation := mutation "fail-key-2"; le_lease_token := lease_token token2 the_job execution1 messaging;
                     le_execution_id := execution1 |};
      fr_error_code := "PROVIDER_TIMEOUT"; fr_retryable := false; fr_unknown_outcome := true; fr_safe_error := [] |} messaging].
Definition again2 : DeadLetterReplayRequest := {|
  rp_mutation := mutation "replay-key-2"; rp_approval_id := the_approval; rp_expected_version := 2;
  rp_original_effect_fingerprint := effect_fingerprint "tenant-a" the_job "klyrow.email.delivery-reconcile.v1" "PROVIDER_TIMEOUT";
  rp_safe_replay_classification := "READBACK_CONFIRMED_NOT_APPLIED"; rp_replay_reason := "again" |}.

Definition replayed_db : AutomationDB := Eval vm_compute in snd (durable_call utc_text 3 (the_replay 50) approved_db).
Definition replayed_view : AutomationJob :=
  Eval vm_compute in match fst (durable_call utc_text 3 (the_replay 50) approved_db) with
                     | Ret (re_job j) => j | _ => job_view (job_after enqueued) false end.

(** the replayed job dies again; its dead letter is not reopened *)
Lemma durable_replay_once_witness :
  let d2 := snd (durable_run utc_text skipping dies_again replayed_db) in
  (jr_raw <$> t_jobs d2 !! the_key) ≫= (fun raw => Some (job_state raw)) = Some DEAD_LETTER /\
  exists dead, t_dead_letters d2 !! ("tenant-a", dead_letter) = Some dead /\ dl_state dead = dl_replay_requested /\
    exists e, durable_call utc_text 3 (do_replay token1 (t 70) (t 70) dead_letter again2 OPERATIONS_CLIENT) d2 = (Exc e, d2).
Proof.
  intros d2. split; [vm_compute; reflexivity|].
  destruct (durable_replay_once utc_text 3%nat skipping approved_db token2 (t 50) (t 50) dead_letter again OPERATIONS_CLIENT replayed_view replayed_db
    dies_again) as (dead & Hd & Hs & Hr).
  - vm_compute. reflexivity.
  - vm_compute. reflexivity.
  - exists dead. split; [exact Hd|]. split; [exact Hs|].
    apply (Hr token1 (t 70) (t 70) again2 OPERATIONS_CLIENT); [reflexivity|]. vm_compute. reflexivity.
Defined.

(** ** Atomic acceptance at an event

    The bounce report of [IngressWitnesses], accepted twice over the tables. *)

Definition durable_event : DurableIngress := {|
  di_ingress := webhook_ingress gateway_route gateway_event; di_body_sha256 := Sha256.sha256_hex body; di_destination := "";
  di_now := 1767603601; di_db_now := inject_Z 1767603601 |}.
Definition at_first : EventCall := {| ec_fresh := fresh; ec_now := fun _ => t 0; ec_ingress := durable_event |}.
Definition at_last : EventCall := {| ec_fresh := fun _ => token2; ec_now := fun _ => t 60; ec_ingress := durable_event |}.
Definition column (s : string) : string := s.

Abbreviation first_acceptance :=
  (accept_postgres_event_atomic column fresh (fun _ => t 0) [bounced_route] durable_event empty_events_db).

Lemma durable_acceptance_atomic_witness :
  fst first_acceptance = Ret (event_result gateway_event false) /\
  pg_inbox_ok (vd_inbox (snd first_acceptance)) /\
  has_job gateway_event bounced_route (vd_automation (snd first_acceptance)) /\
  forall fresh' now', accept_postgres_event_atomic column fresh' now' [bounced_route] durable_event (snd first_acceptance) =
    (Ret (event_result gateway_event true), snd first_acceptance).
Proof.
  assert (H : fst first_acceptance = Ret (event_result gateway_event false)) by (vm_compute; reflexivity).
  split; [exact H|].
  pose proof (durable_acceptance_atomic column fresh (fun _ => t 0) [bounced_route] durable_event empty_events_db empty_inbox_db_ok) as Ha.
  rewrite (surjective_pairing first_acceptance), H in Ha. cbn [ing_is_duplicate event_result] in Ha.
  destruct Ha as (_ & _ & Hok & Hjobs & _ & Hagain).
  split; [exact Hok|]. split; [exact (Forall_inv Hjobs)|exact Hagain].
Defined.

Abbreviation history := [at_first; at_last].
Abbreviation memory_history := (memory_events ingress_service history quiet_world).
Abbreviation durable_history := (durable_events column ingress_service history empty_events_db).

Lemma durable_events_match_memory_witness :
  Forall2 same_answer (fst memory_history) [Ret (event_result gateway_event false); Ret (event_result gateway_event true)] /\
  jobs (w_automation (snd memory_history)) = jr_raw <$> t_jobs (vd_automation (snd durable_history)).
Proof.
  pose proof (durable_events_match_memory column ingress_service history quiet_world) as H.
  rewrite (surjective_pairing memory_history), (surjective_pairing durable_history) in H.
  destruct H as (Ha & _ & Hj & _).
  - constructor; [|constructor; [|constructor]]; (split; [reflexivity|]);
      (constructor; [split; [vm_compute; reflexivity|split; reflexivity]|repeat constructor]).
  - repeat constructor.
  - split.
    + repeat constructor.
    + constructor.
    + repeat constructor.
  - reflexivity.
  - reflexivity.
  - split; [|exact Hj].
    assert (Hd : fst durable_history = [Ret (event_result gateway_event false); Ret (event_result gateway_event true)])
      by (vm_compute; reflexivity).
    rewrite <- Hd. exact Ha.
Defined.
